(* ===== verification/_CoqProject ===== *)
-Q . S2P
Prelude.v
KPages.v
Kmalloc.v
KmallocInv.v
KmallocRefs.v
KmallocAlloc.v
KmallocFree.v
KmallocSpec.v
Threadlist.v
Spl.v
KThread.v
KThreadInv.v
KThreadOps.v
KThreadSwitch.v
KThreadBlocks.v
KThreadIrq.v
KThreadWake.v
KThreadMigrate.v
KThreadFork.v
KThreadSystem.v
KThreadSpec.v
Bswap.v
Bitmap.v
CopyInOut.v
Uio.v
Vnode.v
BigLock.v
VfsList.v
VfsPath.v
Device.v
Lhd.v
DevVnode.v
Synch.v
SfsDisk.v
SfsCore.v
SfsBmap.v
SfsTrunc.v
SfsIo.v
SfsDir.v
SfsInode.v
SfsVnops.v
SfsFsops.v
SfsLock.v
SfsFile.v
SfsDemo.v
FileSyscalls.v
Syscall.v
SysDemo.v
AddrSpace.v
AddrSpaceInv.v
AddrSpaceOps.v
AddrSpaceSpec.v
AddrSpaceDemo.v
LoadElf.v
LoadElfSpec.v
Array.v
Printf.v
PrintfSpec.v
CString.v
CStringSpec.v
Qsort.v
SbinDisk.v
Mksfs.v
MksfsMount.v
Sfsck.v
SfsckTables.v
SfsckSound.v
SfsckDirs.v
SfsckWalk.v
SfsckCheck.v
SfsckPass2.v
SfsckMain.v
SfsckTerm.v
Interleave.v
Adder.v
Paintshop.v
PaintshopInv.v
PaintshopSafe.v
PaintshopLive.v
