(* ===== verification/Prelude.v ===== *)
(** * A verification library for the OS/161 kernel of this repository

    The repository holds the OS/161 teaching kernel with the work done on it
    for assignments; the library verifies the kernel of [src/asst2/src/kern],
    the programs of [src/asst2/src/userland/sbin] that make and check its
    volumes, and the two programs of [src/asst1].  It models the C functions
    as functions of the logic, one definition for a function (or for a loop
    or an inlined part of one), under the names of the source, and proves
    what the parts promise.

    ** The parts and the files that model them

    _Memory._  [KPages]: the boot-time pool of [arch/mips/vm/ram.c] and the
    page functions of [dumbvm.c], behind the class [PageAlloc].  [Kmalloc],
    [KmallocInv], [KmallocRefs], [KmallocAlloc], [KmallocFree],
    [KmallocSpec]: the allocator of [vm/kmalloc.c], verified against any
    [PageAlloc] with the laws [PageAllocLaws].  [AddrSpace]: the address
    spaces, the page faults and the TLB of [arch/mips/vm/dumbvm.c], with the
    address space of the current process of [proc/proc.c];
    [AddrSpaceInv], [AddrSpaceOps], [AddrSpaceSpec]: what they promise.

    _Threads._  [Threadlist]: the doubly linked lists of
    [thread/threadlist.c].  [Spl]: interrupt levels and spinlocks,
    [thread/spl.c] and [thread/spinlock.c].  [KThread]: [thread/thread.c]
    with the processes' thread counts of [proc/proc.c], the semaphores of
    [thread/synch.c], the clock of [thread/clock.c] and the interrupt entry of
    [arch/mips/locore/trap.c], on any number of processors.  [KThreadInv],
    [KThreadOps], [KThreadSwitch], [KThreadBlocks], [KThreadIrq],
    [KThreadWake], [KThreadMigrate], [KThreadFork]: the invariant and what each piece of code does to it.
    [KThreadSystem]: the executions of the whole, as sequences of events on
    the processors.  [KThreadSpec]: the theorems on them.
    [Synch]: the locks and condition variables of [synch.c], which are the
    unwritten bodies of the assignment.

    _Library code._  [Bswap] ([lib/bswap.c]), [Bitmap] ([lib/bitmap.c]),
    [Array] ([lib/array.c]), [Uio] ([lib/uio.c]), [CopyInOut]
    ([vm/copyinout.c]).

    _Devices and the VFS layer._  [Device]: the block-device interface as the
    class [BlockDevice].  [Lhd]: the disk driver [dev/lamebus/lhd.c], an
    instance of it.  [DevVnode]: the vnodes of devices and the null device,
    [vfs/device.c] and [vfs/devnull.c].  [Vnode]: [vfs/vnode.c], [vfs/vfsfail.c] and the
    operation tables as the class [VnodeOps].  [BigLock]: the recursive lock
    of the VFS layer.  [VfsList]: [vfs/vfslist.c].  [VfsPath]:
    [vfs/vfslookup.c], [vfscwd.c] and [vfspath.c].

    _SFS_ ([fs/sfs]).  [SfsDisk]: the on-disk format.  [SfsCore]: the state
    of a volume, block I/O ([sfs_io.c]) and allocation ([sfs_balloc.c]).
    [SfsBmap] and [SfsTrunc]: [sfs_bmap.c].  [SfsIo]: file I/O.  [SfsDir]:
    [sfs_dir.c].  [SfsInode]: [sfs_inode.c].  [SfsVnops]: [sfs_vnops.c].
    [SfsFsops]: [sfs_fsops.c].  [SfsLock]: the lock discipline.
    [SfsFile]: an SFS volume as an instance of [VnodeOps] and of the file
    interface of the system calls.

    _System calls._  [FileSyscalls]: [syscall/file.c].  [Syscall]: the
    dispatcher of [arch/mips/syscall/syscall.c].  [LoadElf], [LoadElfSpec]:
    [syscall/loadelf.c] and [syscall/runprogram.c], over any file system that
    has the laws of [FileVnodes] and the address spaces of [AddrSpace].

    _The C library_ ([src/asst2/src/common/libc], shared with user programs).
    [Printf], [PrintfSpec]: the printf engine, [snprintf] and [atoi].
    [CString], [CStringSpec]: the memory and string functions, and the words
    of a command in [kern/main/menu.c].  [Qsort]: [qsort] of
    [userland/lib/libc/stdlib/qsort.c].

    _Volume tools_ ([src/asst2/src/userland/sbin]).  [SbinDisk]: the disk
    access of [mksfs/disk.c].  [Mksfs]: [mksfs/mksfs.c]; [MksfsMount]: the
    volume it writes, mounted by [sfs_domount] of the kernel.  [Sfsck]: the
    checker [sfsck] with both passes and [main], over the static variables of
    its files and the disk.  Its proofs: [SfsckTables], the inode table and
    the maps; [SfsckSound], one inode; [SfsckDirs], directories on the disk;
    [SfsckWalk], pass 1; [SfsckCheck], the volume pass 1 leaves behind and
    [consistent], what a sound volume is; [SfsckPass2] and [SfsckMain], pass 2
    and the program; [SfsckTerm], the depth of the walk.

    _Assignment 1_ ([src/asst1]).  [Interleave]: sums over the threads of a
    program and executions.  [Adder]: [math.c].  [Paintshop]: [paintshop.c];
    [PaintshopInv], [PaintshopSafe], [PaintshopLive]: its invariant, its
    safety and its freedom from deadlock.

    [SfsDemo], [SysDemo], [AddrSpaceDemo] and the last sections of
    [KThreadSpec], [LoadElfSpec] and [PaintshopLive] evaluate the definitions
    on small concrete volumes, processes, processors, programs and shops, and
    apply the theorems to them.

    ** How the code is modelled

    A function that changes state is a function from the state before it to
    an [outcome] ([Ret], [Err], [Panic], [OutOfFuel], below); [wp] is total
    correctness over it, so a theorem that a function returns excludes
    panics, failed assertions, accesses outside objects and loops that run on.
    Integers are [Z] with the wrap-around of their width written out.
    Pointers are integers and the objects behind them live in finite maps,
    so that aliasing is the aliasing of the code.  What lies below (the disk
    controller, user memory, the answers of the allocator where a caller
    only tests them) is a parameter with named hypotheses.  The programs of
    [asst1] are step relations: a thread is its program counter, a step is a
    semaphore operation, an access to a shared variable or a critical region,
    and the threads interleave in any way; [P] and [V] are atomic there.

    Loops that are not structural get fuel.  The bounds are computed from the
    state (the number of blocks of a file, of threads, of pages, the length
    of a list or of a path) and the theorems show that they suffice:
    [OutOfFuel] is not an outcome of any operation they speak of.  The
    recursion of [sfsck] is on a depth that its theorem bounds by the number
    of blocks of the volume.

    ** What the theorems show

    Refinement: [kmalloc] and [kfree] implement a set of disjoint blocks, the
    thread lists and the arrays implement lists, [sfs_io] reads and writes the bytes of a
    file, directories are maps from names to inodes, the file system calls
    read and write through descriptors, and the TLB shows a process the
    memory of its address space.  Invariants over every sequence of
    operations: the heap, the thread system (each thread is in exactly one
    place: running, queued, asleep or a zombie), the device table, the file
    table of a process, the address spaces.  Termination and liveness: every
    piece of thread code that can run returns, and a ready thread gets a
    processor within as many turns as threads are queued before it.  Safety:
    locks are balanced on every path, thread code never deadlocks on a
    spinlock of its own, no wakeup of a semaphore is lost, drivers are left
    at rest, no access of a process leaves its own physical pages, and the
    paint shop neither loses nor mixes up cans.  The adders always finish with
    the right sum, and the paint shop can always serve who waits.  Round
    trips: user memory, files through descriptors, numbers printed and read
    back.  Equivalence: path and
    device names resolve as documented, a copied address space shows the
    memory of the old one, [memmove] is a copy however the blocks overlap.
    Functional: [load_elf] lays a program out as its
    file says, [qsort] sorts, and a volume made by [mksfs] mounts as an empty
    one that has the invariants the theorems on SFS start from.  Soundness of
    the checker: when [sfsck] reports a volume clean or repaired, the disk it
    leaves is [consistent] (each block in use has one owner, lies in the
    volume and is taken in the free map, inodes point to nothing past their
    end, directories are made of whole entries and name only inodes that
    exist), and the walk of pass 1 ends on every disk, loops of directories
    included.  Bounds and errors: where 32-bit arithmetic or an error path
    loses data, the theorem says exactly how.

    ** Not modelled

    Machine stacks and assembly (a stopped thread is the list of the
    functions it will return into), the other user programs and libraries,
    the menu and the kernel tests, the console, and the LAMEbus drivers other
    than the disk, the creation of processes and semfs.  Of the volume tools,
    the messages, the path names kept for them and what is under
    [#ifdef HOST]. *)

From Stdlib Require Export ZArith Lia.
From stdpp Require Export base list numbers gmap.

#[global] Open Scope Z_scope.

(** ** Machine integers

    A C integer is a [Z]; [wrap w] is the value an unsigned [w]-bit object
    holds after [z] is stored in it, [swrap w] the two's complement reading
    of a signed one. *)

Definition wrap (w z : Z) : Z := z mod 2 ^ w.

Definition swrap (w z : Z) : Z :=
  let u := z mod 2 ^ w in
  if u <? 2 ^ (w - 1) then u else u - 2 ^ w.

Abbreviation u8 := (wrap 8).
Abbreviation u16 := (wrap 16).
Abbreviation u32 := (wrap 32).
Abbreviation u64 := (wrap 64).
Abbreviation i32 := (swrap 32).
Abbreviation i64 := (swrap 64).

(** ** Error numbers, [kern/include/kern/errno.h] *)

Definition ENOSYS : Z := 1.
Definition ENOMEM : Z := 3.
Definition EAGAIN : Z := 4.
Definition EFAULT : Z := 6.
Definition ENAMETOOLONG : Z := 7.
Definition EINVAL : Z := 8.
Definition EPERM : Z := 9.
Definition ENOTDIR : Z := 17.
Definition EISDIR : Z := 18.
Definition ENOENT : Z := 19.
Definition EEXIST : Z := 22.
Definition EXDEV : Z := 24.
Definition ENODEV : Z := 25.
Definition ENXIO : Z := 26.
Definition EBUSY : Z := 27.
Definition EMFILE : Z := 28.
Definition ENFILE : Z := 29.
Definition EBADF : Z := 30.
Definition EIOCTL : Z := 31.
Definition EIO : Z := 32.
Definition ESPIPE : Z := 33.
Definition ENOSPC : Z := 36.
Definition EFBIG : Z := 38.

(** ** Kernel computations

    A kernel function that changes state is a function from the state before
    it to one of four outcomes: it returns a value, it returns an error
    number (the [if (result) return result;] idiom of the code), it panics
    (a failed [KASSERT], a call of [panic], or an access outside an object),
    or the bound given to a loop of the model was too small.  State survives
    an error return, as it does in C. *)

Inductive outcome (S A : Type) : Type :=
| Ret (a : A) (s : S)
| Err (e : Z) (s : S)
| Panic
| OutOfFuel.

Arguments Ret {S A} a s.
Arguments Err {S A} e s.
Arguments Panic {S A}.
Arguments OutOfFuel {S A}.

Definition M (S A : Type) : Type := S -> outcome S A.

Definition ret {S A} (a : A) : M S A := fun s => Ret a s.

Definition bind {S A B} (m : M S A) (f : A -> M S B) : M S B := fun s =>
  match m s with
  | Ret a s' => f a s'
  | Err e s' => Err e s'
  | Panic => Panic
  | OutOfFuel => OutOfFuel
  end.

Definition throw {S A} (e : Z) : M S A := fun s => Err e s.

Definition panic {S A} : M S A := fun _ => Panic.

(** The handler of a failed call: [result = m; if (result) { h; ... }]. *)
Definition catch {S A} (m : M S A) (h : Z -> M S A) : M S A := fun s =>
  match m s with
  | Err e s' => h e s'
  | o => o
  end.

Definition get {S} : M S S := fun s => Ret s s.
Definition put {S} (s : S) : M S unit := fun _ => Ret tt s.
Definition modify {S} (f : S -> S) : M S unit := fun s => Ret tt (f s).
Definition gets {S A} (f : S -> A) : M S A := fun s => Ret (f s) s.

Definition KASSERT {S} (b : bool) : M S unit := if b then ret tt else panic.

(** An out-of-range array access is a panic of the model. *)
Definition oob {S A} (o : option A) : M S A :=
  match o with Some a => ret a | None => panic end.

(** The bounds of a [memcpy]; outside them the model panics as well. *)
Definition in_bounds {S} (b : bool) : M S unit := if b then ret tt else panic.

(** Run a computation on a part of the state. *)
Definition zoom {S T A} (get_part : S -> T) (set_part : T -> S -> S)
    (m : M T A) : M S A := fun s =>
  match m (get_part s) with
  | Ret a t => Ret a (set_part t s)
  | Err e t => Err e (set_part t s)
  | Panic => Panic
  | OutOfFuel => OutOfFuel
  end.

(** Initialise a new object [t] with [m] and hand it back. *)
Definition init_with {S T A} (t : T) (m : M T A) : M S T := fun s =>
  match m t with
  | Ret _ t' => Ret t' s
  | Err e _ => Err e s
  | Panic => Panic
  | OutOfFuel => OutOfFuel
  end.

(** A computation that needs no state. *)
Definition stateless {S A} (m : M unit A) : M S A := fun s =>
  match m tt with
  | Ret a _ => Ret a s
  | Err e _ => Err e s
  | Panic => Panic
  | OutOfFuel => OutOfFuel
  end.

Declare Scope kernel_scope.
Delimit Scope kernel_scope with kernel.

Notation "x <- c ;; k" := (bind c (fun x => k))
  (at level 100, c at next level, right associativity) : kernel_scope.
Notation "'let*' p := c 'in' k" := (bind c (fun p => k))
  (at level 100, p pattern, c at level 99, right associativity) : kernel_scope.
Notation "c ;; k" := (bind c (fun _ => k))
  (at level 100, right associativity) : kernel_scope.

Open Scope kernel_scope.

Definition when {S} (b : bool) (m : M S unit) : M S unit :=
  if b then m else ret tt.

(** [result = m;] with the result kept for later, and [return result;]. *)
Definition result_of {S} (m : M S unit) : M S Z := catch (m ;; ret 0) (fun e => ret e).
Definition return_result {S} (r : Z) : M S unit := if r =? 0 then ret tt else throw r.

(** [for (i = lo; i < lo + n; i++) body], where [body] may [return r] from
    the enclosing function by handing back [Some r]. *)
Fixpoint for_loop {S R} (lo : Z) (n : nat) (body : Z -> M S (option R))
    : M S (option R) :=
  match n with
  | O => ret None
  | Datatypes.S n' =>
      r <- body lo ;;
      match r with
      | Some x => ret (Some x)
      | None => for_loop (lo + 1) n' body
      end
  end.

(** The same without an early return. *)
Fixpoint for_each {S} (lo : Z) (n : nat) (body : Z -> M S unit) : M S unit :=
  match n with
  | O => ret tt
  | Datatypes.S n' => body lo ;; for_each (lo + 1) n' body
  end.

(** ** Lists indexed by C integers *)

Definition zlookup {A} (l : list A) (i : Z) : option A :=
  if 0 <=? i then l !! Z.to_nat i else None.

Definition zinsert {A} (i : Z) (x : A) (l : list A) : list A :=
  if 0 <=? i then <[Z.to_nat i := x]> l else l.

(** Overwrite [length new] elements of [l] from index [off] on. *)
Definition splice {A} (off : nat) (new l : list A) : list A :=
  take off l ++ new ++ drop (off + length new) l.

Definition slice {A} (off len : nat) (l : list A) : list A :=
  take len (drop off l).

(** ** Total-correctness assertions

    [wp m Q E s] says that [m] started in [s] neither panics nor runs out of
    fuel, that a normal return satisfies [Q] and an error return [E]. *)

Definition wp {S A} (m : M S A) (Q : A -> S -> Prop) (E : Z -> S -> Prop)
    (s : S) : Prop :=
  match m s with
  | Ret a s' => Q a s'
  | Err e s' => E e s'
  | Panic | OutOfFuel => False
  end.

Arguments wp : simpl never.
Arguments bind : simpl never.
Arguments catch : simpl never.
Arguments zoom : simpl never.
Arguments init_with : simpl never.
Arguments stateless : simpl never.
Arguments wrap : simpl never.
Arguments swrap : simpl never.

(** Partial version: nothing is claimed of a panic. *)
Definition wlp {S A} (m : M S A) (Q : A -> S -> Prop) (E : Z -> S -> Prop)
    (s : S) : Prop :=
  match m s with
  | Ret a s' => Q a s'
  | Err e s' => E e s'
  | Panic | OutOfFuel => True
  end.

Arguments wlp : simpl never.

Section wp_rules.
Context {S : Type}.
Implicit Types s : S.

Lemma wp_ret {A} (a : A) (Q : A -> S -> Prop) E s : Q a s -> wp (ret a) Q E s.
Proof. done. Qed.

Lemma wp_throw {A} e (Q : A -> S -> Prop) (E : Z -> S -> Prop) s :
  E e s -> wp (throw e) Q E s.
Proof. done. Qed.

Lemma wp_get (Q : S -> S -> Prop) E s : Q s s -> wp get Q E s.
Proof. done. Qed.

Lemma wp_put s' (Q : unit -> S -> Prop) E s : Q tt s' -> wp (put s') Q E s.
Proof. done. Qed.

Lemma wp_modify f (Q : unit -> S -> Prop) E s : Q tt (f s) -> wp (modify f) Q E s.
Proof. done. Qed.

Lemma wp_gets {A} (f : S -> A) (Q : A -> S -> Prop) E s : Q (f s) s -> wp (gets f) Q E s.
Proof. done. Qed.

Lemma wp_bind {A B} (m : M S A) (f : A -> M S B) Q E s :
  wp m (fun a s' => wp (f a) Q E s') E s -> wp (bind m f) Q E s.
Proof. unfold wp, bind. by destruct (m s). Qed.

Lemma wp_mono {A} (m : M S A) (Q Q' : A -> S -> Prop) (E E' : Z -> S -> Prop) s :
  wp m Q E s -> (forall a s', Q a s' -> Q' a s') ->
  (forall e s', E e s' -> E' e s') -> wp m Q' E' s.
Proof. unfold wp. destruct (m s); eauto. Qed.

(** Use of a specification that excludes error returns. *)
Lemma wp_use {A} (m : M S A) (Q Q' : A -> S -> Prop) (E' : Z -> S -> Prop) s :
  wp m Q (fun _ _ => False) s -> (forall a s', Q a s' -> Q' a s') -> wp m Q' E' s.
Proof. intros H HQ. by eapply wp_mono. Qed.

Lemma wp_catch {A} (m : M S A) h Q E s :
  wp m Q (fun e s' => wp (h e) Q E s') s -> wp (catch m h) Q E s.
Proof. unfold wp, catch. by destruct (m s). Qed.

Lemma wp_kassert (b : bool) (Q : unit -> S -> Prop) E s :
  b = true -> Q tt s -> wp (KASSERT b) Q E s.
Proof. intros ->. done. Qed.

Lemma wp_in_bounds (b : bool) (Q : unit -> S -> Prop) E s :
  b = true -> Q tt s -> wp (in_bounds b) Q E s.
Proof. intros ->. done. Qed.

Lemma wp_oob {A} (o : option A) (a : A) (Q : A -> S -> Prop) E s :
  o = Some a -> Q a s -> wp (oob o) Q E s.
Proof. intros ->. done. Qed.

Lemma wp_when (b : bool) (m : M S unit) Q E s :
  (b = true -> wp m Q E s) -> (b = false -> Q tt s) -> wp (when b m) Q E s.
Proof. destruct b; cbn; intros H1 H2; [by apply H1 | by apply wp_ret, H2]. Qed.

Lemma wp_for_loop {R} (Inv : Z -> S -> Prop) (body : Z -> M S (option R))
    (Q : option R -> S -> Prop) E n lo s :
  Inv lo s ->
  (forall j s', lo <= j < lo + Z.of_nat n -> Inv j s' ->
     wp (body j) (fun r s2 => match r with
                              | None => Inv (j + 1) s2
                              | Some x => Q (Some x) s2
                              end) E s') ->
  (forall s', Inv (lo + Z.of_nat n) s' -> Q None s') ->
  wp (for_loop lo n body) Q E s.
Proof.
  revert lo s. induction n as [|n IH]; intros lo s HI Hb HQ; cbn [for_loop].
  - apply wp_ret, HQ. by rewrite Z.add_0_r.
  - apply wp_bind. eapply wp_mono; [apply Hb; [lia | done] | | done].
    intros [x|] s' H; [done|]. apply IH; [done| |].
    + intros j s2 Hj. apply Hb. lia.
    + intros s2 H2. apply HQ. by replace (lo + Z.of_nat (Datatypes.S n))
        with (lo + 1 + Z.of_nat n) by lia.
Qed.

Lemma wp_for_each (Inv : Z -> S -> Prop) (body : Z -> M S unit)
    (Q : unit -> S -> Prop) E n lo s :
  Inv lo s ->
  (forall j s', lo <= j < lo + Z.of_nat n -> Inv j s' ->
     wp (body j) (fun _ s2 => Inv (j + 1) s2) E s') ->
  (forall s', Inv (lo + Z.of_nat n) s' -> Q tt s') ->
  wp (for_each lo n body) Q E s.
Proof.
  revert lo s. induction n as [|n IH]; intros lo s HI Hb HQ; cbn [for_each].
  - apply wp_ret, HQ. by rewrite Z.add_0_r.
  - apply wp_bind. eapply wp_mono; [apply Hb; [lia | done] | | done].
    intros [] s' H. apply IH; [done| |].
    + intros j s2 Hj. apply Hb. lia.
    + intros s2 H2. apply HQ. by replace (lo + Z.of_nat (Datatypes.S n))
        with (lo + 1 + Z.of_nat n) by lia.
Qed.

Lemma wp_zoom {T A} (gp : S -> T) (sp : T -> S -> S) (m : M T A) Q E s :
  wp m (fun a t => Q a (sp t s)) (fun e t => E e (sp t s)) (gp s) ->
  wp (zoom gp sp m) Q E s.
Proof. unfold wp, zoom. by destruct (m (gp s)). Qed.

Lemma wp_init_with {T A} (t : T) (m : M T A) (Q : T -> S -> Prop) E s :
  wp m (fun _ t' => Q t' s) (fun e _ => E e s) t -> wp (init_with t m) Q E s.
Proof. unfold wp, init_with. by destruct (m t). Qed.

Lemma wp_stateless {A} (m : M unit A) (Q : A -> S -> Prop) E s :
  wp m (fun a _ => Q a s) (fun e _ => E e s) tt -> wp (stateless m) Q E s.
Proof. unfold wp, stateless. by destruct (m tt). Qed.

Lemma wp_run {A} (m : M S A) Q E s a s' :
  wp m Q E s -> m s = Ret a s' -> Q a s'.
Proof. unfold wp. intros H Hm. by rewrite Hm in H. Qed.

Lemma wp_ret_inv {A} (m : M S A) (Q : A -> S -> Prop) s :
  wp m Q (fun _ _ => False) s -> exists a s', m s = Ret a s' /\ Q a s'.
Proof. unfold wp. destruct (m s); naive_solver. Qed.

Lemma wp_run_err {A} (m : M S A) Q E s e s' :
  wp m Q E s -> m s = Err e s' -> E e s'.
Proof. unfold wp. intros H Hm. by rewrite Hm in H. Qed.

Lemma wlp_bind {A B} (m : M S A) (f : A -> M S B) Q E s :
  wlp m (fun a s' => wlp (f a) Q E s') E s -> wlp (bind m f) Q E s.
Proof. unfold wlp, bind. by destruct (m s). Qed.

Lemma wlp_mono {A} (m : M S A) (Q Q' : A -> S -> Prop) (E E' : Z -> S -> Prop) s :
  wlp m Q E s -> (forall a s', Q a s' -> Q' a s') ->
  (forall e s', E e s' -> E' e s') -> wlp m Q' E' s.
Proof. unfold wlp. destruct (m s); eauto. Qed.

Lemma wlp_ret {A} (a : A) (Q : A -> S -> Prop) E s : Q a s -> wlp (ret a) Q E s.
Proof. done. Qed.

Lemma wlp_throw {A} e (Q : A -> S -> Prop) (E : Z -> S -> Prop) s : E e s -> wlp (throw e) Q E s.
Proof. done. Qed.

Lemma wlp_get (Q : S -> S -> Prop) E s : Q s s -> wlp get Q E s.
Proof. done. Qed.

Lemma wlp_put s' (Q : unit -> S -> Prop) E s : Q tt s' -> wlp (put s') Q E s.
Proof. done. Qed.

Lemma wlp_modify f (Q : unit -> S -> Prop) E s : Q tt (f s) -> wlp (modify f) Q E s.
Proof. done. Qed.

Lemma wlp_gets {A} (f : S -> A) (Q : A -> S -> Prop) E s : Q (f s) s -> wlp (gets f) Q E s.
Proof. done. Qed.

Lemma wlp_catch {A} (m : M S A) h Q E s :
  wlp m Q (fun e s' => wlp (h e) Q E s') s -> wlp (catch m h) Q E s.
Proof. unfold wlp, catch. by destruct (m s). Qed.

Lemma wlp_kassert (b : bool) (Q : unit -> S -> Prop) E s : (b = true -> Q tt s) -> wlp (KASSERT b) Q E s.
Proof. destruct b; [by intros H; apply H | done]. Qed.

Lemma wlp_oob {A} (o : option A) (Q : A -> S -> Prop) E s :
  (forall a, o = Some a -> Q a s) -> wlp (oob o) Q E s.
Proof. destruct o as [a|]; [by intros H; apply H | done]. Qed.

Lemma wlp_zoom {T A} (gp : S -> T) (sp : T -> S -> S) (m : M T A) Q E s :
  wlp m (fun a t => Q a (sp t s)) (fun e t => E e (sp t s)) (gp s) -> wlp (zoom gp sp m) Q E s.
Proof. unfold wlp, zoom. by destruct (m (gp s)). Qed.

Lemma wlp_any {A} (m : M S A) (Q : A -> S -> Prop) (E : Z -> S -> Prop) s :
  (forall a s', Q a s') -> (forall e s', E e s') -> wlp m Q E s.
Proof. intros HQ HE. unfold wlp. destruct (m s); auto. Qed.

Lemma wp_wlp {A} (m : M S A) Q E s : wp m Q E s -> wlp m Q E s.
Proof. unfold wp, wlp. by destruct (m s). Qed.

End wp_rules.

(** Where an operation leaves the state, returning or failing. *)
Definition final {S A} (o : outcome S A) : option S :=
  match o with Ret _ s | Err _ s => Some s | Panic | OutOfFuel => None end.

Lemma wlp_final {S A} (m : M S A) (P : S -> Prop) s s' :
  wlp m (fun _ => P) (fun _ => P) s -> final (m s) = Some s' -> P s'.
Proof. unfold wlp. destruct (m s); cbn; intros H [= <-]; done. Qed.

(** ** Lemmas on the indexed lists *)

Section zlist.
Context {A : Type}.
Implicit Types (l : list A) (x : A).

Lemma zlookup_lt l i x :
  zlookup l i = Some x -> 0 <= i < Z.of_nat (length l).
Proof.
  unfold zlookup. destruct (Z.leb_spec 0 i); [|done].
  intros H1%lookup_lt_Some. lia.
Qed.

Lemma zlookup_is_Some l i :
  0 <= i < Z.of_nat (length l) -> exists x, zlookup l i = Some x.
Proof.
  intros H. unfold zlookup. destruct (Z.leb_spec 0 i); [|lia].
  apply lookup_lt_is_Some. lia.
Qed.

Lemma zlookup_None l i :
  ~ (0 <= i < Z.of_nat (length l)) -> zlookup l i = None.
Proof.
  intros H. unfold zlookup. destruct (Z.leb_spec 0 i); [|done].
  apply lookup_ge_None. lia.
Qed.

Lemma zinsert_length i x l : length (zinsert i x l) = length l.
Proof. unfold zinsert. destruct (0 <=? i); [apply length_insert | done]. Qed.

Lemma zlookup_insert_eq i x l :
  0 <= i < Z.of_nat (length l) -> zlookup (zinsert i x l) i = Some x.
Proof.
  intros H. unfold zlookup, zinsert. destruct (Z.leb_spec 0 i); [|lia].
  apply list_lookup_insert_eq. lia.
Qed.

Lemma zlookup_insert_ne i j x l :
  i <> j -> zlookup (zinsert i x l) j = zlookup l j.
Proof.
  intros H. unfold zlookup, zinsert.
  destruct (Z.leb_spec 0 j), (Z.leb_spec 0 i); try done.
  apply list_lookup_insert_ne. lia.
Qed.

Lemma zlookup_nat l (i : nat) : zlookup l (Z.of_nat i) = l !! i.
Proof. unfold zlookup. destruct (Z.leb_spec 0 (Z.of_nat i)); [|lia]. by rewrite Nat2Z.id. Qed.

Lemma Forall_zlookup (P : A -> Prop) l i x :
  Forall P l -> zlookup l i = Some x -> P x.
Proof.
  unfold zlookup. destruct (0 <=? i); [|done].
  intros H1 H2. by eapply Forall_lookup_1.
Qed.

Lemma Forall_zinsert (P : A -> Prop) l i x :
  Forall P l -> P x -> Forall P (zinsert i x l).
Proof.
  intros H1 H2. unfold zinsert. destruct (0 <=? i); [|done].
  by apply Forall_insert.
Qed.

Lemma zlookup_replicate n x i :
  0 <= i < Z.of_nat n -> zlookup (replicate n x) i = Some x.
Proof.
  intros H. unfold zlookup. destruct (Z.leb_spec 0 i); [|lia].
  apply lookup_replicate_2. lia.
Qed.

Lemma zinsert_id i x l : zlookup l i = Some x -> zinsert i x l = l.
Proof.
  unfold zlookup, zinsert. destruct (0 <=? i); [|done].
  apply list_insert_id.
Qed.

Lemma zinsert_insert i x y l : zinsert i x (zinsert i y l) = zinsert i x l.
Proof. unfold zinsert. destruct (0 <=? i); [apply list_insert_insert_eq | done]. Qed.

Lemma splice_length off (new l : list A) :
  (off + length new <= length l)%nat -> length (splice off new l) = length l.
Proof.
  intros H. unfold splice.
  rewrite !length_app, length_take, length_drop. lia.
Qed.

Lemma slice_length off len l :
  (off + len <= length l)%nat -> length (slice off len l) = len.
Proof. intros H. unfold slice. rewrite length_take, length_drop. lia. Qed.

Lemma slice_splice_eq off (new l : list A) :
  (off + length new <= length l)%nat -> slice off (length new) (splice off new l) = new.
Proof.
  intros H. unfold slice, splice.
  rewrite drop_app_length' by (rewrite length_take; lia).
  by rewrite take_app_length.
Qed.

Lemma lookup_splice_in off (new l : list A) i :
  (off + length new <= length l)%nat -> (off <= i < off + length new)%nat ->
  splice off new l !! i = new !! (i - off)%nat.
Proof.
  intros H Hi. unfold splice.
  rewrite lookup_app_r by (rewrite length_take; lia).
  rewrite length_take, lookup_app_l by lia. f_equal. lia.
Qed.

Lemma lookup_splice_out off (new l : list A) i :
  (off + length new <= length l)%nat ->
  (i < off \/ off + length new <= i)%nat ->
  splice off new l !! i = l !! i.
Proof.
  intros H Hi. unfold splice. destruct Hi as [Hi|Hi].
  - rewrite lookup_app_l by (rewrite length_take; lia).
    by apply lookup_take_lt.
  - rewrite lookup_app_r by (rewrite length_take; lia).
    rewrite length_take, lookup_app_r, lookup_drop by lia. f_equal. lia.
Qed.

Lemma lookup_slice off len l i :
  (i < len)%nat -> slice off len l !! i = l !! (off + i)%nat.
Proof. intros H. unfold slice. rewrite lookup_take_lt, lookup_drop by lia. done. Qed.

End zlist.

(** Elements of a list told apart by a key. *)
Lemma NoDup_fmap_elem {A B} (f : A -> B) (l : list A) x y :
  NoDup (f <$> l) -> x ∈ l -> y ∈ l -> f x = f y -> x = y.
Proof.
  intros Hd [i Hi]%list_elem_of_lookup_1 [j Hj]%list_elem_of_lookup_1 E.
  assert (i = j) as ->; [|congruence]. eapply (NoDup_lookup _ _ _ (f x) Hd).
  - by rewrite list_lookup_fmap, Hi.
  - rewrite list_lookup_fmap, Hj. cbn. congruence.
Qed.

(** ** Machine-integer lemmas *)

Lemma wrap_small w z : 0 <= z < 2 ^ w -> wrap w z = z.
Proof. apply Z.mod_small. Qed.

Lemma wrap_bound w z : 0 <= w -> 0 <= wrap w z < 2 ^ w.
Proof. intros H. apply Z.mod_pos_bound, Z.pow_pos_nonneg; lia. Qed.

Lemma swrap_small w z :
  0 < w -> - 2 ^ (w - 1) <= z < 2 ^ (w - 1) -> swrap w z = z.
Proof.
  intros Hw Hz. unfold swrap.
  assert (E : 2 ^ w = 2 * 2 ^ (w - 1)).
  { rewrite <- Z.pow_succ_r by lia. f_equal. lia. }
  assert (P : 0 < 2 ^ (w - 1)) by (apply Z.pow_pos_nonneg; lia).
  rewrite E. destruct (Z.le_gt_cases 0 z).
  - rewrite Z.mod_small by lia. destruct (Z.ltb_spec z (2 ^ (w - 1))); lia.
  - replace (z mod (2 * 2 ^ (w - 1))) with (z + 2 * 2 ^ (w - 1)).
    2:{ apply Z.mod_unique_pos with (-1); lia. }
    destruct (Z.ltb_spec (z + 2 * 2 ^ (w - 1)) (2 ^ (w - 1))); lia.
Qed.

(** Words used as sets of bits. *)

Lemma land_mask_0 w k :
  0 <= k -> (Z.land w (2 ^ k) =? 0) = negb (Z.testbit w k).
Proof.
  intros Hk. destruct (Z.testbit w k) eqn:E; cbn.
  - apply Z.eqb_neq. intros H. apply (f_equal (fun z => Z.testbit z k)) in H.
    by rewrite Z.land_spec, E, Z.pow2_bits_true, Z.bits_0 in H.
  - apply Z.eqb_eq, Z.bits_inj'. intros j Hj.
    rewrite Z.land_spec, Z.pow2_bits_eqb, Z.bits_0 by done.
    destruct (Z.eqb_spec k j) as [->|]; [by rewrite E | apply andb_false_r].
Qed.

Lemma lor_mask_testbit w k j :
  0 <= k -> 0 <= j -> Z.testbit (Z.lor w (2 ^ k)) j = if j =? k then true else Z.testbit w j.
Proof.
  intros Hk Hj. rewrite Z.lor_spec, Z.pow2_bits_eqb by done.
  rewrite (Z.eqb_sym k j). destruct (j =? k); [apply orb_true_r | apply orb_false_r].
Qed.

Lemma ldiff_mask_testbit w k j :
  0 <= k -> 0 <= j ->
  Z.testbit (Z.land w (Z.lnot (2 ^ k))) j = if j =? k then false else Z.testbit w j.
Proof.
  intros Hk Hj. rewrite Z.land_spec, Z.lnot_spec, Z.pow2_bits_eqb by done.
  rewrite (Z.eqb_sym k j). destruct (j =? k); cbn; [apply andb_false_r | apply andb_true_r].
Qed.

Lemma word_testbit_high n w k : 0 <= w < 2 ^ n -> n <= k -> Z.testbit w k = false.
Proof.
  intros [H0 H1] Hk. destruct (Z.eq_dec w 0) as [->|Hw]; [apply Z.bits_0|].
  apply Z.bits_above_log2; [lia|]. apply Z.log2_lt_pow2 in H1; lia.
Qed.

Lemma word_of_bits n w : 0 <= n -> 0 <= w -> (forall k, n <= k -> Z.testbit w k = false) -> 0 <= w < 2 ^ n.
Proof.
  intros Hn H0 H. split; [done|]. replace w with (w mod 2 ^ n); [apply Z.mod_pos_bound, Z.pow_pos_nonneg; lia|].
  apply Z.bits_inj'. intros k Hk. destruct (Z.lt_ge_cases k n).
  - by rewrite Z.mod_pow2_bits_low.
  - by rewrite Z.mod_pow2_bits_high, H by lia.
Qed.

Lemma mask_shift n k : 0 <= k < n -> wrap n (Z.shiftl 1 k) = 2 ^ k.
Proof.
  intros H. rewrite Z.shiftl_1_l. apply wrap_small.
  split; [apply Z.pow_nonneg; lia | apply Z.pow_lt_mono_r; lia].
Qed.

Lemma lor_mask_word n w k : 0 <= k < n -> 0 <= w < 2 ^ n -> 0 <= Z.lor w (2 ^ k) < 2 ^ n.
Proof.
  intros Hk Hw. apply word_of_bits; [lia| |].
  - apply Z.lor_nonneg. split; [apply Hw | apply Z.pow_nonneg; lia].
  - intros j Hj. rewrite lor_mask_testbit by lia.
    destruct (Z.eqb_spec j k); [lia | by apply (word_testbit_high n)].
Qed.

Lemma ldiff_mask_word n w k : 0 <= k < n -> 0 <= w < 2 ^ n -> 0 <= Z.land w (Z.lnot (2 ^ k)) < 2 ^ n.
Proof.
  intros Hk Hw. apply word_of_bits; [lia| |].
  - apply Z.land_nonneg. left. apply Hw.
  - intros j Hj. rewrite ldiff_mask_testbit by lia.
    destruct (Z.eqb_spec j k); [lia | by apply (word_testbit_high n)].
Qed.

(** ** Proof automation *)

(** One step of symbolic execution of a kernel computation. *)
Ltac wp_step :=
  match goal with
  | |- wp (bind _ _) _ _ _ => apply wp_bind
  | |- wp (ret _) _ _ _ => apply wp_ret
  | |- wp (throw _) _ _ _ => apply wp_throw
  | |- wp get _ _ _ => apply wp_get
  | |- wp (put _) _ _ _ => apply wp_put
  | |- wp (modify _) _ _ _ => apply wp_modify
  | |- wp (gets _) _ _ _ => apply wp_gets
  | |- wp (catch _ _) _ _ _ => apply wp_catch
  | |- wp (zoom _ _ _) _ _ _ => apply wp_zoom
  | |- wp (init_with _ _) _ _ _ => apply wp_init_with
  | |- wp (stateless _) _ _ _ => apply wp_stateless
  end.

Ltac wp_steps := repeat (wp_step; cbv beta).

(** The same for the partial version. *)
Ltac wlp_step :=
  match goal with
  | |- wlp (bind _ _) _ _ _ => apply wlp_bind
  | |- wlp (ret _) _ _ _ => apply wlp_ret
  | |- wlp (throw _) _ _ _ => apply wlp_throw
  | |- wlp get _ _ _ => apply wlp_get
  | |- wlp (put _) _ _ _ => apply wlp_put
  | |- wlp (modify _) _ _ _ => apply wlp_modify
  | |- wlp (gets _) _ _ _ => apply wlp_gets
  | |- wlp (catch _ _) _ _ _ => apply wlp_catch
  | |- wlp (oob _) _ _ _ => apply wlp_oob; intros ? ?
  | |- wlp (KASSERT _) _ _ _ => apply wlp_kassert; intros ?
  | |- wlp (zoom _ _ _) _ _ _ => apply wlp_zoom
  end.

Ltac wlp_steps := repeat (wlp_step; cbv beta).

(** Turn the boolean tests of the code into propositions. *)
Ltac zbool :=
  repeat match goal with
  | H : context [?a =? ?b] |- _ => destruct (Z.eqb_spec a b)
  | H : context [?a <? ?b] |- _ => destruct (Z.ltb_spec a b)
  | H : context [?a <=? ?b] |- _ => destruct (Z.leb_spec a b)
  | |- context [?a =? ?b] => destruct (Z.eqb_spec a b)
  | |- context [?a <? ?b] => destruct (Z.ltb_spec a b)
  | |- context [?a <=? ?b] => destruct (Z.leb_spec a b)
  end.

(** Decide a boolean goal about integer comparisons. *)
Ltac bsolve := zbool; cbn [andb orb negb]; try (done || lia).

Create HintDb kernel discriminated.
#[export] Hint Resolve wp_ret wp_kassert : kernel.
Create Rewrite HintDb kernel.
#[export] Hint Rewrite @zinsert_length @length_insert @length_replicate : kernel.

(** ** Composition of slices and splices *)

Section splices.
Context {A : Type}.
Implicit Types l : list A.

Lemma slice_app off n1 n2 l :
  slice off (n1 + n2) l = slice off n1 l ++ slice (off + n1) n2 l.
Proof. unfold slice. by rewrite <- take_take_drop, drop_drop. Qed.

Lemma splice_splice off (b1 b2 l : list A) :
  (off + length b1 + length b2 <= length l)%nat ->
  splice (off + length b1) b2 (splice off b1 l) = splice off (b1 ++ b2) l.
Proof.
  intros H. apply list_eq. intros i.
  destruct (decide (off + length b1 <= i < off + length b1 + length b2)%nat).
  - rewrite !lookup_splice_in by (rewrite ?splice_length, ?length_app; lia).
    rewrite lookup_app_r by lia. f_equal. lia.
  - rewrite lookup_splice_out by (rewrite ?splice_length; lia).
    destruct (decide (off <= i < off + length b1)%nat).
    + rewrite !lookup_splice_in by (rewrite ?length_app; lia).
      rewrite lookup_app_l by lia. done.
    + rewrite !lookup_splice_out by (rewrite ?length_app; lia). done.
Qed.

Lemma splice_nil off l : splice off [] l = l.
Proof. unfold splice. cbn. by rewrite Nat.add_0_r, take_drop. Qed.

Lemma splice_app_middle (a new b c : list A) n m :
  length a = n -> (m + length new <= length b)%nat ->
  splice (n + m) new (a ++ b ++ c) = a ++ splice m new b ++ c.
Proof.
  intros <- H. unfold splice. rewrite take_app_add.
  replace (length a + m + length new)%nat with (length a + (m + length new))%nat by lia.
  rewrite drop_app_add. rewrite take_app_le, drop_app_le by lia. by rewrite !app_assoc.
Qed.

Lemma slice_app_middle (a b c : list A) n m k :
  length a = n -> (m + k <= length b)%nat -> slice (n + m) k (a ++ b ++ c) = slice m k b.
Proof.
  intros <- H. unfold slice. rewrite drop_app_add, drop_app_le, take_app_le; [done| |lia].
  rewrite length_drop. lia.
Qed.

(** Lists of blocks of the same size, joined. *)
Definition uniform (n : nat) (l : list (list A)) : Prop := Forall (fun b => length b = n) l.

Lemma uniform_length n ll : uniform n ll -> length (concat ll) = (length ll * n)%nat.
Proof. induction 1 as [|b ll Hb _ IH]; [done|]. cbn. rewrite length_app. lia. Qed.

Lemma uniform_split n ll k b :
  uniform n ll -> ll !! k = Some b ->
  length b = n /\ concat ll = concat (take k ll) ++ b ++ concat (drop (S k) ll) /\
  length (concat (take k ll)) = (k * n)%nat.
Proof.
  intros H Hk. split; [exact (Forall_lookup_1 _ _ _ _ H Hk)|]. split.
  - rewrite <- (take_drop_middle ll k b Hk) at 1. by rewrite concat_app.
  - rewrite (uniform_length n) by (by apply Forall_take). rewrite length_take.
    apply lookup_lt_Some in Hk. f_equal. lia.
Qed.

Lemma slice_concat n ll k b m len :
  uniform n ll -> ll !! k = Some b -> (m + len <= n)%nat ->
  slice (k * n + m) len (concat ll) = slice m len b.
Proof.
  intros H Hk Hm. destruct (uniform_split n ll k b H Hk) as (Hl & -> & Hn).
  apply slice_app_middle; [done | lia].
Qed.

Lemma splice_concat n ll k b m new :
  uniform n ll -> ll !! k = Some b -> (m + length new <= n)%nat ->
  concat (<[k := splice m new b]> ll) = splice (k * n + m) new (concat ll).
Proof.
  intros H Hk Hm. destruct (uniform_split n ll k b H Hk) as (Hl & -> & Hn).
  rewrite splice_app_middle by (done || lia).
  rewrite insert_take_drop by (by apply lookup_lt_Some in Hk). by rewrite concat_app.
Qed.

Lemma slice_take off n k l : (off + n <= k)%nat -> slice off n (take k l) = slice off n l.
Proof. intros H. unfold slice. rewrite skipn_firstn_comm, take_take. f_equal. lia. Qed.

(** Replacing bytes of a prefix that may grow. *)
Lemma take_splice off (new l : list A) k :
  (off <= k)%nat -> (k <= length l)%nat -> (off + length new <= length l)%nat ->
  take (k `max` (off + length new)) (splice off new l) = splice off new (take k l).
Proof.
  intros H1 H2 H3. unfold splice. rewrite take_take, Nat.min_l by lia.
  rewrite skipn_firstn_comm, !take_app, length_take, take_take.
  f_equal; [f_equal; lia|]. f_equal; [apply take_ge; lia|]. f_equal. lia.
Qed.

Lemma splice_all (new l : list A) : length new = length l -> splice 0 new l = new.
Proof. intros H. unfold splice. cbn. by rewrite H, drop_all, app_nil_r. Qed.

End splices.
