(* ===== verification/KPages.v ===== *)
(** * Kernel pages, [kern/arch/mips/vm/ram.c] and the page allocator of
    [kern/arch/mips/vm/dumbvm.c]

    The interface a kernel component sees when it asks for whole pages
    ([PageAlloc], with its promises [PageAllocLaws]) and the implementation
    of this kernel: [ram_stealmem] hands out physical memory from the bottom
    up and [free_kpages] leaks what it is given.  The sizes are 32-bit and
    are computed with wrap-around, so the promise of [alloc_kpages] is made
    for requests below 2 GB; [stealmem_wraps] shows what a larger one does. *)

From S2P Require Import Prelude.

Definition PAGE_SIZE : Z := 4096.
Definition PAGE_FRAME : Z := 0xfffff000.
Definition MIPS_KSEG0 : Z := 0x80000000.
Definition MIPS_KSEG1 : Z := 0xa0000000.
Definition PADDR_TO_KVADDR (paddr : Z) : Z := u32 (paddr + MIPS_KSEG0).

(** ** Page numbers and offsets *)

Lemma land_page_frame x : 0 <= x < 2 ^ 32 -> Z.land x PAGE_FRAME = x - x mod PAGE_SIZE.
Proof.
  intros Hx. replace PAGE_FRAME with (Z.ldiff (Z.ones 32) (Z.ones 12)) by done.
  assert (E : Z.land x (Z.ldiff (Z.ones 32) (Z.ones 12)) = Z.ldiff (Z.land x (Z.ones 32)) (Z.ones 12)).
  { apply Z.bits_inj'. intros k Hk. rewrite !Z.land_spec, !Z.ldiff_spec, Z.land_spec. by rewrite andb_assoc. }
  rewrite E, Z.land_ones, Z.mod_small by lia. rewrite Z.ldiff_ones_r by lia.
  rewrite Z.shiftl_mul_pow2, Z.shiftr_div_pow2 by lia. unfold PAGE_SIZE.
  change (2 ^ 12) with 4096. pose proof (Z.div_mod x 4096). lia.
Qed.

Lemma land_page_offset x : 0 <= x < 2 ^ 32 -> Z.land x (Z.lnot PAGE_FRAME) = x mod PAGE_SIZE.
Proof.
  intros Hx. rewrite <- Z.ldiff_land.
  assert (E : Z.ldiff x PAGE_FRAME = Z.ldiff x (Z.land x PAGE_FRAME)).
  { apply Z.bits_inj'. intros k Hk. rewrite !Z.ldiff_spec, Z.land_spec.
    by destruct (Z.testbit x k), (Z.testbit PAGE_FRAME k). }
  rewrite E, <- Z.sub_nocarry_ldiff.
  - rewrite land_page_frame by done. lia.
  - apply Z.bits_inj'. intros k Hk. rewrite Z.ldiff_spec, Z.land_spec, Z.bits_0.
    by destruct (Z.testbit x k), (Z.testbit PAGE_FRAME k).
Qed.

(** ** The interface

    [spinlocks] is [curcpu->c_spinlocks], the number of spinlocks the
    processor holds: a page may be asked for only when it is 0.  The blocks
    handed out and not given back are a map from addresses to page counts;
    [pages_rep] relates it to the state of the allocator.  [exhausted] is the
    condition that a request for one page has failed. *)

Class PageAlloc (P : Type) := {
  alloc_kpages : Z -> Z -> M P Z;
  free_kpages : Z -> M P unit;
  pages_rep : P -> gmap Z Z -> Prop;
  exhausted : P -> Prop
}.

Definition blocks_apart (a n b m : Z) : Prop := a + n <= b \/ b + m <= a.

(** A block of [n] pages at [va] beside the blocks [B]. *)
Record fresh_block (B : gmap Z Z) (va n : Z) : Prop := {
  fresh_aligned : va mod PAGE_SIZE = 0;
  fresh_low : MIPS_KSEG0 < va;
  fresh_high : va + n * PAGE_SIZE <= MIPS_KSEG1;
  fresh_apart : forall b m, B !! b = Some m -> blocks_apart va (n * PAGE_SIZE) b (m * PAGE_SIZE)
}.

Class PageAllocLaws (P : Type) `{PageAlloc P} := {
  alloc_kpages_ok : forall s B n, pages_rep s B -> 1 <= n < 2 ^ 19 ->
    wp (alloc_kpages 0 n)
      (fun va s' => (va = 0 /\ pages_rep s' B /\ (n = 1 \/ exhausted s -> exhausted s')) \/
                    (fresh_block B va n /\ pages_rep s' (<[va := n]> B) /\ ~ exhausted s))
      (fun _ _ => False) s;
  free_kpages_ok : forall s B va n, pages_rep s B -> B !! va = Some n ->
    wp (free_kpages va) (fun _ s' => pages_rep s' (delete va B) /\ (exhausted s -> exhausted s'))
      (fun _ _ => False) s;
  pages_apart : forall s B a n, pages_rep s B -> B !! a = Some n -> 1 <= n /\ fresh_block (delete a B) a n
}.

(** ** Physical memory and dumbvm *)

Record ram := Ram { firstpaddr : Z; lastpaddr : Z }.

(** [ramsize] is what the bus reports, [firstfree] what the start-up code
    left. *)
Definition ram_bootstrap (ramsize firstfree : Z) : ram :=
  let ramsize := if 512 * 1024 * 1024 <? ramsize then 512 * 1024 * 1024 else ramsize in
  Ram (u32 (firstfree - MIPS_KSEG0)) ramsize.

Definition ram_stealmem (npages : Z) : M ram Z :=
  r <- get ;;
  let size := u32 (npages * PAGE_SIZE) in
  if lastpaddr r <? u32 (firstpaddr r + size) then ret 0
  else
    let paddr := firstpaddr r in
    put (Ram (u32 (firstpaddr r + size)) (lastpaddr r)) ;;
    ret paddr.

Definition ram_getsize : M ram Z := gets lastpaddr.

Definition ram_getfirstfree : M ram Z :=
  r <- get ;; put (Ram 0 0) ;; ret (firstpaddr r).

Definition dumbvm_can_sleep (spinlocks : Z) : M ram unit := KASSERT (spinlocks =? 0).

(** The spinlock [stealmem_lock] is taken and released around the call. *)
Definition getppages (npages : Z) : M ram Z := ram_stealmem npages.

Definition dumbvm_alloc_kpages (spinlocks npages : Z) : M ram Z :=
  dumbvm_can_sleep spinlocks ;;
  pa <- getppages npages ;;
  if pa =? 0 then ret 0 else ret (PADDR_TO_KVADDR pa).

Definition dumbvm_free_kpages (addr : Z) : M ram unit := ret tt.

(** ** The promises hold *)

Record ram_wf (r : ram) : Prop := {
  ram_aligned : firstpaddr r mod PAGE_SIZE = 0;
  ram_pos : 0 < firstpaddr r;
  ram_last : lastpaddr r <= 2 ^ 29;
  ram_first : firstpaddr r <= 2 ^ 29
}.

Record ram_rep (r : ram) (B : gmap Z Z) : Prop := {
  rr_wf : ram_wf r;
  rr_below : forall a n, B !! a = Some n ->
    1 <= n /\ a + n * PAGE_SIZE <= firstpaddr r + MIPS_KSEG0 /\ fresh_block (delete a B) a n
}.

Definition ram_exhausted (r : ram) : Prop := lastpaddr r < firstpaddr r + PAGE_SIZE.

Lemma ram_bootstrap_rep ramsize firstfree :
  firstfree mod PAGE_SIZE = 0 -> MIPS_KSEG0 < firstfree <= MIPS_KSEG1 ->
  ram_rep (ram_bootstrap ramsize firstfree) ∅.
Proof.
  unfold MIPS_KSEG0, MIPS_KSEG1, PAGE_SIZE. intros Ha Hf. split; [|done].
  assert (E : u32 (firstfree - 0x80000000) = firstfree - 0x80000000) by (apply wrap_small; lia).
  split; cbn [ram_bootstrap firstpaddr lastpaddr]; unfold MIPS_KSEG0, PAGE_SIZE; rewrite ?E; try lia.
  - Z.to_euclidean_division_equations. lia.
  - destruct (Z.ltb_spec (512 * 1024 * 1024) ramsize); lia.
Qed.

#[global] Instance dumbvm_pages : PageAlloc ram := {|
  alloc_kpages := dumbvm_alloc_kpages;
  free_kpages := dumbvm_free_kpages;
  pages_rep := ram_rep;
  exhausted := ram_exhausted
|}.

(** What [ram_stealmem] does with a request that does not wrap. *)
Lemma ram_stealmem_run r n :
  ram_wf r -> 0 <= n < 2 ^ 19 ->
  ram_stealmem n r =
    if lastpaddr r <? firstpaddr r + n * PAGE_SIZE then Ret 0 r
    else Ret (firstpaddr r) (Ram (firstpaddr r + n * PAGE_SIZE) (lastpaddr r)).
Proof.
  intros [] Hn. unfold ram_stealmem, PAGE_SIZE in *. unfold bind, get, put, ret.
  rewrite (wrap_small 32 (n * 4096)), (wrap_small 32 (firstpaddr r + n * 4096)) by lia.
  by destruct (_ <? _).
Qed.

Lemma fresh_block_anti (B B' : gmap Z Z) va n :
  B' ⊆ B -> fresh_block B va n -> fresh_block B' va n.
Proof. intros HB []. split; try done. intros b m Hb. eapply fresh_apart0, lookup_weaken; done. Qed.

Lemma ram_rep_delete r B a : ram_rep r B -> ram_rep r (delete a B).
Proof.
  intros [W H]. split; [done|]. intros b n Hb.
  assert (Hb' := proj1 (lookup_delete_Some _ _ _ _) Hb). destruct (H b n (proj2 Hb')) as (? & ? & F).
  split_and!; [done..|]. eapply fresh_block_anti, F. rewrite delete_delete. apply delete_subseteq.
Qed.

Lemma ram_rep_alloc r B n :
  ram_rep r B -> 1 <= n < 2 ^ 19 -> firstpaddr r + n * PAGE_SIZE <= lastpaddr r ->
  fresh_block B (firstpaddr r + MIPS_KSEG0) n /\
  ram_rep (Ram (firstpaddr r + n * PAGE_SIZE) (lastpaddr r)) (<[firstpaddr r + MIPS_KSEG0 := n]> B).
Proof.
  intros [[] H] Hn Hl. unfold PAGE_SIZE, MIPS_KSEG0 in *.
  assert (F : fresh_block B (firstpaddr r + 0x80000000) n).
  { split; unfold PAGE_SIZE, MIPS_KSEG0, MIPS_KSEG1.
    - Z.to_euclidean_division_equations. lia.
    - lia.
    - lia.
    - intros b m Hb. destruct (H b m Hb) as (? & ? & _). right. unfold PAGE_SIZE in *. lia. }
  split; [done|]. split.
  { split; cbn; unfold PAGE_SIZE; [|lia..]. Z.to_euclidean_division_equations. lia. }
  intros a m. unfold MIPS_KSEG0, PAGE_SIZE. cbn [firstpaddr]. rewrite lookup_insert_Some. intros [[<- <-] | [Hne Ha]].
  - split_and!; [lia..|]. eapply fresh_block_anti, F. rewrite delete_insert_eq. apply delete_subseteq.
  - destruct (H a m Ha) as (? & ? & Fa). split_and!; [lia..|]. destruct Fa as [A1 A2 A3 A4]. split; try done.
    intros b k. rewrite delete_insert_ne by done. rewrite lookup_insert_Some. intros [[<- <-] | [_ Hb]].
    + left. unfold PAGE_SIZE. lia.
    + by apply A4.
Qed.

#[global] Instance dumbvm_laws : PageAllocLaws ram.
Proof.
  split; cbn [alloc_kpages free_kpages pages_rep exhausted dumbvm_pages].
  - intros s B n R Hn. pose proof (rr_wf _ _ R) as W. unfold dumbvm_alloc_kpages, getppages.
    apply wp_bind, wp_kassert; [done|]. apply wp_bind. unfold wp at 1. rewrite ram_stealmem_run by (done || lia).
    destruct (Z.ltb_spec (lastpaddr s) (firstpaddr s + n * PAGE_SIZE)) as [Hl|Hl].
    + left. split_and!; [done..|]. intros [-> | ?]; unfold ram_exhausted in *; lia.
    + destruct (ram_rep_alloc s B n R Hn Hl) as [F R']. destruct W. destruct (Z.eqb_spec (firstpaddr s) 0); [lia|].
      assert (E : PADDR_TO_KVADDR (firstpaddr s) = firstpaddr s + MIPS_KSEG0).
      { apply wrap_small. unfold MIPS_KSEG0. lia. }
      rewrite E. right. split_and!; [done..|]. unfold ram_exhausted, PAGE_SIZE in *. lia.
  - intros s B va n R _. apply wp_ret. split; [by apply ram_rep_delete | done].
  - intros s B a n R Ha. by destruct (rr_below _ _ R a n Ha) as (? & _ & ?).
Qed.

(** A request for [2^20] pages less than the ones in use wraps around: it
    succeeds and moves the boundary of the memory handed out down. *)
Lemma stealmem_wraps r :
  ram_wf r -> PAGE_SIZE < firstpaddr r <= lastpaddr r ->
  ram_stealmem (2 ^ 20 - 1) r = Ret (firstpaddr r) (Ram (firstpaddr r - PAGE_SIZE) (lastpaddr r)).
Proof.
  intros [] Hl. unfold ram_stealmem, PAGE_SIZE in *. unfold bind, get, put, ret.
  replace (u32 ((2 ^ 20 - 1) * 4096)) with (2 ^ 32 - 4096) by done.
  replace (u32 (firstpaddr r + (2 ^ 32 - 4096))) with (firstpaddr r - 4096).
  2:{ unfold wrap. apply (Z.mod_unique_pos _ _ 1); lia. }
  destruct (Z.ltb_spec (lastpaddr r) (firstpaddr r - 4096)); [lia | done].
Qed.
