(* ===== verification/Kmalloc.v ===== *)
(** * The kernel memory allocator, [kern/vm/kmalloc.c]

    Small requests are served from pages that are divided into blocks of one
    size.  The free blocks of a page are chained through their first words;
    a [pageref] structure holds the head of that chain, the number of free
    blocks, and the links of two lists of pagerefs (the pages of one block
    size, and all pages).  The pagerefs themselves are carved out of whole
    pages and marked in bitmaps.  Requests of 2048 bytes and more get whole
    pages.

    State: [kmem] is the memory of the heap pages by word address (a word
    that was never written reads as 0; the allocator does not depend on
    it); [prefs] are the pageref structures by address, [kheaproots],
    [sizebases] and [allbase] the static variables, [spinlock_held] says
    whether [kmalloc_spinlock] is held, and [kpages] is the state of the
    page allocator below.  The configuration is that of the source: [SLOW],
    [SLOWER], [GUARDS], [LABELS] and the checks that depend on them are
    undefined; [checksubpage] and [checksubpages] are modelled on their own. *)

From S2P Require Import Prelude KPages.

Definition NSIZES : Z := 8.
Definition sizes : list Z := [16; 32; 64; 128; 256; 512; 1024; 2048].
Definition SMALLEST_SUBPAGE_SIZE : Z := 16.
Definition LARGEST_SUBPAGE_SIZE : Z := 2048.
Definition INVALID_OFFSET : Z := 0xffff.

(** [sizeof(struct pageref)] is 16. *)
Definition NPAGEREFS_PER_PAGE : Z := PAGE_SIZE / 16.
Definition INUSE_WORDS : Z := NPAGEREFS_PER_PAGE / 32.
Definition NUM_PAGEREFPAGES : Z := 16.
Definition TOTAL_PAGEREFS : Z := NUM_PAGEREFPAGES * NPAGEREFS_PER_PAGE.

Record pageref := Pageref {
  next_samesize : Z;
  next_all : Z;
  pageaddr_and_blocktype : Z;
  freelist_offset : Z;
  nfree : Z
}.

Record kheap_root := Kheap_root {
  root_page : Z;
  pagerefs_inuse : list Z;
  numinuse : Z
}.

Definition PR_PAGEADDR (pr : pageref) : Z := Z.land (pageaddr_and_blocktype pr) PAGE_FRAME.
Definition PR_BLOCKTYPE (pr : pageref) : Z := Z.land (pageaddr_and_blocktype pr) (Z.lnot PAGE_FRAME).
Definition MKPAB (pa blk : Z) : Z := Z.lor (Z.land pa PAGE_FRAME) (Z.land blk (Z.lnot PAGE_FRAME)).

Record kheap (P : Type) := Kheap {
  spinlock_held : bool;
  kheaproots : list kheap_root;
  sizebases : list Z;
  allbase : Z;
  prefs : gmap Z pageref;
  kmem : gmap Z Z;
  kpages : P
}.

Arguments Kheap {P}.
Arguments spinlock_held {P}.
Arguments kheaproots {P}.
Arguments sizebases {P}.
Arguments allbase {P}.
Arguments prefs {P}.
Arguments kmem {P}.
Arguments kpages {P}.

(** The static variables as the linker initialises them. *)
Definition kheap_initial {P} (p : P) : kheap P :=
  Kheap false (replicate (Z.to_nat NUM_PAGEREFPAGES) (Kheap_root 0 (replicate (Z.to_nat INUSE_WORDS) 0) 0))
    (replicate (Z.to_nat NSIZES) 0) 0 ∅ ∅ p.

Section model.
Context {P : Type} `{PageAlloc P}.

Definition set_held (b : bool) (s : kheap P) : kheap P :=
  Kheap b (kheaproots s) (sizebases s) (allbase s) (prefs s) (kmem s) (kpages s).
Definition set_roots (l : list kheap_root) (s : kheap P) : kheap P :=
  Kheap (spinlock_held s) l (sizebases s) (allbase s) (prefs s) (kmem s) (kpages s).
Definition set_sizebases (l : list Z) (s : kheap P) : kheap P :=
  Kheap (spinlock_held s) (kheaproots s) l (allbase s) (prefs s) (kmem s) (kpages s).
Definition set_allbase (z : Z) (s : kheap P) : kheap P :=
  Kheap (spinlock_held s) (kheaproots s) (sizebases s) z (prefs s) (kmem s) (kpages s).
Definition set_prefs (m : gmap Z pageref) (s : kheap P) : kheap P :=
  Kheap (spinlock_held s) (kheaproots s) (sizebases s) (allbase s) m (kmem s) (kpages s).
Definition set_kmem (m : gmap Z Z) (s : kheap P) : kheap P :=
  Kheap (spinlock_held s) (kheaproots s) (sizebases s) (allbase s) (prefs s) m (kpages s).
Definition set_kpages (p : P) (s : kheap P) : kheap P :=
  Kheap (spinlock_held s) (kheaproots s) (sizebases s) (allbase s) (prefs s) (kmem s) p.

(** ** Primitives: the lock, pages, words and structures *)

(** Acquiring a spinlock this processor holds is a deadlock, which
    [spinlock_acquire] turns into a panic. *)
Definition spinlock_acquire : M (kheap P) unit :=
  s <- get ;; KASSERT (negb (spinlock_held s)) ;; put (set_held true s).
Definition spinlock_release : M (kheap P) unit :=
  s <- get ;; KASSERT (spinlock_held s) ;; put (set_held false s).

(** [kmalloc_spinlock] is the only spinlock in play, so [c_spinlocks] is 1
    while it is held. *)
Definition get_kpages (npages : Z) : M (kheap P) Z :=
  s <- get ;; zoom kpages set_kpages (alloc_kpages (if spinlock_held s then 1 else 0) npages).
Definition give_kpages (addr : Z) : M (kheap P) unit := zoom kpages set_kpages (free_kpages addr).

Definition load_word (a : Z) : M (kheap P) Z := gets (fun s => default 0 (kmem s !! a)).
Definition store_word (a w : Z) : M (kheap P) unit :=
  modify (fun s => set_kmem (<[a := u32 w]> (kmem s)) s).

(** Following a pointer that is not the address of a pageref is a panic of
    the model; storing creates the structure. *)
Definition load_pr (p : Z) : M (kheap P) pageref := s <- get ;; oob (prefs s !! p).
Definition store_pr (p : Z) (r : pageref) : M (kheap P) unit :=
  modify (fun s => set_prefs (<[p := r]> (prefs s)) s).

Definition get_root (i : Z) : M (kheap P) kheap_root := s <- get ;; oob (zlookup (kheaproots s) i).
Definition put_root (i : Z) (r : kheap_root) : M (kheap P) unit :=
  modify (fun s => set_roots (zinsert i r (kheaproots s)) s).

Definition get_sizebase (t : Z) : M (kheap P) Z := s <- get ;; oob (zlookup (sizebases s) t).
Definition put_sizebase (t p : Z) : M (kheap P) unit :=
  modify (fun s => set_sizebases (zinsert t p (sizebases s)) s).

Definition size_of_type (t : Z) : M (kheap P) Z := oob (zlookup sizes t).

Definition fill_deadbeef (vptr len : Z) : M (kheap P) unit :=
  for_each 0 (Z.to_nat (len / 4)) (fun i => store_word (u32 (vptr + 4 * i)) 0xdeadbeef).

(** ** Pagerefs *)

Definition allocpagerefpage (i : Z) : M (kheap P) unit :=
  root <- get_root i ;;
  KASSERT (root_page root =? 0) ;;
  spinlock_release ;;
  va <- get_kpages 1 ;;
  spinlock_acquire ;;
  if va =? 0 then ret tt
  else
    KASSERT (va mod PAGE_SIZE =? 0) ;;
    root <- get_root i ;;
    if negb (root_page root =? 0) then
      spinlock_release ;;
      give_kpages va ;;
      spinlock_acquire ;;
      root <- get_root i ;;
      KASSERT (negb (root_page root =? 0))
    else put_root i (Kheap_root va (pagerefs_inuse root) (numinuse root)).

(** The body of the innermost loop of [allocpageref]: bit [j] of word [i] of
    the bitmap of root [whichroot]. *)
Definition take_pageref (whichroot i j : Z) : M (kheap P) (option Z) :=
  root <- get_root whichroot ;;
  w <- oob (zlookup (pagerefs_inuse root) i) ;;
  let k := u32 (Z.shiftl 1 j) in
  if Z.land w k =? 0 then
    put_root whichroot (Kheap_root (root_page root) (zinsert i (Z.lor w k) (pagerefs_inuse root))
                          (u32 (numinuse root + 1))) ;;
    root <- get_root whichroot ;;
    (if root_page root =? 0 then allocpagerefpage whichroot else ret tt) ;;
    root <- get_root whichroot ;;
    if root_page root =? 0 then ret (Some 0)
    else ret (Some (u32 (root_page root + 16 * (i * 32 + j))))
  else ret None.

Definition allocpageref_word (whichroot i : Z) : M (kheap P) (option Z) :=
  root <- get_root whichroot ;;
  w <- oob (zlookup (pagerefs_inuse root) i) ;;
  if w =? 0xffffffff then ret None
  else
    r <- for_loop 0 32 (take_pageref whichroot i) ;;
    match r with
    | Some p => ret (Some p)
    | None => KASSERT false ;; ret None
    end.

Definition allocpageref : M (kheap P) Z :=
  r <- for_loop 0 (Z.to_nat NUM_PAGEREFPAGES) (fun whichroot =>
         root <- get_root whichroot ;;
         if NPAGEREFS_PER_PAGE <=? numinuse root then ret None
         else for_loop 0 (Z.to_nat INUSE_WORDS) (allocpageref_word whichroot)) ;;
  match r with Some p => ret p | None => ret 0 end.

(** [j = p - page->refs], the difference of two pointers to structures of 16
    bytes, stored in a [size_t]. *)
Definition freepageref (p : Z) : M (kheap P) unit :=
  r <- for_loop 0 (Z.to_nat NUM_PAGEREFPAGES) (fun whichroot =>
         root <- get_root whichroot ;;
         let page := root_page root in
         if page =? 0 then
           KASSERT (numinuse root =? 0) ;; ret None
         else
           let j := u32 (Z.quot (p - page) 16) in
           if j <? NPAGEREFS_PER_PAGE then
             let i := j / 32 in
             let k := u32 (Z.shiftl 1 (j mod 32)) in
             w <- oob (zlookup (pagerefs_inuse root) i) ;;
             KASSERT (negb (Z.land w k =? 0)) ;;
             KASSERT (0 <? numinuse root) ;;
             put_root whichroot (Kheap_root page (zinsert i (Z.land w (Z.lnot k)) (pagerefs_inuse root))
                                   (numinuse root - 1)) ;;
             ret (Some tt)
           else ret None) ;;
  match r with Some _ => ret tt | None => KASSERT false end.

(** ** The lists of pagerefs

    [guy] of [remove_lists] points at the base of a list or at the link field
    of a pageref: [read] and [write] access what it points at. *)

Inductive guy_t := Base | Field (pr : Z).

Definition read_same (t : Z) (guy : guy_t) : M (kheap P) Z :=
  match guy with Base => get_sizebase t | Field p => r <- load_pr p ;; ret (next_samesize r) end.
Definition write_same (t : Z) (guy : guy_t) (v : Z) : M (kheap P) unit :=
  match guy with
  | Base => put_sizebase t v
  | Field p => r <- load_pr p ;;
      store_pr p (Pageref v (next_all r) (pageaddr_and_blocktype r) (freelist_offset r) (nfree r))
  end.
Definition read_all (guy : guy_t) : M (kheap P) Z :=
  match guy with Base => gets allbase | Field p => r <- load_pr p ;; ret (next_all r) end.
Definition write_all (guy : guy_t) (v : Z) : M (kheap P) unit :=
  match guy with
  | Base => modify (set_allbase v)
  | Field p => r <- load_pr p ;;
      store_pr p (Pageref (next_samesize r) v (pageaddr_and_blocktype r) (freelist_offset r) (nfree r))
  end.

Fixpoint unlink (fuel : nat) (read : guy_t -> M (kheap P) Z) (write : guy_t -> Z -> M (kheap P) unit)
    (link : pageref -> Z) (pr : Z) (guy : guy_t) : M (kheap P) unit :=
  match fuel with
  | O => fun _ => OutOfFuel
  | S fuel' =>
      p <- read guy ;;
      if p =? 0 then ret tt
      else if p =? pr then r <- load_pr pr ;; write guy (link r)
      else unlink fuel' read write link pr (Field p)
  end.

(** No list is longer than the number of pagerefs there can be. *)
Definition LIST_FUEL : nat := S (Z.to_nat TOTAL_PAGEREFS).

Definition remove_lists (pr blktype : Z) : M (kheap P) unit :=
  KASSERT ((0 <=? blktype) && (blktype <? NSIZES)) ;;
  unlink LIST_FUEL (read_same blktype) (write_same blktype) next_samesize pr Base ;;
  unlink LIST_FUEL read_all write_all next_all pr Base.

(** ** Allocation *)

Definition blocktype (clientsz : Z) : M (kheap P) Z :=
  r <- for_loop 0 (Z.to_nat NSIZES) (fun i =>
         sz <- size_of_type i ;; if clientsz <=? sz then ret (Some i) else ret None) ;;
  match r with Some i => ret i | None => panic end.

(** From the label [doalloc] to the end of its block. *)
Definition doalloc (pr : Z) : M (kheap P) Z :=
  r <- load_pr pr ;;
  KASSERT (freelist_offset r <? PAGE_SIZE) ;;
  let prpage := PR_PAGEADDR r in
  let retptr := u32 (prpage + freelist_offset r) in
  fl <- load_word retptr ;;
  let r := Pageref (next_samesize r) (next_all r) (pageaddr_and_blocktype r) (freelist_offset r) (u16 (nfree r - 1)) in
  store_pr pr r ;;
  (if negb (fl =? 0) then
     KASSERT (0 <? nfree r) ;;
     KASSERT (u32 (fl - prpage) <? PAGE_SIZE) ;;
     store_pr pr (Pageref (next_samesize r) (next_all r) (pageaddr_and_blocktype r) (u16 (fl - prpage)) (nfree r))
   else
     KASSERT (nfree r =? 0) ;;
     store_pr pr (Pageref (next_samesize r) (next_all r) (pageaddr_and_blocktype r) INVALID_OFFSET (nfree r))) ;;
  spinlock_release ;;
  ret retptr.

(** The search for a page with a free block; 0 when there is none. *)
Fixpoint samesize_search (fuel : nat) (blktype pr : Z) : M (kheap P) Z :=
  match fuel with
  | O => fun _ => OutOfFuel
  | S fuel' =>
      if pr =? 0 then ret 0
      else
        r <- load_pr pr ;;
        KASSERT (PR_BLOCKTYPE r =? blktype) ;;
        if 0 <? nfree r then ret pr else samesize_search fuel' blktype (next_samesize r)
  end.

(** The free list of a new page: block [i] points at block [i - 1]. *)
Definition build_freelist (prpage n size : Z) : M (kheap P) unit :=
  store_word prpage 0 ;;
  for_each 1 (Z.to_nat (n - 1)) (fun i =>
    let fl := u32 (prpage + i * size) in
    let next := u32 (prpage + (i - 1) * size) in
    store_word fl next ;;
    KASSERT (negb (fl =? next))).

Definition new_page (pr prpage blktype : Z) : M (kheap P) unit :=
  size <- size_of_type blktype ;;
  let nfree := u16 (PAGE_SIZE / size) in
  build_freelist prpage nfree size ;;
  let fla := u32 (prpage + (nfree - 1) * size) in
  let offset := u16 (fla - prpage) in
  KASSERT (offset =? (nfree - 1) * size) ;;
  same <- get_sizebase blktype ;;
  put_sizebase blktype pr ;;
  all <- gets allbase ;;
  modify (set_allbase pr) ;;
  store_pr pr (Pageref same all (MKPAB prpage blktype) offset nfree).

(** From the second [spinlock_acquire] of [subpage_kmalloc] on. *)
Definition alloc_in_new_page (prpage blktype : Z) : M (kheap P) Z :=
  spinlock_acquire ;;
  pr <- allocpageref ;;
  if pr =? 0 then
    spinlock_release ;;
    give_kpages prpage ;;
    ret 0
  else
    new_page pr prpage blktype ;;
    doalloc pr.

Definition subpage_kmalloc (sz : Z) : M (kheap P) Z :=
  blktype <- blocktype sz ;;
  spinlock_acquire ;;
  base <- get_sizebase blktype ;;
  pr <- samesize_search LIST_FUEL blktype base ;;
  if negb (pr =? 0) then doalloc pr
  else
    spinlock_release ;;
    prpage <- get_kpages 1 ;;
    if prpage =? 0 then ret 0
    else
      KASSERT (prpage mod PAGE_SIZE =? 0) ;;
      alloc_in_new_page prpage blktype.

(** ** Freeing *)

(** The pageref of the page [ptraddr] is on; 0 when there is none. *)
Fixpoint find_page (fuel : nat) (ptraddr pr : Z) : M (kheap P) Z :=
  match fuel with
  | O => fun _ => OutOfFuel
  | S fuel' =>
      if pr =? 0 then ret 0
      else
        r <- load_pr pr ;;
        let prpage := PR_PAGEADDR r in
        let blktype := PR_BLOCKTYPE r in
        KASSERT ((0 <=? blktype) && (blktype <? NSIZES)) ;;
        if (prpage <=? ptraddr) && (ptraddr <? u32 (prpage + PAGE_SIZE)) then ret pr
        else find_page fuel' ptraddr (next_all r)
  end.

(** Put the block at [offset] of the page of [pr] on the free list. *)
Definition push_free (pr offset : Z) : M (kheap P) unit :=
  r <- load_pr pr ;;
  let prpage := PR_PAGEADDR r in
  let fl := u32 (prpage + offset) in
  (if freelist_offset r =? INVALID_OFFSET then store_word fl 0
   else
     let next := u32 (prpage + freelist_offset r) in
     store_word fl next ;;
     KASSERT (negb (fl =? next))) ;;
  store_pr pr (Pageref (next_samesize r) (next_all r) (pageaddr_and_blocktype r) (u16 offset) (u16 (nfree r + 1))).

Definition subpage_kfree (ptr : Z) : M (kheap P) Z :=
  spinlock_acquire ;;
  base <- gets allbase ;;
  pr <- find_page LIST_FUEL ptr base ;;
  if pr =? 0 then spinlock_release ;; ret (-1)
  else
    r <- load_pr pr ;;
    let prpage := PR_PAGEADDR r in
    let blktype := PR_BLOCKTYPE r in
    let offset := u32 (ptr - prpage) in
    size <- size_of_type blktype ;;
    if (PAGE_SIZE <=? offset) || negb (offset mod size =? 0) then panic
    else
      fill_deadbeef ptr size ;;
      push_free pr offset ;;
      r <- load_pr pr ;;
      KASSERT (nfree r <=? PAGE_SIZE / size) ;;
      (if nfree r =? PAGE_SIZE / size then
         remove_lists pr blktype ;;
         freepageref pr ;;
         spinlock_release ;;
         give_kpages prpage
       else spinlock_release) ;;
      ret 0.

(** ** Entry points *)

Definition kmalloc (sz : Z) : M (kheap P) Z :=
  let checksz := sz in
  if LARGEST_SUBPAGE_SIZE <=? checksz then
    let npages := u32 (sz + PAGE_SIZE - 1) / PAGE_SIZE in
    address <- get_kpages npages ;;
    if address =? 0 then ret 0
    else
      KASSERT (address mod PAGE_SIZE =? 0) ;;
      ret address
  else subpage_kmalloc sz.

Definition kfree (ptr : Z) : M (kheap P) unit :=
  if ptr =? 0 then ret tt
  else
    r <- subpage_kfree ptr ;;
    if negb (r =? 0) then
      KASSERT (ptr mod PAGE_SIZE =? 0) ;;
      give_kpages ptr
    else ret tt.

(** ** The consistency checks of [SLOW] and [SLOWER] *)

Fixpoint check_freelist (fuel : nat) (prpage blocksize fl count : Z) : M (kheap P) Z :=
  match fuel with
  | O => fun _ => OutOfFuel
  | S fuel' =>
      if fl =? 0 then ret count
      else
        KASSERT ((prpage <=? fl) && (fl <? u32 (prpage + PAGE_SIZE))) ;;
        KASSERT (u32 (fl - prpage) mod blocksize =? 0) ;;
        next <- load_word fl ;;
        KASSERT (negb (next =? fl)) ;;
        check_freelist fuel' prpage blocksize next (count + 1)
  end.

(** No page has more than [PAGE_SIZE / SMALLEST_SUBPAGE_SIZE] blocks. *)
Definition FREE_FUEL : nat := S (Z.to_nat (PAGE_SIZE / SMALLEST_SUBPAGE_SIZE)).

Definition checksubpage (pr : Z) : M (kheap P) unit :=
  s <- get ;;
  KASSERT (spinlock_held s) ;;
  r <- load_pr pr ;;
  if freelist_offset r =? INVALID_OFFSET then KASSERT (nfree r =? 0)
  else
    let prpage := PR_PAGEADDR r in
    let blktype := PR_BLOCKTYPE r in
    KASSERT ((0 <=? blktype) && (blktype <? NSIZES)) ;;
    blocksize <- size_of_type blktype ;;
    KASSERT (MIPS_KSEG0 <=? prpage) ;;
    KASSERT (prpage <? MIPS_KSEG1) ;;
    KASSERT (freelist_offset r <? PAGE_SIZE) ;;
    KASSERT (freelist_offset r mod blocksize =? 0) ;;
    count <- check_freelist FREE_FUEL prpage blocksize (u32 (prpage + freelist_offset r)) 0 ;;
    KASSERT (count =? nfree r).

Fixpoint check_list (fuel : nat) (link : pageref -> Z) (pr count : Z) : M (kheap P) Z :=
  match fuel with
  | O => fun _ => OutOfFuel
  | S fuel' =>
      if pr =? 0 then ret count
      else
        checksubpage pr ;;
        KASSERT (count <? TOTAL_PAGEREFS) ;;
        r <- load_pr pr ;;
        check_list fuel' link (link r) (count + 1)
  end.

(** The loop over the block sizes of [checksubpages]. *)
Fixpoint check_sizes (n : nat) (i sc : Z) : M (kheap P) Z :=
  match n with
  | O => ret sc
  | S n' =>
      base <- get_sizebase i ;;
      sc <- check_list LIST_FUEL next_samesize base sc ;;
      check_sizes n' (i + 1) sc
  end.

Definition checksubpages : M (kheap P) unit :=
  s <- get ;;
  KASSERT (spinlock_held s) ;;
  sc <- check_sizes (Z.to_nat NSIZES) 0 0 ;;
  base <- gets allbase ;;
  ac <- check_list LIST_FUEL next_all base 0 ;;
  KASSERT (sc =? ac).

End model.
