(* ===== verification/KmallocInv.v ===== *)
(** * The heap invariant of [kern/vm/kmalloc.c]

    The abstract view of the allocator is the map [live] from the addresses
    of the blocks handed out to their sizes.  [heap_rep s live] says that the
    data structures of [s] represent it: every heap page is described by an
    [hpage] (its pageref, its address, its block size and its free blocks in
    the order of the chain), the lists of pagerefs, the bitmaps of pagerefs
    and the pages of the layer below agree with that description, and [live]
    has exactly the blocks that are not free and the whole-page blocks. *)

From S2P Require Import Prelude KPages Kmalloc.

(** ** Arithmetic of page addresses and block types *)

Definition page_aligned (p : Z) : Prop := p mod PAGE_SIZE = 0 /\ 0 <= p < 2 ^ 32.

Lemma pab_page p t : page_aligned p -> 0 <= t < PAGE_SIZE -> Z.land (p + t) PAGE_FRAME = p.
Proof.
  unfold page_aligned, PAGE_SIZE. intros [H1 H2] Ht. rewrite land_page_frame; unfold PAGE_SIZE;
  Z.to_euclidean_division_equations; lia.
Qed.

Lemma pab_type p t : page_aligned p -> 0 <= t < PAGE_SIZE -> Z.land (p + t) (Z.lnot PAGE_FRAME) = t.
Proof.
  unfold page_aligned, PAGE_SIZE. intros [H1 H2] Ht. rewrite land_page_offset; unfold PAGE_SIZE;
  Z.to_euclidean_division_equations; lia.
Qed.

Lemma mkpab p t : page_aligned p -> 0 <= t < PAGE_SIZE -> MKPAB p t = p + t.
Proof.
  intros Hp Ht. unfold MKPAB. pose proof (pab_page p 0 Hp ltac:(lia)) as E1.
  pose proof (pab_type 0 t ltac:(done) Ht) as E2. rewrite Z.add_0_r in E1. rewrite Z.add_0_l in E2.
  rewrite E1, E2. symmetry. apply Z.add_nocarry_lor.
  rewrite <- E1, <- E2. apply Z.bits_inj'. intros k Hk. rewrite !Z.land_spec, Z.lnot_spec, Z.bits_0 by done.
  by destruct (Z.testbit p k), (Z.testbit t k), (Z.testbit PAGE_FRAME k).
Qed.

(** The block size of a type. *)
Definition tsize (t : Z) : Z := default 0 (zlookup sizes t).

Lemma tsize_cases t : 0 <= t < NSIZES ->
  zlookup sizes t = Some (tsize t) /\ 16 <= tsize t <= 2048 /\ PAGE_SIZE mod tsize t = 0 /\
  tsize t mod 16 = 0 /\ 2 <= PAGE_SIZE / tsize t <= 256 /\ tsize t * (PAGE_SIZE / tsize t) = PAGE_SIZE.
Proof.
  unfold NSIZES. intros Ht.
  assert (t = 0 \/ t = 1 \/ t = 2 \/ t = 3 \/ t = 4 \/ t = 5 \/ t = 6 \/ t = 7) as Hc by lia.
  repeat destruct Hc as [-> | Hc]; subst; vm_compute; intuition congruence.
Qed.

(** ** Descriptions of heap pages *)

Record hpage := Hpage { hp_ref : Z; hp_page : Z; hp_type : Z; hp_free : list Z }.

Definition hp_size (h : hpage) : Z := tsize (hp_type h).

(** [a] is the address of a block of the page. *)
Definition hp_block (h : hpage) (a : Z) : Prop :=
  hp_page h <= a < hp_page h + PAGE_SIZE /\ (a - hp_page h) mod hp_size h = 0.

(** The list [l] is linked from [h] by the field [link]. *)
Fixpoint chain (link : pageref -> Z) (m : gmap Z pageref) (h : Z) (l : list Z) : Prop :=
  match l with
  | [] => h = 0
  | x :: l' => h = x /\ x <> 0 /\ exists r, m !! x = Some r /\ chain link m (link r) l'
  end.

(** The free blocks [l] are linked through their first words. *)
Fixpoint fchain (m : gmap Z Z) (l : list Z) : Prop :=
  match l with
  | [] => True
  | a :: l' => m !! a = Some (hd 0 l') /\ fchain m l'
  end.

(** The fields of a pageref other than the links. *)
Definition core (r : pageref) : Z * Z * Z := (pageaddr_and_blocktype r, freelist_offset r, nfree r).

Definition hp_offset (h : hpage) : Z :=
  match hp_free h with [] => INVALID_OFFSET | a :: _ => a - hp_page h end.

Definition hp_core (h : hpage) : Z * Z * Z :=
  (hp_page h + hp_type h, hp_offset h, Z.of_nat (length (hp_free h))).

Record hpage_ok (m : gmap Z pageref) (w : gmap Z Z) (h : hpage) : Prop := {
  hk_ref : 0 < hp_ref h;
  hk_type : 0 <= hp_type h < NSIZES;
  hk_aligned : hp_page h mod PAGE_SIZE = 0;
  hk_range : MIPS_KSEG0 < hp_page h /\ hp_page h + PAGE_SIZE <= MIPS_KSEG1;
  hk_core : core <$> m !! hp_ref h = Some (hp_core h);
  hk_nodup : NoDup (hp_free h);
  hk_blocks : Forall (hp_block h) (hp_free h);
  hk_chain : fchain w (hp_free h)
}.

(** ** Pageref pages *)

(** Bit [j] of the bitmap of a root. *)
Definition ref_bit (ws : list Z) (j : Z) : bool :=
  match zlookup ws (j / 32) with Some w => Z.testbit w (j mod 32) | None => true end.

Definition ref_count (ws : list Z) : Z :=
  Z.of_nat (length (filter (fun j => ref_bit ws j = true) (seqZ 0 NPAGEREFS_PER_PAGE))).

Record root_wf (r : kheap_root) : Prop := {
  rw_length : length (pagerefs_inuse r) = Z.to_nat INUSE_WORDS;
  rw_words : Forall (fun w => 0 <= w < 2 ^ 32) (pagerefs_inuse r);
  rw_count : numinuse r = ref_count (pagerefs_inuse r)
}.

(** The pagerefs in use of a root that has its page. *)
Definition root_refs (r : kheap_root) : list Z :=
  if root_page r =? 0 then []
  else (fun j => root_page r + 16 * j) <$> filter (fun j => ref_bit (pagerefs_inuse r) j = true) (seqZ 0 NPAGEREFS_PER_PAGE).

Record roots_ok (l : list kheap_root) (full : Prop) (refs : list Z) : Prop := {
  rk_length : length l = Z.to_nat NUM_PAGEREFPAGES;
  rk_wf : forall i r, zlookup l i = Some r -> root_wf r;
  rk_aligned : forall i r, zlookup l i = Some r -> root_page r <> 0 ->
    root_page r mod PAGE_SIZE = 0 /\ MIPS_KSEG0 < root_page r /\ root_page r + PAGE_SIZE <= MIPS_KSEG1;
  rk_inj : forall i i' r r', zlookup l i = Some r -> zlookup l i' = Some r' ->
    root_page r <> 0 -> root_page r = root_page r' -> i = i';
  rk_prefix : forall i i' r r', zlookup l i = Some r -> zlookup l i' = Some r' -> i' < i ->
    root_page r <> 0 -> root_page r' <> 0;
  rk_noleak : forall i r, zlookup l i = Some r -> root_page r = 0 -> numinuse r = 0 \/ full;
  rk_refs : forall p, p ∈ refs <-> exists i r, zlookup l i = Some r /\ p ∈ root_refs r
}.

(** ** The invariant *)

Section inv.
Context {P : Type} `{PageAlloc P}.

(** [l] describes the heap pages, [big] the whole-page blocks, [B] the pages
    of the layer below. *)
Record heap_inv (s : kheap P) (l : list hpage) (big B : gmap Z Z) : Prop := {
  hi_all : chain next_all (prefs s) (allbase s) (hp_ref <$> l);
  hi_bases : length (sizebases s) = Z.to_nat NSIZES;
  hi_same : forall t h, zlookup (sizebases s) t = Some h ->
    chain next_samesize (prefs s) h (hp_ref <$> filter (fun x => hp_type x = t) l);
  hi_pages : Forall (hpage_ok (prefs s) (kmem s)) l;
  hi_refs : NoDup (hp_ref <$> l);
  hi_roots : roots_ok (kheaproots s) (exhausted (kpages s)) (hp_ref <$> l);
  hi_rep : pages_rep (kpages s) B;
  hi_nodup : NoDup (hp_page <$> l);
  hi_owned : forall h, h ∈ l -> B !! hp_page h = Some 1 /\ big !! hp_page h = None;
  hi_rowned : forall i r, zlookup (kheaproots s) i = Some r -> root_page r <> 0 ->
    B !! root_page r = Some 1 /\ big !! root_page r = None /\ ~ root_page r ∈ hp_page <$> l;
  hi_big : big ⊆ B
}.

(** The blocks handed out: the blocks of heap pages that are not free, and
    the whole-page blocks. *)
Definition is_live (l : list hpage) (big : gmap Z Z) (a n : Z) : Prop :=
  (exists h, h ∈ l /\ hp_block h a /\ ~ a ∈ hp_free h /\ n = hp_size h) \/
  (exists k, big !! a = Some k /\ n = k * PAGE_SIZE).

Definition heap_rep (s : kheap P) (live : gmap Z Z) : Prop :=
  spinlock_held s = false /\
  exists l big B, heap_inv s l big B /\ forall a n, live !! a = Some n <-> is_live l big a n.

End inv.

(** ** Chains *)

Lemma chain_ext link (m m' : gmap Z pageref) h l :
  (forall x, x ∈ l -> link <$> m' !! x = link <$> m !! x) -> chain link m h l -> chain link m' h l.
Proof.
  revert h. induction l as [|x l IH]; intros h He; cbn; [done|].
  intros (-> & Hx & r & Hr & Hc). pose proof (He x (list_elem_of_here _ _)) as E. rewrite Hr in E. cbn in E.
  destruct (m' !! x) as [r'|] eqn:Hr'; [|done]. injection E as E.
  split_and!; [done..|]. exists r'. split; [done|]. rewrite E. apply IH; [|done].
  intros y Hy. apply He. by right.
Qed.

Lemma chain_app link m h l1 x l2 :
  chain link m h (l1 ++ x :: l2) -> x <> 0 /\ exists r, m !! x = Some r /\ chain link m (link r) l2.
Proof.
  revert h. induction l1 as [|y l1 IH]; intros h; cbn.
  - by intros (_ & ? & ?).
  - intros (_ & _ & r & _ & Hc). by eapply IH.
Qed.

(** Taking an element out: its predecessor's link, or the base, is redirected. *)
Lemma chain_remove link (set : Z -> pageref -> pageref) m h l1 x l2 r :
  (forall v r, link (set v r) = v) ->
  chain link m h (l1 ++ x :: l2) -> NoDup (l1 ++ x :: l2) -> m !! x = Some r ->
  match last l1 with
  | None => chain link m (link r) l2
  | Some p => forall rp, m !! p = Some rp -> chain link (<[p := set (link r) rp]> m) h (l1 ++ l2)
  end.
Proof.
  intros Hset. revert h. induction l1 as [|y l1 IH]; intros h Hc Hd Hx.
  - destruct Hc as (_ & _ & r' & Hr' & Hc). cbn. by simplify_eq.
  - cbn in Hc, Hd. apply NoDup_cons in Hd as [Hy Hd]. destruct Hc as (-> & Hy0 & ry & Hry & Hc).
    specialize (IH (link ry) Hc Hd Hx). destruct l1 as [|z l1].
    + cbn in *. intros rp Hrp. rewrite Hry in Hrp. injection Hrp as <-. split_and!; [done..|]. exists (set (link r) ry).
      rewrite lookup_insert_eq, Hset. split; [done|]. eapply chain_ext, IH.
      intros u Hu. rewrite lookup_insert_ne; [done|]. intros ->. apply Hy. by right.
    + rewrite last_cons_cons. destruct (last (z :: l1)) as [p|] eqn:El; [|by apply last_None in El].
      intros rp Hrp. specialize (IH rp Hrp). cbn [app chain]. split_and!; [done..|].
      assert (y <> p).
      { intros ->. apply Hy. apply elem_of_app. left. apply last_Some in El as [l' ->]. apply elem_of_app. right. by left. }
      exists ry. rewrite lookup_insert_ne by done. done.
Qed.

Lemma fchain_ext (m m' : gmap Z Z) l : (forall x, x ∈ l -> m' !! x = m !! x) -> fchain m l -> fchain m' l.
Proof.
  induction l as [|x l IH]; cbn; [done|]. intros He [Hx Hc]. split.
  - rewrite He; [done | by left].
  - apply IH; [|done]. intros y Hy. apply He. by right.
Qed.

(** ** Counting the bits of a root *)

Section count.
Context {A : Type} (p q : A -> bool).

Lemma filter_length_same (l : list A) :
  (forall y, y ∈ l -> p y = q y) ->
  length (filter (fun y => p y = true) l) = length (filter (fun y => q y = true) l).
Proof.
  induction l as [|y l IH]; [done|]. intros He. rewrite !filter_cons.
  rewrite (He y) by (by left). assert (IH' : forall z, z ∈ l -> p z = q z) by (intros z Hz; apply He; by right).
  destruct (decide (q y = true)); cbn; by rewrite IH.
Qed.

Lemma filter_length_flip (l : list A) x :
  NoDup l -> x ∈ l -> p x = false -> q x = true -> (forall y, y <> x -> p y = q y) ->
  length (filter (fun y => q y = true) l) = S (length (filter (fun y => p y = true) l)).
Proof.
  intros Hd Hx Hp Hq He. induction Hd as [|y l Hy Hd IH]; [by apply not_elem_of_nil in Hx|].
  rewrite !filter_cons. apply elem_of_cons in Hx as [-> | Hx].
  - rewrite decide_True, decide_False by congruence. cbn. f_equal. symmetry. apply filter_length_same.
    intros z Hz. apply He. by intros ->.
  - assert (y <> x) as Hne by (by intros ->). specialize (IH Hx). pose proof (He y Hne) as Ey.
    destruct (decide (q y = true)) as [E|E].
    + rewrite decide_True by congruence. cbn. by rewrite IH.
    + rewrite decide_False by congruence. done.
Qed.

End count.

Lemma NPAGEREFS_eq : NPAGEREFS_PER_PAGE = 256.
Proof. done. Qed.

Lemma ref_bit_insert ws i j w w' c :
  zlookup ws i = Some w -> 0 <= j < 32 ->
  (forall k, 0 <= k -> Z.testbit w' k = if k =? j then c else Z.testbit w k) ->
  forall y, 0 <= y -> ref_bit (zinsert i w' ws) y = if y =? i * 32 + j then c else ref_bit ws y.
Proof.
  intros Hw Hj Hb y Hy. unfold ref_bit. destruct (Z.eq_dec (y / 32) i) as [<-|Hne].
  - rewrite zlookup_insert_eq, Hw by (by eapply zlookup_lt). rewrite Hb by (apply Z.mod_pos_bound; lia).
    pose proof (Z.div_mod y 32 ltac:(lia)). bsolve.
  - rewrite zlookup_insert_ne by done. pose proof (Z.div_mod y 32 ltac:(lia)).
    pose proof (Z.mod_pos_bound y 32 ltac:(lia)). bsolve.
Qed.

Lemma ref_count_flip ws ws' x :
  0 <= x < NPAGEREFS_PER_PAGE -> ref_bit ws x = false -> ref_bit ws' x = true ->
  (forall y, 0 <= y -> y <> x -> ref_bit ws y = ref_bit ws' y) -> ref_count ws' = ref_count ws + 1.
Proof.
  intros Hx H1 H2 He. unfold ref_count.
  rewrite (filter_length_same (ref_bit ws') (fun y => if y =? x then true else ref_bit ws y)).
  2:{ intros y [Hy _]%elem_of_seqZ. destruct (Z.eqb_spec y x) as [->|]; [done|]. by rewrite He by lia. }
  rewrite (filter_length_flip (ref_bit ws) (fun y => if y =? x then true else ref_bit ws y) _ x); [lia| | | | |].
  - apply NoDup_seqZ.
  - apply elem_of_seqZ. lia.
  - done.
  - by rewrite Z.eqb_refl.
  - intros y Hy. by destruct (Z.eqb_spec y x).
Qed.

Lemma ref_count_bounds ws : 0 <= ref_count ws <= NPAGEREFS_PER_PAGE.
Proof.
  unfold ref_count. pose proof (length_filter (fun j => ref_bit ws j = true) (seqZ 0 NPAGEREFS_PER_PAGE)) as Hl.
  rewrite length_seqZ in Hl. rewrite NPAGEREFS_eq in *. lia.
Qed.

Lemma ref_count_pos ws x : 0 <= x < NPAGEREFS_PER_PAGE -> ref_bit ws x = true -> 0 < ref_count ws.
Proof.
  intros Hx Hb. unfold ref_count.
  assert (Hin : x ∈ filter (fun j => ref_bit ws j = true) (seqZ 0 NPAGEREFS_PER_PAGE)).
  { apply list_elem_of_filter. split; [done|]. apply elem_of_seqZ. lia. }
  destruct (filter _ _); [by apply not_elem_of_nil in Hin | cbn; lia].
Qed.

Lemma elem_of_root_refs r p :
  p ∈ root_refs r <-> root_page r <> 0 /\ exists j, 0 <= j < NPAGEREFS_PER_PAGE /\ ref_bit (pagerefs_inuse r) j = true /\ p = root_page r + 16 * j.
Proof.
  unfold root_refs. destruct (Z.eqb_spec (root_page r) 0) as [E|E].
  - split; [by intros ?%not_elem_of_nil | by intros [? _]].
  - rewrite list_elem_of_fmap. setoid_rewrite list_elem_of_filter. setoid_rewrite elem_of_seqZ.
    split; [intros (j & -> & ? & ?) | intros (_ & j & ? & ? & ->)]; [split; [done|]|]; exists j; split_and!; try done; lia.
Qed.

(** ** Changing one root *)

Section change.
Context (l : list kheap_root) (full : Prop) (refs : list Z) (W : roots_ok l full refs).
Context (i : Z) (r r' : kheap_root) (Hi : zlookup l i = Some r) (W' : root_wf r').

Lemma roots_split p : p ∈ refs <-> p ∈ root_refs r \/ exists i' r2, i' <> i /\ zlookup l i' = Some r2 /\ p ∈ root_refs r2.
Proof.
  rewrite (rk_refs _ _ _ W). split.
  - intros (i' & r2 & H1 & H2). destruct (Z.eq_dec i' i) as [->|]; [left; congruence | right; eauto].
  - intros [? | (i' & r2 & _ & ? & ?)]; eauto.
Qed.

(** The pages of the roots after root [i] becomes [r']. *)
Record page_kept (full' : Prop) : Prop := {
  pk_page : root_page r' = root_page r \/
    (root_page r' mod PAGE_SIZE = 0 /\ MIPS_KSEG0 < root_page r' /\ root_page r' + PAGE_SIZE <= MIPS_KSEG1) /\
    (forall j rj, zlookup l j = Some rj -> j < i -> root_page rj <> 0) /\
    (forall j rj, zlookup l j = Some rj -> root_page rj <> root_page r') /\
    root_page r = 0;
  pk_noleak : root_page r' = 0 -> numinuse r' = 0 \/ full';
  pk_full : full -> full'
}.

Lemma roots_change full' refs' :
  page_kept full' ->
  (forall p, p ∈ refs' <-> p ∈ root_refs r' \/ exists i' r2, i' <> i /\ zlookup l i' = Some r2 /\ p ∈ root_refs r2) ->
  roots_ok (zinsert i r' l) full' refs'.
Proof.
  intros [Hp Hn Hf] Hr. pose proof (zlookup_lt _ _ _ Hi) as Hlt.
  assert (L : forall j rj, zlookup (zinsert i r' l) j = Some rj <-> (j = i /\ rj = r') \/ (j <> i /\ zlookup l j = Some rj)).
  { intros j rj. destruct (Z.eq_dec j i) as [->|Hj].
    - rewrite zlookup_insert_eq by done. naive_solver.
    - rewrite zlookup_insert_ne by done. naive_solver. }
  split.
  - rewrite zinsert_length. apply W.
  - intros j rj [[-> ->] | [_ ?]]%L; [done | by eapply rk_wf].
  - intros j rj [[-> ->] | [_ ?]]%L; [|by eapply rk_aligned]. destruct Hp as [-> | (? & _)]; [by eapply rk_aligned | done].
  - intros j j' rj rj' [[-> ->] | [? H1]]%L [[-> ->] | [? H2]]%L Hnz E.
    + done.
    + destruct Hp as [Hp | (_ & _ & Hd & _)]; [|by destruct (Hd _ _ H2)].
      apply (rk_inj _ _ _ W _ _ _ _ Hi H2); congruence.
    + destruct Hp as [Hp | (_ & _ & Hd & _)]; [|by destruct (Hd _ _ H1)].
      apply (rk_inj _ _ _ W _ _ _ _ H1 Hi); congruence.
    + exact (rk_inj _ _ _ W _ _ _ _ H1 H2 Hnz E).
  - intros j j' rj rj' [[-> ->] | [? H1]]%L [[-> ->] | [? H2]]%L Hjj Hnz.
    + lia.
    + destruct Hp as [Hp | (_ & Hd & _)]; [|by eapply Hd].
      apply (rk_prefix _ _ _ W _ _ _ _ Hi H2); congruence.
    + pose proof (rk_prefix _ _ _ W _ _ _ _ H1 Hi Hjj Hnz). destruct Hp as [-> | (_ & _ & _ & ?)]; done.
    + exact (rk_prefix _ _ _ W _ _ _ _ H1 H2 Hjj Hnz).
  - intros j rj [[-> ->] | [_ H1]]%L Hz; [by apply Hn|]. destruct (rk_noleak _ _ _ W _ _ H1 Hz); auto.
  - intros p. rewrite Hr. split.
    + intros [? | (j & rj & ? & ? & ?)]; [exists i, r' | exists j, rj]; rewrite L; auto.
    + intros (j & rj & [[-> ->] | [? ?]]%L & ?); [by left | right; eauto].
Qed.

(** A bit that is clear names a pageref that is not in use. *)
Lemma new_ref x :
  page_kept full -> root_page r' <> 0 -> 0 <= x < NPAGEREFS_PER_PAGE ->
  (root_page r = 0 \/ ref_bit (pagerefs_inuse r) x = false) -> ~ root_page r' + 16 * x ∈ refs.
Proof.
  intros Hk H0 Hx Hb. rewrite roots_split, elem_of_root_refs. rewrite NPAGEREFS_eq in *.
  intros [(Hr & j & Hj & Hbj & E) | (i' & r2 & Hne & H2 & Hin)].
  - destruct Hb as [Hb | Hb]; [done|]. destruct (pk_page _ Hk) as [Hp | (_ & _ & _ & Hp)]; [|done].
    rewrite Hp in E. assert (x = j) by lia. congruence.
  - apply elem_of_root_refs in Hin as (H2p & j & Hj & _ & E). rewrite NPAGEREFS_eq in *.
    destruct (rk_aligned _ _ _ W _ _ H2 H2p) as (A2 & _).
    assert (A1 : root_page r' mod PAGE_SIZE = 0).
    { destruct (pk_page _ Hk) as [Hp | ((? & _) & _)]; [|done]. rewrite Hp in H0 |- *. apply (rk_aligned _ _ _ W _ _ Hi H0). }
    assert (root_page r' = root_page r2) as Ep.
    { unfold PAGE_SIZE in *. Z.to_euclidean_division_equations. lia. }
    destruct (pk_page _ Hk) as [Hp | (_ & _ & Hd & _)]; [|by destruct (Hd _ _ H2)].
    apply Hne. apply (rk_inj _ _ _ W _ _ _ _ H2 Hi); congruence.
Qed.

(** Setting bit [x]. *)
Lemma roots_take x full' :
  page_kept full -> (full -> full') -> 0 <= x < NPAGEREFS_PER_PAGE -> root_page r' <> 0 ->
  (forall y, 0 <= y -> ref_bit (pagerefs_inuse r') y = if y =? x then true else ref_bit (pagerefs_inuse r) y) ->
  (root_page r = 0 -> forall y, 0 <= y < NPAGEREFS_PER_PAGE -> ref_bit (pagerefs_inuse r) y = false) ->
  roots_ok (zinsert i r' l) full' (root_page r' + 16 * x :: refs).
Proof.
  intros Hk Hf Hx H0 Hb H00. apply roots_change.
  - destruct Hk as [K1 K2 K3]. split; [done | | auto]. intros H. destruct (K2 H); auto.
  - intros p. rewrite elem_of_cons, roots_split, !elem_of_root_refs.
    assert (E : (p = root_page r' + 16 * x \/ (root_page r <> 0 /\ exists j, 0 <= j < NPAGEREFS_PER_PAGE /\
      ref_bit (pagerefs_inuse r) j = true /\ p = root_page r + 16 * j)) <-> (root_page r' <> 0 /\ exists j,
      0 <= j < NPAGEREFS_PER_PAGE /\ ref_bit (pagerefs_inuse r') j = true /\ p = root_page r' + 16 * j)).
    { split.
      - intros [-> | (Hr & j & Hj & Hbj & ->)]; (split; [done|]).
        + exists x. by rewrite Hb, Z.eqb_refl by lia.
        + destruct (pk_page _ Hk) as [-> | (_ & _ & _ & ?)]; [|done]. exists j. split_and!; [lia..| |done].
          rewrite Hb by lia. by destruct (j =? x).
      - intros (_ & j & Hj & Hbj & ->). rewrite Hb in Hbj by lia. destruct (Z.eqb_spec j x) as [->|]; [by left|].
        right. destruct (Z.eq_dec (root_page r) 0) as [E|E]; [rewrite H00 in Hbj by done; done|].
        destruct (pk_page _ Hk) as [-> | (_ & _ & _ & ?)]; [|done]. split; [done|]. by exists j. }
    rewrite <- E. tauto.
Qed.

(** Clearing bit [x]. *)
Lemma roots_give x :
  root_page r' = root_page r -> root_page r <> 0 -> 0 <= x < NPAGEREFS_PER_PAGE ->
  (forall y, 0 <= y -> ref_bit (pagerefs_inuse r') y = if y =? x then false else ref_bit (pagerefs_inuse r) y) ->
  forall refs', (forall p, p ∈ refs' <-> p ∈ refs /\ p <> root_page r + 16 * x) ->
  roots_ok (zinsert i r' l) full refs'.
Proof.
  intros Hp H0 Hx Hb refs' Hr. apply roots_change.
  { split; [by left | congruence | done]. }
  intros p. rewrite Hr, roots_split, !elem_of_root_refs, Hp. split.
  - intros [[(_ & j & Hj & Hbj & ->) | ?] Hne]; [left|by right]. split; [done|]. exists j. split_and!; [lia..| |done].
    rewrite Hb by lia. destruct (Z.eqb_spec j x) as [->|]; [done|done].
  - intros [(_ & j & Hj & Hbj & ->) | (i' & r2 & Hne & H2 & Hin)].
    + rewrite Hb in Hbj by lia. destruct (Z.eqb_spec j x); [done|]. split; [left; split; [done|]; by exists j | lia].
    + split; [right; eauto|]. intros ->. apply elem_of_root_refs in Hin as (H2p & j & Hj & _ & E).
      destruct (rk_aligned _ _ _ W _ _ H2 H2p) as (A2 & _). destruct (rk_aligned _ _ _ W _ _ Hi H0) as (A1 & _).
      rewrite NPAGEREFS_eq in *. assert (root_page r = root_page r2) as Ep.
      { unfold PAGE_SIZE in *. Z.to_euclidean_division_equations. lia. }
      apply Hne. apply (rk_inj _ _ _ W _ _ _ _ H2 Hi); congruence.
Qed.

End change.

Lemma roots_full l (full full' : Prop) refs : roots_ok l full refs -> (full -> full') -> roots_ok l full' refs.
Proof. intros [] Hf. split; try done. intros i r H1 H2. destruct (rk_noleak0 i r H1 H2); auto. Qed.

Lemma roots_equiv l full refs refs' : roots_ok l full refs -> (forall p, p ∈ refs' <-> p ∈ refs) -> roots_ok l full refs'.
Proof. intros [] He. split; try done. intros p. by rewrite He. Qed.
