(* ===== verification/KmallocRefs.v ===== *)
(** * Allocation of pagerefs in [kern/vm/kmalloc.c]

    [allocpageref] and [freepageref] keep [roots_ok]: the pagerefs in use are
    exactly those of the heap pages, through every branch, including the page
    of pagerefs that cannot be had. *)

From S2P Require Import Prelude KPages Kmalloc KmallocInv.

Section refs.
Context {P : Type} {PA : PageAlloc P} {PL : PageAllocLaws P}.
Implicit Types (s : kheap P) (B : gmap Z Z).

(** ** Primitives *)

Lemma wp_kacquire s Q E : spinlock_held s = false -> Q tt (set_held true s) -> wp spinlock_acquire Q E s.
Proof. intros Hh HQ. unfold spinlock_acquire. wp_steps. apply wp_kassert; [by rewrite Hh|]. by wp_steps. Qed.

Lemma wp_krelease s Q E : spinlock_held s = true -> Q tt (set_held false s) -> wp spinlock_release Q E s.
Proof. intros Hh HQ. unfold spinlock_release. wp_steps. apply wp_kassert; [done|]. by wp_steps. Qed.

Lemma wp_get_root i r s Q E : zlookup (kheaproots s) i = Some r -> Q r s -> wp (get_root i) Q E s.
Proof. intros Hr HQ. unfold get_root. wp_steps. by eapply wp_oob. Qed.

Lemma wp_load_pr p r s Q E : prefs s !! p = Some r -> Q r s -> wp (load_pr p) Q E s.
Proof. intros Hr HQ. unfold load_pr. wp_steps. by eapply wp_oob. Qed.

Lemma wp_get_sizebase t h s Q E : zlookup (sizebases s) t = Some h -> Q h s -> wp (get_sizebase t) Q E s.
Proof. intros Hr HQ. unfold get_sizebase. wp_steps. by eapply wp_oob. Qed.

Lemma wp_get_kpages n s B Q E :
  spinlock_held s = false -> pages_rep (kpages s) B -> 1 <= n < 2 ^ 19 ->
  (forall p', pages_rep p' B -> (n = 1 \/ exhausted (kpages s) -> exhausted p') -> Q 0 (set_kpages p' s)) ->
  (forall va p', fresh_block B va n -> pages_rep p' (<[va := n]> B) -> ~ exhausted (kpages s) -> Q va (set_kpages p' s)) ->
  wp (get_kpages n) Q E s.
Proof.
  intros Hh HB Hn H1 H2. unfold get_kpages. wp_steps. rewrite Hh.
  eapply wp_use; [by apply alloc_kpages_ok|]. intros va p' [(-> & ? & ?) | (? & ? & ?)]; auto.
Qed.

Lemma wp_give_kpages va n s B Q E :
  pages_rep (kpages s) B -> B !! va = Some n ->
  (forall p', pages_rep p' (delete va B) -> (exhausted (kpages s) -> exhausted p') -> Q tt (set_kpages p' s)) ->
  wp (give_kpages va) Q E s.
Proof.
  intros HB Hv HQ. unfold give_kpages. wp_steps.
  eapply wp_use; [by eapply free_kpages_ok|]. intros [] p' [? ?]. auto.
Qed.

Lemma unlocked_relocked s p : spinlock_held s = true -> set_held true (set_kpages p (set_held false s)) = set_kpages p s.
Proof. destruct s. cbn. by intros ->. Qed.

Lemma fresh_nonzero B va n : fresh_block B va n -> va <> 0.
Proof. intros []. unfold MIPS_KSEG0 in *. lia. Qed.

Lemma fresh_notin B va n : fresh_block B va n -> 1 <= n -> (forall b m, B !! b = Some m -> 1 <= m) -> B !! va = None.
Proof.
  intros F Hn Hm. destruct (B !! va) as [m|] eqn:E; [|done]. pose proof (Hm _ _ E). unfold PAGE_SIZE.
  destruct (fresh_apart _ _ _ F _ _ E); unfold PAGE_SIZE in *; lia.
Qed.

Lemma fresh_new p B va n : pages_rep p B -> fresh_block B va n -> 1 <= n -> B !! va = None.
Proof. intros HB F Hn. eapply fresh_notin; [done..|]. intros b m Hb. by destruct (pages_apart _ _ _ _ HB Hb). Qed.

(** ** A page of pagerefs *)

Lemma wp_allocpagerefpage i r s B Q E :
  spinlock_held s = true -> zlookup (kheaproots s) i = Some r -> root_page r = 0 -> pages_rep (kpages s) B ->
  (forall p', pages_rep p' B -> exhausted p' -> Q tt (set_kpages p' s)) ->
  (forall va p', fresh_block B va 1 -> pages_rep p' (<[va := 1]> B) -> ~ exhausted (kpages s) ->
     Q tt (set_kpages p' (set_roots (zinsert i (Kheap_root va (pagerefs_inuse r) (numinuse r)) (kheaproots s)) s))) ->
  wp (allocpagerefpage i) Q E s.
Proof.
  intros Hh Hi H0 HB HQ1 HQ2. unfold allocpagerefpage.
  apply wp_bind. eapply wp_get_root; [done|]. apply wp_bind, wp_kassert; [by rewrite H0|].
  apply wp_bind, wp_krelease; [done|]. apply wp_bind. eapply (wp_get_kpages 1 _ B); [done|done|lia| |].
  - intros p' HB' Hx. apply wp_bind, wp_kacquire; [done|]. rewrite unlocked_relocked by done.
    apply wp_ret. apply HQ1; auto.
  - intros va p' F HB' Hx. apply wp_bind, wp_kacquire; [done|]. rewrite unlocked_relocked by done.
    pose proof (fresh_nonzero _ _ _ F). destruct (Z.eqb_spec va 0); [done|].
    apply wp_bind, wp_kassert; [apply Z.eqb_eq; apply F|]. apply wp_bind. eapply wp_get_root; [done|].
    rewrite H0. cbn [negb Z.eqb]. apply wp_modify. by apply HQ2.
Qed.

(** ** Taking a pageref *)

(** [s'] is [s] with other roots and pages, in which the pagerefs [refs'] are
    in use; its pageref pages are those of [s] or fresh ones. *)
Record refs_step s B s' B' (refs' : list Z) : Prop := {
  rs_state : s' = set_kpages (kpages s') (set_roots (kheaproots s') s);
  rs_sub : B ⊆ B';
  rs_rep : pages_rep (kpages s') B';
  rs_roots : roots_ok (kheaproots s') (exhausted (kpages s')) refs';
  rs_pages : forall i r', zlookup (kheaproots s') i = Some r' -> root_page r' <> 0 ->
    (exists r, zlookup (kheaproots s) i = Some r /\ root_page r = root_page r') \/
    (B !! root_page r' = None /\ B' !! root_page r' = Some 1)
}.

Definition took s B refs (p : Z) s' : Prop :=
  (p = 0 /\ refs_step s B s' B refs) \/
  (0 < p /\ ~ p ∈ refs /\ exists B', refs_step s B s' B' (p :: refs)).

Section take.
Context (s : kheap P) (B : gmap Z Z) (refs : list Z).
Context (Hh : spinlock_held s = true) (HB : pages_rep (kpages s) B).
Context (W : roots_ok (kheaproots s) (exhausted (kpages s)) refs).
Context (Hown : forall i r, zlookup (kheaproots s) i = Some r -> root_page r <> 0 -> B !! root_page r = Some 1).

Lemma roots_kept r' i r :
  zlookup (kheaproots s) i = Some r -> root_page r' = root_page r ->
  forall i2 r2, zlookup (zinsert i r' (kheaproots s)) i2 = Some r2 -> root_page r2 <> 0 ->
  exists r1, zlookup (kheaproots s) i2 = Some r1 /\ root_page r1 = root_page r2.
Proof.
  intros Hi Hp i2 r2. destruct (Z.eq_dec i2 i) as [->|Hne].
  - rewrite zlookup_insert_eq by (by eapply zlookup_lt). intros [= <-] _. by exists r.
  - rewrite zlookup_insert_ne by done. eauto.
Qed.

Lemma count_zero_bits ws : ref_count ws = 0 -> forall y, 0 <= y < NPAGEREFS_PER_PAGE -> ref_bit ws y = false.
Proof. intros H y Hy. destruct (ref_bit ws y) eqn:E; [|done]. pose proof (ref_count_pos ws y Hy E). lia. Qed.

(** The bitmap after bit [j] of its word [i] is set. *)
Lemma set_bit_wf r i j w :
  root_wf r -> zlookup (pagerefs_inuse r) i = Some w -> 0 <= j < 32 -> Z.testbit w j = false ->
  forall pg, root_wf (Kheap_root pg (zinsert i (Z.lor w (2 ^ j)) (pagerefs_inuse r)) (u32 (numinuse r + 1))) /\
  0 <= i * 32 + j < NPAGEREFS_PER_PAGE /\ ref_bit (pagerefs_inuse r) (i * 32 + j) = false /\
  (forall y, 0 <= y -> ref_bit (zinsert i (Z.lor w (2 ^ j)) (pagerefs_inuse r)) y =
     if y =? i * 32 + j then true else ref_bit (pagerefs_inuse r) y).
Proof.
  intros [Wl Ww Wc] Hw Hj Hb pg. pose proof (zlookup_lt _ _ _ Hw) as Hi. rewrite Wl in Hi.
  change (Z.of_nat (Z.to_nat INUSE_WORDS)) with 8 in Hi. rewrite NPAGEREFS_eq.
  pose proof (Forall_zlookup _ _ _ _ Ww Hw) as Hwr. cbn in Hwr.
  pose proof (ref_bit_insert _ i j w (Z.lor w (2 ^ j)) true Hw Hj (fun k Hk => lor_mask_testbit w j k ltac:(lia) Hk)) as Hins.
  assert (Hclear : ref_bit (pagerefs_inuse r) (i * 32 + j) = false).
  { unfold ref_bit. replace ((i * 32 + j) / 32) with i by (Z.to_euclidean_division_equations; lia).
    rewrite Hw. replace ((i * 32 + j) mod 32) with j by (Z.to_euclidean_division_equations; lia). done. }
  split_and!; [|lia|lia|done|done]. split; cbn [pagerefs_inuse numinuse].
  - by rewrite zinsert_length.
  - apply Forall_zinsert; [done|]. by apply lor_mask_word.
  - pose proof (ref_count_bounds (pagerefs_inuse r)) as Hc. rewrite NPAGEREFS_eq in Hc.
    rewrite (wrap_small 32) by lia. rewrite Wc. symmetry. apply (ref_count_flip _ _ (i * 32 + j)).
    + rewrite NPAGEREFS_eq. lia.
    + done.
    + rewrite Hins by lia. by rewrite Z.eqb_refl.
    + intros y Hy Hne. rewrite Hins by done. by destruct (Z.eqb_spec y (i * 32 + j)).
Qed.

(** A bit is set in a root that has, or has just got, its page. *)
Lemma took_some which r r' x p' B' :
  zlookup (kheaproots s) which = Some r -> root_wf r' ->
  page_kept (kheaproots s) (exhausted (kpages s)) which r r' (exhausted (kpages s)) ->
  MIPS_KSEG0 < root_page r' -> 0 <= x < NPAGEREFS_PER_PAGE -> ref_bit (pagerefs_inuse r) x = false ->
  (forall y, 0 <= y -> ref_bit (pagerefs_inuse r') y = if y =? x then true else ref_bit (pagerefs_inuse r) y) ->
  (root_page r = 0 -> numinuse r = 0) ->
  B ⊆ B' -> pages_rep p' B' -> (exhausted (kpages s) -> exhausted p') ->
  root_page r' = root_page r \/ (B !! root_page r' = None /\ B' !! root_page r' = Some 1) ->
  took s B refs (root_page r' + 16 * x) (set_kpages p' (set_roots (zinsert which r' (kheaproots s)) s)).
Proof.
  intros Hr Wr' K Hlow Hx Hclr Hbits Hnum HBB HB' Hf Hpg. unfold MIPS_KSEG0 in Hlow.
  right. split; [lia|]. split.
  { apply (new_ref _ _ _ W which r r' Hr x); [done|lia|done|by right]. }
  exists B'. split; cbn [kheaproots kpages set_kpages set_roots]; try done.
  - eapply (roots_take _ _ _ W which r r' Hr Wr' x); [done..|lia|done|].
    intros H0. apply count_zero_bits. rewrite <- (rw_count _ (rk_wf _ _ _ W _ _ Hr)). auto.
  - intros i2 r2. destruct (Z.eq_dec i2 which) as [->|Hne].
    + rewrite zlookup_insert_eq by (by eapply zlookup_lt). intros [= <-] _.
      destruct Hpg as [Hpg | Hpg]; [left; by exists r | by right].
    + rewrite zlookup_insert_ne by done. eauto.
Qed.

Lemma wp_take_pageref which r i w j E :
  zlookup (kheaproots s) which = Some r -> zlookup (pagerefs_inuse r) i = Some w -> 0 <= j < 32 ->
  (forall i' r', zlookup (kheaproots s) i' = Some r' -> i' < which -> root_page r' <> 0 \/ exhausted (kpages s)) ->
  wp (take_pageref which i j)
    (fun o s' => match o with
                 | None => s' = s /\ Z.testbit w j = true
                 | Some p => took s B refs p s'
                 end) E s.
Proof.
  intros Hr Hw Hj Hlow. unfold take_pageref.
  apply wp_bind. eapply wp_get_root; [done|]. apply wp_bind. eapply wp_oob; [done|].
  rewrite mask_shift, land_mask_0 by lia. destruct (Z.testbit w j) eqn:Hb; cbn [negb]; [by apply wp_ret|].
  pose proof (set_bit_wf r i j w (rk_wf _ _ _ W _ _ Hr) Hw Hj Hb) as Hset.
  set (ws := zinsert i (Z.lor w (2 ^ j)) (pagerefs_inuse r)) in *. set (n := u32 (numinuse r + 1)) in *.
  pose proof (zlookup_lt _ _ _ Hr) as Hlt.
  apply wp_bind, wp_modify. apply wp_bind. eapply wp_get_root; [by apply zlookup_insert_eq|]. cbn [root_page].
  destruct (Hset (root_page r)) as (Wr' & Hx & Hclr & Hbits).
  destruct (Z.eqb_spec (root_page r) 0) as [H0|H0].
  - apply wp_bind. eapply (wp_allocpagerefpage which _ _ B); [done|by apply zlookup_insert_eq|done|done| |].
    + intros p' HB' Hex. apply wp_bind. eapply wp_get_root; [by apply zlookup_insert_eq|]. cbn [root_page].
      destruct (Z.eqb_spec (root_page r) 0); [|done]. apply wp_ret. left. split; [done|].
      split; cbn [kheaproots kpages set_kpages set_roots]; try done.
      * eapply (roots_change _ _ _ W which r); [done|done| |].
        { split; cbn [root_page]; [by left | by right | done]. }
        intros p. rewrite (roots_split _ _ _ W which r Hr p). unfold root_refs. cbn [root_page]. by rewrite H0.
      * intros i2 r2 H2 H3. left. eapply (roots_kept _ which r); [done| |exact H2|done]. done.
    + intros va p' F HB' Hex. cbn [kheaproots set_roots pagerefs_inuse numinuse].
      apply wp_bind. eapply wp_get_root.
      { cbn [kheaproots set_kpages set_roots]. apply zlookup_insert_eq. by rewrite zinsert_length. }
      cbn [root_page]. pose proof (fresh_nonzero _ _ _ F) as Hva. destruct (Z.eqb_spec va 0); [done|]. apply wp_ret.
      pose proof F as [F1 F2 F3 _]. rewrite Z.mul_1_l in F3. rewrite NPAGEREFS_eq in Hx.
      rewrite wrap_small by (unfold MIPS_KSEG0, MIPS_KSEG1, PAGE_SIZE in *; lia).
      pose proof (fresh_new _ _ _ _ HB F ltac:(lia)) as Hnew.
      replace (zinsert which _ (zinsert which _ (kheaproots s)))
        with (zinsert which (Kheap_root va ws n) (kheaproots s)) by (by rewrite zinsert_insert).
      apply (took_some which r (Kheap_root va ws n) (i * 32 + j) p' (<[va := 1]> B)); try done.
      * by destruct (Hset va).
      * split; cbn [root_page]; [|done|done]. right. split_and!; [done..| | |done].
        -- intros j0 rj Hj0 Hlt0. by destruct (Hlow _ _ Hj0 Hlt0).
        -- intros j0 rj Hj0 E0. assert (B !! root_page rj = Some 1) by (eapply Hown; [done|congruence]). congruence.
      * intros _. by destruct (rk_noleak _ _ _ W _ _ Hr H0).
      * by apply insert_subseteq.
      * cbn [root_page]. right. by rewrite lookup_insert_eq.
  - apply wp_bind, wp_ret. apply wp_bind. eapply wp_get_root; [by apply zlookup_insert_eq|]. cbn [root_page].
    destruct (Z.eqb_spec (root_page r) 0); [done|]. apply wp_ret.
    destruct (rk_aligned _ _ _ W _ _ Hr H0) as (_ & A2 & A3). rewrite NPAGEREFS_eq in Hx.
    rewrite wrap_small by (unfold MIPS_KSEG0, MIPS_KSEG1, PAGE_SIZE in *; lia).
    replace (set_roots _ s) with
      (set_kpages (kpages s) (set_roots (zinsert which (Kheap_root (root_page r) ws n) (kheaproots s)) s)) by done.
    apply (took_some which r (Kheap_root (root_page r) ws n) (i * 32 + j) (kpages s) B); try done.
    + split; cbn [root_page]; [by left | done | done].
    + by left.
Qed.

(** ** The search *)

Lemma all_bits_set w : 0 <= w < 2 ^ 32 -> (forall k, 0 <= k < 32 -> Z.testbit w k = true) -> w = 0xffffffff.
Proof.
  intros Hw Hb. change 0xffffffff with (Z.ones 32). apply Z.bits_inj'. intros k Hk.
  rewrite Z.testbit_ones_nonneg by lia. destruct (Z.ltb_spec k 32); [by apply Hb | by apply (word_testbit_high 32)].
Qed.

Lemma wp_allocpageref_word which r i E :
  zlookup (kheaproots s) which = Some r -> 0 <= i < INUSE_WORDS ->
  (forall i' r', zlookup (kheaproots s) i' = Some r' -> i' < which -> root_page r' <> 0 \/ exhausted (kpages s)) ->
  wp (allocpageref_word which i)
    (fun o s' => match o with
                 | None => s' = s /\ zlookup (pagerefs_inuse r) i = Some 0xffffffff
                 | Some p => took s B refs p s'
                 end) E s.
Proof.
  intros Hr Hi Hlow. pose proof (rk_wf _ _ _ W _ _ Hr) as [Wl Ww Wc].
  destruct (zlookup_is_Some (pagerefs_inuse r) i) as [w Hw].
  { rewrite Wl. change INUSE_WORDS with 8 in *. cbn. lia. }
  unfold allocpageref_word. apply wp_bind. eapply wp_get_root; [done|]. apply wp_bind. eapply wp_oob; [done|].
  destruct (Z.eqb_spec w 0xffffffff) as [->|Hne]; [by apply wp_ret|].
  apply wp_bind. eapply (wp_for_loop (fun j s' => s' = s /\ forall k, 0 <= k < j -> Z.testbit w k = true)).
  - split; [done|]. lia.
  - intros j s' Hj [-> Hk]. eapply wp_mono; [by apply (wp_take_pageref which r i w j (fun _ _ => False)); [..|lia|] | | done].
    intros [p|] s2; cbn; [intros Ht; by apply wp_ret|]. intros [-> Hb]. split; [done|].
    intros k Hk'. destruct (Z.eq_dec k j) as [->|]; [done|]. apply Hk. lia.
  - intros s' [-> Hk]. destruct Hne. apply all_bits_set; [by eapply (Forall_zlookup _ _ _ _ Ww)|].
    intros k Hk'. apply Hk. lia.
Qed.

Lemma wp_allocpageref E : wp allocpageref (took s B refs) E s.
Proof.
  unfold allocpageref. apply wp_bind.
  eapply (wp_for_loop (fun which s' => s' = s /\ forall i r, zlookup (kheaproots s) i = Some r -> i < which ->
            root_page r <> 0 \/ exhausted (kpages s))).
  - split; [done|]. intros i r Hi Hl. apply zlookup_lt in Hi. lia.
  - intros which s' Hw [-> Hlow]. destruct (zlookup_is_Some (kheaproots s) which) as [r Hr].
    { rewrite (rk_length _ _ _ W). lia. }
    apply wp_bind. eapply wp_get_root; [done|]. pose proof (rk_wf _ _ _ W _ _ Hr) as [Wl Ww Wc].
    assert (Hnext : (root_page r = 0 -> numinuse r <> 0) ->
      forall i r', zlookup (kheaproots s) i = Some r' -> i < which + 1 -> root_page r' <> 0 \/ exhausted (kpages s)).
    { intros Hn i r' Hi Hl. destruct (Z.eq_dec i which) as [->|]; [|apply (Hlow i r' Hi); lia].
      rewrite Hr in Hi. injection Hi as <-. destruct (Z.eq_dec (root_page r) 0) as [H0|]; [|by left].
      destruct (rk_noleak _ _ _ W _ _ Hr H0); [by destruct (Hn H0) | by right]. }
    destruct (Z.leb_spec NPAGEREFS_PER_PAGE (numinuse r)) as [Hfull|Hfull].
    + apply wp_ret. split; [done|]. apply Hnext. rewrite NPAGEREFS_eq in Hfull. lia.
    + eapply (wp_for_loop (fun i s' => s' = s /\ (0 < i -> zlookup (pagerefs_inuse r) 0 = Some 0xffffffff))).
      * split; [done|]. lia.
      * intros i s' Hi [-> H0]. eapply wp_mono; [apply (wp_allocpageref_word which r i (fun _ _ => False)); [done|lia|done] | | done].
        intros [p|] s2; cbn; [done|]. intros [-> Hf]. split; [done|]. intros _.
        destruct (Z.eq_dec i 0) as [->|]; [done|]. apply H0. lia.
      * intros s' [-> H0]. split; [done|]. apply Hnext. intros _. rewrite Wc.
        assert (0 < ref_count (pagerefs_inuse r)); [|lia]. apply (ref_count_pos _ 0); [done|].
        unfold ref_bit. change (0 / 32) with 0. by rewrite H0.
  - intros s' [-> Hlow]. apply wp_ret. left. split; [done|]. split; try done; [by destruct s | eauto].
Qed.

End take.

(** ** Giving a pageref back *)

Lemma clear_bit_wf r x :
  root_wf r -> 0 <= x < NPAGEREFS_PER_PAGE -> ref_bit (pagerefs_inuse r) x = true ->
  exists w, zlookup (pagerefs_inuse r) (x / 32) = Some w /\ Z.testbit w (x mod 32) = true /\ 0 < numinuse r /\
  let ws := zinsert (x / 32) (Z.land w (Z.lnot (2 ^ (x mod 32)))) (pagerefs_inuse r) in
  root_wf (Kheap_root (root_page r) ws (numinuse r - 1)) /\
  (forall y, 0 <= y -> ref_bit ws y = if y =? x then false else ref_bit (pagerefs_inuse r) y).
Proof.
  intros [Wl Ww Wc] Hx Hb. pose proof (ref_count_pos _ x Hx Hb) as Hpos. rewrite NPAGEREFS_eq in Hx.
  destruct (zlookup_is_Some (pagerefs_inuse r) (x / 32)) as [w Hw].
  { rewrite Wl. change (Z.of_nat (Z.to_nat INUSE_WORDS)) with 8. Z.to_euclidean_division_equations. lia. }
  pose proof (Z.mod_pos_bound x 32 ltac:(lia)) as Hm.
  exists w. split; [done|]. split; [unfold ref_bit in Hb; by rewrite Hw in Hb|]. split; [lia|].
  pose proof (ref_bit_insert _ (x / 32) (x mod 32) w (Z.land w (Z.lnot (2 ^ (x mod 32)))) false Hw Hm
    (fun k Hk => ldiff_mask_testbit w (x mod 32) k ltac:(lia) Hk)) as Hins.
  replace (x / 32 * 32 + x mod 32) with x in Hins by (pose proof (Z.div_mod x 32); lia).
  split; [|done]. split; cbn [pagerefs_inuse numinuse].
  - by rewrite zinsert_length.
  - apply Forall_zinsert; [done|]. apply ldiff_mask_word; [done|]. by apply (Forall_zlookup _ _ _ _ Ww Hw).
  - rewrite Wc. apply Z.sub_move_r, (ref_count_flip _ _ x); [rewrite NPAGEREFS_eq; lia| |done|].
    + rewrite Hins by lia. by rewrite Z.eqb_refl.
    + intros y Hy Hne. rewrite Hins by done. by destruct (Z.eqb_spec y x).
Qed.

Lemma wp_freepageref s refs refs' p Q E :
  roots_ok (kheaproots s) (exhausted (kpages s)) refs -> p ∈ refs ->
  (forall q, q ∈ refs' <-> q ∈ refs /\ q <> p) ->
  (forall l', roots_ok l' (exhausted (kpages s)) refs' -> 
     (forall i r, zlookup l' i = Some r -> exists r0, zlookup (kheaproots s) i = Some r0 /\ root_page r0 = root_page r) ->
     Q tt (set_roots l' s)) ->
  wp (freepageref p) Q E s.
Proof.
  intros W Hp Hrefs HQ. apply (rk_refs _ _ _ W) in Hp as (i0 & r0 & H0 & Hp).
  apply elem_of_root_refs in Hp as (Hpg & x & Hx & Hbx & ->).
  destruct (rk_aligned _ _ _ W _ _ H0 Hpg) as (A1 & A2 & A3). rewrite NPAGEREFS_eq in Hx.
  pose proof (zlookup_lt _ _ _ H0) as Hlt. rewrite (rk_length _ _ _ W) in Hlt.
  unfold freepageref. apply wp_bind. eapply (wp_for_loop (fun which s' => s' = s /\ which <= i0)).
  - split; [done|]. lia.
  - intros which s' Hw [-> Hle]. destruct (zlookup_is_Some (kheaproots s) which) as [r Hr].
    { rewrite (rk_length _ _ _ W). lia. }
    apply wp_bind. eapply wp_get_root; [done|]. destruct (Z.eq_dec which i0) as [->|Hne].
    + rewrite H0 in Hr. injection Hr as <-. destruct (Z.eqb_spec (root_page r0) 0); [done|].
      replace (Z.quot (root_page r0 + 16 * x - root_page r0) 16) with x.
      2:{ replace (root_page r0 + 16 * x - root_page r0) with (x * 16) by lia. by rewrite Z.quot_mul. }
      rewrite (wrap_small 32 x) by lia. destruct (Z.ltb_spec x NPAGEREFS_PER_PAGE); [|rewrite NPAGEREFS_eq in *; lia].
      destruct (clear_bit_wf r0 x (rk_wf _ _ _ W _ _ H0) ltac:(rewrite NPAGEREFS_eq; lia) Hbx) as (w & Hw' & Hb & Hn & W' & Hbits).
      rewrite mask_shift by (apply Z.mod_pos_bound; lia).
      apply wp_bind. eapply wp_oob; [done|].
      apply wp_bind, wp_kassert; [rewrite land_mask_0, Hb by (apply Z.mod_pos_bound; lia); done|].
      apply wp_bind, wp_kassert; [by apply Z.ltb_lt|]. apply wp_bind, wp_modify, wp_ret. cbn. apply wp_ret.
      apply HQ.
      * eapply (roots_give _ _ _ W i0 r0 _ H0 W' x); done.
      * intros i r. destruct (Z.eq_dec i i0) as [->|Hi].
        -- rewrite zlookup_insert_eq by (by eapply zlookup_lt). intros [= <-]. by exists r0.
        -- rewrite zlookup_insert_ne by done. eauto.
    + pose proof (rk_prefix _ _ _ W _ _ _ _ H0 Hr ltac:(lia) Hpg) as Hrp.
      destruct (Z.eqb_spec (root_page r) 0); [done|].
      destruct (rk_aligned _ _ _ W _ _ Hr Hrp) as (B1 & B2 & B3).
      assert (Hdiff : root_page r0 <> root_page r) by (intros E0; destruct Hne; symmetry; by eapply (rk_inj _ _ _ W)).
      assert (Hq : exists d, root_page r0 - root_page r = 4096 * d /\ d <> 0).
      { exists (root_page r0 / 4096 - root_page r / 4096). unfold PAGE_SIZE in *. Z.to_euclidean_division_equations. lia. }
      destruct Hq as (d & Hd & Hd0).
      replace (root_page r0 + 16 * x - root_page r) with ((256 * d + x) * 16) by lia. rewrite Z.quot_mul by done.
      assert (Hj : NPAGEREFS_PER_PAGE <= u32 (256 * d + x)).
      { rewrite NPAGEREFS_eq. unfold MIPS_KSEG0, MIPS_KSEG1, PAGE_SIZE in *. destruct (Z.lt_ge_cases d 0).
        - unfold wrap. rewrite <- (Z.mod_unique_pos _ _ (-1) (256 * d + x + 2 ^ 32)); lia.
        - rewrite wrap_small; lia. }
      destruct (Z.ltb_spec (u32 (256 * d + x)) NPAGEREFS_PER_PAGE); [lia|]. apply wp_ret. split; [done | lia].
  - intros s' [-> Hle]. cbn in *. lia.
Qed.

End refs.
