(* ===== verification/KmallocAlloc.v ===== *)
(** * Allocation in [kern/vm/kmalloc.c]

    [subpage_kmalloc] hands out a block that was not in use, from a page with
    a free block or from a new page, and keeps the heap invariant. *)

From S2P Require Import Prelude KPages Kmalloc KmallocInv KmallocRefs.

Section alloc.
Context {P : Type} {PA : PageAlloc P} {PL : PageAllocLaws P}.
Implicit Types (s : kheap P) (B big : gmap Z Z) (l : list hpage) (h : hpage).

(** ** Geometry of heap pages *)

Lemma hpage_aligned m w h : hpage_ok m w h -> page_aligned (hp_page h).
Proof. intros []. unfold page_aligned, MIPS_KSEG0, MIPS_KSEG1, PAGE_SIZE in *. split; [done | lia]. Qed.

Lemma hp_type_small m w h : hpage_ok m w h -> 0 <= hp_type h < PAGE_SIZE.
Proof. intros []. unfold NSIZES, PAGE_SIZE in *. lia. Qed.

(** What the fields of the pageref of a page say. *)
Lemma hpage_fields m w h : hpage_ok m w h ->
  exists r, m !! hp_ref h = Some r /\ PR_PAGEADDR r = hp_page h /\ PR_BLOCKTYPE r = hp_type h /\
    freelist_offset r = hp_offset h /\ nfree r = Z.of_nat (length (hp_free h)) /\
    pageaddr_and_blocktype r = hp_page h + hp_type h.
Proof.
  intros K. pose proof (hk_core _ _ _ K) as Hc. destruct (m !! hp_ref h) as [r|]; [|done].
  injection Hc as H1 H2 H3. exists r. unfold PR_PAGEADDR, PR_BLOCKTYPE. rewrite H1.
  rewrite pab_page, pab_type by (by eauto using hpage_aligned, hp_type_small). done.
Qed.

(** The number of free blocks of a page is at most the number of its blocks. *)
Definition hp_nblocks h : Z := PAGE_SIZE / hp_size h.

Definition hp_all_blocks h : list Z := (fun i => hp_page h + i * hp_size h) <$> seqZ 0 (hp_nblocks h).

Lemma elem_of_all_blocks h a : 0 <= hp_type h < NSIZES -> a ∈ hp_all_blocks h <-> hp_block h a.
Proof.
  intros Ht. destruct (tsize_cases _ Ht) as (_ & Hs & _ & _ & Hn & Hp).
  unfold hp_all_blocks, hp_block, hp_nblocks, hp_size. rewrite list_elem_of_fmap. setoid_rewrite elem_of_seqZ. split.
  - intros (i & -> & Hi). split; [nia|]. replace (hp_page h + i * tsize (hp_type h) - hp_page h) with (i * tsize (hp_type h)) by lia.
    apply Z.mod_mul. lia.
  - intros [Hr Hm]. exists ((a - hp_page h) / tsize (hp_type h)).
    pose proof (Z.div_mod (a - hp_page h) (tsize (hp_type h)) ltac:(lia)). split; [nia|].
    split; [apply Z.div_pos; lia|]. apply Z.div_lt_upper_bound; [lia|]. nia.
Qed.

Lemma all_blocks_NoDup h : 0 <= hp_type h < NSIZES -> NoDup (hp_all_blocks h).
Proof.
  intros Ht. destruct (tsize_cases _ Ht) as (_ & Hs & _). unfold hp_all_blocks.
  apply NoDup_fmap_2_strong; [|apply NoDup_seqZ]. unfold hp_size. intros x y _ _ E. nia.
Qed.

Lemma length_all_blocks h : length (hp_all_blocks h) = Z.to_nat (hp_nblocks h).
Proof. unfold hp_all_blocks. by rewrite length_fmap, length_seqZ. Qed.

(** Blocks that are distinct and on the page are at most as many as it has. *)
Lemma blocks_bound h (fl : list Z) :
  0 <= hp_type h < NSIZES -> NoDup fl -> Forall (hp_block h) fl -> Z.of_nat (length fl) <= hp_nblocks h.
Proof.
  intros Ht Hd Hf. destruct (tsize_cases _ Ht) as (_ & _ & _ & _ & Hn & _).
  assert (length fl <= length (hp_all_blocks h))%nat as Hl.
  { apply submseteq_length, NoDup_submseteq; [done|]. intros a Ha. apply elem_of_all_blocks; [done|].
    by eapply Forall_forall in Ha. }
  rewrite length_all_blocks in Hl. unfold hp_nblocks, hp_size in *. lia.
Qed.

(** Distinct blocks of one page do not overlap. *)
Lemma blocks_disjoint h a b :
  0 <= hp_type h < NSIZES -> hp_block h a -> hp_block h b -> a <> b -> blocks_apart a (hp_size h) b (hp_size h).
Proof.
  intros Ht [Ha Ma] [Hb Mb] Hne. destruct (tsize_cases _ Ht) as (_ & Hs & _). unfold blocks_apart, hp_size in *.
  pose proof (Z.div_mod (a - hp_page h) (tsize (hp_type h)) ltac:(lia)) as D1.
  pose proof (Z.div_mod (b - hp_page h) (tsize (hp_type h)) ltac:(lia)) as D2.
  set (qa := (a - hp_page h) / tsize (hp_type h)) in *. set (qb := (b - hp_page h) / tsize (hp_type h)) in *.
  destruct (Z.lt_trichotomy qa qb) as [?|[?|?]]; nia.
Qed.

(** A block lies inside its page. *)
Lemma block_in_page h a : 0 <= hp_type h < NSIZES -> hp_block h a ->
  hp_page h <= a /\ a + hp_size h <= hp_page h + PAGE_SIZE.
Proof.
  intros Ht [Ha Ma]. destruct (tsize_cases _ Ht) as (_ & Hs & _ & _ & Hn & Hp). unfold hp_size in *.
  pose proof (Z.div_mod (a - hp_page h) (tsize (hp_type h)) ltac:(lia)) as D1.
  set (q := (a - hp_page h) / tsize (hp_type h)) in *. split; [lia|].
  assert (q < PAGE_SIZE / tsize (hp_type h)); [|nia]. apply Z.div_lt_upper_bound; [lia|]. nia.
Qed.

Lemma pages_disjoint p q : p mod PAGE_SIZE = 0 -> q mod PAGE_SIZE = 0 -> p <> q -> blocks_apart p PAGE_SIZE q PAGE_SIZE.
Proof. unfold blocks_apart, PAGE_SIZE. intros. Z.to_euclidean_division_equations. lia. Qed.

(** ** The lists are not longer than the fuel *)

Lemma root_refs_length r : (length (root_refs r) <= Z.to_nat NPAGEREFS_PER_PAGE)%nat.
Proof.
  unfold root_refs. destruct (root_page r =? 0); cbn [length]; [lia|]. rewrite length_fmap.
  pose proof (length_filter (fun j => ref_bit (pagerefs_inuse r) j = true) (seqZ 0 NPAGEREFS_PER_PAGE)) as Hl.
  by rewrite length_seqZ in Hl.
Qed.

Lemma refs_bound roots full refs :
  roots_ok roots full refs -> NoDup refs -> (length refs <= Z.to_nat TOTAL_PAGEREFS)%nat.
Proof.
  intros W Hd. transitivity (length (mjoin (root_refs <$> roots))).
  - apply submseteq_length, NoDup_submseteq; [done|]. intros p Hp. apply (rk_refs _ _ _ W) in Hp as (i & r & Hi & Hp).
    apply list_elem_of_join. exists (root_refs r). split; [done|]. apply list_elem_of_fmap_2.
    unfold zlookup in Hi. destruct (0 <=? i); [|done]. by eapply list_elem_of_lookup_2.
  - pose proof (rk_length _ _ _ W) as Hl. clear W.
    assert (Hj : (length (mjoin (root_refs <$> roots)) <= length roots * Z.to_nat NPAGEREFS_PER_PAGE)%nat).
    { clear. pose proof root_refs_length as Hr. set (N := Z.to_nat NPAGEREFS_PER_PAGE) in *. clearbody N.
      induction roots as [|r roots IH]; [cbn; lia|]. csimpl. rewrite length_app. specialize (Hr r). lia. }
    rewrite Hl in Hj. unfold TOTAL_PAGEREFS. by rewrite Z2Nat.inj_mul.
Qed.

Lemma heap_bound s l big B : heap_inv s l big B -> (length l < LIST_FUEL)%nat.
Proof.
  intros I. pose proof (refs_bound _ _ _ (hi_roots _ _ _ _ I) (hi_refs _ _ _ _ I)) as Hb.
  rewrite length_fmap in Hb. unfold LIST_FUEL. lia.
Qed.

(** ** The search for a page with a free block *)

Lemma wp_samesize_search t s E : forall fuel ls pr,
  (length ls < fuel)%nat -> chain next_samesize (prefs s) pr (hp_ref <$> ls) ->
  Forall (fun h => hpage_ok (prefs s) (kmem s) h /\ hp_type h = t) ls ->
  wp (samesize_search fuel t pr)
    (fun p s' => s' = s /\ (p = 0 \/ exists h a fl, h ∈ ls /\ p = hp_ref h /\ hp_free h = a :: fl)) E s.
Proof.
  intros fuel ls. revert fuel. induction ls as [|h ls IH]; intros fuel pr Hf Hc Hk.
  - destruct fuel; [cbn in Hf; lia|]. cbn in Hc. subst pr. apply wp_ret. auto.
  - destruct fuel as [|fuel]; [cbn in Hf; lia|]. destruct Hc as (-> & Hnz & r & Hr & Hc).
    apply Forall_cons in Hk as [[K Ht] Hk]. destruct (hpage_fields _ _ _ K) as (r' & Hr' & Ep & Et & Eo & En & _).
    rewrite Hr in Hr'. injection Hr' as <-. cbn [samesize_search].
    destruct (Z.eqb_spec (hp_ref h) 0); [done|]. apply wp_bind. eapply wp_load_pr; [done|].
    apply wp_bind, wp_kassert; [apply Z.eqb_eq; congruence|]. rewrite En.
    destruct (hp_free h) as [|a fl] eqn:Ef.
    + cbn. eapply wp_mono; [apply IH; [cbn in Hf; lia|done|done] | | done]. intros p s' [-> [-> | (h2 & a & fl & ? & ? & ?)]].
      * auto.
      * split; [done|]. right. exists h2, a, fl. split_and!; try done. by right.
    + cbn [length]. destruct (Z.ltb_spec 0 (Z.of_nat (S (length fl)))); [|lia]. apply wp_ret. split; [done|].
      right. exists h, a, fl. split_and!; try done. by left.
Qed.

(** ** Changing the description of one page *)

Lemma hpage_ok_ext m m' w w' h :
  core <$> m' !! hp_ref h = core <$> m !! hp_ref h -> (forall a, a ∈ hp_free h -> w' !! a = w !! a) ->
  hpage_ok m w h -> hpage_ok m' w' h.
Proof.
  intros Hm Hw []. split; try done; [by rewrite Hm|]. by eapply fchain_ext.
Qed.

Lemma filter_refs_replace t l1 l2 h h' :
  hp_ref h' = hp_ref h -> hp_type h' = hp_type h ->
  hp_ref <$> filter (fun x => hp_type x = t) (l1 ++ h' :: l2) = hp_ref <$> filter (fun x => hp_type x = t) (l1 ++ h :: l2).
Proof.
  intros Hr Ht. rewrite !filter_app, !filter_cons, !fmap_app, Ht. f_equal.
  destruct (decide (hp_type h = t)); [|done]. cbn. by rewrite Hr.
Qed.

(** Page [h] of the heap gets a new free list; the words of the free blocks
    of the other pages stay. *)
Lemma heap_inv_update s l1 l2 h h' big B r r' w' :
  heap_inv s (l1 ++ h :: l2) big B ->
  hp_ref h' = hp_ref h -> hp_page h' = hp_page h -> hp_type h' = hp_type h ->
  prefs s !! hp_ref h = Some r -> next_samesize r' = next_samesize r -> next_all r' = next_all r -> core r' = hp_core h' ->
  NoDup (hp_free h') -> Forall (hp_block h') (hp_free h') -> fchain w' (hp_free h') ->
  (forall h2 a, h2 ∈ l1 ++ l2 -> a ∈ hp_free h2 -> w' !! a = kmem s !! a) ->
  heap_inv (set_prefs (<[hp_ref h := r']> (prefs s)) (set_kmem w' s)) (l1 ++ h' :: l2) big B.
Proof.
  intros I Er Ep Et Hr Es Ea Hc Hd Hb Hf Hw.
  assert (Erefs : hp_ref <$> l1 ++ h' :: l2 = hp_ref <$> l1 ++ h :: l2) by (rewrite !fmap_app; cbn; by rewrite Er).
  assert (Epages : hp_page <$> l1 ++ h' :: l2 = hp_page <$> l1 ++ h :: l2) by (rewrite !fmap_app; cbn; by rewrite Ep).
  pose proof (hi_refs _ _ _ _ I) as Hnd. destruct I. split; cbn [prefs set_prefs set_kmem kmem allbase sizebases kheaproots kpages].
  - rewrite Erefs. eapply chain_ext, hi_all. intros x _. rewrite lookup_insert. case_decide as E; [subst x; rewrite Hr; cbn; congruence | done].
  - done.
  - intros t b Hbt. rewrite (filter_refs_replace t l1 l2 h h') by done. eapply chain_ext, hi_same; [|done].
    intros x _. rewrite lookup_insert. case_decide as E; [subst x; rewrite Hr; cbn; congruence | done].
  - rewrite fmap_app in Hnd. cbn in Hnd. apply NoDup_app in Hnd as (_ & Hn1 & [Hn2 _]%NoDup_cons).
    apply Forall_app in hi_pages as [F1 [K F2]%Forall_cons].
    assert (Hother : forall h2, h2 ∈ l1 ++ l2 -> hpage_ok (prefs s) (kmem s) h2 -> hpage_ok (<[hp_ref h := r']> (prefs s)) w' h2).
    { intros h2 Hin. apply hpage_ok_ext; [|by intros a Ha; eapply Hw]. rewrite lookup_insert_ne; [done|].
      intros E. apply elem_of_app in Hin as [Hin|Hin].
      - apply (Hn1 (hp_ref h2)); [by apply list_elem_of_fmap_2|]. rewrite E. left.
      - apply Hn2. rewrite E. by apply list_elem_of_fmap_2. }
    apply Forall_app. split; [|apply Forall_cons; split].
    + apply Forall_forall. intros h2 Hin. apply Hother; [set_solver|]. by eapply Forall_forall in Hin.
    + destruct K. split; rewrite ?Er, ?Ep, ?Et; try done. rewrite lookup_insert_eq. cbn. by rewrite Hc.
    + apply Forall_forall. intros h2 Hin. apply Hother; [set_solver|]. by eapply Forall_forall in Hin.
  - by rewrite Erefs.
  - by rewrite Erefs.
  - done.
  - by rewrite Epages.
  - intros h2. rewrite elem_of_app, elem_of_cons. intros [?|[->|?]]; [| rewrite Ep |]; apply hi_owned; set_solver.
  - intros i r0 H1 H2. rewrite Epages. by apply (hi_rowned i r0).
  - done.
Qed.

Lemma heap_inv_held s b l big B : heap_inv s l big B -> heap_inv (set_held b s) l big B.
Proof. by intros []. Qed.

(** The layer below hands out or takes back pages that are not the heap's. *)
Lemma heap_inv_kpages s l big B p' B' :
  heap_inv s l big B -> pages_rep p' B' -> (exhausted (kpages s) -> exhausted p') ->
  (forall x n, B !! x = Some n -> (x ∈ hp_page <$> l \/ is_Some (big !! x) \/
     exists i r, zlookup (kheaproots s) i = Some r /\ root_page r = x /\ x <> 0) -> B' !! x = Some n) ->
  heap_inv (set_kpages p' s) l big B'.
Proof.
  intros [] Hrep Hf Hk. split; cbn [prefs kmem allbase sizebases kheaproots kpages set_kpages]; try done.
  - by eapply roots_full.
  - intros h Hh. destruct (hi_owned h Hh). split; [|done]. apply Hk; [done|]. left. by apply list_elem_of_fmap_2.
  - intros i r H1 H2. destruct (hi_rowned i r H1 H2) as (? & ? & ?). split_and!; try done. apply Hk; [done|]. right. right. eauto.
  - apply map_subseteq_spec. intros x n Hx. apply Hk; [by eapply lookup_weaken|]. right. left. eauto.
Qed.

Lemma heap_inv_more_pages s l big B p' va n :
  heap_inv s l big B -> fresh_block B va n -> 1 <= n -> pages_rep p' (<[va := n]> B) -> ~ exhausted (kpages s) ->
  heap_inv (set_kpages p' s) l big (<[va := n]> B).
Proof.
  intros I F Hn Hrep Hx. eapply heap_inv_kpages; [done..|]. intros x m Hm _. rewrite lookup_insert_ne; [done|].
  intros ->. by rewrite (fresh_new _ _ _ _ (hi_rep _ _ _ _ I) F Hn) in Hm.
Qed.

(** Pagerefs that are allocated or given back without effect on the list. *)
Lemma heap_inv_refs s l big B s' :
  heap_inv s l big B -> refs_step s B s' B (hp_ref <$> l) -> heap_inv s' l big B.
Proof.
  intros [] [Es _ Hrep Hr Hp]. rewrite Es.
  split; cbn [prefs kmem allbase sizebases kheaproots kpages set_kpages set_roots]; try done.
  intros i r' H1 H2. destruct (Hp i r' H1 H2) as [(r & H3 & H4) | [? ?]]; [|congruence].
  rewrite <- H4. apply (hi_rowned i r H3). congruence.
Qed.

(** ** Live blocks *)

Lemma live_in_pages s l big B a n :
  heap_inv s l big B -> is_live l big a n -> exists b k, B !! b = Some k /\ b <= a /\ a + n <= b + k * PAGE_SIZE.
Proof.
  intros I [(h & Hh & Hb & _ & ->) | (k & Hk & ->)].
  - pose proof (hi_pages _ _ _ _ I) as K. eapply Forall_forall in K; [|done].
    destruct (block_in_page h a (hk_type _ _ _ K) Hb). exists (hp_page h), 1. split_and!; [by apply (hi_owned _ _ _ _ I)|done|lia].
  - exists a, k. split_and!; [by eapply lookup_weaken, (hi_big _ _ _ _ I) | lia | lia].
Qed.

(** A block is taken off the free list of its page. *)
Lemma live_taken l1 l2 h a fl big x m :
  hp_free h = a :: fl -> NoDup (hp_free h) -> hp_block h a ->
  is_live (l1 ++ Hpage (hp_ref h) (hp_page h) (hp_type h) fl :: l2) big x m <->
  (x = a /\ m = hp_size h) \/ is_live (l1 ++ h :: l2) big x m.
Proof.
  intros Hf Hd Hb. rewrite Hf in Hd. apply NoDup_cons in Hd as [Ha _].
  set (h' := Hpage _ _ _ fl). unfold is_live. setoid_rewrite elem_of_app. setoid_rewrite elem_of_cons. split.
  - intros [(h2 & [Hin|[->|Hin]] & Hb2 & Hn2 & ->) | Hbig]; [ | | |by right; right].
    + right. left. exists h2. auto.
    + destruct (Z.eq_dec x a) as [->|Hne]; [by left|]. right. left. exists h. split_and!; try done; [by auto|].
      rewrite Hf, elem_of_cons. naive_solver.
    + right. left. exists h2. auto.
  - intros [[-> ->] | [(h2 & [Hin|[->|Hin]] & Hb2 & Hn2 & ->) | Hbig]]; [ | | | |by right]; left.
    + exists h'. split_and!; auto.
    + exists h2. auto.
    + exists h'. split_and!; auto. intros Hin. apply Hn2. rewrite Hf. by right.
    + exists h2. auto.
Qed.

(** ** [doalloc] *)

Lemma wp_doalloc s l big B h a fl (Q : Z -> kheap P -> Prop) E :
  heap_inv s l big B -> spinlock_held s = true -> h ∈ l -> hp_free h = a :: fl ->
  (forall s' l', heap_inv s' l' big B -> spinlock_held s' = false -> kmem s' = kmem s ->
     (forall x m, is_live l' big x m <-> (x = a /\ m = hp_size h) \/ is_live l big x m) -> Q a s') ->
  wp (doalloc (hp_ref h)) Q E s.
Proof.
  intros I Hh Hin Hf HQ. apply list_elem_of_split in Hin as (l1 & l2 & ->).
  pose proof (hi_pages _ _ _ _ I) as K. apply Forall_app in K as [_ [K _]%Forall_cons].
  destruct (hpage_fields _ _ _ K) as (r & Hr & Ep & Et & Eo & En & Ec). pose proof K as [K1 K2 K3 K4 K5 K6 K7 K8].
  rewrite Hf in *. cbn [length] in En. pose proof (blocks_bound h _ K2 K6 K7) as Hbd.
  destruct (tsize_cases _ K2) as (_ & _ & _ & _ & Hnb & _). unfold hp_nblocks, hp_size in Hbd. cbn [length] in Hbd.
  apply Forall_cons in K7 as [[Ka1 Ka2] K7]. pose proof (NoDup_cons_1_1 _ _ K6) as Hna. apply NoDup_cons in K6 as [_ K6].
  destruct K8 as [Hw K8]. unfold hp_offset in Eo. rewrite Hf in Eo. unfold MIPS_KSEG0, MIPS_KSEG1, PAGE_SIZE in *.
  unfold doalloc. apply wp_bind. eapply wp_load_pr; [done|]. rewrite Ep, Eo, En.
  apply wp_bind, wp_kassert; [unfold PAGE_SIZE; bsolve|]. replace (hp_page h + (a - hp_page h)) with a by lia.
  rewrite (wrap_small 32 a) by lia. unfold load_word. apply wp_bind, wp_gets. rewrite Hw. change (default 0 (Some (hd 0 fl))) with (hd 0 fl).
  rewrite (wrap_small 16) by lia. apply wp_bind, wp_modify.
  set (h' := Hpage (hp_ref h) (hp_page h) (hp_type h) fl).
  assert (Hdone : forall r', next_samesize r' = next_samesize r -> next_all r' = next_all r -> core r' = hp_core h' ->
    Q a (set_held false (set_prefs (<[hp_ref h := r']> (prefs s)) s))).
  { intros r' E1 E2 E3. eapply (HQ _ (l1 ++ h' :: l2)); [|done|done|].
    - apply heap_inv_held. replace (set_prefs _ s) with (set_prefs (<[hp_ref h := r']> (prefs s)) (set_kmem (kmem s) s)) by (by destruct s).
      eapply (heap_inv_update s l1 l2 h h' big B r r'); try done.
    - intros x m. apply live_taken; [done| |split; unfold PAGE_SIZE; done]. rewrite Hf. by constructor. }
  cbn [next_samesize next_all pageaddr_and_blocktype freelist_offset nfree].
  apply wp_bind. destruct fl as [|b fl]; cbn [hd length].
  - cbn [Z.eqb negb]. apply wp_bind, wp_kassert; [done|]. apply wp_modify. apply wp_bind, wp_krelease; [done|].
    apply wp_ret. cbn. rewrite insert_insert_eq. apply (Hdone (Pageref _ _ _ _ _)); try done.
    unfold core, hp_core. cbn. by rewrite Ec.
  - apply Forall_cons in K7 as [[Kb1 Kb2] K7]. unfold PAGE_SIZE in *. destruct (Z.eqb_spec b 0); [lia|]. cbn [negb].
    apply wp_bind, wp_kassert; [bsolve|]. rewrite (wrap_small 32 (b - hp_page h)), (wrap_small 16 (b - hp_page h)) by lia.
    apply wp_bind, wp_kassert; [unfold PAGE_SIZE; bsolve|]. apply wp_modify. apply wp_bind, wp_krelease; [done|].
    apply wp_ret. cbn -[Z.of_nat]. rewrite insert_insert_eq. apply (Hdone (Pageref _ _ _ _ _)); try done.
    unfold core, hp_core, hp_offset. cbn -[Z.of_nat]. rewrite Ec. repeat f_equal. lia.
Qed.

(** ** A new page *)

(** Blocks [n - 1], ..., [0] of the page, the order of its free list. *)
Fixpoint blocks_down (page size : Z) (n : nat) : list Z :=
  match n with O => [] | S k => page + Z.of_nat k * size :: blocks_down page size k end.

Lemma elem_of_blocks_down page size n a :
  a ∈ blocks_down page size n <-> exists k, 0 <= k < Z.of_nat n /\ a = page + k * size.
Proof.
  induction n as [|n IH]; cbn [blocks_down].
  - split; [by intros ?%not_elem_of_nil | intros (k & ? & _); lia].
  - rewrite elem_of_cons, IH. split.
    + intros [-> | (k & ? & ->)]; [exists (Z.of_nat n) | exists k]; split; try done; lia.
    + intros (k & Hk & ->). destruct (Z.eq_dec k (Z.of_nat n)) as [->|]; [by left|]. right. exists k. split; [lia | done].
Qed.

Lemma blocks_down_NoDup page size n : 0 < size -> NoDup (blocks_down page size n).
Proof.
  intros Hs. induction n as [|n IH]; cbn; constructor; [|done].
  rewrite elem_of_blocks_down. intros (k & Hk & E). nia.
Qed.

Lemma blocks_down_length page size n : length (blocks_down page size n) = n.
Proof. induction n as [|n IH]; cbn; by rewrite ?IH. Qed.

Definition outside_page (page x : Z) : Prop := x < page \/ page + PAGE_SIZE <= x.

Lemma wp_build_freelist page size n s (Q : unit -> kheap P -> Prop) E :
  0 < page -> page + PAGE_SIZE <= MIPS_KSEG1 -> 16 <= size -> 1 <= n -> n * size = PAGE_SIZE ->
  (forall w', fchain w' (blocks_down page size (Z.to_nat n)) ->
     (forall x, outside_page page x -> w' !! x = kmem s !! x) -> Q tt (set_kmem w' s)) ->
  wp (build_freelist page n size) Q E s.
Proof.
  unfold MIPS_KSEG1, PAGE_SIZE. intros Hp0 Hp1 Hs Hn Hm HQ. unfold build_freelist. apply wp_bind, wp_modify.
  eapply (wp_for_each (fun i s' => exists w', s' = set_kmem w' s /\ fchain w' (blocks_down page size (Z.to_nat i)) /\
    forall x, outside_page page x -> w' !! x = kmem s !! x)).
  - exists (<[page := 0]> (kmem s)). split_and!; [done| |].
    + change (Z.to_nat 1) with 1%nat. cbn [blocks_down fchain hd]. change (Z.of_nat 0) with 0.
      by rewrite Z.mul_0_l, Z.add_0_r, lookup_insert_eq.
    + unfold outside_page, PAGE_SIZE. intros x Hx. rewrite lookup_insert_ne by lia. done.
  - intros i s' Hi (w' & -> & Hc & Ho).
    rewrite (wrap_small 32 (page + i * size)), (wrap_small 32 (page + (i - 1) * size)) by nia.
    apply wp_bind, wp_modify. apply wp_kassert.
    { destruct (Z.eqb_spec (page + i * size) (page + (i - 1) * size)); [nia | done]. }
    exists (<[page + i * size := page + (i - 1) * size]> w'). split_and!.
    + unfold store_word, set_kmem. cbn. rewrite (wrap_small 32 (page + (i - 1) * size)) by nia. done.
    + replace (Z.to_nat (i + 1)) with (S (Z.to_nat i)) by lia. cbn [blocks_down fchain]. rewrite Z2Nat.id by lia.
      rewrite lookup_insert_eq. split.
      * replace (Z.to_nat i) with (S (Z.to_nat (i - 1))) by lia. cbn [blocks_down hd]. rewrite Z2Nat.id by lia. done.
      * eapply fchain_ext, Hc. intros x Hx. apply lookup_insert_ne. intros <-.
        apply elem_of_blocks_down in Hx as (k & Hk & Ek). nia.
    + intros x Hx. rewrite lookup_insert_ne; [by apply Ho|]. unfold outside_page, PAGE_SIZE in Hx. nia.
  - intros s' (w' & -> & Hc & Ho). apply HQ; [|done]. by replace (1 + Z.of_nat (Z.to_nat (n - 1))) with n in Hc by lia.
Qed.

Lemma chain_cons link (m : gmap Z pageref) b (l : list Z) x r :
  chain link m b l -> x <> 0 -> ~ x ∈ l -> link r = b -> chain link (<[x := r]> m) x (x :: l).
Proof.
  intros Hc Hx Hn <-. cbn. split_and!; [done..|]. exists r. rewrite lookup_insert_eq. split; [done|].
  eapply chain_ext, Hc. intros y Hy. rewrite lookup_insert_ne; [done|]. by intros ->.
Qed.

Lemma chain_frame link (m : gmap Z pageref) b (l : list Z) x r :
  chain link m b l -> ~ x ∈ l -> chain link (<[x := r]> m) b l.
Proof. intros Hc Hn. eapply chain_ext, Hc. intros y Hy. rewrite lookup_insert_ne; [done|]. by intros ->. Qed.

(** The state after a page of type [t] has been added. *)
Definition added s (pr t same offset pab nf : Z) (w' : gmap Z Z) : kheap P :=
  set_prefs (<[pr := Pageref same (allbase s) pab offset nf]> (prefs s))
    (set_allbase pr (set_sizebases (zinsert t pr (sizebases s)) (set_kmem w' s))).

Lemma heap_inv_add s l big B s1 B1 pr page t same w' :
  heap_inv s l big B -> B !! page = Some 1 -> big !! page = None -> ~ page ∈ hp_page <$> l ->
  (forall i r, zlookup (kheaproots s) i = Some r -> root_page r <> 0 -> root_page r <> page) ->
  refs_step s B s1 B1 (pr :: (hp_ref <$> l)) -> 0 < pr -> ~ pr ∈ hp_ref <$> l ->
  page mod PAGE_SIZE = 0 -> MIPS_KSEG0 < page -> page + PAGE_SIZE <= MIPS_KSEG1 -> 0 <= t < NSIZES ->
  zlookup (sizebases s1) t = Some same ->
  let n := Z.to_nat (PAGE_SIZE / tsize t) in
  fchain w' (blocks_down page (tsize t) n) -> (forall x, outside_page page x -> w' !! x = kmem s1 !! x) ->
  heap_inv (added s1 pr t same (Z.of_nat n * tsize t - tsize t) (page + t) (Z.of_nat n) w')
    (Hpage pr page t (blocks_down page (tsize t) n) :: l) big B1.
Proof.
  intros I HB Hbig Hnew Hroots R Hpr Hprn A1 A2 A3 Ht Hsame n Hc Ho.
  destruct (tsize_cases _ Ht) as (_ & Hs & _ & _ & Hnb & Hnm). destruct R as [Es HBB Hrep Hr Hpg].
  pose proof (hi_bases _ _ _ _ I) as Hlen. pose proof I as [].
  rewrite Es in *. cbn [sizebases kmem set_kpages set_roots kheaproots kpages] in *.
  assert (En : Z.of_nat n = PAGE_SIZE / tsize t) by (subst n; lia).
  assert (Ht' : 0 <= t < Z.of_nat (length (sizebases s))) by (by rewrite Hlen).
  assert (Hown : forall x, x ∈ hp_page <$> l -> B !! x = Some 1).
  { intros x (h & -> & Hh)%list_elem_of_fmap. by apply hi_owned. }
  unfold added. split; cbn [prefs kmem allbase sizebases kheaproots kpages set_prefs set_allbase set_sizebases set_kmem set_kpages set_roots].
  - cbn [fmap list_fmap hp_ref]. by eapply chain_cons; [exact hi_all|lia|..].
  - by rewrite zinsert_length.
  - intros t' b. rewrite filter_cons. cbn [hp_type]. destruct (Z.eq_dec t' t) as [->|Hne].
    + rewrite zlookup_insert_eq by done. intros [= <-]. rewrite decide_True by done. cbn [fmap list_fmap hp_ref].
      eapply chain_cons; [by apply hi_same|lia| |done].
      intros (h & -> & [_ Hin]%list_elem_of_filter)%list_elem_of_fmap. by apply Hprn, list_elem_of_fmap_2.
    + rewrite zlookup_insert_ne by done. intros Hb. rewrite decide_False by done. apply chain_frame; [by apply hi_same|].
      intros (h & -> & [_ Hin]%list_elem_of_filter)%list_elem_of_fmap. by apply Hprn, list_elem_of_fmap_2.
  - apply Forall_cons. split.
    + split; cbn [hp_ref hp_page hp_type hp_free]; try done.
      * rewrite lookup_insert_eq. cbn. unfold core, hp_core, hp_offset.
        cbn [pageaddr_and_blocktype freelist_offset nfree hp_page hp_type hp_free]. rewrite blocks_down_length.
        destruct n as [|k]; [lia|]. cbn [blocks_down].
        by replace (page + Z.of_nat k * tsize t - page) with (Z.of_nat (S k) * tsize t - tsize t) by lia.
      * apply blocks_down_NoDup. lia.
      * apply Forall_forall. intros a (k & Hk & ->)%elem_of_blocks_down. split; cbn [hp_page hp_size hp_type].
        -- nia.
        -- unfold hp_size. cbn [hp_type]. replace (page + k * tsize t - page) with (k * tsize t) by lia. apply Z.mod_mul. lia.
    + apply Forall_forall. intros h Hh. pose proof (proj1 (Forall_forall _ _) hi_pages h Hh) as K.
      eapply hpage_ok_ext, K.
      * rewrite lookup_insert_ne; [done|]. intros ->. by apply Hprn, list_elem_of_fmap_2.
      * intros a Ha. apply Ho. pose proof (proj1 (Forall_forall _ _) (hk_blocks _ _ _ K) a Ha) as [Ha1 _].
        assert (page <> hp_page h) as Hne by (intros ->; apply Hnew; by apply list_elem_of_fmap_2).
        destruct (pages_disjoint page (hp_page h) A1 (hk_aligned _ _ _ K) Hne); unfold outside_page; lia.
  - cbn [fmap list_fmap hp_ref]. by constructor.
  - cbn [fmap list_fmap hp_ref]. done.
  - done.
  - cbn [fmap list_fmap hp_page]. by constructor.
  - intros h [-> | Hh]%elem_of_cons; cbn [hp_page].
    + split; [by eapply lookup_weaken | done].
    + destruct (hi_owned h Hh). split; [by eapply lookup_weaken | done].
  - intros i r' H1 H2. cbn [fmap list_fmap hp_page]. rewrite elem_of_cons. destruct (Hpg i r' H1 H2) as [(r & H3 & H4) | [H3 H4]].
    + rewrite <- H4 in *. destruct (hi_rowned i r H3 H2) as (? & ? & ?). split_and!; [by eapply lookup_weaken | done |].
      intros [?|?]; [by eapply Hroots | done].
    + split_and!; [done| |].
      * destruct (big !! root_page r') eqn:Eb; [|done]. by erewrite lookup_weaken in H3.
      * intros [E0|Hin]; [congruence|]. by rewrite Hown in H3.
  - by etransitivity.
Qed.

Lemma live_added l big hn x m :
  (forall a, hp_block hn a -> a ∈ hp_free hn) -> is_live (hn :: l) big x m <-> is_live l big x m.
Proof.
  intros Hall. unfold is_live. setoid_rewrite elem_of_cons. split.
  - intros [(h & [->|Hh] & Hb & Hn & ->) | ?]; [|left; eauto|by right]. by destruct Hn; apply Hall.
  - intros [(h & Hh & ?) | ?]; [left; exists h; auto | by right].
Qed.

Lemma wp_size_of_type t s (Q : Z -> kheap P -> Prop) E : 0 <= t < NSIZES -> Q (tsize t) s -> wp (size_of_type t) Q E s.
Proof. intros Ht HQ. eapply wp_oob; [by apply tsize_cases | done]. Qed.

Lemma wp_new_page pr page t s same (Q : unit -> kheap P -> Prop) E :
  page mod PAGE_SIZE = 0 -> MIPS_KSEG0 < page -> page + PAGE_SIZE <= MIPS_KSEG1 -> 0 <= t < NSIZES ->
  zlookup (sizebases s) t = Some same ->
  (forall w', let n := Z.to_nat (PAGE_SIZE / tsize t) in
     fchain w' (blocks_down page (tsize t) n) -> (forall x, outside_page page x -> w' !! x = kmem s !! x) ->
     Q tt (added s pr t same (Z.of_nat n * tsize t - tsize t) (page + t) (Z.of_nat n) w')) ->
  wp (new_page pr page t) Q E s.
Proof.
  intros A1 A2 A3 Ht Hsame HQ. destruct (tsize_cases _ Ht) as (_ & Hs & _ & _ & Hnb & Hnm).
  unfold MIPS_KSEG0, MIPS_KSEG1 in *. assert (HP : PAGE_SIZE = 4096) by done.
  unfold new_page. apply wp_bind, wp_size_of_type; [done|]. rewrite (wrap_small 16) by lia.
  apply wp_bind. apply wp_build_freelist; [lia|unfold MIPS_KSEG1; lia|lia|lia|lia|]. intros w' Hc Ho.
  rewrite (wrap_small 32) by nia. replace (page + (PAGE_SIZE / tsize t - 1) * tsize t - page)
    with ((PAGE_SIZE / tsize t - 1) * tsize t) by lia. rewrite (wrap_small 16) by nia.
  apply wp_bind, wp_kassert; [by rewrite Z.eqb_refl|]. apply wp_bind. eapply wp_get_sizebase; [done|].
  apply wp_bind, wp_modify. apply wp_bind, wp_gets. apply wp_bind, wp_modify. apply wp_modify.
  rewrite mkpab by (unfold page_aligned, NSIZES in *; lia).
  specialize (HQ w' Hc Ho). unfold added in HQ. rewrite Z2Nat.id in HQ by lia. cbn [allbase set_kmem set_sizebases] in *.
  by replace ((PAGE_SIZE / tsize t - 1) * tsize t) with (PAGE_SIZE / tsize t * tsize t - tsize t) by lia.
Qed.

Lemma wp_blocktype sz s E : 0 <= sz <= LARGEST_SUBPAGE_SIZE ->
  wp (blocktype sz) (fun t s' => s' = s /\ 0 <= t < NSIZES /\ sz <= tsize t) E s.
Proof.
  intros Hz. unfold blocktype. apply wp_bind.
  eapply (wp_for_loop (fun i s' => s' = s /\ (0 < i -> tsize (i - 1) < sz))).
  - split; [done|]. lia.
  - intros i s' Hi [-> Hl]. change (0 + Z.of_nat (Z.to_nat NSIZES)) with NSIZES in Hi.
    apply wp_bind, wp_size_of_type; [done|]. destruct (Z.leb_spec sz (tsize i)); apply wp_ret.
    + by apply wp_ret.
    + split; [done|]. intros _. by replace (i + 1 - 1) with i by lia.
  - intros s' [-> Hl]. specialize (Hl ltac:(done)). change (tsize (0 + Z.of_nat (Z.to_nat NSIZES) - 1)) with 2048 in Hl.
    unfold LARGEST_SUBPAGE_SIZE in Hz. lia.
Qed.

(** ** [subpage_kmalloc] *)

(** A block of at least [sz] bytes at [p] became live; nothing else changed
    for the holders of blocks. *)
Definition granted s l big sz (p : Z) s' : Prop :=
  exists l' big' B' n, heap_inv s' l' big' B' /\ spinlock_held s' = false /\ sz <= n /\ p <> 0 /\ p mod 16 = 0 /\
    (forall x m, is_live l' big' x m <-> (x = p /\ m = n) \/ is_live l big x m) /\ (forall m, ~ is_live l big p m) /\
    (forall a m x, is_live l big a m -> a <= x < a + m -> kmem s' !! x = kmem s !! x).

Definition refused s l big s' : Prop :=
  exists B', heap_inv s' l big B' /\ spinlock_held s' = false /\ kmem s' = kmem s.

Lemma block_mod16 m w h a : hpage_ok m w h -> hp_block h a -> a mod 16 = 0.
Proof.
  intros K [_ Hm]. destruct (tsize_cases _ (hk_type _ _ _ K)) as (_ & Hs & _ & H16 & _).
  pose proof (hk_aligned _ _ _ K) as Ha. unfold hp_size, PAGE_SIZE in *.
  apply Z.div_exact in Hm, H16, Ha; [|lia..]. rewrite H16 in Hm.
  assert (Z.divide 16 a) as [k ->]; [|apply Z.mod_mul; lia].
  replace a with ((a - hp_page h) + hp_page h) by lia. apply Z.divide_add_r.
  - rewrite Hm. exists (tsize (hp_type h) / 16 * ((a - hp_page h) / (16 * (tsize (hp_type h) / 16)))). lia.
  - rewrite Ha. exists (256 * (hp_page h / 4096)). lia.
Qed.

(** A block on a free list is not live. *)
Lemma free_not_live s l big B h a m :
  heap_inv s l big B -> h ∈ l -> a ∈ hp_free h -> ~ is_live l big a m.
Proof.
  intros I Hh Ha. pose proof (hi_pages _ _ _ _ I) as K. pose proof (proj1 (Forall_forall _ _) K h Hh) as Kh.
  pose proof (proj1 (Forall_forall _ _) (hk_blocks _ _ _ Kh) a Ha) as Hb.
  intros [(h2 & Hh2 & Hb2 & Hn2 & _) | (k & Hk & _)].
  - pose proof (proj1 (Forall_forall _ _) K h2 Hh2) as Kh2. destruct (Z.eq_dec (hp_page h) (hp_page h2)) as [E|E].
    + assert (h = h2) as <-; [|done]. by eapply (NoDup_fmap_elem hp_page); [apply I|..].
    + destruct (pages_disjoint _ _ (hk_aligned _ _ _ Kh) (hk_aligned _ _ _ Kh2) E); destruct Hb, Hb2; lia.
  - destruct (hi_owned _ _ _ _ I h Hh) as [HB Hbig].
    assert (HBa : B !! a = Some k) by (by eapply lookup_weaken, (hi_big _ _ _ _ I)).
    destruct (pages_apart _ _ _ _ (hi_rep _ _ _ _ I) HBa) as [Hk1 F].
    destruct (Z.eq_dec a (hp_page h)) as [->|Hne]; [congruence|].
    assert (HB' : delete a B !! hp_page h = Some 1) by (by rewrite lookup_delete_ne).
    destruct (fresh_apart _ _ _ F _ _ HB'); destruct Hb; unfold PAGE_SIZE in *; lia.
Qed.

Lemma doalloc_granted s0 s l l0 big B h a fl sz E :
  heap_inv s l big B -> spinlock_held s = true -> h ∈ l -> hp_free h = a :: fl -> sz <= hp_size h ->
  (forall x m, is_live l big x m <-> is_live l0 big x m) ->
  (forall b m x, is_live l0 big b m -> b <= x < b + m -> kmem s !! x = kmem s0 !! x) ->
  wp (doalloc (hp_ref h)) (fun p s' => granted s0 l0 big sz p s') E s.
Proof.
  intros I Hh Hin Hf Hz Hlive Hmem. pose proof (proj1 (Forall_forall _ _) (hi_pages _ _ _ _ I) h Hin) as K.
  assert (Hb : hp_block h a). { apply (proj1 (Forall_forall _ _) (hk_blocks _ _ _ K) a). rewrite Hf. left. }
  eapply wp_doalloc; [done..|]. intros s' l' I' Hh' Hm' Hl'. exists l', big, B, (hp_size h). split_and!; try done.
  - destruct K. destruct Hb as [Hb _]. unfold MIPS_KSEG0 in *. lia.
  - by eapply block_mod16.
  - intros x m. rewrite Hl', Hlive. done.
  - intros m. rewrite <- Hlive. eapply free_not_live; [done..|]. rewrite Hf. left.
  - intros b m x H1 H2. rewrite Hm'. by eapply Hmem.
Qed.

Section new_page.
Context (s s1 s2 : kheap P) (l : list hpage) (big B : gmap Z Z) (page t sz : Z).
Context (I : heap_inv s l big B) (I1 : heap_inv s1 l big (<[page := 1]> B)).
Context (Hnew : B !! page = None) (Hpages : ~ page ∈ hp_page <$> l) (Hbig : big !! page = None).
Context (Hroots : forall i r, zlookup (kheaproots s1) i = Some r -> root_page r <> 0 -> root_page r <> page).
Context (Hheld : spinlock_held s1 = true) (Hmem : kmem s1 = kmem s) (Ht : 0 <= t < NSIZES) (Hsz : sz <= tsize t).

(** No pageref could be had: the page is given back. *)
Lemma pageref_refused E :
  refs_step s1 (<[page := 1]> B) s2 (<[page := 1]> B) (hp_ref <$> l) ->
  wp (spinlock_release ;; give_kpages page ;; ret 0)
    (fun p s' => (p = 0 /\ refused s l big s') \/ granted s l big sz p s') E s2.
Proof.
  intros R. pose proof (heap_inv_refs _ _ _ _ _ I1 R) as I2.
  assert (Hheld2 : spinlock_held s2 = true) by (by rewrite (rs_state _ _ _ _ _ R)).
  assert (Hk2 : kmem s2 = kmem s) by (by rewrite (rs_state _ _ _ _ _ R)).
  apply wp_bind, wp_krelease; [done|]. apply wp_bind.
  eapply (wp_give_kpages page 1); [apply I2|by rewrite lookup_insert_eq|]. intros p3 HB3 Hx3. apply wp_ret. left. split; [done|].
  exists (delete page (<[page := 1]> B)). split_and!; try done. eapply heap_inv_kpages; [by apply heap_inv_held|done|done|].
  intros x m Hm Hown. rewrite lookup_delete_ne; [done|]. intros <-.
  destruct Hown as [Hown | [[k Hk] | (i & r & Hi & Hr & Hnz)]]; [done | congruence|].
  cbn in Hi. destruct (rs_pages _ _ _ _ _ R i r Hi ltac:(lia)) as [(r0 & H1 & H2) | [H1 _]].
  - apply (Hroots i r0 H1); lia.
  - by rewrite Hr, lookup_insert_eq in H1.
Qed.

(** The page becomes a heap page and its last block is handed out. *)
Lemma pageref_granted pr B2 E :
  fresh_block B page 1 -> 0 < pr -> ~ pr ∈ hp_ref <$> l -> refs_step s1 (<[page := 1]> B) s2 B2 (pr :: (hp_ref <$> l)) ->
  wp (new_page pr page t ;; doalloc pr) (fun p s' => (p = 0 /\ refused s l big s') \/ granted s l big sz p s') E s2.
Proof.
  intros [F1 F2 F3 F4] Hpr Hprn R. rewrite Z.mul_1_l in F3.
  destruct (zlookup_is_Some (sizebases s1) t) as [base Hbase].
  { rewrite (hi_bases _ _ _ _ I1). done. }
  assert (Hb2 : zlookup (sizebases s2) t = Some base) by (by rewrite (rs_state _ _ _ _ _ R)).
  apply wp_bind. eapply wp_new_page; [done..|]. intros w' nn Hc Ho.
  set (hn := Hpage pr page t (blocks_down page (tsize t) nn)).
  pose proof (heap_inv_add s1 l big _ s2 B2 pr page t base w' I1 ltac:(by rewrite lookup_insert_eq) Hbig Hpages Hroots
    R Hpr Hprn F1 F2 F3 Ht Hb2 Hc Ho) as I3.
  destruct (tsize_cases _ Ht) as (_ & Hs & _ & _ & Hnb & Hnm). assert (exists k, nn = S k) as [k Ek] by (exists (pred nn); lia).
  eapply wp_mono; [eapply (doalloc_granted s _ (hn :: l) l big B2 hn) with (sz := sz) | by right | done].
  - exact I3.
  - cbn. by rewrite (rs_state _ _ _ _ _ R).
  - left.
  - cbn [hp_free hn]. rewrite Ek. cbn [blocks_down]. reflexivity.
  - done.
  - intros x m. apply live_added. intros a Ha. apply elem_of_all_blocks in Ha; [|done].
    apply list_elem_of_fmap in Ha as (i & -> & Hi%elem_of_seqZ). cbn [hp_free hn hp_page]. apply elem_of_blocks_down.
    exists i. unfold hp_nblocks, hp_size in *. cbn [hp_type hn] in *. split; [lia | done].
  - intros b m x Hl Hin. destruct (live_in_pages _ _ _ _ _ _ I Hl) as (b0 & k0 & HB0 & Hb0 & Hb1).
    cbn [kmem added set_prefs set_allbase set_sizebases set_kmem].
    assert (Hk2 : kmem s2 = kmem s) by (by rewrite (rs_state _ _ _ _ _ R)). rewrite Ho, Hk2; [done|]. destruct (F4 _ _ HB0); unfold outside_page, PAGE_SIZE in *; lia.
Qed.

End new_page.

(** The rest of the allocation once a page has been had for it. *)
Lemma wp_alloc_in_new_page s l big B page p1 t sz E :
  heap_inv s l big B -> spinlock_held s = false -> fresh_block B page 1 -> pages_rep p1 (<[page := 1]> B) ->
  ~ exhausted (kpages s) -> 0 <= t < NSIZES -> sz <= tsize t ->
  wp (alloc_in_new_page page t) (fun p s' => (p = 0 /\ refused s l big s') \/ granted s l big sz p s') E (set_kpages p1 s).
Proof.
  intros I Hh F HB1 Hx Ht Hsz. pose proof F as [F1 F2 F3 F4]. rewrite Z.mul_1_l in F3.
  pose proof (heap_inv_more_pages _ _ _ _ _ _ _ I F ltac:(lia) HB1 Hx) as I1.
  pose proof (fresh_new _ _ _ _ (hi_rep _ _ _ _ I) F ltac:(lia)) as Hnew.
  apply wp_bind, wp_kacquire; [done|].
  set (s1 := set_held true (set_kpages p1 s)). assert (I1' : heap_inv s1 l big (<[page := 1]> B)) by (by apply heap_inv_held).
  assert (Hown : forall i r, zlookup (kheaproots s1) i = Some r -> root_page r <> 0 -> <[page := 1]> B !! root_page r = Some 1).
  { intros i r H1 H2. by apply (hi_rowned _ _ _ _ I1' i r). }
  apply wp_bind. eapply wp_use.
  { apply (wp_allocpageref s1 _ (hp_ref <$> l) eq_refl (hi_rep _ _ _ _ I1') (hi_roots _ _ _ _ I1') Hown). }
  assert (Hpages : ~ page ∈ hp_page <$> l).
  { intros (h & -> & Hin)%list_elem_of_fmap. destruct (hi_owned _ _ _ _ I h Hin). congruence. }
  assert (Hbig : big !! page = None).
  { destruct (big !! page) eqn:Eb; [|done]. by erewrite lookup_weaken in Hnew; [|done|apply I]. }
  assert (Hroots : forall i r, zlookup (kheaproots s1) i = Some r -> root_page r <> 0 -> root_page r <> page).
  { intros i r H1 H2 E0. destruct (hi_rowned _ _ _ _ I i r H1 H2). congruence. }
  intros pr s2 [[-> R] | (Hpr & Hprn & B2 & R)].
  - by eapply pageref_refused.
  - destruct (Z.eqb_spec pr 0); [lia|]. by eapply (pageref_granted s s1).
Qed.

Lemma wp_subpage_kmalloc s l big B sz E :
  heap_inv s l big B -> spinlock_held s = false -> 0 <= sz <= LARGEST_SUBPAGE_SIZE ->
  wp (subpage_kmalloc sz) (fun p s' => (p = 0 /\ refused s l big s') \/ granted s l big sz p s') E s.
Proof.
  intros I Hh Hz. unfold subpage_kmalloc. apply wp_bind. eapply wp_use; [by apply wp_blocktype|].
  intros t s' (-> & Ht & Hsz). destruct (zlookup_is_Some (sizebases s) t) as [base Hbase].
  { rewrite (hi_bases _ _ _ _ I). done. }
  apply wp_bind, wp_kacquire; [done|]. apply wp_bind. eapply wp_get_sizebase; [done|].
  set (ls := filter (fun x => hp_type x = t) l).
  apply wp_bind. eapply wp_use; [apply (wp_samesize_search t _ (fun _ _ => False) LIST_FUEL ls)|].
  { pose proof (length_filter (fun x => hp_type x = t) l). pose proof (heap_bound _ _ _ _ I). subst ls. lia. }
  { by apply (hi_same _ _ _ _ I). }
  { apply Forall_forall. intros h [Hht Hh2]%list_elem_of_filter. split; [|done].
    by apply (proj1 (Forall_forall _ _) (hi_pages _ _ _ _ I)). }
  intros pr s' [-> Hpr]. destruct Hpr as [-> | (h & a & fl & [Hht Hin]%list_elem_of_filter & -> & Hf)].
  2:{ pose proof (proj1 (Forall_forall _ _) (hi_pages _ _ _ _ I) h Hin) as K.
      destruct (Z.eqb_spec (hp_ref h) 0) as [E0|]; [pose proof (hk_ref _ _ _ K); lia|]. cbn [negb].
      eapply wp_mono; [eapply (doalloc_granted s) with (sz := sz) | by right | done]; try done.
      - by apply heap_inv_held.
      - unfold hp_size. by rewrite Hht. }
  cbn [negb Z.eqb]. apply wp_bind, wp_krelease; [done|].
  replace (set_held false (set_held true s)) with s by (destruct s; cbn in *; by subst).
  apply wp_bind. eapply (wp_get_kpages 1 _ B); [done|apply I|lia| |].
  { intros p' HB' Hx. cbn. apply wp_ret. left. split; [done|]. exists B. split_and!; try done.
    eapply heap_inv_kpages; [done..| | ]; eauto. }
  intros page p1 F HB1 Hx. pose proof (fresh_nonzero _ _ _ F). destruct (Z.eqb_spec page 0); [done|].
  apply wp_bind, wp_kassert; [apply Z.eqb_eq; apply F|]. by eapply wp_alloc_in_new_page.
Qed.

End alloc.
