(* ===== verification/KmallocFree.v ===== *)
(** * Freeing in [kern/vm/kmalloc.c]

    [subpage_kfree] of a block in use puts it back on the free list of its
    page, and gives the page back when no block of it is in use any more. *)

From S2P Require Import Prelude KPages Kmalloc KmallocInv KmallocRefs KmallocAlloc.

Section free.
Context {P : Type} {PA : PageAlloc P} {PL : PageAllocLaws P}.
Implicit Types (s : kheap P) (B big : gmap Z Z) (l : list hpage) (h : hpage).

(** ** Finding the page *)

Definition on_page h (a : Z) : Prop := hp_page h <= a < hp_page h + PAGE_SIZE.

Lemma wp_find_page ptr s E : forall fuel l pr,
  (length l < fuel)%nat -> chain next_all (prefs s) pr (hp_ref <$> l) -> Forall (hpage_ok (prefs s) (kmem s)) l ->
  wp (find_page fuel ptr pr)
    (fun p s' => s' = s /\ ((p = 0 /\ forall h, h ∈ l -> ~ on_page h ptr) \/
                            exists h, h ∈ l /\ p = hp_ref h /\ on_page h ptr)) E s.
Proof.
  intros fuel l. revert fuel. induction l as [|h l IH]; intros fuel pr Hf Hc Hk.
  - destruct fuel; [cbn in Hf; lia|]. cbn in Hc. subst pr. apply wp_ret. split; [done|]. left. split; [done|].
    by intros h ?%not_elem_of_nil.
  - destruct fuel as [|fuel]; [cbn in Hf; lia|]. destruct Hc as (-> & Hnz & r & Hr & Hc).
    apply Forall_cons in Hk as [K Hk]. destruct (hpage_fields _ _ _ K) as (r' & Hr' & Ep & Et & _).
    rewrite Hr in Hr'. injection Hr' as <-. cbn [find_page]. destruct (Z.eqb_spec (hp_ref h) 0); [done|].
    apply wp_bind. eapply wp_load_pr; [done|]. rewrite Ep, Et. pose proof (hk_type _ _ _ K) as Ht.
    apply wp_bind, wp_kassert; [bsolve|]. pose proof (hk_range _ _ _ K) as [R1 R2].
    rewrite wrap_small by (unfold MIPS_KSEG0, MIPS_KSEG1, PAGE_SIZE in *; lia).
    destruct ((hp_page h <=? ptr) && (ptr <? hp_page h + PAGE_SIZE)) eqn:Eb.
    + apply wp_ret. split; [done|]. right. exists h. split_and!; [by left|done|]. unfold on_page. bsolve.
    + eapply wp_mono; [apply IH; [cbn in Hf; lia|done|done] | | done].
      intros p s' [-> [[-> Hn] | (h2 & Hh & -> & Ho)]]; (split; [done|]).
      * left. split; [done|]. intros h2 [->|Hh2]%elem_of_cons; [|by apply Hn]. unfold on_page. bsolve.
      * right. exists h2. split_and!; [by right|done|done].
Qed.

(** ** Marking the block and pushing it on the free list *)

Lemma wp_fill_deadbeef ptr len s (Q : unit -> kheap P -> Prop) E :
  0 <= ptr -> 0 <= len -> len mod 4 = 0 -> ptr + len <= 2 ^ 32 ->
  (forall w', (forall x, x < ptr \/ ptr + len <= x -> w' !! x = kmem s !! x) -> Q tt (set_kmem w' s)) ->
  wp (fill_deadbeef ptr len) Q E s.
Proof.
  intros H0 H1 Hm H2 HQ. unfold fill_deadbeef.
  eapply (wp_for_each (fun _ s' => exists w', s' = set_kmem w' s /\
    forall x, x < ptr \/ ptr + len <= x -> w' !! x = kmem s !! x)).
  - exists (kmem s). split; [by destruct s | done].
  - intros i s' Hi (w' & -> & Ho). assert (ptr + 4 * i < ptr + len).
    { rewrite Z2Nat.id in Hi by (apply Z.div_pos; lia). pose proof (Z.div_mod len 4). lia. }
    rewrite (wrap_small 32 (ptr + 4 * i)) by lia. apply wp_modify. eexists. split; [reflexivity|].
    intros x Hx. cbn [kmem set_kmem]. rewrite lookup_insert_ne by lia. by apply Ho.
  - intros s' (w' & -> & Ho). by apply HQ.
Qed.

(** Words that a free block of another page, or another block of this page,
    is made of. *)
Lemma other_blocks_outside h a b :
  0 <= hp_type h < NSIZES -> hp_block h a -> hp_block h b -> a <> b -> b < a \/ a + hp_size h <= b.
Proof.
  intros Ht Ha Hb Hne. destruct (blocks_disjoint h a b Ht Ha Hb Hne); [by right|].
  destruct (tsize_cases _ Ht) as (_ & Hs & _). unfold hp_size in *. left. lia.
Qed.

(** The free blocks of page [h] and of the other pages survive writes inside
    the block [a] of [h]. *)
Lemma free_blocks_outside s l1 l2 h big B a :
  heap_inv s (l1 ++ h :: l2) big B -> hp_block h a -> ~ a ∈ hp_free h ->
  forall h2 b, h2 ∈ l1 ++ h :: l2 -> b ∈ hp_free h2 -> b < a \/ a + hp_size h <= b.
Proof.
  intros I Ha Hna h2 b Hh2 Hb. pose proof (hi_pages _ _ _ _ I) as K.
  assert (Hh : h ∈ l1 ++ h :: l2) by set_solver.
  pose proof (proj1 (Forall_forall _ _) K h Hh) as Kh. pose proof (proj1 (Forall_forall _ _) K h2 Hh2) as Kh2.
  pose proof (proj1 (Forall_forall _ _) (hk_blocks _ _ _ Kh2) b Hb) as Hbb.
  destruct (Z.eq_dec (hp_page h2) (hp_page h)) as [E|E].
  - assert (h2 = h) as -> by (by eapply (NoDup_fmap_elem hp_page); [apply I|..]).
    eapply other_blocks_outside; [apply Kh|done|done|]. by intros ->.
  - pose proof (block_in_page h a (hk_type _ _ _ Kh) Ha) as [B1 B2]. destruct Hbb as [Hbb _].
    destruct (pages_disjoint _ _ (hk_aligned _ _ _ Kh) (hk_aligned _ _ _ Kh2) (not_eq_sym E)); lia.
Qed.

Definition freed_page h (a : Z) : hpage := Hpage (hp_ref h) (hp_page h) (hp_type h) (a :: hp_free h).

Lemma wp_push_free s l1 l2 h big B a w (Q : unit -> kheap P -> Prop) E :
  heap_inv s (l1 ++ h :: l2) big B -> hp_block h a -> ~ a ∈ hp_free h ->
  (forall x, x < a \/ a + hp_size h <= x -> w !! x = kmem s !! x) ->
  (forall s', heap_inv s' (l1 ++ freed_page h a :: l2) big B -> spinlock_held s' = spinlock_held s ->
     (forall x, x < a \/ a + hp_size h <= x -> kmem s' !! x = kmem s !! x) -> Q tt s') ->
  wp (push_free (hp_ref h) (a - hp_page h)) Q E (set_kmem w s).
Proof.
  intros I Ha Hna Hw HQ. pose proof (hi_pages _ _ _ _ I) as K. apply Forall_app in K as [_ [K _]%Forall_cons].
  pose proof (free_blocks_outside s l1 l2 h big B a I Ha Hna) as Hout.
  destruct (hpage_fields _ _ _ K) as (r & Hr & Ep & Et & Eo & En & Ec). pose proof K as [K1 K2 K3 [K4 K4'] K5 K6 K7 K8].
  destruct (tsize_cases _ K2) as (_ & Hs & _ & _ & Hnb & _).
  assert (Hbd : Z.of_nat (S (length (hp_free h))) <= hp_nblocks h).
  { apply (blocks_bound h (a :: hp_free h) K2); [by constructor | by constructor]. }
  unfold hp_nblocks, hp_size in Hbd. unfold push_free. apply wp_bind. eapply wp_load_pr; [done|]. rewrite Ep, Eo, En, Ec.
  pose proof Ha as [Ha1 Ha2]. unfold MIPS_KSEG0, MIPS_KSEG1, PAGE_SIZE in K4, K4', Ha1.
  replace (hp_page h + (a - hp_page h)) with a by lia. rewrite (wrap_small 32 a) by lia.
  rewrite (wrap_small 16 (a - hp_page h)), (wrap_small 16 (_ + 1)) by lia.
  assert (Hdone : forall s0, s0 = set_prefs (<[hp_ref h := Pageref (next_samesize r) (next_all r) (hp_page h + hp_type h)
      (a - hp_page h) (Z.of_nat (length (hp_free h)) + 1)]> (prefs s)) (set_kmem (<[a := hd 0 (hp_free h)]> w) s) -> Q tt s0).
  { intros s0 ->. apply HQ; [|done|].
    - eapply heap_inv_update; try done.
      + unfold core, hp_core, hp_offset. cbn -[Z.of_nat]. repeat f_equal. lia.
      + by constructor.
      + constructor; [done|]. done.
      + cbn [hp_free freed_page fchain]. rewrite lookup_insert_eq. split; [done|]. eapply fchain_ext, K8.
        intros x Hx. rewrite lookup_insert_ne by (by intros ->). apply Hw. apply (Hout h x); [set_solver|done].
      + intros h2 b Hh2 Hb. destruct (Hout h2 b ltac:(set_solver) Hb) as [?|?];
          (rewrite lookup_insert_ne by (unfold hp_size in *; lia)); apply Hw; auto.
    - intros x Hx. cbn [kmem set_prefs set_kmem]. unfold hp_size in Hx. rewrite lookup_insert_ne by lia. apply Hw. unfold hp_size. lia. }
  unfold hp_offset. apply wp_bind. destruct (hp_free h) as [|b fl] eqn:Ef; cbn [hd] in *.
  - cbn [Z.eqb]. rewrite Z.eqb_refl. apply wp_modify. apply wp_modify. by apply Hdone.
  - apply Forall_cons in K7 as [[Kb1 Kb2] _]. unfold PAGE_SIZE in Kb1. unfold INVALID_OFFSET.
    destruct (Z.eqb_spec (b - hp_page h) 0xffff); [lia|]. replace (hp_page h + (b - hp_page h)) with b by lia.
    rewrite (wrap_small 32 b) by lia. apply wp_bind, wp_modify. apply wp_kassert.
    { destruct (Z.eqb_spec a b) as [->|]; [destruct Hna; left | done]. }
    apply wp_modify. apply Hdone. cbn. rewrite (wrap_small 32 b) by lia. done.
Qed.

(** ** Taking a page off the lists *)

Lemma unlink_run read write link pr r s :
  (forall p rp, prefs s !! p = Some rp -> read (Field p) s = Ret (link rp) s) -> prefs s !! pr = Some r ->
  forall (l1 l2 : list Z) fuel guy b, read guy s = Ret b s -> chain link (prefs s) b (l1 ++ pr :: l2) -> ~ pr ∈ l1 ->
  (length l1 < fuel)%nat ->
  unlink fuel read write link pr guy s = write (from_option Field guy (last l1)) (link r) s.
Proof.
  intros Hread Hr l1 l2. induction l1 as [|x l1 IH]; intros fuel guy b Hg Hc Hn Hf;
    (destruct fuel as [|fuel]; [cbn in Hf; lia|]); cbn [unlink]; unfold bind at 1; rewrite Hg.
  - destruct Hc as (-> & Hnz & _). destruct (Z.eqb_spec pr 0); [done|]. rewrite Z.eqb_refl.
    unfold bind, load_pr, get, oob. unfold bind. by rewrite Hr.
  - cbn in Hc. destruct Hc as (-> & Hnz & rx & Hrx & Hc). destruct (Z.eqb_spec x 0); [done|].
    destruct (Z.eqb_spec x pr) as [->|Hne]; [destruct Hn; left|].
    rewrite (IH fuel (Field x) (link rx)); [|by apply Hread|done|set_solver|cbn in Hf; lia].
    destruct l1 as [|y l1]; [done|]. rewrite last_cons_cons.
    destruct (last (y :: l1)) eqn:El; [done | by apply last_None in El].
Qed.

Definition set_same (v : Z) (r : pageref) : pageref :=
  Pageref v (next_all r) (pageaddr_and_blocktype r) (freelist_offset r) (nfree r).
Definition set_all (v : Z) (r : pageref) : pageref :=
  Pageref (next_samesize r) v (pageaddr_and_blocktype r) (freelist_offset r) (nfree r).

(** The pagerefs agree in everything but one link. *)
Definition same_fields {A} (f : pageref -> A) (m m' : gmap Z pageref) : Prop := forall x, f <$> m' !! x = f <$> m !! x.

Lemma same_fields_insert {A} (f : pageref -> A) (m : gmap Z pageref) p rp r' :
  m !! p = Some rp -> f r' = f rp -> same_fields f m (<[p := r']> m).
Proof. intros Hp He x. rewrite lookup_insert. case_decide as E; [subst x; by rewrite Hp; cbn; rewrite He | done]. Qed.

Lemma chain_last link m b (l1 l2 : list Z) p : chain link m b (l1 ++ l2) -> last l1 = Some p -> exists rp, m !! p = Some rp.
Proof.
  intros Hc [l1' ->]%last_Some. rewrite <- app_assoc in Hc. cbn in Hc. apply chain_app in Hc as (_ & rp & ? & _). eauto.
Qed.

(** The list of one block size without [pr]. *)
Lemma unlink_same t pr r s (l1 l2 : list Z) b :
  zlookup (sizebases s) t = Some b -> chain next_samesize (prefs s) b (l1 ++ pr :: l2) -> NoDup (l1 ++ pr :: l2) ->
  prefs s !! pr = Some r -> (length l1 < LIST_FUEL)%nat ->
  exists b' m', unlink LIST_FUEL (read_same t) (write_same t) next_samesize pr Base s =
      Ret tt (set_sizebases (zinsert t b' (sizebases s)) (set_prefs m' s)) /\
    chain next_samesize m' b' (l1 ++ l2) /\ same_fields core (prefs s) m' /\ same_fields next_all (prefs s) m' /\
    forall y, ~ y ∈ l1 -> m' !! y = prefs s !! y.
Proof.
  intros Hb Hc Hd Hr Hf. assert (Hpr : ~ pr ∈ l1).
  { apply NoDup_app in Hd as (_ & Hd & _). intros Hin. apply (Hd _ Hin). left. }
  rewrite (unlink_run _ _ next_samesize pr r s) with (l1 := l1) (l2 := l2) (b := b); try done.
  2:{ intros p rp Hp. cbn. unfold bind, load_pr, get, oob. unfold bind. by rewrite Hp. }
  2:{ cbn. unfold get_sizebase, bind, get. by rewrite Hb. }
  pose proof (chain_remove next_samesize set_same _ b l1 pr l2 r ltac:(done) Hc Hd Hr) as Hrm.
  destruct (last l1) as [p|] eqn:El; cbn [from_option].
  - destruct (chain_last _ _ _ _ _ _ Hc El) as [rp Hp]. exists b, (<[p := set_same (next_samesize r) rp]> (prefs s)).
    split_and!.
    + cbn. unfold bind, load_pr, get, oob. unfold bind. rewrite Hp. cbn. unfold store_pr, modify, set_sizebases. cbn.
      rewrite zinsert_id by done. by destruct s.
    + by apply Hrm.
    + by eapply same_fields_insert.
    + by eapply same_fields_insert.
    + intros y Hy. apply lookup_insert_ne. intros ->. apply Hy. apply last_Some in El as [l' ->]. set_solver.
  - exists (next_samesize r), (prefs s). apply last_None in El as ->. by destruct s.
Qed.

(** The list of all pages without [pr]. *)
Lemma unlink_all pr r s (l1 l2 : list Z) :
  chain next_all (prefs s) (allbase s) (l1 ++ pr :: l2) -> NoDup (l1 ++ pr :: l2) -> prefs s !! pr = Some r ->
  (length l1 < LIST_FUEL)%nat ->
  exists b' m', unlink LIST_FUEL read_all write_all next_all pr Base s = Ret tt (set_allbase b' (set_prefs m' s)) /\
    chain next_all m' b' (l1 ++ l2) /\ same_fields core (prefs s) m' /\ same_fields next_samesize (prefs s) m'.
Proof.
  intros Hc Hd Hr Hf. assert (Hpr : ~ pr ∈ l1).
  { apply NoDup_app in Hd as (_ & Hd & _). intros Hin. apply (Hd _ Hin). left. }
  rewrite (unlink_run _ _ next_all pr r s) with (l1 := l1) (l2 := l2) (b := allbase s); try done.
  2:{ intros p rp Hp. cbn. unfold bind, load_pr, get, oob. unfold bind. by rewrite Hp. }
  pose proof (chain_remove next_all set_all _ (allbase s) l1 pr l2 r ltac:(done) Hc Hd Hr) as Hrm.
  destruct (last l1) as [p|] eqn:El; cbn [from_option].
  - destruct (chain_last _ _ _ _ _ _ Hc El) as [rp Hp]. exists (allbase s), (<[p := set_all (next_all r) rp]> (prefs s)).
    split_and!.
    + cbn. unfold bind, load_pr, get, oob. unfold bind. rewrite Hp. cbn. unfold store_pr, modify. by destruct s.
    + by apply Hrm.
    + by eapply same_fields_insert.
    + by eapply same_fields_insert.
  - exists (next_all r), (prefs s). apply last_None in El as ->. by destruct s.
Qed.

Lemma filter_refs_remove t l1 l2 h :
  hp_ref <$> filter (fun x => hp_type x = t) (l1 ++ h :: l2) =
  if decide (hp_type h = t)
  then (hp_ref <$> filter (fun x => hp_type x = t) l1) ++ hp_ref h :: (hp_ref <$> filter (fun x => hp_type x = t) l2)
  else hp_ref <$> filter (fun x => hp_type x = t) (l1 ++ l2).
Proof.
  rewrite !filter_app, filter_cons. destruct (decide (hp_type h = t)); [|done]. by rewrite fmap_app.
Qed.

(** The lists and structures of the pages [l] after a page was taken out. *)
Record lists_ok s l (sB : kheap P) : Prop := {
  lo_state : sB = set_allbase (allbase sB) (set_sizebases (sizebases sB) (set_prefs (prefs sB) s));
  lo_all : chain next_all (prefs sB) (allbase sB) (hp_ref <$> l);
  lo_bases : length (sizebases sB) = length (sizebases s);
  lo_same : forall t b, zlookup (sizebases sB) t = Some b ->
    chain next_samesize (prefs sB) b (hp_ref <$> filter (fun x => hp_type x = t) l);
  lo_core : same_fields core (prefs s) (prefs sB)
}.

Lemma remove_lists_run s l1 l2 h big B :
  heap_inv s (l1 ++ h :: l2) big B ->
  exists sB, remove_lists (hp_ref h) (hp_type h) s = Ret tt sB /\ lists_ok s (l1 ++ l2) sB.
Proof.
  intros I. pose proof (heap_bound _ _ _ _ I) as Hbound. rewrite length_app in Hbound.
  pose proof (hi_pages _ _ _ _ I) as K. apply Forall_app in K as [_ [K _]%Forall_cons].
  destruct (hpage_fields _ _ _ K) as (r & Hr & _). pose proof (hi_refs _ _ _ _ I) as Hnd.
  pose proof (hk_type _ _ _ K) as Ht. destruct I.
  destruct (zlookup_is_Some (sizebases s) (hp_type h)) as [b Hb]; [by rewrite hi_bases|].
  set (t := hp_type h) in *. pose proof (hi_same t b Hb) as Hs. rewrite filter_refs_remove, decide_True in Hs by done.
  assert (Hsub : NoDup ((hp_ref <$> filter (fun x => hp_type x = t) l1) ++ hp_ref h :: (hp_ref <$> filter (fun x => hp_type x = t) l2))).
  { replace (_ ++ _) with (hp_ref <$> filter (fun x => hp_type x = t) (l1 ++ h :: l2)) by (by rewrite filter_refs_remove, decide_True).
    eapply sublist_NoDup; [exact Hnd|]. apply fmap_sublist, sublist_filter. }
  destruct (unlink_same t (hp_ref h) r s _ _ b Hb Hs Hsub Hr) as (b1 & m1 & E1 & C1 & F1 & F1' & O1).
  { rewrite length_fmap. pose proof (length_filter (fun x => hp_type x = t) l1). lia. }
  rewrite fmap_app in hi_all, Hnd. cbn in hi_all, Hnd.
  set (s1 := set_sizebases (zinsert t b1 (sizebases s)) (set_prefs m1 s)) in *.
  assert (Ha1 : chain next_all (prefs s1) (allbase s1) ((hp_ref <$> l1) ++ hp_ref h :: (hp_ref <$> l2))).
  { eapply chain_ext, hi_all. intros x _. apply F1'. }
  assert (exists r1, m1 !! hp_ref h = Some r1) as [r1 Hr1].
  { pose proof (F1 (hp_ref h)) as Ec. rewrite Hr in Ec. destruct (m1 !! hp_ref h) as [r1|]; [by exists r1|done]. }
  destruct (unlink_all (hp_ref h) r1 s1 _ _ Ha1 Hnd Hr1) as (b2 & m2 & E2 & C2 & F2 & F2'); [rewrite length_fmap; lia|].
  exists (set_allbase b2 (set_prefs m2 s1)). split.
  { unfold remove_lists. unfold KASSERT. replace ((0 <=? t) && (t <? NSIZES)) with true by bsolve.
    unfold bind at 1, ret. unfold bind. rewrite E1. done. }
  split; cbn [prefs allbase sizebases set_allbase set_prefs set_sizebases s1]; try done.
  - by rewrite fmap_app.
  - by rewrite zinsert_length.
  - intros t' b'. destruct (Z.eq_dec t' t) as [->|Hne].
    + rewrite zlookup_insert_eq by (by eapply zlookup_lt). intros [= <-]. rewrite filter_app, fmap_app.
      eapply chain_ext, C1. intros x _. apply F2'.
    + rewrite zlookup_insert_ne by done. intros Hb'. pose proof (hi_same t' b' Hb') as Hc.
      rewrite filter_refs_remove, decide_False in Hc by (subst t; congruence). eapply chain_ext, Hc. intros x Hx.
      rewrite (F2' x). cbn. rewrite O1; [done|].
      intros (h2 & -> & [Ht2 Hin2]%list_elem_of_filter)%list_elem_of_fmap.
      apply list_elem_of_fmap in Hx as (h3 & E3 & [Ht3 Hin3]%list_elem_of_filter).
      assert (h2 = h3); [|congruence]. eapply (NoDup_fmap_elem hp_ref); [exact hi_refs|set_solver..|done].
  - intros x. etransitivity; [apply F2 | apply F1].
Qed.

(** ** A page whose blocks are all free is given back *)

Lemma full_page h : 0 <= hp_type h < NSIZES -> NoDup (hp_free h) -> Forall (hp_block h) (hp_free h) ->
  Z.of_nat (length (hp_free h)) = hp_nblocks h -> forall a, hp_block h a -> a ∈ hp_free h.
Proof.
  intros Ht Hd Hf Hl a Ha. apply elem_of_all_blocks in Ha; [|done].
  assert (hp_free h ≡ₚ hp_all_blocks h) as ->; [|done]. apply submseteq_length_Permutation.
  - apply NoDup_submseteq; [done|]. intros b Hb. apply elem_of_all_blocks; [done|]. by eapply Forall_forall in Hb.
  - rewrite length_all_blocks. lia.
Qed.

Lemma live_removed l1 l2 h big x m :
  (forall a, hp_block h a -> a ∈ hp_free h) -> is_live (l1 ++ l2) big x m <-> is_live (l1 ++ h :: l2) big x m.
Proof.
  intros Hall. unfold is_live. setoid_rewrite elem_of_app. setoid_rewrite elem_of_cons. split.
  - intros [(h2 & Hin & ?) | ?]; [|by right]. left. exists h2. split; [tauto | done].
  - intros [(h2 & [Hin|[->|Hin]] & Hb & Hn & ?) | ?]; [ | | |by right].
    + left. exists h2. auto.
    + by destruct Hn; apply Hall.
    + left. exists h2. auto.
Qed.

Lemma heap_inv_remove s l1 l2 h big B sB roots :
  heap_inv s (l1 ++ h :: l2) big B -> lists_ok s (l1 ++ l2) sB ->
  roots_ok roots (exhausted (kpages s)) (hp_ref <$> l1 ++ l2) ->
  (forall i r, zlookup roots i = Some r -> exists r0, zlookup (kheaproots s) i = Some r0 /\ root_page r0 = root_page r) ->
  heap_inv (set_roots roots sB) (l1 ++ l2) big B.
Proof.
  intros [] [Es Ha Hl Hsame Hc] Hroots Hpg. rewrite Es.
  assert (Hsub : l1 ++ l2 `sublist_of` l1 ++ h :: l2) by (apply sublist_app; [done | by apply sublist_cons]).
  assert (Hin : forall h2, h2 ∈ l1 ++ l2 -> h2 ∈ l1 ++ h :: l2) by set_solver.
  split; cbn [prefs kmem allbase sizebases kheaproots kpages set_roots set_allbase set_sizebases set_prefs]; try done.
  - by rewrite Hl.
  - apply Forall_forall. intros h2 Hh2. eapply hpage_ok_ext; [|done|].
    + apply Hc.
    + apply (proj1 (Forall_forall _ _) hi_pages). auto.
  - eapply sublist_NoDup; [exact hi_refs|]. by apply fmap_sublist.
  - eapply sublist_NoDup; [exact hi_nodup|]. by apply fmap_sublist.
  - intros h2 Hh2. apply hi_owned. auto.
  - intros i r H1 H2. destruct (Hpg i r H1) as (r0 & H3 & H4). rewrite <- H4 in *.
    destruct (hi_rowned i r0 H3 H2) as (? & ? & Hnp). split_and!; try done.
    intros (h2 & E & Hh2)%list_elem_of_fmap. apply Hnp. rewrite E. apply list_elem_of_fmap_2. auto.
Qed.

Lemma refs_remove l1 l2 h q : NoDup (hp_ref <$> l1 ++ h :: l2) ->
  q ∈ hp_ref <$> l1 ++ l2 <-> q ∈ hp_ref <$> l1 ++ h :: l2 /\ q <> hp_ref h.
Proof.
  rewrite !fmap_app. cbn. intros (_ & H1 & [H2 _]%NoDup_cons)%NoDup_app.
  rewrite !elem_of_app, elem_of_cons. split; [|naive_solver]. intros [Hq|Hq].
  - split; [by left|]. intros ->. apply (H1 _ Hq). left.
  - split; [by right; right|]. by intros ->.
Qed.

(** ** [subpage_kfree] *)

(** The block [a] of [n] bytes was given back. *)
Definition released s l big big' (a n : Z) s' : Prop :=
  exists l' B', heap_inv s' l' big' B' /\ spinlock_held s' = false /\
    (forall x m, is_live l' big' x m <-> is_live l big x m /\ x <> a) /\
    (forall x, x < a \/ a + n <= x -> kmem s' !! x = kmem s !! x).

Lemma live_freed l1 l2 h a big x m :
  hp_block h a -> ~ a ∈ hp_free h -> (forall m, is_live (l1 ++ h :: l2) big a m -> m = hp_size h /\ big !! a = None) ->
  (forall h2, h2 ∈ l1 ++ l2 -> ~ hp_block h2 a) ->
  is_live (l1 ++ freed_page h a :: l2) big x m <-> is_live (l1 ++ h :: l2) big x m /\ x <> a.
Proof.
  intros Hb Hn Ha Hother. unfold is_live in *. setoid_rewrite elem_of_app. setoid_rewrite elem_of_cons.
  setoid_rewrite elem_of_app in Ha. setoid_rewrite elem_of_cons in Ha. setoid_rewrite elem_of_app in Hother. split.
  - intros [(h2 & [Hin|[->|Hin]] & Hb2 & Hn2 & ->) | (k & Hk & ->)].
    + split; [left; exists h2; auto|]. intros ->. apply (Hother h2); auto.
    + cbn [hp_free freed_page] in Hn2. rewrite elem_of_cons in Hn2. split; [|tauto]. left. exists h. tauto.
    + split; [left; exists h2; auto|]. intros ->. apply (Hother h2); auto.
    + split; [right; eauto|]. intros ->.
      destruct (Ha (hp_size h)) as [_ ?]; [left; exists h; auto | congruence].
  - intros [[(h2 & [Hin|[->|Hin]] & Hb2 & Hn2 & ->) | ?] Hne]; [ | | |by right]; left.
    + exists h2. auto.
    + exists (freed_page h a). split_and!; auto. cbn. rewrite elem_of_cons. tauto.
    + exists h2. auto.
Qed.

(** Address [a] of a block belongs to one page only. *)
Lemma block_page_unique s l big B h h2 a :
  heap_inv s l big B -> h ∈ l -> h2 ∈ l -> on_page h a -> on_page h2 a -> h = h2.
Proof.
  intros I Hh Hh2 H1 H2. eapply (NoDup_fmap_elem hp_page); [apply I|done..|].
  pose proof (hi_pages _ _ _ _ I) as K. pose proof (proj1 (Forall_forall _ _) K h Hh) as Kh.
  pose proof (proj1 (Forall_forall _ _) K h2 Hh2) as Kh2. destruct (Z.eq_dec (hp_page h) (hp_page h2)) as [|E]; [done|].
  destruct (pages_disjoint _ _ (hk_aligned _ _ _ Kh) (hk_aligned _ _ _ Kh2) E); unfold on_page in *; lia.
Qed.

(** A whole-page block is not on a heap page. *)
Lemma big_not_on_page s l big B h a k : heap_inv s l big B -> h ∈ l -> big !! a = Some k -> ~ on_page h a.
Proof.
  intros I Hh Ha Hon. destruct (hi_owned _ _ _ _ I h Hh) as [HB Hbig].
  assert (HBa : B !! a = Some k) by (by eapply lookup_weaken, (hi_big _ _ _ _ I)).
  destruct (pages_apart _ _ _ _ (hi_rep _ _ _ _ I) HBa) as [Hk F].
  destruct (Z.eq_dec a (hp_page h)) as [->|Hne]; [congruence|].
  assert (HB' : delete a B !! hp_page h = Some 1) by (by rewrite lookup_delete_ne).
  destruct (fresh_apart _ _ _ F _ _ HB'); unfold on_page, PAGE_SIZE in *; lia.
Qed.

Lemma live_pushed s l1 l2 h big B a :
  heap_inv s (l1 ++ h :: l2) big B -> hp_block h a -> ~ a ∈ hp_free h ->
  forall x m, is_live (l1 ++ freed_page h a :: l2) big x m <-> is_live (l1 ++ h :: l2) big x m /\ x <> a.
Proof.
  intros I Ha Hn x m. assert (Hon : on_page h a) by apply Ha. apply live_freed; [done|done| |].
  - intros k [(h2 & Hh3 & Hb2 & _ & ->) | (k2 & Hk2 & _)].
    + assert (h2 = h) as ->. { eapply (block_page_unique s _ _ _ h2 h a I); [done|set_solver|apply Hb2|apply Ha]. }
      split; [done|]. destruct (big !! a) as [k2|] eqn:Ek; [|done]. by destruct (big_not_on_page s _ _ _ h a k2 I); [set_solver|..].
    + by destruct (big_not_on_page s _ _ _ h a k2 I); [set_solver|..].
  - intros h2 Hh3 Hb2. assert (h2 = h) as ->. { eapply (block_page_unique s _ _ _ h2 h a I); [set_solver|set_solver|apply Hb2|apply Ha]. }
    pose proof (hi_refs _ _ _ _ I) as Hnd. rewrite fmap_app in Hnd. cbn in Hnd.
    apply NoDup_app in Hnd as (_ & H1 & [H2 _]%NoDup_cons). apply elem_of_app in Hh3 as [Hh3|Hh3].
    + apply (H1 (hp_ref h)); [by apply list_elem_of_fmap_2 | left].
    + apply H2. by apply list_elem_of_fmap_2.
Qed.

Lemma wp_give_full_page s l1 l2 h big B (Q : unit -> kheap P -> Prop) E :
  heap_inv s (l1 ++ h :: l2) big B -> spinlock_held s = true ->
  (forall s' B', heap_inv s' (l1 ++ l2) big B' -> spinlock_held s' = false -> kmem s' = kmem s -> Q tt s') ->
  wp (remove_lists (hp_ref h) (hp_type h) ;; freepageref (hp_ref h) ;; spinlock_release ;; give_kpages (hp_page h)) Q E s.
Proof.
  intros I Hh HQ. destruct (remove_lists_run s l1 l2 h big B I) as (sB & Er & L). apply wp_bind.
  unfold wp at 1. rewrite Er. pose proof (lo_state _ _ _ L) as Es.
  assert (Hk : kheaproots sB = kheaproots s) by (by rewrite Es). assert (Hp : kpages sB = kpages s) by (by rewrite Es).
  assert (Hw : kmem sB = kmem s) by (by rewrite Es). assert (Hheld : spinlock_held sB = true) by (by rewrite Es).
  apply wp_bind. eapply (wp_freepageref sB (hp_ref <$> l1 ++ h :: l2) (hp_ref <$> l1 ++ l2)).
  { rewrite Hk, Hp. apply I. }
  { apply list_elem_of_fmap_2. set_solver. }
  { intros q. apply refs_remove. apply I. }
  intros roots Hroots Hpg. rewrite Hk, Hp in *. pose proof (heap_inv_remove _ _ _ _ _ _ _ _ I L Hroots Hpg) as I2.
  apply wp_bind, wp_krelease; [done|]. eapply (wp_give_kpages _ 1); [apply I2| |].
  { apply (hi_owned _ _ _ _ I). set_solver. }
  intros p' HB' Hx. apply (HQ _ (delete (hp_page h) B)); [|done|done].
  eapply heap_inv_kpages; [by apply heap_inv_held, I2|done|done|]. intros x n Hxn Hown. rewrite lookup_delete_ne; [done|].
  intros <-. destruct Hown as [Hin | [[k Hbig] | (i & r & Hi & Hr & Hnz)]].
  - pose proof (hi_nodup _ _ _ _ I) as Hnd. rewrite fmap_app in Hin, Hnd. cbn in Hnd.
    apply NoDup_app in Hnd as (_ & H1 & [H2 _]%NoDup_cons). apply elem_of_app in Hin as [Hin|Hin]; [|done].
    apply (H1 _ Hin). left.
  - destruct (hi_owned _ _ _ _ I h ltac:(set_solver)). congruence.
  - cbn in Hi. destruct (Hpg i r Hi) as (r0 & H3 & H4).
    destruct (hi_rowned _ _ _ _ I i r0 H3 ltac:(lia)) as (_ & _ & Hn). apply Hn. rewrite H4, Hr. apply list_elem_of_fmap_2. set_solver.
Qed.

Lemma wp_subpage_kfree s l h big B a E :
  heap_inv s l big B -> spinlock_held s = false -> h ∈ l -> hp_block h a -> ~ a ∈ hp_free h ->
  wp (subpage_kfree a) (fun r s' => r = 0 /\ released s l big big a (hp_size h) s') E s.
Proof.
  intros I Hh Hin Ha Hn. unfold subpage_kfree. apply wp_bind, wp_kacquire; [done|]. apply wp_bind, wp_gets.
  set (s1 := set_held true s). assert (I1 : heap_inv s1 l big B) by (by apply heap_inv_held).
  apply wp_bind. eapply wp_use; [apply (wp_find_page a s1 (fun _ _ => False) LIST_FUEL l)|].
  { by eapply heap_bound. } { apply I1. } { apply I1. }
  intros p s' [-> Hp]. assert (Hon : on_page h a) by apply Ha.
  destruct Hp as [[-> Hno] | (h2 & Hin2 & -> & Hon2)]; [by destruct (Hno h Hin)|].
  assert (h2 = h) as -> by (by eapply (block_page_unique s)). clear Hin2 Hon2.
  pose proof (proj1 (Forall_forall _ _) (hi_pages _ _ _ _ I1) h Hin) as K.
  destruct (hpage_fields _ _ _ K) as (r & Hr & Ep & Et & _). pose proof K as [K1 K2 K3 [K4 K4'] _ _ _ _].
  destruct (tsize_cases _ K2) as (Hz & Hs & _ & H16 & Hnb & Hnm). destruct (block_in_page h a K2 Ha) as [Hp1 Hp2].
  destruct (Z.eqb_spec (hp_ref h) 0); [lia|]. apply wp_bind. eapply wp_load_pr; [done|]. rewrite Ep, Et.
  unfold MIPS_KSEG0, MIPS_KSEG1, PAGE_SIZE in K4, K4', Hp2. unfold on_page, PAGE_SIZE in Hon.
  rewrite (wrap_small 32 (a - hp_page h)) by lia. apply wp_bind, wp_size_of_type; [done|].
  replace ((PAGE_SIZE <=? a - hp_page h) || negb ((a - hp_page h) mod tsize (hp_type h) =? 0)) with false.
  2:{ destruct Ha as [_ Hm]. unfold hp_size in Hm. rewrite Hm. unfold PAGE_SIZE. bsolve. }
  apply list_elem_of_split in Hin as (l1 & l2 & ->). unfold hp_size in Hp2.
  apply wp_bind. apply wp_fill_deadbeef; [lia|lia|Z.to_euclidean_division_equations; lia|lia|]. intros w Hw.
  apply wp_bind. eapply (wp_push_free s1 l1 l2 h big B a w); [done..|]. intros s2 I2 Hh2 Hm2.
  pose proof (live_pushed s l1 l2 h big B a I Ha Hn) as Hlive.
  assert (Hin2 : freed_page h a ∈ l1 ++ freed_page h a :: l2) by set_solver.
  pose proof (proj1 (Forall_forall _ _) (hi_pages _ _ _ _ I2) _ Hin2) as K'.
  destruct (hpage_fields _ _ _ K') as (r2 & Hr2 & _ & _ & _ & En & _). cbn [hp_ref freed_page] in Hr2.
  pose proof (blocks_bound _ _ (hk_type _ _ _ K') (hk_nodup _ _ _ K') (hk_blocks _ _ _ K')) as Hbd.
  apply wp_bind. eapply wp_load_pr; [done|]. rewrite En. unfold hp_nblocks in Hbd. change (hp_size (freed_page h a)) with (tsize (hp_type h)) in Hbd.
  apply wp_bind, wp_kassert; [by apply Z.leb_le|]. apply wp_bind.
  destruct (Z.eqb_spec (Z.of_nat (length (hp_free (freed_page h a)))) (PAGE_SIZE / tsize (hp_type h))) as [Efull|Efull].
  - eapply (wp_give_full_page s2 l1 l2 (freed_page h a)); [done|by rewrite Hh2|].
    intros s3 B3 I3 Hh3 Hm3. apply wp_ret. split; [done|]. exists (l1 ++ l2), B3. split_and!; [done|done| |].
    + intros x m. rewrite <- Hlive. apply live_removed. apply full_page; [apply K'..|]. exact Efull.
    + intros x Hx. rewrite Hm3. by apply Hm2.
  - apply wp_krelease; [by rewrite Hh2|]. apply wp_ret. split; [done|]. exists (l1 ++ freed_page h a :: l2), B. split_and!; try done.
    by apply heap_inv_held.
Qed.

End free.
