(* ===== verification/KmallocSpec.v ===== *)
(** * [kmalloc] and [kfree] against their specification

    Over every page allocator that keeps the promises of [PageAllocLaws]:
    [kmalloc] and [kfree] refine a map from the addresses of the blocks in
    use to their sizes, the blocks never overlap and nobody's contents
    change, however the two are called; and the consistency checks of the
    [SLOWER] configuration pass in every state that can be reached.  The
    theorems at the end are about the page allocator of this kernel. *)

From S2P Require Import Prelude KPages Kmalloc KmallocInv KmallocRefs KmallocAlloc KmallocFree.

Section spec.
Context {P : Type} {PA : PageAlloc P} {PL : PageAllocLaws P}.
Implicit Types (s : kheap P) (B big : gmap Z Z) (l : list hpage) (h : hpage) (live : gmap Z Z).

(** ** Blocks in use do not overlap *)

(** The pages a block in use lies on. *)
Lemma live_unit s l big B a n :
  heap_inv s l big B -> is_live l big a n ->
  exists c k, B !! c = Some k /\ c <= a /\ a + n <= c + k * PAGE_SIZE /\
    ((exists h, h ∈ l /\ c = hp_page h /\ hp_block h a /\ n = hp_size h) \/ (big !! c = Some k /\ a = c)).
Proof.
  intros I [(h & Hh & Hb & _ & ->) | (k & Hk & ->)].
  - pose proof (proj1 (Forall_forall _ _) (hi_pages _ _ _ _ I) h Hh) as K.
    destruct (block_in_page h a (hk_type _ _ _ K) Hb). exists (hp_page h), 1.
    split_and!; [by apply (hi_owned _ _ _ _ I)|done|lia|]. left. eauto.
  - exists a, k. split_and!; [by eapply lookup_weaken, (hi_big _ _ _ _ I)|lia|lia|by right].
Qed.

Lemma live_apart s l big B a n b m :
  heap_inv s l big B -> is_live l big a n -> is_live l big b m -> a <> b -> blocks_apart a n b m.
Proof.
  intros I Ha Hb Hne. destruct (live_unit _ _ _ _ _ _ I Ha) as (c & k & Hc & C1 & C2 & Ua).
  destruct (live_unit _ _ _ _ _ _ I Hb) as (c' & k' & Hc' & D1 & D2 & Ub).
  destruct (Z.eq_dec c c') as [<-|Hcc].
  2:{ destruct (pages_apart _ _ _ _ (hi_rep _ _ _ _ I) Hc) as [_ F].
      assert (HB' : delete c B !! c' = Some k') by (by rewrite lookup_delete_ne).
      destruct (fresh_apart _ _ _ F _ _ HB'); unfold blocks_apart; lia. }
  destruct Ua as [(h & Hh & -> & Hba & ->) | [Hbig ->]], Ub as [(h2 & Hh2 & E & Hbb & ->) | [Hbig2 ->]].
  - assert (h2 = h) as -> by (by eapply (NoDup_fmap_elem hp_page); [apply I|..]).
    apply blocks_disjoint; [|done..]. apply (proj1 (Forall_forall _ _) (hi_pages _ _ _ _ I) h Hh).
  - destruct (hi_owned _ _ _ _ I h Hh). congruence.
  - destruct (hi_owned _ _ _ _ I h2 Hh2). congruence.
  - done.
Qed.

(** ** [kmalloc] *)

(** The contents of the blocks in [live] are the same. *)
Definition contents_kept live s s' : Prop :=
  forall a n x, live !! a = Some n -> a <= x < a + n -> kmem s' !! x = kmem s !! x.

(** What [kmalloc(sz)] may do: refuse, or hand out a new block. *)
Definition kmalloc_spec s live (sz p : Z) s' : Prop :=
  contents_kept live s s' /\
  ((p = 0 /\ heap_rep s' live) \/
   exists n, p <> 0 /\ sz <= n /\ p mod 16 = 0 /\ live !! p = None /\ heap_rep s' (<[p := n]> live) /\
     forall b m, live !! b = Some m -> blocks_apart p n b m).

Lemma granted_spec s l big live sz p s' :
  (forall a n, live !! a = Some n <-> is_live l big a n) -> granted s l big sz p s' -> kmalloc_spec s live sz p s'.
Proof.
  intros Hl (l' & big' & B' & n & I' & Hh & Hsz & Hp & H16 & Hlive & Hnew & Hmem). split.
  { intros a m x Ha%Hl Hx. by eapply Hmem. }
  right. exists n. split_and!; try done.
  - destruct (live !! p) as [m|] eqn:E; [|done]. by destruct (Hnew m); apply Hl.
  - split; [done|]. exists l', big', B'. split; [done|]. intros a m. rewrite Hlive, lookup_insert_Some, <- Hl.
    split; [intros [[<- <-]|[_ ?]]; auto|]. intros [[-> ->]|Ha]; [auto|]. right. split; [|done].
    intros ->. by destruct (Hnew m); apply Hl.
  - intros b m Hb%Hl. eapply live_apart; [done|apply Hlive; by left|apply Hlive; by right|]. intros ->. by eapply Hnew.
Qed.

(** A whole-page block joins the blocks in use. *)
Lemma big_granted s l big B n va p' sz :
  heap_inv s l big B -> spinlock_held s = false -> fresh_block B va n -> 1 <= n -> sz <= n * PAGE_SIZE ->
  pages_rep p' (<[va := n]> B) -> ~ exhausted (kpages s) -> granted s l big sz va (set_kpages p' s).
Proof.
  intros I Hh F Hn Hsz HB' Hx. pose proof (heap_inv_more_pages _ _ _ _ _ _ _ I F Hn HB' Hx) as I1.
  pose proof (fresh_new _ _ _ _ (hi_rep _ _ _ _ I) F Hn) as Hnew.
  assert (Hbig : big !! va = None).
  { destruct (big !! va) eqn:Eb; [|done]. by erewrite lookup_weaken in Hnew; [|done|apply I]. }
  assert (I' : heap_inv (set_kpages p' s) l (<[va := n]> big) (<[va := n]> B)).
  { destruct I1. split; try done.
    - intros h Hin. destruct (hi_owned h Hin) as [H1 H2]. split; [done|]. rewrite lookup_insert_ne; [done|].
      intros ->. destruct (KmallocInv.hi_owned _ _ _ _ I h Hin). congruence.
    - intros i r H1 H2. destruct (hi_rowned i r H1 H2) as (? & ? & ?). split_and!; try done. rewrite lookup_insert_ne; [done|].
      intros ->. destruct (KmallocInv.hi_rowned _ _ _ _ I i r H1 H2). congruence.
    - apply insert_mono, I. }
  assert (Hnl : forall m, ~ is_live l big va m).
  { intros m [(h & Hin & Hb & _) | (k & Hk & _)]; [|congruence].
    destruct (hi_owned _ _ _ _ I h Hin) as [HB _]. destruct Hb as [Hb _].
    destruct (fresh_apart _ _ _ F _ _ HB); unfold PAGE_SIZE in *; lia. }
  exists l, (<[va := n]> big), (<[va := n]> B), (n * PAGE_SIZE). split_and!; try done.
  - by eapply fresh_nonzero.
  - pose proof (fresh_aligned _ _ _ F). unfold PAGE_SIZE in *. Z.to_euclidean_division_equations. lia.
  - intros x m. unfold is_live. split.
    + intros [? | (k & Hk & ->)]; [by right; left|]. apply lookup_insert_Some in Hk as [[<- <-]|[_ Hk]]; [by left|].
      right. right. eauto.
    + intros [[-> ->] | [? | (k & Hk & ->)]]; [|by left|]; right.
      * exists n. by rewrite lookup_insert_eq.
      * exists k. split; [|done]. rewrite lookup_insert_ne; [done|]. intros ->. congruence.
Qed.

Lemma wp_kmalloc s live sz E :
  heap_rep s live -> 0 <= sz < 2 ^ 31 - PAGE_SIZE -> wp (kmalloc sz) (kmalloc_spec s live sz) E s.
Proof.
  intros (Hh & l & big & B & I & Hl) Hz. unfold PAGE_SIZE in Hz. unfold kmalloc.
  assert (Hrefused : forall s', refused s l big s' -> kmalloc_spec s live sz 0 s').
  { intros s' (B' & I' & Hh' & Hm'). split; [intros a n x _ _; by rewrite Hm'|]. left. split; [done|].
    split; [done|]. by exists l, big, B'. }
  destruct (Z.leb_spec LARGEST_SUBPAGE_SIZE sz) as [Hbig|Hsmall]; unfold LARGEST_SUBPAGE_SIZE in *.
  - unfold PAGE_SIZE at 1 2. rewrite (wrap_small 32 (sz + 4096 - 1)) by lia.
    set (n := (sz + 4096 - 1) / 4096). assert (Hn : 1 <= n < 2 ^ 19 /\ sz <= n * 4096).
    { subst n. Z.to_euclidean_division_equations. lia. }
    apply wp_bind. eapply (wp_get_kpages n _ B); [done|apply I|lia| |].
    + intros p' HB' Hx. cbn. apply wp_ret, Hrefused. exists B. split_and!; try done.
      eapply heap_inv_kpages; [done..| |]; eauto.
    + intros va p' F HB' Hx. pose proof (fresh_nonzero _ _ _ F). destruct (Z.eqb_spec va 0); [done|].
      apply wp_bind, wp_kassert; [apply Z.eqb_eq, F|]. apply wp_ret. eapply granted_spec; [done|].
      eapply big_granted; [done..|lia|unfold PAGE_SIZE; lia|done|done].
  - eapply wp_use; [eapply wp_subpage_kmalloc; [done..|unfold LARGEST_SUBPAGE_SIZE; lia]|].
    intros p s' [[-> Hr] | Hg]; [by apply Hrefused | by eapply granted_spec].
Qed.

(** ** [kfree] *)

(** What [kfree] of the block [a] in use does. *)
Definition kfree_spec s live (a : Z) s' : Prop :=
  heap_rep s' (delete a live) /\ contents_kept (delete a live) s s'.

Lemma released_spec s l big big' B a n live s' :
  heap_inv s l big B -> (forall a n, live !! a = Some n <-> is_live l big a n) -> live !! a = Some n ->
  released s l big big' a n s' -> kfree_spec s live a s'.
Proof.
  intros I Hl Ha (l' & B' & I' & Hh' & Hlive & Hmem). split.
  - split; [done|]. exists l', big', B'. split; [done|]. intros x m. rewrite Hlive, lookup_delete_Some, <- Hl. naive_solver.
  - intros b m x [Hne Hb]%lookup_delete_Some Hx. apply Hmem.
    destruct (live_apart _ _ _ _ _ _ _ _ I (proj1 (Hl _ _) Ha) (proj1 (Hl _ _) Hb) Hne); lia.
Qed.

(** A whole-page block is given back. *)
Lemma wp_kfree_big s l big B a k live E :
  heap_inv s l big B -> spinlock_held s = false -> (forall a n, live !! a = Some n <-> is_live l big a n) ->
  big !! a = Some k -> wp (kfree a) (fun _ s' => kfree_spec s live a s') E s.
Proof.
  intros I Hh Hl Ha. assert (HB : B !! a = Some k) by (by eapply lookup_weaken, (hi_big _ _ _ _ I)).
  destruct (pages_apart _ _ _ _ (hi_rep _ _ _ _ I) HB) as [Hk F]. pose proof (fresh_nonzero _ _ _ F).
  unfold kfree. destruct (Z.eqb_spec a 0); [done|]. apply wp_bind. unfold subpage_kfree.
  apply wp_bind, wp_kacquire; [done|]. apply wp_bind, wp_gets. set (s1 := set_held true s).
  assert (I1 : heap_inv s1 l big B) by (by apply heap_inv_held).
  apply wp_bind. eapply wp_use; [apply (wp_find_page a s1 (fun _ _ => False) LIST_FUEL l)|].
  { by eapply heap_bound. } { apply I1. } { apply I1. }
  intros p s' [-> [[-> _] | (h & Hin & _ & Hon)]]; [|by destruct (big_not_on_page _ _ _ _ _ _ _ I Hin Ha)].
  cbn [Z.eqb]. apply wp_bind, wp_krelease; [done|]. apply wp_ret. cbn [Z.eqb negb].
  apply wp_bind, wp_kassert; [apply Z.eqb_eq, F|]. replace (set_held false s1) with s by (destruct s; cbn in *; by subst).
  eapply wp_give_kpages; [apply I|done|]. intros p' HB' Hx.
  eapply (released_spec s l big (delete a big)); [done|done|apply Hl; right; eauto|].
  exists l, (delete a B). split_and!; [|done| |done].
  - assert (Hother : forall x, (x ∈ hp_page <$> l \/ exists i r, zlookup (kheaproots s) i = Some r /\ root_page r = x /\ x <> 0) -> x <> a).
    { intros x [(h & -> & Hin)%list_elem_of_fmap | (i & r & Hi & <- & Hnz)] E0.
      - destruct (hi_owned _ _ _ _ I h Hin). congruence.
      - destruct (hi_rowned _ _ _ _ I i r Hi Hnz) as (_ & ? & _). congruence. }
    assert (I2 : heap_inv s l (delete a big) B).
    { pose proof I as []. split; try done.
      - intros h Hin. destruct (hi_owned h Hin). split; [done|]. by rewrite lookup_delete_None; right.
      - intros i r H1 H2. destruct (hi_rowned i r H1 H2) as (? & ? & ?). split_and!; try done. by rewrite lookup_delete_None; right.
      - etransitivity; [apply delete_subseteq | done]. }
    eapply heap_inv_kpages; [exact I2|done|done|]. intros x j Hxj Hown. rewrite lookup_delete_ne; [done|].
    intros <-. destruct Hown as [? | [[m Hm] | ?]]; [by eapply (Hother a); [left|] | by rewrite lookup_delete_eq in Hm | by eapply (Hother a); [right|]].
  - intros x m. unfold is_live. split.
    + intros [(h & Hin & Hb & ?) | (k2 & [Hne Hk2]%lookup_delete_Some & ->)].
      * split; [left; eauto|]. intros ->. by eapply (big_not_on_page _ _ _ _ h a k I); [..|apply Hb].
      * split; [right; eauto | done].
    + intros [[? | (k2 & Hk2 & ->)] Hne]; [by left|]. right. exists k2. by rewrite lookup_delete_ne.
Qed.

Lemma wp_kfree s live a n E :
  heap_rep s live -> live !! a = Some n -> wp (kfree a) (fun _ s' => kfree_spec s live a s') E s.
Proof.
  intros (Hh & l & big & B & I & Hl) Ha. pose proof (proj1 (Hl _ _) Ha) as [(h & Hin & Hb & Hn & ->) | (k & Hk & ->)].
  2:{ by eapply wp_kfree_big. }
  unfold kfree. pose proof (proj1 (Forall_forall _ _) (hi_pages _ _ _ _ I) h Hin) as K.
  destruct (Z.eqb_spec a 0) as [->|]; [destruct K, Hb; unfold MIPS_KSEG0 in *; lia|].
  apply wp_bind. eapply wp_use; [by eapply wp_subpage_kfree|]. intros r s' [-> Hr]. apply wp_ret.
  by eapply released_spec.
Qed.

(** ** The consistency checks *)

Lemma wp_check_freelist page size s E : forall fuel fl count,
  (length fl < fuel)%nat -> 0 < page -> page + PAGE_SIZE < 2 ^ 32 -> NoDup fl -> fchain (kmem s) fl ->
  Forall (fun a => page <= a < page + PAGE_SIZE /\ (a - page) mod size = 0) fl ->
  wp (check_freelist fuel page size (hd 0 fl) count) (fun c s' => s' = s /\ c = count + Z.of_nat (length fl)) E s.
Proof.
  intros fuel fl. revert fuel. induction fl as [|a fl IH]; intros fuel count Hf Hp0 Hp1 Hd Hc Hb;
    (destruct fuel as [|fuel]; [cbn in Hf; lia|]); cbn [check_freelist hd].
  - cbn [Z.eqb]. apply wp_ret. split; [done|]. cbn. lia.
  - apply Forall_cons in Hb as [[Ha Hm] Hb]. destruct Hc as [Hw Hc]. unfold PAGE_SIZE in *.
    apply NoDup_cons in Hd as [Hna Hd]. destruct (Z.eqb_spec a 0); [lia|].
    rewrite (wrap_small 32 (page + 4096)), (wrap_small 32 (a - page)) by lia.
    apply wp_bind, wp_kassert; [bsolve|]. apply wp_bind, wp_kassert; [by apply Z.eqb_eq|].
    unfold load_word. apply wp_bind, wp_gets. rewrite Hw. change (default 0 (Some (hd 0 fl))) with (hd 0 fl).
    apply wp_bind, wp_kassert.
    { destruct (Z.eqb_spec (hd 0 fl) a) as [E0|]; [|done]. destruct fl as [|b fl]; cbn in E0; [lia|]. destruct Hna. rewrite E0. left. }
    eapply wp_mono; [apply IH; try done; cbn in Hf; lia | | done]. intros c s' [-> ->]. split; [done|]. cbn [length]. lia.
Qed.

Lemma wp_checksubpage s h E :
  spinlock_held s = true -> hpage_ok (prefs s) (kmem s) h -> wp (checksubpage (hp_ref h)) (fun _ s' => s' = s) E s.
Proof.
  intros Hh K. destruct (hpage_fields _ _ _ K) as (r & Hr & Ep & Et & Eo & En & _). pose proof K as [K1 K2 K3 [K4 K4'] _ K6 K7 K8].
  destruct (tsize_cases _ K2) as (_ & Hs & _ & _ & Hnb & _). pose proof (blocks_bound h _ K2 K6 K7) as Hbd.
  unfold hp_nblocks, hp_size in Hbd. unfold checksubpage. wp_steps. apply wp_kassert; [done|]. wp_steps.
  eapply wp_load_pr; [done|]. rewrite Eo, En, Ep, Et. unfold hp_offset. destruct (hp_free h) as [|a fl] eqn:Ef.
  { rewrite Z.eqb_refl. by apply wp_kassert. }
  pose proof K7 as [[Ka1 Ka2] _]%Forall_cons. unfold INVALID_OFFSET. unfold MIPS_KSEG0, MIPS_KSEG1, PAGE_SIZE in *.
  destruct (Z.eqb_spec (a - hp_page h) 0xffff); [lia|].
  apply wp_bind, wp_kassert; [bsolve|]. apply wp_bind, wp_size_of_type; [done|].
  apply wp_bind, wp_kassert; [unfold MIPS_KSEG0; bsolve|]. apply wp_bind, wp_kassert; [unfold MIPS_KSEG1; bsolve|].
  apply wp_bind, wp_kassert; [unfold PAGE_SIZE; bsolve|]. apply wp_bind, wp_kassert; [by apply Z.eqb_eq|].
  replace (hp_page h + (a - hp_page h)) with a by lia. rewrite (wrap_small 32 a) by lia. apply wp_bind.
  eapply wp_mono; [apply (wp_check_freelist (hp_page h) (tsize (hp_type h)) s (fun _ _ => False) FREE_FUEL (a :: fl) 0) | | done].
  - unfold FREE_FUEL, SMALLEST_SUBPAGE_SIZE, PAGE_SIZE. change (4096 / 16) with 256. lia.
  - lia.
  - unfold PAGE_SIZE. lia.
  - done.
  - done.
  - exact K7.
  - intros c s' [-> ->]. apply wp_kassert; [apply Z.eqb_eq; lia | done].
Qed.

Lemma wp_check_list link s E : forall fuel l pr count,
  (length l < fuel)%nat -> spinlock_held s = true -> chain link (prefs s) pr (hp_ref <$> l) ->
  Forall (hpage_ok (prefs s) (kmem s)) l -> count + Z.of_nat (length l) <= TOTAL_PAGEREFS ->
  wp (check_list fuel link pr count) (fun c s' => s' = s /\ c = count + Z.of_nat (length l)) E s.
Proof.
  intros fuel l. revert fuel. induction l as [|h l IH]; intros fuel pr count Hf Hh Hc Hk Hcnt;
    (destruct fuel as [|fuel]; [cbn in Hf; lia|]); cbn [check_list].
  - cbn in Hc. subst pr. cbn [Z.eqb]. apply wp_ret. split; [done|]. cbn. lia.
  - destruct Hc as (-> & Hnz & r & Hr & Hc). apply Forall_cons in Hk as [K Hk]. destruct (Z.eqb_spec (hp_ref h) 0); [done|].
    apply wp_bind. eapply wp_use; [by apply wp_checksubpage|]. intros [] s' ->. cbn [length] in Hcnt.
    apply wp_bind, wp_kassert; [apply Z.ltb_lt; lia|]. apply wp_bind. eapply wp_load_pr; [done|].
    eapply wp_mono; [apply IH; [cbn in Hf; lia|done|done|done|lia] | | done]. intros c s' [-> ->]. split; [done|]. cbn [length]. lia.
Qed.

Lemma TOTAL_eq : TOTAL_PAGEREFS = 4096.
Proof. done. Qed.

(** The number of pages of the types below [i]. *)
Definition count_below l (i : Z) : Z := Z.of_nat (length (filter (fun h => hp_type h < i) l)).

Lemma count_below_next l i : count_below l (i + 1) = count_below l i + Z.of_nat (length (filter (fun h => hp_type h = i) l)).
Proof.
  unfold count_below. induction l as [|h l IH]; [done|]. rewrite !filter_cons.
  destruct (decide (hp_type h < i + 1)), (decide (hp_type h < i)), (decide (hp_type h = i)); cbn [length]; lia.
Qed.

Lemma count_below_all l : Forall (fun h => 0 <= hp_type h < NSIZES) l -> count_below l NSIZES = Z.of_nat (length l).
Proof.
  unfold count_below. induction 1 as [|h l Hh _ IH]; [done|]. rewrite filter_cons, decide_True by lia. cbn [length]. lia.
Qed.

Lemma count_below_0 l : Forall (fun h => 0 <= hp_type h < NSIZES) l -> count_below l 0 = 0.
Proof. unfold count_below. induction 1 as [|h l Hh _ IH]; [done|]. rewrite filter_cons, decide_False by lia. done. Qed.

Lemma count_below_le l i : count_below l i <= Z.of_nat (length l).
Proof. unfold count_below. pose proof (length_filter (fun h => hp_type h < i) l). lia. Qed.

Lemma wp_check_sizes s l big B E : heap_inv s l big B -> spinlock_held s = true -> forall n i,
  0 <= i -> i + Z.of_nat n = NSIZES ->
  wp (check_sizes n i (count_below l i)) (fun c s' => s' = s /\ c = Z.of_nat (length l)) E s.
Proof.
  intros I Hh. pose proof (heap_bound _ _ _ _ I) as Hbound. pose proof (hi_pages _ _ _ _ I) as K.
  pose proof (refs_bound _ _ _ (hi_roots _ _ _ _ I) (hi_refs _ _ _ _ I)) as Htot. rewrite length_fmap in Htot.
  induction n as [|n IH]; intros i Hi Hn; cbn [check_sizes].
  - apply wp_ret. split; [done|]. replace i with NSIZES by lia. apply count_below_all.
    eapply Forall_impl; [exact K|]. by intros h [].
  - destruct (zlookup_is_Some (sizebases s) i) as [b Hb]; [rewrite (hi_bases _ _ _ _ I); cbn; unfold NSIZES in *; lia|].
    apply wp_bind. eapply wp_get_sizebase; [done|]. pose proof (count_below_next l i) as Hnext.
    pose proof (count_below_le l (i + 1)) as Hle. pose proof (length_filter (fun h => hp_type h = i) l) as Hfl.
    apply wp_bind. eapply wp_mono; [apply (wp_check_list next_samesize s (fun _ _ => False) LIST_FUEL (filter (fun h => hp_type h = i) l)) | | done].
    + lia.
    + done.
    + by apply (hi_same _ _ _ _ I).
    + apply Forall_forall. intros h [_ Hin]%list_elem_of_filter. by apply (proj1 (Forall_forall _ _) K).
    + rewrite TOTAL_eq in *. lia.
    + intros c s' [-> ->]. rewrite <- Hnext. apply IH; lia.
Qed.

Lemma wp_checksubpages s l big B E :
  heap_inv s l big B -> spinlock_held s = true -> wp checksubpages (fun _ s' => s' = s) E s.
Proof.
  intros I Hh. unfold checksubpages. wp_steps. apply wp_kassert; [done|]. wp_steps.
  assert (K : Forall (fun h => 0 <= hp_type h < NSIZES) l).
  { eapply Forall_impl; [apply (hi_pages _ _ _ _ I)|]. by intros h []. }
  pose proof (wp_check_sizes s l big B (fun _ _ => False) I Hh (Z.to_nat NSIZES) 0 ltac:(done) ltac:(done)) as Hc.
  rewrite count_below_0 in Hc by done. eapply wp_use; [exact Hc|]. intros c s' [-> ->]. wp_steps.
  pose proof (refs_bound _ _ _ (hi_roots _ _ _ _ I) (hi_refs _ _ _ _ I)) as Htot. rewrite length_fmap in Htot.
  eapply wp_mono; [apply (wp_check_list next_all s (fun _ _ => False) LIST_FUEL l) | | done].
  - by eapply heap_bound.
  - done.
  - apply I.
  - apply I.
  - rewrite TOTAL_eq in *. lia.
  - intros c s' [-> ->]. apply wp_kassert; [apply Z.eqb_eq; lia | done].
Qed.

(** ** Writes of clients *)

(** A word inside a block in use is not the first word of a free block. *)
Lemma live_write_free s l big B a n x h b :
  heap_inv s l big B -> is_live l big a n -> a <= x < a + n -> h ∈ l -> b ∈ hp_free h -> b <> x.
Proof.
  intros I Ha Hx Hh Hb ->. pose proof (proj1 (Forall_forall _ _) (hi_pages _ _ _ _ I) h Hh) as K.
  pose proof (proj1 (Forall_forall _ _) (hk_blocks _ _ _ K) x Hb) as Hbb.
  destruct Ha as [(h2 & Hh2 & Ha & Hn & ->) | (k & Hk & ->)].
  - apply list_elem_of_split in Hh2 as (l1 & l2 & ->).
    destruct (free_blocks_outside s l1 l2 h2 big B a I Ha Hn h x Hh Hb); lia.
  - destruct (hi_owned _ _ _ _ I h Hh) as [HB Hbig].
    assert (HBa : B !! a = Some k) by (by eapply lookup_weaken, (hi_big _ _ _ _ I)).
    destruct (pages_apart _ _ _ _ (hi_rep _ _ _ _ I) HBa) as [_ F].
    assert (HB' : delete a B !! hp_page h = Some 1) by (rewrite lookup_delete_ne; [done | congruence]).
    destruct Hbb as [Hbb _]. destruct (fresh_apart _ _ _ F _ _ HB'); unfold PAGE_SIZE in *; lia.
Qed.

Lemma heap_rep_write s live a n x v :
  heap_rep s live -> live !! a = Some n -> a <= x < a + n -> heap_rep (set_kmem (<[x := v]> (kmem s)) s) live.
Proof.
  intros (Hh & l & big & B & I & Hl) Ha%Hl Hx. split; [done|]. exists l, big, B. split; [|done].
  pose proof I as []. split; try done. apply Forall_forall. intros h Hin.
  eapply hpage_ok_ext; [done| |by apply (proj1 (Forall_forall _ _) hi_pages)].
  intros b Hb. cbn. apply lookup_insert_ne. intros ->. by eapply (live_write_free s l big B a n).
Qed.

(** ** Boot *)

Lemma heap_rep_initial p B : pages_rep p B -> heap_rep (kheap_initial p) ∅.
Proof.
  intros HB. split; [done|]. exists [], ∅, B. split.
  2:{ intros a n. rewrite lookup_empty. split; [done|].
      intros [(h & Hh & _) | (k & Hk & _)]; [by apply not_elem_of_nil in Hh | by rewrite lookup_empty in Hk]. }
  set (r0 := Kheap_root 0 (replicate (Z.to_nat INUSE_WORDS) 0) 0).
  assert (Hr : forall i r, zlookup (kheaproots (kheap_initial p)) i = Some r -> r = r0).
  { intros i r Hi. pose proof (zlookup_lt _ _ _ Hi) as Hlt. cbn [kheaproots kheap_initial] in *.
    rewrite length_replicate in Hlt. rewrite zlookup_replicate in Hi by done. by injection Hi as <-. }
  assert (W0 : root_wf r0) by (split; [done | by repeat constructor | by vm_compute]).
  split; try done; try (by constructor).
  - intros t b Hb. pose proof (zlookup_lt _ _ _ Hb) as Hlt. cbn [sizebases kheap_initial] in *.
    rewrite length_replicate in Hlt. rewrite zlookup_replicate in Hb by done. by injection Hb as <-.
  - split; try done.
    + intros i r Hi. by rewrite (Hr i r Hi).
    + intros i r Hi. by rewrite (Hr i r Hi).
    + intros i i' r r' Hi. by rewrite (Hr i r Hi).
    + intros i i' r r' Hi. by rewrite (Hr i r Hi).
    + intros i r Hi. rewrite (Hr i r Hi). by left.
    + intros q. split; [by intros ?%not_elem_of_nil|]. intros (i & r & Hi & Hq). rewrite (Hr i r Hi) in Hq. by apply not_elem_of_nil in Hq.
  - intros h Hh. by apply not_elem_of_nil in Hh.
  - intros i r Hi. by rewrite (Hr i r Hi).
  - apply map_empty_subseteq.
Qed.

(** ** Clients

    The states of the heap and the blocks its clients hold, with the sizes
    they asked for: clients allocate, give back what they hold, and store
    words inside the blocks they hold. *)

Inductive kheap_reach (p0 : P) : kheap P -> gmap Z Z -> Prop :=
| kr_boot : kheap_reach p0 (kheap_initial p0) ∅
| kr_malloc s held sz p s' :
    kheap_reach p0 s held -> 0 <= sz < 2 ^ 31 - PAGE_SIZE -> kmalloc sz s = Ret p s' ->
    kheap_reach p0 s' (if p =? 0 then held else <[p := sz]> held)
| kr_free s held a n s' :
    kheap_reach p0 s held -> held !! a = Some n -> kfree a s = Ret tt s' -> kheap_reach p0 s' (delete a held)
| kr_free_null s held s' : kheap_reach p0 s held -> kfree 0 s = Ret tt s' -> kheap_reach p0 s' held
| kr_store s held a n x v :
    kheap_reach p0 s held -> held !! a = Some n -> a <= x < a + n ->
    kheap_reach p0 (set_kmem (<[x := v]> (kmem s)) s) held.

(** Every block a client holds is in use and large enough. *)
Definition covers live (held : gmap Z Z) : Prop := map_relation (fun _ m n => n <= m) (fun _ _ => False) (fun _ _ => False) live held.

Lemma covers_spec live held : covers live held <->
  forall a, match live !! a, held !! a with Some m, Some n => n <= m | None, None => True | _, _ => False end.
Proof.
  unfold covers, map_relation. split; intros H a; specialize (H a); destruct (live !! a), (held !! a); done.
Qed.

Lemma covers_insert live held a n m : covers live held -> n <= m -> covers (<[a := m]> live) (<[a := n]> held).
Proof. rewrite !covers_spec. intros H Hle b. rewrite !lookup_insert. case_decide; [done | apply H]. Qed.

Lemma covers_delete live held a : covers live held -> covers (delete a live) (delete a held).
Proof. rewrite !covers_spec. intros H b. rewrite !lookup_delete. case_decide; [done | apply H]. Qed.

Lemma covers_lookup live held a n : covers live held -> held !! a = Some n -> exists m, live !! a = Some m /\ n <= m.
Proof. rewrite covers_spec. intros H Ha. specialize (H a). rewrite Ha in H. destruct (live !! a) as [m|]; [eauto | done]. Qed.

Lemma reach_rep p0 B0 s held :
  pages_rep p0 B0 -> kheap_reach p0 s held -> exists live, heap_rep s live /\ covers live held.
Proof.
  intros HB. induction 1 as [|s held sz p s' _ (live & R & C) Hz Hm | s held a n s' _ (live & R & C) Ha Hm
    | s held s' _ (live & R & C) Hm | s held a n x v _ (live & R & C) Ha Hx].
  - exists ∅. split; [by eapply heap_rep_initial|]. apply covers_spec. intros a. by rewrite lookup_empty.
  - pose proof (wp_run _ _ _ _ _ _ (wp_kmalloc s live sz (fun _ _ => False) R Hz) Hm) as [_ [[-> ?] | (n & Hp & Hn & _ & _ & ? & _)]].
    + by exists live.
    + destruct (Z.eqb_spec p 0); [done|]. exists (<[p := n]> live). split; [done|]. by apply covers_insert.
  - destruct (covers_lookup _ _ _ _ C Ha) as (m & Hl & _).
    pose proof (wp_run _ _ _ _ _ _ (wp_kfree s live a m (fun _ _ => False) R Hl) Hm) as [? _].
    exists (delete a live). split; [done|]. by apply covers_delete.
  - injection Hm as <-. by exists live.
  - destruct (covers_lookup _ _ _ _ C Ha) as (m & Hl & Hle). exists live. split; [|done].
    eapply heap_rep_write; [done..|lia].
Qed.

(** ** Theorems *)

(** C7: [kmalloc] of any size below 2 GB, in any state that represents the
    map [live] of blocks in use, returns without a panic and without running
    out of the fuel of the loops: it returns [NULL] and leaves the map, or a
    block that is aligned, at least as large as asked for, not in use and
    apart from every block in use, and the map grows by exactly that block;
    either way the contents of the blocks in use are the same. *)
Theorem kmalloc_refines s live sz :
  heap_rep s live -> 0 <= sz < 2 ^ 31 - PAGE_SIZE ->
  exists p s', kmalloc sz s = Ret p s' /\ kmalloc_spec s live sz p s'.
Proof. intros R Hz. by apply wp_ret_inv, wp_kmalloc. Qed.

(** C8: [kfree] of the address of a block in use, small or of whole pages,
    returns without a panic, the map of blocks in use loses exactly that
    block, and the contents of the others are the same. *)
Theorem kfree_refines s live a n :
  heap_rep s live -> live !! a = Some n -> exists s', kfree a s = Ret tt s' /\ kfree_spec s live a s'.
Proof.
  intros R Ha. destruct (wp_ret_inv _ _ _ (wp_kfree s live a n (fun _ _ => False) R Ha)) as ([] & s' & ? & ?). eauto.
Qed.

(** C9: However clients allocate, free what they hold and write inside what
    they hold, starting from boot: the blocks held never overlap, every
    further [kmalloc] below 2 GB and every [kfree] of a block held returns
    normally, and the consistency checks of the [SLOWER] configuration
    ([checksubpages]) all pass. *)
Theorem kheap_reachable_ok p0 B0 s held :
  pages_rep p0 B0 -> kheap_reach p0 s held ->
  (forall a n b m, held !! a = Some n -> held !! b = Some m -> a <> b -> blocks_apart a n b m) /\
  (forall sz, 0 <= sz < 2 ^ 31 - PAGE_SIZE -> exists p s', kmalloc sz s = Ret p s') /\
  (forall a n, held !! a = Some n -> exists s', kfree a s = Ret tt s') /\
  checksubpages (set_held true s) = Ret tt (set_held true s).
Proof.
  intros HB Hr. destruct (reach_rep p0 B0 s held HB Hr) as (live & R & C). pose proof R as (Hh & l & big & B & I & Hl).
  split_and!.
  - intros a n b m Ha Hb Hne. destruct (covers_lookup _ _ _ _ C Ha) as (n' & Ha' & Hn), (covers_lookup _ _ _ _ C Hb) as (m' & Hb' & Hm).
    destruct (live_apart _ _ _ _ _ _ _ _ I (proj1 (Hl _ _) Ha') (proj1 (Hl _ _) Hb') Hne); [left | right]; lia.
  - intros sz Hz. destruct (wp_ret_inv _ _ _ (wp_kmalloc s live sz (fun _ _ => False) R Hz)) as (p & s' & ? & _). eauto.
  - intros a n Ha. destruct (covers_lookup _ _ _ _ C Ha) as (m & Hm & _).
    destruct (wp_ret_inv _ _ _ (wp_kfree s live a m (fun _ _ => False) R Hm)) as ([] & s' & ? & _). eauto.
  - destruct (wp_ret_inv _ _ _ (wp_checksubpages (set_held true s) l big B (fun _ _ => False) (heap_inv_held _ _ _ _ _ I) eq_refl))
      as ([] & s' & E & ->). done.
Qed.

End spec.

(** ** Requests that wrap around *)

(** A request within 4095 bytes of the end of the 32-bit range is
    rounded up to no pages at all: [kmalloc] succeeds, changes nothing, and
    hands out the address that the next request for a page gets as well. *)
Theorem kmalloc_huge_aliases (s : kheap ram) sz :
  ram_wf (kpages s) -> spinlock_held s = false -> firstpaddr (kpages s) + PAGE_SIZE <= lastpaddr (kpages s) ->
  2 ^ 32 - PAGE_SIZE < sz < 2 ^ 32 ->
  exists p s', kmalloc sz s = Ret p s /\ p <> 0 /\ kmalloc PAGE_SIZE s = Ret p s'.
Proof.
  intros W Hh Hroom Hz. pose proof W as [A1 A2 A3 A4]. unfold PAGE_SIZE in *.
  exists (firstpaddr (kpages s) + MIPS_KSEG0), (set_kpages (Ram (firstpaddr (kpages s) + 4096) (lastpaddr (kpages s))) s).
  assert (Ep : PADDR_TO_KVADDR (firstpaddr (kpages s)) = firstpaddr (kpages s) + MIPS_KSEG0).
  { apply wrap_small. unfold MIPS_KSEG0. lia. }
  assert (Ea : ((firstpaddr (kpages s) + MIPS_KSEG0) mod 4096 =? 0) = true).
  { apply Z.eqb_eq. unfold MIPS_KSEG0. Z.to_euclidean_division_equations. lia. }
  split_and!; [|unfold MIPS_KSEG0; lia|]; unfold kmalloc, LARGEST_SUBPAGE_SIZE, PAGE_SIZE.
  - destruct (Z.leb_spec 2048 sz); [|lia].
    replace (u32 (sz + 4096 - 1) / 4096) with 0.
    2:{ unfold wrap. rewrite <- (Z.mod_unique_pos (sz + 4096 - 1) (2 ^ 32) 1 (sz + 4096 - 1 - 2 ^ 32)) by lia.
        symmetry. apply Z.div_small. lia. }
    unfold get_kpages, bind, get, zoom. rewrite Hh. cbn [alloc_kpages dumbvm_pages].
    unfold dumbvm_alloc_kpages, dumbvm_can_sleep, getppages, ram_stealmem, bind, KASSERT, get, put, ret. cbn [Z.eqb].
    replace (u32 (0 * PAGE_SIZE)) with 0 by done. rewrite Z.add_0_r, (wrap_small 32 (firstpaddr (kpages s))) by lia.
    destruct (Z.ltb_spec (lastpaddr (kpages s)) (firstpaddr (kpages s))); [lia|].
    destruct (Z.eqb_spec (firstpaddr (kpages s)) 0); [lia|]. rewrite Ep.
    destruct (Z.eqb_spec (firstpaddr (kpages s) + MIPS_KSEG0) 0); [unfold MIPS_KSEG0 in *; lia|]. rewrite Ea.
    by destruct s as [? ? ? ? ? ? []].
  - change (2048 <=? 4096) with true. cbv iota. change (u32 (4096 + 4096 - 1) / 4096) with 1.
    unfold get_kpages, bind, get, zoom. rewrite Hh. cbn [alloc_kpages dumbvm_pages].
    unfold dumbvm_alloc_kpages, dumbvm_can_sleep, getppages, bind, KASSERT, ret. cbn [Z.eqb]. cbv beta iota.
    rewrite (ram_stealmem_run (kpages s) 1) by (done || lia). unfold PAGE_SIZE. rewrite Z.mul_1_l.
    destruct (Z.ltb_spec (lastpaddr (kpages s)) (firstpaddr (kpages s) + 4096)); [lia|].
    destruct (Z.eqb_spec (firstpaddr (kpages s)) 0); [lia|]. rewrite Ep.
    destruct (Z.eqb_spec (firstpaddr (kpages s) + MIPS_KSEG0) 0); [unfold MIPS_KSEG0 in *; lia|]. by rewrite Ea.
Qed.

(** ** Witnesses: the heap of a machine with 4 MB of memory *)

Definition demo_ram : ram := ram_bootstrap (4 * 1024 * 1024) (MIPS_KSEG0 + 0x40000).
Definition demo_heap : kheap ram := kheap_initial demo_ram.
Definition final_heap {A} (o : outcome (kheap ram) A) : kheap ram := default demo_heap (final o).
Definition demo_heap1 : kheap ram := Eval vm_compute in final_heap (kmalloc 100 demo_heap).

Lemma demo_ram_rep : pages_rep demo_ram ∅.
Proof. apply ram_bootstrap_rep; done. Qed.

Lemma demo_heap_rep : heap_rep demo_heap ∅.
Proof. eapply heap_rep_initial, demo_ram_rep. Qed.

Lemma demo_alloc : kmalloc 100 demo_heap = Ret (MIPS_KSEG0 + 0x40000 + 31 * 128) demo_heap1.
Proof. vm_compute. reflexivity. Qed.

Lemma kmalloc_refines_witness :
  exists p s', kmalloc 100 demo_heap = Ret p s' /\ kmalloc_spec demo_heap ∅ 100 p s'.
Proof. apply kmalloc_refines; [exact demo_heap_rep | unfold PAGE_SIZE; lia]. Defined.

(** The heap that holds one block of 100 bytes. *)
Lemma demo_heap1_rep : exists n, heap_rep demo_heap1 (<[MIPS_KSEG0 + 0x40000 + 31 * 128 := n]> ∅).
Proof.
  pose proof (wp_run _ _ _ _ _ _ (wp_kmalloc demo_heap ∅ 100 (fun _ _ => False) demo_heap_rep ltac:(unfold PAGE_SIZE; lia)) demo_alloc)
    as [_ [[? _] | (n & _ & _ & _ & _ & R & _)]]; [done | by exists n].
Qed.

Lemma kfree_refines_witness : exists live s',
  kfree (MIPS_KSEG0 + 0x40000 + 31 * 128) demo_heap1 = Ret tt s' /\ kfree_spec demo_heap1 live (MIPS_KSEG0 + 0x40000 + 31 * 128) s'.
Proof.
  destruct demo_heap1_rep as [n R]. eexists.
  apply (kfree_refines demo_heap1 _ _ n R). apply lookup_insert_eq.
Defined.

Lemma kheap_reachable_ok_witness : exists s',
  kfree (MIPS_KSEG0 + 0x40000 + 31 * 128) demo_heap1 = Ret tt s'.
Proof.
  refine (proj1 (proj2 (proj2 (kheap_reachable_ok demo_ram ∅ demo_heap1 (<[MIPS_KSEG0 + 0x40000 + 31 * 128 := 100]> ∅) demo_ram_rep _))) _ 100 _).
  - exact (kr_malloc demo_ram demo_heap ∅ 100 _ _ (kr_boot demo_ram) ltac:(unfold PAGE_SIZE; lia) demo_alloc).
  - apply lookup_insert_eq.
Defined.

Lemma kmalloc_huge_aliases_witness : exists p s',
  kmalloc (2 ^ 32 - 1) demo_heap = Ret p demo_heap /\ p <> 0 /\ kmalloc PAGE_SIZE demo_heap = Ret p s'.
Proof.
  apply kmalloc_huge_aliases; [apply (rr_wf _ _ demo_ram_rep) | done | vm_compute; congruence | unfold PAGE_SIZE; lia].
Defined.
