(* ===== verification/Threadlist.v ===== *)
(** * Thread lists, [kern/thread/threadlist.c]

    The run queues, wait channels and zombie lists of the kernel are doubly
    linked lists whose links live inside the threads, between two sentinel
    nodes inside the list.  The model keeps the nodes in a store indexed by
    the place a node is at: the head or the tail of a list, or a thread.  A
    link that is [NULL] is [None]; following it is a panic of the model.

    [tl_rep] relates the store to the abstract value of the lists (a map from
    lists to the threads on them, in order), and every operation is shown to
    do on the store what its list counterpart does on that value. *)

From S2P Require Import Prelude.

(** [DEBUGASSERT] is compiled out unless [lib.h] is edited; every theorem is
    about both settings. *)
Class DebugAsserts := debug_asserts : bool.

Definition DEBUGASSERT `{DebugAsserts} {S} (b : bool) : M S unit := if debug_asserts then KASSERT b else ret tt.

(** ** The store *)

Inductive nodeptr := tl_head (tl : Z) | tl_tail (tl : Z) | t_listnode (t : Z).

#[export] Instance nodeptr_eq_dec : EqDecision nodeptr.
Proof. solve_decision. Defined.

#[export] Instance nodeptr_countable : Countable nodeptr.
Proof.
  refine (inj_countable' (fun p => match p with tl_head z => (0, z) | tl_tail z => (1, z) | t_listnode z => (2, z) end)
    (fun q : Z * Z => match q with (0, z) => tl_head z | (1, z) => tl_tail z | (_, z) => t_listnode z end) _).
  by intros [].
Defined.

Record threadlistnode := Node { tln_prev : option nodeptr; tln_next : option nodeptr; tln_self : option Z }.

#[export] Instance threadlistnode_eq_dec : EqDecision threadlistnode.
Proof. solve_decision. Defined.

Record tlstore := TLStore { tl_nodes : gmap nodeptr threadlistnode; tl_counts : gmap Z Z }.

Definition load_node (p : nodeptr) : M tlstore threadlistnode := h <- get ;; oob (tl_nodes h !! p).
Definition store_node (p : nodeptr) (nd : threadlistnode) : M tlstore unit :=
  modify (fun h => TLStore (<[p := nd]> (tl_nodes h)) (tl_counts h)).

Definition set_prev (p : nodeptr) (v : option nodeptr) : M tlstore unit :=
  nd <- load_node p ;; store_node p (Node v (tln_next nd) (tln_self nd)).
Definition set_next (p : nodeptr) (v : option nodeptr) : M tlstore unit :=
  nd <- load_node p ;; store_node p (Node (tln_prev nd) v (tln_self nd)).

Definition load_count (tl : Z) : M tlstore Z := h <- get ;; oob (tl_counts h !! tl).
Definition store_count (tl n : Z) : M tlstore unit :=
  modify (fun h => TLStore (tl_nodes h) (<[tl := n]> (tl_counts h))).

Definition is_null {A} (p : option A) : bool := match p with None => true | Some _ => false end.

(** ** The operations *)

Section operations.
Context `{DebugAsserts}.

Definition threadlistnode_init (t : Z) : M tlstore unit := store_node (t_listnode t) (Node None None (Some t)).

Definition threadlistnode_cleanup (t : Z) : M tlstore unit :=
  nd <- load_node (t_listnode t) ;;
  KASSERT (is_null (tln_next nd)) ;;
  KASSERT (is_null (tln_prev nd)) ;;
  KASSERT (negb (is_null (tln_self nd))).

Definition threadlist_init (tl : Z) : M tlstore unit :=
  store_node (tl_head tl) (Node None (Some (tl_tail tl)) None) ;;
  store_node (tl_tail tl) (Node (Some (tl_head tl)) None None) ;;
  store_count tl 0.

Definition threadlist_isempty (tl : Z) : M tlstore bool := c <- load_count tl ;; ret (c =? 0).

Definition threadlist_cleanup (tl : Z) : M tlstore unit :=
  hd <- load_node (tl_head tl) ;;
  ta <- load_node (tl_tail tl) ;;
  DEBUGASSERT (bool_decide (tln_next hd = Some (tl_tail tl))) ;;
  DEBUGASSERT (is_null (tln_prev hd)) ;;
  DEBUGASSERT (is_null (tln_next ta)) ;;
  DEBUGASSERT (bool_decide (tln_prev ta = Some (tl_head tl))) ;;
  DEBUGASSERT (is_null (tln_self hd)) ;;
  DEBUGASSERT (is_null (tln_self ta)) ;;
  e <- threadlist_isempty tl ;;
  KASSERT e ;;
  c <- load_count tl ;;
  KASSERT (c =? 0).

Definition threadlist_insertafternode (onlist : nodeptr) (t : Z) : M tlstore unit :=
  let addee := t_listnode t in
  nd <- load_node addee ;;
  DEBUGASSERT (is_null (tln_prev nd)) ;;
  DEBUGASSERT (is_null (tln_next nd)) ;;
  set_prev addee (Some onlist) ;;
  on <- load_node onlist ;;
  set_next addee (tln_next on) ;;
  nd <- load_node addee ;;
  p <- oob (tln_prev nd) ;;
  set_next p (Some addee) ;;
  nd <- load_node addee ;;
  n <- oob (tln_next nd) ;;
  set_prev n (Some addee).

Definition threadlist_insertbeforenode (t : Z) (onlist : nodeptr) : M tlstore unit :=
  let addee := t_listnode t in
  nd <- load_node addee ;;
  DEBUGASSERT (is_null (tln_prev nd)) ;;
  DEBUGASSERT (is_null (tln_next nd)) ;;
  on <- load_node onlist ;;
  set_prev addee (tln_prev on) ;;
  set_next addee (Some onlist) ;;
  nd <- load_node addee ;;
  p <- oob (tln_prev nd) ;;
  set_next p (Some addee) ;;
  nd <- load_node addee ;;
  n <- oob (tln_next nd) ;;
  set_prev n (Some addee).

Definition threadlist_removenode (tln : nodeptr) : M tlstore unit :=
  nd <- load_node tln ;;
  DEBUGASSERT (negb (is_null (tln_prev nd))) ;;
  DEBUGASSERT (negb (is_null (tln_next nd))) ;;
  p <- oob (tln_prev nd) ;;
  set_next p (tln_next nd) ;;
  nd <- load_node tln ;;
  n <- oob (tln_next nd) ;;
  set_prev n (tln_prev nd) ;;
  set_prev tln None ;;
  set_next tln None.

Definition count_up (tl : Z) : M tlstore unit := c <- load_count tl ;; store_count tl (u32 (c + 1)).
Definition count_down (tl : Z) : M tlstore unit :=
  c <- load_count tl ;; DEBUGASSERT (0 <? c) ;; store_count tl (u32 (c - 1)).

Definition threadlist_addhead (tl t : Z) : M tlstore unit := threadlist_insertafternode (tl_head tl) t ;; count_up tl.
Definition threadlist_addtail (tl t : Z) : M tlstore unit := threadlist_insertbeforenode t (tl_tail tl) ;; count_up tl.

(** [NULL] is [None]. *)
Definition threadlist_remhead (tl : Z) : M tlstore (option Z) :=
  hd <- load_node (tl_head tl) ;;
  tln <- oob (tln_next hd) ;;
  nd <- load_node tln ;;
  if is_null (tln_next nd) then ret None
  else
    threadlist_removenode tln ;;
    count_down tl ;;
    nd <- load_node tln ;;
    ret (tln_self nd).

Definition threadlist_remtail (tl : Z) : M tlstore (option Z) :=
  ta <- load_node (tl_tail tl) ;;
  tln <- oob (tln_prev ta) ;;
  nd <- load_node tln ;;
  if is_null (tln_prev nd) then ret None
  else
    threadlist_removenode tln ;;
    count_down tl ;;
    nd <- load_node tln ;;
    ret (tln_self nd).

Definition threadlist_insertafter (tl onlist addee : Z) : M tlstore unit :=
  threadlist_insertafternode (t_listnode onlist) addee ;; count_up tl.
Definition threadlist_insertbefore (tl addee onlist : Z) : M tlstore unit :=
  threadlist_insertbeforenode addee (t_listnode onlist) ;; count_up tl.
Definition threadlist_remove (tl t : Z) : M tlstore unit := threadlist_removenode (t_listnode t) ;; count_down tl.

End operations.

(** The two iteration macros of [threadlist.h], collecting the threads they
    visit; [fuel] bounds the walk. *)
Definition self_of (p : option nodeptr) : M tlstore (option Z) := p <- oob p ;; nd <- load_node p ;; ret (tln_self nd).

Fixpoint forall_from (fuel : nat) (link : threadlistnode -> option nodeptr) (itervar : option Z) : M tlstore (list Z) :=
  match fuel with
  | O => fun _ => OutOfFuel
  | S fuel' =>
      match itervar with
      | None => ret []
      | Some t =>
          nd <- load_node (t_listnode t) ;;
          next <- self_of (link nd) ;;
          ts <- forall_from fuel' link next ;;
          ret (t :: ts)
      end
  end.

Definition THREADLIST_FORALL (fuel : nat) (tl : Z) : M tlstore (list Z) :=
  hd <- load_node (tl_head tl) ;; first <- self_of (tln_next hd) ;; forall_from fuel tln_next first.
Definition THREADLIST_FORALL_REV (fuel : nat) (tl : Z) : M tlstore (list Z) :=
  ta <- load_node (tl_tail tl) ;; first <- self_of (tln_prev ta) ;; forall_from fuel tln_prev first.

(** ** Doubly linked segments

    [links N pr ps nx]: the nodes [ps] are linked one to the next in both
    directions; the first points back to [pr] and the last on to [nx]. *)

Definition node_self (p : nodeptr) : option Z := match p with t_listnode t => Some t | _ => None end.

Definition first_of (ps : list nodeptr) (nx : option nodeptr) : option nodeptr :=
  match ps with [] => nx | p :: _ => Some p end.

Fixpoint links (N : gmap nodeptr threadlistnode) (pr : option nodeptr) (ps : list nodeptr) (nx : option nodeptr) : Prop :=
  match ps with
  | [] => True
  | p :: ps' => N !! p = Some (Node pr (first_of ps' nx) (node_self p)) /\ links N (Some p) ps' nx
  end.

Definition last_of (pr : option nodeptr) (ps : list nodeptr) : option nodeptr :=
  match last ps with Some p => Some p | None => pr end.

Lemma links_app N pr ps qs nx :
  links N pr (ps ++ qs) nx <-> links N pr ps (first_of qs nx) /\ links N (last_of pr ps) qs nx.
Proof.
  revert pr. induction ps as [|p ps IH]; intros pr; cbn [app links]; [unfold last_of; cbn; tauto|].
  rewrite IH. replace (last_of pr (p :: ps)) with (last_of (Some p) ps).
  2:{ unfold last_of. rewrite (last_cons p). by destruct (last ps). }
  replace (first_of (ps ++ qs) nx) with (first_of ps (first_of qs nx)) by (by destruct ps). tauto.
Qed.

Lemma links_frame N N' pr ps nx : (forall p, p ∈ ps -> N' !! p = N !! p) -> links N pr ps nx -> links N' pr ps nx.
Proof.
  revert pr. induction ps as [|p ps IH]; intros pr Hf; cbn [links]; [done|]. intros [E L].
  rewrite Hf by (by left). split; [done|]. apply IH; [|done]. intros q Hq. apply Hf. by right.
Qed.

Lemma links_insert_frame N pr ps nx p nd : p ∉ ps -> links N pr ps nx -> links (<[p := nd]> N) pr ps nx.
Proof. intros Hp. apply links_frame. intros q Hq. apply lookup_insert_ne. by intros ->. Qed.

(** Redirecting the forward link of the last node. *)
Lemma links_set_next N pr ps p nx nx' :
  p ∉ ps -> links N pr (ps ++ [p]) nx ->
  links (<[p := Node (last_of pr ps) nx' (node_self p)]> N) pr (ps ++ [p]) nx'.
Proof.
  intros Hp. rewrite !links_app. cbn [links first_of]. intros [L [E _]].
  split_and!; [by apply links_insert_frame | by rewrite lookup_insert_eq | done].
Qed.

(** Redirecting the backward link of the first node. *)
Lemma links_set_prev N pr pr' p ps nx :
  p ∉ ps -> links N pr (p :: ps) nx ->
  links (<[p := Node pr' (first_of ps nx) (node_self p)]> N) pr' (p :: ps) nx.
Proof. cbn [links]. intros Hp [_ L]. split; [by rewrite lookup_insert_eq | by apply links_insert_frame]. Qed.

(** The nodes of a list. *)
Definition tl_ptrs (tl : Z) (l : list Z) : list nodeptr := tl_head tl :: (t_listnode <$> l) ++ [tl_tail tl].

Lemma tl_ptrs_NoDup tl l : NoDup l -> NoDup (tl_ptrs tl l).
Proof.
  intros Hl. unfold tl_ptrs. apply NoDup_cons. split.
  - intros [(? & ? & _)%list_elem_of_fmap|?%list_elem_of_singleton]%elem_of_app; done.
  - apply NoDup_app. split_and!; [by apply NoDup_fmap; [intros ?? [=]|]| |apply NoDup_singleton].
    intros p (? & -> & _)%list_elem_of_fmap ?%list_elem_of_singleton. done.
Qed.

Lemma tl_ptrs_thread tl l t : t_listnode t ∈ tl_ptrs tl l <-> t ∈ l.
Proof.
  unfold tl_ptrs. rewrite elem_of_cons, elem_of_app, list_elem_of_singleton, list_elem_of_fmap. naive_solver.
Qed.

(** ** What the store represents

    [T] are the threads whose node has been initialised and [L] the lists. *)

Record tl_rep (h : tlstore) (T : gset Z) (L : gmap Z (list Z)) : Prop := {
  rep_links : forall tl l, L !! tl = Some l -> links (tl_nodes h) None (tl_ptrs tl l) None;
  rep_count : forall tl l, L !! tl = Some l -> tl_counts h !! tl = Some (Z.of_nat (length l));
  rep_off : forall t, t ∈ T -> (forall tl l, L !! tl = Some l -> t ∉ l) ->
    tl_nodes h !! t_listnode t = Some (Node None None (Some t));
  rep_on : forall tl l t, L !! tl = Some l -> t ∈ l -> t ∈ T;
  rep_nodup : forall tl l, L !! tl = Some l -> NoDup l;
  rep_apart : forall tl l tl' l' t, L !! tl = Some l -> L !! tl' = Some l' -> t ∈ l -> t ∈ l' -> tl = tl';
  rep_size : Z.of_nat (size T) < 2 ^ 32
}.

(** No list holds the thread. *)
Definition off_lists (L : gmap Z (list Z)) (t : Z) : Prop := forall tl l, L !! tl = Some l -> t ∉ l.

(** ** Splicing a node in and out *)

Definition linked_in (N : gmap nodeptr threadlistnode) (p q : nodeptr) (np nq : threadlistnode) (t : Z) :=
  <[q := Node (Some (t_listnode t)) (tln_next nq) (tln_self nq)]>
    (<[p := Node (tln_prev np) (Some (t_listnode t)) (tln_self np)]>
      (<[t_listnode t := Node (Some p) (Some q) (Some t)]> N)).

Definition linked_out (N : gmap nodeptr threadlistnode) (p q : nodeptr) (np nq : threadlistnode) (t : Z) :=
  <[t_listnode t := Node None None (Some t)]>
    (<[q := Node (Some p) (tln_next nq) (tln_self nq)]>
      (<[p := Node (tln_prev np) (Some q) (tln_self np)]> N)).

Section splicing.
Context `{DebugAsserts}.

Lemma wp_debugassert {S} (b : bool) (Q : unit -> S -> Prop) E s : b = true -> Q tt s -> wp (DEBUGASSERT b) Q E s.
Proof. intros -> HQ. unfold DEBUGASSERT. by destruct debug_asserts. Qed.

Lemma wp_load_node p nd (Q : threadlistnode -> tlstore -> Prop) E h :
  tl_nodes h !! p = Some nd -> Q nd h -> wp (load_node p) Q E h.
Proof. intros Hp HQ. unfold load_node. wp_steps. by eapply wp_oob. Qed.

Lemma wp_set_prev p nd v (Q : unit -> tlstore -> Prop) E h :
  tl_nodes h !! p = Some nd ->
  Q tt (TLStore (<[p := Node v (tln_next nd) (tln_self nd)]> (tl_nodes h)) (tl_counts h)) -> wp (set_prev p v) Q E h.
Proof. intros Hp HQ. unfold set_prev, store_node. wp_steps. eapply wp_load_node; [done|]. by wp_steps. Qed.

Lemma wp_set_next p nd v (Q : unit -> tlstore -> Prop) E h :
  tl_nodes h !! p = Some nd ->
  Q tt (TLStore (<[p := Node (tln_prev nd) v (tln_self nd)]> (tl_nodes h)) (tl_counts h)) -> wp (set_next p v) Q E h.
Proof. intros Hp HQ. unfold set_next, store_node. wp_steps. eapply wp_load_node; [done|]. by wp_steps. Qed.

(** Look a node up in a store that has been written to. *)
Ltac node_lookup := cbn [tl_nodes tl_counts tln_prev tln_next tln_self]; rewrite ?lookup_insert_eq; 
  repeat (rewrite lookup_insert_ne by congruence); rewrite ?lookup_insert_eq; done.

(** One statement of the list code. *)
Ltac node_step := cbn [tl_nodes tl_counts tln_prev tln_next tln_self]; lazymatch goal with
  | |- wp (bind _ _) _ _ _ => apply wp_bind
  | |- wp (DEBUGASSERT _) _ _ _ => apply wp_debugassert; [done|]
  | |- wp (load_node _) _ _ _ => eapply wp_load_node; [node_lookup|]
  | |- wp (set_prev _ _) _ _ _ => eapply wp_set_prev; [node_lookup|]
  | |- wp (set_next _ _) _ _ _ => eapply wp_set_next; [node_lookup|]
  | |- wp (oob _) _ _ _ => eapply wp_oob; [done|]
  end.

Lemma wp_insertafternode p q np nq t (Q : unit -> tlstore -> Prop) E h :
  tl_nodes h !! p = Some np -> tl_nodes h !! q = Some nq -> tln_next np = Some q ->
  tl_nodes h !! t_listnode t = Some (Node None None (Some t)) -> p <> q -> p <> t_listnode t -> q <> t_listnode t ->
  Q tt (TLStore (linked_in (tl_nodes h) p q np nq t) (tl_counts h)) ->
  wp (threadlist_insertafternode p t) Q E h.
Proof.
  intros Hp Hq Hn Ht H1 H2 H3 HQ. unfold threadlist_insertafternode. cbv zeta. repeat node_step.
  rewrite !Hn. cbn [tl_nodes tl_counts tln_prev tln_next tln_self]. repeat node_step.
  cbn [tl_nodes tl_counts tln_prev tln_next tln_self] in *. by rewrite insert_insert_eq.
Qed.

Lemma wp_insertbeforenode p q np nq t (Q : unit -> tlstore -> Prop) E h :
  tl_nodes h !! p = Some np -> tl_nodes h !! q = Some nq -> tln_prev nq = Some p ->
  tl_nodes h !! t_listnode t = Some (Node None None (Some t)) -> p <> q -> p <> t_listnode t -> q <> t_listnode t ->
  Q tt (TLStore (linked_in (tl_nodes h) p q np nq t) (tl_counts h)) ->
  wp (threadlist_insertbeforenode t q) Q E h.
Proof.
  intros Hp Hq Hn Ht H1 H2 H3 HQ. unfold threadlist_insertbeforenode. cbv zeta. repeat node_step.
  rewrite !Hn. cbn [tl_nodes tl_counts tln_prev tln_next tln_self]. repeat node_step.
  cbn [tl_nodes tl_counts tln_prev tln_next tln_self] in *. by rewrite insert_insert_eq.
Qed.

Lemma wp_removenode p q np nq t (Q : unit -> tlstore -> Prop) E h :
  tl_nodes h !! p = Some np -> tl_nodes h !! q = Some nq ->
  tl_nodes h !! t_listnode t = Some (Node (Some p) (Some q) (Some t)) -> p <> q -> p <> t_listnode t -> q <> t_listnode t ->
  Q tt (TLStore (linked_out (tl_nodes h) p q np nq t) (tl_counts h)) ->
  wp (threadlist_removenode (t_listnode t)) Q E h.
Proof.
  intros Hp Hq Ht H1 H2 H3 HQ. unfold threadlist_removenode. repeat node_step.
  cbn [tl_nodes tl_counts tln_prev tln_next tln_self] in *. by rewrite insert_insert_eq.
Qed.

End splicing.

Lemma NoDup_two {A} (a b : list A) p q : NoDup (a ++ p :: q :: b) -> p <> q /\ (p ∉ a) /\ (q ∉ a) /\ (p ∉ b) /\ (q ∉ b).
Proof.
  rewrite NoDup_app, !NoDup_cons. intros (_ & Ha & [Hp [Hq _]]).
  split_and!; intros H; [subst; by apply Hp; left | by eapply Ha; [exact H|left] | by eapply Ha; [exact H|right; left]
    | by apply Hp; right | done].
Qed.

Lemma links_two N pr a p q b nx :
  links N pr (a ++ p :: q :: b) nx ->
  N !! p = Some (Node (last_of pr a) (Some q) (node_self p)) /\ N !! q = Some (Node (Some p) (first_of b nx) (node_self q)).
Proof. rewrite links_app. cbn [links first_of]. tauto. Qed.

Lemma links_linked_in N pr a p q b nx np nq t :
  NoDup (a ++ p :: q :: b) -> t_listnode t ∉ a ++ p :: q :: b -> N !! p = Some np -> N !! q = Some nq ->
  links N pr (a ++ p :: q :: b) nx -> links (linked_in N p q np nq t) pr (a ++ p :: t_listnode t :: q :: b) nx.
Proof.
  intros ND Ht Hp Hq HL. destruct (NoDup_two _ _ _ _ ND) as (Hpq & Hpa & Hqa & Hpb & Hqb).
  destruct (links_two _ _ _ _ _ _ _ HL) as [Ep Eq]. rewrite Ep in Hp. rewrite Eq in Hq. simplify_eq.
  rewrite elem_of_app, !elem_of_cons in Ht. apply Decidable.not_or in Ht as [Hta Ht].
  apply Decidable.not_or in Ht as [Htp Ht]. apply Decidable.not_or in Ht as [Htq Htb].
  revert HL. rewrite !links_app. cbn [links first_of]. intros (La & _ & _ & Lb). unfold linked_in. cbn [tln_prev tln_next tln_self].
  split_and!.
  - by repeat apply links_insert_frame.
  - by rewrite lookup_insert_ne, lookup_insert_eq by done.
  - by rewrite !lookup_insert_ne, lookup_insert_eq by done.
  - by rewrite lookup_insert_eq.
  - by repeat apply links_insert_frame.
Qed.

Lemma links_linked_out N pr a p q b nx np nq t :
  NoDup (a ++ p :: t_listnode t :: q :: b) -> N !! p = Some np -> N !! q = Some nq ->
  links N pr (a ++ p :: t_listnode t :: q :: b) nx -> links (linked_out N p q np nq t) pr (a ++ p :: q :: b) nx.
Proof.
  intros ND Hp Hq HL. pose proof (links_two _ _ _ _ _ _ _ HL) as [Ep _].
  assert (Eq : N !! q = Some (Node (Some (t_listnode t)) (first_of b nx) (node_self q))).
  { revert HL. rewrite links_app. cbn [links first_of]. tauto. }
  rewrite Ep in Hp. rewrite Eq in Hq. simplify_eq.
  pose proof (NoDup_two _ _ _ _ ND) as (Hpt & Hpa & Hta & Hpb & Htb).
  rewrite not_elem_of_cons in Hpb, Htb. destruct Hpb as [Hpq Hpb], Htb as [Htq Htb].
  assert (Hq' : (q ∉ a) /\ (q ∉ b)).
  { split; intros H.
    - apply NoDup_app in ND as (_ & ND & _). apply (ND _ H). by right; right; left.
    - apply NoDup_app in ND as (_ & _ & ND). rewrite !NoDup_cons in ND. tauto. }
  destruct Hq' as [Hqa Hqb].
  revert HL. rewrite !links_app. cbn [links first_of]. intros (La & _ & _ & _ & Lb). unfold linked_out. cbn [tln_prev tln_next tln_self].
  split_and!.
  - by repeat apply links_insert_frame.
  - by rewrite !lookup_insert_ne, lookup_insert_eq by done.
  - by rewrite lookup_insert_ne, lookup_insert_eq by done.
  - by repeat apply links_insert_frame.
Qed.

Definition ptr_before (tl : Z) (l : list Z) : nodeptr :=
  match last l with Some t => t_listnode t | None => tl_head tl end.
Definition ptr_after (tl : Z) (l : list Z) : nodeptr :=
  match l with t :: _ => t_listnode t | [] => tl_tail tl end.

Lemma ptrs_split tl l1 l2 :
  exists a b, tl_ptrs tl (l1 ++ l2) = a ++ ptr_before tl l1 :: ptr_after tl l2 :: b /\
    forall t, tl_ptrs tl (l1 ++ t :: l2) = a ++ ptr_before tl l1 :: t_listnode t :: ptr_after tl l2 :: b.
Proof.
  assert (exists a, tl_head tl :: (t_listnode <$> l1) = a ++ [ptr_before tl l1]) as [a Ea].
  { destruct l1 as [|x l1 _] using rev_ind; [by exists []|]. exists (tl_head tl :: (t_listnode <$> l1)).
    unfold ptr_before. by rewrite last_snoc, fmap_app. }
  assert (exists b, (t_listnode <$> l2) ++ [tl_tail tl] = ptr_after tl l2 :: b) as [b Eb].
  { destruct l2; cbn; eauto. }
  assert (E : forall m, tl_ptrs tl (l1 ++ m ++ l2) = a ++ ptr_before tl l1 :: (t_listnode <$> m) ++ ptr_after tl l2 :: b).
  { intros m. unfold tl_ptrs. rewrite !fmap_app, <- !app_assoc, Eb, app_comm_cons, Ea, <- app_assoc. done. }
  exists a, b. split; [apply (E []) | intros t; apply (E [t])].
Qed.

Lemma ptr_before_in tl l1 l2 : ptr_before tl l1 ∈ tl_ptrs tl (l1 ++ l2).
Proof. destruct (ptrs_split tl l1 l2) as (a & b & -> & _). set_solver. Qed.

Lemma ptr_after_in tl l1 l2 : ptr_after tl l2 ∈ tl_ptrs tl (l1 ++ l2).
Proof. destruct (ptrs_split tl l1 l2) as (a & b & -> & _). set_solver. Qed.

(** Nodes of different lists are different nodes. *)
Lemma rep_ptrs_apart h T L tl l tl' l' p :
  tl_rep h T L -> L !! tl = Some l -> L !! tl' = Some l' -> p ∈ tl_ptrs tl l -> p ∈ tl_ptrs tl' l' -> tl = tl'.
Proof.
  intros R Hl Hl'. unfold tl_ptrs. rewrite !elem_of_cons, !elem_of_app, !list_elem_of_singleton, !list_elem_of_fmap.
  intros [->|[(t & -> & Ht)| ->]] [E|[(t' & E & Ht')|E]]; try done; try congruence.
  injection E as ->. by eapply (rep_apart _ _ _ R).
Qed.

Lemma rep_length h T L tl l : tl_rep h T L -> L !! tl = Some l -> Z.of_nat (length l) <= Z.of_nat (size T).
Proof.
  intros R Hl. apply Nat2Z.inj_le. rewrite <- (size_list_to_set (C := gset Z)) by (by eapply rep_nodup).
  apply subseteq_size. intros t Ht%elem_of_list_to_set. by eapply rep_on.
Qed.

Lemma rep_neighbours h T L tl l1 l2 :
  tl_rep h T L -> L !! tl = Some (l1 ++ l2) ->
  exists np nq, tl_nodes h !! ptr_before tl l1 = Some np /\ tl_nodes h !! ptr_after tl l2 = Some nq /\
    tln_next np = Some (ptr_after tl l2) /\ tln_prev nq = Some (ptr_before tl l1).
Proof.
  intros R Hl. destruct (ptrs_split tl l1 l2) as (a & b & E & _). pose proof (rep_links _ _ _ R _ _ Hl) as HL.
  rewrite E in HL. destruct (links_two _ _ _ _ _ _ _ HL) as [Ep Eq]. eauto 10.
Qed.

(** ** The abstract value after a node is spliced in or out *)

Lemma insert_elem_cases (L : gmap Z (list Z)) tl l tl' l' :
  <[tl := l]> L !! tl' = Some l' -> (tl' = tl /\ l' = l) \/ (tl' <> tl /\ L !! tl' = Some l').
Proof. intros [[-> ->]|[? ?]]%lookup_insert_Some; auto. Qed.

(** Splicing at a list leaves the nodes of the other lists alone. *)
Lemma links_other h T L tl l tl' l' N :
  tl_rep h T L -> L !! tl = Some l -> L !! tl' = Some l' -> tl' <> tl ->
  (forall p, p ∉ tl_ptrs tl l -> p ∈ tl_ptrs tl' l' -> N !! p = tl_nodes h !! p) -> links N None (tl_ptrs tl' l') None.
Proof.
  intros R Hl Hl' Hne Hf. eapply links_frame; [|by eapply rep_links]. intros p Hp. apply Hf; [|done].
  intros Hp'. apply Hne. by eapply rep_ptrs_apart.
Qed.

Lemma linked_in_lookup N p q np nq t r :
  r <> p -> r <> q -> r <> t_listnode t -> linked_in N p q np nq t !! r = N !! r.
Proof. intros. unfold linked_in. by rewrite !lookup_insert_ne by done. Qed.

Lemma linked_out_lookup N p q np nq t r :
  r <> p -> r <> q -> r <> t_listnode t -> linked_out N p q np nq t !! r = N !! r.
Proof. intros. unfold linked_out. by rewrite !lookup_insert_ne by done. Qed.

Lemma rep_linked_in h T L tl l1 l2 t np nq :
  tl_rep h T L -> L !! tl = Some (l1 ++ l2) -> t ∈ T -> off_lists L t ->
  tl_nodes h !! ptr_before tl l1 = Some np -> tl_nodes h !! ptr_after tl l2 = Some nq ->
  tl_rep (TLStore (linked_in (tl_nodes h) (ptr_before tl l1) (ptr_after tl l2) np nq t)
            (<[tl := Z.of_nat (length (l1 ++ l2)) + 1]> (tl_counts h))) T (<[tl := l1 ++ t :: l2]> L).
Proof.
  intros R Hl Ht Hoff Hp Hq. pose proof (rep_nodup _ _ _ R _ _ Hl) as ND. pose proof (Hoff _ _ Hl) as Htl.
  assert (Htp : t_listnode t ∉ tl_ptrs tl (l1 ++ l2)) by (by rewrite tl_ptrs_thread).
  assert (Helem : forall u, u ∈ l1 ++ t :: l2 <-> u = t \/ u ∈ l1 ++ l2) by set_solver.
  split; cbn [tl_nodes tl_counts].
  - intros tl' l' [[-> ->]|[Hne Hl']]%insert_elem_cases.
    + destruct (ptrs_split tl l1 l2) as (a & b & E & E1). rewrite E1. rewrite E in Htp.
      apply links_linked_in; try done; rewrite <- E; [by apply tl_ptrs_NoDup | by eapply rep_links].
    + eapply links_other; [done|exact Hl|exact Hl'|done|]. intros p Hp1 Hp2. apply linked_in_lookup; intros ->.
      * apply Hp1, ptr_before_in.
      * apply Hp1, ptr_after_in.
      * apply tl_ptrs_thread in Hp2. by eapply Hoff.
  - intros tl' l' [[-> ->]|[Hne Hl']]%insert_elem_cases.
    + rewrite lookup_insert_eq, !length_app. cbn [length]. f_equal. lia.
    + rewrite lookup_insert_ne by done. by eapply rep_count.
  - intros u Hu Hoff'. assert (Hul : u ∉ l1 ++ t :: l2) by (eapply Hoff'; apply lookup_insert_eq).
    rewrite Helem in Hul. rewrite linked_in_lookup.
    + apply (rep_off _ _ _ R); [done|]. intros tl' l' Hl' Hin. destruct (decide (tl' = tl)) as [->|Hne].
      * rewrite Hl in Hl'. simplify_eq. tauto.
      * apply (Hoff' tl' l'); [by rewrite lookup_insert_ne | done].
    + intros E. apply Hul. right. rewrite <- (tl_ptrs_thread tl), E. apply ptr_before_in.
    + intros E. apply Hul. right. rewrite <- (tl_ptrs_thread tl), E. apply ptr_after_in.
    + intros [= ->]. tauto.
  - intros tl' l' u [[-> ->]|[Hne Hl']]%insert_elem_cases; [rewrite Helem; intros [->|Hu]; [done|] | intros Hu]; by eapply rep_on.
  - intros tl' l' [[-> ->]|[Hne Hl']]%insert_elem_cases; [|by eapply rep_nodup].
    rewrite <- Permutation_middle. by apply NoDup_cons.
  - intros tl1 l1' tl2 l2' u [[-> ->]|[Hne1 Hl1]]%insert_elem_cases [[-> ->]|[Hne2 Hl2]]%insert_elem_cases; rewrite ?Helem; [done| | |].
    + intros [->|Hu] Hu2; [by destruct (Hoff _ _ Hl2) | by eapply (rep_apart _ _ _ R)].
    + intros Hu1 [->|Hu]; [by destruct (Hoff _ _ Hl1) | by eapply (rep_apart _ _ _ R)].
    + by eapply (rep_apart _ _ _ R).
  - apply (rep_size _ _ _ R).
Qed.

Lemma rep_linked_out h T L tl l1 l2 t np nq :
  tl_rep h T L -> L !! tl = Some (l1 ++ t :: l2) ->
  tl_nodes h !! ptr_before tl l1 = Some np -> tl_nodes h !! ptr_after tl l2 = Some nq ->
  tl_rep (TLStore (linked_out (tl_nodes h) (ptr_before tl l1) (ptr_after tl l2) np nq t)
            (<[tl := Z.of_nat (length (l1 ++ t :: l2)) - 1]> (tl_counts h))) T (<[tl := l1 ++ l2]> L).
Proof.
  intros R Hl Hp Hq. pose proof (rep_nodup _ _ _ R _ _ Hl) as ND. pose proof (tl_ptrs_NoDup tl _ ND) as ND'.
  assert (Hnot : t ∉ l1 ++ l2) by (rewrite <- Permutation_middle in ND; by apply NoDup_cons in ND as [? _]).
  assert (Helem : forall u, u ∈ l1 ++ t :: l2 <-> u = t \/ u ∈ l1 ++ l2) by set_solver.
  destruct (ptrs_split tl l1 l2) as (a & b & E & E1).
  assert (Hsub : forall p, p ∈ tl_ptrs tl (l1 ++ l2) -> p ∈ tl_ptrs tl (l1 ++ t :: l2)) by (rewrite E, E1; set_solver).
  split; cbn [tl_nodes tl_counts].
  - intros tl' l' [[-> ->]|[Hne Hl']]%insert_elem_cases.
    + rewrite E. rewrite E1 in ND'. apply links_linked_out; try done. rewrite <- E1. by eapply rep_links.
    + eapply links_other; [done|exact Hl|exact Hl'|done|]. intros p Hp1 Hp2. apply linked_out_lookup; intros ->.
      * apply Hp1, Hsub, ptr_before_in.
      * apply Hp1, Hsub, ptr_after_in.
      * apply Hp1, tl_ptrs_thread. set_solver.
  - intros tl' l' [[-> ->]|[Hne Hl']]%insert_elem_cases.
    + rewrite lookup_insert_eq, !length_app. cbn [length]. f_equal. lia.
    + rewrite lookup_insert_ne by done. by eapply rep_count.
  - intros u Hu Hoff'. assert (Hul : u ∉ l1 ++ l2) by (eapply Hoff'; apply lookup_insert_eq).
    destruct (decide (u = t)) as [->|Hut]; [unfold linked_out; by rewrite lookup_insert_eq|]. rewrite linked_out_lookup.
    + apply (rep_off _ _ _ R); [done|]. intros tl' l' Hl' Hin. destruct (decide (tl' = tl)) as [->|Hne].
      * rewrite Hl in Hl'. simplify_eq. apply Helem in Hin. tauto.
      * apply (Hoff' tl' l'); [by rewrite lookup_insert_ne | done].
    + intros Eb. apply Hul. rewrite <- (tl_ptrs_thread tl), Eb. apply ptr_before_in.
    + intros Eb. apply Hul. rewrite <- (tl_ptrs_thread tl), Eb. apply ptr_after_in.
    + by intros [= ->].
  - intros tl' l' u [[-> ->]|[Hne Hl']]%insert_elem_cases Hu; eapply rep_on; try done. apply Helem. by right.
  - intros tl' l' [[-> ->]|[Hne Hl']]%insert_elem_cases; [|by eapply rep_nodup].
    rewrite <- Permutation_middle in ND. by apply NoDup_cons in ND as [_ ?].
  - intros tl1 l1' tl2 l2' u [[-> ->]|[Hne1 Hl1]]%insert_elem_cases [[-> ->]|[Hne2 Hl2]]%insert_elem_cases; [done| | |]; intros;
      eapply (rep_apart _ _ _ R); try done; apply Helem; by right.
  - apply (rep_size _ _ _ R).
Qed.

(** ** The operations on the abstract value *)

Section specs.
Context `{DebugAsserts}.
Implicit Types (h : tlstore) (T : gset Z) (L : gmap Z (list Z)).

Lemma wp_load_count tl n (Q : Z -> tlstore -> Prop) E h : tl_counts h !! tl = Some n -> Q n h -> wp (load_count tl) Q E h.
Proof. intros Hn HQ. unfold load_count. wp_steps. by eapply wp_oob. Qed.

Lemma wp_isempty h T L tl l (Q : bool -> tlstore -> Prop) E :
  tl_rep h T L -> L !! tl = Some l -> Q (bool_decide (l = [])) h -> wp (threadlist_isempty tl) Q E h.
Proof.
  intros R Hl HQ. unfold threadlist_isempty. wp_steps. eapply wp_load_count; [by eapply rep_count|]. wp_steps.
  replace (_ =? 0) with (bool_decide (l = [])); [done|]. by destruct l.
Qed.

(** The neighbours of a gap are distinct nodes of the list. *)
Lemma gap_apart h T L tl l1 l2 :
  tl_rep h T L -> L !! tl = Some (l1 ++ l2) -> ptr_before tl l1 <> ptr_after tl l2.
Proof.
  intros R Hl. pose proof (tl_ptrs_NoDup tl _ (rep_nodup _ _ _ R _ _ Hl)) as ND.
  destruct (ptrs_split tl l1 l2) as (a & b & E & _). rewrite E in ND. by apply NoDup_two in ND as [? _].
Qed.

Lemma count_up_rep h T L tl l n N :
  tl_counts h !! tl = Some n -> tl_rep (TLStore N (<[tl := n + 1]> (tl_counts h))) T (<[tl := l]> L) ->
  Z.of_nat (length l) = n + 1 ->
  wp (count_up tl) (fun _ h' => tl_rep h' T (<[tl := l]> L)) (fun _ _ => False) (TLStore N (tl_counts h)).
Proof.
  intros Hn R Hl. unfold count_up. wp_steps. eapply wp_load_count; [exact Hn|]. unfold store_count. wp_steps. cbn.
  pose proof (rep_length _ _ _ tl l R (lookup_insert_eq _ _ _)). pose proof (rep_size _ _ _ R).
  by rewrite wrap_small by lia.
Qed.

Definition gap_spec h T L tl l1 l2 t (m : M tlstore unit) : Prop :=
  tl_rep h T L -> L !! tl = Some (l1 ++ l2) -> t ∈ T -> off_lists L t ->
  wp m (fun _ h' => tl_rep h' T (<[tl := l1 ++ t :: l2]> L)) (fun _ _ => False) h.

Lemma wp_add_gap h T L tl l1 l2 t m :
  (forall np nq (Q : unit -> tlstore -> Prop),
     tl_nodes h !! ptr_before tl l1 = Some np -> tl_nodes h !! ptr_after tl l2 = Some nq ->
     tln_next np = Some (ptr_after tl l2) -> tln_prev nq = Some (ptr_before tl l1) ->
     tl_nodes h !! t_listnode t = Some (Node None None (Some t)) ->
     ptr_before tl l1 <> ptr_after tl l2 -> ptr_before tl l1 <> t_listnode t -> ptr_after tl l2 <> t_listnode t ->
     Q tt (TLStore (linked_in (tl_nodes h) (ptr_before tl l1) (ptr_after tl l2) np nq t) (tl_counts h)) ->
     wp m Q (fun _ _ => False) h) ->
  gap_spec h T L tl l1 l2 t (m ;; count_up tl).
Proof.
  intros Hm R Hl Ht Hoff. destruct (rep_neighbours _ _ _ _ _ _ R Hl) as (np & nq & Hp & Hq & Hn & Hv).
  assert (Htp : t_listnode t ∉ tl_ptrs tl (l1 ++ l2)) by (rewrite tl_ptrs_thread; by eapply Hoff).
  apply wp_bind. apply (Hm np nq); try done.
  - by apply (rep_off _ _ _ R).
  - by eapply gap_apart.
  - intros E. apply Htp. rewrite <- E. apply ptr_before_in.
  - intros E. apply Htp. rewrite <- E. apply ptr_after_in.
  - eapply count_up_rep; [by eapply rep_count| |].
    + by apply rep_linked_in.
    + rewrite !length_app. cbn [length]. lia.
Qed.

Lemma insertafter_gap h T L tl l1 l2 t :
  gap_spec h T L tl l1 l2 t (threadlist_insertafternode (ptr_before tl l1) t ;; count_up tl).
Proof. apply wp_add_gap. intros np nq Q Hp Hq Hn Hv Ht H1 H2 H3 HQ. exact (wp_insertafternode _ _ np nq t Q _ h Hp Hq Hn Ht H1 H2 H3 HQ). Qed.

Lemma insertbefore_gap h T L tl l1 l2 t :
  gap_spec h T L tl l1 l2 t (threadlist_insertbeforenode t (ptr_after tl l2) ;; count_up tl).
Proof. apply wp_add_gap. intros np nq Q Hp Hq Hn Hv Ht H1 H2 H3 HQ. exact (wp_insertbeforenode _ _ np nq t Q _ h Hp Hq Hv Ht H1 H2 H3 HQ). Qed.

Lemma wp_addhead h T L tl l t :
  tl_rep h T L -> L !! tl = Some l -> t ∈ T -> off_lists L t ->
  wp (threadlist_addhead tl t) (fun _ h' => tl_rep h' T (<[tl := t :: l]> L)) (fun _ _ => False) h.
Proof. apply (insertafter_gap h T L tl [] l t). Qed.

Lemma wp_addtail h T L tl l t :
  tl_rep h T L -> L !! tl = Some l -> t ∈ T -> off_lists L t ->
  wp (threadlist_addtail tl t) (fun _ h' => tl_rep h' T (<[tl := l ++ [t]]> L)) (fun _ _ => False) h.
Proof. intros R Hl Ht Ho. refine (insertbefore_gap h T L tl l [] t R _ Ht Ho). by rewrite app_nil_r. Qed.

Lemma wp_insertafter h T L tl l1 l2 u t :
  tl_rep h T L -> L !! tl = Some (l1 ++ u :: l2) -> t ∈ T -> off_lists L t ->
  wp (threadlist_insertafter tl u t) (fun _ h' => tl_rep h' T (<[tl := l1 ++ u :: t :: l2]> L)) (fun _ _ => False) h.
Proof.
  intros R Hl. pose proof (insertafter_gap h T L tl (l1 ++ [u]) l2 t) as G. unfold gap_spec, ptr_before in G.
  rewrite last_snoc, <- !app_assoc in G. by apply G.
Qed.

Lemma wp_insertbefore h T L tl l1 l2 u t :
  tl_rep h T L -> L !! tl = Some (l1 ++ u :: l2) -> t ∈ T -> off_lists L t ->
  wp (threadlist_insertbefore tl t u) (fun _ h' => tl_rep h' T (<[tl := l1 ++ t :: u :: l2]> L)) (fun _ _ => False) h.
Proof. apply (insertbefore_gap h T L tl l1 (u :: l2) t). Qed.

Lemma rep_thread_node h T L tl l1 l2 t :
  tl_rep h T L -> L !! tl = Some (l1 ++ t :: l2) ->
  tl_nodes h !! t_listnode t = Some (Node (Some (ptr_before tl l1)) (Some (ptr_after tl l2)) (Some t)) /\
  ptr_before tl l1 <> ptr_after tl l2 /\ ptr_before tl l1 <> t_listnode t /\ ptr_after tl l2 <> t_listnode t /\
  exists np nq, tl_nodes h !! ptr_before tl l1 = Some np /\ tl_nodes h !! ptr_after tl l2 = Some nq.
Proof.
  intros R Hl. pose proof (rep_links _ _ _ R _ _ Hl) as HL. pose proof (tl_ptrs_NoDup tl _ (rep_nodup _ _ _ R _ _ Hl)) as ND.
  destruct (ptrs_split tl l1 l2) as (a & b & _ & E). rewrite E in HL, ND.
  revert HL. rewrite links_app. cbn [links first_of]. intros (_ & Ep & Et & Eq & _).
  apply NoDup_app in ND as (_ & _ & ND). rewrite !NoDup_cons, !not_elem_of_cons in ND. naive_solver.
Qed.

Lemma wp_unlink h T L tl l1 l2 t :
  tl_rep h T L -> L !! tl = Some (l1 ++ t :: l2) ->
  wp (threadlist_removenode (t_listnode t) ;; count_down tl)
    (fun _ h' => tl_rep h' T (<[tl := l1 ++ l2]> L) /\ tl_nodes h' !! t_listnode t = Some (Node None None (Some t)))
    (fun _ _ => False) h.
Proof.
  intros R Hl. destruct (rep_thread_node _ _ _ _ _ _ _ R Hl) as (Et & H1 & H2 & H3 & np & nq & Hp & Hq).
  apply wp_bind. eapply wp_removenode; [exact Hp|exact Hq|exact Et|done|done|done|]. unfold count_down. wp_steps.
  eapply wp_load_count; [exact (rep_count _ _ _ R _ _ Hl)|]. cbn [tl_counts].
  pose proof (rep_length _ _ _ _ _ R Hl) as Hlen. pose proof (rep_size _ _ _ R) as Hs.
  rewrite length_app in *. cbn [length] in *. apply wp_bind, wp_debugassert; [bsolve|].
  unfold store_count. wp_steps. cbn [tl_nodes tl_counts]. rewrite wrap_small by lia. split.
  - pose proof (rep_linked_out _ _ _ _ _ _ _ _ _ R Hl Hp Hq) as G. rewrite length_app in G. exact G.
  - unfold linked_out. by rewrite lookup_insert_eq.
Qed.

Lemma wp_remove h T L tl l1 l2 t :
  tl_rep h T L -> L !! tl = Some (l1 ++ t :: l2) ->
  wp (threadlist_remove tl t) (fun _ h' => tl_rep h' T (<[tl := l1 ++ l2]> L)) (fun _ _ => False) h.
Proof. intros R Hl. eapply wp_mono; [by eapply wp_unlink| |done]. by intros _ h' [? _]. Qed.

(** The node at an end of the list, where the list is not empty, is that of
    its first (last) thread. *)
Lemma wp_remhead h T L tl l :
  tl_rep h T L -> L !! tl = Some l ->
  wp (threadlist_remhead tl) (fun o h' => o = head l /\ tl_rep h' T (<[tl := tail l]> L)) (fun _ _ => False) h.
Proof.
  intros R Hl. pose proof (rep_links _ _ _ R _ _ Hl) as HL. unfold threadlist_remhead.
  destruct l as [|t l]; cbn in HL.
  - destruct HL as (E1 & E2 & _). wp_steps. eapply wp_load_node; [exact E1|]. apply wp_bind. eapply wp_oob; [done|].
    apply wp_bind. eapply wp_load_node; [exact E2|]. cbn. wp_steps. by rewrite insert_id.
  - destruct HL as (E1 & E2 & _). wp_steps. eapply wp_load_node; [exact E1|]. apply wp_bind. eapply wp_oob; [done|].
    apply wp_bind. eapply wp_load_node; [exact E2|]. cbn [tln_next].
    destruct (first_of ((t_listnode <$> l) ++ [tl_tail tl]) None) eqn:E; [|by destruct l]. cbn [is_null].
    pose proof (wp_unlink h T L tl [] l t R Hl) as U. unfold wp, bind in U |- *.
    destruct (threadlist_removenode _ h) as [[] h1| | |]; try done.
    destruct (count_down tl h1) as [[] h2| | |]; try done. destruct U as [R2 E3].
    unfold load_node, bind, get. by rewrite E3.
Qed.

Lemma wp_remtail h T L tl l :
  tl_rep h T L -> L !! tl = Some l ->
  wp (threadlist_remtail tl)
    (fun o h' => o = last l /\ tl_rep h' T (<[tl := match o with Some _ => removelast l | None => l end]> L)) (fun _ _ => False) h.
Proof.
  intros R Hl. unfold threadlist_remtail. destruct l as [|t l _] using rev_ind.
  - pose proof (rep_links _ _ _ R _ _ Hl) as (E1 & E2 & _). wp_steps. eapply wp_load_node; [exact E2|].
    apply wp_bind. eapply wp_oob; [done|]. apply wp_bind. eapply wp_load_node; [exact E1|]. cbn. wp_steps. by rewrite insert_id.
  - pose proof (rep_neighbours h T L tl (l ++ [t]) [] R) as Nb. rewrite app_nil_r in Nb.
    destruct (Nb Hl) as (np & nq & Hp & Hq & _ & Hv). unfold ptr_before in Hp, Hv. rewrite last_snoc in Hp, Hv.
    destruct (rep_thread_node _ _ _ _ _ _ _ R Hl) as (Et & _).
    wp_steps. eapply wp_load_node; [exact Hq|]. rewrite Hv. apply wp_bind. eapply wp_oob; [done|].
    apply wp_bind. eapply wp_load_node; [exact Et|]. cbn [tln_prev is_null].
    pose proof (wp_unlink h T L tl l [] t R Hl) as U. unfold wp, bind in U |- *.
    destruct (threadlist_removenode _ h) as [[] h1| | |]; try done.
    destruct (count_down tl h1) as [[] h2| | |]; try done. destruct U as [R2 E3].
    unfold load_node, bind, get. rewrite E3. cbn. rewrite last_snoc, removelast_last. split; [done|].
    by rewrite app_nil_r in R2.
Qed.

Lemma wp_nodeinit h T L t :
  tl_rep h T L -> t ∉ T -> Z.of_nat (size T) + 1 < 2 ^ 32 ->
  wp (threadlistnode_init t) (fun _ h' => tl_rep h' ({[t]} ∪ T) L) (fun _ _ => False) h.
Proof.
  intros R Ht Hs. unfold threadlistnode_init, store_node. wp_steps.
  assert (Hoff : off_lists L t) by (intros tl l Hl Hin; by apply Ht; eapply rep_on).
  pose proof R as [R1 R2 R3 R4 R5 R6 R7]. split; cbn [tl_nodes tl_counts]; try done.
  - intros tl l Hl. apply links_insert_frame; [|by apply R1]. rewrite tl_ptrs_thread. by eapply Hoff.
  - intros u Hu Ho. destruct (decide (u = t)) as [->|Hne]; [by rewrite lookup_insert_eq|].
    rewrite lookup_insert_ne by congruence. apply R3; [set_solver | done].
  - intros tl l u Hl Hu. apply elem_of_union_r. by eapply R4.
  - rewrite size_union by set_solver. rewrite size_singleton. lia.
Qed.

(** Freeing the memory of a thread that is on no list. *)
Lemma rep_free h T L t :
  tl_rep h T L -> off_lists L t -> tl_rep (TLStore (delete (t_listnode t) (tl_nodes h)) (tl_counts h)) (T ∖ {[t]}) L.
Proof.
  intros R Ho. pose proof R as [R1 R2 R3 R4 R5 R6 R7]. split; cbn [tl_nodes tl_counts]; try done.
  - intros tl l Hl. eapply links_frame; [|by apply R1]. intros p Hp. apply lookup_delete_ne. intros <-.
    apply tl_ptrs_thread in Hp. by eapply Ho.
  - intros u Hu Hoff. rewrite lookup_delete_ne by set_solver. apply R3; set_solver.
  - intros tl l u Hl Hu. apply elem_of_difference. split; [by eapply R4|]. intros ->%elem_of_singleton. by eapply Ho.
  - pose proof (subseteq_size (T ∖ {[t]}) T ltac:(set_solver)). lia.
Qed.

Lemma wp_nodecleanup h T L t (Q : unit -> tlstore -> Prop) E :
  tl_rep h T L -> t ∈ T -> off_lists L t -> Q tt h -> wp (threadlistnode_cleanup t) Q E h.
Proof.
  intros R Ht Ho HQ. unfold threadlistnode_cleanup. wp_steps. eapply wp_load_node; [by apply (rep_off _ _ _ R)|].
  by repeat (apply wp_bind || (apply wp_kassert; [done|])).
Qed.

Lemma wp_init h T L tl :
  tl_rep h T L -> (forall l, L !! tl = Some l -> l = []) ->
  wp (threadlist_init tl) (fun _ h' => tl_rep h' T (<[tl := []]> L)) (fun _ _ => False) h.
Proof.
  intros R He. unfold threadlist_init, store_node, store_count. wp_steps.
  pose proof R as [R1 R2 R3 R4 R5 R6 R7]. cbn [tl_nodes tl_counts].
  assert (Hp : forall tl' l', tl' <> tl -> (tl_head tl ∉ tl_ptrs tl' l') /\ (tl_tail tl ∉ tl_ptrs tl' l')).
  { intros tl' l' Hne. unfold tl_ptrs. set_solver. }
  split; cbn [tl_nodes tl_counts].
  - intros tl' l' [[-> ->]|[Hne Hl']]%insert_elem_cases.
    + cbn [tl_ptrs fmap list_fmap app links first_of node_self]. rewrite lookup_insert_ne, !lookup_insert_eq by done. done.
    + destruct (Hp tl' l' Hne). repeat (apply links_insert_frame; [done|]). by apply R1.
  - intros tl' l' [[-> ->]|[Hne Hl']]%insert_elem_cases; [by rewrite lookup_insert_eq | rewrite lookup_insert_ne by done; auto].
  - intros u Hu Ho. rewrite !lookup_insert_ne by done. apply R3; [done|]. intros tl' l' Hl' Hin.
    destruct (decide (tl' = tl)) as [->|Hne]; [by rewrite (He _ Hl') in Hin; apply not_elem_of_nil in Hin|].
    apply (Ho tl' l'); [by rewrite lookup_insert_ne | done].
  - intros tl' l' u [[-> ->]|[Hne Hl']]%insert_elem_cases Hu; [by apply not_elem_of_nil in Hu | by eapply R4].
  - intros tl' l' [[-> ->]|[Hne Hl']]%insert_elem_cases; [constructor | by eapply R5].
  - intros tl1 l1 tl2 l2 u [[-> ->]|[? Hl1]]%insert_elem_cases [[-> ->]|[? Hl2]]%insert_elem_cases Hu1 Hu2;
      try by apply not_elem_of_nil in Hu1. { by apply not_elem_of_nil in Hu2. } by eapply R6.
  - done.
Qed.

Lemma wp_cleanup h T L tl (Q : unit -> tlstore -> Prop) E :
  tl_rep h T L -> L !! tl = Some [] -> Q tt h -> wp (threadlist_cleanup tl) Q E h.
Proof.
  intros R Hl HQ. unfold threadlist_cleanup. pose proof (rep_links _ _ _ R _ _ Hl) as (E1 & E2 & _).
  wp_steps. eapply wp_load_node; [exact E1|]. wp_steps. eapply wp_load_node; [exact E2|]. cbn [tln_prev tln_next tln_self].
  do 6 (apply wp_bind, wp_debugassert; [by (apply bool_decide_eq_true_2 || idtac)|]).
  wp_steps. eapply wp_isempty; [done..|]. wp_steps. apply wp_kassert; [done|]. wp_steps.
  eapply wp_load_count; [by eapply rep_count|]. by apply wp_kassert.
Qed.

(** Walking a list in either direction. *)
Lemma forall_from_next h T L tl l1 l2 fuel :
  tl_rep h T L -> L !! tl = Some (l1 ++ l2) -> (length l2 < fuel)%nat -> forall_from fuel tln_next (head l2) h = Ret l2 h.
Proof.
  intros R. revert l1 fuel. induction l2 as [|t l2 IH]; intros l1 [|fuel] Hl Hf; cbn [length] in *; try lia; [done|].
  cbn [forall_from head]. destruct (rep_thread_node _ _ _ _ _ _ _ R Hl) as (Et & _ & _ & _ & np & nq & _ & Hq).
  unfold load_node, bind, get. rewrite Et. cbn. unfold self_of, load_node, bind, get. cbn. rewrite Hq. cbn.
  assert (tln_self nq = head l2) as ->.
  { pose proof (rep_links _ _ _ R _ _ Hl) as HL. destruct (ptrs_split tl l1 l2) as (a & b & _ & E). rewrite E in HL.
    revert HL. rewrite links_app. cbn [links]. rewrite Hq. intros (_ & _ & _ & [= ->] & _). cbn. by destruct l2. }
  specialize (IH (l1 ++ [t]) fuel). rewrite <- app_assoc in IH. rewrite IH by (done || lia). done.
Qed.

Lemma forall_from_prev h T L tl l1 l2 fuel :
  tl_rep h T L -> L !! tl = Some (l1 ++ l2) -> (length l1 < fuel)%nat ->
  forall_from fuel tln_prev (last l1) h = Ret (reverse l1) h.
Proof.
  intros R. revert l2 fuel. induction l1 as [|t l1 IH] using rev_ind; intros l2 [|fuel] Hl Hf; try lia; [done|].
  rewrite length_app in Hf. cbn [length] in Hf. rewrite <- app_assoc in Hl. cbn [app] in Hl.
  cbn [forall_from]. rewrite last_snoc. destruct (rep_thread_node _ _ _ _ _ _ _ R Hl) as (Et & _ & _ & _ & np & nq & Hp & _).
  unfold load_node, bind, get. rewrite Et. cbn. unfold self_of, load_node, bind, get. cbn. rewrite Hp. cbn.
  assert (tln_self np = last l1) as ->.
  { pose proof (rep_links _ _ _ R _ _ Hl) as HL. destruct (ptrs_split tl l1 l2) as (a & b & _ & E). rewrite E in HL.
    revert HL. rewrite links_app. cbn [links]. rewrite Hp. intros (_ & [= ->] & _). cbn. unfold ptr_before. by destruct (last l1). }
  rewrite (IH (t :: l2) fuel) by (done || lia). by rewrite reverse_snoc.
Qed.

Lemma THREADLIST_FORALL_walks h T L tl l fuel :
  tl_rep h T L -> L !! tl = Some l -> (length l < fuel)%nat -> THREADLIST_FORALL fuel tl h = Ret l h.
Proof.
  intros R Hl Hf. pose proof (rep_links _ _ _ R _ _ Hl) as HL. unfold THREADLIST_FORALL, self_of, load_node, bind, get.
  destruct HL as [-> HL]. cbn. assert (exists q nq, first_of ((t_listnode <$> l) ++ [tl_tail tl]) None = Some q /\
    tl_nodes h !! q = Some nq /\ tln_self nq = head l) as (q & nq & -> & Eq & En).
  { destruct l; cbn in HL |- *; destruct HL as [HL _]; eauto. }
  cbn. rewrite Eq. cbn. rewrite En. by apply (forall_from_next h T L tl [] l fuel R Hl).
Qed.

End specs.

(** ** Refinement: the lists of the kernel are lists

    The abstract machine works on lists of threads; an operation outside its
    contract (adding a thread that is on a list already, removing one that is
    not there, ...) has no abstract result. *)

Inductive tl_op :=
| OpNodeInit (t : Z) | OpNodeCleanup (t : Z) | OpInit (tl : Z) | OpCleanup (tl : Z) | OpIsempty (tl : Z)
| OpAddhead (tl t : Z) | OpAddtail (tl t : Z) | OpRemhead (tl : Z) | OpRemtail (tl : Z)
| OpInsertafter (tl onlist addee : Z) | OpInsertbefore (tl addee onlist : Z) | OpRemove (tl t : Z)
| OpForall (tl : Z) | OpForallRev (tl : Z).

Inductive tl_result := RVoid | RBool (b : bool) | RThread (t : option Z) | RThreads (ts : list Z).

Definition tl_abs : Type := gset Z * gmap Z (list Z).

(** The walks need as many steps as there are threads, and one to stop. *)
Definition run_op `{DebugAsserts} (fuel : nat) (op : tl_op) : M tlstore tl_result :=
  match op with
  | OpNodeInit t => threadlistnode_init t ;; ret RVoid
  | OpNodeCleanup t => threadlistnode_cleanup t ;; ret RVoid
  | OpInit tl => threadlist_init tl ;; ret RVoid
  | OpCleanup tl => threadlist_cleanup tl ;; ret RVoid
  | OpIsempty tl => b <- threadlist_isempty tl ;; ret (RBool b)
  | OpAddhead tl t => threadlist_addhead tl t ;; ret RVoid
  | OpAddtail tl t => threadlist_addtail tl t ;; ret RVoid
  | OpRemhead tl => t <- threadlist_remhead tl ;; ret (RThread t)
  | OpRemtail tl => t <- threadlist_remtail tl ;; ret (RThread t)
  | OpInsertafter tl u t => threadlist_insertafter tl u t ;; ret RVoid
  | OpInsertbefore tl t u => threadlist_insertbefore tl t u ;; ret RVoid
  | OpRemove tl t => threadlist_remove tl t ;; ret RVoid
  | OpForall tl => ts <- THREADLIST_FORALL fuel tl ;; ret (RThreads ts)
  | OpForallRev tl => ts <- THREADLIST_FORALL_REV fuel tl ;; ret (RThreads ts)
  end.

(** Put [t] in front of (after) [u]; take [t] out. *)
Fixpoint insert_at (u : Z) (new l : list Z) : list Z :=
  match l with
  | [] => []
  | x :: l' => if decide (x = u) then new ++ l' else x :: insert_at u new l'
  end.

Definition can_add (a : tl_abs) (t : Z) : Prop := t ∈ fst a /\ map_Forall (fun _ l => t ∉ l) (snd a).
#[local] Instance can_add_dec a t : Decision (can_add a t) := and_dec _ _.

Definition abs_op (op : tl_op) (a : tl_abs) : option (tl_result * tl_abs) :=
  let '(T, L) := a in
  match op with
  | OpNodeInit t =>
      if decide ((t ∉ T) /\ Z.of_nat (size T) + 1 < 2 ^ 32) then Some (RVoid, ({[t]} ∪ T, L)) else None
  | OpNodeCleanup t => if decide (can_add a t) then Some (RVoid, a) else None
  | OpInit tl => match L !! tl with Some (_ :: _) => None | _ => Some (RVoid, (T, <[tl := []]> L)) end
  | OpCleanup tl => if decide (L !! tl = Some []) then Some (RVoid, a) else None
  | OpIsempty tl => l ← L !! tl; Some (RBool (bool_decide (l = [])), a)
  | OpAddhead tl t => l ← L !! tl; if decide (can_add a t) then Some (RVoid, (T, <[tl := t :: l]> L)) else None
  | OpAddtail tl t => l ← L !! tl; if decide (can_add a t) then Some (RVoid, (T, <[tl := l ++ [t]]> L)) else None
  | OpRemhead tl => l ← L !! tl; Some (RThread (head l), (T, <[tl := tail l]> L))
  | OpRemtail tl => l ← L !! tl; Some (RThread (last l), (T, <[tl := removelast l]> L))
  | OpInsertafter tl u t =>
      l ← L !! tl; if decide (u ∈ l /\ can_add a t) then Some (RVoid, (T, <[tl := insert_at u [u; t] l]> L)) else None
  | OpInsertbefore tl t u =>
      l ← L !! tl; if decide (u ∈ l /\ can_add a t) then Some (RVoid, (T, <[tl := insert_at u [t; u] l]> L)) else None
  | OpRemove tl t => l ← L !! tl; if decide (t ∈ l) then Some (RVoid, (T, <[tl := insert_at t [] l]> L)) else None
  | OpForall tl => l ← L !! tl; Some (RThreads l, a)
  | OpForallRev tl => l ← L !! tl; Some (RThreads (reverse l), a)
  end.

Fixpoint run_ops `{DebugAsserts} (fuel : nat) (ops : list tl_op) : M tlstore (list tl_result) :=
  match ops with
  | [] => ret []
  | op :: ops' => r <- run_op fuel op ;; rs <- run_ops fuel ops' ;; ret (r :: rs)
  end.

Fixpoint abs_ops (ops : list tl_op) (a : tl_abs) : option (list tl_result * tl_abs) :=
  match ops with
  | [] => Some ([], a)
  | op :: ops' => '(r, a) ← abs_op op a; '(rs, a) ← abs_ops ops' a; Some (r :: rs, a)
  end.

Section refinement.
Context `{DebugAsserts}.

Lemma insert_at_split u new l : u ∈ l -> exists l1 l2, l = l1 ++ u :: l2 /\ insert_at u new l = l1 ++ new ++ l2.
Proof.
  induction l as [|x l IH]; intros Hu; [by apply not_elem_of_nil in Hu|]. cbn [insert_at].
  destruct (decide (x = u)) as [->|Hne]; [by exists [], l|].
  apply elem_of_cons in Hu as [->|Hu]; [done|]. destruct (IH Hu) as (l1 & l2 & -> & ->). by exists (x :: l1), l2.
Qed.

Lemma removelast_last_None {A} (l : list A) : match last l with Some _ => removelast l | None => l end = removelast l.
Proof. destruct l as [|x l _] using rev_ind; [done|]. by rewrite last_snoc. Qed.

(** What a void operation gives, from its weakest precondition. *)
Lemma run_void h (m : M tlstore unit) (R : tlstore -> Prop) :
  wp m (fun _ h' => R h') (fun _ _ => False) h -> exists h', (m ;; ret RVoid) h = Ret RVoid h' /\ R h'.
Proof. unfold wp, bind. destruct (m h) as [[] h'| | |]; naive_solver. Qed.

Lemma run_op_rep h T L op r T' L' fuel :
  tl_rep h T L -> abs_op op (T, L) = Some (r, (T', L')) -> (forall tl l, L !! tl = Some l -> (length l < fuel)%nat) ->
  exists h', run_op fuel op h = Ret r h' /\ tl_rep h' T' L'.
Proof.
  intros R Ha Hfuel. destruct op as [t|t|tl|tl|tl|tl t|tl t|tl|tl|tl u t|tl t u|tl t|tl|tl]; cbn [abs_op] in Ha; cbn [run_op].
  - destruct (decide _) as [[??]|]; simplify_eq. by apply run_void, wp_nodeinit.
  - destruct (decide _) as [[??]|]; simplify_eq. apply run_void. by eapply wp_nodecleanup.
  - destruct (L !! tl) as [[|]|] eqn:El; simplify_eq; apply run_void, wp_init; naive_solver.
  - destruct (decide _); simplify_eq. apply run_void. by eapply wp_cleanup.
  - destruct (L !! tl) as [l|] eqn:El; simplify_eq/=. exists h. unfold bind.
    pose proof (wp_isempty h _ _ tl l (fun b h' => b = bool_decide (l = []) /\ h' = h) (fun _ _ => False) R El (conj eq_refl eq_refl)) as W.
    unfold wp in W. destruct (threadlist_isempty tl h); naive_solver.
  - destruct (L !! tl) as [l|] eqn:El; simplify_eq/=. destruct (decide _) as [[??]|]; simplify_eq. by apply run_void, wp_addhead.
  - destruct (L !! tl) as [l|] eqn:El; simplify_eq/=. destruct (decide _) as [[??]|]; simplify_eq. by apply run_void, wp_addtail.
  - destruct (L !! tl) as [l|] eqn:El; simplify_eq/=. destruct (wp_ret_inv _ _ _ (wp_remhead _ _ _ _ _ R El)) as (o & h' & E & -> & R').
    exists h'. unfold bind. by rewrite E.
  - destruct (L !! tl) as [l|] eqn:El; simplify_eq/=. destruct (wp_ret_inv _ _ _ (wp_remtail _ _ _ _ _ R El)) as (o & h' & E & -> & R').
    exists h'. unfold bind. rewrite E. by rewrite removelast_last_None in R'.
  - destruct (L !! tl) as [l|] eqn:El; simplify_eq/=. destruct (decide _) as [[Hu [??]]|]; simplify_eq. apply run_void.
    destruct (insert_at_split u [u; t] l Hu) as (l1 & l2 & -> & ->). by apply wp_insertafter.
  - destruct (L !! tl) as [l|] eqn:El; simplify_eq/=. destruct (decide _) as [[Hu [??]]|]; simplify_eq. apply run_void.
    destruct (insert_at_split u [t; u] l Hu) as (l1 & l2 & -> & ->). by apply wp_insertbefore.
  - destruct (L !! tl) as [l|] eqn:El; simplify_eq/=. destruct (decide _) as [Hu|]; simplify_eq. apply run_void.
    destruct (insert_at_split t [] l Hu) as (l1 & l2 & -> & ->). by apply wp_remove.
  - destruct (L !! tl) as [l|] eqn:El; simplify_eq/=. exists h. split; [|done].
    unfold bind. rewrite (THREADLIST_FORALL_walks h T' L' tl l fuel R El) by eauto. done.
  - destruct (L !! tl) as [l|] eqn:El; simplify_eq/=. exists h. split; [|done].
    destruct (rep_neighbours h T' L' tl l [] R) as (np & nq & Ep & Eq & _ & Ev); [by rewrite app_nil_r|]. cbn [ptr_after] in Eq.
    unfold THREADLIST_FORALL_REV, self_of, load_node, bind, get. rewrite Eq. cbn. rewrite Ev. cbn. rewrite Ep. cbn.
    assert (tln_self np = last l) as ->.
    { pose proof (rep_links _ _ _ R _ _ El) as HL. unfold ptr_before in Ep. destruct l as [|x l _] using rev_ind.
      - destruct HL as [HL _]. cbn in Ep. by simplify_eq.
      - rewrite last_snoc in *. destruct (rep_thread_node _ _ _ _ _ _ _ R El) as (Et & _). by simplify_eq. }
    rewrite (forall_from_prev h T' L' tl l [] fuel R) by (rewrite ?app_nil_r; eauto). done.
Qed.

Lemma abs_op_size op T L r T' L' : abs_op op (T, L) = Some (r, (T', L')) -> (size T' <= S (size T))%nat.
Proof.
  destruct op; cbn [abs_op]; intros Ha; repeat case_match; simplify_option_eq; try lia.
  destruct_and!. rewrite size_union by set_solver. rewrite size_singleton. lia.
Qed.

Lemma run_ops_rep h T L ops rs T' L' fuel :
  tl_rep h T L -> abs_ops ops (T, L) = Some (rs, (T', L')) -> (size T + length ops < fuel)%nat ->
  exists h', run_ops fuel ops h = Ret rs h' /\ tl_rep h' T' L'.
Proof.
  revert h T L rs. induction ops as [|op ops IH]; intros h T L rs R Ha Hf; cbn [abs_ops run_ops length] in *.
  { simplify_eq. by exists h. }
  destruct (abs_op op (T, L)) as [[r [T1 L1]]|] eqn:E1; cbn in Ha; [|done].
  destruct (abs_ops ops (T1, L1)) as [[rs' a']|] eqn:E2; cbn in Ha; simplify_eq.
  destruct (run_op_rep h T L op r T1 L1 fuel R E1) as (h1 & R1 & Rep1).
  { intros tl l Hl. pose proof (rep_length _ _ _ _ _ R Hl). lia. }
  pose proof (abs_op_size _ _ _ _ _ _ E1). destruct (IH h1 T1 L1 rs' Rep1 E2) as (h2 & R2 & Rep2); [lia|].
  exists h2. unfold bind. by rewrite R1, R2.
Qed.

(** C14: Every sequence of thread-list operations that keeps to the contract
    of lists of threads (a thread is added only when it is on no list, taken
    out of a list it is on, ...), run on the linked nodes from any store that
    represents lists [L] of threads [T], never follows a null link, fails no
    assertion (the debugging ones included, where they are compiled in),
    returns exactly what the operations on lists return, and leaves a store
    that represents the resulting lists: both link directions, the counts and
    the cleared links of threads taken out. *)
Theorem threadlist_refines h T L ops rs T' L' fuel :
  tl_rep h T L -> abs_ops ops (T, L) = Some (rs, (T', L')) -> (size T + length ops < fuel)%nat ->
  exists h', run_ops fuel ops h = Ret rs h' /\ tl_rep h' T' L'.
Proof. apply run_ops_rep. Qed.

End refinement.

Lemma tl_rep_empty : tl_rep (TLStore ∅ ∅) ∅ ∅.
Proof. by split. Qed.

Definition demo_ops : list tl_op :=
  [OpNodeInit 10; OpNodeInit 11; OpNodeInit 12; OpNodeInit 13; OpInit 100; OpInit 200;
   OpAddtail 100 10; OpAddhead 100 11; OpInsertafter 100 11 12; OpInsertbefore 100 13 10; OpForall 100; OpForallRev 100;
   OpRemhead 100; OpAddtail 200 11; OpRemtail 100; OpRemove 100 12; OpIsempty 200; OpRemhead 100; OpRemhead 100].

Definition demo_results : list tl_result :=
  [RVoid; RVoid; RVoid; RVoid; RVoid; RVoid; RVoid; RVoid; RVoid; RVoid; RThreads [11; 12; 13; 10]; RThreads [10; 13; 12; 11];
   RThread (Some 11); RVoid; RThread (Some 10); RVoid; RBool false; RThread (Some 13); RThread None].

Definition demo_abs : tl_abs := Eval vm_compute in default (∅, ∅) (snd <$> abs_ops demo_ops (∅, ∅)).

Lemma threadlist_refines_witness :
  exists h', @run_ops true 20 demo_ops (TLStore ∅ ∅) = Ret demo_results h' /\ tl_rep h' (fst demo_abs) (snd demo_abs).
Proof.
  apply (@threadlist_refines true (TLStore ∅ ∅) ∅ ∅ demo_ops demo_results (fst demo_abs) (snd demo_abs) 20 tl_rep_empty).
  - by vm_compute.
  - apply Nat.ltb_lt. by vm_compute.
Defined.
