(* ===== verification/Spl.v ===== *)
(** * Interrupt levels and spinlocks, [kern/thread/spl.c] and
    [kern/thread/spinlock.c]

    The interrupt state of a thread (the "interrupt state fields" of
    [struct thread]), of a processor ([c_spinlocks], and whether the hardware
    takes interrupts) and the spinlocks.  The functions get the current
    processor [c] and the current thread [cur] as arguments.  [curcpu] exists
    from boot on, so the branches for the time before it are left out.

    A processor that finds a lock word set spins until another one clears it:
    a computation of the model describes what one processor does while no
    other one acts, so spinning has no result ([OutOfFuel]).  The total
    correctness statements of this library exclude it. *)

From S2P Require Import Prelude.

Definition IPL_NONE : Z := 0.
Definition IPL_HIGH : Z := 1.

(** The spinlocks of the modelled part: one for the run queue and one for the
    interprocessor interrupts of each processor, one for each wait channel
    (for a semaphore, [sem_lock]) and one for each process. *)
Inductive lockid := c_runqueue_lock (c : Z) | c_ipi_lock (c : Z) | wc_lock (w : Z) | p_lock (p : Z).

#[export] Instance lockid_eq_dec : EqDecision lockid.
Proof. solve_decision. Defined.

#[export] Instance lockid_countable : Countable lockid.
Proof.
  refine (inj_countable' (fun l => match l with c_runqueue_lock z => (0, z) | c_ipi_lock z => (1, z) | wc_lock z => (2, z) | p_lock z => (3, z) end)
    (fun q : Z * Z => match q with (0, z) => c_runqueue_lock z | (1, z) => c_ipi_lock z | (2, z) => wc_lock z | (_, z) => p_lock z end) _).
  by intros [].
Defined.

Record spinlock := Spinlock { splk_lock : Z; splk_holder : option Z }.
Record istate := IState { t_in_interrupt : bool; t_curspl : Z; t_iplhigh_count : Z }.
Record icpu := ICpu { c_spinlocks : Z; c_irq : bool }.

Record intr := Intr { i_threads : gmap Z istate; i_cpus : gmap Z icpu; i_locks : gmap lockid spinlock }.

Definition load_istate (t : Z) : M intr istate := i <- get ;; oob (i_threads i !! t).
Definition store_istate (t : Z) (x : istate) : M intr unit :=
  modify (fun i => Intr (<[t := x]> (i_threads i)) (i_cpus i) (i_locks i)).
Definition load_icpu (c : Z) : M intr icpu := i <- get ;; oob (i_cpus i !! c).
Definition store_icpu (c : Z) (x : icpu) : M intr unit :=
  modify (fun i => Intr (i_threads i) (<[c := x]> (i_cpus i)) (i_locks i)).
Definition load_lock (lk : lockid) : M intr spinlock := i <- get ;; oob (i_locks i !! lk).
Definition store_lock (lk : lockid) (x : spinlock) : M intr unit :=
  modify (fun i => Intr (i_threads i) (i_cpus i) (<[lk := x]> (i_locks i))).

(** [cpu_irqoff] and [cpu_irqon] of [cpu.c] set the interrupt-enable bit. *)
Definition cpu_irqoff (c : Z) : M intr unit := x <- load_icpu c ;; store_icpu c (ICpu (c_spinlocks x) false).
Definition cpu_irqon (c : Z) : M intr unit := x <- load_icpu c ;; store_icpu c (ICpu (c_spinlocks x) true).

Section operations.
Context (c cur : Z).

Definition splraise (oldspl newspl : Z) : M intr unit :=
  KASSERT (oldspl =? IPL_NONE) ;;
  KASSERT (newspl =? IPL_HIGH) ;;
  x <- load_istate cur ;;
  when (t_iplhigh_count x =? 0) (cpu_irqoff c) ;;
  store_istate cur (IState (t_in_interrupt x) (t_curspl x) (i32 (t_iplhigh_count x + 1))).

Definition spllower (oldspl newspl : Z) : M intr unit :=
  KASSERT (oldspl =? IPL_HIGH) ;;
  KASSERT (newspl =? IPL_NONE) ;;
  x <- load_istate cur ;;
  let x := IState (t_in_interrupt x) (t_curspl x) (i32 (t_iplhigh_count x - 1)) in
  store_istate cur x ;;
  when (t_iplhigh_count x =? 0) (cpu_irqon c).

Definition set_curspl (spl : Z) : M intr unit :=
  x <- load_istate cur ;; store_istate cur (IState (t_in_interrupt x) spl (t_iplhigh_count x)).

Definition splx (spl : Z) : M intr Z :=
  x <- load_istate cur ;;
  if t_curspl x <? spl then
    splraise (t_curspl x) spl ;;
    x <- load_istate cur ;;
    set_curspl spl ;;
    ret (t_curspl x)
  else if spl <? t_curspl x then
    let r := t_curspl x in
    set_curspl spl ;;
    spllower r spl ;;
    ret r
  else ret spl.

Definition spl0 : M intr Z := splx IPL_NONE.
Definition splhigh : M intr Z := splx IPL_HIGH.

Definition spinlock_init (lk : lockid) : M intr unit := store_lock lk (Spinlock 0 None).

Definition spinlock_cleanup (lk : lockid) : M intr unit :=
  l <- load_lock lk ;;
  KASSERT (bool_decide (splk_holder l = None)) ;;
  KASSERT (splk_lock l =? 0).

Definition spinlock_acquire (lk : lockid) : M intr unit :=
  splraise IPL_NONE IPL_HIGH ;;
  l <- load_lock lk ;;
  (if bool_decide (splk_holder l = Some c) then panic else ret tt) ;;
  x <- load_icpu c ;;
  store_icpu c (ICpu (u32 (c_spinlocks x + 1)) (c_irq x)) ;;
  if negb (splk_lock l =? 0) then fun _ => OutOfFuel
  else store_lock lk (Spinlock 1 (Some c)).

Definition spinlock_release (lk : lockid) : M intr unit :=
  l <- load_lock lk ;;
  KASSERT (bool_decide (splk_holder l = Some c)) ;;
  x <- load_icpu c ;;
  KASSERT (0 <? c_spinlocks x) ;;
  store_icpu c (ICpu (u32 (c_spinlocks x - 1)) (c_irq x)) ;;
  store_lock lk (Spinlock 0 None) ;;
  spllower IPL_HIGH IPL_NONE.

Definition spinlock_do_i_hold (lk : lockid) : M intr bool :=
  l <- load_lock lk ;; ret (bool_decide (splk_holder l = Some c)).

End operations.

(** ** What a processor has taken

    [mid i c cur b s K] is the state [i] in which the processor [c], running
    [cur] (in an interrupt handler if [b]) at level [s], holds the spinlocks
    [K] besides: the level and the locks each count once in
    [t_iplhigh_count], and interrupts are on when nothing counts. *)

Definition free_lock : spinlock := Spinlock 0 None.
Definition locked_by (c : Z) : spinlock := Spinlock 1 (Some c).

Definition mid (i : intr) (c cur : Z) (b : bool) (s : Z) (K : gset lockid) : intr :=
  Intr (<[cur := IState b s (s + Z.of_nat (size K))]> (i_threads i))
       (<[c := ICpu (Z.of_nat (size K)) (s + Z.of_nat (size K) =? 0)]> (i_cpus i))
       (gset_to_gmap (locked_by c) K ∪ i_locks i).

Lemma i32_small z : - 2 ^ 31 <= z < 2 ^ 31 -> i32 z = z.
Proof. intros. by apply swrap_small. Qed.

Lemma wp_load_istate t x (Q : istate -> intr -> Prop) E j : i_threads j !! t = Some x -> Q x j -> wp (load_istate t) Q E j.
Proof. intros Hx HQ. unfold load_istate. wp_steps. by eapply wp_oob. Qed.

Lemma wp_load_icpu d x (Q : icpu -> intr -> Prop) E j : i_cpus j !! d = Some x -> Q x j -> wp (load_icpu d) Q E j.
Proof. intros Hx HQ. unfold load_icpu. wp_steps. by eapply wp_oob. Qed.

Lemma wp_load_lock lk x (Q : spinlock -> intr -> Prop) E j : i_locks j !! lk = Some x -> Q x j -> wp (load_lock lk) Q E j.
Proof. intros Hx HQ. unfold load_lock. wp_steps. by eapply wp_oob. Qed.

Ltac int_step := cbn [i_threads i_cpus i_locks t_in_interrupt t_curspl t_iplhigh_count c_spinlocks c_irq splk_lock splk_holder];
  lazymatch goal with
  | |- wp (bind _ _) _ _ _ => apply wp_bind
  | |- wp (ret _) _ _ _ => apply wp_ret
  | |- wp (load_istate _) _ _ _ => eapply wp_load_istate; [cbn; by rewrite ?lookup_insert_eq|]
  | |- wp (load_icpu _) _ _ _ => eapply wp_load_icpu; [cbn; by rewrite ?lookup_insert_eq|]
  | |- wp (store_istate _ _) _ _ _ => apply wp_modify
  | |- wp (store_icpu _ _) _ _ _ => apply wp_modify
  | |- wp (store_lock _ _) _ _ _ => apply wp_modify
  | |- wp (KASSERT _) _ _ _ => apply wp_kassert; [done|]
  end.

Section counting.
Context (th : gmap Z istate) (cp : gmap Z icpu) (lks : gmap lockid spinlock) (c cur : Z) (b : bool).

(** The interrupt-enable bit follows the count. *)
Lemma wp_splraise n s m (Q : unit -> intr -> Prop) E :
  let j := Intr (<[cur := IState b s n]> th) (<[c := ICpu m (n =? 0)]> cp) lks in
  0 <= n < 2 ^ 31 - 1 ->
  Q tt (Intr (<[cur := IState b s (n + 1)]> th) (<[c := ICpu m (n + 1 =? 0)]> cp) lks) ->
  wp (splraise c cur IPL_NONE IPL_HIGH) Q E j.
Proof.
  intros j Hn HQ. unfold splraise. subst j. repeat int_step. rewrite i32_small by lia.
  replace (n + 1 =? 0) with false in HQ by (symmetry; apply Z.eqb_neq; lia).
  apply wp_when; intros Hz; unfold cpu_irqoff; repeat int_step; cbn [i_threads i_cpus i_locks] in *; rewrite ?insert_insert_eq; [done|].
  by rewrite Hz.
Qed.

Lemma wp_spllower n s m (Q : unit -> intr -> Prop) E :
  let j := Intr (<[cur := IState b s n]> th) (<[c := ICpu m (n =? 0)]> cp) lks in
  0 < n < 2 ^ 31 ->
  Q tt (Intr (<[cur := IState b s (n - 1)]> th) (<[c := ICpu m (n - 1 =? 0)]> cp) lks) ->
  wp (spllower c cur IPL_HIGH IPL_NONE) Q E j.
Proof.
  intros j Hn HQ. unfold spllower. subst j. repeat int_step. rewrite i32_small by lia.
  replace (n =? 0) with false by (symmetry; apply Z.eqb_neq; lia). cbn [t_iplhigh_count].
  apply wp_when; intros Hz; unfold cpu_irqon; repeat int_step; cbn [i_threads i_cpus i_locks] in *; rewrite ?insert_insert_eq in *;
    by rewrite Hz in HQ.
Qed.
End counting.

Section rules.
Context (i : intr) (c cur : Z) (b : bool).
Implicit Types (s : Z) (K : gset lockid).

Definition level s : Prop := s = IPL_NONE \/ s = IPL_HIGH.

Definition few K : Prop := Z.of_nat (size K) < 2 ^ 16.

Lemma mid_lock s K lk : lk ∈ K -> i_locks (mid i c cur b s K) !! lk = Some (locked_by c).
Proof. intros H. cbn. apply lookup_union_Some_l. by apply lookup_gset_to_gmap_Some. Qed.

Lemma mid_nolock s K lk : lk ∉ K -> i_locks (mid i c cur b s K) !! lk = i_locks i !! lk.
Proof. intros H. cbn. apply lookup_union_r. by apply lookup_gset_to_gmap_None. Qed.

Lemma few_size K : few K -> 0 <= Z.of_nat (size K) < 2 ^ 16.
Proof. unfold few. lia. Qed.

Lemma wp_splx_up K (Q : Z -> intr -> Prop) E :
  few K -> Q IPL_NONE (mid i c cur b IPL_HIGH K) -> wp (splhigh c cur) Q E (mid i c cur b IPL_NONE K).
Proof.
  intros HK%few_size HQ. unfold splhigh, splx, mid. repeat int_step. cbn [t_curspl Z.ltb Z.compare].
  change (IPL_NONE <? IPL_HIGH) with true. cbv iota. apply wp_bind.
  apply wp_splraise; [unfold IPL_NONE; lia|]. unfold set_curspl. repeat int_step.
  cbn [i_threads i_cpus i_locks] in *. rewrite insert_insert_eq. unfold mid, IPL_NONE, IPL_HIGH in *.
  by replace (0 + Z.of_nat (size K) + 1) with (1 + Z.of_nat (size K)) by lia.
Qed.

Lemma wp_splx_same s K (Q : Z -> intr -> Prop) E :
  Q s (mid i c cur b s K) -> wp (splx c cur s) Q E (mid i c cur b s K).
Proof. intros HQ. unfold splx, mid. repeat int_step. cbn [t_curspl]. rewrite Z.ltb_irrefl. by apply wp_ret. Qed.

Lemma wp_splx_down K (Q : Z -> intr -> Prop) E :
  few K -> Q IPL_HIGH (mid i c cur b IPL_NONE K) -> wp (splx c cur IPL_NONE) Q E (mid i c cur b IPL_HIGH K).
Proof.
  intros HK%few_size HQ. unfold splx, mid. repeat int_step. cbn [t_curspl]. change (IPL_HIGH <? IPL_NONE) with false.
  change (IPL_NONE <? IPL_HIGH) with true. cbv iota zeta. unfold set_curspl. repeat int_step.
  cbn [i_threads i_cpus i_locks]. rewrite insert_insert_eq.
  apply wp_spllower; [unfold IPL_HIGH; lia|]. repeat int_step.
  cbn [i_threads i_cpus i_locks] in *. unfold mid, IPL_NONE, IPL_HIGH in *.
  by replace (1 + Z.of_nat (size K) - 1) with (0 + Z.of_nat (size K)) by lia.
Qed.

Lemma wp_spin_acquire s K lk (Q : unit -> intr -> Prop) E :
  level s -> few K -> lk ∉ K -> i_locks i !! lk = Some free_lock ->
  Q tt (mid i c cur b s ({[lk]} ∪ K)) -> wp (spinlock_acquire c cur lk) Q E (mid i c cur b s K).
Proof.
  intros Hs HK%few_size Hlk Hfree HQ. unfold spinlock_acquire. assert (0 <= s <= 1) by (destruct Hs as [-> | ->]; by vm_compute).
  pose proof (mid_nolock s K lk Hlk) as El. rewrite Hfree in El. unfold mid in *. cbn [i_locks] in El.
  apply wp_bind. apply wp_splraise; [lia|]. cbn [i_threads i_cpus i_locks].
  apply wp_bind. eapply wp_load_lock; [exact El|]. cbn [splk_holder splk_lock free_lock].
  rewrite bool_decide_eq_false_2 by done. repeat int_step. change (negb (0 =? 0)) with false. cbv iota. repeat int_step.
  cbn [i_threads i_cpus i_locks] in *. rewrite insert_insert_eq, wrap_small by lia.
  rewrite size_union, size_singleton in HQ by set_solver. cbn [Nat.add] in HQ.
  replace (s + Z.of_nat (S (size K))) with (s + Z.of_nat (size K) + 1) in HQ by lia.
  replace (Z.of_nat (S (size K))) with (Z.of_nat (size K) + 1) in HQ by lia.
  rewrite gset_to_gmap_union_singleton in HQ. by rewrite insert_union_l.
Qed.

Lemma release_locks K lk :
  lk ∈ K -> i_locks i !! lk = Some free_lock ->
  <[lk := Spinlock 0 None]> (gset_to_gmap (locked_by c) K ∪ i_locks i) = gset_to_gmap (locked_by c) (K ∖ {[lk]}) ∪ i_locks i.
Proof.
  intros Hlk Hfree. apply map_eq. intros l. destruct (decide (l = lk)) as [->|Hne].
  - rewrite lookup_insert_eq, lookup_union_r by (apply lookup_gset_to_gmap_None; set_solver). by rewrite Hfree.
  - rewrite lookup_insert_ne by done. rewrite !lookup_union, !lookup_gset_to_gmap.
    destruct (decide (l ∈ K)) as [Hl|Hl].
    + rewrite !option_guard_True by set_solver. done.
    + rewrite !option_guard_False by set_solver. done.
Qed.

Lemma wp_spin_release s K lk (Q : unit -> intr -> Prop) E :
  level s -> few K -> lk ∈ K -> i_locks i !! lk = Some free_lock ->
  Q tt (mid i c cur b s (K ∖ {[lk]})) -> wp (spinlock_release c cur lk) Q E (mid i c cur b s K).
Proof.
  intros Hs HK%few_size Hlk Hfree HQ. unfold spinlock_release. assert (0 <= s <= 1) by (destruct Hs as [-> | ->]; by vm_compute).
  assert (HK1 : size K = S (size (K ∖ {[lk]}))).
  { rewrite size_difference, size_singleton by set_solver. assert (size K <> 0%nat); [|lia].
    intros E0%size_empty_inv. set_solver. }
  apply wp_bind. eapply wp_load_lock; [by apply mid_lock|]. apply wp_bind, wp_kassert; [by apply bool_decide_eq_true_2|].
  unfold mid. repeat int_step. apply wp_kassert; [apply Z.ltb_lt; lia|]. repeat int_step.
  cbn [i_threads i_cpus i_locks]. rewrite insert_insert_eq, release_locks, wrap_small by (done || lia).
  apply wp_spllower; [lia|]. cbn [i_threads i_cpus i_locks].
  unfold mid in HQ. revert HQ. rewrite HK1.
  replace (s + Z.of_nat (S (size (K ∖ {[lk]}))) - 1) with (s + Z.of_nat (size (K ∖ {[lk]}))) by lia.
  by replace (Z.of_nat (S (size (K ∖ {[lk]}))) - 1) with (Z.of_nat (size (K ∖ {[lk]}))) by lia.
Qed.

Lemma wp_do_i_hold s K lk (Q : bool -> intr -> Prop) E :
  i_locks i !! lk = Some free_lock ->
  Q (bool_decide (lk ∈ K)) (mid i c cur b s K) -> wp (spinlock_do_i_hold c lk) Q E (mid i c cur b s K).
Proof.
  intros Hfree HQ. unfold spinlock_do_i_hold. apply wp_bind. destruct (decide (lk ∈ K)) as [Hin|Hin].
  - eapply wp_load_lock; [by apply mid_lock|]. apply wp_ret. rewrite bool_decide_eq_true_2 in HQ by done.
    by rewrite bool_decide_eq_true_2.
  - eapply wp_load_lock; [rewrite mid_nolock by done; exact Hfree|]. apply wp_ret. rewrite bool_decide_eq_false_2 in HQ by done.
    by rewrite bool_decide_eq_false_2.
Qed.

End rules.

(** ** Levels and locks in any order

    Acquisitions, releases and changes of level need not nest. *)

Inductive spl_op := OpAcquire (lk : lockid) | OpRelease (lk : lockid) | OpSplx (spl : Z).

Definition run_spl (c cur : Z) (op : spl_op) : M intr unit :=
  match op with
  | OpAcquire lk => spinlock_acquire c cur lk
  | OpRelease lk => spinlock_release c cur lk
  | OpSplx spl => splx c cur spl ;; ret tt
  end.

(** A lock is acquired when it is not held, and released by its holder. *)
Definition spl_ok (L : gset lockid) (op : spl_op) (K : gset lockid) : Prop :=
  match op with
  | OpAcquire lk => lk ∈ L /\ lk ∉ K
  | OpRelease lk => lk ∈ K
  | OpSplx spl => level spl
  end.

Definition spl_after (op : spl_op) (a : Z * gset lockid) : Z * gset lockid :=
  match op with
  | OpAcquire lk => (fst a, {[lk]} ∪ snd a)
  | OpRelease lk => (fst a, snd a ∖ {[lk]})
  | OpSplx spl => (spl, snd a)
  end.

Fixpoint spl_trace_ok (L : gset lockid) (ops : list spl_op) (a : Z * gset lockid) : Prop :=
  match ops with
  | [] => True
  | op :: ops' => spl_ok L op (snd a) /\ spl_trace_ok L ops' (spl_after op a)
  end.

Fixpoint run_spls (c cur : Z) (ops : list spl_op) : M intr unit :=
  match ops with [] => ret tt | op :: ops' => run_spl c cur op ;; run_spls c cur ops' end.

Lemma wp_run_spl i c cur b L op s K (Q : unit -> intr -> Prop) E :
  (forall lk, lk ∈ L -> i_locks i !! lk = Some free_lock) -> K ⊆ L -> few L -> level s -> spl_ok L op K ->
  Q tt (mid i c cur b (fst (spl_after op (s, K))) (snd (spl_after op (s, K)))) ->
  wp (run_spl c cur op) Q E (mid i c cur b s K).
Proof.
  intros Hfree HK Hfew Hs Hok HQ. assert (few K) by (pose proof (subseteq_size _ _ HK); unfold few in *; lia).
  destruct op as [lk|lk|spl]; cbn in *.
  - destruct Hok. apply wp_spin_acquire; auto.
  - apply wp_spin_release; auto.
  - apply wp_bind. destruct Hs as [-> | ->], Hok as [-> | ->].
    + by apply wp_splx_same, wp_ret.
    + by apply wp_splx_up; [|apply wp_ret].
    + by apply wp_splx_down; [|apply wp_ret].
    + by apply wp_splx_same, wp_ret.
Qed.

Lemma spl_after_ok L op s K :
  K ⊆ L -> level s -> spl_ok L op K -> snd (spl_after op (s, K)) ⊆ L /\ level (fst (spl_after op (s, K))).
Proof. destruct op as [lk|lk|spl]; cbn; intros HK Hs Hok; split; try done; set_solver. Qed.

Lemma run_spls_mid i c cur b L ops s K :
  (forall lk, lk ∈ L -> i_locks i !! lk = Some free_lock) -> K ⊆ L -> few L -> level s -> spl_trace_ok L ops (s, K) ->
  exists s' K', run_spls c cur ops (mid i c cur b s K) = Ret tt (mid i c cur b s' K') /\ (s', K') = fold_left (fun a op => spl_after op a) ops (s, K).
Proof.
  intros Hfree. revert s K. induction ops as [|op ops IH]; intros s K HK Hfew Hs Hok; cbn [run_spls fold_left spl_trace_ok] in *.
  { by exists s, K. }
  destruct Hok as [Hop Hok]. destruct (spl_after_ok L op s K HK Hs Hop) as [HK' Hs'].
  pose proof (wp_run_spl i c cur b L op s K (fun _ j => j = mid i c cur b (fst (spl_after op (s, K))) (snd (spl_after op (s, K))))
    (fun _ _ => False) Hfree HK Hfew Hs Hop eq_refl) as W.
  destruct (wp_ret_inv _ _ _ W) as ([] & j & E & ->). unfold bind. rewrite E.
  cbn [snd] in Hok. destruct (spl_after op (s, K)) as [s1 K1]. cbn [fst snd] in *. by apply IH.
Qed.

(** C15: However acquisitions and releases of spinlocks and changes of the
    interrupt level are ordered on a processor, nested or not: none of the
    operations panics or waits for a lock this processor holds, afterwards
    [c_spinlocks] is the number of locks held, [t_iplhigh_count] that number
    plus one if the level is [IPL_HIGH], and the processor takes interrupts
    exactly when it holds no lock and the level is [IPL_NONE]. *)
Theorem spl_spinlock_accounting i c cur b L ops s K s' K' :
  (forall lk, lk ∈ L -> i_locks i !! lk = Some free_lock) -> K ⊆ L -> few L -> level s -> spl_trace_ok L ops (s, K) ->
  fold_left (fun a op => spl_after op a) ops (s, K) = (s', K') ->
  exists j x y, run_spls c cur ops (mid i c cur b s K) = Ret tt j /\
    i_threads j !! cur = Some x /\ i_cpus j !! c = Some y /\
    t_curspl x = s' /\ t_iplhigh_count x = s' + Z.of_nat (size K') /\ c_spinlocks y = Z.of_nat (size K') /\
    (c_irq y = true <-> K' = ∅ /\ s' = IPL_NONE) /\
    (forall lk, lk ∈ L -> i_locks j !! lk = Some (if decide (lk ∈ K') then locked_by c else free_lock)).
Proof.
  intros Hfree HK Hfew Hs Hok Hf. destruct (run_spls_mid i c cur b L ops s K Hfree HK Hfew Hs Hok) as (s1 & K1 & E & E1).
  rewrite Hf in E1. simplify_eq.
  assert (level s') as Hs'.
  { clear E. revert s K HK Hs Hok Hf. induction ops as [|op ops IH]; intros s K HK Hs Hok Hf; cbn in *; [by simplify_eq|].
    destruct Hok as [Hop Hok]. destruct (spl_after_ok L op s K HK Hs Hop) as [HK' Hs'']. destruct (spl_after op (s, K)) as [s2 K2]. by eapply IH. }
  do 3 eexists. split; [exact E|]. cbn [mid i_threads i_cpus]. rewrite !lookup_insert_eq. do 2 (split; [done|]).
  cbn [t_curspl t_iplhigh_count c_spinlocks c_irq]. split_and!; [done..| |].
  - rewrite Z.eqb_eq. pose proof (size_empty_iff K') as Hz. rewrite leibniz_equiv_iff in Hz. unfold level, IPL_NONE, IPL_HIGH in *.
    rewrite <- Hz. lia.
  - intros lk Hlk. case_decide; [by apply mid_lock | rewrite mid_nolock by done; auto].
Qed.

(** The example of the comment in [spl.c]: [red] is taken, the level raised,
    [blue] taken, the level restored and the locks given back out of order. *)
Definition demo_intr : intr :=
  Intr {[1 := IState false IPL_NONE 0]} {[0 := ICpu 0 true]} {[wc_lock 1 := free_lock; wc_lock 2 := free_lock]}.
Definition red_blue : list spl_op :=
  [OpAcquire (wc_lock 1); OpSplx IPL_HIGH; OpAcquire (wc_lock 2); OpSplx IPL_NONE; OpRelease (wc_lock 1); OpRelease (wc_lock 2)].

Lemma spl_spinlock_accounting_witness :
  exists j y, run_spls 0 1 red_blue demo_intr = Ret tt j /\ i_cpus j !! 0 = Some y /\ (c_irq y = true <-> True).
Proof.
  destruct (spl_spinlock_accounting demo_intr 0 1 false {[wc_lock 1; wc_lock 2]} red_blue IPL_NONE ∅ IPL_NONE ∅)
    as (j & x & y & H1 & _ & H2 & _ & _ & _ & H3 & _).
  - intros lk Hlk. assert (lk = wc_lock 1 \/ lk = wc_lock 2) as [-> | ->] by set_solver; by vm_compute.
  - set_solver.
  - by vm_compute.
  - by left.
  - cbn. unfold level. set_solver.
  - by vm_compute.
  - exists j, y. split; [exact H1|]. split; [exact H2|]. rewrite H3. done.
Defined.
