(* ===== verification/KThread.v ===== *)
(** * Threads, [kern/thread/thread.c], with the semaphores of [synch.c], the
    clock code of [clock.c] and the interrupt entry of [trap.c]

    The state of the thread system of a machine with several processors.  The
    functions get the processor [c] they run on as an argument; [curthread]
    is that processor's [c_curthread].

    Control that leaves a function in the middle (a context switch, or the
    end of a stretch of code that holds no lock and after which the other
    processors matter) is explicit: [t_frames] holds what is on the kernel
    stack of a thread above the point it stopped at, and the functions are
    cut where another processor can act.  What a piece touches of the shared
    state it touches under the spinlock that protects it; between the locks a
    piece takes one after the other ([thread_exit] and [thread_fork] take
    that of the process first and that of the run queue later) it uses only
    what belongs to its processor, so that it is one step.  [wchan_wakeall] is
    one step too: the orders in which another processor enqueues a thread
    between two of its wakeups are left out.

    [as_activate], which loads the address space of the thread switched to,
    is not part of the state here. *)

From stdpp Require Import strings.
From S2P Require Import Prelude Threadlist Spl.

Inductive threadstate_t := S_RUN | S_READY | S_SLEEP | S_ZOMBIE.

#[export] Instance threadstate_eq_dec : EqDecision threadstate_t.
Proof. solve_decision. Defined.

(** The local variables of [thread_consider_migration] at the points where
    it holds no lock: counting (at processor [i]), taking victims, giving
    them to processor [i], putting the rest back. *)
Inductive migration :=
| MCount (i my_count total_count : Z)
| MTake (my_count one_share : Z)
| MGive (i one_share to_send : Z)
| MPutback.

(** What a stopped thread returns into: the interrupt code of [mips_trap],
    [P], [clocksleep], or [hardclock] by way of the migration code. *)
Inductive frame :=
| InIrq (doadjust old_in : bool)
| InP (sem : Z)
| InClocksleep (num_secs : Z)
| InMigrate (m : migration).

#[export] Instance migration_eq_dec : EqDecision migration.
Proof. solve_decision. Defined.

#[export] Instance frame_eq_dec : EqDecision frame.
Proof. solve_decision. Defined.

(** The saved context: that of [thread_switch] with its local [spl], or that
    of a new thread. *)
Inductive switchframe := SavedSwitch (spl : Z) | SavedStartup.

(** [struct thread], less the interrupt state of [Spl] and the list node of
    [Threadlist].  [t_stack] is [None] for the boot stack and otherwise the
    four words at the end of the stack. *)
Record thread := Thread {
  t_wchan_name : option string;
  t_state : threadstate_t;
  t_stack : option (list Z);
  t_context : option switchframe;
  t_cpu : option Z;
  t_proc : option Z;
  t_frames : list frame
}.

(** [struct cpu], less what is in [Spl]; [c_ipi_line] is the interrupt line
    [mainbus_send_ipi] raises, and [c_woken] says that the processor took an
    interrupt since it began to wait. *)
Record cpu := Cpu {
  c_curthread : Z;
  c_hardclocks : Z;
  c_isidle : bool;
  c_ipi_pending : Z;
  c_ipi_line : bool;
  c_woken : bool
}.

Record ksys := KSys {
  k_threads : gmap Z thread;
  k_cpus : gmap Z cpu;
  k_numcpus : Z;
  k_tls : tlstore;
  k_int : intr;
  k_wchans : gmap Z string;
  k_sems : gmap Z Z;
  k_procs : gmap Z Z
}.

(** The lists of the system; the last two are the local variables [victims]
    of [thread_consider_migration] and [list] of [wchan_wakeall]. *)
Definition c_runqueue (c : Z) : Z := 5 * c.
Definition c_zombies (c : Z) : Z := 5 * c + 1.
Definition wc_threads (w : Z) : Z := 5 * w + 2.
Definition victims (c : Z) : Z := 5 * c + 3.
Definition wakeall_list (c : Z) : Z := 5 * c + 4.

Definition with_threads f s := KSys (f (k_threads s)) (k_cpus s) (k_numcpus s) (k_tls s) (k_int s) (k_wchans s) (k_sems s) (k_procs s).
Definition with_cpus f s := KSys (k_threads s) (f (k_cpus s)) (k_numcpus s) (k_tls s) (k_int s) (k_wchans s) (k_sems s) (k_procs s).
Definition with_tls h s := KSys (k_threads s) (k_cpus s) (k_numcpus s) h (k_int s) (k_wchans s) (k_sems s) (k_procs s).
Definition with_int i s := KSys (k_threads s) (k_cpus s) (k_numcpus s) (k_tls s) i (k_wchans s) (k_sems s) (k_procs s).
Definition with_sems f s := KSys (k_threads s) (k_cpus s) (k_numcpus s) (k_tls s) (k_int s) (k_wchans s) (f (k_sems s)) (k_procs s).
Definition with_procs f s := KSys (k_threads s) (k_cpus s) (k_numcpus s) (k_tls s) (k_int s) (k_wchans s) (k_sems s) (f (k_procs s)).

Definition load_thread (t : Z) : M ksys thread := s <- get ;; oob (k_threads s !! t).
Definition store_thread (t : Z) (th : thread) : M ksys unit := modify (with_threads <[t := th]>).
Definition upd_thread (t : Z) (f : thread -> thread) : M ksys unit := th <- load_thread t ;; store_thread t (f th).
Definition load_cpu (c : Z) : M ksys cpu := s <- get ;; oob (k_cpus s !! c).
Definition upd_cpu (c : Z) (f : cpu -> cpu) : M ksys unit := x <- load_cpu c ;; modify (with_cpus <[c := f x]>).
Definition in_tls {A} (m : M tlstore A) : M ksys A := zoom k_tls with_tls m.

Definition set_wchan_name n th := Thread n (t_state th) (t_stack th) (t_context th) (t_cpu th) (t_proc th) (t_frames th).
Definition set_state x th := Thread (t_wchan_name th) x (t_stack th) (t_context th) (t_cpu th) (t_proc th) (t_frames th).
Definition set_stack x th := Thread (t_wchan_name th) (t_state th) x (t_context th) (t_cpu th) (t_proc th) (t_frames th).
Definition set_context x th := Thread (t_wchan_name th) (t_state th) (t_stack th) x (t_cpu th) (t_proc th) (t_frames th).
Definition set_cpu x th := Thread (t_wchan_name th) (t_state th) (t_stack th) (t_context th) x (t_proc th) (t_frames th).
Definition set_proc x th := Thread (t_wchan_name th) (t_state th) (t_stack th) (t_context th) (t_cpu th) x (t_frames th).
Definition set_frames x th := Thread (t_wchan_name th) (t_state th) (t_stack th) (t_context th) (t_cpu th) (t_proc th) x.

Definition set_isidle b x := Cpu (c_curthread x) (c_hardclocks x) b (c_ipi_pending x) (c_ipi_line x) (c_woken x).
Definition set_curthread t x := Cpu t (c_hardclocks x) (c_isidle x) (c_ipi_pending x) (c_ipi_line x) (c_woken x).
Definition set_ipi p l x := Cpu (c_curthread x) (c_hardclocks x) (c_isidle x) p l (c_woken x).
Definition set_woken b x := Cpu (c_curthread x) (c_hardclocks x) (c_isidle x) (c_ipi_pending x) (c_ipi_line x) b.
Definition set_hardclocks n x := Cpu (c_curthread x) n (c_isidle x) (c_ipi_pending x) (c_ipi_line x) (c_woken x).

Definition THREAD_STACK_MAGIC : Z := 0xbaadf00d.
Definition IPI_PANIC : Z := 0.
Definition IPI_OFFLINE : Z := 1.
Definition IPI_UNIDLE : Z := 2.
Definition IPI_TLBSHOOTDOWN : Z := 3.
Definition MIGRATE_HARDCLOCKS : Z := 16.

Section operations.
Context `{DebugAsserts} (c : Z).

Definition curthread : M ksys Z := x <- load_cpu c ;; ret (c_curthread x).

(** Run interrupt-level code of [Spl] for the current thread. *)
Definition in_int {A} (m : Z -> M intr A) : M ksys A := cur <- curthread ;; zoom k_int with_int (m cur).

Definition acquire (lk : lockid) : M ksys unit := in_int (fun cur => spinlock_acquire c cur lk).
Definition release (lk : lockid) : M ksys unit := in_int (fun cur => spinlock_release c cur lk).
Definition do_i_hold (lk : lockid) : M ksys bool := in_int (fun _ => spinlock_do_i_hold c lk).
Definition raise_ipl : M ksys Z := in_int (fun cur => splhigh c cur).
Definition set_ipl (spl : Z) : M ksys Z := in_int (fun cur => splx c cur spl).

(** ** Creation and destruction *)

Definition thread_checkstack_init (t : Z) : M ksys unit :=
  upd_thread t (set_stack (Some [THREAD_STACK_MAGIC; THREAD_STACK_MAGIC; THREAD_STACK_MAGIC; THREAD_STACK_MAGIC])).

Definition thread_checkstack (t : Z) : M ksys unit :=
  th <- load_thread t ;;
  match t_stack th with
  | None => ret tt
  | Some w =>
      w0 <- oob (w !! 0%nat) ;; KASSERT (w0 =? THREAD_STACK_MAGIC) ;;
      w1 <- oob (w !! 1%nat) ;; KASSERT (w1 =? THREAD_STACK_MAGIC) ;;
      w2 <- oob (w !! 2%nat) ;; KASSERT (w2 =? THREAD_STACK_MAGIC) ;;
      w3 <- oob (w !! 3%nat) ;; KASSERT (w3 =? THREAD_STACK_MAGIC)
  end.

(** [kmalloc] gives the address [new], or nothing; [got_name] tells whether
    [kstrdup] succeeds. *)
Definition thread_create (new : option Z) (got_name : bool) : M ksys (option Z) :=
  match new with
  | None => ret None
  | Some t =>
      if negb got_name then ret None
      else
        store_thread t (Thread (Some "NEW"%string) S_READY None None None None []) ;;
        in_tls (threadlistnode_init t) ;;
        zoom k_int with_int (store_istate t (IState false IPL_HIGH 1)) ;;
        ret (Some t)
  end.

(** [kfree] of the thread structure. *)
Definition free_thread (t : Z) : M ksys unit :=
  modify (with_threads (delete t)) ;;
  in_tls (modify (fun h => TLStore (delete (t_listnode t) (tl_nodes h)) (tl_counts h))) ;;
  zoom k_int with_int (modify (fun i => Intr (delete t (i_threads i)) (i_cpus i) (i_locks i))).

Definition thread_destroy (t : Z) : M ksys unit :=
  cur <- curthread ;;
  KASSERT (negb (t =? cur)) ;;
  th <- load_thread t ;;
  KASSERT (negb (bool_decide (t_state th = S_RUN))) ;;
  KASSERT (is_null (t_proc th)) ;;
  in_tls (threadlistnode_cleanup t) ;;
  upd_thread t (set_wchan_name (Some "DESTROYED"%string)) ;;
  free_thread t.

Fixpoint exorcise_loop (fuel : nat) : M ksys unit :=
  match fuel with
  | O => fun _ => OutOfFuel
  | S fuel' =>
      z <- in_tls (threadlist_remhead (c_zombies c)) ;;
      match z with
      | None => ret tt
      | Some z =>
          cur <- curthread ;;
          KASSERT (negb (z =? cur)) ;;
          th <- load_thread z ;;
          KASSERT (bool_decide (t_state th = S_ZOMBIE)) ;;
          thread_destroy z ;;
          exorcise_loop fuel'
      end
  end.

(** A list holds each thread at most once. *)
Definition thread_fuel (s : ksys) : nat := S (size (k_threads s)).

Definition exorcise : M ksys unit := n <- gets thread_fuel ;; exorcise_loop n.

(** ** Processes *)

Definition load_numthreads (p : Z) : M ksys Z := s <- get ;; oob (k_procs s !! p).

Definition proc_addthread (p t : Z) : M ksys unit :=
  th <- load_thread t ;;
  KASSERT (is_null (t_proc th)) ;;
  acquire (p_lock p) ;;
  n <- load_numthreads p ;;
  modify (with_procs <[p := u32 (n + 1)]>) ;;
  release (p_lock p) ;;
  spl <- raise_ipl ;;
  upd_thread t (set_proc (Some p)) ;;
  set_ipl spl ;; ret tt.

Definition proc_remthread (t : Z) : M ksys unit :=
  th <- load_thread t ;;
  KASSERT (negb (is_null (t_proc th))) ;;
  p <- oob (t_proc th) ;;
  acquire (p_lock p) ;;
  n <- load_numthreads p ;;
  KASSERT (0 <? n) ;;
  modify (with_procs <[p := u32 (n - 1)]>) ;;
  release (p_lock p) ;;
  spl <- raise_ipl ;;
  upd_thread t (set_proc None) ;;
  set_ipl spl ;; ret tt.

(** ** Making threads runnable *)

(** [mainbus_send_ipi] raises the line of the target. *)
Definition ipi_send (target code : Z) : M ksys unit :=
  KASSERT ((0 <=? code) && (code <? 32)) ;;
  acquire (c_ipi_lock target) ;;
  upd_cpu target (fun x => set_ipi (Z.lor (c_ipi_pending x) (u32 (Z.shiftl 1 code))) true x) ;;
  release (c_ipi_lock target).

Definition thread_make_runnable (target : Z) (already_have_lock : bool) : M ksys unit :=
  th <- load_thread target ;;
  targetcpu <- oob (t_cpu th) ;;
  (if already_have_lock then b <- do_i_hold (c_runqueue_lock targetcpu) ;; KASSERT b
   else acquire (c_runqueue_lock targetcpu)) ;;
  upd_thread target (set_state S_READY) ;;
  in_tls (threadlist_addtail (c_runqueue targetcpu) target) ;;
  x <- load_cpu targetcpu ;;
  when (c_isidle x && negb (targetcpu =? c)) (ipi_send targetcpu IPI_UNIDLE) ;;
  when (negb already_have_lock) (release (c_runqueue_lock targetcpu)).

(** [new], [got_name] and [got_stack] are the results of the allocations. *)
Definition thread_fork (new : option Z) (got_name got_stack : bool) (proc : option Z) : M ksys unit :=
  newthread <- thread_create new got_name ;;
  match newthread with
  | None => throw ENOMEM
  | Some t =>
      if negb got_stack then thread_destroy t ;; throw ENOMEM
      else
        thread_checkstack_init t ;;
        cur <- curthread ;;
        me <- load_thread cur ;;
        upd_thread t (set_cpu (t_cpu me)) ;;
        p <- oob (match proc with Some p => Some p | None => t_proc me end) ;;
        proc_addthread p t ;;
        zoom k_int with_int (x <- load_istate t ;; store_istate t (IState (t_in_interrupt x) (t_curspl x) (i32 (t_iplhigh_count x + 1)))) ;;
        upd_thread t (set_context (Some SavedStartup)) ;;
        thread_make_runnable t false
  end.

(** ** Context switches *)

(** The end of [thread_switch], and the beginning of [thread_startup], in the
    context of the thread switched to. *)
Definition switch_tail : M ksys unit :=
  cur <- curthread ;;
  upd_thread cur (set_wchan_name None) ;;
  upd_thread cur (set_state S_RUN) ;;
  release (c_runqueue_lock c) ;;
  exorcise.

(** [switchframe_switch] to [next]: execution goes on where [next] stopped. *)
Definition switch_to (next : Z) : M ksys unit :=
  upd_cpu c (set_isidle false) ;;
  upd_cpu c (set_curthread next) ;;
  th <- load_thread next ;;
  frame <- oob (t_context th) ;;
  match frame with
  | SavedSwitch spl => switch_tail ;; set_ipl spl ;; ret tt
  | SavedStartup => switch_tail ;; set_ipl IPL_NONE ;; ret tt
  end.

(** One round of the loop that waits for a thread to run; [true] means that
    [cpu_idle] is called. *)
Definition pick_next : M ksys bool :=
  next <- in_tls (threadlist_remhead (c_runqueue c)) ;;
  match next with
  | None => release (c_runqueue_lock c) ;; ret true
  | Some t => switch_to t ;; ret false
  end.

(** [cpu_idle] returns after an interrupt has been taken. *)
Definition idle_wakeup : M ksys bool :=
  upd_cpu c (set_woken false) ;;
  acquire (c_runqueue_lock c) ;;
  pick_next.

Definition put_away (cur : Z) (newstate : threadstate_t) (wc : option Z) : M ksys unit :=
  match newstate with
  | S_RUN => panic
  | S_READY => thread_make_runnable cur true
  | S_SLEEP =>
      w <- oob wc ;;
      s <- get ;;
      wc_name <- oob (k_wchans s !! w) ;;
      upd_thread cur (set_wchan_name (Some wc_name)) ;;
      in_tls (threadlist_addtail (wc_threads w) cur) ;;
      release (wc_lock w)
  | S_ZOMBIE =>
      upd_thread cur (set_wchan_name (Some "ZOMBIE"%string)) ;;
      in_tls (threadlist_addtail (c_zombies c) cur)
  end.

(** The result is [true] when the processor goes idle in it. *)
Definition thread_switch (newstate : threadstate_t) (wc : option Z) : M ksys bool :=
  cur <- curthread ;;
  me <- load_thread cur ;;
  DEBUGASSERT (bool_decide (t_cpu me = Some c)) ;;
  spl <- raise_ipl ;;
  x <- load_cpu c ;;
  if c_isidle x then set_ipl spl ;; ret false
  else
    thread_checkstack cur ;;
    acquire (c_runqueue_lock c) ;;
    e <- in_tls (threadlist_isempty (c_runqueue c)) ;;
    if bool_decide (newstate = S_READY) && e then
      release (c_runqueue_lock c) ;;
      set_ipl spl ;; ret false
    else
      put_away cur newstate wc ;;
      upd_thread cur (set_state newstate) ;;
      upd_thread cur (set_context (Some (SavedSwitch spl))) ;;
      upd_cpu c (set_isidle true) ;;
      pick_next.

Definition thread_yield : M ksys bool := thread_switch S_READY None.

Definition thread_exit : M ksys bool :=
  cur <- curthread ;;
  proc_remthread cur ;;
  th <- load_thread cur ;;
  KASSERT (is_null (t_proc th)) ;;
  thread_checkstack cur ;;
  raise_ipl ;;
  thread_switch S_ZOMBIE None.

(** ** Wait channels *)

Definition wchan_sleep (wc : Z) : M ksys bool :=
  cur <- curthread ;;
  x <- zoom k_int with_int (load_istate cur) ;;
  KASSERT (negb (t_in_interrupt x)) ;;
  b <- do_i_hold (wc_lock wc) ;;
  KASSERT b ;;
  y <- zoom k_int with_int (load_icpu c) ;;
  KASSERT (c_spinlocks y =? 1) ;;
  thread_switch S_SLEEP (Some wc).

Definition wchan_wakeone (wc : Z) : M ksys unit :=
  b <- do_i_hold (wc_lock wc) ;;
  KASSERT b ;;
  target <- in_tls (threadlist_remhead (wc_threads wc)) ;;
  match target with
  | None => ret tt
  | Some t => thread_make_runnable t false
  end.

Fixpoint move_all (fuel : nat) (from to : Z) : M ksys unit :=
  match fuel with
  | O => fun _ => OutOfFuel
  | S fuel' =>
      target <- in_tls (threadlist_remhead from) ;;
      match target with
      | None => ret tt
      | Some t => in_tls (threadlist_addtail to t) ;; move_all fuel' from to
      end
  end.

Fixpoint wake_list (fuel : nat) (from : Z) : M ksys unit :=
  match fuel with
  | O => fun _ => OutOfFuel
  | S fuel' =>
      target <- in_tls (threadlist_remhead from) ;;
      match target with
      | None => ret tt
      | Some t => thread_make_runnable t false ;; wake_list fuel' from
      end
  end.

Definition wchan_wakeall (wc : Z) : M ksys unit :=
  b <- do_i_hold (wc_lock wc) ;;
  KASSERT b ;;
  in_tls (threadlist_init (wakeall_list c)) ;;
  n <- gets thread_fuel ;;
  move_all n (wc_threads wc) (wakeall_list c) ;;
  wake_list n (wakeall_list c) ;;
  in_tls (threadlist_cleanup (wakeall_list c)).

Definition wchan_isempty (wc : Z) : M ksys bool :=
  b <- do_i_hold (wc_lock wc) ;;
  KASSERT b ;;
  in_tls (threadlist_isempty (wc_threads wc)).

(** ** Semaphores *)

Definition load_sem (s : Z) : M ksys Z := k <- get ;; oob (k_sems k !! s).
Definition store_sem (s n : Z) : M ksys unit := modify (with_sems <[s := n]>).

Definition push_frame (f : frame) : M ksys unit := cur <- curthread ;; upd_thread cur (fun th => set_frames (f :: t_frames th) th).
Definition pop_frame : M ksys unit := cur <- curthread ;; upd_thread cur (fun th => set_frames (tail (t_frames th)) th).

(** The loop of [P], with the lock held: it ends, or the thread sleeps in it. *)
Definition P_loop (s : Z) : M ksys bool :=
  count <- load_sem s ;;
  if count =? 0 then
    push_frame (InP s) ;;
    wchan_sleep s
  else
    KASSERT (0 <? count) ;;
    store_sem s (u32 (count - 1)) ;;
    release (wc_lock s) ;;
    ret false.

Definition P (s : Z) : M ksys bool :=
  cur <- curthread ;;
  x <- zoom k_int with_int (load_istate cur) ;;
  KASSERT (negb (t_in_interrupt x)) ;;
  acquire (wc_lock s) ;;
  P_loop s.

(** [wchan_sleep] has returned from [thread_switch]. *)
Definition P_resume (s : Z) : M ksys bool :=
  pop_frame ;;
  acquire (wc_lock s) ;;
  P_loop s.

Definition V (s : Z) : M ksys unit :=
  acquire (wc_lock s) ;;
  count <- load_sem s ;;
  store_sem s (u32 (count + 1)) ;;
  count <- load_sem s ;;
  KASSERT (0 <? count) ;;
  wchan_wakeone s ;;
  release (wc_lock s).

(** ** The clock *)

Definition timerclock (lbolt : Z) : M ksys unit :=
  acquire (wc_lock lbolt) ;;
  wchan_wakeall lbolt ;;
  release (wc_lock lbolt).

Definition clocksleep_loop (lbolt num_secs : Z) : M ksys bool :=
  if 0 <? num_secs then
    push_frame (InClocksleep num_secs) ;;
    wchan_sleep lbolt
  else
    release (wc_lock lbolt) ;;
    ret false.

Definition clocksleep (lbolt num_secs : Z) : M ksys bool :=
  acquire (wc_lock lbolt) ;;
  clocksleep_loop lbolt num_secs.

Definition clocksleep_resume (lbolt num_secs : Z) : M ksys bool :=
  pop_frame ;;
  acquire (wc_lock lbolt) ;;
  clocksleep_loop lbolt (i32 (num_secs - 1)).


(** ** Migration *)

Definition load_runqueue_count (i : Z) : M ksys Z := in_tls (load_count (c_runqueue i)).

Fixpoint take_victims (n : nat) : M ksys unit :=
  match n with
  | O => ret tt
  | S n' =>
      t <- in_tls (threadlist_remtail (c_runqueue c)) ;;
      t <- oob t ;;
      in_tls (threadlist_addhead (victims c) t) ;;
      take_victims n'
  end.

(** The inner loop for processor [i]; the result is [to_send]. *)
Fixpoint give_loop (fuel : nat) (i one_share to_send : Z) : M ksys Z :=
  count <- load_runqueue_count i ;;
  if (count <? one_share) && (0 <? to_send) then
    match fuel with
    | O => fun _ => OutOfFuel
    | S fuel' =>
        t <- in_tls (threadlist_remhead (victims c)) ;;
        cur <- curthread ;;
        if bool_decide (t = Some cur) then
          in_tls (threadlist_addtail (victims c) cur) ;;
          give_loop fuel' i one_share (u32 (to_send - 1))
        else
          t <- oob t ;;
          upd_thread t (set_cpu (Some i)) ;;
          in_tls (threadlist_addtail (c_runqueue i) t) ;;
          x <- load_cpu i ;;
          when (c_isidle x) (ipi_send i IPI_UNIDLE) ;;
          give_loop fuel' i one_share (u32 (to_send - 1))
    end
  else ret to_send.

Definition DIVROUNDUP (a b : Z) : Z := u32 (u32 (a + b) - 1) / b.

(** From one point without locks to the next; [None] is the end. *)
Definition migration_step (m : migration) : M ksys (option migration) :=
  numcpus <- gets k_numcpus ;;
  match m with
  | MCount i my_count total_count =>
      if i <? numcpus then
        acquire (c_runqueue_lock i) ;;
        n <- load_runqueue_count i ;;
        let total_count := u32 (total_count + n) in
        let my_count := if i =? c then n else my_count in
        release (c_runqueue_lock i) ;;
        ret (Some (MCount (i + 1) my_count total_count))
      else
        let one_share := DIVROUNDUP total_count numcpus in
        if my_count <? one_share then ret None else ret (Some (MTake my_count one_share))
  | MTake my_count one_share =>
      let to_send := u32 (my_count - one_share) in
      in_tls (threadlist_init (victims c)) ;;
      acquire (c_runqueue_lock c) ;;
      take_victims (Z.to_nat to_send) ;;
      release (c_runqueue_lock c) ;;
      ret (Some (MGive 0 one_share to_send))
  | MGive i one_share to_send =>
      if (i <? numcpus) && (0 <? to_send) then
        if i =? c then ret (Some (MGive (i + 1) one_share to_send))
        else
          acquire (c_runqueue_lock i) ;;
          to_send <- give_loop (Z.to_nat to_send) i one_share to_send ;;
          release (c_runqueue_lock i) ;;
          ret (Some (MGive (i + 1) one_share to_send))
      else ret (Some MPutback)
  | MPutback =>
      e <- in_tls (threadlist_isempty (victims c)) ;;
      when (negb e) (
        acquire (c_runqueue_lock c) ;;
        n <- gets thread_fuel ;;
        move_all n (victims c) (c_runqueue c) ;;
        release (c_runqueue_lock c)) ;;
      e <- in_tls (threadlist_isempty (victims c)) ;;
      KASSERT e ;;
      in_tls (threadlist_cleanup (victims c)) ;;
      ret None
  end.

(** ** Interrupts *)

(** The processor turns interrupts off when it takes one. *)
Definition irq_enter : M ksys unit :=
  cur <- curthread ;;
  y <- zoom k_int with_int (load_icpu c) ;;
  zoom k_int with_int (store_icpu c (ICpu (c_spinlocks y) false)) ;;
  x <- zoom k_int with_int (load_istate cur) ;;
  let old_in := t_in_interrupt x in
  (if t_curspl x =? 0 then
     KASSERT (t_iplhigh_count x =? 0) ;;
     zoom k_int with_int (store_istate cur (IState true IPL_HIGH (i32 (t_iplhigh_count x + 1)))) ;;
     push_frame (InIrq true old_in)
   else
     zoom k_int with_int (store_istate cur (IState true (t_curspl x) (t_iplhigh_count x))) ;;
     push_frame (InIrq false old_in)) ;;
  upd_cpu c (fun x => if c_isidle x then set_woken true x else x).

(** ... and back on when it returns to code that had them on. *)
Definition irq_exit : M ksys unit :=
  cur <- curthread ;;
  th <- load_thread cur ;;
  match t_frames th with
  | InIrq doadjust old_in :: _ =>
      pop_frame ;;
      x <- zoom k_int with_int (load_istate cur) ;;
      if doadjust then
        KASSERT (t_curspl x =? IPL_HIGH) ;;
        KASSERT (t_iplhigh_count x =? 1) ;;
        zoom k_int with_int (store_istate cur (IState old_in 0 (i32 (t_iplhigh_count x - 1)))) ;;
        y <- zoom k_int with_int (load_icpu c) ;;
        zoom k_int with_int (store_icpu c (ICpu (c_spinlocks y) true))
      else
        zoom k_int with_int (store_istate cur (IState old_in (t_curspl x) (t_iplhigh_count x)))
  | _ => panic
  end.

(** When [thread_switch] returns to interrupt code, the rest of that runs. *)
Definition return_to_caller : M ksys unit :=
  cur <- curthread ;;
  th <- load_thread cur ;;
  match t_frames th with
  | InIrq _ _ :: _ => irq_exit
  | _ => ret tt
  end.

Definition returning (m : M ksys bool) : M ksys unit :=
  idle <- m ;;
  if idle then ret tt else return_to_caller.

(** [hardclock], to the point where it yields or considers migration. *)
Definition hardclock : M ksys unit :=
  upd_cpu c (fun x => set_hardclocks (u32 (c_hardclocks x + 1)) x) ;;
  x <- load_cpu c ;;
  if c_hardclocks x mod MIGRATE_HARDCLOCKS =? 0 then push_frame (InMigrate (MCount 0 0 0))
  else returning thread_yield.

Definition migrate_continue : M ksys unit :=
  cur <- curthread ;;
  th <- load_thread cur ;;
  match t_frames th with
  | InMigrate m :: _ =>
      pop_frame ;;
      r <- migration_step m ;;
      match r with
      | Some m' => push_frame (InMigrate m')
      | None => returning thread_yield
      end
  | _ => panic
  end.

(** [cpu_halt] does not return; dumbvm panics on a TLB shootdown.  The bus
    code clears the line before the call. *)
Definition interprocessor_interrupt : M ksys unit :=
  upd_cpu c (fun x => set_ipi (c_ipi_pending x) false x) ;;
  acquire (c_ipi_lock c) ;;
  x <- load_cpu c ;;
  let bits := c_ipi_pending x in
  if Z.testbit bits IPI_PANIC || Z.testbit bits IPI_OFFLINE then release (c_ipi_lock c) ;; (fun _ => OutOfFuel)
  else
    when (Z.testbit bits IPI_TLBSHOOTDOWN) panic ;;
    upd_cpu c (fun x => set_ipi 0 (c_ipi_line x) x) ;;
    release (c_ipi_lock c).

Definition irq_hardclock : M ksys unit := irq_enter ;; hardclock.
Definition irq_timerclock (lbolt : Z) : M ksys unit := irq_enter ;; timerclock lbolt ;; irq_exit.
Definition irq_V (s : Z) : M ksys unit := irq_enter ;; V s ;; irq_exit.
Definition irq_ipi : M ksys unit := irq_enter ;; interprocessor_interrupt ;; irq_exit.

End operations.
