(* ===== verification/KThreadInv.v ===== *)
(** * The invariant of the thread system

    Every thread is in exactly one place, and its state, processor, saved
    context and interrupt accounting agree with that place. *)

From S2P Require Import Prelude Threadlist Spl KThread.

(** ** Processors that hold locks

    [hold c cur b lev K s] is [s] with the spinlocks [K] taken by processor
    [c], which runs [cur] at level [lev]. *)

Definition hold (c cur : Z) (b : bool) (lev : Z) (K : gset lockid) (s : ksys) : ksys :=
  with_int (mid (k_int s) c cur b lev K) s.

Definition curthread_is (c cur : Z) (s : ksys) : Prop := exists x, k_cpus s !! c = Some x /\ c_curthread x = cur.

Section rules.
Context `{DebugAsserts} (c cur : Z) (b : bool).
Implicit Types (s : ksys) (K : gset lockid) (lev : Z).

Lemma wp_load_thread t th (Q : thread -> ksys -> Prop) E s : k_threads s !! t = Some th -> Q th s -> wp (load_thread t) Q E s.
Proof. intros Hth HQ. unfold load_thread. wp_steps. by eapply wp_oob. Qed.

Lemma wp_load_cpu d x (Q : cpu -> ksys -> Prop) E s : k_cpus s !! d = Some x -> Q x s -> wp (load_cpu d) Q E s.
Proof. intros Hx HQ. unfold load_cpu. wp_steps. by eapply wp_oob. Qed.

Lemma wp_upd_thread t th f (Q : unit -> ksys -> Prop) E s :
  k_threads s !! t = Some th -> Q tt (with_threads <[t := f th]> s) -> wp (upd_thread t f) Q E s.
Proof. intros Hth HQ. unfold upd_thread, store_thread. wp_steps. eapply wp_load_thread; [done|]. by wp_steps. Qed.

Lemma wp_upd_cpu d x f (Q : unit -> ksys -> Prop) E s :
  k_cpus s !! d = Some x -> Q tt (with_cpus <[d := f x]> s) -> wp (upd_cpu d f) Q E s.
Proof. intros Hx HQ. unfold upd_cpu. wp_steps. eapply wp_load_cpu; [done|]. by wp_steps. Qed.

Lemma wp_curthread (Q : Z -> ksys -> Prop) E s : curthread_is c cur s -> Q cur s -> wp (curthread c) Q E s.
Proof. intros (x & Hx & <-) HQ. unfold curthread. wp_steps. eapply wp_load_cpu; [done|]. by wp_steps. Qed.

Lemma wp_in_int {A} (m : Z -> M intr A) (Q : A -> ksys -> Prop) E s :
  curthread_is c cur s -> wp (m cur) (fun a i => Q a (with_int i s)) (fun e i => E e (with_int i s)) (k_int s) ->
  wp (in_int c m) Q E s.
Proof. intros Hc HQ. unfold in_int. wp_steps. eapply wp_curthread; [done|]. by wp_steps. Qed.

Lemma wp_acq lev K lk (Q : unit -> ksys -> Prop) E s :
  curthread_is c cur s -> level lev -> few K -> lk ∉ K -> i_locks (k_int s) !! lk = Some free_lock ->
  Q tt (hold c cur b lev ({[lk]} ∪ K) s) -> wp (acquire c lk) Q E (hold c cur b lev K s).
Proof. intros Hc Hl HK Hlk Hf HQ. apply wp_in_int; [done|]. by apply wp_spin_acquire. Qed.

Lemma wp_rel lev K lk (Q : unit -> ksys -> Prop) E s :
  curthread_is c cur s -> level lev -> few K -> lk ∈ K -> i_locks (k_int s) !! lk = Some free_lock ->
  Q tt (hold c cur b lev (K ∖ {[lk]}) s) -> wp (release c lk) Q E (hold c cur b lev K s).
Proof. intros Hc Hl HK Hlk Hf HQ. apply wp_in_int; [done|]. by apply wp_spin_release. Qed.

Lemma wp_hold_p lev K lk (Q : bool -> ksys -> Prop) E s :
  curthread_is c cur s -> i_locks (k_int s) !! lk = Some free_lock ->
  Q (bool_decide (lk ∈ K)) (hold c cur b lev K s) -> wp (do_i_hold c lk) Q E (hold c cur b lev K s).
Proof. intros Hc Hf HQ. apply wp_in_int; [done|]. by apply wp_do_i_hold. Qed.

Lemma wp_raise_low K (Q : Z -> ksys -> Prop) E s :
  curthread_is c cur s -> few K -> Q IPL_NONE (hold c cur b IPL_HIGH K s) -> wp (raise_ipl c) Q E (hold c cur b IPL_NONE K s).
Proof. intros Hc HK HQ. apply wp_in_int; [done|]. by apply wp_splx_up. Qed.

Lemma wp_raise_high K (Q : Z -> ksys -> Prop) E s :
  curthread_is c cur s -> Q IPL_HIGH (hold c cur b IPL_HIGH K s) -> wp (raise_ipl c) Q E (hold c cur b IPL_HIGH K s).
Proof. intros Hc HQ. apply wp_in_int; [done|]. by apply wp_splx_same. Qed.

Lemma wp_lower K (Q : Z -> ksys -> Prop) E s :
  curthread_is c cur s -> few K -> Q IPL_HIGH (hold c cur b IPL_NONE K s) -> wp (set_ipl c IPL_NONE) Q E (hold c cur b IPL_HIGH K s).
Proof. intros Hc HK HQ. apply wp_in_int; [done|]. by apply wp_splx_down. Qed.

Lemma wp_set_same lev K (Q : Z -> ksys -> Prop) E s :
  curthread_is c cur s -> Q lev (hold c cur b lev K s) -> wp (set_ipl c lev) Q E (hold c cur b lev K s).
Proof. intros Hc HQ. apply wp_in_int; [done|]. by apply wp_splx_same. Qed.

(** Raising the level and restoring it. *)
Lemma wp_raise lev K (Q : Z -> ksys -> Prop) E s :
  curthread_is c cur s -> level lev -> few K -> Q lev (hold c cur b IPL_HIGH K s) -> wp (raise_ipl c) Q E (hold c cur b lev K s).
Proof. intros Hc [-> | ->] HK HQ; [by apply wp_raise_low | by apply wp_raise_high]. Qed.

Lemma wp_restore lev K (Q : Z -> ksys -> Prop) E s :
  curthread_is c cur s -> level lev -> few K -> Q IPL_HIGH (hold c cur b lev K s) -> wp (set_ipl c lev) Q E (hold c cur b IPL_HIGH K s).
Proof. intros Hc [-> | ->] HK HQ; [by apply wp_lower | by apply wp_set_same]. Qed.

Lemma wp_in_tls {A} (m : M tlstore A) (Q : A -> ksys -> Prop) E s :
  wp m (fun a h => Q a (with_tls h s)) (fun e h => E e (with_tls h s)) (k_tls s) -> wp (in_tls m) Q E s.
Proof. apply wp_zoom. Qed.

(** A list operation whose specification excludes errors. *)
Lemma wp_list {A} (m : M tlstore A) (R : A -> tlstore -> Prop) (Q : A -> ksys -> Prop) E s :
  wp m R (fun _ _ => False) (k_tls s) -> (forall a h, R a h -> Q a (with_tls h s)) -> wp (in_tls m) Q E s.
Proof. intros W HQ. apply wp_in_tls. eapply wp_mono; [exact W|exact HQ|done]. Qed.

End rules.

Lemma hold_threads c cur b lev K f s : with_threads f (hold c cur b lev K s) = hold c cur b lev K (with_threads f s).
Proof. done. Qed.
Lemma hold_cpus c cur b lev K f s : with_cpus f (hold c cur b lev K s) = hold c cur b lev K (with_cpus f s).
Proof. done. Qed.
Lemma hold_tls c cur b lev K h s : with_tls h (hold c cur b lev K s) = hold c cur b lev K (with_tls h s).
Proof. done. Qed.
Lemma hold_sems c cur b lev K f s : with_sems f (hold c cur b lev K s) = hold c cur b lev K (with_sems f s).
Proof. done. Qed.
Lemma hold_procs c cur b lev K f s : with_procs f (hold c cur b lev K s) = hold c cur b lev K (with_procs f s).
Proof. done. Qed.
Create Rewrite HintDb holds.
#[export] Hint Rewrite hold_threads hold_cpus hold_tls hold_sems hold_procs : holds.

(** Updates of different parts commute; the last one of a place counts. *)
Lemma with_cpus_twice c x y s : with_cpus <[c := x]> (with_cpus <[c := y]> s) = with_cpus <[c := x]> s.
Proof. unfold with_cpus. cbn [k_threads k_cpus k_numcpus k_tls k_int k_wchans k_sems k_procs]. by rewrite insert_insert_eq. Qed.

Lemma with_threads_twice t x y s : with_threads <[t := x]> (with_threads <[t := y]> s) = with_threads <[t := x]> s.
Proof. unfold with_threads. cbn [k_threads k_cpus k_numcpus k_tls k_int k_wchans k_sems k_procs]. by rewrite insert_insert_eq. Qed.

Lemma with_tls_twice h h' s : with_tls h (with_tls h' s) = with_tls h s.
Proof. done. Qed.
Lemma with_threads_cpus f g s : with_threads f (with_cpus g s) = with_cpus g (with_threads f s).
Proof. done. Qed.
Lemma with_threads_tls f h s : with_threads f (with_tls h s) = with_tls h (with_threads f s).
Proof. done. Qed.
Lemma with_tls_cpus h g s : with_tls h (with_cpus g s) = with_cpus g (with_tls h s).
Proof. done. Qed.
Lemma with_sems_cpus h g s : with_sems h (with_cpus g s) = with_cpus g (with_sems h s).
Proof. done. Qed.
Lemma with_sems_threads h g s : with_sems h (with_threads g s) = with_threads g (with_sems h s).
Proof. done. Qed.
Lemma with_sems_tls h g s : with_sems h (with_tls g s) = with_tls g (with_sems h s).
Proof. done. Qed.
Create Rewrite HintDb states.
#[export] Hint Rewrite with_cpus_twice with_threads_twice with_tls_twice with_threads_cpus with_threads_tls with_tls_cpus with_sems_cpus with_sems_threads with_sems_tls : states.

(** ** The invariant *)

(** What a thread that is not in an interrupt handler returns into. *)
Definition base (fs : list frame) : Prop := fs = [] \/ (exists s, fs = [InP s]) \/ (exists n, fs = [InClocksleep n]).

(** The current thread of a busy processor, that of an idle one (which still
    uses its stack), or neither. *)
Inductive role := RRun | RIdle | RWait.

(** The frames, the saved context and the interrupt state of a thread in a
    role; [dead] threads are not resumed. *)
Inductive shape : role -> bool -> option switchframe -> list frame -> istate -> Prop :=
| ShRun d ctx fs : base fs -> shape RRun d ctx fs (IState false IPL_NONE 0)
| ShRunMigrate d ctx m fs : base fs -> shape RRun d ctx (InMigrate m :: InIrq true false :: fs) (IState true IPL_HIGH 1)
| ShRunIrq d ctx fs : base fs -> shape RRun d ctx (InIrq true false :: fs) (IState true IPL_HIGH 1)
| ShIdle d ctx fs : base fs -> d = false -> ctx = Some (SavedSwitch IPL_NONE) -> shape RIdle d ctx fs (IState false IPL_HIGH 1)
| ShIdleMigrate d ctx m fs : base fs -> d = false -> ctx = Some (SavedSwitch IPL_NONE) ->
    shape RIdle d ctx (InMigrate m :: InIrq false false :: fs) (IState true IPL_HIGH 1)
| ShIdleIrq d ctx fs : base fs -> d = false -> ctx = Some (SavedSwitch IPL_NONE) ->
    shape RIdle d ctx (InIrq false false :: fs) (IState true IPL_HIGH 1)
| ShIdleDead ctx : shape RIdle true ctx [] (IState false IPL_HIGH 1)
| ShIdleDeadIrq ctx : shape RIdle true ctx [InIrq false false] (IState true IPL_HIGH 1)
| ShIdleDeadMigrate ctx m : shape RIdle true ctx [InMigrate m; InIrq false false] (IState true IPL_HIGH 1)
| ShWait fs : base fs -> shape RWait false (Some (SavedSwitch IPL_NONE)) fs (IState false IPL_HIGH 2)
| ShWaitIrq fs : base fs -> shape RWait false (Some (SavedSwitch IPL_HIGH)) (InIrq true false :: fs) (IState true IPL_HIGH 2)
| ShNew : shape RWait false (Some SavedStartup) [] (IState false IPL_HIGH 2)
| ShDead ctx x : shape RWait true ctx [] x.

Definition on (L : gmap Z (list Z)) (id t : Z) : Prop := exists l, L !! id = Some l /\ t ∈ l.

Definition role_of (s : ksys) (t : Z) (th : thread) : role :=
  match t_cpu th ≫= fun c => k_cpus s !! c with
  | Some x => if decide (c_curthread x = t) then if c_isidle x then RIdle else RRun else RWait
  | None => RWait
  end.

Definition stack_ok (th : thread) : Prop :=
  t_stack th = None \/ t_stack th = Some [THREAD_STACK_MAGIC; THREAD_STACK_MAGIC; THREAD_STACK_MAGIC; THREAD_STACK_MAGIC].

(** What a thread on the wait channel [w] waits for. *)
Definition sleeps_on (lbolt w : Z) (fs : list frame) : Prop :=
  exists pre, (fs = pre ++ [InP w] \/ exists n, fs = pre ++ [InClocksleep n] /\ w = lbolt).

Definition state_place (lbolt : Z) (s : ksys) (L : gmap Z (list Z)) (c t : Z) (th : thread) : Prop :=
  match t_state th with
  | S_RUN => role_of s t th = RRun /\ off_lists L t
  | S_READY => role_of s t th <> RRun /\ (on L (c_runqueue c) t \/ on L (victims c) t)
  | S_SLEEP => role_of s t th <> RRun /\ exists w, on L (wc_threads w) t /\ sleeps_on lbolt w (t_frames th)
  | S_ZOMBIE => role_of s t th <> RRun /\ on L (c_zombies c) t /\ t_proc th = None
  end.

Record thread_ok (lbolt : Z) (s : ksys) (L : gmap Z (list Z)) (t : Z) (th : thread) : Prop := {
  tok_stack : stack_ok th;
  tok_cpu : exists c, t_cpu th = Some c /\ is_Some (k_cpus s !! c) /\ state_place lbolt s L c t th;
  tok_shape : exists x, i_threads (k_int s) !! t = Some x /\
    shape (role_of s t th) (bool_decide (t_state th = S_ZOMBIE)) (t_context th) (t_frames th) x;
  tok_proc : t_state th <> S_ZOMBIE -> exists p, t_proc th = Some p /\ is_Some (k_procs s !! p);
  tok_sems : forall w, InP w ∈ t_frames th -> is_Some (k_sems s !! w)
}.

(** A migration that is under way on [c]. *)
Definition migration_ok (L : gmap Z (list Z)) (c : Z) (m : migration) : Prop :=
  match m with
  | MCount i my total => L !! victims c = Some [] /\ 0 <= i /\ 0 <= my /\ 0 <= total /\
      exists l, L !! c_runqueue c = Some l /\ my <= Z.of_nat (length l)
  | MTake my share => L !! victims c = Some [] /\ 0 <= share <= my /\ exists l, L !! c_runqueue c = Some l /\ my <= Z.of_nat (length l)
  | MGive i _ n => 0 <= i /\ 0 <= n /\ exists l, L !! victims c = Some l /\ n <= Z.of_nat (length l)
  | MPutback => exists l, L !! victims c = Some l
  end.

Definition migrating (L : gmap Z (list Z)) (c : Z) (fs : list frame) : Prop :=
  match fs with InMigrate m :: _ => migration_ok L c m | _ => L !! victims c = Some [] end.

Record cpu_ok (s : ksys) (L : gmap Z (list Z)) (c : Z) (x : cpu) : Prop := {
  cok_range : 0 <= c < k_numcpus s;
  cok_cur : exists th i, k_threads s !! c_curthread x = Some th /\ t_cpu th = Some c /\
    (c_isidle x = true <-> t_state th <> S_RUN) /\ migrating L c (t_frames th) /\
    i_threads (k_int s) !! c_curthread x = Some i /\ i_cpus (k_int s) !! c = Some (ICpu 0 (t_iplhigh_count i =? 0));
  cok_lists : is_Some (L !! c_runqueue c) /\ is_Some (L !! c_zombies c) /\ L !! wakeall_list c = Some [];
  cok_locks : i_locks (k_int s) !! c_runqueue_lock c = Some free_lock /\ i_locks (k_int s) !! c_ipi_lock c = Some free_lock;
  cok_ipi : c_ipi_pending x = 0 \/ c_ipi_pending x = 4;
  cok_woken : forall i, i_threads (k_int s) !! c_curthread x = Some i -> t_in_interrupt i = true -> c_isidle x = true -> c_woken x = true
}.

(** An idle processor with something to run is being told. *)
Definition wake_ok (L : gmap Z (list Z)) (c : Z) (x : cpu) : Prop :=
  c_isidle x = true -> L !! c_runqueue c <> Some [] -> c_ipi_line x = true \/ c_woken x = true.

Definition numthreads (T : gmap Z thread) (p : Z) : Z :=
  Z.of_nat (size (filter (fun kv : Z * thread => t_proc (snd kv) = Some p) T)).

(** [ex] is a processor that is just looking at its run queue. *)
Record kinv_but (lbolt : Z) (ex : option Z) (s : ksys) (L : gmap Z (list Z)) : Prop := {
  inv_rep : tl_rep (k_tls s) (dom (k_threads s)) L;
  inv_threads : forall t th, k_threads s !! t = Some th -> thread_ok lbolt s L t th;
  inv_cpus : forall c x, k_cpus s !! c = Some x -> cpu_ok s L c x;
  inv_wake : forall c x, k_cpus s !! c = Some x -> ex <> Some c -> wake_ok L c x;
  inv_allcpus : forall c, 0 <= c < k_numcpus s -> is_Some (k_cpus s !! c);
  inv_numcpus : 0 < k_numcpus s < 2 ^ 31;
  inv_wchans : forall w, is_Some (k_wchans s !! w) -> is_Some (L !! wc_threads w) /\ i_locks (k_int s) !! wc_lock w = Some free_lock;
  inv_sems : forall w n, k_sems s !! w = Some n -> is_Some (k_wchans s !! w) /\ w <> lbolt /\ 0 <= n < 2 ^ 32;
  inv_lbolt : is_Some (k_wchans s !! lbolt);
  inv_procs : forall p n, k_procs s !! p = Some n -> n = numthreads (k_threads s) p /\ i_locks (k_int s) !! p_lock p = Some free_lock
}.

Definition kinv (lbolt : Z) (s : ksys) (L : gmap Z (list Z)) : Prop := kinv_but lbolt None s L.

(** ** Consequences *)

Lemma shape_current r d ctx fs x : shape r d ctx fs x -> r <> RWait -> level (t_curspl x) /\ x = IState (t_in_interrupt x) (t_curspl x) (t_curspl x).
Proof. intros [] Hr; try done; split; try done; (by left) || (by right). Qed.

Lemma role_cur s c x t th :
  k_cpus s !! c = Some x -> t_cpu th = Some c -> c_curthread x = t -> role_of s t th = if c_isidle x then RIdle else RRun.
Proof. intros Hx Hc Hcur. unfold role_of. rewrite Hc. cbn. rewrite Hx. by rewrite decide_True. Qed.

Lemma role_wait s c x t th :
  k_cpus s !! c = Some x -> t_cpu th = Some c -> c_curthread x <> t -> role_of s t th = RWait.
Proof. intros Hx Hc Hcur. unfold role_of. rewrite Hc. cbn. rewrite Hx. by rewrite decide_False. Qed.

Section consequences.
Context (lbolt : Z) (ex : option Z) (s : ksys) (L : gmap Z (list Z)) (I : kinv_but lbolt ex s L).

(** The current thread of a processor. *)
Lemma kinv_cur c x :
  k_cpus s !! c = Some x ->
  exists th b lev, k_threads s !! c_curthread x = Some th /\ t_cpu th = Some c /\ level lev /\
    i_threads (k_int s) !! c_curthread x = Some (IState b lev lev) /\
    shape (if c_isidle x then RIdle else RRun) (bool_decide (t_state th = S_ZOMBIE)) (t_context th) (t_frames th) (IState b lev lev) /\
    s = hold c (c_curthread x) b lev ∅ s.
Proof.
  intros Hx. pose proof (inv_cpus _ _ _ _ I _ _ Hx) as C. destruct (cok_cur _ _ _ _ C) as (th & i & Hth & Hc & Hid & Hm & Hi & Hci).
  destruct (tok_shape _ _ _ _ _ (inv_threads _ _ _ _ I _ _ Hth)) as (i' & Hi' & Hs).
  rewrite Hi in Hi'. simplify_eq. rewrite (role_cur s c x _ th Hx Hc eq_refl) in Hs.
  destruct (shape_current _ _ _ _ _ Hs) as [Hl Ei]; [by destruct (c_isidle x)|].
  exists th, (t_in_interrupt i'), (t_curspl i'). rewrite Ei in Hi, Hs, Hci. cbn [t_in_interrupt t_curspl t_iplhigh_count] in *.
  split_and!; try done. unfold hold, mid, with_int. destruct s as [thr cps n h int wch sm pr]; cbn in *. f_equal. destruct int as [it ic il]; cbn in *.
  rewrite size_empty, Z.add_0_r. f_equal.
  - by rewrite insert_id.
  - by rewrite insert_id.
  - by rewrite gset_to_gmap_empty, (left_id_L ∅ (∪)).
Qed.

Lemma kinv_curthread c x : k_cpus s !! c = Some x -> curthread_is c (c_curthread x) s.
Proof. intros Hx. by exists x. Qed.

(** Where a thread of a list is. *)
Lemma kinv_listed id t l :
  L !! id = Some l -> t ∈ l -> exists th, k_threads s !! t = Some th /\ thread_ok lbolt s L t th /\ t_state th <> S_RUN.
Proof.
  intros Hl Ht. assert (t ∈ dom (k_threads s)) as (th & Hth)%elem_of_dom by (by eapply (rep_on _ _ _ (inv_rep _ _ _ _ I))).
  exists th. pose proof (inv_threads _ _ _ _ I _ _ Hth) as T. split_and!; [done..|]. intros Hs.
  destruct (tok_cpu _ _ _ _ _ T) as (c & _ & _ & Hp). unfold state_place in Hp. rewrite Hs in Hp. destruct Hp as [_ Hp]. by eapply Hp.
Qed.

Lemma kinv_on_unique id id' t : on L id t -> on L id' t -> id = id'.
Proof. intros (l & Hl & Ht) (l' & Hl' & Ht'). by eapply (rep_apart _ _ _ (inv_rep _ _ _ _ I)). Qed.

End consequences.

Ltac lists := unfold c_runqueue, c_zombies, wc_threads, victims, wakeall_list in *; lia.

(** ** Frame rules

    A step touches some threads [X] and leaves the others alone. *)

Section frame.
Context (lbolt : Z) (s s' : ksys) (L L' : gmap Z (list Z)) (X : gset Z).

Definition same_threads : Prop := forall t, t ∉ X ->
  k_threads s' !! t = k_threads s !! t /\ i_threads (k_int s') !! t = i_threads (k_int s) !! t /\ forall id, on L' id t <-> on L id t.

(** A processor keeps its current thread, or both the old and the new one
    are touched. *)
Definition same_roles : Prop := (forall c, is_Some (k_cpus s !! c) <-> is_Some (k_cpus s' !! c)) /\
  forall c x x', k_cpus s !! c = Some x -> k_cpus s' !! c = Some x' ->
    (c_curthread x' = c_curthread x /\ c_isidle x' = c_isidle x) \/ (c_curthread x ∈ X /\ c_curthread x' ∈ X).

Definition same_names : Prop :=
  (forall w, is_Some (k_sems s !! w) -> is_Some (k_sems s' !! w)) /\ (forall p, is_Some (k_procs s !! p) -> is_Some (k_procs s' !! p)).

Lemma role_frame t th : same_roles -> t ∉ X -> role_of s' t th = role_of s t th.
Proof.
  intros [Hdom Hcpu] Ht. unfold role_of. destruct (t_cpu th) as [c|]; cbn; [|done].
  destruct (k_cpus s !! c) as [x|] eqn:Hx, (k_cpus s' !! c) as [x'|] eqn:Hx'; [| | |done].
  - destruct (Hcpu _ _ _ Hx Hx') as [[-> ->]|[H1 H2]]; [done|].
    rewrite !decide_False; [done| |]; intros <-; done.
  - destruct (proj1 (Hdom c)) as [? ?]; [eauto|]. congruence.
  - destruct (proj2 (Hdom c)) as [? ?]; [eauto|]. congruence.
Qed.

Lemma off_lists_on t : off_lists L t <-> forall id, ~ on L id t.
Proof. unfold off_lists, on. naive_solver. Qed.

Lemma thread_frame t th :
  same_threads -> same_roles -> same_names -> t ∉ X -> thread_ok lbolt s L t th -> thread_ok lbolt s' L' t th.
Proof.
  intros HT HR [HS HP] Ht [T1 T2 T3 T4 T5]. destruct (HT t Ht) as (Eth & Ei & Hon). pose proof (role_frame t th HR Ht) as Hr. split.
  - done.
  - destruct T2 as (c & Hc & Hx & Hp). exists c. split_and!; [done|by apply HR|]. unfold state_place in *. rewrite Hr.
    destruct (t_state th).
    + destruct Hp as [? Hoff]. split; [done|]. intros id l Hl Hin. eapply (proj1 (off_lists_on t) Hoff id), Hon. by exists l.
    + by rewrite !Hon.
    + destruct Hp as [? (w & Hw & ?)]. split; [done|]. exists w. by rewrite Hon.
    + by rewrite Hon.
  - rewrite Ei, Hr. done.
  - intros Hz. destruct (T4 Hz) as (p & ? & ?). eauto.
  - eauto.
Qed.

(** The current thread of a processor is touched at most in its state, and
    not between running and not running. *)
Definition same_current (cur : Z) : Prop := forall th, k_threads s !! cur = Some th ->
  i_threads (k_int s') !! cur = i_threads (k_int s) !! cur /\
  exists th', k_threads s' !! cur = Some th' /\ t_cpu th' = t_cpu th /\ t_frames th' = t_frames th /\ (t_state th' = S_RUN <-> t_state th = S_RUN).

Lemma untouched_current cur : same_threads -> cur ∉ X -> same_current cur.
Proof. intros HT Hc th Hth. destruct (HT _ Hc) as (Eth & Ei & _). rewrite Eth, Ei. split; [done|]. by exists th. Qed.

(** The run queue of a processor that goes on with its thread may grow at
    its end, with the processor told about it. *)
Lemma cpu_frame c x x' :
  cpu_ok s L c x -> same_current (c_curthread x) -> k_numcpus s' = k_numcpus s ->
  c_curthread x' = c_curthread x -> c_isidle x' = c_isidle x -> c_woken x' = c_woken x -> c_ipi_pending x' = 0 \/ c_ipi_pending x' = 4 ->
  i_cpus (k_int s') !! c = i_cpus (k_int s) !! c -> i_locks (k_int s') = i_locks (k_int s) ->
  (exists l l', L !! c_runqueue c = Some l /\ L' !! c_runqueue c = Some (l ++ l')) ->
  is_Some (L' !! c_zombies c) -> L' !! victims c = L !! victims c -> L' !! wakeall_list c = L !! wakeall_list c ->
  cpu_ok s' L' c x'.
Proof.
  intros [C1 C2 C3 C4 C5 C6] HX Hn Hcur Hid Hwk Hipi Hci Hlk (l & l' & Hl & Hl') Hz Hv Hwl. split.
  - by rewrite Hn.
  - rewrite Hcur, Hid, Hci. destruct C2 as (th & i & Hth & Hc & Hst & Hm & Hi & Hicp).
    destruct (HX _ Hth) as (Ei & th' & Hth' & Hc' & Hf & Hst'). rewrite Ei. exists th', i. rewrite Hc', Hf, Hst'. split_and!; try done; try tauto.
    revert Hm. unfold migrating. destruct (t_frames th) as [|[?| ?|?|m] fs]; rewrite ?Hv; try done.
    destruct m as [j my tot|my sh|j sh n|]; cbn; rewrite ?Hv; [| |done..].
    + intros (? & ? & ? & ? & l0 & Hl0 & ?). split_and!; try done. exists (l ++ l'). split; [done|]. rewrite Hl in Hl0. simplify_eq.
      rewrite length_app. lia.
    + intros (? & ? & l0 & Hl0 & ?). split_and!; try done; try lia. exists (l ++ l'). split; [done|]. rewrite Hl in Hl0. simplify_eq.
      rewrite length_app. lia.
  - rewrite Hl', Hwl. by destruct C3 as (_ & _ & ->).
  - by rewrite Hlk.
  - done.
  - rewrite Hcur, Hid, Hwk. destruct C2 as (th & _ & Hth & _). destruct (HX _ Hth) as (-> & _). done.
Qed.

Lemma kinv_frame ex ex' :
  kinv_but lbolt ex s L -> tl_rep (k_tls s') (dom (k_threads s')) L' -> same_threads -> same_roles -> same_names ->
  (forall t th, t ∈ X -> k_threads s' !! t = Some th -> thread_ok lbolt s' L' t th) ->
  (forall c x, k_cpus s' !! c = Some x -> cpu_ok s' L' c x) ->
  (forall c x, k_cpus s' !! c = Some x -> ex' <> Some c -> wake_ok L' c x) ->
  k_numcpus s' = k_numcpus s -> k_wchans s' = k_wchans s -> i_locks (k_int s') = i_locks (k_int s) ->
  (forall w, is_Some (L !! wc_threads w) -> is_Some (L' !! wc_threads w)) ->
  (forall w n, k_sems s' !! w = Some n -> is_Some (k_sems s !! w) /\ 0 <= n < 2 ^ 32) ->
  (forall p n, k_procs s' !! p = Some n -> is_Some (k_procs s !! p) /\ n = numthreads (k_threads s') p) ->
  kinv_but lbolt ex' s' L'.
Proof.
  intros I R HT HR HN HX HC HW Hn Hw Hlk Hwl Hs Hp. pose proof I as [I1 I2 I3 _ I4 I5 I6 I7 I8 I9]. split; rewrite ?Hn, ?Hw, ?Hlk; try done.
  - intros t th Hth. destruct (decide (t ∈ X)) as [Hin|Hout]; [by apply HX|].
    apply thread_frame; try done. apply I2. by rewrite <- (proj1 (HT t Hout)).
  - intros c Hc. apply HR. by apply I4.
  - intros w Hsw. destruct (I6 w Hsw). auto.
  - intros w n Hsn. destruct (Hs w n Hsn) as [[m Hm] ?]. destruct (I7 w m Hm) as (? & ? & _). done.
  - intros p n Hpn. destruct (Hp p n Hpn) as [[m Hm] ?]. destruct (I9 p m Hm) as [_ ?]. done.
Qed.

End frame.

(** Other counts of the semaphores, or another store for the same lists. *)
Lemma kinv_mild lbolt ex s s' L :
  kinv_but lbolt ex s L -> k_threads s' = k_threads s -> k_cpus s' = k_cpus s -> k_numcpus s' = k_numcpus s -> k_int s' = k_int s ->
  k_wchans s' = k_wchans s -> k_procs s' = k_procs s -> tl_rep (k_tls s') (dom (k_threads s)) L ->
  (forall w, is_Some (k_sems s !! w) -> is_Some (k_sems s' !! w)) ->
  (forall w n, k_sems s' !! w = Some n -> is_Some (k_sems s !! w) /\ 0 <= n < 2 ^ 32) -> kinv_but lbolt ex s' L.
Proof.
  intros I H1 H2 H3 H4 H5 H6 R H7 H8. assert (HT : same_threads s s' L L ∅) by (intros t _; by rewrite H1, H4).
  apply (kinv_frame lbolt s s' L L ∅ ex); rewrite ?H1, ?H2, ?H3, ?H4, ?H5, ?H6; try done.
  - split; rewrite H2; [done|]. intros c x x' E1 E2. simplify_eq. by left.
  - split; [done|]. by rewrite H6.
  - intros c x Hx. pose proof (inv_cpus _ _ _ _ I _ _ Hx) as C. apply (cpu_frame s s' L L c x x C); rewrite ?H4; try done.
    + by apply (untouched_current s s' L L ∅).
    + apply (cok_ipi _ _ _ _ C).
    + destruct (cok_lists _ _ _ _ C) as ([l Hl] & _). exists l, []. by rewrite app_nil_r.
    + apply (cok_lists _ _ _ _ C).
  - apply (inv_wake _ _ _ _ I).
  - intros p n Hp. split; [eauto|]. by destruct (inv_procs _ _ _ _ I _ _ Hp).
Qed.

Lemma kinv_tls lbolt ex s L h : kinv_but lbolt ex s L -> tl_rep h (dom (k_threads s)) L -> kinv_but lbolt ex (with_tls h s) L.
Proof. intros I R. eapply kinv_mild; try done. intros w n Hn. split; [by eexists|]. by destruct (inv_sems _ _ _ _ I _ _ Hn) as (_ & _ & ?). Qed.

(** A processor that found nothing to run. *)
Lemma kinv_settle lbolt ex c s L :
  kinv_but lbolt ex s L -> (ex = None \/ ex = Some c) -> L !! c_runqueue c = Some [] -> kinv lbolt s L.
Proof.
  intros [] Hex Hl. split; try done. intros e x Hx _. destruct (decide (e = c)) as [->|Hne]; [by intros _ []|].
  apply inv_wake0; [done|]. destruct Hex as [-> | ->]; congruence.
Qed.

(** ** Steps of one processor

    [c] changes its own threads [X], its own lists and the wait channels. *)

Section local.
Context (lbolt : Z) (s s' : ksys) (L L' : gmap Z (list Z)) (X : gset Z) (c : Z) (x x' : cpu).

Lemma kinv_local ex ex' :
  kinv_but lbolt ex s L -> (ex = None \/ ex = Some c) -> k_cpus s !! c = Some x -> k_cpus s' = <[c := x']> (k_cpus s) ->
  (c_curthread x' = c_curthread x /\ c_isidle x' = c_isidle x) \/ (c_curthread x ∈ X /\ c_curthread x' ∈ X) ->
  tl_rep (k_tls s') (dom (k_threads s')) L' -> same_threads s s' L L' X -> same_names s s' ->
  (forall t th, t ∈ X -> k_threads s !! t = Some th -> t_cpu th = Some c) ->
  (forall t th, t ∈ X -> k_threads s' !! t = Some th -> thread_ok lbolt s' L' t th) ->
  cpu_ok s' L' c x' -> (ex' <> Some c -> wake_ok L' c x') ->
  k_numcpus s' = k_numcpus s -> k_wchans s' = k_wchans s -> i_locks (k_int s') = i_locks (k_int s) ->
  (forall e, e <> c -> i_cpus (k_int s') !! e = i_cpus (k_int s) !! e) ->
  (forall e, e <> c -> L' !! c_runqueue e = L !! c_runqueue e /\ L' !! c_zombies e = L !! c_zombies e /\
     L' !! victims e = L !! victims e /\ L' !! wakeall_list e = L !! wakeall_list e) ->
  (forall w, is_Some (L !! wc_threads w) -> is_Some (L' !! wc_threads w)) ->
  (forall w n, k_sems s' !! w = Some n -> is_Some (k_sems s !! w) /\ 0 <= n < 2 ^ 32) ->
  (forall p n, k_procs s' !! p = Some n -> is_Some (k_procs s !! p) /\ n = numthreads (k_threads s') p) ->
  kinv_but lbolt ex' s' L'.
Proof.
  intros I Hex Hx Hcp Hcur R HT HN HXc HX HC HW Hn Hw Hlk Hic HL Hwl Hs Hp.
  apply (kinv_frame lbolt s s' L L' X ex); try done.
  - split.
    + intros e. rewrite Hcp, lookup_insert_is_Some. destruct (decide (e = c)) as [->|]; naive_solver.
    + intros e y y' Hy. rewrite Hcp. intros [[<- <-]|[Hne Hy']]%lookup_insert_Some; [|by rewrite Hy in Hy'; simplify_eq; left].
      rewrite Hx in Hy. by simplify_eq.
  - intros e y. rewrite Hcp. intros [[<- <-]|[Hne Hy]]%lookup_insert_Some; [done|].
    pose proof (inv_cpus _ _ _ _ I _ _ Hy) as C. destruct (HL e ltac:(done)) as (H1 & H2 & H3 & H4).
    apply (cpu_frame s s' L L' e y y C); try done.
    + apply (untouched_current s s' L L' X); [done|]. intros Hin. destruct (cok_cur _ _ _ _ C) as (th & _ & Hth & He & _).
      rewrite (HXc _ _ Hin Hth) in He. by simplify_eq.
    + apply (cok_ipi _ _ _ _ C).
    + by apply Hic.
    + destruct (cok_lists _ _ _ _ C) as ([l Hl] & _). exists l, []. by rewrite app_nil_r, H1.
    + rewrite H2. apply (cok_lists _ _ _ _ C).
  - intros e y. rewrite Hcp. intros [[<- <-]|[Hne Hy]]%lookup_insert_Some; [done|]. intros _.
    unfold wake_ok. rewrite (proj1 (HL e ltac:(done))). apply (inv_wake _ _ _ _ I _ _ Hy). destruct Hex as [-> | ->]; congruence.
Qed.

End local.

(** Membership after an update of one list. *)
Lemma on_insert L id l id' t : on (<[id := l]> L) id' t <-> (id' = id /\ t ∈ l) \/ (id' <> id /\ on L id' t).
Proof.
  unfold on. destruct (decide (id' = id)) as [->|Hne].
  - rewrite lookup_insert_eq. naive_solver.
  - rewrite lookup_insert_ne by done. naive_solver.
Qed.

Lemma on_lookup L id l t : L !! id = Some l -> on L id t <-> t ∈ l.
Proof. intros Hl. unfold on. naive_solver. Qed.

(** Adding [t] to a list is not seen by other threads. *)
Lemma on_same L id l l' t :
  L !! id = Some l -> (t ∈ l' <-> t ∈ l) -> forall id', on (<[id := l']> L) id' t <-> on L id' t.
Proof.
  intros Hl Hin id'. rewrite on_insert. destruct (decide (id' = id)) as [->|Hne]; [rewrite (on_lookup _ _ _ _ Hl)|]; tauto.
Qed.

(** ** Semaphores

    The threads that are inside [P] of [w]: those asleep in it, and those
    that have been woken and have not run yet. *)

Definition in_P (T : gmap Z thread) (w : Z) : Z := Z.of_nat (size (filter (fun kv : Z * thread => InP w ∈ t_frames (snd kv)) T)).

(** While threads sleep in [P], at most as many units are available as there
    are threads on their way to take one: no wakeup is lost. *)
Definition sem_inv (s : ksys) (L : gmap Z (list Z)) : Prop :=
  forall w n l, k_sems s !! w = Some n -> L !! wc_threads w = Some l -> l <> [] -> n <= in_P (k_threads s) w - Z.of_nat (length l).

(** A step that does not touch semaphores. *)
Definition sem_neutral (s : ksys) (L : gmap Z (list Z)) (s' : ksys) (L' : gmap Z (list Z)) : Prop :=
  forall w, is_Some (k_sems s !! w) ->
    k_sems s' !! w = k_sems s !! w /\ L' !! wc_threads w = L !! wc_threads w /\ in_P (k_threads s') w = in_P (k_threads s) w.

Lemma neutral_inv s L s' L' :
  (forall w, is_Some (k_sems s' !! w) -> is_Some (k_sems s !! w)) -> sem_neutral s L s' L' -> sem_inv s L -> sem_inv s' L'.
Proof. intros Hd Hn Hs w n l Hw Hl Hne. destruct (Hn w) as (E1 & E2 & E3); [by apply Hd; eauto|]. rewrite E3. apply Hs; congruence. Qed.

Lemma in_P_same (T : gmap Z thread) t th th' w :
  T !! t = Some th -> (InP w ∈ t_frames th' <-> InP w ∈ t_frames th) -> in_P (<[t := th']> T) w = in_P T w.
Proof.
  intros Ht Hp. unfold in_P. f_equal. destruct (decide (InP w ∈ t_frames th)) as [He|He].
  - rewrite map_filter_insert_True by (cbn; tauto). rewrite <- (insert_id T t th Ht) at 2.
    rewrite map_filter_insert_True by done. rewrite !map_size_insert. by destruct (filter _ T !! t).
  - rewrite map_filter_insert_False by (cbn; tauto). rewrite map_filter_delete.
    rewrite delete_id; [done|]. apply map_lookup_filter_None. right. intros y Hy. cbn. rewrite Ht in Hy. by simplify_eq.
Qed.

Lemma in_P_delete (T : gmap Z thread) z th w : T !! z = Some th -> InP w ∉ t_frames th -> in_P (delete z T) w = in_P T w.
Proof.
  intros Hz Hp. unfold in_P. f_equal. f_equal. rewrite map_filter_delete. apply delete_id.
  apply map_lookup_filter_None. right. intros y Hy. cbn. rewrite Hz in Hy. by simplify_eq.
Qed.

(** A thread enters [P]. *)
Lemma in_P_enter (T : gmap Z thread) t th th' w :
  T !! t = Some th -> InP w ∉ t_frames th -> InP w ∈ t_frames th' -> in_P (<[t := th']> T) w = in_P T w + 1.
Proof.
  intros Ht Hn Hp. unfold in_P. rewrite map_filter_insert_True by done. rewrite map_size_insert_None; [lia|].
  apply map_lookup_filter_None. right. intros y Hy. cbn. by simplify_eq.
Qed.

Lemma in_P_leave (T : gmap Z thread) t th th' w :
  T !! t = Some th -> InP w ∈ t_frames th -> InP w ∉ t_frames th' -> in_P (<[t := th']> T) w = in_P T w - 1.
Proof.
  intros Ht Hp Hn. rewrite <- (insert_id T t th Ht) at 2. rewrite <- (insert_insert_eq T t th th').
  rewrite (in_P_enter (<[t := th']> T) t th' th) by (rewrite ?lookup_insert_eq; done). lia.
Qed.

(** The sleepers of a semaphore are inside [P]. *)
Lemma sleepers_in_P lbolt ex s L w l :
  kinv_but lbolt ex s L -> L !! wc_threads w = Some l -> w <> lbolt -> Z.of_nat (length l) <= in_P (k_threads s) w.
Proof.
  intros I Hl Hw. unfold in_P. apply inj_le. rewrite <- (size_dom (filter _ _)).
  rewrite <- (size_list_to_set (C := gset Z)) by (by eapply (rep_nodup _ _ _ (inv_rep _ _ _ _ I))).
  apply subseteq_size. intros t Ht%elem_of_list_to_set. assert (Hon : on L (wc_threads w) t) by (by exists l).
  destruct (kinv_listed _ _ _ _ I _ _ _ Hl Ht) as (th & Hth & T & Hst). apply elem_of_dom. exists th. apply map_lookup_filter_Some. split; [done|]. cbn.
  destruct (tok_cpu _ _ _ _ _ T) as (c & _ & _ & Hp). unfold state_place in Hp. destruct (t_state th); [done| | |].
  - destruct Hp as [_ [Ho|Ho]]; pose proof (kinv_on_unique _ _ _ _ I _ _ _ Hon Ho); lists.
  - destruct Hp as [_ (w' & Ho & pre & Hf)]. pose proof (kinv_on_unique _ _ _ _ I _ _ _ Hon Ho). assert (w' = w) as -> by lists.
    destruct Hf as [-> |(n & _ & ?)]; [set_solver|congruence].
  - destruct Hp as [_ [Ho _]]. pose proof (kinv_on_unique _ _ _ _ I _ _ _ Hon Ho). lists.
Qed.
