(* ===== verification/KThreadOps.v ===== *)
(** * The pieces of the thread system keep the invariant *)

From S2P Require Import Prelude Threadlist Spl KThread KThreadInv.

(** ** Waking a thread *)

(** The processor [d] after a thread has been put on its run queue by [c]. *)
Definition notified (c d : Z) (x : cpu) : cpu := if c_isidle x && negb (d =? c) then set_ipi 4 true x else x.

Lemma notified_cur c d x : c_curthread (notified c d x) = c_curthread x /\ c_isidle (notified c d x) = c_isidle x.
Proof. unfold notified. by destruct (_ && _). Qed.

Lemma few_small K : (size K <= 8)%nat -> few K.
Proof. unfold few. lia. Qed.

Lemma few_union X K : (size X <= 4)%nat -> (size K <= 4)%nat -> few (X ∪ K).
Proof.
  intros H1 H2. apply few_small. rewrite size_union_alt. pose proof (subseteq_size (K ∖ X) K ltac:(set_solver)). lia.
Qed.

Lemma size_two (a b : lockid) : (size ({[a; b]} : gset lockid) <= 2)%nat.
Proof.
  rewrite size_union_alt, size_singleton. pose proof (subseteq_size ({[b]} ∖ {[a]} : gset lockid) {[b]} ltac:(set_solver)) as Hs.
  rewrite size_singleton in Hs. lia.
Qed.

(** The state with [t] put on the run queue of [d]. *)
Definition readied (c d t : Z) (th : thread) (x : cpu) (h : tlstore) (s : ksys) : ksys :=
  with_cpus <[d := notified c d x]> (with_tls h (with_threads <[t := set_state S_READY th]> s)).

Section ready.
Context `{DebugAsserts} (lbolt c cur : Z) (b : bool).
Implicit Types (s : ksys) (K : gset lockid) (lev : Z) (L : gmap Z (list Z)).

Lemma wp_ipi_send lev K d x (Q : unit -> ksys -> Prop) E s :
  curthread_is c cur s -> level lev -> few ({[c_ipi_lock d]} ∪ K) -> c_ipi_lock d ∉ K ->
  i_locks (k_int s) !! c_ipi_lock d = Some free_lock -> k_cpus s !! d = Some x -> c_ipi_pending x = 0 \/ c_ipi_pending x = 4 ->
  Q tt (hold c cur b lev K (with_cpus <[d := set_ipi 4 true x]> s)) -> wp (ipi_send c d IPI_UNIDLE) Q E (hold c cur b lev K s).
Proof.
  intros Hc Hl HK Hn Hf Hx Hp HQ. unfold ipi_send. assert (few K).
  { pose proof (subseteq_size K ({[c_ipi_lock d]} ∪ K) ltac:(set_solver)). unfold few in *. lia. }
  wp_steps. apply wp_kassert; [done|]. wp_steps. apply wp_acq; try done. wp_steps. eapply wp_upd_cpu; [done|].
  rewrite hold_cpus. replace (Z.lor (c_ipi_pending x) (u32 (Z.shiftl 1 IPI_UNIDLE))) with 4 by (by destruct Hp as [-> | ->]).
  apply wp_rel; try done.
  - destruct Hc as (y & Hy & <-). destruct (decide (d = c)) as [->|Hne].
    + rewrite Hx in Hy. simplify_eq. exists (set_ipi 4 true y). cbn. by rewrite lookup_insert_eq.
    + exists y. cbn. by rewrite lookup_insert_ne.
  - set_solver.
  - replace (({[c_ipi_lock d]} ∪ K) ∖ {[c_ipi_lock d]}) with K by set_solver. done.
Qed.

(** [thread_make_runnable], with the lock of the run queue held or not. *)
Lemma wp_make_runnable lev K t th d x l L (locked : bool) (Q : unit -> ksys -> Prop) E s :
  curthread_is c cur s -> level lev -> few ({[c_runqueue_lock d; c_ipi_lock d]} ∪ K) -> c_ipi_lock d ∉ K ->
  (if locked then c_runqueue_lock d ∈ K else c_runqueue_lock d ∉ K) ->
  i_locks (k_int s) !! c_runqueue_lock d = Some free_lock -> i_locks (k_int s) !! c_ipi_lock d = Some free_lock ->
  k_threads s !! t = Some th -> t_cpu th = Some d -> k_cpus s !! d = Some x -> c_ipi_pending x = 0 \/ c_ipi_pending x = 4 ->
  tl_rep (k_tls s) (dom (k_threads s)) L -> L !! c_runqueue d = Some l -> off_lists L t ->
  (forall h, tl_rep h (dom (k_threads s)) (<[c_runqueue d := l ++ [t]]> L) -> Q tt (hold c cur b lev K (readied c d t th x h s))) ->
  wp (thread_make_runnable c t locked) Q E (hold c cur b lev K s).
Proof.
  intros Hc Hl HK Hn Hlk Hf Hfi Hth Hd Hx Hp R HL Hoff HQ. unfold thread_make_runnable.
  set (K' := if locked then K else {[c_runqueue_lock d]} ∪ K).
  assert (HK' : few ({[c_ipi_lock d]} ∪ K') /\ few K').
  { split.
    - pose proof (subseteq_size ({[c_ipi_lock d]} ∪ K') ({[c_runqueue_lock d; c_ipi_lock d]} ∪ K) ltac:(subst K'; destruct locked; set_solver)).
      unfold few in *. lia.
    - pose proof (subseteq_size K' ({[c_runqueue_lock d; c_ipi_lock d]} ∪ K) ltac:(subst K'; destruct locked; set_solver)).
      unfold few in *. lia. }
  destruct HK' as [HK1 HK2].
  assert (HK0 : few K).
  { pose proof (subseteq_size K ({[c_runqueue_lock d; c_ipi_lock d]} ∪ K) ltac:(set_solver)). unfold few in *. lia. }
  apply wp_bind. eapply wp_load_thread; [exact Hth|]. apply wp_bind. eapply wp_oob; [exact Hd|]. apply wp_bind.
  assert (Hacq : forall (Q0 : unit -> ksys -> Prop), Q0 tt (hold c cur b lev K' s) ->
    wp (if locked then b0 <- do_i_hold c (c_runqueue_lock d) ;; KASSERT b0 else acquire c (c_runqueue_lock d)) Q0 E (hold c cur b lev K s)).
  { intros Q0 HQ0. subst K'. destruct locked.
    - apply wp_bind, wp_hold_p; [done..|]. rewrite bool_decide_eq_true_2 by done. by apply wp_kassert.
    - by apply wp_acq. }
  apply Hacq. apply wp_bind. eapply wp_upd_thread; [exact Hth|]. rewrite hold_threads. apply wp_bind.
  assert (Hdom : dom (<[t := set_state S_READY th]> (k_threads s)) = dom (k_threads s)).
  { apply dom_insert_lookup_L. eauto. }
  eapply wp_list; [apply (wp_addtail (k_tls s) (dom (k_threads s)) L _ l t R HL); [by apply elem_of_dom | exact Hoff]|].
  intros a h Rh. cbv beta in Rh. clear a. rewrite hold_tls. apply wp_bind. eapply wp_load_cpu; [exact Hx|]. apply wp_bind.
  specialize (HQ h Rh). unfold readied in HQ.
  set (s1 := with_tls h (with_threads <[t := set_state S_READY th]> s)) in *.
  assert (Hrel : forall s2, curthread_is c cur s2 -> i_locks (k_int s2) = i_locks (k_int s) -> Q tt (hold c cur b lev K s2) ->
    wp (when (negb locked) (release c (c_runqueue_lock d))) Q E (hold c cur b lev K' s2)).
  { intros s2 Hc2 Hl2 HQ2. subst K'. destruct locked; cbn [negb when]; [by apply wp_ret|].
    apply wp_rel; [done|done|done|set_solver|by rewrite Hl2|].
    by replace (({[c_runqueue_lock d]} ∪ K) ∖ {[c_runqueue_lock d]}) with K by set_solver. }
  assert (Hcur2 : curthread_is c cur (with_cpus <[d := notified c d x]> s1)).
  { destruct Hc as (y & Hy & <-). destruct (decide (d = c)) as [->|Hne].
    - rewrite Hx in Hy. simplify_eq. exists (notified c c y). cbn. rewrite lookup_insert_eq. split; [done|]. apply notified_cur.
    - exists y. cbn. by rewrite lookup_insert_ne. }
  unfold notified in *. destruct (c_isidle x && negb (d =? c)) eqn:Hi.
  - cbn [when]. apply wp_ipi_send with (x := x); try done; [subst K'; destruct locked; set_solver|]. by apply Hrel.
  - cbn [when]. apply wp_ret. apply Hrel; [done..|].
    replace (with_cpus <[d := x]> s1) with s1 in HQ; [done|]. subst s1. unfold with_cpus at 1. cbn [k_cpus with_tls with_threads]. by rewrite (insert_id _ _ _ Hx).
Qed.

End ready.

(** Threads keep what they are counted for. *)
Lemma numthreads_same (T : gmap Z thread) t th th' p :
  T !! t = Some th -> t_proc th' = t_proc th -> numthreads (<[t := th']> T) p = numthreads T p.
Proof.
  intros Ht Hp. unfold numthreads. f_equal. destruct (decide (t_proc th = Some p)) as [He|He].
  - rewrite map_filter_insert_True by (cbn; congruence). rewrite <- (insert_id T t th Ht) at 2.
    rewrite map_filter_insert_True by done. rewrite !map_size_insert. by destruct (filter _ T !! t).
  - rewrite map_filter_insert_False by (cbn; congruence). rewrite map_filter_delete.
    rewrite delete_id; [done|]. apply map_lookup_filter_None. right. intros y Hy. cbn. rewrite Ht in Hy. by simplify_eq.
Qed.

(** A thread moves from a wait channel to the run queue of its processor. *)
Lemma kinv_ready lbolt c s L t th w l d x ld h :
  kinv lbolt s L -> k_threads s !! t = Some th -> L !! wc_threads w = Some (t :: l) ->
  t_cpu th = Some d -> k_cpus s !! d = Some x -> (d = c -> c_isidle x = true -> c_woken x = true) -> L !! c_runqueue d = Some ld ->
  tl_rep h (dom (k_threads s)) (<[c_runqueue d := ld ++ [t]]> (<[wc_threads w := l]> L)) ->
  kinv lbolt (readied c d t th x h s) (<[c_runqueue d := ld ++ [t]]> (<[wc_threads w := l]> L)).
Proof.
  intros I Hth Hw Hd Hx Hwake Hrd R. pose proof (inv_threads _ _ _ _ I _ _ Hth) as T.
  assert (Hdw : c_runqueue d <> wc_threads w) by lists.
  assert (ND : t ∉ l) by (pose proof (rep_nodup _ _ _ (inv_rep _ _ _ _ I) _ _ Hw) as N; by apply NoDup_cons in N as [? _]).
  assert (Hst : t_state th = S_SLEEP).
  { destruct (tok_cpu _ _ _ _ _ T) as (d' & Ed & _ & Hp). rewrite Hd in Ed. simplify_eq. unfold state_place in Hp.
    assert (Hon : on L (wc_threads w) t) by (exists (t :: l); split; [done | by left]).
    destruct (t_state th); [| |done|].
    - destruct Hp as [_ Ho]. by destruct (Ho _ _ Hw (list_elem_of_here _ _)).
    - destruct Hp as [_ [Ho|Ho]]; pose proof (kinv_on_unique _ _ _ _ I _ _ _ Hon Ho); lists.
    - destruct Hp as [_ [Ho _]]; pose proof (kinv_on_unique _ _ _ _ I _ _ _ Hon Ho); lists. }
  assert (Hcpus : forall e y, k_cpus (readied c d t th x h s) !! e = Some y ->
    exists y0, k_cpus s !! e = Some y0 /\ c_curthread y = c_curthread y0 /\ c_isidle y = c_isidle y0 /\
      ((e = d /\ y = notified c d y0) \/ (e <> d /\ y = y0))).
  { intros e y. cbn. intros [[<- <-]|[Hne Hy]]%lookup_insert_Some.
    - exists x. destruct (notified_cur c d x). eauto 10.
    - exists y. eauto 10. }
  assert (HT : same_threads s (readied c d t th x h s) L (<[c_runqueue d := ld ++ [t]]> (<[wc_threads w := l]> L)) {[t]}).
  { intros u Hu. rewrite not_elem_of_singleton in Hu. cbn. rewrite lookup_insert_ne by done. split_and!; [done..|]. intros id.
    rewrite (on_same (<[wc_threads w := l]> L) _ ld) by (rewrite ?lookup_insert_ne by done; set_solver).
    apply (on_same L _ (t :: l)); set_solver. }
  assert (HR : same_roles s (readied c d t th x h s) {[t]}).
  { split.
    - intros e. cbn. rewrite lookup_insert_is_Some. destruct (decide (e = d)) as [->|]; naive_solver.
    - intros e y y' Hy Hy'. destruct (Hcpus e y' Hy') as (y0 & Hy0 & ? & ? & _). rewrite Hy in Hy0. simplify_eq. by left. }
  assert (Hrole : role_of (readied c d t th x h s) t (set_state S_READY th) = role_of s t th).
  { unfold role_of. cbn. rewrite Hd. cbn. rewrite lookup_insert_eq, Hx. by destruct (notified_cur c d x) as [-> ->]. }
  apply (kinv_frame lbolt s _ L _ {[t]} None); try done.
  - cbn. replace (dom (<[t := set_state S_READY th]> (k_threads s))) with (dom (k_threads s)); [done|].
    symmetry. apply dom_insert_lookup_L. eauto.
  - intros u thu ->%elem_of_singleton. cbn. rewrite lookup_insert_eq. intros [= <-].
    destruct T as [T1 T2 T3 T4 T5]. split; [done| | | |done].
    + exists d. split_and!; [done| |]; cbn.
      * rewrite lookup_insert_eq. eauto.
      * unfold state_place. cbn [t_state set_state]. rewrite Hrole. destruct T2 as (d' & Ed & _ & Hp). rewrite Hd in Ed. simplify_eq.
        unfold state_place in Hp. rewrite Hst in Hp. split; [tauto|]. left. rewrite on_insert. set_solver.
    + rewrite Hrole. cbn [t_context t_frames t_state set_state]. destruct T3 as (i & Hi & Hs). exists i. split; [done|].
      rewrite Hst in Hs. exact Hs.
    + intros _. apply T4. by rewrite Hst.
  - intros e y Hy. destruct (Hcpus e y Hy) as (y0 & Hy0 & Hcy & Hiy & Hcase). pose proof (inv_cpus _ _ _ _ I _ _ Hy0) as C.
    assert (Hlist : forall id, id <> c_runqueue d -> id <> wc_threads w -> <[c_runqueue d := ld ++ [t]]> (<[wc_threads w := l]> L) !! id = L !! id).
    { intros id H1 H2. by rewrite !lookup_insert_ne. }
    apply (cpu_frame s _ L _ e y0 y C); try done.
    + intros th0 Hth0. cbn. destruct (decide (c_curthread y0 = t)) as [Et|Hne].
      * rewrite Et in *. rewrite lookup_insert_eq. rewrite Hth in Hth0. simplify_eq. split; [done|]. eexists. split; [done|]. cbn. by rewrite Hst.
      * rewrite lookup_insert_ne by done. split; [done|]. by exists th0.
    + destruct Hcase as [[-> ->]|[_ ->]]; [|done]. unfold notified. by destruct (_ && _).
    + destruct Hcase as [[-> ->]|[_ ->]]; [|apply (cok_ipi _ _ _ _ C)]. unfold notified.
      destruct (_ && _); [by right | apply (cok_ipi _ _ _ _ C)].
    + destruct Hcase as [[-> ->]|[Hne ->]].
      * exists ld, [t]. by rewrite lookup_insert_eq.
      * destruct (cok_lists _ _ _ _ C) as ([le Hle] & _). exists le, []. by rewrite app_nil_r, Hlist by lists.
    + rewrite Hlist by lists. apply (cok_lists _ _ _ _ C).
    + apply Hlist; lists.
    + apply Hlist; lists.
  - intros e y Hy _. destruct (Hcpus e y Hy) as (y0 & Hy0 & Hcy & Hiy & [[-> ->]|[Hne ->]]).
    + intros Hi _. rewrite Hx in Hy0. simplify_eq. unfold notified in Hi |- *. destruct (c_isidle y0 && negb (d =? c)) eqn:En; [by left|]. right.
      apply Hwake; [|done]. rewrite Hi in En. cbn in En. apply negb_false_iff, Z.eqb_eq in En. done.
    + unfold wake_ok. rewrite lookup_insert_ne, lookup_insert_ne by lists. by apply (inv_wake _ _ _ _ I _ _ Hy0).
  - intros w' [lw Hlw]. destruct (decide (w' = w)) as [->|Hne].
    + rewrite lookup_insert_ne, lookup_insert_eq by lists. eauto.
    + rewrite !lookup_insert_ne by lists. eauto.
  - intros w' n Hn. split; [eauto|]. by destruct (inv_sems _ _ _ _ I _ _ Hn) as (_ & _ & ?).
  - intros p n Hn. split; [eauto|]. cbn. rewrite (numthreads_same _ t th) by done. by destruct (inv_procs _ _ _ _ I _ _ Hn).
Qed.
