(* ===== verification/KThreadSwitch.v ===== *)
(** * Context switches keep the invariant *)

From S2P Require Import Prelude Threadlist Spl KThread KThreadInv KThreadOps.

(** ** Zombies *)

Definition del_all {A} (zs : list Z) (m : gmap Z A) : gmap Z A := foldl (fun m z => delete z m) m zs.

Lemma del_all_lookup {A} zs (m : gmap Z A) t : del_all zs m !! t = if decide (t ∈ zs) then None else m !! t.
Proof.
  revert m. induction zs as [|z zs IH]; intros m; cbn [del_all foldl]; [done|]. fold (del_all zs (delete z m)). rewrite IH.
  destruct (decide (t ∈ zs)), (decide (t ∈ z :: zs)) as [Hin|Hin]; try done; try set_solver.
  - apply elem_of_cons in Hin as [->|]; [by rewrite lookup_delete_eq | done].
  - rewrite lookup_delete_ne by set_solver. done.
Qed.

Definition without (zs : list Z) (h : tlstore) (s : ksys) : ksys :=
  with_tls h (with_int (Intr (del_all zs (i_threads (k_int s))) (i_cpus (k_int s)) (i_locks (k_int s))) (with_threads (del_all zs) s)).

(** The interrupt state of a thread is freed with it. *)
Definition forget (t : Z) (s : ksys) : ksys :=
  with_int (Intr (delete t (i_threads (k_int s))) (i_cpus (k_int s)) (i_locks (k_int s))) s.

Lemma hold_forget c cur b lev K t s : t <> cur -> forget t (hold c cur b lev K s) = hold c cur b lev K (forget t s).
Proof.
  intros Hne. unfold forget, hold, mid. cbn [with_int k_int i_threads i_cpus i_locks]. unfold with_int. cbn. by rewrite delete_insert_ne.
Qed.

Lemma with_threads_delete t x s : with_threads (delete t) (with_threads <[t := x]> s) = with_threads (delete t) s.
Proof. unfold with_threads. cbn [k_threads k_cpus k_numcpus k_tls k_int k_wchans k_sems k_procs]. by rewrite delete_insert_eq. Qed.

Section exorcise.
Context `{DebugAsserts} (c cur : Z) (b : bool) (lev : Z).

(** Destroying a thread that is on no list. *)
Lemma wp_thread_destroy t th L (Q : unit -> ksys -> Prop) E s :
  curthread_is c cur s -> t <> cur -> k_threads s !! t = Some th -> t_state th <> S_RUN -> t_proc th = None ->
  tl_rep (k_tls s) (dom (k_threads s)) L -> off_lists L t ->
  (forall h, tl_rep h (dom (delete t (k_threads s))) L -> Q tt (hold c cur b lev ∅ (without [t] h s))) ->
  wp (thread_destroy c t) Q E (hold c cur b lev ∅ s).
Proof.
  intros Hc Hne Hth Hst Hp R Ho HQ. unfold thread_destroy. apply wp_bind, wp_curthread with cur; [done|].
  apply wp_bind, wp_kassert; [apply negb_true_iff, Z.eqb_neq; done|]. apply wp_bind. eapply wp_load_thread; [exact Hth|].
  apply wp_bind, wp_kassert; [by rewrite bool_decide_eq_false_2|]. apply wp_bind, wp_kassert; [by rewrite Hp|].
  apply wp_bind. eapply wp_in_tls, wp_nodecleanup; [exact R|by apply elem_of_dom|exact Ho|].
  change (with_tls (k_tls (hold c cur b lev ∅ s)) (hold c cur b lev ∅ s)) with (hold c cur b lev ∅ s).
  apply wp_bind. eapply wp_upd_thread; [exact Hth|]. rewrite hold_threads. unfold free_thread.
  apply wp_bind, wp_modify. rewrite hold_threads, with_threads_delete.
  apply wp_bind, wp_in_tls, wp_modify. rewrite hold_tls. apply wp_zoom, wp_modify.
  set (h := TLStore (delete (t_listnode t) (tl_nodes (k_tls s))) (tl_counts (k_tls s))).
  change (Q tt (forget t (hold c cur b lev ∅ (with_tls h (with_threads (delete t) s))))). rewrite hold_forget by done.
  apply (HQ h). rewrite dom_delete_L. by apply rep_free.
Qed.

Lemma without_cons z zs h h' s : without zs h' (without [z] h s) = without (z :: zs) h' s.
Proof. done. Qed.

Lemma wp_exorcise_loop fuel zs L (Q : unit -> ksys -> Prop) E s :
  curthread_is c cur s -> cur ∉ zs ->
  (forall z, z ∈ zs -> exists th, k_threads s !! z = Some th /\ t_state th = S_ZOMBIE /\ t_proc th = None) ->
  tl_rep (k_tls s) (dom (k_threads s)) L -> L !! c_zombies c = Some zs -> (length zs < fuel)%nat ->
  (forall h, tl_rep h (dom (del_all zs (k_threads s))) (<[c_zombies c := []]> L) -> Q tt (hold c cur b lev ∅ (without zs h s))) ->
  wp (exorcise_loop c fuel) Q E (hold c cur b lev ∅ s).
Proof.
  revert zs L s. induction fuel as [|fuel IH]; intros zs L s Hc Hcur Hz R HL Hf HQ; [lia|]. cbn [exorcise_loop].
  apply wp_bind. eapply wp_list; [exact (wp_remhead (k_tls s) (dom (k_threads s)) L (c_zombies c) zs R HL)|].
  intros o h [-> Rh]. rewrite hold_tls. destruct zs as [|z zs]; cbn [head tail] in *.
  { apply wp_ret. by specialize (HQ h Rh). }
  pose proof (rep_nodup _ _ _ R _ _ HL) as ND. apply NoDup_cons in ND as [Hzn ND].
  destruct (Hz z (list_elem_of_here _ _)) as (th & Hth & Hst & Hp).
  apply wp_bind, wp_curthread with cur; [done|]. apply wp_bind, wp_kassert; [apply negb_true_iff, Z.eqb_neq; set_solver|].
  apply wp_bind. eapply wp_load_thread; [exact Hth|]. apply wp_bind, wp_kassert; [by apply bool_decide_eq_true_2|]. apply wp_bind.
  assert (Ho : off_lists (<[c_zombies c := zs]> L) z).
  { intros id l [[<- <-]|[Hne Hl]]%lookup_insert_Some; [done|]. intros Hin. apply Hne.
    eapply (rep_apart _ _ _ R); [exact HL|exact Hl|by left|exact Hin]. }
  apply (wp_thread_destroy z th (<[c_zombies c := zs]> L)); try done; [set_solver|by rewrite Hst|].
  intros h2 Rh2. apply (IH zs (<[c_zombies c := zs]> L)).
  - done.
  - set_solver.
  - intros y Hy. destruct (Hz y) as (thy & Hthy & ?); [by right|]. exists thy. split; [|done]. cbn. rewrite lookup_delete_ne by set_solver. done.
  - done.
  - by rewrite lookup_insert_eq.
  - cbn [length] in Hf. lia.
  - intros h3. rewrite insert_insert_eq. apply HQ.
Qed.

End exorcise.

(** ** Switching to a thread *)

(** The thread that gives up the processor keeps the run queue lock counted. *)
Definition left_off (cur : Z) (b : bool) (s : ksys) : ksys :=
  with_int (Intr (<[cur := IState b IPL_HIGH 2]> (i_threads (k_int s))) (i_cpus (k_int s)) (i_locks (k_int s))) s.

Lemma hold_switch c cur b n bn s :
  i_threads (k_int (left_off cur b s)) !! n = Some (IState bn IPL_HIGH 2) ->
  hold c cur b IPL_HIGH {[c_runqueue_lock c]} s = hold c n bn IPL_HIGH {[c_runqueue_lock c]} (left_off cur b s).
Proof.
  intros Hn. destruct s as [thr cps k h [it ic il] wch sm pr]. unfold hold, mid, with_int, left_off in *. cbn in Hn |- *.
  rewrite size_singleton. change (IPL_HIGH + Z.of_nat 1) with 2. by rewrite (insert_id _ n) by done.
Qed.

Lemma del_all_insert_dom {A} zs (m : gmap Z A) n y : is_Some (m !! n) -> dom (del_all zs (<[n := y]> m)) = dom (del_all zs m).
Proof.
  intros [z Hz]. apply set_eq. intros u. rewrite !elem_of_dom, !del_all_lookup. destruct (decide (u ∈ zs)); [done|].
  destruct (decide (u = n)) as [->|Hun]; [|by rewrite lookup_insert_ne]. rewrite lookup_insert_eq, Hz. split; eauto.
Qed.

Definition switched (c cur n : Z) (b : bool) (x : cpu) (thn : thread) (zs : list Z) (h : tlstore) (s : ksys) : ksys :=
  without zs h (with_threads <[n := set_state S_RUN (set_wchan_name None thn)]>
    (with_cpus <[c := set_curthread n (set_isidle false x)]> (left_off cur b s))).

Definition resume_level (f : switchframe) : Z := match f with SavedSwitch spl => spl | SavedStartup => IPL_NONE end.

Lemma wp_switch_to `{DebugAsserts} c cur b n bn x thn f zs L (Q : unit -> ksys -> Prop) E s :
  k_cpus s !! c = Some x -> c_curthread x = cur -> k_threads s !! n = Some thn -> t_context thn = Some f -> level (resume_level f) ->
  i_threads (k_int (left_off cur b s)) !! n = Some (IState bn IPL_HIGH 2) ->
  i_locks (k_int s) !! c_runqueue_lock c = Some free_lock ->
  tl_rep (k_tls s) (dom (k_threads s)) L -> L !! c_zombies c = Some zs -> n ∉ zs ->
  (forall z, z ∈ zs -> exists th, k_threads s !! z = Some th /\ t_state th = S_ZOMBIE /\ t_proc th = None) ->
  (forall h, tl_rep h (dom (del_all zs (k_threads s))) (<[c_zombies c := []]> L) ->
     Q tt (hold c n bn (resume_level f) ∅ (switched c cur n b x thn zs h s))) ->
  wp (switch_to c n) Q E (hold c cur b IPL_HIGH {[c_runqueue_lock c]} s).
Proof.
  intros Hx Hcur Hthn Hf Hlev Hin Hfree R HL Hn Hz HQ. unfold switch_to.
  apply wp_bind. eapply wp_upd_cpu; [exact Hx|]. rewrite hold_cpus.
  apply wp_bind. eapply wp_upd_cpu; [apply lookup_insert_eq|]. rewrite hold_cpus, with_cpus_twice.
  apply wp_bind. eapply wp_load_thread; [exact Hthn|]. apply wp_bind. eapply wp_oob; [exact Hf|].
  rewrite (hold_switch c cur b n bn) by exact Hin.
  set (s1 := left_off cur b (with_cpus <[c := set_curthread n (set_isidle false x)]> s)).
  assert (Hc1 : curthread_is c n s1) by (exists (set_curthread n (set_isidle false x)); split; [apply lookup_insert_eq|done]).
  assert (W : forall (Q0 : unit -> ksys -> Prop), (forall h, tl_rep h (dom (del_all zs (k_threads s))) (<[c_zombies c := []]> L) ->
      Q0 tt (hold c n bn IPL_HIGH ∅ (switched c cur n b x thn zs h s))) ->
    wp (switch_tail c) Q0 E (hold c n bn IPL_HIGH {[c_runqueue_lock c]} s1)).
  { intros Q0 HQ0. unfold switch_tail.
    apply wp_bind, wp_curthread with n; [done|]. apply wp_bind. eapply wp_upd_thread; [exact Hthn|]. rewrite hold_threads.
    apply wp_bind. eapply wp_upd_thread; [apply lookup_insert_eq|]. rewrite hold_threads, with_threads_twice.
    apply wp_bind. apply wp_rel; [exact Hc1|by right|by apply few_small; rewrite size_singleton; lia|set_solver|exact Hfree|].
    replace ({[c_runqueue_lock c]} ∖ {[c_runqueue_lock c]} : gset lockid) with (∅ : gset lockid) by set_solver.
    unfold exorcise. apply wp_bind, wp_gets.
    apply (wp_exorcise_loop c n bn IPL_HIGH _ zs L); [exact Hc1|exact Hn| | |exact HL| |].
    - intros z Hzz. destruct (Hz z Hzz) as (th & ? & ?). exists th. split; [|done].
      cbn [k_threads with_threads]. rewrite lookup_insert_ne by set_solver. done.
    - cbn [k_threads k_tls with_threads]. rewrite dom_insert_lookup_L by eauto. exact R.
    - unfold thread_fuel. cbn [hold with_int with_threads k_threads]. apply le_n_S.
      rewrite map_size_insert_Some by eauto.
      pose proof (rep_length _ _ _ _ _ R HL) as Hlen. rewrite size_dom in Hlen. change (k_threads s1) with (k_threads s). lia.
    - intros h Rh. apply HQ0. cbn [k_threads with_threads] in Rh. rewrite del_all_insert_dom in Rh by eauto. exact Rh. }
  assert (Hc2 : forall h, curthread_is c n (switched c cur n b x thn zs h s)).
  { intros h. exists (set_curthread n (set_isidle false x)). split; [apply lookup_insert_eq|done]. }
  destruct f as [spl|]; apply wp_bind, W; intros h Rh; (apply wp_bind, wp_restore; [apply Hc2|done|by apply few_small; rewrite size_empty; lia|]);
    apply wp_ret; by apply HQ.
Qed.

(** ** An idle processor finds a thread *)

Lemma numthreads_delete (T : gmap Z thread) z th p :
  T !! z = Some th -> t_proc th <> Some p -> numthreads (delete z T) p = numthreads T p.
Proof.
  intros Hz Hp. unfold numthreads. f_equal. f_equal. rewrite map_filter_delete. apply delete_id.
  apply map_lookup_filter_None. right. intros y Hy. cbn. rewrite Hz in Hy. by simplify_eq.
Qed.

Lemma numthreads_del_all (T : gmap Z thread) zs p :
  NoDup zs -> (forall z, z ∈ zs -> exists th, T !! z = Some th /\ t_proc th <> Some p) -> numthreads (del_all zs T) p = numthreads T p.
Proof.
  revert T. induction zs as [|z zs IH]; intros T ND Hz; [done|]. apply NoDup_cons in ND as [Hn ND].
  cbn [del_all foldl]. fold (del_all zs (delete z T)). rewrite IH; [|done|].
  - destruct (Hz z (list_elem_of_here _ _)) as (th & Hth & Hp). by eapply numthreads_delete.
  - intros y Hy. destruct (Hz y) as (th & Hth & ?); [by right|]. exists th. split; [|done]. rewrite lookup_delete_ne by set_solver. done.
Qed.

Lemma shape_idle d ctx fs x : shape RIdle d ctx fs x -> t_in_interrupt x = false ->
  x = IState false IPL_HIGH 1 /\ base fs /\ (d = false -> ctx = Some (SavedSwitch IPL_NONE)).
Proof. inversion 1; subst; intros; try done. split_and!; [done| |done]. by left. Qed.

(** The threads of a run queue are ready and belong to its processor. *)
Lemma queued_ready lbolt ex s L c t l :
  kinv_but lbolt ex s L -> L !! c_runqueue c = Some l -> t ∈ l ->
  exists th, k_threads s !! t = Some th /\ t_cpu th = Some c /\ t_state th = S_READY /\ thread_ok lbolt s L t th.
Proof.
  intros I Hl Ht. assert (Hon : on L (c_runqueue c) t) by (by exists l).
  destruct (kinv_listed _ _ _ _ I _ _ _ Hl Ht) as (th & Hth & T & Hst). exists th.
  destruct (tok_cpu _ _ _ _ _ T) as (c' & Hc' & _ & Hp). unfold state_place in Hp. destruct (t_state th); [done| | |].
  - assert (c' = c) as -> by (destruct Hp as [_ [Ho|Ho]]; pose proof (kinv_on_unique _ _ _ _ I _ _ _ Hon Ho); lists). done.
  - destruct Hp as [_ (w & Ho & _)]. pose proof (kinv_on_unique _ _ _ _ I _ _ _ Hon Ho). lists.
  - destruct Hp as [_ [Ho _]]. pose proof (kinv_on_unique _ _ _ _ I _ _ _ Hon Ho). lists.
Qed.

(** How a thread that waits in a run queue is resumed. *)
Definition resumable (thn : thread) (f : switchframe) (bn : bool) : Prop :=
  t_context thn = Some f /\ level (resume_level f) /\
  (forall d ctx, shape RRun d ctx (t_frames thn) (IState bn (resume_level f) (resume_level f))) /\
  (forall m fs, t_frames thn <> InMigrate m :: fs).

Lemma base_no_migration m fs' fs : base fs -> fs <> InMigrate m :: fs'.
Proof. by intros [-> |[[? ->]|[? ->]]]. Qed.

Lemma waiting_resumable lbolt ex s L c x t thn l :
  kinv_but lbolt ex s L -> k_cpus s !! c = Some x -> L !! c_runqueue c = Some l -> t ∈ l -> k_threads s !! t = Some thn -> c_curthread x <> t ->
  exists f bn, resumable thn f bn /\ i_threads (k_int s) !! t = Some (IState bn IPL_HIGH 2).
Proof.
  intros I Hx Hl Ht Hthn Hne. destruct (queued_ready _ _ _ _ _ _ _ I Hl Ht) as (th & Hth & Hc & Hst & T). simplify_eq.
  destruct (tok_shape _ _ _ _ _ T) as (i & Hi & Hs). rewrite Hst, (role_wait s c x t thn Hx Hc Hne) in Hs.
  unfold resumable. remember (t_frames thn) as tf eqn:Etf. clear Etf.
  inversion Hs as [| | | | | | | | |fs Hb|fs Hb| |ctx y]; subst.
  - exists (SavedSwitch IPL_NONE), false. split; [|done]. split_and!; [done|by left|by constructor|]. intros. by apply base_no_migration.
  - exists (SavedSwitch IPL_HIGH), true. split; [|done]. split_and!; [done|by right|by constructor|]. intros m fs'. congruence.
  - exists SavedStartup, false. split; [|done]. split_and!; [done|by left| |]. { intros. constructor. by left. } intros m fs'. congruence.
Qed.

(** The next thread of an idle processor may be the one it idles on. *)
Lemma next_ready lbolt ex s L c x n l :
  kinv_but lbolt ex s L -> k_cpus s !! c = Some x -> c_isidle x = true ->
  i_threads (k_int s) !! c_curthread x = Some (IState false IPL_HIGH 1) -> L !! c_runqueue c = Some (n :: l) ->
  exists thn f bn, k_threads s !! n = Some thn /\ t_cpu thn = Some c /\ t_state thn = S_READY /\ thread_ok lbolt s L n thn /\
    resumable thn f bn /\ i_threads (k_int (left_off (c_curthread x) false s)) !! n = Some (IState bn IPL_HIGH 2).
Proof.
  intros I Hx Hidle Hq Hrq. destruct (queued_ready _ _ _ _ _ _ _ I Hrq (list_elem_of_here _ _)) as (thn & Hthn & Hc & Hst & T).
  exists thn. unfold left_off. cbn [k_int with_int i_threads]. destruct (decide (c_curthread x = n)) as [<-|En].
  - destruct (tok_shape _ _ _ _ _ T) as (i & Hi & Hs). simplify_eq. rewrite Hst, (role_cur s c x _ thn Hx Hc eq_refl), Hidle in Hs.
    destruct (shape_idle _ _ _ _ Hs eq_refl) as (_ & Hb & Hctx). exists (SavedSwitch IPL_NONE), false. rewrite lookup_insert_eq.
    split_and!; try done. split_and!; [by apply Hctx|by left|by constructor|]. intros. by apply base_no_migration.
  - destruct (waiting_resumable _ _ _ _ _ _ _ _ _ I Hx Hrq (list_elem_of_here _ _) Hthn En) as (f & bn & ? & ?). exists f, bn.
    rewrite lookup_insert_ne by done. done.
Qed.

Lemma zombies_dead lbolt ex s L c zs : kinv_but lbolt ex s L -> L !! c_zombies c = Some zs ->
  forall z, z ∈ zs -> exists th, k_threads s !! z = Some th /\ t_cpu th = Some c /\ t_state th = S_ZOMBIE /\ t_proc th = None.
Proof.
  intros I Hzs z Hz. assert (Hon : on L (c_zombies c) z) by (by exists zs).
  destruct (kinv_listed _ _ _ _ I _ _ _ Hzs Hz) as (th & Hth & T & Hst). exists th.
  destruct (tok_cpu _ _ _ _ _ T) as (c' & Hc' & _ & Hp). unfold state_place in Hp. destruct (t_state th); [done| | |].
  - destruct Hp as [_ [Ho|Ho]]; pose proof (kinv_on_unique _ _ _ _ I _ _ _ Hon Ho); lists.
  - destruct Hp as [_ (w & Ho & _)]. pose proof (kinv_on_unique _ _ _ _ I _ _ _ Hon Ho). lists.
  - destruct Hp as [_ [Ho ?]]. pose proof (kinv_on_unique _ _ _ _ I _ _ _ Hon Ho). assert (c' = c) as -> by lists. done.
Qed.

Lemma zombies_idle lbolt ex s L c zs w : kinv_but lbolt ex s L -> L !! c_zombies c = Some zs ->
  forall z th, z ∈ zs -> k_threads s !! z = Some th -> InP w ∉ t_frames th.
Proof.
  intros I Hzs z th Hz Hth. destruct (zombies_dead lbolt ex s L c zs I Hzs z Hz) as (th' & Hth' & Hc & Hst & _). simplify_eq.
  pose proof (inv_threads _ _ _ _ I _ _ Hth) as T. destruct (tok_cpu _ _ _ _ _ T) as (c' & _ & _ & Hp). unfold state_place in Hp. rewrite Hst in Hp.
  destruct (tok_shape _ _ _ _ _ T) as (i & _ & Hs). rewrite Hst in Hs. change (bool_decide (S_ZOMBIE = S_ZOMBIE)) with true in Hs.
  destruct Hp as [Hr _]. inversion Hs; subst; try congruence; set_solver.
Qed.

Lemma in_P_del_all (T : gmap Z thread) zs w :
  NoDup zs -> (forall z, z ∈ zs -> exists th, T !! z = Some th /\ InP w ∉ t_frames th) -> in_P (del_all zs T) w = in_P T w.
Proof.
  revert T. induction zs as [|z zs IH]; intros T ND Hz; [done|]. apply NoDup_cons in ND as [Hn ND].
  cbn [del_all foldl]. fold (del_all zs (delete z T)). rewrite IH; [|done|].
  - destruct (Hz z (list_elem_of_here _ _)) as (th & Hth & Hp). by eapply in_P_delete.
  - intros y Hy. destruct (Hz y) as (th & Hth & ?); [by right|]. exists th. split; [|done]. rewrite lookup_delete_ne by set_solver. done.
Qed.

(** ** The state after a switch

    From [s], processor [c] stops running [cur] (which becomes [me]) in the
    state [s1] and goes on with [n]. *)

Section switched.
Context (lbolt : Z) (ex : option Z) (s s1 : ksys) (L : gmap Z (list Z)) (c : Z) (x x1 : cpu) (me : thread) (b : bool).
Context (n : Z) (thn : thread) (f : switchframe) (bn : bool) (l l1 zs : list Z) (h : tlstore).
Hypothesis (I : kinv_but lbolt ex s L) (Hex : ex = None \/ ex = Some c) (Hx : k_cpus s !! c = Some x).
Hypothesis (H1 : k_threads s1 = <[c_curthread x := me]> (k_threads s)) (H2 : k_cpus s1 = <[c := x1]> (k_cpus s)).
Hypothesis (H3 : k_int s1 = k_int s) (H4 : k_numcpus s1 = k_numcpus s) (H5 : k_wchans s1 = k_wchans s).
Hypothesis (H6 : k_sems s1 = k_sems s) (H7 : k_procs s1 = k_procs s).
Hypothesis (Hx1 : c_ipi_pending x1 = c_ipi_pending x).
Hypothesis (Hme : exists th, k_threads s !! c_curthread x = Some th /\ t_proc me = t_proc th /\ t_cpu th = Some c /\ t_frames me = t_frames th).
Hypothesis (Hrq : L !! c_runqueue c = Some (n :: l)) (Hn1 : n ∉ l1) (Hl1 : forall t, t <> c_curthread x -> t ∈ l1 <-> t ∈ l).
Hypothesis (Hthn : k_threads s1 !! n = Some thn) (Hcn : t_cpu thn = Some c) (Hstn : t_state thn = S_READY).
Hypothesis (Hthn0 : exists th, k_threads s !! n = Some th /\ t_proc th = t_proc thn /\ t_cpu th = Some c).
Hypothesis (Tn : stack_ok thn /\ (exists p, t_proc thn = Some p /\ is_Some (k_procs s !! p)) /\ forall w, InP w ∈ t_frames thn -> is_Some (k_sems s !! w)).
Hypothesis (Hshape : forall d ctx, shape RRun d ctx (t_frames thn) (IState bn (resume_level f) (resume_level f))).
Hypothesis (Hmig : forall m fs, t_frames thn <> InMigrate m :: fs).
Hypothesis (Hzs : L !! c_zombies c = Some zs) (Hnz : n ∉ zs) (Hv : L !! victims c = Some []).

Let L' := <[c_zombies c := []]> (<[c_runqueue c := l1]> L).
Let s' := hold c n bn (resume_level f) ∅ (switched c (c_curthread x) n b x1 thn zs h s1).

Lemma switched_threads t : k_threads s' !! t =
  if decide (t ∈ zs) then None else if decide (t = n) then Some (set_state S_RUN (set_wchan_name None thn)) else
  if decide (t = c_curthread x) then Some me else k_threads s !! t.
Proof.
  change (k_threads s') with (del_all zs (<[n := set_state S_RUN (set_wchan_name None thn)]> (k_threads s1))).
  rewrite del_all_lookup. destruct (decide (t ∈ zs)); [done|]. destruct (decide (t = n)) as [->|]; [by rewrite lookup_insert_eq|].
  rewrite lookup_insert_ne, H1 by done. destruct (decide (t = c_curthread x)) as [->|]; [by rewrite lookup_insert_eq | by rewrite lookup_insert_ne].
Qed.

Lemma switched_istate t : i_threads (k_int s') !! t =
  if decide (t = n) then Some (IState bn (resume_level f) (resume_level f)) else
  if decide (t ∈ zs) then None else if decide (t = c_curthread x) then Some (IState b IPL_HIGH 2) else i_threads (k_int s) !! t.
Proof.
  unfold s', hold, mid, switched, left_off. cbn [with_int with_tls without with_threads with_cpus k_int i_threads]. rewrite H3.
  destruct (decide (t = n)) as [->|Hn]; [by rewrite lookup_insert_eq, size_empty, Z.add_0_r|]. rewrite lookup_insert_ne by done.
  rewrite del_all_lookup. destruct (decide (t ∈ zs)); [done|].
  destruct (decide (t = c_curthread x)) as [->|]; [by rewrite lookup_insert_eq | by rewrite lookup_insert_ne].
Qed.

Lemma switched_cpus : k_cpus s' = <[c := set_curthread n (set_isidle false x1)]> (k_cpus s).
Proof.
  change (k_cpus s') with (<[c := set_curthread n (set_isidle false x1)]> (k_cpus s1)). by rewrite H2, insert_insert_eq.
Qed.

Lemma switched_locks : i_locks (k_int s') = i_locks (k_int s).
Proof. unfold s', hold, mid. cbn. by rewrite gset_to_gmap_empty, (left_id_L ∅ (∪)), H3. Qed.

Lemma switched_other_lists id : id <> c_zombies c -> id <> c_runqueue c -> L' !! id = L !! id.
Proof. intros. unfold L'. by rewrite !lookup_insert_ne. Qed.

Lemma switched_next : thread_ok lbolt s' L' n (set_state S_RUN (set_wchan_name None thn)).
Proof.
  assert (Hr : role_of s' n (set_state S_RUN (set_wchan_name None thn)) = RRun).
  { unfold role_of. cbn [t_cpu set_state set_wchan_name]. rewrite Hcn. cbn [mbind option_bind]. rewrite switched_cpus, lookup_insert_eq.
    by rewrite decide_True. }
  destruct Tn as (T1 & T4 & T5). split; [done| | | |].
  - exists c. split_and!; [done|rewrite switched_cpus, lookup_insert_eq; eauto|]. unfold state_place. cbn [t_state set_state]. split; [done|].
    apply off_lists_on. intros id Ho. unfold L' in Ho. rewrite !on_insert in Ho. destruct Ho as [[_ Ho]|[Hid [[_ Ho]|[Hid2 Ho]]]];
      [by apply not_elem_of_nil in Ho|done|].
    assert (Ho2 : on L (c_runqueue c) n) by (exists (n :: l); split; [done | by left]). by destruct (kinv_on_unique _ _ _ _ I _ _ _ Ho Ho2).
  - exists (IState bn (resume_level f) (resume_level f)). rewrite switched_istate, decide_True by done. split; [done|]. rewrite Hr. apply Hshape.
  - intros _. change (k_procs s') with (k_procs s1). rewrite H7. exact T4.
  - change (k_sems s') with (k_sems s1). rewrite H6. exact T5.
Qed.

Lemma switched_cpu : cpu_ok s' L' c (set_curthread n (set_isidle false x1)).
Proof.
  pose proof (inv_cpus _ _ _ _ I _ _ Hx) as [C1 C2 C3 C4 C5 C6]. split.
  - change (k_numcpus s') with (k_numcpus s1). by rewrite H4.
  - cbn [c_curthread set_curthread c_isidle set_isidle]. exists (set_state S_RUN (set_wchan_name None thn)), (IState bn (resume_level f) (resume_level f)).
    rewrite switched_threads, switched_istate, decide_False, !decide_True by done. split_and!; try done.
    + unfold migrating. cbn [t_frames set_state set_wchan_name]. destruct (t_frames thn) as [|[?|?|?|m] fs] eqn:Ef;
        try (rewrite switched_other_lists by lists; done). by destruct (Hmig m fs).
    + unfold s', hold, mid. cbn [k_int with_int i_cpus]. rewrite lookup_insert_eq, size_empty, Z.add_0_r. done.
  - split_and!; [| |rewrite switched_other_lists by lists; apply C3]; unfold L'; [rewrite lookup_insert_ne, lookup_insert_eq by lists | rewrite lookup_insert_eq]; eauto.
  - by rewrite switched_locks.
  - cbn. by rewrite Hx1.
  - done.
Qed.

Lemma kinv_switched :
  (c_curthread x <> n -> c_curthread x ∉ zs -> thread_ok lbolt s' L' (c_curthread x) me) ->
  tl_rep h (dom (del_all zs (k_threads s))) L' -> kinv lbolt s' L'.
Proof.
  intros Hprev R. pose proof I as [I1 I2 I3 _ I4 I5 I6 I7 I8 I9]. destruct Hme as (th0 & Hth0 & Hp0 & Hc0 & _).
  assert (Hth' : k_threads s' = del_all zs (<[n := set_state S_RUN (set_wchan_name None thn)]> (<[c_curthread x := me]> (k_threads s)))).
  { change (k_threads s') with (del_all zs (<[n := set_state S_RUN (set_wchan_name None thn)]> (k_threads s1))). by rewrite H1. }
  apply (kinv_local lbolt s s' L L' ({[c_curthread x; n]} ∪ list_to_set zs) c x (set_curthread n (set_isidle false x1)) ex None); try done.
  - apply switched_cpus.
  - right. set_solver.
  - rewrite Hth', del_all_insert_dom, del_all_insert_dom; [exact R|eauto|]. rewrite <- H1. eauto.
  - intros t Ht. rewrite switched_threads, switched_istate. rewrite !decide_False by set_solver. split_and!; [done..|]. intros id.
    unfold L'. rewrite (on_same (<[c_runqueue c := l1]> L) _ zs); [apply (on_same L _ (n :: l)); [done|]; rewrite Hl1; set_solver| |set_solver].
    rewrite lookup_insert_ne by lists. done.
  - split; [change (k_sems s') with (k_sems s1); by rewrite H6 | change (k_procs s') with (k_procs s1); by rewrite H7].
  - intros t th Ht Hth. rewrite !elem_of_union, !elem_of_singleton, elem_of_list_to_set in Ht. destruct Ht as [[-> | ->]|Hz].
    + by simplify_eq.
    + destruct Hthn0 as (? & ? & _ & ?). by simplify_eq.
    + destruct (zombies_dead lbolt ex s L c zs I Hzs t Hz) as (th' & Hth'' & Hc & _). by simplify_eq.
  - intros t th Ht. rewrite switched_threads. destruct (decide (t ∈ zs)) as [|Hz]; [done|]. destruct (decide (t = n)) as [->|Hn].
    + intros [= <-]. apply switched_next.
    + assert (t = c_curthread x) as -> by set_solver. rewrite decide_True by done. intros [= <-]. by apply Hprev.
  - apply switched_cpu.
  - apply switched_locks.
  - intros e He. unfold s', hold, mid. cbn [k_int with_int i_cpus]. rewrite lookup_insert_ne by done.
    change (i_cpus (k_int s1) !! e = i_cpus (k_int s) !! e). by rewrite H3.
  - intros e He. split_and!; apply switched_other_lists; lists.
  - intros w Hw. rewrite switched_other_lists by lists. done.
  - change (k_sems s') with (k_sems s1). rewrite H6. intros w k Hk. split; [eauto|]. by destruct (I7 _ _ Hk) as (_ & _ & ?).
  - change (k_procs s') with (k_procs s1). rewrite H7, Hth'. intros p k Hk. split; [eauto|]. destruct Hthn0 as (thn0 & Hthn0' & Hpn & _).
    rewrite H1 in Hthn. rewrite numthreads_del_all.
    + rewrite (numthreads_same _ n thn), (numthreads_same _ (c_curthread x) th0) by done. by destruct (I9 _ _ Hk).
    + by eapply (rep_nodup _ _ _ I1).
    + intros z Hz. destruct (zombies_dead lbolt ex s L c zs I Hzs z Hz) as (th & Hth & _ & _ & Hp). rewrite lookup_insert_ne by set_solver.
      destruct (decide (z = c_curthread x)) as [->|]; [exists me; rewrite lookup_insert_eq; simplify_eq; by rewrite Hp0, Hp|].
      exists th. rewrite lookup_insert_ne by done. by rewrite Hp.
Qed.

Lemma switched_neutral : sem_neutral s L s' L'.
Proof.
  intros w Hw. split_and!.
  - change (k_sems s') with (k_sems s1). by rewrite H6.
  - apply switched_other_lists; lists.
  - change (k_threads s') with (del_all zs (<[n := set_state S_RUN (set_wchan_name None thn)]> (k_threads s1))).
    destruct Hme as (th0 & Hth0 & _ & _ & Hf0). rewrite in_P_del_all.
    + rewrite (in_P_same _ n thn) by done. rewrite H1. by rewrite (in_P_same _ _ th0) by (done || by rewrite Hf0).
    + by eapply (rep_nodup _ _ _ (inv_rep _ _ _ _ I)).
    + intros z Hz. destruct (zombies_dead lbolt ex s L c zs I Hzs z Hz) as (th & Hth & _ & _ & _).
      pose proof (zombies_idle lbolt ex s L c zs w I Hzs z th Hz Hth) as Hzw. rewrite lookup_insert_ne by set_solver. rewrite H1.
      destruct (decide (z = c_curthread x)) as [->|]; [exists me; rewrite lookup_insert_eq; simplify_eq; by rewrite Hf0|].
      exists th. by rewrite lookup_insert_ne.
Qed.
End switched.

(** The processor was idle on the stack of a thread that waits. *)
Lemma switched_prev_idle lbolt ex s L c x n thn f bn l zs h me :
  kinv_but lbolt ex s L -> k_cpus s !! c = Some x -> c_isidle x = true ->
  i_threads (k_int s) !! c_curthread x = Some (IState false IPL_HIGH 1) -> L !! c_runqueue c = Some (n :: l) ->
  L !! c_zombies c = Some zs -> k_threads s !! c_curthread x = Some me -> c_curthread x <> n -> c_curthread x ∉ zs ->
  thread_ok lbolt (hold c n bn (resume_level f) ∅ (switched c (c_curthread x) n false x thn zs h s))
    (<[c_zombies c := []]> (<[c_runqueue c := l]> L)) (c_curthread x) me.
Proof.
  intros I Hx Hidle Hquiet Hrq Hzs Hme Hne Hz. pose proof (inv_threads _ _ _ _ I _ _ Hme) as [T1 T2 T3 T4 T5].
  destruct (kinv_cur _ _ _ _ I _ _ Hx) as (th' & b' & lev' & Hth' & Hc & _ & Hi & Hs & _). simplify_eq.
  rewrite Hidle in Hs. destruct (shape_idle _ _ _ _ Hs eq_refl) as (_ & Hb & Hctx).
  set (s' := hold _ _ _ _ _ _). set (L' := <[_ := _]> _).
  assert (Hcp : k_cpus s' !! c = Some (set_curthread n (set_isidle false x))) by apply lookup_insert_eq.
  assert (Hr : role_of s' (c_curthread x) me = RWait) by (eapply role_wait; [exact Hcp|done|by apply not_eq_sym]).
  assert (Hon : forall id, id <> c_zombies c -> on L id (c_curthread x) -> on L' id (c_curthread x)).
  { intros id Hid Ho. unfold L'. rewrite !on_insert. destruct (decide (id = c_runqueue c)) as [->|]; [|tauto].
    destruct Ho as (l0 & Hl0 & Hin). rewrite Hrq in Hl0. simplify_eq. right. split; [lists|]. left. set_solver. }
  destruct T2 as (c' & Hc' & Hx' & Hp). assert (c' = c) as -> by congruence.
  assert (Hst : t_state me <> S_ZOMBIE).
  { intros E. unfold state_place in Hp. rewrite E in Hp. destruct Hp as [_ [(l0 & Hl0 & Hin) _]]. rewrite Hzs in Hl0. by simplify_eq. }
  split; [done| | |done|done].
  - exists c. split_and!; [done|eauto|]. unfold state_place in Hp |- *. rewrite Hr. destruct (t_state me).
    + destruct Hp as [Hp _]. rewrite (role_cur s c x _ me Hx Hc eq_refl), Hidle in Hp. done.
    + split; [done|]. destruct Hp as [_ [Ho|Ho]]; [left|right]; apply Hon; done || lists.
    + split; [done|]. destruct Hp as [_ (w & Ho & ?)]. exists w. split; [apply Hon; [lists|done]|done].
    + done.
  - exists (IState false IPL_HIGH 2). split.
    { unfold s'. rewrite (switched_istate s s c x x) by done. by rewrite decide_False, decide_False, decide_True by done. }
    rewrite Hr. rewrite bool_decide_eq_false_2 in Hctx |- * by done. rewrite Hctx by done. by constructor.
Qed.

Lemma idle_no_victims lbolt ex s L c x :
  kinv_but lbolt ex s L -> k_cpus s !! c = Some x -> c_isidle x = true ->
  i_threads (k_int s) !! c_curthread x = Some (IState false IPL_HIGH 1) -> L !! victims c = Some [].
Proof.
  intros I Hx Hidle Hq. destruct (kinv_cur _ _ _ _ I _ _ Hx) as (th & b & lev & Hth & Hc & _ & Hi & Hs & _). simplify_eq.
  rewrite Hidle in Hs. destruct (shape_idle _ _ _ _ Hs eq_refl) as (_ & Hb & _).
  destruct (cok_cur _ _ _ _ (inv_cpus _ _ _ _ I _ _ Hx)) as (th' & i & Hth' & _ & _ & Hm & _). simplify_eq.
  revert Hm. destruct Hb as [-> |[[? ->]|[? ->]]]; done.
Qed.

(** What a piece of code may leave: a state with the invariant. *)
Definition keeps (lbolt : Z) {A} (_ : A) (s : ksys) : Prop := exists L, kinv lbolt s L.

(** The loop in [thread_switch] that looks for a thread to run. *)
Lemma wp_pick_next `{DebugAsserts} lbolt ex c x L s (Q : bool -> ksys -> Prop) E :
  kinv_but lbolt ex s L -> (ex = None \/ ex = Some c) -> k_cpus s !! c = Some x -> c_isidle x = true ->
  i_threads (k_int s) !! c_curthread x = Some (IState false IPL_HIGH 1) ->
  (forall h, L !! c_runqueue c = Some [] -> kinv lbolt (with_tls h s) L -> Q true (with_tls h s)) ->
  (forall n l zs thn f bn h, L !! c_runqueue c = Some (n :: l) -> k_threads s !! n = Some thn -> t_state thn = S_READY ->
     let s' := hold c n bn (resume_level f) ∅ (switched c (c_curthread x) n false x thn zs h s) in
     kinv lbolt s' (<[c_zombies c := []]> (<[c_runqueue c := l]> L)) -> sem_neutral s L s' (<[c_zombies c := []]> (<[c_runqueue c := l]> L)) -> Q false s') ->
  wp (pick_next c) Q E (hold c (c_curthread x) false IPL_HIGH {[c_runqueue_lock c]} s).
Proof.
  intros I Hex Hx Hid Hq HQ1 HQ2. pose proof (inv_cpus _ _ _ _ I _ _ Hx) as C. destruct (cok_lists _ _ _ _ C) as ([l Hl] & [zs Hzs] & _).
  destruct (cok_locks _ _ _ _ C) as [Hfree _]. unfold pick_next. apply wp_bind.
  eapply wp_list; [exact (wp_remhead (k_tls s) _ L _ l (inv_rep _ _ _ _ I) Hl)|]. intros o h [-> Rh]. rewrite hold_tls.
  destruct l as [|n l]; cbn [head tail] in *.
  - apply wp_bind, wp_rel; [exists x; done|by right|apply few_small; rewrite size_singleton; lia|set_solver|done|]. apply wp_ret.
    replace ({[c_runqueue_lock c]} ∖ {[c_runqueue_lock c]} : gset lockid) with (∅ : gset lockid) by set_solver.
    assert (I2 : kinv lbolt (with_tls h s) L) by (rewrite insert_id in Rh by done; apply (kinv_settle _ ex c); [by apply kinv_tls|done|done]).
    destruct (kinv_cur _ _ _ _ I2 c x Hx) as (_ & b & lev & _ & _ & _ & Hi & _ & Eh). cbn [with_tls k_int] in Hi. rewrite Hq in Hi. simplify_eq.
    change 1 with IPL_HIGH in Eh. rewrite <- Eh. by apply HQ1.
  - destruct (next_ready lbolt ex s L c x n l I Hx Hid Hq Hl) as (thn & f & bn & Hthn & Hcn & Hstn & Tn & (Hctx & Hlev & Hsh & Hmg) & Hin).
    assert (Hnz : n ∉ zs).
    { intros Hz. destruct (zombies_dead lbolt ex s L c zs I Hzs n Hz) as (? & ? & _ & ? & _). simplify_eq. congruence. }
    destruct (kinv_cur _ _ _ _ I _ _ Hx) as (me & _ & _ & Hme & Hcme & _).
    apply wp_bind. apply (wp_switch_to c (c_curthread x) false n bn x thn f zs (<[c_runqueue c := l]> L)); try done.
    + rewrite lookup_insert_ne by lists. done.
    + intros z Hz. destruct (zombies_dead lbolt ex s L c zs I Hzs z Hz) as (th & ? & ? & ? & ?). eauto.
    + intros h2 Rh2. apply wp_ret. enough (HH : kinv lbolt (hold c n bn (resume_level f) ∅ (switched c (c_curthread x) n false x thn zs h2 s)) (<[c_zombies c := []]> (<[c_runqueue c := l]> L)) /\
        sem_neutral s L (hold c n bn (resume_level f) ∅ (switched c (c_curthread x) n false x thn zs h2 s)) (<[c_zombies c := []]> (<[c_runqueue c := l]> L))) by (destruct HH; apply (HQ2 n l zs thn f bn h2); done).
      pose proof (rep_nodup _ _ _ (inv_rep _ _ _ _ I) _ _ Hl) as [Hnl _]%NoDup_cons. destruct Tn as [T1 T2 T3 T4 T5].
      assert (Hme' : exists th, k_threads s !! c_curthread x = Some th /\ t_proc me = t_proc th /\ t_cpu th = Some c /\ t_frames me = t_frames th) by eauto.
      assert (Eth : k_threads s = <[c_curthread x := me]> (k_threads s)) by (by rewrite insert_id).
      assert (Ecp : k_cpus s = <[c := x]> (k_cpus s)) by (by rewrite insert_id).
      assert (Hn0 : exists th, k_threads s !! n = Some th /\ t_proc th = t_proc thn /\ t_cpu th = Some c) by eauto.
      assert (Hn1 : stack_ok thn /\ (exists p, t_proc thn = Some p /\ is_Some (k_procs s !! p)) /\ forall w, InP w ∈ t_frames thn -> is_Some (k_sems s !! w)).
      { split_and!; [done| |done]. apply T4. by rewrite Hstn. }
      pose proof (idle_no_victims _ _ _ _ _ _ I Hx Hid Hq) as Hv. split.
      * apply (kinv_switched lbolt ex s s L c x x me false n thn f bn l l zs h2); try done. intros Hne Hcz. by eapply switched_prev_idle.
      * by eapply (switched_neutral lbolt ex s s L c x x me).
Qed.

(** ** Giving up the processor *)

Lemma hold_hold c cur b lev K b' lev' s : hold c cur b lev K (hold c cur b' lev' ∅ s) = hold c cur b lev K s.
Proof.
  unfold hold, mid. cbn [with_int k_int i_threads i_cpus i_locks]. unfold with_int. cbn [k_threads k_cpus k_numcpus k_tls k_int k_wchans k_sems k_procs].
  by rewrite !insert_insert_eq, gset_to_gmap_empty, (left_id_L ∅ (∪) (i_locks (k_int s))).
Qed.

Lemma hold_istate c cur b lev s : i_threads (k_int (hold c cur b lev ∅ s)) !! cur = Some (IState b lev lev).
Proof. unfold hold, mid. cbn [with_int k_int i_threads]. by rewrite lookup_insert_eq, size_empty, Z.add_0_r. Qed.

Lemma hold_istate_ne c cur b lev K s t : t <> cur -> i_threads (k_int (hold c cur b lev K s)) !! t = i_threads (k_int s) !! t.
Proof. intros. unfold hold, mid. cbn [with_int k_int i_threads]. by rewrite lookup_insert_ne. Qed.

Lemma hold_icpu c cur b lev s : i_cpus (k_int (hold c cur b lev ∅ s)) !! c = Some (ICpu 0 (lev =? 0)).
Proof. unfold hold, mid. cbn [with_int k_int i_cpus]. by rewrite lookup_insert_eq, size_empty, Z.add_0_r. Qed.

Lemma hold_icpu_ne c cur b lev K s e : e <> c -> i_cpus (k_int (hold c cur b lev K s)) !! e = i_cpus (k_int s) !! e.
Proof. intros. unfold hold, mid. cbn [with_int k_int i_cpus]. by rewrite lookup_insert_ne. Qed.

Lemma hold_locks c cur b lev s : i_locks (k_int (hold c cur b lev ∅ s)) = i_locks (k_int s).
Proof. unfold hold, mid. cbn [with_int k_int i_locks]. by rewrite gset_to_gmap_empty, (left_id_L ∅ (∪)). Qed.

Lemma running_off lbolt s L c x me :
  kinv lbolt s L -> k_cpus s !! c = Some x -> c_isidle x = false -> k_threads s !! c_curthread x = Some me ->
  off_lists L (c_curthread x) /\ t_state me = S_RUN /\ t_cpu me = Some c.
Proof.
  intros I Hx Hbusy Hme. destruct (cok_cur _ _ _ _ (inv_cpus _ _ _ _ I _ _ Hx)) as (th & i & Hth & Hc & Hidl & _). simplify_eq.
  assert (Hst : t_state me = S_RUN) by (destruct (t_state me) eqn:E; [done|..]; (assert (c_isidle x = true) by (apply Hidl; congruence); congruence)).
  destruct (tok_cpu _ _ _ _ _ (inv_threads _ _ _ _ I _ _ Hme)) as (c' & _ & _ & Hp). unfold state_place in Hp. rewrite Hst in Hp. tauto.
Qed.

Section put_away.
Context (lbolt : Z) (s s0 : ksys) (L : gmap Z (list Z)) (c : Z) (x : cpu) (me me' : thread) (id : Z) (l : list Z).
Hypothesis (I : kinv lbolt s L) (Hx : k_cpus s !! c = Some x) (Hbusy : c_isidle x = false).
Hypothesis (Hme : k_threads s !! c_curthread x = Some me) (Hbase : base (t_frames me)).
Hypothesis (H1 : k_threads s0 = <[c_curthread x := me']> (k_threads s)) (H2 : k_cpus s0 = <[c := set_isidle true x]> (k_cpus s)).
Hypothesis (H3 : k_int s0 = k_int s) (H4 : k_numcpus s0 = k_numcpus s) (H5 : k_wchans s0 = k_wchans s) (H6 : k_sems s0 = k_sems s).
Hypothesis (H7 : forall p, is_Some (k_procs s !! p) -> is_Some (k_procs s0 !! p)).
Hypothesis (H8 : forall p n, k_procs s0 !! p = Some n -> is_Some (k_procs s !! p) /\ n = numthreads (k_threads s0) p).
Hypothesis (Hc' : t_cpu me' = t_cpu me) (Hs' : t_stack me' = t_stack me) (Hf' : t_frames me' = t_frames me).
Hypothesis (Hid : L !! id = Some l).
Hypothesis (Hstate :
  (t_state me' = S_SLEEP /\ t_context me' = Some (SavedSwitch IPL_NONE) /\ t_proc me' = t_proc me /\
     exists w, id = wc_threads w /\ sleeps_on lbolt w (t_frames me)) \/
  (t_state me' = S_ZOMBIE /\ t_proc me' = None /\ id = c_zombies c /\ t_frames me = [])).

Let S0 := hold c (c_curthread x) false IPL_HIGH ∅ s0.
Let L0 := <[id := l ++ [c_curthread x]]> L.

Lemma kinv_put_away : tl_rep (k_tls s0) (dom (k_threads s)) L0 -> kinv_but lbolt (Some c) S0 L0.
Proof.
  intros R. destruct (running_off _ _ _ _ _ _ I Hx Hbusy Hme) as (Hoff & Hrun & Hc). pose proof (inv_threads _ _ _ _ I _ _ Hme) as [T1 T2 T3 T4 T5].
  pose proof (inv_cpus _ _ _ _ I _ _ Hx) as [C1 C2 C3 C4 C5 C6].
  assert (Hid' : id <> c_runqueue c /\ id <> victims c /\ id <> wakeall_list c /\ forall e, e <> c -> id <> c_runqueue e /\ id <> c_zombies e /\ id <> victims e /\ id <> wakeall_list e).
  { destruct Hstate as [(_ & _ & _ & w & -> & _)|(_ & _ & -> & _)]; (split_and!; [lists..|]); intros e He; split_and!; lists. }
  destruct Hid' as (Hi1 & Hi2 & Hi3 & Hi4).
  assert (HL : forall k, k <> id -> L0 !! k = L !! k) by (intros; unfold L0; by rewrite lookup_insert_ne).
  assert (Hr : role_of S0 (c_curthread x) me' = RIdle).
  { unfold role_of. rewrite Hc', Hc. cbn [mbind option_bind]. change (k_cpus S0) with (k_cpus s0). rewrite H2, lookup_insert_eq. by rewrite decide_True. }
  assert (Hon : on L0 id (c_curthread x)) by (unfold L0; rewrite on_insert; set_solver).
  apply (kinv_local lbolt s S0 L L0 {[c_curthread x]} c x (set_isidle true x) None (Some c)); try done.
  - by left.
  - right. set_solver.
  - change (k_threads S0) with (k_threads s0). rewrite H1, dom_insert_lookup_L by eauto. exact R.
  - intros t Ht. change (k_threads S0) with (k_threads s0). rewrite H1, lookup_insert_ne by set_solver. unfold S0.
    rewrite hold_istate_ne by set_solver. rewrite H3. split_and!; [done..|]. apply (on_same L id l); [done|set_solver].
  - split; [change (k_sems S0) with (k_sems s0); by rewrite H6 | exact H7].
  - intros t th ->%elem_of_singleton Hth. by simplify_eq.
  - intros t th ->%elem_of_singleton. change (k_threads S0) with (k_threads s0). rewrite H1, lookup_insert_eq. intros [= <-]. split.
    + unfold stack_ok. by rewrite Hs'.
    + exists c. split_and!; [by rewrite Hc'|change (k_cpus S0) with (k_cpus s0); rewrite H2, lookup_insert_eq; eauto|].
      unfold state_place. rewrite Hr, Hf'. destruct Hstate as [(-> & _ & _ & w & -> & Hw)|(-> & Hp & -> & _)]; split; try done. by exists w.
    + exists (IState false IPL_HIGH 1). split; [apply hold_istate|]. rewrite Hr, Hf'.
      destruct Hstate as [(-> & -> & _)|(-> & _ & _ & ->)]; constructor; done.
    + intros Hz. destruct Hstate as [(_ & _ & -> & _)|(? & _)]; [|done]. destruct T4 as (p & ? & ?); [by rewrite Hrun|]. exists p.
      split; [done|by apply H7].
    + rewrite Hf'. change (k_sems S0) with (k_sems s0). rewrite H6. done.
  - split.
    + change (k_numcpus S0) with (k_numcpus s0). by rewrite H4.
    + exists me', (IState false IPL_HIGH 1). change (k_threads S0) with (k_threads s0). rewrite H1, lookup_insert_eq, Hc', Hf'.
      cbn [c_curthread c_isidle set_isidle]. split_and!; try done.
      * split; [|done]. intros _. by destruct Hstate as [(-> & _)|(-> & _)].
      * destruct C2 as (th & i & Hth & _ & _ & Hm & _). simplify_eq. revert Hm. destruct Hbase as [-> |[[? ->]|[? ->]]]; cbn; by rewrite HL.
      * apply hold_istate.
      * apply hold_icpu.
    + split_and!; [rewrite HL by congruence; apply C3| |rewrite HL by congruence; apply C3].
      destruct (decide (c_zombies c = id)) as [E|]; [unfold L0; rewrite E, lookup_insert_eq; eauto|]. rewrite HL by done. apply C3.
    + unfold S0. rewrite hold_locks, H3. done.
    + done.
    + change (c_curthread (set_isidle true x)) with (c_curthread x). intros i. unfold S0. rewrite hold_istate. by intros [= <-].
  - unfold S0. by rewrite hold_locks, H3.
  - intros e He. unfold S0. rewrite hold_icpu_ne, H3 by done. done.
  - intros e He. destruct (Hi4 e He) as (? & ? & ? & ?). rewrite !HL by congruence. done.
  - intros w Hw. destruct (decide (wc_threads w = id)) as [E|]; [unfold L0; rewrite E, lookup_insert_eq; eauto | by rewrite HL].
  - change (k_sems S0) with (k_sems s0). rewrite H6. intros w n Hn. split; [eauto|]. by destruct (inv_sems _ _ _ _ I _ _ Hn) as (_ & _ & ?).
Qed.
End put_away.
