(* ===== verification/KThreadBlocks.v ===== *)
(** * What each piece of the thread system does

    Every piece of code between two points at which other processors can act
    keeps the invariant; each also leaves the run queues of the other
    processors as they were but for threads added at the end. *)

From stdpp Require Import strings.
From S2P Require Import Prelude Threadlist Spl KThread KThreadInv KThreadOps KThreadSwitch.

(** ** Run queues over a step *)

Definition grows (L L' : gmap Z (list Z)) (d : Z) : Prop :=
  forall l, L !! c_runqueue d = Some l -> exists new, L' !! c_runqueue d = Some (l ++ new).

(** The current thread of [c], and whether [c] is idle. *)
Definition on_cpu (c t : Z) (idle : bool) (s : ksys) : Prop := exists x, k_cpus s !! c = Some x /\ c_curthread x = t /\ c_isidle x = idle.

(** [c] has gone on to the first thread of its queue. *)
Definition rotates (L L' : gmap Z (list Z)) (s' : ksys) (c : Z) : Prop :=
  exists n l new, L !! c_runqueue c = Some (n :: l) /\ L' !! c_runqueue c = Some (l ++ new) /\ on_cpu c n false s'.

(** The run queues of the other processors grow; that of [c] grows, unless
    the piece of code is a [turn] of the scheduler, or loses its first thread,
    which runs. *)
Definition effect (turn : bool) (c : Z) (L L' : gmap Z (list Z)) (s' : ksys) : Prop :=
  (forall d, d <> c -> grows L L' d) /\ ((turn = false /\ grows L L' c) \/ rotates L L' s' c \/ L !! c_runqueue c = Some []).

(** The outcome of a piece of code run by [c] from the state [s] with the
    lists [L]. *)
Definition outcome_of (turn : bool) (lbolt c : Z) (s : ksys) (L : gmap Z (list Z)) (s' : ksys) : Prop :=
  exists L', kinv lbolt s' L' /\ effect turn c L L' s' /\ (sem_inv s L -> sem_inv s' L') /\ k_numcpus s' = k_numcpus s.

Lemma grows_same L L' d : L' !! c_runqueue d = L !! c_runqueue d -> grows L L' d.
Proof. intros E l Hl. exists []. by rewrite app_nil_r, E. Qed.

Lemma grows_refl L d : grows L L d.
Proof. by apply grows_same. Qed.

Lemma grows_trans L1 L2 L3 d : grows L1 L2 d -> grows L2 L3 d -> grows L1 L3 d.
Proof. intros H1 H2 l Hl. destruct (H1 l Hl) as [n1 E1]. destruct (H2 _ E1) as [n2 E2]. exists (n1 ++ n2). by rewrite app_assoc. Qed.

Lemma effect_grows c L L' s' : (forall d, grows L L' d) -> effect false c L L' s'.
Proof. intros H. split; auto. Qed.

Lemma effect_empty turn c L L' s' : (forall d, grows L L' d) -> L !! c_runqueue c = Some [] -> effect turn c L L' s'.
Proof. intros H. split; auto. Qed.

Lemma outcome_weaken turn lbolt c s L s' : outcome_of turn lbolt c s L s' -> outcome_of false lbolt c s L s'.
Proof. intros (L' & I & [H1 H2] & Hs & Hn). exists L'. split_and!; [done| |done..]. split; [done|]. naive_solver. Qed.

(** A piece of code in which no processor switches. *)
Definition stays (lbolt : Z) (s : ksys) (L : gmap Z (list Z)) (s' : ksys) (L' : gmap Z (list Z)) : Prop :=
  kinv lbolt s' L' /\ (forall d, grows L L' d) /\ (sem_inv s L -> sem_inv s' L') /\
  (forall d t b, on_cpu d t b s -> on_cpu d t b s') /\ k_numcpus s' = k_numcpus s.

Lemma stays_outcome lbolt c s L s' L' : stays lbolt s L s' L' -> outcome_of false lbolt c s L s'.
Proof. intros (I & Hg & Hs & _ & Hn). exists L'. split_and!; [done|by apply effect_grows|done..]. Qed.

Lemma stays_refl lbolt s L : kinv lbolt s L -> stays lbolt s L s L.
Proof. intros I. split_and!; auto using grows_refl. Qed.

Lemma stays_trans lbolt s1 L1 s2 L2 s3 L3 : stays lbolt s1 L1 s2 L2 -> stays lbolt s2 L2 s3 L3 -> stays lbolt s1 L1 s3 L3.
Proof. intros (_ & G1 & S1 & C1 & N1) (I & G2 & S2 & C2 & N2). split_and!; eauto using grows_trans. congruence. Qed.

Lemma kinv_is_cpu lbolt s L c : kinv lbolt s L -> is_Some (k_cpus s !! c) <-> 0 <= c < k_numcpus s.
Proof. intros I. split; [intros [x Hx]; apply (cok_range _ _ _ _ (inv_cpus _ _ _ _ I _ _ Hx)) | apply (inv_allcpus _ _ _ _ I)]. Qed.

Lemma effect_after turn c L1 L2 L3 s' : is_Some (L1 !! c_runqueue c) -> (forall d, grows L1 L2 d) -> effect turn c L2 L3 s' -> effect turn c L1 L3 s'.
Proof.
  intros [l Hl] H1 [H2 H3]. split; [intros d Hd; eapply grows_trans; eauto|]. destruct l as [|n l]; [by right; right|].
  destruct H3 as [[Ht H3]|[(n' & l' & new & H3 & H4 & H5)|H3]].
  - left; split; [done|]. eapply grows_trans; eauto.
  - right. left. destruct (H1 c _ Hl) as [new' E']. rewrite E' in H3. simplify_eq/=. exists n', l, (new' ++ new). by rewrite app_assoc.
  - destruct (H1 c _ Hl) as [new' E']. by rewrite E' in H3.
Qed.

Lemma effect_before turn c L1 L2 L3 s2 s3 :
  (forall d, grows L2 L3 d) -> (forall d t b, on_cpu d t b s2 -> on_cpu d t b s3) -> effect turn c L1 L2 s2 -> effect turn c L1 L3 s3.
Proof.
  intros H1 Hc [H2 H3]. split; [intros d Hd; eapply grows_trans; eauto|]. destruct H3 as [[Ht H3]|[(n' & l' & new & H3 & H4 & H5)|H3]].
  - left; split; [done|]. eapply grows_trans; eauto.
  - right. left. destruct (H1 c _ H4) as [new' E']. exists n', l', (new ++ new'). rewrite app_assoc. auto.
  - by right; right.
Qed.

Lemma stays_then turn lbolt c s1 L1 s2 L2 s3 :
  is_Some (L1 !! c_runqueue c) -> stays lbolt s1 L1 s2 L2 -> outcome_of turn lbolt c s2 L2 s3 -> outcome_of turn lbolt c s1 L1 s3.
Proof. intros Hl (_ & G & S & _ & N) (L3 & I & He & S3 & N3). exists L3. split_and!; eauto using effect_after. congruence. Qed.

Lemma then_stays turn lbolt c s1 L1 s2 L2 s3 L3 :
  effect turn c L1 L2 s2 -> (sem_inv s1 L1 -> sem_inv s2 L2) -> k_numcpus s2 = k_numcpus s1 -> stays lbolt s2 L2 s3 L3 -> outcome_of turn lbolt c s1 L1 s3.
Proof. intros He S N (I3 & G & S3 & C & N3). exists L3. split_and!; eauto using effect_before. congruence. Qed.

Section blocks.
Context `{DebugAsserts} (lbolt c : Z).

Lemma wp_checkstack th t (Q : unit -> ksys -> Prop) E s :
  k_threads s !! t = Some th -> stack_ok th -> Q tt s -> wp (thread_checkstack t) Q E s.
Proof.
  intros Hth Hs HQ. unfold thread_checkstack. apply wp_bind. eapply wp_load_thread; [done|].
  destruct Hs as [-> | ->]; [by apply wp_ret|]. repeat (apply wp_bind; eapply wp_oob; [done|]; (apply wp_bind || idtac); (apply wp_kassert; [done|])).
  done.
Qed.

Lemma switched_prev_yield s L x n thn f bn l zs h h1 me b lev :
  kinv lbolt s L -> k_cpus s !! c = Some x -> c_isidle x = false -> k_threads s !! c_curthread x = Some me ->
  i_threads (k_int s) !! c_curthread x = Some (IState b lev lev) -> (forall m fs, t_frames me <> InMigrate m :: fs) ->
  c_curthread x <> n -> c_curthread x ∉ zs ->
  thread_ok lbolt (hold c n bn (resume_level f) ∅ (switched c (c_curthread x) n b (set_isidle true x) thn zs h
      (with_cpus <[c := set_isidle true x]> (with_tls h1 (with_threads <[c_curthread x := set_context (Some (SavedSwitch lev)) (set_state S_READY me)]> s)))))
    (<[c_zombies c := []]> (<[c_runqueue c := l ++ [c_curthread x]]> L)) (c_curthread x) (set_context (Some (SavedSwitch lev)) (set_state S_READY me)).
Proof.
  intros I Hx Hbusy Hme Hi Hmg Hne Hz. set (me' := set_context _ _). set (s' := hold _ _ _ _ _ _). set (L' := <[_ := _]> _).
  pose proof (inv_threads _ _ _ _ I _ _ Hme) as [T1 T2 T3 T4 T5].
  destruct (kinv_cur _ _ _ _ I _ _ Hx) as (th' & b' & lev' & Hth' & Hcm & _ & Hi' & Hs & _). simplify_eq. rewrite Hbusy in Hs.
  assert (Hcp : k_cpus s' !! c = Some (set_curthread n (set_isidle false (set_isidle true x)))) by apply lookup_insert_eq.
  assert (Hr : role_of s' (c_curthread x) me' = RWait) by (eapply role_wait; [exact Hcp|done|by apply not_eq_sym]).
  destruct (running_off lbolt s L c x me I Hx Hbusy Hme) as (Hoff & Hrun & _).
  split; [done| | | |done].
  - exists c. split_and!; [done|eauto|]. unfold state_place. cbn [t_state me' set_context set_state]. rewrite Hr. split; [done|]. left.
    unfold L'. rewrite !on_insert. right. split; [lists|]. left. set_solver.
  - exists (IState b IPL_HIGH 2). split.
    { unfold s'. rewrite (switched_istate s _ c x) by done. by rewrite decide_False, decide_False, decide_True by done. }
    rewrite Hr. cbn [t_state t_context t_frames me' set_context set_state]. inversion Hs as [d ctx fs Hb E1|d ctx m fs Hb E1|d ctx fs Hb E1| | | | | | | | | |]; subst.
    + by constructor.
    + match goal with E : _ = t_frames me |- _ => by destruct (Hmg _ _ (eq_sym E)) end.
    + by constructor.
  - intros _. apply T4. by rewrite Hrun.
Qed.



Lemma few1 lk : few {[lk]}.
Proof. apply few_small. rewrite size_singleton. lia. Qed.

Lemma few0 : few ∅.
Proof. apply few_small. rewrite size_empty. lia. Qed.

Lemma released (lk : lockid) : ({[lk]} ∖ {[lk]} : gset lockid) = ∅.
Proof. set_solver. Qed.

Lemma acquired (lk : lockid) : ({[lk]} ∪ ∅ : gset lockid) = {[lk]}.
Proof. set_solver. Qed.

Ltac lock1 := rewrite ?released, ?acquired.

(** The state in which a thread that yields has been put away. *)
Definition yielded (s : ksys) (x : cpu) (me : thread) (lev : Z) (h : tlstore) : ksys :=
  with_cpus <[c := set_isidle true x]> (with_tls h (with_threads <[c_curthread x := set_context (Some (SavedSwitch lev)) (set_state S_READY me)]> s)).

Lemma yielded_eq s x me lev h h1 :
  with_tls h (with_cpus <[c := set_isidle true x]> (with_threads <[c_curthread x := set_context (Some (SavedSwitch lev)) (set_state S_READY (set_state S_READY me))]>
    (with_threads <[c_curthread x := set_state S_READY (set_state S_READY me)]> (with_cpus <[c := x]> (with_tls h1 (with_threads <[c_curthread x := set_state S_READY me]> s))))))
  = yielded s x me lev h.
Proof. unfold yielded. by autorewrite with states. Qed.

Lemma wp_yield_switch s L x me b lev n l (Q : bool -> ksys -> Prop) E h1 :
  kinv lbolt s L -> k_cpus s !! c = Some x -> c_isidle x = false -> k_threads s !! c_curthread x = Some me ->
  i_threads (k_int s) !! c_curthread x = Some (IState b lev lev) -> (forall m fs, t_frames me <> InMigrate m :: fs) ->
  L !! c_runqueue c = Some (n :: l) ->
  tl_rep h1 (dom (k_threads s)) (<[c_runqueue c := n :: l ++ [c_curthread x]]> L) ->
  (forall s', outcome_of true lbolt c s L s' -> Q false s') ->
  wp (pick_next c) Q E (hold c (c_curthread x) b IPL_HIGH {[c_runqueue_lock c]} (yielded s x me lev h1)).
Proof.
  intros I Hx Hbusy Hme Hi Hmg Hrq Rh1 HQ. pose proof (inv_cpus _ _ _ _ I _ _ Hx) as C. destruct (cok_lists _ _ _ _ C) as (_ & [zs Hzs] & _).
  destruct (cok_locks _ _ _ _ C) as [Hfree _]. destruct (running_off _ _ _ _ _ _ I Hx Hbusy Hme) as (Hoff & Hrun & Hcm).
  destruct (queued_ready _ _ _ _ _ _ _ I Hrq (list_elem_of_here _ _)) as (thn & Hthn & Hcn & Hstn & Tn).
  assert (Hne : c_curthread x <> n) by (intros E0; apply (Hoff _ _ Hrq); rewrite E0; by left).
  destruct (waiting_resumable _ _ _ _ _ _ _ _ _ I Hx Hrq (list_elem_of_here _ _) Hthn Hne) as (f & bn & (Hctx & Hlev & Hsh & Hmgn) & Hin).
  assert (Hcz : c_curthread x ∉ zs) by (by apply Hoff with (c_zombies c)).
  assert (Hnz : n ∉ zs).
  { intros Hz. destruct (zombies_dead _ _ _ _ _ _ I Hzs n Hz) as (? & ? & _ & ? & _). simplify_eq. congruence. }
  assert (Hv : L !! victims c = Some []).
  { destruct (cok_cur _ _ _ _ C) as (th & i & Hth & _ & _ & Hm & _). simplify_eq. revert Hm. unfold migrating.
    destruct (t_frames me) as [|[?|?|?|m] fs] eqn:Ef; try done. by destruct (Hmg m fs). }
  pose proof (rep_nodup _ _ _ (inv_rep _ _ _ _ I) _ _ Hrq) as [Hnl _]%NoDup_cons.
  unfold pick_next. apply wp_bind.
  eapply wp_list; [exact (wp_remhead h1 _ _ (c_runqueue c) (n :: l ++ [c_curthread x]) Rh1 (lookup_insert_eq _ _ _))|].
  intros o h2 [-> Rh2]. cbn [head tail] in *. rewrite hold_tls. change (with_tls h2 (yielded s x me lev h1)) with (yielded s x me lev h2).
  rewrite insert_insert_eq in Rh2.
  set (s1 := yielded s x me lev h2). assert (Hth1 : k_threads s1 = <[c_curthread x := set_context (Some (SavedSwitch lev)) (set_state S_READY me)]> (k_threads s)) by done.
  apply wp_bind. apply (wp_switch_to c (c_curthread x) b n bn (set_isidle true x) thn f zs (<[c_runqueue c := l ++ [c_curthread x]]> L)); try done.
  - by apply lookup_insert_eq.
  - by rewrite Hth1, lookup_insert_ne.
  - unfold left_off. cbn [k_int with_int i_threads]. rewrite lookup_insert_ne by done. exact Hin.
  - rewrite Hth1, dom_insert_lookup_L by eauto. exact Rh2.
  - rewrite lookup_insert_ne by lists. done.
  - intros z Hz. destruct (zombies_dead _ _ _ _ _ _ I Hzs z Hz) as (th & ? & ? & ? & ?). exists th. rewrite Hth1, lookup_insert_ne by congruence. done.
  - intros h3 Rh3. apply wp_ret. apply HQ. exists (<[c_zombies c := []]> (<[c_runqueue c := l ++ [c_curthread x]]> L)).
    assert (Hme' : exists th, k_threads s !! c_curthread x = Some th /\ t_proc (set_context (Some (SavedSwitch lev)) (set_state S_READY me)) = t_proc th /\
      t_cpu th = Some c /\ t_frames (set_context (Some (SavedSwitch lev)) (set_state S_READY me)) = t_frames th) by (by exists me).
    assert (Hn0 : exists th, k_threads s !! n = Some th /\ t_proc th = t_proc thn /\ t_cpu th = Some c) by eauto.
    assert (Hn1 : stack_ok thn /\ (exists p, t_proc thn = Some p /\ is_Some (k_procs s !! p)) /\ forall w, InP w ∈ t_frames thn -> is_Some (k_sems s !! w)).
    { destruct Tn as [T1 T2 T3 T4 T5]. split_and!; [done| |done]. apply T4. by rewrite Hstn. }
    assert (Hthn1 : k_threads s1 !! n = Some thn) by (by rewrite Hth1, lookup_insert_ne).
    assert (Hl1 : forall t, t <> c_curthread x -> t ∈ l ++ [c_curthread x] <-> t ∈ l) by set_solver. split_and!.
    + rewrite Hth1, del_all_insert_dom in Rh3 by eauto.
      apply (kinv_switched lbolt None s s1 L c x (set_isidle true x) (set_context (Some (SavedSwitch lev)) (set_state S_READY me)) b n thn f bn l (l ++ [c_curthread x]) zs h3); try done.
      * by left.
      * set_solver.
      * intros _ _. by apply switched_prev_yield.
    + split.
      * intros d Hd. apply grows_same. rewrite !lookup_insert_ne by lists. done.
      * right. left. exists n, l, [c_curthread x]. rewrite lookup_insert_ne, lookup_insert_eq by lists. split_and!; [done..|].
        exists (set_curthread n (set_isidle false (set_isidle true x))). split; [apply lookup_insert_eq|done].
    + apply neutral_inv; [done|]. eapply (switched_neutral lbolt None s s1 L c x (set_isidle true x) (set_context (Some (SavedSwitch lev)) (set_state S_READY me))); try done; [by left | set_solver].
    + done.
Qed.

(** [thread_switch] up to the test of the run queue, on a busy processor. *)
Lemma wp_switch_enter s L x me b lev K newstate wc l (Q : bool -> ksys -> Prop) E :
  tl_rep (k_tls s) (dom (k_threads s)) L -> k_cpus s !! c = Some x -> c_isidle x = false -> k_threads s !! c_curthread x = Some me ->
  t_cpu me = Some c -> stack_ok me -> i_locks (k_int s) !! c_runqueue_lock c = Some free_lock -> level lev ->
  few ({[c_runqueue_lock c]} ∪ K) -> c_runqueue_lock c ∉ K -> L !! c_runqueue c = Some l ->
  wp (if bool_decide (newstate = S_READY) && bool_decide (l = []) then
        release c (c_runqueue_lock c) ;; set_ipl c lev ;; ret false
      else
        put_away c (c_curthread x) newstate wc ;;
        upd_thread (c_curthread x) (set_state newstate) ;;
        upd_thread (c_curthread x) (set_context (Some (SavedSwitch lev))) ;;
        upd_cpu c (set_isidle true) ;;
        pick_next c) Q E (hold c (c_curthread x) b IPL_HIGH ({[c_runqueue_lock c]} ∪ K) s) ->
  wp (thread_switch c newstate wc) Q E (hold c (c_curthread x) b lev K s).
Proof.
  intros R Hx Hbusy Hme Hcm Hst Hfree Hlev HK Hn Hl W. assert (Hc : curthread_is c (c_curthread x) s) by (by exists x).
  assert (HK0 : few K) by (pose proof (subseteq_size K ({[c_runqueue_lock c]} ∪ K) ltac:(set_solver)); unfold few in *; lia).
  unfold thread_switch. apply wp_bind, wp_curthread with (c_curthread x); [done|]. apply wp_bind. eapply wp_load_thread; [exact Hme|].
  apply wp_bind, wp_debugassert; [by apply bool_decide_eq_true_2|]. apply wp_bind, wp_raise; [done..|].
  apply wp_bind. eapply wp_load_cpu; [exact Hx|]. rewrite Hbusy. apply wp_bind. eapply wp_checkstack; [exact Hme|done|].
  apply wp_bind, wp_acq; [done|by right|done..|]. apply wp_bind, wp_in_tls. eapply wp_isempty; [exact R|exact Hl|]. exact W.
Qed.

Lemma running_stack s L t th : kinv lbolt s L -> k_threads s !! t = Some th -> stack_ok th.
Proof. intros I Hth. apply (tok_stack _ _ _ _ _ (inv_threads _ _ _ _ I _ _ Hth)). Qed.

Lemma kinv_hold_istate s L x b lev :
  kinv lbolt s L -> k_cpus s !! c = Some x -> i_threads (k_int s) !! c_curthread x = Some (IState b lev lev) ->
  s = hold c (c_curthread x) b lev ∅ s /\ level lev.
Proof.
  intros I Hx Hi. destruct (kinv_cur _ _ _ _ I _ _ Hx) as (th & b' & lev' & _ & _ & Hl & Hi' & _ & Eh). rewrite Hi in Hi'. by simplify_eq.
Qed.

Lemma wp_thread_yield s L x me b lev (Q : bool -> ksys -> Prop) E :
  kinv lbolt s L -> k_cpus s !! c = Some x -> k_threads s !! c_curthread x = Some me ->
  i_threads (k_int s) !! c_curthread x = Some (IState b lev lev) -> (c_isidle x = false -> forall m fs, t_frames me <> InMigrate m :: fs) ->
  (c_isidle x = true -> Q false s) -> (forall s', c_isidle x = false -> outcome_of true lbolt c s L s' -> Q false s') -> wp (thread_yield c) Q E s.
Proof.
  intros I Hx Hme Hi Hmg HQ0 HQ. destruct (kinv_hold_istate s L x b lev I Hx Hi) as [Eh Hlev].
  assert (Hc : curthread_is c (c_curthread x) s) by (by exists x). rewrite Eh. unfold thread_yield.
  pose proof (inv_cpus _ _ _ _ I _ _ Hx) as C. destruct (cok_locks _ _ _ _ C) as [Hfree Hfreei].
  destruct (c_isidle x) eqn:Hidle.
  - unfold thread_switch. apply wp_bind, wp_curthread with (c_curthread x); [done|]. apply wp_bind. eapply wp_load_thread; [exact Hme|].
    assert (Hcm : t_cpu me = Some c) by (destruct (kinv_cur _ _ _ _ I _ _ Hx) as (th & _ & _ & Hth & Hcm & _); by simplify_eq).
    apply wp_bind, wp_debugassert; [by apply bool_decide_eq_true_2|]. apply wp_bind, wp_raise; [done..|apply few0|].
    apply wp_bind. eapply wp_load_cpu; [exact Hx|]. rewrite Hidle. apply wp_bind, wp_restore; [done..|apply few0|]. apply wp_ret. rewrite <- Eh. by apply HQ0.
  - destruct (cok_lists _ _ _ _ C) as ([l Hl] & _). destruct (running_off _ _ _ _ _ _ I Hx Hidle Hme) as (Hoff & Hrun & Hcm).
    apply (wp_switch_enter s L x me b lev ∅ S_READY None l); try done; [apply (inv_rep _ _ _ _ I)|by eapply running_stack|by lock1; apply few1|]. lock1.
    rewrite bool_decide_eq_true_2 by done. destruct l as [|n l]; cbn [andb bool_decide].
    + rewrite bool_decide_eq_true_2 by done. apply wp_bind, wp_rel; [done|by right|apply few1|set_solver|done|]. lock1.
      apply wp_bind, wp_restore; [done..|apply few0|]. apply wp_ret. rewrite <- Eh. apply HQ; [done|]. exists L. split_and!; [done| |done..]. apply effect_empty; [intros; apply grows_refl|done].
    + rewrite bool_decide_eq_false_2 by done. cbn [put_away]. apply wp_bind.
      apply (wp_make_runnable c (c_curthread x) b IPL_HIGH {[c_runqueue_lock c]} (c_curthread x) me c x (n :: l) L true); try done.
      * by right.
      * apply few_union; [pose proof (size_two (c_runqueue_lock c) (c_ipi_lock c)) | rewrite size_singleton]; lia.
      * set_solver.
      * set_solver.
      * apply (cok_ipi _ _ _ _ C).
      * apply (inv_rep _ _ _ _ I).
      * intros h1 Rh1. unfold readied. assert (En : notified c c x = x) by (unfold notified; by rewrite Z.eqb_refl, andb_false_r). rewrite En.
        apply wp_bind. eapply wp_upd_thread; [apply lookup_insert_eq|]. rewrite hold_threads.
        apply wp_bind. eapply wp_upd_thread; [apply lookup_insert_eq|]. rewrite hold_threads.
        apply wp_bind. eapply wp_upd_cpu; [apply lookup_insert_eq|]. rewrite hold_cpus.
        match goal with |- wp _ _ _ (hold _ _ _ _ _ ?S) => replace S with (yielded s x me lev h1) end.
        2:{ rewrite <- (yielded_eq s x me lev h1 h1). done. }
        apply (wp_yield_switch s L x me b lev n l); try done. by apply Hmg. intros s' Hs'. by apply HQ.
Qed.

(** After the current thread is put away, whatever comes next. *)
Lemma wp_pick_outcome s s0 L0 L x (Q : bool -> ksys -> Prop) E :
  kinv_but lbolt (Some c) s0 L0 -> k_cpus s0 !! c = Some x -> c_isidle x = true ->
  i_threads (k_int s0) !! c_curthread x = Some (IState false IPL_HIGH 1) ->
  (forall d, L0 !! c_runqueue d = L !! c_runqueue d) -> (sem_inv s L -> sem_inv s0 L0) -> k_numcpus s0 = k_numcpus s ->
  (forall r s', outcome_of true lbolt c s L s' -> Q r s') ->
  wp (pick_next c) Q E (hold c (c_curthread x) false IPL_HIGH {[c_runqueue_lock c]} s0).
Proof.
  intros I Hx Hid Hq HL Hsem Hn HQ. eapply (wp_pick_next lbolt (Some c) c x L0 s0); try done; [by right| |].
  - intros h Hl I'. apply HQ. exists L0. split_and!; [done| |done..]. apply effect_empty; [intros d; by apply grows_same|by rewrite <- HL].
  - intros n l zs thn f bn h Hl Hthn Hst s' I' Hneu. apply HQ. eexists. split; [exact I'|]. split; [|split; [intros Hs; by eapply neutral_inv, Hsem|done]]. split.
    + intros d Hd. apply grows_same. rewrite !lookup_insert_ne by lists. done.
    + right. left. exists n, l, []. rewrite lookup_insert_ne, lookup_insert_eq, app_nil_r, <- HL by lists. split_and!; [done..|].
      exists (set_curthread n (set_isidle false x)). split; [apply lookup_insert_eq|done].
Qed.

Definition slept (s : ksys) (x : cpu) (me : thread) (name : option String.string) (h : tlstore) : ksys :=
  with_cpus <[c := set_isidle true x]> (with_tls h (with_threads
    <[c_curthread x := set_context (Some (SavedSwitch IPL_NONE)) (set_state S_SLEEP (set_wchan_name name me))]> s)).

Lemma wp_thread_sleep s L x me w (Q : bool -> ksys -> Prop) E :
  kinv lbolt s L -> k_cpus s !! c = Some x -> c_isidle x = false -> k_threads s !! c_curthread x = Some me -> base (t_frames me) ->
  i_threads (k_int s) !! c_curthread x = Some (IState false IPL_NONE IPL_NONE) -> is_Some (k_wchans s !! w) -> sleeps_on lbolt w (t_frames me) -> (w <> lbolt -> k_sems s !! w = Some 0) ->
  (forall r s', outcome_of true lbolt c s L s' -> Q r s') ->
  wp (thread_switch c S_SLEEP (Some w)) Q E (hold c (c_curthread x) false IPL_NONE {[wc_lock w]} s).
Proof.
  intros I Hx Hbusy Hme Hbase Hi [name Hw] Hsl Hzero HQ. pose proof (inv_cpus _ _ _ _ I _ _ Hx) as C. destruct (cok_lists _ _ _ _ C) as ([l Hl] & _).
  destruct (running_off _ _ _ _ _ _ I Hx Hbusy Hme) as (Hoff & Hrun & Hcm). destruct (inv_wchans _ _ _ _ I w ltac:(eauto)) as ([lw Hlw] & Hfw).
  assert (Hc : curthread_is c (c_curthread x) s) by (by exists x).
  apply (wp_switch_enter s L x me false IPL_NONE {[wc_lock w]} S_SLEEP (Some w) l); try done.
  { apply (inv_rep _ _ _ _ I). } { by eapply running_stack. } { apply (cok_locks _ _ _ _ C). } { by left. }
  { apply few_union; rewrite size_singleton; lia. } { set_solver. }
  rewrite bool_decide_eq_false_2 by done. cbn [andb put_away]. apply wp_bind. apply wp_bind. eapply wp_oob; [done|].
  apply wp_bind, wp_get. apply wp_bind. eapply wp_oob; [exact Hw|]. apply wp_bind. eapply wp_upd_thread; [exact Hme|]. rewrite hold_threads.
  apply wp_bind. eapply wp_list; [exact (wp_addtail (k_tls s) _ L _ lw (c_curthread x) (inv_rep _ _ _ _ I) Hlw (elem_of_dom_2 _ _ _ Hme) Hoff)|].
  intros a h Rh. cbv beta in Rh. clear a. rewrite hold_tls. apply wp_rel; [done|by right|by apply few_union; rewrite size_singleton; lia|set_solver|done|].
  replace (({[c_runqueue_lock c]} ∪ {[wc_lock w]}) ∖ {[wc_lock w]} : gset lockid) with ({[c_runqueue_lock c]} : gset lockid) by set_solver.
  apply wp_bind. eapply wp_upd_thread; [apply lookup_insert_eq|]. rewrite hold_threads.
  apply wp_bind. eapply wp_upd_thread; [apply lookup_insert_eq|]. rewrite hold_threads.
  apply wp_bind. eapply wp_upd_cpu; [exact Hx|]. rewrite hold_cpus.
  match goal with |- wp _ _ _ (hold _ _ _ _ _ ?S) => replace S with (slept s x me (Some name) h) end.
  2:{ unfold slept. by autorewrite with states. }
  set (s0 := slept s x me (Some name) h). change (c_curthread x) with (c_curthread (set_isidle true x)).
  rewrite <- (hold_hold c (c_curthread (set_isidle true x)) false IPL_HIGH _ false IPL_HIGH s0).
  assert (I0 : kinv_but lbolt (Some c) (hold c (c_curthread x) false IPL_HIGH ∅ s0) (<[wc_threads w := lw ++ [c_curthread x]]> L)).
  { eapply (kinv_put_away lbolt s s0 L c x me _ (wc_threads w) lw I Hx Hbusy Hme Hbase); try done.
    + intros p n Hp. split; [by eexists|]. change (k_threads s0) with (<[c_curthread x := set_context (Some (SavedSwitch IPL_NONE)) (set_state S_SLEEP (set_wchan_name (Some name) me))]> (k_threads s)).
      rewrite (numthreads_same _ _ me) by done. by destruct (inv_procs _ _ _ _ I _ _ Hp).
    + left. split_and!; try done. by exists w. }
  apply (wp_pick_outcome s _ (<[wc_threads w := lw ++ [c_curthread x]]> L) L (set_isidle true x)); try done.
  - by apply lookup_insert_eq.
  - apply hold_istate.
  - intros d. by rewrite lookup_insert_ne by lists.
  - intros Hs w' n l' Hn Hl' Hne. destruct (decide (w' = w)) as [->|Hww].
    + destruct (inv_sems _ _ _ _ I _ _ Hn) as (_ & Hwb & _). pose proof (sleepers_in_P _ _ _ _ _ _ I0 Hl' Hwb) as Hin. change (k_sems s !! w = Some n) in Hn. rewrite Hzero in Hn by done. simplify_eq.
      change (Z.of_nat (length l') <= in_P (k_threads s0) w) in Hin. change (0 <= in_P (k_threads s0) w - Z.of_nat (length l')). lia.
    + rewrite lookup_insert_ne in Hl' by lists.
      change (k_threads (hold c (c_curthread (set_isidle true x)) false IPL_HIGH ∅ s0)) with (<[c_curthread x := set_context (Some (SavedSwitch IPL_NONE)) (set_state S_SLEEP (set_wchan_name (Some name) me))]> (k_threads s)).
      rewrite (in_P_same _ _ me) by done. by apply Hs.
Qed.

(** ** Exit *)

Lemma numthreads_detach (T : gmap Z thread) t th th' p q :
  T !! t = Some th -> t_proc th = Some p -> t_proc th' = None ->
  numthreads (<[t := th']> T) q = (if decide (q = p) then numthreads T q - 1 else numthreads T q) /\ (q = p -> 0 < numthreads T q).
Proof.
  intros Ht Hp Hp'. unfold numthreads.
  assert (E : filter (fun kv : Z * thread => t_proc kv.2 = Some q) (<[t := th']> T) = delete t (filter (fun kv : Z * thread => t_proc kv.2 = Some q) T)).
  { rewrite map_filter_insert_False by (cbn; congruence). by rewrite map_filter_delete. }
  rewrite E. destruct (decide (q = p)) as [->|Hne].
  - assert (Hin : filter (fun kv : Z * thread => t_proc kv.2 = Some p) T !! t = Some th) by (by apply map_lookup_filter_Some).
    rewrite map_size_delete_Some by eauto. pose proof (map_size_ne_0_lookup_2 _ t ltac:(eauto)) as Hs. lia.
  - split; [|done]. f_equal. f_equal. apply delete_id. apply map_lookup_filter_None. right. intros y Hy. simplify_eq. cbn. congruence.
Qed.

Definition exited (s : ksys) (x : cpu) (me : thread) (p n lev : Z) (h : tlstore) : ksys :=
  with_cpus <[c := set_isidle true x]> (with_tls h (with_threads
    <[c_curthread x := set_context (Some (SavedSwitch lev)) (set_state S_ZOMBIE (set_wchan_name (Some "ZOMBIE"%string) (set_proc None me)))]>
    (with_procs <[p := n]> s))).

Lemma wp_thread_exit s L x me (Q : bool -> ksys -> Prop) E :
  kinv lbolt s L -> k_cpus s !! c = Some x -> c_isidle x = false -> k_threads s !! c_curthread x = Some me -> t_frames me = [] ->
  (forall r s', outcome_of true lbolt c s L s' -> Q r s') -> wp (thread_exit c) Q E s.
Proof.
  intros I Hx Hbusy Hme Hf HQ. pose proof (inv_cpus _ _ _ _ I _ _ Hx) as C. destruct (cok_lists _ _ _ _ C) as ([l Hl] & [lz Hlz] & _).
  destruct (running_off _ _ _ _ _ _ I Hx Hbusy Hme) as (Hoff & Hrun & Hcm). assert (Hc : curthread_is c (c_curthread x) s) by (by exists x).
  destruct (kinv_cur _ _ _ _ I _ _ Hx) as (th' & b & lev & Hth' & _ & Hlev & Hi & Hs & Eh). simplify_eq. rewrite Hbusy, Hf in Hs.
  assert (Eb : b = false /\ lev = IPL_NONE) by (by inversion Hs). destruct Eb as [-> ->].
  destruct (tok_proc _ _ _ _ _ (inv_threads _ _ _ _ I _ _ Hme)) as (p & Hp & [n Hn]); [by rewrite Hrun|].
  destruct (inv_procs _ _ _ _ I _ _ Hn) as [En Hfp]. pose proof (numthreads_detach (k_threads s) _ me (set_proc None me) p p Hme Hp eq_refl) as [_ Hpos].
  pose proof (inv_rep _ _ _ _ I) as R. pose proof (running_stack _ _ _ _ I Hme) as Hst. destruct (cok_locks _ _ _ _ C) as [Hfree _].
  rewrite Eh. unfold thread_exit. apply wp_bind, wp_curthread with (c_curthread x); [done|]. unfold proc_remthread.
  apply wp_bind, wp_bind. eapply wp_load_thread; [exact Hme|]. apply wp_bind, wp_kassert; [by rewrite Hp|]. apply wp_bind. eapply wp_oob; [exact Hp|].
  apply wp_bind, wp_acq; [done|by left|apply few0|set_solver|exact Hfp|]. lock1. unfold load_numthreads. apply wp_bind, wp_bind, wp_get. eapply wp_oob; [exact Hn|].
  apply wp_bind, wp_kassert; [apply Z.ltb_lt; subst n; by apply Hpos|]. apply wp_bind, wp_modify. rewrite hold_procs.
  apply wp_bind, wp_rel; [done|by left|apply few1|set_solver|exact Hfp|]. lock1. apply wp_bind, wp_raise; [done|by left|apply few0|].
  apply wp_bind. eapply wp_upd_thread; [exact Hme|]. rewrite hold_threads. apply wp_bind, wp_restore; [done|by left|apply few0|]. apply wp_ret.
  apply wp_bind. eapply wp_load_thread; [apply lookup_insert_eq|]. apply wp_bind, wp_kassert; [done|].
  apply wp_bind. eapply wp_checkstack; [apply lookup_insert_eq|done|]. apply wp_bind, wp_raise; [done|by left|apply few0|].
  set (s1 := with_threads <[c_curthread x := set_proc None me]> (with_procs <[p := u32 (n - 1)]> s)).
  assert (R1 : tl_rep (k_tls s1) (dom (k_threads s1)) L) by (cbn [s1 with_threads with_procs k_threads k_tls]; by rewrite dom_insert_lookup_L by eauto).
  apply (wp_switch_enter s1 L x (set_proc None me) false IPL_HIGH ∅ S_ZOMBIE None l); try done.
  { apply lookup_insert_eq. } { by right. } { lock1. apply few1. }
  lock1. rewrite bool_decide_eq_false_2 by done. cbn [andb put_away]. apply wp_bind. apply wp_bind. eapply wp_upd_thread; [apply lookup_insert_eq|]. rewrite hold_threads.
  eapply wp_list; [exact (wp_addtail (k_tls s) _ L _ lz (c_curthread x) R Hlz (elem_of_dom_2 _ _ _ Hme) Hoff)|].
  intros a h Rh. cbv beta in Rh. clear a. rewrite hold_tls. apply wp_bind. eapply wp_upd_thread; [apply lookup_insert_eq|]. rewrite hold_threads.
  apply wp_bind. eapply wp_upd_thread; [apply lookup_insert_eq|]. rewrite hold_threads. apply wp_bind. eapply wp_upd_cpu; [exact Hx|]. rewrite hold_cpus.
  match goal with |- wp _ _ _ (hold _ _ _ _ _ ?S) => replace S with (exited s x me p (u32 (n - 1)) IPL_HIGH h) end.
  2:{ unfold exited, s1. by autorewrite with states. }
  set (s0 := exited s x me p (u32 (n - 1)) IPL_HIGH h). change (c_curthread x) with (c_curthread (set_isidle true x)).
  rewrite <- (hold_hold c (c_curthread (set_isidle true x)) false IPL_HIGH _ false IPL_HIGH s0).
  apply (wp_pick_outcome s _ (<[c_zombies c := lz ++ [c_curthread x]]> L) L (set_isidle true x)); try done.
  - eapply (kinv_put_away lbolt s s0 L c x me _ (c_zombies c) lz I Hx Hbusy Hme); try done.
    + rewrite Hf. by left.
    + intros q Hq. cbn [s0 exited with_cpus with_tls with_threads with_procs k_procs]. apply lookup_insert_is_Some'. by right.
    + intros q m. cbn [s0 exited with_cpus with_tls with_threads with_procs k_procs k_threads].
      destruct (numthreads_detach (k_threads s) _ me (set_context (Some (SavedSwitch IPL_HIGH)) (set_state S_ZOMBIE (set_wchan_name (Some "ZOMBIE"%string) (set_proc None me)))) p q Hme Hp eq_refl) as [-> Hp2].
      intros [[<- <-]|[Hne Hq]]%lookup_insert_Some.
      * split; [eauto|]. rewrite decide_True by done. subst n. apply wrap_small. specialize (Hp2 eq_refl).
        assert (numthreads (k_threads s) p <= Z.of_nat (size (k_threads s))).
        { unfold numthreads. apply inj_le. apply map_size_filter. }
        pose proof (rep_size _ _ _ R) as Hsz. rewrite size_dom in Hsz. lia.
      * split; [eauto|]. rewrite decide_False by done. by destruct (inv_procs _ _ _ _ I _ _ Hq).
    + right. done.
  - by apply lookup_insert_eq.
  - apply hold_istate.
  - intros d. by rewrite lookup_insert_ne by lists.
  - apply neutral_inv; [done|]. intros w Hw. split_and!; [done|by rewrite lookup_insert_ne by lists|].
    change (k_threads (hold c (c_curthread (set_isidle true x)) false IPL_HIGH ∅ s0)) with
      (<[c_curthread x := set_context (Some (SavedSwitch IPL_HIGH)) (set_state S_ZOMBIE (set_wchan_name (Some "ZOMBIE"%string) (set_proc None me)))]> (k_threads s)).
    by rewrite (in_P_same _ _ me) by done.
Qed.
End blocks.
