(* ===== verification/KThreadIrq.v ===== *)
(** * Interrupts, semaphores and the clock keep the invariant *)

From S2P Require Import Prelude Threadlist Spl KThread KThreadInv KThreadOps KThreadSwitch KThreadBlocks.

(** ** Changes on the stack of the current thread *)

Section current.
Context (lbolt : Z) (s : ksys) (L : gmap Z (list Z)) (c : Z) (x x' : cpu) (me : thread) (b : bool) (lev : Z) (fs : list frame).
Hypothesis (I : kinv lbolt s L) (Hx : k_cpus s !! c = Some x) (Hme : k_threads s !! c_curthread x = Some me).
Hypothesis (Hx' : c_curthread x' = c_curthread x) (Hi' : c_isidle x' = c_isidle x).
Hypothesis (Hp' : c_ipi_pending x' = 0 \/ c_ipi_pending x' = 4) (Hw' : wake_ok L c x') (Hwk : b = true -> c_isidle x = true -> c_woken x' = true).
Hypothesis (Hshape : shape (if c_isidle x then RIdle else RRun) (bool_decide (t_state me = S_ZOMBIE)) (t_context me) fs (IState b lev lev)).
Hypothesis (Hmg : migrating L c fs) (Hsem : forall w, InP w ∈ fs -> is_Some (k_sems s !! w)).
Hypothesis (Hsl : forall w, t_state me = S_SLEEP -> sleeps_on lbolt w (t_frames me) -> sleeps_on lbolt w fs).

Let s' := hold c (c_curthread x) b lev ∅ (with_cpus <[c := x']> (with_threads <[c_curthread x := set_frames fs me]> s)).

Lemma kinv_current : kinv lbolt s' L.
Proof.
  pose proof (inv_threads _ _ _ _ I _ _ Hme) as [T1 T2 T3 T4 T5]. pose proof (inv_cpus _ _ _ _ I _ _ Hx) as [C1 C2 C3 C4 C5 C6].
  destruct C2 as (th & i & Hth & Hcm & Hid & Hm & Hi & Hic). simplify_eq.
  assert (Hcp : k_cpus s' = <[c := x']> (k_cpus s)) by done.
  assert (Hr : role_of s' (c_curthread x) (set_frames fs me) = role_of s (c_curthread x) me).
  { unfold role_of. cbn [t_cpu set_frames]. rewrite Hcm. cbn [mbind option_bind]. by rewrite Hcp, lookup_insert_eq, Hx, Hx', Hi'. }
  apply (kinv_local lbolt s s' L L {[c_curthread x]} c x x' None None); try done.
  - by left.
  - left. done.
  - change (k_threads s') with (<[c_curthread x := set_frames fs me]> (k_threads s)). rewrite dom_insert_lookup_L by eauto. apply (inv_rep _ _ _ _ I).
  - intros t Ht. change (k_threads s') with (<[c_curthread x := set_frames fs me]> (k_threads s)). rewrite lookup_insert_ne by set_solver.
    split_and!; [done| |done]. unfold s'. by rewrite hold_istate_ne by set_solver.
  - intros t th ->%elem_of_singleton Hth'. by simplify_eq.
  - intros t th ->%elem_of_singleton. change (k_threads s') with (<[c_curthread x := set_frames fs me]> (k_threads s)). rewrite lookup_insert_eq. intros [= <-].
    split; try done.
    + destruct T2 as (c' & Hc' & _ & Hp). simplify_eq. exists c'. split_and!; [done|rewrite Hcp, lookup_insert_eq; eauto|].
      unfold state_place in *. rewrite Hr. cbn [t_state t_frames t_proc set_frames]. destruct (t_state me); try done.
      destruct Hp as [? (w & ? & ?)]. split; [done|]. exists w. auto.
    + exists (IState b lev lev). split; [apply hold_istate|]. rewrite Hr, (role_cur s c x _ me Hx Hcm eq_refl). exact Hshape.
  - split; try done.
    + rewrite Hx'. exists (set_frames fs me), (IState b lev lev). change (k_threads s') with (<[c_curthread x := set_frames fs me]> (k_threads s)).
      rewrite lookup_insert_eq, Hi'. split_and!; try done; try tauto; [apply hold_istate|apply hold_icpu].
    + unfold s'. by rewrite hold_locks.
    + rewrite Hx', Hi'. intros i'. unfold s'. rewrite hold_istate. intros [= <-]. exact Hwk.
  - unfold s'. by rewrite hold_locks.
  - intros e He. unfold s'. by rewrite hold_icpu_ne.
  - intros w n Hn. split; [by eexists|]. by destruct (inv_sems _ _ _ _ I _ _ Hn) as (_ & _ & ?).
  - intros p n Hn. split; [by eexists|]. change (k_threads s') with (<[c_curthread x := set_frames fs me]> (k_threads s)).
    rewrite (numthreads_same _ _ me) by done. by destruct (inv_procs _ _ _ _ I _ _ Hn).
Qed.

Lemma stays_current : (forall w, InP w ∈ fs <-> InP w ∈ t_frames me) -> stays lbolt s L s' L.
Proof.
  intros Hf. split_and!; [exact kinv_current|intros; apply grows_refl| | |done].
  - apply neutral_inv; [done|]. intros w Hw. split_and!; [done..|]. apply (in_P_same _ _ me); [exact Hme|]. apply Hf.
  - intros d t b0 (y & Hy & Ht & Hb). destruct (decide (d = c)) as [->|Hne].
    + exists x'. change (k_cpus s') with (<[c := x']> (k_cpus s)). rewrite lookup_insert_eq. rewrite Hx', Hi'. split_and!; congruence.
    + exists y. change (k_cpus s') with (<[c := x']> (k_cpus s)). by rewrite lookup_insert_ne.
Qed.
End current.

(** ** Entering and leaving an interrupt handler *)

Lemma mid_empty i c cur b lev :
  mid i c cur b lev ∅ = Intr (<[cur := IState b lev lev]> (i_threads i)) (<[c := ICpu 0 (lev =? 0)]> (i_cpus i)) (i_locks i).
Proof. unfold mid. by rewrite size_empty, Z.add_0_r, gset_to_gmap_empty, (left_id_L ∅ (∪)). Qed.

Lemma with_int_twice i j s : with_int i (with_int j s) = with_int i s.
Proof. done. Qed.

Definition entered (s : ksys) (c : Z) (x : cpu) (me : thread) : ksys :=
  hold c (c_curthread x) true IPL_HIGH ∅
    (with_cpus <[c := if c_isidle x then set_woken true x else x]>
      (with_threads <[c_curthread x := set_frames (InIrq (negb (c_isidle x)) false :: t_frames me) me]> s)).

Section irq.
Context `{DebugAsserts} (lbolt c : Z).

Lemma shape_quiet (idle : bool) d ctx fs b lev :
  shape (if idle then RIdle else RRun) d ctx fs (IState b lev lev) -> b = false ->
  lev = (if idle then IPL_HIGH else IPL_NONE) /\ base fs /\
  shape (if idle then RIdle else RRun) d ctx (InIrq (negb idle) false :: fs) (IState true IPL_HIGH IPL_HIGH).
Proof.
  intros Hs ->. destruct idle; inversion Hs as [? ? ? Hb|? ? ? ? ?|? ? ? ?|? ? ? Hb| | | | | | | | |]; subst; cbn [negb]; split_and!; try done; try (by constructor).
Qed.

Lemma migrating_base L fs : base fs -> migrating L c fs -> L !! victims c = Some [].
Proof. by intros [-> |[[? ->]|[? ->]]]. Qed.

Lemma wp_irq_enter s L x me (Q : unit -> ksys -> Prop) E lev :
  kinv lbolt s L -> k_cpus s !! c = Some x -> k_threads s !! c_curthread x = Some me ->
  i_threads (k_int s) !! c_curthread x = Some (IState false lev lev) ->
  (stays lbolt s L (entered s c x me) L -> Q tt (entered s c x me)) -> wp (irq_enter c) Q E s.
Proof.
  intros I Hx Hme Hi HQ. destruct (kinv_cur _ _ _ _ I _ _ Hx) as (th & b & lev' & Hth & Hcm & Hlev & Hi' & Hs & Eh). simplify_eq.
  destruct (shape_quiet _ _ _ _ _ _ Hs eq_refl) as (Elev & Hb & Hs').
  pose proof (inv_cpus _ _ _ _ I _ _ Hx) as C. destruct (cok_cur _ _ _ _ C) as (th & i & Hth2 & _ & Hid & Hm & Hi2 & Hic). simplify_eq.
  assert (I' : stays lbolt s L (entered s c x me) L).
  { apply stays_current; try done; [..|set_solver].
    - by destruct (c_isidle x).
    - by destruct (c_isidle x) eqn:?.
    - destruct (c_isidle x); apply (cok_ipi _ _ _ _ C).
    - destruct (c_isidle x) eqn:Hidle; [by intros _ _; right|]. intros Hw. congruence.
    - intros _ Hidle. by rewrite Hidle.
    - cbn. by apply (migrating_base L (t_frames me)).
    - intros w Hw. apply (tok_sems _ _ _ _ _ (inv_threads _ _ _ _ I _ _ Hme)). set_solver.
    - intros w _ (pre & Hpre). exists (InIrq (negb (c_isidle x)) false :: pre). destruct Hpre as [-> |(n & -> & ->)]; [by left | by right; exists n]. }
  specialize (HQ I'). revert HQ. unfold entered, hold. rewrite mid_empty. intros HQ.
  assert (Hc : curthread_is c (c_curthread x) s) by (by exists x).
  unfold irq_enter. apply wp_bind, wp_curthread with (c_curthread x); [done|]. apply wp_bind, wp_zoom. eapply wp_load_icpu; [exact Hic|].
  apply wp_bind, wp_zoom, wp_modify. apply wp_bind, wp_zoom. eapply wp_load_istate; [exact Hi|]. cbn [t_curspl t_iplhigh_count t_in_interrupt c_spinlocks].
  apply wp_bind. rewrite !with_int_twice. cbn [k_int with_int i_threads i_cpus i_locks].
  assert (Hc' : forall j, curthread_is c (c_curthread x) (with_int j s)) by (by exists x).
  destruct (c_isidle x) eqn:Hidle; subst; cbn [negb] in *.
  - change (IPL_HIGH =? 0) with false. cbv iota. apply wp_bind, wp_zoom, wp_modify. rewrite !with_int_twice. unfold push_frame.
    apply wp_bind, wp_curthread with (c_curthread x); [done|]. eapply wp_upd_thread; [exact Hme|]. eapply wp_upd_cpu; [exact Hx|].
    rewrite Hidle. exact HQ.
  - change (IPL_NONE =? 0) with true. cbv iota. apply wp_bind, wp_kassert; [done|]. apply wp_bind, wp_zoom, wp_modify. rewrite !with_int_twice. unfold push_frame.
    apply wp_bind, wp_curthread with (c_curthread x); [done|]. eapply wp_upd_thread; [exact Hme|]. eapply wp_upd_cpu; [exact Hx|].
    rewrite Hidle. exact HQ.
Qed.

Lemma with_cpus_same s x : k_cpus s !! c = Some x -> with_cpus <[c := x]> s = s.
Proof. intros Hx. unfold with_cpus. rewrite insert_id by done. by destruct s. Qed.

Definition quiet_level (x : cpu) : Z := if c_isidle x then IPL_HIGH else IPL_NONE.

Definition left_irq (s : ksys) (x : cpu) (me : thread) (fs : list frame) : ksys :=
  hold c (c_curthread x) false (quiet_level x) ∅ (with_cpus <[c := x]> (with_threads <[c_curthread x := set_frames fs me]> s)).

Lemma shape_irq (idle : bool) d ctx adj old fs x :
  shape (if idle then RIdle else RRun) d ctx (InIrq adj old :: fs) x ->
  adj = negb idle /\ old = false /\ base fs /\ x = IState true IPL_HIGH IPL_HIGH /\
  forall lev, lev = (if idle then IPL_HIGH else IPL_NONE) -> shape (if idle then RIdle else RRun) d ctx fs (IState false lev lev).
Proof.
  intros Hs. destruct idle; inversion Hs as [? ? ? Hb|? ? ? ? ?|? ? ? ?|? ? ? Hb| | | | | | | | |]; subst; cbn [negb]; split_and!; try done;
    try (by destruct Hb as [|[[]|[]]]); try (by left); intros ? ->; by constructor.
Qed.

Lemma wp_irq_exit s L x me adj old fs (Q : unit -> ksys -> Prop) E :
  kinv lbolt s L -> k_cpus s !! c = Some x -> k_threads s !! c_curthread x = Some me -> t_frames me = InIrq adj old :: fs ->
  (stays lbolt s L (left_irq s x me fs) L -> Q tt (left_irq s x me fs)) -> wp (irq_exit c) Q E s.
Proof.
  intros I Hx Hme Hf HQ. destruct (kinv_cur _ _ _ _ I _ _ Hx) as (th & b & lev' & Hth & Hcm & Hlev & Hi' & Hs & Eh). simplify_eq. rewrite Hf in Hs.
  destruct (shape_irq _ _ _ _ _ _ _ Hs) as (-> & -> & Hb & [= -> ->] & Hs').
  pose proof (inv_cpus _ _ _ _ I _ _ Hx) as C. destruct (cok_cur _ _ _ _ C) as (th & i & Hth2 & _ & Hid & Hm & Hi2 & Hic). simplify_eq.
  assert (I' : stays lbolt s L (left_irq s x me fs) L).
  { apply stays_current; try done.
    - apply (cok_ipi _ _ _ _ C).
    - by apply (inv_wake _ _ _ _ I).
    - by apply Hs'.
    - rewrite Hf in Hm. by destruct Hb as [-> |[[? ->]|[? ->]]].
    - intros w Hw. apply (tok_sems _ _ _ _ _ (inv_threads _ _ _ _ I _ _ Hme)). rewrite Hf. set_solver.
    - intros w _ (pre & Hpre). rewrite Hf in Hpre. destruct pre as [|g pre]; [by destruct Hpre as [[=]|(n & [=] & _)]|]. exists pre.
      destruct Hpre as [[= _ ->]|(n & [= _ ->] & ->)]; [by left | by right; exists n].
    - rewrite Hf. set_solver. }
  specialize (HQ I'). revert HQ. unfold left_irq, hold. rewrite mid_empty, with_cpus_same by done. intros HQ.
  assert (Hc : forall s0, k_cpus s0 = k_cpus s -> curthread_is c (c_curthread x) s0) by (intros s0 E0; exists x; by rewrite E0).
  unfold irq_exit. apply wp_bind, wp_curthread with (c_curthread x); [by apply Hc|]. apply wp_bind. eapply wp_load_thread; [exact Hme|]. rewrite Hf.
  unfold pop_frame. apply wp_bind, wp_bind, wp_curthread with (c_curthread x); [by apply Hc|]. eapply wp_upd_thread; [exact Hme|]. rewrite Hf. cbn [tail].
  apply wp_bind, wp_zoom. eapply wp_load_istate; [exact Hi'|]. unfold quiet_level in HQ. destruct (c_isidle x) eqn:Hidle; cbn [negb t_curspl t_iplhigh_count].
  - apply wp_zoom, wp_modify. cbn [k_int with_int with_threads i_threads i_cpus i_locks] in *.
    change (IPL_HIGH =? 0) with false in HQ. rewrite (insert_id (i_cpus (k_int s))) in HQ by exact Hic. exact HQ.
  - apply wp_bind, wp_kassert; [done|]. apply wp_bind, wp_kassert; [done|]. apply wp_bind, wp_zoom, wp_modify. apply wp_bind, wp_zoom.
    eapply wp_load_icpu; [exact Hic|]. apply wp_zoom, wp_modify. exact HQ.
Qed.

(** Returning from a switch: into interrupt code, or not. *)
Lemma wp_return_to_caller s L (Q : unit -> ksys -> Prop) E :
  kinv lbolt s L -> is_Some (k_cpus s !! c) -> (forall s', stays lbolt s L s' L -> Q tt s') -> wp (return_to_caller c) Q E s.
Proof.
  intros I [x Hx] HQ. destruct (kinv_cur _ _ _ _ I _ _ Hx) as (me & _ & _ & Hme & _).
  unfold return_to_caller. apply wp_bind, wp_curthread with (c_curthread x); [by exists x|]. apply wp_bind. eapply wp_load_thread; [exact Hme|].
  assert (Hrefl : stays lbolt s L s L) by (by apply stays_refl).
  destruct (t_frames me) as [|[adj old|?|?|?] fs] eqn:Hf; try (apply wp_ret; by apply HQ). eapply wp_irq_exit; eauto.
Qed.

(** A piece of code that ends in a switch, and what follows it. *)
Lemma wp_returning turn (m : M ksys bool) s L (Q : unit -> ksys -> Prop) E :
  is_Some (k_cpus s !! c) -> kinv lbolt s L -> wp m (fun _ s' => outcome_of turn lbolt c s L s') E s -> (forall s', outcome_of turn lbolt c s L s' -> Q tt s') -> wp (returning c m) Q E s.
Proof.
  intros Hc I0 W HQ. unfold returning. apply wp_bind. eapply wp_mono; [exact W| |done]. intros [|] s' Ho; cbv beta iota; [apply wp_ret; by apply HQ|].
  destruct Ho as (L' & I & He & Hs & Hn). assert (Hc' : is_Some (k_cpus s' !! c)) by (apply (kinv_is_cpu _ _ _ _ I); rewrite Hn; by apply (kinv_is_cpu _ _ _ _ I0)).
  eapply wp_return_to_caller; [exact I|exact Hc'|]. intros s2 Hs2. apply HQ. by eapply then_stays.
Qed.
End irq.
