(* ===== verification/KThreadWake.v ===== *)
(** * Sleeping and waking: wait channels, [P] and [V], the timer, and the events of a processor *)

From S2P Require Import Prelude Threadlist Spl KThread KThreadInv KThreadOps KThreadSwitch KThreadBlocks KThreadIrq.

Ltac lock1 := rewrite ?released, ?acquired.

(** What changes when the threads of the channel [w] up to [l'] are woken. *)
Record woken (lbolt : Z) (s : ksys) (L : gmap Z (list Z)) (w : Z) (l' : list Z) (s' : ksys) (L' : gmap Z (list Z)) : Prop := {
  wk_inv : kinv lbolt s' L';
  wk_grows : forall d, grows L L' d;
  wk_list : L' !! wc_threads w = Some l';
  wk_lists : forall w', w' <> w -> L' !! wc_threads w' = L !! wc_threads w';
  wk_sems : k_sems s' = k_sems s;
  wk_in_P : forall w', in_P (k_threads s') w' = in_P (k_threads s) w';
  wk_int : k_int s' = k_int s;
  wk_cur : forall d x, k_cpus s !! d = Some x -> exists x', k_cpus s' !! d = Some x' /\ c_curthread x' = c_curthread x /\ c_isidle x' = c_isidle x /\ c_woken x' = c_woken x;
  wk_numcpus : k_numcpus s' = k_numcpus s;
  wk_wchans : k_wchans s' = k_wchans s;
  wk_frames : forall t th, k_threads s !! t = Some th -> exists th', k_threads s' !! t = Some th' /\ t_frames th' = t_frames th
}.

Lemma woken_cur lbolt s L w l' s' L' d t : woken lbolt s L w l' s' L' -> curthread_is d t s -> curthread_is d t s'.
Proof. intros W (x & Hx & <-). destruct (wk_cur _ _ _ _ _ _ _ W _ _ Hx) as (x' & ? & ? & _). by exists x'. Qed.

Lemma woken_on_cpu lbolt s L w l' s' L' d t b : woken lbolt s L w l' s' L' -> on_cpu d t b s -> on_cpu d t b s'.
Proof. intros W (x & Hx & <- & <-). destruct (wk_cur _ _ _ _ _ _ _ W _ _ Hx) as (x' & ? & ? & ? & _). by exists x'. Qed.

Section wake.
Context `{DebugAsserts} (lbolt c : Z).

(** The first thread of a channel goes to the run queue of its processor. *)
Lemma woken_ready s L w t l th d x ld h :
  kinv lbolt s L -> k_threads s !! t = Some th -> L !! wc_threads w = Some (t :: l) ->
  t_cpu th = Some d -> k_cpus s !! d = Some x -> (d = c -> c_isidle x = true -> c_woken x = true) -> L !! c_runqueue d = Some ld ->
  tl_rep h (dom (k_threads s)) (<[c_runqueue d := ld ++ [t]]> (<[wc_threads w := l]> L)) ->
  woken lbolt s L w l (readied c d t th x h s) (<[c_runqueue d := ld ++ [t]]> (<[wc_threads w := l]> L)).
Proof.
  intros I Hth Hw Hd Hx Hwake Hrd R. assert (I' := kinv_ready lbolt c s L t th w l d x ld h I Hth Hw Hd Hx Hwake Hrd R). split; try done.
  - intros e. destruct (decide (e = d)) as [->|Hne].
    + intros l0 Hl0. exists [t]. rewrite lookup_insert_eq. congruence.
    + apply grows_same. rewrite !lookup_insert_ne by lists. done.
  - rewrite lookup_insert_ne by lists. apply lookup_insert_eq.
  - intros w' Hne. rewrite !lookup_insert_ne by lists. done.
  - intros w'. by apply (in_P_same _ _ th).
  - intros e y Hy. change (k_cpus (readied c d t th x h s)) with (<[d := notified c d x]> (k_cpus s)). destruct (decide (e = d)) as [->|Hne].
    + exists (notified c d x). rewrite lookup_insert_eq. simplify_eq. unfold notified. by destruct (_ && _).
    + exists y. by rewrite lookup_insert_ne.
  - intros u thu Hu. change (k_threads (readied c d t th x h s)) with (<[t := set_state S_READY th]> (k_threads s)). destruct (decide (u = t)) as [->|Hne].
    + exists (set_state S_READY th). rewrite lookup_insert_eq. by simplify_eq.
    + exists thu. by rewrite lookup_insert_ne.
Qed.

Lemma woken_hold s L w l' s' L' x b lev :
  woken lbolt s L w l' s' L' -> k_cpus s !! c = Some x -> i_threads (k_int s) !! c_curthread x = Some (IState b lev lev) ->
  s' = hold c (c_curthread x) b lev ∅ s'.
Proof.
  intros W Hx Hi. destruct (wk_cur _ _ _ _ _ _ _ W _ _ Hx) as (x' & Hx' & <- & _).
  apply (kinv_hold_istate lbolt c s' L' x' b lev); [apply (wk_inv _ _ _ _ _ _ _ W)|done|]. rewrite (wk_int _ _ _ _ _ _ _ W).
  destruct (wk_cur _ _ _ _ _ _ _ W _ _ Hx) as (y & Hy & Ey & _). congruence.
Qed.

(** The thread at the head of a channel. *)
Lemma sleeper_of s L w t l :
  kinv lbolt s L -> L !! wc_threads w = Some (t :: l) ->
  exists th d x ld, k_threads s !! t = Some th /\ t_cpu th = Some d /\ k_cpus s !! d = Some x /\ L !! c_runqueue d = Some ld.
Proof.
  intros I Hw. destruct (kinv_listed _ _ _ _ I _ _ _ Hw (list_elem_of_here _ _)) as (th & Hth & T & _).
  destruct (tok_cpu _ _ _ _ _ T) as (d & Hd & [x Hx] & _). destruct (cok_lists _ _ _ _ (inv_cpus _ _ _ _ I _ _ Hx)) as ([ld Hld] & _). eauto 10.
Qed.

Lemma wp_wakeone s L x b lev w l (Q : unit -> ksys -> Prop) E :
  kinv lbolt s L -> k_cpus s !! c = Some x -> i_threads (k_int s) !! c_curthread x = Some (IState b lev lev) ->
  (c_isidle x = true -> c_woken x = true) -> is_Some (k_wchans s !! w) -> L !! wc_threads w = Some l ->
  (forall s' L', woken lbolt s L w (tail l) s' L' -> Q tt (hold c (c_curthread x) b lev {[wc_lock w]} s')) ->
  wp (wchan_wakeone c w) Q E (hold c (c_curthread x) b lev {[wc_lock w]} s).
Proof.
  intros I Hx Hi Hwk Hw Hl HQ. assert (Hc : curthread_is c (c_curthread x) s) by (by exists x).
  destruct (kinv_hold_istate _ _ _ _ _ _ _ I Hx Hi) as [_ Hlev]. destruct (inv_wchans _ _ _ _ I w Hw) as [_ Hf]. pose proof (inv_rep _ _ _ _ I) as R.
  unfold wchan_wakeone. apply wp_bind, wp_hold_p; [done..|]. rewrite bool_decide_eq_true_2 by set_solver. apply wp_bind, wp_kassert; [done|].
  apply wp_bind. eapply wp_list; [exact (wp_remhead (k_tls s) _ L _ l R Hl)|]. intros o h [-> Rh]. rewrite hold_tls. destruct l as [|t l]; cbn [head tail] in *.
  - apply wp_ret. apply (HQ _ L). rewrite insert_id in Rh by done. assert (I' := kinv_tls _ _ _ _ _ I Rh). split; try done.
    + intros. apply grows_refl.
    + intros d y Hy. exists y. done.
    + intros u thu Hu. by exists thu.
  - destruct (sleeper_of _ _ _ _ _ I Hl) as (th & d & y & ld & Hth & Hd & Hy & Hld). pose proof (inv_cpus _ _ _ _ I _ _ Hy) as C. destruct (cok_locks _ _ _ _ C) as [F1 F2].
    assert (Hnin : t ∉ l) by (pose proof (rep_nodup _ _ _ R _ _ Hl) as N; by apply NoDup_cons in N as [? _]).
    apply (wp_make_runnable c (c_curthread x) b lev {[wc_lock w]} t th d y ld (<[wc_threads w := l]> L) false); try done.
    + apply few_union; [pose proof (size_two (c_runqueue_lock d) (c_ipi_lock d)) | rewrite size_singleton]; lia.
    + set_solver.
    + set_solver.
    + apply (cok_ipi _ _ _ _ C).
    + rewrite lookup_insert_ne by lists. done.
    + intros id l0 [[<- <-]|[Hne Hl0]]%lookup_insert_Some; [done|]. intros Hin. apply Hne. eapply (rep_apart _ _ _ R); [exact Hl|exact Hl0|by left|exact Hin].
    + intros h' Rh'. apply (HQ _ (<[c_runqueue d := ld ++ [t]]> (<[wc_threads w := l]> L))). unfold readied. rewrite with_threads_tls, with_tls_twice.
      apply woken_ready; try done. intros -> Hidle. simplify_eq. auto.
Qed.

Lemma kinv_count s L w n m :
  kinv lbolt s L -> k_sems s !! w = Some n -> 0 <= m < 2 ^ 32 -> kinv lbolt (with_sems <[w := m]> s) L.
Proof.
  intros I Hn Hm. eapply kinv_mild; try done; cbn [k_sems with_sems k_tls].
  - apply (inv_rep _ _ _ _ I).
  - intros w' ?. apply lookup_insert_is_Some'. by right.
  - intros w' k [[<- <-]|[Hne Hk]]%lookup_insert_Some; [eauto|]. split; [eauto|]. by destruct (inv_sems _ _ _ _ I _ _ Hk) as (_ & _ & ?).
Qed.

Lemma wp_V s L x b lev w n l (Q : unit -> ksys -> Prop) E :
  kinv lbolt s L -> k_cpus s !! c = Some x -> i_threads (k_int s) !! c_curthread x = Some (IState b lev lev) ->
  (c_isidle x = true -> c_woken x = true) -> k_sems s !! w = Some n -> n + 1 < 2 ^ 32 -> L !! wc_threads w = Some l ->
  (forall s' L', woken lbolt (with_sems <[w := n + 1]> s) L w (tail l) s' L' -> Q tt s') -> wp (V c w) Q E s.
Proof.
  intros I Hx Hi Hwk Hn Hlt Hl HQ. assert (Hc : curthread_is c (c_curthread x) s) by (by exists x).
  destruct (kinv_hold_istate _ _ _ _ _ _ _ I Hx Hi) as [Eh Hlev]. destruct (inv_sems _ _ _ _ I _ _ Hn) as (Hw & _ & Hr).
  destruct (inv_wchans _ _ _ _ I w Hw) as [_ Hf]. rewrite Eh. unfold V, load_sem, store_sem.
  apply wp_bind, wp_acq; [done|done|apply few0|set_solver|done|]. lock1. apply wp_bind, wp_bind, wp_get. eapply wp_oob; [exact Hn|].
  rewrite wrap_small by lia. apply wp_bind, wp_modify. rewrite hold_sems. apply wp_bind, wp_bind, wp_get. eapply wp_oob; [apply lookup_insert_eq|].
  apply wp_bind, wp_kassert; [apply Z.ltb_lt; lia|]. apply wp_bind.
  apply (wp_wakeone (with_sems <[w := n + 1]> s) L x b lev w l); try done; [by eapply kinv_count; [| |lia]|].
  intros s' L' W. apply wp_rel; [by eapply woken_cur|done|apply few1|set_solver|by rewrite (wk_int _ _ _ _ _ _ _ W)|]. lock1.
  rewrite <- (woken_hold (with_sems <[w := n + 1]> s) L w (tail l) s' L' x b lev W Hx Hi). by apply (HQ _ L').
Qed.

Lemma V_stays s L w n l s' L' :
  kinv lbolt s L -> k_sems s !! w = Some n -> L !! wc_threads w = Some l -> woken lbolt (with_sems <[w := n + 1]> s) L w (tail l) s' L' -> stays lbolt s L s' L'.
Proof.
  intros I Hn Hl [W1 W2 W3 W4 W5 W6 W7 W8 W9 W10 W11]. split_and!; [done..| | |done].
  - intros Hs w' m l' Hm Hl' Hne. rewrite W5 in Hm. cbn [k_sems with_sems] in Hm. rewrite W6. cbn [k_threads with_sems]. destruct (decide (w' = w)) as [->|Hww].
    + rewrite lookup_insert_eq in Hm. simplify_eq. destruct l as [|t l]; [done|]. specialize (Hs _ _ _ Hn Hl ltac:(done)). cbn [tail length] in *. lia.
    + rewrite lookup_insert_ne in Hm by done. rewrite W4 in Hl' by done. by apply Hs.
  - intros d t b (y & Hy & <- & <-). destruct (W8 d y Hy) as (y' & ? & ? & ? & _). by exists y'.
Qed.

(** ** All threads of a channel *)

Lemma wp_move_all cur b lev K fuel from to l l' L s (Q : unit -> ksys -> Prop) E :
  tl_rep (k_tls s) (dom (k_threads s)) L -> L !! from = Some l -> L !! to = Some l' -> from <> to -> (length l < fuel)%nat ->
  (forall h, tl_rep h (dom (k_threads s)) (<[to := l' ++ l]> (<[from := []]> L)) -> Q tt (hold c cur b lev K (with_tls h s))) ->
  wp (move_all fuel from to) Q E (hold c cur b lev K s).
Proof.
  intros R Hl Hl' Hne Hf HQ. revert fuel l' L s R Hl Hl' Hf HQ. induction l as [|t l IH]; intros [|fuel] l' L s R Hl Hl' Hf HQ; cbn [length] in Hf; try lia; cbn [move_all].
  - apply wp_bind. eapply wp_list; [exact (wp_remhead (k_tls s) _ L _ [] R Hl)|]. intros o h [-> Rh]. rewrite hold_tls. cbn [head tail] in *. apply wp_ret. apply HQ.
    rewrite app_nil_r, insert_id; [done|]. by rewrite lookup_insert_ne.
  - apply wp_bind. eapply wp_list; [exact (wp_remhead (k_tls s) _ L _ (t :: l) R Hl)|]. intros o h [-> Rh]. rewrite hold_tls. cbn [head tail] in *.
    pose proof (rep_nodup _ _ _ R _ _ Hl) as [Hn _]%NoDup_cons.
    assert (Hto : <[from := l]> L !! to = Some l') by (by rewrite lookup_insert_ne).
    assert (Hoff : off_lists (<[from := l]> L) t).
    { intros id l0 [[<- <-]|[Hid Hl0]]%lookup_insert_Some; [done|]. intros Hin. apply Hid. eapply (rep_apart _ _ _ R); [exact Hl|exact Hl0|by left|exact Hin]. }
    apply wp_bind. eapply wp_list; [exact (wp_addtail h _ _ to l' t Rh Hto (rep_on _ _ _ R _ _ _ Hl (list_elem_of_here _ _)) Hoff)|].
    intros a h2 Rh2. cbv beta in Rh2. clear a. rewrite hold_tls. apply (IH fuel (l' ++ [t]) (<[to := l' ++ [t]]> (<[from := l]> L))).
    + exact Rh2.
    + rewrite lookup_insert_ne by done. apply lookup_insert_eq.
    + apply lookup_insert_eq.
    + lia.
    + intros h3 Rh3. apply HQ. rewrite (insert_insert_ne _ from to), !insert_insert_eq, <- app_assoc in Rh3 by done. exact Rh3.
Qed.

Lemma rep_move h T L a b t l l' :
  tl_rep h T L -> L !! a = Some (t :: l) -> L !! b = Some l' -> a <> b -> exists h', tl_rep h' T (<[b := l' ++ [t]]> (<[a := l]> L)).
Proof.
  intros R Ha Hb Hne. destruct (wp_ret_inv _ _ _ (wp_remhead h T L a _ R Ha)) as (_ & h1 & _ & _ & R1). cbn [tail] in R1.
  pose proof (rep_nodup _ _ _ R _ _ Ha) as [Hn _]%NoDup_cons.
  assert (Hoff : off_lists (<[a := l]> L) t).
  { intros id l0 [[<- <-]|[Hid Hl0]]%lookup_insert_Some; [done|]. intros Hin. apply Hid. eapply (rep_apart _ _ _ R); [exact Ha|exact Hl0|by left|exact Hin]. }
  destruct (wp_ret_inv _ _ _ (wp_addtail h1 T _ b l' t R1 ltac:(by rewrite lookup_insert_ne) (rep_on _ _ _ R _ _ _ Ha (list_elem_of_here _ _)) Hoff)) as (_ & h2 & _ & R2). eauto.
Qed.

Lemma woken_trans s1 L1 w l2 s2 L2 l3 s3 L3 : woken lbolt s1 L1 w l2 s2 L2 -> woken lbolt s2 L2 w l3 s3 L3 -> woken lbolt s1 L1 w l3 s3 L3.
Proof.
  intros [A1 A2 A3 A4 A5 A6 A7 A8 A9 A10 A11] [B1 B2 B3 B4 B5 B6 B7 B8 B9 B10 B11]. split; try done; try congruence.
  - intros d. eapply grows_trans; eauto.
  - intros w' Hne. rewrite B4, A4 by done. done.
  - intros d x Hx. destruct (A8 d x Hx) as (y & Hy & ? & ? & ?). destruct (B8 d y Hy) as (z & Hz & ? & ? & ?). exists z. split_and!; congruence.
  - intros t th Ht. destruct (A11 t th Ht) as (th2 & H2 & E2). destruct (B11 t th2 H2) as (th3 & H3 & E3). exists th3. split; congruence.
Qed.

Lemma woken_retls s L w l s' L' h h' :
  woken lbolt (with_tls h s) L w l (with_tls h' s') L' -> tl_rep (k_tls s') (dom (k_threads s')) L' -> woken lbolt s L w l s' L'.
Proof.
  intros [A1 A2 A3 A4 A5 A6 A7 A8 A9 A10 A11] R. split; try done. pose proof (kinv_tls _ _ _ _ (k_tls s') A1 R) as I. rewrite with_tls_twice in I. by destruct s'.
Qed.

(** While the threads are on the list of [wchan_wakeall], the invariant is
    that of a store [hg] in which they are still on the channel. *)
Lemma wp_wake_list fuel s hg Lg x b lev w l (Q : unit -> ksys -> Prop) E :
  kinv lbolt (with_tls hg s) Lg -> k_cpus s !! c = Some x -> i_threads (k_int s) !! c_curthread x = Some (IState b lev lev) ->
  (c_isidle x = true -> c_woken x = true) -> is_Some (k_wchans s !! w) -> Lg !! wc_threads w = Some l -> (length l < fuel)%nat ->
  tl_rep (k_tls s) (dom (k_threads s)) (<[wakeall_list c := l]> (<[wc_threads w := []]> Lg)) ->
  (forall s' hg' Lg', woken lbolt (with_tls hg s) Lg w [] (with_tls hg' s') Lg' -> tl_rep (k_tls s') (dom (k_threads s')) Lg' ->
     Q tt (hold c (c_curthread x) b lev {[wc_lock w]} s')) ->
  wp (wake_list c fuel (wakeall_list c)) Q E (hold c (c_curthread x) b lev {[wc_lock w]} s).
Proof.
  revert s hg Lg x l Q. induction fuel as [|fuel IH]; intros s hg Lg x l Q I Hx Hi Hwk Hw Hl Hf R HQ; [lia|]. cbn [wake_list].
  assert (Hc : curthread_is c (c_curthread x) s) by (by exists x). destruct (kinv_hold_istate _ _ _ _ _ _ _ I Hx Hi) as [_ Hlev].
  assert (Hwa : Lg !! wakeall_list c = Some []) by apply (cok_lists _ _ _ _ (inv_cpus _ _ _ _ I _ _ Hx)).
  apply wp_bind. eapply wp_list; [exact (wp_remhead (k_tls s) _ _ _ l R (lookup_insert_eq _ _ _))|]. intros o h [-> Rh]. rewrite hold_tls, insert_insert_eq in *.
  destruct l as [|t l]; cbn [head tail length] in *.
  - apply wp_ret. apply (HQ _ hg Lg).
    + split; try done; [intros; apply grows_refl| |]; intros d y Hy; by exists y.
    + cbn [k_tls k_threads with_tls]. rewrite (insert_id Lg), insert_id in Rh by done. exact Rh.
  - destruct (sleeper_of _ _ _ _ _ I Hl) as (th & d & y & ld & Hth & Hd & Hy & Hld). pose proof (inv_cpus _ _ _ _ I _ _ Hy) as C. destruct (cok_locks _ _ _ _ C) as [F1 F2].
    pose proof (inv_rep _ _ _ _ I) as Rg. pose proof (rep_nodup _ _ _ Rg _ _ Hl) as [Hn _]%NoDup_cons.
    destruct (rep_move _ _ _ _ (c_runqueue d) t l ld Rg Hl Hld ltac:(lists)) as [hg' Rg'].
    apply wp_bind. apply (wp_make_runnable c (c_curthread x) b lev {[wc_lock w]} t th d y ld (<[wakeall_list c := l]> (<[wc_threads w := []]> Lg)) false); try done.
    + apply few_union; [pose proof (size_two (c_runqueue_lock d) (c_ipi_lock d)) | rewrite size_singleton]; lia.
    + set_solver.
    + set_solver.
    + apply (cok_ipi _ _ _ _ C).
    + rewrite !lookup_insert_ne by lists. done.
    + intros id l0. intros [[<- <-]|[Hne [[<- <-]|[Hne' Hl0]]%lookup_insert_Some]]%lookup_insert_Some Hin; [done|by apply not_elem_of_nil in Hin|].
      apply Hne'. eapply (rep_apart _ _ _ Rg); [exact Hl|exact Hl0|by left|exact Hin].
    + intros h' Rh'. assert (W : woken lbolt (with_tls hg s) Lg w l (readied c d t th y hg' (with_tls hg s)) (<[c_runqueue d := ld ++ [t]]> (<[wc_threads w := l]> Lg))).
      { apply woken_ready; try done. intros -> Hidle. change (k_cpus (with_tls hg s)) with (k_cpus s) in Hy. simplify_eq. auto. }
      destruct (wk_cur _ _ _ _ _ _ _ W _ _ Hx) as (x' & Hx' & Ec & Ei & Ew). rewrite <- Ec.
      apply (IH _ hg' (<[c_runqueue d := ld ++ [t]]> (<[wc_threads w := l]> Lg)) x' l); try done.
      * exact (wk_inv _ _ _ _ _ _ _ W).
      * rewrite Ec. done.
      * rewrite Ei, Ew. done.
      * rewrite lookup_insert_ne by lists. apply lookup_insert_eq.
      * lia.
      * cbn [k_tls k_threads readied with_cpus with_tls with_threads] in Rh' |- *. rewrite dom_insert_lookup_L by eauto.
        rewrite (insert_insert_ne _ (wc_threads w)), insert_insert_eq, (insert_insert_ne _ (wakeall_list c)) by lists. exact Rh'.
      * intros s' hg2 Lg2 W2 R2. rewrite Ec. eapply HQ; [|exact R2]. eapply woken_trans; [exact W|]. exact W2.
Qed.

Lemma wp_wakeall s L x b lev w l (Q : unit -> ksys -> Prop) E :
  kinv lbolt s L -> k_cpus s !! c = Some x -> i_threads (k_int s) !! c_curthread x = Some (IState b lev lev) ->
  (c_isidle x = true -> c_woken x = true) -> is_Some (k_wchans s !! w) -> L !! wc_threads w = Some l ->
  (forall s' L', woken lbolt s L w [] s' L' -> Q tt (hold c (c_curthread x) b lev {[wc_lock w]} s')) ->
  wp (wchan_wakeall c w) Q E (hold c (c_curthread x) b lev {[wc_lock w]} s).
Proof.
  intros I Hx Hi Hwk Hw Hl HQ. assert (Hc : curthread_is c (c_curthread x) s) by (by exists x). destruct (inv_wchans _ _ _ _ I w Hw) as [_ Hf].
  pose proof (inv_rep _ _ _ _ I) as R. assert (Hwa : L !! wakeall_list c = Some []) by apply (cok_lists _ _ _ _ (inv_cpus _ _ _ _ I _ _ Hx)).
  unfold wchan_wakeall. apply wp_bind, wp_hold_p; [done..|]. rewrite bool_decide_eq_true_2 by set_solver. apply wp_bind, wp_kassert; [done|].
  apply wp_bind. eapply wp_list; [exact (wp_init (k_tls s) _ L (wakeall_list c) R ltac:(intros ? ?; congruence))|]. intros a h Rh. cbv beta in Rh. clear a.
  rewrite hold_tls. rewrite insert_id in Rh by done. apply wp_bind, wp_gets.
  assert (Hfuel : (length l < thread_fuel s)%nat).
  { unfold thread_fuel. pose proof (rep_length _ _ _ _ _ R Hl) as Hlen. rewrite size_dom in Hlen. lia. }
  apply wp_bind. apply (wp_move_all (c_curthread x) b lev {[wc_lock w]} _ (wc_threads w) (wakeall_list c) l [] L (with_tls h s)); try done; [lists|].
  intros h2 Rh2. rewrite with_tls_twice. apply wp_bind. apply (wp_wake_list _ _ (k_tls s) L x b lev w l); try done; [by destruct s|].
  intros s' hg' Lg' W R'. assert (W' : woken lbolt s L w [] s' Lg').
  { apply (woken_retls _ _ _ _ _ _ (k_tls s) hg'); [|done]. by destruct s. }
  destruct (wk_cur _ _ _ _ _ _ _ W' _ _ Hx) as (x' & Hx' & _).
  apply wp_in_tls. eapply wp_cleanup; [exact R'|apply (cok_lists _ _ _ _ (inv_cpus _ _ _ _ (wk_inv _ _ _ _ _ _ _ W') _ _ Hx'))|].
  by apply (HQ s' Lg').
Qed.

Lemma wp_timerclock s L x b lev l (Q : unit -> ksys -> Prop) E :
  kinv lbolt s L -> k_cpus s !! c = Some x -> i_threads (k_int s) !! c_curthread x = Some (IState b lev lev) ->
  (c_isidle x = true -> c_woken x = true) -> L !! wc_threads lbolt = Some l ->
  (forall s' L', woken lbolt s L lbolt [] s' L' -> Q tt s') -> wp (timerclock c lbolt) Q E s.
Proof.
  intros I Hx Hi Hwk Hl HQ. assert (Hc : curthread_is c (c_curthread x) s) by (by exists x).
  destruct (kinv_hold_istate _ _ _ _ _ _ _ I Hx Hi) as [Eh Hlev]. pose proof (inv_lbolt _ _ _ _ I) as Hw.
  destruct (inv_wchans _ _ _ _ I lbolt Hw) as [_ Hf]. rewrite Eh. unfold timerclock.
  apply wp_bind, wp_acq; [done|done|apply few0|set_solver|done|]. lock1. apply wp_bind. apply (wp_wakeall s L x b lev lbolt l); try done.
  intros s' L' W. apply wp_rel; [by eapply woken_cur|done|apply few1|set_solver|by rewrite (wk_int _ _ _ _ _ _ _ W)|]. lock1.
  rewrite <- (woken_hold s L lbolt [] s' L' x b lev W Hx Hi). by apply (HQ _ L').
Qed.

Lemma timer_stays s L s' L' : kinv lbolt s L -> woken lbolt s L lbolt [] s' L' -> stays lbolt s L s' L'.
Proof.
  intros I W. pose proof W as [W1 W2 W3 W4 W5 W6 W7 W8 W9 W10 W11]. split_and!; [done..| | |done].
  - intros Hs w' m l' Hm Hl' Hne. rewrite W5 in Hm. rewrite W6. destruct (inv_sems _ _ _ _ I _ _ Hm) as (_ & Hww & _). rewrite W4 in Hl' by done. by apply Hs.
  - intros d t b. by eapply woken_on_cpu.
Qed.
End wake.

(** ** Sleeping: [P] and [clocksleep] *)

(** The processor runs [me], outside the interrupt handlers. *)
Record runs (s : ksys) (c : Z) (x : cpu) (me : thread) (fs : list frame) : Prop := {
  run_cpu : k_cpus s !! c = Some x;
  run_busy : c_isidle x = false;
  run_thread : k_threads s !! c_curthread x = Some me;
  run_frames : t_frames me = fs;
  run_quiet : i_threads (k_int s) !! c_curthread x = Some (IState false IPL_NONE IPL_NONE)
}.

Section sleep.
Context `{DebugAsserts} (lbolt c : Z).

Lemma runs_hold s L x me fs : kinv lbolt s L -> runs s c x me fs -> s = hold c (c_curthread x) false IPL_NONE ∅ s.
Proof. intros I [Hx Hb Hme Hf Hi]. by apply (kinv_hold_istate _ _ _ _ _ _ _ I Hx Hi). Qed.

Definition framed (x : cpu) (me : thread) (fs : list frame) (s : ksys) : ksys := with_threads <[c_curthread x := set_frames fs me]> s.

(** A running thread calls or leaves a function that can sleep. *)
Lemma kinv_framed s L x me fs fs' :
  kinv lbolt s L -> runs s c x me fs' -> base fs' -> base fs -> (forall w, InP w ∈ fs -> is_Some (k_sems s !! w)) ->
  kinv lbolt (framed x me fs s) L /\ runs (framed x me fs s) c x (set_frames fs me) fs.
Proof.
  intros I R Hb0 Hb Hsem. pose proof (runs_hold _ _ _ _ _ I R) as Eh. destruct R as [Hx Hbusy Hme Hf Hi].
  pose proof (inv_cpus _ _ _ _ I _ _ Hx) as C. destruct (running_off _ _ _ _ _ _ I Hx Hbusy Hme) as (_ & Hrun & _). split.
  - assert (E : framed x me fs s = hold c (c_curthread x) false IPL_NONE ∅ (with_cpus <[c := x]> (with_threads <[c_curthread x := set_frames fs me]> s))).
    { rewrite with_cpus_same by done. unfold framed. rewrite Eh at 1. by rewrite hold_threads. }
    rewrite E. apply kinv_current; try done.
    + apply (cok_ipi _ _ _ _ C).
    + by apply (inv_wake _ _ _ _ I).
    + rewrite Hbusy. by constructor.
    + destruct (cok_cur _ _ _ _ C) as (th & i & Hth & _ & _ & Hm & _). simplify_eq. pose proof (migrating_base _ _ _ Hb0 Hm) as Hv.
      by destruct Hb as [-> |[[? ->]|[? ->]]].
    + intros w Hs. congruence.
  - split; try done. apply lookup_insert_eq.
Qed.

Lemma wp_hold_istate cur b lev K s (Q : istate -> ksys -> Prop) E :
  Q (IState b lev (lev + Z.of_nat (size K))) (hold c cur b lev K s) -> wp (zoom k_int with_int (load_istate cur)) Q E (hold c cur b lev K s).
Proof. intros HQ. apply wp_zoom. eapply wp_load_istate; [apply lookup_insert_eq|]. exact HQ. Qed.

Lemma wp_hold_icpu cur b lev K s (Q : icpu -> ksys -> Prop) E :
  (forall irq, Q (ICpu (Z.of_nat (size K)) irq) (hold c cur b lev K s)) -> wp (zoom k_int with_int (load_icpu c)) Q E (hold c cur b lev K s).
Proof. intros HQ. apply wp_zoom. eapply wp_load_icpu; [apply lookup_insert_eq|]. apply HQ. Qed.

(** [wchan_sleep], called with the lock of the channel. *)
Lemma wp_wchan_sleep s L x me fs w (Q : bool -> ksys -> Prop) E :
  kinv lbolt s L -> runs s c x me fs -> base fs -> is_Some (k_wchans s !! w) -> sleeps_on lbolt w fs -> (w <> lbolt -> k_sems s !! w = Some 0) ->
  (forall r s', outcome_of false lbolt c s L s' -> Q r s') ->
  wp (wchan_sleep c w) Q E (hold c (c_curthread x) false IPL_NONE {[wc_lock w]} s).
Proof.
  intros I R Hb Hw Hsl Hz HQ. pose proof R as [Hx Hbusy Hme Hf Hi]. assert (Hc : curthread_is c (c_curthread x) s) by (by exists x).
  destruct (inv_wchans _ _ _ _ I w Hw) as [_ Hfree]. unfold wchan_sleep. apply wp_bind, wp_curthread with (c_curthread x); [done|].
  apply wp_bind, wp_hold_istate, wp_bind, wp_kassert; [done|].
  apply wp_bind. apply wp_hold_p; [done..|]. rewrite bool_decide_eq_true_2 by set_solver. apply wp_bind, wp_kassert; [done|].
  apply wp_bind, wp_hold_icpu. intros irq. apply wp_bind, wp_kassert; [cbn [c_spinlocks]; by rewrite size_singleton|].
  apply (wp_thread_sleep lbolt c s L x me w); try done; [by rewrite Hf..|]. intros r s' Ho. apply HQ. by eapply outcome_weaken.
Qed.

Lemma wp_push s x me fs f (Q : unit -> ksys -> Prop) E cur b lev K :
  runs s c x me fs -> Q tt (hold c cur b lev K (framed x me (f :: fs) s)) -> wp (push_frame c f) Q E (hold c cur b lev K s).
Proof.
  intros [Hx Hbusy Hme Hf Hi] HQ. unfold push_frame. apply wp_bind, wp_curthread with (c_curthread x); [by exists x|].
  eapply wp_upd_thread; [exact Hme|]. rewrite Hf. exact HQ.
Qed.

Lemma wp_pop s x me f fs (Q : unit -> ksys -> Prop) E cur b lev K :
  runs s c x me (f :: fs) -> Q tt (hold c cur b lev K (framed x me fs s)) -> wp (pop_frame c) Q E (hold c cur b lev K s).
Proof.
  intros [Hx Hbusy Hme Hf Hi] HQ. unfold pop_frame. apply wp_bind, wp_curthread with (c_curthread x); [by exists x|].
  eapply wp_upd_thread; [exact Hme|]. rewrite Hf. exact HQ.
Qed.

(** ** [P] *)

Lemma wp_P_loop s L x me w n (Q : bool -> ksys -> Prop) E :
  kinv lbolt s L -> runs s c x me [] -> k_sems s !! w = Some n ->
  (0 < n -> Q false (with_sems <[w := n - 1]> s)) ->
  (n = 0 -> forall r s', outcome_of false lbolt c (framed x me [InP w] s) L s' -> Q r s') ->
  wp (P_loop c w) Q E (hold c (c_curthread x) false IPL_NONE {[wc_lock w]} s).
Proof.
  intros I R Hn HQ1 HQ2. pose proof R as [Hx Hbusy Hme Hf Hi]. destruct (inv_sems _ _ _ _ I _ _ Hn) as (Hw & Hwb & Hr). destruct (inv_wchans _ _ _ _ I w Hw) as [_ Hfree].
  assert (Hc : curthread_is c (c_curthread x) s) by (by exists x).
  unfold P_loop, load_sem, store_sem. apply wp_bind, wp_bind, wp_get. eapply wp_oob; [exact Hn|]. destruct (Z.eqb_spec n 0) as [->|Hne].
  - apply wp_bind. eapply wp_push; [exact R|]. assert (Hbase : base [InP w]) by (right; left; eauto).
    destruct (kinv_framed s L x me [InP w] [] I R (or_introl eq_refl) Hbase) as [I' R']. { intros w' E'. assert (w' = w) as -> by set_solver. by eexists. }
    apply (wp_wchan_sleep _ L x (set_frames [InP w] me) [InP w] w); try done; [|by apply HQ2]. exists []. by left.
  - apply wp_bind, wp_kassert; [apply Z.ltb_lt; lia|]. rewrite wrap_small by lia. apply wp_bind, wp_modify. rewrite hold_sems.
    apply wp_bind, wp_rel; [done|by left|apply few1|set_solver|done|]. lock1. apply wp_ret.
    rewrite <- hold_sems, <- (runs_hold s L x me [] I R). apply HQ1. lia.
Qed.

Lemma outcome_from s s1 L s' : outcome_of false lbolt c s1 L s' -> (sem_inv s L -> sem_inv s1 L) -> k_numcpus s1 = k_numcpus s -> outcome_of false lbolt c s L s'.
Proof. intros (L' & I & He & Hs & Hn) H1 H2. exists L'. split_and!; auto. congruence. Qed.

(** Frames and counts change together. *)
Lemma sem_inv_framed s L x me fs k :
  k_threads s !! c_curthread x = Some me ->
  (forall w n l, k_sems s !! w = Some n -> L !! wc_threads w = Some l -> l <> [] -> exists m, k !! w = Some m /\ m - n <= (if decide (InP w ∈ fs) then 1 else 0) - (if decide (InP w ∈ t_frames me) then 1 else 0)) ->
  (forall w, is_Some (k !! w) -> is_Some (k_sems s !! w)) ->
  sem_inv s L -> sem_inv (with_sems (fun _ => k) (framed x me fs s)) L.
Proof.
  intros Hme Hk Hd Hs w m l Hm Hl Hne. cbn [k_sems with_sems] in Hm. destruct (Hd w) as [n Hn]; [eauto|]. destruct (Hk w n l Hn Hl Hne) as (m' & Hm' & Hle). simplify_eq.
  specialize (Hs w n l Hn Hl Hne). change (k_threads (with_sems (fun _ => k) (framed x me fs s))) with (<[c_curthread x := set_frames fs me]> (k_threads s)).
  destruct (decide (InP w ∈ fs)) as [H1|H1], (decide (InP w ∈ t_frames me)) as [H2|H2].
  - rewrite (in_P_same _ _ me); [lia|done|]. cbn [t_frames set_frames]. tauto.
  - rewrite (in_P_enter _ _ me); [lia|done..].
  - rewrite (in_P_leave _ _ me); [lia|done..].
  - rewrite (in_P_same _ _ me); [lia|done|]. cbn [t_frames set_frames]. tauto.
Qed.

Lemma wp_P s L x me w n (Q : bool -> ksys -> Prop) E :
  kinv lbolt s L -> runs s c x me [] -> k_sems s !! w = Some n ->
  (0 < n -> outcome_of false lbolt c s L (with_sems <[w := n - 1]> s) -> Q false (with_sems <[w := n - 1]> s)) ->
  (n = 0 -> forall r s', outcome_of false lbolt c s L s' -> Q r s') -> wp (P c w) Q E s.
Proof.
  intros I R Hn HQ1 HQ2. pose proof R as [Hx Hbusy Hme Hf Hi]. destruct (inv_sems _ _ _ _ I _ _ Hn) as (Hw & Hwb & Hr). destruct (inv_wchans _ _ _ _ I w Hw) as [_ Hfree].
  assert (Hc : curthread_is c (c_curthread x) s) by (by exists x). rewrite (runs_hold s L x me [] I R). unfold P.
  apply wp_bind, wp_curthread with (c_curthread x); [done|]. apply wp_bind, wp_hold_istate, wp_bind, wp_kassert; [done|].
  apply wp_bind, wp_acq; [done|by left|apply few0|set_solver|done|]. lock1. apply (wp_P_loop s L x me w n); try done.
  - intros Hp. apply HQ1; [done|]. eapply stays_outcome. split_and!; [eapply kinv_count; [done..|lia]|intros; apply grows_refl| |done|done].
    intros Hs w' m l. cbn [k_sems with_sems]. intros [[<- <-]|[Hne Hm]]%lookup_insert_Some Hl Hnil; [specialize (Hs w n l Hn Hl Hnil); cbn [k_threads with_sems]; lia|by apply Hs].
  - intros -> r s' Ho. apply HQ2; [done|]. eapply outcome_from; [exact Ho| |done]. intros Hs.
    change (framed x me [InP w] s) with (with_sems (fun _ => k_sems s) (framed x me [InP w] s)). apply sem_inv_framed; try done.
    intros w' m l Hm _ _. exists m. split; [done|]. rewrite Hf. rewrite (decide_False (P := _ ∈ [])) by set_solver. destruct (decide _); lia.
Qed.

Lemma framed_back x me fs fs' s : t_frames me = fs -> k_threads s !! c_curthread x = Some me -> framed x (set_frames fs' me) fs (framed x me fs' s) = s.
Proof.
  intros Hf Hme. unfold framed. rewrite with_threads_twice. destruct me as [a b' c' d e f g]. cbn in Hf. subst g. unfold set_frames. cbn.
  unfold with_threads. rewrite insert_id by done. by destruct s.
Qed.

Lemma wp_P_resume s L x me w (Q : bool -> ksys -> Prop) E :
  kinv lbolt s L -> runs s c x me [InP w] -> (forall r s', outcome_of false lbolt c s L s' -> Q r s') -> wp (P_resume c w) Q E s.
Proof.
  intros I R HQ. pose proof R as [Hx Hbusy Hme Hf Hi]. destruct (tok_sems _ _ _ _ _ (inv_threads _ _ _ _ I _ _ Hme) w) as [n Hn]; [rewrite Hf; set_solver|].
  destruct (inv_sems _ _ _ _ I _ _ Hn) as (Hw & Hwb & Hr). destruct (inv_wchans _ _ _ _ I w Hw) as [_ Hfree].
  assert (Hbase : base [InP w]) by (right; left; eauto). destruct (kinv_framed s L x me [] [InP w] I R Hbase (or_introl eq_refl)) as [I' R']; [set_solver|].
  rewrite (runs_hold s L x me _ I R). unfold P_resume. apply wp_bind. eapply wp_pop; [exact R|].
  apply wp_bind, wp_acq; [by exists x|by left|apply few0|set_solver|done|]. lock1. apply (wp_P_loop _ L x (set_frames [] me) w n); try done.
  - intros Hp. apply HQ. eapply stays_outcome. split_and!; [eapply kinv_count; [done..|lia]|intros; apply grows_refl| |done|done].
    apply sem_inv_framed; try done.
    + intros w' m l Hm Hl Hnil. change (k_sems (framed x me [] s)) with (k_sems s). rewrite Hf, (decide_False (P := _ ∈ [])) by set_solver. destruct (decide (w' = w)) as [->|Hne].
      * exists (n - 1). rewrite lookup_insert_eq, decide_True by set_solver. simplify_eq. split; [done|lia].
      * exists m. rewrite lookup_insert_ne, decide_False by set_solver. split; [done|lia].
    + intros w' [m [[<- <-]|[Hne Hm]]%lookup_insert_Some]; eauto.
  - intros -> r s' Ho. apply HQ. by rewrite (framed_back x me [InP w]) in Ho.
Qed.

(** ** [clocksleep] *)

Lemma sem_inv_clock s L x me fs :
  k_threads s !! c_curthread x = Some me -> (forall w, InP w ∈ fs <-> InP w ∈ t_frames me) -> sem_inv s L -> sem_inv (framed x me fs s) L.
Proof. intros Hme Hf. apply neutral_inv; [done|]. intros w _. split_and!; [done..|]. apply (in_P_same _ _ me); [exact Hme|]. apply Hf. Qed.

Lemma wp_clocksleep_loop s L x me n (Q : bool -> ksys -> Prop) E :
  kinv lbolt s L -> runs s c x me [] -> (n <= 0 -> Q false s) -> (forall r s', outcome_of false lbolt c s L s' -> Q r s') ->
  wp (clocksleep_loop c lbolt n) Q E (hold c (c_curthread x) false IPL_NONE {[wc_lock lbolt]} s).
Proof.
  intros I R HQ1 HQ2. pose proof R as [Hx Hbusy Hme Hf Hi]. pose proof (inv_lbolt _ _ _ _ I) as Hw. destruct (inv_wchans _ _ _ _ I _ Hw) as [_ Hfree].
  unfold clocksleep_loop. destruct (Z.ltb_spec 0 n) as [Hp|Hp].
  - apply wp_bind. eapply wp_push; [exact R|]. assert (Hbase : base [InClocksleep n]) by (right; right; eauto).
    destruct (kinv_framed s L x me [InClocksleep n] [] I R (or_introl eq_refl) Hbase) as [I' R']; [set_solver|].
    apply (wp_wchan_sleep _ L x (set_frames [InClocksleep n] me) [InClocksleep n] lbolt); try done; [exists []; right; eauto|].
    intros r s' Ho. apply HQ2. eapply outcome_from; [exact Ho| |done]. apply sem_inv_clock; [done|]. rewrite Hf. set_solver.
  - apply wp_bind, wp_rel; [by exists x|by left|apply few1|set_solver|done|]. lock1. apply wp_ret. rewrite <- (runs_hold s L x me [] I R). by apply HQ1.
Qed.

Lemma wp_clocksleep s L x me n (Q : bool -> ksys -> Prop) E :
  kinv lbolt s L -> runs s c x me [] -> (forall r s', outcome_of false lbolt c s L s' -> Q r s') -> wp (clocksleep c lbolt n) Q E s.
Proof.
  intros I R HQ. pose proof R as [Hx Hbusy Hme Hf Hi]. destruct (inv_wchans _ _ _ _ I _ (inv_lbolt _ _ _ _ I)) as [_ Hfree].
  rewrite (runs_hold s L x me [] I R). unfold clocksleep. apply wp_bind, wp_acq; [by exists x|by left|apply few0|set_solver|done|]. lock1.
  apply (wp_clocksleep_loop s L x me n); try done. intros _. apply HQ. by eapply stays_outcome, stays_refl.
Qed.

Lemma wp_clocksleep_resume s L x me n (Q : bool -> ksys -> Prop) E :
  kinv lbolt s L -> runs s c x me [InClocksleep n] -> (forall r s', outcome_of false lbolt c s L s' -> Q r s') -> wp (clocksleep_resume c lbolt n) Q E s.
Proof.
  intros I R HQ. pose proof R as [Hx Hbusy Hme Hf Hi]. destruct (inv_wchans _ _ _ _ I _ (inv_lbolt _ _ _ _ I)) as [_ Hfree].
  assert (Hbase : base [InClocksleep n]) by (right; right; eauto). destruct (kinv_framed s L x me [] [InClocksleep n] I R Hbase (or_introl eq_refl)) as [I' R']; [set_solver|].
  rewrite (runs_hold s L x me _ I R). unfold clocksleep_resume. apply wp_bind. eapply wp_pop; [exact R|].
  apply wp_bind, wp_acq; [by exists x|by left|apply few0|set_solver|done|]. lock1.
  assert (Hsem : sem_inv s L -> sem_inv (framed x me [] s) L) by (apply sem_inv_clock; [done|]; rewrite Hf; set_solver).
  apply (wp_clocksleep_loop _ L x (set_frames [] me)); try done.
  - intros _. apply HQ. eapply outcome_from; [by eapply stays_outcome, stays_refl|done..].
  - intros r s' Ho. apply HQ. by eapply outcome_from.
Qed.
End sleep.

(** ** The interrupt handlers, as a whole *)

Section events.
Context `{DebugAsserts} (lbolt c : Z).

(** The processor can take an interrupt. *)
Definition interruptible (s : ksys) (x : cpu) : Prop :=
  k_cpus s !! c = Some x /\ exists lev, i_threads (k_int s) !! c_curthread x = Some (IState false lev lev).

Definition in_irq (x : cpu) : cpu := if c_isidle x then set_woken true x else x.

Lemma in_irq_cur x : c_curthread (in_irq x) = c_curthread x /\ c_isidle (in_irq x) = c_isidle x /\ (c_isidle (in_irq x) = true -> c_woken (in_irq x) = true).
Proof. unfold in_irq. by destruct (c_isidle x) eqn:E; rewrite ?E. Qed.

(** The state in an interrupt handler. *)
Record handling (s : ksys) (L : gmap Z (list Z)) (x : cpu) (s1 : ksys) (L1 : gmap Z (list Z)) : Prop := {
  hd_stays : stays lbolt s L s1 L1;
  hd_cpu : exists x1, k_cpus s1 !! c = Some x1 /\ c_curthread x1 = c_curthread x /\ c_isidle x1 = c_isidle x /\ (c_isidle x1 = true -> c_woken x1 = true);
  hd_int : i_threads (k_int s1) !! c_curthread x = Some (IState true IPL_HIGH IPL_HIGH);
  hd_frames : exists me adj fs, k_threads s1 !! c_curthread x = Some me /\ t_frames me = InIrq adj false :: fs
}.

Lemma wp_handler (body : M ksys unit) s L x (Q : unit -> ksys -> Prop) E :
  kinv lbolt s L -> interruptible s x ->
  (forall s1, handling s L x s1 L -> k_sems s1 = k_sems s -> k_cpus s1 !! c = Some (in_irq x) -> wp body Q E s1) ->
  wp (irq_enter c ;; body) Q E s.
Proof.
  intros I [Hx [lev Hi]] HQ. destruct (kinv_cur _ _ _ _ I _ _ Hx) as (me & _ & _ & Hme & _). apply wp_bind. eapply wp_irq_enter; try done.
  intros Hs. apply HQ; [|done|apply lookup_insert_eq]. split; [done| | |].
  - exists (in_irq x). split; [apply lookup_insert_eq|apply in_irq_cur].
  - apply hold_istate.
  - exists (set_frames (InIrq (negb (c_isidle x)) false :: t_frames me) me), (negb (c_isidle x)), (t_frames me). split; [apply lookup_insert_eq|done].
Qed.

Lemma wp_handler_end s L x s1 L1 (Q : unit -> ksys -> Prop) E :
  handling s L x s1 L1 -> (forall s', stays lbolt s L s' L1 -> Q tt s') -> wp (irq_exit c) Q E s1.
Proof.
  intros [Hst (x1 & Hx1 & Ec & _) _ (me & adj & fs & Hme & Hf)] HQ. pose proof Hst as (I1 & _). rewrite <- Ec in Hme. eapply wp_irq_exit; try done.
  intros Hs. apply HQ. by eapply stays_trans.
Qed.

Lemma handling_woken s L x s1 L1 w l s2 L2 s0 :
  handling s L x s1 L1 -> k_cpus s0 = k_cpus s1 -> k_threads s0 = k_threads s1 -> k_int s0 = k_int s1 -> woken lbolt s0 L1 w l s2 L2 -> stays lbolt s1 L1 s2 L2 -> handling s L x s2 L2.
Proof.
  intros [Hst (x1 & Hx1 & Ec & Ei & Ew) Hi (me & adj & fs & Hme & Hf)] E1 E2 E3 [W1 W2 W3 W4 W5 W6 W7 W8 W9 W10 W11] Hs.
  rewrite E1 in W8. rewrite E2 in W11. rewrite E3 in W7. split.
  - by eapply stays_trans.
  - destruct (W8 _ _ Hx1) as (x2 & Hx2 & ? & Ei2 & Ew2). exists x2. rewrite Ei2, Ew2. split_and!; try done; congruence.
  - by rewrite W7.
  - destruct (W11 _ _ Hme) as (me' & ? & ?). exists me', adj, fs. split; congruence.
Qed.

Lemma wp_irq_V s L x w n (Q : unit -> ksys -> Prop) E :
  kinv lbolt s L -> interruptible s x -> k_sems s !! w = Some n -> n + 1 < 2 ^ 32 ->
  (forall s', outcome_of false lbolt c s L s' -> Q tt s') -> wp (irq_V c w) Q E s.
Proof.
  intros I Hint Hn Hlt HQ. apply (wp_handler _ s L x); [done..|]. intros s1 Hd Es _. pose proof Hd as [(I1 & _) (x1 & Hx1 & Ec & Ei & Ew) Hi _].
  rewrite <- Es in Hn. destruct (inv_sems _ _ _ _ I1 _ _ Hn) as (Hw & _). destruct (inv_wchans _ _ _ _ I1 _ Hw) as [[l Hl] _].
  apply wp_bind. rewrite <- Ec in Hi. apply (wp_V lbolt c s1 L x1 true IPL_HIGH w n l); try done.
  intros s2 L2 W. eapply wp_handler_end; [eapply (handling_woken _ _ _ s1 L); [exact Hd| | | |exact W|]; try done; by eapply V_stays|].
  intros s' Hs. apply HQ. by eapply stays_outcome.
Qed.

Lemma wp_irq_timerclock s L x (Q : unit -> ksys -> Prop) E :
  kinv lbolt s L -> interruptible s x -> (forall s', outcome_of false lbolt c s L s' -> Q tt s') -> wp (irq_timerclock c lbolt) Q E s.
Proof.
  intros I Hint HQ. apply (wp_handler _ s L x); [done..|]. intros s1 Hd Es _. pose proof Hd as [(I1 & _) (x1 & Hx1 & Ec & Ei & Ew) Hi _].
  destruct (inv_wchans _ _ _ _ I1 _ (inv_lbolt _ _ _ _ I1)) as [[l Hl] _].
  apply wp_bind. rewrite <- Ec in Hi. apply (wp_timerclock lbolt c s1 L x1 true IPL_HIGH l); try done.
  intros s2 L2 W. eapply wp_handler_end; [eapply (handling_woken _ _ _ s1 L); [exact Hd| | | |exact W|]; try done; by eapply timer_stays|].
  intros s' Hs. apply HQ. by eapply stays_outcome.
Qed.

(** ** Fields of the processor *)

Lemma kinv_cpu ex s L x x' :
  kinv lbolt s L -> k_cpus s !! c = Some x -> c_curthread x' = c_curthread x -> c_isidle x' = c_isidle x -> c_ipi_pending x' = 0 \/ c_ipi_pending x' = 4 ->
  (forall i, i_threads (k_int s) !! c_curthread x = Some i -> t_in_interrupt i = true -> c_isidle x = true -> c_woken x' = true) ->
  (ex <> Some c -> wake_ok L c x') -> kinv_but lbolt ex (with_cpus <[c := x']> s) L.
Proof.
  intros I Hx Hc Hi Hp Hwk Hw. pose proof (inv_cpus _ _ _ _ I _ _ Hx) as [C1 C2 C3 C4 C5 C6].
  apply (kinv_local lbolt s _ L L ∅ c x x' None ex); try done.
  - by left.
  - by left.
  - apply (inv_rep _ _ _ _ I).
  - split; try done; rewrite ?Hc, ?Hi; done.
  - intros w n Hn. split; [by eexists|]. by destruct (inv_sems _ _ _ _ I _ _ Hn) as (_ & _ & ?).
  - intros p n Hn. split; [by eexists|]. by destruct (inv_procs _ _ _ _ I _ _ Hn).
Qed.

Lemma stays_cpu s L x x' :
  kinv lbolt s L -> k_cpus s !! c = Some x -> c_curthread x' = c_curthread x -> c_isidle x' = c_isidle x -> c_ipi_pending x' = 0 \/ c_ipi_pending x' = 4 ->
  (forall i, i_threads (k_int s) !! c_curthread x = Some i -> t_in_interrupt i = true -> c_isidle x = true -> c_woken x' = true) ->
  wake_ok L c x' -> stays lbolt s L (with_cpus <[c := x']> s) L.
Proof.
  intros I Hx Hc Hi Hp Hwk Hw. split_and!; [by eapply kinv_cpu|intros; apply grows_refl|done| |done].
  intros d t b (y & Hy & Ht & Hb). destruct (decide (d = c)) as [->|Hne].
  - exists x'. split; [apply lookup_insert_eq|]. rewrite Hc, Hi. split; congruence.
  - exists y. split; [|done]. cbn [k_cpus with_cpus]. by rewrite lookup_insert_ne.
Qed.

Lemma handling_cpu s L x s1 L1 x1 x2 :
  handling s L x s1 L1 -> k_cpus s1 !! c = Some x1 -> c_curthread x2 = c_curthread x1 -> c_isidle x2 = c_isidle x1 -> c_woken x2 = c_woken x1 ->
  c_ipi_pending x2 = 0 \/ c_ipi_pending x2 = 4 -> handling s L x (with_cpus <[c := x2]> s1) L1.
Proof.
  intros [Hst (y & Hy & Ec & Ei & Ew) Hi Hf] Hx1 E1 E2 E3 Hp. simplify_eq. split; [|exists x2|done|done].
  - eapply stays_trans; [exact Hst|]. apply (stays_cpu s1 L1 y x2); try done; [apply Hst|intros; rewrite E3; auto|].
    intros Hid _. right. rewrite E3. apply Ew. congruence.
  - split; [apply lookup_insert_eq|]. rewrite E2, E3. split_and!; try done. congruence.
Qed.

Lemma wp_irq_ipi s L x (Q : unit -> ksys -> Prop) E :
  kinv lbolt s L -> interruptible s x -> (forall s', outcome_of false lbolt c s L s' -> Q tt s') -> wp (irq_ipi c) Q E s.
Proof.
  intros I Hint HQ. apply (wp_handler _ s L x); [done..|]. intros s1 Hd _ Hcx. pose proof Hd as [(I1 & _) (x1 & Hx1 & Ec & Ei & Ew) Hi _].
  pose proof (inv_cpus _ _ _ _ I1 _ _ Hx1) as C. pose proof (cok_ipi _ _ _ _ C) as Hp. destruct (cok_locks _ _ _ _ C) as [_ Hlk].
  pose proof (handling_cpu _ _ _ _ _ x1 (set_ipi 0 false x1) Hd Hx1 eq_refl eq_refl eq_refl (or_introl eq_refl)) as Hd2.
  apply wp_bind. unfold interprocessor_interrupt. apply wp_bind. eapply wp_upd_cpu; [exact Hx1|].
  rewrite <- Ec in Hi. destruct (kinv_hold_istate _ _ _ _ _ _ _ I1 Hx1 Hi) as [Eh _]. rewrite Eh, hold_cpus.
  assert (Hc : forall y, c_curthread y = c_curthread x1 -> curthread_is c (c_curthread x1) (with_cpus <[c := y]> s1)).
  { intros y Hy. exists y. split; [apply lookup_insert_eq|done]. }
  apply wp_bind, wp_acq; [by apply Hc|by right|apply few0|set_solver|done|]. lock1. apply wp_bind. eapply wp_load_cpu; [apply lookup_insert_eq|]. cbn [c_ipi_pending set_ipi].
  assert (Eb : Z.testbit (c_ipi_pending x1) IPI_PANIC || Z.testbit (c_ipi_pending x1) IPI_OFFLINE = false) by (by destruct Hp as [-> | ->]). rewrite Eb.
  assert (Et : Z.testbit (c_ipi_pending x1) IPI_TLBSHOOTDOWN = false) by (by destruct Hp as [-> | ->]). rewrite Et. cbn [when].
  apply wp_bind, wp_ret. apply wp_bind. eapply wp_upd_cpu; [apply lookup_insert_eq|]. rewrite hold_cpus, with_cpus_twice.
  apply wp_rel; [by apply Hc|by right|apply few1|set_solver|done|]. lock1. rewrite <- hold_cpus, <- Eh.
  eapply wp_handler_end; [exact Hd2|]. intros s' Hs. apply HQ. by eapply stays_outcome.
Qed.

(** ** The hardware clock *)

Lemma wp_yield_return s L x s1 L1 (Q : unit -> ksys -> Prop) E :
  kinv lbolt s L -> k_cpus s !! c = Some x -> handling s L x s1 L1 -> (forall s', outcome_of (negb (c_isidle x)) lbolt c s L s' -> Q tt s') -> wp (returning c (thread_yield c)) Q E s1.
Proof.
  intros I Hx [Hst (x1 & Hx1 & Ec & Ei & Ew) Hi (me & adj & fs & Hme & Hf)] HQ. pose proof Hst as (I1 & _). rewrite <- Ec in Hi, Hme.
  assert (Hl : is_Some (L !! c_runqueue c)) by apply (cok_lists _ _ _ _ (inv_cpus _ _ _ _ I _ _ Hx)).
  apply (wp_returning lbolt c (negb (c_isidle x)) _ s1 L1); [eauto|done| |].
  - apply (wp_thread_yield lbolt c s1 L1 x1 me true IPL_HIGH); try done; [congruence| |].
    + rewrite Ei. intros ->. by eapply stays_outcome, stays_refl.
    + rewrite Ei. intros s' ->. done.
  - intros s' Ho. apply HQ. by eapply stays_then.
Qed.

Lemma handling_frames s L x s1 L1 me fs :
  handling s L x s1 L1 -> k_threads s1 !! c_curthread x = Some me -> t_frames me = fs ->
  exists adj fs', fs = InIrq adj false :: fs' /\ base fs' /\ L1 !! victims c = Some [].
Proof.
  intros [Hst (x1 & Hx1 & Ec & Ei & Ew) Hi (me' & adj & fs' & Hme' & Hf')] Hme Hf. simplify_eq. exists adj, fs'. pose proof Hst as (I1 & _). split; [done|].
  destruct (kinv_cur _ _ _ _ I1 _ _ Hx1) as (th & b & lev & Hth & _ & _ & _ & Hs & _). rewrite Ec in Hth. simplify_eq. rewrite Hf' in Hs.
  destruct (shape_irq _ _ _ _ _ _ _ Hs) as (_ & _ & Hb & _). split; [done|].
  destruct (cok_cur _ _ _ _ (inv_cpus _ _ _ _ I1 _ _ Hx1)) as (th & i & Hth2 & _ & _ & Hm & _). rewrite Ec in Hth2. simplify_eq. by rewrite Hf' in Hm.
Qed.

(** The shape of a thread that migrates others. *)
Lemma shape_migrate (idle : bool) d ctx adj old fs x m :
  shape (if idle then RIdle else RRun) d ctx (InIrq adj old :: fs) x -> shape (if idle then RIdle else RRun) d ctx (InMigrate m :: InIrq adj old :: fs) x.
Proof. intros Hs. destruct idle; inversion Hs; subst; try (by constructor); by match goal with H : base (InIrq _ _ :: _) |- _ => destruct H as [|[[]|[]]] end. Qed.

Definition migrates (s1 : ksys) (x : cpu) (me : thread) (m : migration) : ksys := with_threads <[c_curthread x := set_frames (InMigrate m :: t_frames me) me]> s1.

Lemma stays_migrates s L x s1 L1 me m :
  handling s L x s1 L1 -> k_threads s1 !! c_curthread x = Some me -> migration_ok L1 c m -> stays lbolt s1 L1 (migrates s1 x me m) L1.
Proof.
  intros Hd Hme Hm. destruct (handling_frames _ _ _ _ _ _ _ Hd Hme eq_refl) as (adj & fs & Hf & Hb & Hv). pose proof Hd as [Hst (x1 & Hx1 & Ec & Ei & Ew) Hi _]. pose proof Hst as (I1 & _).
  rewrite <- Ec in Hi, Hme. destruct (kinv_hold_istate _ _ _ _ _ _ _ I1 Hx1 Hi) as [Eh _]. pose proof (inv_cpus _ _ _ _ I1 _ _ Hx1) as C.
  destruct (kinv_cur _ _ _ _ I1 _ _ Hx1) as (th & b & lev & Hth & _ & _ & Hi' & Hs & _). rewrite Hi in Hi'. simplify_eq. rewrite Hf in Hs.
  assert (E : migrates s1 x me m = hold c (c_curthread x1) true IPL_HIGH ∅ (with_cpus <[c := x1]> (with_threads <[c_curthread x1 := set_frames (InMigrate m :: t_frames me) me]> s1))).
  { rewrite with_cpus_same by done. unfold migrates. rewrite <- Ec. rewrite Eh at 1. by rewrite hold_threads. }
  rewrite E. apply stays_current; try done.
  - apply (cok_ipi _ _ _ _ C).
  - by apply (inv_wake _ _ _ _ I1).
  - rewrite Hf. by apply shape_migrate.
  - intros w Hw. apply (tok_sems _ _ _ _ _ (inv_threads _ _ _ _ I1 _ _ Hme)). set_solver.
  - intros w _ (pre & Hpre). exists (InMigrate m :: pre). destruct Hpre as [-> |(n & -> & ->)]; [by left | by right; exists n].
  - set_solver.
Qed.

(** The clock interrupts in which the processor considers migration. *)
Definition migration_tick (x : cpu) : bool := u32 (c_hardclocks x + 1) mod MIGRATE_HARDCLOCKS =? 0.

Lemma wp_irq_hardclock s L x (Q : unit -> ksys -> Prop) E :
  kinv lbolt s L -> interruptible s x -> (forall s', outcome_of (negb (c_isidle x) && negb (migration_tick x)) lbolt c s L s' -> Q tt s') -> wp (irq_hardclock c) Q E s.
Proof.
  intros I Hint HQ. pose proof Hint as [Hx _]. apply (wp_handler _ s L x); [done..|]. intros s1 Hd _ Hcx. pose proof Hd as [(I1 & _) (x1 & Hx1 & Ec & Ei & Ew) Hi _].
  pose proof (handling_cpu _ _ _ _ _ x1 (set_hardclocks (u32 (c_hardclocks x1 + 1)) x1) Hd Hx1 eq_refl eq_refl eq_refl (cok_ipi _ _ _ _ (inv_cpus _ _ _ _ I1 _ _ Hx1))) as Hd2.
  unfold hardclock. apply wp_bind. eapply wp_upd_cpu; [exact Hx1|]. apply wp_bind. eapply wp_load_cpu; [apply lookup_insert_eq|].
  assert (Et : (c_hardclocks (set_hardclocks (u32 (c_hardclocks x1 + 1)) x1) mod MIGRATE_HARDCLOCKS =? 0) = migration_tick x).
  { rewrite Hcx in Hx1. simplify_eq. unfold migration_tick, in_irq. by destruct (c_isidle x). }
  rewrite Et. destruct (migration_tick x).
  - pose proof Hd2 as [(I2 & _) (x2 & Hx2 & Ec2 & _) _ (me & adj & fs & Hme & Hf)]. unfold push_frame. apply wp_bind, wp_curthread with (c_curthread x); [by exists x2|].
    eapply wp_upd_thread; [exact Hme|]. apply HQ. rewrite andb_false_r. eapply stays_outcome, stays_trans; [apply Hd2|]. apply (stays_migrates s L x _ L me); try done.
    destruct (handling_frames _ _ _ _ _ _ _ Hd2 Hme eq_refl) as (_ & _ & _ & _ & Hv). destruct (cok_lists _ _ _ _ (inv_cpus _ _ _ _ I2 _ _ Hx2)) as ([l Hl] & _).
    split_and!; try done. exists l. split; [done|lia].
  - apply (wp_yield_return s L x _ L); try done. rewrite andb_true_r in HQ. exact HQ.
Qed.

(** ** Leaving [cpu_idle] *)

Lemma wp_idle_wakeup s L x (Q : bool -> ksys -> Prop) E :
  kinv lbolt s L -> k_cpus s !! c = Some x -> c_isidle x = true -> i_threads (k_int s) !! c_curthread x = Some (IState false IPL_HIGH 1) ->
  (forall r s', outcome_of true lbolt c s L s' -> Q r s') -> wp (idle_wakeup c) Q E s.
Proof.
  intros I Hx Hid Hi HQ. pose proof (inv_cpus _ _ _ _ I _ _ Hx) as C. destruct (cok_locks _ _ _ _ C) as [Hlk _]. destruct (kinv_hold_istate _ _ _ _ _ _ _ I Hx Hi) as [Eh _].
  unfold idle_wakeup. apply wp_bind. eapply wp_upd_cpu; [exact Hx|]. rewrite Eh, hold_cpus.
  apply wp_bind, wp_acq; [exists (set_woken false x); split; [apply lookup_insert_eq|done]|by right|apply few0|set_solver|done|]. lock1.
  change (c_curthread x) with (c_curthread (set_woken false x)).
  apply (wp_pick_outcome lbolt c s _ L L (set_woken false x)); try done.
  - apply (kinv_cpu (Some c) s L x); try done; [apply (cok_ipi _ _ _ _ C)|]. intros i Hi' Hin. rewrite Hi in Hi'. by simplify_eq.
  - apply lookup_insert_eq.
Qed.
End events.
