(* ===== verification/KThreadMigrate.v ===== *)
(** * Migration

    A processor in [thread_consider_migration] keeps some threads on its list
    of victims.  The code that runs does not look at the frame that records
    how far it is; the invariant is that of the state [migrates s x me m] in
    which the frame is back on the stack. *)

From S2P Require Import Prelude Threadlist Spl KThread KThreadInv KThreadOps KThreadSwitch KThreadBlocks KThreadIrq.
From S2P Require Import KThreadWake.

Section migrate.
Context `{DebugAsserts} (lbolt c : Z).

Record migr (s : ksys) (L : gmap Z (list Z)) (x : cpu) (me : thread) (m : migration) : Prop := {
  mg_inv : kinv lbolt (migrates s x me m) L;
  mg_cpu : k_cpus s !! c = Some x;
  mg_thread : k_threads s !! c_curthread x = Some me
}.

Lemma mg_at s L x me m : migr s L x me m -> k_threads (migrates s x me m) !! c_curthread x = Some (set_frames (InMigrate m :: t_frames me) me).
Proof. intros _. apply lookup_insert_eq. Qed.

(** What the invariant says of the processor. *)
Lemma mg_shape s L x me m :
  migr s L x me m ->
  exists adj fs, t_frames me = InIrq adj false :: fs /\ base fs /\ i_threads (k_int s) !! c_curthread x = Some (IState true IPL_HIGH IPL_HIGH) /\
    shape (if c_isidle x then RIdle else RRun) (bool_decide (t_state me = S_ZOMBIE)) (t_context me) (InIrq adj false :: fs) (IState true IPL_HIGH IPL_HIGH).
Proof.
  intros [I Hx Hme]. destruct (kinv_cur _ _ _ _ I _ _ Hx) as (th & b & lev & Hth & _ & _ & Hi & Hs & _).
  cbn [k_threads migrates with_threads] in Hth. rewrite lookup_insert_eq in Hth. injection Hth as <-. cbn [t_frames t_state t_context set_frames] in Hs.
  destruct (c_isidle x); inversion Hs; subst; try (match goal with H : base (InMigrate _ :: _) |- _ => by destruct H as [|[[]|[]]] end);
    (eexists _, _; split_and!; [reflexivity|(done || by left)|exact Hi|by constructor]).
Qed.

Lemma mg_hold s L x me m : migr s L x me m -> s = hold c (c_curthread x) true IPL_HIGH ∅ s.
Proof.
  intros M. destruct (mg_shape _ _ _ _ _ M) as (_ & _ & _ & _ & Hi & _). destruct M as [I Hx Hme].
  destruct (kinv_hold_istate lbolt c (migrates s x me m) L x true IPL_HIGH I Hx Hi) as [E _].
  apply (f_equal k_int) in E. unfold hold. change (mid (k_int s) c (c_curthread x) true IPL_HIGH ∅) with (k_int (hold c (c_curthread x) true IPL_HIGH ∅ (migrates s x me m))).
  rewrite <- E. by destruct s.
Qed.

Lemma mg_woken s L x me m : migr s L x me m -> c_isidle x = true -> c_woken x = true.
Proof.
  intros M. destruct (mg_shape _ _ _ _ _ M) as (_ & _ & _ & _ & Hi & _). destruct M as [I Hx Hme]. by apply (cok_woken _ _ _ _ (inv_cpus _ _ _ _ I _ _ Hx) _ Hi).
Qed.

(** From one point of the migration code to another. *)
Lemma mg_goto s L x me m m' : migr s L x me m -> migration_ok L c m' -> migr s L x me m'.
Proof.
  intros M Hm. pose proof (mg_shape _ _ _ _ _ M) as (adj & fs & Hf & Hb & Hi & Hs). pose proof M as [I Hx Hme]. pose proof (inv_cpus _ _ _ _ I _ _ Hx) as C. split; [|done..].
  assert (E : migrates s x me m' = hold c (c_curthread x) true IPL_HIGH ∅ (with_cpus <[c := x]> (with_threads <[c_curthread x := set_frames (InMigrate m' :: t_frames me) (set_frames (InMigrate m :: t_frames me) me)]> (migrates s x me m)))).
  { rewrite with_cpus_same by done. unfold migrates. rewrite with_threads_twice, <- hold_threads, <- (mg_hold _ _ _ _ _ M). done. }
  rewrite E. apply kinv_current; try done.
  - apply lookup_insert_eq.
  - apply (cok_ipi _ _ _ _ C).
  - by apply (inv_wake _ _ _ _ I).
  - intros _. by eapply mg_woken.
  - rewrite Hf. cbn [t_state t_context set_frames]. by apply shape_migrate.
  - intros w Hw. apply (tok_sems _ _ _ _ _ (inv_threads _ _ _ _ I _ _ (mg_at _ _ _ _ _ M))). cbn [t_frames set_frames]. set_solver.
  - intros w _ (pre & Hpre). destruct pre as [|g pre]; [by destruct Hpre as [[=]|(n & [=] & _)]|]. exists (InMigrate m' :: pre).
    destruct Hpre as [[= _ ->]|(n & [= _ ->] & ->)]; [by left | by right; exists n].
Qed.

(** The end of the migration code. *)
Lemma mg_done s L x me m : migr s L x me m -> L !! victims c = Some [] -> kinv lbolt s L.
Proof.
  intros M Hv. pose proof (mg_shape _ _ _ _ _ M) as (adj & fs & Hf & Hb & Hi & Hs). pose proof M as [I Hx Hme]. pose proof (inv_cpus _ _ _ _ I _ _ Hx) as C.
  assert (E : s = hold c (c_curthread x) true IPL_HIGH ∅ (with_cpus <[c := x]> (with_threads <[c_curthread x := set_frames (t_frames me) (set_frames (InMigrate m :: t_frames me) me)]> (migrates s x me m)))).
  { rewrite with_cpus_same by done. unfold migrates. rewrite with_threads_twice, <- hold_threads, <- (mg_hold _ _ _ _ _ M). unfold with_threads.
    assert (Em : set_frames (t_frames me) (set_frames (InMigrate m :: t_frames me) me) = me) by (by destruct me). rewrite Em, insert_id by done. by destruct s. }
  rewrite E. apply kinv_current; try done.
  - apply lookup_insert_eq.
  - apply (cok_ipi _ _ _ _ C).
  - by apply (inv_wake _ _ _ _ I).
  - intros _. by eapply mg_woken.
  - rewrite Hf. cbn [t_state t_context set_frames]. done.
  - by rewrite Hf.
  - intros w Hw. apply (tok_sems _ _ _ _ _ (inv_threads _ _ _ _ I _ _ (mg_at _ _ _ _ _ M))). cbn [t_frames set_frames]. set_solver.
  - intros w _ (pre & Hpre). destruct pre as [|g pre]; [by destruct Hpre as [[=]|(n & [=] & _)]|]. exists pre.
    destruct Hpre as [[= _ Hpre]|(n & [= _ Hpre] & ->)]; [by left | by right; exists n].
Qed.

(** ** Moving threads between the run queue and the victims *)

Lemma victims_ready s L t v :
  kinv lbolt s L -> L !! victims c = Some v -> t ∈ v ->
  exists th, k_threads s !! t = Some th /\ t_cpu th = Some c /\ t_state th = S_READY /\ thread_ok lbolt s L t th.
Proof.
  intros I Hl Ht. assert (Hon : on L (victims c) t) by (by exists v).
  destruct (kinv_listed _ _ _ _ I _ _ _ Hl Ht) as (th & Hth & T & Hst). exists th.
  destruct (tok_cpu _ _ _ _ _ T) as (c' & Hc' & _ & Hp). unfold state_place in Hp. destruct (t_state th); [done| | |].
  - assert (c' = c) as -> by (destruct Hp as [_ [Ho|Ho]]; pose proof (kinv_on_unique _ _ _ _ I _ _ _ Hon Ho); lists). done.
  - destruct Hp as [_ (w & Ho & _)]. pose proof (kinv_on_unique _ _ _ _ I _ _ _ Hon Ho). lists.
  - destruct Hp as [_ [Ho _]]. pose proof (kinv_on_unique _ _ _ _ I _ _ _ Hon Ho). lists.
Qed.

Lemma mg_shuffle s L x me l v l' v' h :
  migr s L x me MPutback -> L !! c_runqueue c = Some l -> L !! victims c = Some v ->
  (forall t, t ∈ l' \/ t ∈ v' <-> t ∈ l \/ t ∈ v) ->
  tl_rep h (dom (k_threads s)) (<[victims c := v']> (<[c_runqueue c := l']> L)) ->
  migr (with_tls h s) (<[victims c := v']> (<[c_runqueue c := l']> L)) x me MPutback.
Proof.
  intros M Hl Hv Hsame R. pose proof (mg_woken _ _ _ _ _ M) as Hwk. pose proof M as [I Hx Hme]. split; [|done..].
  change (migrates (with_tls h s) x me MPutback) with (with_tls h (migrates s x me MPutback)). set (s0 := migrates s x me MPutback) in *. set (L' := <[victims c := v']> _) in *.
  assert (HL : forall id, id <> victims c -> id <> c_runqueue c -> L' !! id = L !! id) by (intros; unfold L'; by rewrite !lookup_insert_ne).
  assert (Hready : forall t, t ∈ l \/ t ∈ v -> exists th, k_threads s0 !! t = Some th /\ t_cpu th = Some c /\ t_state th = S_READY /\ thread_ok lbolt s0 L t th).
  { intros t [Ht|Ht]; [by eapply queued_ready | by eapply victims_ready]. }
  pose proof (inv_cpus _ _ _ _ I _ _ Hx) as [C1 C2 C3 C4 C5 C6].
  assert (Hrq : L' !! c_runqueue c = Some l') by (unfold L'; rewrite lookup_insert_ne by lists; apply lookup_insert_eq).
  assert (Hvi : L' !! victims c = Some v') by (unfold L'; apply lookup_insert_eq).
  apply (kinv_local lbolt s0 _ L L' (list_to_set (l ++ v)) c x x None None); try done.
  - by left.
  - cbn [k_cpus with_tls]. by rewrite insert_id.
  - by left.
  - cbn [k_tls k_threads with_tls]. unfold s0, migrates. cbn [k_threads with_threads]. rewrite dom_insert_lookup_L by eauto. exact R.
  - intros t Ht. split_and!; [done..|]. intros id. unfold L'. rewrite !on_insert. unfold on.
    assert (Hn : ~ (t ∈ l \/ t ∈ v)) by set_solver. assert (Hn' : ~ (t ∈ l' \/ t ∈ v')) by (by rewrite Hsame).
    destruct (decide (id = victims c)) as [->|H1]; [rewrite Hv; naive_solver|]. destruct (decide (id = c_runqueue c)) as [->|H2]; [rewrite Hl; naive_solver|]. naive_solver.
  - intros t th Ht Hth. destruct (Hready t) as (th' & Hth' & ? & _); [set_solver|]. congruence.
  - intros t th Ht Hth. assert (Ht' : t ∈ l \/ t ∈ v) by set_solver. destruct (Hready t Ht') as (th' & Hth' & Hct & Hst & T). cbn [k_threads with_tls] in Hth. rewrite Hth in Hth'. simplify_eq.
    destruct T as [T1 T2 T3 T4 T5]. split; try done. destruct T2 as (d & Hd & Hxd & Hp). assert (d = c) as -> by congruence. exists c. split_and!; try done.
    unfold state_place in Hp |- *. rewrite Hst in Hp |- *. destruct Hp as [Hp _]. split; [exact Hp|]. apply Hsame in Ht' as [Ht'|Ht']; [left; by exists l'|right; by exists v'].
  - split; try done.
    + destruct C2 as (th & i & Hth & Hc & Hid & Hm & Hi & Hic). exists th, i. split_and!; try done; try tauto.
      cbn [s0 migrates with_threads k_threads] in Hth. rewrite lookup_insert_eq in Hth. injection Hth as <-. cbn. by exists v'.
    + split_and!; [by rewrite Hrq|rewrite HL by lists; apply C3|rewrite HL by lists; apply C3].
  - intros _ Hid _. right. auto.
  - intros e He. rewrite !HL by lists. done.
  - intros w Hw. rewrite HL by lists. done.
  - intros w n Hn. split; [by eexists|]. by destruct (inv_sems _ _ _ _ I _ _ Hn) as (_ & _ & ?).
  - intros p n Hn. split; [by eexists|]. by destruct (inv_procs _ _ _ _ I _ _ Hn).
Qed.

(** ** Giving a thread to another processor *)

Definition given (i t : Z) (th : thread) (xi : cpu) (h : tlstore) (s : ksys) : ksys :=
  with_cpus <[i := notified c i xi]> (with_tls h (with_threads <[t := set_cpu (Some i) th]> s)).

Lemma kinv_give s L x me t th v i xi li h :
  kinv lbolt s L -> k_cpus s !! c = Some x -> k_threads s !! c_curthread x = Some me -> (exists fs, t_frames me = InMigrate MPutback :: fs) ->
  L !! victims c = Some (t :: v) -> L !! c_runqueue i = Some li -> i <> c -> k_cpus s !! i = Some xi -> t <> c_curthread x -> k_threads s !! t = Some th ->
  tl_rep h (dom (k_threads s)) (<[c_runqueue i := li ++ [t]]> (<[victims c := v]> L)) ->
  kinv lbolt (given i t th xi h s) (<[c_runqueue i := li ++ [t]]> (<[victims c := v]> L)).
Proof.
  intros I Hx Hme [fs Hf] Hv Hi Hic Hxi Hne Hth R. set (s' := given i t th xi h s). set (L' := <[c_runqueue i := _]> _) in *.
  destruct (victims_ready _ _ _ _ I Hv (list_elem_of_here _ _)) as (th0 & Hth0 & Hcpu & Hst & T). rewrite Hth in Hth0. injection Hth0 as <-.
  assert (Hcur : forall e y, k_cpus s !! e = Some y -> c_curthread y <> t).
  { intros e y Hy E. destruct (cok_cur _ _ _ _ (inv_cpus _ _ _ _ I _ _ Hy)) as (th1 & _ & Hth1 & He & _). simplify_eq. }
  assert (HL : forall id, id <> victims c -> id <> c_runqueue i -> L' !! id = L !! id) by (intros; unfold L'; by rewrite !lookup_insert_ne).
  assert (Hcpus : forall e y, k_cpus s' !! e = Some y -> exists y0, k_cpus s !! e = Some y0 /\ c_curthread y = c_curthread y0 /\ c_isidle y = c_isidle y0 /\ c_woken y = c_woken y0 /\
      ((e = i /\ y = notified c i y0) \/ (e <> i /\ y = y0))).
  { intros e y. change (k_cpus s') with (<[i := notified c i xi]> (k_cpus s)). intros [[<- <-]|[He Hy]]%lookup_insert_Some.
    - exists xi. unfold notified. destruct (_ && _); eauto 10.
    - exists y. eauto 10. }
  assert (Eth : k_threads s' = <[t := set_cpu (Some i) th]> (k_threads s)) by done.
  assert (HT : same_threads s s' L L' {[t]}).
  { intros u Hu. rewrite not_elem_of_singleton in Hu. rewrite Eth, lookup_insert_ne by done. split_and!; [done..|]. intros id. unfold L'.
    rewrite (on_same (<[victims c := v]> L) _ li) by (rewrite ?lookup_insert_ne by lists; set_solver). apply (on_same L _ (t :: v)); set_solver. }
  assert (HR : same_roles s s' {[t]}).
  { split.
    - intros e. change (k_cpus s') with (<[i := notified c i xi]> (k_cpus s)). rewrite lookup_insert_is_Some. destruct (decide (e = i)) as [->|]; naive_solver.
    - intros e y y' Hy Hy'. destruct (Hcpus e y' Hy') as (y0 & Hy0 & ? & ? & _). rewrite Hy in Hy0. simplify_eq. by left. }
  assert (Hsame : forall u thu, u <> t -> k_threads s !! u = Some thu -> same_current s s' u).
  { intros u thu Hu _. apply (untouched_current s s' L L' {[t]}); [done|]. set_solver. }
  apply (kinv_frame lbolt s s' L L' {[t]} None); try done.
  - rewrite Eth, dom_insert_lookup_L by eauto. exact R.
  - intros u thu ->%elem_of_singleton. rewrite Eth, lookup_insert_eq. intros [= <-]. destruct T as [T1 T2 T3 T4 T5].
    assert (Hr0 : role_of s t th = RWait) by (eapply role_wait; [exact Hx|done|by apply not_eq_sym]).
    assert (Hr : role_of s' t (set_cpu (Some i) th) = RWait).
    { eapply (role_wait s' i (notified c i xi)); [apply lookup_insert_eq|done|]. destruct (notified_cur c i xi) as [-> _]. by eapply Hcur. }
    split; try done.
    + exists i. split_and!; [done|exists (notified c i xi); apply lookup_insert_eq|]. unfold state_place. cbn [t_state set_cpu]. rewrite Hst, Hr. split; [done|]. left.
      unfold L'. rewrite on_insert. set_solver.
    + rewrite Hr. rewrite Hr0 in T3. exact T3.
  - intros e y Hy. destruct (Hcpus e y Hy) as (y0 & Hy0 & Hcy & Hiy & Hwy & Hcase). pose proof (inv_cpus _ _ _ _ I _ _ Hy0) as C.
    destruct (decide (e = c)) as [->|Hec].
    + destruct Hcase as [[? _]|[_ ->]]; [done|]. simplify_eq. destruct C as [C1 C2 C3 C4 C5 C6]. split; try done.
      * destruct C2 as (th1 & i1 & Hth1 & Hc1 & Hid1 & Hm1 & Hi1 & Hic1). exists th1, i1. rewrite Eth, lookup_insert_ne by done. split_and!; try done; try tauto.
        simplify_eq. rewrite Hf. exists v. unfold L'. rewrite lookup_insert_ne by lists. apply lookup_insert_eq.
      * rewrite !HL by lists. done.
    + apply (cpu_frame s s' L L' e y0 y C); try done.
      * destruct (cok_cur _ _ _ _ C) as (th1 & _ & Hth1 & _). eapply Hsame; [by eapply Hcur|exact Hth1].
      * destruct Hcase as [[-> ->]|[_ ->]]; [|apply (cok_ipi _ _ _ _ C)]. unfold notified. destruct (_ && _); [by right | apply (cok_ipi _ _ _ _ C)].
      * destruct Hcase as [[-> ->]|[Hne' ->]].
        { exists li, [t]. unfold L'. by rewrite lookup_insert_eq. }
        destruct (cok_lists _ _ _ _ C) as ([le Hle] & _). exists le, []. by rewrite app_nil_r, HL by lists.
      * rewrite HL by lists. apply (cok_lists _ _ _ _ C).
      * apply HL; lists.
      * apply HL; lists.
  - intros e y Hy _. destruct (Hcpus e y Hy) as (y0 & Hy0 & Hcy & Hiy & Hwy & [[-> ->]|[Hei ->]]).
    + intros Hid _. left. rewrite Hiy in Hid. unfold notified. rewrite Hid. by rewrite (proj2 (Z.eqb_neq i c)) by done.
    + unfold wake_ok. rewrite HL by lists. by apply (inv_wake _ _ _ _ I _ _ Hy0).
  - intros w Hw. rewrite HL by lists. done.
  - intros w n Hn. split; [eauto|]. by destruct (inv_sems _ _ _ _ I _ _ Hn) as (_ & _ & ?).
  - intros p n Hn. split; [eauto|]. rewrite Eth, (numthreads_same _ t th) by done. by destruct (inv_procs _ _ _ _ I _ _ Hn).
Qed.

Lemma mg_give s L x me t th v i xi li h :
  migr s L x me MPutback -> L !! victims c = Some (t :: v) -> L !! c_runqueue i = Some li -> i <> c -> k_cpus s !! i = Some xi -> t <> c_curthread x ->
  k_threads s !! t = Some th -> tl_rep h (dom (k_threads s)) (<[c_runqueue i := li ++ [t]]> (<[victims c := v]> L)) ->
  migr (given i t th xi h s) (<[c_runqueue i := li ++ [t]]> (<[victims c := v]> L)) x me MPutback.
Proof.
  intros M Hv Hi Hic Hxi Hne Hth R. pose proof M as [I Hx Hme]. split.
  - assert (E : migrates (given i t th xi h s) x me MPutback = given i t th xi h (migrates s x me MPutback)).
    { unfold migrates, given, with_cpus, with_tls, with_threads. cbn [k_threads k_cpus k_numcpus k_tls k_int k_wchans k_sems k_procs]. by rewrite insert_insert_ne. }
    rewrite E. apply (kinv_give _ L x (set_frames (InMigrate MPutback :: t_frames me) me)); try done.
    + apply lookup_insert_eq.
    + by eexists.
    + cbn [migrates with_threads k_threads]. by rewrite lookup_insert_ne.
    + cbn [migrates with_threads k_threads]. by rewrite dom_insert_lookup_L by eauto.
  - cbn [given with_cpus k_cpus]. by rewrite lookup_insert_ne.
  - cbn [given with_cpus with_tls with_threads k_threads]. by rewrite lookup_insert_ne.
Qed.

(** ** The loops *)

(** What the moves leave alone. *)
Record neutral (s : ksys) (L : gmap Z (list Z)) (s' : ksys) (L' : gmap Z (list Z)) : Prop := {
  nt_sems : k_sems s' = k_sems s;
  nt_lists : forall w, L' !! wc_threads w = L !! wc_threads w;
  nt_in_P : forall w, in_P (k_threads s') w = in_P (k_threads s) w;
  nt_numcpus : k_numcpus s' = k_numcpus s;
  nt_grows : forall d, d <> c -> grows L L' d
}.

Lemma neutral_refl s L : neutral s L s L.
Proof. split; try done. intros. apply grows_refl. Qed.

Lemma neutral_trans s1 L1 s2 L2 s3 L3 : neutral s1 L1 s2 L2 -> neutral s2 L2 s3 L3 -> neutral s1 L1 s3 L3.
Proof. intros [A1 A2 A3 A4 A5] [B1 B2 B3 B4 B5]. split; try congruence. eauto using grows_trans. Qed.

Lemma neutral_sem_inv s L s' L' : neutral s L s' L' -> sem_inv s L -> sem_inv s' L'.
Proof. intros [A1 A2 A3 A4 _] Hs w n l Hn Hl. rewrite A3. apply Hs; congruence. Qed.

Lemma wp_take_victims n s L x me l v (Q : unit -> ksys -> Prop) E :
  migr s L x me MPutback -> L !! c_runqueue c = Some l -> L !! victims c = Some v -> (n <= length l)%nat ->
  (forall s' L' v', migr s' L' x me MPutback -> neutral s L s' L' -> L' !! victims c = Some v' -> length v' = (length v + n)%nat ->
     Q tt (hold c (c_curthread x) true IPL_HIGH {[c_runqueue_lock c]} s')) ->
  wp (take_victims c n) Q E (hold c (c_curthread x) true IPL_HIGH {[c_runqueue_lock c]} s).
Proof.
  revert s L l v Q. induction n as [|n IH]; intros s L l v Q M Hl Hv Hn HQ; cbn [take_victims].
  { apply wp_ret. eapply HQ; [done|apply neutral_refl|exact Hv|lia]. }
  destruct l as [|t l _] using rev_ind; [cbn in Hn; lia|]. pose proof M as [I Hx Hme]. pose proof (inv_rep _ _ _ _ I) as R.
  change (k_tls (migrates s x me MPutback)) with (k_tls s) in R. cbn [migrates with_threads k_threads] in R. rewrite dom_insert_lookup_L in R by eauto.
  apply wp_bind. eapply wp_list; [exact (wp_remtail (k_tls s) _ L _ _ R Hl)|]. intros o h [-> Rh]. rewrite hold_tls. rewrite last_snoc, removelast_last in *.
  apply wp_bind. eapply wp_oob; [done|].
  assert (Ht : t ∈ l ++ [t]) by set_solver. assert (Hnin : t ∉ l) by (pose proof (rep_nodup _ _ _ R _ _ Hl) as N; apply NoDup_app in N as (_ & N & _); set_solver).
  assert (Hoff : off_lists (<[c_runqueue c := l]> L) t).
  { intros id l0 [[<- <-]|[Hid Hl0]]%lookup_insert_Some; [done|]. intros Hin. apply Hid. eapply (rep_apart _ _ _ R); [exact Hl|exact Hl0|exact Ht|exact Hin]. }
  assert (Hv' : <[c_runqueue c := l]> L !! victims c = Some v) by (rewrite lookup_insert_ne by lists; done).
  apply wp_bind. eapply wp_list; [exact (wp_addhead h _ _ (victims c) v t Rh Hv' (rep_on _ _ _ R _ _ _ Hl Ht) Hoff)|].
  intros a h2 Rh2. cbv beta in Rh2. clear a. rewrite hold_tls, with_tls_twice.
  assert (M' : migr (with_tls h2 s) (<[victims c := t :: v]> (<[c_runqueue c := l]> L)) x me MPutback) by (apply (mg_shuffle s L x me (l ++ [t]) v); try done; set_solver).
  eapply (IH _ _ l (t :: v)); [exact M'|rewrite lookup_insert_ne by lists; apply lookup_insert_eq|apply lookup_insert_eq|rewrite length_app in Hn; cbn in Hn; lia|].
  intros s' L' v' M2 N2 Hv2 Hlen. eapply HQ; [exact M2| |exact Hv2|cbn in Hlen; lia]. eapply neutral_trans; [|exact N2]. split; try done.
  - intros w. rewrite !lookup_insert_ne by lists. done.
  - intros d Hd. apply grows_same. rewrite !lookup_insert_ne by lists. done.
Qed.

Lemma wp_queue_count s0 s L i li (Q : Z -> ksys -> Prop) E :
  k_tls s0 = k_tls s -> tl_rep (k_tls s) (dom (k_threads s)) L -> L !! c_runqueue i = Some li -> Q (Z.of_nat (length li)) s0 -> wp (load_runqueue_count i) Q E s0.
Proof.
  intros E0 R Hli HQ. unfold load_runqueue_count. apply wp_in_tls. eapply wp_load_count; [rewrite E0; by eapply (rep_count _ _ _ R)|]. by destruct s0.
Qed.

Lemma wp_give_loop fuel s L x me i share n v (Q : Z -> ksys -> Prop) E :
  migr s L x me MPutback -> L !! victims c = Some v -> 0 <= n <= Z.of_nat (length v) -> (Z.to_nat n <= fuel)%nat -> i <> c -> is_Some (k_cpus s !! i) ->
  (forall s' L' n' v', migr s' L' x me MPutback -> neutral s L s' L' -> L' !! victims c = Some v' -> 0 <= n' <= Z.of_nat (length v') ->
     Q n' (hold c (c_curthread x) true IPL_HIGH {[c_runqueue_lock i]} s')) ->
  wp (give_loop c fuel i share n) Q E (hold c (c_curthread x) true IPL_HIGH {[c_runqueue_lock i]} s).
Proof.
  revert s L n v Q. induction fuel as [|fuel IH]; intros s L n v Q M Hv Hn Hf Hic [xi Hxi] HQ; pose proof M as [I Hx Hme]; pose proof (inv_cpus _ _ _ _ I _ _ Hxi) as C;
    destruct (cok_lists _ _ _ _ C) as ([li Hli] & _); pose proof (inv_rep _ _ _ _ I) as R; change (k_tls (migrates s x me MPutback)) with (k_tls s) in R;
    cbn [migrates with_threads k_threads] in R; rewrite dom_insert_lookup_L in R by eauto; cbn [give_loop];
    apply wp_bind; (eapply (wp_queue_count _ s); [done|exact R|exact Hli|]).
  - assert (n = 0) as -> by lia. rewrite andb_false_r. apply wp_ret. eapply HQ; [done|apply neutral_refl|done|lia].
  - destruct ((Z.of_nat (length li) <? share) && (0 <? n)) eqn:Eg; [|apply wp_ret; eapply HQ; [done|apply neutral_refl|done|done]].
    apply andb_true_iff in Eg as [_ Hpos%Z.ltb_lt]. destruct v as [|t v]; [cbn in Hn; lia|]. cbn [length] in Hn.
    assert (Eu : u32 (n - 1) = n - 1).
    { apply wrap_small. pose proof (rep_length _ _ _ _ _ R Hv) as Hlen. pose proof (rep_size _ _ _ R). cbn [length] in Hlen. lia. }
    assert (Ht : t ∈ t :: v) by (by left). assert (Hnin : t ∉ v) by (pose proof (rep_nodup _ _ _ R _ _ Hv) as N; by apply NoDup_cons in N as [? _]).
    apply wp_bind. eapply wp_list; [exact (wp_remhead (k_tls s) _ L _ _ R Hv)|]. intros o h [-> Rh]. rewrite hold_tls. cbn [head tail] in *.
    assert (Hoff : off_lists (<[victims c := v]> L) t).
    { intros id l0 [[<- <-]|[Hid Hl0]]%lookup_insert_Some; [done|]. intros Hin. apply Hid. eapply (rep_apart _ _ _ R); [exact Hv|exact Hl0|exact Ht|exact Hin]. }
    pose proof (rep_on _ _ _ R _ _ _ Hv Ht) as Hdom.
    apply wp_bind, wp_curthread with (c_curthread x); [by exists x|]. destruct (bool_decide (Some t = Some (c_curthread x))) eqn:Et.
    + apply bool_decide_eq_true_1 in Et. injection Et as ->.
      apply wp_bind. eapply wp_list; [exact (wp_addtail h _ _ (victims c) v _ Rh (lookup_insert_eq _ _ _) Hdom Hoff)|].
      intros a h2 Rh2. cbv beta in Rh2. clear a. rewrite hold_tls, with_tls_twice, Eu. rewrite insert_insert_eq in Rh2.
      destruct (cok_lists _ _ _ _ (inv_cpus _ _ _ _ I _ _ Hx)) as ([lc Hlc] & _).
      assert (M' : migr (with_tls h2 s) (<[victims c := v ++ [c_curthread x]]> L) x me MPutback).
      { pose proof (mg_shuffle s L x me lc (c_curthread x :: v) lc (v ++ [c_curthread x]) h2 M Hlc Hv) as Hsh. rewrite (insert_id L (c_runqueue c)) in Hsh by done. apply Hsh; [set_solver|done]. }
      eapply (IH _ _ (n - 1) (v ++ [c_curthread x])); [exact M'|apply lookup_insert_eq|rewrite length_app; cbn; lia|lia|done|by eexists|].
      intros s' L' n' v' M2 N2 Hv2 Hn2. eapply HQ; [exact M2| |exact Hv2|done]. eapply neutral_trans; [|exact N2]. split; try done; [intros w; rewrite lookup_insert_ne by lists; done|].
      intros d Hd. apply grows_same. rewrite lookup_insert_ne by lists. done.
    + apply bool_decide_eq_false_1 in Et. apply elem_of_dom in Hdom as [th Hth]. apply wp_bind. eapply wp_oob; [done|].
      apply wp_bind. eapply wp_upd_thread; [exact Hth|]. rewrite hold_threads.
      assert (Hli' : <[victims c := v]> L !! c_runqueue i = Some li) by (rewrite lookup_insert_ne by lists; done).
      apply wp_bind. eapply wp_list; [exact (wp_addtail h _ _ (c_runqueue i) li t Rh Hli' (rep_on _ _ _ R _ _ _ Hv Ht) Hoff)|].
      intros a h2 Rh2. cbv beta in Rh2. clear a. rewrite hold_tls. autorewrite with states. apply wp_bind. eapply wp_load_cpu; [exact Hxi|].
      assert (M' : migr (given i t th xi h2 s) (<[c_runqueue i := li ++ [t]]> (<[victims c := v]> L)) x me MPutback) by (apply mg_give; try done; congruence).
      assert (Hnext : wp (give_loop c fuel i share (n - 1)) Q E (hold c (c_curthread x) true IPL_HIGH {[c_runqueue_lock i]} (given i t th xi h2 s))).
      { eapply (IH _ _ (n - 1) v); [exact M'|rewrite lookup_insert_ne by lists; apply lookup_insert_eq|lia|lia|done|exists (notified c i xi); apply lookup_insert_eq|].
        intros s' L' n' v' M2 N2 Hv2 Hn2. eapply HQ; [exact M2| |exact Hv2|done]. eapply neutral_trans; [|exact N2]. split; try done.
        - intros w. rewrite !lookup_insert_ne by lists. done.
        - intros w. by apply (in_P_same _ _ th).
        - intros d Hd. destruct (decide (d = i)) as [->|Hdi].
          + intros l0 Hl0. exists [t]. rewrite lookup_insert_eq. congruence.
          + apply grows_same. rewrite !lookup_insert_ne by lists. done. }
      rewrite Eu. apply wp_bind. unfold given, notified in Hnext. rewrite (proj2 (Z.eqb_neq i c)) in Hnext by done. destruct (c_isidle xi) eqn:Hid; cbn [andb negb when] in *.
      * eapply (wp_ipi_send c (c_curthread x) true IPL_HIGH {[c_runqueue_lock i]} i xi); try done.
        -- exists x. done.
        -- by right.
        -- apply few_union; rewrite size_singleton; lia.
        -- set_solver.
        -- apply (cok_locks _ _ _ _ C).
        -- apply (cok_ipi _ _ _ _ C).
      * apply wp_ret. unfold with_cpus at 1 in Hnext. cbn [k_cpus with_tls with_threads] in Hnext. rewrite insert_id in Hnext by done. exact Hnext.
Qed.

(** ** The steps *)

Lemma mg_rep s L x me m : migr s L x me m -> tl_rep (k_tls s) (dom (k_threads s)) L.
Proof.
  intros [I Hx Hme]. pose proof (inv_rep _ _ _ _ I) as R. change (k_tls (migrates s x me m)) with (k_tls s) in R.
  cbn [migrates with_threads k_threads] in R. by rewrite dom_insert_lookup_L in R by eauto.
Qed.

Lemma mg_ok s L x me m : migr s L x me m -> migration_ok L c m.
Proof.
  intros M. destruct (cok_cur _ _ _ _ (inv_cpus _ _ _ _ (mg_inv _ _ _ _ _ M) _ _ (mg_cpu _ _ _ _ _ M))) as (th & i & Hth & _ & _ & Hm & _).
  rewrite (mg_at _ _ _ _ _ M) in Hth. injection Hth as <-. exact Hm.
Qed.

Lemma DIVROUNDUP_nonneg a b : 0 < b -> 0 <= DIVROUNDUP a b.
Proof. intros Hb. unfold DIVROUNDUP. apply Z.div_pos; [|done]. unfold wrap. apply Z.mod_pos_bound. lia. Qed.

Lemma mg_cpu_of s L x me m i : migr s L x me m -> 0 <= i < k_numcpus s ->
  exists xi li, k_cpus s !! i = Some xi /\ L !! c_runqueue i = Some li /\ i_locks (k_int s) !! c_runqueue_lock i = Some free_lock.
Proof.
  intros [I _ _] Hi. destruct (inv_allcpus _ _ _ _ I i Hi) as [xi Hxi]. pose proof (inv_cpus _ _ _ _ I _ _ Hxi) as C.
  destruct (cok_lists _ _ _ _ C) as ([li Hli] & _). exists xi, li. split_and!; [done..|]. apply (cok_locks _ _ _ _ C).
Qed.

Definition step_post (s : ksys) (L : gmap Z (list Z)) (x : cpu) (me : thread) (r : option migration) (s' : ksys) : Prop :=
  exists L' m', migr s' L' x me m' /\ neutral s L s' L' /\ match r with Some m => m' = m | None => L' !! victims c = Some [] end.

Lemma wp_mcount s L x me i my total E :
  migr s L x me (MCount i my total) -> wp (migration_step c (MCount i my total)) (step_post s L x me) E s.
Proof.
  intros M. destruct (mg_ok _ _ _ _ _ M) as (Hv & Hi & Hmy & Htot & l & Hl & Hle). pose proof (mg_rep _ _ _ _ _ M) as R. pose proof (inv_numcpus _ _ _ _ (mg_inv _ _ _ _ _ M)) as Hnc.
  change (k_numcpus (migrates s x me (MCount i my total))) with (k_numcpus s) in Hnc. unfold migration_step. apply wp_bind, wp_gets. destruct (Z.ltb_spec i (k_numcpus s)) as [Hlt|Hge].
  - destruct (mg_cpu_of _ _ _ _ _ i M ltac:(done)) as (xi & li & Hxi & Hli & Hfree). pose proof (mg_hold _ _ _ _ _ M) as Eh. rewrite Eh at 2.
    assert (Hc : curthread_is c (c_curthread x) s) by (exists x; split; [apply (mg_cpu _ _ _ _ _ M)|done]).
    apply wp_bind, wp_acq; [done|by right|apply few0|set_solver|done|]. lock1. apply wp_bind. eapply (wp_queue_count _ s); [done|exact R|exact Hli|]. cbv zeta.
    apply wp_bind, wp_rel; [done|by right|apply few1|set_solver|done|]. lock1. rewrite <- Eh. apply wp_ret. exists L. eexists. split; [eapply mg_goto; [exact M|]|split; [apply neutral_refl|done]].
    split_and!; try done; try lia.
    + destruct (i =? c); lia.
    + apply Z.mod_pos_bound. lia.
    + exists l. split; [done|]. destruct (Z.eqb_spec i c) as [->|]; [|done]. simplify_eq. lia.
  - cbv zeta. destruct (Z.ltb_spec my (DIVROUNDUP total (k_numcpus s))) as [Hs|Hs]; apply wp_ret.
    + exists L. eexists. split; [exact M|]. split; [apply neutral_refl|done].
    + exists L. eexists. split; [eapply mg_goto; [exact M|]|split; [apply neutral_refl|done]]. split_and!; try done; try lia; [apply DIVROUNDUP_nonneg; lia|]. by exists l.
Qed.

Lemma wp_mtake s L x me my share E :
  migr s L x me (MTake my share) -> wp (migration_step c (MTake my share)) (step_post s L x me) E s.
Proof.
  intros M. destruct (mg_ok _ _ _ _ _ M) as (Hv & Hsh & l & Hl & Hle). pose proof (mg_rep _ _ _ _ _ M) as R. unfold migration_step. apply wp_bind, wp_gets. cbv zeta.
  assert (Eu : u32 (my - share) = my - share).
  { apply wrap_small. pose proof (rep_length _ _ _ _ _ R Hl). pose proof (rep_size _ _ _ R). lia. }
  rewrite Eu. pose proof (mg_goto _ _ _ _ _ MPutback M ltac:(by exists [])) as M1. pose proof (mg_hold _ _ _ _ _ M) as Eh. rewrite Eh at 2.
  assert (Hc : forall h, curthread_is c (c_curthread x) (with_tls h s)) by (exists x; split; [apply (mg_cpu _ _ _ _ _ M)|done]).
  assert (Hfree : i_locks (k_int s) !! c_runqueue_lock c = Some free_lock) by apply (cok_locks _ _ _ _ (inv_cpus _ _ _ _ (mg_inv _ _ _ _ _ M) _ _ (mg_cpu _ _ _ _ _ M))).
  apply wp_bind. eapply wp_list; [exact (wp_init (k_tls s) _ L (victims c) R ltac:(intros ? ?; congruence))|]. intros a h Rh. cbv beta in Rh. clear a. rewrite hold_tls.
  assert (M2 : migr (with_tls h s) L x me MPutback).
  { pose proof (mg_shuffle s L x me l [] l [] h M1 Hl Hv ltac:(done)) as Hs. rewrite (insert_id L (c_runqueue c)), (insert_id L (victims c)) in Hs by done.
    rewrite insert_id in Rh by done. by apply Hs. }
  apply wp_bind, wp_acq; [done|by right|apply few0|set_solver|done|]. lock1.
  apply wp_bind. eapply (wp_take_victims _ _ L x me l []); [exact M2|done|done|lia|]. intros s' L' v' M3 N Hv' Hlen. pose proof (mg_hold _ _ _ _ _ M3) as Eh3.
  assert (Hfree3 : i_locks (k_int s') !! c_runqueue_lock c = Some free_lock) by apply (cok_locks _ _ _ _ (inv_cpus _ _ _ _ (mg_inv _ _ _ _ _ M3) _ _ (mg_cpu _ _ _ _ _ M3))).
  apply wp_bind, wp_rel; [exists x; split; [apply (mg_cpu _ _ _ _ _ M3)|done]|by right|apply few1|set_solver|done|]. lock1. rewrite <- Eh3. apply wp_ret.
  exists L'. eexists. split; [eapply mg_goto; [exact M3|]|split; [|done]]; [|destruct N; by split]. split_and!; try lia. exists v'. split; [done|]. cbn [length] in Hlen. lia.
Qed.

Lemma wp_mgive s L x me i share n E :
  migr s L x me (MGive i share n) -> wp (migration_step c (MGive i share n)) (step_post s L x me) E s.
Proof.
  intros M. destruct (mg_ok _ _ _ _ _ M) as (Hi & Hn & v & Hv & Hle). unfold migration_step. apply wp_bind, wp_gets.
  destruct (Z.ltb_spec i (k_numcpus s)) as [Hlt|Hge]; destruct (Z.ltb_spec 0 n) as [Hpos|Hz]; cbn [andb];
    try (apply wp_ret; exists L; eexists; split; [eapply mg_goto; [exact M|]|split; [apply neutral_refl|done]]; by exists v).
  destruct (Z.eqb_spec i c) as [->|Hic].
  { apply wp_ret; exists L; eexists; split; [eapply mg_goto; [exact M|]|split; [apply neutral_refl|done]]. split_and!; try lia. by exists v. }
  destruct (mg_cpu_of _ _ _ _ _ i M ltac:(done)) as (xi & li & Hxi & Hli & Hfree). pose proof (mg_hold _ _ _ _ _ M) as Eh. rewrite Eh at 2.
  apply wp_bind, wp_acq; [exists x; split; [apply (mg_cpu _ _ _ _ _ M)|done]|by right|apply few0|set_solver|done|]. lock1.
  pose proof (mg_goto _ _ _ _ _ MPutback M ltac:(by exists v)) as M1.
  apply wp_bind. eapply (wp_give_loop _ s L x me i share n v); [exact M1|done|lia|lia|done|by eexists|]. intros s' L' n' v' M3 N Hv' Hn'. pose proof (mg_hold _ _ _ _ _ M3) as Eh3.
  destruct (mg_cpu_of _ _ _ _ _ i M3) as (_ & _ & _ & _ & Hfree3); [by rewrite (nt_numcpus _ _ _ _ N)|].
  apply wp_bind, wp_rel; [exists x; split; [apply (mg_cpu _ _ _ _ _ M3)|done]|by right|apply few1|set_solver|done|]. lock1. rewrite <- Eh3. apply wp_ret.
  exists L'. eexists. split; [eapply mg_goto; [exact M3|]|by split]. split_and!; try lia. exists v'. split; [done|lia].
Qed.

Lemma wp_mputback s L x me E : migr s L x me MPutback -> wp (migration_step c MPutback) (step_post s L x me) E s.
Proof.
  intros M. destruct (mg_ok _ _ _ _ _ M) as (v & Hv). pose proof (mg_rep _ _ _ _ _ M) as R. unfold migration_step. apply wp_bind, wp_gets.
  assert (Hlast : forall s' L', migr s' L' x me MPutback -> neutral s L s' L' -> L' !! victims c = Some [] ->
    wp (e <- in_tls (threadlist_isempty (victims c)) ;; KASSERT e ;; in_tls (threadlist_cleanup (victims c)) ;; ret None) (step_post s L x me) E s').
  { intros s' L' M' N Hv'. pose proof (mg_rep _ _ _ _ _ M') as R'. assert (Es : with_tls (k_tls s') s' = s') by (by destruct s').
    apply wp_bind, wp_in_tls. eapply wp_isempty; [exact R'|exact Hv'|]. rewrite Es.
    apply wp_bind, wp_kassert; [by apply bool_decide_eq_true_2|]. apply wp_bind, wp_in_tls. eapply wp_cleanup; [exact R'|exact Hv'|]. apply wp_ret.
    rewrite Es. exists L', MPutback. done. }
  apply wp_bind, wp_in_tls. eapply wp_isempty; [exact R|exact Hv|]. assert (Es : with_tls (k_tls s) s = s) by (by destruct s). rewrite Es. apply wp_bind.
  destruct v as [|t v]; [rewrite bool_decide_eq_true_2 by done; apply wp_ret; eapply Hlast; [done|apply neutral_refl|done]|]. rewrite bool_decide_eq_false_2 by done. cbn [negb when].
  assert (Hfree : i_locks (k_int s) !! c_runqueue_lock c = Some free_lock) by apply (cok_locks _ _ _ _ (inv_cpus _ _ _ _ (mg_inv _ _ _ _ _ M) _ _ (mg_cpu _ _ _ _ _ M))).
  assert (Hc : forall h, curthread_is c (c_curthread x) (with_tls h s)) by (exists x; split; [apply (mg_cpu _ _ _ _ _ M)|done]).
  destruct (cok_lists _ _ _ _ (inv_cpus _ _ _ _ (mg_inv _ _ _ _ _ M) _ _ (mg_cpu _ _ _ _ _ M))) as ([l Hl] & _).
  pose proof (mg_hold _ _ _ _ _ M) as Eh. rewrite Eh at 1.
  apply wp_bind, wp_acq; [rewrite <- Es; apply Hc|by right|apply few0|set_solver|done|]. lock1. apply wp_bind, wp_gets.
  apply wp_bind. eapply (wp_move_all c (c_curthread x) true IPL_HIGH _ _ (victims c) (c_runqueue c) (t :: v) l L s); [exact R|exact Hv|exact Hl|lists| |].
  { unfold thread_fuel. pose proof (rep_length _ _ _ _ _ R Hv) as Hlen. rewrite size_dom in Hlen. cbn [hold with_int k_threads]. lia. }
  intros h Rh. rewrite insert_insert_ne in Rh by lists.
  assert (M' : migr (with_tls h s) (<[victims c := []]> (<[c_runqueue c := l ++ t :: v]> L)) x me MPutback) by (apply (mg_shuffle s L x me l (t :: v)); try done; set_solver).
  apply wp_rel; [apply Hc|by right|apply few1|set_solver|done|]. lock1. rewrite <- (mg_hold _ _ _ _ _ M'). eapply Hlast; [exact M'| |apply lookup_insert_eq].
  split; try done; [intros w; rewrite !lookup_insert_ne by lists; done|].
  intros d Hd. apply grows_same. rewrite !lookup_insert_ne by lists. done.
Qed.

Lemma wp_migration_step s L x me m E : migr s L x me m -> wp (migration_step c m) (step_post s L x me) E s.
Proof. destruct m; [apply wp_mcount|apply wp_mtake|apply wp_mgive|apply wp_mputback]. Qed.

(** The invariants are kept, whatever happens to the run queue of [c]. *)
Definition kept (s : ksys) (L : gmap Z (list Z)) (s' : ksys) : Prop :=
  exists L', kinv lbolt s' L' /\ (forall d, d <> c -> grows L L' d) /\ (sem_inv s L -> sem_inv s' L') /\ k_numcpus s' = k_numcpus s.

Lemma outcome_kept turn s L s' : outcome_of turn lbolt c s L s' -> kept s L s'.
Proof. intros (L' & I & [He _] & Hs & Hn). by exists L'. Qed.

Lemma mg_sem_inv s L x me m fs me0 s' L' m' :
  k_threads s !! c_curthread x = Some me0 -> t_frames me0 = InMigrate m :: fs -> neutral (framed x me0 fs s) L s' L' ->
  k_threads s' !! c_curthread x = Some me -> t_frames me = fs -> (m' = [] \/ exists m, m' = [InMigrate m]) ->
  sem_inv s L -> sem_inv (with_threads <[c_curthread x := set_frames (m' ++ fs) me]> s') L'.
Proof.
  intros Hme0 Hf0 [N1 N2 N3 N4 _] Hme Hf Hm' Hs w n l Hn Hl Hne. change (k_sems (with_threads <[c_curthread x := set_frames (m' ++ fs) me]> s')) with (k_sems s') in Hn.
  cbn [k_threads with_threads]. rewrite (in_P_same _ _ me); [|done|cbn [t_frames set_frames]; rewrite Hf; destruct Hm' as [-> |[? ->]]; set_solver].
  rewrite N3. cbn [k_threads framed with_threads]. rewrite (in_P_same _ _ me0); [|done|cbn [t_frames set_frames]; rewrite Hf0; set_solver].
  apply Hs; try done; [by rewrite N1 in Hn | by rewrite <- N2].
Qed.

Lemma wp_migrate_continue s L x me m fs (Q : unit -> ksys -> Prop) E :
  kinv lbolt s L -> k_cpus s !! c = Some x -> k_threads s !! c_curthread x = Some me -> t_frames me = InMigrate m :: fs ->
  (forall s', kept s L s' -> Q tt s') -> wp (migrate_continue c) Q E s.
Proof.
  intros I Hx Hme Hf HQ. unfold migrate_continue. apply wp_bind, wp_curthread with (c_curthread x); [by exists x|]. apply wp_bind. eapply wp_load_thread; [exact Hme|]. rewrite Hf.
  unfold pop_frame. apply wp_bind, wp_bind, wp_curthread with (c_curthread x); [by exists x|]. eapply wp_upd_thread; [exact Hme|]. rewrite Hf. cbn [tail].
  change (with_threads <[c_curthread x := set_frames fs me]> s) with (framed x me fs s).
  assert (M : migr (framed x me fs s) L x (set_frames fs me) m).
  { split; [|done|apply lookup_insert_eq]. pose proof (framed_back x me (InMigrate m :: fs) fs s Hf Hme) as E0. unfold framed at 1 in E0. unfold migrates. cbn [t_frames set_frames]. by rewrite E0. }
  apply wp_bind. eapply wp_mono; [by apply wp_migration_step| |done]. intros r s' (L' & m' & M' & N & Hr). pose proof M' as [I' Hx' Hme'].
  destruct r as [m2|].
  - subst m'. unfold push_frame. apply wp_bind, wp_curthread with (c_curthread x); [by exists x|]. eapply wp_upd_thread; [exact Hme'|]. apply HQ. exists L'. split_and!; [exact I'|apply N| |apply N].
    intros Hs. apply (mg_sem_inv s L x (set_frames fs me) m fs me s' L' [InMigrate m2]); eauto.
  - pose proof (mg_done _ _ _ _ _ M' Hr) as I2. destruct (mg_shape _ _ _ _ _ M') as (adj & fs' & Hf' & _ & Hi' & _).
    assert (Hd : handling lbolt c s' L' x s' L').
    { split; [by apply stays_refl| |done|by exists (set_frames fs me), adj, fs']. exists x. split_and!; try done. by eapply mg_woken. }
    eapply wp_yield_return; [exact I2|exact Hx'|exact Hd|]. intros s2 (L2 & I3 & [He3 _] & Hs3 & Hn3). apply HQ. exists L2. split_and!; [done|intros d Hne; eapply grows_trans; [by apply N|by apply He3]| |rewrite Hn3; apply N].
    intros Hs. apply Hs3. pose proof (mg_sem_inv s L x (set_frames fs me) m fs me s' L' [] Hme Hf N Hme' eq_refl (or_introl eq_refl) Hs) as Hs'.
    unfold with_threads in Hs'. cbn [app] in Hs'. assert (Em : set_frames fs (set_frames fs me) = set_frames fs me) by done. rewrite Em, insert_id in Hs' by done. by destruct s'.
Qed.
End migrate.
