(* ===== verification/KThreadFork.v ===== *)
(** * Creating threads *)

From stdpp Require Import strings.
From S2P Require Import Prelude Threadlist Spl KThread KThreadInv KThreadOps KThreadSwitch KThreadBlocks KThreadIrq.
From S2P Require Import KThreadWake.

(** The interrupt state of a thread that does not run. *)
Definition note (t : Z) (i : istate) (s : ksys) : ksys :=
  with_int (Intr (<[t := i]> (i_threads (k_int s))) (i_cpus (k_int s)) (i_locks (k_int s))) s.

Lemma hold_note c cur b lev K t i s : t <> cur -> note t i (hold c cur b lev K s) = hold c cur b lev K (note t i s).
Proof. intros Hne. unfold note, hold, mid. cbn [with_int k_int i_threads i_cpus i_locks]. unfold with_int. cbn. by rewrite insert_insert_ne. Qed.

Lemma numthreads_attach (T : gmap Z thread) t th p q :
  T !! t = None -> t_proc th = Some p -> numthreads (<[t := th]> T) q = if decide (q = p) then numthreads T q + 1 else numthreads T q.
Proof.
  intros Ht Hp. unfold numthreads. destruct (decide (q = p)) as [->|Hne].
  - rewrite map_filter_insert_True by done. rewrite map_size_insert_None; [lia|]. apply map_lookup_filter_None. by left.
  - rewrite map_filter_insert_False by (cbn; congruence). rewrite delete_id by done. done.
Qed.

Section new.
Context (lbolt c : Z) (s s' : ksys) (L L' : gmap Z (list Z)) (t : Z) (x : cpu) (l new : list Z).
Hypothesis (I : kinv lbolt s L) (Hnone : k_threads s !! t = None) (Hx : k_cpus s !! c = Some x) (Hbusy : c_isidle x = false).
Hypothesis (H1 : forall u, u <> t -> k_threads s' !! u = k_threads s !! u) (H2 : k_cpus s' = k_cpus s).
Hypothesis (H3 : forall u, u <> t -> i_threads (k_int s') !! u = i_threads (k_int s) !! u).
Hypothesis (H4 : k_numcpus s' = k_numcpus s) (H5 : k_wchans s' = k_wchans s) (H6 : k_sems s' = k_sems s) (H7 : i_cpus (k_int s') = i_cpus (k_int s)) (H8 : i_locks (k_int s') = i_locks (k_int s)).
Hypothesis (H9 : forall p, is_Some (k_procs s !! p) -> is_Some (k_procs s' !! p)).
Hypothesis (H10 : forall p n, k_procs s' !! p = Some n -> is_Some (k_procs s !! p) /\ n = numthreads (k_threads s') p).
Hypothesis (R : tl_rep (k_tls s') (dom (k_threads s')) L') (Hl : L !! c_runqueue c = Some l) (Hl' : L' = <[c_runqueue c := l ++ new]> L) (Hnew : forall u, u <> t -> u ∉ new).
Hypothesis (HT : forall th, k_threads s' !! t = Some th -> thread_ok lbolt s' L' t th).

Lemma kinv_new : kinv lbolt s' L'.
Proof.
  assert (HL : forall id, id <> c_runqueue c -> L' !! id = L !! id) by (intros; rewrite Hl'; by rewrite lookup_insert_ne).
  assert (ST : same_threads s s' L L' {[t]}).
  { intros u Hu%not_elem_of_singleton. split_and!; [by apply H1|by apply H3|]. rewrite Hl'. apply (on_same L _ l); [done|]. specialize (Hnew u Hu). set_solver. }
  assert (Hcur : forall e y, k_cpus s !! e = Some y -> c_curthread y <> t).
  { intros e y Hy E. destruct (cok_cur _ _ _ _ (inv_cpus _ _ _ _ I _ _ Hy)) as (th & _ & Hth & _). congruence. }
  apply (kinv_frame lbolt s s' L L' {[t]} None); rewrite ?H2, ?H4, ?H5, ?H6, ?H8; try done.
  - split; rewrite H2; [done|]. intros e y y' E1 E2. simplify_eq. by left.
  - split; [by rewrite H6|done].
  - intros u th ->%elem_of_singleton. apply HT.
  - intros e y Hy. pose proof (inv_cpus _ _ _ _ I _ _ Hy) as C. apply (cpu_frame s s' L L' e y y C); try done.
    + apply (untouched_current s s' L L' {[t]}); [done|]. apply not_elem_of_singleton. by eapply Hcur.
    + apply (cok_ipi _ _ _ _ C).
    + by rewrite H7.
    + destruct (decide (e = c)) as [->|He].
      * exists l, new. by rewrite Hl', lookup_insert_eq.
      * destruct (cok_lists _ _ _ _ C) as ([le Hle] & _). exists le, []. by rewrite app_nil_r, HL by lists.
    + rewrite HL by lists. apply (cok_lists _ _ _ _ C).
    + apply HL; lists.
    + apply HL; lists.
  - intros e y Hy _. destruct (decide (e = c)) as [->|He]; [intros ?; congruence|]. unfold wake_ok. rewrite HL by lists. by apply (inv_wake _ _ _ _ I).
  - intros w Hw. rewrite HL by lists. done.
  - intros w n Hn. split; [by eexists|]. by destruct (inv_sems _ _ _ _ I _ _ Hn) as (_ & _ & ?).
Qed.

Lemma outcome_new : (forall th w, k_threads s' !! t = Some th -> InP w ∉ t_frames th) -> outcome_of false lbolt c s L s'.
Proof.
  intros Hf. exists L'. split_and!; [exact kinv_new| | |done].
  - apply effect_grows. intros d. destruct (decide (d = c)) as [->|Hd].
    + intros l0 Hl0. exists new. rewrite Hl', lookup_insert_eq. congruence.
    + apply grows_same. rewrite Hl', lookup_insert_ne by lists. done.
  - intros Hs w n l0 Hn Hl0 Hne. rewrite H6 in Hn. assert (HL : L !! wc_threads w = Some l0) by (rewrite <- Hl0, Hl', lookup_insert_ne by lists; done).
    specialize (Hs w n l0 Hn HL Hne). assert (E : in_P (k_threads s') w = in_P (k_threads s) w); [|by rewrite E].
    unfold in_P. f_equal. f_equal. apply map_eq. intros u. apply option_eq. intros th. rewrite !map_lookup_filter_Some. destruct (decide (u = t)) as [->|Hu]; [|by rewrite H1].
    rewrite Hnone. split; [|by intros [? _]]. intros [Hth Hin]. by destruct (Hf th w Hth).
Qed.
End new.

Section fork.
Context `{DebugAsserts} (lbolt c : Z).

Definition created : thread := Thread (Some "NEW"%string) S_READY None None None None [].
Definition forked (p : Z) : thread :=
  Thread (Some "NEW"%string) S_READY (Some [THREAD_STACK_MAGIC; THREAD_STACK_MAGIC; THREAD_STACK_MAGIC; THREAD_STACK_MAGIC]) (Some SavedStartup) (Some c) (Some p) [].

(** The new thread exists and is not yet known to anyone. *)
Definition unlinked (t : Z) (h : tlstore) (s : ksys) : ksys := note t (IState false IPL_HIGH 1) (with_tls h (with_threads <[t := created]> s)).

Lemma wp_thread_create t cur b lev K s L (Q : option Z -> ksys -> Prop) E :
  t <> cur -> tl_rep (k_tls s) (dom (k_threads s)) L -> k_threads s !! t = None -> Z.of_nat (size (k_threads s)) + 1 < 2 ^ 32 ->
  (forall h, tl_rep h ({[t]} ∪ dom (k_threads s)) L -> Q (Some t) (hold c cur b lev K (unlinked t h s))) ->
  wp (thread_create (Some t) true) Q E (hold c cur b lev K s).
Proof.
  intros Hne R Hn Hs HQ. unfold thread_create. cbn [negb]. apply wp_bind, wp_modify. rewrite hold_threads. apply wp_bind.
  eapply wp_list; [apply (wp_nodeinit (k_tls s) (dom (k_threads s)) L t R)|]; [by apply not_elem_of_dom|by rewrite size_dom|]. intros a h Rh. cbv beta in Rh. clear a. rewrite hold_tls.
  apply wp_bind, wp_zoom, wp_modify. apply wp_ret. specialize (HQ h Rh). unfold unlinked in HQ. rewrite <- hold_note in HQ by done. exact HQ.
Qed.

Lemma wp_fork_nostack s L x me t (Q : unit -> ksys -> Prop) E :
  kinv lbolt s L -> runs s c x me [] -> k_threads s !! t = None -> Z.of_nat (size (k_threads s)) + 1 < 2 ^ 32 ->
  (forall s', outcome_of false lbolt c s L s' -> Q tt s') ->
  forall h, tl_rep h ({[t]} ∪ dom (k_threads s)) L -> wp (thread_destroy c t) Q E (hold c (c_curthread x) false IPL_NONE ∅ (unlinked t h s)).
Proof.
  intros I R Hn Hsz HQ h Rh. pose proof R as [Hx Hbusy Hme Hf Hi]. assert (Hne : t <> c_curthread x) by congruence.
  assert (Ed : dom (k_threads (unlinked t h s)) = {[t]} ∪ dom (k_threads s)) by (cbn; by rewrite dom_insert_L).
  assert (Hoff : off_lists L t) by (intros id l0 Hl0 Hin; apply (not_elem_of_dom_2 _ _ Hn); by eapply (rep_on _ _ _ (inv_rep _ _ _ _ I))).
  apply (wp_thread_destroy c (c_curthread x) false IPL_NONE t created L); try done.
  - by exists x.
  - apply lookup_insert_eq.
  - rewrite Ed. exact Rh.
  - intros h2 Rh2. apply HQ. destruct (cok_lists _ _ _ _ (inv_cpus _ _ _ _ I _ _ Hx)) as ([l Hl] & _).
    pose proof (runs_hold lbolt c s L x me [] I R) as Eh.
    assert (Eth : k_threads (hold c (c_curthread x) false IPL_NONE ∅ (without [t] h2 (unlinked t h s))) = k_threads s).
    { cbn. rewrite delete_insert_eq, delete_id by done. done. }
    apply (outcome_new lbolt c s _ L (<[c_runqueue c := l ++ []]> L) t x l []); rewrite ?Eth; try done.
    + intros u Hu. destruct (decide (u = c_curthread x)) as [->|Huc].
      * rewrite hold_istate, Hi. done.
      * rewrite hold_istate_ne by done. cbn. rewrite lookup_delete_ne, lookup_insert_ne by done. done.
    + rewrite Eh at 2. unfold hold, mid. cbn. by rewrite !insert_insert_eq || done.
    + by rewrite hold_locks.
    + intros p n Hp. split; [by eexists|]. by destruct (inv_procs _ _ _ _ I _ _ Hp).
    + rewrite app_nil_r, insert_id by done. cbn [k_tls hold with_int without with_tls]. cbn in Rh2. rewrite delete_insert_eq, delete_id in Rh2 by done. exact Rh2.
    + set_solver.
    + intros th Hth. congruence.
    + intros th w Hth. congruence.
Qed.
End fork.

(** ** [thread_fork] *)

Lemma note_threads t i f s : with_threads f (note t i s) = note t i (with_threads f s).
Proof. done. Qed.
Lemma note_procs t i f s : with_procs f (note t i s) = note t i (with_procs f s).
Proof. done. Qed.
Lemma note_tls t i h s : with_tls h (note t i s) = note t i (with_tls h s).
Proof. done. Qed.
Lemma note_cpus t i f s : with_cpus f (note t i s) = note t i (with_cpus f s).
Proof. done. Qed.
Lemma with_procs_threads f g s : with_procs f (with_threads g s) = with_threads g (with_procs f s).
Proof. done. Qed.
Lemma with_procs_tls f h s : with_procs f (with_tls h s) = with_tls h (with_procs f s).
Proof. done. Qed.
Lemma note_twice t i j s : note t i (note t j s) = note t i s.
Proof. unfold note, with_int. cbn [k_int k_threads k_cpus k_numcpus k_tls k_wchans k_sems k_procs i_threads i_cpus i_locks]. by rewrite insert_insert_eq. Qed.
#[export] Hint Rewrite note_threads note_procs note_tls note_cpus with_procs_threads with_procs_tls note_twice : states.

Section fork_ok.
Context `{DebugAsserts} (lbolt c : Z).

(** The state in which the new thread is on the run queue. *)
Definition launched (t p n : Z) (h : tlstore) (s : ksys) : ksys :=
  note t (IState false IPL_HIGH 2) (with_tls h (with_threads <[t := forked c p]> (with_procs <[p := n]> s))).

Lemma outcome_launched s L x me t p n l h :
  kinv lbolt s L -> runs s c x me [] -> k_threads s !! t = None -> Z.of_nat (size (k_threads s)) + 1 < 2 ^ 32 ->
  k_procs s !! p = Some n -> L !! c_runqueue c = Some l ->
  tl_rep h ({[t]} ∪ dom (k_threads s)) (<[c_runqueue c := l ++ [t]]> L) ->
  outcome_of false lbolt c s L (hold c (c_curthread x) false IPL_NONE ∅ (launched t p (n + 1) h s)).
Proof.
  intros I R Hn Hsz Hp Hl Rh. pose proof R as [Hx Hbusy Hme Hf Hi]. assert (Hne : t <> c_curthread x) by congruence.
  destruct (inv_procs _ _ _ _ I _ _ Hp) as [En _]. pose proof (runs_hold lbolt c s L x me [] I R) as Eh.
  set (s' := hold _ _ _ _ _ _).
  assert (Eth : k_threads s' = <[t := forked c p]> (k_threads s)) by done. assert (Epr : k_procs s' = <[p := n + 1]> (k_procs s)) by done.
  apply (outcome_new lbolt c s s' L (<[c_runqueue c := l ++ [t]]> L) t x l [t]); try done.
  - intros u Hu. by rewrite Eth, lookup_insert_ne.
  - intros u Hu. unfold s'. destruct (decide (u = c_curthread x)) as [->|Huc].
    + by rewrite hold_istate, Hi.
    + rewrite hold_istate_ne by done. cbn. by rewrite lookup_insert_ne.
  - unfold s'. rewrite Eh at 2. done.
  - unfold s'. by rewrite hold_locks.
  - intros q Hq. rewrite Epr. apply lookup_insert_is_Some'. by right.
  - intros q m. rewrite Epr, Eth, (numthreads_attach _ _ _ p) by done. intros [[<- <-]|[Hne' Hq]]%lookup_insert_Some.
    + split; [eauto|]. rewrite decide_True by done. lia.
    + split; [eauto|]. rewrite decide_False by done. by destruct (inv_procs _ _ _ _ I _ _ Hq).
  - change (k_tls s') with h. by rewrite Eth, dom_insert_L.
  - set_solver.
  - intros th. rewrite Eth, lookup_insert_eq. intros [= <-].
    assert (Hr : role_of s' t (forked c p) = RWait) by (eapply (role_wait s' c x); [exact Hx|done|by apply not_eq_sym]). split.
    + by right.
    + exists c. split_and!; [done|by exists x|]. unfold state_place. cbn [t_state forked]. rewrite Hr. split; [done|]. left. rewrite on_insert. set_solver.
    + exists (IState false IPL_HIGH 2). split; [|rewrite Hr; constructor]. unfold s'. rewrite hold_istate_ne by done. apply lookup_insert_eq.
    + intros _. exists p. split; [done|]. rewrite Epr, lookup_insert_eq. eauto.
    + set_solver.
  - intros th w. rewrite Eth, lookup_insert_eq. intros [= <-]. set_solver.
Qed.

Definition forks_into (s : ksys) (me : thread) (proc : option Z) (p : Z) : Prop := match proc with Some p => Some p | None => t_proc me end = Some p /\ is_Some (k_procs s !! p).

Lemma wp_fork_launch s L x me t proc p h (Q : unit -> ksys -> Prop) E :
  kinv lbolt s L -> runs s c x me [] -> k_threads s !! t = None -> Z.of_nat (size (k_threads s)) + 1 < 2 ^ 32 -> forks_into s me proc p ->
  tl_rep h ({[t]} ∪ dom (k_threads s)) L -> (forall s', outcome_of false lbolt c s L s' -> Q tt s') ->
  wp (thread_checkstack_init t ;;
      cur <- curthread c ;;
      me <- load_thread cur ;;
      upd_thread t (set_cpu (t_cpu me)) ;;
      p <- oob (match proc with Some p => Some p | None => t_proc me end) ;;
      proc_addthread c p t ;;
      zoom k_int with_int (x <- load_istate t ;; store_istate t (IState (t_in_interrupt x) (t_curspl x) (i32 (t_iplhigh_count x + 1)))) ;;
      upd_thread t (set_context (Some SavedStartup)) ;;
      thread_make_runnable c t false) Q E (hold c (c_curthread x) false IPL_NONE ∅ (unlinked t h s)).
Proof.
  intros I R Hn Hsz [Hproc [n Hp]] Rh HQ. pose proof R as [Hx Hbusy Hme Hf Hi]. assert (Hne : c_curthread x <> t) by congruence.
  destruct (running_off _ _ _ _ _ _ I Hx Hbusy Hme) as (_ & Hrun & Hcm). destruct (inv_procs _ _ _ _ I _ _ Hp) as [En Hfp]. pose proof (inv_cpus _ _ _ _ I _ _ Hx) as C.
  assert (Hc : forall s0, k_cpus s0 = k_cpus s -> curthread_is c (c_curthread x) s0) by (intros s0 E0; exists x; by rewrite E0).
  assert (Eu : u32 (n + 1) = n + 1).
  { apply wrap_small. assert (numthreads (k_threads s) p <= Z.of_nat (size (k_threads s))) by (unfold numthreads; apply inj_le, map_size_filter). unfold numthreads in *. lia. }
  destruct (cok_lists _ _ _ _ C) as ([l Hl] & _). destruct (cok_locks _ _ _ _ C) as [Hfr Hfi].
  apply wp_bind. eapply wp_upd_thread; [apply lookup_insert_eq|]. rewrite hold_threads. apply wp_bind, wp_curthread with (c_curthread x); [by apply Hc|].
  apply wp_bind. eapply wp_load_thread; [cbn [k_threads hold with_int with_threads unlinked note with_tls]; rewrite !lookup_insert_ne by done; exact Hme|].
  apply wp_bind. eapply wp_upd_thread; [apply lookup_insert_eq|]. rewrite hold_threads. apply wp_bind. eapply wp_oob; [exact Hproc|].
  unfold proc_addthread. apply wp_bind, wp_bind. eapply wp_load_thread; [apply lookup_insert_eq|]. apply wp_bind, wp_kassert; [done|].
  apply wp_bind, wp_acq; [by apply Hc|by left|apply few0|set_solver|exact Hfp|]. lock1. apply wp_bind. unfold load_numthreads. apply wp_bind, wp_get. eapply wp_oob; [exact Hp|].
  rewrite Eu. apply wp_bind, wp_modify. rewrite hold_procs. apply wp_bind, wp_rel; [by apply Hc|by left|apply few1|set_solver|exact Hfp|]. lock1.
  apply wp_bind, wp_raise; [by apply Hc|by left|apply few0|]. apply wp_bind. eapply wp_upd_thread; [apply lookup_insert_eq|]. rewrite hold_threads.
  apply wp_bind, wp_restore; [by apply Hc|by left|apply few0|]. apply wp_ret. unfold unlinked. autorewrite with states. rewrite <- hold_note by done.
  apply wp_bind, wp_zoom, wp_bind. eapply wp_load_istate; [apply lookup_insert_eq|]. apply wp_modify.
  change (i32 (t_iplhigh_count (IState false IPL_HIGH 1) + 1)) with 2. cbn [t_in_interrupt t_curspl].
  match goal with |- wp _ _ _ ?S => change S with (note t (IState false IPL_HIGH 2) (note t (IState false IPL_HIGH 1) (hold c (c_curthread x) false IPL_NONE ∅ (with_tls h (with_threads <[t := set_proc (Some p) (set_cpu (t_cpu me) (set_stack (Some [THREAD_STACK_MAGIC; THREAD_STACK_MAGIC; THREAD_STACK_MAGIC; THREAD_STACK_MAGIC]) created))]> (with_procs <[p := n + 1]> s)))))) end.
  rewrite note_twice, hold_note by done. apply wp_bind. eapply wp_upd_thread; [apply lookup_insert_eq|]. rewrite hold_threads. autorewrite with states. rewrite Hcm.
  change (set_context (Some SavedStartup) _) with (forked c p). fold (launched t p (n + 1) h s).
  assert (Hoff : off_lists L t) by (intros id l0 Hl0 Hin; apply (not_elem_of_dom_2 _ _ Hn); by eapply (rep_on _ _ _ (inv_rep _ _ _ _ I))).
  assert (Ed : dom (k_threads (launched t p (n + 1) h s)) = {[t]} ∪ dom (k_threads s)) by (cbn; by rewrite dom_insert_L).
  apply (wp_make_runnable c (c_curthread x) false IPL_NONE ∅ t (forked c p) c x l L false); try done.
  - by apply Hc.
  - by left.
  - apply few_union; [pose proof (size_two (c_runqueue_lock c) (c_ipi_lock c)) | rewrite size_empty]; lia.
  - apply lookup_insert_eq.
  - apply (cok_ipi _ _ _ _ C).
  - rewrite Ed. exact Rh.
  - intros h2. rewrite Ed. intros Rh2. apply HQ. assert (En' : readied c c t (forked c p) x h2 (launched t p (n + 1) h s) = launched t p (n + 1) h2 s).
    { unfold readied, launched, notified. rewrite Z.eqb_refl, andb_false_r. change (set_state S_READY (forked c p)) with (forked c p). rewrite with_cpus_same by done. by autorewrite with states. }
    rewrite En'. by eapply (outcome_launched s L x me).
Qed.

(** A fork either makes a new thread or fails without effect on the others. *)
Lemma wp_thread_fork s L x me new got_name got_stack proc p (Q : unit -> ksys -> Prop) (E : Z -> ksys -> Prop) :
  kinv lbolt s L -> runs s c x me [] -> (forall t, new = Some t -> k_threads s !! t = None) -> Z.of_nat (size (k_threads s)) + 1 < 2 ^ 32 -> forks_into s me proc p ->
  (forall s', outcome_of false lbolt c s L s' -> Q tt s') -> (forall s', outcome_of false lbolt c s L s' -> E ENOMEM s') ->
  wp (thread_fork c new got_name got_stack proc) Q E s.
Proof.
  intros I R Hnew Hsz Hp HQ HE. assert (Hrefl : outcome_of false lbolt c s L s) by (by eapply stays_outcome, stays_refl).
  unfold thread_fork. apply wp_bind. destruct new as [t|]; [|by apply wp_ret, wp_throw, HE].
  destruct got_name; [|by apply wp_ret, wp_throw, HE]. specialize (Hnew t eq_refl). pose proof (run_thread _ _ _ _ _ R) as Hme.
  rewrite (runs_hold lbolt c s L x me [] I R). apply (wp_thread_create c t (c_curthread x) false IPL_NONE ∅ s L); [congruence|apply (inv_rep _ _ _ _ I)|done..|].
  intros h Rh. destruct got_stack; cbn [negb].
  - by eapply (wp_fork_launch s L x me).
  - apply wp_bind. eapply (wp_fork_nostack lbolt c s L x me); try done.
Qed.
End fork_ok.
