(* ===== verification/KThreadSystem.v ===== *)
(** * The thread system as a whole

    A machine with several processors takes steps: a processor runs a piece
    of kernel code on behalf of its current thread, takes an interrupt, leaves
    [cpu_idle], or goes on with a migration.  The theorems are about every
    state that can be reached, whatever the processors and threads do, in
    which order, and whatever the answers of the allocator are. *)

From S2P Require Import Prelude Threadlist Spl KThread KThreadInv KThreadOps KThreadSwitch KThreadBlocks KThreadIrq.
From S2P Require Import KThreadWake KThreadMigrate KThreadFork.

(** ** Steps *)

Inductive event :=
| EYield
| EExit
| EFork (new : option Z) (got_name got_stack : bool) (proc : option Z)
| EP (sem : Z)
| EV (sem : Z)
| EClocksleep (num_secs : Z)
| EResume
| EHardclock
| ETimerclock
| EIrqV (sem : Z)
| EIpi
| EIdleWakeup
| EMigrate.

Section system.
Context `{DebugAsserts} (lbolt : Z).

(** The code a processor runs.  [EV] is a call by a thread; [EIrqV] is a call
    by the handler of a device. *)
Definition run_event (c : Z) (e : event) : M ksys unit :=
  match e with
  | EYield => returning c (thread_yield c)
  | EExit => returning c (thread_exit c)
  | EFork new got_name got_stack proc => thread_fork c new got_name got_stack proc
  | EP s => returning c (P c s)
  | EV s => V c s
  | EClocksleep n => returning c (clocksleep c lbolt n)
  | EResume =>
      cur <- curthread c ;;
      th <- load_thread cur ;;
      match t_frames th with
      | InP s :: _ => returning c (P_resume c s)
      | InClocksleep n :: _ => returning c (clocksleep_resume c lbolt n)
      | _ => panic
      end
  | EHardclock => irq_hardclock c
  | ETimerclock => irq_timerclock c lbolt
  | EIrqV s => irq_V c s
  | EIpi => irq_ipi c
  | EIdleWakeup => returning c (idle_wakeup c)
  | EMigrate => migrate_continue c
  end.

(** The semaphore exists, and a [V] of it does not overflow the count (the
    code would panic). *)
Definition has_sem (s : ksys) (w : Z) : bool := match k_sems s !! w with Some _ => true | None => false end.
Definition can_V (s : ksys) (w : Z) : bool := match k_sems s !! w with Some n => n + 1 <? 2 ^ 32 | None => false end.

(** When a processor with the current thread [th] can do what: a thread calls
    kernel functions outside of interrupt handlers and of functions it is
    inside of; interrupts come while they are on, and that is when nobody
    has turned them off and while the processor idles. *)
Definition can_now (s : ksys) (e : event) (x : cpu) (th : thread) (i : istate) : bool :=
  let calls := negb (c_isidle x) && negb (t_in_interrupt i) && bool_decide (t_frames th = []) in
  match e with
  | EYield | EExit | EClocksleep _ => calls
  | EFork new _ _ proc =>
      calls && match new with Some t => bool_decide (k_threads s !! t = None) | None => true end
      && (Z.of_nat (size (k_threads s)) + 1 <? 2 ^ 32)
      && match proc with Some p => bool_decide (is_Some (k_procs s !! p)) | None => true end
  | EP w => calls && has_sem s w
  | EV w => calls && can_V s w
  | EResume => negb (c_isidle x) && negb (t_in_interrupt i) && match t_frames th with InP _ :: _ | InClocksleep _ :: _ => true | _ => false end
  | EHardclock | ETimerclock => negb (t_in_interrupt i)
  | EIrqV w => negb (t_in_interrupt i) && can_V s w
  | EIpi => negb (t_in_interrupt i) && c_ipi_line x
  | EIdleWakeup => c_isidle x && c_woken x && negb (t_in_interrupt i)
  | EMigrate => match t_frames th with InMigrate _ :: _ => true | _ => false end
  end.

Definition can (s : ksys) (c : Z) (e : event) : bool :=
  match k_cpus s !! c with
  | Some x =>
      match k_threads s !! c_curthread x, i_threads (k_int s) !! c_curthread x with
      | Some th, Some i => can_now s e x th i
      | _, _ => false
      end
  | None => false
  end.

Inductive kstep (s : ksys) (c : Z) (e : event) (s' : ksys) : Prop :=
| KReturns : can s c e = true -> run_event c e s = Ret tt s' -> kstep s c e s'
| KFails err : can s c e = true -> run_event c e s = Err err s' -> kstep s c e s'.

Inductive reachable (s0 : ksys) : ksys -> Prop :=
| RStart : reachable s0 s0
| RStep s c e s' : reachable s0 s -> kstep s c e s' -> reachable s0 s'.

(** The state of a system that has been set up: the processors, their
    threads and their lists are in order, and no thread sleeps in [P] while
    units are available. *)
Definition sound (s : ksys) (L : gmap Z (list Z)) : Prop := kinv lbolt s L /\ sem_inv s L.

(** ** Every step *)

(** The steps in which a processor goes on to the next thread of its queue. *)
Definition is_turn (e : event) (x : cpu) : bool :=
  match e with
  | EYield | EExit | EIdleWakeup => true
  | EHardclock => negb (c_isidle x) && negb (migration_tick x)
  | _ => false
  end.

Lemma calls_runs s L c x th i :
  kinv lbolt s L -> k_cpus s !! c = Some x -> k_threads s !! c_curthread x = Some th -> i_threads (k_int s) !! c_curthread x = Some i ->
  c_isidle x = false -> t_in_interrupt i = false -> runs s c x th (t_frames th) /\ base (t_frames th).
Proof.
  intros I Hx Hth Hi Hb Hn. destruct (kinv_cur _ _ _ _ I _ _ Hx) as (th' & b & lev & Hth' & _ & _ & Hi' & Hs & _). simplify_eq. cbn in Hn. subst b. rewrite Hb in Hs.
  destruct (shape_quiet false _ _ _ _ _ Hs eq_refl) as (-> & Hbase & _). split; [by split|done].
Qed.

Lemma quiet_interruptible s L c x i :
  kinv lbolt s L -> k_cpus s !! c = Some x -> i_threads (k_int s) !! c_curthread x = Some i -> t_in_interrupt i = false -> interruptible c s x.
Proof.
  intros I Hx Hi Hn. destruct (kinv_cur _ _ _ _ I _ _ Hx) as (th' & b & lev & Hth' & _ & _ & Hi' & _). simplify_eq. cbn in Hn. subst b. split; [done|]. by exists lev.
Qed.

Lemma idle_quiet s L c x i :
  kinv lbolt s L -> k_cpus s !! c = Some x -> i_threads (k_int s) !! c_curthread x = Some i -> t_in_interrupt i = false -> c_isidle x = true ->
  i = IState false IPL_HIGH 1.
Proof.
  intros I Hx Hi Hn Hid. destruct (kinv_cur _ _ _ _ I _ _ Hx) as (th' & b & lev & Hth' & _ & _ & Hi' & Hs & _). simplify_eq. cbn in Hn. subst b. rewrite Hid in Hs.
  by destruct (shape_quiet true _ _ _ _ _ Hs eq_refl) as (-> & _).
Qed.

(** What a step keeps. *)
Definition step_outcome (c : Z) (e : event) (x : cpu) (s : ksys) (L : gmap Z (list Z)) (s' : ksys) : Prop :=
  match e with EMigrate => kept lbolt c s L s' | _ => outcome_of (is_turn e x) lbolt c s L s' end.


Definition event_post (c : Z) (e : event) (x : cpu) (s : ksys) (L : gmap Z (list Z)) : unit -> ksys -> Prop := fun _ s' => step_outcome c e x s L s'.
Definition event_fails (c : Z) (e : event) (x : cpu) (s : ksys) (L : gmap Z (list Z)) : Z -> ksys -> Prop := fun err s' => err = ENOMEM /\ (exists a b n p, e = EFork a b n p) /\ step_outcome c e x s L s'.

Lemma wp_thread_event s L c e x th i :
  kinv lbolt s L -> k_cpus s !! c = Some x -> k_threads s !! c_curthread x = Some th -> i_threads (k_int s) !! c_curthread x = Some i ->
  negb (c_isidle x) && negb (t_in_interrupt i) && bool_decide (t_frames th = []) = true -> can_now s e x th i = true ->
  match e with EYield | EExit | EClocksleep _ | EFork _ _ _ _ | EP _ | EV _ => True | _ => False end ->
  wp (run_event c e) (event_post c e x s L) (event_fails c e x s L) s.
Proof.
  intros I Hx Hth Hi Hcalls Hcan He. pose proof Hcalls as [[Hb%negb_true_iff Hn%negb_true_iff]%andb_true_iff Hf%bool_decide_eq_true_1]%andb_true_iff.
  destruct (calls_runs s L c x th i I Hx Hth Hi Hb Hn) as [R _]. rewrite Hf in R. pose proof (run_quiet _ _ _ _ _ R) as Hq. assert (Hc : is_Some (k_cpus s !! c)) by eauto.
  unfold event_post, step_outcome, can_now in *. destruct e; try done; rewrite Hcalls in Hcan; cbn [run_event is_turn andb] in *.
  - apply (wp_returning lbolt c true _ s L); [done..| |done]. apply (wp_thread_yield lbolt c s L x th false IPL_NONE); try done; [rewrite Hf; done|congruence].
  - apply (wp_returning lbolt c true _ s L); [done..| |done]. by apply (wp_thread_exit lbolt c s L x th).
  - apply andb_true_iff in Hcan as [[Hnew Hsz%Z.ltb_lt]%andb_true_iff Hproc].
    assert (Hp : exists p, forks_into s th proc p).
    { destruct proc as [p|]; [exists p; split; [done|by apply bool_decide_eq_true_1 in Hproc]|].
      destruct (tok_proc _ _ _ _ _ (inv_threads _ _ _ _ I _ _ Hth)) as (p & ? & ?); [|by exists p].
      destruct (running_off _ _ _ _ _ _ I Hx Hb Hth) as (_ & -> & _). done. }
    destruct Hp as [p Hp]. apply (wp_thread_fork lbolt c s L x th new got_name got_stack proc p); try done.
    + intros t ->. by apply bool_decide_eq_true_1 in Hnew.
    + intros s' Ho. split_and!; eauto.
  - unfold has_sem in Hcan. destruct (k_sems s !! sem) as [n|] eqn:Hs; [|done].
    apply (wp_returning lbolt c false _ s L); [done..| |done]. by apply (wp_P lbolt c s L x th sem n).
  - unfold can_V in Hcan. destruct (k_sems s !! sem) as [n|] eqn:Hs; [|done]. apply Z.ltb_lt in Hcan.
    destruct (inv_sems _ _ _ _ I _ _ Hs) as (Hw & _). destruct (inv_wchans _ _ _ _ I _ Hw) as [[l Hl] _].
    apply (wp_V lbolt c s L x false IPL_NONE sem n l); try done; [congruence|]. intros s' L' W. by eapply stays_outcome, V_stays.
  - apply (wp_returning lbolt c false _ s L); [done..| |done]. by apply (wp_clocksleep lbolt c s L x th).
Qed.

Lemma wp_resume s L c x th i :
  kinv lbolt s L -> k_cpus s !! c = Some x -> k_threads s !! c_curthread x = Some th -> i_threads (k_int s) !! c_curthread x = Some i ->
  can_now s EResume x th i = true -> wp (run_event c EResume) (event_post c EResume x s L) (event_fails c EResume x s L) s.
Proof.
  intros I Hx Hth Hi Hcan. cbn [can_now] in Hcan. apply andb_true_iff in Hcan as [[Hb%negb_true_iff Hn%negb_true_iff]%andb_true_iff Hf].
  destruct (calls_runs s L c x th i I Hx Hth Hi Hb Hn) as [R Hbase]. assert (Hc : is_Some (k_cpus s !! c)) by eauto.
  unfold event_post, step_outcome. cbn [run_event is_turn]. apply wp_bind, wp_curthread with (c_curthread x); [by exists x|]. apply wp_bind. eapply wp_load_thread; [exact Hth|].
  destruct Hbase as [E|[[w E]|[n E]]]; rewrite E in R, Hf |- *; [done|..]; apply (wp_returning lbolt c false _ s L); try done.
  - by apply (wp_P_resume lbolt c s L x th).
  - by apply (wp_clocksleep_resume lbolt c s L x th).
Qed.

Lemma can_calls s e x th i :
  can_now s e x th i = true -> match e with EYield | EExit | EClocksleep _ | EFork _ _ _ _ | EP _ | EV _ => True | _ => False end ->
  negb (c_isidle x) && negb (t_in_interrupt i) && bool_decide (t_frames th = []) = true.
Proof. intros Hcan He. destruct e; try done; unfold can_now in Hcan; cbv zeta in Hcan; rewrite ?andb_true_iff in *; tauto. Qed.

Lemma wp_event s L c e :
  kinv lbolt s L -> can s c e = true -> exists x, k_cpus s !! c = Some x /\ wp (run_event c e) (event_post c e x s L) (event_fails c e x s L) s.
Proof.
  intros I Hcan. unfold can in Hcan. destruct (k_cpus s !! c) as [x|] eqn:Hx; [|done]. destruct (k_threads s !! c_curthread x) as [th|] eqn:Hth; [|done].
  destruct (i_threads (k_int s) !! c_curthread x) as [i|] eqn:Hi; [|done]. exists x. split; [done|]. assert (Hc : is_Some (k_cpus s !! c)) by eauto.
  assert (Hirq : t_in_interrupt i = false -> interruptible c s x) by (by eapply quiet_interruptible).
  destruct e; try (by apply (wp_thread_event s L c _ x th i I Hx Hth Hi (can_calls _ _ _ _ _ Hcan Logic.I) Hcan)).
  - by eapply wp_resume.
  - apply negb_true_iff in Hcan. change (run_event c EHardclock) with (irq_hardclock c). apply (wp_irq_hardclock lbolt c s L x _ _ I (Hirq Hcan)). intros s' Ho. exact Ho.
  - apply negb_true_iff in Hcan. change (run_event c ETimerclock) with (irq_timerclock c lbolt). apply (wp_irq_timerclock lbolt c s L x _ _ I (Hirq Hcan)). intros s' Ho. exact Ho.
  - cbn [can_now] in Hcan. apply andb_true_iff in Hcan as [Hn%negb_true_iff HV]. unfold can_V in HV. destruct (k_sems s !! sem) as [n|] eqn:Hs; [|done].
    apply Z.ltb_lt in HV. change (run_event c (EIrqV sem)) with (irq_V c sem). apply (wp_irq_V lbolt c s L x sem n _ _ I (Hirq Hn) Hs HV). intros s' Ho. exact Ho.
  - cbn [can_now] in Hcan. apply andb_true_iff in Hcan as [Hn%negb_true_iff _]. change (run_event c EIpi) with (irq_ipi c). apply (wp_irq_ipi lbolt c s L x _ _ I (Hirq Hn)). intros s' Ho. exact Ho.
  - cbn [can_now] in Hcan. apply andb_true_iff in Hcan as [[Hid _]%andb_true_iff Hn%negb_true_iff]. cbn [run_event].
    apply (wp_returning lbolt c true _ s L); [done..| |done]. apply (wp_idle_wakeup lbolt c s L x); try done. by rewrite Hi, (idle_quiet s L c x i).
  - cbn [can_now] in Hcan. destruct (t_frames th) as [|[?|?|?|m] fs] eqn:Hf; try done. change (run_event c EMigrate) with (migrate_continue c). apply (wp_migrate_continue lbolt c s L x th m fs _ _ I Hx Hth Hf). intros s' Ho. exact Ho.
Qed.

Lemma kstep_outcome s L c e s' : kinv lbolt s L -> kstep s c e s' -> exists x, k_cpus s !! c = Some x /\ step_outcome c e x s L s'.
Proof.
  intros I Hst. assert (Hcan : can s c e = true) by (by destruct Hst). destruct (wp_event s L c e I Hcan) as (x & Hx & W). exists x. split; [done|].
  unfold wp in W. destruct Hst as [_ Hr|err _ Hr]; rewrite Hr in W; [exact W|apply W].
Qed.

Lemma step_outcome_kept c e x s L s' : step_outcome c e x s L s' -> kept lbolt c s L s'.
Proof. destruct e; cbn [step_outcome]; try apply outcome_kept. done. Qed.

Lemma step_sound s L c e s' : sound s L -> kstep s c e s' -> exists L', sound s' L' /\ k_numcpus s' = k_numcpus s.
Proof.
  intros [I Hs] Hst. destruct (kstep_outcome _ _ _ _ _ I Hst) as (x & _ & Ho). destruct (step_outcome_kept _ _ _ _ _ _ Ho) as (L' & I' & _ & Hs' & Hn).
  exists L'. split; [split; auto|done].
Qed.

Lemma reachable_sound s0 L0 s : sound s0 L0 -> reachable s0 s -> exists L, sound s L.
Proof. intros H0. induction 1 as [|s c e s' _ [L IH] Hst]; [eauto|]. destruct (step_sound _ _ _ _ _ IH Hst) as (L' & ? & _). eauto. Qed.
End system.
