(* ===== verification/KThreadSpec.v ===== *)
(** * Theorems about the thread system

    They speak of the states that can be reached from a system that has been
    set up.  The lists are read off the state the way the kernel's own macro
    [THREADLIST_FORALL] walks them. *)

From stdpp Require Import strings.
From S2P Require Import Prelude Threadlist Spl KThread KThreadInv KThreadOps KThreadSwitch KThreadBlocks KThreadIrq.
From S2P Require Import KThreadWake KThreadMigrate KThreadSystem.

(** The threads of a list, in order. *)
Definition threads_on (s : ksys) (tl : Z) : list Z :=
  match THREADLIST_FORALL (thread_fuel s) tl (k_tls s) with Ret l _ => l | _ => [] end.

(** The lists of the system. *)
Definition is_list (s : ksys) (tl : Z) : Prop :=
  (exists c, is_Some (k_cpus s !! c) /\ (tl = c_runqueue c \/ tl = c_zombies c \/ tl = victims c)) \/
  (exists w, is_Some (k_wchans s !! w) /\ tl = wc_threads w).

(** Where a thread is, by its state. *)
Definition well_placed (lbolt : Z) (s : ksys) (t : Z) (th : thread) : Prop :=
  exists c x, t_cpu th = Some c /\ k_cpus s !! c = Some x /\
    match t_state th with
    | S_RUN => c_curthread x = t /\ c_isidle x = false
    | S_READY => t ∈ threads_on s (c_runqueue c) \/ t ∈ threads_on s (victims c)
    | S_SLEEP => exists w, is_Some (k_wchans s !! w) /\ t ∈ threads_on s (wc_threads w) /\ sleeps_on lbolt w (t_frames th)
    | S_ZOMBIE => t ∈ threads_on s (c_zombies c) /\ t_proc th = None
    end.

(** The number of threads that are inside [P] of a semaphore, asleep or not. *)
Definition threads_in_P (s : ksys) (w : Z) : Z := in_P (k_threads s) w.

(** An execution: the steps of the processors and the states they lead to. *)
Inductive exec `{DebugAsserts} (lbolt : Z) : ksys -> list (Z * event * ksys) -> Prop :=
| ExecStop s : exec lbolt s []
| ExecStep s c e s' tr : kstep lbolt s c e s' -> exec lbolt s' tr -> exec lbolt s ((c, e, s') :: tr).

(** How often the scheduler of [c] gets its turn: [c] takes a clock
    interrupt while it is busy (other than one in sixteen, when it considers
    migration), its thread yields or exits, or it leaves [cpu_idle]. *)
Definition turn_of (c : Z) (s : ksys) (d : Z) (e : event) : bool :=
  bool_decide (d = c) && match k_cpus s !! c with Some x => is_turn e x | None => false end.

Fixpoint turns (c : Z) (s : ksys) (tr : list (Z * event * ksys)) : nat :=
  match tr with
  | [] => 0
  | (d, e, s') :: tr => (if turn_of c s d e then 1 else 0) + turns c s' tr
  end.

Section spec.
Context `{DebugAsserts} (lbolt : Z).

Lemma threads_on_rep s L tl l : tl_rep (k_tls s) (dom (k_threads s)) L -> L !! tl = Some l -> threads_on s tl = l.
Proof.
  intros R Hl. unfold threads_on. rewrite (THREADLIST_FORALL_walks _ _ _ _ _ _ R Hl); [done|].
  unfold thread_fuel. pose proof (rep_length _ _ _ _ _ R Hl) as Hlen. rewrite size_dom in Hlen. lia.
Qed.

Lemma is_list_known s L tl : kinv lbolt s L -> is_list s tl -> exists l, L !! tl = Some l /\ threads_on s tl = l.
Proof.
  intros I Hl. assert (Hsome : is_Some (L !! tl)).
  { destruct Hl as [(c & [x Hx] & Hc)|(w & Hw & ->)]; [|apply (inv_wchans _ _ _ _ I _ Hw)]. pose proof (inv_cpus _ _ _ _ I _ _ Hx) as C. destruct (cok_lists _ _ _ _ C) as (H1 & H2 & _).
    destruct Hc as [->|[->| ->]]; [done..|]. destruct (cok_cur _ _ _ _ C) as (th & _ & _ & _ & _ & Hm & _). unfold migrating in Hm.
    destruct (t_frames th) as [|[?|?|?|[]] ?]; try (by rewrite Hm); destruct Hm; destruct_and?; try (by destruct_and!; eauto); naive_solver. }
  destruct Hsome as [l El]. exists l. split; [done|]. eapply threads_on_rep; [apply (inv_rep _ _ _ _ I)|done].
Qed.

Lemma list_of_place s L tl t : kinv lbolt s L -> is_list s tl -> on L tl t <-> t ∈ threads_on s tl.
Proof. intros I Hl. destruct (is_list_known _ _ _ I Hl) as (l & El & ->). by apply on_lookup. Qed.

(** Only the channels of the system have lists of sleepers. *)
Lemma sleeper_channel s L t th w :
  kinv lbolt s L -> k_threads s !! t = Some th -> sleeps_on lbolt w (t_frames th) -> is_Some (k_wchans s !! w).
Proof.
  intros I Hth (pre & [E|(n & E & ->)]); [|apply (inv_lbolt _ _ _ _ I)].
  destruct (tok_sems _ _ _ _ _ (inv_threads _ _ _ _ I _ _ Hth) w) as [n Hn]; [rewrite E; set_solver|]. by destruct (inv_sems _ _ _ _ I _ _ Hn).
Qed.

Lemma kinv_placed s L t th : kinv lbolt s L -> k_threads s !! t = Some th -> well_placed lbolt s t th.
Proof.
  intros I Hth. destruct (tok_cpu _ _ _ _ _ (inv_threads _ _ _ _ I _ _ Hth)) as (c & Hc & [x Hx] & Hp). exists c, x. split_and!; [done..|].
  assert (Hcl : forall tl, tl = c_runqueue c \/ tl = c_zombies c \/ tl = victims c -> on L tl t <-> t ∈ threads_on s tl).
  { intros tl Htl. apply list_of_place; [done|]. left. exists c. eauto. }
  unfold state_place in Hp. destruct (t_state th) eqn:Est.
  - destruct Hp as [Hr _]. unfold role_of in Hr. rewrite Hc in Hr. cbn in Hr. rewrite Hx in Hr. destruct (decide (c_curthread x = t)); [|done]. by destruct (c_isidle x).
  - destruct Hp as [_ Hp]. rewrite !Hcl in Hp by auto. exact Hp.
  - destruct Hp as [_ (w & Ho & Hs)]. exists w. assert (Hw : is_Some (k_wchans s !! w)) by (by eapply sleeper_channel). split_and!; [done| |done].
    eapply list_of_place; [exact I| |exact Ho]. right. eauto.
  - destruct Hp as [_ [Ho Hp]]. rewrite Hcl in Ho by auto. done.
Qed.

(** C10: in every reachable state, whatever a processor can do next, its code
    runs to its end: no assertion fails, no object is accessed outside its
    bounds, every loop ends, and only [thread_fork] can fail, for lack of
    memory. *)
Theorem thread_steps_return s0 L0 s c e :
  sound lbolt s0 L0 -> reachable lbolt s0 s -> can s c e = true ->
  (exists s', run_event lbolt c e s = Ret tt s') \/
  ((exists new got_name got_stack proc, e = EFork new got_name got_stack proc) /\ exists s', run_event lbolt c e s = Err ENOMEM s').
Proof.
  intros H0 Hr Hc. destruct (reachable_sound _ _ _ _ H0 Hr) as (L & I & _). destruct (wp_event lbolt s L c e I Hc) as (x & _ & W).
  unfold wp in W. destruct (run_event lbolt c e s) as [[] s'|err s'| |]; [by left; eauto| |done..]. right. destruct W as (-> & ? & _). eauto.
Qed.


(** C12: no wakeup is lost: in every reachable state, an idle processor with
    a thread on its run queue has an interrupt coming or has just taken one;
    and while threads sleep in [P] of a semaphore, every unit of it is
    matched by a thread that is inside [P], awake, and on its way to it. *)
Theorem no_lost_wakeups s0 L0 s :
  sound lbolt s0 L0 -> reachable lbolt s0 s ->
  (forall c x, k_cpus s !! c = Some x -> c_isidle x = true -> threads_on s (c_runqueue c) <> [] -> c_ipi_line x = true \/ c_woken x = true) /\
  (forall w n, k_sems s !! w = Some n -> threads_on s (wc_threads w) <> [] ->
     n + Z.of_nat (length (threads_on s (wc_threads w))) <= threads_in_P s w).
Proof.
  intros H0 Hr. destruct (reachable_sound _ _ _ _ H0 Hr) as (L & I & Hs). split.
  - intros c x Hx Hid Hq. apply (inv_wake _ _ _ _ I _ _ Hx ltac:(done) Hid). destruct (is_list_known s L (c_runqueue c) I) as (l & El & El'); [left; exists c; eauto|]. congruence.
  - intros w n Hn Hq. destruct (inv_sems _ _ _ _ I _ _ Hn) as (Hw & _). destruct (is_list_known s L (wc_threads w) I) as (l & El & El'); [right; eauto|].
    rewrite El' in Hq |- *. specialize (Hs w n l Hn El Hq). unfold threads_in_P. lia.
Qed.

(** A thread on a run queue moves forward. *)
Lemma step_position s L c d e s' l1 t l2 :
  kinv lbolt s L -> kstep lbolt s d e s' -> (d = c -> e <> EMigrate) -> is_Some (k_cpus s !! c) -> L !! c_runqueue c = Some (l1 ++ t :: l2) ->
  exists L', kinv lbolt s' L' /\ is_Some (k_cpus s' !! c) /\
    (on_cpu c t false s' \/ exists l1' l2', L' !! c_runqueue c = Some (l1' ++ t :: l2') /\ (length l1' + (if turn_of c s d e then 1 else 0) <= length l1)%nat).
Proof.
  intros I Hst Hm Hc Hl. destruct (kstep_outcome _ _ _ _ _ _ I Hst) as (x & Hx & Ho). unfold turn_of.
  assert (Hcpus : forall s1 L1, kinv lbolt s1 L1 -> k_numcpus s1 = k_numcpus s -> is_Some (k_cpus s1 !! c)).
  { intros s1 L1 I1 N1. apply (kinv_is_cpu _ _ _ _ I1). rewrite N1. by apply (kinv_is_cpu _ _ _ _ I). }
  destruct (decide (d = c)) as [->|Hne].
  - rewrite bool_decide_eq_true_2 by done. rewrite Hx. cbn [andb]. assert (Ho' : outcome_of (is_turn e x) lbolt c s L s') by (destruct e; try done; by destruct (Hm eq_refl)).
    destruct Ho' as (L' & I' & [_ He] & _ & Hn). exists L'. split_and!; [done|by eapply Hcpus|]. destruct He as [[Ht Hg]|[(n & l & new & E1 & E2 & E3)|E]].
    + right. destruct (Hg _ Hl) as [new E]. exists l1, (l2 ++ new). rewrite E, <- app_assoc, Ht. split; [done|lia].
    + rewrite Hl in E1. destruct l1 as [|n1 l1]; cbn in E1; simplify_eq; [by left|]. right. exists l1, (l2 ++ new). rewrite E2, <- app_assoc. split; [done|].
      cbn [length]. destruct (is_turn e x); lia.
    + rewrite Hl in E. by destruct l1.
  - rewrite bool_decide_eq_false_2 by done. cbn [andb]. destruct (step_outcome_kept _ _ _ _ _ _ _ Ho) as (L' & I' & Hg & _ & Hn). exists L'. split_and!; [done|by eapply Hcpus|].
    right. destruct (Hg c (not_eq_sym Hne) _ Hl) as [new E]. exists l1, (l2 ++ new). rewrite E, <- app_assoc. split; [done|lia].
Qed.

Lemma position_runs tr s L c l1 t l2 :
  kinv lbolt s L -> is_Some (k_cpus s !! c) -> L !! c_runqueue c = Some (l1 ++ t :: l2) -> exec lbolt s tr -> (forall s', (c, EMigrate, s') ∉ tr) ->
  (length l1 < turns c s tr)%nat -> Exists (fun st => on_cpu c t false st.2) tr.
Proof.
  intros I Hc Hl Hex. revert L l1 l2 I Hc Hl. induction Hex as [s|s d e s' tr Hst Hex IH]; intros L l1 l2 I Hc Hl Hm Hk; cbn [turns] in Hk; [lia|].
  destruct (step_position s L c d e s' l1 t l2 I Hst) as (L' & I' & Hc' & Hcase); [|done|done|].
  { intros -> ->. apply (Hm s'). by left. }
  destruct Hcase as [Hon|(l1' & l2' & Hl' & Hlen)]; [by apply Exists_cons_hd|]. apply Exists_cons_tl. eapply (IH L' l1' l2'); [done..| |destruct (turn_of c s d e); lia].
  intros s2 Hin. apply (Hm s2). by right.
Qed.

End spec.

(** ** A machine with two processors

    A small system that has been set up, and executions of it. *)

(** Debugging assertions are on. *)
#[local] Instance demo_debug : DebugAsserts := true.

Definition demo_lbolt : Z := 1.
Definition demo_sem : Z := 2.
Definition demo_proc : Z := 7.

Definition boot_ops : list tl_op :=
  [OpNodeInit 100; OpNodeInit 200] ++
  (OpInit <$> [c_runqueue 0; c_zombies 0; victims 0; wakeall_list 0; c_runqueue 1; c_zombies 1; victims 1; wakeall_list 1; wc_threads demo_lbolt; wc_threads demo_sem]).

Definition boot_lists : gmap Z (list Z) := default ∅ (snd ∘ snd <$> abs_ops boot_ops (∅, ∅)).
Definition boot_tls : tlstore := match run_ops 30 boot_ops (TLStore ∅ ∅) with Ret _ h => h | _ => TLStore ∅ ∅ end.

Definition boot_thread (stack : option (list Z)) (c : Z) : thread := Thread None S_RUN stack None (Some c) (Some demo_proc) [].
Definition demo_stack : option (list Z) := Some [THREAD_STACK_MAGIC; THREAD_STACK_MAGIC; THREAD_STACK_MAGIC; THREAD_STACK_MAGIC].

(** The state after the boot threads of both processors have run. *)
Definition demo_sys : ksys := KSys
  (<[100 := boot_thread None 0]> {[200 := boot_thread demo_stack 1]})
  (<[0 := Cpu 100 0 false 0 false false]> {[1 := Cpu 200 0 false 0 false false]})
  2 boot_tls
  (Intr (<[100 := IState false IPL_NONE 0]> {[200 := IState false IPL_NONE 0]})
        (<[0 := ICpu 0 true]> {[1 := ICpu 0 true]})
        (gset_to_gmap free_lock {[c_runqueue_lock 0; c_ipi_lock 0; c_runqueue_lock 1; c_ipi_lock 1; wc_lock demo_lbolt; wc_lock demo_sem; p_lock demo_proc]}))
  (<[demo_lbolt := "lbolt"%string]> {[demo_sem := "sem"%string]})
  {[demo_sem := 0]}
  {[demo_proc := 2]}.

Lemma boot_rep : tl_rep boot_tls (dom (k_threads demo_sys)) boot_lists.
Proof.
  assert (E : abs_ops boot_ops (∅, ∅) = Some (replicate 12 RVoid, (dom (k_threads demo_sys), boot_lists))) by (by vm_compute).
  destruct (run_ops_rep (TLStore ∅ ∅) ∅ ∅ boot_ops _ _ _ 30 tl_rep_empty E) as (h & Er & R); [by apply Nat.ltb_lt; vm_compute|].
  unfold boot_tls. by rewrite Er.
Qed.

(** All lists are empty. *)
Lemma boot_empty id l : boot_lists !! id = Some l -> l = [].
Proof.
  assert (Hall : map_Forall (fun _ l => l = []) boot_lists) by (apply (bool_decide_eq_true_1 _); by vm_compute).
  apply Hall.
Qed.

Lemma boot_off t : off_lists boot_lists t.
Proof. intros id l Hl. rewrite (boot_empty _ _ Hl). set_solver. Qed.

Lemma demo_kinv : kinv demo_lbolt demo_sys boot_lists.
Proof.
  assert (Hc : forall c x, k_cpus demo_sys !! c = Some x -> (c = 0 /\ x = Cpu 100 0 false 0 false false) \/ (c = 1 /\ x = Cpu 200 0 false 0 false false)).
  { intros c x. cbn [k_cpus demo_sys]. intros [[<- <-]|[_ [<- <-]%lookup_singleton_Some]]%lookup_insert_Some; auto. }
  assert (Ht : forall t th, k_threads demo_sys !! t = Some th -> (t = 100 /\ th = boot_thread None 0) \/ (t = 200 /\ th = boot_thread demo_stack 1)).
  { intros t th. cbn [k_threads demo_sys]. intros [[<- <-]|[_ [<- <-]%lookup_singleton_Some]]%lookup_insert_Some; auto. }
  split.
  - exact boot_rep.
  - intros t th Hth. apply Ht in Hth. destruct Hth as [[-> ->]|[-> ->]]; (split; [by (left + right)| | | |]).
    all: try (by intros w Hw; apply not_elem_of_nil in Hw).
    all: try (by intros _; exists demo_proc; split; [|eexists]).
    all: try (by eexists; split; [done|constructor; left]).
    all: eexists; split; [done|]; split; [by eexists|]; split; [done|apply boot_off].
  - intros c x Hx. apply Hc in Hx. destruct Hx as [[-> ->]|[-> ->]]; (split; [done| |by split_and!; try (by eexists)|done|by left|by intros ? [= <-]]).
    all: eexists _, _; split_and!; done.
  - intros c x Hx _. apply Hc in Hx. by destruct Hx as [[-> ->]|[-> ->]].
  - intros c Hr. cbn in Hr. assert (c = 0 \/ c = 1) as [-> | ->] by lia; by eexists.
  - done.
  - intros w [n Hn]. revert Hn. cbn [k_wchans demo_sys]. intros [[<- <-]|[_ [<- <-]%lookup_singleton_Some]]%lookup_insert_Some; (split; [by eexists|done]).
  - intros w n. cbn [k_sems demo_sys]. intros [<- <-]%lookup_singleton_Some. split_and!; try done.
  - by eexists.
  - intros p n. cbn [k_procs demo_sys]. intros [<- <-]%lookup_singleton_Some. done.
Qed.

Lemma demo_sound : sound demo_lbolt demo_sys boot_lists.
Proof. split; [exact demo_kinv|]. intros w n l Hn Hl Hne. by rewrite (boot_empty _ _ Hl) in Hne. Qed.

(** ** Executions *)

Definition demo_step (s : ksys) (c : Z) (e : event) : option ksys :=
  if can s c e then match run_event demo_lbolt c e s with Ret _ s' | Err _ s' => Some s' | _ => None end else None.

Fixpoint demo_trace (s : ksys) (evs : list (Z * event)) : option (list (Z * event * ksys)) :=
  match evs with
  | [] => Some []
  | (c, e) :: evs => s' ← demo_step s c e; tr ← demo_trace s' evs; Some ((c, e, s') :: tr)
  end.

Definition final (s : ksys) (tr : list (Z * event * ksys)) : ksys := match last tr with Some (_, s') => s' | None => s end.

Lemma demo_step_kstep s c e s' : demo_step s c e = Some s' -> kstep demo_lbolt s c e s'.
Proof.
  unfold demo_step. destruct (can s c e) eqn:Hc; [|done]. destruct (run_event demo_lbolt c e s) as [[] s1|err s1| |] eqn:Hr; intros [= <-]; [by left | by eright].
Qed.

Lemma demo_exec evs s tr : demo_trace s evs = Some tr -> exec demo_lbolt s tr /\ tr.*1 = evs.
Proof.
  revert s tr. induction evs as [|[c e] evs IH]; intros s tr; cbn [demo_trace]; [intros [= <-]; split; [constructor|done]|].
  destruct (demo_step s c e) as [s'|] eqn:Hs; [|done]. cbn [mbind option_bind]. destruct (demo_trace s' evs) as [tr'|] eqn:Ht; [|done]. cbn. intros [= <-].
  destruct (IH s' tr' Ht) as [IH1 IH2]. split; [econstructor; [by apply demo_step_kstep|done]|]. cbn. by rewrite IH2.
Qed.

Lemma exec_reachable s0 s tr : reachable demo_lbolt s0 s -> exec demo_lbolt s tr -> reachable demo_lbolt s0 (final s tr).
Proof.
  intros Hr Hex. revert Hr. induction Hex as [s|s c e s' tr Hst Hex IH]; intros Hr; [done|]. specialize (IH (RStep _ _ _ _ _ _ Hr Hst)).
  unfold final in *. rewrite last_cons. by destruct (last tr) as [[[??]?]|].
Qed.

(** The boot thread of processor 0 forks two threads and waits for a
    semaphore; the first of them sleeps a second; processor 1 runs out of
    work when its boot thread exits. *)
Definition setup : list (Z * event) :=
  [(0, EFork (Some 300) true true None); (0, EFork (Some 301) true true None); (0, EFork (Some 302) true false None);
   (0, EP demo_sem); (0, EClocksleep 1); (1, EExit)].

Definition setup_trace : list (Z * event * ksys) := default [] (demo_trace demo_sys setup).
Definition busy_sys : ksys := final demo_sys setup_trace.

Lemma setup_runs : demo_trace demo_sys setup = Some setup_trace.
Proof. unfold setup_trace. assert (E : bool_decide (is_Some (demo_trace demo_sys setup)) = true) by (by vm_compute). apply bool_decide_eq_true_1 in E as [tr ->]. done. Qed.

Lemma busy_reachable : reachable demo_lbolt demo_sys busy_sys.
Proof. apply exec_reachable; [constructor|]. by apply (demo_exec setup), setup_runs. Qed.

Example busy_lists :
  (threads_on busy_sys (c_runqueue 0), threads_on busy_sys (wc_threads demo_sem), threads_on busy_sys (wc_threads demo_lbolt), threads_on busy_sys (c_zombies 1),
   c_curthread <$> k_cpus busy_sys !! 0, c_isidle <$> k_cpus busy_sys !! 1) = ([], [100], [300], [200], Some 301, Some true).
Proof. by vm_compute. Qed.

Definition wakeups : list (Z * event) := [(0, EV demo_sem); (1, ETimerclock); (1, EIdleWakeup)].
Definition wakeups_trace : list (Z * event * ksys) := default [] (demo_trace busy_sys wakeups).
Definition ready_sys : ksys := final busy_sys wakeups_trace.

Lemma wakeups_run : demo_trace busy_sys wakeups = Some wakeups_trace.
Proof. unfold wakeups_trace. assert (E : bool_decide (is_Some (demo_trace busy_sys wakeups)) = true) by (by vm_compute). apply bool_decide_eq_true_1 in E as [tr ->]. done. Qed.

Lemma ready_reachable : reachable demo_lbolt demo_sys ready_sys.
Proof. apply exec_reachable; [apply busy_reachable|]. by apply (demo_exec wakeups), wakeups_run. Qed.

(** The threads woken wait behind the one that runs. *)
Example ready_queue : threads_on ready_sys (c_runqueue 0) = [100; 300].
Proof. by vm_compute. Qed.

Definition ticks : list (Z * event) := [(0, EHardclock); (1, ETimerclock); (0, EResume); (1, EHardclock); (0, EHardclock)].
Definition ticks_trace : list (Z * event * ksys) := default [] (demo_trace ready_sys ticks).

Lemma ticks_run : demo_trace ready_sys ticks = Some ticks_trace.
Proof. unfold ticks_trace. assert (E : bool_decide (is_Some (demo_trace ready_sys ticks)) = true) by (by vm_compute). apply bool_decide_eq_true_1 in E as [tr ->]. done. Qed.

(** ** Witnesses *)

Lemma thread_steps_return_witness :
  can busy_sys 0 (EV demo_sem) = true /\
  ((exists s', run_event demo_lbolt 0 (EV demo_sem) busy_sys = Ret tt s') \/
   ((exists new got_name got_stack proc, EV demo_sem = EFork new got_name got_stack proc) /\ exists s', run_event demo_lbolt 0 (EV demo_sem) busy_sys = Err ENOMEM s')).
Proof.
  split; [by vm_compute|]. apply (thread_steps_return demo_lbolt demo_sys boot_lists busy_sys 0 (EV demo_sem) demo_sound busy_reachable). by vm_compute.
Defined.


(** The boot thread waits for the semaphore of the demonstration. *)
Lemma no_lost_wakeups_witness :
  k_sems busy_sys !! demo_sem = Some 0 /\ threads_on busy_sys (wc_threads demo_sem) <> [] /\
  0 + Z.of_nat (length (threads_on busy_sys (wc_threads demo_sem))) <= threads_in_P busy_sys demo_sem.
Proof.
  assert (E : k_sems busy_sys !! demo_sem = Some 0) by (by vm_compute).
  assert (N : threads_on busy_sys (wc_threads demo_sem) <> []) by (by vm_compute).
  split_and!; [exact E | exact N|].
  exact (proj2 (no_lost_wakeups demo_lbolt demo_sys boot_lists busy_sys demo_sound busy_reachable) demo_sem 0 E N).
Defined.

