(* ===== verification/Bswap.v ===== *)
(** * Byte order, [kern/lib/bswap.c]

    The unconditional byte swaps, the network-order conversions of a
    big-endian machine, and the functions that join and split 64-bit values.
    A result is described by its bytes, the most significant first. *)

From S2P Require Import Prelude.

Definition bswap16 (val : Z) : Z :=
  u16 (Z.lor (Z.shiftl (Z.land val 0x00ff) 8) (Z.shiftr (Z.land val 0xff00) 8)).

Definition bswap32 (val : Z) : Z :=
  Z.lor (Z.lor (Z.lor
    (u32 (Z.shiftl (Z.land val 0x000000ff) 24))
    (u32 (Z.shiftl (Z.land val 0x0000ff00) 8)))
    (Z.shiftr (Z.land val 0x00ff0000) 8))
    (Z.shiftr (Z.land val 0xff000000) 24).

Definition bswap64 (val : Z) : Z :=
  Z.lor (Z.lor (Z.lor (Z.lor (Z.lor (Z.lor (Z.lor
    (u64 (Z.shiftl (Z.land val 0x00000000000000ff) 56))
    (u64 (Z.shiftl (Z.land val 0x000000000000ff00) 40)))
    (u64 (Z.shiftl (Z.land val 0x0000000000ff0000) 24)))
    (u64 (Z.shiftl (Z.land val 0x00000000ff000000) 8)))
    (u64 (Z.shiftl (Z.land val 0x000000ff00000000) 8)))
    (u64 (Z.shiftl (Z.land val 0x0000ff0000000000) 24)))
    (Z.shiftr (Z.land val 0x00ff000000000000) 40))
    (Z.shiftr (Z.land val 0xff00000000000000) 56).

Definition ntohs (val : Z) : Z := val.
Definition htons (val : Z) : Z := val.
Definition ntohl (val : Z) : Z := val.
Definition htonl (val : Z) : Z := val.
Definition ntohll (val : Z) : Z := val.
Definition htonll (val : Z) : Z := val.

(** [_BYTE_ORDER == _BIG_ENDIAN] *)
Definition join32to64 (x1 x2 : Z) : Z := Z.lor (u64 (Z.shiftl x1 32)) x2.
Definition split64to32 (x : Z) : Z * Z := (u32 (Z.shiftr x 32), u32 (Z.land x 0xffffffff)).

(** ** Bytes *)

(** Byte [k] of [x], the least significant being byte 0. *)
Definition byte (k x : Z) : Z := u8 (Z.shiftr x (8 * k)).

Lemma byte_range k x : 0 <= byte k x < 256.
Proof. apply (wrap_bound 8). lia. Qed.

Lemma byte_lor k x y : byte k (Z.lor x y) = Z.lor (byte k x) (byte k y).
Proof.
  unfold byte, wrap. rewrite Z.shiftr_lor, <- !Z.land_ones by lia. apply Z.land_lor_distr_l.
Qed.

(** A masked byte is that byte in its place. *)
Lemma land_byte k x : 0 <= k -> Z.land x (Z.shiftl 255 (8 * k)) = Z.shiftl (byte k x) (8 * k).
Proof.
  intros Hk. unfold byte, wrap. rewrite <- Z.land_ones by lia. change (Z.ones 8) with 255.
  apply Z.bits_inj'. intros n Hn. rewrite Z.land_spec, !Z.shiftl_spec, Z.land_spec by done.
  destruct (Z.ltb_spec n (8 * k)).
  - by rewrite !(Z.testbit_neg_r _ (n - 8 * k)), !andb_false_r by lia.
  - rewrite Z.shiftr_spec by lia. by replace (n - 8 * k + 8 * k) with n by lia.
Qed.

(** A byte moved to place [j] is found there and nowhere else. *)
Lemma byte_place b j k : 0 <= b < 256 -> 0 <= j -> 0 <= k ->
  byte k (Z.shiftl b (8 * j)) = if j =? k then b else 0.
Proof.
  intros Hb Hj Hk. unfold byte, wrap. destruct (Z.eqb_spec j k) as [-> |Hne].
  - rewrite Z.shiftr_shiftl_l, Z.sub_diag, Z.shiftl_0_r by lia. by apply Z.mod_small.
  - destruct (Z.ltb_spec j k).
    + rewrite Z.shiftr_shiftl_r, Z.shiftr_div_pow2 by lia.
      rewrite Z.div_small; [done|]. split; [lia|]. apply Z.lt_le_trans with (2 ^ 8); [change (2 ^ 8) with 256; lia|].
      apply Z.pow_le_mono_r; lia.
    + rewrite Z.shiftr_shiftl_l, Z.shiftl_mul_pow2 by lia.
      replace (2 ^ (8 * j - 8 * k)) with (2 ^ (8 * j - 8 * k - 8) * 2 ^ 8)
        by (rewrite <- Z.pow_add_r by lia; f_equal; lia).
      rewrite Z.mul_assoc. apply Z.mod_mul. lia.
Qed.

(** One term of a swap: byte [i] moved up or down [m] places. *)
Lemma term_up w i m x : 0 <= i -> 0 <= m -> 8 * (i + m) + 8 <= w ->
  wrap w (Z.shiftl (Z.land x (Z.shiftl 255 (8 * i))) (8 * m)) = Z.shiftl (byte i x) (8 * (i + m)).
Proof.
  intros Hi Hm Hw. rewrite land_byte, Z.shiftl_shiftl by lia.
  replace (8 * i + 8 * m) with (8 * (i + m)) by lia. apply wrap_small.
  pose proof (byte_range i x) as Hb. rewrite Z.shiftl_mul_pow2 by lia.
  assert (0 < 2 ^ (8 * (i + m))) by (apply Z.pow_pos_nonneg; lia). split; [nia|].
  apply Z.lt_le_trans with (2 ^ 8 * 2 ^ (8 * (i + m))); [change (2 ^ 8) with 256; nia|].
  rewrite <- Z.pow_add_r by lia. apply Z.pow_le_mono_r; lia.
Qed.

Lemma term_down i m x : 0 <= m <= i ->
  Z.shiftr (Z.land x (Z.shiftl 255 (8 * i))) (8 * m) = Z.shiftl (byte i x) (8 * (i - m)).
Proof.
  intros Hm. rewrite land_byte, Z.shiftr_shiftl_l by lia. f_equal. lia.
Qed.

Lemma byte_term i j k x : 0 <= j -> 0 <= k -> byte k (Z.shiftl (byte i x) (8 * j)) = if j =? k then byte i x else 0.
Proof. intros. apply byte_place; [apply byte_range | done | done]. Qed.

Lemma bswap32_terms x : bswap32 x =
  Z.lor (Z.lor (Z.lor (Z.shiftl (byte 0 x) (8 * 3)) (Z.shiftl (byte 1 x) (8 * 2)))
    (Z.shiftl (byte 2 x) (8 * 1))) (Z.shiftl (byte 3 x) (8 * 0)).
Proof.
  unfold bswap32. f_equal; [f_equal; [f_equal|]|].
  - apply (term_up 32 0 3); lia.
  - apply (term_up 32 1 1); lia.
  - apply (term_down 2 1); lia.
  - apply (term_down 3 3); lia.
Qed.

(** The seven terms of [bswap64] that survive. *)
Lemma bswap64_terms x : bswap64 x =
  Z.lor (Z.lor (Z.lor (Z.lor (Z.lor (Z.lor (Z.lor
    (Z.shiftl (byte 0 x) (8 * 7)) (Z.shiftl (byte 1 x) (8 * 6))) (Z.shiftl (byte 2 x) (8 * 5)))
    (Z.shiftl (byte 3 x) (8 * 4))) (Z.shiftl (byte 4 x) (8 * 5))) 0)
    (Z.shiftl (byte 6 x) (8 * 1))) (Z.shiftl (byte 7 x) (8 * 0)).
Proof.
  unfold bswap64. f_equal; [f_equal; [f_equal; [f_equal; [f_equal; [f_equal; [f_equal|]|]|]|]|]|].
  - apply (term_up 64 0 7); lia.
  - apply (term_up 64 1 5); lia.
  - apply (term_up 64 2 3); lia.
  - apply (term_up 64 3 1); lia.
  - apply (term_up 64 4 1); lia.
  - change 0xff0000000000 with (Z.shiftl 255 (8 * 5)). rewrite land_byte, Z.shiftl_shiftl by lia.
    rewrite Z.shiftl_mul_pow2 by lia. apply Z.mod_mul. done.
  - apply (term_down 6 5); lia.
  - apply (term_down 7 7); lia.
Qed.

Lemma byte_u16 k x : k = 0 \/ k = 1 -> byte k (u16 x) = byte k x.
Proof.
  intros H. unfold byte, wrap. rewrite !Z.shiftr_div_pow2 by lia.
  destruct H as [-> | ->]; [change (2 ^ (8 * 0)) with 1 | change (2 ^ (8 * 1)) with 256];
    change (2 ^ 16) with 65536; change (2 ^ 8) with 256; Z.div_mod_to_equations; lia.
Qed.

Lemma byte_bswap16 x : byte 0 (bswap16 x) = byte 1 x /\ byte 1 (bswap16 x) = byte 0 x.
Proof.
  unfold bswap16. rewrite !byte_u16 by auto.
  replace (Z.lor _ _) with (Z.lor (Z.shiftl (byte 0 x) (8 * 1)) (Z.shiftl (byte 1 x) (8 * 0))).
  - rewrite !byte_lor, !byte_term by lia. cbn. by rewrite Z.lor_0_r.
  - f_equal; [|symmetry; apply (term_down 1 1); lia].
    change (Z.shiftl (Z.land x 255) 8) with (Z.shiftl (Z.land x (Z.shiftl 255 (8 * 0))) (8 * 1)).
    by rewrite (land_byte 0), Z.shiftl_shiftl by lia.
Qed.

Lemma byte_bswap32 k x : 0 <= k < 4 -> byte k (bswap32 x) = byte (3 - k) x.
Proof.
  intros Hk. rewrite bswap32_terms, !byte_lor, !byte_term by lia.
  assert (k = 0 \/ k = 1 \/ k = 2 \/ k = 3) as [-> |[-> |[-> | ->]]] by lia; cbn;
    by rewrite ?Z.lor_0_r.
Qed.

Lemma bytes_eq x : 0 <= x < 2 ^ 32 ->
  x = byte 0 x + 256 * byte 1 x + 65536 * byte 2 x + 16777216 * byte 3 x.
Proof.
  intros Hx. unfold byte, wrap. rewrite !Z.shiftr_div_pow2 by lia.
  change (2 ^ (8 * 0)) with 1. change (2 ^ (8 * 1)) with 256. change (2 ^ (8 * 2)) with 65536.
  change (2 ^ (8 * 3)) with 16777216. change (2 ^ 8) with 256. change (2 ^ 32) with 4294967296 in Hx.
  Z.div_mod_to_equations. lia.
Qed.

Lemma lor_range w x y : 0 <= w -> 0 <= x < 2 ^ w -> 0 <= y < 2 ^ w -> 0 <= Z.lor x y < 2 ^ w.
Proof.
  intros Hw Hx Hy. assert (E : wrap w (Z.lor x y) = Z.lor x y).
  { unfold wrap. rewrite <- Z.land_ones, Z.land_lor_distr_l, !Z.land_ones by lia. by rewrite !Z.mod_small. }
  rewrite <- E. by apply wrap_bound.
Qed.

Lemma bswap32_range x : 0 <= bswap32 x < 2 ^ 32.
Proof.
  rewrite bswap32_terms. pose proof (byte_range 0 x). pose proof (byte_range 1 x).
  pose proof (byte_range 2 x). pose proof (byte_range 3 x).
  repeat (apply lor_range; [lia| |]); rewrite Z.shiftl_mul_pow2 by lia;
    [change (2 ^ (8 * 3)) with 16777216 | change (2 ^ (8 * 2)) with 65536 | change (2 ^ (8 * 1)) with 256 |
     change (2 ^ (8 * 0)) with 1]; lia.
Qed.

(** [bswap16] and [bswap32] reverse the bytes of their argument, and
    [bswap32] undoes itself. *)
Theorem bswap_reverses x :
  (byte 0 (bswap16 x) = byte 1 x /\ byte 1 (bswap16 x) = byte 0 x) /\
  (forall k, 0 <= k < 4 -> byte k (bswap32 x) = byte (3 - k) x) /\
  (0 <= x < 2 ^ 32 -> bswap32 (bswap32 x) = x).
Proof.
  split; [apply byte_bswap16|]. split; [intros; by apply byte_bswap32|]. intros Hx.
  rewrite (bytes_eq (bswap32 (bswap32 x))) by apply bswap32_range. rewrite (bytes_eq x) at 5 by done.
  by rewrite !byte_bswap32 by lia.
Qed.

(** [bswap64] does not reverse the bytes of its argument: it shifts the
    fifth and the sixth byte the wrong way, so that the fifth is merged into
    the place of the third, the sixth is lost, and two bytes of the result
    are zero. *)
Theorem bswap64_bytes x :
  map (fun k => byte k (bswap64 x)) [7; 6; 5; 4; 3; 2; 1; 0] =
  [byte 0 x; byte 1 x; Z.lor (byte 2 x) (byte 4 x); byte 3 x; 0; 0; byte 6 x; byte 7 x].
Proof.
  rewrite bswap64_terms. cbn [map].
  assert (Z0 : forall k, byte k 0 = 0) by (intros k; unfold byte; by rewrite Z.shiftr_0_l).
  rewrite !byte_lor, !byte_term, !Z0 by lia. cbn. by rewrite ?Z.lor_0_r.
Qed.

(** [split64to32] undoes [join32to64]. *)
Lemma split_join x1 x2 : 0 <= x1 < 2 ^ 32 -> 0 <= x2 < 2 ^ 32 -> split64to32 (join32to64 x1 x2) = (x1, x2).
Proof.
  intros H1 H2. unfold split64to32, join32to64.
  assert (E : u64 (Z.shiftl x1 32) = Z.shiftl x1 32).
  { apply wrap_small. rewrite Z.shiftl_mul_pow2 by lia. lia. }
  rewrite E. f_equal.
  - rewrite Z.shiftr_lor, Z.shiftr_shiftl_l, Z.shiftl_0_r by lia.
    rewrite (Z.shiftr_div_pow2 x2), Z.div_small, Z.lor_0_r by lia. by apply wrap_small.
  - change 0xffffffff with (Z.ones 32). rewrite Z.land_ones, <- (Z.land_ones (Z.lor _ _)), Z.land_lor_distr_l by lia.
    rewrite !Z.land_ones, Z.shiftl_mul_pow2, Z.mod_mul, Z.lor_0_l by lia.
    unfold wrap. rewrite Z.mod_mod by lia. by apply Z.mod_small.
Qed.

Lemma split_join_witness : split64to32 (join32to64 1 0xffffffff) = (1, 0xffffffff).
Proof. apply split_join; lia. Defined.
