(* ===== verification/Bitmap.v ===== *)
(** * Fixed-size array of bits, [kern/lib/bitmap.c]

    The bitmap the SFS free-block map is kept in: its record, its six
    operations, the well-formedness invariant ([bitmap_wf]: the array has
    exactly the words the bit count needs, every word is a byte, the bits
    past the end are marked in use), and for each operation its effect on the
    set of bits ([bit]). *)

From S2P Require Import Prelude.

Definition BITS_PER_WORD : Z := 8.
Definition WORD_ALLBITS : Z := 255.

Record bitmap := Bitmap { nbits : Z; v : list Z }.

(** [DIVROUNDUP(a, b)] of [lib.h], on [unsigned]. *)
Definition DIVROUNDUP (a b : Z) : Z := u32 (a + b - 1) / b.

(** The word a C [b->v[ix]] reads, and the assignment to it. *)
Definition read_word (ix : Z) : M bitmap Z :=
  b <- get ;; oob (zlookup (v b) ix).

Definition write_word (ix w : Z) : M bitmap unit :=
  _ <- read_word ix ;;
  modify (fun b => Bitmap (nbits b) (zinsert ix (u8 w) (v b))).

(** [ok_b] and [ok_v] say whether the two [kmalloc] calls succeed; [None] is
    the null pointer. *)
Definition bitmap_create (ok_b ok_v : bool) (nbits : Z) : M unit (option bitmap) :=
  let words := DIVROUNDUP nbits BITS_PER_WORD in
  if negb ok_b then ret None
  else if negb ok_v then ret None
  else
    let b := Bitmap nbits (replicate (Z.to_nat words) 0) in
    if nbits / BITS_PER_WORD <? words then
      let ix := u32 (words - 1) in
      let overbits := u32 (nbits - ix * BITS_PER_WORD) in
      KASSERT (nbits / BITS_PER_WORD =? u32 (words - 1)) ;;
      KASSERT ((0 <? overbits) && (overbits <? BITS_PER_WORD)) ;;
      b' <- init_with b (for_each overbits (Z.to_nat (BITS_PER_WORD - overbits))
              (fun j => w <- read_word ix ;;
                        write_word ix (Z.lor w (u8 (Z.shiftl 1 j))))) ;;
      ret (Some b')
    else ret (Some b).

Definition bitmap_getdata (b : bitmap) : list Z := v b.

Definition bitmap_alloc : M bitmap Z :=
  b0 <- get ;;
  let maxix := DIVROUNDUP (nbits b0) BITS_PER_WORD in
  r <- for_loop 0 (Z.to_nat maxix) (fun ix =>
         w <- read_word ix ;;
         if w =? WORD_ALLBITS then ret None
         else
           r <- for_loop 0 (Z.to_nat BITS_PER_WORD) (fun offset =>
                  let mask := u8 (Z.shiftl 1 offset) in
                  w <- read_word ix ;;
                  if Z.land w mask =? 0 then
                    write_word ix (Z.lor w mask) ;;
                    let index := u32 (ix * BITS_PER_WORD + offset) in
                    b <- get ;;
                    KASSERT (index <? nbits b) ;;
                    ret (Some index)
                  else ret None) ;;
           match r with
           | Some index => ret (Some index)
           | None => KASSERT false ;; ret None
           end) ;;
  match r with
  | Some index => ret index
  | None => throw ENOSPC
  end.

(** The word index and the mask the C function stores through its pointers. *)
Definition bitmap_translate (bitno : Z) : Z * Z :=
  let offset := bitno mod BITS_PER_WORD in
  (bitno / BITS_PER_WORD, u8 (Z.shiftl 1 offset)).

Definition bitmap_mark (index : Z) : M bitmap unit :=
  b <- get ;;
  KASSERT (index <? nbits b) ;;
  let '(ix, mask) := bitmap_translate index in
  w <- read_word ix ;;
  KASSERT (Z.land w mask =? 0) ;;
  write_word ix (Z.lor w mask).

Definition bitmap_unmark (index : Z) : M bitmap unit :=
  b <- get ;;
  KASSERT (index <? nbits b) ;;
  let '(ix, mask) := bitmap_translate index in
  w <- read_word ix ;;
  KASSERT (negb (Z.land w mask =? 0)) ;;
  write_word ix (Z.land w (Z.lnot mask)).

(** The C function returns the masked word, used as a truth value. *)
Definition bitmap_isset (index : Z) : M bitmap Z :=
  let '(ix, mask) := bitmap_translate index in
  w <- read_word ix ;;
  ret (Z.land w mask).

(** ** Specification *)

(** Bit [i] of the array. *)
Definition bit (b : bitmap) (i : Z) : bool :=
  match zlookup (v b) (i / 8) with
  | Some w => Z.testbit w (i mod 8)
  | None => true
  end.

Definition byte_ok (w : Z) : Prop := 0 <= w < 256.

Record bitmap_wf (b : bitmap) : Prop := {
  wf_nbits : 0 <= nbits b <= 2 ^ 32 - 8;
  wf_length : Z.of_nat (length (v b)) = (nbits b + 7) / 8;
  wf_bytes : Forall byte_ok (v b);
  wf_tail : forall i, nbits b <= i -> bit b i = true
}.

(** The bitmap after bit [i] is given the value [c]. *)
Definition bit_updated (b b' : bitmap) (i : Z) (c : bool) : Prop :=
  nbits b' = nbits b /\
  forall j, 0 <= j -> bit b' j = if j =? i then c else bit b j.

(** ** Bit-level lemmas *)

Lemma divroundup_words n : 0 <= n <= 2 ^ 32 - 8 -> DIVROUNDUP n BITS_PER_WORD = (n + 7) / 8.
Proof.
  intros H. unfold DIVROUNDUP, BITS_PER_WORD. rewrite wrap_small by lia.
  f_equal. lia.
Qed.

Lemma mask_pow k : 0 <= k < 8 -> u8 (Z.shiftl 1 k) = 2 ^ k.
Proof. apply mask_shift. Qed.

Lemma byte_testbit_high w k : byte_ok w -> 8 <= k -> Z.testbit w k = false.
Proof. apply (word_testbit_high 8). Qed.

Lemma lor_mask_byte w k : byte_ok w -> 0 <= k < 8 -> byte_ok (Z.lor w (2 ^ k)).
Proof. intros. by apply (lor_mask_word 8). Qed.

Lemma ldiff_mask_byte w k : byte_ok w -> 0 <= k < 8 -> byte_ok (Z.land w (Z.lnot (2 ^ k))).
Proof. intros. by apply (ldiff_mask_word 8). Qed.

Lemma byte_u8 w : byte_ok w -> u8 w = w.
Proof. intros H. by apply wrap_small. Qed.

#[export] Hint Resolve lor_mask_byte ldiff_mask_byte : kernel.

(** ** The state of the array under a single-word update *)

(** Writing the word that holds bit [i], with only that bit changed. *)
Lemma bit_write b i w w' c :
  0 <= i -> zlookup (v b) (i / 8) = Some w ->
  (forall k, 0 <= k -> Z.testbit w' k = if k =? i mod 8 then c else Z.testbit w k) ->
  bit_updated b (Bitmap (nbits b) (zinsert (i / 8) w' (v b))) i c.
Proof.
  intros Hi Hw Hb. split; [done|]. intros j Hj. unfold bit. cbn.
  destruct (Z.eq_dec (j / 8) (i / 8)) as [E|E].
  - rewrite E, zlookup_insert_eq, Hw by (by eapply zlookup_lt).
    rewrite Hb by (apply Z.mod_pos_bound; lia).
    destruct (Z.eqb_spec j i) as [->|Hne]; [by rewrite Z.eqb_refl|].
    destruct (Z.eqb_spec (j mod 8) (i mod 8)); [|done].
    exfalso. apply Hne. rewrite (Z.div_mod j 8), (Z.div_mod i 8) by lia. lia.
  - rewrite zlookup_insert_ne by done.
    destruct (Z.eqb_spec j i) as [->|]; [lia | done].
Qed.

Lemma wf_write b i w' c :
  bitmap_wf b -> 0 <= i < nbits b -> byte_ok w' ->
  bit_updated b (Bitmap (nbits b) (zinsert (i / 8) w' (v b))) i c ->
  bitmap_wf (Bitmap (nbits b) (zinsert (i / 8) w' (v b))).
Proof.
  intros [H1 H2 H3 H4] Hi Hw [_ Hu]. split; cbn [nbits v].
  - done.
  - by rewrite zinsert_length.
  - by apply Forall_zinsert.
  - intros j Hj. rewrite Hu by lia. destruct (Z.eqb_spec j i); [lia | by apply H4].
Qed.

Lemma wf_word b ix :
  bitmap_wf b -> 0 <= ix < (nbits b + 7) / 8 ->
  exists w, zlookup (v b) ix = Some w /\ byte_ok w.
Proof.
  intros Hwf Hix. destruct (zlookup_is_Some (v b) ix) as [w Hw].
  { by rewrite (wf_length b Hwf). }
  exists w. split; [done|]. by eapply Forall_zlookup; [apply wf_bytes|].
Qed.

Lemma word_index b i : 0 <= i < nbits b -> 0 <= i / 8 < (nbits b + 7) / 8.
Proof. intros H. split; [apply Z.div_pos; lia|]. apply Z.div_lt_upper_bound; [lia|].
  pose proof (Z.div_mod (nbits b + 7) 8). pose proof (Z.mod_pos_bound (nbits b + 7) 8). lia.
Qed.

(** ** The operations *)

Lemma wp_read_word ix w (Q : Z -> bitmap -> Prop) E b :
  zlookup (v b) ix = Some w -> Q w b -> wp (read_word ix) Q E b.
Proof. intros H HQ. unfold read_word. wp_steps. by eapply wp_oob. Qed.

Lemma wp_write_word ix w0 w (Q : unit -> bitmap -> Prop) E b :
  zlookup (v b) ix = Some w0 -> byte_ok w ->
  Q tt (Bitmap (nbits b) (zinsert ix w (v b))) -> wp (write_word ix w) Q E b.
Proof.
  intros H Hw HQ. unfold write_word. wp_step. eapply wp_read_word; [done|].
  wp_step. by rewrite byte_u8.
Qed.

Lemma bit_word b i w : zlookup (v b) (i / 8) = Some w -> bit b i = Z.testbit w (i mod 8).
Proof. unfold bit. by intros ->. Qed.

(** Marking a clear bit of a well-formed map sets that bit and no other. *)
Lemma wp_bitmap_mark b i E :
  bitmap_wf b -> 0 <= i < nbits b -> bit b i = false ->
  wp (bitmap_mark i) (fun _ b' => bitmap_wf b' /\ bit_updated b b' i true) E b.
Proof.
  intros Hwf Hi Hb. destruct (wf_word b (i / 8) Hwf (word_index b i Hi)) as (w & Hw & Hbyte).
  rewrite (bit_word b i w Hw) in Hb.
  pose proof (Z.mod_pos_bound i 8 ltac:(lia)) as Hm.
  unfold bitmap_mark, bitmap_translate, BITS_PER_WORD. rewrite mask_pow by done. wp_steps.
  apply wp_kassert; [lia|]. wp_step. eapply wp_read_word; [done|].
  wp_step. apply wp_kassert; [by rewrite land_mask_0, Hb by lia|].
  eapply wp_write_word; [done | by apply lor_mask_byte |].
  assert (U : bit_updated b (Bitmap (nbits b) (zinsert (i / 8) (Z.lor w (2 ^ (i mod 8))) (v b))) i true).
  { eapply bit_write; [lia | done |]. intros k Hk. apply lor_mask_testbit; lia. }
  split; [|done]. eapply wf_write; eauto with kernel.
Qed.

(** Unmarking a set bit clears that bit and no other. *)
Lemma wp_bitmap_unmark b i E :
  bitmap_wf b -> 0 <= i < nbits b -> bit b i = true ->
  wp (bitmap_unmark i) (fun _ b' => bitmap_wf b' /\ bit_updated b b' i false) E b.
Proof.
  intros Hwf Hi Hb. destruct (wf_word b (i / 8) Hwf (word_index b i Hi)) as (w & Hw & Hbyte).
  rewrite (bit_word b i w Hw) in Hb.
  pose proof (Z.mod_pos_bound i 8 ltac:(lia)) as Hm.
  unfold bitmap_unmark, bitmap_translate, BITS_PER_WORD. rewrite mask_pow by done. wp_steps.
  apply wp_kassert; [lia|]. wp_step. eapply wp_read_word; [done|].
  wp_step. apply wp_kassert; [by rewrite land_mask_0, Hb by lia|].
  eapply wp_write_word; [done | by apply ldiff_mask_byte |].
  assert (U : bit_updated b (Bitmap (nbits b)
      (zinsert (i / 8) (Z.land w (Z.lnot (2 ^ (i mod 8)))) (v b))) i false).
  { eapply bit_write; [lia | done |]. intros k Hk. apply ldiff_mask_testbit; lia. }
  split; [|done]. eapply wf_write; eauto with kernel.
Qed.

Lemma wp_bitmap_isset b i (Q : Z -> bitmap -> Prop) E :
  bitmap_wf b -> 0 <= i < nbits b ->
  (forall r, (r =? 0) = negb (bit b i) -> Q r b) -> wp (bitmap_isset i) Q E b.
Proof.
  intros Hwf Hi HQ. destruct (wf_word b (i / 8) Hwf (word_index b i Hi)) as (w & Hw & _).
  pose proof (Z.mod_pos_bound i 8 ltac:(lia)) as Hm.
  unfold bitmap_isset, bitmap_translate, BITS_PER_WORD. rewrite mask_pow by done. wp_steps.
  eapply wp_read_word; [done|]. wp_step. apply HQ.
  by rewrite land_mask_0, (bit_word b i w Hw) by lia.
Qed.

Lemma all_ones w : byte_ok w -> (forall k, 0 <= k < 8 -> Z.testbit w k = true) -> w = 255.
Proof.
  intros Hw H. apply Z.bits_inj'. intros k Hk. change 255 with (Z.ones 8).
  destruct (Z.lt_ge_cases k 8).
  - by rewrite H, Z.ones_spec_low by lia.
  - by rewrite byte_testbit_high, Z.ones_spec_high by (done || lia).
Qed.

Lemma ones_all k : 0 <= k < 8 -> Z.testbit 255 k = true.
Proof. intros H. change 255 with (Z.ones 8). by apply Z.ones_spec_low. Qed.

Lemma idx_split ix k : 0 <= k < 8 -> (ix * 8 + k) / 8 = ix /\ (ix * 8 + k) mod 8 = k.
Proof. intros H. split; [symmetry; apply Z.div_unique with k; lia
  | symmetry; apply Z.mod_unique with ix; lia]. Qed.

(** [bitmap_alloc] hands out the first clear bit and marks it, or fails with
    [ENOSPC] on a full map, which it leaves alone. *)
Definition alloc_post (b : bitmap) (i : Z) (b' : bitmap) : Prop :=
  0 <= i < nbits b /\ bit b i = false /\ (forall j, 0 <= j < i -> bit b j = true) /\
  bit_updated b b' i true /\ bitmap_wf b'.

Lemma wp_bitmap_alloc b :
  bitmap_wf b ->
  wp bitmap_alloc (alloc_post b)
     (fun e b' => e = ENOSPC /\ b' = b /\ forall j, 0 <= j -> bit b j = true) b.
Proof.
  intros Hwf. pose proof (wf_nbits b Hwf) as Hn. unfold bitmap_alloc. wp_steps.
  rewrite divroundup_words by done. set (words := (nbits b + 7) / 8).
  assert (Hwords : 0 <= words) by (apply Z.div_pos; lia).
  assert (Hw8 : nbits b <= words * 8).
  { pose proof (Z.div_mod (nbits b + 7) 8). pose proof (Z.mod_pos_bound (nbits b + 7) 8). lia. }
  eapply wp_for_loop with
    (Inv := fun ix s => s = b /\ forall j, 0 <= j < ix * 8 -> bit b j = true).
  - split; [done | lia].
  - intros ix s [Hix0 Hix1] [-> Hpre]. rewrite Z2Nat.id in Hix1 by done.
    destruct (wf_word b ix Hwf ltac:(lia)) as (w & Hw & Hbyte).
    wp_step. eapply wp_read_word; [done|].
    destruct (Z.eqb_spec w WORD_ALLBITS) as [->|Hne].
    + apply wp_ret. split; [done|]. intros j Hj.
      destruct (Z.lt_ge_cases j (ix * 8)); [apply Hpre; lia|].
      destruct (idx_split ix (j - ix * 8) ltac:(lia)) as [E1 E2].
      replace (ix * 8 + (j - ix * 8)) with j in E1, E2 by lia.
      rewrite (bit_word b j 255) by (by rewrite E1). rewrite E2. apply ones_all. lia.
    + wp_step. eapply wp_for_loop with
        (Inv := fun k s => s = b /\ forall j, 0 <= j < k -> Z.testbit w j = true).
      * split; [done | lia].
      * intros k s [Hk0 Hk1] [-> Hones]. change (Z.of_nat _) with 8 in Hk1.
        rewrite mask_pow by lia. wp_step. eapply wp_read_word; [done|].
        rewrite land_mask_0 by lia. destruct (Z.testbit w k) eqn:Ek; cbn [negb].
        -- apply wp_ret. split; [done|]. intros j Hj.
           destruct (Z.eq_dec j k) as [->|]; [done | apply Hones; lia].
        -- destruct (idx_split ix k ltac:(lia)) as [E1 E2].
           assert (Hbit : bit b (ix * 8 + k) = false).
           { rewrite (bit_word b _ w) by (by rewrite E1). by rewrite E2. }
           assert (Hlt : ix * 8 + k < nbits b).
           { destruct (Z.lt_ge_cases (ix * 8 + k) (nbits b)) as [|Hge]; [done|].
             by rewrite (wf_tail b Hwf _ Hge) in Hbit. }
           wp_step. eapply wp_write_word; [done | apply lor_mask_byte; [done | lia] |].
           wp_steps. rewrite wrap_small by (unfold BITS_PER_WORD; lia).
           unfold BITS_PER_WORD. apply wp_kassert; [cbn; lia|].
           apply wp_ret, wp_ret, wp_ret.
           assert (U : bit_updated b (Bitmap (nbits b)
              (zinsert ((ix * 8 + k) / 8) (Z.lor w (2 ^ k)) (v b))) (ix * 8 + k) true).
           { eapply bit_write; [lia | by rewrite E1 |].
             intros j Hj. rewrite E2. apply lor_mask_testbit; lia. }
           unfold alloc_post. rewrite E1 in U. split; [lia|]. split; [done|].
           split; [|split; [done|]].
           ++ intros j Hj. destruct (Z.lt_ge_cases j (ix * 8)); [apply Hpre; lia|].
              destruct (idx_split ix (j - ix * 8) ltac:(lia)) as [E3 E4].
              replace (ix * 8 + (j - ix * 8)) with j in E3, E4 by lia.
              rewrite (bit_word b j w) by (by rewrite E3). rewrite E4. apply Hones. lia.
           ++ rewrite <- E1. eapply wf_write; [done | lia | | by rewrite E1].
              apply lor_mask_byte; [done | lia].
      * intros s [-> Hones]. exfalso. apply Hne, all_ones; [done|].
        intros k Hk. apply Hones. change (Z.of_nat _) with 8. lia.
  - intros s [-> Hall]. rewrite Z2Nat.id in Hall by done. unfold throw, wp.
    split; [done|]. split; [done|]. intros j Hj.
    destruct (Z.lt_ge_cases j (nbits b)); [apply Hall; lia | by apply wf_tail].
Qed.

(** The word the creation loop leaves at the end of the array. *)
Lemma wp_fill_tail b ix (lo : Z) (Q : unit -> bitmap -> Prop) E :
  0 <= lo <= 8 -> zlookup (v b) ix = Some 0 ->
  (forall w, byte_ok w -> (forall k, 0 <= k < 8 -> Z.testbit w k = (lo <=? k)) ->
     Q tt (Bitmap (nbits b) (zinsert ix w (v b)))) ->
  wp (for_each lo (Z.to_nat (8 - lo))
        (fun j => w <- read_word ix ;; write_word ix (Z.lor w (u8 (Z.shiftl 1 j))))) Q E b.
Proof.
  intros Hlo H0 HQ. pose proof (zlookup_lt _ _ _ H0) as Hix.
  eapply wp_for_each with (Inv := fun j s => exists w, byte_ok w /\
    (forall k, 0 <= k < 8 -> Z.testbit w k = (lo <=? k) && (k <? j)) /\
    s = Bitmap (nbits b) (zinsert ix w (v b))).
  - exists 0. split; [done|]. split.
    + intros k Hk. rewrite Z.bits_0. bsolve.
    + rewrite zinsert_id by done. by destruct b.
  - intros j s Hj (w & Hw & Hk & ->).
    assert (L : zlookup (v (Bitmap (nbits b) (zinsert ix w (v b)))) ix = Some w)
      by (by apply zlookup_insert_eq).
    rewrite mask_pow by lia. wp_step. eapply wp_read_word; [done|].
    eapply wp_write_word; [done | apply lor_mask_byte; [done | lia] |]. cbn [nbits v].
    exists (Z.lor w (2 ^ j)). split; [apply lor_mask_byte; [done | lia]|]. split.
    + intros k Hk'. rewrite lor_mask_testbit, Hk by lia. bsolve.
    + f_equal. unfold zinsert. destruct (0 <=? ix); [|done]. apply list_insert_insert_eq.
  - intros s (w & Hw & Hk & ->). apply HQ; [done|].
    intros k Hk'. rewrite Hk by done. bsolve.
Qed.

Lemma bit_fresh n w i :
  0 <= n -> 0 <= i -> byte_ok w ->
  (forall k, 0 <= k < 8 -> Z.testbit w k = (n mod 8 <=? k)) -> n mod 8 <> 0 ->
  bit (Bitmap n (zinsert (n / 8) w (replicate (Z.to_nat ((n + 7) / 8)) 0))) i = (n <=? i).
Proof.
  intros Hn Hi Hw Hk Hm.
  pose proof (Z.div_mod n 8 ltac:(lia)). pose proof (Z.mod_pos_bound n 8 ltac:(lia)).
  pose proof (Z.div_mod i 8 ltac:(lia)). pose proof (Z.mod_pos_bound i 8 ltac:(lia)).
  assert (Hlast : (n + 7) / 8 = n / 8 + 1).
  { symmetry. apply Z.div_unique with (n mod 8 - 1); lia. }
  assert (0 <= n / 8) by (apply Z.div_pos; lia).
  unfold bit. cbn [v]. destruct (Z.eq_dec (i / 8) (n / 8)) as [E|E].
  - rewrite E, zlookup_insert_eq by (rewrite length_replicate; lia).
    rewrite Hk by done. bsolve.
  - rewrite zlookup_insert_ne by lia.
    destruct (Z.lt_ge_cases (i / 8) ((n + 7) / 8)).
    + rewrite zlookup_replicate by (split; [apply Z.div_pos|]; lia).
      rewrite Z.bits_0. bsolve.
    + rewrite zlookup_None by (rewrite length_replicate; lia). bsolve.
Qed.

Lemma bit_fresh_full n i :
  0 <= n -> 0 <= i -> n mod 8 = 0 ->
  bit (Bitmap n (replicate (Z.to_nat ((n + 7) / 8)) 0)) i = (n <=? i).
Proof.
  intros Hn Hi Hm. pose proof (Z.div_mod n 8 ltac:(lia)).
  pose proof (Z.div_mod i 8 ltac:(lia)). pose proof (Z.mod_pos_bound i 8 ltac:(lia)).
  assert (Hlast : (n + 7) / 8 = n / 8).
  { symmetry. apply Z.div_unique with 7; lia. }
  unfold bit. cbn [v]. rewrite Hlast. destruct (Z.lt_ge_cases (i / 8) (n / 8)).
  - rewrite zlookup_replicate by (split; [apply Z.div_pos|]; lia).
    rewrite Z.bits_0. bsolve.
  - rewrite zlookup_None by (rewrite length_replicate; lia). bsolve.
Qed.

Definition create_post (n : Z) (r : option bitmap) : Prop :=
  exists b, r = Some b /\ nbits b = n /\ bitmap_wf b /\
            forall i, 0 <= i -> bit b i = (n <=? i).

Lemma create_post_intro n l :
  0 <= n <= 2 ^ 32 - 8 -> Z.of_nat (length l) = (n + 7) / 8 -> Forall byte_ok l ->
  (forall i, 0 <= i -> bit (Bitmap n l) i = (n <=? i)) -> create_post n (Some (Bitmap n l)).
Proof.
  intros Hn Hl Hf Hb. exists (Bitmap n l). repeat split; try (cbn; done || lia).
  intros i Hi. rewrite Hb; cbn in Hi; lia.
Qed.

Lemma wp_bitmap_create n :
  0 <= n <= 2 ^ 32 - 8 ->
  wp (bitmap_create true true n) (fun r _ => create_post n r) (fun _ _ => False) tt.
Proof.
  intros Hn. unfold bitmap_create. cbn [negb].
  rewrite divroundup_words by done. unfold BITS_PER_WORD.
  pose proof (Z.div_mod n 8 ltac:(lia)). pose proof (Z.mod_pos_bound n 8 ltac:(lia)).
  assert (0 <= n / 8) by (apply Z.div_pos; lia).
  assert (Z0 : forall k, Forall byte_ok (replicate k 0)) by (intros; by apply Forall_replicate).
  destruct (Z.eq_dec (n mod 8) 0) as [Hm|Hm].
  - assert (E : (n + 7) / 8 = n / 8) by (symmetry; apply Z.div_unique with 7; lia).
    rewrite E, Z.ltb_irrefl. apply wp_ret.
    apply create_post_intro; [done | rewrite length_replicate; lia | done |].
    intros i Hi. rewrite <- E. by apply bit_fresh_full; lia.
  - assert (E : (n + 7) / 8 = n / 8 + 1) by (symmetry; apply Z.div_unique with (n mod 8 - 1); lia).
    rewrite E. destruct (Z.ltb_spec (n / 8) (n / 8 + 1)); [|lia].
    replace (n / 8 + 1 - 1) with (n / 8) by lia. rewrite (wrap_small 32 (n / 8)) by lia.
    replace (n - n / 8 * 8) with (n mod 8) by lia. rewrite (wrap_small 32 (n mod 8)) by lia.
    wp_step. apply wp_kassert; [lia|]. wp_step. apply wp_kassert; [lia|]. wp_steps.
    apply wp_fill_tail; [lia | cbn; apply zlookup_replicate; lia |].
    intros w Hw Hk. apply wp_ret. cbn [nbits v].
    apply create_post_intro; [done | | by apply Forall_zinsert |].
    + rewrite zinsert_length, length_replicate. lia.
    + intros i Hi. rewrite <- E. apply bit_fresh; done || lia.
Qed.

(** Creating a map of [n] bits (small enough that rounding up does not
    overflow) never trips the two assertions of the code; when both
    allocations succeed the result is well-formed, every bit below [n] is
    clear and every leftover bit of the last word is marked in use; when one
    fails the null pointer comes back. *)
Theorem bitmap_create_correct n :
  0 <= n <= 2 ^ 32 - 8 ->
  (exists r, bitmap_create true true n tt = Ret r tt /\ create_post n r) /\
  (forall ok_v, bitmap_create false ok_v n tt = Ret None tt) /\
  bitmap_create true false n tt = Ret None tt.
Proof.
  intros Hn. split; [|done].
  destruct (wp_ret_inv _ _ _ (wp_bitmap_create n Hn)) as (r & [] & H1 & H2). eauto.
Qed.

Lemma bitmap_create_correct_witness :
  exists r, bitmap_create true true 13 tt = Ret r tt /\ create_post 13 r.
Proof. apply (bitmap_create_correct 13). lia. Defined.

(** [bitmap_alloc] on a well-formed map hands out the lowest clear bit,
    which lies below [nbits], and sets that bit and no other; on a map with
    no clear bit it fails with [ENOSPC] and changes nothing.  No assertion
    of the code can fail. *)
Theorem bitmap_alloc_first_fit b :
  bitmap_wf b ->
  match bitmap_alloc b with
  | Ret i b' => alloc_post b i b'
  | Err e b' => e = ENOSPC /\ b' = b /\ forall j, 0 <= j -> bit b j = true
  | Panic | OutOfFuel => False
  end.
Proof. apply wp_bitmap_alloc. Qed.

Lemma bitmap_alloc_first_fit_witness :
  exists b', bitmap_alloc (Bitmap 11 [255; 249]) = Ret 9 b' /\ bit b' 9 = true.
Proof.
  assert (W : bitmap_wf (Bitmap 11 [255; 249])).
  { split; cbn [nbits v]; [lia | reflexivity | by repeat (constructor; [done|]); constructor | ].
    intros i Hi. destruct (Z.lt_ge_cases i 16).
    - assert (E : i = 11 \/ i = 12 \/ i = 13 \/ i = 14 \/ i = 15) by lia. by destruct E as [->|[->|[->|[->| ->]]]].
    - unfold bit. rewrite zlookup_None; [done|]. cbn. pose proof (Z.div_le_lower_bound i 8 2). lia. }
  pose proof (bitmap_alloc_first_fit _ W) as H.
  assert (E : bitmap_alloc (Bitmap 11 [255; 249]) = Ret 9 (Bitmap 11 [255; 251])) by reflexivity.
  rewrite E in H. exists (Bitmap 11 [255; 251]). split; [exact E|].
  destruct H as (_ & _ & _ & [_ U] & _). by rewrite U by lia.
Defined.
