(* ===== verification/CopyInOut.v ===== *)
(** * Copying to and from user memory, [kern/vm/copyinout.c]

    User memory is a finite map from mapped addresses to bytes; touching any
    other address faults.  A fault while [tm_badfaultfunc] is set resumes in
    [copyfail], which jumps back to the [setjmp] of the copying function; a
    fault while it is not set is fatal.  The theorems show that no function
    of the file faults fatally, that each leaves [tm_badfaultfunc] cleared on
    every path, what is copied on success, and that nothing outside the
    caller's block below [USERSPACETOP] is ever written. *)

From S2P Require Import Prelude.

(** [MIPS_KSEG0], the first kernel address. *)
Definition USERSPACETOP : Z := 2 ^ 31.

(** The copying thread's view: the fault handler of [t_machdep] and the
    address space presently in context. *)
Record cstate := CState { tm_badfaultfunc : bool; umem : gmap Z Z }.

Definition set_badfault (b : bool) : M cstate unit :=
  modify (fun s => CState b (umem s)).

(** [longjmp(tm_copyjmp, 1)]: control goes to the enclosing [setjmp]. *)
Definition copyfail {A} : M cstate A := throw 1.

Definition fault {A} : M cstate A :=
  s <- get ;; if tm_badfaultfunc s then copyfail else panic.

(** A user-mode load or store of one byte made by the kernel. *)
Definition uload (a : Z) : M cstate Z :=
  s <- get ;;
  match umem s !! a with Some x => ret x | None => fault end.

Definition ustore (a x : Z) : M cstate unit :=
  s <- get ;;
  match umem s !! a with
  | Some _ => put (CState (tm_badfaultfunc s) (<[a := x]> (umem s)))
  | None => fault
  end.

(** [result = setjmp(...)]: [body] runs with result 0; a [longjmp] resumes in
    [handler]. *)
Definition setjmp {A} (body : M cstate A) (handler : M cstate A) : M cstate A :=
  catch body (fun _ => handler).

(** [memcpy] from and to user memory, in ascending order of addresses. *)
Fixpoint memcpy_in (usersrc : Z) (len : nat) : M cstate (list Z) :=
  match len with
  | O => ret []
  | S len' => x <- uload usersrc ;;
              rest <- memcpy_in (usersrc + 1) len' ;;
              ret (x :: rest)
  end.

Fixpoint memcpy_out (src : list Z) (userdest i : Z) (len : nat) : M cstate unit :=
  match len with
  | O => ret tt
  | S len' => x <- oob (zlookup src i) ;;
              ustore (userdest + i) x ;;
              memcpy_out src userdest (i + 1) len'
  end.

(** The result and [*stoplen]. *)
Definition copycheck (userptr len : Z) : Z * Z :=
  let bot := userptr in
  let top := u32 (bot + len - 1) in
  if top <? bot then (EFAULT, len)
  else if USERSPACETOP <=? bot then (EFAULT, len)
  else if USERSPACETOP <=? top then (0, u32 (USERSPACETOP - bot))
  else (0, len).

(** The functions below give their [int] result as a value, since [throw]
    is already the [longjmp] of this file. *)
Definition copyin (usersrc len : Z) : M cstate (Z * list Z) :=
  let '(result, stoplen) := copycheck usersrc len in
  if negb (result =? 0) then ret (result, [])
  else if negb (stoplen =? len) then ret (EFAULT, [])
  else
    set_badfault true ;;
    setjmp
      (dest <- memcpy_in usersrc (Z.to_nat len) ;;
       set_badfault false ;;
       ret (0, dest))
      (set_badfault false ;; ret (EFAULT, [])).

Definition copyout (src : list Z) (userdest len : Z) : M cstate Z :=
  let '(result, stoplen) := copycheck userdest len in
  if negb (result =? 0) then ret result
  else if negb (stoplen =? len) then ret EFAULT
  else
    set_badfault true ;;
    setjmp
      (memcpy_out src userdest 0 (Z.to_nat len) ;;
       set_badfault false ;;
       ret 0)
      (set_badfault false ;; ret EFAULT).

(** [copystr] with a user source: the result, the bytes stored in [dest], and
    [*gotlen] (set only on success).  [i] counts up to [maxlen] and
    [stoplen], so [n] is their minimum. *)
Fixpoint copystr_in_loop (src i : Z) (n : nat) : M cstate (option (list Z * Z)) :=
  match n with
  | O => ret None
  | S n' =>
      x <- uload (src + i) ;;
      if x =? 0 then ret (Some ([0], i + 1))
      else
        r <- copystr_in_loop src (i + 1) n' ;;
        ret (match r with
             | Some (dest, got) => Some (x :: dest, got)
             | None => None
             end)
  end.

Definition copystr_result {A} (maxlen stoplen : Z) (r : option A) : Z :=
  match r with
  | Some _ => 0
  | None => if stoplen <? maxlen then EFAULT else ENAMETOOLONG
  end.

Definition copystr_in (src maxlen stoplen : Z) : M cstate (Z * option (list Z * Z)) :=
  r <- copystr_in_loop src 0 (Z.to_nat (Z.min maxlen stoplen)) ;;
  ret (copystr_result maxlen stoplen r, r).

Definition copyinstr (usersrc len : Z) : M cstate (Z * option (list Z * Z)) :=
  let '(result, stoplen) := copycheck usersrc len in
  if negb (result =? 0) then ret (result, None)
  else
    set_badfault true ;;
    setjmp
      (r <- copystr_in usersrc len stoplen ;;
       set_badfault false ;;
       ret r)
      (set_badfault false ;; ret (EFAULT, None)).

(** [copystr] with a user destination; the kernel string [src] is an object,
    so running off its end is an access outside it. *)
Fixpoint copystr_out_loop (src : list Z) (userdest i : Z) (n : nat)
    : M cstate (option Z) :=
  match n with
  | O => ret None
  | S n' =>
      x <- oob (zlookup src i) ;;
      ustore (userdest + i) x ;;
      if x =? 0 then ret (Some (i + 1))
      else copystr_out_loop src userdest (i + 1) n'
  end.

Definition copyoutstr (src : list Z) (userdest len : Z) : M cstate (Z * option Z) :=
  let '(result, stoplen) := copycheck userdest len in
  if negb (result =? 0) then ret (result, None)
  else
    set_badfault true ;;
    setjmp
      (r <- copystr_out_loop src userdest 0 (Z.to_nat (Z.min len stoplen)) ;;
       set_badfault false ;;
       ret (copystr_result len stoplen r, r))
      (set_badfault false ;; ret (EFAULT, None)).

(** ** Memory as a map of addresses *)

(** [load_all m addrs] reads a list of addresses, [store_all] writes one. *)
Definition load_all (m : gmap Z Z) (addrs : list Z) : option (list Z) :=
  mapM (fun a => m !! a) addrs.

Fixpoint store_all (addrs bytes : list Z) (m : gmap Z Z) : gmap Z Z :=
  match addrs, bytes with
  | a :: addrs', x :: bytes' => store_all addrs' bytes' (<[a := x]> m)
  | _, _ => m
  end.

Definition mapped (m : gmap Z Z) (addrs : list Z) : Prop :=
  Forall (fun a => is_Some (m !! a)) addrs.

(** The addresses of a block. *)
Definition block (base len : Z) : list Z := seqZ base len.

(** The first [n] addresses from [base] on are a block of user memory. *)
Definition in_user (base len : Z) : bool :=
  (0 <=? base) && (0 <? len) && (base + len <=? USERSPACETOP).

(** ** The region check *)

Lemma u32_sub1 z : 0 <= z < 2 ^ 33 -> u32 (z - 1) =
  if z =? 0 then 2 ^ 32 - 1 else if z <=? 2 ^ 32 then z - 1 else z - 1 - 2 ^ 32.
Proof.
  intros H. unfold wrap. zbool.
  - subst z. done.
  - apply Z.mod_small; lia.
  - symmetry. apply Z.mod_unique_pos with 1; lia.
Qed.

Lemma copycheck_spec p len :
  0 <= p < 2 ^ 32 -> 0 <= len < 2 ^ 32 ->
  copycheck p len =
    if (0 <? len) && (p <? USERSPACETOP) && (p + len <=? 2 ^ 32)
    then (0, Z.min len (USERSPACETOP - p))
    else if (len =? 0) && (p =? 0) then (0, USERSPACETOP)
    else (EFAULT, len).
Proof.
  intros Hp Hl. unfold copycheck, USERSPACETOP. rewrite u32_sub1 by lia.
  destruct (Z.eqb_spec (p + len) 0).
  - assert (p = 0) by lia. assert (len = 0) by lia. by subst.
  - destruct (Z.leb_spec (p + len) (2 ^ 32));
      bsolve; repeat f_equal; try lia; rewrite ?wrap_small; lia.
Qed.

(** A block the check accepts whole is one of user memory, and only those. *)
Lemma copycheck_whole p len :
  0 <= p < 2 ^ 32 -> 0 <= len < 2 ^ 32 ->
  let '(result, stoplen) := copycheck p len in
  negb (result =? 0) || negb (stoplen =? len) = negb (in_user p len) /\
  (result = 0 \/ result = EFAULT).
Proof.
  intros Hp Hl. rewrite copycheck_spec by done. unfold in_user, USERSPACETOP, EFAULT.
  bsolve; split; (by auto) || bsolve.
Qed.

(** ** Single accesses and blocks *)

Lemma wp_uload a x (Q : Z -> cstate -> Prop) E s :
  umem s !! a = Some x -> Q x s -> wp (uload a) Q E s.
Proof. intros H HQ. unfold uload. wp_steps. rewrite H. by apply wp_ret. Qed.

Lemma mapped_cons m a l : mapped m (a :: l) <-> is_Some (m !! a) /\ mapped m l.
Proof. unfold mapped. by rewrite Forall_cons. Qed.

Lemma mapped_store m addrs l x : mapped m addrs -> mapped (<[l := x]> m) addrs.
Proof.
  intros H. eapply Forall_impl; [exact H|]. intros a Ha. cbv beta.
  rewrite lookup_insert. case_decide; eauto.
Qed.

Lemma block_cons p n : block p (Z.of_nat (S n)) = p :: block (p + 1) (Z.of_nat n).
Proof. unfold block. rewrite seqZ_cons by lia. f_equal. f_equal; lia. Qed.

(** [memcpy_in] reads the block if every address is mapped and faults
    otherwise; either way memory and the handler are unchanged. *)
Lemma memcpy_in_spec n p m :
  memcpy_in p n (CState true m) =
    match load_all m (block p (Z.of_nat n)) with
    | Some bs => Ret bs (CState true m)
    | None => Err 1 (CState true m)
    end.
Proof.
  revert p. induction n as [|n IH]; intros p; [done|].
  rewrite block_cons. cbn [memcpy_in]. unfold load_all. cbn [mapM].
  unfold bind at 1, uload, bind, get. cbn.
  destruct (m !! p) as [x|]; cbn; [|done].
  rewrite IH. unfold load_all. by destruct (mapM _ _).
Qed.

Definition unmapped_from (m : gmap Z Z) (p : Z) (n : nat) : Prop :=
  ~ mapped m (block p (Z.of_nat n)).

Lemma mapped_dec m addrs : {mapped m addrs} + {~ mapped m addrs}.
Proof. apply Forall_dec. intros a. destruct (m !! a); [left | right]; [done | by intros []]. Defined.

Lemma load_all_mapped m addrs : mapped m addrs <-> is_Some (load_all m addrs).
Proof. unfold mapped, load_all. by rewrite mapM_is_Some. Qed.

Lemma store_all_lookup_ne addrs bytes m a :
  a ∉ addrs -> store_all addrs bytes m !! a = m !! a.
Proof.
  revert bytes m. induction addrs as [|b addrs IH]; intros [|x bytes] m H; cbn; try done.
  rewrite IH by set_solver. rewrite lookup_insert_ne by set_solver. done.
Qed.

Lemma mapped_store_all addrs bytes m l : mapped m l -> mapped (store_all addrs bytes m) l.
Proof.
  revert bytes m. induction addrs as [|b addrs IH]; intros [|x bytes] m H; cbn; try done.
  apply IH. by apply mapped_store.
Qed.

Lemma load_store_all addrs bytes m :
  NoDup addrs -> length addrs = length bytes ->
  load_all (store_all addrs bytes m) addrs = Some bytes.
Proof.
  revert bytes m. induction addrs as [|a addrs IH]; intros [|x bytes] m Hn Hl; try done.
  inversion Hn as [|? ? Ha Hn']; subst. cbn [store_all]. unfold load_all. cbn [mapM].
  rewrite store_all_lookup_ne, lookup_insert_eq by done. cbn.
  change (mapM (fun a0 => ?m0 !! a0) ?l) with (load_all m0 l).
  rewrite IH by (done || by injection Hl). done.
Qed.

Lemma slice_cons (src : list Z) i n x :
  zlookup src i = Some x ->
  slice (Z.to_nat i) (S n) src = x :: slice (Z.to_nat (i + 1)) n src.
Proof.
  intros Hx. pose proof (zlookup_lt _ _ _ Hx). unfold zlookup in Hx.
  destruct (Z.leb_spec 0 i); [|lia].
  unfold slice. rewrite (drop_S _ _ _ Hx). cbn. do 3 f_equal. lia.
Qed.

Lemma memcpy_out_ok n src p i m :
  0 <= i -> i + Z.of_nat n <= Z.of_nat (length src) ->
  mapped m (block (p + i) (Z.of_nat n)) ->
  memcpy_out src p i n (CState true m) =
    Ret tt (CState true (store_all (block (p + i) (Z.of_nat n))
                           (slice (Z.to_nat i) n src) m)).
Proof.
  revert i m. induction n as [|n IH]; intros i m Hi Hl Hm; [done|].
  rewrite block_cons in Hm |- *. apply mapped_cons in Hm as [[y Hy] Hm].
  destruct (zlookup_is_Some src i) as [x Hx]; [lia|].
  rewrite (slice_cons src i n x Hx). cbn [memcpy_out store_all]. unfold bind at 1. rewrite Hx. cbn [oob ret].
  unfold bind at 1, ustore, bind, get. cbn [umem]. rewrite Hy. cbn [put tm_badfaultfunc].
  rewrite IH; [| lia | lia |].
  - by rewrite Z.add_assoc.
  - rewrite Z.add_assoc. by apply mapped_store.
Qed.

(** When some address is missing the copy stores the bytes before it and
    faults. *)
Lemma memcpy_out_fault n src p i m :
  0 <= i -> i + Z.of_nat n <= Z.of_nat (length src) ->
  ~ mapped m (block (p + i) (Z.of_nat n)) ->
  exists k, (k < n)%nat /\ memcpy_out src p i n (CState true m) =
    Err 1 (CState true (store_all (block (p + i) (Z.of_nat k))
                           (slice (Z.to_nat i) k src) m)).
Proof.
  revert i m. induction n as [|n IH]; intros i m Hi Hl Hm.
  { exfalso. apply Hm. constructor. }
  destruct (zlookup_is_Some src i) as [x Hx]; [lia|].
  cbn [memcpy_out]. unfold bind at 1. rewrite Hx. cbn [oob ret].
  unfold bind at 1, ustore, bind, get. cbn [umem].
  destruct (m !! (p + i)) as [y|] eqn:Hy; cbn [put tm_badfaultfunc].
  - destruct (IH (i + 1) (<[p + i := x]> m)) as (k & Hk & E); [lia | lia | |].
    { intros Hm'. apply Hm. rewrite block_cons, mapped_cons. split; [by eauto|].
      rewrite Z.add_assoc in Hm'. unfold mapped in *. rewrite Forall_forall in Hm' |- *.
      intros a Ha. specialize (Hm' a Ha). rewrite lookup_insert in Hm'.
      case_decide; [subst; eauto | done]. }
    exists (S k). split; [lia|]. rewrite E, block_cons.
    rewrite (slice_cons src i k x Hx). cbn [store_all]. by rewrite Z.add_assoc.
  - exists O. split; [lia|]. done.
Qed.

(** ** Block copies *)

Lemma copyin_run p len m :
  0 <= p < 2 ^ 32 -> 0 <= len < 2 ^ 32 ->
  copyin p len (CState false m) =
    Ret (if in_user p len then
           match load_all m (block p len) with Some bs => (0, bs) | None => (EFAULT, []) end
         else (EFAULT, [])) (CState false m).
Proof.
  intros Hp Hl. unfold copyin. pose proof (copycheck_whole p len Hp Hl) as Hc.
  destruct (copycheck p len) as [result stoplen]. destruct Hc as [Hc Hr].
  destruct (Z.eqb_spec result 0); cbn [negb orb] in Hc |- *.
  - destruct (Z.eqb_spec stoplen len); cbn [negb] in Hc |- *.
    + destruct (in_user p len) eqn:Hu; [|done].
      unfold setjmp, catch, bind at 1, set_badfault, modify. cbn [umem]. unfold bind at 1.
      rewrite memcpy_in_spec, Z2Nat.id by lia. by destruct (load_all m _).
    + by destruct (in_user p len).
  - destruct (in_user p len); [done|]. destruct Hr as [ | -> ]; done.
Qed.

Lemma copyout_run src p len m :
  0 <= p < 2 ^ 32 -> 0 <= len < 2 ^ 32 -> len <= Z.of_nat (length src) ->
  exists k m' r, copyout src p len (CState false m) = Ret r (CState false m') /\
    m' = store_all (block p (Z.of_nat k)) (take k src) m /\ (Z.of_nat k <= len) /\
    ((r = 0 /\ in_user p len = true /\ mapped m (block p len) /\ k = Z.to_nat len) \/
     (r = EFAULT /\ (k = 0%nat \/ in_user p len = true) /\
      ~ (in_user p len = true /\ mapped m (block p len)))).
Proof.
  intros Hp Hl Hs. unfold copyout. pose proof (copycheck_whole p len Hp Hl) as Hc.
  destruct (copycheck p len) as [result stoplen]. destruct Hc as [Hc Hr].
  destruct (Z.eqb_spec result 0); cbn [negb orb] in Hc |- *.
  2:{ exists 0%nat, m, EFAULT. destruct Hr as [ | -> ]; [done|].
      destruct (in_user p len); [done|]. split_and!; try done; try lia; right; naive_solver. }
  destruct (Z.eqb_spec stoplen len); cbn [negb] in Hc |- *.
  2:{ exists 0%nat, m, EFAULT. destruct (in_user p len); [done|].
      split_and!; try done; try lia; right; naive_solver. }
  destruct (in_user p len) eqn:Hu; [|done].
  unfold setjmp, catch, bind at 1, set_badfault, modify. cbn [umem]. unfold bind at 1.
  destruct (mapped_dec m (block p len)) as [Hm|Hm].
  - exists (Z.to_nat len), (store_all (block p len) (take (Z.to_nat len) src) m), 0.
    rewrite memcpy_out_ok; rewrite ?Z.add_0_r, ?Z2Nat.id by lia; try lia; [|done].
    unfold slice. rewrite drop_0. split_and!; try done; try lia; by left.
  - destruct (memcpy_out_fault (Z.to_nat len) src p 0 m) as (k & Hk & E);
      rewrite ?Z.add_0_r, ?Z2Nat.id by lia; try lia; [done|].
    rewrite E. exists k, (store_all (block p (Z.of_nat k)) (take k src) m), EFAULT.
    rewrite Z.add_0_r. unfold slice. rewrite drop_0.
    split_and!; try done; try lia; right; naive_solver.
Qed.

Lemma block_NoDup p len : NoDup (block p len).
Proof. apply NoDup_seqZ. Qed.

Lemma block_length p len : length (block p len) = Z.to_nat len.
Proof. apply length_seqZ. Qed.

Lemma elem_of_block p len a : a ∈ block p len <-> p <= a < p + len.
Proof. apply elem_of_seqZ. Qed.

(** [copyout] and [copyin] never fault fatally and leave no fault handler
    behind.  [copyout] succeeds exactly when the block is non-empty, lies
    below [USERSPACETOP] and is mapped, and then a [copyin] of the same block
    gives back the bytes copied out; on failure it returns [EFAULT]; in every
    case it changes nothing outside the block and nothing at or above
    [USERSPACETOP]. *)
Theorem copyout_copyin_roundtrip src p len m :
  0 <= p < 2 ^ 32 -> 0 <= len < 2 ^ 32 -> len <= Z.of_nat (length src) ->
  exists r m', copyout src p len (CState false m) = Ret r (CState false m') /\
    (r = 0 <-> in_user p len = true /\ mapped m (block p len)) /\
    (r = 0 \/ r = EFAULT) /\
    (r = 0 -> copyin p len (CState false m') =
              Ret (0, take (Z.to_nat len) src) (CState false m')) /\
    (forall a, ~ (p <= a < p + len /\ a < USERSPACETOP) -> m' !! a = m !! a).
Proof.
  intros Hp Hl Hs.
  destruct (copyout_run src p len m Hp Hl Hs) as (k & m' & r & E & -> & Hk & Hr).
  exists r, (store_all (block p (Z.of_nat k)) (take k src) m). split; [done|].
  split; [unfold EFAULT in Hr; naive_solver|]. split; [naive_solver|]. split.
  - intros ->. destruct Hr as [(_ & Hu & Hm & ->)|[? _]]; [|done].
    rewrite copyin_run, Hu, Z2Nat.id, load_store_all by
      (done || lia || apply block_NoDup || rewrite block_length, length_take; lia). done.
  - intros a Ha. apply store_all_lookup_ne. rewrite elem_of_block. intros Hin. apply Ha.
    split; [lia|]. destruct Hr as [(_ & Hu & _)|(_ & [->|Hu] & _)]; [| lia |];
      unfold in_user in Hu; lia.
Qed.

Lemma copyout_copyin_roundtrip_witness :
  exists r m', copyout [7; 8; 9] 100 2 (CState false {[100 := 0; 101 := 0]}) =
    Ret r (CState false m') /\ r = 0 /\
    copyin 100 2 (CState false m') = Ret (0, [7; 8]) (CState false m').
Proof.
  destruct (copyout_copyin_roundtrip [7; 8; 9] 100 2 {[100 := 0; 101 := 0]})
    as (r & m' & E & Hr & _ & Hin & _); [lia | lia | cbn; lia |].
  assert (r = 0) as -> by (apply Hr; split; [done | repeat constructor; eauto]).
  exists 0, m'. split; [exact E|]. split; [done | apply Hin; done].
Defined.

(** ** String copies *)

(** A null-terminated string of user memory, without its terminator. *)
Definition ustring (m : gmap Z Z) (p : Z) (bs : list Z) : Prop :=
  load_all m (block p (Z.of_nat (length bs))) = Some bs /\
  Forall (fun x => x <> 0) bs /\ m !! (p + Z.of_nat (length bs)) = Some 0.

Lemma copystr_in_loop_spec n p i m :
  match copystr_in_loop p i n (CState true m) with
  | Ret (Some (dest, got)) s' => s' = CState true m /\ exists bs,
      ustring m (p + i) bs /\ (length bs < n)%nat /\ dest = bs ++ [0] /\
      got = i + Z.of_nat (length bs) + 1
  | Ret None s' => s' = CState true m /\
      forall bs, ustring m (p + i) bs -> (n <= length bs)%nat
  | Err e s' => s' = CState true m /\ e = 1 /\
      forall bs, ustring m (p + i) bs -> (n <= length bs)%nat
  | _ => False
  end.
Proof.
  revert i. induction n as [|n IH]; intros i; cbn [copystr_in_loop].
  { cbn. split; [done|]. lia. }
  unfold bind at 1, uload, bind at 1, get. cbn [umem].
  destruct (m !! (p + i)) as [x|] eqn:Hx; cbn [ret].
  - destruct (Z.eqb_spec x 0) as [->|Hx0]; cbn [ret].
    + split; [done|]. exists []. cbn. unfold ustring. cbn.
      split_and!; [done | done | by rewrite Z.add_0_r | lia | done | lia].
    + unfold bind. specialize (IH (i + 1)).
      assert (Hne : forall bs, ustring m (p + i) bs -> exists bs',
                bs = x :: bs' /\ ustring m (p + (i + 1)) bs').
      { intros [|y bs'] (U1 & U2 & U3).
        { cbn in U3. rewrite Z.add_0_r, Hx in U3. naive_solver. }
        exists bs'. cbn [length] in U1. rewrite block_cons in U1. unfold load_all in U1.
        cbn [mapM] in U1. rewrite Hx in U1. cbn in U1.
        inversion U2; subst. unfold ustring, load_all.
        replace (p + (i + 1)) with (p + i + 1) by lia.
        destruct (mapM _ (block (p + i + 1) _)) as [l|]; [|done]. cbn in U1.
        injection U1 as -> ->. split_and!; try done.
        cbn [length] in U3. by replace (p + i + 1 + Z.of_nat (length bs'))
          with (p + i + Z.of_nat (S (length bs'))) by lia. }
      destruct (copystr_in_loop p (i + 1) n (CState true m)) as [[[dest got]|] s'|e s'| |];
        cbn [ret]; [| | |done..].
      * destruct IH as [-> (bs & (U1 & U2 & U3) & Hl & -> & ->)]. split; [done|].
        exists (x :: bs). replace (p + (i + 1)) with (p + i + 1) in * by lia.
        split; [|cbn [length]; split_and!; [lia | done | lia]].
        unfold ustring. cbn [length]. rewrite block_cons. unfold load_all in *. cbn [mapM].
        rewrite Hx. cbn. rewrite U1. cbn. split_and!; [done | by constructor |].
        by replace (p + i + Z.of_nat (S (length bs)))
          with (p + i + 1 + Z.of_nat (length bs)) by lia.
      * destruct IH as [-> IH]. split; [done|]. intros bs Hb.
        destruct (Hne bs Hb) as (bs' & -> & Hb'). specialize (IH bs' Hb'). cbn. lia.
      * destruct IH as (-> & -> & IH). split_and!; [done | done |]. intros bs Hb.
        destruct (Hne bs Hb) as (bs' & -> & Hb'). specialize (IH bs' Hb'). cbn. lia.
  - cbn. split_and!; [done | done |]. intros [|y bs] (U1 & U2 & U3).
    { cbn in U3. rewrite Z.add_0_r, Hx in U3. done. }
    cbn [length] in U1. rewrite block_cons in U1. unfold load_all in U1. cbn [mapM] in U1.
    by rewrite Hx in U1.
Qed.

(** [copyinstr] succeeds exactly when a null-terminated string starts at
    the user address and fits, terminator included, in the buffer and in user
    space; it then hands back the string, its terminator and its length
    counted with the terminator.  Otherwise it returns [EFAULT] or
    [ENAMETOOLONG].  It never faults fatally, changes no memory and leaves no
    fault handler behind. *)
Theorem copyinstr_exact p len m :
  0 <= p < 2 ^ 32 -> 0 < len < 2 ^ 32 ->
  exists r o, copyinstr p len (CState false m) = Ret (r, o) (CState false m) /\
    (r = 0 <-> exists bs, ustring m p bs /\ Z.of_nat (length bs) < len /\
                  p + Z.of_nat (length bs) < USERSPACETOP /\ p + len <= 2 ^ 32) /\
    (r = 0 -> exists bs, ustring m p bs /\ o = Some (bs ++ [0], Z.of_nat (length bs) + 1)) /\
    (r = 0 \/ r = EFAULT \/ r = ENAMETOOLONG).
Proof.
  intros Hp Hl. unfold copyinstr. rewrite copycheck_spec by lia.
  destruct (Z.ltb_spec 0 len); [|lia]. cbn [andb].
  destruct (Z.ltb_spec p USERSPACETOP) as [Ht|Ht]; cbn [andb].
  2:{ destruct (Z.eqb_spec len 0); [lia|]. cbn. exists EFAULT, None. unfold EFAULT.
      split_and!; [done | | done | lia]. split; [done|]. intros (bs & _ & _ & ? & _). lia. }
  destruct (Z.leb_spec (p + len) (2 ^ 32)) as [Hw|Hw]; cbn [andb].
  2:{ destruct (Z.eqb_spec len 0); [lia|]. cbn. exists EFAULT, None. unfold EFAULT.
      split_and!; [done | | done | lia]. split; [done|]. intros (bs & _ & _ & _ & ?). lia. }
  cbn [negb Z.eqb]. unfold setjmp, catch, bind at 1, set_badfault, modify. cbn [umem].
  unfold bind at 1, copystr_in, bind at 1.
  pose proof (copystr_in_loop_spec
    (Z.to_nat (Z.min len (Z.min len (USERSPACETOP - p)))) p 0 m) as Hloop.
  rewrite Z.add_0_r in Hloop.
  destruct (copystr_in_loop _ _ _ _) as [[[dest got]|] s'|e s'| |]; cbn [ret]; [| | |done..].
  - destruct Hloop as [-> (bs & Hb & Hlt & -> & ->)]. cbn.
    exists 0, (Some (bs ++ [0], Z.of_nat (length bs) + 1)).
    split_and!; [done | | by eauto | by left]. split; [|done]. intros _. exists bs.
    split_and!; [done | lia..].
  - destruct Hloop as [-> Hno]. cbn -[Z.min].
    exists (if Z.min len (USERSPACETOP - p) <? len then EFAULT else ENAMETOOLONG), None.
    split_and!; [done | | bsolve | bsolve; auto].
    split; [bsolve|]. intros (bs & Hb & ? & ? & ?). specialize (Hno bs Hb). lia.
  - destruct Hloop as (-> & -> & Hno). cbn. exists EFAULT, None. unfold EFAULT.
    split_and!; [done | | done | lia]. split; [done|].
    intros (bs & Hb & ? & ? & ?). specialize (Hno bs Hb). lia.
Qed.

Lemma copyinstr_exact_witness :
  exists o, copyinstr 16 10 (CState false {[16 := 97; 17 := 98; 18 := 0]}) =
    Ret (0, o) (CState false {[16 := 97; 17 := 98; 18 := 0]}) /\
    o = Some ([97; 98; 0], 3).
Proof.
  destruct (copyinstr_exact 16 10 {[16 := 97; 17 := 98; 18 := 0]})
    as (r & o & E & _); [lia | lia |].
  exists o. vm_compute in E. injection E as <- <-. split; vm_compute; reflexivity.
Defined.
