(* ===== verification/Uio.v ===== *)
(** * The uio transfer cursor, [kern/lib/uio.c] and [kern/include/uio.h]

    A [uio] names a list of memory blocks, a position in a file or device and
    the number of bytes left to move.  The model keeps the memory the blocks
    lie in beside the record ([uio_mem]: the address space of the process for
    a user uio, the kernel buffer for a kernel one), so that a transfer is a
    function on the record.  The list holds the iovecs from [uio_iov] on, so
    its length is [uio_iovcnt].  The object [ptr] points to is passed and
    handed back as its bytes; callers give buffers that do not overlap the
    blocks of the uio.

    The abstract view of a uio is the list of the addresses still to be
    transferred ([uio_addrs]); [wp_uiomove] shows that a transfer moves the
    bytes of a prefix of that list and advances every cursor alike. *)

From S2P Require Import Prelude CopyInOut.

Inductive uio_rw_t := UIO_READ | UIO_WRITE.
Inductive uio_seg_t := UIO_USERISPACE | UIO_USERSPACE | UIO_SYSSPACE.

#[export] Instance uio_rw_eq_dec : EqDecision uio_rw_t.
Proof. solve_decision. Defined.
#[export] Instance uio_seg_eq_dec : EqDecision uio_seg_t.
Proof. solve_decision. Defined.

Record iovec := Iovec { iov_base : Z; iov_len : Z }.

Record uio := Uio {
  uio_iov : list iovec;
  uio_offset : Z;
  uio_resid : Z;
  uio_segflg : uio_seg_t;
  uio_rw : uio_rw_t;
  uio_space : option Z;      (* the address space, NULL for the kernel *)
  uio_mem : gmap Z Z
}.

Definition set_iov (l : list iovec) (u : uio) : uio :=
  Uio l (uio_offset u) (uio_resid u) (uio_segflg u) (uio_rw u) (uio_space u) (uio_mem u).
Definition set_offset (o : Z) (u : uio) : uio :=
  Uio (uio_iov u) o (uio_resid u) (uio_segflg u) (uio_rw u) (uio_space u) (uio_mem u).
Definition set_resid (r : Z) (u : uio) : uio :=
  Uio (uio_iov u) (uio_offset u) r (uio_segflg u) (uio_rw u) (uio_space u) (uio_mem u).
Definition set_mem (m : gmap Z Z) (u : uio) : uio :=
  Uio (uio_iov u) (uio_offset u) (uio_resid u) (uio_segflg u) (uio_rw u) (uio_space u) m.

(** [memmove] between [ptr] and a kernel block; an unmapped kernel address is
    a fatal fault. *)
Definition kstore (base : Z) (bytes : list Z) : M uio unit :=
  u <- get ;;
  if mapped_dec (uio_mem u) (block base (Z.of_nat (length bytes)))
  then put (set_mem (store_all (block base (Z.of_nat (length bytes))) bytes (uio_mem u)) u)
  else panic.

Definition kload (base len : Z) : M uio (list Z) :=
  u <- get ;; oob (load_all (uio_mem u) (block base len)).

(** [copyin] and [copyout] run in the current thread, whose fault handler is
    clear. *)
Definition with_user {A} (m : M cstate (Z * A)) : M uio A := fun u =>
  match m (CState false (uio_mem u)) with
  | Ret (result, a) c =>
      if result =? 0 then Ret a (set_mem (umem c) u) else Err result (set_mem (umem c) u)
  | Err e c => Err e (set_mem (umem c) u)
  | Panic => Panic
  | OutOfFuel => OutOfFuel
  end.

(** The bytes [ptr + off .. ptr + off + size - 1]. *)
Definition ptr_bytes (ptr : list Z) (off size : Z) : M uio (list Z) :=
  if off + size <=? Z.of_nat (length ptr)
  then ret (slice (Z.to_nat off) (Z.to_nat size) ptr) else panic.

(** The switch on [uio_segflg]: the buffer after the transfer of [size] bytes
    between [ptr + off] and the block at [base]. *)
Definition move_bytes (ptr : list Z) (off base size : Z) : M uio (list Z) :=
  u <- get ;;
  bytes <- ptr_bytes ptr off size ;;
  match uio_segflg u, uio_rw u with
  | UIO_SYSSPACE, UIO_READ => kstore base bytes ;; ret ptr
  | UIO_SYSSPACE, UIO_WRITE =>
      new <- kload base size ;; ret (splice (Z.to_nat off) new ptr)
  | _, UIO_READ =>
      with_user (r <- copyout bytes base size ;; ret (r, tt)) ;; ret ptr
  | _, UIO_WRITE =>
      new <- with_user (copyin base size) ;; ret (splice (Z.to_nat off) new ptr)
  end.

(** The [while] loop; [off] is how far [ptr] has advanced. *)
Fixpoint uiomove_loop (fuel : nat) (ptr : list Z) (off n : Z) : M uio (list Z) :=
  u <- get ;;
  if negb ((0 <? n) && (0 <? uio_resid u)) then ret ptr
  else
    match fuel with
    | O => fun _ => OutOfFuel
    | S fuel' =>
        match uio_iov u with
        | [] => panic
        | iov :: rest =>
            let size := if n <? iov_len iov then n else iov_len iov in
            if size =? 0 then
              put (set_iov rest u) ;;
              match rest with
              | [] => panic
              | _ => uiomove_loop fuel' ptr off n
              end
            else
              ptr' <- move_bytes ptr off (iov_base iov) size ;;
              modify (fun u =>
                set_offset (i64 (uio_offset u + size))
                  (set_resid (u32 (uio_resid u - size))
                     (set_iov (Iovec (u32 (iov_base iov + size)) (u32 (iov_len iov - size)) :: rest) u))) ;;
              uiomove_loop fuel' ptr' (off + size) (u32 (n - size))
        end
    end.

(** [curas] is what [proc_getas()] returns.  Every iteration either drops an
    iovec or empties one, so twice the number of iovecs bounds the loop. *)
Definition uiomove (curas : option Z) (ptr : list Z) (n : Z) : M uio (list Z) :=
  u <- get ;;
  (if decide (uio_segflg u = UIO_SYSSPACE)
   then KASSERT (bool_decide (uio_space u = None))
   else KASSERT (bool_decide (uio_space u = curas))) ;;
  uiomove_loop (2 * length (uio_iov u) + 1) ptr 0 n.

Fixpoint uiomovezeros_loop (fuel : nat) (curas : option Z) (n : Z) : M uio unit :=
  if n <=? 0 then ret tt
  else
    match fuel with
    | O => fun _ => OutOfFuel
    | S fuel' =>
        let amt := if n <? 16 then n else 16 in
        _ <- uiomove curas (replicate 16 0) amt ;;
        uiomovezeros_loop fuel' curas (n - amt)
    end.

Definition uiomovezeros (curas : option Z) (n : Z) : M uio unit :=
  u <- get ;;
  KASSERT (bool_decide (uio_rw u = UIO_READ)) ;;
  uiomovezeros_loop (Z.to_nat n) curas n.

(** [kbuf] at address [base] with contents [mem]. *)
Definition uio_kinit (base : Z) (mem : gmap Z Z) (len pos : Z) (rw : uio_rw_t) : uio :=
  Uio [Iovec base len] pos len UIO_SYSSPACE rw None mem.

Definition uio_uinit (curas : option Z) (buf : Z) (mem : gmap Z Z) (len pos : Z)
    (rw : uio_rw_t) : uio :=
  Uio [Iovec buf len] pos len UIO_USERSPACE rw curas mem.

(** ** The abstract view *)

Definition iov_addrs (iov : iovec) : list Z := block (iov_base iov) (iov_len iov).

Definition uio_addrs (u : uio) : list Z := concat (map iov_addrs (uio_iov u)).

Arguments uio_addrs : simpl never.

(** A block a transfer can reach: in range for its segment. *)
Definition iov_ok (seg : uio_seg_t) (iov : iovec) : Prop :=
  0 <= iov_base iov /\ 0 <= iov_len iov /\
  iov_base iov + iov_len iov <= (if decide (seg = UIO_SYSSPACE) then 2 ^ 32 - 1 else USERSPACETOP).

Record uio_wf (curas : option Z) (u : uio) : Prop := {
  uio_wf_iov : Forall (iov_ok (uio_segflg u)) (uio_iov u);
  uio_wf_resid : 0 <= uio_resid u <= Z.of_nat (length (uio_addrs u));
  uio_wf_offset : 0 <= uio_offset u /\ uio_offset u + uio_resid u < 2 ^ 63;
  uio_wf_mapped : mapped (uio_mem u) (uio_addrs u);
  uio_wf_total : Z.of_nat (length (uio_addrs u)) < 2 ^ 32;
  uio_wf_space : uio_space u = if decide (uio_segflg u = UIO_SYSSPACE) then None else curas
}.

(** What a transfer of [n] bytes leaves: every cursor [n] further. *)
Record uio_advanced (n : Z) (u u' : uio) : Prop := {
  adv_addrs : uio_addrs u' = drop (Z.to_nat n) (uio_addrs u);
  adv_resid : uio_resid u' = uio_resid u - n;
  adv_offset : uio_offset u' = uio_offset u + n;
  adv_seg : uio_segflg u' = uio_segflg u;
  adv_rw : uio_rw u' = uio_rw u;
  adv_space : uio_space u' = uio_space u
}.

(** The memory after bytes [bytes] have been read into a prefix. *)
Definition read_into (u : uio) (bytes : list Z) : gmap Z Z :=
  store_all (take (length bytes) (uio_addrs u)) bytes (uio_mem u).

(** ** Lists of addresses *)

Lemma store_all_app a1 a2 b1 b2 m :
  length a1 = length b1 ->
  store_all (a1 ++ a2) (b1 ++ b2) m = store_all a2 b2 (store_all a1 b1 m).
Proof.
  revert b1 m. induction a1 as [|a a1 IH]; intros [|x b1] m H; try done.
  cbn. apply IH. by injection H.
Qed.

Lemma load_all_app m a1 a2 b1 b2 :
  load_all m a1 = Some b1 -> load_all m a2 = Some b2 -> load_all m (a1 ++ a2) = Some (b1 ++ b2).
Proof.
  unfold load_all. intros H1 H2. apply mapM_Some in H1, H2. apply mapM_Some.
  by apply Forall2_app.
Qed.

Lemma load_all_length m a b : load_all m a = Some b -> length b = length a.
Proof. unfold load_all. intros H%length_mapM. done. Qed.

Lemma mapped_app m a1 a2 : mapped m (a1 ++ a2) <-> mapped m a1 /\ mapped m a2.
Proof. unfold mapped. by rewrite Forall_app. Qed.

Lemma block_app p n1 n2 : 0 <= n1 -> 0 <= n2 -> block p (n1 + n2) = block p n1 ++ block (p + n1) n2.
Proof. intros H1 H2. unfold block. by rewrite seqZ_app by lia. Qed.

Lemma mapped_load m a : mapped m a -> exists b, load_all m a = Some b.
Proof. intros H%load_all_mapped. exact H. Qed.

Lemma mapped_take m a n : mapped m a -> mapped m (take n a).
Proof. apply Forall_take. Qed.

Lemma mapped_drop m a n : mapped m a -> mapped m (drop n a).
Proof. apply Forall_drop. Qed.

(** ** One transfer *)

Lemma iov_ok_user seg base len size :
  seg <> UIO_SYSSPACE -> iov_ok seg (Iovec base len) -> 0 < size <= len ->
  in_user base size = true /\ 0 <= base < 2 ^ 32 /\ 0 <= size < 2 ^ 32.
Proof.
  intros Hs (H1 & H2 & H3) Hz. cbn in *. rewrite decide_False in H3 by done.
  unfold in_user, USERSPACETOP in *. split; [bsolve | lia].
Qed.

Definition moved (ptr : list Z) (off size : Z) (addrs : list Z) (u : uio)
    (ptr' : list Z) (u' : uio) : Prop :=
  match uio_rw u with
  | UIO_READ => ptr' = ptr /\ u' = set_mem (store_all addrs
      (slice (Z.to_nat off) (Z.to_nat size) ptr) (uio_mem u)) u
  | UIO_WRITE => u' = u /\ exists bs, load_all (uio_mem u) addrs = Some bs /\
      ptr' = splice (Z.to_nat off) bs ptr
  end.

Lemma set_mem_id u : set_mem (uio_mem u) u = u.
Proof. by destruct u. Qed.

Lemma wp_with_user {A} (m : M cstate (Z * A)) u a c (Q : A -> uio -> Prop) E :
  m (CState false (uio_mem u)) = Ret (0, a) c ->
  Q a (set_mem (umem c) u) -> wp (with_user m) Q E u.
Proof. intros H HQ. unfold wp, with_user. by rewrite H. Qed.

Lemma wp_move_bytes ptr off base len size u E :
  iov_ok (uio_segflg u) (Iovec base len) -> 0 < size <= len -> 0 <= off ->
  off + size <= Z.of_nat (length ptr) -> mapped (uio_mem u) (block base size) ->
  wp (move_bytes ptr off base size) (moved ptr off size (block base size) u) E u.
Proof.
  intros Hok Hsz Hoff Hlen Hm. unfold move_bytes, ptr_bytes, moved. wp_steps.
  destruct (Z.leb_spec (off + size) (Z.of_nat (length ptr))); [|lia]. apply wp_ret.
  set (bytes := slice (Z.to_nat off) (Z.to_nat size) ptr).
  assert (Hb : length bytes = Z.to_nat size) by (apply slice_length; lia).
  destruct (mapped_load _ _ Hm) as [bs Hbs].
  assert (User : uio_segflg u <> UIO_SYSSPACE ->
    (forall Q : unit -> uio -> Prop, Q tt (set_mem (store_all (block base size) bytes (uio_mem u)) u) ->
       wp (with_user (r <- copyout bytes base size ;; ret (r, tt))) Q E u) /\
    (forall Q : list Z -> uio -> Prop, Q bs u -> wp (with_user (copyin base size)) Q E u)).
  { intros Hns. destruct (iov_ok_user _ _ _ _ Hns Hok Hsz) as (Hu & Hp & Hl). split; intros Q HQ.
    - destruct (copyout_run bytes base size (uio_mem u) Hp Hl ltac:(lia))
        as (k & m' & r & Er & -> & Hk & [(-> & _ & _ & ->)|(_ & _ & Hno)]); [|naive_solver].
      eapply wp_with_user.
      { unfold bind at 1. by rewrite Er. }
      cbn. rewrite Z2Nat.id by lia. rewrite (take_ge bytes) by lia. done.
    - eapply wp_with_user; [by rewrite copyin_run, Hu, Hbs by lia|]. cbn.
      by rewrite set_mem_id. }
  destruct (uio_segflg u) eqn:Eseg, (uio_rw u) eqn:Erw.
  1,3: wp_step; apply User; [done|]; by apply wp_ret.
  1,2: wp_step; apply User; [done|]; apply wp_ret; by eauto.
  - unfold kstore. wp_steps. replace (Z.of_nat (length bytes)) with size by lia.
    destruct (mapped_dec _ _); [|done]. wp_steps. done.
  - unfold kload. wp_steps. eapply wp_oob; [done|]. apply wp_ret. eauto.
Qed.

(** ** The loop *)

Definition moved_all (ptr : list Z) (off n : Z) (u : uio) (ptr' : list Z) (u' : uio) : Prop :=
  uio_advanced n u u' /\
  match uio_rw u with
  | UIO_READ => ptr' = ptr /\ uio_mem u' = store_all (take (Z.to_nat n) (uio_addrs u))
      (slice (Z.to_nat off) (Z.to_nat n) ptr) (uio_mem u)
  | UIO_WRITE => uio_mem u' = uio_mem u /\ exists bs,
      load_all (uio_mem u) (take (Z.to_nat n) (uio_addrs u)) = Some bs /\
      ptr' = splice (Z.to_nat off) bs ptr
  end.

(** Two consecutive transfers are one. *)
Lemma moved_all_trans ptr1 ptr2 ptr3 off n1 n2 u1 u2 u3 :
  0 <= n1 -> 0 <= n2 -> 0 <= off -> off + n1 + n2 <= Z.of_nat (length ptr1) ->
  n1 + n2 <= Z.of_nat (length (uio_addrs u1)) ->
  moved_all ptr1 off n1 u1 ptr2 u2 -> moved_all ptr2 (off + n1) n2 u2 ptr3 u3 ->
  moved_all ptr1 off (n1 + n2) u1 ptr3 u3.
Proof.
  intros Hn1 Hn2 Hoff Hl Ha [[A1 A2 A3 A4 A5 A6] H1] [[B1 B2 B3 B4 B5 B6] H2]. split.
  { split; try congruence; try lia.
    rewrite B1, A1, drop_drop. f_equal. lia. }
  rewrite A5 in H2. rewrite A1 in H2.
  assert (Et : take (Z.to_nat (n1 + n2)) (uio_addrs u1) =
    take (Z.to_nat n1) (uio_addrs u1) ++ take (Z.to_nat n2) (drop (Z.to_nat n1) (uio_addrs u1))).
  { rewrite take_take_drop. f_equal. lia. }
  destruct (uio_rw u1).
  - destruct H1 as [-> M1], H2 as [-> M2]. split; [done|]. rewrite M2, M1, Et.
    replace (Z.to_nat (n1 + n2)) with (Z.to_nat n1 + Z.to_nat n2)%nat by lia.
    rewrite slice_app, store_all_app.
    + do 2 f_equal. lia.
    + rewrite length_take, slice_length; lia.
  - destruct H1 as [M1 (b1 & L1 & ->)], H2 as [M2 (b2 & L2 & ->)].
    split; [congruence|]. exists (b1 ++ b2). rewrite M1 in L2.
    pose proof (load_all_length _ _ _ L1) as Hb1. rewrite length_take in Hb1.
    pose proof (load_all_length _ _ _ L2) as Hb2. rewrite length_take, length_drop in Hb2.
    split; [rewrite Et; by apply load_all_app|].
    replace (Z.to_nat (off + n1)) with (Z.to_nat off + length b1)%nat by lia.
    apply splice_splice. lia.
Qed.

Lemma uio_addrs_cons u iov rest :
  uio_iov u = iov :: rest ->
  uio_addrs u = block (iov_base iov) (iov_len iov) ++ concat (map iov_addrs rest).
Proof. unfold uio_addrs. by intros ->. Qed.

Lemma moved_len ptr off n u ptr' u' :
  0 <= off -> 0 <= n -> off + n <= Z.of_nat (length ptr) ->
  n <= Z.of_nat (length (uio_addrs u)) ->
  moved_all ptr off n u ptr' u' -> length ptr' = length ptr.
Proof.
  intros ? ? ? ? [_ H]. destruct (uio_rw u); [by destruct H as [-> _]|].
  destruct H as [_ (bs & L & ->)]. apply load_all_length in L. rewrite length_take in L.
  apply splice_length. lia.
Qed.

Lemma advanced_wf curas n u u' :
  uio_wf curas u -> 0 <= n <= uio_resid u -> uio_advanced n u u' ->
  Forall (iov_ok (uio_segflg u)) (uio_iov u') ->
  mapped (uio_mem u') (uio_addrs u') -> uio_wf curas u'.
Proof.
  intros [W1 W2 W3 W4 W5 W6] Hn [A1 A2 A3 A4 A5 A6] HF HM.
  assert (L : length (uio_addrs u') = (length (uio_addrs u) - Z.to_nat n)%nat)
    by (by rewrite A1, length_drop).
  split; rewrite ?A4; try done; try lia.
  by rewrite A6, W6.
Qed.

(** The loop bound: two steps for an iovec with bytes left, one otherwise. *)
Definition iov_steps (l : list iovec) : nat :=
  match l with
  | [] => 0
  | iov :: rest => if iov_len iov =? 0 then 2 * length rest + 1 else 2 * length rest + 2
  end.

Lemma iov_steps_le l : (iov_steps l <= 2 * length l)%nat.
Proof. destruct l as [|iov rest]; cbn; [done|]. destruct (iov_len iov =? 0); lia. Qed.

(** The uio after [size] bytes of its first block have moved, up to memory. *)
Definition bumped (size : Z) (base len : Z) (rest : list iovec) (u : uio) : uio :=
  set_offset (i64 (uio_offset u + size))
    (set_resid (u32 (uio_resid u - size))
      (set_iov (Iovec (u32 (base + size)) (u32 (len - size)) :: rest) u)).

Lemma bumped_moved curas ptr off size base len rest u ptr' u1 :
  uio_wf curas u -> uio_iov u = Iovec base len :: rest ->
  0 < size <= len -> size <= uio_resid u ->
  moved ptr off size (block base size) u ptr' u1 ->
  uio_wf curas (bumped size base len rest u1) /\
  moved_all ptr off size u ptr' (bumped size base len rest u1).
Proof.
  intros W Hiov Hsz Hr HM. pose proof W as [W1 W2 W3 W4 W5 W6].
  rewrite Hiov in W1. apply Forall_cons in W1 as [Hok W1].
  pose proof Hok as (O1 & O2 & O3). cbn in O1, O2, O3.
  assert (Htop : base + len < 2 ^ 32) by (unfold USERSPACETOP in O3; case_decide; lia).
  rewrite (uio_addrs_cons u _ _ Hiov), length_app, block_length in W2. cbn [iov_len iov_base] in *.
  rewrite (uio_addrs_cons u _ _ Hiov), length_app, block_length in W5. cbn [iov_len iov_base] in *.
  assert (Hblk : block base len = block base size ++ block (base + size) (len - size)).
  { rewrite <- block_app by lia. f_equal. lia. }
  assert (Hseg : uio_segflg u1 = uio_segflg u /\ uio_offset u1 = uio_offset u /\
    uio_resid u1 = uio_resid u /\ uio_rw u1 = uio_rw u /\ uio_space u1 = uio_space u /\
    (forall l, mapped (uio_mem u) l -> mapped (uio_mem u1) l)).
  { unfold moved in HM. destruct (uio_rw u) eqn:Erw.
    - destruct HM as [_ ->]. cbn. split_and!; try done. intros l. apply mapped_store_all.
    - by destruct HM as [-> _]. }
  destruct Hseg as (S1 & S2 & S3 & S4 & S5 & S6).
  assert (Hbmp : bumped size base len rest u1 =
    set_offset (uio_offset u + size) (set_resid (uio_resid u - size)
      (set_iov (Iovec (base + size) (len - size) :: rest) u1))).
  { unfold bumped. rewrite S2, S3. rewrite !wrap_small by lia. by rewrite swrap_small by lia. }
  assert (Hadv : uio_advanced size u (bumped size base len rest u1)).
  { rewrite Hbmp. split; cbn; try done; try lia. unfold uio_addrs at 1. cbn.
    rewrite (uio_addrs_cons u _ _ Hiov). cbn [iov_base iov_len].
    rewrite Hblk, <- app_assoc, drop_app_length' by (rewrite block_length; lia). done. }
  split.
  - eapply (advanced_wf curas size); [exact W | lia | exact Hadv | |].
    + rewrite Hbmp. cbn. constructor; [|done]. unfold iov_ok. cbn. split_and!; [lia..|].
      replace (base + size + (len - size)) with (base + len) by lia. exact O3.
    + rewrite (adv_addrs _ _ _ Hadv). rewrite Hbmp. cbn [uio_mem set_offset set_resid set_iov].
      by apply S6, mapped_drop.
  - split; [exact Hadv|]. rewrite (uio_addrs_cons u _ _ Hiov). cbn [iov_base iov_len].
    rewrite Hblk, <- app_assoc, take_app_length' by (rewrite block_length; lia).
    rewrite Hbmp. unfold moved in HM. destruct (uio_rw u).
    + destruct HM as [-> ->]. done.
    + destruct HM as [-> HM]. done.
Qed.

Lemma wp_uiomove_loop curas fuel ptr off n u E :
  uio_wf curas u -> 0 <= off -> 0 <= n <= uio_resid u ->
  off + n <= Z.of_nat (length ptr) -> (iov_steps (uio_iov u) <= fuel)%nat ->
  wp (uiomove_loop fuel ptr off n)
     (fun ptr' u' => uio_wf curas u' /\ moved_all ptr off n u ptr' u') E u.
Proof.
  revert ptr off n u. induction fuel as [|fuel IH]; intros ptr off n u W Hoff Hn Hlen Hfuel;
    cbn [uiomove_loop]; wp_step; apply wp_get;
    (destruct (Z.ltb_spec 0 n) as [Hn0|Hn0]; cbn [andb negb];
     [destruct (Z.ltb_spec 0 (uio_resid u)); [|lia]; cbn [negb]
     |apply wp_ret; replace n with 0 by lia; split; [done|]; split;
      [split; try done; lia | destruct (uio_rw u); [done|]; split; [done|];
       exists []; split; [done | by rewrite splice_nil]]]).
  - pose proof (uio_wf_resid _ _ W) as R. destruct (uio_iov u) as [|iov rest] eqn:Ei.
    + unfold uio_addrs in R. rewrite Ei in R. cbn in R. lia.
    + cbn in Hfuel. destruct (iov_len iov =? 0); lia.
  - pose proof W as [W1 W2 W3 W4 W5 W6]. destruct (uio_iov u) as [|[base len] rest] eqn:Ei.
    { unfold uio_addrs in W2. rewrite Ei in W2. cbn in W2. lia. }
    pose proof W1 as [Hok W1']%Forall_cons. destruct Hok as (O1 & O2 & O3). cbn [iov_base iov_len] in *.
    destruct (Z.eqb_spec (if n <? len then n else len) 0) as [Hz|Hz].
    + assert (len = 0) as -> by (destruct (Z.ltb_spec n len); lia).
      assert (Ha : uio_addrs (set_iov rest u) = uio_addrs u).
      { rewrite (uio_addrs_cons u _ _ Ei). done. }
      wp_step. apply wp_put. destruct rest as [|iov2 rest2].
      { rewrite <- Ha in W2. unfold uio_addrs in W2. cbn in W2. lia. }
      eapply wp_mono; [apply IH| |done]; try done; try lia.
      * split; rewrite ?Ha; done.
      * cbn in Hfuel |- *. destruct (iov_len iov2 =? 0); cbn; lia.
      * intros ptr' u' [Hw [Hadv Hm]]. split; [done|]. rewrite Ha in Hm.
        split; [|exact Hm]. destruct Hadv as [A1 A2 A3 A4 A5 A6]. rewrite Ha in A1. by split.
    + set (size := if n <? len then n else len) in *.
      assert (Hsz : 0 < size <= len /\ size <= n) by (subst size; destruct (Z.ltb_spec n len); lia).
      wp_step. eapply wp_mono; [eapply (wp_move_bytes ptr off base len)| |done]; try lia.
      * done.
      * rewrite (uio_addrs_cons u _ _ Ei) in W4. apply mapped_app in W4 as [W4 _].
        cbn [iov_base iov_len] in W4. replace len with (size + (len - size)) in W4 by lia.
        rewrite block_app in W4 by lia. by apply mapped_app in W4 as [W4 _].
      * intros ptr1 u1 HM. wp_step. apply wp_modify.
        change (set_offset _ _) with (bumped size base len rest u1).
        destruct (bumped_moved curas ptr off size base len rest u ptr1 u1) as [Wb Mb]; try done; try lia.
        pose proof (moved_len ptr off size u _ _ Hoff ltac:(lia) ltac:(lia) ltac:(lia) Mb) as Hl1.
        rewrite (wrap_small 32 (n - size)) by lia.
        destruct (decide (n - size = 0)) as [Hdone|Hmore].
        -- rewrite Hdone. destruct fuel; cbn [uiomove_loop]; wp_step; apply wp_get; cbn [andb negb];
             apply wp_ret; replace n with size by lia; done.
        -- assert (size = len) by (subst size; destruct (Z.ltb_spec n len); lia).
           eapply wp_mono; [apply IH| |done].
           ++ done.
           ++ lia.
           ++ destruct Mb as [[_ B2 _ _ _ _] _]. lia.
           ++ lia.
           ++ unfold bumped, iov_steps in *.
              cbn [uio_iov set_offset set_resid set_iov iov_len] in *.
              replace (len - size) with 0 by lia. change (u32 0 =? 0) with true. cbv iota.
              destruct (Z.eqb_spec len 0); lia.
           ++ intros ptr' u' [Hw Hm]. split; [done|]. replace n with (size + (n - size)) by lia.
              eapply moved_all_trans; try done; lia.
Qed.

(** [uiomove] of [n] bytes that the uio has room for moves exactly the next
    [n] bytes of its blocks. *)
Lemma wp_uiomove curas ptr n u E :
  uio_wf curas u -> 0 <= n <= uio_resid u -> n <= Z.of_nat (length ptr) ->
  wp (uiomove curas ptr n)
     (fun ptr' u' => uio_wf curas u' /\ moved_all ptr 0 n u ptr' u') E u.
Proof.
  intros W Hn Hl. unfold uiomove. wp_steps.
  pose proof (uio_wf_space _ _ W) as Hs. case_decide as Hseg.
  all: apply wp_kassert; [by apply bool_decide_eq_true_2|].
  all: apply wp_uiomove_loop; try done; try lia.
  all: pose proof (iov_steps_le (uio_iov u)); lia.
Qed.

Lemma slice_replicate off k n (x : Z) :
  (off + k <= n)%nat -> slice off k (replicate n x) = replicate k x.
Proof. intros H. unfold slice. rewrite drop_replicate, take_replicate. f_equal. lia. Qed.

(** What is left after [n] zeros have been read into a uio. *)
Definition zeroed (n : Z) (u u' : uio) : Prop :=
  uio_advanced n u u' /\
  uio_mem u' = store_all (take (Z.to_nat n) (uio_addrs u)) (replicate (Z.to_nat n) 0) (uio_mem u).

Lemma zeroed_trans n1 n2 u1 u2 u3 :
  0 <= n1 -> 0 <= n2 -> n1 + n2 <= Z.of_nat (length (uio_addrs u1)) ->
  zeroed n1 u1 u2 -> zeroed n2 u2 u3 -> zeroed (n1 + n2) u1 u3.
Proof.
  intros H1 H2 Hl [[A1 A2 A3 A4 A5 A6] M1] [[B1 B2 B3 B4 B5 B6] M2]. split.
  { split; try congruence; try lia. rewrite B1, A1, drop_drop. f_equal. lia. }
  rewrite M2, M1, A1. replace (Z.to_nat (n1 + n2)) with (Z.to_nat n1 + Z.to_nat n2)%nat by lia.
  rewrite <- take_take_drop, replicate_add, store_all_app; [done|].
  rewrite length_take, length_replicate. lia.
Qed.

Lemma wp_uiomovezeros_loop curas fuel n u E :
  uio_wf curas u -> uio_rw u = UIO_READ -> 0 <= n <= uio_resid u -> n <= Z.of_nat fuel ->
  wp (uiomovezeros_loop fuel curas n) (fun _ u' => uio_wf curas u' /\ zeroed n u u') E u.
Proof.
  revert n u. induction fuel as [|fuel IH]; intros n u W Hrw Hn Hf; cbn [uiomovezeros_loop];
    (destruct (Z.leb_spec n 0);
      [apply wp_ret; replace n with 0 by lia; split; [done|]; split; [split; done || lia | done] |]).
  - lia.
  - set (amt := if n <? 16 then n else 16).
    assert (Ha : 0 < amt <= 16 /\ amt <= n) by (subst amt; destruct (Z.ltb_spec n 16); lia).
    wp_step. eapply wp_mono; [apply wp_uiomove; [done | lia | rewrite length_replicate; lia] | | done].
    intros ptr' u1 [W1 [A1 M1]]. rewrite Hrw in M1. destruct M1 as [_ M1].
    rewrite slice_replicate in M1 by lia.
    assert (Z1 : zeroed amt u u1) by done. destruct A1 as [B1 B2 B3 B4 B5 B6].
    eapply wp_mono; [apply IH; [done | congruence | lia | lia] | | done].
    intros [] u' [W' Z']. split; [done|]. replace n with (amt + (n - amt)) by lia.
    pose proof (uio_wf_resid _ _ W). eapply zeroed_trans; try done; lia.
Qed.

Lemma wp_uiomovezeros curas n u E :
  uio_wf curas u -> uio_rw u = UIO_READ -> 0 <= n <= uio_resid u ->
  wp (uiomovezeros curas n) (fun _ u' => uio_wf curas u' /\ zeroed n u u') E u.
Proof.
  intros W Hrw Hn. unfold uiomovezeros. wp_steps.
  apply wp_kassert; [by apply bool_decide_eq_true_2|].
  apply wp_uiomovezeros_loop; try done. lia.
Qed.

(** ** Building uios *)

(** A kernel buffer as an object of its own, at address 0. *)
Definition kmem (bytes : list Z) : gmap Z Z :=
  store_all (block 0 (Z.of_nat (length bytes))) bytes ∅.

Lemma kmem_load bytes : load_all (kmem bytes) (block 0 (Z.of_nat (length bytes))) = Some bytes.
Proof.
  unfold kmem. apply load_store_all; [apply block_NoDup|]. rewrite block_length. lia.
Qed.

Lemma kmem_mapped bytes : mapped (kmem bytes) (block 0 (Z.of_nat (length bytes))).
Proof. apply load_all_mapped. rewrite kmem_load. by eauto. Qed.

Lemma uio_kinit_wf curas base mem len pos rw :
  0 <= base -> 0 <= len -> base + len < 2 ^ 32 -> 0 <= pos -> pos + len < 2 ^ 63 ->
  mapped mem (block base len) -> uio_wf curas (uio_kinit base mem len pos rw).
Proof.
  intros. assert (E : uio_addrs (uio_kinit base mem len pos rw) = block base len)
    by (unfold uio_addrs; cbn; by rewrite app_nil_r).
  split; rewrite ?E, ?block_length; cbn; try done; try lia.
  constructor; [|done]. unfold iov_ok. cbn. case_decide; [lia | done].
Qed.

Lemma uio_uinit_wf curas buf mem len pos rw :
  0 <= buf -> 0 <= len -> buf + len <= USERSPACETOP -> 0 <= pos -> pos + len < 2 ^ 63 ->
  mapped mem (block buf len) -> uio_wf curas (uio_uinit curas buf mem len pos rw).
Proof.
  intros. assert (E : uio_addrs (uio_uinit curas buf mem len pos rw) = block buf len)
    by (unfold uio_addrs; cbn; by rewrite app_nil_r).
  unfold USERSPACETOP in *.
  split; rewrite ?E, ?block_length; cbn; try done; try lia.
  constructor; [|done]. unfold iov_ok, USERSPACETOP. cbn. case_decide; [done | lia].
Qed.

(** [uiomove] of [n] bytes through a well-formed uio with room for them
    never panics, never returns an error and always terminates: on a read it
    stores the first [n] bytes of the kernel buffer at the next [n] addresses
    of the uio's blocks, on a write it loads them from there, whatever the
    number and sizes of the blocks, and it advances the blocks, the residue
    and the offset by exactly [n], leaving a well-formed uio. *)
Theorem uiomove_exact curas ptr n u :
  uio_wf curas u -> 0 <= n <= uio_resid u -> n <= Z.of_nat (length ptr) ->
  exists ptr' u', uiomove curas ptr n u = Ret ptr' u' /\ uio_wf curas u' /\
    moved_all ptr 0 n u ptr' u'.
Proof.
  intros W Hn Hl.
  destruct (wp_ret_inv _ _ _ (wp_uiomove curas ptr n u _ W Hn Hl)) as (ptr' & u' & E & H).
  naive_solver.
Qed.

(** Two blocks, a transfer that spans both. *)
Definition uio_example : uio :=
  Uio [Iovec 100 2; Iovec 200 3] 10 5 UIO_USERSPACE UIO_READ (Some 1)
    {[100 := 0; 101 := 0; 200 := 0; 201 := 0; 202 := 0]}.

Lemma uiomove_exact_witness :
  exists ptr' u', uiomove (Some 1) [1; 2; 3; 4] 4 uio_example = Ret ptr' u' /\
    uio_offset u' = 14 /\ uio_resid u' = 1 /\ uio_mem u' !! 201 = Some 4.
Proof.
  destruct (uiomove_exact (Some 1) [1; 2; 3; 4] 4 uio_example) as (ptr' & u' & E & _).
  - split; try (cbn; done || lia).
    + cbn [uio_iov uio_example uio_segflg].
      repeat apply Forall_cons_2; try apply Forall_nil_2; unfold iov_ok; split_and!; by vm_compute.
    + unfold uio_addrs; cbn. repeat constructor; eauto.
  - cbn; lia.
  - cbn; lia.
  - exists ptr', u'. split; [exact E|]. vm_compute in E. injection E as <- <-. by vm_compute.
Defined.

(** [uiomovezeros] of [n] bytes through a well-formed read uio with room
    for them stores [n] zero bytes at its next [n] addresses and advances it
    by [n]. *)
Theorem uiomovezeros_exact curas n u :
  uio_wf curas u -> uio_rw u = UIO_READ -> 0 <= n <= uio_resid u ->
  exists u', uiomovezeros curas n u = Ret tt u' /\ uio_wf curas u' /\ zeroed n u u'.
Proof.
  intros W Hrw Hn.
  destruct (wp_ret_inv _ _ _ (wp_uiomovezeros curas n u _ W Hrw Hn)) as ([] & u' & E & H).
  naive_solver.
Qed.

Lemma uiomovezeros_exact_witness :
  exists u', uiomovezeros None 20 (uio_kinit 0 (store_all (block 0 20) (replicate 20 9) ∅) 20 0 UIO_READ)
    = Ret tt u' /\ uio_resid u' = 0.
Proof.
  destruct (uiomovezeros_exact None 20
    (uio_kinit 0 (store_all (block 0 20) (replicate 20 9) ∅) 20 0 UIO_READ)) as (u' & E & _).
  - apply uio_kinit_wf; try lia.
    apply load_all_mapped. rewrite load_store_all; [by eauto | apply block_NoDup | done].
  - done.
  - cbn; lia.
  - exists u'. split; [exact E|]. vm_compute in E. injection E as <-. by vm_compute.
Defined.
