(* ===== verification/Vnode.v ===== *)
(** * The vnode interface, [kern/include/vnode.h], [kern/include/fs.h] and [kern/vfs/vfsfail.c]

    [VnodeOps V] is the table of operations the kernel calls on vnodes and
    file systems through [vn_ops] and [fs_ops], over a state [V] that holds
    the objects behind the pointers.  A vnode or a file system is the pointer
    to it, a path or a name the bytes of a C string without its terminator.
    [SfsFile] gives the operations of an SFS volume as an instance; the VFS
    layer and the file system calls are written against the class.  The
    functions [vopfail_...] fill the slots an object does not support. *)

From S2P Require Import Prelude CopyInOut Uio.

Definition O_RDONLY : Z := 0.
Definition O_WRONLY : Z := 1.
Definition O_RDWR : Z := 2.
Definition O_CREAT : Z := 4.
Definition O_EXCL : Z := 8.
Definition O_TRUNC : Z := 16.
Definition O_APPEND : Z := 32.
Definition O_ACCMODE : Z := 3.

Definition S_IFREG : Z := 0x1000.
Definition S_IFDIR : Z := 0x2000.

Definition NAME_MAX : Z := 255.
Definition PATH_MAX : Z := 1024.

Record stat := Stat { st_mode : Z; st_size : Z; st_nlink : Z; st_blocks : Z }.

(** The string in a buffer, up to the first null byte. *)
Fixpoint cstr (buf : list Z) : list Z :=
  match buf with
  | [] => []
  | c :: rest => if c =? 0 then [] else c :: cstr rest
  end.

Class VnodeOps (V : Type) := {
  VOP_EACHOPEN : Z -> Z -> M V unit;
  VOP_READ : Z -> M (uio * V) unit;
  VOP_READLINK : Z -> M (uio * V) unit;
  VOP_GETDIRENTRY : Z -> M (uio * V) unit;
  VOP_WRITE : Z -> M (uio * V) unit;
  VOP_IOCTL : Z -> Z -> Z -> M V unit;
  VOP_STAT : Z -> M V stat;
  VOP_GETTYPE : Z -> M V Z;
  VOP_ISSEEKABLE : Z -> M V bool;
  VOP_FSYNC : Z -> M V unit;
  VOP_MMAP : Z -> M V unit;
  VOP_TRUNCATE : Z -> Z -> M V unit;
  VOP_NAMEFILE : Z -> M (uio * V) unit;
  VOP_CREAT : Z -> list Z -> bool -> Z -> M V Z;
  VOP_SYMLINK : Z -> list Z -> list Z -> M V unit;
  VOP_MKDIR : Z -> list Z -> Z -> M V unit;
  VOP_LINK : Z -> list Z -> Z -> M V unit;
  VOP_REMOVE : Z -> list Z -> M V unit;
  VOP_RMDIR : Z -> list Z -> M V unit;
  VOP_RENAME : Z -> list Z -> Z -> list Z -> M V unit;
  VOP_LOOKUP : Z -> list Z -> M V Z;
  VOP_LOOKPARENT : Z -> list Z -> Z -> M V (Z * list Z);
  VOP_INCREF : Z -> M V unit;
  VOP_DECREF : Z -> M V unit;
  vn_fs : Z -> M V (option Z);
  FSOP_SYNC : Z -> M V unit;
  FSOP_GETVOLNAME : Z -> M V (option (list Z));
  FSOP_GETROOT : Z -> M V Z;
  FSOP_UNMOUNT : Z -> M V unit;
  biglock_acquire : M V unit;
  biglock_release : M V unit;
  biglock_do_i_hold : M V bool
}.

(** [VOP_DECREF] is a [void] function. *)
Class VoidDecref (V : Type) `{!VnodeOps V} :=
  decref_void : forall vn (v v' : V) e, VOP_DECREF vn v <> Err e v'.

(** ** Operations that fail *)

Section fail.
Context {S A : Type}.

Definition vopfail_uio_notdir (vn : Z) : M S A := throw ENOTDIR.
Definition vopfail_uio_isdir (vn : Z) : M S A := throw EISDIR.
Definition vopfail_uio_inval (vn : Z) : M S A := throw EINVAL.
Definition vopfail_uio_nosys (vn : Z) : M S A := throw ENOSYS.
Definition vopfail_mmap_isdir (vn : Z) : M S A := throw EISDIR.
Definition vopfail_mmap_perm (vn : Z) : M S A := throw EPERM.
Definition vopfail_mmap_nosys (vn : Z) : M S A := throw ENOSYS.
Definition vopfail_truncate_isdir (vn pos : Z) : M S A := throw EISDIR.
Definition vopfail_creat_notdir (vn : Z) (name : list Z) (excl : bool) (mode : Z) : M S A := throw ENOTDIR.
Definition vopfail_symlink_notdir (vn : Z) (contents name : list Z) : M S A := throw ENOTDIR.
Definition vopfail_symlink_nosys (vn : Z) (contents name : list Z) : M S A := throw ENOSYS.
Definition vopfail_mkdir_notdir (vn : Z) (name : list Z) (mode : Z) : M S A := throw ENOTDIR.
Definition vopfail_mkdir_nosys (vn : Z) (name : list Z) (mode : Z) : M S A := throw ENOSYS.
Definition vopfail_link_notdir (dir : Z) (name : list Z) (file : Z) : M S A := throw ENOTDIR.
Definition vopfail_link_nosys (dir : Z) (name : list Z) (file : Z) : M S A := throw ENOSYS.
Definition vopfail_string_notdir (vn : Z) (name : list Z) : M S A := throw ENOTDIR.
Definition vopfail_string_nosys (vn : Z) (name : list Z) : M S A := throw ENOSYS.
Definition vopfail_rename_notdir (fromdir : Z) (fromname : list Z) (todir : Z) (toname : list Z) : M S A :=
  throw ENOTDIR.
Definition vopfail_rename_nosys (fromdir : Z) (fromname : list Z) (todir : Z) (toname : list Z) : M S A :=
  throw ENOSYS.
Definition vopfail_lookup_notdir (vn : Z) (path : list Z) : M S A := throw ENOTDIR.
Definition vopfail_lookparent_notdir (vn : Z) (path : list Z) (len : Z) : M S A := throw ENOTDIR.

End fail.

(** ** Regular files behind the interface

    The abstract view of a regular file is the list of its bytes.
    [FileVnodes curas V] says what reading, writing and asking for the size
    do in terms of it; [SfsFile] discharges it for SFS.  A write starts
    inside the file or at its end, so that no gap is left, and ends within
    the largest file the file system can hold. *)

(** The number of bytes a read delivers. *)
Definition read_count (c : list Z) (u : uio) : Z :=
  Z.max 0 (Z.min (uio_resid u) (Z.of_nat (length c) - uio_offset u)).

Class FileVnodes (curas : option Z) (V : Type) `{!VnodeOps V} := {
  vfile : V -> Z -> list Z -> Prop;
  vfile_max : Z;
  vfile_max_ok : vfile_max < 2 ^ 31;
  vfile_length v vn c : vfile v vn c -> Z.of_nat (length c) <= vfile_max;
  vop_isseekable_spec v vn c : vfile v vn c -> VOP_ISSEEKABLE vn v = Ret true v;
  vop_stat_spec v vn c : vfile v vn c ->
    exists st, VOP_STAT vn v = Ret st v /\ st_size st = Z.of_nat (length c);
  vop_read_spec v vn c u : vfile v vn c -> uio_wf curas u -> uio_rw u = UIO_READ ->
    wp (VOP_READ vn)
       (fun _ '(u', v') => uio_resid u' = uio_resid u - read_count c u /\
          uio_offset u' = uio_offset u + read_count c u /\
          uio_mem u' = store_all (take (Z.to_nat (read_count c u)) (uio_addrs u))
            (slice (Z.to_nat (uio_offset u)) (Z.to_nat (read_count c u)) c) (uio_mem u) /\
          vfile v' vn c)
       (fun _ _ => False) (u, v);
  vop_write_spec v vn c u : vfile v vn c -> uio_wf curas u -> uio_rw u = UIO_WRITE ->
    uio_offset u <= Z.of_nat (length c) -> uio_offset u + uio_resid u <= vfile_max ->
    wp (VOP_WRITE vn)
       (fun _ '(u', v') => uio_offset u' = uio_offset u + uio_resid u /\ uio_mem u' = uio_mem u /\
          exists bytes, load_all (uio_mem u) (take (Z.to_nat (uio_resid u)) (uio_addrs u)) = Some bytes /\
            vfile v' vn (splice (Z.to_nat (uio_offset u)) bytes c))
       (fun e '(u', v') => e = ENOSPC /\ uio_mem u' = uio_mem u /\
          exists m bytes, 0 <= m <= uio_resid u /\
            load_all (uio_mem u) (take (Z.to_nat m) (uio_addrs u)) = Some bytes /\
            vfile v' vn (splice (Z.to_nat (uio_offset u)) bytes c))
       (u, v)
}.
