(* ===== verification/BigLock.v ===== *)
(** * The recursive big lock: a calculus of its depth

    The file-system code takes the recursive [vfs_biglock] in most entry
    points and has to give it back on every path, error returns included.
    [moves n e m] says that [m] changes the depth of the lock by [n] when it
    returns and by [e] when it fails; the rules follow the structure of the
    code, and the hint database [depth] holds what is known of each routine.
    [BalancedVnodes] is what the VFS layer asks of the file systems below. *)

From S2P Require Import Prelude CopyInOut Uio Vnode.

Create HintDb depth.

(** A state with the lock in it. *)
Class HasDepth (S : Type) := depth_of : S -> Z.
#[export] Instance uio_depth {S} `{!HasDepth S} : HasDepth (uio * S) := fun p => depth_of (snd p).

Section moves.
Context {S : Type} `{!HasDepth S}.
Implicit Types s : S.

(** The depth is an [unsigned]; [s'] is [n] levels deeper than [s]. *)
Definition shifted (n : Z) s s' : Prop := depth_of s' = u32 (depth_of s + n).

Definition moves {A} (n e : Z) (m : M S A) : Prop :=
  forall s, 0 <= depth_of s < 2 ^ 32 ->
    wlp m (fun _ s' => shifted n s s') (fun _ s' => shifted e s s') s.

Lemma shifted_trans n1 n s s1 s2 : shifted n1 s s1 -> shifted (n - n1) s1 s2 -> shifted n s s2.
Proof.
  unfold shifted, wrap. intros -> ->. rewrite Zplus_mod_idemp_l. f_equal. lia.
Qed.

Lemma shifted_range n s s' : shifted n s s' -> 0 <= depth_of s' < 2 ^ 32.
Proof. unfold shifted. intros ->. by apply wrap_bound. Qed.

Lemma shifted_same s s' : 0 <= depth_of s < 2 ^ 32 -> depth_of s' = depth_of s -> shifted 0 s s'.
Proof. intros H E. unfold shifted. by rewrite Z.add_0_r, wrap_small, E. Qed.

Lemma shifted_0 s s' : 0 <= depth_of s < 2 ^ 32 -> shifted 0 s s' -> depth_of s' = depth_of s.
Proof. unfold shifted. intros H ->. by rewrite Z.add_0_r, wrap_small. Qed.

(** ** Structural rules *)

Lemma moves_ret {A} n e (a : A) : n = 0 -> moves n e (ret a).
Proof. intros -> s Hs. by apply shifted_same. Qed.

Lemma moves_throw {A} n e r : e = 0 -> moves n e (throw (A := A) r).
Proof. intros -> s Hs. by apply shifted_same. Qed.

Lemma moves_panic {A} n e : moves n e (panic (A := A)).
Proof. done. Qed.

Lemma moves_kassert n e b : n = 0 -> moves n e (KASSERT b).
Proof. destruct b; [apply moves_ret | done]. Qed.

Lemma moves_in_bounds n e b : n = 0 -> moves n e (in_bounds b).
Proof. destruct b; [apply moves_ret | done]. Qed.

Lemma moves_oob {A} n e (o : option A) : n = 0 -> moves n e (oob o).
Proof. destruct o; [apply moves_ret | done]. Qed.

Lemma moves_bind {A B} n e n1 (m : M S A) (f : A -> M S B) :
  moves n1 e m -> (forall a, moves (n - n1) (e - n1) (f a)) -> moves n e (bind m f).
Proof.
  intros Hm Hf s Hs. apply wlp_bind. eapply wlp_mono; [by apply Hm | |done].
  intros a s1 H1. eapply wlp_mono; [apply (Hf a s1 (shifted_range _ _ _ H1)) | |].
  - intros b s2 H2. exact (shifted_trans _ _ _ _ _ H1 H2).
  - intros r s2 H2. exact (shifted_trans _ _ _ _ _ H1 H2).
Qed.

Lemma moves_catch {A} n e e1 (m : M S A) h :
  moves n e1 m -> (forall r, moves (n - e1) (e - e1) (h r)) -> moves n e (catch m h).
Proof.
  intros Hm Hh s Hs. unfold wlp, catch. specialize (Hm s Hs). unfold wlp in Hm.
  destruct (m s) as [a s1|r s1| |]; try done.
  specialize (Hh r s1 (shifted_range _ _ _ Hm)). unfold wlp in Hh.
  destruct (h r s1) as [a s2|r2 s2| |]; try done; exact (shifted_trans _ _ _ _ _ Hm Hh).
Qed.

Lemma moves_get n e : n = 0 -> moves n e get.
Proof. intros -> s Hs. by apply shifted_same. Qed.

Lemma moves_gets {A} n e (f : S -> A) : n = 0 -> moves n e (gets f).
Proof. intros -> s Hs. by apply shifted_same. Qed.

Lemma moves_modify n e (f : S -> S) : (forall s, depth_of (f s) = depth_of s) -> n = 0 -> moves n e (modify f).
Proof. intros H -> s Hs. by apply shifted_same. Qed.

Lemma moves_stateless {A} n e (m : M unit A) : n = 0 -> e = 0 -> moves n e (stateless m).
Proof. intros -> -> s Hs. unfold wlp, stateless. destruct (m tt); try done; by apply shifted_same. Qed.

Lemma moves_eq {A} n e n' e' (m : M S A) : moves n' e' m -> n = n' -> e = e' -> moves n e m.
Proof. by intros H -> ->. Qed.

Lemma moves_for_each n e lo k body :
  (forall j, moves 0 e (body j)) -> n = 0 -> moves n e (for_each lo k body).
Proof.
  intros H ->. revert lo. induction k as [|k IH]; intros lo; cbn [for_each]; [by apply moves_ret|].
  eapply moves_bind; [apply H|]. intros _. replace (0 - 0) with 0 by lia. rewrite Z.sub_0_r. apply IH.
Qed.

Lemma moves_result_of n e (m : M S unit) : moves 0 0 m -> n = 0 -> moves n e (result_of m).
Proof.
  intros H ->. apply (moves_catch _ _ 0).
  - apply (moves_bind _ _ 0); [done|]. intros _. by apply moves_ret.
  - intros r. by apply moves_ret.
Qed.

Lemma moves_return_result n e r : n = 0 -> e = 0 -> moves n e (return_result r).
Proof. intros -> ->. unfold return_result. destruct (r =? 0); [by apply moves_ret | by apply moves_throw]. Qed.

End moves.

(** The lock is as deep after [m] as before it, however [m] returns. *)
Definition balanced {S A} `{!HasDepth S} (m : M S A) : Prop :=
  forall s : S, 0 <= depth_of s < 2 ^ 32 ->
    match m s with
    | Ret _ s' | Err _ s' => depth_of s' = depth_of s
    | Panic | OutOfFuel => True
    end.

Lemma moves_balanced {S A} `{!HasDepth S} (m : M S A) : moves 0 0 m -> balanced m.
Proof.
  intros H t Ht. specialize (H t Ht). unfold wlp in H.
  destruct (m t); try done; by apply shifted_0.
Qed.

(** Follow the structure of the code; what is known of a routine is in the
    hint database [depth]. *)
#[export] Hint Extern 2 (_ = _) => lia : depth.
#[export] Hint Resolve moves_oob moves_kassert moves_in_bounds moves_return_result moves_stateless : depth.

Ltac moves_step :=
  match goal with
  | |- moves _ _ (bind _ _) => eapply (moves_bind _ _ 0); [|intros ?]
  | |- moves _ _ (catch _ _) => eapply (moves_catch _ _ 0); [|intros ?]
  | |- moves _ _ (ret _) => apply moves_ret; lia
  | |- moves _ _ (throw _) => apply moves_throw; lia
  | |- moves _ _ panic => apply moves_panic
  | |- moves _ _ get => apply moves_get; lia
  | |- moves _ _ (gets _) => apply moves_gets; lia
  | |- moves _ _ (modify _) => apply moves_modify; [done | lia]
  | |- moves _ _ (if ?b then _ else _) => destruct b
  | |- moves _ _ (match ?x with _ => _ end) => destruct x
  | |- moves _ _ (for_each _ _ _) => apply moves_for_each; [intros ?|lia]
  | |- moves _ _ (result_of _) => apply moves_result_of; [|lia]
  | |- moves _ _ _ => solve [auto with depth]
  end.
Ltac moves_tac := cbv zeta; repeat (moves_step; cbv zeta).

(** What the VFS layer relies on: the lock operations move the depth by one,
    every operation of a vnode or a file system gives the lock back, and the
    ones without an [e = 0] do not fail. *)
Class BalancedVnodes (V : Type) `{!VnodeOps V, !HasDepth V} := {
  moves_biglock_acquire n e : n = 1 -> moves n e biglock_acquire;
  moves_biglock_release n e : n = -1 -> moves n e biglock_release;
  moves_biglock_hold n e : n = 0 -> moves n e biglock_do_i_hold;
  moves_vop_eachopen n e vn fl : n = 0 -> e = 0 -> moves n e (VOP_EACHOPEN vn fl);
  moves_vop_readlink n e vn : n = 0 -> e = 0 -> moves n e (VOP_READLINK vn);
  moves_vop_gettype n e vn : n = 0 -> e = 0 -> moves n e (VOP_GETTYPE vn);
  moves_vop_truncate n e vn len : n = 0 -> e = 0 -> moves n e (VOP_TRUNCATE vn len);
  moves_vop_namefile n e vn : n = 0 -> e = 0 -> moves n e (VOP_NAMEFILE vn);
  moves_vop_creat n e vn name excl mode : n = 0 -> e = 0 -> moves n e (VOP_CREAT vn name excl mode);
  moves_vop_symlink n e vn name c : n = 0 -> e = 0 -> moves n e (VOP_SYMLINK vn name c);
  moves_vop_mkdir n e vn name mode : n = 0 -> e = 0 -> moves n e (VOP_MKDIR vn name mode);
  moves_vop_link n e vn name f : n = 0 -> e = 0 -> moves n e (VOP_LINK vn name f);
  moves_vop_remove n e vn name : n = 0 -> e = 0 -> moves n e (VOP_REMOVE vn name);
  moves_vop_rmdir n e vn name : n = 0 -> e = 0 -> moves n e (VOP_RMDIR vn name);
  moves_vop_rename n e v1 n1 v2 n2 : n = 0 -> e = 0 -> moves n e (VOP_RENAME v1 n1 v2 n2);
  moves_vop_lookup n e vn path : n = 0 -> e = 0 -> moves n e (VOP_LOOKUP vn path);
  moves_vop_lookparent n e vn path len : n = 0 -> e = 0 -> moves n e (VOP_LOOKPARENT vn path len);
  moves_vop_incref n e vn : n = 0 -> moves n e (VOP_INCREF vn);
  moves_vop_decref n e vn : n = 0 -> moves n e (VOP_DECREF vn);
  moves_vn_fs n e vn : n = 0 -> moves n e (vn_fs vn);
  moves_fsop_sync n e fs : n = 0 -> e = 0 -> moves n e (FSOP_SYNC fs);
  moves_fsop_getvolname n e fs : n = 0 -> moves n e (FSOP_GETVOLNAME fs);
  moves_fsop_getroot n e fs : n = 0 -> e = 0 -> moves n e (FSOP_GETROOT fs);
  moves_fsop_unmount n e fs : n = 0 -> e = 0 -> moves n e (FSOP_UNMOUNT fs)
}.

#[export] Hint Resolve moves_biglock_acquire moves_biglock_release moves_biglock_hold moves_vop_eachopen
  moves_vop_readlink moves_vop_gettype moves_vop_truncate moves_vop_namefile moves_vop_creat
  moves_vop_symlink moves_vop_mkdir moves_vop_link moves_vop_remove moves_vop_rmdir moves_vop_rename
  moves_vop_lookup moves_vop_lookparent moves_vop_incref moves_vop_decref moves_vn_fs moves_fsop_sync
  moves_fsop_getvolname moves_fsop_getroot moves_fsop_unmount : depth.

(** The lock operations and volume names as functions of the state, for the
    exact statements about the VFS layer; [depth_room] leaves the counter
    room for nested calls. *)
Class LockedVnodes (V : Type) `{!VnodeOps V, !HasDepth V} := {
  with_depth : Z -> V -> V;
  depth_with n v : depth_of (with_depth n v) = n;
  with_with n m v : with_depth n (with_depth m v) = with_depth n v;
  with_same v : with_depth (depth_of v) v = v;
  acquire_spec v : 0 <= depth_of v < 2 ^ 32 - 1 ->
    biglock_acquire v = Ret tt (with_depth (depth_of v + 1) v);
  release_spec v : 0 < depth_of v < 2 ^ 32 -> biglock_release v = Ret tt (with_depth (depth_of v - 1) v);
  hold_spec v : biglock_do_i_hold v = Ret true v;
  volname : V -> Z -> option (list Z);
  volname_with n v fs : volname (with_depth n v) fs = volname v fs;
  getvolname_spec v fs : 0 <= depth_of v < 2 ^ 32 - 1 -> FSOP_GETVOLNAME fs v = Ret (volname v fs) v
}.

Definition depth_room {S} `{!HasDepth S} (s : S) : Prop := 0 <= depth_of s < 2 ^ 31.
