(* ===== verification/VfsList.v ===== *)
(** * The table of named devices, [kern/vfs/vfslist.c]

    The VFS layer knows devices by name, keeps for each the file system
    mounted on it, and turns the [dev] of a path [dev:path] into a vnode.
    The table is the list [knowndevs]; an element is found by its index, as
    the pointer the code keeps stands for the element.  Names are the bytes
    of C strings, so [strcmp] is equality.  The answers of the allocator are
    inputs of [vfs_doadd]. *)

From S2P Require Import Prelude CopyInOut Uio Vnode BigLock.

(** [NULL] is [None]; [SWAP_FS] is the pointer -1. *)
Record knowndev := Knowndev {
  kd_name : list Z;
  kd_rawname : option (list Z);
  kd_device : option Z;
  kd_vnode : Z;
  kd_fs : option Z
}.

Definition SWAP_FS : Z := -1.

Definition set_fs (fs : option Z) (kd : knowndev) : knowndev :=
  Knowndev (kd_name kd) (kd_rawname kd) (kd_device kd) (kd_vnode kd) fs.

(** The state of the VFS layer over the file systems below it; the current
    directory is that of the current process. *)
Record vfs (V : Type) := Vfs {
  vfs_below : V;
  knowndevs : list knowndev;
  bootfs_vnode : option Z;
  p_cwd : option Z
}.

Arguments Vfs {V} _ _ _ _.
Arguments vfs_below {V} _.
Arguments knowndevs {V} _.
Arguments bootfs_vnode {V} _.
Arguments p_cwd {V} _.

(** [kd_fs != NULL && kd_fs != SWAP_FS] *)
Definition mounted_fs (kd : knowndev) : option Z :=
  match kd_fs kd with
  | Some fs => if fs =? SWAP_FS then None else Some fs
  | None => None
  end.

Definition samestring (a b : option (list Z)) : bool :=
  match a, b with
  | Some x, Some y => bool_decide (x = y)
  | _, _ => false
  end.

Definition samestring3 (a b c d : option (list Z)) : bool :=
  samestring a b || samestring a c || samestring a d.

(** The bytes of [raw]. *)
Definition raw_suffix : list Z := [114; 97; 119].

(** The name for the raw device; [grant] is the answer of [kmalloc]. *)
Definition mkrawname (grant : bool) (name : list Z) : option (list Z) :=
  if grant then Some (name ++ raw_suffix) else None.

Section vfslist.
Context {V : Type} `{!VnodeOps V}.
Implicit Types s : vfs V.

Definition set_below (v : V) s : vfs V := Vfs v (knowndevs s) (bootfs_vnode s) (p_cwd s).
Definition set_devs (l : list knowndev) s : vfs V := Vfs (vfs_below s) l (bootfs_vnode s) (p_cwd s).
Definition set_bootfs (vn : option Z) s : vfs V := Vfs (vfs_below s) (knowndevs s) vn (p_cwd s).
Definition set_cwd (vn : option Z) s : vfs V := Vfs (vfs_below s) (knowndevs s) (bootfs_vnode s) vn.

(** A call into the file systems. *)
Definition below {A} (m : M V A) : M (vfs V) A := zoom vfs_below set_below m.

Definition assert_biglock : M (vfs V) unit := hold <- below biglock_do_i_hold ;; KASSERT hold.

(** [result = m; vfs_biglock_release(); return result;] *)
Definition then_unlock {A} (m : M (vfs V) A) : M (vfs V) A :=
  a <- catch m (fun result => below biglock_release ;; throw result) ;;
  below biglock_release ;;
  ret a.

Fixpoint sync_loop (l : list knowndev) : M (vfs V) unit :=
  match l with
  | [] => ret tt
  | dev :: l' =>
      match mounted_fs dev with
      | Some fs => catch (below (FSOP_SYNC fs)) (fun _ => ret tt)
      | None => ret tt
      end ;;
      sync_loop l'
  end.

Definition vfs_sync : M (vfs V) unit :=
  below biglock_acquire ;;
  s <- get ;;
  sync_loop (knowndevs s) ;;
  below biglock_release.

(** One iteration of [vfs_getroot]: the vnode, if the device has that name. *)
Definition getroot_step (kd : knowndev) (devname : list Z) : M (vfs V) (option Z) :=
  match mounted_fs kd with
  | Some fs =>
      volname <- below (FSOP_GETVOLNAME fs) ;;
      if bool_decide (kd_name kd = devname) || samestring volname (Some devname)
      then root <- below (FSOP_GETROOT fs) ;; ret (Some root)
      else ret None
  | None =>
      if bool_decide (is_Some (kd_rawname kd)) && bool_decide (kd_name kd = devname)
      then throw ENXIO else ret None
  end.

Definition getroot_device (kd : knowndev) (devname : list Z) : M (vfs V) (option Z) :=
  if bool_decide (kd_name kd = devname) then
    KASSERT (bool_decide (kd_fs kd = None)) ;;
    KASSERT (bool_decide (kd_rawname kd = None)) ;;
    KASSERT (bool_decide (is_Some (kd_device kd))) ;;
    below (VOP_INCREF (kd_vnode kd)) ;;
    ret (Some (kd_vnode kd))
  else if samestring (kd_rawname kd) (Some devname) then
    KASSERT (bool_decide (is_Some (kd_device kd))) ;;
    below (VOP_INCREF (kd_vnode kd)) ;;
    ret (Some (kd_vnode kd))
  else ret None.

Fixpoint getroot_loop (l : list knowndev) (devname : list Z) : M (vfs V) Z :=
  match l with
  | [] => throw ENODEV
  | kd :: l' =>
      r <- getroot_step kd devname ;;
      match r with
      | Some vn => ret vn
      | None =>
          r <- getroot_device kd devname ;;
          match r with
          | Some vn => ret vn
          | None => getroot_loop l' devname
          end
      end
  end.

Definition vfs_getroot (devname : list Z) : M (vfs V) Z :=
  assert_biglock ;;
  s <- get ;;
  getroot_loop (knowndevs s) devname.

Definition vfs_getdevname (fs : Z) : M (vfs V) (option (list Z)) :=
  assert_biglock ;;
  s <- get ;;
  ret (kd_name <$> List.find (fun kd => bool_decide (kd_fs kd = Some fs)) (knowndevs s)).

Fixpoint badnames_loop (l : list knowndev) (n1 n2 n3 : option (list Z)) : M (vfs V) bool :=
  match l with
  | [] => ret false
  | kd :: l' =>
      bad <- match mounted_fs kd with
             | Some fs =>
                 volname <- below (FSOP_GETVOLNAME fs) ;; ret (samestring3 volname n1 n2 n3)
             | None => ret false
             end ;;
      if bad then ret true
      else if samestring3 (kd_rawname kd) n1 n2 n3 || samestring3 (Some (kd_name kd)) n1 n2 n3
      then ret true
      else badnames_loop l' n1 n2 n3
  end.

Definition badnames (n1 n2 n3 : option (list Z)) : M (vfs V) bool :=
  assert_biglock ;;
  s <- get ;;
  badnames_loop (knowndevs s) n1 n2 n3.

(** The answers of the allocator: for the name, the raw name, the vnode of
    the device (a new object), the table entry and the growth of the table. *)
Record add_env := AddEnv {
  de_name : bool; de_rawname : bool; de_vnode : option Z; de_kd : bool; de_grow : bool
}.

(** The label [fail:]; what is freed are the objects made by this call. *)
Definition doadd_fail {A} (result : Z) : M (vfs V) A :=
  below biglock_release ;; throw result.

(** The part after the allocations: the names are checked and the entry is
    added.  The device number [index + 1] is handed back, with 0 for no
    device. *)
Definition doadd_entry (grow : bool) (kd : knowndev) : M (vfs V) Z :=
  volname <- match kd_fs kd with
             | Some fs => below (FSOP_GETVOLNAME fs)
             | None => ret None
             end ;;
  bad <- badnames (Some (kd_name kd)) (kd_rawname kd) volname ;;
  if (bad : bool) then doadd_fail EEXIST
  else if negb grow then doadd_fail ENOMEM
  else
    s <- get ;;
    let index := Z.of_nat (length (knowndevs s)) in
    modify (set_devs (knowndevs s ++ [kd])) ;;
    below biglock_release ;;
    ret (match kd_device kd with Some _ => index + 1 | None => 0 end).

Definition vfs_doadd (env : add_env) (dname : list Z) (mountable : bool) (dev fs : option Z)
    : M (vfs V) Z :=
  below biglock_acquire ;;
  if negb (de_name env) then doadd_fail ENOMEM
  else
    let rawname := if mountable then mkrawname (de_rawname env) dname else None in
    if mountable && bool_decide (rawname = None) then doadd_fail ENOMEM
    else
      match de_vnode env with
      | None => doadd_fail ENOMEM
      | Some vnode =>
          if negb (de_kd env) then doadd_fail ENOMEM
          else doadd_entry (de_grow env) (Knowndev dname rawname dev vnode fs)
      end.

Definition vfs_adddev (env : add_env) (devname : list Z) (dev : Z) (mountable : bool) : M (vfs V) Z :=
  vfs_doadd env devname mountable (Some dev) None.

Definition vfs_addfs (env : add_env) (devname : list Z) (fs : Z) : M (vfs V) Z :=
  vfs_doadd env devname false None (Some fs).

(** The index of the mountable device with that name. *)
Fixpoint findmount_loop (l : list knowndev) (devname : list Z) (i : Z) : M (vfs V) (Z * knowndev) :=
  match l with
  | [] => throw ENODEV
  | dev :: l' =>
      if bool_decide (kd_rawname dev = None) then findmount_loop l' devname (i + 1)
      else if bool_decide (devname = kd_name dev) then ret (i, dev)
      else findmount_loop l' devname (i + 1)
  end.

Definition findmount (devname : list Z) : M (vfs V) (Z * knowndev) :=
  assert_biglock ;;
  s <- get ;;
  findmount_loop (knowndevs s) devname 0.

(** [kd->kd_fs = fs] for the element at [i]. *)
Definition put_fs (i : Z) (kd : knowndev) (fs : option Z) : M (vfs V) unit :=
  modify (fun s => set_devs (zinsert i (set_fs fs kd) (knowndevs s)) s).

Definition kd_asserts (kd : knowndev) : M (vfs V) unit :=
  KASSERT (bool_decide (is_Some (kd_rawname kd))) ;;
  KASSERT (bool_decide (is_Some (kd_device kd))).

(** [mountfunc] makes a file system from the device. *)
Definition vfs_mount (devname : list Z) (mountfunc : option Z -> M V Z) : M (vfs V) unit :=
  below biglock_acquire ;;
  then_unlock (
    let* (i, kd) := findmount devname in
    if bool_decide (is_Some (kd_fs kd)) then throw EBUSY
    else
      kd_asserts kd ;;
      fs <- below (mountfunc (kd_device kd)) ;;
      KASSERT (negb (fs =? 0)) ;;
      KASSERT (negb (fs =? SWAP_FS)) ;;
      put_fs i kd (Some fs) ;;
      _ <- below (FSOP_GETVOLNAME fs) ;;
      ret tt).

(** [lhd0:] is taken as [lhd0]; [grant] answers the [kstrdup]. *)
Definition vfs_swapon (grant : bool) (devname : list Z) : M (vfs V) Z :=
  let colon := bool_decide (last devname = Some 58) in
  if colon && negb grant then throw ENOMEM
  else
    let devname := if colon then removelast devname else devname in
    below biglock_acquire ;;
    then_unlock (
      let* (i, kd) := findmount devname in
      if bool_decide (is_Some (kd_fs kd)) then throw EBUSY
      else
        kd_asserts kd ;;
        put_fs i kd (Some SWAP_FS) ;;
        below (VOP_INCREF (kd_vnode kd)) ;;
        ret (kd_vnode kd)).

Definition vfs_unmount (devname : list Z) : M (vfs V) unit :=
  below biglock_acquire ;;
  then_unlock (
    let* (i, kd) := findmount devname in
    match mounted_fs kd with
    | None => throw EINVAL
    | Some fs =>
        kd_asserts kd ;;
        below (FSOP_SYNC fs) ;;
        below (FSOP_UNMOUNT fs) ;;
        put_fs i kd None
    end).

Definition vfs_swapoff (devname : list Z) : M (vfs V) unit :=
  below biglock_acquire ;;
  then_unlock (
    let* (i, kd) := findmount devname in
    if negb (bool_decide (kd_fs kd = Some SWAP_FS)) then throw EINVAL
    else put_fs i kd None).

(** One device: [dev->kd_fs] is dropped when its file system is gone. *)
Definition unmount_one (i : Z) (dev : knowndev) : M (vfs V) unit :=
  if bool_decide (kd_rawname dev = None) then ret tt
  else
    match kd_fs dev with
    | None => ret tt
    | Some fs =>
        if fs =? SWAP_FS then put_fs i dev None
        else
          result <- result_of (below (FSOP_SYNC fs)) ;;
          result <- (if result =? 0 then ret result else result_of (below (FSOP_SYNC fs))) ;;
          if negb (result =? 0) then ret tt
          else
            result <- result_of (below (FSOP_UNMOUNT fs)) ;;
            if result =? EBUSY then ret tt
            else if negb (result =? 0) then ret tt
            else put_fs i dev None
    end.

Fixpoint unmountall_loop (l : list knowndev) (i : Z) : M (vfs V) unit :=
  match l with
  | [] => ret tt
  | dev :: l' => unmount_one i dev ;; unmountall_loop l' (i + 1)
  end.

Definition vfs_unmountall : M (vfs V) unit :=
  below biglock_acquire ;;
  s <- get ;;
  unmountall_loop (knowndevs s) 0 ;;
  below biglock_release.

End vfslist.

(** ** Depth of the lock in this layer *)

#[export] Instance vfs_depth {V} `{!HasDepth V} : HasDepth (vfs V) := fun s => depth_of (vfs_below s).

Section balance.
Context {V : Type} `{!VnodeOps V, !HasDepth V, !BalancedVnodes V}.

Lemma moves_below {A} n e (m : M V A) : moves n e m -> moves n e (below m).
Proof.
  intros H s Hs. specialize (H (vfs_below s) Hs). unfold wlp, below, zoom in *. by destruct (m (vfs_below s)).
Qed.

Lemma moves_assert_biglock n e : n = 0 -> moves n e (assert_biglock (V := V)).
Proof.
  intros ->. unfold assert_biglock. eapply (moves_bind _ _ 0); [|intros ?].
  - apply moves_below. auto with depth.
  - apply moves_kassert. lia.
Qed.

Lemma moves_then_unlock {A} n e (m : M (vfs V) A) : moves 0 0 m -> n = -1 -> e = -1 -> moves n e (then_unlock m).
Proof.
  intros H -> ->. unfold then_unlock. eapply (moves_bind _ _ 0); [eapply (moves_catch _ _ 0); [done|]|]; intros ?.
  - eapply (moves_bind _ _ (-1)); [by apply moves_below, moves_biglock_release|].
    intros _. apply moves_throw. lia.
  - eapply (moves_bind _ _ (-1)); [by apply moves_below, moves_biglock_release|].
    intros _. apply moves_ret. lia.
Qed.

End balance.

Ltac vfs_step :=
  match goal with
  | |- moves _ _ (bind (below biglock_acquire) _) => eapply (moves_bind _ _ 1); [|intros ?]
  | |- moves _ _ (bind (below biglock_release) _) => eapply (moves_bind _ _ (-1)); [|intros ?]
  | |- moves _ _ (below _) => apply moves_below; solve [auto with depth]
  | |- moves _ _ (then_unlock _) => apply moves_then_unlock; [|lia|lia]
  | |- moves _ _ assert_biglock => apply moves_assert_biglock; lia
  | |- _ => moves_step
  end.
Ltac vfs_tac := cbv zeta; repeat (vfs_step; cbv zeta).

Section list_balance.
Context {V : Type} `{!VnodeOps V, !HasDepth V, !BalancedVnodes V}.

Lemma moves_sync_loop n e l : n = 0 -> moves n e (sync_loop (V := V) l).
Proof. intros ->. revert e. induction l as [|kd l IH]; intros e; cbn [sync_loop]; vfs_tac. Qed.

Lemma moves_getroot_loop n e l name : n = 0 -> e = 0 -> moves n e (getroot_loop (V := V) l name).
Proof.
  intros -> ->. induction l as [|kd l IH]; cbn [getroot_loop]; unfold getroot_step, getroot_device; vfs_tac.
Qed.

Lemma moves_badnames_loop n e l n1 n2 n3 : n = 0 -> moves n e (badnames_loop (V := V) l n1 n2 n3).
Proof. intros ->. revert e. induction l as [|kd l IH]; intros e; cbn [badnames_loop]; vfs_tac. Qed.
#[local] Hint Resolve moves_sync_loop moves_getroot_loop moves_badnames_loop : depth.

Lemma moves_vfs_getroot n e name : n = 0 -> e = 0 -> moves n e (vfs_getroot (V := V) name).
Proof. intros -> ->. unfold vfs_getroot. vfs_tac. Qed.

Lemma moves_vfs_getdevname n e fs : n = 0 -> moves n e (vfs_getdevname (V := V) fs).
Proof. intros ->. unfold vfs_getdevname. vfs_tac. Qed.

Lemma moves_badnames n e n1 n2 n3 : n = 0 -> moves n e (badnames (V := V) n1 n2 n3).
Proof. intros ->. unfold badnames. vfs_tac. Qed.
#[local] Hint Resolve moves_badnames : depth.

Lemma moves_doadd n e env name mountable dev fs :
  n = 0 -> e = 0 -> moves n e (vfs_doadd (V := V) env name mountable dev fs).
Proof. intros -> ->. unfold vfs_doadd, doadd_entry, doadd_fail. vfs_tac. Qed.

Lemma moves_findmount_loop n e l name i : n = 0 -> e = 0 -> moves n e (findmount_loop (V := V) l name i).
Proof. intros -> ->. revert i. induction l as [|kd l IH]; intros i; cbn [findmount_loop]; vfs_tac. Qed.
#[local] Hint Resolve moves_findmount_loop : depth.

Lemma moves_findmount n e name : n = 0 -> e = 0 -> moves n e (findmount (V := V) name).
Proof. intros -> ->. unfold findmount. vfs_tac. Qed.

Lemma moves_put_fs n e i kd fs : n = 0 -> moves n e (put_fs (V := V) i kd fs).
Proof. intros ->. unfold put_fs. vfs_tac. Qed.

Lemma moves_kd_asserts n e kd : n = 0 -> moves n e (kd_asserts (V := V) kd).
Proof. intros ->. unfold kd_asserts. vfs_tac. Qed.
#[local] Hint Resolve moves_findmount moves_put_fs moves_kd_asserts : depth.

Lemma moves_mount n e name mountfunc :
  (forall dev, moves 0 0 (mountfunc dev)) -> n = 0 -> e = 0 -> moves n e (vfs_mount (V := V) name mountfunc).
Proof. intros H -> ->. unfold vfs_mount. vfs_tac. Qed.

Lemma moves_unmountall_loop n e l i : n = 0 -> moves n e (unmountall_loop (V := V) l i).
Proof.
  intros ->. revert e i. induction l as [|kd l IH]; intros e i; cbn [unmountall_loop]; unfold unmount_one; vfs_tac.
Qed.
#[local] Hint Resolve moves_unmountall_loop : depth.

(** The entry points that take the lock. *)
Lemma moves_vfslist name grant :
  moves 0 0 (vfs_sync (V := V)) /\ moves 0 0 (vfs_swapon (V := V) grant name) /\
  moves 0 0 (vfs_unmount (V := V) name) /\ moves 0 0 (vfs_swapoff (V := V) name) /\
  moves 0 0 (vfs_unmountall (V := V)).
Proof. unfold vfs_sync, vfs_swapon, vfs_unmount, vfs_swapoff, vfs_unmountall. repeat split; vfs_tac. Qed.

End list_balance.
#[export] Hint Resolve moves_vfs_getroot moves_vfs_getdevname : depth.

(** ** The names in the table *)

Section names.
Context {V : Type} `{!VnodeOps V, !HasDepth V, !LockedVnodes V}.
Implicit Types s : vfs V.

(** The state with the lock at another depth. *)
Definition at_depth (n : Z) s : vfs V := set_below (with_depth n (vfs_below s)) s.

Lemma at_depth_same s : at_depth (depth_of s) s = s.
Proof. unfold at_depth. destruct s as [v l b c]. unfold set_below, depth_of, vfs_depth. cbn. by rewrite with_same. Qed.

Lemma at_at_depth n m s : at_depth n (at_depth m s) = at_depth n s.
Proof. unfold at_depth, set_below. cbn. by rewrite with_with. Qed.

Lemma depth_at_depth n s : depth_of (at_depth n s) = n.
Proof. unfold depth_of at 1, vfs_depth, at_depth. cbn. apply depth_with. Qed.

Lemma below_acquire s : 0 <= depth_of s < 2 ^ 32 - 1 ->
  below biglock_acquire s = Ret tt (at_depth (depth_of s + 1) s).
Proof. intros H. unfold below, zoom. rewrite acquire_spec by done. done. Qed.

Lemma below_release s : 0 < depth_of s < 2 ^ 32 ->
  below biglock_release s = Ret tt (at_depth (depth_of s - 1) s).
Proof. intros H. unfold below, zoom. rewrite release_spec by done. done. Qed.

Lemma set_below_same s : set_below (vfs_below s) s = s.
Proof. by destruct s. Qed.

Lemma below_getvolname fs s : 0 <= depth_of s < 2 ^ 32 - 1 ->
  below (FSOP_GETVOLNAME fs) s = Ret (volname (vfs_below s) fs) s.
Proof. intros H. unfold below, zoom. rewrite getvolname_spec by done. by rewrite set_below_same. Qed.

Lemma assert_biglock_ok s : assert_biglock s = Ret tt s.
Proof. unfold assert_biglock, below, zoom, bind. rewrite hold_spec. by rewrite set_below_same. Qed.

(** The volume name of the file system mounted on a device. *)
Definition kd_volname (v : V) (kd : knowndev) : option (list Z) := mounted_fs kd ≫= volname v.

Definition kd_clash (v : V) (n1 n2 n3 : option (list Z)) (kd : knowndev) : bool :=
  samestring3 (kd_volname v kd) n1 n2 n3 || samestring3 (kd_rawname kd) n1 n2 n3 ||
  samestring3 (Some (kd_name kd)) n1 n2 n3.

Lemma existsb_eq {A} (f g : A -> bool) l : (forall x, f x = g x) -> existsb f l = existsb g l.
Proof. intros H. induction l as [|x l IH]; [done|]. cbn. by rewrite H, IH. Qed.

Lemma kd_clash_at n v n1 n2 n3 kd : kd_clash (with_depth n v) n1 n2 n3 kd = kd_clash v n1 n2 n3 kd.
Proof. unfold kd_clash, kd_volname. destruct (mounted_fs kd); cbn; by rewrite ?volname_with. Qed.

Lemma badnames_loop_exact l n1 n2 n3 s : 0 <= depth_of s < 2 ^ 32 - 1 ->
  badnames_loop l n1 n2 n3 s = Ret (existsb (kd_clash (vfs_below s) n1 n2 n3) l) s.
Proof.
  intros Hs. induction l as [|kd l IH]; [done|]. cbn [badnames_loop existsb]. unfold kd_clash at 1, kd_volname.
  unfold bind at 1. destruct (mounted_fs kd) as [fs|]; cbn.
  - unfold bind. rewrite below_getvolname by done. cbn.
    destruct (samestring3 (volname _ _) _ _ _); [done|]. cbn. by destruct (_ || _).
  - by destruct (_ || _).
Qed.

(** Whether the allocator grants everything [vfs_doadd] needs before it looks
    at the table. *)
Definition add_granted (env : add_env) (mountable : bool) : bool :=
  de_name env && (negb mountable || de_rawname env) && bool_decide (is_Some (de_vnode env)) && de_kd env.

Definition new_rawname (mountable : bool) (dname : list Z) : option (list Z) :=
  if mountable then Some (dname ++ raw_suffix) else None.

Definition new_knowndev (env : add_env) (dname : list Z) (mountable : bool) (dev fs : option Z) : knowndev :=
  Knowndev dname (new_rawname mountable dname) dev (default 0 (de_vnode env)) fs.

Lemma doadd_fail_exact {A} r s : depth_room s ->
  doadd_fail (A := A) r (at_depth (depth_of s + 1) s) = Err r s.
Proof.
  unfold depth_room. intros H. unfold doadd_fail, bind. rewrite below_release by (rewrite depth_at_depth; lia).
  unfold throw. rewrite depth_at_depth, at_at_depth. f_equal.
  replace (depth_of s + 1 - 1) with (depth_of s) by lia. apply at_depth_same.
Qed.

Lemma doadd_entry_exact grow kd s : depth_room s ->
  doadd_entry grow kd (at_depth (depth_of s + 1) s) =
    if existsb (kd_clash (vfs_below s) (Some (kd_name kd)) (kd_rawname kd)
                  (kd_fs kd ≫= volname (vfs_below s))) (knowndevs s) then Err EEXIST s
    else if negb grow then Err ENOMEM s
    else Ret (match kd_device kd with Some _ => Z.of_nat (length (knowndevs s)) + 1 | None => 0 end)
           (set_devs (knowndevs s ++ [kd]) s).
Proof.
  intros Hs. pose proof Hs as Hs'. unfold depth_room in Hs'. set (s1 := at_depth (depth_of s + 1) s).
  assert (Hd : depth_of s1 = depth_of s + 1) by apply depth_at_depth.
  assert (Hv : forall fs, volname (vfs_below s1) fs = volname (vfs_below s) fs) by (intros; apply volname_with).
  assert (Hn : forall o, (match o with Some fs => below (FSOP_GETVOLNAME fs) | None => ret None end) s1 =
    Ret (o ≫= volname (vfs_below s)) s1).
  { intros [fs|]; [|done]. rewrite below_getvolname by lia. cbn. by rewrite Hv. }
  unfold doadd_entry, bind at 1. rewrite Hn. unfold badnames, bind. rewrite assert_biglock_ok. cbn [get].
  rewrite badnames_loop_exact by lia.
  change (vfs_below s1) with (with_depth (depth_of s + 1) (vfs_below s)). change (knowndevs s1) with (knowndevs s).
  rewrite (existsb_eq _ _ _ (kd_clash_at (depth_of s + 1) (vfs_below s) _ _ _)).
  destruct (existsb _ _); [by apply doadd_fail_exact|].
  destruct grow; cbn [negb]; [|by apply doadd_fail_exact].
  unfold get, modify. rewrite below_release by (change (0 < depth_of s1 < 2 ^ 32); lia).
  change (depth_of (set_devs _ s1)) with (depth_of s1). rewrite Hd.
  replace (depth_of s + 1 - 1) with (depth_of s) by lia. unfold ret. f_equal.
  change (at_depth (depth_of s) (set_devs ?l s1)) with (set_devs l (at_depth (depth_of s) s1)).
  unfold s1. by rewrite at_at_depth, at_depth_same.
Qed.

Lemma vfs_doadd_run env dname mountable dev fs s : depth_room s ->
  vfs_doadd env dname mountable dev fs s =
    if negb (add_granted env mountable) then Err ENOMEM s
    else if existsb (kd_clash (vfs_below s) (Some dname) (new_rawname mountable dname)
                       (fs ≫= volname (vfs_below s))) (knowndevs s) then Err EEXIST s
    else if negb (de_grow env) then Err ENOMEM s
    else Ret (match dev with Some _ => Z.of_nat (length (knowndevs s)) + 1 | None => 0 end)
           (set_devs (knowndevs s ++ [new_knowndev env dname mountable dev fs]) s).
Proof.
  intros Hs. pose proof Hs as Hs'. unfold depth_room in Hs'. unfold vfs_doadd, bind at 1.
  rewrite below_acquire by lia. unfold add_granted, new_knowndev, mkrawname.
  destruct (de_name env); cbn [negb andb]; [|by apply doadd_fail_exact].
  destruct mountable; cbn [andb orb negb].
  1: destruct (de_rawname env); [rewrite bool_decide_false by done | by apply doadd_fail_exact].
  all: cbn [andb]; destruct (de_vnode env) as [vn|]; [|by apply doadd_fail_exact].
  all: rewrite bool_decide_true by done; cbn [andb].
  all: destruct (de_kd env); [|by apply doadd_fail_exact].
  all: cbn [negb]; by rewrite doadd_entry_exact.
Qed.

(** The names a device goes by, its volume name apart. *)
Definition kd_names (kd : knowndev) : list (list Z) := kd_name kd :: option_list (kd_rawname kd).
Definition dev_names (l : list knowndev) : list (list Z) := concat (map kd_names l).

Lemma samestring_false a b : samestring a b = false <-> forall x, a = Some x -> b <> Some x.
Proof.
  destruct a as [x|], b as [y|]; cbn; [rewrite bool_decide_eq_false|..]; split; try done.
  - intros H z [= ->] [= ->]. done.
  - intros H ->. by apply (H y).
Qed.

Lemma samestring3_false a b c d :
  samestring3 a b c d = false <-> forall x, a = Some x -> b <> Some x /\ c <> Some x /\ d <> Some x.
Proof.
  unfold samestring3. rewrite !orb_false_iff, !samestring_false. split.
  - intros [[H1 H2] H3] x E. auto.
  - intros H. split_and!; intros x E; apply (H x E).
Qed.

Lemma samestring3_true a b c d :
  samestring3 a b c d = true -> exists x, a = Some x /\ (b = Some x \/ c = Some x \/ d = Some x).
Proof.
  unfold samestring3, samestring. destruct a as [x|]; [|by destruct b, c, d].
  rewrite !orb_true_iff. intros [[H|H]|H]; exists x; (split; [done|]).
  - destruct b; [|done]. apply bool_decide_eq_true in H as ->. auto.
  - destruct c; [|done]. apply bool_decide_eq_true in H as ->. auto.
  - destruct d; [|done]. apply bool_decide_eq_true in H as ->. auto.
Qed.

Lemma elem_of_kd_names kd x : x ∈ kd_names kd <-> kd_name kd = x \/ kd_rawname kd = Some x.
Proof.
  unfold kd_names. rewrite elem_of_cons. destruct (kd_rawname kd) as [r|]; cbn.
  - rewrite list_elem_of_singleton. split; intros [H|H]; [auto | subst; auto | auto | injection H as ->; auto].
  - rewrite elem_of_nil. split; intros [H|H]; done || auto.
Qed.

Lemma kd_clash_false v n1 n2 n3 kd :
  kd_clash v n1 n2 n3 kd = false <->
  forall x, n1 = Some x \/ n2 = Some x \/ n3 = Some x ->
    kd_volname v kd <> Some x /\ x ∉ kd_names kd.
Proof.
  unfold kd_clash. rewrite !orb_false_iff, !samestring3_false. split.
  - intros [[H1 H2] H3] x Hx. rewrite elem_of_kd_names.
    split; [intros E; specialize (H1 x E); tauto|].
    intros [<- |E]; [specialize (H3 _ eq_refl); tauto | specialize (H2 x E); tauto].
  - intros H. split_and!; intros x E; split_and!; intros Ex;
      destruct (H x ltac:(tauto)) as [H1 H2]; rewrite elem_of_kd_names in H2;
      try injection E as E; tauto.
Qed.

Lemma existsb_false {A} (f : A -> bool) l : existsb f l = false <-> forall x, x ∈ l -> f x = false.
Proof.
  induction l as [|y l IH]; cbn; [split; [by intros _ x H%not_elem_of_nil | done]|].
  rewrite orb_false_iff, IH. split.
  - intros [Hy H] x [-> |Hx]%elem_of_cons; auto.
  - intros H. split; [apply H, elem_of_cons; auto|]. intros x Hx. apply H, elem_of_cons. auto.
Qed.

Lemma elem_of_dev_names l x : x ∈ dev_names l <-> exists kd, kd ∈ l /\ x ∈ kd_names kd.
Proof.
  unfold dev_names. rewrite list_elem_of_In, in_concat. split.
  - intros (ns & (kd & <- & Hkd)%in_map_iff & Hx). exists kd. by rewrite !list_elem_of_In.
  - intros (kd & Hkd & Hx). exists (kd_names kd). rewrite <- !list_elem_of_In. split; [|done].
    apply list_elem_of_In, in_map. by apply list_elem_of_In.
Qed.

Lemma dev_names_app l kd : dev_names (l ++ [kd]) = dev_names l ++ kd_names kd.
Proof. unfold dev_names. rewrite map_app, concat_app. cbn. by rewrite app_nil_r. Qed.

Lemma new_names_NoDup env dname mountable dev fs : NoDup (kd_names (new_knowndev env dname mountable dev fs)).
Proof.
  unfold kd_names, new_knowndev. cbn. destruct mountable; cbn; [|apply NoDup_singleton].
  apply NoDup_cons. split; [|apply NoDup_singleton]. rewrite list_elem_of_singleton. intros E.
  apply (f_equal length) in E. rewrite length_app in E. cbn in E. lia.
Qed.

Lemma no_clash_NoDup s env dname mountable dev fs n3 :
  NoDup (dev_names (knowndevs s)) ->
  existsb (kd_clash (vfs_below s) (Some dname) (new_rawname mountable dname) n3) (knowndevs s) = false ->
  NoDup (dev_names (knowndevs s ++ [new_knowndev env dname mountable dev fs])).
Proof.
  intros HN HC. rewrite existsb_false in HC. rewrite dev_names_app. apply NoDup_app. split; [done|].
  split; [|apply new_names_NoDup]. intros x (kd & Hkd & Hx)%elem_of_dev_names Hin.
  apply HC in Hkd. rewrite kd_clash_false in Hkd. apply elem_of_kd_names in Hin. cbn in Hin.
  destruct (Hkd x) as [_ H]; [|done]. destruct Hin as [-> |E]; auto.
Qed.

(** Adding a device keeps the names in the device table unique: on
    success the new entry is the last of the table, carries the name and, if
    the device is mountable, the raw name, none of which named a device or a
    mounted volume before, and the device gets its index plus one as number;
    an error leaves the whole state unchanged and is [EEXIST] only when one
    of the names is taken. *)
Theorem vfs_doadd_unique env dname mountable dev fs s :
  depth_room s -> NoDup (dev_names (knowndevs s)) ->
  match vfs_doadd env dname mountable dev fs s with
  | Ret number s' =>
      NoDup (dev_names (knowndevs s')) /\
      s' = set_devs (knowndevs s ++ [new_knowndev env dname mountable dev fs]) s /\
      (forall kd, kd ∈ knowndevs s -> kd_volname (vfs_below s) kd <> Some dname) /\
      (dev <> None -> zlookup (knowndevs s') (number - 1) = Some (new_knowndev env dname mountable dev fs))
  | Err e s' =>
      s' = s /\ (e = ENOMEM \/ e = EEXIST /\ exists kd x, kd ∈ knowndevs s /\
        (kd_volname (vfs_below s) kd = Some x \/ x ∈ kd_names kd) /\
        (x = dname \/ new_rawname mountable dname = Some x \/ fs ≫= volname (vfs_below s) = Some x))
  | Panic | OutOfFuel => False
  end.
Proof.
  intros Hs HN. rewrite vfs_doadd_run by done. destruct (negb (add_granted _ _)); [by auto|].
  destruct (existsb _ _) eqn:Ec.
  - split; [done|]. right. split; [done|]. apply existsb_exists in Ec as (kd & Hin & Hc).
    exists kd. apply list_elem_of_In in Hin. unfold kd_clash in Hc.
    rewrite !orb_true_iff in Hc. destruct Hc as [[(x & E & Hx)%samestring3_true|(x & E & Hx)%samestring3_true]|(x & E & Hx)%samestring3_true]; exists x;
      (split; [done|]; split; [|destruct Hx as [[= ->]|[Hx|Hx]]; auto]).
    + auto.
    + right. apply elem_of_kd_names. auto.
    + right. apply elem_of_kd_names. injection E as ->. auto.
  - destruct (de_grow env); cbn [negb]; [|by auto]. split_and!; [by eapply no_clash_NoDup | done | |].
    + intros kd Hkd. rewrite existsb_false in Ec. apply Ec in Hkd. rewrite kd_clash_false in Hkd.
      apply (Hkd dname). auto.
    + intros Hd. destruct dev; [|done]. cbn [knowndevs set_devs].
      replace (Z.of_nat (length (knowndevs s)) + 1 - 1) with (Z.of_nat (length (knowndevs s))) by lia.
      rewrite zlookup_nat, lookup_app_r by lia. by rewrite Nat.sub_diag.
Qed.

(** ** Resolving a device name *)

(** The device goes by this name. *)
Definition kd_answers (v : V) (name : list Z) (kd : knowndev) : bool :=
  bool_decide (kd_name kd = name) || samestring (kd_volname v kd) (Some name) ||
  samestring (kd_rawname kd) (Some name).

(** What naming a device means, by the rules written at [struct knowndev]:
    [kd_name] or the volume name of a mounted file system is its root,
    [kd_name] of a mountable device without one is [ENXIO], and otherwise the
    name stands for the device itself. *)
Definition kd_resolve (name : list Z) (kd : knowndev) : M (vfs V) Z :=
  s <- get ;;
  if bool_decide (kd_name kd = name) || samestring (kd_volname (vfs_below s) kd) (Some name) then
    match mounted_fs kd with
    | Some fs => below (FSOP_GETROOT fs)
    | None => if bool_decide (is_Some (kd_rawname kd)) then throw ENXIO
              else below (VOP_INCREF (kd_vnode kd)) ;; ret (kd_vnode kd)
    end
  else below (VOP_INCREF (kd_vnode kd)) ;; ret (kd_vnode kd).

(** A well-formed entry: only a mountable device is swap, and an entry whose
    device is handed out has one. *)
Record kd_ok (kd : knowndev) : Prop := {
  kd_swap : kd_fs kd = Some SWAP_FS -> is_Some (kd_rawname kd);
  kd_dev : kd_fs kd = None \/ is_Some (kd_rawname kd) -> is_Some (kd_device kd)
}.

Lemma mounted_None kd : mounted_fs kd = None <-> kd_fs kd = None \/ kd_fs kd = Some SWAP_FS.
Proof.
  unfold mounted_fs. destruct (kd_fs kd) as [fs|]; [|by split; auto].
  destruct (Z.eqb_spec fs SWAP_FS) as [-> |H]; [by split; auto|].
  split; [done|]. by intros [?|[= E]].
Qed.

Lemma getroot_step_exact kd name s : 0 <= depth_of s < 2 ^ 32 - 1 ->
  getroot_step kd name s =
    if bool_decide (kd_name kd = name) || samestring (kd_volname (vfs_below s) kd) (Some name) then
      match mounted_fs kd with
      | Some fs => (root <- below (FSOP_GETROOT fs) ;; ret (Some root)) s
      | None => if bool_decide (is_Some (kd_rawname kd)) then Err ENXIO s else Ret None s
      end
    else Ret None s.
Proof.
  intros Hs. unfold getroot_step, kd_volname. destruct (mounted_fs kd) as [fs|]; cbn.
  - unfold bind at 1. rewrite below_getvolname by done. by destruct (_ || _).
  - rewrite orb_false_r, andb_comm. by destruct (bool_decide (kd_name kd = name)), (bool_decide (is_Some _)).
Qed.

Lemma getroot_loop_exact l name s :
  0 <= depth_of s < 2 ^ 32 - 1 -> Forall kd_ok l ->
  getroot_loop l name s =
    match List.find (kd_answers (vfs_below s) name) l with
    | Some kd => kd_resolve name kd s
    | None => Err ENODEV s
    end.
Proof.
  intros Hs HF. induction HF as [|kd l Hkd _ IH]; [done|]. cbn [getroot_loop List.find].
  unfold bind at 1. rewrite getroot_step_exact by done. unfold kd_answers at 1.
  destruct (bool_decide (kd_name kd = name) || _) eqn:En; cbn [orb].
  - destruct (mounted_fs kd) as [fs|] eqn:Em.
    + unfold kd_resolve, bind, get. rewrite En, Em. by destruct (below (FSOP_GETROOT fs) s).
    + unfold kd_resolve, bind at 2, get. rewrite En, Em.
      destruct (bool_decide (is_Some (kd_rawname kd))) eqn:Er; [done|].
      apply bool_decide_eq_false in Er. destruct (kd_rawname kd) eqn:Er'; [by destruct Er|].
      assert (Ef : kd_fs kd = None).
      { apply mounted_None in Em as [?|Em]; [done|]. destruct (kd_swap _ Hkd Em). congruence. }
      unfold kd_volname in En. rewrite Em in En. cbn in En. rewrite orb_false_r in En.
      destruct (kd_dev _ Hkd (or_introl Ef)) as [d Ed].
      unfold getroot_device, bind. rewrite En, Er', Ef, Ed, !bool_decide_true by done. cbn.
      by destruct (below (VOP_INCREF (kd_vnode kd)) s).
  - pose proof En as [Enn _]%orb_false_iff. unfold getroot_device. rewrite Enn.
    destruct (samestring (kd_rawname kd) (Some name)) eqn:Er; [|done].
    assert (Hr : is_Some (kd_rawname kd)) by (destruct (kd_rawname kd); done).
    destruct (kd_dev _ Hkd (or_intror Hr)) as [d Ed].
    unfold kd_resolve, bind, get. rewrite En, Ed, bool_decide_true by done. cbn.
    by destruct (below (VOP_INCREF (kd_vnode kd)) s).
Qed.

(** [vfs_getroot] follows the rules documented for device names: the
    first device of the table that goes by the name decides, by its name or
    the volume name of its mounted file system the root of that file system,
    [ENXIO] for a mountable device without one, the device itself under its
    raw name; a name nothing goes by is [ENODEV]. *)
Theorem vfs_getroot_resolves name s :
  depth_room s -> Forall kd_ok (knowndevs s) ->
  vfs_getroot name s =
    match List.find (kd_answers (vfs_below s) name) (knowndevs s) with
    | Some kd => kd_resolve name kd s
    | None => Err ENODEV s
    end.
Proof.
  unfold depth_room. intros Hs HF. unfold vfs_getroot, bind. rewrite assert_biglock_ok. cbn [get].
  apply getroot_loop_exact; [lia | done].
Qed.

(** ** The table as a state machine *)

Definition devs_ok (l : list knowndev) : Prop := NoDup (dev_names l) /\ Forall kd_ok l.

(** What an operation does to the table alone. *)
Definition table {A} (m : M (vfs V) A) (Q : A -> list knowndev -> Prop) (E : list knowndev -> Prop)
    (l : list knowndev) : Prop :=
  forall s, knowndevs s = l ->
    wlp m (fun a s' => Q a (knowndevs s')) (fun _ s' => E (knowndevs s')) s.

Lemma table_bind {A B} (m : M (vfs V) A) (f : A -> M (vfs V) B) Q E l :
  table m (fun a => table (f a) Q E) E l -> table (bind m f) Q E l.
Proof. intros H s Hs. apply wlp_bind. eapply wlp_mono; [by apply H | | done]. intros a s' Ha. by apply Ha. Qed.

Lemma table_get {B} (f : vfs V -> M (vfs V) B) Q E l :
  (forall s, knowndevs s = l -> table (f s) Q E l) -> table (bind get f) Q E l.
Proof. intros H s Hs. apply wlp_bind. cbn. by apply H. Qed.

Lemma table_below {A} (m : M V A) (Q : A -> list knowndev -> Prop) (E : list knowndev -> Prop) l :
  (forall a, Q a l) -> E l -> table (below m) Q E l.
Proof.
  intros HQ HE s <-. unfold wlp, below, zoom. destruct (m (vfs_below s)); try done; apply HQ.
Qed.

Lemma table_ret {A} (a : A) (Q : A -> list knowndev -> Prop) E l : Q a l -> table (ret a) Q E l.
Proof. by intros H s <-. Qed.

Lemma table_throw {A} r (Q : A -> list knowndev -> Prop) (E : list knowndev -> Prop) l : E l -> table (throw r) Q E l.
Proof. by intros H s <-. Qed.

Lemma table_kassert b (Q : unit -> list knowndev -> Prop) E l : (b = true -> Q tt l) -> table (KASSERT b) Q E l.
Proof. intros H s <-. destruct b; [by apply H | done]. Qed.

Lemma table_catch {A} (m : M (vfs V) A) h Q E l :
  table m Q (fun l' => forall r, table (h r) Q E l') l -> table (catch m h) Q E l.
Proof.
  intros H s Hs. specialize (H s Hs). unfold wlp, catch in *. destruct (m s) as [|r s1| |]; try done.
  by apply (H r s1).
Qed.

Lemma table_put_fs i kd fs (Q : unit -> list knowndev -> Prop) E l :
  Q tt (zinsert i (set_fs fs kd) l) -> table (put_fs i kd fs) Q E l.
Proof. by intros H s <-. Qed.

Lemma table_mono {A} (m : M (vfs V) A) (Q Q' : A -> list knowndev -> Prop) (E E' : list knowndev -> Prop) l :
  table m Q E l -> (forall a l', Q a l' -> Q' a l') -> (forall l', E l' -> E' l') -> table m Q' E' l.
Proof. intros H HQ HE s Hs. eapply wlp_mono; [by apply H | auto..]. Qed.

Lemma table_assert_biglock (Q : unit -> list knowndev -> Prop) (E : list knowndev -> Prop) l :
  Q tt l -> E l -> table assert_biglock Q E l.
Proof. intros HQ HE. apply table_bind, table_below; [|done]. intros b. by apply table_kassert. Qed.

Lemma table_then_unlock {A} (m : M (vfs V) A) (Q : A -> list knowndev -> Prop) (E : list knowndev -> Prop) l :
  table m (fun a l' => Q a l' /\ E l') E l -> table (then_unlock m) Q E l.
Proof.
  intros H. apply table_bind, table_catch. eapply table_mono; [exact H| |].
  - intros a l' [HQ HE]. apply table_bind, table_below; [|done]. intros _. by apply table_ret.
  - intros l' HE r. apply table_bind, table_below; [|done]. intros _. by apply table_throw.
Qed.

(** A search that succeeds hands back an entry of the table that can be
    mounted on. *)
Definition found_mount (l : list knowndev) (p : Z * knowndev) : Prop :=
  zlookup l p.1 = Some p.2 /\ is_Some (kd_rawname p.2).

Lemma findmount_loop_found pre l name s :
  wlp (findmount_loop l name (Z.of_nat (length pre)))
    (fun p s' => s' = s /\ found_mount (pre ++ l) p) (fun _ s' => s' = s) s.
Proof.
  revert pre. induction l as [|kd l IH]; intros pre; cbn [findmount_loop]; [done|].
  assert (Next : wlp (findmount_loop l name (Z.of_nat (length pre) + 1))
    (fun p s' => s' = s /\ found_mount (pre ++ kd :: l) p) (fun _ s' => s' = s) s).
  { specialize (IH (pre ++ [kd])). rewrite <- app_assoc in IH. cbn in IH.
    replace (Z.of_nat (length pre) + 1) with (Z.of_nat (length (pre ++ [kd]))) by (rewrite length_app; cbn; lia).
    exact IH. }
  destruct (kd_rawname kd) as [r|] eqn:Er; [|by rewrite bool_decide_true].
  rewrite bool_decide_false by done. destruct (bool_decide (name = kd_name kd)); [|done].
  split; [done|]. split; cbn; [|by rewrite Er].
  rewrite zlookup_nat, lookup_app_r by lia. by rewrite Nat.sub_diag.
Qed.

Lemma table_findmount name (Q : Z * knowndev -> list knowndev -> Prop) (E : list knowndev -> Prop) l :
  (forall p, found_mount l p -> Q p l) -> E l -> table (findmount name) Q E l.
Proof.
  intros HQ HE. apply table_bind, table_assert_biglock; [|done]. apply table_get. intros s0 Hs0 s Hs. rewrite Hs0.
  eapply wlp_mono; [apply (findmount_loop_found [] l name s) | |]; cbn.
  - intros p s' [-> Hp]. rewrite Hs. by apply HQ.
  - intros _ s' ->. by rewrite Hs.
Qed.

(** Changing the file system of a device that can have one. *)
Lemma devs_ok_set_fs l i kd fs :
  devs_ok l -> found_mount l (i, kd) -> devs_ok (zinsert i (set_fs fs kd) l).
Proof.
  intros [HN HF] [Hi Hr]. cbn in Hi, Hr. pose proof (Forall_zlookup _ _ _ _ HF Hi) as [H1 H2]. split.
  - replace (dev_names (zinsert i (set_fs fs kd) l)) with (dev_names l); [done|].
    unfold dev_names, zlookup, zinsert in *. destruct (0 <=? i); [|done]. f_equal.
    change (map kd_names ?x) with (kd_names <$> x). rewrite list_fmap_insert.
    symmetry. apply list_insert_id. by rewrite list_lookup_fmap, Hi.
  - apply Forall_zinsert; [done|]. split; [done|]. intros _. apply H2. by right.
Qed.

Lemma table_kd_asserts kd (Q : unit -> list knowndev -> Prop) (E : list knowndev -> Prop) l :
  Q tt l -> E l -> table (kd_asserts kd) Q E l.
Proof. intros HQ HE. apply table_bind, table_kassert. intros _. by apply table_kassert. Qed.

Definition keeps_devs {A} (m : M (vfs V) A) : Prop :=
  forall l, devs_ok l -> table m (fun _ => devs_ok) devs_ok l.

(** Under the lock, find the device and go on with it. *)
Lemma keeps_locked {A} name (f : Z * knowndev -> M (vfs V) A) :
  (forall l p, devs_ok l -> found_mount l p -> table (f p) (fun _ => devs_ok) devs_ok l) ->
  keeps_devs (below biglock_acquire ;; then_unlock (bind (findmount name) f)).
Proof.
  intros H l Hl. apply table_bind, table_below; [|done]. intros _.
  apply table_then_unlock, table_bind, table_findmount; [|done]. intros p Hp.
  eapply table_mono; [by apply H | done..].
Qed.

Lemma keeps_mount name f : keeps_devs (vfs_mount name f).
Proof.
  apply keeps_locked. intros l [i kd] Hl Hp. destruct (bool_decide _); [by apply table_throw|].
  apply table_bind, table_kd_asserts; [|done]. apply table_bind, table_below; [|done]. intros fs.
  apply table_bind, table_kassert. intros _. apply table_bind, table_kassert. intros _.
  pose proof (devs_ok_set_fs l i kd (Some fs) Hl Hp) as H.
  apply table_bind, table_put_fs, table_bind, table_below; [|done]. intros v. by apply table_ret.
Qed.

Lemma keeps_swapon grant name : keeps_devs (vfs_swapon grant name).
Proof.
  intros l Hl. unfold vfs_swapon. destruct (_ && _); [by apply table_throw|]. revert l Hl.
  apply keeps_locked. intros l [i kd] Hl Hp. destruct (bool_decide _); [by apply table_throw|].
  apply table_bind, table_kd_asserts; [|done].
  pose proof (devs_ok_set_fs l i kd (Some SWAP_FS) Hl Hp) as H.
  apply table_bind, table_put_fs, table_bind, table_below; [|done]. intros v. by apply table_ret.
Qed.

Lemma keeps_unmount name : keeps_devs (vfs_unmount name).
Proof.
  apply keeps_locked. intros l [i kd] Hl Hp. destruct (mounted_fs kd); [|by apply table_throw].
  apply table_bind, table_kd_asserts; [|done].
  do 2 (apply table_bind, table_below; [intros _|done]).
  apply table_put_fs. by apply devs_ok_set_fs.
Qed.

Lemma keeps_swapoff name : keeps_devs (vfs_swapoff name).
Proof.
  apply keeps_locked. intros l [i kd] Hl Hp. destruct (negb _); [by apply table_throw|].
  apply table_put_fs. by apply devs_ok_set_fs.
Qed.

Lemma keeps_unmount_one i kd l :
  devs_ok l -> zlookup l i = Some kd ->
  table (unmount_one i kd) (fun _ l' => devs_ok l' /\ length l' = length l /\
    drop (S (Z.to_nat i)) l' = drop (S (Z.to_nat i)) l) devs_ok l.
Proof.
  intros Hl Hi. unfold unmount_one. destruct (kd_rawname kd) as [r|] eqn:Er.
  2:{ rewrite bool_decide_true by done. by apply table_ret. }
  rewrite bool_decide_false by done.
  assert (Hput : table (put_fs i kd None)
    (fun _ l' => devs_ok l' /\ length l' = length l /\
    drop (S (Z.to_nat i)) l' = drop (S (Z.to_nat i)) l) devs_ok l).
  { apply table_put_fs. split; [apply devs_ok_set_fs; [done|]; split; cbn; [done | by rewrite Er]|].
    split; [apply zinsert_length|].
    unfold zinsert. destruct (0 <=? i); [|done]. by rewrite drop_insert_lt by lia. }
  destruct (kd_fs kd) as [fs|]; [|by apply table_ret].
  destruct (fs =? SWAP_FS); [done|].
  assert (Call : forall (m : M V unit) (Q : Z -> list knowndev -> Prop), (forall r, Q r l) ->
    table (result_of (below m)) Q devs_ok l).
  { intros m Q HQ. apply table_catch, table_bind, table_below; [intros _; by apply table_ret|].
    intros r'. by apply table_ret. }
  apply table_bind, Call. intros r1. apply table_bind. destruct (r1 =? 0); [apply table_ret | apply Call; intros r2].
  all: destruct (negb _); [by apply table_ret|]; apply table_bind, Call; intros r3.
  all: destruct (r3 =? EBUSY); [by apply table_ret|]; destruct (negb _); [by apply table_ret | done].
Qed.

Lemma keeps_unmountall_loop pre l : devs_ok (pre ++ l) ->
  table (unmountall_loop l (Z.of_nat (length pre))) (fun _ => devs_ok) devs_ok (pre ++ l).
Proof.
  revert pre. induction l as [|kd l IH]; intros pre Hl; cbn [unmountall_loop]; [by apply table_ret|].
  apply table_bind. eapply table_mono; [apply keeps_unmount_one; [done|] | | done].
  { rewrite zlookup_nat, lookup_app_r by lia. by rewrite Nat.sub_diag. }
  cbn beta. rewrite Nat2Z.id. intros _ l' (Hl' & Hn & Hd).
  assert (El : drop (S (length pre)) (pre ++ kd :: l) = l).
  { rewrite drop_app_ge by lia. by replace (S (length pre) - length pre)%nat with 1%nat by lia. }
  rewrite El in Hd. rewrite length_app in Hn. cbn in Hn.
  assert (E : l' = take (S (length pre)) l' ++ l) by (by rewrite <- Hd, take_drop).
  replace (Z.of_nat (length pre) + 1) with (Z.of_nat (length (take (S (length pre)) l')))
    by (rewrite length_take; lia).
  rewrite E in Hl'. rewrite E at 2. by apply IH.
Qed.

Lemma keeps_unmountall : keeps_devs vfs_unmountall.
Proof.
  intros l Hl. apply table_bind, table_below; [|done]. intros _. apply table_get. intros s ->.
  apply table_bind. eapply table_mono; [by apply (keeps_unmountall_loop [])| |done].
  intros [] l' Hl'. by apply table_below.
Qed.

(** Adding a device or a file system of its own. *)
Lemma doadd_keeps env dname mountable dev fs s :
  depth_room s -> devs_ok (knowndevs s) ->
  (mountable = true -> is_Some dev) -> (fs = None -> is_Some dev) -> fs <> Some SWAP_FS ->
  wlp (vfs_doadd env dname mountable dev fs) (fun _ s' => devs_ok (knowndevs s'))
    (fun _ s' => devs_ok (knowndevs s')) s.
Proof.
  intros Hs [HN HF] Hm Hf Hw. unfold wlp. rewrite vfs_doadd_run by done.
  destruct (negb (add_granted _ _)); [done|]. destruct (existsb _ _) eqn:Ec; [done|].
  destruct (negb _); [done|]. split; cbn [knowndevs set_devs]; [by eapply no_clash_NoDup|].
  apply Forall_app. split; [done|]. apply Forall_singleton. split; cbn; [done|].
  intros [E|E]; [auto|]. destruct mountable; [auto|]. by destruct E.
Qed.

(** The operations on the table, in any order and with any arguments; below
    the table the file systems do as they like. *)
Inductive vfslist_step : vfs V -> vfs V -> Prop :=
| step_adddev env name dev mountable s s' :
    depth_room s -> final (vfs_adddev env name dev mountable s) = Some s' -> vfslist_step s s'
| step_addfs env name fs s s' :
    depth_room s -> fs <> SWAP_FS -> final (vfs_addfs env name fs s) = Some s' -> vfslist_step s s'
| step_mount name mountfunc s s' : final (vfs_mount name mountfunc s) = Some s' -> vfslist_step s s'
| step_unmount name s s' : final (vfs_unmount name s) = Some s' -> vfslist_step s s'
| step_swapon grant name s s' : final (vfs_swapon grant name s) = Some s' -> vfslist_step s s'
| step_swapoff name s s' : final (vfs_swapoff name s) = Some s' -> vfslist_step s s'
| step_unmountall s s' : final (vfs_unmountall s) = Some s' -> vfslist_step s s'
| step_below v s : vfslist_step s (set_below v s).

Lemma keeps_final {A} (m : M (vfs V) A) s s' :
  keeps_devs m -> devs_ok (knowndevs s) -> final (m s) = Some s' -> devs_ok (knowndevs s').
Proof.
  intros Hk Hs Hf. specialize (Hk _ Hs s eq_refl). unfold wlp in Hk.
  destruct (m s); cbn in Hf; by injection Hf as <- || done.
Qed.

(** C38: However devices are added, mounted, unmounted and used for swap, the
    device table keeps its invariant from boot on: no two names in it are
    equal, only mountable devices are used for swap, and every entry that can
    be handed out as a device has one. *)
Theorem vfslist_reachable_ok s s' :
  knowndevs s = [] -> rtc vfslist_step s s' -> devs_ok (knowndevs s').
Proof.
  intros E Hr. assert (H : devs_ok (knowndevs s)) by (rewrite E; split; constructor). clear E.
  induction Hr as [s|s s1 s' Hstep _ IH]; [done|]. apply IH. clear IH.
  inversion Hstep; subst; [..|done].
  - eapply (wlp_final _ (fun s => devs_ok (knowndevs s))); [|done]. by apply doadd_keeps.
  - eapply (wlp_final _ (fun s => devs_ok (knowndevs s))); [|done]. apply doadd_keeps; try done. congruence.
  - eapply keeps_final; [apply keeps_mount | done..].
  - eapply keeps_final; [apply keeps_unmount | done..].
  - eapply keeps_final; [apply keeps_swapon | done..].
  - eapply keeps_final; [apply keeps_swapoff | done..].
  - eapply keeps_final; [apply keeps_unmountall | done..].
Qed.

End names.
