(* ===== verification/VfsPath.v ===== *)
(** * Paths and the current directory, [kern/vfs/vfslookup.c], [vfscwd.c] and [vfspath.c]

    The VFS operations on path names, over any file systems behind
    [VnodeOps].  A path is the bytes of a C string; [getdevice] overwrites
    the colon of [dev:path] in place, which no caller looks at again, so the
    part before the colon and the part after it are two lists here. *)

From S2P Require Import Prelude CopyInOut Uio Vnode BigLock VfsList.

Definition COLON : Z := 58.
Definition SLASH : Z := 47.

(** The loop that locates the first colon or slash: [slash] and [colon]. *)
Fixpoint scan_path (path : list Z) (i : Z) : Z * Z :=
  match path with
  | [] => (-1, -1)
  | c :: rest =>
      if c =? COLON then (-1, i)
      else if c =? SLASH then (i, -1)
      else scan_path rest (i + 1)
  end.

(** [while (path[i] == '/') i++;] *)
Fixpoint skip_slashes (path : list Z) : list Z :=
  match path with
  | c :: rest => if c =? SLASH then skip_slashes rest else path
  | [] => []
  end.

(** [result = m; cleanup; return result;] *)
Definition finally {S A} (m : M S A) (cleanup : M S unit) : M S A :=
  a <- catch m (fun result => cleanup ;; throw result) ;;
  cleanup ;;
  ret a.

Section vfspath.
Context {V : Type} `{!VnodeOps V} (curas : option Z).
Implicit Types s : vfs V.

Definition decref_opt (vn : option Z) : M (vfs V) unit :=
  match vn with Some vn => below (VOP_DECREF vn) | None => ret tt end.

(** ** The current directory *)

Definition vfs_getcurdir : M (vfs V) Z :=
  s <- get ;;
  match p_cwd s with
  | Some vn => below (VOP_INCREF vn) ;; ret vn
  | None => throw ENOENT
  end.

Definition vfs_setcurdir (dir : Z) : M (vfs V) unit :=
  vtype <- below (VOP_GETTYPE dir) ;;
  if negb (vtype =? S_IFDIR) then throw ENOTDIR
  else
    below (VOP_INCREF dir) ;;
    old <- gets p_cwd ;;
    modify (set_cwd (Some dir)) ;;
    decref_opt old.

Definition vfs_clearcurdir : M (vfs V) unit :=
  old <- gets p_cwd ;;
  modify (set_cwd None) ;;
  decref_opt old.

(** ** Path translation *)

Definition getdevice (path : list Z) : M (vfs V) (list Z * Z) :=
  assert_biglock ;;
  match path with
  | [] => throw EINVAL
  | c :: rest =>
      let '(slash, colon) := scan_path path 0 in
      if (colon <? 0) && negb (slash =? 0) then
        vn <- vfs_getcurdir ;; ret (path, vn)
      else if 0 <? colon then
        startvn <- vfs_getroot (take (Z.to_nat colon) path) ;;
        ret (skip_slashes (drop (Z.to_nat (colon + 1)) path), startvn)
      else
        KASSERT ((colon =? 0) || (slash =? 0)) ;;
        startvn <-
          (if c =? SLASH then
             s <- get ;;
             match bootfs_vnode s with
             | None => throw ENOENT
             | Some vn => below (VOP_INCREF vn) ;; ret vn
             end
           else
             KASSERT (c =? COLON) ;;
             vn <- vfs_getcurdir ;;
             fs <- below (vn_fs vn) ;;
             fs <- oob fs ;;
             finally (below (FSOP_GETROOT fs)) (below (VOP_DECREF vn))) ;;
        ret (skip_slashes rest, startvn)
  end.

Definition vfs_lookparent (path : list Z) (buflen : Z) : M (vfs V) (Z * list Z) :=
  below biglock_acquire ;;
  then_unlock (
    let* (path, startvn) := getdevice path in
    finally (if decide (path = []) then throw EINVAL else below (VOP_LOOKPARENT startvn path buflen))
            (below (VOP_DECREF startvn))).

Definition vfs_lookup (path : list Z) : M (vfs V) Z :=
  below biglock_acquire ;;
  then_unlock (
    let* (path, startvn) := getdevice path in
    if decide (path = []) then ret startvn
    else finally (below (VOP_LOOKUP startvn path)) (below (VOP_DECREF startvn))).

Definition vfs_chdir (path : list Z) : M (vfs V) unit :=
  vn <- vfs_lookup path ;;
  finally (vfs_setcurdir vn) (below (VOP_DECREF vn)).

Definition change_bootfs (newvn : option Z) : M (vfs V) unit :=
  oldvn <- gets bootfs_vnode ;;
  modify (set_bootfs newvn) ;;
  decref_opt oldvn.

(** [snprintf] leaves at most [sizeof(tmp) - 2] characters of the name. *)
Definition vfs_setbootfs (fsname : list Z) : M (vfs V) unit :=
  let tmp := take (Z.to_nat (NAME_MAX + 1 - 2)) fsname in
  below biglock_acquire ;;
  then_unlock (
    (if bool_decide (COLON ∈ tmp) then throw EINVAL else vfs_chdir (tmp ++ [COLON])) ;;
    newguy <- vfs_getcurdir ;;
    change_bootfs (Some newguy)).

Definition vfs_clearbootfs : M (vfs V) unit :=
  below biglock_acquire ;;
  change_bootfs None ;;
  below biglock_release.

(** ** Operations on a uio and the VFS state *)

Definition above {A} (m : M (vfs V) A) : M (uio * vfs V) A := zoom snd (fun s p => (fst p, s)) m.
Definition at_uio {A} (m : M uio A) : M (uio * vfs V) A := zoom fst (fun u p => (u, snd p)) m.
Definition below_uio {A} (m : M (uio * V) A) : M (uio * vfs V) A :=
  zoom (fun p => (fst p, vfs_below (snd p))) (fun q p => (fst q, set_below (snd q) (snd p))) m.

Definition vfs_getcwd : M (uio * vfs V) unit :=
  u <- gets fst ;;
  KASSERT (bool_decide (uio_rw u = UIO_READ)) ;;
  cwd <- above vfs_getcurdir ;;
  fs <- above (below (vn_fs cwd)) ;;
  fs <- oob fs ;;
  volname <- above (below (FSOP_GETVOLNAME fs)) ;;
  name <- match volname with
          | Some name => ret (Some name)
          | None => above (below biglock_acquire ;;
                           name <- vfs_getdevname fs ;;
                           below biglock_release ;;
                           ret name)
          end ;;
  name <- oob name ;;
  finally
    (_ <- at_uio (uiomove curas name (Z.of_nat (length name))) ;;
     _ <- at_uio (uiomove curas [COLON] 1) ;;
     below_uio (VOP_NAMEFILE cwd))
    (above (below (VOP_DECREF cwd))).

(** ** Operations on paths *)

(** [canwrite], or [EINVAL] for a bad access mode. *)
Definition open_mode (openflags : Z) : option bool :=
  let how := Z.land openflags O_ACCMODE in
  if how =? O_RDONLY then Some false
  else if (how =? O_WRONLY) || (how =? O_RDWR) then Some true
  else None.

Definition flag (openflags f : Z) : bool := negb (Z.land openflags f =? 0).

Definition vfs_open (path : list Z) (openflags mode : Z) : M (vfs V) Z :=
  match open_mode openflags with
  | None => throw EINVAL
  | Some canwrite =>
      vn <- (if flag openflags O_CREAT then
               let* (dir, name) := vfs_lookparent path (NAME_MAX + 1) in
               finally (below (VOP_CREAT dir name (flag openflags O_EXCL) mode)) (below (VOP_DECREF dir))
             else vfs_lookup path) ;;
      KASSERT (negb (vn =? 0)) ;;
      let let_go (result : Z) := below (VOP_DECREF vn) ;; throw result in
      catch (below (VOP_EACHOPEN vn openflags)) let_go ;;
      (if flag openflags O_TRUNC then
         catch (if canwrite then below (VOP_TRUNCATE vn 0) else throw EINVAL) let_go
       else ret tt) ;;
      ret vn
  end.

Definition vfs_close (vn : Z) : M (vfs V) unit := below (VOP_DECREF vn).

Definition vfs_remove (path : list Z) : M (vfs V) unit :=
  let* (dir, name) := vfs_lookparent path (NAME_MAX + 1) in
  finally (below (VOP_REMOVE dir name)) (below (VOP_DECREF dir)).

(** [a->vn_fs == NULL || b->vn_fs == NULL || a->vn_fs != b->vn_fs] *)
Definition other_fs (a b : Z) : M (vfs V) bool :=
  fa <- below (vn_fs a) ;;
  fb <- below (vn_fs b) ;;
  ret (negb (bool_decide (is_Some fa)) || negb (bool_decide (is_Some fb)) || negb (bool_decide (fa = fb))).

Definition vfs_rename (oldpath newpath : list Z) : M (vfs V) unit :=
  let* (olddir, oldname) := vfs_lookparent oldpath (NAME_MAX + 1) in
  let* (newdir, newname) :=
    catch (vfs_lookparent newpath (NAME_MAX + 1)) (fun result => below (VOP_DECREF olddir) ;; throw result) in
  x <- other_fs olddir newdir ;;
  finally (if (x : bool) then throw EXDEV else below (VOP_RENAME olddir oldname newdir newname))
          (below (VOP_DECREF newdir) ;; below (VOP_DECREF olddir)).

Definition vfs_link (oldpath newpath : list Z) : M (vfs V) unit :=
  oldfile <- vfs_lookup oldpath ;;
  let* (newdir, newname) :=
    catch (vfs_lookparent newpath (NAME_MAX + 1)) (fun result => below (VOP_DECREF oldfile) ;; throw result) in
  x <- other_fs oldfile newdir ;;
  finally (if (x : bool) then throw EXDEV else below (VOP_LINK newdir newname oldfile))
          (below (VOP_DECREF newdir) ;; below (VOP_DECREF oldfile)).

Definition vfs_symlink (contents path : list Z) : M (vfs V) unit :=
  let* (newdir, newname) := vfs_lookparent path (NAME_MAX + 1) in
  finally (below (VOP_SYMLINK newdir newname contents)) (below (VOP_DECREF newdir)).

Definition vfs_readlink (path : list Z) : M (uio * vfs V) unit :=
  vn <- above (vfs_lookup path) ;;
  finally (below_uio (VOP_READLINK vn)) (above (below (VOP_DECREF vn))).

Definition vfs_mkdir (path : list Z) (mode : Z) : M (vfs V) unit :=
  let* (parent, name) := vfs_lookparent path (NAME_MAX + 1) in
  finally (below (VOP_MKDIR parent name mode)) (below (VOP_DECREF parent)).

Definition vfs_rmdir (path : list Z) : M (vfs V) unit :=
  let* (parent, name) := vfs_lookparent path (NAME_MAX + 1) in
  finally (below (VOP_RMDIR parent name)) (below (VOP_DECREF parent)).

End vfspath.

(** ** The big lock is balanced *)

Section balance.
Context {V : Type} `{!VnodeOps V, !HasDepth V, !BalancedVnodes V} (curas : option Z).

Lemma moves_finally {S A} `{!HasDepth S} n e (m : M S A) (c : M S unit) :
  moves 0 0 m -> (forall e', moves 0 e' c) -> n = 0 -> e = 0 -> moves n e (finally m c).
Proof.
  intros Hm Hc -> ->. unfold finally. eapply (moves_bind _ _ 0); [eapply (moves_catch _ _ 0); [done|]|]; intros ?.
  - eapply (moves_bind _ _ 0); [apply Hc|]. intros _. by apply moves_throw.
  - eapply (moves_bind _ _ 0); [apply Hc|]. intros _. by apply moves_ret.
Qed.

Lemma moves_above {A} n e (m : M (vfs V) A) : moves n e m -> moves n e (above m).
Proof. intros H [u s] Hs. specialize (H s Hs). unfold wlp, above, zoom in *. cbn. by destruct (m s). Qed.

Lemma moves_at_uio {A} n e (m : M uio A) : n = 0 -> e = 0 -> moves n e (at_uio (V := V) m).
Proof.
  intros -> -> [u s] Hs. unfold wlp, at_uio, zoom. cbn. destruct (m u); try done; by apply shifted_same.
Qed.

Lemma moves_below_uio {A} n e (m : M (uio * V) A) : moves n e m -> moves n e (below_uio m).
Proof.
  intros H [u s] Hs. specialize (H (u, vfs_below s) Hs). unfold wlp, below_uio, zoom in *. cbn.
  by destruct (m (u, vfs_below s)).
Qed.

Lemma moves_decref_opt n e vn : n = 0 -> moves n e (decref_opt (V := V) vn).
Proof. intros ->. unfold decref_opt. vfs_tac. Qed.
#[local] Hint Resolve moves_decref_opt : depth.
#[local] Hint Extern 1 (moves _ _ (below _)) => apply moves_below : depth.

Ltac path_step :=
  match goal with
  | |- moves _ _ (finally _ _) => apply moves_finally; [|intros ?|lia|lia]
  | |- moves _ _ (above _) => apply moves_above
  | |- moves _ _ (at_uio _) => apply moves_at_uio; lia
  | |- moves _ _ (below_uio _) => apply moves_below_uio; solve [auto with depth]
  | |- _ => vfs_step
  end.
Ltac path_tac := cbv zeta; repeat (path_step; cbv zeta).

Lemma moves_getcurdir n e : n = 0 -> e = 0 -> moves n e (vfs_getcurdir (V := V)).
Proof. intros -> ->. unfold vfs_getcurdir. path_tac. Qed.
#[local] Hint Resolve moves_getcurdir : depth.

Lemma moves_setcurdir n e dir : n = 0 -> e = 0 -> moves n e (vfs_setcurdir (V := V) dir).
Proof. intros -> ->. unfold vfs_setcurdir. path_tac. Qed.
#[local] Hint Resolve moves_setcurdir : depth.

Lemma moves_getdevice n e path : n = 0 -> e = 0 -> moves n e (getdevice (V := V) path).
Proof. intros -> ->. unfold getdevice. path_tac. Qed.
#[local] Hint Resolve moves_getdevice : depth.

Lemma moves_vfs_lookparent n e path len : n = 0 -> e = 0 -> moves n e (vfs_lookparent (V := V) path len).
Proof. intros -> ->. unfold vfs_lookparent. path_tac. Qed.

Lemma moves_vfs_lookup n e path : n = 0 -> e = 0 -> moves n e (vfs_lookup (V := V) path).
Proof. intros -> ->. unfold vfs_lookup. path_tac. Qed.
#[local] Hint Resolve moves_vfs_lookparent moves_vfs_lookup : depth.

Lemma moves_chdir n e path : n = 0 -> e = 0 -> moves n e (vfs_chdir (V := V) path).
Proof. intros -> ->. unfold vfs_chdir. path_tac. Qed.
#[local] Hint Resolve moves_chdir : depth.

(** Every operation of the VFS layer on paths and directories gives the
    recursive big lock back at the depth it found it, on success and on every
    error path, over any file systems whose own operations do. *)
Theorem vfs_paths_balanced path path2 flags mode dir :
  balanced (vfs_open (V := V) path flags mode) /\ balanced (vfs_remove (V := V) path) /\
  balanced (vfs_rename (V := V) path path2) /\ balanced (vfs_link (V := V) path path2) /\
  balanced (vfs_symlink (V := V) path path2) /\ balanced (vfs_readlink (V := V) path) /\
  balanced (vfs_mkdir (V := V) path mode) /\ balanced (vfs_rmdir (V := V) path) /\
  balanced (vfs_chdir (V := V) path) /\ balanced (vfs_setcurdir (V := V) dir) /\
  balanced (vfs_clearcurdir (V := V)) /\ balanced (vfs_setbootfs (V := V) path) /\
  balanced (vfs_clearbootfs (V := V)) /\ balanced (vfs_getcwd (V := V) curas).
Proof.
  unfold vfs_open, vfs_remove, vfs_rename, vfs_link, vfs_symlink, vfs_readlink, vfs_mkdir, vfs_rmdir,
    vfs_clearcurdir, vfs_setbootfs, vfs_clearbootfs, vfs_getcwd, change_bootfs, other_fs.
  repeat split; apply moves_balanced; path_tac.
Qed.

End balance.

(** ** The four forms of a path *)

Section parsing.
Context {V : Type} `{!VnodeOps V, !HasDepth V, !LockedVnodes V}.
Implicit Types s : vfs V.

Inductive pathname :=
| Relative (path : list Z)
| OnDevice (dev path : list Z)
| FromBoot (path : list Z)
| FromRoot (path : list Z).

Definition print_path (p : pathname) : list Z :=
  match p with
  | Relative path => path
  | OnDevice dev path => dev ++ COLON :: path
  | FromBoot path => SLASH :: path
  | FromRoot path => COLON :: path
  end.

Definition no_sep (l : list Z) : Prop := Forall (fun c => c <> COLON /\ c <> SLASH) l.

(** A relative path starts with a component, a device name is a component. *)
Definition pathname_ok (p : pathname) : Prop :=
  match p with
  | Relative path => exists name rest, path = name ++ rest /\ name <> [] /\ no_sep name /\
      (rest = [] \/ exists rest', rest = SLASH :: rest')
  | OnDevice dev _ => dev <> [] /\ no_sep dev
  | FromBoot _ | FromRoot _ => True
  end.

(** Where translation starts and what is left to translate. *)
Definition starting_at (p : pathname) : M (vfs V) (list Z * Z) :=
  match p with
  | Relative path => vn <- vfs_getcurdir ;; ret (path, vn)
  | OnDevice dev path => vn <- vfs_getroot dev ;; ret (skip_slashes path, vn)
  | FromBoot path =>
      s <- get ;;
      match bootfs_vnode s with
      | None => throw ENOENT
      | Some vn => below (VOP_INCREF vn) ;; ret (skip_slashes path, vn)
      end
  | FromRoot path =>
      cwd <- vfs_getcurdir ;;
      fs <- below (vn_fs cwd) ;;
      fs <- oob fs ;;
      root <- finally (below (FSOP_GETROOT fs)) (below (VOP_DECREF cwd)) ;;
      ret (skip_slashes path, root)
  end.

Lemma scan_path_app name rest i : no_sep name ->
  scan_path (name ++ rest) i = scan_path rest (i + Z.of_nat (length name)).
Proof.
  intros H. revert i. induction H as [|c l [Hc Hs] _ IH]; intros i; cbn [scan_path app length].
  - f_equal. lia.
  - rewrite (proj2 (Z.eqb_neq _ _) Hc), (proj2 (Z.eqb_neq _ _) Hs), IH. f_equal. lia.
Qed.

Lemma getdevice_relative name rest s :
  name <> [] -> no_sep name -> (rest = [] \/ exists rest', rest = SLASH :: rest') ->
  getdevice (name ++ rest) s = starting_at (Relative (name ++ rest)) s.
Proof.
  intros Hn Hs Hr. unfold getdevice, bind at 1. rewrite assert_biglock_ok.
  assert (E : scan_path (name ++ rest) 0 =
    (match rest with [] => -1 | _ => Z.of_nat (length name) end, -1)).
  { rewrite scan_path_app by done. by destruct Hr as [-> |[rest' ->]]. }
  destruct name as [|c name]; [done|]. cbn [app] in *. rewrite E.
  by destruct rest.
Qed.

Lemma getdevice_device dev path s :
  dev <> [] -> no_sep dev -> getdevice (dev ++ COLON :: path) s = starting_at (OnDevice dev path) s.
Proof.
  intros Hn Hs. unfold getdevice, bind at 1. rewrite assert_biglock_ok.
  assert (E : scan_path (dev ++ COLON :: path) 0 = (-1, Z.of_nat (length dev))) by (by rewrite scan_path_app).
  destruct dev as [|c dev]; [done|]. cbn [app] in *. rewrite E.
  destruct (Z.ltb_spec (Z.of_nat (length (c :: dev))) 0); [lia|]. cbn [andb].
  destruct (Z.ltb_spec 0 (Z.of_nat (length (c :: dev)))); [|cbn in *; lia].
  rewrite Nat2Z.id. replace (Z.to_nat (Z.of_nat (length (c :: dev)) + 1)) with (S (length (c :: dev))) by lia.
  change (c :: dev ++ COLON :: path) with ((c :: dev) ++ COLON :: path).
  rewrite take_app_length, drop_app_ge by lia.
  by replace (S (length (c :: dev)) - length (c :: dev))%nat with 1%nat by lia.
Qed.

Lemma path_form path : path <> [] -> exists p, pathname_ok p /\ print_path p = path.
Proof.
  intros Hp. assert (H : exists name rest, path = name ++ rest /\ no_sep name /\
    (rest = [] \/ (exists r, rest = SLASH :: r) \/ exists r, rest = COLON :: r)).
  { clear Hp. induction path as [|c path (name & rest & -> & Hn & Hr)]; [exists [], []; unfold no_sep; auto using Forall_nil_2|].
    destruct (Z.eq_dec c COLON) as [-> |Hc]; [exists [], (COLON :: name ++ rest); unfold no_sep; eauto 7 using Forall_nil_2|].
    destruct (Z.eq_dec c SLASH) as [-> |Hs]; [exists [], (SLASH :: name ++ rest); unfold no_sep; eauto 7 using Forall_nil_2|].
    exists (c :: name), rest. split; [done|]. split; [|done]. by constructor. }
  destruct H as (name & rest & -> & Hn & Hr). destruct name as [|c name].
  - destruct Hr as [-> |[[r ->]|[r ->]]]; [done | by exists (FromBoot r) | by exists (FromRoot r)].
  - destruct Hr as [-> |[[r ->]|[r ->]]].
    + exists (Relative ((c :: name) ++ [])). split; [|done]. exists (c :: name), []. auto.
    + exists (Relative ((c :: name) ++ SLASH :: r)). split; [|done]. exists (c :: name), (SLASH :: r). eauto 6.
    + by exists (OnDevice (c :: name) r).
Qed.

(** Every non-empty path has one of four forms (relative, [dev:path],
    [/path] and [:path]), and [getdevice] translates each the way the
    comments of the file say: relative paths start at the current directory,
    [dev:path] at the root of the device, [/path] at the root of the boot
    file system and [:path] at the root of the current one, with the slashes
    in front of the rest skipped; the empty path is [EINVAL]. *)
Theorem getdevice_parses s :
  getdevice [] s = Err EINVAL s /\
  (forall path, path <> [] -> exists p, pathname_ok p /\ print_path p = path) /\
  forall p, pathname_ok p -> getdevice (print_path p) s = starting_at p s.
Proof.
  split; [unfold getdevice, bind; by rewrite assert_biglock_ok|]. split; [apply path_form|].
  intros [path|dev path|path|path]; cbn [pathname_ok print_path].
  - intros (name & rest & -> & Hn & Hs & Hr). by apply getdevice_relative.
  - intros [Hn Hs]. by apply getdevice_device.
  - intros _. unfold getdevice, starting_at, bind. rewrite assert_biglock_ok. cbn. unfold get.
    destruct (bootfs_vnode s) as [vn|]; [|done]. by destruct (below (VOP_INCREF vn) s).
  - intros _. unfold getdevice, starting_at, bind. rewrite assert_biglock_ok. cbn.
    destruct (vfs_getcurdir s) as [vn s1| | |]; try done.
    destruct (below (vn_fs vn) s1) as [fs s2| | |]; try done.
    destruct (oob fs s2) as [f s3| | |]; done.
Qed.

(** [vfs_setbootfs] refuses every name with a colon at its end, which
    the comment in it means to accept: [strlen(s) > 0] holds of any colon
    that was found.  The state is left as it was. *)
Theorem vfs_setbootfs_refuses_colon name s :
  depth_room s -> Z.of_nat (length name) < NAME_MAX - 1 ->
  vfs_setbootfs (name ++ [COLON]) s = Err EINVAL s.
Proof.
  unfold depth_room, NAME_MAX. intros Hs Hn. unfold vfs_setbootfs, NAME_MAX, bind at 1.
  rewrite below_acquire by lia. rewrite take_ge by (rewrite length_app; cbn; lia).
  unfold then_unlock. rewrite bool_decide_true by (apply elem_of_app; right; by apply list_elem_of_singleton).
  unfold bind, catch. cbn [throw]. unfold throw.
  rewrite below_release by (rewrite depth_at_depth; lia).
  rewrite depth_at_depth, at_at_depth. replace (depth_of s + 1 - 1) with (depth_of s) by lia.
  by rewrite at_depth_same.
Qed.

End parsing.
