(* ===== verification/Device.v ===== *)
(** * The block-device interface, [kern/include/device.h]

    A file system reaches its disk through [DEVOP_IO(dev, uio)].
    [BlockDevice] states what it relies on: the operation itself, the size of
    the device, the contents of its sectors, a predicate [dev_ok] that holds
    of a device that reports no I/O errors, and two laws for transfers of one
    aligned sector.  [Lhd] gives the disk driver as an instance. *)

From S2P Require Import Prelude CopyInOut Uio.

Definition SECTSIZE : Z := 512.

(** Memory after a read, and the bytes a write takes. *)
Definition sector_read (u u' : uio) (data : list Z) : Prop :=
  uio_advanced SECTSIZE u u' /\
  uio_mem u' = store_all (take (Z.to_nat SECTSIZE) (uio_addrs u)) data (uio_mem u).

Definition sector_written (u u' : uio) (data : list Z) : Prop :=
  uio_advanced SECTSIZE u u' /\ uio_mem u' = uio_mem u /\
  load_all (uio_mem u) (take (Z.to_nat SECTSIZE) (uio_addrs u)) = Some data.

(** A request for the single sector [b]. *)
Definition sector_request (curas : option Z) (u : uio) (rw : uio_rw_t) (b : Z) : Prop :=
  uio_wf curas u /\ uio_rw u = rw /\ uio_offset u = b * SECTSIZE /\ uio_resid u = SECTSIZE.

Class BlockDevice (D : Type) := {
  devop_io : option Z -> M (uio * D) unit;
  dev_blocks : D -> Z;
  dev_sector : D -> Z -> list Z;
  dev_ok : D -> Prop;
  dev_sector_length : forall d b, dev_ok d -> 0 <= b < dev_blocks d ->
    length (dev_sector d b) = Z.to_nat SECTSIZE;
  devop_read : forall curas u d b,
    dev_ok d -> 0 <= b < dev_blocks d -> sector_request curas u UIO_READ b ->
    wp (devop_io curas)
       (fun _ '(u', d') => uio_wf curas u' /\ sector_read u u' (dev_sector d b) /\
          dev_ok d' /\ dev_blocks d' = dev_blocks d /\
          (forall b', 0 <= b' < dev_blocks d -> dev_sector d' b' = dev_sector d b'))
       (fun _ _ => False) (u, d);
  devop_write : forall curas u d b,
    dev_ok d -> 0 <= b < dev_blocks d -> sector_request curas u UIO_WRITE b ->
    wp (devop_io curas)
       (fun _ '(u', d') => uio_wf curas u' /\ sector_written u u' (dev_sector d' b) /\
          dev_ok d' /\ dev_blocks d' = dev_blocks d /\
          (forall b', 0 <= b' < dev_blocks d -> b' <> b -> dev_sector d' b' = dev_sector d b'))
       (fun _ _ => False) (u, d)
}.
