(* ===== verification/Lhd.v ===== *)
(** * The LAMEbus hard disk driver, [kern/dev/lamebus/lhd.c]

    The controller is hardware, so it is a parameter ([LhdHardware]): what the
    driver sees of it is the status register after an operation on a sector
    and the on-card buffer.  The driver's own code is modelled whole: the
    result codes, the interrupt handler, the transfer loop with its two
    semaphores.  A [P] that would wait for ever is a panic of the model.

    The theorems: every path of [lhd_io] returns the two semaphores to their
    initial counts, and over error-free hardware the driver implements the
    interface [BlockDevice] ([lhd_block_device]). *)

From S2P Require Import Prelude CopyInOut Uio Device.

Definition LHD_IDLE : Z := 0.
Definition LHD_WORKING : Z := 1.
Definition LHD_OK : Z := 4.
Definition LHD_INVSECT : Z := 12.
Definition LHD_MEDIA : Z := 20.
Definition LHD_ISWRITE : Z := 2.
Definition LHD_STATEMASK : Z := 29.    (* 0x1d *)
Definition LHD_SECTSIZE : Z := 512.

(** The controller: [hw_run hw sector iswrite buf] performs one operation and
    gives the status register, the on-card buffer and the controller after
    it.  The laws are the meaning of the status codes of the driver's
    register description: an operation finishes with one of the three
    completion codes; a successful read fills the buffer from the sector; a
    successful write fills the sector from the buffer.  [hw_ok] holds of a
    controller that reports no errors for sectors in range. *)
Class LhdHardware (HW : Type) := {
  hw_nsect : HW -> Z;
  hw_sector : HW -> Z -> list Z;
  hw_run : HW -> Z -> bool -> list Z -> Z * list Z * HW;
  hw_nsect_range : forall hw, 0 <= hw_nsect hw < 2 ^ 32;
  hw_sector_len : forall hw b, 0 <= b < hw_nsect hw ->
    length (hw_sector hw b) = Z.to_nat LHD_SECTSIZE;
  hw_run_nsect : forall hw b w buf, hw_nsect (hw_run hw b w buf).2 = hw_nsect hw;
  hw_run_buf : forall hw b w buf, length buf = Z.to_nat LHD_SECTSIZE ->
    length (hw_run hw b w buf).1.2 = Z.to_nat LHD_SECTSIZE;
  hw_run_status : forall hw b w buf,
    Z.land (hw_run hw b w buf).1.1 LHD_STATEMASK ∈ [LHD_OK; LHD_INVSECT; LHD_MEDIA];
  hw_run_read : forall hw b buf, 0 <= b < hw_nsect hw ->
    Z.land (hw_run hw b false buf).1.1 LHD_STATEMASK = LHD_OK ->
    (hw_run hw b false buf).1.2 = hw_sector hw b /\
    forall b', 0 <= b' < hw_nsect hw -> hw_sector (hw_run hw b false buf).2 b' = hw_sector hw b';
  hw_run_write : forall hw b buf, 0 <= b < hw_nsect hw -> length buf = Z.to_nat LHD_SECTSIZE ->
    Z.land (hw_run hw b true buf).1.1 LHD_STATEMASK = LHD_OK ->
    hw_sector (hw_run hw b true buf).2 b = buf /\
    forall b', 0 <= b' < hw_nsect hw -> b' <> b ->
      hw_sector (hw_run hw b true buf).2 b' = hw_sector hw b';
  hw_ok : HW -> Prop;
  hw_ok_run : forall hw b w buf, hw_ok hw -> 0 <= b < hw_nsect hw ->
    Z.land (hw_run hw b w buf).1.1 LHD_STATEMASK = LHD_OK /\ hw_ok (hw_run hw b w buf).2
}.

Section lhd.
Context {HW : Type} `{!LhdHardware HW}.

Record lhd_softc := Lhd {
  lh_buf : list Z;
  lh_result : Z;
  lh_clear : Z;          (* the counts of the two semaphores *)
  lh_done : Z;
  lh_stat : Z;           (* the status register *)
  lh_hw : HW
}.

Definition d_blocks (lh : lhd_softc) : Z := hw_nsect (lh_hw lh).

(** The state of a transfer: the uio and the softc. *)
Definition on_uio {A} (m : M uio A) : M (uio * lhd_softc) A :=
  zoom fst (fun u s => (u, snd s)) m.
Definition on_lh {A} (m : M lhd_softc A) : M (uio * lhd_softc) A :=
  zoom snd (fun lh s => (fst s, lh)) m.

Definition lhd_code_to_errno (code : Z) : Z :=
  let st := Z.land code LHD_STATEMASK in
  if st =? LHD_OK then 0
  else if st =? LHD_INVSECT then EINVAL
  else if st =? LHD_MEDIA then EIO
  else EAGAIN.

Definition P_clear : M lhd_softc unit :=
  lh <- get ;;
  if lh_clear lh =? 0 then panic
  else put (Lhd (lh_buf lh) (lh_result lh) (lh_clear lh - 1) (lh_done lh) (lh_stat lh) (lh_hw lh)).
Definition V_clear : M lhd_softc unit :=
  modify (fun lh => Lhd (lh_buf lh) (lh_result lh) (lh_clear lh + 1) (lh_done lh) (lh_stat lh) (lh_hw lh)).
Definition P_done : M lhd_softc unit :=
  lh <- get ;;
  if lh_done lh =? 0 then panic
  else put (Lhd (lh_buf lh) (lh_result lh) (lh_clear lh) (lh_done lh - 1) (lh_stat lh) (lh_hw lh)).

Definition lhd_iodone (err : Z) : M lhd_softc unit :=
  modify (fun lh => Lhd (lh_buf lh) err (lh_clear lh) (lh_done lh + 1) (lh_stat lh) (lh_hw lh)).

Definition lhd_irq : M lhd_softc unit :=
  lh <- get ;;
  let val := lh_stat lh in
  let st := Z.land val LHD_STATEMASK in
  if (st =? LHD_OK) || (st =? LHD_INVSECT) || (st =? LHD_MEDIA) then
    put (Lhd (lh_buf lh) (lh_result lh) (lh_clear lh) (lh_done lh) 0 (lh_hw lh)) ;;
    lhd_iodone (lhd_code_to_errno val)
  else ret tt.

(** Writing the sector and status registers starts the operation; when the
    controller has finished it sets the status register and interrupts. *)
Definition lhd_operate (sector statval : Z) : M lhd_softc unit :=
  modify (fun lh =>
    let '(status, buf, hw) :=
      hw_run (lh_hw lh) sector (negb (Z.land statval LHD_ISWRITE =? 0)) (lh_buf lh) in
    Lhd buf (lh_result lh) (lh_clear lh) (lh_done lh) status hw) ;;
  lhd_irq.

(** [uiomove(lh->lh_buf, LHD_SECTSIZE, uio)]; an error is a value here,
    because the caller has to release the device. *)
Definition lhd_uiomove (curas : option Z) : M (uio * lhd_softc) Z :=
  lh <- gets snd ;;
  catch
    (buf <- on_uio (uiomove curas (lh_buf lh) LHD_SECTSIZE) ;;
     on_lh (modify (fun lh => Lhd buf (lh_result lh) (lh_clear lh) (lh_done lh) (lh_stat lh) (lh_hw lh))) ;;
     ret 0)
    (fun e => ret e).

(** One iteration of the loop over the sectors. *)
Definition lhd_sector_io (curas : option Z) (sector statval i : Z) : M (uio * lhd_softc) unit :=
  rw <- gets (fun s => uio_rw (fst s)) ;;
  on_lh P_clear ;;
  (if decide (rw = UIO_WRITE) then
     result <- lhd_uiomove curas ;;
     if result =? 0 then ret tt else on_lh V_clear ;; throw result
   else ret tt) ;;
  on_lh (lhd_operate (u32 (sector + i)) statval) ;;
  on_lh P_done ;;
  lh <- gets snd ;;
  result <- (if (lh_result lh =? 0) && bool_decide (rw = UIO_READ)
             then lhd_uiomove curas else ret (lh_result lh)) ;;
  on_lh V_clear ;;
  if result =? 0 then ret tt else throw result.

Definition lhd_io (curas : option Z) : M (uio * lhd_softc) unit :=
  s <- get ;;
  let '(uio, lh) := s in
  let sector := u32 (Z.quot (uio_offset uio) LHD_SECTSIZE) in
  let sectoff := u32 (Z.rem (uio_offset uio) LHD_SECTSIZE) in
  let len := u32 (uio_resid uio / LHD_SECTSIZE) in
  let lenoff := u32 (uio_resid uio mod LHD_SECTSIZE) in
  if negb (sectoff =? 0) || negb (lenoff =? 0) then throw EINVAL
  else if d_blocks lh <? u32 (sector + len) then throw EINVAL
  else
    let statval := if decide (uio_rw uio = UIO_WRITE)
                   then Z.lor LHD_WORKING LHD_ISWRITE else LHD_WORKING in
    for_each 0 (Z.to_nat len) (lhd_sector_io curas sector statval).

(** ** Error-free operation *)

(** The driver between requests: the device is free, nothing is pending. *)
Definition lhd_idle (lh : lhd_softc) : Prop :=
  lh_clear lh = 1 /\ lh_done lh = 0 /\ length (lh_buf lh) = Z.to_nat LHD_SECTSIZE.

Lemma wp_on_uio {A} (m : M uio A) (Q : A -> uio * lhd_softc -> Prop) E u lh :
  wp m (fun a u' => Q a (u', lh)) (fun e u' => E e (u', lh)) u -> wp (on_uio m) Q E (u, lh).
Proof. intros H. unfold on_uio. by apply wp_zoom. Qed.

Lemma wp_on_lh {A} (m : M lhd_softc A) (Q : A -> uio * lhd_softc -> Prop) E u lh :
  wp m (fun a lh' => Q a (u, lh')) (fun e lh' => E e (u, lh')) lh -> wp (on_lh m) Q E (u, lh).
Proof. intros H. unfold on_lh. by apply wp_zoom. Qed.

Lemma code_ok code : Z.land code LHD_STATEMASK = LHD_OK -> lhd_code_to_errno code = 0.
Proof. intros H. unfold lhd_code_to_errno. by rewrite H. Qed.

(** An operation on error-free hardware: the result is 0 and one completion
    is pending. *)
Lemma wp_lhd_operate b statval w lh (Q : unit -> lhd_softc -> Prop) E :
  hw_ok (lh_hw lh) -> 0 <= b < d_blocks lh -> negb (Z.land statval LHD_ISWRITE =? 0) = w ->
  (let r := hw_run (lh_hw lh) b w (lh_buf lh) in
   Q tt (Lhd r.1.2 0 (lh_clear lh) (lh_done lh + 1) 0 r.2)) ->
  wp (lhd_operate b statval) Q E lh.
Proof.
  intros Hok Hb Hw HQ. unfold lhd_operate, lhd_irq, lhd_iodone. wp_steps. rewrite Hw.
  destruct (hw_ok_run (lh_hw lh) b w (lh_buf lh) Hok Hb) as [Hs _].
  cbv zeta in HQ. destruct (hw_run (lh_hw lh) b w (lh_buf lh)) as [[status buf] hw].
  cbn in Hs, HQ |- *. rewrite Hs. cbn. wp_steps. cbn. by rewrite code_ok.
Qed.

Lemma wp_P_clear lh (Q : unit -> lhd_softc -> Prop) E :
  lh_clear lh = 1 ->
  Q tt (Lhd (lh_buf lh) (lh_result lh) 0 (lh_done lh) (lh_stat lh) (lh_hw lh)) ->
  wp P_clear Q E lh.
Proof. intros H HQ. unfold P_clear. wp_steps. rewrite H. by apply wp_put. Qed.

Lemma wp_P_done lh (Q : unit -> lhd_softc -> Prop) E :
  lh_done lh = 1 ->
  Q tt (Lhd (lh_buf lh) (lh_result lh) (lh_clear lh) 0 (lh_stat lh) (lh_hw lh)) ->
  wp P_done Q E lh.
Proof. intros H HQ. unfold P_done. wp_steps. rewrite H. by apply wp_put. Qed.

Lemma wp_lhd_uiomove curas u lh (Q : Z -> uio * lhd_softc -> Prop) E :
  uio_wf curas u -> uio_resid u = LHD_SECTSIZE -> length (lh_buf lh) = Z.to_nat LHD_SECTSIZE ->
  (forall buf u', uio_wf curas u' -> moved_all (lh_buf lh) 0 LHD_SECTSIZE u buf u' ->
     Q 0 (u', Lhd buf (lh_result lh) (lh_clear lh) (lh_done lh) (lh_stat lh) (lh_hw lh))) ->
  wp (lhd_uiomove curas) Q E (u, lh).
Proof.
  intros W Hr Hl HQ. unfold lhd_uiomove. wp_steps. apply wp_on_uio. cbn [snd].
  eapply wp_use; [apply wp_uiomove; [done | unfold LHD_SECTSIZE in *; lia..]|].
  intros buf u' [W' HM]. wp_step. apply wp_on_lh. wp_steps. by apply HQ.
Qed.

Lemma sector_request_params curas u rw b lh :
  sector_request curas u rw b -> 0 <= b < d_blocks lh ->
  u32 (Z.quot (uio_offset u) LHD_SECTSIZE) = b /\ u32 (Z.rem (uio_offset u) LHD_SECTSIZE) = 0 /\
  u32 (uio_resid u / LHD_SECTSIZE) = 1 /\ u32 (uio_resid u mod LHD_SECTSIZE) = 0 /\
  (d_blocks lh <? u32 (b + 1)) = false.
Proof.
  intros (W & _ & Ho & Hr) Hb. unfold d_blocks in Hb |- *. pose proof (hw_nsect_range (lh_hw lh)).
  rewrite Ho, Hr. unfold SECTSIZE, LHD_SECTSIZE in *.
  rewrite Z.quot_mul, Z.rem_mul by lia. rewrite wrap_small by lia. split_and!; try done.
  apply Z.ltb_ge. destruct (Z.eq_dec (b + 1) (2 ^ 32)) as [->|]; [change (u32 (2 ^ 32)) with 0; lia|].
  rewrite wrap_small by lia. lia.
Qed.

Definition lhd_ok (lh : lhd_softc) : Prop := lhd_idle lh /\ hw_ok (lh_hw lh).

Lemma wp_lhd_read curas u lh b :
  lhd_ok lh -> 0 <= b < d_blocks lh -> sector_request curas u UIO_READ b ->
  wp (lhd_io curas)
     (fun _ '(u', lh') => uio_wf curas u' /\ sector_read u u' (hw_sector (lh_hw lh) b) /\
        lhd_ok lh' /\ d_blocks lh' = d_blocks lh /\
        (forall b', 0 <= b' < d_blocks lh -> hw_sector (lh_hw lh') b' = hw_sector (lh_hw lh) b'))
     (fun _ _ => False) (u, lh).
Proof.
  intros [(Hc & Hd & Hl) Hok] Hb Hreq.
  destruct (sector_request_params _ _ _ _ _ Hreq Hb) as (P1 & P2 & P3 & P4 & P5).
  destruct Hreq as (W & Hrw & Ho & Hr).
  unfold lhd_io. wp_steps. rewrite P1, P2, P3, P4, P5, Hrw. cbn -[u32 LHD_WORKING].
  rewrite decide_False by done. change (Z.to_nat 1) with 1%nat. cbn [for_each].
  wp_step. unfold lhd_sector_io. wp_steps. cbn [fst]. rewrite Hrw, decide_False by done. apply wp_on_lh. apply wp_P_clear; [done|]. wp_steps. apply wp_on_lh.
  rewrite Z.add_0_r, wrap_small by (pose proof (hw_nsect_range (lh_hw lh)); unfold d_blocks in Hb; lia).
  apply (wp_lhd_operate _ _ false); [done | done | done |]. cbn -[u32].
  pose proof (hw_ok_run (lh_hw lh) b false (lh_buf lh) Hok Hb) as [Hs Hok'].
  destruct (hw_run_read (lh_hw lh) b (lh_buf lh) Hb Hs) as [Hbuf Hsame].
  pose proof (hw_run_nsect (lh_hw lh) b false (lh_buf lh)) as Hns.
  pose proof (hw_run_buf (lh_hw lh) b false (lh_buf lh) Hl) as Hbl.
  wp_step. apply wp_on_lh. apply wp_P_done; [cbn; lia|]. wp_steps.
  cbn [snd lh_result]. change ((0 =? 0) && _) with true. cbv iota.
  apply wp_lhd_uiomove; [done | done | done |]. intros buf u' W' [HA HM].
  rewrite Hrw in HM. destruct HM as [-> HM]. cbn in HM |- *.
  wp_step. apply wp_on_lh. unfold V_clear. wp_steps. cbn.
  split; [done|]. split.
  { split; [done|]. rewrite HM. f_equal. cbn. rewrite Hbuf. unfold slice. rewrite drop_0.
    apply take_ge. rewrite hw_sector_len by done. done. }
  unfold lhd_ok, lhd_idle, d_blocks. cbn. split_and!; try done; lia.
Qed.

Lemma wp_lhd_write curas u lh b :
  lhd_ok lh -> 0 <= b < d_blocks lh -> sector_request curas u UIO_WRITE b ->
  wp (lhd_io curas)
     (fun _ '(u', lh') => uio_wf curas u' /\ sector_written u u' (hw_sector (lh_hw lh') b) /\
        lhd_ok lh' /\ d_blocks lh' = d_blocks lh /\
        (forall b', 0 <= b' < d_blocks lh -> b' <> b ->
           hw_sector (lh_hw lh') b' = hw_sector (lh_hw lh) b'))
     (fun _ _ => False) (u, lh).
Proof.
  intros [(Hc & Hd & Hl) Hok] Hb Hreq.
  destruct (sector_request_params _ _ _ _ _ Hreq Hb) as (P1 & P2 & P3 & P4 & P5).
  destruct Hreq as (W & Hrw & Ho & Hr).
  unfold lhd_io. wp_steps. rewrite P1, P2, P3, P4, P5, Hrw. cbn -[u32 LHD_WORKING].
  rewrite decide_True by done. change (Z.to_nat 1) with 1%nat. cbn [for_each].
  wp_step. unfold lhd_sector_io. wp_steps. cbn [fst]. rewrite Hrw, decide_True by done. apply wp_on_lh. apply wp_P_clear; [done|]. wp_steps.
  apply wp_lhd_uiomove; [done | done | done |]. intros buf u' W' [HA HM].
  rewrite Hrw in HM. destruct HM as [HM (bs & Hbs & ->)]. cbn in Hbs |- *.
  pose proof (load_all_length _ _ _ Hbs) as Hbl. rewrite length_take in Hbl.
  pose proof (uio_wf_resid _ _ W) as Hres. rewrite Hr in Hres. unfold SECTSIZE in Hres.
  assert (Hbl' : length bs = Z.to_nat LHD_SECTSIZE) by (unfold LHD_SECTSIZE in *; lia).
  rewrite splice_all by (rewrite Hl; done).
  wp_steps. apply wp_on_lh.
  rewrite Z.add_0_r, wrap_small by (pose proof (hw_nsect_range (lh_hw lh)); unfold d_blocks in Hb; lia).
  apply (wp_lhd_operate _ _ true); [done | done | done |]. cbn -[u32].
  pose proof (hw_ok_run (lh_hw lh) b true bs Hok Hb) as [Hs Hok'].
  destruct (hw_run_write (lh_hw lh) b bs Hb Hbl' Hs) as [Hsec Hsame].
  pose proof (hw_run_nsect (lh_hw lh) b true bs) as Hns.
  pose proof (hw_run_buf (lh_hw lh) b true bs Hbl') as Hbl2.
  wp_step. apply wp_on_lh. apply wp_P_done; [cbn; lia|]. wp_steps.
  cbn [snd lh_result]. change ((0 =? 0) && _) with false. cbv iota.
  wp_steps. apply wp_on_lh. unfold V_clear. wp_steps. cbn.
  split; [done|]. cbn [lh_hw]. split; [by rewrite Hsec|].
  unfold lhd_ok, lhd_idle, d_blocks. cbn. split_and!; try done; lia.
Qed.

(** The driver is a block device. *)
#[export] Program Instance lhd_block_device : BlockDevice lhd_softc := {
  devop_io := lhd_io;
  dev_blocks := d_blocks;
  dev_sector := fun lh => hw_sector (lh_hw lh);
  dev_ok := lhd_ok
}.
Next Obligation. intros lh b _ Hb. by apply hw_sector_len. Qed.
Next Obligation. apply wp_lhd_read. Qed.
Next Obligation. apply wp_lhd_write. Qed.

(** ** Faulty hardware *)

Lemma code_to_errno_cases code :
  Z.land code LHD_STATEMASK ∈ [LHD_OK; LHD_INVSECT; LHD_MEDIA] ->
  lhd_code_to_errno code = 0 \/ lhd_code_to_errno code = EINVAL \/ lhd_code_to_errno code = EIO.
Proof.
  unfold lhd_code_to_errno. rewrite !elem_of_cons, elem_of_nil.
  intros [->|[->|[->|[]]]]; cbn; auto.
Qed.

(** Whatever the hardware answers, an operation leaves one completion. *)
Lemma wp_lhd_operate_any b statval lh (Q : unit -> lhd_softc -> Prop) E :
  length (lh_buf lh) = Z.to_nat LHD_SECTSIZE ->
  (forall buf err hw, length buf = Z.to_nat LHD_SECTSIZE -> err = 0 \/ err = EINVAL \/ err = EIO ->
     hw_nsect hw = d_blocks lh -> Q tt (Lhd buf err (lh_clear lh) (lh_done lh + 1) 0 hw)) ->
  wp (lhd_operate b statval) Q E lh.
Proof.
  intros Hl HQ. unfold lhd_operate, lhd_irq, lhd_iodone. wp_steps.
  set (w := negb _).
  pose proof (hw_run_status (lh_hw lh) b w (lh_buf lh)) as Hs.
  pose proof (hw_run_buf (lh_hw lh) b w (lh_buf lh) Hl) as Hb.
  pose proof (hw_run_nsect (lh_hw lh) b w (lh_buf lh)) as Hn.
  destruct (hw_run (lh_hw lh) b w (lh_buf lh)) as [[status buf] hw].
  cbn in Hs, Hb, Hn |- *. pose proof (code_to_errno_cases _ Hs) as Hc.
  assert (Eb : (Z.land status LHD_STATEMASK =? LHD_OK) || (Z.land status LHD_STATEMASK =? LHD_INVSECT)
    || (Z.land status LHD_STATEMASK =? LHD_MEDIA) = true).
  { rewrite !elem_of_cons, elem_of_nil in Hs. by destruct Hs as [->|[->|[->|[]]]]. }
  rewrite Eb. wp_steps. by apply HQ.
Qed.

(** The state between two sectors of a request that began as [u]. *)
Definition lhd_between (curas : option Z) (u : uio) (j : Z) (s : uio * lhd_softc) : Prop :=
  uio_wf curas (fst s) /\ uio_rw (fst s) = uio_rw u /\
  uio_resid (fst s) = uio_resid u - j * LHD_SECTSIZE /\ lhd_idle (snd s).

Definition lhd_failed (e : Z) (s : uio * lhd_softc) : Prop :=
  (e = EINVAL \/ e = EIO) /\ lhd_idle (snd s).

Lemma wp_lhd_uiomove_part curas u lh (Q : Z -> uio * lhd_softc -> Prop) E :
  uio_wf curas u -> LHD_SECTSIZE <= uio_resid u -> length (lh_buf lh) = Z.to_nat LHD_SECTSIZE ->
  (forall buf u', uio_wf curas u' -> uio_advanced LHD_SECTSIZE u u' ->
     length buf = Z.to_nat LHD_SECTSIZE ->
     Q 0 (u', Lhd buf (lh_result lh) (lh_clear lh) (lh_done lh) (lh_stat lh) (lh_hw lh))) ->
  wp (lhd_uiomove curas) Q E (u, lh).
Proof.
  intros W Hr Hl HQ. pose proof (uio_wf_resid _ _ W) as Hwr.
  unfold lhd_uiomove. wp_steps. apply wp_on_uio. cbn [snd].
  eapply wp_use; [apply wp_uiomove; [done | unfold LHD_SECTSIZE in *; lia..]|].
  intros buf u' [W' HM]. wp_step. apply wp_on_lh. wp_steps. apply HQ; [done | apply HM |].
  rewrite <- Hl. eapply moved_len; [ | | | | exact HM]; unfold LHD_SECTSIZE in *; lia.
Qed.

Lemma lhd_between_next curas u j v v' buf err stat hw :
  uio_rw v = uio_rw u -> uio_resid v = uio_resid u - j * LHD_SECTSIZE ->
  uio_wf curas v' -> uio_advanced LHD_SECTSIZE v v' -> length buf = Z.to_nat LHD_SECTSIZE ->
  lhd_between curas u (j + 1) (v', Lhd buf err (0 + 1) 0 stat hw).
Proof.
  intros Hrw Hr W HA Hb. unfold lhd_between, lhd_idle. cbn.
  rewrite (adv_rw _ _ _ HA), (adv_resid _ _ _ HA). split_and!; try done. lia.
Qed.

Lemma wp_lhd_sector_io curas sector statval u j s :
  LHD_SECTSIZE * (j + 1) <= uio_resid u ->
  lhd_between curas u j s ->
  wp (lhd_sector_io curas sector statval j) (fun _ => lhd_between curas u (j + 1)) lhd_failed s.
Proof.
  intros Hj (W & Hrw & Hr & Hc & Hd & Hl). destruct s as [v lh]. cbn [fst snd] in *.
  unfold lhd_sector_io. wp_steps. cbn [fst]. apply wp_on_lh, wp_P_clear; [done|]. wp_step.
  destruct (uio_rw v) eqn:Ev.
  - rewrite decide_False by done. wp_steps. apply wp_on_lh.
    apply wp_lhd_operate_any; [done|]. intros buf err hw Hb He Hn. cbn.
    wp_step. apply wp_on_lh, wp_P_done; [cbn; lia|]. wp_steps. cbn [snd lh_result].
    rewrite bool_decide_true, andb_true_r by done.
    destruct (Z.eqb_spec err 0) as [->|Hne].
    + apply wp_lhd_uiomove_part; [done | unfold LHD_SECTSIZE in *; lia | done |].
      intros buf' u' W' HA Hb'. cbn. wp_step. apply wp_on_lh. unfold V_clear. wp_steps.
      apply (lhd_between_next _ _ _ v); [congruence | done..].
    + wp_steps. apply wp_on_lh. unfold V_clear. wp_steps. destruct (Z.eqb_spec err 0); [done|].
      wp_steps. unfold lhd_failed, lhd_idle. cbn. naive_solver lia.
  - rewrite decide_True by done. wp_step.
    apply wp_lhd_uiomove_part; [done | unfold LHD_SECTSIZE in *; lia | done |].
    intros buf' u' W' HA Hb'. cbn. wp_steps. apply wp_on_lh.
    apply wp_lhd_operate_any; [done|]. intros buf err hw Hb He Hn. cbn.
    wp_step. apply wp_on_lh, wp_P_done; [cbn; lia|]. wp_steps. cbn [snd lh_result].
    rewrite bool_decide_false, andb_false_r by done. wp_steps. apply wp_on_lh.
    unfold V_clear. wp_steps. destruct (Z.eqb_spec err 0) as [->|Hne]; wp_steps.
    + apply (lhd_between_next _ _ _ v); [congruence | done..].
    + unfold lhd_failed, lhd_idle. cbn. naive_solver lia.
Qed.

(** A request to the disk, on any hardware (failed reads and writes
    included) and of any length, neither deadlocks on the driver's two
    semaphores nor panics: it succeeds with every byte of the uio transferred
    or fails with [EINVAL] or [EIO], and in both cases the device is free
    again with no completion pending. *)
Theorem lhd_io_releases curas u lh :
  uio_wf curas u -> lhd_idle lh ->
  match lhd_io curas (u, lh) with
  | Ret _ (u', lh') => uio_resid u' = 0 /\ lhd_idle lh'
  | Err e (_, lh') => (e = EINVAL \/ e = EIO) /\ lhd_idle lh'
  | Panic | OutOfFuel => False
  end.
Proof.
  intros W Hi.
  enough (H : wp (lhd_io curas) (fun _ s => uio_resid (fst s) = 0 /\ lhd_idle (snd s)) lhd_failed (u, lh)).
  { unfold wp in H. destruct (lhd_io curas (u, lh)) as [? [??]|? [??]| |]; done. }
  pose proof (uio_wf_resid _ _ W) as R. pose proof (uio_wf_total _ _ W) as T.
  unfold lhd_io. wp_steps.
  rewrite (wrap_small 32 (uio_resid u / LHD_SECTSIZE)) by
    (unfold LHD_SECTSIZE; split; [apply Z.div_pos; lia | apply Z.div_lt_upper_bound; lia]).
  rewrite (wrap_small 32 (uio_resid u mod LHD_SECTSIZE)) by
    (unfold LHD_SECTSIZE; pose proof (Z.mod_pos_bound (uio_resid u) 512 ltac:(lia)); lia).
  destruct (negb _ || negb _) eqn:Eo; [wp_steps; unfold lhd_failed; cbn; by auto|].
  apply orb_false_iff in Eo as [_ Eo]. apply negb_false_iff, Z.eqb_eq in Eo.
  pose proof (Z.div_mod (uio_resid u) LHD_SECTSIZE ltac:(unfold LHD_SECTSIZE; lia)) as Dm.
  case_match; [wp_steps; unfold lhd_failed; cbn; by auto|].
  assert (0 <= uio_resid u / LHD_SECTSIZE) by (apply Z.div_pos; unfold LHD_SECTSIZE; lia).
  apply (wp_for_each (lhd_between curas u)).
  - unfold lhd_between. cbn. split_and!; try done. lia.
  - intros j s' Hj HB. apply wp_lhd_sector_io; [|done].
    unfold LHD_SECTSIZE in *. lia.
  - intros s' (_ & _ & Hr & Hi'). split; [|done]. unfold LHD_SECTSIZE in *. lia.
Qed.

End lhd.
Arguments lhd_softc : clear implicits.
Arguments Lhd {HW} _ _ _ _ _ _.

(** ** A disk kept in memory

    The instance the witnesses run on: [rd_faults] lists what is still to go
    wrong, one flag per operation; a failed operation transfers nothing. *)
Record ramdisk := RamDisk { rd_size : Z; rd_data : gmap Z (list Z); rd_faults : list bool }.

Definition rd_sector (d : ramdisk) (b : Z) : list Z :=
  resize (Z.to_nat LHD_SECTSIZE) 0 (default [] (rd_data d !! b)).

Definition rd_run (d : ramdisk) (b : Z) (w : bool) (buf : list Z) : Z * list Z * ramdisk :=
  let d' := RamDisk (rd_size d) (rd_data d) (tail (rd_faults d)) in
  if hd false (rd_faults d) then (LHD_MEDIA, buf, d')
  else if negb ((0 <=? b) && (b <? u32 (rd_size d))) then (LHD_INVSECT, buf, d')
  else if w then (LHD_OK, buf, RamDisk (rd_size d) (<[b := buf]> (rd_data d)) (tail (rd_faults d)))
  else (LHD_OK, rd_sector d b, d').

Lemma rd_run_read d b buf :
  0 <= b < u32 (rd_size d) -> Z.land (rd_run d b false buf).1.1 LHD_STATEMASK = LHD_OK ->
  (rd_run d b false buf).1.2 = rd_sector d b /\
  forall b', 0 <= b' < u32 (rd_size d) -> rd_sector (rd_run d b false buf).2 b' = rd_sector d b'.
Proof. unfold rd_run. intros Hb. case_match; [done|]. case_match; done. Qed.

Lemma rd_run_write d b buf :
  0 <= b < u32 (rd_size d) -> length buf = Z.to_nat LHD_SECTSIZE ->
  Z.land (rd_run d b true buf).1.1 LHD_STATEMASK = LHD_OK ->
  rd_sector (rd_run d b true buf).2 b = buf /\
  forall b', 0 <= b' < u32 (rd_size d) -> b' <> b ->
    rd_sector (rd_run d b true buf).2 b' = rd_sector d b'.
Proof.
  unfold rd_run. intros Hb Hl. case_match; [done|]. case_match; [done|]. intros _.
  cbn [snd]. unfold rd_sector. cbn [rd_data]. split.
  - rewrite lookup_insert_eq. cbn [default from_option]. by rewrite <- Hl, resize_all.
  - intros b' _ Hne. by rewrite lookup_insert_ne by done.
Qed.

Lemma rd_run_ok d b w buf :
  Forall (eq false) (rd_faults d) -> 0 <= b < u32 (rd_size d) ->
  Z.land (rd_run d b w buf).1.1 LHD_STATEMASK = LHD_OK /\
  Forall (eq false) (rd_faults (rd_run d b w buf).2).
Proof.
  unfold rd_run. intros Hf Hb.
  assert (Et : (0 <=? b) && (b <? u32 (rd_size d)) = true) by bsolve. rewrite Et.
  destruct Hf as [|x l <- Hf]; cbn; destruct w; cbn; auto.
Qed.

#[export] Program Instance ramdisk_hardware : LhdHardware ramdisk := {
  hw_nsect d := u32 (rd_size d);
  hw_sector := rd_sector;
  hw_run := rd_run;
  hw_ok d := Forall (eq false) (rd_faults d)
}.
Next Obligation. intros d. by apply wrap_bound. Qed.
Next Obligation. intros d b _. unfold rd_sector. by rewrite length_resize. Qed.
Next Obligation. intros d b w buf. unfold rd_run. repeat case_match; done. Qed.
Next Obligation.
  intros d b w buf H. unfold rd_run. repeat case_match; try done.
  unfold rd_sector. cbn. by rewrite length_resize.
Qed.
Next Obligation. intros d b w buf. unfold rd_run. repeat case_match; cbn; set_solver. Qed.
Next Obligation. intros. by apply rd_run_read. Qed.
Next Obligation. intros. by apply rd_run_write. Qed.
Next Obligation. intros. by apply rd_run_ok. Qed.

(** A free driver over such a disk. *)
Definition ram_lhd (size : Z) (faults : list bool) : lhd_softc ramdisk :=
  Lhd (replicate 512 0) 0 1 0 0 (RamDisk size ∅ faults).

Lemma lhd_io_releases_witness :
  lhd_io None (uio_kinit 0 (kmem (replicate 1024 7)) 1024 0 UIO_WRITE, ram_lhd 4 [false; true]) <> Panic.
Proof.
  pose proof (lhd_io_releases None (uio_kinit 0 (kmem (replicate 1024 7)) 1024 0 UIO_WRITE)
    (ram_lhd 4 [false; true])) as H.
  intros E. rewrite E in H. apply H.
  - apply uio_kinit_wf; [lia..|]. apply (kmem_mapped (replicate 1024 7)).
  - unfold lhd_idle. split_and!; reflexivity.
Defined.
