(* ===== verification/DevVnode.v ===== *)
(** * Device vnodes, [vfs/device.c] and [vfs/devnull.c]

    A device that the VFS layer knows is a vnode whose operations check their
    arguments and go to the device's own operations, the class [DeviceOps].
    The null device and the disk driver are instances. *)

From S2P Require Import Prelude CopyInOut Uio Vnode Device Lhd.

Definition S_IFCHR : Z := 0x6000.
Definition S_IFBLK : Z := 0x7000.

(** [struct device_ops] *)
Class DeviceOps (D : Type) := {
  DEVOP_EACHOPEN : Z -> M D unit;
  DEVOP_IO : option Z -> M (uio * D) unit;
  DEVOP_IOCTL : Z -> Z -> M D unit
}.

(** A device and the reference count of its vnode. *)
Record device (D : Type) := mkDevice {
  dv_blocks : Z;
  dv_blocksize : Z;
  dv_devnumber : Z;
  dv_data : D;
  dv_refcount : Z
}.
Arguments mkDevice {D}.
Arguments dv_blocks {D}.
Arguments dv_blocksize {D}.
Arguments dv_devnumber {D}.
Arguments dv_data {D}.
Arguments dv_refcount {D}.

Section device.
Context {D : Type} `{!DeviceOps D} (curas : option Z).

Definition set_data (x : D) (d : device D) : device D :=
  mkDevice (dv_blocks d) (dv_blocksize d) (dv_devnumber d) x (dv_refcount d).

(** The device's own operations, on its data. *)
Definition on_data {A} (m : M D A) : M (device D) A := zoom dv_data set_data m.
Definition on_data_uio {A} (m : M (uio * D) A) : M (uio * device D) A :=
  zoom (fun s => (s.1, dv_data s.2)) (fun t s => (t.1, set_data t.2 s.2)) m.

Definition dev_eachopen (flags : Z) : M (device D) unit :=
  if negb (Z.land flags (Z.lor (Z.lor O_CREAT O_TRUNC) (Z.lor O_EXCL O_APPEND)) =? 0) then throw EINVAL
  else on_data (DEVOP_EACHOPEN flags).

Definition dev_reclaim : M (device D) unit := ret tt.

(** [off_t] is signed: [%] and [/] round towards 0. *)
Definition dev_tryseek {S} (d : device D) (pos : Z) : M S unit :=
  if 0 <? dv_blocks d then
    if negb (Z.rem pos (dv_blocksize d) =? 0) then throw EINVAL
    else if dv_blocks d <=? Z.quot pos (dv_blocksize d) then throw EINVAL
    else ret tt
  else ret tt.

Definition dev_read : M (uio * device D) unit :=
  s <- get ;;
  dev_tryseek s.2 (uio_offset s.1) ;;
  KASSERT (bool_decide (uio_rw s.1 = UIO_READ)) ;;
  on_data_uio (DEVOP_IO curas).

Definition dev_write : M (uio * device D) unit :=
  s <- get ;;
  dev_tryseek s.2 (uio_offset s.1) ;;
  KASSERT (bool_decide (uio_rw s.1 = UIO_WRITE)) ;;
  on_data_uio (DEVOP_IO curas).

Definition dev_ioctl (op data : Z) : M (device D) unit := on_data (DEVOP_IOCTL op data).

Definition dev_gettype : M (device D) Z :=
  d <- get ;; ret (if 0 <? dv_blocks d then S_IFBLK else S_IFCHR).

(** The product is of two 32-bit numbers. *)
Definition dev_stat : M (device D) stat :=
  d <- get ;;
  let size := if 0 <? dv_blocks d then u32 (dv_blocks d * dv_blocksize d) else 0 in
  mode <- dev_gettype ;;
  ret (Stat (Z.lor mode 384) size 1 (dv_blocks d)).

Definition dev_isseekable : M (device D) bool := d <- get ;; ret (negb (dv_blocks d =? 0)).

Definition null_fsync : M (device D) unit := ret tt.
Definition dev_mmap : M (device D) unit := throw ENOSYS.

Definition dev_truncate (len : Z) : M (device D) unit :=
  d <- get ;;
  if (0 <? dv_blocks d) && (u32 (dv_blocks d * dv_blocksize d) =? len) then ret tt else throw EINVAL.

Definition dev_namefile : M (uio * device D) unit := ret tt.

(** The vnode [dir] itself, or nothing. *)
Definition dev_lookup (dir : Z) (pathname : list Z) : M (device D) Z :=
  if (0 <? length pathname)%nat then throw ENOENT
  else modify (fun d => mkDevice (dv_blocks d) (dv_blocksize d) (dv_devnumber d) (dv_data d) (dv_refcount d + 1)) ;; ret dir.

(** [None] when there is no memory for the vnode. *)
Definition dev_create_vnode (have_memory : bool) (blocks blocksize devnumber : Z) (x : D) : option (device D) :=
  if have_memory then Some (mkDevice blocks blocksize devnumber x 1) else None.

(** [vnode_cleanup] of the vnode of a device nobody else has. *)
Definition dev_uncreate_vnode : M (device D) unit := d <- get ;; KASSERT (dv_refcount d =? 1).

End device.

(** ** [devnull.c] *)

Definition nullopen (openflags : Z) : M unit unit := ret tt.

Definition nullio (curas : option Z) : M (uio * unit) unit :=
  modify (fun s => if bool_decide (uio_rw s.1 = UIO_WRITE) then (set_resid 0 s.1, s.2) else s).

Definition nullioctl (op data : Z) : M unit unit := throw EINVAL.

#[export] Instance null_devops : DeviceOps unit := {
  DEVOP_EACHOPEN := nullopen;
  DEVOP_IO := nullio;
  DEVOP_IOCTL := nullioctl
}.

(** The device [devnull_create] attaches. *)
Definition devnull_create : device unit := mkDevice 0 1 0 tt 1.

(** ** The disk driver *)

Section lhd.
Context {HW : Type} `{!LhdHardware HW}.

Definition lhd_eachopen (openflags : Z) : M (@lhd_softc HW) unit := ret tt.
Definition lhd_ioctl (op data : Z) : M (@lhd_softc HW) unit := throw EIOCTL.

#[export] Instance lhd_devops : DeviceOps (@lhd_softc HW) := {
  DEVOP_EACHOPEN := lhd_eachopen;
  DEVOP_IO := lhd_io;
  DEVOP_IOCTL := lhd_ioctl
}.

End lhd.

(** ** Reading and writing through the vnode of a disk *)

Section block.
Context {D : Type} `{!DeviceOps D, !BlockDevice D} (curas : option Z).
Hypothesis io_is_block_io : DEVOP_IO curas = devop_io curas.

(** The vnode of a block device that reports no errors. *)
Definition disk_vnode (d : device D) : Prop :=
  dv_blocks d = dev_blocks (dv_data d) /\ dv_blocksize d = SECTSIZE /\ dev_ok (dv_data d).

(** The positions of sectors, and no others, pass. *)
Lemma tryseek_sector {S} (d : device D) pos (s : S) : disk_vnode d -> 0 <= pos -> 0 < dv_blocks d ->
  dev_tryseek d pos s = if (pos mod SECTSIZE =? 0) && (pos / SECTSIZE <? dv_blocks d) then Ret tt s else Err EINVAL s.
Proof.
  intros (_ & Hs & _) Hp Hb. unfold dev_tryseek. rewrite (proj2 (Z.ltb_lt _ _) Hb), Hs. unfold SECTSIZE.
  rewrite Z.rem_mod_nonneg, Z.quot_div_nonneg by lia. destruct (Z.eqb_spec (pos mod 512) 0); [|done]. cbn [negb andb].
  destruct (Z.leb_spec (dv_blocks d) (pos / 512)), (Z.ltb_spec (pos / 512) (dv_blocks d)); done || lia.
Qed.

Lemma wp_tryseek_sector {S} (d : device D) pos (Q : unit -> S -> Prop) E s : disk_vnode d -> 0 <= pos -> 0 < dv_blocks d ->
  (forall b, pos = b * SECTSIZE -> 0 <= b < dv_blocks d -> Q tt s) ->
  (~ (pos mod SECTSIZE = 0 /\ pos / SECTSIZE < dv_blocks d) -> E EINVAL s) -> wp (dev_tryseek d pos) Q E s.
Proof.
  intros Hd Hp Hb HQ HE. unfold wp. rewrite tryseek_sector by done.
  destruct (Z.eqb_spec (pos mod SECTSIZE) 0) as [E1|E1]; cbn [andb]; [|apply HE; tauto].
  destruct (Z.ltb_spec (pos / SECTSIZE) (dv_blocks d)) as [E2|E2]; [|apply HE; lia].
  apply (HQ (pos / SECTSIZE)); unfold SECTSIZE in *; [pose proof (Z.div_mod pos 512); lia | pose proof (Z.div_pos pos 512); lia].
Qed.

Lemma wp_on_data_uio (m : M (uio * D) unit) u d Q E :
  wp m (fun _ t => Q tt (t.1, set_data t.2 d)) (fun e t => E e (t.1, set_data t.2 d)) (u, dv_data d) -> wp (on_data_uio m) Q E (u, d).
Proof. unfold wp, on_data_uio, zoom. cbn [fst snd]. by destruct (m (u, dv_data d)) as [[] ?| | |]. Qed.

(** Reading a sector through the vnode of a disk gives its bytes and changes
    nothing; at any other position, or past the end, it is [EINVAL] and
    nothing happens. *)
Theorem dev_read_sector u d : disk_vnode d -> uio_wf curas u -> uio_rw u = UIO_READ -> uio_resid u = SECTSIZE -> 0 < dv_blocks d ->
  wp (dev_read curas)
     (fun _ s => exists b, uio_offset u = b * SECTSIZE /\ 0 <= b < dv_blocks d /\
        sector_read u s.1 (dev_sector (dv_data d) b) /\ disk_vnode s.2 /\
        forall b', 0 <= b' < dv_blocks d -> dev_sector (dv_data s.2) b' = dev_sector (dv_data d) b')
     (fun e s => e = EINVAL /\ s = (u, d) /\ ~ (uio_offset u mod SECTSIZE = 0 /\ uio_offset u / SECTSIZE < dv_blocks d)) (u, d).
Proof.
  intros Hd Hu Hrw Hres Hpos. pose proof (uio_wf_offset _ _ Hu) as [Hoff _]. pose proof Hd as (Hb & Hbs & Hok).
  unfold dev_read. apply wp_bind, wp_get. cbn [fst snd]. apply wp_bind, wp_tryseek_sector; try done. intros b Hpb Hlt.
  apply wp_bind, wp_kassert; [by rewrite Hrw|]. apply wp_on_data_uio. rewrite io_is_block_io.
  eapply wp_mono; [apply (devop_read curas u (dv_data d) b); [done | lia | unfold sector_request; split_and!; done] | |done].
  intros [] [u' x] (Hwf & Hr & Hok' & Hbl & Hsame). exists b. split_and!; [done | lia | lia | done | | rewrite Hb; done].
  split_and!; cbn; [by rewrite Hbl | done | done].
Qed.

(** Writing replaces that sector and no other. *)
Theorem dev_write_sector u d : disk_vnode d -> uio_wf curas u -> uio_rw u = UIO_WRITE -> uio_resid u = SECTSIZE -> 0 < dv_blocks d ->
  wp (dev_write curas)
     (fun _ s => exists b, uio_offset u = b * SECTSIZE /\ 0 <= b < dv_blocks d /\
        sector_written u s.1 (dev_sector (dv_data s.2) b) /\ disk_vnode s.2 /\
        forall b', 0 <= b' < dv_blocks d -> b' <> b -> dev_sector (dv_data s.2) b' = dev_sector (dv_data d) b')
     (fun e s => e = EINVAL /\ s = (u, d) /\ ~ (uio_offset u mod SECTSIZE = 0 /\ uio_offset u / SECTSIZE < dv_blocks d)) (u, d).
Proof.
  intros Hd Hu Hrw Hres Hpos. pose proof (uio_wf_offset _ _ Hu) as [Hoff _]. pose proof Hd as (Hb & Hbs & Hok).
  unfold dev_write. apply wp_bind, wp_get. cbn [fst snd]. apply wp_bind, wp_tryseek_sector; try done. intros b Hpb Hlt.
  apply wp_bind, wp_kassert; [by rewrite Hrw|]. apply wp_on_data_uio. rewrite io_is_block_io.
  eapply wp_mono; [apply (devop_write curas u (dv_data d) b); [done | lia | unfold sector_request; split_and!; done] | |done].
  intros [] [u' x] (Hwf & Hr & Hok' & Hbl & Hsame). exists b. split_and!; [done | lia | lia | done | | rewrite Hb; done].
  split_and!; cbn; [by rewrite Hbl | done | done].
Qed.

End block.

(** The null device reads as empty and takes any write. *)
Lemma devnull_io curas u d : dv_blocks d = 0 ->
  (uio_rw u = UIO_READ -> dev_read curas (u, d) = Ret tt (u, d)) /\
  (uio_rw u = UIO_WRITE -> dev_write curas (u, d) = Ret tt (set_resid 0 u, d)).
Proof.
  intros Hb. destruct d as [bl bs dn [] rc]. cbn in Hb. subst bl.
  split; intros Hrw; destruct u as [iov off res seg rw sp mem]; cbn in Hrw; subst rw; reflexivity.
Qed.

(** A disk of [2 ^ 23] sectors has size 0 in [stat]. *)
Lemma dev_stat_wraps {D} `{!DeviceOps D} (x : D) rc :
  dev_stat (mkDevice (2 ^ 23) 512 0 x rc) = Ret (Stat (Z.lor S_IFBLK 384) 0 1 (2 ^ 23)) (mkDevice (2 ^ 23) 512 0 x rc).
Proof. done. Qed.
