(* ===== verification/Synch.v ===== *)
(** * Sleep locks, [kern/thread/synch.c]

    The locks and condition variables of this kernel are the unwritten
    bodies the assignment ships with: acquiring and releasing do nothing and
    [lock_do_i_hold] answers [true].  The models below are those bodies; what
    the rest of the kernel gets from them is stated where it is used (the
    recursive [vfs_biglock]). *)

From S2P Require Import Prelude.

Section locks.
Context {S : Type}.

Definition lock_acquire : M S unit := ret tt.
Definition lock_release : M S unit := ret tt.
Definition lock_do_i_hold : M S bool := ret true.
Definition cv_wait : M S unit := ret tt.
Definition cv_signal : M S unit := ret tt.
Definition cv_broadcast : M S unit := ret tt.

End locks.
