(* ===== verification/SfsDisk.v ===== *)
(** * The SFS on-disk format, [kern/include/kern/sfs.h]

    The constants of the format, the superblock, the inode and the directory
    entry, with the bytes each occupies.  The machine is big-endian and the
    kernel reads and writes these structures as they lie in memory, so a
    32-bit word is its four bytes, the most significant first. *)

From S2P Require Import Prelude.

Definition SFS_MAGIC : Z := 0xabadf001.
Definition SFS_BLOCKSIZE : Z := 512.
Definition SFS_VOLNAME_SIZE : nat := 32.
Definition SFS_NDIRECT : Z := 15.
Definition SFS_NINDIRECT : Z := 1.
Definition SFS_DBPERIDB : Z := 128.
Definition SFS_NAMELEN : nat := 60.
Definition SFS_SUPER_BLOCK : Z := 0.
Definition SFS_FREEMAP_START : Z := 2.
Definition SFS_NOINO : Z := 0.
Definition SFS_ROOTDIR_INO : Z := 1.
Definition SFS_BITSPERBLOCK : Z := SFS_BLOCKSIZE * 8.

Definition SFS_ROUNDUP (a b : Z) : Z := u32 (u32 (a + b - 1) / b * b).
Definition SFS_FREEMAPBITS (nblocks : Z) : Z := SFS_ROUNDUP nblocks SFS_BITSPERBLOCK.
Definition SFS_FREEMAPBLOCKS (nblocks : Z) : Z := SFS_FREEMAPBITS nblocks / SFS_BITSPERBLOCK.

Definition SFS_TYPE_INVAL : Z := 0.
Definition SFS_TYPE_FILE : Z := 1.
Definition SFS_TYPE_DIR : Z := 2.

Record sfs_superblock := Superblock {
  sb_magic : Z;
  sb_nblocks : Z;
  sb_volname : list Z;
  sb_reserved : list Z
}.

Record sfs_dinode := Dinode {
  sfi_size : Z;
  sfi_type : Z;
  sfi_linkcount : Z;
  sfi_direct : list Z;
  sfi_indirect : Z;
  sfi_waste : list Z
}.

Record sfs_direntry := Direntry { sfd_ino : Z; sfd_name : list Z }.

(** ** Words and bytes *)

Definition be32_bytes (w : Z) : list Z :=
  [u8 (Z.shiftr w 24); u8 (Z.shiftr w 16); u8 (Z.shiftr w 8); u8 w].

Definition be16_bytes (w : Z) : list Z := [u8 (Z.shiftr w 8); u8 w].

Definition be (bytes : list Z) : Z := foldl (fun acc b => acc * 256 + b) 0 bytes.

(** A [uint32_t] array laid over a byte buffer. *)
Definition bytes_of_words (ws : list Z) : list Z := concat (map be32_bytes ws).

Fixpoint words_of_bytes (n : nat) (bytes : list Z) : list Z :=
  match n with
  | O => []
  | S n' => be (take 4 bytes) :: words_of_bytes n' (drop 4 bytes)
  end.

Definition word_ok (w : Z) : Prop := 0 <= w < 2 ^ 32.
Definition half_ok (w : Z) : Prop := 0 <= w < 2 ^ 16.

Lemma be32_bytes_be w : word_ok w -> be (be32_bytes w) = w.
Proof.
  intros [H1 H2]. unfold be, be32_bytes, wrap. cbn [foldl].
  rewrite !Z.shiftr_div_pow2 by lia.
  change (2 ^ 24) with 16777216. change (2 ^ 16) with 65536. change (2 ^ 8) with 256.
  Z.div_mod_to_equations. lia.
Qed.

Lemma be16_bytes_be w : half_ok w -> be (be16_bytes w) = w.
Proof.
  intros [H1 H2]. unfold be, be16_bytes, wrap. cbn [foldl].
  rewrite !Z.shiftr_div_pow2 by lia. change (2 ^ 8) with 256.
  Z.div_mod_to_equations. lia.
Qed.

Lemma words_of_bytes_app ws rest :
  Forall word_ok ws -> words_of_bytes (length ws) (bytes_of_words ws ++ rest) = ws.
Proof.
  induction 1 as [|w ws Hw _ IH]; [done|].
  change (bytes_of_words (w :: ws)) with (be32_bytes w ++ bytes_of_words ws).
  cbn [length words_of_bytes]. rewrite <- app_assoc.
  rewrite (take_app_length' (be32_bytes w)), (drop_app_length' (be32_bytes w)) by done.
  by rewrite be32_bytes_be, IH.
Qed.

Lemma words_of_bytes_words ws :
  Forall word_ok ws -> words_of_bytes (length ws) (bytes_of_words ws) = ws.
Proof. intros H. rewrite <- (app_nil_r (bytes_of_words ws)). by apply words_of_bytes_app. Qed.

Lemma bytes_of_words_length ws : length (bytes_of_words ws) = (4 * length ws)%nat.
Proof.
  induction ws as [|w ws IH]; [done|]. unfold bytes_of_words in *. cbn [map concat].
  rewrite length_app, IH. cbn. lia.
Qed.

Lemma words_of_bytes_length n bytes : length (words_of_bytes n bytes) = n.
Proof. revert bytes. induction n; intros; cbn; auto. Qed.

Lemma words_of_zeros n m : words_of_bytes n (replicate m 0) = replicate n 0.
Proof.
  revert m. induction n as [|n IH]; intros m; [done|]. cbn [words_of_bytes].
  rewrite drop_replicate, IH. cbn [replicate]. f_equal.
  rewrite take_replicate. unfold be. by destruct m as [|[|[|[|m]]]].
Qed.

(** ** The structures as blocks *)

Definition bytes_of_sb (sb : sfs_superblock) : list Z :=
  be32_bytes (sb_magic sb) ++ be32_bytes (sb_nblocks sb) ++ sb_volname sb ++
  bytes_of_words (sb_reserved sb).

Definition sb_of_bytes (b : list Z) : sfs_superblock :=
  Superblock (be (slice 0 4 b)) (be (slice 4 4 b)) (slice 8 SFS_VOLNAME_SIZE b)
    (words_of_bytes 118 (drop 40 b)).

Definition bytes_of_dinode (i : sfs_dinode) : list Z :=
  be32_bytes (sfi_size i) ++ be16_bytes (sfi_type i) ++ be16_bytes (sfi_linkcount i) ++
  bytes_of_words (sfi_direct i) ++ be32_bytes (sfi_indirect i) ++ bytes_of_words (sfi_waste i).

Definition dinode_of_bytes (b : list Z) : sfs_dinode :=
  Dinode (be (slice 0 4 b)) (be (slice 4 2 b)) (be (slice 6 2 b))
    (words_of_bytes 15 (drop 8 b)) (be (slice 68 4 b)) (words_of_bytes 110 (drop 72 b)).

Definition bytes_of_direntry (d : sfs_direntry) : list Z := be32_bytes (sfd_ino d) ++ sfd_name d.

Definition direntry_of_bytes (b : list Z) : sfs_direntry :=
  Direntry (be (take 4 b)) (slice 4 SFS_NAMELEN b).

Definition SFS_DIRENTRY_SIZE : Z := 64.

Record sb_shape (sb : sfs_superblock) : Prop := {
  sb_shape_magic : word_ok (sb_magic sb);
  sb_shape_nblocks : word_ok (sb_nblocks sb);
  sb_shape_volname : length (sb_volname sb) = SFS_VOLNAME_SIZE;
  sb_shape_reserved : length (sb_reserved sb) = 118%nat /\ Forall word_ok (sb_reserved sb)
}.

Record dinode_shape (i : sfs_dinode) : Prop := {
  shape_size : word_ok (sfi_size i);
  shape_type : half_ok (sfi_type i);
  shape_links : half_ok (sfi_linkcount i);
  shape_direct : length (sfi_direct i) = 15%nat /\ Forall word_ok (sfi_direct i);
  shape_indirect : word_ok (sfi_indirect i);
  shape_waste : length (sfi_waste i) = 110%nat /\ Forall word_ok (sfi_waste i)
}.

Definition direntry_shape (d : sfs_direntry) : Prop :=
  word_ok (sfd_ino d) /\ length (sfd_name d) = SFS_NAMELEN.

Lemma slice_skip {A} (a b : list A) n m :
  length a = n -> slice n m (a ++ b) = take m b.
Proof. intros H. unfold slice. by rewrite drop_app_length'. Qed.

Lemma slice_skip2 {A} (a b : list A) n m k :
  length a = k -> (k <= n)%nat -> slice n m (a ++ b) = slice (n - k) m b.
Proof. intros <- H. unfold slice. rewrite drop_app_ge by done. done. Qed.

Lemma drop_skip {A} (a b : list A) n k :
  length a = k -> (k <= n)%nat -> drop n (a ++ b) = drop (n - k) b.
Proof. intros <- H. by rewrite drop_app_ge. Qed.

(** Simplify a field access of an encoded structure. *)
Ltac field :=
  repeat first
    [ rewrite (slice_skip2 (be32_bytes _) _ _ _ 4) by (done || lia)
    | rewrite (slice_skip2 (be16_bytes _) _ _ _ 2) by (done || lia)
    | rewrite (drop_skip (be32_bytes _) _ _ 4) by (done || lia)
    | rewrite (drop_skip (be16_bytes _) _ _ 2) by (done || lia)
    | progress cbn [Nat.sub] ].

(** The block written for an inode is read back as that inode. *)
Theorem dinode_roundtrip i :
  dinode_shape i ->
  dinode_of_bytes (bytes_of_dinode i) = i /\
  length (bytes_of_dinode i) = Z.to_nat SFS_BLOCKSIZE.
Proof.
  intros [H1 H2 H3 [H4 H4'] H5 [H6 H6']]. destruct i as [sz ty lc dir ind wst]. cbn in H1, H2, H3, H4, H4', H5, H6, H6'.
  unfold bytes_of_dinode, dinode_of_bytes.
  cbn [sfi_size sfi_type sfi_linkcount sfi_direct sfi_indirect sfi_waste]. split.
  - f_equal.
    + field. unfold slice. rewrite drop_0, take_app_length' by done. by apply be32_bytes_be.
    + field. unfold slice. rewrite drop_0, take_app_length' by done. by apply be16_bytes_be.
    + field. unfold slice. rewrite drop_0, take_app_length' by done. by apply be16_bytes_be.
    + field. rewrite drop_0. rewrite <- H4 at 1. by apply words_of_bytes_app.
    + field. rewrite slice_skip2 with (k := 60%nat) by (rewrite ?bytes_of_words_length; lia). field.
      unfold slice. rewrite drop_0, take_app_length' by done. by apply be32_bytes_be.
    + field. rewrite drop_skip with (k := 60%nat) by (rewrite ?bytes_of_words_length; lia). field.
      rewrite drop_0, <- H6. by apply words_of_bytes_words.
  - by rewrite !length_app, !bytes_of_words_length, H4, H6.
Qed.

Lemma dinode_roundtrip_witness :
  dinode_of_bytes (bytes_of_dinode
    (Dinode 700 1 1 (replicate 15 9) 300 (replicate 110 0))) =
  Dinode 700 1 1 (replicate 15 9) 300 (replicate 110 0).
Proof.
  apply dinode_roundtrip. split; cbn [sfi_size sfi_type sfi_linkcount sfi_direct sfi_indirect sfi_waste];
    unfold word_ok, half_ok; try lia; (split; [done|]); apply Forall_replicate; lia.
Defined.

Lemma direntry_bytes_roundtrip d :
  direntry_shape d ->
  direntry_of_bytes (bytes_of_direntry d) = d /\ length (bytes_of_direntry d) = Z.to_nat SFS_DIRENTRY_SIZE.
Proof.
  intros [H1 H2]. destruct d as [ino name]. cbn in H1, H2.
  unfold direntry_of_bytes, bytes_of_direntry. cbn [sfd_ino sfd_name]. split.
  - f_equal; [rewrite take_app_length' by done; by apply be32_bytes_be|].
    rewrite slice_skip by done. by apply take_ge; rewrite H2.
  - by rewrite length_app, H2.
Qed.

Lemma sb_bytes_roundtrip sb :
  sb_shape sb -> sb_of_bytes (bytes_of_sb sb) = sb /\ length (bytes_of_sb sb) = Z.to_nat SFS_BLOCKSIZE.
Proof.
  intros [H1 H2 H3 [H4 H5]]. destruct sb as [m n vn r]. cbn in H1, H2, H3, H4, H5.
  unfold sb_of_bytes, bytes_of_sb. cbn [sb_magic sb_nblocks sb_volname sb_reserved]. split.
  - f_equal.
    + unfold slice. rewrite drop_0, take_app_length' by done. by apply be32_bytes_be.
    + field. unfold slice. rewrite drop_0, take_app_length' by done. by apply be32_bytes_be.
    + field. unfold slice. rewrite drop_0, <- H3. by rewrite take_app_length.
    + field. rewrite drop_skip with (k := 32%nat) by (done || lia). rewrite drop_0, <- H4.
      by apply words_of_bytes_words.
  - by rewrite !length_app, bytes_of_words_length, H3, H4.
Qed.

(** ** Decoding gives values in range *)

Lemma be_bound bytes : Forall (fun b => 0 <= b < 256) bytes ->
  0 <= be bytes < 256 ^ Z.of_nat (length bytes).
Proof.
  unfold be. induction bytes as [|b l IH] using rev_ind; intros H; [done|].
  apply Forall_app in H as [H1 [H2 _]%Forall_cons]. specialize (IH H1).
  rewrite foldl_app, length_app. cbn [foldl length].
  replace (Z.of_nat (length l + 1)) with (Z.succ (Z.of_nat (length l))) by lia.
  rewrite Z.pow_succ_r by lia. lia.
Qed.

Lemma words_of_bytes_ok n bytes :
  Forall (fun b => 0 <= b < 256) bytes -> Forall word_ok (words_of_bytes n bytes).
Proof.
  revert bytes. induction n as [|n IH]; intros bytes H; cbn; constructor.
  - pose proof (be_bound (take 4 bytes) (Forall_take _ _ _ H)) as Hb.
    assert (256 ^ Z.of_nat (length (take 4 bytes)) <= 256 ^ 4).
    { apply Z.pow_le_mono_r; [lia|]. rewrite length_take. lia. }
    unfold word_ok. change (2 ^ 32) with (256 ^ 4). lia.
  - by apply IH, Forall_drop.
Qed.
