(* ===== verification/SfsCore.v ===== *)
(** * SFS: blocks, [kern/fs/sfs/sfs_io.c] and [kern/fs/sfs/sfs_balloc.c]

    The in-memory state of a mounted volume, the big lock of
    [kern/vfs/vfslist.c], the block-level I/O with its retries and the block
    allocator, over any [BlockDevice].

    [struct sfs_vnode] objects live in a heap ([sv_heap]) under the pointers
    the code passes around; [sfs_vnodes] is the table of loaded vnodes.  The
    static I/O buffers of the code are filled before every use, so they are
    local lists of bytes. *)

From S2P Require Import Prelude Bitmap CopyInOut Uio Device Synch SfsDisk.

(** The operations table a vnode was given. *)
Inductive vnode_ops := sfs_fileops | sfs_dirops.

#[export] Instance vnode_ops_eq_dec : EqDecision vnode_ops.
Proof. solve_decision. Defined.

Record sfs_vnode := SfsVnode {
  vn_refcount : Z;
  vn_ops : vnode_ops;
  sv_i : sfs_dinode;
  sv_ino : Z;
  sv_dirty : bool
}.

Record sfs_fs (D : Type) := SfsFs {
  sfs_device : D;
  sfs_sb : sfs_superblock;
  sfs_superdirty : bool;
  sfs_freemap : bitmap;
  sfs_freemapdirty : bool;
  sfs_vnodes : list Z;
  sv_heap : gmap Z sfs_vnode;
  vfs_biglock_depth : Z
}.

Arguments SfsFs {D} _ _ _ _ _ _ _ _.
Arguments sfs_device {D} _.
Arguments sfs_sb {D} _.
Arguments sfs_superdirty {D} _.
Arguments sfs_freemap {D} _.
Arguments sfs_freemapdirty {D} _.
Arguments sfs_vnodes {D} _.
Arguments sv_heap {D} _.
Arguments vfs_biglock_depth {D} _.

Definition nblocks {D} (s : sfs_fs D) : Z := sb_nblocks (sfs_sb s).

Section setters.
Context {D : Type}.
Implicit Types s : sfs_fs D.

Definition set_device (d : D) s : sfs_fs D :=
  SfsFs d (sfs_sb s) (sfs_superdirty s) (sfs_freemap s) (sfs_freemapdirty s) (sfs_vnodes s)
    (sv_heap s) (vfs_biglock_depth s).
Definition set_superdirty (b : bool) s : sfs_fs D :=
  SfsFs (sfs_device s) (sfs_sb s) b (sfs_freemap s) (sfs_freemapdirty s) (sfs_vnodes s)
    (sv_heap s) (vfs_biglock_depth s).
Definition set_freemap (m : bitmap) s : sfs_fs D :=
  SfsFs (sfs_device s) (sfs_sb s) (sfs_superdirty s) m (sfs_freemapdirty s) (sfs_vnodes s)
    (sv_heap s) (vfs_biglock_depth s).
Definition set_freemapdirty (b : bool) s : sfs_fs D :=
  SfsFs (sfs_device s) (sfs_sb s) (sfs_superdirty s) (sfs_freemap s) b (sfs_vnodes s)
    (sv_heap s) (vfs_biglock_depth s).
Definition set_vnodes (l : list Z) s : sfs_fs D :=
  SfsFs (sfs_device s) (sfs_sb s) (sfs_superdirty s) (sfs_freemap s) (sfs_freemapdirty s) l
    (sv_heap s) (vfs_biglock_depth s).
Definition set_heap (h : gmap Z sfs_vnode) s : sfs_fs D :=
  SfsFs (sfs_device s) (sfs_sb s) (sfs_superdirty s) (sfs_freemap s) (sfs_freemapdirty s)
    (sfs_vnodes s) h (vfs_biglock_depth s).
Definition set_depth (n : Z) s : sfs_fs D :=
  SfsFs (sfs_device s) (sfs_sb s) (sfs_superdirty s) (sfs_freemap s) (sfs_freemapdirty s)
    (sfs_vnodes s) (sv_heap s) n.

(** ** The big lock *)

Definition vfs_biglock_do_i_hold : M (sfs_fs D) bool := lock_do_i_hold.

Definition vfs_biglock_acquire : M (sfs_fs D) unit :=
  hold <- lock_do_i_hold ;;
  s <- get ;;
  (if negb hold then lock_acquire
   else if vfs_biglock_depth s =? 0 then lock_acquire
   else ret tt) ;;
  put (set_depth (u32 (vfs_biglock_depth s + 1)) s).

Definition vfs_biglock_release : M (sfs_fs D) unit :=
  hold <- lock_do_i_hold ;;
  KASSERT hold ;;
  s <- get ;;
  KASSERT (0 <? vfs_biglock_depth s) ;;
  put (set_depth (vfs_biglock_depth s - 1) s) ;;
  if vfs_biglock_depth s - 1 =? 0 then lock_release else ret tt.

(** [assert_locked] is [KASSERT(vfs_biglock_do_i_hold())]. *)
Definition assert_locked : M (sfs_fs D) unit := hold <- vfs_biglock_do_i_hold ;; KASSERT hold.

(** ** Vnodes in the heap *)

Definition get_sv (sv : Z) : M (sfs_fs D) sfs_vnode := s <- get ;; oob (sv_heap s !! sv).
Definition put_sv (sv : Z) (x : sfs_vnode) : M (sfs_fs D) unit :=
  modify (fun s => set_heap (<[sv := x]> (sv_heap s)) s).

End setters.

(** Field updates of a vnode. *)
Definition set_dirty (b : bool) (x : sfs_vnode) : sfs_vnode :=
  SfsVnode (vn_refcount x) (vn_ops x) (sv_i x) (sv_ino x) b.
Definition set_refcount (n : Z) (x : sfs_vnode) : sfs_vnode :=
  SfsVnode n (vn_ops x) (sv_i x) (sv_ino x) (sv_dirty x).
Definition set_i (i : sfs_dinode) (x : sfs_vnode) : sfs_vnode :=
  SfsVnode (vn_refcount x) (vn_ops x) i (sv_ino x) (sv_dirty x).
Definition set_size (n : Z) (i : sfs_dinode) : sfs_dinode :=
  Dinode (u32 n) (sfi_type i) (sfi_linkcount i) (sfi_direct i) (sfi_indirect i) (sfi_waste i).
Definition set_type (n : Z) (i : sfs_dinode) : sfs_dinode :=
  Dinode (sfi_size i) (u16 n) (sfi_linkcount i) (sfi_direct i) (sfi_indirect i) (sfi_waste i).
Definition set_links (n : Z) (i : sfs_dinode) : sfs_dinode :=
  Dinode (sfi_size i) (sfi_type i) (u16 n) (sfi_direct i) (sfi_indirect i) (sfi_waste i).
Definition set_direct (k b : Z) (i : sfs_dinode) : sfs_dinode :=
  Dinode (sfi_size i) (sfi_type i) (sfi_linkcount i) (zinsert k b (sfi_direct i)) (sfi_indirect i)
    (sfi_waste i).
Definition set_indirect (b : Z) (i : sfs_dinode) : sfs_dinode :=
  Dinode (sfi_size i) (sfi_type i) (sfi_linkcount i) (sfi_direct i) b (sfi_waste i).

(** ** Block I/O *)

Section blocks.
Context {D : Type} `{!BlockDevice D} (curas : option Z).
Implicit Types s : sfs_fs D.

(** Operations on a uio and the volume. *)
Definition on_fs {A} (m : M (sfs_fs D) A) : M (uio * sfs_fs D) A :=
  zoom snd (fun s p => (fst p, s)) m.
Definition on_u {A} (m : M uio A) : M (uio * sfs_fs D) A :=
  zoom fst (fun u p => (u, snd p)) m.

(** [DEVOP_IO(sfs->sfs_device, uio)] *)
Definition DEVOP_IO : M (uio * sfs_fs D) unit :=
  zoom (fun p => (fst p, sfs_device (snd p)))
       (fun q p => (fst q, set_device (snd q) (snd p)))
       (devop_io curas).

(** The [retry:] label; [retries] is what is left of the ten retries. *)
Fixpoint rwblock_try (retries : nat) : M (uio * sfs_fs D) unit :=
  catch DEVOP_IO (fun result =>
    if result =? EINVAL then panic
    else if result =? EIO then
      match retries with
      | O => throw result
      | S retries' => rwblock_try retries'
      end
    else throw result).

Definition sfs_rwblock : M (uio * sfs_fs D) unit :=
  on_fs assert_locked ;;
  rwblock_try 10.

(** Run [m] with a uio of its own. *)
Definition with_uio {A} (u : uio) (m : M (uio * sfs_fs D) A) : M (sfs_fs D) (A * uio) := fun s =>
  match m (u, s) with
  | Ret a (u', s') => Ret (a, u') s'
  | Err e (_, s') => Err e s'
  | Panic => Panic
  | OutOfFuel => OutOfFuel
  end.

(** [SFSUIO(&iov, &ku, data, block, rw)] *)
Definition SFSUIO (data : list Z) (block : Z) (rw : uio_rw_t) : uio :=
  uio_kinit 0 (kmem data) SFS_BLOCKSIZE (block * SFS_BLOCKSIZE) rw.

(** [data] is the buffer handed in; its contents after the read come back. *)
Definition sfs_readblock (block : Z) (data : list Z) : M (sfs_fs D) (list Z) :=
  KASSERT (Z.of_nat (length data) =? SFS_BLOCKSIZE) ;;
  let* (_, ku) := with_uio (SFSUIO data block UIO_READ) sfs_rwblock in
  oob (load_all (uio_mem ku) (CopyInOut.block 0 SFS_BLOCKSIZE)).

Definition sfs_writeblock (block : Z) (data : list Z) : M (sfs_fs D) unit :=
  KASSERT (Z.of_nat (length data) =? SFS_BLOCKSIZE) ;;
  let* _ := with_uio (SFSUIO data block UIO_WRITE) sfs_rwblock in
  ret tt.

Definition zeros : list Z := replicate (Z.to_nat SFS_BLOCKSIZE) 0.

(** ** Block allocation *)

Definition on_freemap {A} (m : M bitmap A) : M (sfs_fs D) A := zoom sfs_freemap set_freemap m.

Definition sfs_clearblock (block : Z) : M (sfs_fs D) unit := sfs_writeblock block zeros.

Definition sfs_balloc : M (sfs_fs D) Z :=
  diskblock <- on_freemap bitmap_alloc ;;
  modify (set_freemapdirty true) ;;
  s <- get ;;
  (if nblocks s <=? diskblock then panic else ret tt) ;;
  catch (sfs_clearblock diskblock)
    (fun result => on_freemap (bitmap_unmark diskblock) ;; throw result) ;;
  ret diskblock.

Definition sfs_bfree (diskblock : Z) : M (sfs_fs D) unit :=
  on_freemap (bitmap_unmark diskblock) ;;
  modify (set_freemapdirty true).

Definition sfs_bused (diskblock : Z) : M (sfs_fs D) Z :=
  s <- get ;;
  if nblocks s <=? diskblock then panic else on_freemap (bitmap_isset diskblock).

(** ** Specifications of block I/O *)

Definition dev_same (d d' : D) : Prop :=
  dev_ok d' /\ dev_blocks d' = dev_blocks d /\
  forall b, 0 <= b < dev_blocks d -> dev_sector d' b = dev_sector d b.

Definition dev_wrote (b : Z) (bytes : list Z) (d d' : D) : Prop :=
  dev_ok d' /\ dev_blocks d' = dev_blocks d /\ dev_sector d' b = bytes /\
  forall b', 0 <= b' < dev_blocks d -> b' <> b -> dev_sector d' b' = dev_sector d b'.

Lemma wp_with_uio {A} u (m : M (uio * sfs_fs D) A) (Q : A * uio -> sfs_fs D -> Prop) E s :
  wp m (fun a p => Q (a, fst p) (snd p)) (fun e p => E e (snd p)) (u, s) ->
  wp (with_uio u m) Q E s.
Proof. unfold wp, with_uio. by destruct (m (u, s)) as [? [??]|? [??]| |]. Qed.

Lemma wp_on_fs {A} (m : M (sfs_fs D) A) (Q : A -> uio * sfs_fs D -> Prop) E u s :
  wp m (fun a s' => Q a (u, s')) (fun e s' => E e (u, s')) s -> wp (on_fs m) Q E (u, s).
Proof. intros H. unfold on_fs. by apply wp_zoom. Qed.

Lemma wp_on_u {A} (m : M uio A) (Q : A -> uio * sfs_fs D -> Prop) E u s :
  wp m (fun a u' => Q a (u', s)) (fun e u' => E e (u', s)) u -> wp (on_u m) Q E (u, s).
Proof. intros H. unfold on_u. by apply wp_zoom. Qed.

Lemma wp_assert_locked (Q : unit -> sfs_fs D -> Prop) E s : Q tt s -> wp assert_locked Q E s.
Proof. done. Qed.

Lemma wp_rwblock_read u s b (Q : unit -> uio * sfs_fs D -> Prop) E :
  dev_ok (sfs_device s) -> 0 <= b < dev_blocks (sfs_device s) -> sector_request curas u UIO_READ b ->
  (forall u' d', uio_wf curas u' -> sector_read u u' (dev_sector (sfs_device s) b) ->
     dev_same (sfs_device s) d' -> Q tt (u', set_device d' s)) ->
  wp sfs_rwblock Q E (u, s).
Proof.
  intros Hok Hb Hreq HQ. unfold sfs_rwblock. wp_step. apply wp_on_fs, wp_assert_locked.
  cbn [rwblock_try]. wp_step. unfold DEVOP_IO. apply wp_zoom.
  eapply wp_use; [by apply devop_read|]. cbn. intros [] [u' d'] (W & Hr & Hd).
  by apply HQ.
Qed.

Lemma wp_rwblock_write u s b (Q : unit -> uio * sfs_fs D -> Prop) E :
  dev_ok (sfs_device s) -> 0 <= b < dev_blocks (sfs_device s) -> sector_request curas u UIO_WRITE b ->
  (forall u' d' bytes, uio_wf curas u' -> sector_written u u' bytes ->
     dev_wrote b bytes (sfs_device s) d' -> Q tt (u', set_device d' s)) ->
  wp sfs_rwblock Q E (u, s).
Proof.
  intros Hok Hb Hreq HQ. unfold sfs_rwblock. wp_step. apply wp_on_fs, wp_assert_locked.
  cbn [rwblock_try]. wp_step. unfold DEVOP_IO. apply wp_zoom.
  eapply wp_use; [by apply devop_write|]. cbn. intros [] [u' d'] (W & Hr & Hok' & Hn & Hoth).
  eapply HQ; [done | done |]. by unfold dev_wrote.
Qed.

Lemma SFSUIO_request data b rw :
  Z.of_nat (length data) = SFS_BLOCKSIZE -> 0 <= b < 2 ^ 32 ->
  sector_request curas (SFSUIO data b rw) rw b.
Proof.
  intros Hl Hb. split; [|done]. unfold SFSUIO, SFS_BLOCKSIZE in *.
  apply uio_kinit_wf; [lia..|]. rewrite <- Hl. apply kmem_mapped.
Qed.

Lemma SFSUIO_addrs data b rw : uio_addrs (SFSUIO data b rw) = CopyInOut.block 0 SFS_BLOCKSIZE.
Proof. unfold uio_addrs. cbn. by rewrite app_nil_r. Qed.

Lemma SFSUIO_take data b rw :
  take (Z.to_nat SECTSIZE) (uio_addrs (SFSUIO data b rw)) = CopyInOut.block 0 SFS_BLOCKSIZE.
Proof. rewrite SFSUIO_addrs. apply take_ge. by rewrite block_length. Qed.

Lemma wp_readblock s b data (Q : list Z -> sfs_fs D -> Prop) E :
  dev_ok (sfs_device s) -> 0 <= b < dev_blocks (sfs_device s) -> b < 2 ^ 32 ->
  Z.of_nat (length data) = SFS_BLOCKSIZE ->
  (forall d', dev_same (sfs_device s) d' -> Q (dev_sector (sfs_device s) b) (set_device d' s)) ->
  wp (sfs_readblock b data) Q E s.
Proof.
  intros Hok Hb Hb32 Hl HQ. unfold sfs_readblock. wp_step. apply wp_kassert; [by apply Z.eqb_eq|].
  wp_step. apply wp_with_uio.
  eapply wp_rwblock_read; [done | done | apply SFSUIO_request; [done | lia]|].
  intros u' d' _ [_ Hm] Hd. rewrite SFSUIO_take in Hm.
  cbn [fst snd]. eapply wp_oob; [|by apply HQ].
  rewrite Hm. apply load_store_all; [apply block_NoDup|].
  by rewrite block_length, dev_sector_length.
Qed.

Lemma wp_writeblock s b data (Q : unit -> sfs_fs D -> Prop) E :
  dev_ok (sfs_device s) -> 0 <= b < dev_blocks (sfs_device s) -> b < 2 ^ 32 ->
  Z.of_nat (length data) = SFS_BLOCKSIZE ->
  (forall d', dev_wrote b data (sfs_device s) d' -> Q tt (set_device d' s)) ->
  wp (sfs_writeblock b data) Q E s.
Proof.
  intros Hok Hb Hb32 Hl HQ. unfold sfs_writeblock. wp_step. apply wp_kassert; [by apply Z.eqb_eq|].
  wp_step. apply wp_with_uio.
  eapply wp_rwblock_write; [done | done | apply SFSUIO_request; [done | lia]|].
  intros u' d' bytes _ (_ & _ & Hm) Hd. rewrite SFSUIO_take in Hm.
  cbn [fst snd]. wp_step. apply HQ. cbn in Hm. rewrite <- Hl, kmem_load in Hm.
  by injection Hm as <-.
Qed.

(** ** Specification of the allocator *)

(** The volume: a working device at least as large as the volume, a free map
    that covers it, the blocks past its end and the superblock marked. *)
Record volume_wf s : Prop := {
  vol_dev : dev_ok (sfs_device s);
  vol_map : bitmap_wf (sfs_freemap s);
  vol_size : 0 < nblocks s <= nbits (sfs_freemap s) /\ nblocks s <= dev_blocks (sfs_device s);
  vol_super : bit (sfs_freemap s) 0 = true;
  vol_tail : forall b, nblocks s <= b -> bit (sfs_freemap s) b = true
}.

Lemma volume_block_lt s b : volume_wf s -> b < nblocks s -> b < 2 ^ 32.
Proof. intros [_ Hm Hs _ _] Hb. pose proof (wf_nbits _ Hm). lia. Qed.

(** The state after [b] has been handed out: marked and cleared. *)
Definition allocated (b : Z) s s' : Prop :=
  0 < b < nblocks s /\ bit (sfs_freemap s) b = false /\
  exists d fm, s' = set_freemapdirty true (set_freemap fm (set_device d s)) /\
    dev_wrote b zeros (sfs_device s) d /\ bit_updated (sfs_freemap s) fm b true /\ bitmap_wf fm.

Lemma set_freemap_id s : set_freemap (sfs_freemap s) s = s.
Proof. by destruct s. Qed.

Lemma wp_sfs_balloc s :
  volume_wf s ->
  wp sfs_balloc (fun b s' => allocated b s s')
     (fun e s' => e = ENOSPC /\ s' = s /\ forall b, 0 <= b < nblocks s -> bit (sfs_freemap s) b = true) s.
Proof.
  intros W. unfold sfs_balloc, on_freemap. wp_step. wp_step.
  eapply wp_mono; [apply wp_bitmap_alloc, W | |].
  2:{ intros e fm (-> & -> & Hall). rewrite set_freemap_id. naive_solver lia. }
  intros b fm (Hb & Hfree & _ & Hu & Hwf'). wp_steps.
  assert (Hlt : b < nblocks s).
  { destruct (Z.lt_ge_cases b (nblocks s)) as [|Hge]; [done|].
    by rewrite (vol_tail s W b Hge) in Hfree. }
  assert (b <> 0) by (intros ->; rewrite (vol_super s W) in Hfree; done).
  change (nblocks (set_freemapdirty true (set_freemap fm s))) with (nblocks s).
  destruct (Z.leb_spec (nblocks s) b); [lia|]. wp_steps. unfold sfs_clearblock.
  apply wp_writeblock; [apply W | cbn | by eapply volume_block_lt | done |].
  { pose proof (vol_size s W). lia. }
  intros d' Hd. wp_steps. split; [lia|]. split; [done|]. by exists d', fm.
Qed.

Lemma allocated_wf b s s' : volume_wf s -> allocated b s s' -> volume_wf s'.
Proof.
  intros [W1 W2 W3 W4 W5] (Hb & Hf & d & fm & -> & (Hd1 & Hd2 & _ & _) & [Hn Hu] & Hwf).
  split; cbn; try done.
  - rewrite Hn, Hd2. apply W3.
  - rewrite Hu by lia. by rewrite W4; case_match.
  - intros x Hx. rewrite Hu by (unfold nblocks in *; cbn in Hx; lia).
    rewrite W5 by done. by case_match.
Qed.

Lemma wp_sfs_bused s b (Q : Z -> sfs_fs D -> Prop) E :
  volume_wf s -> 0 <= b < nblocks s ->
  (forall r, (r =? 0) = negb (bit (sfs_freemap s) b) -> Q r s) -> wp (sfs_bused b) Q E s.
Proof.
  intros W Hb HQ. unfold sfs_bused, on_freemap. wp_steps.
  destruct (Z.leb_spec (nblocks s) b); [lia|]. wp_steps.
  apply wp_bitmap_isset; [apply W | pose proof (vol_size s W); lia |].
  intros r Hr. rewrite set_freemap_id. by apply HQ.
Qed.

Lemma wp_sfs_bfree s b (Q : unit -> sfs_fs D -> Prop) E :
  bitmap_wf (sfs_freemap s) -> 0 <= b < nbits (sfs_freemap s) -> bit (sfs_freemap s) b = true ->
  (forall fm, bitmap_wf fm -> bit_updated (sfs_freemap s) fm b false ->
     Q tt (set_freemapdirty true (set_freemap fm s))) ->
  wp (sfs_bfree b) Q E s.
Proof.
  intros W Hb Hset HQ. unfold sfs_bfree, on_freemap. wp_steps.
  eapply wp_use; [by apply wp_bitmap_unmark|]. intros [] fm [Hwf Hu]. wp_steps. by apply HQ.
Qed.

End blocks.
