(* ===== verification/SfsBmap.v ===== *)
(** * SFS: block maps, [kern/fs/sfs/sfs_bmap.c]

    The map from the blocks of a file to the blocks of the disk: fifteen
    direct blocks in the inode and one indirect block of 128 more.  The
    abstract view of an inode is the list of its 143 block numbers
    ([fblocks]); [inode_wf] says that the blocks it owns are marked in the
    free map and occur once. *)

From S2P Require Import Prelude Bitmap CopyInOut Uio Device Synch SfsDisk SfsCore.

Section bmap.
Context {D : Type} `{!BlockDevice D} (curas : option Z).
Implicit Types s : sfs_fs D.

Definition update_sv (sv : Z) (f : sfs_vnode -> sfs_vnode) : M (sfs_fs D) unit :=
  x <- get_sv sv ;; put_sv sv (f x).

(** [sv->sv_i.<field> = ...; sv->sv_dirty = true;] *)
Definition update_inode (sv : Z) (f : sfs_dinode -> sfs_dinode) : M (sfs_fs D) unit :=
  update_sv sv (fun x => set_dirty true (set_i (f (sv_i x)) x)).

(** The check at both exits: a block handed back must be in use. *)
Definition hand_back (block : Z) : M (sfs_fs D) Z :=
  (if block =? 0 then ret tt
   else used <- sfs_bused block ;; if used =? 0 then panic else ret tt) ;;
  ret block.

Definition sfs_bmap (sv fileblock : Z) (doalloc : bool) : M (sfs_fs D) Z :=
  assert_locked ;;
  x <- get_sv sv ;;
  if fileblock <? SFS_NDIRECT then
    block <- oob (zlookup (sfi_direct (sv_i x)) fileblock) ;;
    block <- (if (block =? 0) && doalloc then
                block <- sfs_balloc curas ;;
                update_inode sv (set_direct fileblock block) ;;
                ret block
              else ret block) ;;
    hand_back block
  else
    let fileblock := u32 (fileblock - SFS_NDIRECT) in
    let idnum := fileblock / SFS_DBPERIDB in
    let idoff := fileblock mod SFS_DBPERIDB in
    if SFS_NINDIRECT <=? idnum then throw EFBIG
    else
      let idblock := sfi_indirect (sv_i x) in
      if (idblock =? 0) && negb doalloc then ret 0
      else
        let* (idblock, idbuf) :=
          (if idblock =? 0 then
             idblock <- sfs_balloc curas ;;
             update_inode sv (set_indirect idblock) ;;
             ret (idblock, replicate (Z.to_nat SFS_DBPERIDB) 0)
           else
             idbuf <- sfs_readblock curas idblock zeros ;;
             ret (idblock, words_of_bytes (Z.to_nat SFS_DBPERIDB) idbuf)) in
        block <- oob (zlookup idbuf idoff) ;;
        block <- (if (block =? 0) && doalloc then
                    block <- sfs_balloc curas ;;
                    sfs_writeblock curas idblock (bytes_of_words (zinsert idoff block idbuf)) ;;
                    ret block
                  else ret block) ;;
        hand_back block.

(** The loop over the direct blocks of [sfs_itrunc]. *)
Definition itrunc_direct (sv blocklen : Z) : M (sfs_fs D) unit :=
  for_each 0 (Z.to_nat SFS_NDIRECT) (fun i =>
    x <- get_sv sv ;;
    block <- oob (zlookup (sfi_direct (sv_i x)) i) ;;
    if (blocklen <=? i) && negb (block =? 0) then
      sfs_bfree block ;; update_inode sv (set_direct i 0)
    else ret tt).

(** The loop over the indirect block, with [idbuf], [iddirty] and
    [hasnonzero] as the local variables. *)
Fixpoint itrunc_indirect (n : nat) (j blocklen baseblock : Z) (idbuf : list Z)
    (iddirty hasnonzero : bool) : M (sfs_fs D) (list Z * bool * bool) :=
  match n with
  | O => ret (idbuf, iddirty, hasnonzero)
  | S n' =>
      e <- oob (zlookup idbuf j) ;;
      let* (idbuf, iddirty, e) :=
        (if (blocklen <? baseblock + j) && negb (e =? 0) then
           sfs_bfree e ;; ret (zinsert j 0 idbuf, true, 0)
         else ret (idbuf, iddirty, e)) in
      itrunc_indirect n' (j + 1) blocklen baseblock idbuf iddirty
        (if e =? 0 then hasnonzero else true)
  end.

(** The part about the indirect block. *)
Definition itrunc_mid (sv blocklen idblock : Z) : M (sfs_fs D) unit :=
  let baseblock := SFS_NDIRECT in
  let highblock := baseblock + SFS_DBPERIDB - 1 in
  if (blocklen <? highblock) && negb (idblock =? 0) then
    idbuf <- catch (sfs_readblock curas idblock zeros)
               (fun result => vfs_biglock_release ;; throw result) ;;
    let* (idbuf, iddirty, hasnonzero) :=
      itrunc_indirect (Z.to_nat SFS_DBPERIDB) 0 blocklen baseblock
        (words_of_bytes (Z.to_nat SFS_DBPERIDB) idbuf) false false in
    (if negb hasnonzero then
       sfs_bfree idblock ;; update_inode sv (set_indirect 0)
     else if iddirty then
       catch (sfs_writeblock curas idblock (bytes_of_words idbuf))
         (fun result => vfs_biglock_release ;; throw result)
     else ret tt)
  else ret tt.

Definition sfs_itrunc (sv len : Z) : M (sfs_fs D) unit :=
  let blocklen := u32 (Z.quot (i64 (len + SFS_BLOCKSIZE - 1)) SFS_BLOCKSIZE) in
  vfs_biglock_acquire ;;
  itrunc_direct sv blocklen ;;
  x <- get_sv sv ;;
  itrunc_mid sv blocklen (sfi_indirect (sv_i x)) ;;
  update_inode sv (set_size len) ;;
  vfs_biglock_release.

(** ** The abstract view of an inode *)

(** The words of the indirect block. *)
Definition idwords s (i : sfs_dinode) : list Z :=
  if sfi_indirect i =? 0 then replicate (Z.to_nat SFS_DBPERIDB) 0
  else words_of_bytes (Z.to_nat SFS_DBPERIDB) (dev_sector (sfs_device s) (sfi_indirect i)).

(** The disk blocks of the file, in order; 0 is a hole. *)
Definition fblocks s (i : sfs_dinode) : list Z := sfi_direct i ++ idwords s i.

Definition nonzero (b : Z) : Prop := b <> 0.

(** Every block the inode refers to. *)
Definition owned s (i : sfs_dinode) : list Z :=
  filter nonzero (sfi_indirect i :: fblocks s i).

Record inode_wf s (i : sfs_dinode) : Prop := {
  ino_direct : length (sfi_direct i) = Z.to_nat SFS_NDIRECT;
  ino_owned : Forall (fun b => 0 < b < nblocks s /\ bit (sfs_freemap s) b = true) (owned s i);
  ino_nodup : NoDup (owned s i);
  ino_size : 0 <= sfi_size i < 2 ^ 32
}.

(** What an operation on a file may do to the rest of the volume: a block
    that was in use and not in [mine] keeps its contents and stays in use. *)
Definition frame (mine : list Z) s s' : Prop :=
  dev_blocks (sfs_device s') = dev_blocks (sfs_device s) /\
  forall b, 0 <= b < nblocks s -> bit (sfs_freemap s) b = true -> b ∉ mine ->
    bit (sfs_freemap s') b = true /\ dev_sector (sfs_device s') b = dev_sector (sfs_device s) b.

(** The contents of the file, hole or not, over its whole block map. *)
Definition blk s (b : Z) : list Z := if b =? 0 then zeros else dev_sector (sfs_device s) b.
Definition fbytes s (i : sfs_dinode) : list Z := concat (map (blk s) (fblocks s i)).

Definition file_ok (sv : Z) (x : sfs_vnode) s : Prop :=
  sv_heap s !! sv = Some x /\ volume_wf s /\ inode_wf s (sv_i x).

Definition same_meta (i i' : sfs_dinode) : Prop :=
  sfi_type i' = sfi_type i /\ sfi_linkcount i' = sfi_linkcount i /\ sfi_waste i' = sfi_waste i.

(** An operation on the file [sv] that took the volume from [s] to [s']. *)
Record file_rel (sv : Z) (x : sfs_vnode) s (x' : sfs_vnode) s' : Prop := {
  fr_heap : sv_heap s' = <[sv := x']> (sv_heap s);
  fr_vnode : vn_refcount x' = vn_refcount x /\ vn_ops x' = vn_ops x /\ sv_ino x' = sv_ino x;
  fr_meta : same_meta (sv_i x) (sv_i x');
  fr_dirty : sv_i x' = sv_i x /\ sv_dirty x' = sv_dirty x \/ sv_dirty x' = true;
  fr_fs : sfs_sb s' = sfs_sb s /\ sfs_superdirty s' = sfs_superdirty s /\
          sfs_vnodes s' = sfs_vnodes s /\ vfs_biglock_depth s' = vfs_biglock_depth s;
  fr_frame : frame (owned s (sv_i x)) s s';
  fr_fresh : forall c, c ∈ owned s' (sv_i x') ->
    c ∈ owned s (sv_i x) \/ bit (sfs_freemap s) c = false
}.

Lemma file_rel_refl sv x s : sv_heap s !! sv = Some x -> file_rel sv x s x s.
Proof.
  intros H. split; try done; auto. by rewrite insert_id.
Qed.

Lemma file_rel_trans sv x1 s1 x2 s2 x3 s3 :
  file_rel sv x1 s1 x2 s2 -> inode_wf s2 (sv_i x2) -> inode_wf s3 (sv_i x3) ->
  file_rel sv x2 s2 x3 s3 -> file_rel sv x1 s1 x3 s3.
Proof.
  intros [H1 V1 M1 D1 F1 [B1 R1] N1] I2 I3 [H2 V2 M2 D2 F2 [B2 R2] N2].
  assert (Hn : nblocks s2 = nblocks s1 /\ nblocks s3 = nblocks s1).
  { unfold nblocks. destruct F1 as [E1 _], F2 as [E2 _]. by rewrite E2, E1. }
  split.
  - by rewrite H2, H1, insert_insert_eq.
  - naive_solver congruence.
  - unfold same_meta in *. naive_solver congruence.
  - destruct D1 as [[E1 E2]|E1], D2 as [[E3 E4]|E3]; auto; [left|right]; split_and?; congruence.
  - naive_solver congruence.
  - split; [congruence|]. intros b Hb Hu Hm.
    destruct (R1 b Hb Hu Hm) as [Hu2 E2]. destruct Hn as [Hn _].
    destruct (R2 b ltac:(lia) Hu2) as [Hu3 E3]; [|by split; [|congruence]].
    intros [Hin|Hin]%N1; [done | congruence].
  - intros c Hc. destruct (N2 c Hc) as [Hin|Hfree]; [by apply N1|].
    pose proof (ino_owned _ _ I3) as O3. rewrite Forall_forall in O3. destruct (O3 c Hc) as [Hr _].
    destruct (decide (c ∈ owned s1 (sv_i x1))); [by left|]. right.
    destruct (bit (sfs_freemap s1) c) eqn:Hb; [|done].
    destruct (R1 c ltac:(lia) Hb) as [Hb2 _]; [done | congruence].
Qed.

(** ** Adding and removing a block *)

Lemma filter_set_perm (l : list Z) n b :
  l !! n = Some 0 -> b <> 0 -> filter nonzero (<[n := b]> l) ≡ₚ b :: filter nonzero l.
Proof.
  intros Hn Hb. pose proof (lookup_lt_Some _ _ _ Hn) as Hlt.
  rewrite insert_take_drop by done. rewrite <- (take_drop_middle l n 0 Hn) at 3.
  rewrite !filter_app, filter_cons_True by done.
  rewrite (filter_cons_False _ 0) by (unfold nonzero; lia).
  symmetry. apply Permutation_middle.
Qed.

Lemma filter_clear_perm (l : list Z) n b :
  l !! n = Some b -> b <> 0 -> filter nonzero l ≡ₚ b :: filter nonzero (<[n := 0]> l).
Proof.
  intros Hn Hb. pose proof (lookup_lt_Some _ _ _ Hn) as Hlt.
  rewrite <- (filter_set_perm (<[n:=0]> l) n b); [|by apply list_lookup_insert_eq | done].
  by rewrite list_insert_insert_eq, list_insert_id.
Qed.

(** The block numbers of an inode: the indirect block, then the file's. *)
Definition refs s (i : sfs_dinode) : list Z := sfi_indirect i :: fblocks s i.

Lemma owned_refs s i : owned s i = filter nonzero (refs s i).
Proof. done. Qed.

Lemma owned_elem s i b : b ∈ owned s i <-> b <> 0 /\ b ∈ refs s i.
Proof. rewrite owned_refs, list_elem_of_filter. done. Qed.

Lemma inode_wf_grow s s' i i' n b :
  inode_wf s i -> 0 < b < nblocks s -> bit (sfs_freemap s) b = false ->
  refs s i !! n = Some 0 -> refs s' i' = <[n := b]> (refs s i) ->
  nblocks s' = nblocks s -> bit (sfs_freemap s') b = true ->
  (forall c, 0 <= c -> bit (sfs_freemap s) c = true -> bit (sfs_freemap s') c = true) ->
  length (sfi_direct i') = length (sfi_direct i) -> sfi_size i' = sfi_size i ->
  inode_wf s' i' /\ forall c, c ∈ owned s' i' -> c ∈ owned s i \/ bit (sfs_freemap s) c = false.
Proof.
  intros [I1 I2 I3 I4] Hb Hfree Hn Hrefs Hnb Hset Hmono Hlen Hsz.
  assert (P : owned s' i' ≡ₚ b :: owned s i).
  { rewrite !owned_refs, Hrefs. apply filter_set_perm; [done | lia]. }
  split; [split|].
  - congruence.
  - rewrite P. constructor; [rewrite Hnb; auto with lia|].
    eapply Forall_impl; [done|]. cbn. intros c [Hc Hu]. rewrite Hnb. auto with lia.
  - rewrite P. constructor; [|done]. intros Hin.
    rewrite Forall_forall in I2. destruct (I2 b Hin) as [_ E]. congruence.
  - by rewrite Hsz.
  - intros c. rewrite P, elem_of_cons. intros [->|]; auto.
Qed.

(** Contents depend on the sectors of the owned blocks only. *)
Lemma fblocks_ext s s' i :
  (sfi_indirect i <> 0 ->
   dev_sector (sfs_device s') (sfi_indirect i) = dev_sector (sfs_device s) (sfi_indirect i)) ->
  fblocks s' i = fblocks s i.
Proof.
  intros H. unfold fblocks, idwords. destruct (Z.eqb_spec (sfi_indirect i) 0); [done|].
  by rewrite H.
Qed.

Lemma map_blk_ext s s' l :
  (forall b, b ∈ l -> b <> 0 -> dev_sector (sfs_device s') b = dev_sector (sfs_device s) b) ->
  map (blk s') l = map (blk s) l.
Proof.
  intros H. apply map_ext_in. intros b Hb%list_elem_of_In. unfold blk.
  destruct (Z.eqb_spec b 0); [done|]. auto.
Qed.

Lemma map_blk_insert s s' l n b :
  l !! n = Some 0 -> b <> 0 -> dev_sector (sfs_device s') b = zeros ->
  (forall c, c ∈ l -> c <> 0 -> dev_sector (sfs_device s') c = dev_sector (sfs_device s) c) ->
  map (blk s') (<[n := b]> l) = map (blk s) l.
Proof.
  intros Hn Hb Hz H. rewrite <- (map_blk_ext s s' l H).
  change (blk s' <$> <[n := b]> l = blk s' <$> l). rewrite list_fmap_insert.
  apply list_insert_id. rewrite list_lookup_fmap, Hn. cbn. unfold blk.
  destruct (Z.eqb_spec b 0); [done|]. by rewrite Hz.
Qed.

Lemma owned_block s i b :
  inode_wf s i -> b ∈ fblocks s i -> b <> 0 ->
  b ∈ owned s i /\ 0 < b < nblocks s /\ bit (sfs_freemap s) b = true /\ b <> sfi_indirect i.
Proof.
  intros [_ I2 I3 _] Hin Hb.
  assert (Ho : b ∈ owned s i) by (rewrite owned_elem; split; [done|]; by right).
  rewrite Forall_forall in I2. destruct (I2 b Ho) as [Hr Hu]. split_and!; try done; try lia.
  intros ->. unfold owned in I3. rewrite filter_cons_True in I3 by done.
  apply NoDup_cons in I3 as [I3 _]. apply I3. by rewrite list_elem_of_filter.
Qed.

Lemma owned_indirect s i :
  inode_wf s i -> sfi_indirect i <> 0 ->
  sfi_indirect i ∈ owned s i /\ 0 < sfi_indirect i < nblocks s /\
  bit (sfs_freemap s) (sfi_indirect i) = true.
Proof.
  intros [_ I2 _ _] Hb.
  assert (Ho : sfi_indirect i ∈ owned s i) by (rewrite owned_elem; split; [done|]; by left).
  rewrite Forall_forall in I2. destruct (I2 _ Ho) as [Hr Hu]. done.
Qed.

(** The state [s2] reached from [s] by allocating [b] (state [s1]), entering
    it in the inode or in the indirect block. *)
Record entered (sv : Z) (x : sfs_vnode) s (b : Z) s1 (x' : sfs_vnode) s2 (n : nat) : Prop := {
  en_alloc : allocated b s s1;
  en_heap : sv_heap s2 = <[sv := x']> (sv_heap s);
  en_vnode : vn_refcount x' = vn_refcount x /\ vn_ops x' = vn_ops x /\ sv_ino x' = sv_ino x;
  en_meta : same_meta (sv_i x) (sv_i x') /\ sfi_size (sv_i x') = sfi_size (sv_i x) /\
            length (sfi_direct (sv_i x')) = length (sfi_direct (sv_i x));
  en_dirty : sv_dirty x' = true \/ x' = x;
  en_fs : sfs_sb s2 = sfs_sb s1 /\ sfs_superdirty s2 = sfs_superdirty s1 /\
          sfs_vnodes s2 = sfs_vnodes s1 /\ vfs_biglock_depth s2 = vfs_biglock_depth s1 /\
          sfs_freemap s2 = sfs_freemap s1;
  en_dev : dev_ok (sfs_device s2) /\ dev_blocks (sfs_device s2) = dev_blocks (sfs_device s1) /\
    forall c, 0 <= c < dev_blocks (sfs_device s1) -> c <> sfi_indirect (sv_i x) \/ c = 0 ->
      dev_sector (sfs_device s2) c = dev_sector (sfs_device s1) c;
  en_old : refs s (sv_i x) !! n = Some 0;
  en_new : refs s2 (sv_i x') = <[n := b]> (refs s (sv_i x))
}.

Lemma volume_wf_ext s s' :
  volume_wf s -> sfs_sb s' = sfs_sb s -> sfs_freemap s' = sfs_freemap s ->
  dev_ok (sfs_device s') -> dev_blocks (sfs_device s') = dev_blocks (sfs_device s) -> volume_wf s'.
Proof.
  intros [W1 W2 W3 W4 W5] Hsb Hfm Hok Hdb. unfold nblocks in *.
  split; unfold nblocks; rewrite ?Hsb, ?Hfm, ?Hdb; done.
Qed.

Lemma entered_ok sv x s b s1 x' s2 n :
  file_ok sv x s -> entered sv x s b s1 x' s2 n ->
  file_ok sv x' s2 /\ file_rel sv x s x' s2 /\ fbytes s2 (sv_i x') = fbytes s (sv_i x) /\
  sfi_size (sv_i x') = sfi_size (sv_i x).
Proof.
  intros (Hx & W & I) [A Hh Hv (Hm & Hsz & Hln) Hd Hf (Hok & Hdb & Hsec) Hold Hnew].
  pose proof (allocated_wf b s s1 W A) as W1.
  destruct A as (Hb & Hfree & d & fm & -> & (Hd1 & Hd2 & Hd3 & Hd4) & [Hn Hu] & Hwf).
  cbn in Hf, Hdb, Hsec. destruct Hf as (F1 & F2 & F3 & F4 & F5).
  assert (W2 : volume_wf s2) by (eapply volume_wf_ext; [exact W1 | done..]).
  assert (Hnb : nblocks s2 = nblocks s) by (unfold nblocks; by rewrite F1).
  pose proof (vol_size s W) as Vs.
  assert (Hmono : forall c, 0 <= c -> bit (sfs_freemap s) c = true -> bit (sfs_freemap s2) c = true).
  { intros c Hc Hbit. rewrite F5, Hu by done. by rewrite Hbit; case_match. }
  destruct (inode_wf_grow s s2 (sv_i x) (sv_i x') n b) as [I2 Hfresh]; try done.
  { rewrite F5, Hu by lia. by rewrite Z.eqb_refl. }
  (* a used block other than the indirect one keeps its contents *)
  assert (Keep : forall c, 0 <= c < nblocks s -> bit (sfs_freemap s) c = true ->
    c <> sfi_indirect (sv_i x) \/ c = 0 ->
    dev_sector (sfs_device s2) c = dev_sector (sfs_device s) c).
  { intros c Hc Hbit Hne. rewrite Hsec by (rewrite ?Hd2; lia || done).
    apply Hd4; [lia|]. intros ->. congruence. }
  assert (KeepF : forall c, c ∈ fblocks s (sv_i x) -> c <> 0 ->
    dev_sector (sfs_device s2) c = dev_sector (sfs_device s) c).
  { intros c Hc Hne. destruct (owned_block s _ c I Hc Hne) as (_ & Hr & Hbit & Hi).
    apply Keep; auto with lia. }
  split; [|split; [split|split]].
  - split; [by rewrite Hh, lookup_insert_eq|]. done.
  - done.
  - done.
  - done.
  - destruct Hd as [Hd| ->]; auto.
  - done.
  - split; [cbn in *; congruence|]. intros c Hc Hbit Hmine. split; [apply Hmono; auto with lia|].
    apply Keep; [done..|].
    destruct (Z.eq_dec (sfi_indirect (sv_i x)) 0) as [E|E]; [rewrite E; lia|].
    left. intros ->. apply Hmine. by apply owned_indirect.
  - done.
  - unfold fbytes. f_equal. destruct n as [|n].
    + injection Hnew as _ Hnew. rewrite Hnew. by apply map_blk_ext.
    + cbn in Hold. injection Hnew as _ Hnew. rewrite Hnew.
      apply map_blk_insert; [done | lia | | done].
      rewrite Hsec; [done | rewrite Hd2; lia |].
      destruct (Z.eq_dec b (sfi_indirect (sv_i x))) as [E|]; [|by left]. exfalso.
      destruct (owned_indirect s (sv_i x) I ltac:(lia)) as (_ & _ & E2). congruence.
  - done.
Qed.

(** ** [sfs_bmap] *)

(** The volume changed, the file did not. *)
Definition file_kept (sv : Z) (x : sfs_vnode) s (x' : sfs_vnode) s' : Prop :=
  file_ok sv x' s' /\ file_rel sv x s x' s' /\ fbytes s' (sv_i x') = fbytes s (sv_i x) /\
  sfi_size (sv_i x') = sfi_size (sv_i x).

Lemma file_kept_refl sv x s : file_ok sv x s -> file_kept sv x s x s.
Proof. intros H. split; [done|]. split; [|done]. by apply file_rel_refl, H. Qed.

Lemma file_kept_trans sv x1 s1 x2 s2 x3 s3 :
  file_kept sv x1 s1 x2 s2 -> file_kept sv x2 s2 x3 s3 -> file_kept sv x1 s1 x3 s3.
Proof.
  intros (O2 & R1 & B1 & S1) (O3 & R2 & B2 & S2). split; [done|].
  split; [|split; congruence]. eapply file_rel_trans; [done | apply O2 | apply O3 | done].
Qed.

Lemma file_kept_same sv x s d' :
  file_ok sv x s -> dev_same (sfs_device s) d' ->
  file_kept sv x s x (set_device d' s) /\ fblocks (set_device d' s) (sv_i x) = fblocks s (sv_i x).
Proof.
  intros (Hx & W & I) (Hok & Hdb & Hsec). pose proof (vol_size s W) as Vs.
  assert (Ef : fblocks (set_device d' s) (sv_i x) = fblocks s (sv_i x)).
  { apply fblocks_ext. intros Hne. apply Hsec. destruct (owned_indirect _ _ I Hne). lia. }
  assert (Eo : owned (set_device d' s) (sv_i x) = owned s (sv_i x)) by (unfold owned; by rewrite Ef).
  split; [|done]. split; [|split; [split|split; [|done]]].
  - split; [done|]. split; [by eapply volume_wf_ext|]. destruct I as [I1 I2 I3 I4].
    split; rewrite ?Eo; done.
  - by rewrite insert_id.
  - done.
  - done.
  - by left.
  - done.
  - split; [done|]. intros b Hb Hu _. split; [done|]. apply Hsec. lia.
  - rewrite Eo. auto.
  - unfold fbytes. rewrite Ef. f_equal. apply map_blk_ext. intros b Hb Hne. apply Hsec.
    destruct (owned_block _ _ _ I Hb Hne). lia.
Qed.

Lemma wp_get_sv sv x s (Q : sfs_vnode -> sfs_fs D -> Prop) E :
  sv_heap s !! sv = Some x -> Q x s -> wp (get_sv sv) Q E s.
Proof. intros H HQ. unfold get_sv. wp_steps. by eapply wp_oob. Qed.

Lemma wp_update_inode sv f x s (Q : unit -> sfs_fs D -> Prop) E :
  sv_heap s !! sv = Some x ->
  Q tt (set_heap (<[sv := set_dirty true (set_i (f (sv_i x)) x)]> (sv_heap s)) s) ->
  wp (update_inode sv f) Q E s.
Proof.
  intros H HQ. unfold update_inode, update_sv, put_sv. wp_step. eapply wp_get_sv; [done|]. by wp_steps.
Qed.

Lemma wp_hand_back b s (Q : Z -> sfs_fs D -> Prop) E :
  volume_wf s -> b = 0 \/ 0 < b < nblocks s /\ bit (sfs_freemap s) b = true ->
  Q b s -> wp (hand_back b) Q E s.
Proof.
  intros W Hb HQ. unfold hand_back. destruct (Z.eqb_spec b 0); [by wp_steps|].
  destruct Hb as [|[Hr Hu]]; [done|]. wp_step. wp_step. apply wp_sfs_bused; [done | lia |].
  intros r Hr0. rewrite Hr0, Hu. by wp_steps.
Qed.

Lemma idwords_length s i : length (idwords s i) = Z.to_nat SFS_DBPERIDB.
Proof. unfold idwords. case_match; [apply length_replicate | apply words_of_bytes_length]. Qed.

Lemma fblocks_length s i : inode_wf s i -> length (fblocks s i) = 143%nat.
Proof. intros I. unfold fblocks. rewrite length_app, (ino_direct _ _ I), idwords_length. done. Qed.

Lemma fblocks_ok s i b : inode_wf s i -> volume_wf s -> b ∈ fblocks s i ->
  b = 0 \/ 0 < b < nblocks s /\ bit (sfs_freemap s) b = true.
Proof.
  intros I W Hb. destruct (Z.eq_dec b 0) as [|Hne]; [by left|]. right.
  by destruct (owned_block _ _ _ I Hb Hne) as (_ & ? & ? & _).
Qed.

Lemma idwords_ok s i : inode_wf s i -> volume_wf s -> Forall word_ok (idwords s i).
Proof.
  intros I W. rewrite Forall_forall. intros b Hb. unfold word_ok.
  destruct (fblocks_ok s i b I W) as [->|[Hr _]]; [unfold fblocks; rewrite elem_of_app; by right | lia |].
  pose proof (volume_block_lt s b W). lia.
Qed.

Lemma allocated_heap b s s1 : allocated b s s1 -> sv_heap s1 = sv_heap s.
Proof. intros (_ & _ & d & fm & -> & _). done. Qed.

Lemma fblocks_direct s i k :
  inode_wf s i -> 0 <= k < SFS_NDIRECT -> zlookup (sfi_direct i) k = fblocks s i !! Z.to_nat k.
Proof.
  intros I Hk. unfold zlookup, fblocks. destruct (Z.leb_spec 0 k); [|lia].
  rewrite lookup_app_l; [done|]. rewrite (ino_direct _ _ I). unfold SFS_NDIRECT in *. lia.
Qed.

Lemma fblocks_idword s i k :
  inode_wf s i -> SFS_NDIRECT <= k ->
  zlookup (idwords s i) (k - SFS_NDIRECT) = fblocks s i !! Z.to_nat k.
Proof.
  intros I Hk. unfold zlookup, fblocks, SFS_NDIRECT in *. destruct (Z.leb_spec 0 (k - 15)); [|lia].
  rewrite lookup_app_r; rewrite (ino_direct _ _ I); unfold SFS_NDIRECT; [|lia]. f_equal. lia.
Qed.

(** Allocation of a direct block. *)
Lemma entered_direct sv x s b s1 k :
  file_ok sv x s -> allocated b s s1 -> 0 <= k < SFS_NDIRECT -> fblocks s (sv_i x) !! Z.to_nat k = Some 0 ->
  let x' := set_dirty true (set_i (set_direct k b (sv_i x)) x) in
  let s2 := set_heap (<[sv := x']> (sv_heap s1)) s1 in
  entered sv x s b s1 x' s2 (S (Z.to_nat k)) /\
  fblocks s2 (sv_i x') = <[Z.to_nat k := b]> (fblocks s (sv_i x)).
Proof.
  intros (Hx & W & I) A Hk Hz x' s2.
  assert (Hidw : idwords s1 (sv_i x) = idwords s (sv_i x)).
  { unfold idwords. destruct (Z.eqb_spec (sfi_indirect (sv_i x)) 0) as [|Hne]; [done|].
    destruct (owned_indirect _ _ I Hne) as (_ & Hr & Hu).
    destruct A as (Hb & Hfree & d & fm & -> & (_ & _ & _ & Hd4) & _). f_equal. apply Hd4.
    - pose proof (vol_size s W). lia.
    - intros E. rewrite E in Hu. congruence. }
  assert (Ef : fblocks s2 (sv_i x') = <[Z.to_nat k := b]> (fblocks s (sv_i x))).
  { unfold fblocks. rewrite insert_app_l.
    2:{ rewrite (ino_direct _ _ I). unfold SFS_NDIRECT in *. lia. }
    f_equal; [|exact Hidw]. cbn. unfold zinsert. by destruct (Z.leb_spec 0 k); [|lia]. }
  split; [|done]. split; try done.
  - cbn. by rewrite (allocated_heap _ _ _ A).
  - cbn. by rewrite zinsert_length.
  - by left.
  - destruct A as (_ & _ & d & fm & -> & (Hok & _) & _). done.
  - unfold refs. by rewrite Ef.
Qed.

(** Allocation of the indirect block. *)
Lemma entered_indirect sv x s b s1 :
  file_ok sv x s -> allocated b s s1 -> sfi_indirect (sv_i x) = 0 ->
  let x' := set_dirty true (set_i (set_indirect b (sv_i x)) x) in
  let s2 := set_heap (<[sv := x']> (sv_heap s1)) s1 in
  entered sv x s b s1 x' s2 0 /\ fblocks s2 (sv_i x') = fblocks s (sv_i x).
Proof.
  intros (Hx & W & I) A Hz x' s2.
  assert (Ef : fblocks s2 (sv_i x') = fblocks s (sv_i x)).
  { unfold fblocks. f_equal. unfold idwords. rewrite Hz, Z.eqb_refl. cbn.
    destruct A as (Hb & _ & d & fm & -> & (_ & _ & Hd & _) & _). cbn.
    destruct (Z.eqb_spec b 0); [lia|]. rewrite Hd. apply words_of_zeros. }
  split; [|done]. split; try done.
  - cbn. by rewrite (allocated_heap _ _ _ A).
  - by left.
  - destruct A as (_ & _ & d & fm & -> & (Hok & _) & _). done.
  - unfold refs. cbn. by rewrite Hz.
  - unfold refs. by rewrite Ef.
Qed.

(** Allocation of a block entered in the indirect block. *)
Lemma entered_idword sv x s b s1 k d2 :
  file_ok sv x s -> allocated b s s1 -> sfi_indirect (sv_i x) <> 0 -> SFS_NDIRECT <= k < 143 ->
  fblocks s (sv_i x) !! Z.to_nat k = Some 0 ->
  dev_wrote (sfi_indirect (sv_i x))
    (bytes_of_words (zinsert (k - SFS_NDIRECT) b (idwords s (sv_i x)))) (sfs_device s1) d2 ->
  entered sv x s b s1 x (set_device d2 s1) (S (Z.to_nat k)) /\
  fblocks (set_device d2 s1) (sv_i x) = <[Z.to_nat k := b]> (fblocks s (sv_i x)).
Proof.
  intros (Hx & W & I) A Hne Hk Hz (Hok & Hdb & Hsec & Hoth).
  assert (Hbw : word_ok b).
  { destruct A as (Hb & _). unfold word_ok. pose proof (volume_block_lt s b W). lia. }
  assert (Ef : fblocks (set_device d2 s1) (sv_i x) = <[Z.to_nat k := b]> (fblocks s (sv_i x))).
  { unfold fblocks. rewrite insert_app_r_alt; rewrite (ino_direct _ _ I); unfold SFS_NDIRECT in *; [|lia].
    f_equal. unfold idwords at 1. destruct (Z.eqb_spec (sfi_indirect (sv_i x)) 0); [done|].
    cbn [sfs_device set_device]. rewrite Hsec.
    rewrite <- (idwords_length s (sv_i x)), <- (zinsert_length (k - 15) b).
    rewrite words_of_bytes_words by (apply Forall_zinsert; [by apply idwords_ok | done]).
    unfold zinsert. destruct (Z.leb_spec 0 (k - 15)); [|lia]. f_equal. lia. }
  split; [|done]. split; try done.
  - rewrite insert_id; [|done]. exact (allocated_heap _ _ _ A).
  - by right.
  - split; [done|]. split; [done|]. intros c Hc Hor. apply Hoth; [done|].
    destruct Hor as [|E]; [done|]. intros ->. done.
  - unfold refs. by rewrite Ef.
Qed.

(** The results of a block-map lookup that may allocate. *)
Definition bmap_done (sv k : Z) (x : sfs_vnode) s (b : Z) s' : Prop :=
  exists x', file_kept sv x s x' s' /\ 0 < b < nblocks s /\
    fblocks s' (sv_i x') = <[Z.to_nat k := b]> (fblocks s (sv_i x)).

Definition bmap_full (sv : Z) (x : sfs_vnode) s (e : Z) s' : Prop :=
  e = ENOSPC /\ exists x', file_kept sv x s x' s' /\ fblocks s' (sv_i x') = fblocks s (sv_i x).

Lemma wp_alloc sv x s (Q : Z -> sfs_fs D -> Prop) (E : Z -> sfs_fs D -> Prop) :
  file_ok sv x s ->
  (forall b s1, allocated b s s1 -> sv_heap s1 !! sv = Some x -> Q b s1) ->
  (forall e, e = ENOSPC -> E e s) -> wp (sfs_balloc curas) Q E s.
Proof.
  intros (Hx & W & _) HQ HE. eapply wp_mono; [by apply wp_sfs_balloc | |].
  - intros b s1 A. apply HQ; [done|]. by rewrite (allocated_heap _ _ _ A).
  - intros e s' (-> & -> & _). by apply HE.
Qed.

(** The tail of the indirect case: the entry of an inode that has its
    indirect block, with [idbuf] the words of it. *)
Lemma wp_bmap_idword sv x s k (Q : Z -> sfs_fs D -> Prop) (E : Z -> sfs_fs D -> Prop) :
  file_ok sv x s -> sfi_indirect (sv_i x) <> 0 -> SFS_NDIRECT <= k < 143 ->
  (forall b s', bmap_done sv k x s b s' -> Q b s') ->
  (forall e s', bmap_full sv x s e s' -> E e s') ->
  wp (block <- oob (zlookup (idwords s (sv_i x)) (k - SFS_NDIRECT)) ;;
      block <- (if (block =? 0) && true then
                  block <- sfs_balloc curas ;;
                  sfs_writeblock curas (sfi_indirect (sv_i x))
                    (bytes_of_words (zinsert (k - SFS_NDIRECT) block (idwords s (sv_i x)))) ;;
                  ret block
                else ret block) ;;
      hand_back block) Q E s.
Proof.
  intros F Hne Hk HQ HE. pose proof F as (Hx & W & I).
  destruct (lookup_lt_is_Some_2 (fblocks s (sv_i x)) (Z.to_nat k)) as [b0 Hb0].
  { rewrite fblocks_length by done. lia. }
  wp_step. eapply wp_oob; [rewrite (fblocks_idword s) by (done || lia); exact Hb0|].
  rewrite andb_true_r. destruct (Z.eqb_spec b0 0) as [->|Hb].
  - wp_step. wp_step. apply (wp_alloc sv x); [done | |].
    2:{ intros e ->. apply HE. split; [done|]. exists x. split; [by apply file_kept_refl | done]. }
    intros b s1 A Hx1. pose proof A as (Hb & Hfree & d & fm & E1 & (Hd1 & Hd2 & _) & _).
    pose proof (vol_size s W) as Vs. destruct (owned_indirect _ _ I Hne) as (_ & Hr & _).
    wp_step. apply wp_writeblock.
    + by rewrite E1.
    + rewrite E1. cbn. rewrite Hd2. lia.
    + eapply volume_block_lt; [done | lia].
    + rewrite bytes_of_words_length, zinsert_length, idwords_length. done.
    + intros d2 Hw. destruct (entered_idword sv x s b s1 k d2 F A Hne Hk Hb0 Hw) as [En Ef].
      destruct (entered_ok _ _ _ _ _ _ _ _ F En) as (F2 & R2 & B2 & S2).
      wp_steps. apply wp_hand_back; [apply F2 | |].
      { eapply fblocks_ok; [apply F2 | apply F2|]. rewrite Ef.
        eapply list_elem_of_lookup_2 with (Z.to_nat k). apply list_lookup_insert_eq.
        rewrite fblocks_length by done. lia. }
      apply HQ. exists x. split; [done|]. done.
  - wp_steps. apply wp_hand_back; [done | |].
    { eapply fblocks_ok; [done..|]. by eapply list_elem_of_lookup_2. }
    apply HQ. exists x. split; [by apply file_kept_refl|].
    destruct (fblocks_ok s (sv_i x) b0 I W) as [|[Hr _]]; [by eapply list_elem_of_lookup_2 | done|].
    split; [done|]. by rewrite list_insert_id.
Qed.

Lemma bmap_done_trans sv k x s x1 s1 b s' :
  file_kept sv x s x1 s1 -> fblocks s1 (sv_i x1) = fblocks s (sv_i x) ->
  bmap_done sv k x1 s1 b s' -> bmap_done sv k x s b s'.
Proof.
  intros K Ef (x' & K' & Hb & Ef'). exists x'. split; [by eapply file_kept_trans|].
  rewrite Ef', Ef. split; [|done]. destruct K as (_ & [_ _ _ _ [E _] _ _] & _).
  unfold nblocks in *. by rewrite E in Hb.
Qed.

Lemma bmap_full_trans sv x s x1 s1 e s' :
  file_kept sv x s x1 s1 -> fblocks s1 (sv_i x1) = fblocks s (sv_i x) ->
  bmap_full sv x1 s1 e s' -> bmap_full sv x s e s'.
Proof.
  intros K Ef (He & x' & K' & Ef'). split; [done|]. exists x'.
  split; [by eapply file_kept_trans | congruence].
Qed.

Lemma idnum_small k : SFS_NDIRECT <= k < 143 ->
  u32 (k - SFS_NDIRECT) = k - SFS_NDIRECT /\
  (SFS_NINDIRECT <=? (k - SFS_NDIRECT) / SFS_DBPERIDB) = false /\
  (k - SFS_NDIRECT) mod SFS_DBPERIDB = k - SFS_NDIRECT.
Proof.
  unfold SFS_NDIRECT, SFS_NINDIRECT, SFS_DBPERIDB. intros Hk. rewrite wrap_small by lia.
  rewrite Z.div_small, Z.mod_small by lia. done.
Qed.

Lemma wp_bmap_direct sv x s k :
  file_ok sv x s -> 0 <= k < SFS_NDIRECT ->
  wp (sfs_bmap sv k true) (bmap_done sv k x s) (bmap_full sv x s) s.
Proof.
  intros F Hk. pose proof F as (Hx & W & I). unfold sfs_bmap. wp_step. apply wp_assert_locked.
  wp_step. eapply wp_get_sv; [done|]. destruct (Z.ltb_spec k SFS_NDIRECT); [|lia].
  destruct (lookup_lt_is_Some_2 (fblocks s (sv_i x)) (Z.to_nat k)) as [b0 Hb0].
  { rewrite fblocks_length by done. unfold SFS_NDIRECT in *. lia. }
  wp_step. eapply wp_oob; [rewrite (fblocks_direct s) by (done || lia); exact Hb0|].
  rewrite andb_true_r. destruct (Z.eqb_spec b0 0) as [->|Hb].
  - wp_step. wp_step. apply (wp_alloc sv x); [done | |].
    2:{ intros e ->. split; [done|]. exists x. split; [by apply file_kept_refl | done]. }
    intros b s1 A Hx1. wp_step. eapply wp_update_inode; [done|].
    destruct (entered_direct sv x s b s1 k F A Hk Hb0) as [En Ef].
    destruct (entered_ok _ _ _ _ _ _ _ _ F En) as (F2 & R2 & B2 & S2).
    wp_steps. apply wp_hand_back; [apply F2 | |].
    { eapply fblocks_ok; [apply F2 | apply F2|]. rewrite Ef.
      eapply list_elem_of_lookup_2 with (Z.to_nat k). apply list_lookup_insert_eq.
      rewrite fblocks_length by done. unfold SFS_NDIRECT in *. lia. }
    eexists. split; [done|]. destruct A as (Hb & _). done.
  - wp_steps. apply wp_hand_back; [done | |].
    { eapply fblocks_ok; [done..|]. by eapply list_elem_of_lookup_2. }
    exists x. split; [by apply file_kept_refl|].
    destruct (fblocks_ok s (sv_i x) b0 I W) as [|[Hr _]]; [by eapply list_elem_of_lookup_2 | done|].
    split; [done|]. by rewrite list_insert_id.
Qed.

Lemma idwords_fblocks s i s' i' :
  fblocks s' i' = fblocks s i -> length (sfi_direct i') = length (sfi_direct i) ->
  idwords s' i' = idwords s i.
Proof. unfold fblocks. intros E H. by destruct (app_inj_1 _ _ _ _ H E). Qed.

Lemma wp_sfs_bmap_alloc sv x s k :
  file_ok sv x s -> 0 <= k < 143 ->
  wp (sfs_bmap sv k true) (bmap_done sv k x s) (bmap_full sv x s) s.
Proof.
  intros F Hk. destruct (Z.lt_ge_cases k SFS_NDIRECT) as [Hd|Hd]; [apply wp_bmap_direct; done || lia|].
  pose proof F as (Hx & W & I). unfold sfs_bmap. wp_step. apply wp_assert_locked.
  wp_step. eapply wp_get_sv; [done|]. destruct (Z.ltb_spec k SFS_NDIRECT); [lia|].
  destruct (idnum_small k ltac:(lia)) as (E1 & E2 & E3). cbv zeta. rewrite E1, E2, E3.
  rewrite andb_false_r. destruct (Z.eqb_spec (sfi_indirect (sv_i x)) 0) as [Hz|Hz].
  - wp_step. wp_step. apply (wp_alloc sv x); [done | |].
    2:{ intros e ->. split; [done|]. exists x. split; [by apply file_kept_refl | done]. }
    intros b s1 A Hx1. wp_step. eapply wp_update_inode; [done|]. apply wp_ret. cbv beta iota.
    destruct (entered_indirect sv x s b s1 F A Hz) as [En Ef].
    pose proof (entered_ok _ _ _ _ _ _ _ _ F En) as K.
    set (x2 := set_dirty true _) in *. set (s2 := set_heap _ _) in *.
    assert (Eid : replicate (Z.to_nat SFS_DBPERIDB) 0 = idwords s2 (sv_i x2)).
    { rewrite (idwords_fblocks _ _ _ _ Ef) by done. unfold idwords. by rewrite Hz. }
    rewrite Eid. change b with (sfi_indirect (sv_i x2)) at 1.
    apply (wp_bmap_idword sv); [apply K | destruct A; cbn; lia | lia | |].
    + intros b' s' Hd'. by eapply bmap_done_trans.
    + intros e s' Hd'. by eapply bmap_full_trans.
  - destruct (owned_indirect _ _ I Hz) as (_ & Hr & _). pose proof (vol_size s W) as Vs.
    wp_step. wp_step. apply wp_readblock; [apply W | lia | eapply volume_block_lt; [done | lia] | done |].
    intros d' Hsame. apply wp_ret. cbv beta iota.
    destruct (file_kept_same sv x s d' F Hsame) as [K Ef].
    assert (Eid : words_of_bytes (Z.to_nat SFS_DBPERIDB) (dev_sector (sfs_device s) (sfi_indirect (sv_i x)))
      = idwords (set_device d' s) (sv_i x)).
    { rewrite (idwords_fblocks _ _ _ _ Ef) by done. unfold idwords.
      by destruct (Z.eqb_spec (sfi_indirect (sv_i x)) 0). }
    rewrite Eid. apply (wp_bmap_idword sv); [apply K | done | lia | |].
    + intros b' s' Hd'. by eapply bmap_done_trans.
    + intros e s' Hd'. by eapply bmap_full_trans.
Qed.

(** Without allocation the lookup changes nothing. *)
Lemma wp_sfs_bmap_lookup sv x s k (Q : Z -> sfs_fs D -> Prop) E :
  file_ok sv x s -> 0 <= k < 143 ->
  (forall b d', dev_same (sfs_device s) d' -> fblocks s (sv_i x) !! Z.to_nat k = Some b ->
     Q b (set_device d' s)) ->
  wp (sfs_bmap sv k false) Q E s.
Proof.
  intros F Hk HQ. pose proof F as (Hx & W & I). unfold sfs_bmap. wp_step. apply wp_assert_locked.
  wp_step. eapply wp_get_sv; [done|].
  destruct (lookup_lt_is_Some_2 (fblocks s (sv_i x)) (Z.to_nat k)) as [b0 Hb0].
  { rewrite fblocks_length by done. lia. }
  assert (Hok : b0 = 0 \/ 0 < b0 < nblocks s /\ bit (sfs_freemap s) b0 = true).
  { eapply fblocks_ok; [done..|]. by eapply list_elem_of_lookup_2. }
  assert (Same : dev_same (sfs_device s) (sfs_device s)) by (split; [apply W | done]).
  assert (Eself : set_device (sfs_device s) s = s) by (by destruct s).
  destruct (Z.ltb_spec k SFS_NDIRECT) as [Hd|Hd].
  - wp_step. eapply wp_oob; [rewrite (fblocks_direct s) by (done || lia); exact Hb0|].
    rewrite andb_false_r. wp_steps. apply wp_hand_back; [done..|].
    specialize (HQ b0 _ Same Hb0). by rewrite Eself in HQ.
  - destruct (idnum_small k ltac:(lia)) as (E1 & E2 & E3). cbv zeta. rewrite E1, E2, E3.
    rewrite andb_true_r. destruct (Z.eqb_spec (sfi_indirect (sv_i x)) 0) as [Hz|Hz].
    + apply wp_ret. rewrite <- Eself. apply HQ; [done|]. rewrite <- fblocks_idword by done.
      unfold idwords. rewrite Hz, Z.eqb_refl. apply zlookup_replicate.
      unfold SFS_DBPERIDB, SFS_NDIRECT in *. lia.
    + destruct (owned_indirect _ _ I Hz) as (_ & Hr & _). pose proof (vol_size s W) as Vs.
      wp_step. wp_step. apply wp_readblock; [apply W | lia | eapply volume_block_lt; [done | lia] | done |].
      intros d' Hsame. apply wp_ret. cbv beta iota.
      wp_step. eapply wp_oob.
      { rewrite <- Hb0, <- fblocks_idword by done. unfold idwords.
        by destruct (Z.eqb_spec (sfi_indirect (sv_i x)) 0). }
      rewrite andb_false_r. wp_steps. apply wp_hand_back.
      * eapply file_kept_same; done.
      * done.
      * by apply HQ.
Qed.

(** Past the indirect block the file is too big. *)
Lemma sfs_bmap_efbig sv x s k doalloc :
  sv_heap s !! sv = Some x -> 143 <= k < 2 ^ 32 ->
  sfs_bmap sv k doalloc s = Err EFBIG s.
Proof.
  intros Hx Hk. unfold sfs_bmap, bind, assert_locked, get_sv, vfs_biglock_do_i_hold.
  cbn. unfold bind. cbn. unfold bind. cbn. rewrite Hx. cbn. unfold SFS_NDIRECT, SFS_DBPERIDB, SFS_NINDIRECT.
  destruct (Z.ltb_spec k 15); [lia|]. rewrite wrap_small by lia.
  destruct (Z.leb_spec 1 ((k - 15) / 128)); [done|].
  pose proof (Z.div_le_lower_bound (k - 15) 128 1). lia.
Qed.

(** C31: Looking up block [k] of a file with allocation, on a volume whose
    free map and inode are consistent and whose device works, never panics.
    It returns a block of the volume, entered in the file's map at position
    [k] with every other position unchanged; the contents of the file (a new
    block reads as the zeros of the hole it fills) and its size stay, the
    volume and the inode stay consistent, and no block used by anything else
    is touched.  The only error is [ENOSPC], which keeps the map as it was. *)
Theorem sfs_bmap_allocates sv x s k :
  file_ok sv x s -> 0 <= k < 143 ->
  match sfs_bmap sv k true s with
  | Ret b s' => bmap_done sv k x s b s'
  | Err e s' => bmap_full sv x s e s'
  | Panic | OutOfFuel => False
  end.
Proof. apply wp_sfs_bmap_alloc. Qed.

(** ** [sfs_itrunc] *)

(** The free map after the blocks in [P] have been released. *)
Definition released (P : Z -> Prop) (fm fm' : bitmap) : Prop :=
  bitmap_wf fm' /\ nbits fm' = nbits fm /\
  forall c, 0 <= c -> bit fm' c = true <-> bit fm c = true /\ ~ P c.

Lemma released_none (P : Z -> Prop) fm : bitmap_wf fm -> (forall c, ~ P c) -> released P fm fm.
Proof. intros W H. split; [done|]. split; [done|]. naive_solver. Qed.

Lemma released_step (P P' : Z -> Prop) fm fm1 fm2 b :
  released P fm fm1 -> bitmap_wf fm2 -> bit_updated fm1 fm2 b false ->
  (forall c, P' c <-> P c \/ c = b) -> released P' fm fm2.
Proof.
  intros (W1 & N1 & H1) W2 [N2 U] HP. split; [done|]. split; [congruence|]. intros c Hc.
  rewrite U, HP by done. destruct (Z.eqb_spec c b); [naive_solver|]. rewrite H1 by done. naive_solver.
Qed.

Lemma released_equiv (P P' : Z -> Prop) fm fm' :
  (forall c, P c <-> P' c) -> released P fm fm' -> released P' fm fm'.
Proof. intros H (W & N & R). split; [done|]. split; [done|]. intros c Hc. rewrite R, H; done. Qed.

(** [sfs_bfree] in the course of a truncation. *)
Lemma wp_bfree_released (P : Z -> Prop) s fm fmd b (Q : unit -> sfs_fs D -> Prop) E :
  released P (sfs_freemap s) fm -> 0 <= b < nbits (sfs_freemap s) ->
  bit (sfs_freemap s) b = true -> ~ P b ->
  (forall fm', released (fun c => P c \/ c = b) (sfs_freemap s) fm' ->
     Q tt (set_freemapdirty true (set_freemap fm' s))) ->
  wp (sfs_bfree b) Q E (set_freemapdirty fmd (set_freemap fm s)).
Proof.
  intros R Hb Hbit HP HQ. pose proof R as (W & N & RR). apply wp_sfs_bfree; [done | cbn; lia | |].
  { apply RR; [lia | done]. }
  intros fm' W' U. refine (HQ fm' _). by eapply released_step.
Qed.

(** Entries [lo .. hi - 1] of a block list, and the list with them cleared. *)
Definition between (l : list Z) (lo hi : Z) (c : Z) : Prop :=
  c <> 0 /\ exists i, lo <= i < hi /\ zlookup l i = Some c.

Definition cleared (l : list Z) (lo hi : Z) (l' : list Z) : Prop :=
  length l' = length l /\
  forall i, 0 <= i < Z.of_nat (length l) ->
    zlookup l' i = if (lo <=? i) && (i <? hi) then Some 0 else zlookup l i.

Lemma cleared_start l lo hi : hi <= lo \/ hi <= 0 -> cleared l lo hi l.
Proof. intros H. split; [done|]. intros i Hi. assert ((lo <=? i) && (i <? hi) = false) as -> by bsolve. done. Qed.

Lemma cleared_keep l lo j l' :
  cleared l lo j l' -> j < lo \/ zlookup l j = Some 0 -> cleared l lo (j + 1) l'.
Proof.
  intros [Hn H] Hj. split; [done|]. intros i Hi. rewrite H by done.
  destruct (Z.eq_dec i j) as [->|]; [|bsolve].
  destruct Hj as [Hj|Hj]; [bsolve|]. rewrite Hj. by repeat case_match.
Qed.

Lemma cleared_zero l lo j l' :
  cleared l lo j l' -> lo <= j -> cleared l lo (j + 1) (zinsert j 0 l').
Proof.
  intros [Hn H] Hj. split; [by rewrite zinsert_length|]. intros i Hi.
  destruct (Z.eq_dec i j) as [->|Hne].
  - rewrite zlookup_insert_eq by lia. bsolve.
  - rewrite zlookup_insert_ne, H by done. bsolve.
Qed.

Lemma cleared_at l lo j l' c :
  cleared l lo j l' -> zlookup l j = Some c -> zlookup l' j = Some c.
Proof.
  intros [Hn H] Hc. pose proof (zlookup_lt _ _ _ Hc). rewrite H by done. rewrite Hc. bsolve.
Qed.

Lemma between_next l lo j c : 
  between l lo (j + 1) c <-> between l lo j c \/ (c <> 0 /\ lo <= j /\ zlookup l j = Some c).
Proof.
  split.
  - intros (Hc & i & Hi & E). destruct (Z.eq_dec i j) as [->|].
    + right. split_and!; [done | lia | done].
    + left. split; [done|]. exists i. split; [lia | done].
  - intros [(Hc & i & Hi & E)|(Hc & Hj & E)]; (split; [done|]).
    + exists i. split; [lia | done].
    + exists j. split; [lia | done].
Qed.

(** An entry of a list without repetition is not among the earlier ones. *)
Lemma between_nodup l lo j c :
  NoDup (filter nonzero l) -> zlookup l j = Some c -> ~ between l lo j c.
Proof.
  intros Hn Hj (Hc & i & Hi & E). pose proof (zlookup_lt _ _ _ E) as Hi0.
  pose proof (zlookup_lt _ _ _ Hj) as Hj0.
  assert (L : forall a, 0 <= a -> zlookup l a = l !! Z.to_nat a)
    by (intros a Ha; unfold zlookup; by destruct (Z.leb_spec 0 a); [|lia]).
  rewrite L in Hj, E by lia. rewrite <- (take_drop_middle l (Z.to_nat j) c Hj) in Hn.
  rewrite filter_app, filter_cons_True in Hn by done.
  apply NoDup_app in Hn as (_ & Hn & _). apply (Hn c); [|by left].
  rewrite list_elem_of_filter. split; [done|]. apply list_elem_of_lookup_2 with (Z.to_nat i).
  rewrite lookup_take_lt by lia. done.
Qed.

End bmap.
