(* ===== verification/SfsTrunc.v ===== *)
(** * SFS: truncation, the theorems about [sfs_itrunc] of [kern/fs/sfs/sfs_bmap.c]

    [sfs_itrunc] releases the blocks past the new end of the file.  The
    theorem states exactly which: a direct block is kept when its index is
    below the new length in blocks, a block of the indirect block when its
    index is at most that length, one more than the new length needs. *)

From S2P Require Import Prelude Bitmap CopyInOut Uio Device Synch SfsDisk SfsCore SfsBmap.

Section trunc.
Context {D : Type} `{!BlockDevice D} (curas : option Z).
Implicit Types s : sfs_fs D.

Definition with_direct (l : list Z) (i : sfs_dinode) : sfs_dinode :=
  Dinode (sfi_size i) (sfi_type i) (sfi_linkcount i) l (sfi_indirect i) (sfi_waste i).

(** The vnode after the direct blocks have become [l]. *)
Definition cut_vnode (x : sfs_vnode) (d : bool) (l : list Z) : sfs_vnode :=
  set_dirty d (set_i (with_direct l (sv_i x)) x).

(** The volume in the course of a truncation of [sv]. *)
Definition cut_state (sv : Z) s (xj : sfs_vnode) (fmd : bool) (fm : bitmap) : sfs_fs D :=
  set_freemapdirty fmd (set_freemap fm (set_heap (<[sv := xj]> (sv_heap s)) s)).

Definition cut_inv (sv : Z) (x : sfs_vnode) s (bl j : Z) s' : Prop :=
  exists d l fmd fm, s' = cut_state sv s (cut_vnode x d l) fmd fm /\
    released (between (sfi_direct (sv_i x)) bl j) (sfs_freemap s) fm /\
    cleared (sfi_direct (sv_i x)) bl j l /\ (d = sv_dirty x /\ l = sfi_direct (sv_i x) \/ d = true).

Lemma owned_direct_nodup s i : inode_wf s i -> NoDup (filter nonzero (sfi_direct i)).
Proof.
  intros [_ _ H _]. unfold owned, fblocks in H. rewrite filter_cons in H.
  case_decide; [apply NoDup_cons in H as [_ H]|]; rewrite filter_app in H; by apply NoDup_app in H as [? _].
Qed.

Lemma owned_idwords_nodup s i : inode_wf s i -> NoDup (filter nonzero (idwords s i)).
Proof.
  intros [_ _ H _]. unfold owned, fblocks in H. rewrite filter_cons in H.
  case_decide; [apply NoDup_cons in H as [_ H]|]; rewrite filter_app in H;
    by apply NoDup_app in H as (_ & _ & ?).
Qed.

Lemma zlookup_elem {A} (l : list A) i a : zlookup l i = Some a -> a ∈ l.
Proof. unfold zlookup. case_match; [|done]. apply list_elem_of_lookup_2. Qed.

Lemma between_elem l lo hi c : between l lo hi c -> c <> 0 /\ c ∈ l.
Proof. intros (Hc & i & _ & E). split; [done|]. by eapply zlookup_elem. Qed.

Lemma wp_itrunc_direct sv x s bl :
  file_ok sv x s -> 0 <= bl ->
  wp (itrunc_direct sv bl) (fun _ => cut_inv sv x s bl SFS_NDIRECT) (fun _ _ => False) s.
Proof.
  intros (Hx & W & I) Hbl. unfold itrunc_direct.
  apply (wp_for_each (cut_inv sv x s bl)).
  - exists (sv_dirty x), (sfi_direct (sv_i x)), (sfs_freemapdirty s), (sfs_freemap s). split_and!.
    + unfold cut_state, cut_vnode, with_direct, set_dirty, set_i. cbn.
      destruct x as [? ? [] ? ?]. cbn. rewrite insert_id by done. by destruct s.
    + apply released_none; [apply W|]. intros c (_ & i & Hi & _). lia.
    + apply cleared_start. lia.
    + by left.
  - intros j s' Hj (d & l & fmd & fm & -> & R & C & Hd). change (Z.of_nat _) with 15 in Hj.
    destruct (zlookup_is_Some (sfi_direct (sv_i x)) j) as [c Hc].
    { rewrite (ino_direct _ _ I). unfold SFS_NDIRECT. lia. }
    wp_step. eapply wp_get_sv; [cbn; apply lookup_insert_eq|].
    wp_step. eapply wp_oob; [cbn; by eapply cleared_at|].
    destruct ((bl <=? j) && negb (c =? 0)) eqn:Ec.
    + assert (Hbj : bl <= j /\ c <> 0) by (zbool; cbn in Ec; auto; done). destruct Hbj as [Hbj Hc0].
      assert (Hin : c ∈ fblocks s (sv_i x)).
      { unfold fblocks. rewrite elem_of_app. left. by eapply zlookup_elem. }
      destruct (owned_block s _ c I Hin Hc0) as (_ & Hr & Hbit & _).
      wp_step. apply (wp_bfree_released (between (sfi_direct (sv_i x)) bl j)).
      * done.
      * pose proof (vol_size s W). cbn. lia.
      * done.
      * apply between_nodup; [by eapply owned_direct_nodup | done].
      * intros fm' R'. eapply wp_update_inode; [cbn; apply lookup_insert_eq|].
        exists true, (zinsert j 0 l), true, fm'. split_and!.
        -- unfold cut_state, set_heap, set_freemapdirty, set_freemap. cbn.
           by rewrite insert_insert_eq.
        -- eapply released_equiv; [|exact R']. intros e. rewrite between_next. cbn.
           split; intros [?|He]; auto; [subst; by right|]. right. destruct He as (_ & _ & He). congruence.
        -- by apply cleared_zero.
        -- by right.
    + apply wp_ret. exists d, l, fmd, fm. split_and!; try done.
      * eapply released_equiv; [|exact R]. intros e. rewrite between_next.
        split; [by auto|]. intros [?|(He & Hbj & Hl)]; [done|]. exfalso.
        rewrite Hc in Hl. injection Hl as ->. zbool; cbn in Ec; done || lia.
      * apply cleared_keep; [done|]. zbool; cbn in Ec; first [done | left; lia | right; congruence].
  - intros s' H. done.
Qed.

(** ** The indirect block *)

Definition has_nonzero (l : list Z) (j : Z) : Prop :=
  exists i c, 0 <= i < j /\ zlookup l i = Some c /\ c <> 0.

(** The local variables of the loop at index [j]; [w] are the words read. *)
Record id_inv (w : list Z) (lo j : Z) (idbuf : list Z) (iddirty nz : bool) : Prop := {
  id_cleared : cleared w lo j idbuf;
  id_dirty : iddirty = false -> idbuf = w;
  id_nonzero : nz = true <-> has_nonzero idbuf j
}.

Lemma has_nonzero_next l j e nz :
  (nz = true <-> has_nonzero l j) -> 0 <= j -> zlookup l j = Some e ->
  (if e =? 0 then nz else true) = true <-> has_nonzero l (j + 1).
Proof.
  intros H Hj He. destruct (Z.eqb_spec e 0) as [->|Hne].
  - rewrite H. split; intros (i & c & Hi & Hl & Hc); exists i, c; (split; [|done]); [lia|].
    destruct (Z.eq_dec i j) as [->|]; [congruence | lia].
  - split; [|done]. intros _. exists j, e. split; [lia | done].
Qed.

Lemma has_nonzero_insert l j : has_nonzero (zinsert j 0 l) j <-> has_nonzero l j.
Proof.
  split; intros (i & c & Hi & Hl & Hc); exists i, c; (split; [done|]).
  - by rewrite zlookup_insert_ne in Hl by lia.
  - by rewrite zlookup_insert_ne by lia.
Qed.

Lemma wp_itrunc_indirect (P : Z -> Prop) w s bl n j idbuf iddirty nz fmd fm :
  0 <= j -> length w = (Z.to_nat j + n)%nat -> NoDup (filter nonzero w) ->
  (forall c, c ∈ w -> c <> 0 ->
     0 <= c < nbits (sfs_freemap s) /\ bit (sfs_freemap s) c = true /\ ~ P c) ->
  released (fun c => P c \/ between w (bl - 14) j c) (sfs_freemap s) fm ->
  id_inv w (bl - 14) j idbuf iddirty nz ->
  wp (itrunc_indirect n j bl SFS_NDIRECT idbuf iddirty nz)
     (fun '(idbuf', iddirty', nz') s' => exists fmd fm,
        s' = set_freemapdirty fmd (set_freemap fm s) /\
        released (fun c => P c \/ between w (bl - 14) (Z.of_nat (length w)) c) (sfs_freemap s) fm /\
        id_inv w (bl - 14) (Z.of_nat (length w)) idbuf' iddirty' nz')
     (fun _ _ => False) (set_freemapdirty fmd (set_freemap fm s)).
Proof.
  intros Hj Hlen Hnd Hw. revert j idbuf iddirty nz fmd fm Hj Hlen.
  induction n as [|n IH]; intros j idbuf iddirty nz fmd fm Hj Hlen R [C Dt N]; cbn [itrunc_indirect].
  { apply wp_ret. exists fmd, fm. replace (Z.of_nat (length w)) with j by lia. done. }
  destruct (zlookup_is_Some w j) as [e He]; [lia|].
  pose proof (cleared_at _ _ _ _ _ C He) as He'.
  wp_step. eapply wp_oob; [done|]. unfold SFS_NDIRECT at 1.
  destruct ((bl <? 15 + j) && negb (e =? 0)) eqn:Ec.
  - assert (Hc : bl - 14 <= j /\ e <> 0) by (zbool; cbn in Ec; done || lia). destruct Hc as [Hlo Hne].
    destruct (Hw e) as (Hr & Hb & HP); [by eapply zlookup_elem | done |].
    wp_step. wp_step. eapply (wp_bfree_released _ _ _ _ e); [exact R | done | done | |].
    { intros [?|Hbt]; [done|]. by eapply between_nodup in Hbt. }
    intros fm' R'. apply wp_ret. cbv beta iota. apply IH; [lia | lia | |].
    + eapply released_equiv; [|exact R']. intros c. cbn. rewrite between_next.
      split; [intros [[?|?]| -> ]; auto 6|]. intros [?|[?|(_ & _ & E)]]; auto. right. congruence.
    + split; [by apply cleared_zero | done |].
      apply (has_nonzero_next _ _ 0); [by rewrite has_nonzero_insert | lia |].
      apply zlookup_insert_eq. destruct C as [-> _]. by eapply zlookup_lt.
  - wp_step. apply wp_ret. apply IH; [lia | lia | |].
    + eapply released_equiv; [|exact R]. intros c. cbn. rewrite between_next.
      split; [intros [?|?]; auto|]. intros [?|[?|(Hc & Hlo & E)]]; auto. exfalso.
      rewrite He in E. injection E as ->. zbool; cbn in Ec; done || lia.
    + split; [apply cleared_keep; [done|] | done | by eapply has_nonzero_next].
      zbool; cbn in Ec; first [done | left; lia | right; congruence].
Qed.

(** ** The inode after the truncation *)

(** Which blocks of the file survive a truncation to [bl] blocks. *)
Definition kept (bl k : Z) : bool := if k <? SFS_NDIRECT then k <? bl else k <=? bl.

Definition punched (l l' : list Z) : Prop := Forall2 (fun a b => b = a \/ b = 0) l l'.

Lemma punched_sublist l l' : punched l l' -> sublist (filter nonzero l') (filter nonzero l).
Proof.
  induction 1 as [|a b l l' Hab _ IH]; [constructor|].
  rewrite !filter_cons. destruct Hab as [->| ->].
  - case_decide; [by constructor | done].
  - rewrite (decide_False (P := nonzero 0)) by (unfold nonzero; lia).
    case_decide; [by constructor | done].
Qed.

Lemma cleared_punched l lo hi l' : cleared l lo hi l' -> punched l l'.
Proof.
  intros [Hn H]. apply Forall2_same_length_lookup_2; [done|]. intros i a b Ha Hb.
  pose proof (lookup_lt_Some _ _ _ Ha). specialize (H (Z.of_nat i) ltac:(lia)).
  rewrite !zlookup_nat, Ha, Hb in H. case_match; injection H; auto.
Qed.

Lemma nodup_position l i j c :
  NoDup (filter nonzero l) -> c <> 0 -> zlookup l i = Some c -> zlookup l j = Some c -> i = j.
Proof.
  intros Hn Hc Hi Hj. pose proof (zlookup_lt _ _ _ Hi). pose proof (zlookup_lt _ _ _ Hj).
  destruct (Z.lt_trichotomy i j) as [Hlt|[|Hlt]]; [|done|]; exfalso.
  - apply (between_nodup l 0 j c Hn Hj). split; [done|]. exists i. split; [lia | done].
  - apply (between_nodup l 0 i c Hn Hi). split; [done|]. exists j. split; [lia | done].
Qed.

(** The cleared entries are the elements that are gone. *)
Lemma between_gone l lo l' c :
  NoDup (filter nonzero l) -> cleared l lo (Z.of_nat (length l)) l' ->
  between l lo (Z.of_nat (length l)) c <-> c <> 0 /\ c ∈ l /\ c ∉ l'.
Proof.
  intros Hnd [Hn H]. split.
  - intros Hb. pose proof (between_elem _ _ _ _ Hb) as [Hc Hin]. split_and!; [done..|].
    destruct Hb as (_ & i & Hi & E). intros [n Hl']%list_elem_of_lookup_1.
    pose proof (lookup_lt_Some _ _ _ Hl'). specialize (H (Z.of_nat n) ltac:(lia)) as Hnn.
    rewrite zlookup_nat, Hl' in Hnn. case_match eqn:Ec; [congruence|].
    assert (i = Z.of_nat n) as -> by (by eapply nodup_position).
    zbool; cbn in Ec; done || lia.
  - intros (Hc & [n Hl]%list_elem_of_lookup_1 & Hl'). split; [done|]. exists (Z.of_nat n).
    pose proof (lookup_lt_Some _ _ _ Hl). rewrite zlookup_nat. split; [|done].
    specialize (H (Z.of_nat n) ltac:(lia)). rewrite !zlookup_nat, Hl in H.
    case_match eqn:Ec; [zbool; cbn in Ec; done || lia|].
    exfalso. apply Hl'. by eapply list_elem_of_lookup_2.
Qed.

(** What the pieces of the code leave behind. *)
Record truncated (sv : Z) (x : sfs_vnode) s (bl : Z) (x' : sfs_vnode) s' : Prop := {
  tr_heap : sv_heap s' = <[sv := x']> (sv_heap s);
  tr_vnode : vn_refcount x' = vn_refcount x /\ vn_ops x' = vn_ops x /\ sv_ino x' = sv_ino x;
  tr_meta : same_meta (sv_i x) (sv_i x') /\ 0 <= sfi_size (sv_i x') < 2 ^ 32;
  tr_dirty : sv_dirty x' = true;
  tr_fs : sfs_sb s' = sfs_sb s /\ sfs_superdirty s' = sfs_superdirty s /\
          sfs_vnodes s' = sfs_vnodes s /\ vfs_biglock_depth s' = vfs_biglock_depth s;
  tr_dev : dev_ok (sfs_device s') /\ dev_blocks (sfs_device s') = dev_blocks (sfs_device s) /\
    forall c, 0 <= c < dev_blocks (sfs_device s) -> c <> sfi_indirect (sv_i x) \/ c = 0 ->
      dev_sector (sfs_device s') c = dev_sector (sfs_device s) c;
  tr_direct : cleared (sfi_direct (sv_i x)) bl 15 (sfi_direct (sv_i x'));
  tr_words : cleared (idwords s (sv_i x)) (bl - 14) 128 (idwords s' (sv_i x'));
  tr_ind : sfi_indirect (sv_i x') = sfi_indirect (sv_i x) \/ sfi_indirect (sv_i x') = 0;
  tr_map : released (fun c => between (sfi_direct (sv_i x)) bl 15 c \/
      between (idwords s (sv_i x)) (bl - 14) 128 c \/
      (c <> 0 /\ c = sfi_indirect (sv_i x) /\ sfi_indirect (sv_i x') = 0))
    (sfs_freemap s) (sfs_freemap s')
}.

(** The blocks released are exactly those the inode no longer refers to. *)
Lemma truncated_freed sv x s bl x' s' c :
  file_ok sv x s -> truncated sv x s bl x' s' ->
  between (sfi_direct (sv_i x)) bl 15 c \/ between (idwords s (sv_i x)) (bl - 14) 128 c \/
    (c <> 0 /\ c = sfi_indirect (sv_i x) /\ sfi_indirect (sv_i x') = 0) <->
  c ∈ owned s (sv_i x) /\ c ∉ owned s' (sv_i x').
Proof.
  intros (Hx & W & I) T. pose proof (ino_nodup _ _ I) as Hnd.
  pose proof (ino_direct _ _ I) as Hld. pose proof (idwords_length s (sv_i x)) as Hlw.
  pose proof (cleared_punched _ _ _ _ (tr_direct _ _ _ _ _ _ T)) as Zd.
  pose proof (cleared_punched _ _ _ _ (tr_words _ _ _ _ _ _ T)) as Zw.
  pose proof (between_gone (sfi_direct (sv_i x)) bl (sfi_direct (sv_i x')) c
    (owned_direct_nodup _ _ I)) as Gd. rewrite Hld in Gd. specialize (Gd (tr_direct _ _ _ _ _ _ T)).
  pose proof (between_gone (idwords s (sv_i x)) (bl - 14) (idwords s' (sv_i x')) c
    (owned_idwords_nodup _ _ I)) as Gw. rewrite Hlw in Gw. specialize (Gw (tr_words _ _ _ _ _ _ T)).
  unfold SFS_NDIRECT, SFS_DBPERIDB in Gd, Gw. cbn in Gd, Gw. rewrite Gd, Gw.
  assert (Sub : forall l l', punched l l' -> c <> 0 -> c ∈ l' -> c ∈ l).
  { intros l l' Z Hc Hin.
    assert (Hf : c ∈ filter nonzero l') by (by rewrite list_elem_of_filter).
    eapply elem_of_submseteq in Hf; [|by apply sublist_submseteq, punched_sublist].
    by apply list_elem_of_filter in Hf as [_ ?]. }
  rewrite !owned_elem. unfold refs, fblocks. rewrite !elem_of_cons, !elem_of_app.
  assert (Hdis : c <> 0 -> (c = sfi_indirect (sv_i x) -> (c ∉ sfi_direct (sv_i x)) /\ (c ∉ idwords s (sv_i x))) /\
    (c ∈ sfi_direct (sv_i x) -> c ∉ idwords s (sv_i x))).
  { intros Hc. unfold owned, fblocks in Hnd. rewrite filter_cons in Hnd. split.
    - intros Ei. rewrite decide_True in Hnd by (unfold nonzero; congruence).
      apply NoDup_cons in Hnd as [Hnd _]. rewrite list_elem_of_filter, elem_of_app in Hnd.
      rewrite <- Ei in Hnd. split; intros ?; apply Hnd; unfold nonzero; auto.
    - case_decide; [apply NoDup_cons in Hnd as [_ Hnd]|]; rewrite filter_app in Hnd;
        apply NoDup_app in Hnd as (_ & Hnd & _); intros Hd Hw; apply (Hnd c);
        by rewrite list_elem_of_filter. }
  destruct (tr_ind _ _ _ _ _ _ T) as [Ei|Ei]; rewrite Ei; naive_solver.
Qed.

Lemma punched_refs sv x s bl x' s' :
  truncated sv x s bl x' s' -> punched (refs s (sv_i x)) (refs s' (sv_i x')).
Proof.
  intros T. constructor; [apply T|]. apply Forall2_app; eapply cleared_punched; apply T.
Qed.

Lemma truncated_ok sv x s bl x' s' :
  file_ok sv x s -> truncated sv x s bl x' s' -> file_ok sv x' s' /\ file_rel sv x s x' s'.
Proof.
  intros F T. pose proof (fun c => truncated_freed sv x s bl x' s' c F T) as Freed.
  pose proof F as (Hx & W & I). pose proof (punched_sublist _ _ (punched_refs _ _ _ _ _ _ T)) as Sub.
  rewrite <- !owned_refs in Sub. destruct T as [T1 T2 [T3 T3'] T4 T5 (T6 & T7 & T8) T9 _ _ (R1 & R2 & R3)].
  assert (Hbits : forall c, 0 <= c -> bit (sfs_freemap s') c = true <->
    bit (sfs_freemap s) c = true /\ ~ (c ∈ owned s (sv_i x) /\ c ∉ owned s' (sv_i x'))).
  { intros c Hc. by rewrite R3, Freed. }
  assert (Hnb : nblocks s' = nblocks s) by (unfold nblocks; by destruct T5 as [-> _]).
  pose proof (ino_owned _ _ I) as Ho. rewrite Forall_forall in Ho.
  assert (Hsub : forall c, c ∈ owned s' (sv_i x') -> c ∈ owned s (sv_i x)).
  { intros c Hc. eapply elem_of_submseteq; [exact Hc | by apply sublist_submseteq]. }
  assert (Out : forall c, 0 <= c -> bit (sfs_freemap s) c = true -> c ∉ owned s (sv_i x) ->
    bit (sfs_freemap s') c = true) by (intros c ? ? ?; apply Hbits; tauto).
  split; [split; [|split]|].
  - by rewrite T1, lookup_insert_eq.
  - destruct W as [W1 W2 W3 W4 W5]. split; rewrite ?Hnb, ?R2, ?T7; try done.
    + apply Out; [lia | done |]. intros Hin. destruct (Ho _ Hin). lia.
    + intros b Hb. pose proof W3. apply Out; [lia | by apply W5 |].
      intros Hin. destruct (Ho _ Hin). lia.
  - split.
    + destruct T9 as [-> _]. apply I.
    + rewrite Forall_forall. intros c Hc. destruct (Ho c (Hsub c Hc)) as [Hr Hb]. rewrite Hnb.
      split; [done|]. apply Hbits; [lia|]. tauto.
    + eapply sublist_NoDup; [apply I | done].
    + done.
  - split; try done.
    + by right.
    + split; [done|]. intros b Hb Hu Hm. split; [apply Out; done || lia|].
      apply T8; [pose proof (vol_size s W); lia|].
      destruct (Z.eq_dec b 0); [by right|]. left. intros ->. apply Hm. by apply owned_indirect.
    + intros c Hc. left. by apply Hsub.
Qed.

(** The outcome of a truncation to [len] bytes, [bl] blocks. *)
Definition trunc_post (sv : Z) (x : sfs_vnode) s (bl len : Z) s' : Prop :=
  exists x', file_ok sv x' s' /\ file_rel sv x s x' s' /\ sfi_size (sv_i x') = u32 len /\
    (forall k, 0 <= k < 143 -> zlookup (fblocks s' (sv_i x')) k =
       if kept bl k then zlookup (fblocks s (sv_i x)) k else Some 0) /\
    (forall c, 0 <= c -> bit (sfs_freemap s') c = true <->
       bit (sfs_freemap s) c = true /\ ~ (c ∈ owned s (sv_i x) /\ c ∉ owned s' (sv_i x'))) /\
    (bl < SFS_NDIRECT -> sfi_indirect (sv_i x') = 0).

Lemma zlookup_app_split {A} (l1 l2 : list A) k n :
  Z.of_nat (length l1) = n -> 0 <= k ->
  zlookup (l1 ++ l2) k = if k <? n then zlookup l1 k else zlookup l2 (k - n).
Proof.
  intros Hn Hk. unfold zlookup. destruct (Z.leb_spec 0 k); [|lia].
  destruct (Z.ltb_spec k n); [by rewrite lookup_app_l by lia|].
  destruct (Z.leb_spec 0 (k - n)); [|lia]. rewrite lookup_app_r by lia. f_equal. lia.
Qed.

Lemma truncated_blocks sv x s bl x' s' k :
  file_ok sv x s -> truncated sv x s bl x' s' -> 0 <= k < 143 ->
  zlookup (fblocks s' (sv_i x')) k = if kept bl k then zlookup (fblocks s (sv_i x)) k else Some 0.
Proof.
  intros (_ & _ & I) T Hk. pose proof (ino_direct _ _ I) as Hd. pose proof (idwords_length s (sv_i x)) as Hw.
  destruct (tr_direct _ _ _ _ _ _ T) as [L1 C1], (tr_words _ _ _ _ _ _ T) as [L2 C2].
  unfold fblocks. rewrite !(zlookup_app_split _ _ k 15) by (rewrite ?L1, ?Hd; done || lia).
  unfold kept, SFS_NDIRECT, SFS_DBPERIDB in *. destruct (Z.ltb_spec k 15).
  - rewrite C1 by lia. bsolve.
  - rewrite C2 by lia. bsolve.
Qed.

(** ** The whole operation *)

Lemma file_ok_depth sv x s n : file_ok sv x s -> file_ok sv x (set_depth n s).
Proof. intros (Hx & [] & []). split; [done|]. by split; split. Qed.

(** The vnode and the volume before the size is set. *)
Definition mid_vnode (x : sfs_vnode) (d : bool) (l : list Z) (ind : Z) : sfs_vnode :=
  set_dirty d (set_i (set_indirect ind (with_direct l (sv_i x))) x).

Definition mid_state (sv : Z) s (y : sfs_vnode) (dev : D) (fmd : bool) (fm : bitmap) : sfs_fs D :=
  set_device dev (cut_state sv s y fmd fm).

Definition id_of (dev : D) (ind : Z) : list Z :=
  if ind =? 0 then replicate (Z.to_nat SFS_DBPERIDB) 0
  else words_of_bytes (Z.to_nat SFS_DBPERIDB) (dev_sector dev ind).

Definition mid_post (sv : Z) (x : sfs_vnode) s (bl : Z) t : Prop :=
  exists d l ind dev fmd fm, t = mid_state sv s (mid_vnode x d l ind) dev fmd fm /\
    (dev_ok dev /\ dev_blocks dev = dev_blocks (sfs_device s) /\
     forall c, 0 <= c < dev_blocks (sfs_device s) -> c <> sfi_indirect (sv_i x) \/ c = 0 ->
       dev_sector dev c = dev_sector (sfs_device s) c) /\
    cleared (sfi_direct (sv_i x)) bl 15 l /\
    cleared (idwords s (sv_i x)) (bl - 14) 128 (id_of dev ind) /\
    (ind = sfi_indirect (sv_i x) \/ ind = 0) /\ (bl < SFS_NDIRECT -> ind = 0) /\
    released (fun c => between (sfi_direct (sv_i x)) bl 15 c \/
        between (idwords s (sv_i x)) (bl - 14) 128 c \/
        (c <> 0 /\ c = sfi_indirect (sv_i x) /\ ind = 0))
      (sfs_freemap s) fm.

Lemma mid_truncated sv x s bl len t :
  file_ok sv x s -> mid_post sv x s bl t ->
  exists y, sv_heap t !! sv = Some y /\ vfs_biglock_depth t = vfs_biglock_depth s /\
    let x' := set_dirty true (set_i (set_size len (sv_i y)) y) in
    let s' := set_heap (<[sv := x']> (sv_heap t)) t in
    truncated sv x s bl x' s' /\ sfi_size (sv_i x') = u32 len /\
    (bl < SFS_NDIRECT -> sfi_indirect (sv_i x') = 0).
Proof.
  intros F (d & l & ind & dev & fmd & fm & -> & Hdev & Hl & Hw & Hi & Hb & R).
  exists (mid_vnode x d l ind). split; [cbn; apply lookup_insert_eq|]. split; [done|].
  cbv zeta. split; [|done]. split; try done.
  - cbn. by rewrite insert_insert_eq.
  - split; [done|]. cbn. by apply wrap_bound.
Qed.

Lemma no_words_cleared s i bl :
  sfi_indirect i = 0 \/ 142 <= bl ->
  cleared (idwords s i) (bl - 14) 128 (idwords s i) /\
  forall c, ~ between (idwords s i) (bl - 14) 128 c.
Proof.
  intros [H|H].
  - unfold idwords. rewrite H, Z.eqb_refl. split.
    + split; [done|]. intros j Hj. rewrite length_replicate in Hj.
      rewrite zlookup_replicate by done. by case_match.
    + intros c (Hc & j & Hj & E). rewrite zlookup_replicate in E; [congruence|].
      pose proof (zlookup_lt _ _ _ E) as Hl. by rewrite length_replicate in Hl.
  - split; [apply cleared_start; lia|]. intros c (_ & j & Hj & _). lia.
Qed.

Lemma owned_direct_words s i c :
  inode_wf s i -> c <> 0 -> c ∈ sfi_direct i -> c ∉ idwords s i.
Proof.
  intros [_ _ Hnd _] Hc Hd Hw. unfold owned, fblocks in Hnd. rewrite filter_cons in Hnd.
  case_decide; [apply NoDup_cons in Hnd as [_ Hnd]|]; rewrite filter_app in Hnd;
    apply NoDup_app in Hnd as (_ & Hnd & _); apply (Hnd c); by rewrite list_elem_of_filter.
Qed.

Lemma cleared_word_ok l lo hi l' : Forall word_ok l -> cleared l lo hi l' -> Forall word_ok l'.
Proof.
  intros Hl C%cleared_punched. induction C as [|a b l l' Hab _ IH]; [done|].
  apply Forall_cons in Hl as [Ha Hl]. constructor; [|by apply IH].
  destruct Hab as [->| ->]; [done | unfold word_ok; lia].
Qed.

Lemma all_zero (l : list Z) n :
  length l = n /\ (forall j c, zlookup l j = Some c -> c = 0) -> l = replicate n 0.
Proof.
  intros [Hn H]. symmetry. apply replicate_as_elem_of. split; [done|]. intros c [j Hj]%list_elem_of_lookup_1.
  apply (H (Z.of_nat j)). by rewrite zlookup_nat.
Qed.

Lemma wp_itrunc_mid sv x s bl t :
  file_ok sv x s -> 0 <= bl -> cut_inv sv x s bl SFS_NDIRECT t ->
  wp (itrunc_mid curas sv bl (sfi_indirect (sv_i x))) (fun _ => mid_post sv x s bl) (fun _ _ => False) t.
Proof.
  intros F Hbl (d & l & fmd & fm & -> & R & C & Hd). pose proof F as (Hx & W & I).
  pose proof (vol_size s W) as Vs. unfold itrunc_mid. set (ind := sfi_indirect (sv_i x)) in *.
  destruct ((bl <? SFS_NDIRECT + SFS_DBPERIDB - 1) && negb (ind =? 0)) eqn:Ec.
  2:{ apply wp_ret.
      assert (Hno : ind = 0 \/ 142 <= bl).
      { unfold SFS_NDIRECT, SFS_DBPERIDB in Ec. zbool; cbn in Ec; first [done | left; lia | right; lia]. }
      destruct (no_words_cleared s (sv_i x) bl Hno) as [Cw Nw].
      exists d, l, ind, (sfs_device s), fmd, fm. split_and!; try done.
      - apply W.
      - by left.
      - unfold SFS_NDIRECT. intros ?. destruct Hno; [done | lia].
      - eapply released_equiv; [|exact R]. intros c. cbn. specialize (Nw c). 
        unfold SFS_NDIRECT. naive_solver. }
  assert (Hc : bl < 142 /\ ind <> 0)
    by (unfold SFS_NDIRECT, SFS_DBPERIDB in Ec; zbool; cbn in Ec; done || lia).
  destruct Hc as [Hlt Hne]. destruct (owned_indirect _ _ I Hne) as (Hio & Hir & Hib).
  assert (Eid : idwords s (sv_i x) = words_of_bytes (Z.to_nat SFS_DBPERIDB) (dev_sector (sfs_device s) ind)).
  { unfold idwords. fold ind. by destruct (Z.eqb_spec ind 0). }
  wp_step. wp_step. apply wp_readblock; [apply W | cbn; lia | eapply volume_block_lt; [done | lia] | done |].
  intros dev Hsame. cbn [sfs_device cut_state set_freemapdirty set_freemap set_heap]. rewrite <- Eid.
  wp_step. eapply wp_use.
  { apply (wp_itrunc_indirect (between (sfi_direct (sv_i x)) bl 15) (idwords s (sv_i x))
      (set_device dev (set_heap (<[sv := cut_vnode x d l]> (sv_heap s)) s)) bl _ 0 _ _ _ fmd fm).
    - lia.
    - by rewrite idwords_length.
    - by eapply owned_idwords_nodup.
    - intros c Hc Hc0. destruct (owned_block s (sv_i x) c I) as (_ & Hr & Hb & _); [|done|].
      { unfold fblocks. rewrite elem_of_app. by right. }
      cbn. split; [lia|]. split; [done|]. intros [_ Hin]%between_elem.
      by apply (owned_direct_words s (sv_i x) c I Hc0 Hin).
    - eapply released_equiv; [|exact R]. intros c. split; [by left|].
      intros [?|(_ & j & Hj & E%zlookup_lt)]; [done | lia].
    - split; [apply cleared_start; lia | done |].
      split; [done|]. intros (j & c & Hj & _). lia. }
  intros [[idbuf iddirty] nz] t (fmd' & fm' & -> & R' & [C' Dt' N']).
  rewrite idwords_length in R', C', N'. change (Z.of_nat (Z.to_nat SFS_DBPERIDB)) with 128 in *.
  destruct nz; cbn [negb].
  - (* blocks remain: [bl < SFS_NDIRECT] is impossible *)
    assert (Hnb : bl < SFS_NDIRECT -> ind = 0).
    { intros Hbn. exfalso. destruct (proj1 N' eq_refl) as (j & c & Hj & E & Hc).
      destruct C' as [Hl Hcl]. rewrite idwords_length in Hcl. rewrite Hcl in E by done.
      unfold SFS_NDIRECT in Hbn. zbool; cbn in E; congruence || lia. }
    assert (R2 : released (fun c => between (sfi_direct (sv_i x)) bl 15 c \/
      between (idwords s (sv_i x)) (bl - 14) 128 c \/ (c <> 0 /\ c = ind /\ ind = 0)) (sfs_freemap s) fm').
    { eapply released_equiv; [|exact R']. intros c. cbn. tauto. }
    destruct Hsame as (Hok & Hdb & Hsec). cbn in Hdb, Hsec.
    destruct iddirty.
    + wp_step. apply wp_writeblock; [done | cbn in *; lia | eapply volume_block_lt; [done | lia] | |].
      { destruct C' as [Hl _]. by rewrite bytes_of_words_length, Hl, idwords_length. }
      intros dev2 (Hok2 & Hdb2 & Hsec2 & Hoth2). cbn in Hdb2, Hsec2, Hoth2.
      exists d, l, ind, dev2, fmd', fm'. split_and!; try done.
      * congruence.
      * intros c Hc Hor. rewrite Hoth2 by (rewrite ?Hdb; lia || (destruct Hor; congruence || lia)). by apply Hsec.
      * unfold id_of. destruct (Z.eqb_spec ind 0); [done|]. rewrite Hsec2.
        pose proof C' as [Hl _]. rewrite <- (idwords_length s (sv_i x)), <- Hl, words_of_bytes_words; [done|].
        eapply cleared_word_ok; [by apply idwords_ok | done].
      * by left.
    + apply wp_ret. rewrite (Dt' eq_refl) in C'.
      exists d, l, ind, dev, fmd', fm'. split_and!; try done.
      * intros c Hc _. by apply Hsec.
      * unfold id_of. destruct (Z.eqb_spec ind 0); [done|]. rewrite Hsec by lia. by rewrite <- Eid.
      * by left.
  - destruct Hsame as (Hok & Hdb & Hsec). cbn in Hdb, Hsec.
    wp_step. eapply (wp_bfree_released _ _ _ _ ind); [exact R' | cbn; lia | done | |].
    { intros [Hb|Hb]; apply between_elem in Hb as [_ Hin].
      - destruct (owned_block s (sv_i x) ind I) as (_ & _ & _ & Hi); [|done..].
        unfold fblocks. rewrite elem_of_app. by left.
      - destruct (owned_block s (sv_i x) ind I) as (_ & _ & _ & Hi); [|done..].
        unfold fblocks. rewrite elem_of_app. by right. }
    intros fm2 R2. eapply wp_update_inode; [cbn; apply lookup_insert_eq|].
    exists true, l, 0, dev, true, fm2. split_and!; try done.
    + unfold mid_state, cut_state, set_device, set_freemapdirty, set_freemap, set_heap. cbn.
      by rewrite insert_insert_eq.
    + intros c Hc _. by apply Hsec.
    + unfold id_of. rewrite Z.eqb_refl. replace (replicate _ 0) with idbuf; [done|].
      apply all_zero. destruct C' as [Hl _]. split; [by rewrite Hl, idwords_length|].
      intros j c Hj. destruct (Z.eq_dec c 0) as [|Hc0]; [done|]. exfalso.
      enough (false = true) by done. apply N'. exists j, c. pose proof (zlookup_lt _ _ _ Hj).
      rewrite Hl, idwords_length in H. done.
    + by right.
    + eapply released_equiv; [|exact R2]. intros c. cbn. fold ind. split; [intros [[?|?]| -> ]; auto 6 | intros [?|[?|(_ & ? & _)]]; auto].
Qed.

Lemma wp_acquire s (Q : unit -> sfs_fs D -> Prop) E :
  0 <= vfs_biglock_depth s < 2 ^ 32 - 1 ->
  Q tt (set_depth (vfs_biglock_depth s + 1) s) -> wp vfs_biglock_acquire Q E s.
Proof.
  intros Hd HQ. unfold vfs_biglock_acquire, lock_do_i_hold, lock_acquire. wp_steps. cbn [negb].
  rewrite <- (wrap_small 32 (vfs_biglock_depth s + 1)) in HQ by lia.
  destruct (vfs_biglock_depth s =? 0); by wp_steps.
Qed.

Lemma wp_release s (Q : unit -> sfs_fs D -> Prop) E :
  0 < vfs_biglock_depth s ->
  Q tt (set_depth (vfs_biglock_depth s - 1) s) -> wp vfs_biglock_release Q E s.
Proof.
  intros Hd HQ. unfold vfs_biglock_release, lock_do_i_hold, lock_release. wp_steps.
  apply wp_kassert; [done|]. wp_steps. apply wp_kassert; [by apply Z.ltb_lt|]. wp_steps.
  destruct (_ =? 0); by wp_steps.
Qed.

(** The number of blocks of a file of [len] bytes. *)
Definition blocks_of (len : Z) : Z := (len + 511) / 512.

Lemma blocklen_eq len : 0 <= len < 2 ^ 32 ->
  u32 (Z.quot (i64 (len + SFS_BLOCKSIZE - 1)) SFS_BLOCKSIZE) = blocks_of len.
Proof.
  intros H. unfold SFS_BLOCKSIZE, blocks_of. rewrite swrap_small by lia.
  rewrite Z.quot_div_nonneg by lia. rewrite wrap_small; [f_equal; lia|].
  split; [apply Z.div_pos; lia | apply Z.div_lt_upper_bound; lia].
Qed.

Lemma truncated_depth sv x s bl x' s' n :
  truncated sv x (set_depth n s) bl x' s' ->
  truncated sv x s bl x' (set_depth (vfs_biglock_depth s) s').
Proof. intros [T1 T2 T3 T4 (?&?&?&?) T6 T7 T8 T9 T10]. by split. Qed.

Lemma wp_sfs_itrunc sv x s len :
  file_ok sv x s -> 0 <= len < 2 ^ 32 -> 0 <= vfs_biglock_depth s < 2 ^ 32 - 1 ->
  wp (sfs_itrunc curas sv len) (fun _ => trunc_post sv x s (blocks_of len) len) (fun _ _ => False) s.
Proof.
  intros F Hlen Hdep. unfold sfs_itrunc. rewrite blocklen_eq by done.
  assert (0 <= blocks_of len) by (apply Z.div_pos; lia).
  wp_step. apply wp_acquire; [done|]. set (s1 := set_depth _ s).
  assert (F1 : file_ok sv x s1) by (by apply file_ok_depth).
  wp_step. eapply wp_use; [by apply (wp_itrunc_direct sv x s1)|]. intros [] t Ht.
  wp_step. destruct Ht as (d & l & fmd & fm & Et & Hcut). rewrite Et.
  eapply wp_get_sv; [cbn; apply lookup_insert_eq|]. wp_step.
  cbn [sv_i cut_vnode set_dirty set_i with_direct sfi_indirect]. eapply wp_use.
  { apply (wp_itrunc_mid sv x s1); [done | done|]. rewrite <- Et. exists d, l, fmd, fm. done. }
  intros [] t2 Hm. destruct (mid_truncated sv x s1 _ len t2 F1 Hm) as (y & Hy & Hdp & T & Hsz & Hi).
  wp_step. eapply wp_update_inode; [done|]. apply wp_release; [cbn; rewrite Hdp; cbn; lia|].
  cbn [vfs_biglock_depth set_heap]. rewrite Hdp. cbn [vfs_biglock_depth set_depth s1].
  replace (vfs_biglock_depth s + 1 - 1) with (vfs_biglock_depth s) by lia.
  apply truncated_depth in T. destruct (truncated_ok _ _ _ _ _ _ F T) as [F' R'].
  eexists. split; [exact F'|]. split; [exact R'|]. split; [done|]. split; [|split; [|done]].
  - intros k Hk. by eapply truncated_blocks.
  - intros c Hc. destruct (tr_map _ _ _ _ _ _ T) as (_ & _ & RR). rewrite RR by done.
    by rewrite (truncated_freed _ _ _ _ _ _ c F T).
Qed.


(** Truncating to nothing, which is how a deleted file is destroyed,
    releases every block the file had, the indirect block included. *)
Theorem sfs_itrunc_zero_frees sv x s :
  file_ok sv x s -> 0 <= vfs_biglock_depth s < 2 ^ 32 - 1 ->
  exists x' s', sfs_itrunc curas sv 0 s = Ret tt s' /\ sv_heap s' !! sv = Some x' /\
    owned s' (sv_i x') = [] /\ sfi_size (sv_i x') = 0 /\
    forall c, 0 <= c -> bit (sfs_freemap s') c = true <->
      bit (sfs_freemap s) c = true /\ ~ c ∈ owned s (sv_i x).
Proof.
  intros F Hd. destruct (wp_ret_inv _ _ _ (wp_sfs_itrunc sv x s 0 F ltac:(lia) Hd))
    as ([] & s' & E & x' & F' & R' & Hsz & Hk & Hb & Hi).
  change (blocks_of 0) with 0 in *. exists x', s'. split; [done|]. split; [apply F'|].
  assert (Ho : owned s' (sv_i x') = []).
  { unfold owned. rewrite (Hi ltac:(done)). rewrite (all_zero (fblocks s' (sv_i x')) 143).
    - done.
    - split; [apply fblocks_length, F'|]. intros j c Hj. pose proof (zlookup_lt _ _ _ Hj) as Hl.
      rewrite fblocks_length in Hl by apply F'. rewrite Hk in Hj by lia.
      unfold kept, SFS_NDIRECT in Hj. zbool; congruence || lia. }
  split; [done|]. split; [done|]. intros c Hc. rewrite Hb, Ho by done. split; intros [? Hn]; (split; [done|]).
  - intros Hin. apply Hn. split; [done | by apply not_elem_of_nil].
  - tauto.
Qed.

End trunc.
