(* ===== verification/SfsIo.v ===== *)
(** * SFS: file I/O, [kern/fs/sfs/sfs_io.c]

    Reads and writes of a file through its block map: partial blocks through
    a bounce buffer, whole blocks straight between the device and the uio,
    and the metadata I/O of the directory code.  The theorems refine [sfs_io]
    to the contents of the file as one list of bytes ([fbytes]): a read
    delivers a slice of it, a write splices the caller's bytes into it. *)

From S2P Require Import Prelude Bitmap CopyInOut Uio Device Synch SfsDisk SfsCore SfsBmap SfsTrunc.

Section io.
Context {D : Type} `{!BlockDevice D} (curas : option Z).
Implicit Types s : sfs_fs D.

Definition is_read (rw : uio_rw_t) : bool := bool_decide (rw = UIO_READ).
Definition is_write (rw : uio_rw_t) : bool := bool_decide (rw = UIO_WRITE).

Definition sfs_partialio (sv skipstart len : Z) : M (uio * sfs_fs D) unit :=
  u <- gets fst ;;
  let doalloc := is_write (uio_rw u) in
  KASSERT (u32 (skipstart + len) <=? SFS_BLOCKSIZE) ;;
  on_fs assert_locked ;;
  let fileblock := u32 (Z.quot (uio_offset u) SFS_BLOCKSIZE) in
  diskblock <- on_fs (sfs_bmap curas sv fileblock doalloc) ;;
  iobuf <- (if diskblock =? 0 then
              KASSERT (is_read (uio_rw u)) ;; ret zeros
            else on_fs (sfs_readblock curas diskblock zeros)) ;;
  rest <- on_u (uiomove curas (drop (Z.to_nat skipstart) iobuf) len) ;;
  let iobuf := take (Z.to_nat skipstart) iobuf ++ rest in
  if is_write (uio_rw u) then on_fs (sfs_writeblock curas diskblock iobuf) else ret tt.

Definition sfs_blockio (sv : Z) : M (uio * sfs_fs D) unit :=
  u <- gets fst ;;
  let doalloc := is_write (uio_rw u) in
  let fileblock := u32 (Z.quot (uio_offset u) SFS_BLOCKSIZE) in
  diskblock <- on_fs (sfs_bmap curas sv fileblock doalloc) ;;
  if diskblock =? 0 then
    KASSERT (is_read (uio_rw u)) ;;
    on_u (uiomovezeros curas SFS_BLOCKSIZE)
  else
    let saveoff := uio_offset u in
    let diskoff := u32 (diskblock * SFS_BLOCKSIZE) in
    on_u (modify (set_offset diskoff)) ;;
    KASSERT (SFS_BLOCKSIZE <=? uio_resid u) ;;
    let saveres := uio_resid u in
    let diskres := SFS_BLOCKSIZE in
    on_u (modify (set_resid diskres)) ;;
    result <- result_of (sfs_rwblock curas) ;;
    on_u (modify (fun u => set_resid (u32 (uio_resid u - diskres + saveres))
            (set_offset (i64 (uio_offset u - diskoff + saveoff)) u))) ;;
    return_result result.

(** The part of [sfs_io] between the EOF check and [out:]. *)
Definition sfs_io_blocks (sv : Z) : M (uio * sfs_fs D) unit :=
  u <- gets fst ;;
  let blkoff := u32 (Z.rem (uio_offset u) SFS_BLOCKSIZE) in
  (if negb (blkoff =? 0) then
     let skip := blkoff in
     let len := SFS_BLOCKSIZE - blkoff in
     let len := if uio_resid u <? len then uio_resid u else len in
     sfs_partialio sv skip len
   else ret tt) ;;
  u <- gets fst ;;
  if uio_resid u =? 0 then ret tt
  else
    KASSERT (Z.rem (uio_offset u) SFS_BLOCKSIZE =? 0) ;;
    let nblocks := uio_resid u / SFS_BLOCKSIZE in
    for_each 0 (Z.to_nat nblocks) (fun _ => sfs_blockio sv) ;;
    u <- gets fst ;;
    KASSERT (uio_resid u <? SFS_BLOCKSIZE) ;;
    if 0 <? uio_resid u then sfs_partialio sv 0 (uio_resid u) else ret tt.

(** The tail of [sfs_io], from [out:] on. *)
Definition sfs_io_out (sv origresid extraresid result : Z) : M (uio * sfs_fs D) unit :=
  u <- gets fst ;;
  x <- on_fs (get_sv sv) ;;
  (if negb (uio_resid u =? origresid) && is_write (uio_rw u) && (sfi_size (sv_i x) <? uio_offset u)
   then on_fs (update_inode sv (set_size (uio_offset u)))
   else ret tt) ;;
  on_u (modify (fun u => set_resid (u32 (uio_resid u + extraresid)) u)) ;;
  return_result result.

Definition sfs_io (sv : Z) : M (uio * sfs_fs D) unit :=
  u <- gets fst ;;
  let origresid := uio_resid u in
  x <- on_fs (get_sv sv) ;;
  let size := sfi_size (sv_i x) in
  let endpos := i64 (uio_offset u + uio_resid u) in
  if is_read (uio_rw u) && (size <=? uio_offset u) then ret tt
  else
    extraresid <-
      (if is_read (uio_rw u) && (size <? endpos) then
         let extraresid := u32 (endpos - size) in
         KASSERT (extraresid <? uio_resid u) ;;
         on_u (modify (fun u => set_resid (uio_resid u - extraresid) u)) ;;
         ret extraresid
       else ret 0) ;;
    result <- result_of (sfs_io_blocks sv) ;;
    sfs_io_out sv origresid extraresid result.

(** [data] is the caller's object of [len] bytes; it is handed back, changed
    by a read. *)
Definition sfs_metaio (sv actualpos : Z) (data : list Z) (rw : uio_rw_t) : M (sfs_fs D) (list Z) :=
  let len := Z.of_nat (length data) in
  assert_locked ;;
  let vnblock := u32 (Z.quot actualpos SFS_BLOCKSIZE) in
  let blockoffset := u32 (Z.rem actualpos SFS_BLOCKSIZE) in
  let doalloc := is_write rw in
  diskblock <- sfs_bmap curas sv vnblock doalloc ;;
  if diskblock =? 0 then
    KASSERT (is_read rw) ;;
    ret (replicate (length data) 0)
  else
    metaiobuf <- sfs_readblock curas diskblock zeros ;;
    if is_read rw then
      in_bounds (blockoffset + len <=? SFS_BLOCKSIZE) ;;
      ret (slice (Z.to_nat blockoffset) (length data) metaiobuf)
    else
      in_bounds (blockoffset + len <=? SFS_BLOCKSIZE) ;;
      sfs_writeblock curas diskblock (splice (Z.to_nat blockoffset) data metaiobuf) ;;
      let endpos := i64 (actualpos + len) in
      x <- get_sv sv ;;
      (if sfi_size (sv_i x) <? endpos then update_inode sv (set_size endpos) else ret tt) ;;
      ret data.

(** ** Blocks of a file *)

Definition MAXBYTES : Z := 143 * SFS_BLOCKSIZE.

Lemma uniform_blocks sv x s : file_ok sv x s -> uniform 512 (map (blk s) (fblocks s (sv_i x))).
Proof.
  intros (_ & W & I). apply Forall_map, Forall_forall. intros b Hb. unfold compose, blk.
  pose proof (vol_size s W).
  destruct (Z.eqb_spec b 0); [done|]. destruct (fblocks_ok s _ b I W Hb) as [|[Hr _]]; [done|].
  rewrite dev_sector_length; [done | apply W | lia].
Qed.

Lemma fbytes_length sv x s : file_ok sv x s -> Z.of_nat (length (fbytes s (sv_i x))) = MAXBYTES.
Proof.
  intros F. unfold fbytes. rewrite (uniform_length 512) by (by eapply uniform_blocks).
  rewrite length_map, fblocks_length by apply F. unfold MAXBYTES, SFS_BLOCKSIZE. lia.
Qed.

(** Overwriting the block at position [k] of a file. *)
Lemma write_block_step sv x s k b new d2 :
  file_ok sv x s -> fblocks s (sv_i x) !! k = Some b -> b <> 0 ->
  dev_wrote b new (sfs_device s) d2 ->
  file_ok sv x (set_device d2 s) /\ file_rel sv x s x (set_device d2 s) /\
  fblocks (set_device d2 s) (sv_i x) = fblocks s (sv_i x) /\
  map (blk (set_device d2 s)) (fblocks s (sv_i x)) = <[k := new]> (map (blk s) (fblocks s (sv_i x))).
Proof.
  intros F Hk Hb (Hok & Hdb & Hnew & Hoth). pose proof F as (Hx & W & I). pose proof (vol_size s W) as Vs.
  assert (Hin : b ∈ fblocks s (sv_i x)) by (by eapply list_elem_of_lookup_2).
  destruct (owned_block _ _ _ I Hin Hb) as (Ho & Hr & Hbit & Hind).
  assert (Ef : fblocks (set_device d2 s) (sv_i x) = fblocks s (sv_i x)).
  { apply fblocks_ext. intros Hne. apply Hoth; [|done]. destruct (owned_indirect _ _ I Hne). lia. }
  assert (Eo : owned (set_device d2 s) (sv_i x) = owned s (sv_i x)) by (unfold owned; by rewrite Ef).
  split; [|split; [split|split; [done|]]].
  - split; [done|]. split; [by eapply volume_wf_ext|]. destruct I. split; rewrite ?Eo; done.
  - by rewrite insert_id.
  - done.
  - done.
  - by left.
  - done.
  - split; [done|]. intros c Hc Hu Hm. split; [done|]. apply Hoth; [lia|]. by intros ->.
  - rewrite Eo. auto.
  - apply list_eq_same_length with (143%nat).
    + by rewrite length_insert, length_map, fblocks_length.
    + by rewrite length_map, fblocks_length.
    + intros j a a' Hj Ha Ha'. apply list_lookup_fmap_Some in Ha as (c & -> & Hc).
      destruct (Nat.eq_dec j k) as [->|Hne].
      * rewrite list_lookup_insert_eq in Ha' by (rewrite length_map, fblocks_length by done; lia).
        rewrite Hk in Hc. injection Hc as <-. injection Ha' as <-. unfold blk.
        destruct (Z.eqb_spec b 0); [done|]. exact Hnew.
      * rewrite list_lookup_insert_ne in Ha' by done.
        apply list_lookup_fmap_Some in Ha' as (c' & -> & Hc'). rewrite Hc in Hc'. injection Hc' as <-.
        unfold blk. destruct (Z.eqb_spec c 0) as [|Hc0]; [done|]. apply Hoth.
        -- destruct (owned_block _ _ _ I (list_elem_of_lookup_2 _ _ _ Hc) Hc0). lia.
        -- intros ->. apply Hne.
           enough (Z.of_nat j = Z.of_nat k) by lia.
           apply (nodup_position (fblocks s (sv_i x)) _ _ b); rewrite ?zlookup_nat; try done.
           eapply sublist_NoDup; [apply (ino_nodup _ _ I)|]. unfold owned. rewrite filter_cons.
           case_decide; [by apply sublist_cons | done].
Qed.

(** ** One transfer *)

(** [n] bytes of the uio went to the file at its offset. *)
Record wrote (sv : Z) (u : uio) (x : sfs_vnode) s (n : Z) (u' : uio) (x' : sfs_vnode) s' : Prop := {
  wr_wf : uio_wf curas u';
  wr_adv : uio_advanced n u u';
  wr_mem : uio_mem u' = uio_mem u;
  wr_file : file_ok sv x' s' /\ file_rel sv x s x' s';
  wr_size : sfi_size (sv_i x') = sfi_size (sv_i x);
  wr_bytes : exists bytes,
    load_all (uio_mem u) (take (Z.to_nat n) (uio_addrs u)) = Some bytes /\
    fbytes s' (sv_i x') = splice (Z.to_nat (uio_offset u)) bytes (fbytes s (sv_i x))
}.

(** [n] bytes of the file at the uio's offset went to the uio. *)
Record delivered (sv : Z) (u : uio) (x : sfs_vnode) s (n : Z) (u' : uio) s' : Prop := {
  de_wf : uio_wf curas u';
  de_adv : uio_advanced n u u';
  de_mem : uio_mem u' = store_all (take (Z.to_nat n) (uio_addrs u))
    (slice (Z.to_nat (uio_offset u)) (Z.to_nat n) (fbytes s (sv_i x))) (uio_mem u);
  de_dev : exists d', s' = set_device d' s /\ dev_same (sfs_device s) d'
}.

Lemma wrote_refl sv u x s x' s' :
  uio_wf curas u -> file_kept sv x s x' s' -> wrote sv u x s 0 u x' s'.
Proof.
  intros W (F & R & B & S). split; try done.
  - split; rewrite ?drop_0; try done; lia.
  - exists []. cbn. by rewrite splice_nil.
Qed.

Lemma wrote_trans sv u x s n1 u1 x1 s1 n2 u2 x2 s2 :
  0 <= n1 -> 0 <= n2 -> 0 <= uio_offset u -> uio_offset u + n1 + n2 <= MAXBYTES ->
  n1 + n2 <= Z.of_nat (length (uio_addrs u)) -> file_ok sv x s ->
  wrote sv u x s n1 u1 x1 s1 -> wrote sv u1 x1 s1 n2 u2 x2 s2 ->
  wrote sv u x s (n1 + n2) u2 x2 s2.
Proof.
  intros Hn1 Hn2 Ho Hmax Ha F0 [W1 A1 M1 [F1 R1] S1 (b1 & L1 & B1)] [W2 A2 M2 [F2 R2] S2 (b2 & L2 & B2)].
  pose proof (load_all_length _ _ _ L1) as Hb1. rewrite length_take in Hb1.
  destruct A1 as [A1 A1r A1o A1s A1w A1p], A2 as [A2 A2r A2o A2s A2w A2p].
  rewrite A1, M1 in L2. pose proof (load_all_length _ _ _ L2) as Hb2.
  rewrite length_take, length_drop in Hb2. split; try done.
  - split; try congruence; try lia. rewrite A2, A1, drop_drop. f_equal. lia.
  - congruence.
  - split; [done|]. eapply file_rel_trans; [done | apply F1 | apply F2 | done].
  - congruence.
  - exists (b1 ++ b2). split.
    + replace (Z.to_nat (n1 + n2)) with (Z.to_nat n1 + Z.to_nat n2)%nat by lia.
      rewrite <- take_take_drop. by apply load_all_app.
    + rewrite B2, B1, A1o.
      replace (Z.to_nat (uio_offset u + n1)) with (Z.to_nat (uio_offset u) + length b1)%nat by lia.
      apply splice_splice. pose proof (fbytes_length sv x s F0). lia.
Qed.

Lemma delivered_refl sv u x s : file_ok sv x s -> uio_wf curas u -> delivered sv u x s 0 u s.
Proof.
  intros (_ & Wv & _) W. split; try done.
  - split; rewrite ?drop_0; try done; lia.
  - exists (sfs_device s). split; [by destruct s|]. split; [apply Wv | done].
Qed.

Lemma dev_same_trans (d1 d2 d3 : D) : dev_same d1 d2 -> dev_same d2 d3 -> dev_same d1 d3.
Proof.
  intros (A1 & A2 & A3) (B1 & B2 & B3). split; [done|]. split; [congruence|].
  intros b Hb. rewrite B3 by lia. by apply A3.
Qed.

Lemma delivered_trans sv u x s n1 u1 s1 n2 u2 s2 :
  0 <= n1 -> 0 <= n2 -> 0 <= uio_offset u -> uio_offset u + n1 + n2 <= MAXBYTES ->
  n1 + n2 <= Z.of_nat (length (uio_addrs u)) -> file_ok sv x s ->
  delivered sv u x s n1 u1 s1 -> delivered sv u1 x s1 n2 u2 s2 ->
  delivered sv u x s (n1 + n2) u2 s2.
Proof.
  intros Hn1 Hn2 Ho Hmax Ha F [W1 A1 M1 (d1 & -> & D1)] [W2 A2 M2 (d2 & -> & D2)].
  destruct A1 as [A1 A1r A1o A1s A1w A1p], A2 as [A2 A2r A2o A2s A2w A2p].
  destruct (file_kept_same sv x s d1 F D1) as [(_ & _ & Bd & _) _].
  pose proof (fbytes_length sv x s F) as Hfl. split; try done.
  - split; try congruence; try lia. rewrite A2, A1, drop_drop. f_equal. lia.
  - rewrite M2, M1, A1, A1o, Bd.
    replace (Z.to_nat (n1 + n2)) with (Z.to_nat n1 + Z.to_nat n2)%nat by lia.
    rewrite <- take_take_drop, slice_app, store_all_app.
    + do 2 f_equal. lia.
    + rewrite length_take, slice_length; lia.
  - exists d2. split; [done|]. by eapply dev_same_trans.
Qed.

(** ** [sfs_partialio] *)

Lemma splice_tail {A} n (new l : list A) :
  (n <= length l)%nat -> take n l ++ splice 0 new (drop n l) = splice n new l.
Proof. intros H. unfold splice. cbn. by rewrite drop_drop. Qed.

(** The block and the position in it of a file offset. *)
Record position (off k skip : Z) : Prop := {
  pos_off : off = k * SFS_BLOCKSIZE + skip;
  pos_skip : 0 <= skip < SFS_BLOCKSIZE;
  pos_k : 0 <= k < 143
}.

Lemma position_fileblock off k skip :
  position off k skip -> u32 (Z.quot off SFS_BLOCKSIZE) = k /\ Z.rem off SFS_BLOCKSIZE = skip.
Proof.
  intros [-> H1 H2]. unfold SFS_BLOCKSIZE in *.
  rewrite Z.quot_div_nonneg, Z.rem_mod_nonneg by lia.
  replace ((k * 512 + skip) / 512) with k by (apply Z.div_unique with skip; lia).
  replace ((k * 512 + skip) mod 512) with skip by (apply Z.mod_unique with k; lia).
  by rewrite wrap_small by lia.
Qed.

Lemma fbytes_write sv x s k skip b bs d2 :
  file_ok sv x s -> position (k * SFS_BLOCKSIZE + skip) k skip ->
  fblocks s (sv_i x) !! Z.to_nat k = Some b -> b <> 0 ->
  skip + Z.of_nat (length bs) <= SFS_BLOCKSIZE ->
  dev_wrote b (splice (Z.to_nat skip) bs (blk s b)) (sfs_device s) d2 ->
  file_ok sv x (set_device d2 s) /\ file_rel sv x s x (set_device d2 s) /\
  fbytes (set_device d2 s) (sv_i x) =
    splice (Z.to_nat (k * SFS_BLOCKSIZE + skip)) bs (fbytes s (sv_i x)).
Proof.
  intros F [_ P2 P3] Hk Hb Hlen Hw.
  destruct (write_block_step _ _ _ _ _ _ _ F Hk Hb Hw) as (F2 & R2 & Ef & Em).
  split; [done|]. split; [done|]. unfold fbytes. rewrite Ef, Em. unfold SFS_BLOCKSIZE in *.
  rewrite (splice_concat 512).
  - f_equal. lia.
  - by eapply uniform_blocks.
  - by rewrite list_lookup_fmap, Hk.
  - lia.
Qed.

Definition io_ok (sv : Z) (u : uio) (x : sfs_vnode) s (rw : uio_rw_t) : Prop :=
  uio_wf curas u /\ uio_rw u = rw /\ file_ok sv x s.

Definition write_post (sv : Z) (u : uio) (x : sfs_vnode) s (n : Z) (p : uio * sfs_fs D) : Prop :=
  exists x', wrote sv u x s n (fst p) x' (snd p).

Lemma wp_bmap_of_uio sv x s u k (Q : Z -> uio * sfs_fs D -> Prop) (E : Z -> uio * sfs_fs D -> Prop) :
  file_ok sv x s -> 0 <= k < 143 ->
  (forall b s', bmap_done sv k x s b s' -> Q b (u, s')) ->
  (forall e s', bmap_full sv x s e s' -> E e (u, s')) ->
  wp (on_fs (sfs_bmap curas sv k true)) Q E (u, s).
Proof.
  intros F Hk HQ HE. apply wp_on_fs. eapply wp_mono; [by apply wp_sfs_bmap_alloc | done | done].
Qed.

Lemma wp_partialio_write sv u x s k skip len :
  io_ok sv u x s UIO_WRITE -> position (uio_offset u) k skip -> 0 <= len <= uio_resid u ->
  skip + len <= SFS_BLOCKSIZE ->
  wp (sfs_partialio sv skip len) (fun _ => write_post sv u x s len)
     (fun e p => e = ENOSPC /\ write_post sv u x s 0 p) (u, s).
Proof.
  intros (W & Hrw & F) P Hl Hsl. destruct (position_fileblock _ _ _ P) as [Ek _].
  pose proof P as [P1 P2 P3]. unfold SFS_BLOCKSIZE in P2.
  unfold sfs_partialio. wp_steps. cbn [fst]. rewrite Hrw, Ek. unfold is_write, is_read.
  rewrite bool_decide_true by done.
  rewrite wrap_small by (unfold SFS_BLOCKSIZE in *; lia).
  apply wp_kassert; [by apply Z.leb_le|]. wp_steps. apply wp_on_fs, wp_assert_locked. wp_steps.
  eapply wp_bmap_of_uio; [done | done | |].
  2:{ intros e s' (-> & x' & K & _). split; [done|]. exists x'. by apply wrote_refl. }
  intros b s1 (x1 & K1 & Hb & Ef1). pose proof K1 as ((Hx1 & W1 & I1) & R1 & B1 & S1).
  destruct (Z.eqb_spec b 0); [lia|].
  assert (Hk1 : fblocks s1 (sv_i x1) !! Z.to_nat k = Some b).
  { rewrite Ef1. apply list_lookup_insert_eq. rewrite fblocks_length by apply F. lia. }
  assert (Hnb : nblocks s1 = nblocks s) by (unfold nblocks; by destruct (fr_fs _ _ _ _ _ R1) as [-> _]).
  pose proof (vol_size s1 W1) as Vs.
  wp_steps. apply wp_on_fs, wp_readblock; [apply W1 | lia | eapply volume_block_lt; [exact W1 | lia] | done |].
  intros d1 Hd1. destruct (file_kept_same sv x1 s1 d1 ltac:(apply K1) Hd1) as [K2 Ef2].
  pose proof (file_kept_trans _ _ _ _ _ _ _ K1 K2) as K12.
  assert (Hs : length (dev_sector (sfs_device s1) b) = 512%nat).
  { rewrite dev_sector_length; [done | apply W1 | lia]. }
  wp_steps. apply wp_on_u. eapply wp_use.
  { apply (wp_uiomove curas _ len u); [done | lia | rewrite length_drop, Hs; unfold SFS_BLOCKSIZE in *; lia]. }
  intros rest u' [W' [A' M']]. rewrite Hrw in M'. destruct M' as [M' (bs & L & ->)].
  pose proof (load_all_length _ _ _ L) as Hbs. rewrite length_take in Hbs.
  rewrite (splice_tail (Z.to_nat skip)) by (rewrite Hs; lia).
  assert (Eb : dev_sector (sfs_device s1) b = blk (set_device d1 s1) b).
  { unfold blk. destruct (Z.eqb_spec b 0); [done|]. destruct Hd1 as (_ & _ & Hd1). cbn. rewrite Hd1; [done|lia]. }
  rewrite Eb. destruct Hd1 as (Hok1 & Hdb1 & _).
  apply wp_on_fs, wp_writeblock; [done | cbn; lia | eapply volume_block_lt; [exact W1 | lia] | |].
  { rewrite splice_length; rewrite <- Eb, Hs; [done|]. unfold SFS_BLOCKSIZE in *. lia. }
  intros d2 Hw. pose proof K12 as (F12 & R12 & B12 & S12).
  destruct (fbytes_write sv x1 (set_device d1 s1) k skip b bs d2) as (F3 & R3 & B3); try done.
  { by rewrite Ef2. }
  { lia. }
  exists x1. split; cbn [fst snd]; try done.
  - split; [done|]. eapply file_rel_trans; [exact R12 | apply F12 | apply F3 | exact R3].
  - exists bs. split; [done|]. rewrite B3, B12. by rewrite P1.
Qed.

Definition read_post (sv : Z) (u : uio) (x : sfs_vnode) s (n : Z) (p : uio * sfs_fs D) : Prop :=
  delivered sv u x s n (fst p) (snd p).

(** The bytes a lookup of block [k] stands for. *)
Lemma fbytes_read sv x s k skip b len :
  file_ok sv x s -> position (k * SFS_BLOCKSIZE + skip) k skip ->
  fblocks s (sv_i x) !! Z.to_nat k = Some b -> 0 <= len -> skip + len <= SFS_BLOCKSIZE ->
  slice (Z.to_nat (k * SFS_BLOCKSIZE + skip)) (Z.to_nat len) (fbytes s (sv_i x)) =
  slice (Z.to_nat skip) (Z.to_nat len) (blk s b).
Proof.
  intros F [_ P2 P3] Hk Hl Hlen. unfold fbytes, SFS_BLOCKSIZE in *.
  replace (Z.to_nat (k * 512 + skip)) with (Z.to_nat k * 512 + Z.to_nat skip)%nat by lia.
  apply slice_concat; [by eapply uniform_blocks | by rewrite list_lookup_fmap, Hk | lia].
Qed.

Lemma wp_partialio_read sv u x s k skip len E :
  io_ok sv u x s UIO_READ -> position (uio_offset u) k skip -> 0 <= len <= uio_resid u ->
  skip + len <= SFS_BLOCKSIZE ->
  wp (sfs_partialio sv skip len) (fun _ => read_post sv u x s len) E (u, s).
Proof.
  intros (W & Hrw & F) P Hl Hsl. destruct (position_fileblock _ _ _ P) as [Ek _].
  pose proof P as [P1 P2 P3]. pose proof F as (Hx & Wv & I). pose proof (vol_size s Wv) as Vs.
  unfold sfs_partialio. wp_steps. cbn [fst]. rewrite Hrw, Ek. unfold is_write, is_read.
  rewrite bool_decide_false by done.
  rewrite wrap_small by (unfold SFS_BLOCKSIZE in *; lia).
  apply wp_kassert; [by apply Z.leb_le|]. wp_steps. apply wp_on_fs, wp_assert_locked. wp_steps.
  apply wp_on_fs, (wp_sfs_bmap_lookup curas sv x); [done | done |]. intros b d1 Hd1 Hb.
  destruct (file_kept_same sv x s d1 F Hd1) as [((_ & W1 & _) & _) _].
  (* the buffer holds the contents of the block, hole or not *)
  assert (Buf : forall (Q : list Z -> uio * sfs_fs D -> Prop),
    (forall d2, dev_same (sfs_device s) d2 -> Q (blk s b) (u, set_device d2 s)) ->
    wp (if b =? 0 then KASSERT (bool_decide (UIO_READ = UIO_READ)) ;; ret zeros
        else on_fs (sfs_readblock curas b zeros)) Q E (u, set_device d1 s)).
  { intros Q HQ. unfold blk in HQ. destruct (Z.eqb_spec b 0) as [|Hne].
    - wp_step. apply wp_kassert; [done|]. wp_step. by apply HQ.
    - destruct (fblocks_ok s _ b I Wv) as [|[Hr _]]; [by eapply list_elem_of_lookup_2 | done |].
      pose proof Hd1 as (Hok & Hdb & Hsec).
      apply wp_on_fs, wp_readblock; [done | cbn; lia | eapply volume_block_lt; [exact Wv | lia] | done |].
      intros d2 Hd2. cbn. rewrite Hsec by lia. apply HQ. by eapply dev_same_trans. }
  wp_step. apply Buf. intros d2 Hd2. wp_steps. apply wp_on_u.
  assert (Hlb : length (blk s b) = 512%nat).
  { pose proof (uniform_blocks sv x s F) as U. unfold uniform in U. rewrite Forall_forall in U. apply U.
    apply list_elem_of_lookup_2 with (Z.to_nat k). by rewrite list_lookup_fmap, Hb. }
  eapply wp_use.
  { apply (wp_uiomove curas _ len u); [done | lia | rewrite length_drop, Hlb; unfold SFS_BLOCKSIZE in *; lia]. }
  intros rest u' [W' [A' M']]. rewrite Hrw in M'. destruct M' as [-> M'].
  apply wp_ret. split; cbn [fst snd]; try done.
  - rewrite M', P1, (fbytes_read sv x s k skip b) by (done || lia).
    f_equal.
  - by exists d2.
Qed.

(** ** [sfs_blockio] *)

(** The volume is small enough that [diskblock * SFS_BLOCKSIZE] fits 32 bits. *)
Definition small_volume s : Prop := nblocks s <= 2 ^ 23.

Definition seek (off resid : Z) (u : uio) : uio := set_resid resid (set_offset off u).

Lemma uio_wf_seek u off resid :
  uio_wf curas u -> 0 <= resid <= Z.of_nat (length (uio_addrs u)) ->
  0 <= off -> off + resid < 2 ^ 63 -> uio_wf curas (seek off resid u).
Proof. intros [W1 W2 W3 W4 W5 W6] Hr Ho Hs. split; done. Qed.

Lemma advanced_seek n u off u' :
  uio_wf curas u -> uio_wf curas u' -> n <= uio_resid u -> 0 <= n -> 
  uio_advanced n (seek off n u) u' ->
  let u2 := set_resid (u32 (uio_resid u' - n + uio_resid u))
              (set_offset (i64 (uio_offset u' - off + uio_offset u)) u') in
  uio_advanced n u u2 /\ uio_wf curas u2 /\ uio_mem u2 = uio_mem u'.
Proof.
  intros W W' Hn Hn0 [A1 A2 A3 A4 A5 A6] u2. cbn in A2, A3.
  change (uio_addrs (seek off n u)) with (uio_addrs u) in A1.
  destruct W as [W1 W2 [W3 W3'] W4 W5 W6].
  assert (E1 : uio_resid u2 = uio_resid u - n).
  { unfold u2. cbn. rewrite wrap_small; lia. }
  assert (E2 : uio_offset u2 = uio_offset u + n).
  { unfold u2. cbn. rewrite swrap_small; lia. }
  change (uio_addrs u') with (uio_addrs u2) in A1.
  split; [by split|]. split; [|done]. destruct W' as [V1 V2 V3 V4 V5 V6]. split; try done.
  - rewrite E1, A1, length_drop. lia.
  - rewrite E1, E2. lia.
Qed.

Lemma seek_request u b rw :
  uio_wf curas u -> uio_rw u = rw -> SFS_BLOCKSIZE <= uio_resid u -> 0 <= b < 2 ^ 32 ->
  sector_request curas (seek (b * SFS_BLOCKSIZE) SFS_BLOCKSIZE u) rw b.
Proof.
  intros W Hrw Hr Hb. split; [|done]. pose proof (uio_wf_resid _ _ W).
  unfold SFS_BLOCKSIZE in *. apply uio_wf_seek; [done | lia..].
Qed.

Lemma wp_blockio_write sv u x s k :
  io_ok sv u x s UIO_WRITE -> small_volume s -> position (uio_offset u) k 0 ->
  SFS_BLOCKSIZE <= uio_resid u ->
  wp (sfs_blockio sv) (fun _ => write_post sv u x s SFS_BLOCKSIZE)
     (fun e p => e = ENOSPC /\ write_post sv u x s 0 p) (u, s).
Proof.
  intros (W & Hrw & F) Hsm P Hres. destruct (position_fileblock _ _ _ P) as [Ek _].
  pose proof P as [P1 P2 P3]. unfold sfs_blockio. wp_steps. cbn [fst]. rewrite Hrw, Ek.
  unfold is_write, is_read. rewrite bool_decide_true by done.
  eapply wp_bmap_of_uio; [done | done | |].
  2:{ intros e s' (-> & x' & K & _). split; [done|]. exists x'. by apply wrote_refl. }
  intros b s1 (x1 & K1 & Hb & Ef1). pose proof K1 as ((Hx1 & W1 & I1) & R1 & B1 & S1).
  destruct (Z.eqb_spec b 0); [lia|]. unfold small_volume in Hsm.
  assert (Hk1 : fblocks s1 (sv_i x1) !! Z.to_nat k = Some b).
  { rewrite Ef1. apply list_lookup_insert_eq. rewrite fblocks_length by apply F. lia. }
  assert (Hnb : nblocks s1 = nblocks s) by (unfold nblocks; by destruct (fr_fs _ _ _ _ _ R1) as [-> _]).
  pose proof (vol_size s1 W1) as Vs. rewrite wrap_small by (unfold SFS_BLOCKSIZE; lia).
  wp_steps. apply wp_on_u. wp_steps. apply wp_kassert; [by apply Z.leb_le|].
  wp_steps. apply wp_on_u. wp_steps. unfold result_of. wp_steps.
  eapply (wp_rwblock_write curas (seek (b * SFS_BLOCKSIZE) SFS_BLOCKSIZE u) s1 b);
    [apply W1 | lia | apply seek_request; done || lia |].
  intros u' d2 bytes W' (A' & M' & L') Hw. wp_steps. apply wp_on_u. wp_steps.
  unfold return_result. rewrite Z.eqb_refl. apply wp_ret.
  destruct (advanced_seek SFS_BLOCKSIZE u (b * SFS_BLOCKSIZE) u' W W' Hres ltac:(done) A')
    as (A2 & W2 & M2).
  change (uio_addrs (seek _ _ u)) with (uio_addrs u) in L'. change (uio_mem (seek _ _ u)) with (uio_mem u) in L', M'.
  pose proof (load_all_length _ _ _ L') as Hbl. rewrite length_take in Hbl.
  pose proof (uio_wf_resid _ _ W). 
  assert (Hbl' : length bytes = 512%nat) by (unfold SECTSIZE, SFS_BLOCKSIZE in *; lia).
  destruct (fbytes_write sv x1 s1 k 0 b bytes d2) as (F3 & R3 & B3); try done.
  { rewrite Hbl'. done. }
  { rewrite splice_all; [done|]. rewrite Hbl'.
    pose proof (uniform_blocks sv x1 s1 ltac:(apply K1)) as U. unfold uniform in U. rewrite Forall_forall in U.
    symmetry. apply U. apply list_elem_of_lookup_2 with (Z.to_nat k). by rewrite list_lookup_fmap, Hk1. }
  exists x1. split; cbn [fst snd]; try done.
  - split; [done|]. eapply file_rel_trans; [exact R1 | apply I1 | apply F3 | exact R3].
  - exists bytes. split; [done|]. rewrite B3, B1. by rewrite P1.
Qed.

Lemma wp_blockio_read sv u x s k E :
  io_ok sv u x s UIO_READ -> small_volume s -> position (uio_offset u) k 0 ->
  SFS_BLOCKSIZE <= uio_resid u ->
  wp (sfs_blockio sv) (fun _ => read_post sv u x s SFS_BLOCKSIZE) E (u, s).
Proof.
  intros (W & Hrw & F) Hsm P Hres. destruct (position_fileblock _ _ _ P) as [Ek _].
  pose proof P as [P1 P2 P3]. pose proof F as (Hx & Wv & I). pose proof (vol_size s Wv) as Vs.
  unfold sfs_blockio. wp_steps. cbn [fst]. rewrite Hrw, Ek.
  unfold is_write, is_read. rewrite bool_decide_false by done.
  apply wp_on_fs, (wp_sfs_bmap_lookup curas sv x); [done | done |]. intros b d1 Hd1 Hb.
  pose proof (fbytes_read sv x s k 0 b SFS_BLOCKSIZE F ltac:(by rewrite <- P1) Hb ltac:(done) ltac:(done)) as Hf.
  unfold blk in Hf. unfold small_volume in Hsm.
  destruct (Z.eqb_spec b 0) as [|Hne].
  - wp_step. apply wp_kassert; [done|]. apply wp_on_u.
    eapply wp_use; [apply wp_uiomovezeros; [done | done | unfold SFS_BLOCKSIZE in *; lia]|].
    intros [] u' [W' [A' M']]. split; cbn [fst snd]; try done; [|by exists d1].
    by rewrite M', P1, Hf.
  - destruct (fblocks_ok s _ b I Wv) as [|[Hr _]]; [by eapply list_elem_of_lookup_2 | done |].
    pose proof Hd1 as (Hok & Hdb & Hsec). rewrite wrap_small by (unfold SFS_BLOCKSIZE; lia).
    wp_steps. apply wp_on_u. wp_steps. apply wp_kassert; [by apply Z.leb_le|].
    wp_steps. apply wp_on_u. wp_steps. unfold result_of. wp_steps.
    eapply (wp_rwblock_read curas (seek (b * SFS_BLOCKSIZE) SFS_BLOCKSIZE u) (set_device d1 s) b);
      [done | cbn; lia | apply seek_request; done || lia |].
    intros u' d2 W' [A' M'] Hd2. wp_steps. apply wp_on_u. wp_steps.
    unfold return_result. rewrite Z.eqb_refl. apply wp_ret.
    destruct (advanced_seek SFS_BLOCKSIZE u (b * SFS_BLOCKSIZE) u' W W' Hres ltac:(done) A')
      as (A2 & W2 & M2).
    cbn [sfs_device set_device] in M'. rewrite Hsec in M' by lia.
    split; cbn [fst snd]; try done.
    + rewrite M2, M', P1, Hf. cbn [Z.to_nat]. f_equal. unfold slice. rewrite drop_0.
      symmetry. apply take_ge. rewrite dev_sector_length; [done | apply Wv | lia].
    + exists d2. split; [done|]. by eapply dev_same_trans.
Qed.

(** ** The loop of blocks *)

Definition progress (rw : uio_rw_t) (sv : Z) (u : uio) (x : sfs_vnode) s (n : Z)
    (p : uio * sfs_fs D) : Prop :=
  match rw with
  | UIO_READ => read_post sv u x s n p
  | UIO_WRITE => write_post sv u x s n p
  end.

(** A write that ran out of space after [m] of the [n] bytes. *)
Definition stopped (rw : uio_rw_t) (sv : Z) (u : uio) (x : sfs_vnode) s (n e : Z)
    (p : uio * sfs_fs D) : Prop :=
  rw = UIO_WRITE /\ e = ENOSPC /\ exists m, 0 <= m <= n /\ write_post sv u x s m p.

Record io_ready (rw : uio_rw_t) (sv : Z) (u : uio) (x : sfs_vnode) s : Prop := {
  rdy_ok : io_ok sv u x s rw;
  rdy_small : small_volume s;
  rdy_max : uio_offset u + uio_resid u <= MAXBYTES
}.

Lemma progress_ready rw sv u x s n p :
  io_ready rw sv u x s -> progress rw sv u x s n p ->
  uio_resid (fst p) = uio_resid u - n /\ uio_offset (fst p) = uio_offset u + n /\
  exists x', io_ready rw sv (fst p) x' (snd p) /\
    (rw = UIO_READ -> x' = x) /\
    forall n2 p2, 0 <= n -> 0 <= n2 -> n + n2 <= uio_resid u ->
      progress rw sv (fst p) x' (snd p) n2 p2 -> progress rw sv u x s (n + n2) p2.
Proof.
  intros [(W & Hrw & F) Hsm Hmax] Pr.
  pose proof (uio_wf_resid _ _ W). pose proof (uio_wf_offset _ _ W).
  destruct rw; cbn in Pr.
  - pose proof Pr as [W1 [A1 A1r A1o A1s A1w A1p] M1 (d1 & E1 & D1)]. split; [done|]. split; [done|].
    exists x. split; [|split; [done|]].
    + split; [split; [done|]|..].
      * split; [congruence|]. rewrite E1. by destruct (file_kept_same sv x s d1 F D1) as [[? _] _].
      * rewrite E1. done.
      * lia.
    + intros n2 p2 Hn Hn2 Hle Pr2. cbn in Pr2. destruct p as [u1 s1], p2 as [u2 s2]. cbn in *.
      eapply delivered_trans; [done | done | lia | lia | lia | done | exact Pr | exact Pr2].
  - destruct Pr as [x1 Wr]. pose proof Wr as [W1 [A1 A1r A1o A1s A1w A1p] M1 [F1 R1] S1 _]. split; [done|]. split; [done|].
    exists x1. split; [|split; [done|]].
    + split; [split; [done|]; split; [congruence | done]| |lia].
      unfold small_volume, nblocks. destruct (fr_fs _ _ _ _ _ R1) as [-> _]. done.
    + intros n2 p2 Hn Hn2 Hle [x2 Wr2]. exists x2.
      eapply wrote_trans; [done | done | lia | lia | lia | done | exact Wr | exact Wr2].
Qed.

Lemma progress_0 rw sv u x s : io_ready rw sv u x s -> progress rw sv u x s 0 (u, s).
Proof.
  intros [(W & Hrw & F) _ _]. destruct rw; cbn.
  - by apply delivered_refl.
  - exists x. by apply wrote_refl, file_kept_refl.
Qed.

(** Continue a transfer with [m]. *)
Lemma wp_continue rw sv u x s n1 n2 N p (m : M (uio * sfs_fs D) unit) :
  io_ready rw sv u x s -> progress rw sv u x s n1 p -> 0 <= n1 -> 0 <= n2 ->
  n1 + n2 <= N <= uio_resid u ->
  (forall x', io_ready rw sv (fst p) x' (snd p) ->
     wp m (fun _ => progress rw sv (fst p) x' (snd p) n2)
          (stopped rw sv (fst p) x' (snd p) n2) p) ->
  wp m (fun _ => progress rw sv u x s (n1 + n2)) (stopped rw sv u x s N) p.
Proof.
  intros R Pr Hn1 Hn2 HN H. destruct (progress_ready _ _ _ _ _ _ _ R Pr) as (_ & _ & x' & R' & _ & Tr).
  eapply wp_mono; [by apply H | |].
  - intros [] p2 Pr2. apply Tr; [done | done | lia | done].
  - intros e p2 (-> & He & k & Hk & Pr2). split; [done|]. split; [done|]. exists (n1 + k).
    split; [lia|]. apply (Tr k p2); [done | lia | lia | done].
Qed.

Lemma wp_partialio rw sv u x s k skip len :
  io_ready rw sv u x s -> position (uio_offset u) k skip -> 0 <= len <= uio_resid u ->
  skip + len <= SFS_BLOCKSIZE ->
  wp (sfs_partialio sv skip len) (fun _ => progress rw sv u x s len) (stopped rw sv u x s len) (u, s).
Proof.
  intros [Hok Hsm Hmax] P Hl Hs. destruct rw; cbn [progress].
  - by eapply wp_partialio_read.
  - eapply wp_mono; [by eapply wp_partialio_write | done |].
    intros e p [-> Hp]. split; [done|]. split; [done|]. exists 0. split; [lia | done].
Qed.

Lemma wp_blockio rw sv u x s k :
  io_ready rw sv u x s -> position (uio_offset u) k 0 -> SFS_BLOCKSIZE <= uio_resid u ->
  wp (sfs_blockio sv) (fun _ => progress rw sv u x s SFS_BLOCKSIZE)
     (stopped rw sv u x s SFS_BLOCKSIZE) (u, s).
Proof.
  intros [Hok Hsm Hmax] P Hl. destruct rw; cbn [progress].
  - by eapply wp_blockio_read.
  - eapply wp_mono; [by eapply wp_blockio_write | done |].
    intros e p [-> Hp]. split; [done|]. split; [done|]. exists 0. split; [done | done].
Qed.

Lemma position_of off :
  0 <= off < MAXBYTES -> position off (off / SFS_BLOCKSIZE) (off mod SFS_BLOCKSIZE).
Proof.
  unfold MAXBYTES, SFS_BLOCKSIZE. intros H. split; unfold SFS_BLOCKSIZE.
  - pose proof (Z.div_mod off 512 ltac:(lia)). lia.
  - apply Z.mod_pos_bound. lia.
  - split; [apply Z.div_pos; lia | apply Z.div_lt_upper_bound; lia].
Qed.

(** The first step: a leading partial block, if there is one. *)
Lemma wp_io_leading rw sv u x s (Q : unit -> uio * sfs_fs D -> Prop) :
  io_ready rw sv u x s ->
  (forall n p, 0 <= n <= uio_resid u -> (n = uio_resid u \/ (uio_offset u + n) mod SFS_BLOCKSIZE = 0) ->
     progress rw sv u x s n p -> Q tt p) ->
  let blkoff := u32 (Z.rem (uio_offset u) SFS_BLOCKSIZE) in
  wp (if negb (blkoff =? 0) then
        sfs_partialio sv blkoff
          (if uio_resid u <? SFS_BLOCKSIZE - blkoff then uio_resid u else SFS_BLOCKSIZE - blkoff)
      else ret tt) Q (stopped rw sv u x s (uio_resid u)) (u, s).
Proof.
  intros R HQ. pose proof R as [(W & Hrw & F) Hsm Hmax].
  pose proof (uio_wf_offset _ _ W) as [Ho _]. pose proof (uio_wf_resid _ _ W) as [Hr _].
  pose proof (Z.mod_pos_bound (uio_offset u) 512 ltac:(lia)) as Hm.
  rewrite Z.rem_mod_nonneg, wrap_small by (unfold SFS_BLOCKSIZE in *; lia). cbv zeta.
  destruct (Z.eqb_spec (uio_offset u mod SFS_BLOCKSIZE) 0) as [Ez|Ez]; cbn [negb].
  - apply wp_ret. apply (HQ 0); [lia | right; by rewrite Z.add_0_r | by apply progress_0].
  - assert (Hlt : uio_offset u < MAXBYTES).
    { destruct (Z.eq_dec (uio_offset u) MAXBYTES) as [E|]; [|lia]. by rewrite E in Ez. }
    pose proof (position_of (uio_offset u) ltac:(lia)) as P.
    set (len := if _ <? _ then _ else _).
    assert (Hlen : 0 <= len <= uio_resid u /\ uio_offset u mod SFS_BLOCKSIZE + len <= SFS_BLOCKSIZE /\
      (len = uio_resid u \/ len = SFS_BLOCKSIZE - uio_offset u mod SFS_BLOCKSIZE))
      by (unfold len, SFS_BLOCKSIZE in *; zbool; lia).
    eapply wp_mono; [eapply wp_partialio; [done | done | apply Hlen | apply Hlen]| |].
    + intros [] p Pr. apply (HQ len p); [lia | | done]. destruct Hlen as (_ & _ & [?|E]); [by left|].
      right. rewrite E. unfold SFS_BLOCKSIZE in *.
      replace (uio_offset u + (512 - uio_offset u mod 512)) with ((uio_offset u / 512 + 1) * 512)
        by (pose proof (Z.div_mod (uio_offset u) 512 ltac:(lia)); lia).
      apply Z.mod_mul. lia.
    + intros e p (E1 & E2 & m & Hm' & Hp). split; [done|]. split; [done|]. exists m. split; [lia | done].
Qed.

Lemma wp_sfs_io_blocks rw sv u x s :
  io_ready rw sv u x s ->
  wp (sfs_io_blocks sv) (fun _ => progress rw sv u x s (uio_resid u))
     (stopped rw sv u x s (uio_resid u)) (u, s).
Proof.
  intros R. unfold sfs_io_blocks. wp_steps. cbn [fst]. eapply wp_io_leading; [done|].
  intros n p Hn Hal Pr. destruct (progress_ready _ _ _ _ _ _ _ R Pr) as (Er & Eo & x1 & R1 & _).
  wp_steps. rewrite Er.
  destruct (Z.eqb_spec (uio_resid u - n) 0) as [E0|E0].
  { apply wp_ret. by replace (uio_resid u) with n by lia. }
  pose proof R as [(W & Hrw & F) Hsm Hmax].
  pose proof (uio_wf_offset _ _ W) as [Ho _]. destruct Hal as [|Hal]; [lia|].
  rewrite Eo, Z.rem_mod_nonneg by (unfold SFS_BLOCKSIZE; lia). wp_step. apply wp_kassert; [by apply Z.eqb_eq|].
  set (nb := (uio_resid u - n) / SFS_BLOCKSIZE).
  assert (Hnb : 0 <= nb /\ nb * SFS_BLOCKSIZE <= uio_resid u - n < (nb + 1) * SFS_BLOCKSIZE).
  { unfold nb, SFS_BLOCKSIZE. pose proof (Z.div_mod (uio_resid u - n) 512 ltac:(lia)).
    pose proof (Z.mod_pos_bound (uio_resid u - n) 512 ltac:(lia)).
    split; [apply Z.div_pos; lia | lia]. }
  wp_step. apply (wp_for_each (fun j => progress rw sv u x s (n + j * SFS_BLOCKSIZE))).
  { by rewrite Z.mul_0_l, Z.add_0_r. }
  { intros j p' Hj Pr'. rewrite Z2Nat.id in Hj by lia.
    destruct (progress_ready _ _ _ _ _ _ _ R Pr') as (Er' & Eo' & _).
    replace (n + (j + 1) * SFS_BLOCKSIZE) with (n + j * SFS_BLOCKSIZE + SFS_BLOCKSIZE) by lia.
    eapply wp_continue; [done | exact Pr' | unfold SFS_BLOCKSIZE; lia | done | unfold SFS_BLOCKSIZE in *; lia|].
    intros x' R'. destruct p' as [u' s']. cbn [fst snd] in *.
    apply (wp_blockio rw sv u' x' s' (uio_offset u' / SFS_BLOCKSIZE)); [done | | unfold SFS_BLOCKSIZE in *; lia].
    replace 0 with (uio_offset u' mod SFS_BLOCKSIZE).
    - apply position_of. unfold MAXBYTES, SFS_BLOCKSIZE in *. lia.
    - rewrite Eo'. replace (uio_offset u + (n + j * SFS_BLOCKSIZE)) with (uio_offset u + n + j * SFS_BLOCKSIZE) by lia.
      rewrite Z.mod_add by done. done. }
  intros p' Pr'. rewrite Z2Nat.id in Pr' by lia. rewrite Z.add_0_l in Pr'.
  destruct (progress_ready _ _ _ _ _ _ _ R Pr') as (Er' & Eo' & _).
  wp_steps. rewrite Er'. apply wp_kassert; [apply Z.ltb_lt; unfold SFS_BLOCKSIZE in *; lia|].
  destruct (Z.ltb_spec 0 (uio_resid u - (n + nb * SFS_BLOCKSIZE))).
  - assert (En : uio_resid u = n + nb * SFS_BLOCKSIZE + (uio_resid u - (n + nb * SFS_BLOCKSIZE))) by lia.
    eapply wp_mono; [| |intros e p2 Hp2; exact Hp2].
    1: apply (wp_continue rw sv u x s _ (uio_resid u - (n + nb * SFS_BLOCKSIZE)) _ _ _ R Pr');
      [unfold SFS_BLOCKSIZE in *; lia | lia | lia |].
    2:{ intros [] p2 Hp2. rewrite En. exact Hp2. }
    intros x' R'. destruct p' as [u' s']. cbn [fst snd] in *.
    apply (wp_partialio rw sv u' x' s' (uio_offset u' / SFS_BLOCKSIZE)); [done | | lia | unfold SFS_BLOCKSIZE in *; lia].
    replace 0 with (uio_offset u' mod SFS_BLOCKSIZE).
    + apply position_of. unfold MAXBYTES, SFS_BLOCKSIZE in *. lia.
    + rewrite Eo', Z.add_assoc, Z.mod_add by done. done.
  - apply wp_ret. by replace (uio_resid u) with (n + nb * SFS_BLOCKSIZE) by (unfold SFS_BLOCKSIZE in *; lia).
Qed.

(** ** [sfs_io] *)

Lemma file_size_update sv x s n :
  file_ok sv x s -> 0 <= n < 2 ^ 32 ->
  let x' := set_dirty true (set_i (set_size n (sv_i x)) x) in
  let s' := set_heap (<[sv := x']> (sv_heap s)) s in
  file_ok sv x' s' /\ file_rel sv x s x' s' /\ fbytes s' (sv_i x') = fbytes s (sv_i x) /\
  sfi_size (sv_i x') = n.
Proof.
  intros (Hx & [] & []) Hn x' s'.
  assert (En : u32 n = n) by (by apply wrap_small).
  assert (Eo : owned s' (sv_i x') = owned s (sv_i x)) by done.
  split; [|split; [split|split]].
  - split; [apply lookup_insert_eq|]. split; split; try done. cbn. by rewrite En.
  - done.
  - done.
  - done.
  - by right.
  - done.
  - split; [done|]. auto.
  - rewrite Eo. auto.
  - done.
  - exact En.
Qed.

(** What a write of [m] bytes by [sfs_io] amounts to. *)
Definition io_wrote (sv : Z) (u : uio) (x : sfs_vnode) s (m : Z) (u' : uio) s' : Prop :=
  exists x' bytes, file_ok sv x' s' /\ file_rel sv x s x' s' /\
    uio_resid u' = uio_resid u - m /\ uio_offset u' = uio_offset u + m /\ uio_mem u' = uio_mem u /\
    load_all (uio_mem u) (take (Z.to_nat m) (uio_addrs u)) = Some bytes /\
    fbytes s' (sv_i x') = splice (Z.to_nat (uio_offset u)) bytes (fbytes s (sv_i x)) /\
    sfi_size (sv_i x') = (if m =? 0 then sfi_size (sv_i x)
                          else Z.max (sfi_size (sv_i x)) (uio_offset u + m)).

Lemma wp_sfs_io_out_write sv u x s m r p (Q : unit -> uio * sfs_fs D -> Prop) E :
  io_ready UIO_WRITE sv u x s -> 0 <= m <= uio_resid u -> write_post sv u x s m p ->
  (forall u' s', io_wrote sv u x s m u' s' -> if r =? 0 then Q tt (u', s') else E r (u', s')) ->
  wp (sfs_io_out sv (uio_resid u) 0 r) Q E p.
Proof.
  intros [(W & Hrw & F) Hsm Hmax] Hm [x1 [W1 A1 M1 [F1 R1] S1 (bytes & L1 & B1)]] HQ.
  destruct p as [u1 s1]. cbn [fst snd] in *. destruct A1 as [A1 A1r A1o A1s A1w A1p].
  pose proof (uio_wf_resid _ _ W1) as Hr1. pose proof (uio_wf_total _ _ W1) as Ht1.
  pose proof (uio_wf_offset _ _ W) as Ho. pose proof F1 as (Hx1 & _ & _).
  assert (Fin : forall s2, (exists x2, file_ok sv x2 s2 /\ file_rel sv x s x2 s2 /\
      fbytes s2 (sv_i x2) = fbytes s1 (sv_i x1) /\
      sfi_size (sv_i x2) = (if m =? 0 then sfi_size (sv_i x)
                            else Z.max (sfi_size (sv_i x)) (uio_offset u + m))) ->
    wp (on_u (modify (fun u => set_resid (u32 (uio_resid u + 0)) u)) ;; return_result r) Q E (u1, s2)).
  { intros s2 (x2 & F2 & R2 & B2 & S2). wp_step. apply wp_on_u. wp_steps.
    rewrite Z.add_0_r, wrap_small by lia.
    assert (H : io_wrote sv u x s m (set_resid (uio_resid u1) u1) s2).
    { exists x2, bytes. split_and!; try done. congruence. }
    specialize (HQ _ _ H). unfold return_result. by destruct (r =? 0). }
  unfold sfs_io_out. wp_steps. cbn [fst]. apply wp_on_fs. eapply wp_get_sv; [done|].
  unfold is_write. rewrite A1w, Hrw, bool_decide_true, andb_true_r, A1r, A1o, S1 by done. wp_step.
  destruct (negb (uio_resid u - m =? uio_resid u) && (sfi_size (sv_i x) <? uio_offset u + m)) eqn:Ec.
  - assert (Hc : m <> 0 /\ sfi_size (sv_i x) < uio_offset u + m) by (zbool; cbn in Ec; done || lia).
    apply wp_on_fs. eapply wp_update_inode; [done|]. apply Fin.
    destruct (file_size_update sv x1 s1 (uio_offset u + m) F1) as (F2 & R2 & B2 & S2).
    { unfold MAXBYTES, SFS_BLOCKSIZE in *. lia. }
    eexists. split; [exact F2|]. split; [|split; [exact B2|]].
    + eapply file_rel_trans; [exact R1 | apply F1 | apply F2 | exact R2].
    + rewrite S2. zbool; lia.
  - apply wp_ret, Fin. exists x1. split; [done|]. split; [done|]. split; [done|]. rewrite S1.
    zbool; cbn in Ec; done || lia.
Qed.

Lemma wp_sfs_io_write sv u x s :
  io_ready UIO_WRITE sv u x s ->
  wp (sfs_io sv) (fun _ p => io_wrote sv u x s (uio_resid u) (fst p) (snd p))
     (fun e p => e = ENOSPC /\ exists m, 0 <= m <= uio_resid u /\ io_wrote sv u x s m (fst p) (snd p))
     (u, s).
Proof.
  intros R. pose proof R as [(W & Hrw & F) Hsm Hmax]. pose proof (uio_wf_resid _ _ W) as Hr.
  unfold sfs_io. wp_steps. cbn [fst]. apply wp_on_fs. eapply wp_get_sv; [apply F|].
  unfold is_read. rewrite Hrw, bool_decide_false by done. cbn [andb]. wp_steps.
  unfold result_of. wp_steps. eapply wp_mono; [by apply wp_sfs_io_blocks | |].
  - intros [] p Pr. apply wp_ret. apply (wp_sfs_io_out_write sv u x s (uio_resid u)); [done | lia | exact Pr |].
    intros u' s' H. cbn. done.
  - intros e p (_ & -> & m & Hm & Pr). wp_steps. eapply wp_sfs_io_out_write; [done | exact Hm | exact Pr |].
    intros u' s' H. cbn. split; [done|]. by exists m.
Qed.

(** The number of bytes a read at the uio's offset delivers. *)
Definition readable (u : uio) (x : sfs_vnode) : Z :=
  Z.max 0 (Z.min (uio_resid u) (sfi_size (sv_i x) - uio_offset u)).

Definition io_delivered (sv : Z) (u : uio) (x : sfs_vnode) s (n : Z) (u' : uio) s' : Prop :=
  uio_resid u' = uio_resid u - n /\ uio_offset u' = uio_offset u + n /\
  uio_mem u' = store_all (take (Z.to_nat n) (uio_addrs u))
    (slice (Z.to_nat (uio_offset u)) (Z.to_nat n) (fbytes s (sv_i x))) (uio_mem u) /\
  exists d', s' = set_device d' s /\ dev_same (sfs_device s) d'.

Lemma wp_sfs_io_out_read sv u x s n extra u1 s1 orig (Q : unit -> uio * sfs_fs D -> Prop) E :
  uio_rw u = UIO_READ -> file_ok sv x s -> delivered sv (set_resid n u) x s n u1 s1 -> 0 <= extra < 2 ^ 32 ->
  uio_resid u = n + extra ->
  (forall u' s', io_delivered sv u x s n u' s' -> Q tt (u', s')) ->
  wp (sfs_io_out sv orig extra 0) Q E (u1, s1).
Proof.
  intros Hrw F [W1 [A1 A1r A1o A1s A1w A1p] M1 (d1 & -> & D1)] He Hn HQ. cbn in A1r, A1o, A1w.
  unfold sfs_io_out. wp_steps. cbn [fst]. apply wp_on_fs. eapply wp_get_sv; [apply F|].
  unfold is_write. rewrite A1w, Hrw, bool_decide_false, andb_false_r by done. cbn [andb].
  wp_steps. apply wp_on_u. wp_steps. rewrite A1r, wrap_small by lia.
  unfold return_result. cbn. apply wp_ret, HQ. split; [cbn; lia|]. split; [done|]. split; [done|].
  by exists d1.
Qed.

Lemma wp_sfs_io_read sv u x s E :
  io_ok sv u x s UIO_READ -> small_volume s -> sfi_size (sv_i x) <= MAXBYTES ->
  wp (sfs_io sv) (fun _ p => io_delivered sv u x s (readable u x) (fst p) (snd p)) E (u, s).
Proof.
  intros (W & Hrw & F) Hsm Hmax. pose proof (uio_wf_resid _ _ W) as Hr. pose proof (uio_wf_offset _ _ W) as Ho.
  pose proof (uio_wf_total _ _ W) as Ht. pose proof F as (_ & _ & I). pose proof (ino_size _ _ I) as Hsz.
  unfold sfs_io. wp_steps. cbn [fst]. apply wp_on_fs. eapply wp_get_sv; [apply F|].
  unfold is_read. rewrite Hrw, bool_decide_true by done. cbn [andb].
  rewrite swrap_small by lia. unfold readable.
  destruct (Z.leb_spec (sfi_size (sv_i x)) (uio_offset u)) as [Heof|Heof].
  - apply wp_ret. cbn [fst snd]. replace (Z.max 0 _) with 0 by lia.
    split; [lia|]. split; [lia|]. split; [done|]. exists (sfs_device s). split; [by destruct s|].
    split; [apply F | done].
  - replace (Z.max 0 (Z.min (uio_resid u) (sfi_size (sv_i x) - uio_offset u)))
      with (Z.min (uio_resid u) (sfi_size (sv_i x) - uio_offset u)) by lia.
    set (n := Z.min _ _).
    assert (Ready : io_ready UIO_READ sv (set_resid n u) x s).
    { split; [|done|cbn; lia]. split; [|done].
      apply (uio_wf_seek u (uio_offset u) n W); [lia..]. }
    assert (Go : forall extra, 0 <= extra < 2 ^ 32 -> uio_resid u = n + extra ->
      wp (result_of (sfs_io_blocks sv)) (fun r p => wp (sfs_io_out sv (uio_resid u) extra r)
        (fun _ p => io_delivered sv u x s n (fst p) (snd p)) E p) E (set_resid n u, s)).
    { intros extra He Hn. unfold result_of. wp_steps.
      eapply wp_mono; [by apply wp_sfs_io_blocks | |].
      - intros [] [u1 s1] Pr. apply wp_ret. by eapply wp_sfs_io_out_read.
      - by intros e p [? _]. }
    destruct (Z.ltb_spec (sfi_size (sv_i x)) (uio_offset u + uio_resid u)).
    + rewrite wrap_small by lia. wp_steps. apply wp_kassert; [apply Z.ltb_lt; lia|].
      wp_steps. apply wp_on_u. wp_steps.
      replace (uio_resid u - (uio_offset u + uio_resid u - sfi_size (sv_i x))) with n by lia.
      apply Go; lia.
    + assert (Eu : set_resid n u = u) by (unfold n; rewrite Z.min_l by lia; by destruct u).
      rewrite Eu in Go. wp_steps. apply Go; lia.
Qed.

(** C2: Reading a file delivers exactly its bytes from the offset on, as
    many as were asked for or remain before the end of the file: they land
    at the addresses of the uio in order, the cursors advance by that many,
    and the file system is unchanged. *)
Theorem sfs_io_read_refines sv u x s :
  io_ok sv u x s UIO_READ -> small_volume s -> sfi_size (sv_i x) <= MAXBYTES ->
  exists u' s', sfs_io sv (u, s) = Ret tt (u', s') /\ io_delivered sv u x s (readable u x) u' s'.
Proof.
  intros H1 H2 H3.
  destruct (wp_ret_inv _ _ _ (wp_sfs_io_read sv u x s _ H1 H2 H3)) as ([] & [u' s'] & E & H). eauto.
Qed.


End io.
