(* ===== verification/SfsDir.v ===== *)
(** * SFS: directories, [kern/fs/sfs/sfs_dir.c]

    A directory is a file of 64-byte entries; an entry with inode number 0 is
    a free slot.  A name is the bytes of a C string without its terminator.
    The abstract view of a directory is its list of entries; the theorems
    relate searching, linking and unlinking to the map from names to inode
    numbers that the list stands for. *)

From S2P Require Import Prelude Bitmap CopyInOut Uio Vnode Device Synch SfsDisk SfsCore SfsBmap SfsTrunc.
From S2P Require Import SfsIo.

(** [tsd.sfd_name[sizeof(tsd.sfd_name)-1] = 0] *)
Definition terminate (name : list Z) : list Z := zinsert (Z.of_nat SFS_NAMELEN - 1) 0 name.

(** The name an entry carries, as [strcmp] sees it. *)
Definition entry_name (d : sfs_direntry) : list Z := cstr (terminate (sfd_name d)).

Section dir.
Context {D : Type} `{!BlockDevice D} (curas : option Z).
Implicit Types s : sfs_fs D.

Definition direntry_zero : list Z := replicate (Z.to_nat SFS_DIRENTRY_SIZE) 0.

Definition sfs_readdir (sv slot : Z) : M (sfs_fs D) sfs_direntry :=
  let actualpos := u32 (slot * SFS_DIRENTRY_SIZE) in
  sd <- sfs_metaio curas sv actualpos direntry_zero UIO_READ ;;
  ret (direntry_of_bytes sd).

Definition sfs_writedir (sv slot : Z) (sd : sfs_direntry) : M (sfs_fs D) unit :=
  KASSERT (0 <=? slot) ;;
  let actualpos := u32 (slot * SFS_DIRENTRY_SIZE) in
  _ <- sfs_metaio curas sv actualpos (bytes_of_direntry sd) UIO_WRITE ;;
  ret tt.

Definition sfs_dir_nentries (sv : Z) : M (sfs_fs D) Z :=
  x <- get_sv sv ;;
  KASSERT (sfi_type (sv_i x) =? SFS_TYPE_DIR) ;;
  let size := sfi_size (sv_i x) in
  if negb (size mod SFS_DIRENTRY_SIZE =? 0) then panic
  else ret (size / SFS_DIRENTRY_SIZE).

(** The loop of [sfs_dir_findname]; [found] is the slot and the inode number
    once the name has been seen, [emptyslot] the last free slot or -1. *)
Fixpoint findname_loop (n : nat) (sv i : Z) (name : list Z) (found : option (Z * Z))
    (emptyslot : Z) : M (sfs_fs D) (option (Z * Z) * Z) :=
  match n with
  | O => ret (found, emptyslot)
  | S n' =>
      tsd <- sfs_readdir sv i ;;
      if sfd_ino tsd =? SFS_NOINO then
        findname_loop n' sv (i + 1) name found i
      else if decide (entry_name tsd = name) then
        KASSERT (bool_decide (found = None)) ;;
        findname_loop n' sv (i + 1) name (Some (i, sfd_ino tsd)) emptyslot
      else findname_loop n' sv (i + 1) name found emptyslot
  end.

(** A name that is not there ([ENOENT]) is [None], because a caller wants the
    free slot in that case. *)
Definition sfs_dir_findname (sv : Z) (name : list Z) : M (sfs_fs D) (option (Z * Z) * Z) :=
  nentries <- sfs_dir_nentries sv ;;
  findname_loop (Z.to_nat nentries) sv 0 name None (-1).

(** [bzero(&sd, sizeof(sd)); sd.sfd_ino = ino; strcpy(sd.sfd_name, name);] *)
Definition make_entry (ino : Z) (name : list Z) : sfs_direntry :=
  Direntry ino (splice 0 name (replicate SFS_NAMELEN 0)).

(** The slot of the new entry is handed back. *)
Definition sfs_dir_link (sv : Z) (name : list Z) (ino : Z) : M (sfs_fs D) Z :=
  let* (found, emptyslot) := sfs_dir_findname sv name in
  match found with
  | Some _ => throw EEXIST
  | None =>
      if Z.of_nat SFS_NAMELEN <? Z.of_nat (length name) + 1 then throw ENAMETOOLONG
      else
        emptyslot <- (if emptyslot <? 0 then sfs_dir_nentries sv else ret emptyslot) ;;
        sfs_writedir sv emptyslot (make_entry ino name) ;;
        ret emptyslot
  end.

Definition sfs_dir_unlink (sv slot : Z) : M (sfs_fs D) unit :=
  sfs_writedir sv slot (Direntry SFS_NOINO (replicate SFS_NAMELEN 0)).

(** ** Metadata I/O *)

Lemma wp_metaio_read sv x s pos data (Q : list Z -> sfs_fs D -> Prop) E :
  file_ok sv x s -> 0 <= pos < MAXBYTES -> pos mod SFS_BLOCKSIZE + Z.of_nat (length data) <= SFS_BLOCKSIZE ->
  (forall d', dev_same (sfs_device s) d' ->
     Q (slice (Z.to_nat pos) (length data) (fbytes s (sv_i x))) (set_device d' s)) ->
  wp (sfs_metaio curas sv pos data UIO_READ) Q E s.
Proof.
  intros F Hp Hl HQ. pose proof (position_of pos ltac:(lia)) as P.
  destruct (position_fileblock _ _ _ P) as [Ek Er]. pose proof P as [P1 P2 P3].
  pose proof F as (Hx & W & I). pose proof (vol_size s W) as Vs.
  unfold sfs_metaio. wp_step. apply wp_assert_locked. rewrite Ek, Er.
  rewrite (wrap_small 32 (pos mod SFS_BLOCKSIZE)) by (unfold SFS_BLOCKSIZE in *; lia).
  set (k := pos / SFS_BLOCKSIZE) in *. set (off := pos mod SFS_BLOCKSIZE) in *.
  unfold is_write, is_read. rewrite bool_decide_false by done. wp_step.
  apply (wp_sfs_bmap_lookup curas sv x); [done | done |]. intros b d1 Hd1 Hb.
  assert (Hf : slice (Z.to_nat pos) (length data) (fbytes s (sv_i x)) =
    slice (Z.to_nat off) (length data) (blk s b)).
  { rewrite P1. rewrite <- (Nat2Z.id (length data)). apply (fbytes_read sv x s k off b); [done | by rewrite <- P1 | done | lia | done]. }
  rewrite Hf in HQ. unfold blk in HQ. rewrite (bool_decide_true (UIO_READ = UIO_READ)) by done.
  destruct (Z.eqb_spec b 0) as [|Hne].
  - wp_step. apply wp_kassert; [done|]. apply wp_ret.
    replace (replicate (length data) 0) with (slice (Z.to_nat off) (length data) zeros); [by apply HQ|].
    unfold slice, zeros. rewrite drop_replicate, take_replicate. f_equal. unfold SFS_BLOCKSIZE in *. lia.
  - destruct (fblocks_ok s _ b I W) as [|[Hr _]]; [by eapply list_elem_of_lookup_2 | done |].
    pose proof Hd1 as (Hok & Hdb & Hsec).
    wp_step. apply wp_readblock; [done | cbn; lia | eapply volume_block_lt; [exact W | lia] | done |].
    intros d2 Hd2. wp_step. apply wp_in_bounds; [by apply Z.leb_le|]. apply wp_ret.
    cbn [sfs_device set_device]. rewrite Hsec by lia.
    refine (HQ d2 _). by eapply dev_same_trans.
Qed.

(** A metadata write of [data] at [pos]. *)
Definition meta_wrote (sv : Z) (x : sfs_vnode) s (pos : Z) (data : list Z) (x' : sfs_vnode) s' : Prop :=
  file_ok sv x' s' /\ file_rel sv x s x' s' /\
  fbytes s' (sv_i x') = splice (Z.to_nat pos) data (fbytes s (sv_i x)) /\
  sfi_size (sv_i x') = Z.max (sfi_size (sv_i x)) (pos + Z.of_nat (length data)).

Lemma wp_metaio_write sv x s pos data (Q : list Z -> sfs_fs D -> Prop) (E : Z -> sfs_fs D -> Prop) :
  file_ok sv x s -> 0 <= pos < MAXBYTES -> pos mod SFS_BLOCKSIZE + Z.of_nat (length data) <= SFS_BLOCKSIZE ->
  (forall x' s', meta_wrote sv x s pos data x' s' -> Q data s') ->
  (forall x' s', file_kept sv x s x' s' -> E ENOSPC s') ->
  wp (sfs_metaio curas sv pos data UIO_WRITE) Q E s.
Proof.
  intros F Hp Hl HQ HE. pose proof (position_of pos ltac:(lia)) as P.
  destruct (position_fileblock _ _ _ P) as [Ek Er]. pose proof P as [P1 P2 P3].
  unfold sfs_metaio. wp_step. apply wp_assert_locked. rewrite Ek, Er.
  rewrite (wrap_small 32 (pos mod SFS_BLOCKSIZE)) by (unfold SFS_BLOCKSIZE in *; lia).
  set (k := pos / SFS_BLOCKSIZE) in *. set (off := pos mod SFS_BLOCKSIZE) in *.
  unfold is_write, is_read. rewrite bool_decide_true, bool_decide_false by done. wp_step.
  eapply wp_mono; [by apply (wp_sfs_bmap_alloc curas sv x) | |].
  2:{ intros e s' (-> & x' & K & _). by apply (HE x'). }
  intros b s1 (x1 & K1 & Hb & Ef1). pose proof K1 as ((Hx1 & W1 & I1) & R1 & B1 & S1).
  destruct (Z.eqb_spec b 0); [lia|].
  assert (Hk1 : fblocks s1 (sv_i x1) !! Z.to_nat k = Some b).
  { rewrite Ef1. apply list_lookup_insert_eq. rewrite fblocks_length by apply F. lia. }
  assert (Hnb : nblocks s1 = nblocks s) by (unfold nblocks; by destruct (fr_fs _ _ _ _ _ R1) as [-> _]).
  pose proof (vol_size s1 W1) as Vs.
  wp_step. apply wp_readblock; [apply W1 | lia | eapply volume_block_lt; [exact W1 | lia] | done |].
  intros d1 Hd1. destruct (file_kept_same sv x1 s1 d1 ltac:(apply K1) Hd1) as [K2 Ef2].
  pose proof (file_kept_trans _ _ _ _ _ _ _ K1 K2) as K12.
  assert (Hs : length (dev_sector (sfs_device s1) b) = 512%nat).
  { rewrite dev_sector_length; [done | apply W1 | lia]. }
  assert (Eb : dev_sector (sfs_device s1) b = blk (set_device d1 s1) b).
  { unfold blk. destruct (Z.eqb_spec b 0); [done|]. destruct Hd1 as (_ & _ & Hd1). cbn. rewrite Hd1; [done|lia]. }
  wp_step. apply wp_in_bounds; [by apply Z.leb_le|]. wp_step.
  pose proof Hd1 as (Hok1 & Hdb1 & _).
  apply wp_writeblock; [done | cbn; lia | eapply volume_block_lt; [exact W1 | lia] | |].
  { rewrite splice_length; rewrite Hs; [done|]. unfold SFS_BLOCKSIZE in *. lia. }
  intros d2 Hw. rewrite Eb in Hw. pose proof K12 as (F12 & R12 & B12 & S12).
  destruct (fbytes_write sv x1 (set_device d1 s1) k off b data d2) as (F3 & R3 & B3); try done.
  { by rewrite Ef2. }
  rewrite <- P1, B12 in B3.
  pose proof (file_rel_trans _ _ _ _ _ _ _ R12 ltac:(apply F12) ltac:(apply F3) R3) as R13.
  wp_step. eapply wp_get_sv; [apply F3|]. rewrite swrap_small by (unfold MAXBYTES, SFS_BLOCKSIZE in *; lia).
  rewrite S1. wp_step. destruct (Z.ltb_spec (sfi_size (sv_i x)) (pos + Z.of_nat (length data))).
  - eapply wp_update_inode; [apply F3|]. apply wp_ret.
    destruct (file_size_update sv x1 _ (pos + Z.of_nat (length data)) F3) as (F4 & R4 & B4 & S4).
    { unfold MAXBYTES, SFS_BLOCKSIZE in *. lia. }
    eapply HQ. split; [exact F4|]. split; [|split; [by rewrite B4|]].
    + eapply file_rel_trans; [exact R13 | apply F3 | apply F4 | exact R4].
    + rewrite S4. lia.
  - wp_steps. eapply HQ. split; [exact F3|]. split; [done|]. split; [done|]. rewrite S1. lia.
Qed.

(** ** The abstract directory *)

Definition entry_at (bytes : list Z) (j : nat) : sfs_direntry :=
  direntry_of_bytes (slice (j * 64) 64 bytes).

Definition nslots (i : sfs_dinode) : nat := Z.to_nat (sfi_size i / SFS_DIRENTRY_SIZE).

Definition entries s (i : sfs_dinode) : list sfs_direntry :=
  map (entry_at (fbytes s i)) (seq 0 (nslots i)).

Record dir_ok (sv : Z) (x : sfs_vnode) s : Prop := {
  dir_file : file_ok sv x s;
  dir_type : sfi_type (sv_i x) = SFS_TYPE_DIR;
  dir_size : sfi_size (sv_i x) mod SFS_DIRENTRY_SIZE = 0 /\ sfi_size (sv_i x) <= MAXBYTES
}.

(** The entry in use under [name]. *)
Definition is_match (name : list Z) (e : sfs_direntry) : Prop :=
  sfd_ino e <> SFS_NOINO /\ entry_name e = name.

#[local] Instance is_match_dec name e : Decision (is_match name e).
Proof. unfold is_match. apply _. Defined.

(** Slot and inode number of [name]. *)
Definition dlookup (es : list sfs_direntry) (name : list Z) : option (Z * Z) :=
  (fun p => (Z.of_nat (fst p), sfd_ino (snd p))) <$> list_find (is_match name) es.

(** Each name appears in one slot only. *)
Definition unique (es : list sfs_direntry) : Prop :=
  forall i j a b name, es !! i = Some a -> es !! j = Some b ->
    is_match name a -> is_match name b -> i = j.

Lemma dlookup_Some es name i ino :
  unique es ->
  dlookup es name = Some (i, ino) <->
  exists n e, i = Z.of_nat n /\ es !! n = Some e /\ is_match name e /\ sfd_ino e = ino.
Proof.
  intros U. unfold dlookup. rewrite fmap_Some. split.
  - intros ([n e] & (H1 & H2 & _)%list_find_Some & [= -> ->]). by exists n, e.
  - intros (n & e & -> & H1 & H2 & <-). exists (n, e). split; [|done].
    apply list_find_Some. split; [done|]. split; [done|]. intros j y Hj Hlt Hm.
    pose proof (U _ _ _ _ _ Hj H1 Hm H2). lia.
Qed.

Lemma dlookup_None es name :
  dlookup es name = None <-> forall n e, es !! n = Some e -> ~ is_match name e.
Proof.
  unfold dlookup. rewrite fmap_None, list_find_None, Forall_lookup. done.
Qed.

Lemma nslots_bound sv x s : dir_ok sv x s -> Z.of_nat (nslots (sv_i x)) * 64 = sfi_size (sv_i x).
Proof.
  intros [F _ [H1 _]]. unfold nslots, SFS_DIRENTRY_SIZE in *. pose proof (ino_size _ _ (proj2 (proj2 F))).
  pose proof (Z.div_mod (sfi_size (sv_i x)) 64 ltac:(lia)). rewrite Z2Nat.id; [lia|]. apply Z.div_pos; lia.
Qed.

Lemma entries_lookup s i j : (j < nslots i)%nat -> entries s i !! j = Some (entry_at (fbytes s i) j).
Proof. intros H. unfold entries. rewrite list_lookup_fmap, lookup_seq_lt by done. done. Qed.

Lemma entries_lookup_lt s i j e : entries s i !! j = Some e -> (j < nslots i)%nat.
Proof. intros H%lookup_lt_Some. unfold entries in H. by rewrite length_map, length_seq in H. Qed.

Lemma slot_pos j n : Z.of_nat j * 64 < n -> n <= MAXBYTES ->
  u32 (Z.of_nat j * SFS_DIRENTRY_SIZE) = Z.of_nat j * 64 /\ 0 <= Z.of_nat j * 64 < MAXBYTES /\
  (Z.of_nat j * 64) mod SFS_BLOCKSIZE + 64 <= SFS_BLOCKSIZE.
Proof.
  unfold MAXBYTES, SFS_BLOCKSIZE, SFS_DIRENTRY_SIZE. intros H1 H2. rewrite wrap_small by lia.
  split_and!; try lia. rewrite (Z.div_mod (Z.of_nat j) 8) by lia.
  pose proof (Z.mod_pos_bound (Z.of_nat j) 8 ltac:(lia)).
  replace ((8 * (Z.of_nat j / 8) + Z.of_nat j mod 8) * 64)
    with (Z.of_nat j mod 8 * 64 + Z.of_nat j / 8 * 512) by lia.
  rewrite Z.mod_add, Z.mod_small by lia. lia.
Qed.

Lemma wp_sfs_readdir sv x s j (Q : sfs_direntry -> sfs_fs D -> Prop) E :
  dir_ok sv x s -> (j < nslots (sv_i x))%nat ->
  (forall d', dev_same (sfs_device s) d' -> Q (entry_at (fbytes s (sv_i x)) j) (set_device d' s)) ->
  wp (sfs_readdir sv (Z.of_nat j)) Q E s.
Proof.
  intros Dk Hj HQ. pose proof (nslots_bound _ _ _ Dk) as Hn. pose proof Dk as [F _ [_ Hm]].
  destruct (slot_pos j (sfi_size (sv_i x)) ltac:(lia) Hm) as (E1 & E2 & E3).
  unfold sfs_readdir. cbv zeta. rewrite E1. wp_step.
  apply (wp_metaio_read sv x); [done | done | done |]. intros d' Hd. wp_step.
  replace (Z.to_nat (Z.of_nat j * 64)) with (j * 64)%nat by lia. by apply HQ.
Qed.

Lemma dir_ok_same sv x s d' :
  dir_ok sv x s -> dev_same (sfs_device s) d' ->
  dir_ok sv x (set_device d' s) /\ fbytes (set_device d' s) (sv_i x) = fbytes s (sv_i x).
Proof.
  intros [F T Z] Hd. destruct (file_kept_same sv x s d' F Hd) as [(F' & _ & B & _) _]. by split; [split|].
Qed.

Lemma wp_sfs_dir_nentries sv x s (Q : Z -> sfs_fs D -> Prop) E :
  dir_ok sv x s -> Q (Z.of_nat (nslots (sv_i x))) s -> wp (sfs_dir_nentries sv) Q E s.
Proof.
  intros Dk HQ. pose proof Dk as [F T [Z1 _]]. unfold sfs_dir_nentries.
  wp_step. eapply wp_get_sv; [apply F|]. wp_step. apply wp_kassert; [by apply Z.eqb_eq|]. cbv zeta.
  rewrite Z1. cbn [Z.eqb negb]. apply wp_ret. unfold nslots in HQ. rewrite Z2Nat.id in HQ; [done|].
  apply Z.div_pos; [|done]. apply (ino_size _ _ (proj2 (proj2 F))).
Qed.

(** What the search knows after [i] slots. *)
Record search_inv (es : list sfs_direntry) (name : list Z) (i : nat) (found : option (Z * Z))
    (emptyslot : Z) : Prop := {
  si_none : found = None -> forall j e, (j < i)%nat -> es !! j = Some e -> ~ is_match name e;
  si_some : forall k ino, found = Some (k, ino) -> exists j e, k = Z.of_nat j /\ (j < i)%nat /\
    es !! j = Some e /\ is_match name e /\ sfd_ino e = ino;
  si_empty : emptyslot = -1 \/ exists j e, emptyslot = Z.of_nat j /\ (j < i)%nat /\
    es !! j = Some e /\ sfd_ino e = SFS_NOINO
}.

Lemma search_inv_weaken es name i found emptyslot e :
  search_inv es name i found emptyslot -> es !! i = Some e ->
  (~ is_match name e \/ found <> None) -> search_inv es name (S i) found emptyslot.
Proof.
  intros [H1 H2 H3] He Hm. split.
  - intros Hn j e' Hj He'. destruct (Nat.eq_dec j i) as [->|]; [|apply (H1 Hn j e'); [lia | done]].
    destruct Hm; congruence.
  - intros k ino Hf. destruct (H2 k ino Hf) as (j & e' & ? & ? & ?). exists j, e'.
    split; [done|]. split; [lia | done].
  - destruct H3 as [|(j & e' & ? & ? & ?)]; [by left|]. right. exists j, e'.
    split; [done|]. split; [lia | done].
Qed.

Lemma wp_findname_loop sv x s name n i found emptyslot (Q : option (Z * Z) * Z -> sfs_fs D -> Prop) E :
  dir_ok sv x s -> unique (entries s (sv_i x)) -> (i + n = nslots (sv_i x))%nat ->
  search_inv (entries s (sv_i x)) name i found emptyslot ->
  (forall found' empty' d', search_inv (entries s (sv_i x)) name (nslots (sv_i x)) found' empty' ->
     dev_same (sfs_device s) d' -> Q (found', empty') (set_device d' s)) ->
  forall d, dev_same (sfs_device s) d ->
  wp (findname_loop n sv (Z.of_nat i) name found emptyslot) Q E (set_device d s).
Proof.
  intros Dk U. revert i found emptyslot.
  induction n as [|n IH]; intros i found emptyslot Hi Inv HQ d Hd; cbn [findname_loop].
  { apply wp_ret. apply HQ; [|done]. by replace (nslots (sv_i x)) with i by lia. }
  destruct (dir_ok_same sv x s d Dk Hd) as [Dk' B]. wp_step.
  apply (wp_sfs_readdir sv x); [done | lia |]. intros d2 Hd2. rewrite B.
  assert (Hd3 : dev_same (sfs_device s) d2) by (by eapply dev_same_trans).
  assert (He : entries s (sv_i x) !! i = Some (entry_at (fbytes s (sv_i x)) i))
    by (apply entries_lookup; lia).
  set (e := entry_at (fbytes s (sv_i x)) i) in *. replace (Z.of_nat i + 1) with (Z.of_nat (S i)) by lia.
  change (set_device d2 (set_device d s)) with (set_device d2 s).
  destruct (Z.eqb_spec (sfd_ino e) SFS_NOINO) as [Hz|Hz].
  - apply IH; [lia | | done | done]. split.
    + eapply si_none, search_inv_weaken; [done | done |]. left. intros [? _]. done.
    + eapply si_some, search_inv_weaken; [done | done |]. left. intros [? _]. done.
    + right. exists i, e. split_and!; [done | lia | done | done].
  - destruct (decide (entry_name e = name)) as [Hn|Hn].
    + assert (Hm : is_match name e) by done.
      assert (found = None) as ->.
      { destruct found as [[k ino]|]; [|done]. destruct (si_some _ _ _ _ _ Inv k ino eq_refl)
          as (j & e' & -> & Hj & He' & Hm' & _). pose proof (U _ _ _ _ _ He' He Hm' Hm). lia. }
      wp_step. apply wp_kassert; [by apply bool_decide_eq_true_2|].
      apply IH; [lia | | done | done]. split.
      * done.
      * intros k ino [= <- <-]. exists i, e. split_and!; [done | lia | done..].
      * destruct (si_empty _ _ _ _ _ Inv) as [|(j & e' & ? & ? & ?)]; [by left|].
        right. exists j, e'. split; [done|]. split; [lia | done].
    + apply IH; [lia | | done | done]. eapply search_inv_weaken; [done | done |].
      left. intros [_ ?]. done.
Qed.

(** A free slot handed back by the search. *)
Definition empty_ok (es : list sfs_direntry) (emptyslot : Z) : Prop :=
  emptyslot = -1 \/ exists j e, emptyslot = Z.of_nat j /\ es !! j = Some e /\ sfd_ino e = SFS_NOINO.

Lemma wp_sfs_dir_findname sv x s name (Q : option (Z * Z) * Z -> sfs_fs D -> Prop) E :
  dir_ok sv x s -> unique (entries s (sv_i x)) ->
  (forall empty' d', empty_ok (entries s (sv_i x)) empty' -> dev_same (sfs_device s) d' ->
     Q (dlookup (entries s (sv_i x)) name, empty') (set_device d' s)) ->
  wp (sfs_dir_findname sv name) Q E s.
Proof.
  intros Dk U HQ. unfold sfs_dir_findname. wp_step. eapply wp_sfs_dir_nentries; [done|].
  rewrite Nat2Z.id. assert (Eself : set_device (sfs_device s) s = s) by (by destruct s).
  rewrite <- Eself at 1. change 0 with (Z.of_nat 0).
  eapply (wp_findname_loop sv x s name); [done | done | done | | |].
  - split; [lia | done | by left].
  - intros found' empty' d' [H1 H2 H3] Hd. replace found' with (dlookup (entries s (sv_i x)) name).
    + apply HQ; [|done]. destruct H3 as [|(j & e & ? & _ & ? & ?)]; [by left|]. right. by exists j, e.
    + destruct found' as [[k ino]|].
      * apply dlookup_Some; [done|]. destruct (H2 k ino eq_refl) as (j & e & ? & _ & ? & ? & ?). by exists j, e.
      * apply dlookup_None. intros n e He. eapply H1; [done | by eapply entries_lookup_lt | done].
  - split; [apply Dk | done].
Qed.

(** Searching a directory returns the slot and the inode number of the
    entry in use that carries the name, or reports that there is none,
    without changing anything; the free slot it reports really is free. *)
Theorem sfs_dir_findname_correct sv x s name :
  dir_ok sv x s -> unique (entries s (sv_i x)) ->
  exists emptyslot d', sfs_dir_findname sv name s =
      Ret (dlookup (entries s (sv_i x)) name, emptyslot) (set_device d' s) /\
    empty_ok (entries s (sv_i x)) emptyslot /\ dev_same (sfs_device s) d'.
Proof.
  intros Dk U.
  destruct (wp_ret_inv (sfs_dir_findname sv name) (fun r s' => exists e d',
    r = (dlookup (entries s (sv_i x)) name, e) /\ s' = set_device d' s /\
    empty_ok (entries s (sv_i x)) e /\ dev_same (sfs_device s) d') s) as (r & s' & E & H).
  - apply (wp_sfs_dir_findname sv x); [done | done |]. intros e d' He Hd. by exists e, d'.
  - destruct H as (e & d' & -> & -> & He & Hd). by exists e, d'.
Qed.

(** ** Writing a slot *)

Lemma entry_at_splice bytes k e j :
  direntry_shape e -> (k * 64 + 64 <= length bytes)%nat -> (j * 64 + 64 <= length bytes)%nat ->
  entry_at (splice (k * 64) (bytes_of_direntry e) bytes) j = if decide (j = k) then e else entry_at bytes j.
Proof.
  intros He Hk Hj. destruct (direntry_bytes_roundtrip e He) as [Er El].
  change (Z.to_nat SFS_DIRENTRY_SIZE) with 64%nat in El. unfold entry_at. destruct (decide (j = k)) as [->|Hne].
  - rewrite <- Er at 2. f_equal. rewrite <- El at 2. apply slice_splice_eq. lia.
  - f_equal. apply list_eq. intros m. destruct (Nat.lt_ge_cases m 64) as [Hm|Hm].
    + rewrite !lookup_slice by done. apply lookup_splice_out; [lia|]. rewrite El. lia.
    + rewrite !lookup_ge_None_2; [done | rewrite slice_length; lia | ].
      rewrite slice_length; [lia|]. rewrite splice_length; lia.
Qed.

(** The list of entries with slot [k], old or the next new one, set to [e]. *)
Definition set_slot (k : nat) (e : sfs_direntry) (es : list sfs_direntry) : list sfs_direntry :=
  if decide (k < length es)%nat then <[k := e]> es else es ++ [e].

Lemma entries_length s i : length (entries s i) = nslots i.
Proof. unfold entries. by rewrite length_map, length_seq. Qed.

Lemma entries_written sv x s x' s' k e :
  dir_ok sv x s -> direntry_shape e -> (k <= nslots (sv_i x))%nat -> Z.of_nat k * 64 + 64 <= MAXBYTES ->
  meta_wrote sv x s (Z.of_nat k * 64) (bytes_of_direntry e) x' s' ->
  dir_ok sv x' s' /\ entries s' (sv_i x') = set_slot k e (entries s (sv_i x)).
Proof.
  intros Dk He Hk Hmax (F' & R & B & S). pose proof (nslots_bound _ _ _ Dk) as Hn.
  destruct (direntry_bytes_roundtrip e He) as [_ El]. rewrite El in S.
  change (Z.of_nat (Z.to_nat SFS_DIRENTRY_SIZE)) with 64 in S.
  assert (Dk' : dir_ok sv x' s').
  { pose proof Dk as [F T [Z1 Z2]]. split; [done | | split].
    - destruct (fr_meta _ _ _ _ _ R) as [-> _]. done.
    - rewrite S. unfold SFS_DIRENTRY_SIZE in *. destruct (Z.max_spec (sfi_size (sv_i x)) (Z.of_nat k * 64 + 64)) as [[_ ->]|[_ ->]]; [|done].
      replace (Z.of_nat k * 64 + 64) with ((Z.of_nat k + 1) * 64) by lia. apply Z.mod_mul. lia.
    - rewrite S. lia. }
  split; [done|]. pose proof (nslots_bound _ _ _ Dk') as Hn'.
  pose proof (fbytes_length sv x s (dir_file _ _ _ Dk)) as Hfl.
  replace (Z.to_nat (Z.of_nat k * 64)) with (k * 64)%nat in B by lia.
  pose proof (dir_size _ _ _ Dk') as [_ Hmax'].
  assert (Hlen : length (set_slot k e (entries s (sv_i x))) = nslots (sv_i x')).
  { unfold set_slot. rewrite entries_length.
    case_decide; [rewrite length_insert, entries_length; lia|].
    rewrite length_app, entries_length. cbn. lia. }
  apply list_eq_same_length with (nslots (sv_i x')); [done | apply entries_length |].
  intros j a b Hj Ha Hb. rewrite entries_lookup in Ha by done. injection Ha as <-. rewrite B.
  rewrite entry_at_splice by (done || lia).
  unfold set_slot in Hb. rewrite entries_length in Hb. case_decide as Hlt.
  - destruct (decide (j = k)) as [->|].
    + rewrite list_lookup_insert_eq in Hb by (rewrite entries_length; lia). congruence.
    + rewrite list_lookup_insert_ne in Hb by done.
      rewrite entries_lookup in Hb by (apply entries_lookup_lt in Hb; lia). congruence.
  - destruct (decide (j = k)) as [->|].
    + rewrite lookup_app_r in Hb by (rewrite entries_length; lia).
      replace (k - length (entries s (sv_i x)))%nat with 0%nat in Hb by (rewrite entries_length; lia).
      cbn in Hb. congruence.
    + rewrite lookup_app_l in Hb by (rewrite entries_length; lia).
      rewrite entries_lookup in Hb by lia. congruence.
Qed.

Lemma wp_sfs_writedir sv x s k e (Q : unit -> sfs_fs D -> Prop) (E : Z -> sfs_fs D -> Prop) :
  dir_ok sv x s -> direntry_shape e -> (k <= nslots (sv_i x))%nat -> Z.of_nat k * 64 + 64 <= MAXBYTES ->
  (forall x' s', dir_ok sv x' s' -> file_rel sv x s x' s' ->
     entries s' (sv_i x') = set_slot k e (entries s (sv_i x)) -> Q tt s') ->
  (forall x' s', file_kept sv x s x' s' -> E ENOSPC s') ->
  wp (sfs_writedir sv (Z.of_nat k) e) Q E s.
Proof.
  intros Dk He Hk Hmax HQ HE. destruct (direntry_bytes_roundtrip e He) as [_ El].
  destruct (slot_pos k MAXBYTES ltac:(lia) ltac:(lia)) as (E1 & E2 & E3).
  unfold sfs_writedir. wp_step. apply wp_kassert; [apply Z.leb_le; lia|]. cbv zeta. rewrite E1. wp_step.
  apply (wp_metaio_write sv x); [apply Dk | done | by rewrite El | |].
  - intros x' s' Hw. wp_step. destruct (entries_written _ _ _ _ _ _ _ Dk He Hk Hmax Hw) as [Dk' Ee].
    eapply HQ; [done | apply Hw | done].
  - intros x' s' K. by eapply HE.
Qed.

Lemma make_entry_shape ino name :
  word_ok ino -> (length name < SFS_NAMELEN)%nat -> direntry_shape (make_entry ino name).
Proof.
  intros Hi Hn. split; [done|]. cbn [sfd_name make_entry].
  rewrite splice_length; rewrite length_replicate; [done | lia].
Qed.

Lemma cstr_app name rest : Forall (fun c => c <> 0) name -> cstr (name ++ 0 :: rest) = name.
Proof.
  induction 1 as [|c name Hc _ IH]; [done|]. cbn. destruct (Z.eqb_spec c 0); [done|]. by rewrite IH.
Qed.

Lemma make_entry_name ino name :
  Forall (fun c => c <> 0) name -> (length name < SFS_NAMELEN)%nat -> entry_name (make_entry ino name) = name.
Proof.
  intros Hz Hn. unfold SFS_NAMELEN in *. unfold entry_name, terminate. cbn [sfd_name make_entry].
  assert (E : splice 0 name (replicate 60 0) = name ++ replicate (60 - length name) 0).
  { unfold splice. cbn [take Nat.add app]. by rewrite drop_replicate. }
  unfold SFS_NAMELEN. rewrite E. change (Z.of_nat 60 - 1) with (Z.of_nat 59). unfold zinsert.
  change (0 <=? Z.of_nat 59) with true. cbv iota. rewrite Nat2Z.id.
  rewrite list_insert_id.
  - replace (60 - length name)%nat with (S (59 - length name)) by lia. by apply cstr_app.
  - rewrite lookup_app_r by lia. apply lookup_replicate_2. lia.
Qed.

(** The map from names to inode numbers. *)
Definition dmap (es : list sfs_direntry) (name : list Z) : option Z := snd <$> dlookup es name.

Lemma dmap_Some es name ino :
  unique es -> dmap es name = Some ino <-> exists n e, es !! n = Some e /\ is_match name e /\ sfd_ino e = ino.
Proof.
  intros U. unfold dmap. rewrite fmap_Some. split.
  - intros ([i n] & H & ->). apply dlookup_Some in H; [|done].
    destruct H as (m & e & _ & H1 & H2 & H3). by exists m, e.
  - intros (n & e & H1 & H2 & H3). exists (Z.of_nat n, ino). split; [|done].
    apply dlookup_Some; [done|]. by exists n, e.
Qed.

Lemma set_slot_lookup k e es j a :
  (k <= length es)%nat -> set_slot k e es !! j = Some a <-> (j = k /\ a = e) \/ (j <> k /\ es !! j = Some a).
Proof.
  intros Hk. unfold set_slot. case_decide.
  - destruct (decide (j = k)) as [->|].
    + rewrite list_lookup_insert_eq by done. naive_solver.
    + rewrite list_lookup_insert_ne by done. naive_solver.
  - assert (k = length es) as -> by lia. destruct (decide (j = length es)) as [->|].
    + rewrite list_lookup_middle by done. naive_solver.
    + rewrite lookup_app. destruct (es !! j) eqn:Ej; [naive_solver|].
      apply lookup_ge_None in Ej. rewrite (lookup_ge_None_2 [e]) by (cbn; lia). naive_solver.
Qed.

(** Replacing a slot that held no entry in use. *)
Lemma dmap_set_slot k e es name ino :
  unique es -> (k <= length es)%nat -> (forall a, es !! k = Some a -> sfd_ino a = SFS_NOINO) ->
  dmap es name = None -> is_match name e -> sfd_ino e = ino ->
  unique (set_slot k e es) /\
  forall n, dmap (set_slot k e es) n = if decide (n = name) then Some ino else dmap es n.
Proof.
  intros U Hk Hfree Hnone Hm Hino.
  assert (No : forall j a, es !! j = Some a -> ~ is_match name a).
  { apply dlookup_None. unfold dmap in Hnone. by rewrite fmap_None in Hnone. }
  assert (U' : unique (set_slot k e es)).
  { intros i j a b n Ha Hb Hma Hmb. apply set_slot_lookup in Ha, Hb; [|done..].
    destruct Ha as [[-> ->]|[Hi Ha]], Hb as [[-> ->]|[Hj Hb]]; [done | | |by eapply U].
    - destruct Hma as [_ E1], Hm as [_ E2]. rewrite E1 in E2. subst n. by apply No in Hb.
    - destruct Hmb as [_ E1], Hm as [_ E2]. rewrite E1 in E2. subst n. by apply No in Ha. }
  split; [done|]. intros n. apply option_eq. intros r. rewrite dmap_Some by done.
  destruct (decide (n = name)) as [->|Hne].
  - split.
    + intros (j & a & Ha & Hma & <-). apply set_slot_lookup in Ha; [|done].
      destruct Ha as [[_ ->]|[_ Ha]]; [congruence|]. by apply No in Ha.
    + intros [= <-]. exists k, e. split; [apply set_slot_lookup; auto | done].
  - rewrite dmap_Some by done. split; intros (j & a & Ha & Hma & Hr).
    + apply set_slot_lookup in Ha; [|done]. destruct Ha as [[_ ->]|[_ Ha]]; [|by exists j, a].
      destruct Hma as [_ E1], Hm as [_ E2]. congruence.
    + exists j, a. split; [|done]. apply set_slot_lookup; [done|]. right. split; [|done].
      intros ->. apply Hfree in Ha. by destruct Hma.
Qed.

(** ** Linking and unlinking *)

(** The directory after [name] has been entered for [ino]. *)
Definition linked (sv : Z) (x : sfs_vnode) s (name : list Z) (ino : Z) s' : Prop :=
  dmap (entries s (sv_i x)) name = None /\
  exists x', dir_ok sv x' s' /\ file_rel sv x s x' s' /\ unique (entries s' (sv_i x')) /\
    forall n, dmap (entries s' (sv_i x')) n =
      if decide (n = name) then Some ino else dmap (entries s (sv_i x)) n.

(** The ways it can fail, none of which changes the directory. *)
Definition link_failed (sv : Z) (x : sfs_vnode) s (name : list Z) (e : Z) s' : Prop :=
  (exists x', file_kept sv x s x' s') /\
  match dmap (entries s (sv_i x)) name with
  | Some _ => e = EEXIST
  | None => e = (if decide (length name < SFS_NAMELEN)%nat then ENOSPC else ENAMETOOLONG)
  end.

Lemma wp_sfs_dir_link sv x s name ino :
  dir_ok sv x s -> unique (entries s (sv_i x)) -> sfi_size (sv_i x) + 64 <= MAXBYTES ->
  Forall (fun c => c <> 0) name -> word_ok ino -> ino <> SFS_NOINO ->
  wp (sfs_dir_link sv name ino) (fun _ => linked sv x s name ino) (link_failed sv x s name) s.
Proof.
  intros Dk U Hmax Hz Hi Hi0. pose proof (nslots_bound _ _ _ Dk) as Hn.
  unfold sfs_dir_link. wp_step. apply (wp_sfs_dir_findname sv x); [done | done |].
  intros empty d1 He Hd1. destruct (dir_ok_same sv x s d1 Dk Hd1) as [Dk1 B1].
  destruct (file_kept_same sv x s d1 (dir_file _ _ _ Dk) Hd1) as [K1 _].
  assert (Ees : entries (set_device d1 s) (sv_i x) = entries s (sv_i x)) by (unfold entries; by rewrite B1).
  assert (Efail : forall e, match dmap (entries s (sv_i x)) name with
      | Some _ => e = EEXIST
      | None => e = (if decide (length name < SFS_NAMELEN)%nat then ENOSPC else ENAMETOOLONG) end ->
      forall x' s', file_kept sv x (set_device d1 s) x' s' -> link_failed sv x s name e s').
  { intros e H x' s' K. split; [|done]. exists x'. by eapply file_kept_trans. }
  destruct (dlookup (entries s (sv_i x)) name) as [[k i']|] eqn:El.
  { apply wp_throw. eapply Efail; [unfold dmap; by rewrite El | by apply file_kept_refl, Dk1]. }
  assert (Hnone : dmap (entries s (sv_i x)) name = None) by (unfold dmap; by rewrite El).
  rewrite Hnone in Efail.
  destruct (Z.ltb_spec (Z.of_nat SFS_NAMELEN) (Z.of_nat (length name) + 1)) as [Hlong|Hshort].
  { apply wp_throw. eapply Efail; [|by apply file_kept_refl, Dk1]. rewrite decide_False by lia. done. }
  assert (Hlen : (length name < SFS_NAMELEN)%nat) by lia.
  (* the slot the entry goes to *)
  assert (Slot : forall (Q : Z -> sfs_fs D -> Prop) E,
    (forall k, (k <= nslots (sv_i x))%nat ->
       (forall a, entries s (sv_i x) !! k = Some a -> sfd_ino a = SFS_NOINO) -> Q (Z.of_nat k) (set_device d1 s)) ->
    wp (if empty <? 0 then sfs_dir_nentries sv else ret empty) Q E (set_device d1 s)).
  { intros Q E HQ. destruct He as [->|(j & e & -> & Hj & Hfree)].
    - cbn. eapply wp_sfs_dir_nentries; [done|]. apply HQ; [lia|].
      intros a Ha%entries_lookup_lt. lia.
    - destruct (Z.ltb_spec (Z.of_nat j) 0); [lia|]. apply wp_ret, HQ.
      + apply entries_lookup_lt in Hj. lia.
      + intros a Ha. congruence. }
  wp_step. apply Slot. intros k Hk Hfree. wp_step.
  apply (wp_sfs_writedir sv x); [done | by apply make_entry_shape | done | lia | |].
  - intros x' s' Dk' R' Ee. apply wp_ret. split; [done|]. exists x'. rewrite Ees in Ee. rewrite Ee.
    destruct (dmap_set_slot k (make_entry ino name) (entries s (sv_i x)) name ino) as [U' Hd']; try done.
    { by rewrite entries_length. }
    { split; [done|]. by apply make_entry_name. }
    split; [done|]. split; [|done].
    eapply file_rel_trans; [apply K1 | apply Dk1 | apply Dk' | exact R'].
  - intros x' s' K. eapply Efail; [by rewrite decide_True | done].
Qed.


Lemma wp_sfs_dir_unlink sv x s slot name ino :
  dir_ok sv x s -> unique (entries s (sv_i x)) -> dlookup (entries s (sv_i x)) name = Some (slot, ino) ->
  wp (sfs_dir_unlink sv slot)
    (fun _ s' => exists x', dir_ok sv x' s' /\ file_rel sv x s x' s' /\ unique (entries s' (sv_i x')) /\
       forall n, dmap (entries s' (sv_i x')) n = if decide (n = name) then None else dmap (entries s (sv_i x)) n)
    (fun e s' => e = ENOSPC /\ exists x', file_kept sv x s x' s') s.
Proof.
  intros Dk U Hl. apply dlookup_Some in Hl as (k & e & -> & Hk & Hm & Hino); [|done].
  pose proof (entries_lookup_lt _ _ _ _ Hk) as Hlt. pose proof (nslots_bound _ _ _ Dk) as Hn.
  pose proof (dir_size _ _ _ Dk) as [_ Hmax]. unfold sfs_dir_unlink.
  set (e0 := Direntry SFS_NOINO (replicate SFS_NAMELEN 0)).
  assert (H0 : direntry_shape e0) by (split; [unfold word_ok; cbn; unfold SFS_NOINO; lia | done]).
  apply (wp_sfs_writedir sv x); [done | done | lia | lia | |].
  2:{ intros x' s' K. split; [done|]. by exists x'. }
  intros x' s' Dk' R' Ee. exists x'. split; [done|]. split; [done|].
  assert (Hle : (k <= length (entries s (sv_i x)))%nat) by (rewrite entries_length; lia).
  assert (U' : unique (entries s' (sv_i x'))).
  { rewrite Ee. intros i j a b n Ha Hb Hma Hmb. apply set_slot_lookup in Ha, Hb; [|done..].
    destruct Ha as [[-> ->]|[Hi Ha]]; [by destruct Hma|].
    destruct Hb as [[-> ->]|[Hj Hb]]; [by destruct Hmb | by eapply U]. }
  split; [done|]. intros n. apply option_eq. intros r. rewrite dmap_Some by done. rewrite Ee. split.
  - intros (j & a & Ha & Hma & Hr). apply set_slot_lookup in Ha; [|done].
    destruct Ha as [[-> ->]|[Hj Ha]]; [by destruct Hma|].
    destruct (decide (n = name)) as [->|].
    + exfalso. apply Hj. by eapply U.
    + apply dmap_Some; [done|]. by exists j, a.
  - destruct (decide (n = name)) as [|Hne]; [done|]. rewrite dmap_Some by done.
    intros (j & a & Ha & Hma & Hr). exists j, a. split; [|done]. apply set_slot_lookup; [done|].
    right. split; [|done]. intros ->. rewrite Hk in Ha. injection Ha as <-.
    apply Hne. destruct Hm as [_ <-], Hma as [_ <-]. done.
Qed.


End dir.
