(* ===== verification/SfsInode.v ===== *)
(** * SFS: inodes in memory, [kern/fs/sfs/sfs_inode.c] and [kern/vfs/vnode.c]

    Loading an inode as a vnode, the reference counts of vnodes, and the
    reclaiming of a vnode whose last reference is gone.  The memory
    allocator is an input: [ae_sv] is the pointer [kmalloc] returns for a new
    vnode (or null) and [ae_grow] says whether the vnode table can grow. *)

From S2P Require Import Prelude Bitmap CopyInOut Uio Vnode Device Synch SfsDisk SfsCore SfsBmap SfsTrunc.
From S2P Require Import SfsIo SfsDir.

Record alloc_env := AllocEnv { ae_sv : option Z; ae_grow : bool }.

Section inode.
Context {D : Type} `{!BlockDevice D} (curas : option Z) (env : alloc_env).
Implicit Types s : sfs_fs D.

(** ** Abstract vnodes, [kern/vfs/vnode.c] *)

Definition vnode_init (ops : vnode_ops) (i : sfs_dinode) (ino : Z) (dirty : bool) : sfs_vnode :=
  SfsVnode 1 ops i ino dirty.

Definition vnode_cleanup (sv : Z) : M (sfs_fs D) unit :=
  x <- get_sv sv ;;
  KASSERT (vn_refcount x =? 1) ;;
  put_sv sv (set_refcount 0 x).

Definition vnode_incref (sv : Z) : M (sfs_fs D) unit :=
  update_sv sv (fun x => set_refcount (i32 (vn_refcount x + 1)) x).

(** The checks before every [VOP_] call that can fail for an SFS vnode. *)
Definition vnode_check (sv : Z) : M (sfs_fs D) unit :=
  x <- get_sv sv ;;
  if vn_refcount x <? 0 then panic
  else if vn_refcount x =? 0 then panic
  else ret tt.

(** ** Inodes *)

Definition sfs_sync_inode (sv : Z) : M (sfs_fs D) unit :=
  x <- get_sv sv ;;
  if sv_dirty x then
    sfs_writeblock curas (sv_ino x) (bytes_of_dinode (sv_i x)) ;;
    update_sv sv (set_dirty false)
  else ret tt.

(** [vnodearray_remove] at the index of the vnode. *)
Fixpoint remove_first (p : Z) (l : list Z) : list Z :=
  match l with
  | [] => []
  | q :: l' => if q =? p then l' else q :: remove_first p l'
  end.

(** [kfree(sv)] *)
Definition free_sv (sv : Z) : M (sfs_fs D) unit :=
  modify (fun s => set_heap (delete sv (sv_heap s)) s).

Definition sfs_reclaim (sv : Z) : M (sfs_fs D) unit :=
  vfs_biglock_acquire ;;
  x <- get_sv sv ;;
  if negb (vn_refcount x =? 1) then
    KASSERT (1 <? vn_refcount x) ;;
    put_sv sv (set_refcount (vn_refcount x - 1) x) ;;
    vfs_biglock_release ;;
    throw EBUSY
  else
    (if sfi_linkcount (sv_i x) =? 0 then
       catch (sfs_itrunc curas sv 0) (fun result => vfs_biglock_release ;; throw result)
     else ret tt) ;;
    catch (sfs_sync_inode sv) (fun result => vfs_biglock_release ;; throw result) ;;
    x <- get_sv sv ;;
    (if sfi_linkcount (sv_i x) =? 0 then sfs_bfree (sv_ino x) else ret tt) ;;
    s <- get ;;
    (if bool_decide (sv ∈ sfs_vnodes s)
     then modify (fun s => set_vnodes (remove_first sv (sfs_vnodes s)) s) else panic) ;;
    vnode_cleanup sv ;;
    vfs_biglock_release ;;
    free_sv sv.

Definition vnode_decref (sv : Z) : M (sfs_fs D) unit :=
  x <- get_sv sv ;;
  KASSERT (0 <? vn_refcount x) ;;
  if 1 <? vn_refcount x then put_sv sv (set_refcount (vn_refcount x - 1) x)
  else vnode_check sv ;; catch (sfs_reclaim sv) (fun _ => ret tt).

(** The search of the vnode table. *)
Fixpoint loadvnode_search (l : list Z) (ino forcetype : Z) : M (sfs_fs D) (option Z) :=
  match l with
  | [] => ret None
  | sv :: l' =>
      x <- get_sv sv ;;
      used <- sfs_bused (sv_ino x) ;;
      if used =? 0 then panic
      else if sv_ino x =? ino then
        KASSERT (forcetype =? SFS_TYPE_INVAL) ;;
        vnode_incref sv ;;
        ret (Some sv)
      else loadvnode_search l' ino forcetype
  end.

Definition ops_of_type (type : Z) : option vnode_ops :=
  if type =? SFS_TYPE_FILE then Some sfs_fileops
  else if type =? SFS_TYPE_DIR then Some sfs_dirops
  else None.

Definition sfs_loadvnode (ino forcetype : Z) : M (sfs_fs D) Z :=
  s <- get ;;
  found <- loadvnode_search (sfs_vnodes s) ino forcetype ;;
  match found with
  | Some sv => ret sv
  | None =>
      match ae_sv env with
      | None => throw ENOMEM
      | Some sv =>
          used <- sfs_bused ino ;;
          if used =? 0 then panic
          else
            data <- sfs_readblock curas ino zeros ;;
            let i := dinode_of_bytes data in
            let* (i, dirty) :=
              (if negb (forcetype =? SFS_TYPE_INVAL) then
                 KASSERT (sfi_type i =? SFS_TYPE_INVAL) ;; ret (set_type forcetype i, true)
               else ret (i, false)) in
            ops <- oob (ops_of_type (sfi_type i)) ;;
            put_sv sv (vnode_init ops i ino dirty) ;;
            if ae_grow env then
              modify (fun s => set_vnodes (sfs_vnodes s ++ [sv]) s) ;; ret sv
            else
              vnode_cleanup sv ;; free_sv sv ;; throw ENOMEM
      end
  end.

Definition sfs_makeobj (type : Z) : M (sfs_fs D) Z :=
  ino <- sfs_balloc curas ;;
  catch (sfs_loadvnode ino type) (fun result => sfs_bfree ino ;; throw result).

Definition sfs_getroot : M (sfs_fs D) Z :=
  vfs_biglock_acquire ;;
  sv <- catch (sfs_loadvnode SFS_ROOTDIR_INO SFS_TYPE_INVAL)
          (fun result => vfs_biglock_release ;; throw result) ;;
  x <- get_sv sv ;;
  if negb (sfi_type (sv_i x) =? SFS_TYPE_DIR) then
    vfs_biglock_release ;; throw EINVAL
  else vfs_biglock_release ;; ret sv.

(** [sfs_lookonce] of [sfs_dir.c]: the vnode and the slot. *)
Definition sfs_lookonce (sv : Z) (name : list Z) : M (sfs_fs D) (Z * Z) :=
  let* (found, _) := sfs_dir_findname curas sv name in
  match found with
  | None => throw ENOENT
  | Some (slot, ino) =>
      f <- sfs_loadvnode ino SFS_TYPE_INVAL ;;
      x <- get_sv f ;;
      if sfi_linkcount (sv_i x) =? 0 then panic else ret (f, slot)
  end.

End inode.
