(* ===== verification/SfsVnops.v ===== *)
(** * SFS: vnode operations, [kern/fs/sfs/sfs_vnops.c]

    The operations the VFS layer calls on an SFS vnode, each with the big
    lock taken and released as the code does on every path.  A name is the
    bytes of a C string.  [SfsLock] shows that every operation leaves the
    depth of the recursive lock as it was. *)

From S2P Require Import Prelude Bitmap CopyInOut Uio Vnode Device Synch SfsDisk SfsCore SfsBmap SfsTrunc.
From S2P Require Import SfsIo SfsDir SfsInode.

Section vnops.
Context {D : Type} `{!BlockDevice D} (curas : option Z) (env : alloc_env).
Implicit Types s : sfs_fs D.

(** [result = m; vfs_biglock_release(); return result;] *)
Definition then_release {A} (m : M (sfs_fs D) A) : M (sfs_fs D) A :=
  a <- catch m (fun result => vfs_biglock_release ;; throw result) ;;
  vfs_biglock_release ;;
  ret a.

Definition sfs_eachopen (sv openflags : Z) : M (sfs_fs D) unit := ret tt.

Definition sfs_eachopendir (sv openflags : Z) : M (sfs_fs D) unit :=
  if negb (Z.land openflags O_ACCMODE =? O_RDONLY) then throw EISDIR
  else if negb (Z.land openflags O_APPEND =? 0) then throw EISDIR
  else ret tt.

Definition sfs_read (sv : Z) : M (uio * sfs_fs D) unit :=
  u <- gets fst ;;
  KASSERT (is_read (uio_rw u)) ;;
  on_fs vfs_biglock_acquire ;;
  result <- result_of (sfs_io curas sv) ;;
  on_fs vfs_biglock_release ;;
  return_result result.

Definition sfs_write (sv : Z) : M (uio * sfs_fs D) unit :=
  u <- gets fst ;;
  KASSERT (is_write (uio_rw u)) ;;
  on_fs vfs_biglock_acquire ;;
  result <- result_of (sfs_io curas sv) ;;
  on_fs vfs_biglock_release ;;
  return_result result.

Definition sfs_ioctl (sv op data : Z) : M (sfs_fs D) unit := throw EINVAL.

Definition sfs_gettype (sv : Z) : M (sfs_fs D) Z :=
  vfs_biglock_acquire ;;
  x <- get_sv sv ;;
  if sfi_type (sv_i x) =? SFS_TYPE_FILE then vfs_biglock_release ;; ret S_IFREG
  else if sfi_type (sv_i x) =? SFS_TYPE_DIR then vfs_biglock_release ;; ret S_IFDIR
  else panic.

Definition sfs_stat (sv : Z) : M (sfs_fs D) stat :=
  vnode_check sv ;;
  mode <- sfs_gettype sv ;;
  x <- get_sv sv ;;
  ret (Stat mode (sfi_size (sv_i x)) (sfi_linkcount (sv_i x)) 0).

Definition sfs_isseekable (sv : Z) : M (sfs_fs D) bool := ret true.

Definition sfs_fsync (sv : Z) : M (sfs_fs D) unit :=
  vfs_biglock_acquire ;; then_release (sfs_sync_inode curas sv).

Definition sfs_mmap (sv : Z) : M (sfs_fs D) unit := throw ENOSYS.

Definition sfs_truncate (sv len : Z) : M (sfs_fs D) unit := sfs_itrunc curas sv len.

Definition sfs_namefile (sv : Z) : M (sfs_fs D) unit :=
  x <- get_sv sv ;; KASSERT (sv_ino x =? SFS_ROOTDIR_INO).

(** [newguy->sv_i.sfi_linkcount++; newguy->sv_dirty = true;] *)
Definition add_link (sv n : Z) : M (sfs_fs D) unit :=
  update_inode sv (fun i => set_links (sfi_linkcount i + n) i).

Definition sfs_creat (sv : Z) (name : list Z) (excl : bool) : M (sfs_fs D) Z :=
  vfs_biglock_acquire ;;
  let* (found, _) :=
    catch (sfs_dir_findname curas sv name) (fun result => vfs_biglock_release ;; throw result) in
  match found with
  | Some (_, ino) =>
      if excl then vfs_biglock_release ;; throw EEXIST
      else then_release (sfs_loadvnode curas env ino SFS_TYPE_INVAL)
  | None =>
      newguy <- catch (sfs_makeobj curas env SFS_TYPE_FILE)
                  (fun result => vfs_biglock_release ;; throw result) ;;
      n <- get_sv newguy ;;
      _ <- catch (sfs_dir_link curas sv name (sv_ino n))
             (fun result => vnode_decref curas newguy ;; vfs_biglock_release ;; throw result) ;;
      add_link newguy 1 ;;
      vfs_biglock_release ;;
      ret newguy
  end.

Definition sfs_link (sv : Z) (name : list Z) (f : Z) : M (sfs_fs D) unit :=
  vfs_biglock_acquire ;;
  x <- get_sv f ;;
  if sfi_type (sv_i x) =? SFS_TYPE_DIR then vfs_biglock_release ;; throw EINVAL
  else
    _ <- catch (sfs_dir_link curas sv name (sv_ino x))
           (fun result => vfs_biglock_release ;; throw result) ;;
    add_link f 1 ;;
    vfs_biglock_release.

Definition sfs_remove (sv : Z) (name : list Z) : M (sfs_fs D) unit :=
  vfs_biglock_acquire ;;
  let* (victim, slot) :=
    catch (sfs_lookonce curas env sv name) (fun result => vfs_biglock_release ;; throw result) in
  result <- result_of (sfs_dir_unlink curas sv slot) ;;
  (if result =? 0 then
     x <- get_sv victim ;;
     KASSERT (0 <? sfi_linkcount (sv_i x)) ;;
     add_link victim (-1)
   else ret tt) ;;
  vnode_decref curas victim ;;
  vfs_biglock_release ;;
  return_result result.

(** The label [puke:]. *)
Definition rename_puke {A} (g1 result : Z) : M (sfs_fs D) A :=
  vnode_decref curas g1 ;;
  vfs_biglock_release ;;
  throw result.

(** [d1] and [d2] are the two directory vnodes. *)
Definition sfs_rename (d1 : Z) (n1 : list Z) (d2 : Z) (n2 : list Z) : M (sfs_fs D) unit :=
  vfs_biglock_acquire ;;
  KASSERT (d1 =? d2) ;;
  x <- get_sv d1 ;;
  KASSERT (sv_ino x =? SFS_ROOTDIR_INO) ;;
  let* (g1, slot1) :=
    catch (sfs_lookonce curas env d1 n1) (fun result => vfs_biglock_release ;; throw result) in
  g <- get_sv g1 ;;
  KASSERT (sfi_type (sv_i g) =? SFS_TYPE_FILE) ;;
  slot2 <- catch (sfs_dir_link curas d1 n2 (sv_ino g)) (rename_puke g1) ;;
  add_link g1 1 ;;
  result <- result_of (sfs_dir_unlink curas d1 slot1) ;;
  if result =? 0 then
    g <- get_sv g1 ;;
    KASSERT (0 <? sfi_linkcount (sv_i g)) ;;
    add_link g1 (-1) ;;
    vnode_decref curas g1 ;;
    vfs_biglock_release
  else
    catch (sfs_dir_unlink curas d1 slot2) (fun _ => panic) ;;
    update_sv g1 (fun g => set_i (set_links (sfi_linkcount (sv_i g) - 1) (sv_i g)) g) ;;
    rename_puke g1 result.

(** The name buffer has [buflen] bytes; the name handed back is the path. *)
Definition sfs_lookparent (sv : Z) (path : list Z) (buflen : Z) : M (sfs_fs D) (Z * list Z) :=
  vfs_biglock_acquire ;;
  x <- get_sv sv ;;
  if negb (sfi_type (sv_i x) =? SFS_TYPE_DIR) then vfs_biglock_release ;; throw ENOTDIR
  else if buflen <? Z.of_nat (length path) + 1 then vfs_biglock_release ;; throw ENAMETOOLONG
  else
    vnode_incref sv ;;
    vfs_biglock_release ;;
    ret (sv, path).

Definition sfs_lookup (sv : Z) (path : list Z) : M (sfs_fs D) Z :=
  vfs_biglock_acquire ;;
  x <- get_sv sv ;;
  if negb (sfi_type (sv_i x) =? SFS_TYPE_DIR) then vfs_biglock_release ;; throw ENOTDIR
  else
    let* (final, _) :=
      catch (sfs_lookonce curas env sv path) (fun result => vfs_biglock_release ;; throw result) in
    vfs_biglock_release ;;
    ret final.

End vnops.
