(* ===== verification/SfsFsops.v ===== *)
(** * SFS: file-system operations, [kern/fs/sfs/sfs_fsops.c]

    Mounting, synchronising and unmounting a volume.  The memory allocator is
    an input of [sfs_domount] (one answer per object it creates); the mounted
    volume is a new object, so [sfs_domount] maps a device to a volume. *)

From S2P Require Import Prelude Bitmap CopyInOut Uio Vnode Device Synch SfsDisk SfsCore SfsBmap SfsTrunc.
From S2P Require Import SfsIo SfsDir SfsInode SfsVnops.

Section fsops.
Context {D : Type} `{!BlockDevice D} (curas : option Z).
Implicit Types s : sfs_fs D.

(** [sfs_readblock] into the bytes of the free map from [off] on. *)
Definition freemap_read (j : Z) : M (sfs_fs D) unit :=
  s <- get ;;
  let data := bitmap_getdata (sfs_freemap s) in
  let off := Z.to_nat (j * SFS_BLOCKSIZE) in
  in_bounds (j * SFS_BLOCKSIZE + SFS_BLOCKSIZE <=? Z.of_nat (length data)) ;;
  new <- sfs_readblock curas (SFS_FREEMAP_START + j) (slice off (Z.to_nat SFS_BLOCKSIZE) data) ;;
  modify (fun s => set_freemap (Bitmap (nbits (sfs_freemap s)) (splice off new data)) s).

Definition freemap_write (j : Z) : M (sfs_fs D) unit :=
  s <- get ;;
  let data := bitmap_getdata (sfs_freemap s) in
  let off := Z.to_nat (j * SFS_BLOCKSIZE) in
  in_bounds (j * SFS_BLOCKSIZE + SFS_BLOCKSIZE <=? Z.of_nat (length data)) ;;
  sfs_writeblock curas (SFS_FREEMAP_START + j) (slice off (Z.to_nat SFS_BLOCKSIZE) data).

Definition sfs_freemapio (rw : uio_rw_t) : M (sfs_fs D) unit :=
  s <- get ;;
  let freemapblocks := SFS_FREEMAPBLOCKS (nblocks s) in
  for_each 0 (Z.to_nat freemapblocks) (fun j =>
    if is_read rw then freemap_read j else freemap_write j).

(** [VOP_FSYNC] on every loaded vnode; its result is ignored. *)
Fixpoint sync_vnodes_loop (l : list Z) : M (sfs_fs D) unit :=
  match l with
  | [] => ret tt
  | v :: l' =>
      vnode_check v ;;
      catch (sfs_fsync curas v) (fun _ => ret tt) ;;
      sync_vnodes_loop l'
  end.

Definition sfs_sync_vnodes : M (sfs_fs D) unit :=
  s <- get ;; sync_vnodes_loop (sfs_vnodes s).

Definition sfs_sync_freemap : M (sfs_fs D) unit :=
  s <- get ;;
  if sfs_freemapdirty s then
    sfs_freemapio UIO_WRITE ;; modify (set_freemapdirty false)
  else ret tt.

Definition sfs_sync_superblock : M (sfs_fs D) unit :=
  s <- get ;;
  if sfs_superdirty s then
    sfs_writeblock curas SFS_SUPER_BLOCK (bytes_of_sb (sfs_sb s)) ;; modify (set_superdirty false)
  else ret tt.

Definition sfs_sync : M (sfs_fs D) unit :=
  vfs_biglock_acquire ;;
  catch sfs_sync_vnodes (fun result => vfs_biglock_release ;; throw result) ;;
  catch sfs_sync_freemap (fun result => vfs_biglock_release ;; throw result) ;;
  catch sfs_sync_superblock (fun result => vfs_biglock_release ;; throw result) ;;
  vfs_biglock_release.

Definition sfs_getvolname : M (sfs_fs D) (list Z) :=
  vfs_biglock_acquire ;;
  s <- get ;;
  vfs_biglock_release ;;
  ret (sb_volname (sfs_sb s)).

(** The object is destroyed on success: what is left is its device and the
    depth of the lock. *)
Definition sfs_unmount : M (sfs_fs D) unit :=
  vfs_biglock_acquire ;;
  s <- get ;;
  if 0 <? Z.of_nat (length (sfs_vnodes s)) then vfs_biglock_release ;; throw EBUSY
  else
    KASSERT (negb (sfs_superdirty s)) ;;
    KASSERT (negb (sfs_freemapdirty s)) ;;
    vfs_biglock_release.

(** The answers of [kmalloc] during a mount: the volume object, the vnode
    table, the two objects of the bitmap. *)
Record mount_env := MountEnv { me_fs : bool; me_vnodes : bool; me_map : bool; me_mapdata : bool }.

(** [sfs_fs_create], for a volume on device [d] under lock depth [depth]. *)
Definition sfs_fs_create (me : mount_env) (d : D) (depth : Z) : option (sfs_fs D) :=
  if negb (me_fs me) then None
  else if negb (me_vnodes me) then None
  else Some (SfsFs d (Superblock 0 0 [] []) false (Bitmap 0 []) false [] ∅ depth).

(** [sb_volname[sizeof(sb_volname)-1] = 0] *)
Definition terminate_volname (sb : sfs_superblock) : sfs_superblock :=
  Superblock (sb_magic sb) (sb_nblocks sb) (zinsert (Z.of_nat SFS_VOLNAME_SIZE - 1) 0 (sb_volname sb))
    (sb_reserved sb).

Definition set_sb (sb : sfs_superblock) s : sfs_fs D :=
  SfsFs (sfs_device s) sb (sfs_superdirty s) (sfs_freemap s) (sfs_freemapdirty s) (sfs_vnodes s)
    (sv_heap s) (vfs_biglock_depth s).

(** Run on the volume object [sfs_fs_create] made; [d_blocksize] is the
    sector size of the device. *)
Definition sfs_domount (me : mount_env) (d_blocksize : Z) : M (sfs_fs D) unit :=
  vfs_biglock_acquire ;;
  if negb (d_blocksize =? SFS_BLOCKSIZE) then vfs_biglock_release ;; throw ENXIO
  else
    s0 <- get ;;
    match sfs_fs_create me (sfs_device s0) (vfs_biglock_depth s0) with
    | None => vfs_biglock_release ;; throw ENOMEM
    | Some new =>
        put new ;;
        data <- catch (sfs_readblock curas SFS_SUPER_BLOCK zeros)
                  (fun result => vfs_biglock_release ;; throw result) ;;
        let sb := sb_of_bytes data in
        modify (set_sb sb) ;;
        if negb (sb_magic sb =? SFS_MAGIC) then vfs_biglock_release ;; throw EINVAL
        else
          modify (set_sb (terminate_volname sb)) ;;
          fm <- stateless (bitmap_create (me_map me) (me_mapdata me) (SFS_FREEMAPBITS (sb_nblocks sb))) ;;
          match fm with
          | None => vfs_biglock_release ;; throw ENOMEM
          | Some fm =>
              modify (set_freemap fm) ;;
              catch (sfs_freemapio UIO_READ) (fun result => vfs_biglock_release ;; throw result) ;;
              vfs_biglock_release
          end
    end.

End fsops.
