(* ===== verification/SfsLock.v ===== *)
(** * SFS: the big lock is balanced

    Every entry point of SFS takes the recursive [vfs_biglock] and has to
    give it back on every path, error returns included; the routines are
    taken through the calculus of [BigLock] one by one. *)

From S2P Require Import Prelude Bitmap CopyInOut Uio Vnode BigLock Device Synch SfsDisk SfsCore SfsBmap.
From S2P Require Import SfsTrunc SfsIo SfsDir SfsInode SfsVnops SfsFsops.

#[export] Instance fs_depth {D} : HasDepth (sfs_fs D) := vfs_biglock_depth.

Ltac sfs_step :=
  match goal with
  | |- moves _ _ (bind vfs_biglock_acquire _) => eapply (moves_bind _ _ 1); [|intros ?]
  | |- moves _ _ (bind vfs_biglock_release _) => eapply (moves_bind _ _ (-1)); [|intros ?]
  | |- moves _ _ (bind (on_fs vfs_biglock_acquire) _) => eapply (moves_bind _ _ 1); [|intros ?]
  | |- moves _ _ (bind (on_fs vfs_biglock_release) _) => eapply (moves_bind _ _ (-1)); [|intros ?]
  | |- _ => moves_step
  end.
Ltac sfs_tac := cbv zeta; repeat (sfs_step; cbv zeta).

Section lock.
Context {D : Type} `{!BlockDevice D} (curas : option Z) (env : alloc_env).
Implicit Types s : sfs_fs D.
Abbreviation fsM := (M (sfs_fs D)).

Lemma moves_acquire n e : n = 1 -> moves n e (vfs_biglock_acquire (D := D)).
Proof.
  intros -> s Hs. unfold wlp, vfs_biglock_acquire, lock_do_i_hold, lock_acquire, bind. cbn.
  by destruct (_ =? 0).
Qed.

Lemma moves_release n e : n = -1 -> moves n e (vfs_biglock_release (D := D)).
Proof.
  intros -> s Hs. unfold wlp, vfs_biglock_release, lock_do_i_hold, lock_release, bind. cbn.
  destruct (Z.ltb_spec 0 (vfs_biglock_depth s)); [|done]. cbn.
  assert (E : shifted (-1) s (set_depth (vfs_biglock_depth s - 1) s)).
  { unfold shifted, depth_of, fs_depth in *. cbn. rewrite wrap_small; lia. }
  by destruct (_ =? 0).
Qed.
#[local] Hint Resolve moves_acquire moves_release : depth.

Lemma moves_freemap {A} n e (m : M bitmap A) : n = 0 -> e = 0 -> moves n e (on_freemap (D := D) m).
Proof.
  intros -> -> s Hs. unfold wlp, on_freemap, zoom.
  destruct (m (sfs_freemap s)); try done; by apply shifted_same.
Qed.

Lemma moves_on_fs {A} n e (m : fsM A) : moves n e m -> moves n e (on_fs m).
Proof.
  intros H [u s] Hs. specialize (H s Hs). unfold wlp, on_fs, zoom in *. cbn. by destruct (m s).
Qed.

Lemma moves_on_u {A} n e (m : M uio A) : n = 0 -> e = 0 -> moves n e (on_u (D := D) m).
Proof.
  intros -> -> [u s] Hs. unfold wlp, on_u, zoom. cbn. destruct (m u); try done; by apply shifted_same.
Qed.

Lemma moves_on_u_modify n e f : n = 0 -> moves n e (on_u (D := D) (modify f)).
Proof. intros -> [u s] Hs. by apply shifted_same. Qed.
#[local] Hint Resolve moves_freemap moves_on_fs moves_on_u moves_on_u_modify : depth.

Lemma moves_devop n e : n = 0 -> e = 0 -> moves n e (DEVOP_IO (D := D) curas).
Proof.
  intros -> -> [u s] Hs. unfold wlp, DEVOP_IO, zoom. cbn.
  destruct (devop_io curas (u, sfs_device s)); try done; by apply shifted_same.
Qed.
#[local] Hint Resolve moves_devop : depth.

Lemma moves_assert_locked n e : n = 0 -> moves n e (assert_locked (D := D)).
Proof. intros -> s Hs. by apply shifted_same. Qed.
#[local] Hint Resolve moves_assert_locked : depth.

Lemma moves_rwblock n e : n = 0 -> e = 0 -> moves n e (sfs_rwblock (D := D) curas).
Proof.
  intros -> ->. unfold sfs_rwblock. moves_step; [auto with depth|].
  generalize 10%nat. intros k. induction k as [|k IH]; cbn [rwblock_try]; sfs_tac.
Qed.

Lemma moves_with_uio {A} n e u (m : M (uio * sfs_fs D) A) : moves n e m -> moves n e (with_uio u m).
Proof.
  intros H s Hs. specialize (H (u, s) Hs). unfold wlp, with_uio in *.
  by destruct (m (u, s)) as [? [??]|? [??]| |].
Qed.
#[local] Hint Resolve moves_rwblock moves_with_uio : depth.

Lemma moves_readblock n e b d : n = 0 -> e = 0 -> moves n e (sfs_readblock (D := D) curas b d).
Proof. intros -> ->. unfold sfs_readblock. sfs_tac. Qed.

Lemma moves_writeblock n e b d : n = 0 -> e = 0 -> moves n e (sfs_writeblock (D := D) curas b d).
Proof. intros -> ->. unfold sfs_writeblock. sfs_tac. Qed.
#[local] Hint Resolve moves_readblock moves_writeblock : depth.

Lemma moves_get_sv n e sv : n = 0 -> moves n e (get_sv (D := D) sv).
Proof. intros ->. unfold get_sv. sfs_tac. Qed.

Lemma moves_put_sv n e sv x : n = 0 -> moves n e (put_sv (D := D) sv x).
Proof. intros ->. unfold put_sv. sfs_tac. Qed.
#[local] Hint Resolve moves_get_sv moves_put_sv : depth.

Lemma moves_update_sv n e sv f : n = 0 -> moves n e (update_sv (D := D) sv f).
Proof. intros ->. unfold update_sv. sfs_tac. Qed.
#[local] Hint Resolve moves_update_sv : depth.

Lemma moves_update_inode n e sv f : n = 0 -> moves n e (update_inode (D := D) sv f).
Proof. intros ->. unfold update_inode. sfs_tac. Qed.
#[local] Hint Resolve moves_update_inode : depth.

(** [bitmap_mark], [bitmap_unmark] and [bitmap_isset] return or panic. *)
Lemma moves_unmark n e b : n = 0 -> moves n e (on_freemap (D := D) (bitmap_unmark b)).
Proof.
  intros -> s Hs. unfold wlp, on_freemap, zoom, bitmap_unmark, read_word, write_word, bind, get, KASSERT, oob, modify.
  destruct (bitmap_translate b). cbn. destruct (b <? _); [|done]. cbn.
  unfold bind, get, oob. destruct (zlookup _ _) eqn:E; [|done]. cbn.
  destruct (negb _); [|done]. cbn. unfold bind, read_word, get, oob, bind. rewrite E. cbn. by apply shifted_same.
Qed.
#[local] Hint Resolve moves_unmark : depth.

Lemma moves_bfree n e b : n = 0 -> moves n e (sfs_bfree (D := D) b).
Proof. intros ->. unfold sfs_bfree. sfs_tac. Qed.

Lemma moves_bused n e b : n = 0 -> e = 0 -> moves n e (sfs_bused (D := D) b).
Proof. intros -> ->. unfold sfs_bused. sfs_tac. Qed.

Lemma moves_balloc n e : n = 0 -> e = 0 -> moves n e (sfs_balloc (D := D) curas).
Proof. intros -> ->. unfold sfs_balloc, sfs_clearblock. sfs_tac. Qed.
#[local] Hint Resolve moves_bfree moves_bused moves_balloc : depth.

Lemma moves_hand_back n e b : n = 0 -> e = 0 -> moves n e (hand_back (D := D) b).
Proof. intros -> ->. unfold hand_back. sfs_tac. Qed.
#[local] Hint Resolve moves_hand_back : depth.

Lemma moves_bmap n e sv k a : n = 0 -> e = 0 -> moves n e (sfs_bmap (D := D) curas sv k a).
Proof. intros -> ->. unfold sfs_bmap. sfs_tac. Qed.
#[local] Hint Resolve moves_bmap : depth.

Lemma moves_itrunc_indirect n e k j bl base buf di nz :
  n = 0 -> moves n e (itrunc_indirect (D := D) k j bl base buf di nz).
Proof.
  intros ->. revert j buf di nz e. induction k as [|k IH]; intros; cbn [itrunc_indirect]; sfs_tac.
Qed.
#[local] Hint Resolve moves_itrunc_indirect : depth.

Lemma moves_itrunc_direct n e sv bl : n = 0 -> moves n e (itrunc_direct (D := D) sv bl).
Proof. intros ->. unfold itrunc_direct. sfs_tac. Qed.
#[local] Hint Resolve moves_itrunc_direct : depth.

(** Called with the lock held once more: on failure it has been released. *)
Lemma moves_itrunc_mid n e sv bl id : n = 0 -> e = -1 -> moves n e (itrunc_mid (D := D) curas sv bl id).
Proof. intros -> ->. unfold itrunc_mid. sfs_tac. Qed.
#[local] Hint Resolve moves_itrunc_mid : depth.

Lemma moves_itrunc n e sv len : n = 0 -> e = 0 -> moves n e (sfs_itrunc (D := D) curas sv len).
Proof. intros -> ->. unfold sfs_itrunc. sfs_tac. Qed.
#[local] Hint Resolve moves_itrunc : depth.

(** ** File I/O *)

Lemma moves_partialio n e sv skip len : n = 0 -> e = 0 -> moves n e (sfs_partialio (D := D) curas sv skip len).
Proof. intros -> ->. unfold sfs_partialio. sfs_tac. Qed.

Lemma moves_blockio n e sv : n = 0 -> e = 0 -> moves n e (sfs_blockio (D := D) curas sv).
Proof. intros -> ->. unfold sfs_blockio. sfs_tac. Qed.
#[local] Hint Resolve moves_partialio moves_blockio : depth.

Lemma moves_io n e sv : n = 0 -> e = 0 -> moves n e (sfs_io (D := D) curas sv).
Proof. intros -> ->. unfold sfs_io, sfs_io_blocks, sfs_io_out. sfs_tac. Qed.

Lemma moves_metaio n e sv pos d rw : n = 0 -> e = 0 -> moves n e (sfs_metaio (D := D) curas sv pos d rw).
Proof. intros -> ->. unfold sfs_metaio. sfs_tac. Qed.
#[local] Hint Resolve moves_io moves_metaio : depth.

(** ** Directories and inodes *)

Lemma moves_readdir n e sv k : n = 0 -> e = 0 -> moves n e (sfs_readdir (D := D) curas sv k).
Proof. intros -> ->. unfold sfs_readdir. sfs_tac. Qed.

Lemma moves_writedir n e sv k d : n = 0 -> e = 0 -> moves n e (sfs_writedir (D := D) curas sv k d).
Proof. intros -> ->. unfold sfs_writedir. sfs_tac. Qed.

Lemma moves_nentries n e sv : n = 0 -> moves n e (sfs_dir_nentries (D := D) sv).
Proof. intros ->. unfold sfs_dir_nentries. sfs_tac. Qed.
#[local] Hint Resolve moves_readdir moves_writedir moves_nentries : depth.

Lemma moves_findname n e sv name : n = 0 -> e = 0 -> moves n e (sfs_dir_findname (D := D) curas sv name).
Proof.
  intros -> ->. unfold sfs_dir_findname. moves_step; [auto with depth|].
  enough (H : forall k i found empty n e, n = 0 -> e = 0 ->
    moves n e (findname_loop (D := D) curas k sv i name found empty)) by auto with depth.
  induction k as [|k IH]; intros i found empty n e -> ->; cbn [findname_loop]; sfs_tac.
Qed.
#[local] Hint Resolve moves_findname : depth.

Lemma moves_dir_link n e sv name ino : n = 0 -> e = 0 -> moves n e (sfs_dir_link (D := D) curas sv name ino).
Proof. intros -> ->. unfold sfs_dir_link. sfs_tac. Qed.

Lemma moves_dir_unlink n e sv slot : n = 0 -> e = 0 -> moves n e (sfs_dir_unlink (D := D) curas sv slot).
Proof. intros -> ->. unfold sfs_dir_unlink. sfs_tac. Qed.
#[local] Hint Resolve moves_dir_link moves_dir_unlink : depth.

Lemma moves_sync_inode n e sv : n = 0 -> e = 0 -> moves n e (sfs_sync_inode (D := D) curas sv).
Proof. intros -> ->. unfold sfs_sync_inode. sfs_tac. Qed.

Lemma moves_cleanup n e sv : n = 0 -> moves n e (vnode_cleanup (D := D) sv).
Proof. intros ->. unfold vnode_cleanup. sfs_tac. Qed.

Lemma moves_free n e sv : n = 0 -> moves n e (free_sv (D := D) sv).
Proof. intros ->. unfold free_sv. sfs_tac. Qed.

Lemma moves_incref n e sv : n = 0 -> moves n e (vnode_incref (D := D) sv).
Proof. intros ->. unfold vnode_incref. sfs_tac. Qed.

Lemma moves_check n e sv : n = 0 -> moves n e (vnode_check (D := D) sv).
Proof. intros ->. unfold vnode_check. sfs_tac. Qed.
#[local] Hint Resolve moves_sync_inode moves_cleanup moves_free moves_incref moves_check : depth.

Lemma moves_reclaim n e sv : n = 0 -> e = 0 -> moves n e (sfs_reclaim (D := D) curas sv).
Proof. intros -> ->. unfold sfs_reclaim. sfs_tac. Qed.
#[local] Hint Resolve moves_reclaim : depth.

Lemma moves_decref n e sv : n = 0 -> moves n e (vnode_decref (D := D) curas sv).
Proof. intros ->. unfold vnode_decref. sfs_tac. Qed.
#[local] Hint Resolve moves_decref : depth.

Lemma moves_loadvnode n e ino ft : n = 0 -> e = 0 -> moves n e (sfs_loadvnode (D := D) curas env ino ft).
Proof.
  intros -> ->. unfold sfs_loadvnode.
  assert (H : forall l n e, n = 0 -> e = 0 -> moves n e (loadvnode_search (D := D) l ino ft)).
  { induction l as [|p l IH]; intros n e -> ->; cbn [loadvnode_search]; sfs_tac. }
  sfs_tac.
Qed.
#[local] Hint Resolve moves_loadvnode : depth.

Lemma moves_makeobj n e ty : n = 0 -> e = 0 -> moves n e (sfs_makeobj (D := D) curas env ty).
Proof. intros -> ->. unfold sfs_makeobj. sfs_tac. Qed.

Lemma moves_lookonce n e sv name : n = 0 -> e = 0 -> moves n e (sfs_lookonce (D := D) curas env sv name).
Proof. intros -> ->. unfold sfs_lookonce. sfs_tac. Qed.
#[local] Hint Resolve moves_makeobj moves_lookonce : depth.

(** ** The entry points *)

Lemma moves_gettype n e sv : n = 0 -> e = 0 -> moves n e (sfs_gettype (D := D) sv).
Proof. intros -> ->. unfold sfs_gettype. sfs_tac. Qed.
#[local] Hint Resolve moves_gettype : depth.

Lemma moves_stat n e sv : n = 0 -> e = 0 -> moves n e (sfs_stat (D := D) sv).
Proof. intros -> ->. unfold sfs_stat. sfs_tac. Qed.

Lemma moves_read n e sv : n = 0 -> e = 0 -> moves n e (sfs_read (D := D) curas sv).
Proof. intros -> ->. unfold sfs_read. sfs_tac. Qed.

Lemma moves_write n e sv : n = 0 -> e = 0 -> moves n e (sfs_write (D := D) curas sv).
Proof. intros -> ->. unfold sfs_write. sfs_tac. Qed.

Lemma moves_fsync n e sv : n = 0 -> e = 0 -> moves n e (sfs_fsync (D := D) curas sv).
Proof. intros -> ->. unfold sfs_fsync, then_release. sfs_tac. Qed.
#[local] Hint Resolve moves_fsync : depth.

Lemma moves_truncate n e sv len : n = 0 -> e = 0 -> moves n e (sfs_truncate (D := D) curas sv len).
Proof. intros -> ->. unfold sfs_truncate. sfs_tac. Qed.

Lemma moves_creat n e sv name excl : n = 0 -> e = 0 -> moves n e (sfs_creat (D := D) curas env sv name excl).
Proof. intros -> ->. unfold sfs_creat, then_release, add_link. sfs_tac. Qed.

Lemma moves_link n e sv name f : n = 0 -> e = 0 -> moves n e (sfs_link (D := D) curas sv name f).
Proof. intros -> ->. unfold sfs_link, add_link. sfs_tac. Qed.

Lemma moves_remove n e sv name : n = 0 -> e = 0 -> moves n e (sfs_remove (D := D) curas env sv name).
Proof. intros -> ->. unfold sfs_remove, add_link. sfs_tac. Qed.

Lemma moves_rename n e sv name sv2 name2 :
  n = 0 -> e = 0 -> moves n e (sfs_rename (D := D) curas env sv name sv2 name2).
Proof. intros -> ->. unfold sfs_rename, rename_puke, add_link. sfs_tac. Qed.

Lemma moves_lookparent n e sv path len : n = 0 -> e = 0 -> moves n e (sfs_lookparent (D := D) sv path len).
Proof. intros -> ->. unfold sfs_lookparent. sfs_tac. Qed.

Lemma moves_lookup n e sv path : n = 0 -> e = 0 -> moves n e (sfs_lookup (D := D) curas env sv path).
Proof. intros -> ->. unfold sfs_lookup. sfs_tac. Qed.

Lemma moves_getroot n e : n = 0 -> e = 0 -> moves n e (sfs_getroot (D := D) curas env).
Proof. intros -> ->. unfold sfs_getroot. sfs_tac. Qed.

Lemma moves_sync_vnodes l n e : n = 0 -> moves n e (sync_vnodes_loop (D := D) curas l).
Proof. revert n e. induction l as [|p l IH]; intros n e ->; cbn [sync_vnodes_loop]; sfs_tac. Qed.
#[local] Hint Resolve moves_sync_vnodes : depth.

Lemma moves_sync n e : n = 0 -> e = 0 -> moves n e (sfs_sync (D := D) curas).
Proof.
  intros -> ->. unfold sfs_sync, sfs_sync_vnodes, sfs_sync_freemap, sfs_sync_superblock, sfs_freemapio,
    freemap_read, freemap_write. sfs_tac.
Qed.

Lemma moves_unmount n e : n = 0 -> e = 0 -> moves n e (sfs_unmount (D := D)).
Proof. intros -> ->. unfold sfs_unmount. sfs_tac. Qed.

Lemma moves_getvolname n e : n = 0 -> moves n e (sfs_getvolname (D := D)).
Proof. intros ->. unfold sfs_getvolname. sfs_tac. Qed.


End lock.

#[export] Hint Resolve moves_read moves_write moves_gettype moves_stat moves_fsync moves_truncate moves_creat
  moves_link moves_remove moves_rename moves_lookparent moves_lookup moves_reclaim moves_getroot moves_sync
  moves_unmount moves_getvolname moves_acquire moves_release moves_check moves_get_sv moves_incref moves_decref : depth.
