(* ===== verification/SfsFile.v ===== *)
(** * SFS behind the vnode interface: the operation tables of [kern/fs/sfs/sfs_vnops.c] and [sfs_fsops.c]

    A [VOP_] call checks the vnode and goes through the table the vnode was
    given when it was loaded, [sfs_fileops] or [sfs_dirops].  The instance
    [sfs_vnode_ops] is a kernel whose only file system is one SFS volume, at
    the pointer [SFS_FS]; two more instances say that the volume keeps the
    promises the VFS layer relies on.  The second half shows the files of a
    volume as byte sequences, the interface of the file system calls. *)

From S2P Require Import Prelude Bitmap CopyInOut Uio Vnode BigLock VfsList VfsPath Device Lhd Synch SfsDisk SfsCore SfsBmap.
From S2P Require Import SfsTrunc SfsIo SfsDir SfsInode SfsVnops SfsFsops SfsLock.

Definition SFS_FS : Z := 1.

Section tables.
Context {D : Type} `{!BlockDevice D} (curas : option Z) (env : alloc_env).
Implicit Types s : sfs_fs D.

(** [vnode_check(vn, ...)], then the entry of the table. *)
Definition vop {A} (vn : Z) (file dir : M (sfs_fs D) A) : M (sfs_fs D) A :=
  vnode_check vn ;;
  x <- get_sv vn ;;
  match vn_ops x with sfs_fileops => file | sfs_dirops => dir end.

Definition vop_uio {A} (vn : Z) (file dir : M (uio * sfs_fs D) A) : M (uio * sfs_fs D) A :=
  on_fs (vnode_check vn) ;;
  x <- on_fs (get_sv vn) ;;
  match vn_ops x with sfs_fileops => file | sfs_dirops => dir end.

#[export] Instance sfs_vnode_ops : VnodeOps (sfs_fs D) := {
  VOP_EACHOPEN vn fl := vop vn (sfs_eachopen vn fl) (sfs_eachopendir vn fl);
  VOP_READ vn := vop_uio vn (sfs_read curas vn) (vopfail_uio_isdir vn);
  VOP_READLINK vn := vop_uio vn (vopfail_uio_notdir vn) (vopfail_uio_inval vn);
  VOP_GETDIRENTRY vn := vop_uio vn (vopfail_uio_notdir vn) (vopfail_uio_nosys vn);
  VOP_WRITE vn := vop_uio vn (sfs_write curas vn) (vopfail_uio_isdir vn);
  VOP_IOCTL vn op data := vop vn (sfs_ioctl vn op data) (sfs_ioctl vn op data);
  VOP_STAT vn := vop vn (sfs_stat vn) (sfs_stat vn);
  VOP_GETTYPE vn := vop vn (sfs_gettype vn) (sfs_gettype vn);
  VOP_ISSEEKABLE vn := vop vn (sfs_isseekable vn) (sfs_isseekable vn);
  VOP_FSYNC vn := vop vn (sfs_fsync curas vn) (sfs_fsync curas vn);
  VOP_MMAP vn := vop vn (sfs_mmap vn) (vopfail_mmap_isdir vn);
  VOP_TRUNCATE vn len := vop vn (sfs_truncate curas vn len) (vopfail_truncate_isdir vn len);
  VOP_NAMEFILE vn := vop_uio vn (vopfail_uio_notdir vn) (on_fs (sfs_namefile vn));
  VOP_CREAT vn name excl mode :=
    vop vn (vopfail_creat_notdir vn name excl mode) (sfs_creat curas env vn name excl);
  VOP_SYMLINK vn name c := vop vn (vopfail_symlink_notdir vn name c) (vopfail_symlink_nosys vn name c);
  VOP_MKDIR vn name mode := vop vn (vopfail_mkdir_notdir vn name mode) (vopfail_mkdir_nosys vn name mode);
  VOP_LINK vn name f := vop vn (vopfail_link_notdir vn name f) (sfs_link curas vn name f);
  VOP_REMOVE vn name := vop vn (vopfail_string_notdir vn name) (sfs_remove curas env vn name);
  VOP_RMDIR vn name := vop vn (vopfail_string_notdir vn name) (vopfail_string_nosys vn name);
  VOP_RENAME v1 n1 v2 n2 :=
    vop v1 (vopfail_rename_notdir v1 n1 v2 n2) (sfs_rename curas env v1 n1 v2 n2);
  VOP_LOOKUP vn path := vop vn (vopfail_lookup_notdir vn path) (sfs_lookup curas env vn path);
  VOP_LOOKPARENT vn path len :=
    vop vn (vopfail_lookparent_notdir vn path len) (sfs_lookparent vn path len);
  VOP_INCREF := vnode_incref;
  VOP_DECREF := vnode_decref curas;
  vn_fs vn := _ <- get_sv vn ;; ret (Some SFS_FS);
  FSOP_SYNC _ := sfs_sync curas;
  FSOP_GETVOLNAME _ := name <- sfs_getvolname ;; ret (Some (cstr name));
  FSOP_GETROOT _ := sfs_getroot curas env;
  FSOP_UNMOUNT _ := sfs_unmount;
  biglock_acquire := vfs_biglock_acquire;
  biglock_release := vfs_biglock_release;
  biglock_do_i_hold := vfs_biglock_do_i_hold
}.

(** ** The promises of the interface *)

#[local] Hint Extern 1 (moves _ _ (on_fs _)) => apply moves_on_fs : depth.

Lemma moves_vop {A} n e vn (file dir : M (sfs_fs D) A) :
  moves 0 0 file -> moves 0 0 dir -> n = 0 -> e = 0 -> moves n e (vop vn file dir).
Proof. intros H1 H2 -> ->. unfold vop. sfs_tac. Qed.

Lemma moves_vop_uio {A} n e vn (file dir : M (uio * sfs_fs D) A) :
  moves 0 0 file -> moves 0 0 dir -> n = 0 -> e = 0 -> moves n e (vop_uio vn file dir).
Proof. intros H1 H2 -> ->. unfold vop_uio. sfs_tac. Qed.

Lemma moves_namefile n e vn : n = 0 -> e = 0 -> moves n e (sfs_namefile (D := D) vn).
Proof. intros -> ->. unfold sfs_namefile. sfs_tac. Qed.
#[local] Hint Resolve moves_namefile : depth.

#[export] Instance sfs_balanced : BalancedVnodes (sfs_fs D).
Proof.
  split; intros; subst; cbn;
    try (first [apply moves_vop | apply moves_vop_uio]; [..|done|done]);
    unfold sfs_eachopen, sfs_eachopendir, vopfail_uio_notdir, vopfail_uio_inval, vopfail_truncate_isdir,
      vopfail_creat_notdir, vopfail_symlink_notdir, vopfail_symlink_nosys, vopfail_mkdir_notdir,
      vopfail_mkdir_nosys, vopfail_link_notdir, vopfail_string_notdir, vopfail_string_nosys,
      vopfail_rename_notdir, vopfail_lookup_notdir, vopfail_lookparent_notdir, vfs_biglock_do_i_hold,
      lock_do_i_hold; sfs_tac.
Qed.

(** [vnode_decref] swallows the error of the reclaim. *)
#[export] Instance sfs_void : VoidDecref (sfs_fs D).
Proof.
  intros vn v v' e E.
  assert (H : wlp (vnode_decref curas vn) (fun _ _ => True) (fun _ _ => False) v).
  { unfold vnode_decref, vnode_check, get_sv, put_sv. wlp_steps. destruct (1 <? _); [done|].
    wlp_steps. destruct (_ <? 0); [done|]. destruct (_ =? 0); [done|]. wlp_steps. by apply wlp_any. }
  unfold wlp in H. cbn in E. by rewrite E in H.
Qed.

(** Taking the big lock and giving it back changes nothing. *)
Lemma acquire_run s : 0 <= vfs_biglock_depth s < 2 ^ 32 - 1 ->
  vfs_biglock_acquire s = Ret tt (set_depth (vfs_biglock_depth s + 1) s).
Proof.
  intros Hv. unfold vfs_biglock_acquire, lock_do_i_hold, lock_acquire, bind. cbn.
  rewrite wrap_small by lia. by destruct (_ =? 0).
Qed.

Lemma release_run s : 0 < vfs_biglock_depth s < 2 ^ 32 ->
  vfs_biglock_release s = Ret tt (set_depth (vfs_biglock_depth s - 1) s).
Proof.
  intros Hv. unfold vfs_biglock_release, lock_do_i_hold, lock_release, bind. cbn.
  rewrite (proj2 (Z.ltb_lt _ _)) by lia. cbn. by destruct (_ =? 0).
Qed.

Lemma depth_back s : set_depth (vfs_biglock_depth s + 1 - 1) (set_depth (vfs_biglock_depth s + 1) s) = s.
Proof. destruct s. unfold set_depth. cbn. f_equal. lia. Qed.

Lemma set_depth_same s : set_depth (vfs_biglock_depth s) s = s.
Proof. by destruct s. Qed.

Lemma getvolname_run s : 0 <= vfs_biglock_depth s < 2 ^ 32 - 1 ->
  sfs_getvolname s = Ret (sb_volname (sfs_sb s)) s.
Proof.
  intros Hv. unfold sfs_getvolname, bind. rewrite acquire_run by done. unfold get.
  rewrite release_run by (cbn; lia). unfold ret. f_equal. apply depth_back.
Qed.

Lemma volname_run s : 0 <= vfs_biglock_depth s < 2 ^ 32 - 1 ->
  (name <- sfs_getvolname ;; ret (Some (cstr name))) s = Ret (Some (cstr (sb_volname (sfs_sb s)))) s.
Proof. intros Hv. unfold bind. by rewrite getvolname_run. Qed.

#[export] Instance sfs_locked : LockedVnodes (sfs_fs D) := {|
  with_depth := set_depth;
  volname v _ := Some (cstr (sb_volname (sfs_sb v)));
  depth_with n v := eq_refl;
  with_with n m v := eq_refl;
  with_same := set_depth_same;
  acquire_spec := acquire_run;
  release_spec := release_run;
  hold_spec v := eq_refl;
  volname_with n v fs := eq_refl;
  getvolname_spec v _ := volname_run v
|}.

End tables.

(** ** SFS files as byte sequences

    A loaded vnode of a regular SFS file stands for the bytes of the file up
    to its size.  With that view SFS implements [FileVnodes]: the operations
    the file system calls make on a vnode read and splice those bytes. *)

Section file.
Context {D : Type} `{!BlockDevice D} (curas : option Z) (env : alloc_env).
Implicit Types s : sfs_fs D.
#[local] Instance ops : VnodeOps (sfs_fs D) := sfs_vnode_ops curas env.

(** What is known of the vnode besides its contents. *)
Record plain_file (vn : Z) (x : sfs_vnode) s : Prop := {
  pf_ok : file_ok vn x s;
  pf_ops : vn_ops x = sfs_fileops;
  pf_type : sfi_type (sv_i x) = SFS_TYPE_FILE;
  pf_refs : 0 < vn_refcount x;
  pf_small : small_volume s;
  pf_size : sfi_size (sv_i x) <= MAXBYTES;
  pf_depth : 0 <= vfs_biglock_depth s < 2 ^ 32 - 1
}.

Definition contents (x : sfs_vnode) s : list Z := take (Z.to_nat (sfi_size (sv_i x))) (fbytes s (sv_i x)).

Definition sfs_vfile s (vn : Z) (c : list Z) : Prop := exists x, plain_file vn x s /\ c = contents x s.

Lemma contents_length vn x s :
  plain_file vn x s -> Z.of_nat (length (contents x s)) = sfi_size (sv_i x).
Proof.
  intros [F _ _ _ _ Hm _]. unfold contents. rewrite length_take.
  pose proof (fbytes_length vn x s F). pose proof (ino_size _ _ (proj2 (proj2 F))). lia.
Qed.

Lemma vop_file {A} vn x s (file dir : M (sfs_fs D) A) :
  plain_file vn x s -> vop vn file dir s = file s.
Proof.
  intros [(Hx & _) Ho _ Hr _ _ _]. unfold vop, vnode_check, get_sv, bind. cbn. rewrite Hx. cbn.
  rewrite (proj2 (Z.ltb_ge _ _)), (proj2 (Z.eqb_neq _ _)) by lia. cbn. by rewrite Hx; cbn; rewrite Ho.
Qed.

Lemma sfs_stat_run vn x s : plain_file vn x s ->
  sfs_stat vn s = Ret (Stat S_IFREG (sfi_size (sv_i x)) (sfi_linkcount (sv_i x)) 0) s.
Proof.
  intros [(Hx & _) Ho Ht Hr _ _ Hd]. unfold sfs_stat, vnode_check, sfs_gettype, get_sv, bind. cbn. rewrite Hx. cbn.
  rewrite (proj2 (Z.ltb_ge _ _)), (proj2 (Z.eqb_neq _ _)) by lia. cbn.
  rewrite acquire_run by done. cbn. rewrite Hx. cbn. rewrite Ht. cbn.
  rewrite release_run by (cbn; lia). cbn. rewrite depth_back, Hx. done.
Qed.

(** The file under the lock. *)
Lemma plain_file_depth vn x s n :
  plain_file vn x s -> 0 <= n < 2 ^ 32 - 1 -> plain_file vn x (set_depth n s).
Proof.
  intros [(Hx & [] & []) ? ? ? ? ? ?] Hn. split; try done.
Qed.

Lemma wp_locked {A} (m : M (uio * sfs_fs D) A) u s Q E : 0 <= vfs_biglock_depth s < 2 ^ 32 - 1 ->
  wp m Q E (u, set_depth (vfs_biglock_depth s + 1) s) -> wp (on_fs vfs_biglock_acquire ;; m) Q E (u, s).
Proof.
  intros Hd H. apply wp_bind, wp_on_fs. unfold wp at 1. by rewrite acquire_run.
Qed.

Lemma wp_unlock r u s (Q : unit -> uio * sfs_fs D -> Prop) (E : Z -> uio * sfs_fs D -> Prop) :
  0 < vfs_biglock_depth s < 2 ^ 32 ->
  (if r =? 0 then Q tt (u, set_depth (vfs_biglock_depth s - 1) s)
   else E r (u, set_depth (vfs_biglock_depth s - 1) s)) ->
  wp (on_fs vfs_biglock_release ;; return_result r) Q E (u, s).
Proof.
  intros Hd H. apply wp_bind, wp_on_fs. unfold wp at 1. rewrite release_run by done. unfold return_result.
  destruct (r =? 0); done.
Qed.

Lemma wp_sfs_read vn x s u :
  plain_file vn x s -> uio_wf curas u -> uio_rw u = UIO_READ ->
  wp (sfs_read curas vn)
    (fun _ '(u', s') => uio_resid u' = uio_resid u - read_count (contents x s) u /\
       uio_offset u' = uio_offset u + read_count (contents x s) u /\
       uio_mem u' = store_all (take (Z.to_nat (read_count (contents x s) u)) (uio_addrs u))
         (slice (Z.to_nat (uio_offset u)) (Z.to_nat (read_count (contents x s) u)) (contents x s)) (uio_mem u) /\
       sfs_vfile s' vn (contents x s))
    (fun _ _ => False) (u, s).
Proof.
  intros P W Hrw. pose proof P as [F Ho Ht Hr Hsm Hmax Hd].
  pose proof (contents_length vn x s P) as Hl.
  assert (Hn : read_count (contents x s) u = readable u x) by (unfold read_count, readable; by rewrite Hl).
  unfold sfs_read. wp_steps. cbn [fst]. apply wp_kassert; [unfold is_read; by rewrite Hrw, bool_decide_true|].
  apply wp_locked; [done|]. set (s1 := set_depth _ s).
  assert (F1 : file_ok vn x s1) by (by apply file_ok_depth).
  apply wp_bind. unfold result_of. wp_steps.
  eapply wp_mono; [apply (wp_sfs_io_read curas vn u x s1 (fun _ _ => False)); [by split | done | done]| |done].
  intros [] [u' s'] (Hres & Hoff & Hmem & d' & Es' & Hsame). apply wp_ret. cbn [fst snd] in *. subst s'.
  apply wp_unlock; [cbn; lia|]. cbn [Z.eqb]. cbv iota. rewrite Hn.
  assert (Es : set_depth (vfs_biglock_depth (set_device d' s1) - 1) (set_device d' s1) = set_device d' s).
  { unfold s1, set_device, set_depth. destruct s. cbn. f_equal. lia. }
  rewrite Es. split; [done|]. split; [done|].
  assert (Hrd : 0 <= readable u x /\ (0 < readable u x -> uio_offset u + readable u x <= sfi_size (sv_i x)))
    by (unfold readable; lia).
  split.
  - rewrite Hmem. f_equal. change (fbytes s1 (sv_i x)) with (fbytes s (sv_i x)). unfold contents.
    destruct (Z.eq_dec (readable u x) 0) as [-> |]; [done|].
    pose proof (uio_wf_offset _ _ W). by rewrite slice_take by lia.
  - destruct (file_kept_same vn x s d' F Hsame) as [(F' & _ & Hb & _) _]. exists x. split; [by split|].
    unfold contents. by rewrite Hb.
Qed.

(** The file after a write of [m] bytes under the lock. *)
Lemma wrote_vfile vn x s u m u' s' :
  plain_file vn x s -> uio_wf curas u -> uio_offset u <= sfi_size (sv_i x) ->
  uio_offset u + uio_resid u <= MAXBYTES -> 0 <= m <= uio_resid u ->
  io_wrote vn u x (set_depth (vfs_biglock_depth s + 1) s) m u' s' ->
  0 < vfs_biglock_depth s' < 2 ^ 32 /\ uio_mem u' = uio_mem u /\ uio_offset u' = uio_offset u + m /\
  exists bytes, load_all (uio_mem u) (take (Z.to_nat m) (uio_addrs u)) = Some bytes /\
    sfs_vfile (set_depth (vfs_biglock_depth s' - 1) s') vn
      (splice (Z.to_nat (uio_offset u)) bytes (contents x s)).
Proof.
  intros P W Hoff Hmax' Hm (x' & bytes & F' & R & Hres & Ho' & Hmem & Hld & Hb & Hsz).
  pose proof P as [F Ho Ht Hr Hsm Hmax Hd]. pose proof (uio_wf_offset _ _ W) as Hu. pose proof (uio_wf_resid _ _ W).
  destruct (fr_fs _ _ _ _ _ R) as (Esb & _ & _ & Ed). cbn in Ed. destruct (fr_vnode _ _ _ _ _ R) as (Er & Eo & _).
  destruct (fr_meta _ _ _ _ _ R) as (Et & _).
  pose proof (load_all_length _ _ _ Hld) as Hlen. rewrite length_take in Hlen.
  pose proof (fbytes_length vn x s F) as Hfl. pose proof (ino_size _ _ (proj2 (proj2 F))) as Hsize.
  split; [lia|]. split; [done|]. split; [done|]. exists bytes. split; [done|]. exists x'. split.
  - split; [by apply file_ok_depth | congruence | congruence | congruence | | |cbn; lia].
    + unfold small_volume, nblocks in *. cbn. by rewrite Esb.
    + rewrite Hsz. destruct (m =? 0); lia.
  - unfold contents. change (fbytes (set_depth _ s') (sv_i x')) with (fbytes s' (sv_i x')). rewrite Hb, Hsz.
    change (fbytes (set_depth _ s) (sv_i x)) with (fbytes s (sv_i x)).
    rewrite <- take_splice by lia. f_equal.
    destruct (Z.eqb_spec m 0); lia.
Qed.

Lemma wp_sfs_write vn x s u :
  plain_file vn x s -> uio_wf curas u -> uio_rw u = UIO_WRITE -> uio_offset u <= sfi_size (sv_i x) ->
  uio_offset u + uio_resid u <= MAXBYTES ->
  wp (sfs_write curas vn)
    (fun _ '(u', s') => uio_offset u' = uio_offset u + uio_resid u /\ uio_mem u' = uio_mem u /\
       exists bytes, load_all (uio_mem u) (take (Z.to_nat (uio_resid u)) (uio_addrs u)) = Some bytes /\
         sfs_vfile s' vn (splice (Z.to_nat (uio_offset u)) bytes (contents x s)))
    (fun e '(u', s') => e = ENOSPC /\ uio_mem u' = uio_mem u /\
       exists m bytes, 0 <= m <= uio_resid u /\
         load_all (uio_mem u) (take (Z.to_nat m) (uio_addrs u)) = Some bytes /\
         sfs_vfile s' vn (splice (Z.to_nat (uio_offset u)) bytes (contents x s)))
    (u, s).
Proof.
  intros P W Hrw Hoff Hmax'. pose proof P as [F Ho Ht Hr Hsm Hmax Hd]. pose proof (uio_wf_resid _ _ W).
  unfold sfs_write. wp_steps. cbn [fst]. apply wp_kassert; [unfold is_write; by rewrite Hrw, bool_decide_true|].
  apply wp_locked; [done|]. apply wp_bind. unfold result_of. wp_steps.
  eapply wp_mono; [apply (wp_sfs_io_write curas vn u x); split; [split; [done|split; [done|]]| |]; [|done..]|..].
  - by apply file_ok_depth.
  - intros [] [u' s'] Hw. apply wp_ret. cbn [fst snd] in Hw.
    destruct (wrote_vfile vn x s u (uio_resid u) u' s' P W Hoff Hmax' ltac:(lia) Hw) as (Hd' & Hm' & Ho' & Hf).
    apply wp_unlock; [done|]. by cbn.
  - intros e [u' s'] (-> & m & Hm & Hw). apply wp_ret. cbn [fst snd] in Hw.
    destruct (wrote_vfile vn x s u m u' s' P W Hoff Hmax' Hm Hw) as (Hd' & Hm' & Ho' & bytes & Hf).
    apply wp_unlock; [done|]. cbn. split; [done|]. split; [done|]. by exists m, bytes.
Qed.

Lemma vop_uio_file {A} vn x s u (file dir : M (uio * sfs_fs D) A) :
  plain_file vn x s -> vop_uio vn file dir (u, s) = file (u, s).
Proof.
  intros [(Hx & _) Ho _ Hr _ _ _]. unfold vop_uio, vnode_check, get_sv, on_fs, zoom, bind. cbn. rewrite Hx. cbn.
  rewrite (proj2 (Z.ltb_ge _ _)), (proj2 (Z.eqb_neq _ _)) by lia. cbn. by rewrite Hx; cbn; rewrite Ho.
Qed.

#[export] Instance sfs_file_vnodes : FileVnodes curas (sfs_fs D).
Proof.
  refine {| vfile := sfs_vfile; vfile_max := MAXBYTES |}.
  - done.
  - intros s vn c (x & P & ->). rewrite (contents_length vn x s P). apply P.
  - intros s vn c (x & P & ->). cbn. by rewrite (vop_file vn x).
  - intros s vn c (x & P & ->). eexists. split; [cbn; rewrite (vop_file vn x) by done; by apply sfs_stat_run|].
    cbn. by rewrite (contents_length vn x s P).
  - intros s vn c u (x & P & ->) W Hrw. unfold wp. cbn [VOP_READ ops sfs_vnode_ops].
    rewrite (vop_uio_file vn x) by done. by apply wp_sfs_read.
  - intros s vn c u (x & P & ->) W Hrw Ho Hm. rewrite (contents_length vn x s P) in Ho. unfold wp.
    cbn [VOP_WRITE ops sfs_vnode_ops]. rewrite (vop_uio_file vn x) by done. by apply wp_sfs_write.
Defined.

End file.
