(* ===== verification/SfsDemo.v ===== *)
(** * A small SFS volume, and two defects of the block I/O

    A volume of sixteen blocks on a disk kept in memory, mounted by the state
    below: the instance the witnesses of the SFS theorems run on.  The last
    section states what the retry loop of [sfs_rwblock] makes of a failed
    write, and where [sfs_blockio] looks for a block past four gigabytes. *)

From S2P Require Import Prelude Bitmap CopyInOut Uio Vnode Device Lhd Synch SfsDisk SfsCore SfsBmap SfsTrunc.
From S2P Require Import SfsIo SfsDir.

Abbreviation volume := (sfs_fs (lhd_softc ramdisk)).

(** Superblock, root inode, free map and one inode in use; sixteen blocks. *)
Definition demo_freemap : bitmap := Bitmap 4096 (15 :: 0 :: replicate 510 255).

Definition demo_sb : sfs_superblock :=
  Superblock SFS_MAGIC 16 (replicate 32 0) (replicate 118 0).

Definition empty_inode (type : Z) : sfs_dinode :=
  Dinode 0 type 1 (replicate 15 0) 0 (replicate 110 0).

Definition demo_vnode : sfs_vnode := SfsVnode 1 sfs_fileops (empty_inode SFS_TYPE_FILE) 3 false.

Definition demo_fs (faults : list bool) : volume :=
  SfsFs (ram_lhd 16 faults) demo_sb false demo_freemap false [100] {[ 100 := demo_vnode ]} 0.

Lemma demo_bit i : 16 <= i -> bit demo_freemap i = true.
Proof.
  intros Hi. unfold bit, demo_freemap. cbn [v]. unfold zlookup.
  assert (2 <= i / 8) by (apply Z.div_le_lower_bound; lia).
  destruct (Z.leb_spec 0 (i / 8)); [|lia].
  replace (Z.to_nat (i / 8)) with (S (S (Z.to_nat (i / 8 - 2)))) by lia.
  change ((15 :: 0 :: replicate 510 255) !! S (S (Z.to_nat (i / 8 - 2))))
    with (replicate 510 255 !! Z.to_nat (i / 8 - 2)).
  destruct (replicate 510 255 !! Z.to_nat (i / 8 - 2)) as [w|] eqn:E; [|done].
  apply lookup_replicate in E as [-> _]. apply ones_all, Z.mod_pos_bound. lia.
Qed.

Lemma demo_freemap_wf : bitmap_wf demo_freemap.
Proof.
  split; cbn [nbits v demo_freemap].
  - lia.
  - by vm_compute.
  - constructor; [done|]. constructor; [done|]. by apply Forall_replicate.
  - intros i Hi. apply demo_bit. lia.
Qed.

Lemma demo_volume_wf faults : Forall (eq false) faults -> volume_wf (demo_fs faults).
Proof.
  intros Hf. split.
  - split; [|exact Hf]. unfold lhd_idle. split_and!; reflexivity.
  - apply demo_freemap_wf.
  - unfold nblocks. cbn. change (d_blocks (ram_lhd 16 faults)) with (u32 16). rewrite wrap_small by lia. lia.
  - by vm_compute.
  - intros b Hb. apply demo_bit. exact Hb.
Qed.

Lemma demo_file_ok faults : Forall (eq false) faults -> file_ok 100 demo_vnode (demo_fs faults).
Proof.
  intros Hf. split; [apply lookup_singleton_eq|]. split; [by apply demo_volume_wf|].
  assert (Eo : owned (demo_fs faults) (sv_i demo_vnode) = []) by (vm_compute; reflexivity).
  split; [done | by rewrite Eo | rewrite Eo; constructor | cbn; lia].
Qed.

Lemma sfs_bmap_allocates_witness :
  match sfs_bmap None 100 20 true (demo_fs []) with Ret b _ => 0 < b < 16 | _ => True end.
Proof.
  pose proof (sfs_bmap_allocates None 100 demo_vnode (demo_fs []) 20 (demo_file_ok [] ltac:(constructor)) ltac:(lia)) as H.
  destruct (sfs_bmap None 100 20 true (demo_fs [])) as [b s'| | |]; [|done..].
  destruct H as (x' & _ & Hb & _). exact Hb.
Defined.


Lemma sfs_itrunc_zero_frees_witness :
  exists x' s', sfs_itrunc None 100 0 (demo_fs []) = Ret tt s' /\ sv_heap s' !! 100 = Some x' /\
    owned s' (sv_i x') = [].
Proof.
  destruct (sfs_itrunc_zero_frees None 100 demo_vnode (demo_fs []) (demo_file_ok [] ltac:(constructor))
    ltac:(cbn; lia)) as (x' & s' & E & Hx & Ho & _).
  exists x', s'. done.
Defined.

(** A kernel buffer of 700 bytes, written at offset 100. *)
Definition demo_uio (rw : uio_rw_t) : uio := uio_kinit 0 (kmem (replicate 700 7)) 700 100 rw.

Lemma demo_uio_wf rw : uio_wf None (demo_uio rw).
Proof. apply uio_kinit_wf; [lia..|]. apply (kmem_mapped (replicate 700 7)). Qed.

Lemma demo_io_ok rw : io_ok None 100 (demo_uio rw) demo_vnode (demo_fs []) rw.
Proof. split; [apply demo_uio_wf|]. split; [done|]. by apply demo_file_ok. Qed.


Lemma sfs_io_read_refines_witness :
  exists u' s', sfs_io None 100 (demo_uio UIO_READ, demo_fs []) = Ret tt (u', s') /\ uio_resid u' = 700.
Proof.
  destruct (sfs_io_read_refines None 100 (demo_uio UIO_READ) demo_vnode (demo_fs []) (demo_io_ok UIO_READ)
    ltac:(unfold small_volume, nblocks; cbn; lia) ltac:(cbn; unfold MAXBYTES, SFS_BLOCKSIZE; lia))
    as (u' & s' & E & Hr & _).
  exists u', s'. done.
Defined.

(** ** A directory *)

Definition demo_dirnode : sfs_vnode := SfsVnode 1 sfs_dirops (empty_inode SFS_TYPE_DIR) 1 false.

Definition demo_dir_fs : volume :=
  SfsFs (ram_lhd 16 []) demo_sb false demo_freemap false [200] {[ 200 := demo_dirnode ]} 0.

Lemma demo_dir_ok : dir_ok 200 demo_dirnode demo_dir_fs.
Proof.
  split; [|reflexivity | split; [reflexivity | cbn; unfold MAXBYTES, SFS_BLOCKSIZE; lia]].
  split; [apply lookup_singleton_eq|]. split.
  - destruct (demo_volume_wf [] ltac:(constructor)). by split.
  - assert (Eo : owned demo_dir_fs (sv_i demo_dirnode) = []) by (vm_compute; reflexivity).
    split; [done | by rewrite Eo | rewrite Eo; constructor | cbn; lia].
Qed.

Lemma demo_dir_unique : unique (entries demo_dir_fs (sv_i demo_dirnode)).
Proof.
  assert (E : entries demo_dir_fs (sv_i demo_dirnode) = []) by reflexivity. rewrite E.
  intros i j a b n Ha. by rewrite lookup_nil in Ha.
Qed.

Lemma sfs_dir_findname_correct_witness :
  exists emptyslot s', sfs_dir_findname None 200 [97; 98] demo_dir_fs = Ret (None, emptyslot) s'.
Proof.
  destruct (sfs_dir_findname_correct None 200 demo_dirnode demo_dir_fs [97; 98]
    demo_dir_ok demo_dir_unique) as (e & d' & E & _).
  exists e, (set_device d' demo_dir_fs). exact E.
Defined.

Lemma demo_link (Q : Prop) :
  (forall slot s', sfs_dir_link None 200 [97; 98] 3 demo_dir_fs = Ret slot s' ->
     linked 200 demo_dirnode demo_dir_fs [97; 98] 3 s' -> Q) -> Q.
Proof.
  intros H. pose proof (wp_sfs_dir_link None 200 demo_dirnode demo_dir_fs [97; 98] 3 demo_dir_ok demo_dir_unique) as L.
  assert (R : match sfs_dir_link None 200 [97; 98] 3 demo_dir_fs with Ret _ _ => true | _ => false end = true)
    by (vm_compute; reflexivity).
  unfold wp in L. destruct (sfs_dir_link None 200 [97; 98] 3 demo_dir_fs) as [slot s'|e s'| |] eqn:E; [|done..].
  eapply H; [done|]. apply L; [cbn; unfold MAXBYTES, SFS_BLOCKSIZE; lia | | unfold word_ok; lia | done].
  by repeat (constructor; [lia|]).
Qed.



(** ** A failed write *)

Section lost.
Context {HW : Type} `{!LhdHardware HW}.

(** The hardware reports a media error for the write of [data] to [b]. *)
Definition write_fails (lh : lhd_softc HW) (b : Z) (data : list Z) : Prop :=
  Z.land (hw_run (lh_hw lh) b true data).1.1 LHD_STATEMASK = LHD_MEDIA.

(** The driver returns [EIO], but by then the uio has been consumed. *)
Lemma wp_lhd_write_fails u lh b data (Q : unit -> uio * lhd_softc HW -> Prop) (E : Z -> uio * lhd_softc HW -> Prop) :
  lhd_idle lh -> 0 <= b < d_blocks lh -> sector_request None u UIO_WRITE b ->
  load_all (uio_mem u) (take (Z.to_nat SECTSIZE) (uio_addrs u)) = Some data ->
  write_fails lh b data ->
  (forall u' lh', uio_resid u' = 0 -> uio_offset u' = (b + 1) * SECTSIZE -> lhd_idle lh' ->
     lh_hw lh' = (hw_run (lh_hw lh) b true data).2 -> E EIO (u', lh')) ->
  wp (lhd_io None) Q E (u, lh).
Proof.
  intros (Hc & Hd & Hl) Hb Hreq Hload Hfail HE.
  destruct (sector_request_params _ _ _ _ _ Hreq Hb) as (P1 & P2 & P3 & P4 & P5).
  destruct Hreq as (W & Hrw & Ho & Hr). unfold lhd_io. wp_steps. rewrite P1, P2, P3, P4, P5, Hrw.
  cbn -[u32 LHD_WORKING]. rewrite decide_True by done. change (Z.to_nat 1) with 1%nat. cbn [for_each].
  wp_step. unfold lhd_sector_io. wp_steps. cbn [fst]. rewrite Hrw, decide_True by done.
  apply wp_on_lh. apply wp_P_clear; [done|]. wp_steps.
  apply wp_lhd_uiomove; [done | done | done |]. intros buf u' W' [HA HM].
  rewrite Hrw in HM. destruct HM as [HM (bs & Hbs & ->)]. cbn [lh_buf] in Hbs |- *.
  change LHD_SECTSIZE with SECTSIZE in Hbs. rewrite Hload in Hbs. injection Hbs as <-.
  pose proof (load_all_length _ _ _ Hload) as Hbl. rewrite length_take in Hbl.
  pose proof (uio_wf_resid _ _ W) as Hres. rewrite Hr in Hres.
  assert (Hbl' : length data = Z.to_nat LHD_SECTSIZE) by (unfold LHD_SECTSIZE, SECTSIZE in *; lia).
  change (Z.to_nat 0) with 0%nat. rewrite splice_all by (rewrite Hl; done). cbn. wp_steps. apply wp_on_lh.
  rewrite Z.add_0_r, wrap_small by (pose proof (hw_nsect_range (lh_hw lh)); unfold d_blocks in Hb; lia).
  unfold lhd_operate, lhd_irq, lhd_iodone. wp_steps. cbn [lh_hw lh_buf].
  change (negb (Z.land (Z.lor LHD_WORKING LHD_ISWRITE) LHD_ISWRITE =? 0)) with true.
  pose proof (hw_run_buf (lh_hw lh) b true data Hbl') as Hbl2. unfold write_fails in Hfail.
  destruct (hw_run (lh_hw lh) b true data) as [[status buf] hw] eqn:Erun. cbn in Hfail, Hbl2 |- *.
  rewrite Hfail. cbn. wp_steps. cbn. apply wp_on_lh, wp_P_done; [cbn; lia|]. wp_steps. cbn [snd lh_result].
  unfold lhd_code_to_errno. rewrite Hfail. cbn. wp_steps. apply wp_on_lh. unfold V_clear. wp_steps. cbn.
  apply HE; [rewrite (adv_resid _ _ _ HA); unfold SECTSIZE, LHD_SECTSIZE in *; lia | rewrite (adv_offset _ _ _ HA), Ho; unfold SECTSIZE, LHD_SECTSIZE; lia | | done].
  unfold lhd_idle. cbn. split_and!; lia || done.
Qed.

(** A request for no bytes at the end of sector [b] succeeds at once. *)
Lemma lhd_io_nothing u (lh : lhd_softc HW) b :
  uio_resid u = 0 -> uio_offset u = (b + 1) * SECTSIZE -> 0 <= b < d_blocks lh ->
  lhd_io None (u, lh) = Ret tt (u, lh).
Proof.
  intros Hr Ho Hb. unfold lhd_io, bind, get. rewrite Hr, Ho. unfold SECTSIZE, LHD_SECTSIZE.
  rewrite Z.quot_mul, Z.rem_mul by lia. change (0 / 512) with 0. change (0 mod 512) with 0.
  change (u32 0) with 0. cbn [Z.eqb negb orb Z.to_nat for_each].
  pose proof (hw_nsect_range (lh_hw lh)). unfold d_blocks in *.
  destruct (Z.ltb_spec (hw_nsect (lh_hw lh)) (u32 (u32 (b + 1) + 0))) as [Hlt|]; [|done]. exfalso.
  rewrite Z.add_0_r in Hlt. destruct (Z.eq_dec (b + 1) (2 ^ 32)) as [E|].
  - rewrite E in Hlt. change (u32 (u32 (2 ^ 32))) with 0 in Hlt. lia.
  - rewrite !wrap_small in Hlt; rewrite ?wrap_small; lia.
Qed.

(** When the disk reports a media error for a block write, the retry of
    [sfs_rwblock] does not repeat the write: the failed attempt has consumed
    the uio, so the second request is for no bytes and succeeds.
    [sfs_writeblock] returns success, and the failed operation is the only
    one the disk was ever given. *)
Theorem sfs_writeblock_loses_write (s : sfs_fs (lhd_softc HW)) b data :
  lhd_idle (sfs_device s) -> 0 <= b < d_blocks (sfs_device s) ->
  length data = Z.to_nat SFS_BLOCKSIZE -> write_fails (sfs_device s) b data ->
  exists s', sfs_writeblock None b data s = Ret tt s' /\
    lh_hw (sfs_device s') = (hw_run (lh_hw (sfs_device s)) b true data).2.
Proof.
  intros Hi Hb Hl Hf.
  enough (H : wp (sfs_writeblock None b data) (fun _ s' => lh_hw (sfs_device s') =
      (hw_run (lh_hw (sfs_device s)) b true data).2) (fun _ _ => False) s).
  { destruct (wp_ret_inv _ _ _ H) as ([] & s' & E & H'). eauto. }
  assert (Hb32 : b < 2 ^ 32) by (pose proof (hw_nsect_range (lh_hw (sfs_device s))); unfold d_blocks in Hb; lia).
  unfold sfs_writeblock. wp_step. apply wp_kassert; [by rewrite Hl|]. wp_step. apply wp_with_uio.
  unfold sfs_rwblock. wp_step. apply wp_on_fs, wp_assert_locked.
  change (rwblock_try None 10) with (catch (DEVOP_IO (D := lhd_softc HW) None) (fun result =>
    if result =? EINVAL then panic else if result =? EIO then rwblock_try None 9 else throw result)).
  wp_step. unfold DEVOP_IO at 1. apply wp_zoom. cbn [fst snd devop_io lhd_block_device].
  apply (wp_lhd_write_fails _ _ b data); try done.
  { apply SFSUIO_request; [by rewrite Hl | lia]. }
  { rewrite SFSUIO_take. cbn [uio_mem SFSUIO uio_kinit].
    pose proof (kmem_load data) as Hk. by rewrite Hl in Hk. }
  intros u' lh' Hr Ho Hi' Hhw. cbn [Z.eqb EIO EINVAL Pos.eqb fst snd]. 
  change (rwblock_try None 9) with (catch (DEVOP_IO (D := lhd_softc HW) None) (fun result =>
    if result =? EINVAL then panic else if result =? EIO then rwblock_try None 8 else throw result)).
  change (EIO =? EINVAL) with false. change (EIO =? EIO) with true. cbv iota.
  wp_step. unfold DEVOP_IO at 1. apply wp_zoom. cbn [fst snd devop_io lhd_block_device set_device sfs_device].
  unfold wp. rewrite (lhd_io_nothing u' lh' b) by
    (done || (unfold d_blocks in *; rewrite Hhw, hw_run_nsect; lia)).
  exact Hhw.
Qed.

End lost.

Lemma sfs_writeblock_loses_write_witness :
  exists s', sfs_writeblock None 4 (replicate 512 9) (demo_fs [true]) = Ret tt s' /\
    take 3 (dev_sector (sfs_device s') 4) = [0; 0; 0].
Proof.
  destruct (sfs_writeblock_loses_write (demo_fs [true]) 4 (replicate 512 9)) as (s' & E & Hhw).
  - unfold lhd_idle. split_and!; reflexivity.
  - change (d_blocks (sfs_device (demo_fs [true]))) with (u32 16). rewrite wrap_small by lia. lia.
  - reflexivity.
  - reflexivity.
  - exists s'. split; [exact E|]. change (dev_sector (sfs_device s') 4) with (rd_sector (lh_hw (sfs_device s')) 4).
    rewrite Hhw. vm_compute. reflexivity.
Defined.

(** ** Volumes over four gigabytes *)

Section wraps.
Context {D : Type} `{!BlockDevice D} (curas : option Z).

(** On a volume with more than [2 ^ 23] blocks the byte position
    [diskblock * SFS_BLOCKSIZE] that [sfs_blockio] computes in 32 bits wraps:
    reading a whole block of a file that lives in disk block [b + 2 ^ 23]
    delivers the contents of disk block [b], whatever file or structure that
    block belongs to. *)
Theorem sfs_blockio_wraps sv u x (s : sfs_fs D) k b :
  io_ok curas sv u x s UIO_READ -> position (uio_offset u) k 0 -> SFS_BLOCKSIZE <= uio_resid u ->
  fblocks s (sv_i x) !! Z.to_nat k = Some (b + 2 ^ 23) -> 0 <= b < 2 ^ 23 ->
  exists u' s', sfs_blockio curas sv (u, s) = Ret tt (u', s') /\
    uio_mem u' = store_all (take (Z.to_nat SECTSIZE) (uio_addrs u)) (dev_sector (sfs_device s) b) (uio_mem u).
Proof.
  intros (W & Hrw & F) P Hres Hk Hb. destruct (position_fileblock _ _ _ P) as [Ek _].
  pose proof P as [P1 P2 P3]. pose proof F as (Hx & Wv & I). pose proof (vol_size s Wv) as Vs.
  enough (H : wp (sfs_blockio curas sv) (fun _ p => uio_mem (fst p) =
      store_all (take (Z.to_nat SECTSIZE) (uio_addrs u)) (dev_sector (sfs_device s) b) (uio_mem u))
    (fun _ _ => False) (u, s)).
  { destruct (wp_ret_inv _ _ _ H) as ([] & [u' s'] & E & H'). by exists u', s'. }
  unfold sfs_blockio. wp_steps. cbn [fst]. rewrite Hrw, Ek.
  unfold is_write, is_read. rewrite bool_decide_false by done.
  apply wp_on_fs, (wp_sfs_bmap_lookup curas sv x); [done | done |]. intros b' d1 Hd1 Hb'.
  rewrite Hk in Hb'. injection Hb' as <-. destruct (Z.eqb_spec (b + 2 ^ 23) 0); [lia|].
  destruct (fblocks_ok s _ (b + 2 ^ 23) I Wv) as [|[Hr _]]; [by eapply list_elem_of_lookup_2 | lia |].
  pose proof Hd1 as (Hok & Hdb & Hsec).
  assert (Eoff : u32 ((b + 2 ^ 23) * SFS_BLOCKSIZE) = b * SFS_BLOCKSIZE).
  { unfold wrap, SFS_BLOCKSIZE. replace ((b + 2 ^ 23) * 512) with (b * 512 + 1 * 2 ^ 32) by lia.
    rewrite Z.mod_add by lia. apply Z.mod_small. lia. }
  rewrite Eoff. wp_steps. apply wp_on_u. wp_steps. apply wp_kassert; [by apply Z.leb_le|].
  wp_steps. apply wp_on_u. wp_steps. unfold result_of. wp_steps.
  eapply (wp_rwblock_read curas (seek (b * SFS_BLOCKSIZE) SFS_BLOCKSIZE u) (set_device d1 s) b);
    [done | cbn; lia | apply seek_request; done || lia |].
  intros u' d2 W' [A' M'] Hd2. wp_steps. apply wp_on_u. wp_steps.
  unfold return_result. rewrite Z.eqb_refl. apply wp_ret. cbn [fst].
  cbn [sfs_device set_device] in M'. rewrite Hsec in M' by lia. exact M'.
Qed.

End wraps.

(** An eight-gigabyte volume, every block marked, with a one-block file. *)
Definition big_freemap : bitmap := Bitmap (2 ^ 24) (replicate (Z.to_nat (2 ^ 21)) 255).

Definition big_vnode : sfs_vnode :=
  SfsVnode 1 sfs_fileops
    (Dinode 512 SFS_TYPE_FILE 1 ((2 ^ 23 + 5) :: replicate 14 0) 0 (replicate 110 0)) 3 false.

Definition big_fs : volume :=
  SfsFs (ram_lhd (2 ^ 24) []) (Superblock SFS_MAGIC (2 ^ 24) (replicate 32 0) (replicate 118 0))
    false big_freemap false [100] {[ 100 := big_vnode ]} 0.

Lemma big_bit i : bit big_freemap i = true.
Proof.
  unfold bit, big_freemap, zlookup. cbn [v]. destruct (0 <=? i / 8); [|done].
  destruct (replicate _ 255 !! Z.to_nat (i / 8)) as [w|] eqn:E; [|done].
  apply lookup_replicate in E as [-> _]. apply ones_all, Z.mod_pos_bound. lia.
Qed.

Lemma big_file_ok : file_ok 100 big_vnode big_fs.
Proof.
  split; [apply lookup_singleton_eq|]. split.
  - split.
    + split; [unfold lhd_idle; split_and!; reflexivity | constructor].
    + split; cbn [nbits v sfs_freemap big_fs big_freemap].
      * lia.
      * rewrite length_replicate. rewrite Z2Nat.id by lia. reflexivity.
      * by apply Forall_replicate.
      * intros i _. apply big_bit.
    + change (dev_blocks (sfs_device big_fs)) with (u32 (2 ^ 24)).
      change (nblocks big_fs) with (2 ^ 24). rewrite wrap_small by lia. cbn. lia.
    + apply big_bit.
    + intros b _. apply big_bit.
  - assert (Eo : owned big_fs (sv_i big_vnode) = [2 ^ 23 + 5]).
    { unfold owned, fblocks, idwords. cbn [sv_i big_vnode sfi_indirect sfi_direct].
      change (0 =? 0) with true. cbv iota. rewrite filter_cons_False by (unfold nonzero; lia).
      cbn [app]. rewrite filter_cons_True by (unfold nonzero; lia). f_equal. }
    split; [done | | |cbn; lia]; rewrite Eo.
    + constructor; [|constructor]. split; [unfold nblocks; cbn; lia | apply big_bit].
    + apply NoDup_singleton.
Qed.

Lemma sfs_blockio_wraps_witness :
  exists u' s', sfs_blockio None 100 (uio_kinit 0 (kmem (replicate 512 7)) 512 0 UIO_READ, big_fs) = Ret tt (u', s') /\
    uio_mem u' = store_all (take 512 (block 0 512)) (dev_sector (sfs_device big_fs) 5) (kmem (replicate 512 7)).
Proof.
  destruct (sfs_blockio_wraps None 100 (uio_kinit 0 (kmem (replicate 512 7)) 512 0 UIO_READ)
    big_vnode big_fs 0 5) as (u' & s' & E & Hm).
  - split; [|split; [done | apply big_file_ok]].
    apply uio_kinit_wf; [lia..|]. apply (kmem_mapped (replicate 512 7)).
  - split; cbn; unfold SFS_BLOCKSIZE; lia.
  - cbn. unfold SFS_BLOCKSIZE. lia.
  - reflexivity.
  - lia.
  - exists u', s'. split; [exact E|]. rewrite Hm. unfold uio_addrs. cbn. by rewrite app_nil_r.
Defined.
