(* ===== verification/FileSyscalls.v ===== *)
(** * The file system calls, [kern/syscall/file.c] and [kern/include/file.h]

    A process has a table of sixteen slots; a slot is empty or points to an
    open file, a [struct File] that several slots can share after [dup2].
    The open files live in a heap under their pointers.  [sys_open] names a
    variable [i] that no declaration introduces; it is an argument here, so
    what is shown of [sys_open] holds whatever it stands for.  The answers of
    the allocator are inputs.  The object [open] allocates is given its
    fields although [kmalloc] is asked for the size of a pointer only. *)

From S2P Require Import Prelude CopyInOut Uio Vnode BigLock VfsList VfsPath Synch SfsDisk.

Definition MAX_PROCESS_OPEN_FILES : Z := 16.
Definition MAX_SYSTEM_OPEN_FILES : Z := 64.

Definition SEEK_SET : Z := 0.
Definition SEEK_CUR : Z := 1.
Definition SEEK_END : Z := 2.

Record File := MkFile {
  v_ptr : Z;
  open_flags : Z;
  references : Z;
  flock : Z;
  offset : Z
}.

Definition with_offset (o : Z) (f : File) : File := MkFile (v_ptr f) (open_flags f) (references f) (flock f) o.
Definition with_references (n : Z) (f : File) : File := MkFile (v_ptr f) (open_flags f) n (flock f) (offset f).

(** The current process and what it shares with the rest of the kernel. *)
Record sys (V : Type) := Sys {
  sys_vfs : vfs V;
  file_table : list (option Z);
  files : gmap Z File;
  NUM_OPEN_FILES : Z;
  user_mem : gmap Z Z
}.

Arguments Sys {V} _ _ _ _ _.
Arguments sys_vfs {V} _.
Arguments file_table {V} _.
Arguments files {V} _.
Arguments NUM_OPEN_FILES {V} _.
Arguments user_mem {V} _.

(** The answers of [kmalloc] in [sys_open] and [open]: for the name buffer,
    the open file with the old contents of its first word, and the lock. *)
Record open_env := OpenEnv { oe_name : bool; oe_file : option Z; oe_garbage : Z; oe_lock : option Z }.

Section syscalls.
Context {V : Type} `{!VnodeOps V} (curas : option Z).
Implicit Types s : sys V.

Definition set_vfs (w : vfs V) s : sys V := Sys w (file_table s) (files s) (NUM_OPEN_FILES s) (user_mem s).
Definition set_table (t : list (option Z)) s : sys V := Sys (sys_vfs s) t (files s) (NUM_OPEN_FILES s) (user_mem s).
Definition set_files (h : gmap Z File) s : sys V := Sys (sys_vfs s) (file_table s) h (NUM_OPEN_FILES s) (user_mem s).
Definition set_num (n : Z) s : sys V := Sys (sys_vfs s) (file_table s) (files s) n (user_mem s).
Definition set_umem (m : gmap Z Z) s : sys V := Sys (sys_vfs s) (file_table s) (files s) (NUM_OPEN_FILES s) m.

Definition on_vfs {A} (m : M (vfs V) A) : M (sys V) A := zoom sys_vfs set_vfs m.

(** A copy from or to user memory. *)
Definition on_user {A} (m : M cstate A) : M (sys V) A :=
  zoom (fun s => CState false (user_mem s)) (fun c s => set_umem (umem c) s) m.

(** [VOP_READ] or [VOP_WRITE] with a uio over the memory of the process; the
    uio after the call is handed back. *)
Definition transfer (vop : M (uio * V) unit) (buf size pos : Z) (rw : uio_rw_t) : M (sys V) uio := fun s =>
  let u := uio_uinit curas buf (user_mem s) size pos rw in
  let after '(u', v') := set_umem (uio_mem u') (set_vfs (set_below v' (sys_vfs s)) s) in
  match vop (u, vfs_below (sys_vfs s)) with
  | Ret _ p => Ret (fst p) (after p)
  | Err e p => Err e (after p)
  | Panic => Panic
  | OutOfFuel => OutOfFuel
  end.

(** [curproc->file_table[fd]]; an access outside the array is a panic. *)
Definition slot (fd : Z) : M (sys V) (option Z) := s <- get ;; oob (zlookup (file_table s) fd).
Definition put_slot (fd : Z) (p : option Z) : M (sys V) unit :=
  s <- get ;; _ <- oob (zlookup (file_table s) fd) ;; put (set_table (zinsert fd p (file_table s)) s).

Definition get_file (p : Z) : M (sys V) File := s <- get ;; oob (files s !! p).
Definition put_file (p : Z) (f : File) : M (sys V) unit :=
  modify (fun s => set_files (<[p := f]> (files s)) s).
Definition free_file (p : Z) : M (sys V) unit := modify (fun s => set_files (delete p (files s)) s).

(** [if (fd < 0 || fd >= MAX_PROCESS_OPEN_FILES || !file_table[fd]) return EBADF;] *)
Definition fd_file (fd : Z) : M (sys V) Z :=
  if (fd <? 0) || (MAX_PROCESS_OPEN_FILES <=? fd) then throw EBADF
  else
    p <- slot fd ;;
    match p with None => throw EBADF | Some p => ret p end.

Definition lock_destroy (lock : Z) : M (sys V) unit := KASSERT (negb (lock =? 0)).

(** ** open and close *)

Definition open (env : open_env) (filename : list Z) (flags descriptor : Z) : M (sys V) unit :=
  match oe_file env with
  | None => throw ENFILE
  | Some file =>
      vn <- on_vfs (vfs_open filename flags 0) ;;
      match oe_lock env with
      | None => on_vfs (vfs_close (oe_garbage env)) ;; throw ENFILE
      | Some lock =>
          put_file file (MkFile vn flags 1 lock 0) ;;
          put_slot descriptor (Some file)
      end
  end.

(** The search for a descriptor: [fd] runs, the test looks at [i]. *)
Fixpoint open_search (n : nat) (fd i : Z) : M (sys V) Z :=
  match n with
  | O => ret fd
  | S n' =>
      p <- slot i ;;
      match p with
      | None => ret fd
      | Some _ => open_search n' (fd + 1) i
      end
  end.

Definition sys_open (env : open_env) (i filename flags : Z) : M (sys V) Z :=
  if filename =? 0 then throw EFAULT
  else if negb (oe_name env) then throw ENFILE
  else
    let* (result, copied) := on_user (copyinstr filename PATH_MAX) in
    match copied with
    | None => throw result
    | Some (kfilename, _) =>
        if negb (result =? 0) then throw result
        else
          fd <- open_search (Z.to_nat (MAX_PROCESS_OPEN_FILES - 3)) 3 i ;;
          if fd =? MAX_PROCESS_OPEN_FILES then throw EMFILE
          else
            s <- get ;;
            if MAX_SYSTEM_OPEN_FILES <=? NUM_OPEN_FILES s then throw ENFILE
            else
              open env (cstr kfilename) flags i ;;
              modify (fun s => set_num (i32 (NUM_OPEN_FILES s + 1)) s) ;;
              ret fd
    end.

Definition close (filehandler : Z) : M (sys V) unit :=
  p <- fd_file filehandler ;;
  file <- get_file p ;;
  lock_acquire ;;
  put_slot filehandler None ;;
  let file := with_references (i32 (references file - 1)) file in
  put_file p file ;;
  (if references file <=? 0 then
     lock_release ;;
     on_vfs (vfs_close (v_ptr file)) ;;
     lock_destroy (flock file) ;;
     free_file p
   else lock_release) ;;
  modify (fun s => set_num (i32 (NUM_OPEN_FILES s - 1)) s).

Definition sys_close (filehandler : Z) : M (sys V) unit := close filehandler.

(** ** read and write *)

Definition sys_read (filehandler buf size : Z) : M (sys V) Z :=
  p <- fd_file filehandler ;;
  file <- get_file p ;;
  let mode := Z.land (open_flags file) O_ACCMODE in
  if mode =? O_WRONLY then throw EBADF
  else
    lock_acquire ;;
    let old_offset := offset file in
    u <- catch (transfer (VOP_READ (v_ptr file)) buf size (offset file) UIO_READ)
           (fun result => lock_release ;; throw result) ;;
    put_file p (with_offset (uio_offset u) file) ;;
    lock_release ;;
    ret (i32 (uio_offset u - old_offset)).

Definition sys_write (filehandler buf size : Z) : M (sys V) Z :=
  p <- fd_file filehandler ;;
  file <- get_file p ;;
  let mode := Z.land (open_flags file) O_ACCMODE in
  if mode =? O_RDONLY then throw EBADF
  else
    lock_acquire ;;
    let old_offset := offset file in
    u <- catch (transfer (VOP_WRITE (v_ptr file)) buf size (offset file) UIO_WRITE)
           (fun result => lock_release ;; throw result) ;;
    put_file p (with_offset (uio_offset u) file) ;;
    lock_release ;;
    ret (i32 (uio_offset u - old_offset)).

(** ** dup2 and lseek *)

Definition sys_dup2 (oldfd newfd : Z) : M (sys V) unit :=
  if (oldfd <? 0) || (MAX_PROCESS_OPEN_FILES <=? oldfd) || (newfd <? 0) || (MAX_PROCESS_OPEN_FILES <=? newfd)
  then throw EBADF
  else
    old <- slot oldfd ;;
    match old with
    | None => throw EBADF
    | Some _ =>
        if oldfd =? newfd then ret tt
        else
          new <- slot newfd ;;
          (if bool_decide (is_Some new) then sys_close newfd else ret tt) ;;
          old <- slot oldfd ;;
          put_slot newfd old ;;
          p <- oob old ;;
          lock_acquire ;;
          file <- get_file p ;;
          put_file p (with_references (i32 (references file + 1)) file) ;;
          lock_release
    end.

(** The switch on [whence]: the new offset, or [EINVAL]. *)
Definition seek_target (whence pos offset size : Z) : option Z :=
  if whence =? SEEK_SET then if pos <? 0 then None else Some pos
  else if whence =? SEEK_CUR then
    if i64 (offset + pos) <? 0 then None else Some (i64 (offset + pos))
  else if whence =? SEEK_END then
    if i64 (size + pos) <? 0 then None else Some (i64 (size + pos))
  else None.

Definition sys_lseek (fd pos whence_ptr : Z) : M (sys V) Z :=
  if (fd <? 0) || (MAX_PROCESS_OPEN_FILES <? fd) then throw EBADF
  else
    p <- slot fd ;;
    match p with
    | None => throw EBADF
    | Some p =>
        file <- get_file p ;;
        seekable <- on_vfs (below (VOP_ISSEEKABLE (v_ptr file))) ;;
        if negb seekable then throw ESPIPE
        else
          stats <- on_vfs (below (VOP_STAT (v_ptr file))) ;;
          let* (result, bytes) := on_user (copyin whence_ptr 4) in
          if negb (result =? 0) then throw result
          else
            match seek_target (i32 (be bytes)) pos (offset file) (st_size stats) with
            | None => throw EINVAL
            | Some o =>
                lock_acquire ;;
                put_file p (with_offset o file) ;;
                lock_release ;;
                ret o
            end
    end.

End syscalls.

(** ** The open-file invariant *)

(** How many slots of the table point to [p]. *)
Definition slots_of (p : Z) (t : list (option Z)) : Z := Z.of_nat (length (filter (fun q => q = Some p) t)).

Definition points (q : option Z) (p : Z) : Z := if bool_decide (q = Some p) then 1 else 0.

Lemma slots_of_app p t1 t2 : slots_of p (t1 ++ t2) = slots_of p t1 + slots_of p t2.
Proof. unfold slots_of. rewrite filter_app, length_app. lia. Qed.

Lemma slots_of_cons p q t : slots_of p (q :: t) = points q p + slots_of p t.
Proof.
  unfold slots_of, points. rewrite filter_cons. destruct (decide (q = Some p)).
  - rewrite bool_decide_true by done. cbn [length]. lia.
  - rewrite bool_decide_false by done. lia.
Qed.

Lemma slots_of_insert p fd old new t :
  zlookup t fd = Some old -> slots_of p (zinsert fd new t) = slots_of p t - points old p + points new p.
Proof.
  unfold zlookup, zinsert. destruct (0 <=? fd); [|done]. intros H.
  rewrite insert_take_drop by (by eapply lookup_lt_Some).
  rewrite <- (take_drop_middle t (Z.to_nat fd) old H) at 3.
  rewrite !slots_of_app, !slots_of_cons. lia.
Qed.

Lemma slots_of_pos p t : 0 < slots_of p t <-> Some p ∈ t.
Proof.
  induction t as [|q t IH].
  - split; [done|]. by intros H%not_elem_of_nil.
  - rewrite slots_of_cons, elem_of_cons, <- IH. unfold points.
    assert (0 <= slots_of p t) by (unfold slots_of; lia).
    destruct (bool_decide (q = Some p)) eqn:E.
    + apply bool_decide_eq_true in E. split; [auto | lia].
    + apply bool_decide_eq_false in E. split; [intros; right; lia|]. intros [?|?]; [congruence | lia].
Qed.

Lemma slots_of_le p t : slots_of p t <= Z.of_nat (length t).
Proof. unfold slots_of. pose proof (length_filter (fun q => q = Some p) t). lia. Qed.

Section invariant.
Context {V : Type} `{!VnodeOps V} (curas : option Z).
Implicit Types s : sys V.

(** [references] counts the slots that point to the file, and no slot
    dangles. *)
Record files_ok s : Prop := {
  ft_length : length (file_table s) = Z.to_nat MAX_PROCESS_OPEN_FILES;
  ft_refs p f : files s !! p = Some f -> references f = slots_of p (file_table s) /\ 0 < references f;
  ft_live p : Some p ∈ file_table s -> is_Some (files s !! p)
}.

Lemma files_ok_same s s' :
  files_ok s -> file_table s' = file_table s -> files s' = files s -> files_ok s'.
Proof. intros [] E1 E2. split; rewrite ?E1, ?E2; auto. Qed.

(** An open file whose other fields change. *)
Lemma files_ok_update s p f f' :
  files_ok s -> files s !! p = Some f -> references f' = references f ->
  files_ok (set_files (<[p := f']> (files s)) s).
Proof.
  intros [H1 H2 H3] Hf Hr. split; cbn; [done| |].
  - intros q g. destruct (decide (q = p)) as [-> |Hne].
    + rewrite lookup_insert_eq. intros [= <-]. rewrite Hr. by apply H2.
    + rewrite lookup_insert_ne by done. apply H2.
  - intros q Hq. destruct (decide (q = p)) as [-> |Hne]; [rewrite lookup_insert_eq; eauto|].
    rewrite lookup_insert_ne by done. by apply H3.
Qed.

Lemma references_bound s p f : files_ok s -> files s !! p = Some f -> 0 < references f <= 16.
Proof.
  intros [H1 H2 _] Hf. destruct (H2 p f Hf) as [E Hp]. pose proof (slots_of_le p (file_table s)).
  rewrite H1 in H. unfold MAX_PROCESS_OPEN_FILES in H. lia.
Qed.

(** A slot is emptied and the count goes down; [delete] when it was the
    last. *)
Lemma files_ok_drop s fd p f (h : gmap Z File) :
  files_ok s -> zlookup (file_table s) fd = Some (Some p) -> files s !! p = Some f ->
  h = (if references f =? 1 then delete p (files s)
       else <[p := with_references (references f - 1) f]> (files s)) ->
  files_ok (set_files h (set_table (zinsert fd None (file_table s)) s)).
Proof.
  intros [H1 H2 H3] Hfd Hf ->. destruct (H2 p f Hf) as [E Hp].
  assert (Hs : forall q, slots_of q (zinsert fd None (file_table s)) = slots_of q (file_table s) - points (Some p) q).
  { intros q. rewrite (slots_of_insert q fd (Some p)) by done. unfold points at 2. rewrite bool_decide_false by done. lia. }
  unfold points in Hs. split; cbn.
  - by rewrite zinsert_length.
  - intros q g Hg. rewrite Hs. destruct (decide (q = p)) as [-> |Hne].
    + rewrite bool_decide_true by done. destruct (Z.eqb_spec (references f) 1).
      * by rewrite lookup_delete_eq in Hg.
      * rewrite lookup_insert_eq in Hg. injection Hg as <-. cbn. lia.
    + rewrite bool_decide_false by congruence. rewrite Z.sub_0_r. apply H2.
      by destruct (references f =? 1); rewrite ?lookup_delete_ne, ?lookup_insert_ne in Hg.
  - intros q Hq%slots_of_pos. rewrite Hs in Hq. destruct (decide (q = p)) as [-> |Hne].
    + rewrite bool_decide_true in Hq by done. destruct (Z.eqb_spec (references f) 1); [lia|].
      rewrite lookup_insert_eq. eauto.
    + rewrite bool_decide_false in Hq by congruence. assert (Hl : Some q ∈ file_table s) by (apply slots_of_pos; lia).
      apply H3 in Hl. by destruct (references f =? 1); rewrite ?lookup_delete_ne, ?lookup_insert_ne.
Qed.

(** An empty slot starts to point to a file, new or not, whose count goes
    up. *)
Lemma files_ok_add s fd p f' :
  files_ok s -> zlookup (file_table s) fd = Some None ->
  references f' = slots_of p (file_table s) + 1 ->
  files_ok (set_files (<[p := f']> (files s)) (set_table (zinsert fd (Some p) (file_table s)) s)).
Proof.
  intros [H1 H2 H3] Hfd Hr.
  assert (Hs : forall q, slots_of q (zinsert fd (Some p) (file_table s)) = slots_of q (file_table s) + points (Some p) q).
  { intros q. rewrite (slots_of_insert q fd None) by done. unfold points at 1. rewrite bool_decide_false by done. lia. }
  unfold points in Hs. split; cbn.
  - by rewrite zinsert_length.
  - intros q g Hg. rewrite Hs. destruct (decide (q = p)) as [-> |Hne].
    + rewrite lookup_insert_eq in Hg. injection Hg as <-. rewrite bool_decide_true by done.
      split; [done|]. unfold slots_of in Hr. lia.
    + rewrite lookup_insert_ne in Hg by done. rewrite bool_decide_false by congruence. rewrite Z.add_0_r. by apply H2.
  - intros q Hq%slots_of_pos. rewrite Hs in Hq. destruct (decide (q = p)) as [-> |Hne].
    + rewrite lookup_insert_eq. eauto.
    + rewrite lookup_insert_ne by done. rewrite bool_decide_false in Hq by congruence. apply H3, slots_of_pos. lia.
Qed.

(** *** What each call does to the table *)

Lemma wlp_fd_file fd (Q : Z -> sys V -> Prop) (E : Z -> sys V -> Prop) s :
  (forall p, zlookup (file_table s) fd = Some (Some p) -> Q p s) -> E EBADF s -> wlp (fd_file fd) Q E s.
Proof.
  intros HQ HE. unfold fd_file, slot. destruct (_ || _); [by apply wlp_throw|].
  wlp_steps. destruct a as [p|]; [|by apply wlp_throw]. by apply wlp_ret, HQ.
Qed.

Lemma wlp_transfer vop buf size pos rw (Q : uio -> sys V -> Prop) (E : Z -> sys V -> Prop) s :
  (forall u w m, Q u (set_umem m (set_vfs w s))) -> (forall e w m, E e (set_umem m (set_vfs w s))) ->
  wlp (transfer curas vop buf size pos rw) Q E s.
Proof.
  intros HQ HE. unfold wlp, transfer. destruct (vop _) as [[] [u v]|e [u v]| |]; done.
Qed.

(** The state after [close fd] of a slot that points to [p]. *)
Definition closed (fd p : Z) (f : File) (w : vfs V) s : sys V :=
  set_num (i32 (NUM_OPEN_FILES s - 1)) (set_vfs w
    (set_files (if references f =? 1 then delete p (files s)
                else <[p := with_references (references f - 1) f]> (files s))
       (set_table (zinsert fd None (file_table s)) s))).

Lemma closed_ok fd p f w s :
  files_ok s -> zlookup (file_table s) fd = Some (Some p) -> files s !! p = Some f -> files_ok (closed fd p f w s).
Proof.
  intros H Hfd Hf. eapply files_ok_same; [by eapply (files_ok_drop s fd p f)|..]; done.
Qed.

Lemma wlp_close `{!VoidDecref V} fd (Q : unit -> sys V -> Prop) (E : Z -> sys V -> Prop) s :
  files_ok s ->
  (forall p f w, zlookup (file_table s) fd = Some (Some p) -> files s !! p = Some f ->
     (references f <> 1 -> w = sys_vfs s) -> Q tt (closed fd p f w s)) ->
  E EBADF s -> wlp (close fd) Q E s.
Proof.
  intros Hok HQ HE. unfold close. apply wlp_bind, wlp_fd_file; [|done]. intros p Hp.
  unfold get_file, put_file, put_slot, lock_acquire. wlp_steps. rename a into f.
  pose proof (references_bound s p f Hok ltac:(done)) as Hr. rewrite swrap_small by lia.
  cbn [references with_references].
  assert (Ez : (references f - 1 <=? 0) = (references f =? 1)) by (zbool; lia). rewrite Ez.
  destruct (Z.eqb_spec (references f) 1) as [E1|E1].
  - unfold lock_release, on_vfs, vfs_close, below, lock_destroy, free_file. wlp_steps. cbn [v_ptr with_references].
    unfold wlp at 1. cbn [vfs_below sys_vfs set_files set_table].
    destruct (VOP_DECREF (v_ptr f) (vfs_below (sys_vfs s))) as [u v|e v| |] eqn:Ed; try done.
    2:{ by apply decref_void in Ed. }
    wlp_steps. eapply (HQ p f (set_below v (sys_vfs s))) in Hp; [|done|done].
    unfold closed in Hp. rewrite E1 in Hp. cbn in Hp |- *. by rewrite delete_insert_eq in *.
  - unfold lock_release. wlp_steps. eapply (HQ p f (sys_vfs s)) in Hp; [|done|done].
    unfold closed in Hp. rewrite (proj2 (Z.eqb_neq _ _) E1) in Hp. exact Hp.
Qed.

Lemma wlp_open_search n fd i (Q : Z -> sys V -> Prop) E s :
  (0 < n)%nat ->
  (zlookup (file_table s) i = Some None -> Q fd s) ->
  (forall q, zlookup (file_table s) i = Some (Some q) -> Q (fd + Z.of_nat n) s) ->
  wlp (open_search n fd i) Q E s.
Proof.
  revert fd. induction n as [|n IH]; intros fd Hn H1 H2; [lia|]. cbn [open_search]. unfold slot. wlp_steps.
  destruct a as [q|]; [|by apply wlp_ret, H1]. destruct n as [|n].
  - cbn. apply wlp_ret. eapply H2. done.
  - apply IH; [lia|congruence|]. intros q' Hq'. replace (fd + 1 + Z.of_nat (S n)) with (fd + Z.of_nat (S (S n))) by lia.
    by eapply H2.
Qed.

Definition fresh (env : open_env) s : Prop := forall p, oe_file env = Some p -> files s !! p = None.

Definition keeps_files {A} (m : M (sys V) A) s : Prop := wlp m (fun _ => files_ok) (fun _ => files_ok) s.

Lemma keeps_on_vfs {A} (m : M (vfs V) A) s : files_ok s -> keeps_files (on_vfs m) s.
Proof. intros H. apply wlp_zoom, wlp_any; intros; by eapply files_ok_same. Qed.

(** A new object is in no slot. *)
Lemma fresh_slots s p : files_ok s -> files s !! p = None -> slots_of p (file_table s) = 0.
Proof.
  intros Hok Hp. assert (0 <= slots_of p (file_table s)) by (unfold slots_of; lia).
  destruct (Z.eq_dec (slots_of p (file_table s)) 0); [done|].
  destruct (ft_live s Hok p) as [f Hf]; [apply slots_of_pos; lia | congruence].
Qed.

Lemma keeps_open env name flags d s :
  files_ok s -> fresh env s -> zlookup (file_table s) d = Some None -> keeps_files (open env name flags d) s.
Proof.
  intros Hok Hf Hd. unfold keeps_files, open. destruct (oe_file env) as [p|] eqn:Ep; [|by apply wlp_throw].
  wlp_step. apply wlp_zoom, wlp_any; [|by intros; eapply files_ok_same].
  intros vn w. destruct (oe_lock env).
  - unfold put_file, put_slot. wlp_steps. cbn.
    eapply files_ok_same; [apply (files_ok_add s d p (MkFile vn flags 1 z 0)); [done | done |]|done..].
    cbn. by rewrite (fresh_slots s p Hok (Hf p Ep)).
  - wlp_step. eapply wlp_mono; [apply keeps_on_vfs; by eapply files_ok_same| |done].
    intros [] s' Hs'. by apply wlp_throw.
Qed.

Lemma keeps_sys_open env i filename flags s : files_ok s -> fresh env s -> keeps_files (sys_open env i filename flags) s.
Proof.
  intros Hok Hf. unfold keeps_files, sys_open. destruct (_ =? 0); [by apply wlp_throw|].
  destruct (negb _); [by apply wlp_throw|]. wlp_step. apply wlp_zoom, wlp_any.
  2:{ intros. by eapply files_ok_same. }
  intros [result [[kname got]|]] c; [|by apply wlp_throw; eapply files_ok_same].
  set (s1 := set_umem _ s). assert (Hok1 : files_ok s1) by (by eapply files_ok_same).
  destruct (negb _); [by apply wlp_throw|]. wlp_step. apply wlp_open_search; [unfold MAX_PROCESS_OPEN_FILES; lia| |].
  - intros Hi. cbn -[open]. wlp_steps. destruct (_ <=? _); [by apply wlp_throw|].
    wlp_step. eapply wlp_mono; [by apply keeps_open | | done].
    intros [] s2 H2. wlp_steps. by eapply files_ok_same.
  - intros q Hq. by apply wlp_throw.
Qed.

Lemma keeps_close `{!VoidDecref V} fd s : files_ok s -> keeps_files (close fd) s.
Proof. intros H. apply wlp_close; [done| |done]. intros. by apply closed_ok. Qed.

Lemma keeps_sys_read fd buf size s : files_ok s -> keeps_files (sys_read curas fd buf size) s.
Proof.
  intros Hok. unfold keeps_files, sys_read. apply wlp_bind, wlp_fd_file; [|done]. intros p Hp. unfold get_file. wlp_steps.
  destruct (_ =? _); [by apply wlp_throw|]. unfold lock_acquire, put_file, lock_release. wlp_steps.
  apply wlp_transfer; intros; wlp_steps.
  - eapply files_ok_same; [by eapply (files_ok_update s p _ (with_offset (uio_offset u) a))|..]; done.
  - by eapply files_ok_same.
Qed.

Lemma keeps_sys_write fd buf size s : files_ok s -> keeps_files (sys_write curas fd buf size) s.
Proof.
  intros Hok. unfold keeps_files, sys_write. apply wlp_bind, wlp_fd_file; [|done]. intros p Hp. unfold get_file. wlp_steps.
  destruct (_ =? _); [by apply wlp_throw|]. unfold lock_acquire, put_file, lock_release. wlp_steps.
  apply wlp_transfer; intros; wlp_steps.
  - eapply files_ok_same; [by eapply (files_ok_update s p _ (with_offset (uio_offset u) a))|..]; done.
  - by eapply files_ok_same.
Qed.

Lemma keeps_sys_lseek fd pos whence s : files_ok s -> keeps_files (sys_lseek fd pos whence) s.
Proof.
  intros Hok. unfold keeps_files, sys_lseek. destruct (_ || _); [by apply wlp_throw|]. unfold slot, get_file. wlp_steps.
  destruct a as [p|]; [|by apply wlp_throw]. wlp_steps. rename a into f.
  apply wlp_zoom, wlp_any; [|by intros; eapply files_ok_same]. intros b w1.
  destruct (negb b); [by apply wlp_throw; eapply files_ok_same|]. wlp_step.
  apply wlp_zoom, wlp_any; [|by intros; eapply files_ok_same]. intros st w2. wlp_step.
  apply wlp_zoom, wlp_any; [|by intros; eapply files_ok_same]. intros [r bytes] c.
  destruct (negb _); [by apply wlp_throw; eapply files_ok_same|].
  destruct (seek_target _ _ _ _) as [o|]; [|by apply wlp_throw; eapply files_ok_same].
  unfold lock_acquire, put_file, lock_release. wlp_steps.
  eapply files_ok_same; [by eapply (files_ok_update s p _ (with_offset o f))|..]; done.
Qed.

(** The state once [newfd] shares the file [p] of [oldfd]. *)
Definition shared (newfd p : Z) (f : File) s : sys V :=
  set_files (<[p := with_references (references f + 1) f]> (files s))
    (set_table (zinsert newfd (Some p) (file_table s)) s).

Lemma shared_ok newfd p f s :
  files_ok s -> zlookup (file_table s) newfd = Some None -> files s !! p = Some f -> files_ok (shared newfd p f s).
Proof. intros H Hn Hf. apply files_ok_add; [done | done |]. cbn. by destruct (ft_refs s H p f Hf) as [-> _]. Qed.

Lemma wlp_dup2 `{!VoidDecref V} oldfd newfd (Q : unit -> sys V -> Prop) (E : Z -> sys V -> Prop) s :
  files_ok s ->
  (forall p, oldfd = newfd -> zlookup (file_table s) oldfd = Some (Some p) -> Q tt s) ->
  (forall p f, oldfd <> newfd -> zlookup (file_table s) oldfd = Some (Some p) ->
     zlookup (file_table s) newfd = Some None -> files s !! p = Some f -> Q tt (shared newfd p f s)) ->
  (forall p f q g w, oldfd <> newfd -> zlookup (file_table s) oldfd = Some (Some p) ->
     zlookup (file_table s) newfd = Some (Some q) -> files s !! q = Some g ->
     let s1 := closed newfd q g w s in
     files_ok s1 -> zlookup (file_table s1) newfd = Some None -> files s1 !! p = Some f -> Q tt (shared newfd p f s1)) ->
  E EBADF s -> wlp (sys_dup2 oldfd newfd) Q E s.
Proof.
  intros Hok HQ1 HQ2 HQ3 HE. unfold sys_dup2. destruct (_ || _ || _ || _); [by apply wlp_throw|].
  unfold slot, put_slot, get_file, put_file, sys_close, lock_acquire, lock_release. wlp_steps.
  destruct a as [p|]; [|by apply wlp_throw].
  destruct (Z.eqb_spec oldfd newfd) as [-> |Hne]; [by apply wlp_ret, (HQ1 p)|]. wlp_steps.
  destruct a as [q|].
  - rewrite bool_decide_true by done. apply wlp_close; [done| |done]. intros q' g w Hq Hg _. simplify_eq.
    assert (Hok1 : files_ok (closed newfd q g w s)) by (by apply closed_ok).
    wlp_steps. cbn [file_table closed set_num set_vfs set_files set_table] in *.
    rewrite zlookup_insert_ne in * by done. simplify_eq. rename a2 into f.
    rewrite swrap_small by (pose proof (references_bound _ p f Hok1 ltac:(done)); lia).
    apply (HQ3 p f q g w); try done. cbn.
    apply zlookup_insert_eq. by eapply zlookup_lt.
  - rewrite bool_decide_false by (by intros []). wlp_steps. simplify_eq. cbn [files set_table] in *.
    rewrite swrap_small by (pose proof (references_bound s p a2 Hok ltac:(done)); lia).
    by apply (HQ2 p a2).
Qed.

Lemma keeps_dup2 `{!VoidDecref V} oldfd newfd s : files_ok s -> keeps_files (sys_dup2 oldfd newfd) s.
Proof. intros H. apply wlp_dup2; try done; intros; by apply shared_ok. Qed.

(** The file system calls in any order, with any arguments and user memory,
    while the kernel's allocator hands out new objects. *)
Inductive file_step : sys V -> sys V -> Prop :=
| step_open env i filename flags s s' :
    fresh env s -> final (sys_open env i filename flags s) = Some s' -> file_step s s'
| step_close fd s s' : final (sys_close fd s) = Some s' -> file_step s s'
| step_read fd buf size s s' : final (sys_read curas fd buf size s) = Some s' -> file_step s s'
| step_write fd buf size s s' : final (sys_write curas fd buf size s) = Some s' -> file_step s s'
| step_dup2 oldfd newfd s s' : final (sys_dup2 oldfd newfd s) = Some s' -> file_step s s'
| step_lseek fd pos whence s s' : final (sys_lseek fd pos whence s) = Some s' -> file_step s s'
| step_user m s : file_step s (set_umem m s).

Lemma file_step_ok `{!VoidDecref V} s s' : file_step s s' -> files_ok s -> files_ok s'.
Proof.
  intros Hstep Hok. inversion Hstep; subst; [..|by eapply files_ok_same];
    (eapply (wlp_final _ files_ok); [|done]).
  - by apply keeps_sys_open.
  - by apply keeps_close.
  - by apply keeps_sys_read.
  - by apply keeps_sys_write.
  - by apply keeps_dup2.
  - by apply keeps_sys_lseek.
Qed.


End invariant.

(** ** What the calls do to files *)

Section calls.
Context {V : Type} `{!VnodeOps V} (curas : option Z).
Implicit Types s : sys V.

(** Descriptor [fd] refers to the open file [f] at [p]. *)
Definition open_as (fd p : Z) (f : File) s : Prop :=
  files_ok s /\ zlookup (file_table s) fd = Some (Some p) /\ files s !! p = Some f.

Lemma open_as_range fd p f s : open_as fd p f s -> 0 <= fd < MAX_PROCESS_OPEN_FILES.
Proof. intros ([Hl _ _] & Hfd & _). apply zlookup_lt in Hfd. rewrite Hl in Hfd. unfold MAX_PROCESS_OPEN_FILES in *. lia. Qed.

Lemma fd_file_run fd p f s : open_as fd p f s -> fd_file fd s = Ret p s.
Proof.
  intros H. pose proof (open_as_range fd p f s H) as Hr. destruct H as (_ & Hfd & _).
  unfold fd_file, slot, bind. rewrite (proj2 (Z.ltb_ge _ _)), (proj2 (Z.leb_gt _ _)) by lia.
  cbn. by rewrite Hfd.
Qed.

(** A buffer the process may read and write. *)
Definition user_buffer (buf size : Z) s : Prop :=
  0 <= buf /\ 0 <= size /\ buf + size <= USERSPACETOP /\ mapped (user_mem s) (block buf size).

Lemma wp_fd_file fd p f s (Q : Z -> sys V -> Prop) E : open_as fd p f s -> Q p s -> wp (fd_file fd) Q E s.
Proof. intros H HQ. unfold wp. by rewrite (fd_file_run fd p f). Qed.

Lemma wp_get_file p f s (Q : File -> sys V -> Prop) E : files s !! p = Some f -> Q f s -> wp (get_file p) Q E s.
Proof. intros H HQ. unfold get_file. wp_steps. by eapply wp_oob. Qed.

Lemma uio_uinit_addrs buf mem len pos rw : uio_addrs (uio_uinit curas buf mem len pos rw) = block buf len.
Proof. unfold uio_addrs. cbn. by rewrite app_nil_r. Qed.

Lemma wp_transfer vop buf size pos rw s (Q : uio -> sys V -> Prop) (E : Z -> sys V -> Prop) :
  wp vop (fun _ '(u', v') => Q u' (set_umem (uio_mem u') (set_vfs (set_below v' (sys_vfs s)) s)))
         (fun e '(u', v') => E e (set_umem (uio_mem u') (set_vfs (set_below v' (sys_vfs s)) s)))
    (uio_uinit curas buf (user_mem s) size pos rw, vfs_below (sys_vfs s)) ->
  wp (transfer curas vop buf size pos rw) Q E s.
Proof. unfold wp, transfer. by destruct (vop _) as [[] [u v]|e [u v]| |]. Qed.

Context `{!FileVnodes curas V}.

(** The contents of the file an open file stands for. *)
Definition file_bytes s (f : File) (c : list Z) : Prop := vfile (vfs_below (sys_vfs s)) (v_ptr f) c.

Lemma user_uio_wf buf size pos rw s : user_buffer buf size s -> 0 <= pos <= vfile_max ->
  uio_wf curas (uio_uinit curas buf (user_mem s) size pos rw).
Proof.
  intros (H1 & H2 & H3 & H4) Hp. pose proof vfile_max_ok as Hm. unfold USERSPACETOP in *.
  apply uio_uinit_wf; try done; unfold USERSPACETOP; lia.
Qed.

Lemma take_block buf size n : n = size -> take (Z.to_nat n) (block buf size) = block buf size.
Proof. intros ->. apply take_ge. by rewrite block_length. Qed.

Lemma block_take buf size n : 0 <= n <= size -> take (Z.to_nat n) (block buf size) = block buf n.
Proof.
  intros H. replace size with (n + (size - n)) by lia. rewrite block_app by lia.
  rewrite take_app_le by (rewrite block_length; lia). apply take_ge. by rewrite block_length.
Qed.

(** The state after a transfer moved the offset of [p]. *)
Definition moved_to (p : Z) (f : File) (o : Z) s s' : Prop :=
  file_table s' = file_table s /\ files s' = <[p := with_offset o f]> (files s) /\
  NUM_OPEN_FILES s' = NUM_OPEN_FILES s.

Lemma wp_sys_write fd buf size p f c s :
  open_as fd p f s -> Z.land (open_flags f) O_ACCMODE <> O_RDONLY -> file_bytes s f c ->
  user_buffer buf size s -> 0 <= offset f <= Z.of_nat (length c) -> offset f + size <= vfile_max ->
  wp (sys_write curas fd buf size)
    (fun n s' => n = size /\ moved_to p f (offset f + size) s s' /\ user_mem s' = user_mem s /\
       exists bytes, load_all (user_mem s) (block buf size) = Some bytes /\
         file_bytes s' f (splice (Z.to_nat (offset f)) bytes c))
    (fun e s' => e = ENOSPC /\ files s' = files s /\ file_table s' = file_table s /\ user_mem s' = user_mem s /\
       exists m bytes, 0 <= m <= size /\ load_all (user_mem s) (block buf m) = Some bytes /\
         file_bytes s' f (splice (Z.to_nat (offset f)) bytes c)) s.
Proof.
  intros Hop Hmode Hc Hbuf Hoff Hmax. pose proof Hop as (_ & _ & Hf). pose proof vfile_max_ok.
  assert (0 <= size) by apply Hbuf.
  unfold sys_write. wp_step. eapply wp_fd_file; [done|]. wp_step. eapply wp_get_file; [done|]. cbv zeta.
  rewrite (proj2 (Z.eqb_neq _ _) Hmode). unfold lock_acquire, lock_release, put_file. wp_steps. apply wp_transfer.
  eapply wp_mono; [apply (vop_write_spec _ _ c); [done | apply user_uio_wf; [done | lia] | done | cbn; lia | cbn; lia]|..].
  - intros [] [u' v'] (Ho & Hm & bytes & Hl & Hv). cbn in Ho, Hm. wp_steps. rewrite Ho.
    split; [rewrite swrap_small; lia|]. split; [done|]. split; [done|].
    rewrite uio_uinit_addrs, take_block in Hl by done. by exists bytes.
  - intros e [u' v'] (-> & Hm & m & bytes & Hmr & Hl & Hv). cbn in Hm, Hmr. wp_steps.
    split; [done|]. split; [done|]. split; [done|]. split; [done|].
    rewrite uio_uinit_addrs, block_take in Hl by done. by exists m, bytes.
Qed.

Lemma wp_sys_read fd buf size p f c s :
  open_as fd p f s -> Z.land (open_flags f) O_ACCMODE <> O_WRONLY -> file_bytes s f c ->
  user_buffer buf size s -> 0 <= offset f <= vfile_max ->
  let n := Z.max 0 (Z.min size (Z.of_nat (length c) - offset f)) in
  wp (sys_read curas fd buf size)
    (fun r s' => r = n /\ moved_to p f (offset f + n) s s' /\
       user_mem s' = store_all (block buf n) (slice (Z.to_nat (offset f)) (Z.to_nat n) c) (user_mem s) /\
       file_bytes s' f c)
    (fun _ _ => False) s.
Proof.
  intros Hop Hmode Hc Hbuf Hoff n. pose proof Hop as (_ & _ & Hf). pose proof vfile_max_ok.
  assert (0 <= size) by apply Hbuf. pose proof (vfile_length _ _ _ Hc) as Hlen.
  unfold sys_read. wp_step. eapply wp_fd_file; [done|]. wp_step. eapply wp_get_file; [done|]. cbv zeta.
  rewrite (proj2 (Z.eqb_neq _ _) Hmode). unfold lock_acquire, lock_release, put_file. wp_steps. apply wp_transfer.
  eapply wp_mono; [apply (vop_read_spec _ _ c); [done | by apply user_uio_wf | done]| |by intros ? []].
  intros [] [u' v'] (_ & Ho & Hm & Hv). unfold read_count in Ho, Hm. cbn in Ho, Hm. fold n in Ho, Hm. wp_steps. rewrite Ho.
  assert (Hn : 0 <= n <= size /\ n < 2 ^ 31) by (unfold n; lia).
  split; [rewrite swrap_small; lia|]. split; [done|]. split; [|done]. cbn.
  rewrite uio_uinit_addrs, block_take in Hm by lia. done.
Qed.

(** The word of the process at [w]. *)
Definition user_word (w z : Z) s : Prop :=
  0 <= w /\ w + 4 <= USERSPACETOP /\
  exists bytes, load_all (user_mem s) (block w 4) = Some bytes /\ i32 (be bytes) = z.

Lemma copyin_word w z s : user_word w z s ->
  exists bytes, copyin w 4 (CState false (user_mem s)) = Ret (0, bytes) (CState false (user_mem s)) /\
    i32 (be bytes) = z.
Proof.
  intros (H1 & H2 & bytes & Hl & Hz). unfold USERSPACETOP in *. exists bytes. split; [|done].
  rewrite copyin_run by lia. unfold in_user, USERSPACETOP.
  rewrite (proj2 (Z.leb_le 0 w)), (proj2 (Z.leb_le (w + 4) (2 ^ 31))) by lia. cbn. by rewrite Hl.
Qed.

Lemma set_umem_same s : set_umem (user_mem s) s = s.
Proof. by destruct s. Qed.
Lemma set_vfs_same s : set_vfs (sys_vfs s) s = s.
Proof. by destruct s. Qed.

Lemma sys_lseek_run fd pos w whence p f c s :
  open_as fd p f s -> file_bytes s f c -> user_word w whence s ->
  sys_lseek fd pos w s =
    match seek_target whence pos (offset f) (Z.of_nat (length c)) with
    | Some o => Ret o (set_files (<[p := with_offset o f]> (files s)) s)
    | None => Err EINVAL s
    end.
Proof.
  intros Hop Hc Hw. pose proof (open_as_range _ _ _ _ Hop) as Hr. destruct Hop as (_ & Hfd & Hf).
  destruct (copyin_word w whence s Hw) as (bytes & Hcp & <-).
  destruct (vop_stat_spec _ _ _ Hc) as (st & Hst & <-).
  unfold MAX_PROCESS_OPEN_FILES in Hr. unfold sys_lseek, MAX_PROCESS_OPEN_FILES, slot, get_file, bind.
  rewrite (proj2 (Z.ltb_ge fd 0)), (proj2 (Z.ltb_ge 16 fd)) by lia. cbn. rewrite Hfd. cbn. rewrite Hf. cbn.
  unfold on_vfs, on_user, below, zoom. rewrite (vop_isseekable_spec _ _ c) by done. cbn.
  rewrite set_below_same, set_vfs_same, Hst. cbn. rewrite set_below_same, set_vfs_same, Hcp. cbn.
  rewrite set_umem_same.
  by destruct (seek_target _ _ _ _).
Qed.

(** The position a seek is relative to. *)
Definition seek_base (whence offset size : Z) : option Z :=
  if whence =? SEEK_SET then Some 0
  else if whence =? SEEK_CUR then Some offset
  else if whence =? SEEK_END then Some size
  else None.

Lemma seek_target_spec whence pos offset size :
  0 <= offset < 2 ^ 62 -> 0 <= size < 2 ^ 62 -> - 2 ^ 62 <= pos < 2 ^ 62 ->
  seek_target whence pos offset size =
    match seek_base whence offset size with
    | Some base => if 0 <=? base + pos then Some (base + pos) else None
    | None => None
    end.
Proof.
  intros Ho Hs Hp. unfold seek_target, seek_base. rewrite !swrap_small by lia.
  destruct (whence =? SEEK_SET); [|destruct (whence =? SEEK_CUR); [|destruct (whence =? SEEK_END); [|done]]];
    zbool; try lia; done.
Qed.

(** [lseek] on a regular file moves the offset to the requested position
    relative to the start, the current offset or the end of the file, and
    returns it; a negative result or an unknown [whence] is [EINVAL] and
    changes nothing.  Nothing but the offset of the open file changes. *)
Theorem sys_lseek_moves fd pos w whence p f c s :
  open_as fd p f s -> file_bytes s f c -> user_word w whence s ->
  0 <= offset f < 2 ^ 62 -> - 2 ^ 62 <= pos < 2 ^ 62 ->
  sys_lseek fd pos w s =
    match seek_base whence (offset f) (Z.of_nat (length c)) with
    | Some base =>
        if 0 <=? base + pos
        then Ret (base + pos) (set_files (<[p := with_offset (base + pos) f]> (files s)) s)
        else Err EINVAL s
    | None => Err EINVAL s
    end.
Proof.
  intros Hop Hc Hw Ho Hp. pose proof (vfile_length _ _ _ Hc). pose proof vfile_max_ok.
  rewrite (sys_lseek_run fd pos w whence p f c s), seek_target_spec by (done || lia).
  destruct (seek_base _ _ _); [|done]. by destruct (0 <=? _).
Qed.


(** C37: A [read] system call on a regular file always succeeds: it stores
    the bytes of the file from the offset of the open file on in the user's
    buffer, as many as were asked for or remain, returns their number,
    advances the offset by it and leaves the file as it was. *)
Theorem sys_read_refines fd buf size p f c s :
  open_as fd p f s -> Z.land (open_flags f) O_ACCMODE <> O_WRONLY -> file_bytes s f c ->
  user_buffer buf size s -> 0 <= offset f <= vfile_max ->
  let n := Z.max 0 (Z.min size (Z.of_nat (length c) - offset f)) in
  exists s', sys_read curas fd buf size s = Ret n s' /\ moved_to p f (offset f + n) s s' /\
    user_mem s' = store_all (block buf n) (slice (Z.to_nat (offset f)) (Z.to_nat n) c) (user_mem s) /\
    file_bytes s' f c.
Proof.
  intros H1 H2 H3 H4 H5 n. destruct (wp_ret_inv _ _ _ (wp_sys_read fd buf size p f c s H1 H2 H3 H4 H5))
    as (r & s' & E & -> & H). by exists s'.
Qed.

Lemma open_as_moved fd p f o s s' : open_as fd p f s -> moved_to p f o s s' -> open_as fd p (with_offset o f) s'.
Proof.
  intros (Hok & Hfd & Hf) (Et & Ef & _). split; [|split].
  - eapply files_ok_same; [by apply (files_ok_update s p f (with_offset o f))|done..].
  - by rewrite Et.
  - rewrite Ef. apply lookup_insert_eq.
Qed.


End calls.

(** ** Descriptors *)

Section descriptors.
Context {V : Type} `{!VnodeOps V} (curas : option Z).
Implicit Types s : sys V.

(** The descriptor is out of range or not in use. *)
Definition bad_fd (fd : Z) s : Prop :=
  fd < 0 \/ MAX_PROCESS_OPEN_FILES <= fd \/ zlookup (file_table s) fd = Some None.

Lemma fd_file_bad fd s : bad_fd fd s -> fd_file fd s = Err EBADF s.
Proof.
  intros H. unfold fd_file. destruct (Z.ltb_spec fd 0); [done|].
  destruct (Z.leb_spec MAX_PROCESS_OPEN_FILES fd); [done|].
  destruct H as [?|[?|H]]; [lia..|]. cbn [orb]. unfold slot, bind. cbn. by rewrite H.
Qed.

(** Every file system call on a descriptor that is out of range or not
    in use returns [EBADF] and changes nothing; for [dup2] so does a bad new
    descriptor.  [lseek] is left out for the descriptor 16. *)
Theorem bad_fd_ebadf fd newfd buf size pos w s :
  bad_fd fd s ->
  sys_read curas fd buf size s = Err EBADF s /\ sys_write curas fd buf size s = Err EBADF s /\
  sys_close fd s = Err EBADF s /\
  sys_dup2 fd newfd s = Err EBADF s /\
  (newfd < 0 \/ MAX_PROCESS_OPEN_FILES <= newfd -> forall oldfd, sys_dup2 oldfd newfd s = Err EBADF s) /\
  (fd <> MAX_PROCESS_OPEN_FILES -> sys_lseek fd pos w s = Err EBADF s).
Proof.
  intros H. split_and!.
  - unfold sys_read, bind at 1. by rewrite fd_file_bad.
  - unfold sys_write, bind at 1. by rewrite fd_file_bad.
  - unfold sys_close, close, bind at 1. by rewrite fd_file_bad.
  - unfold sys_dup2. destruct (_ || _ || _ || _) eqn:E; [done|].
    rewrite !orb_false_iff, !Z.ltb_ge, !Z.leb_gt in E. destruct H as [?|[?|H]]; [lia..|].
    unfold slot, bind. cbn. by rewrite H.
  - intros Hn oldfd. unfold sys_dup2. destruct (Z.ltb_spec newfd 0), (Z.leb_spec MAX_PROCESS_OPEN_FILES newfd);
      try lia; by rewrite ?orb_true_r.
  - intros Hne. unfold sys_lseek. destruct (Z.ltb_spec fd 0); [done|].
    destruct (Z.ltb_spec MAX_PROCESS_OPEN_FILES fd); [done|]. destruct H as [?|[?|H]]; [lia..|].
    unfold slot, bind. cbn. by rewrite H.
Qed.

(** [lseek] checks its descriptor against the bound with [>] where every
    other call uses [>=]: on descriptor 16, one past the end, it reads
    outside the table instead of returning [EBADF]. *)
Theorem sys_lseek_past_end pos w s :
  length (file_table s) = 16%nat -> sys_lseek MAX_PROCESS_OPEN_FILES pos w s = Panic.
Proof.
  intros Hl. assert (E : slot MAX_PROCESS_OPEN_FILES s = Panic).
  { unfold slot, bind, get. rewrite zlookup_None; [done|]. rewrite Hl. unfold MAX_PROCESS_OPEN_FILES. lia. }
  unfold sys_lseek. cbn -[slot]. unfold bind at 1. by rewrite E.
Qed.

Lemma sys_dup2_run oldfd newfd p f s :
  open_as oldfd p f s -> zlookup (file_table s) newfd = Some None ->
  sys_dup2 oldfd newfd s = Ret tt (shared newfd p f s).
Proof.
  intros Hop Hn. pose proof (open_as_range _ _ _ _ Hop) as Hr. destruct Hop as (Hok & Hfd & Hf).
  pose proof (zlookup_lt _ _ _ Hn) as Hrn. rewrite (ft_length s Hok) in Hrn.
  unfold MAX_PROCESS_OPEN_FILES in *. unfold sys_dup2, MAX_PROCESS_OPEN_FILES.
  rewrite (proj2 (Z.ltb_ge oldfd 0)), (proj2 (Z.ltb_ge newfd 0)), (proj2 (Z.leb_gt 16 oldfd)),
    (proj2 (Z.leb_gt 16 newfd)) by lia. cbn [orb].
  unfold slot, put_slot, get_file, put_file, lock_acquire, lock_release, bind. cbn. rewrite Hfd. cbn.
  destruct (Z.eqb_spec oldfd newfd) as [-> |]; [congruence|]. cbn. rewrite Hn. cbn. rewrite Hfd. cbn. rewrite Hn. cbn.
  rewrite Hf. cbn. rewrite swrap_small; [done|lia|]. pose proof (references_bound s p f Hok Hf). lia.
Qed.

Lemma close_shared_run fd p f s :
  open_as fd p f s -> references f <> 1 -> close fd s = Ret tt (closed fd p f (sys_vfs s) s).
Proof.
  intros Hop Hne. pose proof Hop as (Hok & Hfd & Hf). pose proof (references_bound s p f Hok Hf) as Hr.
  unfold close, bind at 1. rewrite (fd_file_run fd p f) by done.
  unfold get_file, put_slot, put_file, lock_acquire, lock_release, bind. cbn. rewrite Hf. cbn. rewrite Hfd. cbn.
  rewrite swrap_small by lia. rewrite (proj2 (Z.leb_gt _ _)) by lia. unfold closed.
  rewrite (proj2 (Z.eqb_neq _ _) Hne). done.
Qed.

(** After [dup2] of a descriptor onto a free one and [close] of the new
    one, table and open files are exactly what they were, but the count of
    open files in the system is one too low: [dup2] does not count the
    descriptor that [close] discounts. *)
Theorem dup2_close_drift oldfd newfd p f s :
  open_as oldfd p f s -> zlookup (file_table s) newfd = Some None ->
  (sys_dup2 oldfd newfd ;; sys_close newfd) s = Ret tt (set_num (i32 (NUM_OPEN_FILES s - 1)) s).
Proof.
  intros Hop Hn. pose proof Hop as (Hok & Hfd & Hf). unfold bind. rewrite (sys_dup2_run oldfd newfd p f) by done.
  set (f' := with_references (references f + 1) f).
  assert (Hne : references f' <> 1) by (cbn; pose proof (references_bound s p f Hok Hf); lia).
  assert (Hop' : open_as newfd p f' (shared newfd p f s)).
  { split; [by apply shared_ok|]. split; cbn; [|by rewrite lookup_insert_eq].
    apply zlookup_insert_eq. by eapply zlookup_lt. }
  unfold sys_close. rewrite (close_shared_run newfd p f') by done. f_equal. unfold closed.
  rewrite (proj2 (Z.eqb_neq _ _) Hne). unfold shared, set_files, set_table, set_vfs, set_num. cbn.
  assert (Et : zinsert newfd None (zinsert newfd (Some p) (file_table s)) = file_table s).
  { unfold zinsert, zlookup in *. destruct (0 <=? newfd); [|done]. rewrite list_insert_insert_eq.
    by apply list_insert_id. }
  rewrite Et, insert_insert_eq. f_equal. replace (references f + 1 - 1) with (references f) by lia.
  apply insert_id. by destruct f.
Qed.

(** Whatever the undeclared variable of [sys_open] stands for, a call
    that succeeds returns descriptor 3 and puts the new file in the slot [i],
    which was free; no other slot changes.  So the descriptor it returns is
    the one it opened only when [i] is 3. *)
Theorem sys_open_slot env i filename flags s fd s' :
  sys_open env i filename flags s = Ret fd s' ->
  fd = 3 /\ zlookup (file_table s) i = Some None /\
  exists p, file_table s' = zinsert i (Some p) (file_table s) /\ oe_file env = Some p.
Proof.
  enough (H : wlp (sys_open env i filename flags) (fun fd s' => fd = 3 /\ zlookup (file_table s) i = Some None /\
    exists p, file_table s' = zinsert i (Some p) (file_table s) /\ oe_file env = Some p) (fun _ _ => True) s).
  { intros E. unfold wlp in H. by rewrite E in H. }
  unfold sys_open. destruct (filename =? 0); [done|]. destruct (negb (oe_name env)); [done|].
  wlp_step. apply wlp_zoom, wlp_any; [|done]. intros [result [[kname got]|]] c; [|done].
  destruct (negb (result =? 0)); [done|]. wlp_step. apply wlp_open_search; [unfold MAX_PROCESS_OPEN_FILES; lia | |].
  - intros Hi. cbn -[open]. wlp_steps. destruct (_ <=? _); [done|]. wlp_steps. unfold open.
    destruct (oe_file env) as [p|]; [|done]. wlp_step. apply wlp_zoom, wlp_any; [|done]. intros vn w.
    destruct (oe_lock env).
    + unfold put_file, put_slot. wlp_steps. split; [done|]. split; [done|]. by exists p.
    + wlp_step. by apply wlp_zoom, wlp_any.
  - intros q Hq. done.
Qed.

End descriptors.
