(* ===== verification/Syscall.v ===== *)
(** * The system call dispatcher, [kern/arch/mips/syscall/syscall.c]

    The registers a system call arrives with are in the trapframe; its result
    goes back in them: [v0] and a zero [a3] on success, the error number and
    a one in [a3] on failure.  [sys_reboot] of [kern/main/main.c] and
    [sys___time] of [kern/syscall/time_syscalls.c] are here too.  The clock
    and the contents of the variable [retval64], which is never assigned, are
    inputs.  The registers the dispatcher does not touch are left out of the
    trapframe.  Arguments are converted as the prototypes convert them. *)

From S2P Require Import Prelude CopyInOut Uio Vnode BigLock VfsList VfsPath Synch SfsDisk FileSyscalls.

Definition SYS_open : Z := 45.
Definition SYS_dup2 : Z := 48.
Definition SYS_close : Z := 49.
Definition SYS_read : Z := 50.
Definition SYS_write : Z := 55.
Definition SYS_lseek : Z := 59.
Definition SYS___time : Z := 113.
Definition SYS_reboot : Z := 119.

Definition RB_REBOOT : Z := 0.
Definition RB_HALT : Z := 1.
Definition RB_POWEROFF : Z := 2.

Record trapframe := Trapframe {
  tf_v0 : Z; tf_v1 : Z; tf_a0 : Z; tf_a1 : Z; tf_a2 : Z; tf_a3 : Z; tf_sp : Z; tf_epc : Z
}.

(** What the machine and the allocator supply during a call: [sc_i] is the
    undeclared variable of [sys_open]. *)
Record syscall_env := SyscallEnv {
  sc_open : open_env; sc_i : Z; sc_sec : Z; sc_nsec : Z; sc_retval64 : Z
}.

Section dispatcher.
Context {V : Type} `{!VnodeOps V} (curas : option Z) (env : syscall_env).
Implicit Types s : sys V.

(** The file-system part of [shutdown]; the machine then stops. *)
Definition shutdown : M (sys V) unit :=
  on_vfs vfs_clearbootfs ;; on_vfs vfs_clearcurdir ;; on_vfs vfs_unmountall.

(** It does not return when the code is valid. *)
Definition sys_reboot (code : Z) : M (sys V) unit :=
  if (code =? RB_REBOOT) || (code =? RB_HALT) || (code =? RB_POWEROFF)
  then shutdown ;; panic
  else throw EINVAL.

(** [result = copyout(...); if (result) return result;] *)
Definition copyout_user (src : list Z) (userdest : Z) : M (sys V) unit :=
  result <- on_user (copyout src userdest (Z.of_nat (length src))) ;;
  return_result result.

Definition sys___time (user_seconds_ptr user_nanoseconds_ptr : Z) : M (sys V) unit :=
  copyout_user (be32_bytes (Z.shiftr (sc_sec env) 32) ++ be32_bytes (sc_sec env)) user_seconds_ptr ;;
  copyout_user (be32_bytes (sc_nsec env)) user_nanoseconds_ptr.

(** The switch on the call number: [retval], or the error. *)
Definition dispatch (callno : Z) (tf : trapframe) : M (sys V) Z :=
  if callno =? SYS_reboot then sys_reboot (i32 (tf_a0 tf)) ;; ret 0
  else if callno =? SYS___time then sys___time (tf_a0 tf) (tf_a1 tf) ;; ret 0
  else if callno =? SYS_open then sys_open (sc_open env) (sc_i env) (tf_a0 tf) (i32 (tf_a1 tf))
  else if callno =? SYS_close then sys_close (i32 (tf_a0 tf)) ;; ret 0
  else if callno =? SYS_write then sys_write curas (i32 (tf_a0 tf)) (tf_a1 tf) (tf_a2 tf)
  else if callno =? SYS_read then sys_read curas (i32 (tf_a0 tf)) (tf_a1 tf) (tf_a2 tf)
  else if callno =? SYS_dup2 then sys_dup2 (i32 (tf_a0 tf)) (i32 (tf_a1 tf)) ;; ret (tf_a1 tf)
  else if callno =? SYS_lseek then
    sys_lseek (i32 (tf_a0 tf)) (i64 (Z.lor (tf_a3 tf) (Z.shiftl (tf_a2 tf) 32))) (u32 (tf_sp tf + 16))
  else throw ENOSYS.

Definition set_error (err : Z) (tf : trapframe) : trapframe :=
  Trapframe (u32 err) (tf_v1 tf) (tf_a0 tf) (tf_a1 tf) (tf_a2 tf) 1 (tf_sp tf) (tf_epc tf).

Definition set_success (callno retval : Z) (tf : trapframe) : trapframe :=
  if callno =? SYS_lseek then
    Trapframe (u32 (sc_retval64 env)) (u32 (Z.shiftr (sc_retval64 env) 32))
      (tf_a0 tf) (tf_a1 tf) (tf_a2 tf) 0 (tf_sp tf) (tf_epc tf)
  else
    Trapframe (u32 retval) (tf_v1 tf) (tf_a0 tf) (tf_a1 tf) (tf_a2 tf) 0 (tf_sp tf) (tf_epc tf).

Definition advance_epc (tf : trapframe) : trapframe :=
  Trapframe (tf_v0 tf) (tf_v1 tf) (tf_a0 tf) (tf_a1 tf) (tf_a2 tf) (tf_a3 tf) (tf_sp tf) (u32 (tf_epc tf + 4)).

Definition syscall (tf : trapframe) : M (sys V) trapframe :=
  let callno := i32 (tf_v0 tf) in
  tf' <- catch (retval <- dispatch callno tf ;; ret (set_success callno retval tf))
           (fun err => ret (set_error err tf)) ;;
  ret (advance_epc tf').

(** ** The convention *)

(** The registers user code may rely on after a call. *)
Definition returned (tf tf' : trapframe) : Prop :=
  tf_a0 tf' = tf_a0 tf /\ tf_a1 tf' = tf_a1 tf /\ tf_a2 tf' = tf_a2 tf /\ tf_sp tf' = tf_sp tf /\
  tf_epc tf' = u32 (tf_epc tf + 4).


(** A [lseek] that succeeds moves the offset but returns the contents of
    a variable that is never assigned: whatever the new offset, [v0] and [v1]
    are the halves of that garbage. *)
Theorem syscall_lseek_garbage tf s o s' :
  i32 (tf_v0 tf) = SYS_lseek -> dispatch SYS_lseek tf s = Ret o s' ->
  exists tf', syscall tf s = Ret tf' s' /\ returned tf tf' /\ tf_a3 tf' = 0 /\
    tf_v0 tf' = u32 (sc_retval64 env) /\ tf_v1 tf' = u32 (Z.shiftr (sc_retval64 env) 32).
Proof.
  intros Hc Hd. eexists. unfold syscall, catch, bind. rewrite Hc, Hd. unfold ret. split; [done|]. done.
Qed.

End dispatcher.
