(* ===== verification/SysDemo.v ===== *)
(** * A small kernel

    A kernel whose only file system is the demonstration volume of
    [SfsDemo], with one process: the instance the theorems about the VFS
    layer and the system calls are applied to. *)

From S2P Require Import Prelude Bitmap CopyInOut Uio Vnode BigLock VfsList VfsPath Device Lhd Synch SfsDisk SfsCore SfsBmap.
From S2P Require Import SfsTrunc SfsIo SfsDir SfsInode SfsVnops SfsFsops SfsLock SfsFile SfsDemo FileSyscalls Syscall.

(** The allocator refuses to make vnodes, which these runs do not need. *)
Definition no_alloc : alloc_env := AllocEnv None false.

#[local] Instance demo_ops : VnodeOps volume := sfs_vnode_ops None no_alloc.
#[local] Instance demo_files : FileVnodes None volume := sfs_file_vnodes None no_alloc.
#[local] Instance demo_locked : LockedVnodes volume := sfs_locked None no_alloc.
#[local] Instance demo_balanced : BalancedVnodes volume := sfs_balanced None no_alloc.
#[local] Instance demo_void : VoidDecref volume := sfs_void None no_alloc.

(** ** The device table *)

Definition lhd0 : list Z := [108; 104; 100; 48].
Definition null : list Z := [110; 117; 108; 108].

Definition demo_devs : list knowndev :=
  [Knowndev null None (Some 50) 51 None; Knowndev lhd0 (Some (lhd0 ++ raw_suffix)) (Some 60) 61 (Some SFS_FS)].

Definition demo_vfs (fs : volume) (devs : list knowndev) (cwd : option Z) : vfs volume := Vfs fs devs None cwd.

Definition all_granted : add_env := AddEnv true true (Some 71) true true.

Lemma demo_devs_NoDup : NoDup (dev_names demo_devs).
Proof. by apply (bool_decide_eq_true_1 (NoDup (dev_names demo_devs))); vm_compute. Qed.

Lemma demo_devs_ok : Forall kd_ok demo_devs.
Proof. repeat constructor; cbn; eauto; done. Qed.

Lemma demo_room devs cwd : depth_room (demo_vfs demo_dir_fs devs cwd).
Proof. unfold depth_room, depth_of, vfs_depth, depth_of, fs_depth. cbn. lia. Qed.

Lemma vfs_doadd_unique_witness :
  exists s', vfs_doadd all_granted [99; 111; 110] true (Some 70) None (demo_vfs demo_dir_fs demo_devs None) = Ret 3 s' /\
    NoDup (dev_names (knowndevs s')).
Proof.
  pose proof (vfs_doadd_unique all_granted [99; 111; 110] true (Some 70) None (demo_vfs demo_dir_fs demo_devs None)
    (demo_room _ _) demo_devs_NoDup) as H.
  destruct (vfs_doadd _ _ _ _ _ _) as [n s'| | |] eqn:E.
  - exists s'. assert (n = 3) as -> by (apply (f_equal (fun o => match o with Ret n _ => n | _ => 0 end)) in E; by vm_compute in E).
    split; [done | apply H].
  - apply (f_equal (fun o => match o with Ret _ _ => true | _ => false end)) in E. by vm_compute in E.
  - done.
  - done.
Defined.

Lemma vfs_getroot_resolves_witness :
  vfs_getroot (lhd0 ++ raw_suffix) (demo_vfs demo_dir_fs demo_devs None) =
    kd_resolve (lhd0 ++ raw_suffix) (Knowndev lhd0 (Some (lhd0 ++ raw_suffix)) (Some 60) 61 (Some SFS_FS))
      (demo_vfs demo_dir_fs demo_devs None).
Proof.
  rewrite (vfs_getroot_resolves (lhd0 ++ raw_suffix) (demo_vfs demo_dir_fs demo_devs None) (demo_room _ _) demo_devs_ok).
  vm_compute. reflexivity.
Defined.

Lemma vfslist_reachable_ok_witness :
  exists s', rtc vfslist_step (demo_vfs demo_dir_fs [] None) s' /\ length (knowndevs s') = 1%nat /\
    devs_ok (knowndevs s').
Proof.
  assert (H : exists s', vfs_adddev all_granted lhd0 60 true (demo_vfs demo_dir_fs [] None) = Ret 1 s').
  { eexists. vm_compute. reflexivity. }
  destruct H as (s' & E).
  assert (R : rtc vfslist_step (demo_vfs demo_dir_fs [] None) s').
  { apply rtc_once. eapply (step_adddev all_granted lhd0 60 true); [apply demo_room|]. by rewrite E. }
  exists s'. split; [exact R|]. split.
  - apply (f_equal (fun o => match o with Ret _ s => length (knowndevs s) | _ => 0%nat end)) in E. by vm_compute in E.
  - exact (vfslist_reachable_ok (demo_vfs demo_dir_fs [] None) s' eq_refl R).
Defined.

Lemma vfs_paths_balanced_witness :
  balanced (vfs_open (V := volume) [97] O_RDWR 0).
Proof. exact (proj1 (vfs_paths_balanced (V := volume) None [97] [98] O_RDWR 0 200)). Defined.

Lemma getdevice_parses_witness :
  getdevice (lhd0 ++ [COLON; SLASH; 97]) (demo_vfs demo_dir_fs demo_devs None) =
    starting_at (OnDevice lhd0 [SLASH; 97]) (demo_vfs demo_dir_fs demo_devs None).
Proof.
  refine (proj2 (proj2 (getdevice_parses (demo_vfs demo_dir_fs demo_devs None))) (OnDevice lhd0 [SLASH; 97]) _).
  split; [done|]. by repeat constructor.
Defined.

Lemma vfs_setbootfs_refuses_colon_witness :
  vfs_setbootfs (lhd0 ++ [COLON]) (demo_vfs demo_dir_fs demo_devs None) = Err EINVAL (demo_vfs demo_dir_fs demo_devs None).
Proof. apply (vfs_setbootfs_refuses_colon lhd0); [apply demo_room | by vm_compute]. Defined.

(** ** A process *)

Definition demo_table : list (option Z) := <[3%nat := Some 300]> (replicate 16 None).
Definition demo_file : File := MkFile 100 O_RDWR 1 400 0.

(** Eight bytes at 4096, and zeros from 8192 on. *)
Definition demo_umem : gmap Z Z :=
  store_all (block 4096 8) [1; 2; 3; 4; 5; 6; 7; 8] (store_all (block 8192 16) (replicate 16 0) ∅).

Definition demo_sys : sys volume :=
  Sys (demo_vfs (demo_fs []) demo_devs None) demo_table {[ 300 := demo_file ]} 1 demo_umem.

Lemma demo_files_ok : files_ok demo_sys.
Proof.
  split.
  - reflexivity.
  - intros p f. cbn. intros [<- <-]%lookup_singleton_Some. by vm_compute.
  - intros p Hp. apply slots_of_pos in Hp. destruct (decide (p = 300)) as [-> |Hne]; [exists demo_file; apply lookup_singleton_eq|].
    exfalso. revert Hp. cbn [file_table demo_sys]. unfold demo_table. cbn -[slots_of].
    rewrite !slots_of_cons. unfold points. rewrite !bool_decide_false by congruence. done.
Qed.

Lemma demo_open : open_as 3 300 demo_file demo_sys.
Proof. split; [apply demo_files_ok|]. split; [reflexivity | apply lookup_singleton_eq]. Qed.

Lemma demo_bytes : file_bytes None demo_sys demo_file [].
Proof.
  exists demo_vnode. split; [|reflexivity].
  split; [by apply demo_file_ok | reflexivity | reflexivity | cbn; lia | | | cbn; lia].
  - unfold small_volume, nblocks. cbn. lia.
  - cbn. unfold MAXBYTES, SFS_BLOCKSIZE. lia.
Qed.

Lemma demo_mapped a n : bool_decide (mapped demo_umem (block a n)) = true -> mapped demo_umem (block a n).
Proof. apply bool_decide_eq_true_1. Qed.

Lemma demo_buffer : user_buffer 4096 8 demo_sys.
Proof. unfold user_buffer, USERSPACETOP. split_and!; [lia..|]. apply demo_mapped. by vm_compute. Qed.

Lemma demo_buffer2 : user_buffer 8200 8 demo_sys.
Proof. unfold user_buffer, USERSPACETOP. split_and!; [lia..|]. apply demo_mapped. by vm_compute. Qed.

Lemma demo_word : user_word 8192 SEEK_SET demo_sys.
Proof.
  unfold user_word, USERSPACETOP. split; [lia|]. split; [lia|]. exists [0; 0; 0; 0]. split; by vm_compute.
Qed.


Lemma sys_lseek_moves_witness :
  sys_lseek 3 5 8192 demo_sys =
    Ret 5 (set_files (<[300 := with_offset 5 demo_file]> (files demo_sys)) demo_sys).
Proof.
  rewrite (sys_lseek_moves None 3 5 8192 SEEK_SET 300 demo_file [] demo_sys demo_open demo_bytes demo_word)
    by (cbn; lia). reflexivity.
Defined.


Lemma sys_read_refines_witness :
  exists s', sys_read None 3 4096 8 demo_sys = Ret 0 s' /\ user_mem s' = demo_umem.
Proof.
  destruct (sys_read_refines None 3 4096 8 300 demo_file [] demo_sys demo_open ltac:(done) demo_bytes demo_buffer
    ltac:(cbn; unfold MAXBYTES, SFS_BLOCKSIZE; lia)) as (s' & E & _ & Hm & _).
  exists s'. split; [exact E | exact Hm].
Defined.


Lemma bad_fd_ebadf_witness :
  sys_read None 4 4096 8 demo_sys = Err EBADF demo_sys /\ sys_close 4 demo_sys = Err EBADF demo_sys.
Proof.
  destruct (bad_fd_ebadf None 4 5 4096 8 0 8192 demo_sys ltac:(right; right; reflexivity)) as (H1 & _ & H2 & _).
  split; [exact H1 | exact H2].
Defined.

Lemma sys_lseek_past_end_witness : sys_lseek 16 0 8192 demo_sys = Panic.
Proof. apply (sys_lseek_past_end 0 8192 demo_sys). reflexivity. Defined.

Lemma dup2_close_drift_witness :
  (sys_dup2 3 7 ;; sys_close 7) demo_sys = Ret tt (set_num 0 demo_sys).
Proof. exact (dup2_close_drift 3 7 300 demo_file demo_sys demo_open eq_refl). Defined.

(** The root directory of the volume, opened as [:] from itself. *)
Definition demo_root_sys : sys volume :=
  Sys (demo_vfs demo_dir_fs demo_devs (Some 200)) demo_table {[ 300 := demo_file ]} 1
    (store_all (block 4096 2) [COLON; 0] ∅).

Lemma sys_open_slot_witness :
  exists s', sys_open (OpenEnv true (Some 301) 0 (Some 401)) 9 4096 O_RDONLY demo_root_sys = Ret 3 s' /\
    zlookup (file_table s') 9 = Some (Some 301) /\ zlookup (file_table s') 3 = Some (Some 300).
Proof.
  destruct (sys_open (OpenEnv true (Some 301) 0 (Some 401)) 9 4096 O_RDONLY demo_root_sys) as [fd s'| | |] eqn:E.
  2-4: apply (f_equal (fun o => match o with Ret _ _ => true | _ => false end)) in E; by vm_compute in E.
  destruct (sys_open_slot _ _ _ _ _ _ _ E) as (-> & _ & p & Ht & [= <-]).
  exists s'. split; [reflexivity|]. rewrite Ht. by vm_compute.
Defined.

Definition demo_env : syscall_env := SyscallEnv (OpenEnv true None 0 None) 3 0 0 0xdeadbeef.


Lemma syscall_lseek_garbage_witness :
  exists tf' s', syscall None demo_env (Trapframe SYS_lseek 0 3 0 0 5 8176 100) demo_sys = Ret tf' s' /\
    tf_v0 tf' = 0xdeadbeef.
Proof.
  destruct (syscall_lseek_garbage None demo_env (Trapframe SYS_lseek 0 3 0 0 5 8176 100) demo_sys 5
    (set_files (<[300 := with_offset 5 demo_file]> (files demo_sys)) demo_sys)) as (tf' & E & _ & _ & Hv & _).
  - reflexivity.
  - by vm_compute.
  - exists tf'. eexists. split; [exact E | exact Hv].
Defined.
