(* ===== verification/AddrSpace.v ===== *)
(** * Address spaces and the TLB, [kern/arch/mips/vm/dumbvm.c]

    The virtual memory of this kernel: an address space has two regions and
    a stack, each a run of consecutive physical pages; [vm_fault] enters the
    page a process touches into the TLB of its processor, and [as_activate]
    empties the TLB when another address space is taken.  With them the
    functions of [kern/proc/proc.c] that say which address space is current.

    The state is what one processor sees: physical memory with the pool of
    [ram.c], the address-space objects by their addresses, the entries of
    its TLB, and the processes with their address spaces.  An allocation
    takes the answer of [kmalloc] as an argument.  [splhigh]/[splx] around
    the TLB loops keep them whole, so that they are one step. *)

From S2P Require Import Prelude CopyInOut KPages.

Definition DUMBVM_STACKPAGES : Z := 18.
Definition USERSTACK : Z := USERSPACETOP.

Definition VM_FAULT_READ : Z := 0.
Definition VM_FAULT_WRITE : Z := 1.
Definition VM_FAULT_READONLY : Z := 2.

(** ** The TLB, [arch/mips/include/tlb.h] *)

Definition NUM_TLB : nat := 64.
Definition TLBHI_VPAGE : Z := 0xfffff000.
Definition TLBLO_PPAGE : Z := 0xfffff000.
Definition TLBLO_DIRTY : Z := 0x400.
Definition TLBLO_VALID : Z := 0x200.
Definition TLBHI_INVALID (entryno : Z) : Z := u32 (Z.shiftl (0x80000 + entryno) 12).
Definition TLBLO_INVALID : Z := 0.

Record addrspace := AddrSpace {
  as_vbase1 : Z;
  as_pbase1 : Z;
  as_npages1 : Z;
  as_vbase2 : Z;
  as_pbase2 : Z;
  as_npages2 : Z;
  as_stackpbase : Z
}.

#[export] Instance addrspace_eq_dec : EqDecision addrspace.
Proof. solve_decision. Defined.

Record vm := Vm {
  vm_ram : ram;
  phys : Z -> Z;                 (* the byte at each physical address *)
  spaces : gmap Z addrspace;
  tlb : list (Z * Z);            (* entryhi, entrylo *)
  curproc : option Z;
  procs : gmap Z (option Z);     (* p_addrspace, NULL for a kernel process *)
  c_spinlocks : Z;
  t_in_interrupt : bool
}.

Definition set_ram (r : ram) s := Vm r (phys s) (spaces s) (tlb s) (curproc s) (procs s) (c_spinlocks s) (t_in_interrupt s).
Definition set_phys (p : Z -> Z) s := Vm (vm_ram s) p (spaces s) (tlb s) (curproc s) (procs s) (c_spinlocks s) (t_in_interrupt s).
Definition set_spaces (h : gmap Z addrspace) s := Vm (vm_ram s) (phys s) h (tlb s) (curproc s) (procs s) (c_spinlocks s) (t_in_interrupt s).
Definition set_tlb (t : list (Z * Z)) s := Vm (vm_ram s) (phys s) (spaces s) t (curproc s) (procs s) (c_spinlocks s) (t_in_interrupt s).
Definition set_curproc (p : option Z) s := Vm (vm_ram s) (phys s) (spaces s) (tlb s) p (procs s) (c_spinlocks s) (t_in_interrupt s).
Definition set_procs (h : gmap Z (option Z)) s := Vm (vm_ram s) (phys s) (spaces s) (tlb s) (curproc s) h (c_spinlocks s) (t_in_interrupt s).

Definition on_ram {A} (m : M ram A) : M vm A := zoom vm_ram set_ram m.

(** An address-space object behind a pointer. *)
Definition get_as (a : Z) : M vm addrspace := s <- get ;; oob (spaces s !! a).
Definition put_as (a : Z) (x : addrspace) : M vm unit := modify (fun s => set_spaces (<[a := x]> (spaces s)) s).

Definition can_sleep : M vm unit :=
  s <- get ;; KASSERT (c_spinlocks s =? 0) ;; KASSERT (negb (t_in_interrupt s)).

Definition vm_bootstrap : M vm unit := ret tt.

Definition vm_tlbshootdown : M vm unit := panic.

(** ** The current process, [proc.c] *)

Definition proc_getas : M vm (option Z) :=
  s <- get ;;
  match curproc s with
  | None => ret None
  | Some p => oob (procs s !! p)
  end.

Definition proc_setas (newas : option Z) : M vm (option Z) :=
  s <- get ;;
  match curproc s with
  | None => panic
  | Some p =>
      oldas <- oob (procs s !! p) ;;
      put (set_procs (<[p := newas]> (procs s)) s) ;;
      ret oldas
  end.

(** ** Page faults *)

(** The three range tests of [vm_fault], for a page-aligned address. *)
Definition as_frame (x : addrspace) (faultaddress : Z) : option Z :=
  let vbase1 := as_vbase1 x in
  let vtop1 := u32 (vbase1 + as_npages1 x * PAGE_SIZE) in
  let vbase2 := as_vbase2 x in
  let vtop2 := u32 (vbase2 + as_npages2 x * PAGE_SIZE) in
  let stackbase := USERSTACK - DUMBVM_STACKPAGES * PAGE_SIZE in
  let stacktop := USERSTACK in
  if (vbase1 <=? faultaddress) && (faultaddress <? vtop1) then
    Some (u32 (faultaddress - vbase1 + as_pbase1 x))
  else if (vbase2 <=? faultaddress) && (faultaddress <? vtop2) then
    Some (u32 (faultaddress - vbase2 + as_pbase2 x))
  else if (stackbase <=? faultaddress) && (faultaddress <? stacktop) then
    Some (u32 (faultaddress - stackbase + as_stackpbase x))
  else None.

Definition frame_aligned (z : Z) : bool := Z.land z PAGE_FRAME =? z.

(** The assertions that the address space has been set up. *)
Definition as_set_up (x : addrspace) : bool :=
  negb (as_vbase1 x =? 0) && negb (as_pbase1 x =? 0) && negb (as_npages1 x =? 0) &&
  negb (as_vbase2 x =? 0) && negb (as_pbase2 x =? 0) && negb (as_npages2 x =? 0) &&
  negb (as_stackpbase x =? 0) &&
  frame_aligned (as_vbase1 x) && frame_aligned (as_pbase1 x) &&
  frame_aligned (as_vbase2 x) && frame_aligned (as_pbase2 x) &&
  frame_aligned (as_stackpbase x).

Definition tlb_read (i : Z) : M vm (Z * Z) := s <- get ;; oob (zlookup (tlb s) i).
Definition tlb_write (ehi elo i : Z) : M vm unit :=
  s <- get ;;
  _ <- oob (zlookup (tlb s) i) ;;
  put (set_tlb (zinsert i (ehi, elo) (tlb s)) s).

(** The loop over the TLB: the first invalid entry is taken. *)
Definition tlb_fill (faultaddress paddr : Z) : M vm (option unit) :=
  for_loop 0 NUM_TLB (fun i =>
    let* (ehi, elo) := tlb_read i in
    if negb (Z.land elo TLBLO_VALID =? 0) then ret None
    else
      tlb_write faultaddress (Z.lor (Z.lor paddr TLBLO_DIRTY) TLBLO_VALID) i ;;
      ret (Some tt)).

Definition vm_fault (faulttype faultaddress : Z) : M vm unit :=
  let faultaddress := Z.land faultaddress PAGE_FRAME in
  if faulttype =? VM_FAULT_READONLY then panic
  else if negb ((faulttype =? VM_FAULT_READ) || (faulttype =? VM_FAULT_WRITE)) then throw EINVAL
  else
    s <- get ;;
    match curproc s with
    | None => throw EFAULT
    | Some _ =>
        as_ <- proc_getas ;;
        match as_ with
        | None => throw EFAULT
        | Some a =>
            x <- get_as a ;;
            KASSERT (as_set_up x) ;;
            match as_frame x faultaddress with
            | None => throw EFAULT
            | Some paddr =>
                KASSERT (frame_aligned paddr) ;;
                r <- tlb_fill faultaddress paddr ;;
                match r with
                | Some _ => ret tt
                | None => throw EFAULT
                end
            end
        end
    end.

(** ** Address spaces *)

(** [new] is the answer of [kmalloc]. *)
Definition as_create (new : option Z) : M vm (option Z) :=
  match new with
  | None => ret None
  | Some a => put_as a (AddrSpace 0 0 0 0 0 0 0) ;; ret (Some a)
  end.

Definition as_destroy (a : Z) : M vm unit :=
  can_sleep ;;
  _ <- get_as a ;;
  modify (fun s => set_spaces (delete a (spaces s)) s).

Definition as_activate : M vm unit :=
  as_ <- proc_getas ;;
  match as_ with
  | None => ret tt
  | Some _ => for_each 0 NUM_TLB (fun i => tlb_write (TLBHI_INVALID i) TLBLO_INVALID i)
  end.

Definition as_deactivate : M vm unit := ret tt.

Definition as_define_region (a vaddr sz : Z) : M vm unit :=
  can_sleep ;;
  let sz := u32 (sz + Z.land vaddr (Z.lnot PAGE_FRAME)) in
  let vaddr := Z.land vaddr PAGE_FRAME in
  let sz := Z.land (u32 (sz + PAGE_SIZE - 1)) PAGE_FRAME in
  let npages := sz / PAGE_SIZE in
  x <- get_as a ;;
  if as_vbase1 x =? 0 then
    put_as a (AddrSpace vaddr (as_pbase1 x) npages (as_vbase2 x) (as_pbase2 x) (as_npages2 x) (as_stackpbase x))
  else if as_vbase2 x =? 0 then
    put_as a (AddrSpace (as_vbase1 x) (as_pbase1 x) (as_npages1 x) vaddr (as_pbase2 x) npages (as_stackpbase x))
  else throw ENOSYS.

(** [bzero] and [memmove] on blocks of physical memory seen at their
    addresses in kernel segment 0. *)
Definition in_kseg0 (kva len : Z) : bool := (MIPS_KSEG0 <=? kva) && (kva + len <=? MIPS_KSEG1).

Definition bzero (kva len : Z) : M vm unit :=
  in_bounds (in_kseg0 kva len) ;;
  modify (fun s => set_phys (fun p =>
    if (kva - MIPS_KSEG0 <=? p) && (p <? kva - MIPS_KSEG0 + len) then 0 else phys s p) s).

Definition memmove (dst src len : Z) : M vm unit :=
  in_bounds (in_kseg0 dst len && in_kseg0 src len) ;;
  modify (fun s => set_phys (fun p =>
    if (dst - MIPS_KSEG0 <=? p) && (p <? dst - MIPS_KSEG0 + len)
    then phys s (src - MIPS_KSEG0 + (p - (dst - MIPS_KSEG0))) else phys s p) s).

Definition as_zero_region (paddr npages : Z) : M vm unit :=
  bzero (PADDR_TO_KVADDR paddr) (u32 (npages * PAGE_SIZE)).

Definition as_prepare_load (a : Z) : M vm unit :=
  x <- get_as a ;;
  KASSERT (as_pbase1 x =? 0) ;;
  KASSERT (as_pbase2 x =? 0) ;;
  KASSERT (as_stackpbase x =? 0) ;;
  can_sleep ;;
  pbase1 <- on_ram (getppages (as_npages1 x)) ;;
  put_as a (AddrSpace (as_vbase1 x) pbase1 (as_npages1 x) (as_vbase2 x) (as_pbase2 x) (as_npages2 x) (as_stackpbase x)) ;;
  if pbase1 =? 0 then throw ENOMEM
  else
    pbase2 <- on_ram (getppages (as_npages2 x)) ;;
    put_as a (AddrSpace (as_vbase1 x) pbase1 (as_npages1 x) (as_vbase2 x) pbase2 (as_npages2 x) (as_stackpbase x)) ;;
    if pbase2 =? 0 then throw ENOMEM
    else
      stackpbase <- on_ram (getppages DUMBVM_STACKPAGES) ;;
      put_as a (AddrSpace (as_vbase1 x) pbase1 (as_npages1 x) (as_vbase2 x) pbase2 (as_npages2 x) stackpbase) ;;
      if stackpbase =? 0 then throw ENOMEM
      else
        as_zero_region pbase1 (as_npages1 x) ;;
        as_zero_region pbase2 (as_npages2 x) ;;
        as_zero_region stackpbase DUMBVM_STACKPAGES.

Definition as_complete_load (a : Z) : M vm unit := can_sleep.

(** The stack pointer. *)
Definition as_define_stack (a : Z) : M vm Z :=
  x <- get_as a ;;
  KASSERT (negb (as_stackpbase x =? 0)) ;;
  ret USERSTACK.

(** [new] is the answer of [kmalloc] in [as_create]; the new address space is
    handed back. *)
Definition as_copy (old : Z) (new : option Z) : M vm Z :=
  can_sleep ;;
  n <- as_create new ;;
  match n with
  | None => throw ENOMEM
  | Some new =>
      o <- get_as old ;;
      put_as new (AddrSpace (as_vbase1 o) 0 (as_npages1 o) (as_vbase2 o) 0 (as_npages2 o) 0) ;;
      result <- result_of (as_prepare_load new) ;;
      if negb (result =? 0) then as_destroy new ;; throw ENOMEM
      else
        x <- get_as new ;;
        KASSERT (negb (as_pbase1 x =? 0)) ;;
        KASSERT (negb (as_pbase2 x =? 0)) ;;
        KASSERT (negb (as_stackpbase x =? 0)) ;;
        memmove (PADDR_TO_KVADDR (as_pbase1 x)) (PADDR_TO_KVADDR (as_pbase1 o)) (u32 (as_npages1 o * PAGE_SIZE)) ;;
        memmove (PADDR_TO_KVADDR (as_pbase2 x)) (PADDR_TO_KVADDR (as_pbase2 o)) (u32 (as_npages2 o * PAGE_SIZE)) ;;
        memmove (PADDR_TO_KVADDR (as_stackpbase x)) (PADDR_TO_KVADDR (as_stackpbase o)) (DUMBVM_STACKPAGES * PAGE_SIZE) ;;
        ret new
  end.

(** ** User-mode accesses

    What the processor does with an access to a user address: a TLB entry
    that is valid for the page gives the physical address; a miss, or a write
    through an entry without the write permission, is an exception that
    [mips_trap] hands to [vm_fault], after which the instruction is run
    again.  An error of [vm_fault] is the error of the access: inside
    [copyin] and [copyout] it ends the copy with [EFAULT]. *)

Definition tlb_hit (va : Z) (e : Z * Z) : bool :=
  (Z.land e.1 TLBHI_VPAGE =? Z.land va TLBHI_VPAGE) && negb (Z.land e.2 TLBLO_VALID =? 0).

Fixpoint run_access (fuel : nat) (write : bool) (va : Z) : M vm Z :=
  match fuel with
  | O => fun _ => OutOfFuel
  | S fuel' =>
      hit <- gets (fun s => find (tlb_hit va) (tlb s)) ;;
      match hit with
      | Some (_, elo) =>
          if write && (Z.land elo TLBLO_DIRTY =? 0)
          then vm_fault VM_FAULT_READONLY va ;; run_access fuel' write va
          else ret (Z.land elo TLBLO_PPAGE + va mod PAGE_SIZE)
      | None =>
          vm_fault (if write then VM_FAULT_WRITE else VM_FAULT_READ) va ;;
          run_access fuel' write va
      end
  end.

(** The physical address a user access reaches. *)
Definition user_access (write : bool) (va : Z) : M vm Z := run_access 2 write va.

Definition user_load (va : Z) : M vm Z :=
  pa <- user_access false va ;; gets (fun s => phys s pa).

Definition user_store (va b : Z) : M vm unit :=
  pa <- user_access true va ;;
  modify (fun s => set_phys (fun p => if p =? pa then b else phys s p) s).

(** The end of [thread_switch]: another thread's process, and its address
    space. *)
Definition switch_proc (p : option Z) : M vm unit :=
  modify (set_curproc p) ;; as_activate.
