(* ===== verification/AddrSpaceInv.v ===== *)
(** * The TLB and page faults, and the invariant of the address spaces

    What [vm_fault] and [as_activate] do to the TLB, and what a user access
    finds there.  The abstract view of an address space is the partial
    function [as_paddr] from user addresses to physical ones; [tlb_agrees]
    says that every valid entry of the TLB is an entry of it, and
    [wp_user_access] that an access through the TLB reaches exactly the
    address [as_paddr] gives, as long as the TLB has room for its page.  The
    second half states the invariant of all address spaces. *)

From S2P Require Import Prelude CopyInOut KPages AddrSpace.

(** ** Pages *)

Definition is_page (z : Z) : Prop := 0 <= z < 2 ^ 32 /\ z mod PAGE_SIZE = 0.

Abbreviation page_of va := (Z.land va PAGE_FRAME).

Lemma page_of_eq va : 0 <= va < 2 ^ 32 -> page_of va = va - va mod PAGE_SIZE.
Proof. apply land_page_frame. Qed.

Lemma page_of_is_page va : 0 <= va < 2 ^ 32 -> is_page (page_of va).
Proof.
  intros H. rewrite page_of_eq by done. unfold is_page, PAGE_SIZE. Z.to_euclidean_division_equations. lia.
Qed.

Lemma page_of_id z : is_page z -> page_of z = z.
Proof. intros [H E]. rewrite page_of_eq by done. lia. Qed.

Lemma frame_aligned_spec z : 0 <= z < 2 ^ 32 -> frame_aligned z = true <-> is_page z.
Proof.
  intros H. unfold frame_aligned, is_page. rewrite land_page_frame, Z.eqb_eq by done.
  unfold PAGE_SIZE. Z.to_euclidean_division_equations. lia.
Qed.

(** ** TLB entries *)

Definition entry_of (hi f : Z) : Z * Z := (hi, Z.lor (Z.lor f TLBLO_DIRTY) TLBLO_VALID).

Definition entry_valid (e : Z * Z) : bool := negb (Z.land e.2 TLBLO_VALID =? 0).

(** The low bits of a frame's address are clear. *)
Lemma page_low_bits f c : is_page f -> Z.land PAGE_FRAME c = 0 -> Z.land f c = 0.
Proof. intros Hf Hc. rewrite <- (page_of_id f Hf), <- Z.land_assoc, Hc. apply Z.land_0_r. Qed.

Lemma entry_bits hi f : is_page f ->
  Z.land (entry_of hi f).2 TLBLO_VALID = TLBLO_VALID /\ Z.land (entry_of hi f).2 TLBLO_DIRTY = TLBLO_DIRTY /\
  Z.land (entry_of hi f).2 TLBLO_PPAGE = f.
Proof.
  intros Hf. cbn [entry_of snd]. rewrite !Z.land_lor_distr_l. rewrite !(page_low_bits f) by done.
  split_and!; [done..|]. pose proof (page_of_id f Hf) as E. unfold PAGE_FRAME in E. unfold TLBLO_PPAGE. rewrite E.
  change (Z.land TLBLO_DIRTY 0xfffff000) with 0. change (Z.land TLBLO_VALID 0xfffff000) with 0. by rewrite !Z.lor_0_r.
Qed.

Lemma entry_of_valid hi f : is_page f -> entry_valid (entry_of hi f) = true.
Proof. intros Hf. unfold entry_valid. by rewrite (proj1 (entry_bits hi f Hf)). Qed.

(** What a slot of the TLB may hold. *)
Inductive slot_ok (i : nat) : Z * Z -> Prop :=
| slot_invalid : slot_ok i (TLBHI_INVALID (Z.of_nat i), TLBLO_INVALID)
| slot_entry hi f : is_page hi -> hi < USERSPACETOP -> is_page f -> slot_ok i (entry_of hi f).

Record tlb_wf (t : list (Z * Z)) : Prop := {
  tw_len : length t = NUM_TLB;
  tw_slots : forall i e, t !! i = Some e -> slot_ok i e;
  tw_once : NoDup (t.*1)
}.

(** Every valid entry is one of the address space. *)
Definition tlb_agrees (x : addrspace) (t : list (Z * Z)) : Prop :=
  forall e, e ∈ t -> entry_valid e = true ->
    as_set_up x = true /\ exists f, is_page f /\ e = entry_of e.1 f /\ as_frame x e.1 = Some f.

(** The pages the TLB holds. *)
Definition tlb_pages (t : list (Z * Z)) : gset Z := list_to_set (filter (fun e => entry_valid e = true) t).*1.

Lemma elem_tlb_pages t hi : hi ∈ tlb_pages t <-> exists e, e ∈ t /\ entry_valid e = true /\ e.1 = hi.
Proof.
  unfold tlb_pages. rewrite elem_of_list_to_set, list_elem_of_fmap. setoid_rewrite list_elem_of_filter. naive_solver.
Qed.

Lemma invalid_hi i : (i < NUM_TLB)%nat -> TLBHI_INVALID (Z.of_nat i) = 2 ^ 31 + Z.of_nat i * PAGE_SIZE.
Proof.
  unfold NUM_TLB, TLBHI_INVALID, PAGE_SIZE. intros H. rewrite Z.shiftl_mul_pow2 by lia. rewrite wrap_small; lia.
Qed.

Lemma slot_ok_hi i e : (i < NUM_TLB)%nat -> slot_ok i e ->
  if entry_valid e then is_page e.1 /\ e.1 < USERSPACETOP else e.1 = 2 ^ 31 + Z.of_nat i * PAGE_SIZE.
Proof.
  intros Hi []; [by apply invalid_hi | by rewrite entry_of_valid].
Qed.

Lemma tlb_slot_lt t i e : tlb_wf t -> t !! i = Some e -> (i < NUM_TLB)%nat.
Proof. intros W H. rewrite <- (tw_len t W). by eapply lookup_lt_Some. Qed.

(** ** Hits *)

Lemma tlb_hit_spec t va e : tlb_wf t -> 0 <= va < USERSPACETOP -> e ∈ t ->
  tlb_hit va e = true <-> entry_valid e = true /\ e.1 = page_of va.
Proof.
  intros W Hva [i Hi]%list_elem_of_lookup. pose proof (tlb_slot_lt _ _ _ W Hi) as Hlt.
  pose proof (slot_ok_hi _ _ Hlt (tw_slots _ W _ _ Hi)) as Hh. unfold tlb_hit.
  change TLBHI_VPAGE with PAGE_FRAME. fold (entry_valid e). rewrite andb_true_iff, Z.eqb_eq.
  destruct (entry_valid e); [|naive_solver]. rewrite (page_of_id e.1) by naive_solver. naive_solver.
Qed.

Lemma find_tlb t va : tlb_wf t -> 0 <= va < USERSPACETOP ->
  match find (tlb_hit va) t with
  | Some e => e ∈ t /\ entry_valid e = true /\ e.1 = page_of va
  | None => page_of va ∉ tlb_pages t
  end.
Proof.
  intros W Hva. destruct (find (tlb_hit va) t) as [e|] eqn:E.
  - apply find_some in E as [Hin Hh]. apply list_elem_of_In in Hin. split; [done|].
    by apply (tlb_hit_spec t).
  - rewrite elem_tlb_pages. intros (e & Hin & Hv & He).
    pose proof (find_none _ _ E e (proj1 (list_elem_of_In _ _) Hin)) as Hn.
    rewrite (proj2 (tlb_hit_spec t va e W Hva Hin)) in Hn; done.
Qed.

(** ** Filling a slot *)

Definition slot_free (e : Z * Z) : Prop := entry_valid e = false.
#[export] Instance slot_free_dec e : Decision (slot_free e).
Proof. unfold slot_free. apply _. Defined.

(** The first free slot, if there is one. *)
Definition free_slot (t : list (Z * Z)) : option nat := fst <$> list_find slot_free t.

Lemma free_slot_Some t i : free_slot t = Some i ->
  exists e, t !! i = Some e /\ entry_valid e = false /\ forall j y, t !! j = Some y -> (j < i)%nat -> entry_valid y = true.
Proof.
  unfold free_slot. intros ([j e] & Hf & ->)%fmap_Some. apply list_find_Some in Hf as (? & ? & Hlt). exists e.
  split_and!; [done..|]. intros k y Hk Hlt'. specialize (Hlt k y Hk Hlt'). unfold slot_free in Hlt. by destruct (entry_valid y).
Qed.

Lemma free_slot_None t : free_slot t = None -> forall e, e ∈ t -> entry_valid e = true.
Proof.
  unfold free_slot. intros Hf%fmap_None. apply list_find_None in Hf. rewrite Forall_forall in Hf.
  intros e He. specialize (Hf e He). unfold slot_free in Hf. by destruct (entry_valid e).
Qed.

Lemma wp_tlb_fill hi f s (Q : option unit -> vm -> Prop) E :
  length (tlb s) = NUM_TLB ->
  match free_slot (tlb s) with
  | Some i => Q (Some tt) (set_tlb (<[i := entry_of hi f]> (tlb s)) s)
  | None => Q None s
  end -> wp (tlb_fill hi f) Q E s.
Proof.
  intros Hlen HQ. unfold tlb_fill.
  eapply (wp_for_loop (fun i s' => s' = s /\ forall j y, tlb s !! j = Some y -> Z.of_nat j < i -> entry_valid y = true)).
  - split; [done|]. lia.
  - intros i s' Hi [-> Hv]. unfold tlb_read.
    destruct (zlookup_is_Some (tlb s) i) as [[ehi elo] El]; [rewrite Hlen; lia|].
    apply wp_bind, wp_bind, wp_get. eapply wp_oob; [exact El|]. cbn beta iota.
    change (negb (Z.land elo TLBLO_VALID =? 0)) with (entry_valid (ehi, elo)).
    assert (El' : tlb s !! Z.to_nat i = Some (ehi, elo)).
    { unfold zlookup in El. by destruct (0 <=? i). }
    destruct (entry_valid (ehi, elo)) eqn:Ev.
    + apply wp_ret; cbn beta iota. split; [done|]. intros j y Hj Hlt. destruct (decide (Z.of_nat j = i)) as [<-|]; [|apply (Hv j); [done | lia]].
      rewrite Nat2Z.id in El'. congruence.
    + assert (Ef : free_slot (tlb s) = Some (Z.to_nat i)).
      { unfold free_slot. apply fmap_Some. exists (Z.to_nat i, (ehi, elo)). split; [|done]. apply list_find_Some.
        split_and!; [done..|]. intros j y Hj Hlt. unfold slot_free. rewrite (Hv j y Hj ltac:(lia)). done. }
      rewrite Ef in HQ. unfold tlb_write. apply wp_bind, wp_bind, wp_get, wp_bind. eapply wp_oob; [exact El|].
      apply wp_put, wp_ret. unfold zinsert. destruct (Z.leb_spec 0 i); [|lia]. exact HQ.
  - intros s' [-> Hv]. destruct (free_slot (tlb s)) as [i|] eqn:Ef; [|done].
    apply free_slot_Some in Ef as (e & He & Hne & _). rewrite (Hv i e He) in Hne; [done|].
    apply lookup_lt_Some in He. rewrite Hlen in He. lia.
Qed.

Lemma tlb_wf_fill t i hi f :
  tlb_wf t -> free_slot t = Some i -> is_page hi -> hi < USERSPACETOP -> is_page f -> (hi ∉ tlb_pages t) ->
  tlb_wf (<[i := entry_of hi f]> t).
Proof.
  intros W (e & He & Hfr & _)%free_slot_Some Hhi Hu Hf Hno. split.
  - rewrite length_insert. apply (tw_len t W).
  - intros j y [(<- & <- & _)|(_ & Hj)]%list_lookup_insert_Some; [by constructor | by apply (tw_slots t W)].
  - rewrite list_fmap_insert. apply NoDup_alt. intros j k z Hj Hk. pose proof (proj1 (NoDup_alt _) (tw_once t W)) as Hd.
    assert (Hne : forall m, t.*1 !! m = Some hi -> m = i).
    { intros m Hm. apply list_lookup_fmap_Some in Hm as (y & -> & Hm). exfalso.
      pose proof (slot_ok_hi _ _ (tlb_slot_lt _ _ _ W Hm) (tw_slots _ W _ _ Hm)) as Hs. destruct (entry_valid y) eqn:Ey.
      - apply Hno, elem_tlb_pages. exists y. split_and!; try done. by eapply list_elem_of_lookup_2.
      - unfold USERSPACETOP, PAGE_SIZE in *. lia. }
    apply list_lookup_insert_Some in Hj as [(<- & <- & _)|(Hij & Hj)], Hk as [(<- & Ez & _)|(Hik & Hk)]; cbn [entry_of fst] in *; subst; auto.
    + symmetry. auto.
    + by apply (Hd j k z).
Qed.

Lemma tlb_pages_fill t i hi f :
  free_slot t = Some i -> is_page f -> tlb_pages (<[i := entry_of hi f]> t) = {[hi]} ∪ tlb_pages t.
Proof.
  intros (e & He & Hfr & _)%free_slot_Some Hf. pose proof (lookup_lt_Some _ _ _ He). apply set_eq. intros p.
  rewrite elem_of_union, elem_of_singleton, !elem_tlb_pages. split.
  - intros (y & [j Hj]%list_elem_of_lookup & Hv & <-).
    apply list_lookup_insert_Some in Hj as [(_ & <- & _)|(_ & Hj)]; [by left|]. right. exists y. split_and!; try done. by eapply list_elem_of_lookup_2.
  - intros [->|(y & [j Hj]%list_elem_of_lookup & Hv & <-)].
    + exists (entry_of hi f). split_and!; [|by apply entry_of_valid | done]. apply (list_elem_of_lookup_2 _ i). by apply list_lookup_insert_eq.
    + exists y. split_and!; try done. apply (list_elem_of_lookup_2 _ j). rewrite list_lookup_insert_ne; [done|]. intros <-. congruence.
Qed.

Lemma tlb_agrees_fill x t i hi f :
  tlb_agrees x t -> as_set_up x = true -> is_page f -> as_frame x hi = Some f -> tlb_agrees x (<[i := entry_of hi f]> t).
Proof.
  intros A Hup Hf Hfr e [j Hj]%list_elem_of_lookup Hv.
  apply list_lookup_insert_Some in Hj as [(_ & <- & _)|(_ & Hj)]; [|apply A; [by eapply list_elem_of_lookup_2 | done]]. eauto.
Qed.

(** A TLB without a free slot holds as many pages as it has slots. *)
Lemma tlb_full_size t : tlb_wf t -> free_slot t = None -> size (tlb_pages t) = NUM_TLB.
Proof.
  intros W Hf. pose proof (free_slot_None t Hf) as Hv. unfold tlb_pages.
  assert (E : filter (fun e => entry_valid e = true) t = t).
  { clear -Hv. induction t as [|e t IH]; [done|]. rewrite filter_cons_True by (apply Hv; constructor).
    f_equal. apply IH. intros y Hy. apply Hv. by constructor. }
  rewrite E, size_list_to_set by apply (tw_once t W). rewrite length_fmap. apply (tw_len t W).
Qed.

(** ** Emptying the TLB *)

Definition tlb_empty : list (Z * Z) := (fun i => (TLBHI_INVALID i, TLBLO_INVALID)) <$> seqZ 0 64.

Lemma tlb_empty_lookup i : (i < NUM_TLB)%nat -> tlb_empty !! i = Some (TLBHI_INVALID (Z.of_nat i), TLBLO_INVALID).
Proof. intros H. unfold tlb_empty, NUM_TLB in *. rewrite list_lookup_fmap, lookup_seqZ_lt by lia. done. Qed.

Lemma tlb_empty_wf : tlb_wf tlb_empty.
Proof.
  split; [done| |].
  - intros i e Hi. assert (i < NUM_TLB)%nat by (by apply lookup_lt_Some in Hi). rewrite tlb_empty_lookup in Hi by done. by simplify_eq; constructor.
  - apply (bool_decide_eq_true_1 _). by vm_compute.
Qed.

Lemma tlb_empty_pages : tlb_pages tlb_empty = ∅.
Proof. by vm_compute. Qed.

Lemma tlb_empty_agrees x : tlb_agrees x tlb_empty.
Proof. intros e Hin Hv. exfalso. unfold tlb_empty in Hin. apply list_elem_of_fmap in Hin as (i & -> & _). done. Qed.

Lemma wp_tlb_flush s (Q : unit -> vm -> Prop) E :
  length (tlb s) = NUM_TLB -> Q tt (set_tlb tlb_empty s) ->
  wp (for_each 0 NUM_TLB (fun i => tlb_write (TLBHI_INVALID i) TLBLO_INVALID i)) Q E s.
Proof.
  intros Hlen HQ.
  eapply (wp_for_each (fun i s' => s' = set_tlb (take (Z.to_nat i) tlb_empty ++ drop (Z.to_nat i) (tlb s)) s)).
  - cbn. by destruct s.
  - intros i s' Hi ->. unfold tlb_write. apply wp_bind, wp_get. cbn [tlb set_tlb].
    assert (Hi' : (Z.to_nat i < NUM_TLB)%nat) by lia. assert (Hl : length tlb_empty = NUM_TLB) by done.
    assert (Hlt : length (take (Z.to_nat i) tlb_empty) = Z.to_nat i) by (rewrite length_take, Hl; lia).
    destruct (zlookup_is_Some (take (Z.to_nat i) tlb_empty ++ drop (Z.to_nat i) (tlb s)) i) as [e Ee].
    { rewrite length_app, length_drop, Hlt, Hlen. lia. }
    apply wp_bind. eapply wp_oob; [exact Ee|]. apply wp_put. unfold set_tlb. cbn. f_equal.
    unfold zinsert. destruct (Z.leb_spec 0 i); [|lia].
    replace (Z.to_nat (i + 1)) with (S (Z.to_nat i)) by lia.
    destruct (lookup_lt_is_Some_2 (tlb s) (Z.to_nat i)) as [y Hy]; [lia|].
    rewrite (drop_S _ _ _ Hy), (take_S_r _ _ _ (tlb_empty_lookup _ Hi')).
    rewrite insert_app_r_alt, Hlt, Nat.sub_diag by lia. cbn. rewrite Z2Nat.id by lia. by rewrite <- app_assoc.
  - intros s' ->. rewrite Z.add_0_l, Nat2Z.id, take_ge, drop_ge, app_nil_r by (rewrite ?Hlen; done). exact HQ.
Qed.

(** ** The invariant of the address spaces

    [vm_inv B s] says of a state [s] of the virtual memory that the runs of
    physical pages its address spaces hold are disjoint from each other and
    from the blocks [B] the kernel has taken for itself, and that the TLB
    agrees with the address space of the current process.  The lemmas here
    show that every function of [dumbvm.c] keeps it. *)

(** ** Regions *)

Inductive region := Region1 | Region2 | StackRegion.

#[export] Instance region_eq_dec : EqDecision region.
Proof. solve_decision. Defined.

Definition vbase (x : addrspace) (g : region) : Z :=
  match g with
  | Region1 => as_vbase1 x
  | Region2 => as_vbase2 x
  | StackRegion => USERSTACK - DUMBVM_STACKPAGES * PAGE_SIZE
  end.

Definition npages (x : addrspace) (g : region) : Z :=
  match g with Region1 => as_npages1 x | Region2 => as_npages2 x | StackRegion => DUMBVM_STACKPAGES end.

Definition pbase (x : addrspace) (g : region) : Z :=
  match g with Region1 => as_pbase1 x | Region2 => as_pbase2 x | StackRegion => as_stackpbase x end.

Abbreviation region_size x g := (npages x g * PAGE_SIZE).

(** [first] is the end of the physical memory handed out. *)
Record region_ok (first : Z) (x : addrspace) (g : region) : Prop := {
  ro_vbase : is_page (vbase x g);
  ro_npages : 0 <= npages x g < 2 ^ 19;
  ro_pbase : pbase x g = 0 \/
    (is_page (pbase x g) /\ 0 < pbase x g /\ pbase x g + region_size x g <= first)
}.

Definition regions_ok (first : Z) (x : addrspace) : Prop := forall g, region_ok first x g.

Lemma region_ok_mono first first' x g : first <= first' -> region_ok first x g -> region_ok first' x g.
Proof. intros Hle []. split; try done. destruct ro_pbase0 as [?|(? & ? & ?)]; [by left | right; split_and!; [done..|lia]]. Qed.

(** The address of a byte of a region and the physical address behind it. *)
Definition at_region (x : addrspace) (g : region) (va pa : Z) : Prop :=
  vbase x g <= va < vbase x g + region_size x g /\ pa = pbase x g + (va - vbase x g).

(** The physical address of a user address. *)
Definition as_paddr (x : addrspace) (va : Z) : option Z :=
  (fun f => f + va mod PAGE_SIZE) <$> as_frame x (page_of va).

Lemma set_up_pbase x : as_set_up x = true -> forall g, pbase x g <> 0.
Proof. unfold as_set_up. rewrite !andb_true_iff, !negb_true_iff, !Z.eqb_neq. intros H []; cbn; tauto. Qed.

(** A successful range test of [vm_fault]. *)
Lemma as_frame_Some first x hi f :
  regions_ok first x -> first <= 2 ^ 29 -> as_set_up x = true -> is_page hi -> as_frame x hi = Some f ->
  exists g, at_region x g hi f /\ is_page f.
Proof.
  intros Hok Hfirst Hup [Hhi Hmod] Hf.
  assert (Hstep : forall g, vbase x g <= hi -> hi < vbase x g + region_size x g ->
    u32 (hi - vbase x g + pbase x g) = f -> exists g, at_region x g hi f /\ is_page f).
  { intros g Hlo Hlt <-. exists g. destruct (Hok g) as [[V1 V2] N [P|(P1 & P2 & P3)]]; [by destruct (set_up_pbase x Hup g)|].
    rewrite wrap_small by lia. split; [split; [done | lia]|].
    destruct P1 as [P1 P1']. split; [lia|]. by rewrite Zplus_mod, Zminus_mod, Hmod, V2, P1'. }
  unfold as_frame in Hf. repeat case_match; simplify_eq; rewrite ?andb_true_iff, ?Z.leb_le, ?Z.ltb_lt in *.
  - apply (Hstep Region1); cbn; [lia| |done]. destruct (Hok Region1) as [[V1 _] N _]. cbn in V1, N.
    assert (u32 (as_vbase1 x + as_npages1 x * PAGE_SIZE) <= as_vbase1 x + as_npages1 x * PAGE_SIZE); [|lia].
    apply Z.mod_le; unfold PAGE_SIZE; lia.
  - apply (Hstep Region2); cbn; [lia| |done]. destruct (Hok Region2) as [[V1 _] N _]. cbn in V1, N.
    assert (u32 (as_vbase2 x + as_npages2 x * PAGE_SIZE) <= as_vbase2 x + as_npages2 x * PAGE_SIZE); [|lia].
    apply Z.mod_le; unfold PAGE_SIZE; lia.
  - by apply (Hstep StackRegion); cbn; [lia | unfold USERSTACK in *; lia|].
Qed.

(** The physical address of every byte is in the run of pages of a region. *)
Lemma as_paddr_Some first x va pa :
  regions_ok first x -> first <= 2 ^ 29 -> as_set_up x = true -> 0 <= va < 2 ^ 32 -> as_paddr x va = Some pa ->
  exists g, at_region x g va pa.
Proof.
  intros Hok Hfirst Hup Hva (f & Hf & ->)%fmap_Some. pose proof (page_of_is_page va Hva) as Hp.
  destruct (as_frame_Some first x _ f Hok Hfirst Hup Hp Hf) as (g & [Hr ->] & _). exists g. rewrite page_of_eq in * by done.
  destruct (Hok g) as [[V1 V2] N _]. unfold at_region, PAGE_SIZE in *.
  pose proof (Z.mod_pos_bound va 4096). split; [|lia]. split; [lia|].
  Z.to_euclidean_division_equations. lia.
Qed.

(** ** The invariant *)

(** [proc_getas()] as a function of the state. *)
Definition current_as (s : vm) : option Z :=
  match curproc s with Some p => default None (procs s !! p) | None => None end.

Record vm_inv (B : gmap Z Z) (s : vm) : Prop := {
  vi_ram : ram_rep (vm_ram s) B;
  vi_ok : forall a x, spaces s !! a = Some x -> regions_ok (firstpaddr (vm_ram s)) x;
  vi_apart : forall a x g b y h, spaces s !! a = Some x -> spaces s !! b = Some y -> (a, g) <> (b, h) ->
    pbase x g <> 0 -> pbase y h <> 0 -> blocks_apart (pbase x g) (region_size x g) (pbase y h) (region_size y h);
  vi_kernel : forall a x g b m, spaces s !! a = Some x -> pbase x g <> 0 -> B !! b = Some m ->
    blocks_apart (pbase x g + MIPS_KSEG0) (region_size x g) b (m * PAGE_SIZE);
  vi_tlb : tlb_wf (tlb s);
  vi_agrees : forall a x, current_as s = Some a -> spaces s !! a = Some x -> tlb_agrees x (tlb s);
  vi_procs : forall p a, procs s !! p = Some (Some a) -> is_Some (spaces s !! a);
  vi_cur : forall p, curproc s = Some p -> is_Some (procs s !! p);
  vi_owner : forall p q a, procs s !! p = Some (Some a) -> procs s !! q = Some (Some a) -> p = q
}.

Lemma current_as_space B s a : vm_inv B s -> current_as s = Some a -> exists x, spaces s !! a = Some x.
Proof.
  intros I. unfold current_as. destruct (curproc s) as [p|]; [|done]. destruct (procs s !! p) as [o|] eqn:E; [|done].
  cbn. intros ->. by apply (vi_procs B s I p).
Qed.

Lemma wp_proc_getas B s (Q : option Z -> vm -> Prop) E : vm_inv B s -> Q (current_as s) s -> wp proc_getas Q E s.
Proof.
  intros I HQ. unfold proc_getas, current_as in *. apply wp_bind, wp_get. destruct (curproc s) as [p|] eqn:Ep; [|by apply wp_ret].
  destruct (vi_cur B s I p Ep) as [o Eo]. rewrite Eo in *. by eapply wp_oob.
Qed.

(** Only the TLB changes. *)
Lemma vm_inv_tlb B s t :
  vm_inv B s -> tlb_wf t -> (forall a x, current_as s = Some a -> spaces s !! a = Some x -> tlb_agrees x t) ->
  vm_inv B (set_tlb t s).
Proof. intros [] W A. by split. Qed.

(** ** Page faults and accesses *)

Lemma wp_vm_fault B s a x w va (Q : unit -> vm -> Prop) (E : Z -> vm -> Prop) :
  vm_inv B s -> current_as s = Some a -> spaces s !! a = Some x -> as_set_up x = true -> 0 <= va < USERSPACETOP ->
  (forall f i, as_frame x (page_of va) = Some f -> is_page f -> free_slot (tlb s) = Some i ->
     Q tt (set_tlb (<[i := entry_of (page_of va) f]> (tlb s)) s)) ->
  (as_frame x (page_of va) = None \/ free_slot (tlb s) = None -> E EFAULT s) ->
  wp (vm_fault (if (w : bool) then VM_FAULT_WRITE else VM_FAULT_READ) va) Q E s.
Proof.
  intros I Hc Hx Hup Hva HQ HE. unfold vm_fault.
  assert (Ht : forall b : bool, ((if b then VM_FAULT_WRITE else VM_FAULT_READ) =? VM_FAULT_READONLY) = false) by (by intros []).
  assert (Ht' : forall b : bool, negb (((if b then VM_FAULT_WRITE else VM_FAULT_READ) =? VM_FAULT_READ) ||
    ((if b then VM_FAULT_WRITE else VM_FAULT_READ) =? VM_FAULT_WRITE)) = false) by (by intros []).
  rewrite Ht, Ht'. apply wp_bind, wp_get.
  assert (Hp : exists p, curproc s = Some p) by (unfold current_as in Hc; destruct (curproc s); [by eauto | done]).
  destruct Hp as [p Hp]. rewrite Hp. apply wp_bind, (wp_proc_getas B); [done|]. rewrite Hc.
  apply wp_bind. unfold get_as. apply wp_bind, wp_get. eapply wp_oob; [exact Hx|]. apply wp_bind, wp_kassert; [done|].
  destruct (as_frame x (page_of va)) as [f|] eqn:Ef; [|apply wp_throw, HE; by left].
  assert (Hf : is_page f).
  { destruct (rr_wf _ _ (vi_ram B s I)). unfold USERSPACETOP in *.
    destruct (as_frame_Some _ x (page_of va) f (vi_ok B s I a x Hx) ram_first Hup) as (g & _ & ?); [apply page_of_is_page; lia | done..]. }
  apply wp_bind, wp_kassert; [apply frame_aligned_spec; [apply Hf | done]|].
  apply wp_bind, wp_tlb_fill; [apply (tw_len _ (vi_tlb B s I))|]. destruct (free_slot (tlb s)) as [i|] eqn:Ei.
  - by apply wp_ret, HQ.
  - apply wp_throw, HE. by right.
Qed.

(** What an access leaves: the TLB has the page, all else is as it was. *)
Record accessed (x : addrspace) (va : Z) (s s' : vm) : Prop := {
  acc_state : s' = set_tlb (tlb s') s;
  acc_wf : tlb_wf (tlb s');
  acc_agrees : tlb_agrees x (tlb s');
  acc_pages : tlb_pages (tlb s') = {[page_of va]} ∪ tlb_pages (tlb s)
}.

(** The access once the TLB has the page. *)
Lemma wp_access_hit fuel w va x s (Q : Z -> vm -> Prop) E :
  tlb_wf (tlb s) -> tlb_agrees x (tlb s) -> 0 <= va < USERSPACETOP -> page_of va ∈ tlb_pages (tlb s) ->
  (forall pa, as_paddr x va = Some pa -> Q pa s) -> wp (run_access (S fuel) w va) Q E s.
Proof.
  intros W A Hva Hin HQ. cbn [run_access]. apply wp_bind, wp_gets. pose proof (find_tlb _ va W Hva) as Hf.
  destruct (find (tlb_hit va) (tlb s)) as [[hi lo]|]; [|done]. destruct Hf as (He & Hv & Hhi). cbn in Hhi.
  destruct (A _ He Hv) as (_ & f & Hpf & Elo & Efr). cbn [fst] in *. injection Elo as Elo.
  destruct (entry_bits hi f Hpf) as (_ & Hd & Hpp). cbn [entry_of snd] in Hd, Hpp. rewrite Elo, Hd, Hpp.
  replace (w && (TLBLO_DIRTY =? 0)) with false by (by rewrite andb_comm). apply wp_ret, HQ.
  unfold as_paddr. by rewrite <- Hhi, Efr.
Qed.

Lemma wp_user_access B s a x w va :
  vm_inv B s -> current_as s = Some a -> spaces s !! a = Some x -> as_set_up x = true -> 0 <= va < USERSPACETOP ->
  wp (user_access w va)
    (fun pa s' => as_paddr x va = Some pa /\ accessed x va s s')
    (fun e s' => e = EFAULT /\ s' = s /\ (as_paddr x va = None \/ (page_of va ∉ tlb_pages (tlb s)) /\ size (tlb_pages (tlb s)) = NUM_TLB)) s.
Proof.
  intros I Hc Hx Hup Hva. pose proof (vi_tlb B s I) as W. pose proof (vi_agrees B s I a x Hc Hx) as A. unfold user_access.
  destruct (decide (page_of va ∈ tlb_pages (tlb s))) as [Hin|Hni].
  - eapply (wp_access_hit 1 w va x s); [done..|]. intros pa Hpa. split; [done|].
    split; [by destruct s | done..|]. apply set_eq. set_solver.
  - cbn [run_access]. apply wp_bind, wp_gets. pose proof (find_tlb _ va W Hva) as Hf.
    destruct (find (tlb_hit va) (tlb s)) as [e|]; [exfalso; apply Hni, elem_tlb_pages; naive_solver|].
    assert (Hp : is_page (page_of va) /\ page_of va < USERSPACETOP).
    { unfold USERSPACETOP in *. split; [apply page_of_is_page; lia|]. rewrite page_of_eq by lia. unfold PAGE_SIZE. pose proof (Z.mod_pos_bound va 4096). lia. }
    apply wp_bind, (wp_vm_fault B s a x); try done.
    + intros f i Ef Hpf Ei. set (t' := <[i := entry_of (page_of va) f]> (tlb s)).
      assert (W' : tlb_wf t') by (by apply tlb_wf_fill; naive_solver). assert (A' : tlb_agrees x t') by (by apply tlb_agrees_fill).
      assert (P' : tlb_pages t' = {[page_of va]} ∪ tlb_pages (tlb s)) by (by apply tlb_pages_fill).
      change (wp (run_access 1 w va) (fun pa s' => as_paddr x va = Some pa /\ accessed x va s s')
        (fun e s' => e = EFAULT /\ s' = s /\ (as_paddr x va = None \/ (page_of va ∉ tlb_pages (tlb s)) /\ size (tlb_pages (tlb s)) = NUM_TLB)) (set_tlb t' s)).
      apply (wp_access_hit 0 w va x (set_tlb t' s)); [done..| |].
      * cbn [tlb set_tlb]. rewrite P'. set_solver.
      * intros pa Hpa. split; [done|]. by split.
    + intros Hor. split_and!; [done..|]. unfold as_paddr. destruct Hor as [->|Hfull]; [by left|]. right. split; [done|]. by apply tlb_full_size.
Qed.

(** ** Changing an address space *)

Lemma wp_can_sleep s (Q : unit -> vm -> Prop) E : c_spinlocks s = 0 -> t_in_interrupt s = false -> Q tt s -> wp can_sleep Q E s.
Proof.
  intros Hs Hi HQ. unfold can_sleep. apply wp_bind, wp_get, wp_bind, wp_kassert; [by rewrite Hs|].
  apply wp_kassert; [by rewrite Hi | done].
Qed.

Lemma wp_get_as a x s (Q : addrspace -> vm -> Prop) E : spaces s !! a = Some x -> Q x s -> wp (get_as a) Q E s.
Proof. intros Hx HQ. unfold get_as. apply wp_bind, wp_get. by eapply wp_oob. Qed.

Lemma ram_rep_grow r B first' :
  ram_rep r B -> firstpaddr r <= first' <= 2 ^ 29 -> first' mod PAGE_SIZE = 0 -> ram_rep (Ram first' (lastpaddr r)) B.
Proof.
  intros [[] H] Hle Hm. split; [split; cbn; [done | lia..]|]. intros a n Ha. destruct (H a n Ha) as (? & ? & ?). cbn. split_and!; [done | lia | done].
Qed.

(** The blocks of a new or changed address space lie above the memory handed
    out before, apart from each other. *)
Record as_new (first first' : Z) (x : addrspace) : Prop := {
  an_ok : regions_ok first' x;
  an_above : forall g, pbase x g <> 0 -> first <= pbase x g;
  an_apart : forall g h, g <> h -> pbase x g <> 0 -> pbase x h <> 0 ->
    blocks_apart (pbase x g) (region_size x g) (pbase x h) (region_size x h)
}.

Lemma blocks_apart_sym a n b m : blocks_apart a n b m -> blocks_apart b m a n.
Proof. unfold blocks_apart. lia. Qed.

Lemma block_below first y h : region_ok first y h -> pbase y h <> 0 -> pbase y h + region_size y h <= first.
Proof. intros [_ _ [?|(_ & _ & ?)]] Hne; done. Qed.

Lemma vm_inv_new B s a x first' :
  vm_inv B s -> firstpaddr (vm_ram s) <= first' <= 2 ^ 29 -> first' mod PAGE_SIZE = 0 ->
  as_new (firstpaddr (vm_ram s)) first' x -> (current_as s = Some a -> tlb_agrees x (tlb s)) ->
  vm_inv B (set_spaces (<[a := x]> (spaces s)) (set_ram (Ram first' (lastpaddr (vm_ram s))) s)).
Proof.
  intros I Hle Hm [N1 N2 N3] HA. pose proof (vi_ram B s I) as R.
  assert (Hbelow : forall b y h, spaces s !! b = Some y -> pbase y h <> 0 -> pbase y h + region_size y h <= firstpaddr (vm_ram s)).
  { intros b y h Hy Hne. eapply block_below; [apply (vi_ok B s I b y Hy) | done]. }
  split; cbn [vm_ram spaces tlb procs curproc set_spaces set_ram firstpaddr].
  - by apply ram_rep_grow.
  - intros b y [[<- <-]|[_ Hy]]%lookup_insert_Some; [done|]. intros g. apply region_ok_mono with (firstpaddr (vm_ram s)); [lia|].
    apply (vi_ok B s I b y Hy).
  - intros b y g c z h [[<- <-]|[Hb Hy]]%lookup_insert_Some [[<- <-]|[Hc Hz]]%lookup_insert_Some Hne Hg Hh.
    + apply N3; try done. congruence.
    + right. pose proof (Hbelow c z h Hz Hh). specialize (N2 g Hg). lia.
    + left. pose proof (Hbelow b y g Hy Hg). specialize (N2 h Hh). lia.
    + by apply (vi_apart B s I b y g c z h).
  - intros b y g c m [[<- <-]|[Hb Hy]]%lookup_insert_Some Hg Hc; [|by apply (vi_kernel B s I b y g c m)].
    right. destruct (rr_below _ _ R c m Hc) as (_ & ? & _). specialize (N2 g Hg). lia.
  - apply (vi_tlb B s I).
  - intros b y Hcur [[<- <-]|[Hb Hy]]%lookup_insert_Some; [by apply HA | by apply (vi_agrees B s I b)].
  - intros p b Hp. apply lookup_insert_is_Some'. right. by apply (vi_procs B s I p).
  - apply (vi_cur B s I).
  - apply (vi_owner B s I).
Qed.

(** The same without new memory. *)
Lemma vm_inv_put B s a x :
  vm_inv B s -> as_new (firstpaddr (vm_ram s)) (firstpaddr (vm_ram s)) x -> (current_as s = Some a -> tlb_agrees x (tlb s)) ->
  vm_inv B (set_spaces (<[a := x]> (spaces s)) s).
Proof.
  intros I N HA. destruct (rr_wf _ _ (vi_ram B s I)).
  assert (E : s = set_ram (Ram (firstpaddr (vm_ram s)) (lastpaddr (vm_ram s))) s) by (by destruct s as [[] ? ? ? ? ? ? ?]).
  pose proof (vm_inv_new B s a x (firstpaddr (vm_ram s)) I ltac:(lia) ltac:(done) N HA) as H. by rewrite <- E in H.
Qed.

(** No region has memory yet. *)
Definition unprepared (x : addrspace) : Prop := forall g, pbase x g = 0.

Lemma as_new_unprepared first first' x : unprepared x -> (forall g, is_page (vbase x g) /\ 0 <= npages x g < 2 ^ 19) -> as_new first first' x.
Proof. intros Hu H. split; [|intros g; by rewrite (Hu g)..]. intros g. destruct (H g). split; auto. Qed.

Lemma not_set_up x g : pbase x g = 0 -> as_set_up x = false.
Proof. intros Hp. destruct (as_set_up x) eqn:E; [|done]. by destruct (set_up_pbase x E g). Qed.

(** As long as an address space is not set up, the TLB has no entry of it. *)
Lemma agrees_not_set_up x y t : as_set_up x = false -> tlb_agrees x t -> tlb_agrees y t.
Proof. intros Hx A e Hin Hv. destruct (A e Hin Hv) as [Hup _]. congruence. Qed.

Lemma vm_inv_destroy B s a :
  vm_inv B s -> (forall p, procs s !! p <> Some (Some a)) -> vm_inv B (set_spaces (delete a (spaces s)) s).
Proof.
  intros [] Hp. split; cbn [vm_ram spaces tlb procs curproc set_spaces]; try done.
  - intros b y [_ Hy]%lookup_delete_Some. eauto.
  - intros b y g c z h [_ Hy]%lookup_delete_Some [_ Hz]%lookup_delete_Some. eauto.
  - intros b y g c m [_ Hy]%lookup_delete_Some. eauto.
  - intros b y Hc [_ Hy]%lookup_delete_Some. eauto.
  - intros p b Hb. destruct (vi_procs0 p b Hb) as [y Hy]. exists y. apply lookup_delete_Some. split; [|done]. intros <-. by apply (Hp p).
Qed.

(** ** Operations *)

Lemma wp_as_create B s new (Q : option Z -> vm -> Prop) E :
  vm_inv B s -> (forall a, new = Some a -> spaces s !! a = None) ->
  (new = None -> Q None s) ->
  (forall a, new = Some a -> vm_inv B (set_spaces (<[a := AddrSpace 0 0 0 0 0 0 0]> (spaces s)) s) ->
     Q (Some a) (set_spaces (<[a := AddrSpace 0 0 0 0 0 0 0]> (spaces s)) s)) ->
  wp (as_create new) Q E s.
Proof.
  intros I Hfresh H1 H2. unfold as_create. destruct new as [a|]; [|by apply wp_ret, H1].
  unfold put_as. apply wp_bind, wp_modify, wp_ret, H2; [done|]. apply vm_inv_put; [done| |].
  - apply as_new_unprepared; [by intros [] | by intros []].
  - intros Hc. destruct (current_as_space B s a I Hc) as [x Hx]. by rewrite (Hfresh a) in Hx.
Qed.

(** The size of a region in pages. *)
Definition region_npages (vaddr sz : Z) : Z := (sz + vaddr mod PAGE_SIZE + PAGE_SIZE - 1) / PAGE_SIZE.

Lemma region_npages_run vaddr sz :
  0 <= vaddr < 2 ^ 32 -> 0 <= sz -> sz + PAGE_SIZE + PAGE_SIZE <= 2 ^ 31 ->
  Z.land (u32 (u32 (sz + Z.land vaddr (Z.lnot PAGE_FRAME)) + PAGE_SIZE - 1)) PAGE_FRAME / PAGE_SIZE = region_npages vaddr sz /\
  0 <= region_npages vaddr sz < 2 ^ 19.
Proof.
  intros Hv Hs Hb. rewrite land_page_offset by done. unfold region_npages. pose proof (Z.mod_pos_bound vaddr PAGE_SIZE ltac:(done)) as Hm.
  unfold PAGE_SIZE in *. rewrite (wrap_small 32 (sz + _)) by lia. rewrite wrap_small by lia. rewrite land_page_frame by lia.
  unfold PAGE_SIZE. generalize dependent (vaddr mod 4096). intros m Hm. split; Z.to_euclidean_division_equations; lia.
Qed.

(** The address space after a region has been defined. *)
Definition defined_region (x : addrspace) (vaddr sz : Z) : option addrspace :=
  let v := page_of vaddr in
  let n := region_npages vaddr sz in
  if as_vbase1 x =? 0 then Some (AddrSpace v (as_pbase1 x) n (as_vbase2 x) (as_pbase2 x) (as_npages2 x) (as_stackpbase x))
  else if as_vbase2 x =? 0 then Some (AddrSpace (as_vbase1 x) (as_pbase1 x) (as_npages1 x) v (as_pbase2 x) n (as_stackpbase x))
  else None.

Lemma as_define_region_run s a x vaddr sz :
  c_spinlocks s = 0 -> t_in_interrupt s = false -> spaces s !! a = Some x ->
  0 <= vaddr < 2 ^ 32 -> 0 <= sz -> sz + PAGE_SIZE + PAGE_SIZE <= 2 ^ 31 ->
  as_define_region a vaddr sz s = match defined_region x vaddr sz with
    | Some x' => Ret tt (set_spaces (<[a := x']> (spaces s)) s)
    | None => Err ENOSYS s
    end.
Proof.
  intros Hs Hi Hx Hv Hz Hb. destruct (region_npages_run vaddr sz Hv Hz Hb) as [En _].
  unfold as_define_region, can_sleep, get_as, put_as, defined_region, bind, get, oob, modify, throw, ret, KASSERT.
  rewrite Hs, Hi. cbn [Z.eqb negb]. unfold ret. cbv beta iota zeta. rewrite Hx, En. by destruct (as_vbase1 x =? 0), (as_vbase2 x =? 0).
Qed.

Lemma vm_inv_define B s a x vaddr sz x' :
  vm_inv B s -> spaces s !! a = Some x -> unprepared x -> 0 <= vaddr < 2 ^ 32 -> 0 <= sz -> sz + PAGE_SIZE + PAGE_SIZE <= 2 ^ 31 ->
  defined_region x vaddr sz = Some x' -> unprepared x' /\ vm_inv B (set_spaces (<[a := x']> (spaces s)) s).
Proof.
  intros I Hx Hu Hv Hz Hb Hd. destruct (region_npages_run vaddr sz Hv Hz Hb) as [_ Hn]. pose proof (page_of_is_page vaddr Hv) as Hp.
  assert (Hu' : unprepared x').
  { unfold defined_region in Hd. pose proof (Hu Region1). pose proof (Hu Region2). pose proof (Hu StackRegion).
    destruct (as_vbase1 x =? 0), (as_vbase2 x =? 0); simplify_eq; by intros []. }
  split; [done|]. apply vm_inv_put; [done| |].
  - apply as_new_unprepared; [done|]. intros g. pose proof (vi_ok B s I a x Hx) as Hok. pose proof (Hok Region1) as [O1 N1 _].
    pose proof (Hok Region2) as [O2 N2 _]. pose proof (Hok StackRegion) as [O3 N3 _]. unfold defined_region in Hd.
    destruct (as_vbase1 x =? 0), (as_vbase2 x =? 0); simplify_eq; by destruct g.
  - intros Hc. apply (agrees_not_set_up x); [apply (not_set_up x Region1), Hu | by apply (vi_agrees B s I a)].
Qed.
