(* ===== verification/AddrSpaceOps.v ===== *)
(** * Preparing, copying and activating address spaces

    [as_prepare_load] takes three fresh runs of physical pages and clears
    them; [as_copy] gives a new address space the contents of an old one;
    [as_activate] makes the TLB agree with a new current address space. *)

From S2P Require Import Prelude CopyInOut KPages AddrSpace AddrSpaceInv.

(** ** Preparing *)

(** The address space [x] with the runs of pages at [p1], [p2] and [p3]. *)
Definition with_pbases (x : addrspace) (p1 p2 p3 : Z) : addrspace :=
  AddrSpace (as_vbase1 x) p1 (as_npages1 x) (as_vbase2 x) p2 (as_npages2 x) p3.

(** The memory an address space needs. *)
Definition as_total (x : addrspace) : Z := (as_npages1 x + as_npages2 x + DUMBVM_STACKPAGES) * PAGE_SIZE.

Definition prepared_as (x : addrspace) (first : Z) : addrspace :=
  with_pbases x first (first + as_npages1 x * PAGE_SIZE) (first + (as_npages1 x + as_npages2 x) * PAGE_SIZE).

Lemma page_add first n : is_page first -> 0 <= first + n * PAGE_SIZE < 2 ^ 32 -> is_page (first + n * PAGE_SIZE).
Proof. intros [H1 H2] H. split; [done|]. by rewrite Z_mod_plus_full. Qed.

Lemma as_new_with_pbases first first' x p1 p2 p3 :
  regions_ok first x -> is_page first -> 0 < first -> first' <= 2 ^ 29 ->
  p1 = 0 \/ p1 = first /\ first + as_npages1 x * PAGE_SIZE <= first' ->
  p2 = 0 \/ p2 = first + as_npages1 x * PAGE_SIZE /\ first + (as_npages1 x + as_npages2 x) * PAGE_SIZE <= first' ->
  p3 = 0 \/ p3 = first + (as_npages1 x + as_npages2 x) * PAGE_SIZE /\ first + as_total x <= first' ->
  as_new first first' (with_pbases x p1 p2 p3).
Proof.
  intros Hok Hp Hpos Hle H1 H2 H3. destruct (Hok Region1) as [V1 N1 _], (Hok Region2) as [V2 N2 _], (Hok StackRegion) as [V3 N3 _].
  cbn in V1, N1, V2, N2, N3. unfold as_total, DUMBVM_STACKPAGES in *.
  assert (A1 : p1 <> 0 -> first <= p1 /\ p1 + as_npages1 x * PAGE_SIZE <= first + as_npages1 x * PAGE_SIZE) by lia.
  assert (A2 : p2 <> 0 -> first + as_npages1 x * PAGE_SIZE <= p2 /\ p2 + as_npages2 x * PAGE_SIZE <= first + (as_npages1 x + as_npages2 x) * PAGE_SIZE) by lia.
  assert (A3 : p3 <> 0 -> first + (as_npages1 x + as_npages2 x) * PAGE_SIZE <= p3) by lia.
  split.
  - intros []; split; cbn; try done.
    + destruct H1 as [->|[-> ?]]; [by left | right]. split_and!; [done | lia..].
    + destruct H2 as [->|[-> ?]]; [by left | right]. split_and!; [apply page_add; unfold PAGE_SIZE in *; (done || lia) | unfold PAGE_SIZE in *; lia..].
    + destruct H3 as [->|[-> ?]]; [by left | right]. unfold DUMBVM_STACKPAGES.
      split_and!; [apply page_add; unfold PAGE_SIZE in *; (done || lia) | unfold PAGE_SIZE in *; lia..].
  - intros []; cbn; unfold PAGE_SIZE in *; lia.
  - intros [] [] Hne; cbn; try done; unfold blocks_apart, PAGE_SIZE in *; lia.
Qed.

Lemma wp_getppages s n (Q : Z -> vm -> Prop) E :
  ram_wf (vm_ram s) -> 0 <= n < 2 ^ 19 ->
  (lastpaddr (vm_ram s) < firstpaddr (vm_ram s) + n * PAGE_SIZE -> Q 0 s) ->
  (firstpaddr (vm_ram s) + n * PAGE_SIZE <= lastpaddr (vm_ram s) ->
     Q (firstpaddr (vm_ram s)) (set_ram (Ram (firstpaddr (vm_ram s) + n * PAGE_SIZE) (lastpaddr (vm_ram s))) s)) ->
  wp (on_ram (getppages n)) Q E s.
Proof.
  intros W Hn H1 H2. unfold on_ram. apply wp_zoom. unfold wp, getppages. rewrite ram_stealmem_run by done.
  destruct (Z.ltb_spec (lastpaddr (vm_ram s)) (firstpaddr (vm_ram s) + n * PAGE_SIZE)) as [Hl|Hl].
  - replace (set_ram (vm_ram s) s) with s by (by destruct s). auto.
  - auto.
Qed.

(** Zeros in a block of memory. *)
Definition zero_block (lo len : Z) (ph : Z -> Z) : Z -> Z := fun p => if (lo <=? p) && (p <? lo + len) then 0 else ph p.

Lemma kvaddr_eq p : 0 <= p <= 2 ^ 29 -> PADDR_TO_KVADDR p = p + MIPS_KSEG0.
Proof. intros H. apply wrap_small. unfold MIPS_KSEG0. lia. Qed.

Lemma wp_as_zero_region p n s (Q : unit -> vm -> Prop) E :
  0 <= p -> 0 <= n < 2 ^ 19 -> p + n * PAGE_SIZE <= 2 ^ 29 -> Q tt (set_phys (zero_block p (n * PAGE_SIZE) (phys s)) s) ->
  wp (as_zero_region p n) Q E s.
Proof.
  intros Hp Hn Hle HQ. unfold as_zero_region, bzero, PAGE_SIZE in *. rewrite kvaddr_eq by lia. rewrite wrap_small by lia.
  apply wp_bind, wp_in_bounds.
  - unfold in_kseg0, MIPS_KSEG0, MIPS_KSEG1. apply andb_true_iff. rewrite !Z.leb_le. lia.
  - apply wp_modify. by replace (p + MIPS_KSEG0 - MIPS_KSEG0) with p by lia.
Qed.

(** The state after an address space has got memory. *)
Definition take_memory (a : Z) (x : addrspace) (first' : Z) (ph : Z -> Z) (s : vm) : vm :=
  set_phys ph (set_spaces (<[a := x]> (spaces s)) (set_ram (Ram first' (lastpaddr (vm_ram s))) s)).

Lemma vm_inv_phys B s ph : vm_inv B s -> vm_inv B (set_phys ph s).
Proof. intros []. by split. Qed.

Lemma take_memory_put a x y first' ph s :
  set_spaces (<[a := y]> (spaces (take_memory a x first' ph s))) (take_memory a x first' ph s) = take_memory a y first' ph s.
Proof. unfold take_memory, set_phys, set_spaces, set_ram. cbn. by rewrite insert_insert_eq. Qed.

Lemma take_memory_id a x s : spaces s !! a = Some x -> take_memory a x (firstpaddr (vm_ram s)) (phys s) s = s.
Proof.
  intros Hx. unfold take_memory, set_phys, set_spaces, set_ram. destruct s as [[] ? ? ? ? ? ? ?]. cbn in *. by rewrite insert_id.
Qed.

Lemma wp_at {S A} (m : M S A) Q E s s' : s' = s -> wp m Q E s' -> wp m Q E s.
Proof. by intros ->. Qed.

(** One of the three requests for memory. *)
Lemma wp_grab a y f ph s n (mk : Z -> addrspace) (k : Z -> M vm unit) Q E :
  is_page f -> 0 < f <= 2 ^ 29 -> lastpaddr (vm_ram s) <= 2 ^ 29 -> 0 <= n < 2 ^ 19 ->
  (lastpaddr (vm_ram s) < f + n * PAGE_SIZE -> E ENOMEM (take_memory a (mk 0) f ph s)) ->
  (f + n * PAGE_SIZE <= lastpaddr (vm_ram s) -> wp (k f) Q E (take_memory a (mk f) (f + n * PAGE_SIZE) ph s)) ->
  wp (pb <- on_ram (getppages n) ;; put_as a (mk pb) ;; if pb =? 0 then throw ENOMEM else k pb) Q E (take_memory a y f ph s).
Proof.
  intros Hp Hf Hl Hn H1 H2. apply wp_bind, wp_getppages; [split; cbn; [apply Hp | lia..] | done | |];
    cbn [vm_ram take_memory set_phys set_spaces set_ram firstpaddr lastpaddr]; intros Hlt; apply wp_bind, wp_modify.
  - apply wp_throw. rewrite (take_memory_put a y (mk 0)). auto.
  - destruct (Z.eqb_spec f 0); [lia|]. rewrite <- (take_memory_put a y (mk f)) in H2. auto.
Qed.

Definition fits (x : addrspace) (s : vm) : Prop := firstpaddr (vm_ram s) + as_total x <= lastpaddr (vm_ram s).

Lemma wp_as_prepare_load B s a x :
  vm_inv B s -> c_spinlocks s = 0 -> t_in_interrupt s = false -> spaces s !! a = Some x -> unprepared x ->
  let first := firstpaddr (vm_ram s) in
  wp (as_prepare_load a)
    (fun _ s' => fits x s /\ vm_inv B s' /\ exists ph,
       (forall p, ph p = zero_block first (as_total x) (phys s) p) /\
       s' = take_memory a (prepared_as x first) (first + as_total x) ph s)
    (fun e s' => e = ENOMEM /\ ~ fits x s /\ vm_inv B s' /\ exists p1 p2 first',
       s' = take_memory a (with_pbases x p1 p2 0) first' (phys s) s) s.
Proof.
  intros I Hs Hi Hx Hu first. pose proof (vi_ram B s I) as R. destruct (rr_wf _ _ R) as [W1 W2 W3 W4]. fold first in W1, W2, W4.
  pose proof (vi_ok B s I a x Hx) as Hok. pose proof (ro_npages _ _ _ (Hok Region1)) as N1. pose proof (ro_npages _ _ _ (Hok Region2)) as N2. cbn in N1, N2.
  assert (Hp : is_page first) by (split; [lia | done]).
  assert (Hinv : forall p1 p2 p3 first' ph, first <= first' <= 2 ^ 29 -> is_page first' ->
    as_new first first' (with_pbases x p1 p2 p3) -> vm_inv B (take_memory a (with_pbases x p1 p2 p3) first' ph s)).
  { intros p1 p2 p3 first' ph Hle [_ Hm] Hnew. apply vm_inv_phys, vm_inv_new; try done. intros Hc.
    apply (agrees_not_set_up x); [apply (not_set_up x Region1), Hu | by apply (vi_agrees B s I a)]. }
  unfold as_prepare_load, fits. apply wp_bind, (wp_get_as a x); [done|].
  do 3 (apply wp_bind, wp_kassert; [apply Z.eqb_eq; first [apply (Hu Region1) | apply (Hu Region2) | apply (Hu StackRegion)]|]).
  apply wp_bind, wp_can_sleep; [done..|]. rewrite (Hu Region2 : as_pbase2 x = 0), (Hu StackRegion : as_stackpbase x = 0).
  eapply wp_at; [exact (take_memory_id a x s Hx)|]. fold first.
  set (f1 := first + as_npages1 x * PAGE_SIZE). set (f2 := first + (as_npages1 x + as_npages2 x) * PAGE_SIZE).
  apply (wp_grab a x first (phys s) s _ (fun p => with_pbases x p 0 0)); [done | lia | done | done | |]; fold f1; intros Hl1.
  { split_and!; [done | unfold f1, as_total, DUMBVM_STACKPAGES, PAGE_SIZE in *; lia | | by exists 0, 0, first].
    apply Hinv; [lia | done|]. apply as_new_with_pbases; try done; by left. }
  assert (M1 : is_page f1) by (apply page_add; [done | unfold PAGE_SIZE in *; lia]).
  apply (wp_grab a _ f1 (phys s) s _ (fun p => with_pbases x first p 0)); [done | unfold f1, PAGE_SIZE in *; lia | done | done | |].
  all: replace (f1 + as_npages2 x * PAGE_SIZE) with f2 by (unfold f1, f2; lia); intros Hl2.
  { split_and!; [done | unfold f2, as_total, DUMBVM_STACKPAGES, PAGE_SIZE in *; lia | | by exists first, 0, f1].
    apply Hinv; [unfold f1, PAGE_SIZE in *; lia | done|]. apply as_new_with_pbases; try done; [lia | right; done | by left | by left]. }
  assert (M2 : is_page f2) by (apply page_add; [done | unfold PAGE_SIZE in *; lia]).
  apply (wp_grab a _ f2 (phys s) s _ (fun p => with_pbases x first f1 p)); [done | unfold f2, PAGE_SIZE in *; lia | done | done | |].
  all: replace (f2 + DUMBVM_STACKPAGES * PAGE_SIZE) with (first + as_total x) by (unfold f2, as_total; lia); intros Hl3.
  { split_and!; [done | fold first; lia | | by exists first, f1, f2].
    apply Hinv; [unfold f2, PAGE_SIZE in *; lia | done|]. apply as_new_with_pbases; try done; [lia | right; unfold f2, PAGE_SIZE in *; split; [done | lia] | right; done | by left]. }
  assert (M3 : is_page (first + as_total x)) by (apply page_add; [done | unfold as_total, DUMBVM_STACKPAGES, PAGE_SIZE in *; lia]).
  apply wp_bind, wp_as_zero_region; [lia | done | unfold f1, f2, PAGE_SIZE in *; lia|].
  apply wp_bind, wp_as_zero_region; [unfold f1, PAGE_SIZE in *; lia | done | unfold f1, f2, PAGE_SIZE in *; lia|].
  apply wp_as_zero_region; [unfold f2, PAGE_SIZE in *; lia | done | unfold as_total, DUMBVM_STACKPAGES, f2, PAGE_SIZE in *; lia|].
  split_and!; [exact Hl3 | |].
  - apply vm_inv_phys. do 2 apply vm_inv_phys. apply Hinv; [unfold as_total, DUMBVM_STACKPAGES, PAGE_SIZE in *; lia | done|].
    unfold as_total, DUMBVM_STACKPAGES, f1, f2, PAGE_SIZE in *. apply as_new_with_pbases; try done; try lia; right; unfold as_total, DUMBVM_STACKPAGES, PAGE_SIZE; lia.
  - eexists. split; [|done]. intros p. unfold zero_block. cbn [phys take_memory set_phys].
    unfold as_total, DUMBVM_STACKPAGES, f1, f2, PAGE_SIZE in *. repeat case_match; try done; exfalso;
      rewrite ?andb_true_iff, ?andb_false_iff, ?Z.leb_le, ?Z.ltb_lt, ?Z.leb_gt, ?Z.ltb_ge in *; lia.
Qed.

(** ** Copying *)

Definition move_block (dst src len : Z) (ph : Z -> Z) : Z -> Z :=
  fun p => if (dst <=? p) && (p <? dst + len) then ph (src + (p - dst)) else ph p.

Lemma wp_memmove_block d c n s (Q : unit -> vm -> Prop) E :
  0 <= d -> 0 <= c -> 0 <= n < 2 ^ 19 -> d + n * PAGE_SIZE <= 2 ^ 29 -> c + n * PAGE_SIZE <= 2 ^ 29 ->
  Q tt (set_phys (move_block d c (n * PAGE_SIZE) (phys s)) s) ->
  wp (memmove (PADDR_TO_KVADDR d) (PADDR_TO_KVADDR c) (u32 (n * PAGE_SIZE))) Q E s.
Proof.
  intros Hd Hc Hn Hld Hlc HQ. unfold memmove, PAGE_SIZE in *. rewrite !kvaddr_eq by lia. rewrite wrap_small by lia.
  apply wp_bind, wp_in_bounds.
  - unfold in_kseg0, MIPS_KSEG0, MIPS_KSEG1. rewrite !andb_true_iff, !Z.leb_le. lia.
  - apply wp_modify. by replace (d + MIPS_KSEG0 - MIPS_KSEG0) with d by lia; replace (c + MIPS_KSEG0 - MIPS_KSEG0) with c by lia.
Qed.

(** Memory after a copy of [o] to new pages from [first] on. *)
Record copied (o : addrspace) (first : Z) (ph ph' : Z -> Z) : Prop := {
  cp_outside : forall p, p < first \/ first + as_total o <= p -> ph' p = ph p;
  cp_inside : forall g off, pbase o g <> 0 -> 0 <= off < region_size o g ->
    ph' (pbase (prepared_as o first) g + off) = ph (pbase o g + off)
}.

Lemma if_case (b : bool) (u v w : Z) : (b = true -> u = w) -> (b = false -> v = w) -> (if b then u else v) = w.
Proof. destruct b; auto. Qed.

(** Decide whether an address is in a block. *)
Ltac block_cases :=
  repeat (apply if_case; rewrite ?andb_true_iff, ?andb_false_iff, ?Z.leb_le, ?Z.ltb_lt, ?Z.leb_gt, ?Z.ltb_ge; intros ?);
  try (exfalso; lia).

Lemma copied_moves o first ph ph0 :
  regions_ok first o -> (forall p, ph0 p = zero_block first (as_total o) ph p) ->
  copied o first ph
    (move_block (first + (as_npages1 o + as_npages2 o) * PAGE_SIZE) (as_stackpbase o) (DUMBVM_STACKPAGES * PAGE_SIZE)
      (move_block (first + as_npages1 o * PAGE_SIZE) (as_pbase2 o) (as_npages2 o * PAGE_SIZE)
        (move_block first (as_pbase1 o) (as_npages1 o * PAGE_SIZE) ph0))).
Proof.
  intros Hok H0. pose proof (Hok Region1) as [_ N1 P1]. pose proof (Hok Region2) as [_ N2 P2]. pose proof (Hok StackRegion) as [_ _ P3].
  cbn in N1, N2, P1, P2, P3. unfold as_total, DUMBVM_STACKPAGES, zero_block, move_block, PAGE_SIZE in *. split.
  - intros p Hp. unfold as_total, DUMBVM_STACKPAGES, PAGE_SIZE in Hp. rewrite !H0. by block_cases.
  - intros g off Hne Hoff. destruct g; cbn in *; unfold PAGE_SIZE, DUMBVM_STACKPAGES in *; rewrite !H0; block_cases; f_equal; lia.
Qed.

Lemma wp_as_copy B s old o new :
  vm_inv B s -> c_spinlocks s = 0 -> t_in_interrupt s = false -> spaces s !! old = Some o ->
  (forall a, new = Some a -> spaces s !! a = None) ->
  let first := firstpaddr (vm_ram s) in
  wp (as_copy old new)
    (fun n s' => new = Some n /\ fits o s /\ vm_inv B s' /\ exists ph, copied o first (phys s) ph /\
       s' = take_memory n (prepared_as o first) (first + as_total o) ph s)
    (fun e s' => e = ENOMEM /\ vm_inv B s' /\ (new = None \/ ~ fits o s) /\ exists r, s' = set_ram r s) s.
Proof.
  intros I Hs Hi Ho Hfresh first. destruct (rr_wf _ _ (vi_ram B s I)) as [W1 W2 W3 W4]. fold first in W1, W2, W4.
  pose proof (vi_ok B s I old o Ho) as Hok.
  unfold as_copy. apply wp_bind, wp_can_sleep; [done..|]. apply wp_bind, (wp_as_create B); [done..| |].
  { intros ->. apply wp_throw. split_and!; [done..| by left |]. exists (vm_ram s). by destruct s. }
  intros n -> I1. specialize (Hfresh n eq_refl). assert (Hne : n <> old) by congruence.
  apply wp_bind, (wp_get_as old o); [by cbn; rewrite lookup_insert_ne|]. apply wp_bind, wp_modify. cbn [spaces set_spaces].
  rewrite insert_insert_eq. set (s2 := set_spaces (<[n := with_pbases o 0 0 0]> (spaces s)) s).
  change (set_spaces _ _) with s2.
  assert (Hcur : current_as s <> Some n).
  { intros Hc. destruct (current_as_space B s n I Hc) as [y Hy]. congruence. }
  assert (I2 : vm_inv B s2).
  { apply vm_inv_put; [done| |done]. apply as_new_unprepared; [by intros []|]. intros g. destruct (Hok g). by destruct g. }
  assert (Hx2 : spaces s2 !! n = Some (with_pbases o 0 0 0)) by apply lookup_insert_eq.
  apply wp_bind. unfold result_of. apply wp_catch, wp_bind.
  eapply wp_mono; [apply (wp_as_prepare_load B s2 n (with_pbases o 0 0 0)); [done..|by intros []] | |].
  - intros [] s3 (Hfit & I3 & ph & Hph & ->). apply wp_ret. cbn [Z.eqb negb].
    change (firstpaddr (vm_ram s2)) with first in *. change (as_total (with_pbases o 0 0 0)) with (as_total o) in *.
    change (prepared_as (with_pbases o 0 0 0) first) with (prepared_as o first) in *.
    assert (Hfit' : first + as_total o <= 2 ^ 29) by (unfold fits in Hfit; cbn in Hfit; unfold as_total in *; cbn in Hfit; lia).
    apply wp_bind, (wp_get_as n (prepared_as o first)); [apply lookup_insert_eq|].
    pose proof (Hok Region1) as [_ N1 P1]. pose proof (Hok Region2) as [_ N2 P2]. pose proof (Hok StackRegion) as [_ _ P3]. cbn in N1, N2, P1, P2, P3.
    do 3 (apply wp_bind, wp_kassert; [apply negb_true_iff, Z.eqb_neq; cbn; unfold PAGE_SIZE in *; lia|]).
    unfold as_total, DUMBVM_STACKPAGES in Hfit'. cbn [as_pbase1 as_pbase2 as_stackpbase prepared_as with_pbases].
    assert (Hb : forall q k, q = 0 \/ is_page q /\ 0 < q /\ q + k * PAGE_SIZE <= first -> k * PAGE_SIZE <= 2 ^ 29 -> 0 <= q /\ q + k * PAGE_SIZE <= 2 ^ 29) by (intros; lia).
    destruct (Hb _ _ P1) as [? ?]; [unfold PAGE_SIZE in *; lia|]. destruct (Hb _ _ P2) as [? ?]; [unfold PAGE_SIZE in *; lia|].
    destruct (Hb _ _ P3) as [? ?]; [unfold DUMBVM_STACKPAGES, PAGE_SIZE; lia|].
    apply wp_bind, wp_memmove_block; [unfold PAGE_SIZE in *; lia..|]. apply wp_bind, wp_memmove_block; [unfold PAGE_SIZE in *; lia..|].
    apply wp_bind. change (DUMBVM_STACKPAGES * PAGE_SIZE) with (u32 (DUMBVM_STACKPAGES * PAGE_SIZE)).
    apply wp_memmove_block; [unfold DUMBVM_STACKPAGES, PAGE_SIZE in *; lia..|]. apply wp_ret.
    split_and!; [done | exact Hfit | by do 3 apply vm_inv_phys|]. eexists. split; [by apply copied_moves|].
    unfold take_memory, set_phys, set_spaces, set_ram, s2. cbn. by rewrite insert_insert_eq.
  - intros e s3 (-> & Hnf & I3 & p1 & p2 & first' & ->). apply wp_ret. cbn [Z.eqb negb ENOMEM].
    apply wp_bind. unfold as_destroy. apply wp_bind, wp_can_sleep; [done..|].
    apply wp_bind, (wp_get_as n (with_pbases o p1 p2 0)); [apply lookup_insert_eq|]. apply wp_modify, wp_throw.
    split_and!; [done | | right; done |].
    + apply vm_inv_destroy; [done|]. intros p Hp. destruct (vi_procs B s I p n Hp) as [y Hy]. congruence.
    + exists (Ram first' (lastpaddr (vm_ram s))). unfold take_memory, set_phys, set_spaces, set_ram, s2. cbn. f_equal.
      rewrite insert_insert_eq. by apply delete_insert_id.
Qed.
