(* ===== verification/AddrSpaceSpec.v ===== *)
(** * What address spaces promise

    The abstract view of an address space is the memory a process sees: a
    partial function from user addresses to bytes ([user_byte]).  Every state
    the virtual memory can reach keeps the memories of the processes apart,
    the TLB shows each process its own memory and no other, and [as_copy]
    gives a new address space the same memory. *)

From S2P Require Import Prelude CopyInOut KPages AddrSpace AddrSpaceInv AddrSpaceOps.

(** The byte of address space [a] at the user address [va]. *)
Definition user_byte (s : vm) (a va : Z) : option Z :=
  x ← spaces s !! a; phys s <$> as_paddr x va.

(** ** The region of an address *)

Definition as_region (x : addrspace) (hi : Z) : option region :=
  if (as_vbase1 x <=? hi) && (hi <? u32 (as_vbase1 x + as_npages1 x * PAGE_SIZE)) then Some Region1
  else if (as_vbase2 x <=? hi) && (hi <? u32 (as_vbase2 x + as_npages2 x * PAGE_SIZE)) then Some Region2
  else if (USERSTACK - DUMBVM_STACKPAGES * PAGE_SIZE <=? hi) && (hi <? USERSTACK) then Some StackRegion
  else None.

Lemma as_frame_region x hi : as_frame x hi = (fun g => u32 (hi - vbase x g + pbase x g)) <$> as_region x hi.
Proof. unfold as_frame, as_region. by repeat case_match. Qed.

Lemma as_region_in first x hi g : regions_ok first x -> as_region x hi = Some g -> vbase x g <= hi < vbase x g + region_size x g.
Proof.
  intros Hok H. assert (Hw : forall z, 0 <= z -> u32 z <= z) by (intros; apply Z.mod_le; lia).
  pose proof (Hok Region1) as [[V1 _] N1 _]. pose proof (Hok Region2) as [[V2 _] N2 _]. cbn in V1, N1, V2, N2. unfold as_region in H.
  pose proof (Hw (as_vbase1 x + as_npages1 x * PAGE_SIZE) ltac:(unfold PAGE_SIZE; lia)).
  pose proof (Hw (as_vbase2 x + as_npages2 x * PAGE_SIZE) ltac:(unfold PAGE_SIZE; lia)).
  repeat case_match; simplify_eq; cbn; rewrite ?andb_true_iff, ?Z.leb_le, ?Z.ltb_lt in *; unfold USERSTACK in *; lia.
Qed.

(** The physical address in terms of the region. *)
Lemma as_paddr_region first x va :
  regions_ok first x -> first <= 2 ^ 29 -> (forall g, pbase x g <> 0) -> 0 <= va < 2 ^ 32 ->
  as_paddr x va = (fun g => pbase x g + (va - vbase x g)) <$> as_region x (page_of va).
Proof.
  intros Hok Hf Hne Hva. unfold as_paddr. rewrite as_frame_region. destruct (as_region x (page_of va)) as [g|] eqn:E; [|done]. cbn. f_equal.
  pose proof (as_region_in first x _ g Hok E) as Hr. rewrite page_of_eq in * by done.
  destruct (Hok g) as [[V _] _ [?|(_ & ? & ?)]]; [by destruct (Hne g)|]. pose proof (Z.mod_pos_bound va PAGE_SIZE ltac:(done)).
  rewrite wrap_small by lia. lia.
Qed.

(** Two addresses of an address space have different bytes behind them. *)
Lemma as_paddr_inj B s a x va va' pa :
  vm_inv B s -> spaces s !! a = Some x -> as_set_up x = true -> 0 <= va < 2 ^ 32 -> 0 <= va' < 2 ^ 32 ->
  as_paddr x va = Some pa -> as_paddr x va' = Some pa -> va = va'.
Proof.
  intros I Hx Hup Hva Hva' Hp Hp'. pose proof (vi_ok B s I a x Hx) as Hok. pose proof (ram_first _ (rr_wf _ _ (vi_ram B s I))) as Hf.
  destruct (as_paddr_Some _ x va pa Hok Hf Hup Hva Hp) as (g & Hg & Eg). destruct (as_paddr_Some _ x va' pa Hok Hf Hup Hva' Hp') as (h & Hh & Eh).
  destruct (decide (g = h)) as [->|Hne]; [lia|]. pose proof (set_up_pbase x Hup) as Hnz.
  destruct (vi_apart B s I a x g a x h Hx Hx ltac:(congruence) (Hnz g) (Hnz h)); lia.
Qed.

(** ** Sequences of operations *)

(** The address space of a process that goes away. *)
Definition proc_release_as (p : Z) : M vm unit :=
  s <- get ;;
  as_ <- (if bool_decide (curproc s = Some p) then o <- proc_setas None ;; as_deactivate ;; ret o
          else o <- oob (procs s !! p) ;; put (set_procs (<[p := None]> (procs s)) s) ;; ret o) ;;
  match as_ with
  | None => ret tt
  | Some a => as_destroy a
  end.

(** One operation.  The kernel keeps the blocks [B] of its own; a request
    below 2 GB and a region defined before memory is taken are what
    [ram_stealmem] and [load_elf] rely on. *)
Inductive vm_step : gmap Z Z * vm -> gmap Z Z * vm -> Prop :=
| step_alloc_kpages B s n va s' : 1 <= n < 2 ^ 19 ->
    on_ram (dumbvm_alloc_kpages (c_spinlocks s) n) s = Ret va s' -> vm_step (B, s) (if va =? 0 then B else <[va := n]> B, s')
| step_free_kpages B s va : vm_step (B, s) (delete va B, s)
| step_create B s new s' : (forall a, new = Some a -> spaces s !! a = None) ->
    final (as_create new s) = Some s' -> vm_step (B, s) (B, s')
| step_define B s a x vaddr sz s' : spaces s !! a = Some x -> unprepared x ->
    0 <= vaddr < 2 ^ 32 -> 0 <= sz -> sz + PAGE_SIZE + PAGE_SIZE <= 2 ^ 31 ->
    final (as_define_region a vaddr sz s) = Some s' -> vm_step (B, s) (B, s')
| step_prepare B s a s' : final (as_prepare_load a s) = Some s' -> vm_step (B, s) (B, s')
| step_copy B s old o new s' : spaces s !! old = Some o -> (forall a, new = Some a -> spaces s !! a = None) ->
    final (as_copy old new s) = Some s' -> vm_step (B, s) (B, s')
| step_new_proc B s p : procs s !! p = None -> vm_step (B, s) (B, set_procs (<[p := None]> (procs s)) s)
| step_exec B s p a s' : curproc s = Some p -> procs s !! p = Some None -> (forall q, procs s !! q <> Some (Some a)) -> is_Some (spaces s !! a) ->
    final ((proc_setas (Some a) ;; as_activate) s) = Some s' -> vm_step (B, s) (B, s')
| step_switch B s p s' : (forall q, p = Some q -> is_Some (procs s !! q)) ->
    final (switch_proc p s) = Some s' -> vm_step (B, s) (B, s')
| step_release B s p s' :
    final (proc_release_as p s) = Some s' -> vm_step (B, s) (B, s')
| step_load B s a va s' : current_as s = Some a -> 0 <= va < USERSPACETOP ->
    final (user_load va s) = Some s' -> vm_step (B, s) (B, s')
| step_store B s a va b s' : current_as s = Some a -> 0 <= va < USERSPACETOP ->
    final (user_store va b s) = Some s' -> vm_step (B, s) (B, s').

(** ** The invariant is kept *)

Lemma vm_inv_flush B s : vm_inv B s -> vm_inv B (set_tlb tlb_empty s).
Proof. intros I. apply vm_inv_tlb; [done | apply tlb_empty_wf | intros; apply tlb_empty_agrees]. Qed.

Lemma wlp_access B s a w va :
  vm_inv B s -> current_as s = Some a -> 0 <= va < USERSPACETOP ->
  wlp (user_access w va) (fun _ s' => vm_inv B s') (fun _ s' => vm_inv B s') s.
Proof.
  intros I Hc Hva. destruct (current_as_space B s a I Hc) as [x Hx]. destruct (as_set_up x) eqn:Hup.
  - apply wp_wlp. eapply wp_mono; [by apply (wp_user_access B s a x)| |].
    + intros pa s' (_ & [-> W A _]). apply vm_inv_tlb; [done..|]. intros b y Hb Hy. by simplify_eq.
    + by intros e s' (_ & -> & _).
  - unfold user_access. cbn [run_access]. apply wlp_bind, wlp_gets. pose proof (find_tlb _ va (vi_tlb B s I) Hva) as Hf.
    destruct (find (tlb_hit va) (tlb s)) as [e|].
    + destruct Hf as (He & Hv & _). destruct (vi_agrees B s I a x Hc Hx e He Hv). congruence.
    + apply wlp_bind. unfold vm_fault, proc_getas. destruct w; cbn [Z.eqb VM_FAULT_WRITE VM_FAULT_READ VM_FAULT_READONLY negb orb];
      apply wlp_bind, wlp_get; destruct (curproc s) eqn:Ep; try (by apply wlp_throw);
      apply wlp_bind, wlp_bind, wlp_get; rewrite Ep; apply wlp_oob; intros o Ho;
      unfold current_as in Hc; rewrite Ep, Ho in Hc; cbn in Hc; subst o;
      apply wlp_bind, wlp_bind, wlp_get; apply wlp_oob; intros y Hy; simplify_eq; apply wlp_bind, wlp_kassert; congruence.
Qed.

Lemma vm_inv_alloc_kpages B s n :
  vm_inv B s -> 1 <= n < 2 ^ 19 ->
  wlp (on_ram (dumbvm_alloc_kpages (c_spinlocks s) n))
    (fun va s' => vm_inv (if va =? 0 then B else <[va := n]> B) s') (fun _ _ => False) s.
Proof.
  intros I Hn. unfold on_ram. apply wlp_zoom. pose proof (vi_ram B s I) as R. destruct (rr_wf _ _ R) as [W1 W2 W3 W4].
  unfold dumbvm_alloc_kpages. apply wlp_bind, wlp_kassert. intros _. apply wlp_bind. unfold wlp at 1, getppages. rewrite ram_stealmem_run by (done || lia).
  destruct (Z.ltb_spec (lastpaddr (vm_ram s)) (firstpaddr (vm_ram s) + n * PAGE_SIZE)) as [Hl|Hl].
  { apply wlp_ret. cbn. by destruct s. }
  destruct (Z.eqb_spec (firstpaddr (vm_ram s)) 0); [lia|]. apply wlp_ret. rewrite kvaddr_eq by lia.
  destruct (ram_rep_alloc _ B n R Hn Hl) as [F R'].
  destruct (Z.eqb_spec (firstpaddr (vm_ram s) + MIPS_KSEG0) 0); [unfold MIPS_KSEG0 in *; lia|].
  destruct I as [I1 I2 I3 I4 I5 I6 I7 I8 I9]. split; cbn [vm_ram spaces tlb procs curproc set_ram firstpaddr]; try done.
  - intros a x Hx g. eapply region_ok_mono, (I2 a x Hx). unfold PAGE_SIZE. lia.
  - intros a x g b m Hx Hg [[<- <-]|[_ Hb]]%lookup_insert_Some; [|by eapply I4].
    pose proof (block_below _ _ _ (I2 a x Hx g) Hg). left. lia.
Qed.

Lemma vm_inv_free B s va : vm_inv B s -> vm_inv (delete va B) s.
Proof.
  intros []. split; try done; [by apply ram_rep_delete|]. intros a x g b m Hx Hg [_ Hb]%lookup_delete_Some. eauto.
Qed.

Lemma vm_inv_procs B s p o :
  vm_inv B s -> (forall a, o = Some a -> is_Some (spaces s !! a) /\ forall q, procs s !! q <> Some (Some a)) ->
  vm_inv B (set_tlb tlb_empty (set_procs (<[p := o]> (procs s)) s)) /\
  ((forall a, o <> Some a) -> vm_inv B (set_procs (<[p := o]> (procs s)) s)).
Proof.
  intros I Ho. pose proof (vi_cur B s I) as Hcur. split.
  - destruct I as [I1 I2 I3 I4 I5 I6 I7 I8 I9]. split; cbn [vm_ram spaces tlb procs curproc set_tlb set_procs]; try done.
    + apply tlb_empty_wf.
    + intros; apply tlb_empty_agrees.
    + intros q a [[<- ->]|[_ Hq]]%lookup_insert_Some; [by apply Ho | eauto].
    + intros q Hq. apply lookup_insert_is_Some'. auto.
    + intros q r a [[<- ->]|[? Hq]]%lookup_insert_Some [[<- Hr]|[? Hr]]%lookup_insert_Some; [done|..].
      * by destruct (Ho a eq_refl) as [_ Hno]; destruct (Hno r).
      * subst o. by destruct (Ho a eq_refl) as [_ Hno]; destruct (Hno q).
      * eauto.
  - intros Hnone. destruct I as [I1 I2 I3 I4 I5 I6 I7 I8 I9]. split; cbn [vm_ram spaces tlb procs curproc set_procs]; try done.
    + intros a x Hc. apply I6. unfold current_as in *. cbn in Hc. destruct (curproc s) as [q|]; [|done].
      destruct (decide (p = q)) as [->|]; [rewrite lookup_insert_eq in Hc; cbn in Hc; by destruct (Hnone a) | by rewrite lookup_insert_ne in Hc].
    + intros q a [[<- ->]|[_ Hq]]%lookup_insert_Some; [by destruct (Hnone a) | eauto].
    + intros q Hq. apply lookup_insert_is_Some'. auto.
    + intros q r a [[<- ->]|[? Hq]]%lookup_insert_Some [[<- Hr]|[? Hr]]%lookup_insert_Some; try done; [by destruct (Hnone a)| |eauto].
      subst o. by destruct (Hnone a).
Qed.

Lemma wp_as_activate s p o (Q : unit -> vm -> Prop) E :
  length (tlb s) = NUM_TLB -> curproc s = Some p -> procs s !! p = Some o ->
  Q tt (match o with None => s | Some _ => set_tlb tlb_empty s end) -> wp as_activate Q E s.
Proof.
  intros Hl Hp Ho HQ. unfold as_activate, proc_getas. apply wp_bind, wp_bind, wp_get. rewrite Hp. eapply wp_oob; [exact Ho|].
  destruct o; [by apply wp_tlb_flush | by apply wp_ret].
Qed.

Lemma vm_inv_exec B s p a :
  vm_inv B s -> curproc s = Some p -> (forall q, procs s !! q <> Some (Some a)) -> is_Some (spaces s !! a) ->
  wlp (proc_setas (Some a) ;; as_activate) (fun _ => vm_inv B) (fun _ => vm_inv B) s.
Proof.
  intros I Hp Hno Hx. unfold proc_setas. apply wlp_bind, wlp_bind, wlp_get. rewrite Hp. apply wlp_bind, wlp_oob. intros o Ho.
  apply wlp_bind, wlp_put, wlp_ret, wp_wlp. eapply (wp_as_activate _ p (Some a)); [apply (tw_len _ (vi_tlb B s I)) | done | apply lookup_insert_eq|].
  apply vm_inv_procs; [done|]. intros b [= <-]. done.
Qed.

Lemma vm_inv_switch B s p :
  vm_inv B s -> (forall q, p = Some q -> is_Some (procs s !! q)) -> wlp (switch_proc p) (fun _ => vm_inv B) (fun _ => vm_inv B) s.
Proof.
  intros I Hp. unfold switch_proc. apply wlp_bind, wlp_modify, wp_wlp.
  assert (Hn : current_as (set_curproc p s) = None -> vm_inv B (set_curproc p s)).
  { intros Hc. destruct I. split; try done. intros a x Ha. congruence. }
  destruct p as [p|]; [|unfold as_activate, proc_getas; apply wp_bind, wp_bind, wp_get, wp_ret, wp_ret; by apply Hn]. destruct (Hp p eq_refl) as [o Ho].
  eapply (wp_as_activate _ p o); [apply (tw_len _ (vi_tlb B s I)) | done | done|]. destruct o as [a|].
  - destruct I. split; try done; [apply tlb_empty_wf | intros; apply tlb_empty_agrees].
  - apply Hn. unfold current_as. cbn. by rewrite Ho.
Qed.

Lemma vm_inv_release B s p : vm_inv B s -> wlp (proc_release_as p) (fun _ => vm_inv B) (fun _ => vm_inv B) s.
Proof.
  intros I. unfold proc_release_as. apply wlp_bind, wlp_get.
  assert (Hlate : forall o, procs s !! p = Some o -> wlp (match o with None => ret tt | Some a => as_destroy a end)
    (fun _ => vm_inv B) (fun _ => vm_inv B) (set_procs (<[p := None]> (procs s)) s)).
  { intros o Ho. destruct (vm_inv_procs B s p None I ltac:(done)) as [_ I']. specialize (I' ltac:(done)).
    destruct o as [a|]; [|by apply wlp_ret]. unfold as_destroy, can_sleep, get_as. apply wlp_bind, wlp_bind, wlp_get.
    apply wlp_bind, wlp_kassert. intros _. apply wlp_kassert. intros _. apply wlp_bind, wlp_bind, wlp_get, wlp_oob. intros x Hx.
    apply wlp_modify, vm_inv_destroy; [done|]. cbn. intros q [[_ ?]|[Hne Hq]]%lookup_insert_Some; [done|].
    apply Hne. by apply (vi_owner B s I p q a). }
  apply wlp_bind. case_bool_decide as Hc.
  - unfold proc_setas. apply wlp_bind, wlp_bind, wlp_get. rewrite Hc. apply wlp_bind, wlp_oob. intros o Ho.
    apply wlp_bind, wlp_put, wlp_ret. apply wlp_bind, wlp_ret, wlp_ret. by apply Hlate.
  - apply wlp_bind, wlp_oob. intros o Ho. apply wlp_bind, wlp_put, wlp_ret. by apply Hlate.
Qed.

(** A function of [dumbvm.c] that gets past its assertions. *)
Lemma vm_inv_prepare B s a : vm_inv B s -> wlp (as_prepare_load a) (fun _ => vm_inv B) (fun _ => vm_inv B) s.
Proof.
  intros I. destruct (spaces s !! a) as [x|] eqn:Hx.
  2:{ unfold as_prepare_load, get_as. apply wlp_bind, wlp_bind, wlp_get, wlp_oob. intros y Hy. congruence. }
  destruct (decide (as_pbase1 x = 0 /\ as_pbase2 x = 0 /\ as_stackpbase x = 0 /\ c_spinlocks s = 0 /\ t_in_interrupt s = false)) as [(H1 & H2 & H3 & H4 & H5)|Hno].
  - apply wp_wlp. eapply wp_mono; [apply (wp_as_prepare_load B s a x); [done..|by intros []] | naive_solver..].
  - unfold as_prepare_load, get_as, can_sleep. apply wlp_bind, wlp_bind, wlp_get, wlp_oob. intros y [= <-]%(eq_trans (eq_sym Hx)).
    do 3 (apply wlp_bind, wlp_kassert; intros ?%Z.eqb_eq). apply wlp_bind, wlp_bind, wlp_get, wlp_bind, wlp_kassert. intros ?%Z.eqb_eq.
    apply wlp_kassert. intros ?%negb_true_iff. naive_solver.
Qed.

Lemma vm_inv_copy B s old o new :
  vm_inv B s -> spaces s !! old = Some o -> (forall a, new = Some a -> spaces s !! a = None) ->
  wlp (as_copy old new) (fun _ => vm_inv B) (fun _ => vm_inv B) s.
Proof.
  intros I Ho Hfresh. destruct (decide (c_spinlocks s = 0 /\ t_in_interrupt s = false)) as [[H1 H2]|Hno].
  - apply wp_wlp. eapply wp_mono; [by apply (wp_as_copy B s old o new) | naive_solver..].
  - unfold as_copy, can_sleep. apply wlp_bind, wlp_bind, wlp_get, wlp_bind, wlp_kassert. intros ?%Z.eqb_eq.
    apply wlp_kassert. intros ?%negb_true_iff. naive_solver.
Qed.

Lemma vm_inv_define_region B s a x vaddr sz :
  vm_inv B s -> spaces s !! a = Some x -> unprepared x -> 0 <= vaddr < 2 ^ 32 -> 0 <= sz -> sz + PAGE_SIZE + PAGE_SIZE <= 2 ^ 31 ->
  wlp (as_define_region a vaddr sz) (fun _ => vm_inv B) (fun _ => vm_inv B) s.
Proof.
  intros I Hx Hu Hv Hz Hb. destruct (decide (c_spinlocks s = 0 /\ t_in_interrupt s = false)) as [[H1 H2]|Hno].
  - unfold wlp. rewrite (as_define_region_run s a x) by done. destruct (defined_region x vaddr sz) as [x'|] eqn:E; [|done].
    by apply (vm_inv_define B s a x vaddr sz).
  - unfold as_define_region, can_sleep. apply wlp_bind, wlp_bind, wlp_get, wlp_bind, wlp_kassert. intros ?%Z.eqb_eq.
    apply wlp_kassert. intros ?%negb_true_iff. naive_solver.
Qed.

Lemma vm_step_inv B s B' s' : vm_step (B, s) (B', s') -> vm_inv B s -> vm_inv B' s'.
Proof.
  intros Hst I. inversion Hst; subst; clear Hst; try (match goal with H : final _ = Some _ |- _ => eapply wlp_final; [|exact H] end).
  - match goal with H : on_ram _ _ = _ |- _ => rename H into Hrun end.
    eapply vm_inv_alloc_kpages in I as Hw; [|done]. unfold wlp in Hw. by rewrite Hrun in Hw.
  - by apply vm_inv_free.
  - eapply wp_wlp, wp_as_create; by eauto.
  - by eapply vm_inv_define_region.
  - by apply vm_inv_prepare.
  - by eapply vm_inv_copy.
  - by apply vm_inv_procs.
  - by eapply vm_inv_exec.
  - by apply vm_inv_switch.
  - by apply vm_inv_release.
  - unfold user_load. apply wlp_bind. eapply wlp_mono; [by eapply wlp_access| |done]. intros pa s1 I1. by apply wlp_gets.
  - unfold user_store. apply wlp_bind. eapply wlp_mono; [by eapply wlp_access| |done]. intros pa s1 I1. by apply wlp_modify, vm_inv_phys.
Qed.

Lemma vm_reachable_inv B s B' s' : rtc vm_step (B, s) (B', s') -> vm_inv B s -> vm_inv B' s'.
Proof.
  intros H. remember (B, s) as u eqn:Eu. remember (B', s') as v eqn:Ev. revert B s Eu. induction H as [u|u w v Hst _ IH]; intros B s ->.
  - by simplify_eq.
  - destruct w as [B1 s1]. intros I. apply (IH Ev B1 s1 eq_refl). by eapply vm_step_inv.
Qed.

(** ** Isolation *)

(** The physical address [pa] is in a run of pages of address space [y]. *)
Definition owns (y : addrspace) (pa : Z) : Prop := exists g, pbase y g <> 0 /\ pbase y g <= pa < pbase y g + region_size y g.

Lemma access_owned B s a x w va pa s' :
  vm_inv B s -> current_as s = Some a -> spaces s !! a = Some x -> as_set_up x = true -> 0 <= va < USERSPACETOP ->
  user_access w va s = Ret pa s' ->
  owns x pa /\ (forall b y, b <> a -> spaces s !! b = Some y -> ~ owns y pa) /\
  (forall k m, B !! k = Some m -> ~ (k <= pa + MIPS_KSEG0 < k + m * PAGE_SIZE)).
Proof.
  intros I Hc Hx Hup Hva Hrun. destruct (wp_run _ _ _ _ _ _ (wp_user_access B s a x w va I Hc Hx Hup Hva) Hrun) as [Hpa _].
  unfold USERSPACETOP in Hva. pose proof (ram_first _ (rr_wf _ _ (vi_ram B s I))) as Hf.
  destruct (as_paddr_Some _ x va pa (vi_ok B s I a x Hx) Hf Hup ltac:(lia) Hpa) as (g & Hr & ->). pose proof (set_up_pbase x Hup g) as Hg.
  split_and!.
  - exists g. split; [done | lia].
  - intros b y Hne Hy (h & Hh & Hin). destruct (vi_apart B s I a x g b y h Hx Hy ltac:(congruence) Hg Hh); lia.
  - intros k m Hk Hin. destruct (vi_kernel B s I a x g k m Hx Hg Hk); lia.
Qed.


(** ** The memory a process sees *)

Inductive uop := ULoad (va : Z) | UStore (va b : Z).

Definition uop_va (o : uop) : Z := match o with ULoad va | UStore va _ => va end.

(** A process's loads and stores, through the TLB. *)
Definition user_op (o : uop) : M vm (option Z) :=
  match o with
  | ULoad va => b <- user_load va ;; ret (Some b)
  | UStore va b => user_store va b ;; ret None
  end.

Fixpoint user_ops (l : list uop) : M vm (list (option Z)) :=
  match l with
  | [] => ret []
  | o :: l' => r <- user_op o ;; rs <- user_ops l' ;; ret (r :: rs)
  end.

(** The same on a memory that is a function. *)
Definition mem_op (m : Z -> option Z) (o : uop) : option Z * (Z -> option Z) :=
  match o with
  | ULoad va => (m va, m)
  | UStore va b => (None, fun v => if v =? va then Some b else m v)
  end.

Fixpoint mem_ops (m : Z -> option Z) (l : list uop) : list (option Z) * (Z -> option Z) :=
  match l with
  | [] => ([], m)
  | o :: l' => let '(r, m1) := mem_op m o in let '(rs, m2) := mem_ops m1 l' in (r :: rs, m2)
  end.

(** A memory operation of the process that has a page in [P] to go to. *)
Definition op_ok (x : addrspace) (P : gset Z) (o : uop) : Prop :=
  0 <= uop_va o < USERSPACETOP /\ is_Some (as_paddr x (uop_va o)) /\ page_of (uop_va o) ∈ P.

Lemma wp_access_room B s a x w va P (Q : Z -> vm -> Prop) E :
  vm_inv B s -> current_as s = Some a -> spaces s !! a = Some x -> as_set_up x = true ->
  0 <= va < USERSPACETOP -> is_Some (as_paddr x va) -> page_of va ∈ P -> (size P <= NUM_TLB)%nat -> tlb_pages (tlb s) ⊆ P ->
  (forall pa s', as_paddr x va = Some pa -> s' = set_tlb (tlb s') s -> vm_inv B s' -> tlb_pages (tlb s') ⊆ P -> Q pa s') ->
  wp (user_access w va) Q E s.
Proof.
  intros I Hc Hx Hup Hva [pa Hpa] Hin HP Hsub HQ. eapply wp_mono; [by apply (wp_user_access B s a x)| |].
  - intros pa' s' (Hpa' & [E1 W A HP']). apply HQ; [done..| |].
    + rewrite E1. apply vm_inv_tlb; [done..|]. intros b y Hb Hy. by simplify_eq.
    + rewrite HP'. set_solver.
  - intros e s' (_ & _ & [Hno|[Hno Hsz]]); [congruence|]. exfalso.
    assert (Hlt : (size ({[page_of va]} ∪ tlb_pages (tlb s)) <= size P)%nat) by (apply subseteq_size; set_solver).
    rewrite size_union, size_singleton in Hlt by set_solver. lia.
Qed.

(** The memories that [s] and [s'] show, but for the store of [b] at [va]. *)
Lemma user_byte_store B s a x va pa b :
  vm_inv B s -> spaces s !! a = Some x -> as_set_up x = true -> 0 <= va < USERSPACETOP -> as_paddr x va = Some pa ->
  let s' := set_phys (fun p => if p =? pa then b else phys s p) s in
  (forall v, 0 <= v < USERSPACETOP -> user_byte s' a v = if v =? va then Some b else user_byte s a v) /\
  (forall c y v, c <> a -> spaces s !! c = Some y -> as_set_up y = true -> 0 <= v < USERSPACETOP -> user_byte s' c v = user_byte s c v).
Proof.
  intros I Hx Hup Hva Hpa s'. pose proof (ram_first _ (rr_wf _ _ (vi_ram B s I))) as Hf. unfold USERSPACETOP in *. split.
  - intros v Hv. unfold user_byte. cbn. rewrite Hx. cbn. destruct (Z.eqb_spec v va) as [->|Hne]; [rewrite Hpa; cbn; by rewrite Z.eqb_refl|].
    destruct (as_paddr x v) as [q|] eqn:Eq; [|done]. cbn. destruct (Z.eqb_spec q pa) as [->|]; [|done].
    destruct Hne. apply (as_paddr_inj B s a x v va pa); (done || lia).
  - intros c y v Hne Hy Hup' Hv. unfold user_byte. cbn. rewrite Hy. cbn. destruct (as_paddr y v) as [q|] eqn:Eq; [|done]. cbn.
    destruct (Z.eqb_spec q pa) as [->|]; [|done]. exfalso.
    destruct (as_paddr_Some _ x va pa (vi_ok B s I a x Hx) Hf Hup ltac:(lia) Hpa) as (g & Hg & Eg).
    destruct (as_paddr_Some _ y v pa (vi_ok B s I c y Hy) Hf Hup' ltac:(lia) Eq) as (h & Hh & Eh).
    destruct (vi_apart B s I a x g c y h Hx Hy ltac:(congruence) (set_up_pbase x Hup g) (set_up_pbase y Hup' h)); lia.
Qed.

Lemma wp_user_ops B a x P l : forall s m,
  vm_inv B s -> current_as s = Some a -> spaces s !! a = Some x -> as_set_up x = true ->
  (size P <= NUM_TLB)%nat -> tlb_pages (tlb s) ⊆ P -> Forall (op_ok x P) l ->
  (forall va, 0 <= va < USERSPACETOP -> user_byte s a va = m va) ->
  wp (user_ops l) (fun rs s' => rs = (mem_ops m l).1 /\
      (forall va, 0 <= va < USERSPACETOP -> user_byte s' a va = (mem_ops m l).2 va) /\
      (forall c y va, c <> a -> spaces s !! c = Some y -> as_set_up y = true -> 0 <= va < USERSPACETOP -> user_byte s' c va = user_byte s c va))
    (fun _ _ => False) s.
Proof.
  induction l as [|o l IH]; intros s m I Hc Hx Hup HP Hsub Hl Hm; cbn [user_ops]; [by apply wp_ret|].
  apply Forall_cons in Hl as [(Hva & Hp & HoP) Hl]. apply wp_bind. cbn [mem_ops].
  destruct o as [va|va b]; cbn [user_op mem_op uop_va] in *.
  - apply wp_bind. unfold user_load. apply wp_bind, (wp_access_room B s a x false va P); try done. intros pa s1 Hpa E1 I1 Hsub1.
    apply wp_gets, wp_ret. apply wp_bind. rewrite E1 in *. cbn [tlb set_tlb phys] in *.
    eapply wp_use; [apply (IH _ m); try done; cbn; by apply Hm|]. intros rs s2 (-> & Hb & Hoth). apply wp_ret.
    destruct (mem_ops m l) as [rs m2] eqn:El. cbn [fst snd] in *. split_and!; [|done|done]. f_equal.
    rewrite <- Hm by done. unfold user_byte. rewrite Hx. cbn. by rewrite Hpa.
  - apply wp_bind. unfold user_store. apply wp_bind, (wp_access_room B s a x true va P); try done. intros pa s1 Hpa E1 I1 Hsub1.
    apply wp_modify, wp_ret. apply wp_bind. rewrite E1 in *. cbn [tlb set_tlb phys] in *.
    destruct (user_byte_store B (set_tlb (tlb s1) s) a x va pa b I1 Hx Hup Hva Hpa) as [Hst Hst'].
    eapply wp_use; [apply (IH _ (fun v => if v =? va then Some b else m v)); try done; [by apply vm_inv_phys|]|].
    { intros v Hv. rewrite Hst by done. destruct (v =? va); [done|]. by apply Hm. }
    intros rs s2 (-> & Hb & Hoth). apply wp_ret. destruct (mem_ops _ l) as [rs m2] eqn:El. cbn [fst snd] in *.
    split_and!; [done..|]. intros c y v Hne Hy Hupy Hv. rewrite (Hoth c y v) by done. by apply (Hst' c y).
Qed.

(** C17: From every state the virtual memory can reach, a process whose
    address space is activated and that then loads and stores at mapped
    addresses on no more than 64 different pages never faults fatally: each
    access goes through the TLB, filled by [vm_fault] page by page, and the
    values it loads are those of a memory of its own, an array of bytes
    indexed by user addresses; no other process's memory changes. *)
Theorem tlb_memory_refines B0 s0 B s a x l :
  vm_inv B0 s0 -> rtc vm_step (B0, s0) (B, s) ->
  current_as s = Some a -> spaces s !! a = Some x -> as_set_up x = true ->
  Forall (fun o => 0 <= uop_va o < USERSPACETOP /\ is_Some (as_paddr x (uop_va o))) l ->
  (size (list_to_set (C := gset Z) ((fun o => page_of (uop_va o)) <$> l)) <= NUM_TLB)%nat ->
  exists s', (as_activate ;; user_ops l) s = Ret (mem_ops (user_byte s a) l).1 s' /\
    (forall va, 0 <= va < USERSPACETOP -> user_byte s' a va = (mem_ops (user_byte s a) l).2 va) /\
    (forall c y va, c <> a -> spaces s !! c = Some y -> as_set_up y = true -> 0 <= va < USERSPACETOP ->
       user_byte s' c va = user_byte s c va).
Proof.
  intros I0 Hr Hc Hx Hup Hl Hsz. pose proof (vm_reachable_inv _ _ _ _ Hr I0) as I.
  set (P := list_to_set (C := gset Z) ((fun o => page_of (uop_va o)) <$> l)) in *.
  assert (Hw : wp (as_activate ;; user_ops l) (fun rs s' => rs = (mem_ops (user_byte s a) l).1 /\
    (forall va, 0 <= va < USERSPACETOP -> user_byte s' a va = (mem_ops (user_byte s a) l).2 va) /\
    (forall c y va, c <> a -> spaces s !! c = Some y -> as_set_up y = true -> 0 <= va < USERSPACETOP -> user_byte s' c va = user_byte s c va))
    (fun _ _ => False) s).
  { apply wp_bind. pose proof Hc as Hc'. unfold current_as in Hc'. destruct (curproc s) as [p|] eqn:Ep; [|done].
    destruct (procs s !! p) as [o|] eqn:Eo; [|done]. cbn in Hc'. subst o.
    eapply (wp_as_activate s p (Some a)); [apply (tw_len _ (vi_tlb B s I)) | done | done|].
    apply (wp_user_ops B a x P l (set_tlb tlb_empty s) (user_byte s a)); try done; [by apply vm_inv_flush|].
    apply Forall_forall. intros o Ho. rewrite Forall_forall in Hl. destruct (Hl o Ho) as [H1 H2]. split; [exact H1|]. split; [exact H2|].
    apply elem_of_list_to_set, list_elem_of_fmap. eauto. }
  destruct (wp_ret_inv _ _ _ Hw) as (rs & s' & E & -> & H1 & H2). eauto.
Qed.

(** ** Copies *)

Lemma prepared_set_up o first :
  regions_ok first o -> as_set_up o = true -> is_page first -> 0 < first -> first + as_total o <= 2 ^ 29 ->
  as_set_up (prepared_as o first) = true.
Proof.
  intros Hok Hup Hp Hpos Hle. pose proof (Hok Region1) as [_ N1 _]. pose proof (Hok Region2) as [_ N2 _]. cbn in N1, N2.
  unfold as_total, DUMBVM_STACKPAGES, PAGE_SIZE in Hle.
  assert (M1 : is_page (first + as_npages1 o * PAGE_SIZE)) by (apply page_add; [done | unfold PAGE_SIZE; lia]).
  assert (M2 : is_page (first + (as_npages1 o + as_npages2 o) * PAGE_SIZE)) by (apply page_add; [done | unfold PAGE_SIZE; lia]).
  unfold as_set_up in *. cbn. rewrite !andb_true_iff, !negb_true_iff, !Z.eqb_neq in *.
  rewrite !(proj2 (frame_aligned_spec _ ltac:(by destruct Hp))), !(proj2 (frame_aligned_spec _ ltac:(by destruct M1))),
    !(proj2 (frame_aligned_spec _ ltac:(by destruct M2))) by done.
  unfold PAGE_SIZE. split_and!; try tauto; lia.
Qed.

(** C18: In every state the virtual memory can reach, [as_copy] of an address
    space that is set up either fails with [ENOMEM], exactly when the
    allocator fails or the memory that is left is too small, and then every
    process still sees the memory it saw; or it returns a new address space
    that is set up, in which every user address holds the byte it holds in
    the old one, and all the others see what they saw. *)
Theorem as_copy_duplicates B0 s0 B s old o new :
  vm_inv B0 s0 -> rtc vm_step (B0, s0) (B, s) -> c_spinlocks s = 0 -> t_in_interrupt s = false ->
  spaces s !! old = Some o -> as_set_up o = true -> (forall a, new = Some a -> spaces s !! a = None) ->
  (exists n x s', as_copy old new s = Ret n s' /\ new = Some n /\ spaces s' !! n = Some x /\ as_set_up x = true /\ fits o s /\
     (forall va, 0 <= va < 2 ^ 32 -> user_byte s' n va = user_byte s old va) /\
     (forall c y va, spaces s !! c = Some y -> as_set_up y = true -> 0 <= va < 2 ^ 32 -> user_byte s' c va = user_byte s c va)) \/
  (exists s', as_copy old new s = Err ENOMEM s' /\ (new = None \/ ~ fits o s) /\ forall c va, user_byte s' c va = user_byte s c va).
Proof.
  intros I0 Hr Hs Hi Ho Hup Hfresh. pose proof (vm_reachable_inv _ _ _ _ Hr I0) as I.
  pose proof (wp_as_copy B s old o new I Hs Hi Ho Hfresh) as Hw. unfold wp in Hw.
  destruct (as_copy old new s) as [n s'|e s'| |] eqn:Ec; [left | right | done..].
  2:{ destruct Hw as (-> & _ & Hor & r & ->). by exists (set_ram r s). }
  destruct Hw as (-> & Hf & I' & ph & [Hout Hin] & ->). set (first := firstpaddr (vm_ram s)) in *.
  destruct (rr_wf _ _ (vi_ram B s I)) as [W1 W2 W3 W4]. fold first in W1, W2, W4. unfold fits in Hf. fold first in Hf.
  pose proof (vi_ok B s I old o Ho) as Hok.
  assert (Hup' : as_set_up (prepared_as o first) = true) by (apply prepared_set_up; [done | done | split; [lia | done] | lia | lia]).
  assert (Hx' : spaces (take_memory n (prepared_as o first) (first + as_total o) ph s) !! n = Some (prepared_as o first)) by apply lookup_insert_eq.
  exists n, (prepared_as o first), (take_memory n (prepared_as o first) (first + as_total o) ph s).
  split_and!; [done..| |].
  - intros va Hva. unfold user_byte. rewrite Hx', Ho. cbn [mbind option_bind].
    rewrite (as_paddr_region _ _ va (vi_ok _ _ I' n _ Hx')) by (cbn; (lia || by apply set_up_pbase || done)).
    rewrite (as_paddr_region _ _ va Hok) by (done || by apply set_up_pbase).
    change (as_region (prepared_as o first) (page_of va)) with (as_region o (page_of va)).
    destruct (as_region o (page_of va)) as [g|] eqn:Eg; [|done]. cbn [fmap option_fmap option_map phys take_memory set_phys]. f_equal.
    replace (vbase (prepared_as o first) g) with (vbase o g) by (by destruct g).
    apply Hin; [by apply set_up_pbase|]. pose proof (as_region_in _ _ _ _ Hok Eg) as Hreg. rewrite page_of_eq in Hreg by done.
    destruct (Hok g) as [[V1 V2] _ _]. unfold PAGE_SIZE in *. Z.to_euclidean_division_equations. lia.
  - intros c y va Hy Hupy Hva. assert (c <> n) by (intros ->; by rewrite (Hfresh n) in Hy). unfold user_byte. cbn [spaces take_memory set_phys set_spaces].
    rewrite lookup_insert_ne, Hy by done. cbn. destruct (as_paddr y va) as [pa|] eqn:Ep; [|done]. cbn. f_equal. apply Hout. left.
    destruct (as_paddr_Some _ y va pa (vi_ok B s I c y Hy) W4 Hupy Hva Ep) as (g & Hg & ->).
    pose proof (block_below _ _ _ (vi_ok B s I c y Hy g) (set_up_pbase y Hupy g)). fold first in H0. lia.
Qed.
