(* ===== verification/AddrSpaceDemo.v ===== *)
(** * A concrete address space

    A process on a machine of 4 MB gets an address space with a code and a
    data region; the operations are evaluated, and the theorems on address
    spaces are applied to the states they reach. *)

From S2P Require Import Prelude CopyInOut KPages AddrSpace AddrSpaceInv AddrSpaceOps AddrSpaceSpec.

(** Just booted: one process, no address space. *)
Definition boot_vm : vm :=
  Vm (Ram 0x30000 0x400000) (fun _ => 0) ∅ tlb_empty (Some 1) {[1 := None; 2 := None]} 0 false.

Lemma boot_procs p a : ({[1 := None; 2 := None]} : gmap Z (option Z)) !! p <> Some (Some a).
Proof. rewrite lookup_insert_Some, lookup_singleton_Some. naive_solver. Qed.

Lemma boot_vm_inv : vm_inv ∅ boot_vm.
Proof.
  split; try done.
  - apply tlb_empty_wf.
  - intros p a Hp. by destruct (boot_procs p a).
  - intros p [= <-]. eauto.
  - intros p q a Hp. by destruct (boot_procs p a).
Qed.

(** The state an operation leaves. *)
Definition after {A} (m : M vm A) (s : vm) : vm := default s (final (m s)).

Lemma after_final {A} (m : M vm A) s : bool_decide (is_Some (final (m s))) = true -> final (m s) = Some (after m s).
Proof. intros [s' E]%bool_decide_eq_true_1. unfold after. by rewrite E. Qed.

Definition vm1 : vm := after (as_create (Some 100)) boot_vm.
Definition vm2 : vm := after (as_define_region 100 0x400000 0x1800) vm1.
Definition vm3 : vm := after (as_define_region 100 0x10000010 0x20) vm2.
Definition vm4 : vm := after (as_prepare_load 100) vm3.
Definition demo_vm : vm := after (proc_setas (Some 100) ;; as_activate) vm4.

Definition demo_as : addrspace := AddrSpace 0x400000 0x30000 2 0x10000000 0x32000 1 0x33000.

Example demo_vm_as : spaces demo_vm !! 100 = Some demo_as /\ vm_ram demo_vm = Ram 0x45000 0x400000.
Proof. by vm_compute. Qed.

Lemma demo_reachable : rtc vm_step (∅, boot_vm) (∅, demo_vm).
Proof.
  apply rtc_l with (∅, vm1); [|apply rtc_l with (∅, vm2); [|apply rtc_l with (∅, vm3); [|apply rtc_l with (∅, vm4); [|apply rtc_once]]]].
  - apply (step_create _ _ (Some 100)); [by intros a [= <-]|]. apply after_final. by vm_compute.
  - eapply (step_define _ _ 100 (AddrSpace 0 0 0 0 0 0 0) 0x400000 0x1800); [by vm_compute | by intros [] | lia | lia | by vm_compute |].
    apply after_final. by vm_compute.
  - eapply (step_define _ _ 100 (AddrSpace 0x400000 0 2 0 0 0 0) 0x10000010 0x20); [by vm_compute | by intros [] | lia | lia | by vm_compute |].
    apply after_final. by vm_compute.
  - apply (step_prepare _ _ 100). apply after_final. by vm_compute.
  - apply (step_exec _ _ 1 100); [by vm_compute | by vm_compute | | eexists; by vm_compute |].
    + intros q. assert (E : procs vm4 = {[1 := None; 2 := None]}) by (by vm_compute). rewrite E. apply boot_procs.
    + unfold demo_vm; apply after_final. by vm_compute.
Qed.

(** The value an operation returns; the states hold all of memory, and are
    not computed. *)
Definition returns {A} (o : outcome vm A) : option A := match o with Ret a _ => Some a | _ => None end.

Lemma returns_Some {A} (o : outcome vm A) a : returns o = Some a -> exists s', o = Ret a s'.
Proof. destruct o; cbn; intros [= <-]. eauto. Qed.


(** A store and three loads on two pages. *)
Definition demo_ops : list uop := [UStore 0x400010 7; ULoad 0x400010; ULoad 0x400011; ULoad 0x7ffffffc].

Lemma tlb_memory_refines_witness :
  exists s', (as_activate ;; user_ops demo_ops) demo_vm = Ret [None; Some 7; Some 0; Some 0] s' /\ user_byte s' 100 0x400010 = Some 7.
Proof.
  destruct (tlb_memory_refines ∅ boot_vm ∅ demo_vm 100 demo_as demo_ops) as (s' & E & Hb & _).
  - apply boot_vm_inv.
  - apply demo_reachable.
  - by vm_compute.
  - by vm_compute.
  - by vm_compute.
  - unfold demo_ops. repeat (apply Forall_cons; split; [split; [cbn [uop_va]; unfold USERSPACETOP; lia | eexists; by vm_compute]|]). by apply Forall_nil.
  - apply Nat.leb_le. by vm_compute.
  - exists s'. split; [rewrite E; by vm_compute|]. rewrite Hb by (unfold USERSPACETOP; lia). by vm_compute.
Defined.

Lemma as_copy_duplicates_witness :
  exists s', as_copy 100 (Some 200) demo_vm = Ret 200 s' /\ user_byte s' 200 0x7fffff00 = user_byte demo_vm 100 0x7fffff00.
Proof.
  destruct (as_copy_duplicates ∅ boot_vm ∅ demo_vm 100 demo_as (Some 200)) as [(n & x & s' & E & Hn & _ & _ & _ & Hb & _)|(s' & E & _)].
  - apply boot_vm_inv.
  - apply demo_reachable.
  - by vm_compute.
  - by vm_compute.
  - by vm_compute.
  - by vm_compute.
  - intros a [= <-]. by vm_compute.
  - injection Hn as <-. exists s'. split; [exact E|]. apply Hb. lia.
  - exfalso. assert (E' : match as_copy 100 (Some 200) demo_vm with Err _ _ => true | _ => false end = false) by (by vm_compute). by rewrite E in E'.
Defined.

(** An executable with a single segment leaves the second region empty, and
    the first access of the process fails an assertion of [vm_fault]. *)
Example one_region_panics :
  let s := after (proc_setas (Some 100) ;; as_activate) (after (as_prepare_load 100) vm2) in
  (returns (as_prepare_load 100 vm2), match user_access false 0x400000 s with Panic => true | _ => false end) = (Some tt, true).
Proof. by vm_compute. Qed.
