(* ===== verification/LoadElf.v ===== *)
(** * Loading programs, [kern/syscall/loadelf.c] and [kern/syscall/runprogram.c]

    [load_elf] reads an executable through [VOP_READ] and lays its segments
    out in the current address space.  The state is the virtual memory of
    [AddrSpace] beside the file systems [V].  A transfer into user memory
    goes through the TLB byte by byte, in the order of the addresses: it can
    reach the bytes before the first one [vm_fault] refuses, and those the
    uio covers are the memory the file system's [uiomove] sees.  (A switch to
    another process in the meantime would empty the TLB and let the transfer
    reach more.) *)

From S2P Require Import Prelude CopyInOut Uio Vnode BigLock VfsList VfsPath SfsDisk KPages AddrSpace AddrSpaceInv.
From S2P Require Import AddrSpaceOps AddrSpaceSpec.

Definition ENOEXEC : Z := 13.

(** ** The ELF format, [kern/include/elf.h] *)

Record Elf_Ehdr := Ehdr {
  e_ident : list Z;
  e_type : Z;
  e_machine : Z;
  e_version : Z;
  e_entry : Z;
  e_phoff : Z;
  e_shoff : Z;
  e_flags : Z;
  e_ehsize : Z;
  e_phentsize : Z;
  e_phnum : Z;
  e_shentsize : Z;
  e_shnum : Z;
  e_shstrndx : Z
}.

Record Elf_Phdr := Phdr {
  p_type : Z;
  p_offset : Z;
  p_vaddr : Z;
  p_paddr : Z;
  p_filesz : Z;
  p_memsz : Z;
  p_flags : Z;
  p_align : Z
}.

Definition EHDR_SIZE : Z := 52.
Definition PHDR_SIZE : Z := 32.

(** The structures as they lie in the file and in memory. *)
Definition ehdr_of_bytes (b : list Z) : Elf_Ehdr :=
  Ehdr (slice 0 16 b) (be (slice 16 2 b)) (be (slice 18 2 b)) (be (slice 20 4 b)) (be (slice 24 4 b))
    (be (slice 28 4 b)) (be (slice 32 4 b)) (be (slice 36 4 b)) (be (slice 40 2 b)) (be (slice 42 2 b))
    (be (slice 44 2 b)) (be (slice 46 2 b)) (be (slice 48 2 b)) (be (slice 50 2 b)).

Definition phdr_of_bytes (b : list Z) : Elf_Phdr :=
  Phdr (be (slice 0 4 b)) (be (slice 4 4 b)) (be (slice 8 4 b)) (be (slice 12 4 b)) (be (slice 16 4 b))
    (be (slice 20 4 b)) (be (slice 24 4 b)) (be (slice 28 4 b)).

Definition PT_NULL : Z := 0.
Definition PT_LOAD : Z := 1.
Definition PT_PHDR : Z := 6.
Definition PT_MIPS_REGINFO : Z := 0x70000000.
Definition PF_X : Z := 1.

(** The identification (magic number, 32 bits, big-endian, version 1), the
    version, type and machine [load_elf] accepts. *)
Definition ehdr_accepted (eh : Elf_Ehdr) : bool :=
  bool_decide (take 7 (e_ident eh) = [0x7f; 69; 76; 70; 1; 2; 1]) &&
  (e_version eh =? 1) && (e_type eh =? 2) && (e_machine eh =? 8).

(** ** Transfers into user memory *)

(** The user addresses that can be written one after the other, with the
    physical addresses behind them, and the TLB afterwards. *)
Fixpoint reachable_prefix (vas : list Z) (s : vm) : list (Z * Z) * vm :=
  match vas with
  | [] => ([], s)
  | va :: vas' =>
      match user_access true va s with
      | Ret pa s1 => let '(l, s2) := reachable_prefix vas' s1 in ((va, pa) :: l, s2)
      | _ => ([], s)
      end
  end.

(** Their contents as the user memory of a uio, and back. *)
Definition reach_map (l : list (Z * Z)) (ph : Z -> Z) : gmap Z Z := list_to_map ((fun e => (e.1, ph e.2)) <$> l).

Definition write_back (l : list (Z * Z)) (m : gmap Z Z) (s : vm) : vm :=
  let pm : gmap Z Z := list_to_map ((fun e => (e.2, default 0 (m !! e.1))) <$> l) in
  set_phys (fun p => default (phys s p) (pm !! p)) s.

(** The access that stopped a transfer: it may have failed an assertion of
    [vm_fault]. *)
Definition stopped_by_panic (vas : list Z) (l : list (Z * Z)) (s : vm) : bool :=
  match vas !! length l with
  | Some va => match user_access true va s with Panic => true | _ => false end
  | None => false
  end.

Section load.
Context {V : Type} `{!VnodeOps V}.

Definition on_vm {A} (m : M vm A) : M (vm * V) A := zoom fst (fun s p => (s, p.2)) m.

(** [VOP_READ] into the user block of the uio [mk] makes of a memory. *)
Definition user_read (vn : Z) (vas : list Z) (mk : gmap Z Z -> uio) : M (vm * V) uio := fun p =>
  let '(s, w) := p in
  let '(l, s_all) := reachable_prefix vas s in
  let u := mk (reach_map l (phys s)) in
  match VOP_READ vn (u, w) with
  | Ret _ (u', w') =>
      let s1 := (reachable_prefix (take (Z.to_nat (uio_resid u - uio_resid u')) vas) s).2 in
      Ret u' (write_back l (uio_mem u') s1, w')
  | Err e (u', w') =>
      if (e =? EFAULT) && stopped_by_panic vas l s_all then Panic
      else Err e (write_back l (uio_mem u') s_all, w')
  | Panic => Panic
  | OutOfFuel => OutOfFuel
  end.

(** [VOP_READ] into a kernel object of [len] bytes: its bytes and the residue
    of the uio. *)
Definition kernel_read (vn len offset : Z) : M (vm * V) (list Z * Z) := fun p =>
  let '(s, w) := p in
  match VOP_READ vn (uio_kinit 0 (kmem (replicate (Z.to_nat len) 0)) len offset UIO_READ, w) with
  | Ret _ (u', w') =>
      match load_all (uio_mem u') (block 0 len) with
      | Some bytes => Ret (bytes, uio_resid u') (s, w')
      | None => Panic
      end
  | Err e (u', w') => Err e (s, w')
  | Panic => Panic
  | OutOfFuel => OutOfFuel
  end.

(** ** [loadelf.c] *)

Definition load_segment (as_ : Z) (vn offset vaddr memsize filesize : Z) (is_executable : bool) : M (vm * V) unit :=
  let filesize := if memsize <? filesize then memsize else filesize in
  u <- user_read vn (block vaddr memsize) (fun mem =>
         Uio [Iovec vaddr memsize] offset filesize (if is_executable then UIO_USERISPACE else UIO_USERSPACE)
           UIO_READ (Some as_) mem) ;;
  if negb (uio_resid u =? 0) then throw ENOEXEC else ret tt.

(** The header of segment [i]. *)
Definition read_phdr (vn : Z) (eh : Elf_Ehdr) (i : Z) : M (vm * V) Elf_Phdr :=
  let offset := u32 (e_phoff eh + i * e_phentsize eh) in
  let* (bytes, resid) := kernel_read vn PHDR_SIZE offset in
  if negb (resid =? 0) then throw ENOEXEC else ret (phdr_of_bytes bytes).

(** The [switch] on the type of a segment: skipped, loaded, or refused. *)
Definition for_segment (ph : Elf_Phdr) (load : M (vm * V) unit) : M (vm * V) unit :=
  if p_type ph =? PT_NULL then ret tt
  else if p_type ph =? PT_PHDR then ret tt
  else if p_type ph =? PT_MIPS_REGINFO then ret tt
  else if p_type ph =? PT_LOAD then load
  else throw ENOEXEC.

Definition load_elf (vn : Z) : M (vm * V) Z :=
  as_ <- on_vm proc_getas ;;
  let* (bytes, resid) := kernel_read vn EHDR_SIZE 0 in
  if negb (resid =? 0) then throw ENOEXEC
  else
    let eh := ehdr_of_bytes bytes in
    if negb (ehdr_accepted eh) then throw ENOEXEC
    else
      for_each 0 (Z.to_nat (e_phnum eh)) (fun i =>
        ph <- read_phdr vn eh i ;;
        for_segment ph (a <- oob as_ ;; on_vm (as_define_region a (p_vaddr ph) (p_memsz ph)))) ;;
      a <- oob as_ ;;
      on_vm (as_prepare_load a) ;;
      for_each 0 (Z.to_nat (e_phnum eh)) (fun i =>
        ph <- read_phdr vn eh i ;;
        for_segment ph (load_segment a vn (p_offset ph) (p_vaddr ph) (p_memsz ph) (p_filesz ph)
          (negb (Z.land (p_flags ph) PF_X =? 0)))) ;;
      on_vm (as_complete_load a) ;;
      ret (e_entry eh).

End load.

(** ** [runprogram.c] *)

Section runprogram.
Context {V : Type} `{!VnodeOps V}.

Definition on_mem {A} (m : M vm A) : M (vm * vfs V) A := zoom fst (fun s p => (s, p.2)) m.
Definition on_files {A} (m : M (vfs V) A) : M (vm * vfs V) A := zoom snd (fun w p => (p.1, w)) m.

(** [load_elf] beside the tables of the VFS layer. *)
Definition on_load {A} (m : M (vm * V) A) : M (vm * vfs V) A :=
  zoom (fun p => (p.1, vfs_below p.2)) (fun q p => (q.1, set_below q.2 p.2)) m.

(** [new] is the answer of [kmalloc] in [as_create].  The result is the
    user mode the process enters: its entry point and its stack pointer. *)
Definition runprogram (progname : list Z) (new : option Z) : M (vm * vfs V) (Z * Z) :=
  vn <- on_files (vfs_open progname O_RDONLY 0) ;;
  old <- on_mem proc_getas ;;
  KASSERT (bool_decide (old = None)) ;;
  as_ <- on_mem (as_create new) ;;
  match as_ with
  | None => on_files (vfs_close vn) ;; throw ENOMEM
  | Some a =>
      _ <- on_mem (proc_setas (Some a)) ;;
      on_mem as_activate ;;
      entrypoint <- catch (on_load (load_elf vn)) (fun result => on_files (vfs_close vn) ;; throw result) ;;
      on_files (vfs_close vn) ;;
      stackptr <- on_mem (as_define_stack a) ;;
      ret (entrypoint, stackptr)
  end.

End runprogram.
