(* ===== verification/LoadElfSpec.v ===== *)
(** * What loading a program promises

    [load_elf] of a well-formed executable leaves an address space in which
    every byte of a segment that is in the file holds the file's byte and
    every other one is zero, and refuses what is not an executable. *)

From S2P Require Import Prelude Bitmap CopyInOut Uio Vnode BigLock VfsList VfsPath Device Lhd Synch SfsDisk SfsCore SfsBmap.
From S2P Require Import SfsTrunc SfsIo SfsDir SfsInode SfsVnops SfsFsops SfsLock SfsFile SfsDemo KPages AddrSpace.
From S2P Require Import AddrSpaceInv AddrSpaceOps AddrSpaceSpec AddrSpaceDemo LoadElf.

(** ** Blocks of user memory *)

Lemma block_lookup p len i : 0 <= i < len -> block p len !! Z.to_nat i = Some (p + i).
Proof. intros H. unfold block. rewrite lookup_seqZ_lt by lia. f_equal. lia. Qed.

(** The memory after bytes have been stored in a block. *)
Lemma store_block_lookup p bytes m va :
  store_all (block p (Z.of_nat (length bytes))) bytes m !! va =
    if (p <=? va) && (va <? p + Z.of_nat (length bytes)) then bytes !! Z.to_nat (va - p) else m !! va.
Proof.
  destruct (Z.leb_spec p va), (Z.ltb_spec va (p + Z.of_nat (length bytes))); cbn [andb].
  2-4: apply store_all_lookup_ne; rewrite elem_of_block; lia.
  pose proof (load_store_all (block p (Z.of_nat (length bytes))) bytes m (block_NoDup _ _) ltac:(rewrite block_length; lia)) as Hl.
  unfold load_all in Hl. apply mapM_Some in Hl.
  pose proof (block_lookup p (Z.of_nat (length bytes)) (va - p) ltac:(lia)) as Hb. replace (p + (va - p)) with va in Hb by lia.
  destruct (Forall2_lookup_l _ _ _ _ _ Hl Hb) as (y & Hy & Hm). by rewrite Hy.
Qed.

(** ** Reaching user memory *)

Section reach.
Context (B : gmap Z Z) (a : Z) (x : addrspace) (P : gset Z).
Hypothesis Hup : as_set_up x = true.
Hypothesis HP : (size P <= NUM_TLB)%nat.

(** Memory the process can write, on pages in [P]. *)
Definition user_ok (va : Z) : Prop := 0 <= va < USERSPACETOP /\ is_Some (as_paddr x va) /\ page_of va ∈ P.

(** The address space is in use and its pages in the TLB are in [P]. *)
Record in_use (s : vm) : Prop := {
  iu_inv : vm_inv B s;
  iu_cur : current_as s = Some a;
  iu_as : spaces s !! a = Some x;
  iu_tlb : tlb_pages (tlb s) ⊆ P
}.

Definition paddr (va : Z) : Z := default 0 (as_paddr x va).

Lemma reach_all vas s :
  in_use s -> Forall user_ok vas ->
  exists t, reachable_prefix vas s = ((fun va => (va, paddr va)) <$> vas, set_tlb t s) /\ in_use (set_tlb t s).
Proof.
  revert s. induction vas as [|va vas IH]; intros s U Hok.
  - exists (tlb s). by destruct s.
  - apply Forall_cons in Hok as [(Hva & Hp & HPva) Hok]. destruct U as [I Hc Hx Ht].
    assert (Hw : wp (user_access true va) (fun pa s' => as_paddr x va = Some pa /\ s' = set_tlb (tlb s') s /\ vm_inv B s' /\ tlb_pages (tlb s') ⊆ P) (fun _ _ => False) s).
    { apply (wp_access_room B s a x true va P); auto. }
    destruct (wp_ret_inv _ _ _ Hw) as (pa & s1 & E & Hpa & E1 & I1 & Ht1).
    destruct (IH s1) as (t & Er & U2); [rewrite E1 in *; by split | done|].
    exists t. cbn [reachable_prefix]. rewrite E, Er. rewrite E1 in U2 |- *. split; [|done].
    cbn. unfold paddr at 2. rewrite Hpa. done.
Qed.

(** The user memory of a transfer. *)
Lemma reach_map_lookup vas ph va :
  NoDup vas -> reach_map ((fun v => (v, paddr v)) <$> vas) ph !! va = if bool_decide (va ∈ vas) then Some (ph (paddr va)) else None.
Proof.
  intros Hnd. unfold reach_map. rewrite <- list_fmap_compose. unfold compose. cbn.
  case_bool_decide as Hin.
  - apply elem_of_list_to_map_1; [by rewrite <- list_fmap_compose; unfold compose; cbn; rewrite list_fmap_id|].
    apply list_elem_of_fmap. eauto.
  - apply not_elem_of_list_to_map_1. rewrite <- list_fmap_compose. unfold compose. cbn. by rewrite list_fmap_id.
Qed.

(** What a process and the others see after a transfer. *)
Lemma write_back_bytes vas m s :
  in_use s -> NoDup vas -> Forall user_ok vas ->
  let s' := write_back ((fun v => (v, paddr v)) <$> vas) m s in
  (forall va, 0 <= va < USERSPACETOP ->
     user_byte s' a va = if bool_decide (va ∈ vas) then Some (default 0 (m !! va)) else user_byte s a va) /\
  (forall b y va, b <> a -> spaces s !! b = Some y -> as_set_up y = true -> 0 <= va < USERSPACETOP ->
     user_byte s' b va = user_byte s b va).
Proof.
  intros [I Hc Hx Ht] Hnd Hok s'. pose proof (ram_first _ (rr_wf _ _ (vi_ram B s I))) as Hf.
  set (pm := list_to_map ((fun e => (e.2, default 0 (m !! e.1))) <$> ((fun v => (v, paddr v)) <$> vas)) : gmap Z Z).
  assert (Hkeys : ((fun e : Z * Z => (e.2, default 0 (m !! e.1))) <$> ((fun v => (v, paddr v)) <$> vas)).*1 = paddr <$> vas).
  { rewrite <- !list_fmap_compose. by apply list_fmap_ext. }
  assert (Hpaddr : forall va, va ∈ vas -> 0 <= va < USERSPACETOP /\ as_paddr x va = Some (paddr va)).
  { intros va Hin. rewrite Forall_forall in Hok. destruct (Hok va Hin) as (? & [pa Hpa] & _). unfold paddr. by rewrite Hpa. }
  assert (Hinj : forall va va' pa, 0 <= va < USERSPACETOP -> 0 <= va' < USERSPACETOP -> as_paddr x va = Some pa -> as_paddr x va' = Some pa -> va = va').
  { intros va va' pa H1 H2. unfold USERSPACETOP in *. apply (as_paddr_inj B s a x va va' pa); (done || lia). }
  assert (Hnk : NoDup (paddr <$> vas)).
  { apply NoDup_fmap_2_strong; [|done]. intros v v' Hv Hv' E. destruct (Hpaddr v Hv), (Hpaddr v' Hv'). apply (Hinj v v' (paddr v)); congruence. }
  assert (Hs' : s' = set_phys (fun p => default (phys s p) (pm !! p)) s) by done.
  split.
  - intros va Hva. unfold user_byte. rewrite Hs'. cbn [spaces phys set_phys]. rewrite Hx. cbn [mbind option_bind].
    case_bool_decide as Hin.
    + destruct (Hpaddr va Hin) as [_ ->]. cbn. f_equal. unfold pm. rewrite (elem_of_list_to_map_1 _ (paddr va) (default 0 (m !! va))); [done | by rewrite Hkeys|].
      rewrite <- list_fmap_compose. apply list_elem_of_fmap. by exists va.
    + destruct (as_paddr x va) as [pa|] eqn:Ep; [|done]. cbn. f_equal. unfold pm. rewrite not_elem_of_list_to_map_1; [done|].
      rewrite Hkeys. intros (v & -> & Hv)%list_elem_of_fmap. destruct (Hpaddr v Hv). apply Hin. by rewrite (Hinj va v (paddr v)).
  - intros b y va Hne Hy Hupy Hva. unfold user_byte. rewrite Hs'. cbn [spaces phys set_phys]. rewrite Hy. cbn [mbind option_bind].
    destruct (as_paddr y va) as [pa|] eqn:Ep; [|done]. cbn. f_equal. unfold pm. rewrite not_elem_of_list_to_map_1; [done|].
    rewrite Hkeys. intros (v & -> & Hv)%list_elem_of_fmap. destruct (Hpaddr v Hv) as [Hv1 Hv2]. unfold USERSPACETOP in *.
    destruct (as_paddr_Some _ x v _ (vi_ok B s I a x Hx) Hf Hup ltac:(lia) Hv2) as (g & Hg & Eg).
    destruct (as_paddr_Some _ y va _ (vi_ok B s I b y Hy) Hf Hupy ltac:(lia) Ep) as (h & Hh & Eh).
    destruct (vi_apart B s I a x g b y h Hx Hy ltac:(congruence) (set_up_pbase x Hup g) (set_up_pbase y Hupy h)); lia.
Qed.

End reach.

(** ** Reading the file *)

Section segments.
Context {V : Type} `{!VnodeOps V} (a : Z) `{!FileVnodes (Some a) V}.
Implicit Types (s : vm) (w : V) (c : list Z).

Lemma wp_kernel_read vn c len off s w :
  vfile w vn c -> 0 <= off < 2 ^ 32 -> 0 < len < 2 ^ 31 ->
  wp (kernel_read vn len off) (fun r p => p.1 = s /\ vfile p.2 vn c /\
      (if off + len <=? Z.of_nat (length c) then r = (slice (Z.to_nat off) (Z.to_nat len) c, 0) else r.2 <> 0))
    (fun _ _ => False) (s, w).
Proof.
  intros Hc Hoff Hlen. set (mem := kmem (replicate (Z.to_nat len) 0)).
  assert (Hm : mapped mem (block 0 len)).
  { pose proof (kmem_mapped (replicate (Z.to_nat len) 0)) as H. by rewrite length_replicate, Z2Nat.id in H by lia. }
  assert (W : uio_wf (Some a) (uio_kinit 0 mem len off UIO_READ)) by (apply uio_kinit_wf; (done || lia)).
  pose proof (vop_read_spec w vn c _ Hc W eq_refl) as Hw. unfold wp in Hw |- *. unfold kernel_read. fold mem.
  destruct (VOP_READ vn (uio_kinit 0 mem len off UIO_READ, w)) as [[] [u' w']|e [u' w']| |]; try done.
  destruct Hw as (Hr & _ & Hmem & Hf). unfold read_count in *. cbn [uio_resid uio_offset uio_kinit uio_mem] in *.
  assert (Ea : uio_addrs (uio_kinit 0 mem len off UIO_READ) = block 0 len) by (unfold uio_addrs; cbn; by rewrite app_nil_r).
  rewrite Ea in Hmem. set (n := Z.max 0 (Z.min len (Z.of_nat (length c) - off))) in *.
  assert (Hm' : mapped (uio_mem u') (block 0 len)) by (rewrite Hmem; by apply mapped_store_all).
  destruct (mapped_load _ _ Hm') as [bytes Hb]. rewrite Hb. cbn [fst snd]. split_and!; [done..|].
  destruct (Z.leb_spec (off + len) (Z.of_nat (length c))); [|unfold n in *; lia].
  assert (En : n = len) by (unfold n; lia). rewrite En in *. f_equal; [|lia].
  rewrite take_ge in Hmem by (by rewrite block_length). rewrite Hmem in Hb.
  rewrite load_store_all in Hb; [by injection Hb | apply block_NoDup|]. rewrite block_length, slice_length; lia.
Qed.

(** The effect of loading the bytes of a segment that are in the file. *)
Definition loads c (off vaddr filesz : Z) (before after : Z -> option Z) : Prop :=
  forall va, 0 <= va < USERSPACETOP ->
    after va = if (vaddr <=? va) && (va <? vaddr + filesz) then c !! Z.to_nat (off + (va - vaddr)) else before va.

(** What the processes with other address spaces see is the same. *)
Definition others_same s s' : Prop :=
  forall b y va, b <> a -> spaces s !! b = Some y -> as_set_up y = true -> 0 <= va < USERSPACETOP -> user_byte s' b va = user_byte s b va.

Lemma wp_load_segment B x P vn c off vaddr memsz filesz ex s w :
  as_set_up x = true -> (size P <= NUM_TLB)%nat -> in_use B a x P s -> vfile w vn c ->
  0 <= off < 2 ^ 32 -> 0 <= filesz <= memsz -> off + filesz <= Z.of_nat (length c) ->
  0 <= vaddr -> vaddr + memsz <= USERSPACETOP -> Forall (user_ok x P) (block vaddr memsz) ->
  wp (load_segment a vn off vaddr memsz filesz ex)
    (fun _ p => in_use B a x P p.1 /\ vfile p.2 vn c /\ (exists ph t, p.1 = set_phys ph (set_tlb t s)) /\
       loads c off vaddr filesz (user_byte s a) (user_byte p.1 a) /\ others_same s p.1)
    (fun _ _ => False) (s, w).
Proof.
  intros Hup HP U Hc Hoff Hfs Hlen Hv Hve Hok. unfold load_segment. destruct (Z.ltb_spec memsz filesz); [lia|]. apply wp_bind.
  set (seg := if ex then UIO_USERISPACE else UIO_USERSPACE). set (vas := block vaddr memsz) in *.
  destruct (reach_all B a x P Hup HP vas s U Hok) as (t & Er & U1). unfold wp at 1, user_read. rewrite Er.
  set (l := (fun va => (va, paddr x va)) <$> vas). set (mem := reach_map l (phys s)).
  set (u := Uio [Iovec vaddr memsz] off filesz seg UIO_READ (Some a) mem).
  assert (Hml : forall va, mem !! va = if bool_decide (va ∈ vas) then Some (phys s (paddr x va)) else None).
  { intros va. apply reach_map_lookup. apply block_NoDup. }
  assert (Ea : uio_addrs u = vas) by (unfold uio_addrs; cbn; by rewrite app_nil_r).
  pose proof vfile_max_ok as Hmax. pose proof (vfile_length w vn c Hc) as Hcl. unfold USERSPACETOP in Hve.
  assert (Hseg : seg <> UIO_SYSSPACE) by (unfold seg; by destruct ex).
  assert (W : uio_wf (Some a) u).
  { split; rewrite ?Ea; cbn [uio_iov uio_segflg uio_resid uio_offset uio_mem uio_space u]; unfold vas; rewrite ?block_length; try lia.
    - constructor; [|done]. unfold iov_ok. cbn. rewrite decide_False by done. unfold USERSPACETOP. lia.
    - apply Forall_forall. intros va Hva. rewrite Hml, bool_decide_true by done. eauto.
    - by rewrite decide_False. }
  pose proof (vop_read_spec w vn c u Hc W eq_refl) as Hw. unfold wp in Hw.
  destruct (VOP_READ vn (u, w)) as [[] [u' w']|e [u' w']| |]; try done.
  destruct Hw as (Hr & _ & Hmem & Hf). rewrite Ea in Hmem. unfold read_count in *. cbn [uio_resid uio_offset u uio_mem] in Hr, Hmem.
  replace (Z.max 0 (Z.min filesz (Z.of_nat (length c) - off))) with filesz in * by lia.
  replace (uio_resid u') with 0 by lia. cbn [Z.eqb negb]. apply wp_ret. cbn [fst snd].
  destruct (reach_all B a x P Hup HP (take (Z.to_nat (uio_resid u - 0)) vas) s U) as (t2 & Er2 & U2); [by apply Forall_take|].
  rewrite Er2. cbn [snd]. destruct (write_back_bytes B a x P Hup HP vas (uio_mem u') (set_tlb t2 s) U2 (block_NoDup _ _) Hok) as [Hb Hoth].
  fold l in Hb, Hoth. split_and!; [| done | by eexists _, t2 | | done].
  { destruct U2 as [I2 C2 X2 T2]. split; [by apply vm_inv_phys | done..]. }
  intros va Hva. rewrite Hb by done. change (user_byte (set_tlb t2 s) a va) with (user_byte s a va).
  assert (Ein : bool_decide (va ∈ vas) = (vaddr <=? va) && (va <? vaddr + memsz)).
  { apply eq_bool_prop_intro. rewrite bool_decide_spec, andb_True. unfold vas. rewrite elem_of_block, !Is_true_true, Z.leb_le, Z.ltb_lt. lia. }
  rewrite Ein, Hmem. unfold vas. rewrite <- (Z2Nat.id filesz) at 1 by lia.
  assert (Et : take (Z.to_nat (Z.of_nat (Z.to_nat filesz))) (block vaddr memsz) = block vaddr (Z.of_nat (length (slice (Z.to_nat off) (Z.to_nat filesz) c)))).
  { rewrite Nat2Z.id, slice_length by lia. rewrite Z2Nat.id by lia. unfold block. replace memsz with (filesz + (memsz - filesz)) by lia.
    rewrite seqZ_app by lia. rewrite take_app_le by (rewrite length_seqZ; lia). rewrite take_ge; [done|]. rewrite length_seqZ. lia. }
  rewrite Et, store_block_lookup, slice_length by lia. rewrite Z2Nat.id by lia.
  destruct (Z.leb_spec vaddr va), (Z.ltb_spec va (vaddr + filesz)), (Z.ltb_spec va (vaddr + memsz)); cbn [andb] in *; try lia; try done.
  - rewrite lookup_slice by lia. replace (Z.to_nat off + Z.to_nat (va - vaddr))%nat with (Z.to_nat (off + (va - vaddr))) by lia.
    destruct (lookup_lt_is_Some_2 c (Z.to_nat (off + (va - vaddr)))) as [y ->]; [lia | done].
  - rewrite Hml, Ein. cbn. unfold user_byte. destruct U as [I _ Hx _]. rewrite Hx. cbn.
    assert (Hva' : va ∈ vas) by (unfold vas; rewrite elem_of_block; lia). rewrite Forall_forall in Hok. destruct (Hok va Hva') as (_ & [pa Hpa] & _).
    unfold paddr. by rewrite Hpa.
Qed.

(** ** Executables *)

Definition is_load (ph : Elf_Phdr) : Prop := p_type ph = PT_LOAD.
#[local] Instance is_load_dec ph : Decision (is_load ph).
Proof. unfold is_load. apply _. Defined.

Definition ehdr c : Elf_Ehdr := ehdr_of_bytes (slice 0 52 c).
Definition phdr_offset (eh : Elf_Ehdr) (i : Z) : Z := u32 (e_phoff eh + i * e_phentsize eh).
Definition phdrs c (eh : Elf_Ehdr) : list Elf_Phdr :=
  (fun i => phdr_of_bytes (slice (Z.to_nat (phdr_offset eh i)) 32 c)) <$> seqZ 0 (e_phnum eh).

(** A segment whose pages are user memory and whose bytes are in the file. *)
Record seg_ok c (ph : Elf_Phdr) : Prop := {
  so_vaddr : PAGE_SIZE <= p_vaddr ph;
  so_memsz : 0 < p_memsz ph;
  so_top : p_vaddr ph + p_memsz ph <= USERSPACETOP;
  so_filesz : 0 <= p_filesz ph <= p_memsz ph;
  so_offset : 0 <= p_offset ph < 2 ^ 32;
  so_file : p_offset ph + p_filesz ph <= Z.of_nat (length c)
}.

(** A file [load_elf] can load: its segments are [p1] and [p2]. *)
Record executable c (p1 p2 : Elf_Phdr) : Prop := {
  ex_header : EHDR_SIZE <= Z.of_nat (length c);
  ex_accepted : ehdr_accepted (ehdr c) = true;
  ex_phdrs : forall i, 0 <= i < e_phnum (ehdr c) -> phdr_offset (ehdr c) i + PHDR_SIZE <= Z.of_nat (length c);
  ex_types : Forall (fun ph => p_type ph ∈ [PT_NULL; PT_PHDR; PT_MIPS_REGINFO; PT_LOAD]) (phdrs c (ehdr c));
  ex_segs : filter is_load (phdrs c (ehdr c)) = [p1; p2];
  ex_seg1 : seg_ok c p1;
  ex_seg2 : seg_ok c p2
}.

(** The memory image of segments: the bytes in the file, a later segment
    over an earlier one, and zeros. *)
Definition image c (l : list Elf_Phdr) (va : Z) : Z :=
  foldl (fun b ph => if (p_vaddr ph <=? va) && (va <? p_vaddr ph + p_filesz ph)
                     then default 0 (c !! Z.to_nat (p_offset ph + (va - p_vaddr ph))) else b) 0 l.

Lemma wp_read_phdr vn c eh i s w :
  vfile w vn c -> phdr_offset eh i + PHDR_SIZE <= Z.of_nat (length c) ->
  wp (read_phdr vn eh i) (fun ph p => ph = phdr_of_bytes (slice (Z.to_nat (phdr_offset eh i)) 32 c) /\ p.1 = s /\ vfile p.2 vn c)
    (fun _ _ => False) (s, w).
Proof.
  intros Hc Hi. unfold read_phdr. fold (phdr_offset eh i). apply wp_bind.
  eapply wp_use; [apply (wp_kernel_read vn c); [done | apply wrap_bound; lia | unfold PHDR_SIZE; lia]|].
  intros r p (Hp & Hf & Hr). destruct (Z.leb_spec (phdr_offset eh i + PHDR_SIZE) (Z.of_nat (length c))); [|lia].
  subst r. cbn. by apply wp_ret.
Qed.

(** *** Segments and regions *)

Lemma two_segs {A} (l1 l2 : list A) y p1 p2 :
  l1 ++ y :: l2 = [p1; p2] -> (l1 = [] /\ y = p1 /\ l2 = [p2]) \/ (l1 = [p1] /\ y = p2 /\ l2 = []).
Proof. destruct l1 as [|z1 [|z2 [|z3 l1]]]; cbn; intros H; simplify_eq; auto. Qed.

Lemma filter_step {A} (Q : A -> Prop) `{!forall x, Decision (Q x)} (l : list A) j y :
  l !! j = Some y -> filter Q (take (S j) l) = filter Q (take j l) ++ filter Q [y] /\
    filter Q l = filter Q (take j l) ++ filter Q [y] ++ filter Q (drop (S j) l).
Proof.
  intros Hj. split; [by rewrite (take_S_r _ _ _ Hj), filter_app|].
  rewrite <- !filter_app. f_equal. rewrite <- (take_drop j l) at 1. f_equal. by apply drop_S.
Qed.

Definition as_empty : addrspace := AddrSpace 0 0 0 0 0 0 0.

(** The address space with the regions of some segments. *)
Definition as_of_segs (l : list Elf_Phdr) : addrspace :=
  foldl (fun x ph => default x (defined_region x (p_vaddr ph) (p_memsz ph))) as_empty l.

Definition as_two (p1 p2 : Elf_Phdr) : addrspace :=
  AddrSpace (page_of (p_vaddr p1)) 0 (region_npages (p_vaddr p1) (p_memsz p1))
    (page_of (p_vaddr p2)) 0 (region_npages (p_vaddr p2) (p_memsz p2)) 0.

(** The pages of a segment. *)
Lemma region_covers v m va :
  0 <= v -> 0 < m -> v + m <= USERSPACETOP -> v <= va < v + m ->
  page_of v <= page_of va < page_of v + region_npages v m * PAGE_SIZE /\
  page_of v + region_npages v m * PAGE_SIZE <= USERSPACETOP /\ 0 < region_npages v m.
Proof.
  intros Hv Hm Hve Hva. unfold USERSPACETOP in *. rewrite !page_of_eq by lia. unfold region_npages, PAGE_SIZE.
  Z.to_euclidean_division_equations. lia.
Qed.

Lemma page_of_nonzero v : PAGE_SIZE <= v < 2 ^ 32 -> page_of v <> 0.
Proof. intros H. rewrite page_of_eq by (unfold PAGE_SIZE in *; lia). unfold PAGE_SIZE in *. Z.to_euclidean_division_equations. lia. Qed.

Lemma seg_top c ph : seg_ok c ph -> PAGE_SIZE <= p_vaddr ph < 2 ^ 31 /\ p_memsz ph <= 2 ^ 31.
Proof. intros [H1 H2 H3 _ _ _]. unfold USERSPACETOP, PAGE_SIZE in *. lia. Qed.

Lemma defined_first c p1 : seg_ok c p1 ->
  as_of_segs [p1] = AddrSpace (page_of (p_vaddr p1)) 0 (region_npages (p_vaddr p1) (p_memsz p1)) 0 0 0 0.
Proof. done. Qed.

Lemma defined_second c p1 p2 : seg_ok c p1 -> defined_region (as_of_segs [p1]) (p_vaddr p2) (p_memsz p2) = Some (as_two p1 p2).
Proof.
  intros H1. rewrite (defined_first c) by done. unfold defined_region. cbn [as_vbase1 as_vbase2].
  pose proof (seg_top c p1 H1). rewrite (proj2 (Z.eqb_neq (page_of (p_vaddr p1)) 0)); [done|]. apply page_of_nonzero. lia.
Qed.

Lemma as_of_two c p1 p2 : seg_ok c p1 -> as_of_segs [p1; p2] = as_two p1 p2.
Proof. intros H1. unfold as_of_segs at 1. cbn [foldl]. change (default as_empty _) with (as_of_segs [p1]). by rewrite (defined_second c). Qed.

(** *** The first pass: regions *)

Lemma wp_for_segment ph (m : M (vm * V) unit) Q E p :
  p_type ph ∈ [PT_NULL; PT_PHDR; PT_MIPS_REGINFO; PT_LOAD] ->
  (is_load ph -> wp m Q E p) -> (~ is_load ph -> Q tt p) -> wp (for_segment ph m) Q E p.
Proof.
  intros Hty H1 H2. unfold for_segment, is_load in *.
  destruct (Z.eqb_spec (p_type ph) PT_NULL) as [Et|]; [apply wp_ret, H2; by rewrite Et|].
  destruct (Z.eqb_spec (p_type ph) PT_PHDR) as [Et|]; [apply wp_ret, H2; by rewrite Et|].
  destruct (Z.eqb_spec (p_type ph) PT_MIPS_REGINFO) as [Et|]; [apply wp_ret, H2; by rewrite Et|].
  destruct (Z.eqb_spec (p_type ph) PT_LOAD) as [Et|]; [by apply H1|]. exfalso. set_solver.
Qed.

(** A pass over the segments [p1] and [p2] of an executable: [Inv l] holds
    when the segments [l] have been treated. *)
Lemma wp_pass vn c p1 p2 (body : Elf_Phdr -> M (vm * V) unit) (Inv : list Elf_Phdr -> vm -> Prop) s w (Q : unit -> vm * V -> Prop) E :
  executable c p1 p2 -> vfile w vn c -> Inv [] s ->
  (forall s w, vfile w vn c -> Inv [] s -> wp (body p1) (fun _ p => Inv [p1] p.1 /\ vfile p.2 vn c) E (s, w)) ->
  (forall s w, vfile w vn c -> Inv [p1] s -> wp (body p2) (fun _ p => Inv [p1; p2] p.1 /\ vfile p.2 vn c) E (s, w)) ->
  (forall s w, vfile w vn c -> Inv [p1; p2] s -> Q tt (s, w)) ->
  wp (for_each 0 (Z.to_nat (e_phnum (ehdr c))) (fun i => ph <- read_phdr vn (ehdr c) i ;; for_segment ph (body ph))) Q E (s, w).
Proof.
  intros X Hc H0 Hb1 Hb2 HQ. set (phs := phdrs c (ehdr c)). set (eh := ehdr c) in *.
  apply (wp_for_each (fun j p => Inv (filter is_load (take (Z.to_nat j) phs)) p.1 /\ vfile p.2 vn c)); [by rewrite take_0| |].
  - intros j [s1 w1] Hj [HI Hf]. cbn [fst snd] in *. apply wp_bind.
    assert (Hj' : 0 <= j < e_phnum eh) by lia.
    eapply wp_use; [apply (wp_read_phdr vn c); [done | apply (ex_phdrs _ _ _ X); done]|].
    intros ph [s2 w2] (-> & Es & Hf2). cbn [fst snd] in Es, Hf2. subst s2. set (ph := phdr_of_bytes _).
    assert (Hph : phs !! Z.to_nat j = Some ph).
    { unfold phs, phdrs. rewrite list_lookup_fmap, lookup_seqZ_lt by lia. rewrite Z.add_0_l, Z2Nat.id by lia. done. }
    destruct (filter_step is_load phs (Z.to_nat j) ph Hph) as [Hs Hall]. replace (Z.to_nat (j + 1)) with (S (Z.to_nat j)) by lia.
    pose proof (ex_types _ _ _ X) as Hty. rewrite Forall_forall in Hty.
    apply wp_for_segment; [apply Hty; by eapply list_elem_of_lookup_2| |].
    + intros Hl. rewrite filter_cons_True, filter_nil in Hs, Hall by done. unfold phs, eh in Hall. rewrite (ex_segs _ _ _ X) in Hall. symmetry in Hall.
      rewrite Hs. change (filter is_load [] ) with (@nil Elf_Phdr).
      destruct (two_segs _ _ _ _ _ Hall) as [(E1 & E2 & _)|(E1 & E2 & _)]; fold eh phs in E1; rewrite E1 in HI |- *; rewrite E2; [by apply Hb1 | by apply Hb2].
    + intros Hl. rewrite Hs, filter_cons_False, filter_nil, app_nil_r by done. done.
  - intros [s1 w1] [HI Hf]. cbn [fst snd] in *. apply HQ; [done|].
    rewrite take_ge in HI; [unfold phs, eh in HI; by rewrite (ex_segs _ _ _ X) in HI|].
    unfold phs, phdrs. rewrite length_fmap, length_seqZ. lia.
Qed.

(** The state while the regions are defined. *)
Record defining B s0 (l : list Elf_Phdr) s : Prop := {
  df_state : s = set_spaces (<[a := as_of_segs l]> (spaces s0)) s0;
  df_inv : vm_inv B s;
  df_unprep : unprepared (as_of_segs l)
}.

Lemma wp_define B s0 l ph x' s w vn c (as_ : option Z) :
  c_spinlocks s0 = 0 -> t_in_interrupt s0 = false -> as_ = Some a ->
  vfile w vn c -> seg_ok c ph -> p_memsz ph + PAGE_SIZE + PAGE_SIZE <= 2 ^ 31 ->
  defined_region (as_of_segs l) (p_vaddr ph) (p_memsz ph) = Some x' -> as_of_segs (l ++ [ph]) = x' -> defining B s0 l s ->
  wp (a' <- oob as_ ;; on_vm (as_define_region a' (p_vaddr ph) (p_memsz ph))) (fun _ p => defining B s0 (l ++ [ph]) p.1 /\ vfile p.2 vn c)
    (fun _ _ => False) (s, w).
Proof.
  intros Hs Hi -> Hf Hok Hsz Hd Hl [-> I Hu]. apply wp_bind. eapply wp_oob; [done|]. unfold on_vm. apply wp_zoom. unfold wp.
  pose proof (seg_top c ph Hok) as [Hv Hm]. pose proof (so_memsz c ph Hok).
  assert (Hx : spaces (set_spaces (<[a := as_of_segs l]> (spaces s0)) s0) !! a = Some (as_of_segs l)) by apply lookup_insert_eq.
  assert (Hv' : 0 <= p_vaddr ph < 2 ^ 32) by (unfold PAGE_SIZE in *; lia). cbn [fst].
  rewrite (as_define_region_run _ a (as_of_segs l)) by (done || lia). rewrite Hd. cbn [fst snd]. split; [|done].
  destruct (vm_inv_define B _ a (as_of_segs l) (p_vaddr ph) (p_memsz ph) x' I Hx Hu Hv' ltac:(lia) Hsz Hd) as [Hu' I'].
  rewrite <- Hl in *. split; [|done|done]. unfold set_spaces. cbn. by rewrite insert_insert_eq.
Qed.

(** *** The second pass: contents *)

Record loading B x P c s0 (l : list Elf_Phdr) s : Prop := {
  ld_use : in_use B a x P s;
  ld_state : exists ph t, s = set_phys ph (set_tlb t s0);
  ld_image : forall va, 0 <= va < USERSPACETOP -> is_Some (as_paddr x va) -> user_byte s a va = Some (image c l va);
  ld_others : others_same s0 s
}.

Lemma wp_load B x P c s0 l ph s w vn :
  as_set_up x = true -> (size P <= NUM_TLB)%nat -> vfile w vn c -> seg_ok c ph ->
  Forall (user_ok x P) (block (p_vaddr ph) (p_memsz ph)) -> loading B x P c s0 l s ->
  wp (load_segment a vn (p_offset ph) (p_vaddr ph) (p_memsz ph) (p_filesz ph) (negb (Z.land (p_flags ph) PF_X =? 0)))
    (fun _ p => loading B x P c s0 (l ++ [ph]) p.1 /\ vfile p.2 vn c) (fun _ _ => False) (s, w).
Proof.
  intros Hup HP Hf [S1 S2 S3 S4 S5 S6] Hok [U (ph0 & t0 & ->) Himg Hoth].
  eapply wp_use; [apply (wp_load_segment B x P vn c); try done; unfold PAGE_SIZE in *; lia|].
  intros [] [s1 w1] (U1 & Hf1 & (ph1 & t1 & E1) & Hld & Hoth1). cbn [fst snd] in *. subst s1. split; [|done]. split; [done | by exists ph1, t1| |].
  - intros va Hva Hm. rewrite (Hld va Hva). unfold image. rewrite foldl_app. cbn [foldl].
    destruct ((p_vaddr ph <=? va) && (va <? p_vaddr ph + p_filesz ph)) eqn:E; [|by apply Himg].
    apply andb_true_iff in E as [E1%Z.leb_le E2%Z.ltb_lt].
    destruct (lookup_lt_is_Some_2 c (Z.to_nat (p_offset ph + (va - p_vaddr ph)))) as [y ->]; [lia | done].
  - intros b y va Hne Hy Hupy Hva. rewrite (Hoth1 b y va) by done. by apply (Hoth b y va).
Qed.

(** *** The pages of a program *)

Definition region_pages (ph : Elf_Phdr) : list Z :=
  (fun i => page_of (p_vaddr ph) + i * PAGE_SIZE) <$> seqZ 0 (region_npages (p_vaddr ph) (p_memsz ph)).

Definition program_pages (p1 p2 : Elf_Phdr) : gset Z := list_to_set (region_pages p1 ++ region_pages p2).

Lemma size_list_to_set_le (l : list Z) : (size (list_to_set l : gset Z) <= length l)%nat.
Proof.
  induction l as [|y l IH]; [done|]. cbn [list_to_set length]. rewrite size_union_alt, size_singleton.
  pose proof (subseteq_size ((list_to_set l : gset Z) ∖ {[y]}) (list_to_set l) ltac:(set_solver)). lia.
Qed.

Lemma program_pages_size p1 p2 :
  0 <= region_npages (p_vaddr p1) (p_memsz p1) -> 0 <= region_npages (p_vaddr p2) (p_memsz p2) ->
  region_npages (p_vaddr p1) (p_memsz p1) + region_npages (p_vaddr p2) (p_memsz p2) <= 64 ->
  (size (program_pages p1 p2) <= NUM_TLB)%nat.
Proof.
  intros H1 H2 Hle. etrans; [apply size_list_to_set_le|]. unfold region_pages, NUM_TLB.
  rewrite length_app, !length_fmap, !length_seqZ. lia.
Qed.

Lemma seg_page c ph va :
  seg_ok c ph -> p_vaddr ph <= va < p_vaddr ph + p_memsz ph -> page_of va ∈ region_pages ph.
Proof.
  intros H Hva. pose proof (seg_top c ph H) as [Hv _]. destruct H as [S1 S2 S3 _ _ _].
  destruct (region_covers (p_vaddr ph) (p_memsz ph) va) as (Hr & _ & _); [unfold PAGE_SIZE in *; lia | done..|].
  unfold USERSPACETOP in *. assert (H1 : is_page (page_of va)) by (apply page_of_is_page; unfold PAGE_SIZE in *; lia).
  assert (H2 : is_page (page_of (p_vaddr ph))) by (apply page_of_is_page; unfold PAGE_SIZE in *; lia).
  apply list_elem_of_fmap. exists ((page_of va - page_of (p_vaddr ph)) / PAGE_SIZE). destruct H1 as [_ H1], H2 as [_ H2].
  generalize dependent (page_of va). generalize dependent (page_of (p_vaddr ph)). intros q Hq z Hz Hz'. rewrite elem_of_seqZ. unfold PAGE_SIZE in *.
  split; Z.to_euclidean_division_equations; lia.
Qed.

(** The regions of both segments and the stack are mapped. *)
Lemma two_mapped c p1 p2 p3 p4 p5 va :
  seg_ok c p1 -> seg_ok c p2 -> 0 <= va ->
  (p_vaddr p1 <= va < p_vaddr p1 + p_memsz p1 \/ p_vaddr p2 <= va < p_vaddr p2 + p_memsz p2 \/
   USERSTACK - DUMBVM_STACKPAGES * PAGE_SIZE <= va < USERSTACK) ->
  is_Some (as_paddr (with_pbases (as_two p1 p2) p3 p4 p5) va).
Proof.
  intros H1 H2 Hpos Hva. unfold as_paddr. apply fmap_is_Some. rewrite as_frame_region. apply fmap_is_Some. unfold as_region.
  cbn [as_vbase1 as_npages1 as_vbase2 as_npages2 with_pbases as_two].
  assert (Hcov : forall p, seg_ok c p -> p_vaddr p <= va < p_vaddr p + p_memsz p ->
    (page_of (p_vaddr p) <=? page_of va) && (page_of va <? u32 (page_of (p_vaddr p) + region_npages (p_vaddr p) (p_memsz p) * PAGE_SIZE)) = true).
  { intros p Hp Hin. pose proof (seg_top c p Hp) as [Hv _]. destruct Hp as [S1 S2 S3 _ _ _].
    destruct (region_covers (p_vaddr p) (p_memsz p) va) as (Hr & Ht & Hn); [unfold PAGE_SIZE in *; lia | done..|].
    rewrite wrap_small; [by apply andb_true_iff; rewrite Z.leb_le, Z.ltb_lt|]. unfold USERSPACETOP in *.
    pose proof (page_of_is_page (p_vaddr p) ltac:(unfold PAGE_SIZE in *; lia)) as [? _]. unfold PAGE_SIZE in *. lia. }
  destruct Hva as [Hva|[Hva|Hva]].
  - rewrite (Hcov p1) by done. eauto.
  - rewrite (Hcov p2) by done. case_match; eauto.
  - assert (Hst : (USERSTACK - DUMBVM_STACKPAGES * PAGE_SIZE <=? page_of va) && (page_of va <? USERSTACK) = true).
    { unfold USERSTACK, USERSPACETOP, DUMBVM_STACKPAGES, PAGE_SIZE in *. rewrite page_of_eq by lia. apply andb_true_iff. rewrite Z.leb_le, Z.ltb_lt.
      unfold PAGE_SIZE. Z.to_euclidean_division_equations. lia. }
    rewrite Hst. repeat case_match; eauto.
Qed.

(** *** The whole program *)

Lemma npages_memsz v m : 0 <= m -> m <= region_npages v m * PAGE_SIZE.
Proof. intros H. unfold region_npages, PAGE_SIZE. Z.to_euclidean_division_equations. lia. Qed.

Lemma as_two_set_up c p1 p2 first :
  seg_ok c p1 -> seg_ok c p2 -> is_page first -> 0 < first -> first + as_total (as_two p1 p2) <= 2 ^ 29 ->
  as_set_up (prepared_as (as_two p1 p2) first) = true.
Proof.
  intros H1 H2 Hp Hpos Hle. pose proof (seg_top c p1 H1) as [V1 _]. pose proof (seg_top c p2 H2) as [V2 _].
  pose proof (so_memsz c p1 H1) as M1. pose proof (so_memsz c p2 H2) as M2.
  destruct (region_covers (p_vaddr p1) (p_memsz p1) (p_vaddr p1)) as (_ & _ & N1); [unfold PAGE_SIZE in *; lia | done | apply H1 | lia|].
  destruct (region_covers (p_vaddr p2) (p_memsz p2) (p_vaddr p2)) as (_ & _ & N2); [unfold PAGE_SIZE in *; lia | done | apply H2 | lia|].
  unfold as_total, DUMBVM_STACKPAGES in Hle. cbn in Hle. set (n1 := region_npages (p_vaddr p1) (p_memsz p1)) in *. set (n2 := region_npages (p_vaddr p2) (p_memsz p2)) in *.
  assert (P1 : is_page (first + n1 * PAGE_SIZE)) by (apply page_add; [done | unfold PAGE_SIZE in *; lia]).
  assert (P2 : is_page (first + (n1 + n2) * PAGE_SIZE)) by (apply page_add; [done | unfold PAGE_SIZE in *; lia]).
  assert (Q1 : is_page (page_of (p_vaddr p1))) by (apply page_of_is_page; unfold PAGE_SIZE in *; lia).
  assert (Q2 : is_page (page_of (p_vaddr p2))) by (apply page_of_is_page; unfold PAGE_SIZE in *; lia).
  assert (Hal : forall z, is_page z -> frame_aligned z = true) by (intros z Hz; apply frame_aligned_spec; [apply Hz | done]).
  unfold as_set_up. cbn [as_vbase1 as_pbase1 as_npages1 as_vbase2 as_pbase2 as_npages2 as_stackpbase prepared_as with_pbases as_two]. fold n1 n2.
  rewrite !Hal by done. rewrite !andb_true_iff, !negb_true_iff, !Z.eqb_neq. unfold PAGE_SIZE in *.
  split_and!; try done; try (apply page_of_nonzero; unfold PAGE_SIZE); lia.
Qed.

(** A prepared address space is zero everywhere, and the others are as they
    were. *)
Lemma prepared_bytes B s o ph :
  let first := firstpaddr (vm_ram s) in
  vm_inv B s -> spaces s !! a = Some o -> unprepared o -> fits o s -> as_set_up (prepared_as o first) = true ->
  (forall p, ph p = zero_block first (as_total o) (phys s) p) ->
  let s' := take_memory a (prepared_as o first) (first + as_total o) ph s in vm_inv B s' ->
  (forall va, 0 <= va < USERSPACETOP -> is_Some (as_paddr (prepared_as o first) va) -> user_byte s' a va = Some 0) /\ others_same s s'.
Proof.
  intros first I Ho Hu Hf Hup Hph s' I'. destruct (rr_wf _ _ (vi_ram B s I)) as [W1 W2 W3 W4]. fold first in W1, W2, W4. unfold fits in Hf. fold first in Hf.
  assert (Hx' : spaces s' !! a = Some (prepared_as o first)) by apply lookup_insert_eq. unfold USERSPACETOP. split.
  - intros va Hva [pa Hpa]. unfold user_byte. rewrite Hx'. cbn [mbind option_bind]. rewrite Hpa. cbn. f_equal. rewrite Hph. unfold zero_block.
    assert (Hf' : firstpaddr (vm_ram s') <= 2 ^ 29) by (cbn; lia).
    destruct (as_paddr_Some _ _ va pa (vi_ok B s' I' a _ Hx') Hf' Hup ltac:(lia) Hpa) as (g & Hg & ->).
    pose proof (vi_ok B s I a o Ho Region1) as [_ N1 _]. pose proof (vi_ok B s I a o Ho Region2) as [_ N2 _]. cbn in N1, N2.
    assert (Hin : first <= pbase (prepared_as o first) g + (va - vbase (prepared_as o first) g) < first + as_total o).
    { unfold as_total, DUMBVM_STACKPAGES. destruct g; cbn in *; unfold DUMBVM_STACKPAGES, PAGE_SIZE in *; lia. }
    rewrite (proj2 (Z.leb_le _ _)), (proj2 (Z.ltb_lt _ _)) by lia. done.
  - intros b y va Hne Hy Hupy Hva. unfold user_byte, s'. cbn [spaces take_memory set_phys set_spaces phys]. rewrite lookup_insert_ne, Hy by done.
    cbn [mbind option_bind]. destruct (as_paddr y va) as [pa|] eqn:Ep; [|done]. cbn. f_equal. rewrite Hph. unfold zero_block. unfold USERSPACETOP in Hva.
    destruct (as_paddr_Some _ y va pa (vi_ok B s I b y Hy) W4 Hupy ltac:(lia) Ep) as (g & Hg & ->).
    pose proof (block_below _ _ _ (vi_ok B s I b y Hy g) (set_up_pbase y Hupy g)) as Hb. fold first in Hb.
    rewrite (proj2 (Z.leb_gt first _)) by lia. done.
Qed.

Lemma empty_no_pages B s : vm_inv B s -> current_as s = Some a -> spaces s !! a = Some as_empty -> tlb_pages (tlb s) = ∅.
Proof.
  intros I Hc Hx. apply set_eq. intros hi. rewrite elem_tlb_pages. split; [|set_solver].
  intros (e & He & Hv & _). destruct (vi_agrees B s I a _ Hc Hx e He Hv) as [Hup _]. done.
Qed.

Definition segs_fit_tlb (p1 p2 : Elf_Phdr) : Prop :=
  region_npages (p_vaddr p1) (p_memsz p1) + region_npages (p_vaddr p2) (p_memsz p2) <= 64.

Lemma program_user_ok c p1 p2 q1 q2 q3 p va :
  seg_ok c p1 -> seg_ok c p2 -> p ∈ [p1; p2] -> va ∈ block (p_vaddr p) (p_memsz p) ->
  user_ok (with_pbases (as_two p1 p2) q1 q2 q3) (program_pages p1 p2) va.
Proof.
  intros S1 S2 Hp Hq%elem_of_block. assert (Hsp : seg_ok c p) by (apply elem_of_cons in Hp as [->|Hp%list_elem_of_singleton]; by subst).
  pose proof (seg_top c p Hsp) as [? _]. pose proof (so_top c p Hsp). split_and!; [unfold PAGE_SIZE in *; lia | lia | |].
  - apply (two_mapped c); try done; [unfold PAGE_SIZE in *; lia|]. apply elem_of_cons in Hp as [->|Hp%list_elem_of_singleton]; [by left | subst; by right; left].
  - apply elem_of_list_to_set, elem_of_app. pose proof (seg_page c p va Hsp Hq). apply elem_of_cons in Hp as [->|Hp%list_elem_of_singleton]; [by left | subst; by right].
Qed.

(** The first pass defines both regions. *)
Lemma wp_define_pass B s w vn c p1 p2 (Q : unit -> vm * V -> Prop) :
  vm_inv B s -> c_spinlocks s = 0 -> t_in_interrupt s = false -> spaces s !! a = Some as_empty ->
  vfile w vn c -> executable c p1 p2 -> fits (as_two p1 p2) s ->
  (forall s1 w1, vfile w1 vn c -> defining B s [p1; p2] s1 -> Q tt (s1, w1)) ->
  wp (for_each 0 (Z.to_nat (e_phnum (ehdr c))) (fun i => ph <- read_phdr vn (ehdr c) i ;;
       for_segment ph (a' <- oob (Some a) ;; on_vm (as_define_region a' (p_vaddr ph) (p_memsz ph))))) Q (fun _ _ => False) (s, w).
Proof.
  intros I Hs Hi Hx Hf X Hfit HQ. pose proof (ex_seg1 _ _ _ X) as S1. pose proof (ex_seg2 _ _ _ X) as S2.
  destruct (rr_wf _ _ (vi_ram B s I)) as [_ W2 W3 _]. unfold fits, as_total, DUMBVM_STACKPAGES in Hfit. cbn in Hfit.
  pose proof (so_memsz _ _ S1) as M1. pose proof (so_memsz _ _ S2) as M2.
  pose proof (npages_memsz (p_vaddr p1) (p_memsz p1) ltac:(lia)) as K1. pose proof (npages_memsz (p_vaddr p2) (p_memsz p2) ltac:(lia)) as K2.
  apply (wp_pass vn c p1 p2 (fun ph => a' <- oob (Some a) ;; on_vm (as_define_region a' (p_vaddr ph) (p_memsz ph))) (defining B s)); [done..| | | |done].
  - split; [|done|by intros []]. unfold set_spaces. cbn. rewrite insert_id by done. by destruct s.
  - intros s2 w2 Hf2 D. eapply wp_use; [eapply (wp_define B s [] p1); try done; unfold PAGE_SIZE in *; lia|]. done.
  - intros s2 w2 Hf2 D. eapply wp_use; [eapply (wp_define B s [p1] p2 (as_two p1 p2)); try done;
      [unfold PAGE_SIZE in *; lia | by apply (defined_second c) | by apply (as_of_two c)]|]. done.
Qed.

(** The second one loads them. *)
Lemma wp_load_pass B s w vn c p1 p2 q1 q2 q3 (Q : unit -> vm * V -> Prop) :
  let x := with_pbases (as_two p1 p2) q1 q2 q3 in let P := program_pages p1 p2 in
  as_set_up x = true -> (size P <= NUM_TLB)%nat -> in_use B a x P s -> vfile w vn c -> executable c p1 p2 ->
  (forall va, 0 <= va < USERSPACETOP -> is_Some (as_paddr x va) -> user_byte s a va = Some 0) ->
  (forall s1 w1, vfile w1 vn c -> loading B x P c s [p1; p2] s1 -> Q tt (s1, w1)) ->
  wp (for_each 0 (Z.to_nat (e_phnum (ehdr c))) (fun i => ph <- read_phdr vn (ehdr c) i ;;
       for_segment ph (load_segment a vn (p_offset ph) (p_vaddr ph) (p_memsz ph) (p_filesz ph) (negb (Z.land (p_flags ph) PF_X =? 0)))))
    Q (fun _ _ => False) (s, w).
Proof.
  intros x P Hup HP U Hf X Hzero HQ. pose proof (ex_seg1 _ _ _ X) as S1. pose proof (ex_seg2 _ _ _ X) as S2.
  apply (wp_pass vn c p1 p2 (fun ph0 => load_segment a vn (p_offset ph0) (p_vaddr ph0) (p_memsz ph0) (p_filesz ph0)
    (negb (Z.land (p_flags ph0) PF_X =? 0))) (loading B x P c s)); [done..| | | |done].
  - split; [done | exists (phys s), (tlb s); by destruct s | by intros; apply Hzero | by intros ?].
  - intros s3 w3 Hf3 L. eapply wp_use; [eapply (wp_load B x P c s [] p1); try done; apply Forall_forall; intros q Hq; eapply program_user_ok; [done..| | done]; set_solver|]. done.
  - intros s3 w3 Hf3 L. eapply wp_use; [eapply (wp_load B x P c s [p1] p2); try done; apply Forall_forall; intros q Hq; eapply program_user_ok; [done..| | done]; set_solver|]. done.
Qed.

(** A byte of a segment or of the stack. *)
Definition in_program (p1 p2 : Elf_Phdr) (va : Z) : Prop :=
  p_vaddr p1 <= va < p_vaddr p1 + p_memsz p1 \/ p_vaddr p2 <= va < p_vaddr p2 + p_memsz p2 \/
  USERSTACK - DUMBVM_STACKPAGES * PAGE_SIZE <= va < USERSTACK.

Lemma in_program_user c p1 p2 va : seg_ok c p1 -> seg_ok c p2 -> in_program p1 p2 va -> 0 <= va < USERSPACETOP.
Proof.
  intros S1 S2 H. pose proof (seg_top c p1 S1). pose proof (seg_top c p2 S2). pose proof (so_top _ _ S1). pose proof (so_top _ _ S2).
  unfold in_program, USERSTACK, USERSPACETOP, DUMBVM_STACKPAGES, PAGE_SIZE in *. lia.
Qed.

(** What [load_elf] leaves. *)
Definition loaded B s c p1 p2 s' : Prop :=
  vm_inv B s' /\ current_as s' = Some a /\ (exists x, spaces s' !! a = Some x /\ as_set_up x = true) /\
  (forall va, in_program p1 p2 va -> user_byte s' a va = Some (image c [p1; p2] va)) /\ others_same s s'.

Lemma wp_load_elf B s w vn c p1 p2 :
  vm_inv B s -> c_spinlocks s = 0 -> t_in_interrupt s = false -> current_as s = Some a -> spaces s !! a = Some as_empty ->
  vfile w vn c -> executable c p1 p2 -> fits (as_two p1 p2) s -> segs_fit_tlb p1 p2 ->
  wp (load_elf vn) (fun r p => r = e_entry (ehdr c) /\ vfile p.2 vn c /\ loaded B s c p1 p2 p.1) (fun _ _ => False) (s, w).
Proof.
  intros I Hs Hi Hc Hx Hf X Hfit Htlb. pose proof (ex_seg1 _ _ _ X) as S1. pose proof (ex_seg2 _ _ _ X) as S2.
  destruct (rr_wf _ _ (vi_ram B s I)) as [W1 W2 W3 W4]. set (first := firstpaddr (vm_ram s)) in *.
  unfold load_elf. apply wp_bind. unfold on_vm at 1. apply wp_zoom, (wp_proc_getas B); [done|]. cbn [fst snd]. rewrite Hc.
  apply wp_bind. eapply wp_use; [apply (wp_kernel_read vn c); [done | lia | unfold EHDR_SIZE; lia]|].
  intros r [s1 w1] (Es & Hf1 & Hr). cbn [fst snd] in Es, Hf1. subst s1.
  destruct (Z.leb_spec (0 + EHDR_SIZE) (Z.of_nat (length c))) as [_|Hno]; [|pose proof (ex_header _ _ _ X); lia]. subst r. cbn [Z.eqb negb].
  change (ehdr_of_bytes _) with (ehdr c). rewrite (ex_accepted _ _ _ X). cbn [negb].
  apply wp_bind, (wp_define_pass B s w1 vn c p1 p2); [done..|]. intros s1 w2 Hf2 [Es1 I1 Hu]. rewrite (as_of_two c) in * by done.
  assert (Hx1 : spaces s1 !! a = Some (as_two p1 p2)) by (subst s1; apply lookup_insert_eq).
  assert (Hs1 : c_spinlocks s1 = 0 /\ t_in_interrupt s1 = false /\ firstpaddr (vm_ram s1) = first /\ fits (as_two p1 p2) s1) by (by subst s1).
  destruct Hs1 as (Hs1 & Hi1 & Ef & Hfit1).
  apply wp_bind. eapply wp_oob; [done|]. apply wp_bind. unfold on_vm at 1. apply wp_zoom.
  eapply wp_mono; [apply (wp_as_prepare_load B s1 a (as_two p1 p2)); done| |by intros e s2 (_ & Hnf & _)].
  intros [] s2 (_ & I2 & ph & Hph & Es2). rewrite Ef in Hph, Es2. set (x := prepared_as (as_two p1 p2) first) in *. cbn [fst snd].
  assert (Hup : as_set_up x = true) by (apply (as_two_set_up c); [done | done | by split; [lia|] | lia | unfold fits in Hfit; fold first in Hfit; lia]).
  destruct (prepared_bytes B s1 (as_two p1 p2) ph I1 Hx1 Hu Hfit1) as [Hzero Hoth]; [by rewrite Ef | by rewrite Ef | rewrite Ef; fold x; by rewrite <- Es2|].
  rewrite Ef in Hzero, Hoth. fold x in Hzero, Hoth. rewrite <- Es2 in Hzero, Hoth.
  assert (HP : (size (program_pages p1 p2) <= NUM_TLB)%nat).
  { pose proof (so_memsz _ _ S1). pose proof (so_memsz _ _ S2). pose proof (npages_memsz (p_vaddr p1) (p_memsz p1) ltac:(lia)).
    pose proof (npages_memsz (p_vaddr p2) (p_memsz p2) ltac:(lia)). apply program_pages_size; unfold PAGE_SIZE, segs_fit_tlb in *; lia. }
  assert (U : in_use B a x (program_pages p1 p2) s2).
  { split; [done | by subst s2 s1 | subst s2; apply lookup_insert_eq|]. subst s2 s1.
    change (tlb_pages (tlb s) ⊆ program_pages p1 p2). rewrite (empty_no_pages B s) by done. set_solver. }
  apply wp_bind, (wp_load_pass B s2 w2 vn c p1 p2 first (as_pbase2 x) (as_stackpbase x)); [done..|]. fold x.
  intros s3 w3 Hf3 [[I3 C3 X3 _] (ph3 & t3 & Es3) Himg Hoth3].
  apply wp_bind. unfold on_vm. apply wp_zoom. unfold as_complete_load. apply wp_can_sleep; [by subst s3 s2 | by subst s3 s2|]. apply wp_ret. cbn [fst snd].
  split_and!; [done..|]. split_and!; [done..| by exists x | |].
  - intros va Hva. pose proof (in_program_user c p1 p2 va S1 S2 Hva). apply Himg; [done|]. apply (two_mapped c); (done || lia).
  - intros b y va Hne Hy Hupy Hva. rewrite (Hoth3 b y va) by (try done; subst s2 s1; cbn; by rewrite !lookup_insert_ne).
    rewrite (Hoth b y va) by (try done; subst s1; cbn; by rewrite lookup_insert_ne). subst s1. unfold user_byte. cbn. by rewrite lookup_insert_ne.
Qed.



(** ** [runprogram] *)

(** A new process before its program is loaded. *)
Definition entered s p : vm :=
  set_tlb tlb_empty (set_procs (<[p := Some a]> (procs s)) (set_spaces (<[a := as_empty]> (spaces s)) s)).

Lemma entered_inv B s p : vm_inv B s -> spaces s !! a = None -> vm_inv B (entered s p).
Proof.
  intros I Hno. assert (Hp : forall q, procs s !! q <> Some (Some a)).
  { intros q Hq. destruct (vi_procs B s I q a Hq) as [y Hy]. congruence. }
  assert (I1 : vm_inv B (set_spaces (<[a := as_empty]> (spaces s)) s)).
  { apply vm_inv_put; [done | apply as_new_unprepared; by intros []|]. intros Hc.
    destruct (current_as_space B s a I Hc) as [y Hy]. congruence. }
  apply (vm_inv_procs B _ p (Some a) I1). intros b [= <-]. split; [|done]. cbn. rewrite lookup_insert_eq. eauto.
Qed.

(** [runprogram] of an executable starts the process at its entry point with
    the stack pointer at the top of user memory, in an address space that
    holds the program. *)
Theorem runprogram_starts B s (w w1 : vfs V) progname p vn c p1 p2 :
  vm_inv B s -> c_spinlocks s = 0 -> t_in_interrupt s = false ->
  curproc s = Some p -> procs s !! p = Some None -> spaces s !! a = None ->
  vfs_open progname O_RDONLY 0 w = Ret vn w1 -> vfile (vfs_below w1) vn c ->
  (forall v, vfile v vn c -> exists v', VOP_DECREF vn v = Ret tt v') ->
  executable c p1 p2 -> fits (as_two p1 p2) s -> segs_fit_tlb p1 p2 ->
  exists s' (w' : vfs V), runprogram progname (Some a) (s, w) = Ret (e_entry (ehdr c), USERSTACK) (s', w') /\
    loaded B (entered s p) c p1 p2 s'.
Proof.
  intros I Hs Hi Hp Hpp Hno Hopen Hf Hdec X Hfit Htlb.
  assert (Hc1 : current_as (entered s p) = Some a).
  { unfold current_as, entered. cbn. rewrite Hp. by rewrite lookup_insert_eq. }
  assert (Hx1 : spaces (entered s p) !! a = Some as_empty) by apply lookup_insert_eq.
  destruct (wp_ret_inv _ _ _ (wp_load_elf B (entered s p) (vfs_below w1) vn c p1 p2 (entered_inv B s p I Hno) Hs Hi Hc1 Hx1 Hf X Hfit Htlb))
    as (r & [s' v'] & Eload & -> & Hf' & L). cbn [fst snd] in Hf', L. destruct (Hdec v' Hf') as (v2 & Edec). pose proof L as (_ & _ & (x & Hx & Hup) & _ & _).
  exists s', (set_below v2 (set_below v' w1)). split; [|done].
  assert (Hw : wp (runprogram progname (Some a)) (fun r q => r = (e_entry (ehdr c), USERSTACK) /\ q = (s', set_below v2 (set_below v' w1))) (fun _ _ => False) (s, w)).
  { unfold runprogram. apply wp_bind. unfold on_files at 1. apply wp_zoom. unfold wp at 1. cbn [snd]. rewrite Hopen. cbn [fst].
    apply wp_bind. unfold on_mem at 1. apply wp_zoom, (wp_proc_getas B); [done|]. cbn [fst snd].
    apply wp_bind, wp_kassert; [apply bool_decide_eq_true_2; unfold current_as; by rewrite Hp, Hpp|].
    apply wp_bind. unfold on_mem at 1. apply wp_zoom. unfold as_create, put_as. apply wp_bind, wp_modify, wp_ret. cbn [fst snd].
    apply wp_bind. unfold on_mem at 1. apply wp_zoom. unfold proc_setas. apply wp_bind, wp_get. cbn [fst curproc set_spaces]. rewrite Hp.
    apply wp_bind. eapply wp_oob; [exact Hpp|]. apply wp_bind, wp_put, wp_ret. cbn [fst snd].
    apply wp_bind. unfold on_mem at 1. apply wp_zoom. eapply (wp_as_activate _ p (Some a)); [apply (tw_len _ (vi_tlb B s I)) | done | apply lookup_insert_eq|]. cbn [fst snd].
    change (set_tlb tlb_empty _) with (entered s p). apply wp_bind. unfold wp at 1, catch, on_load, zoom. cbn [fst snd]. rewrite Eload. cbn [fst snd].
    apply wp_bind. unfold on_files at 1. apply wp_zoom. unfold vfs_close, below. apply wp_zoom. unfold wp at 1. cbn [vfs_below set_below snd]. rewrite Edec. cbn [fst snd].
    apply wp_bind. unfold on_mem at 1. apply wp_zoom. unfold as_define_stack. apply wp_bind. cbn [fst]. eapply wp_get_as; [exact Hx|].
    apply wp_bind, wp_kassert; [|by apply wp_ret, wp_ret]. apply negb_true_iff, Z.eqb_neq. apply (set_up_pbase x Hup StackRegion). }
  destruct (wp_ret_inv _ _ _ Hw) as (r & q & E & -> & ->). done.
Qed.

End segments.

(** ** A program on an SFS volume

    A small executable is written to the file of the demonstration volume of
    [SfsDemo], and loaded in a new address space. *)

Definition no_new_vnodes : alloc_env := AllocEnv None false.

#[local] Instance elf_ops : VnodeOps volume := sfs_vnode_ops (Some 100) no_new_vnodes.
#[local] Instance elf_files : FileVnodes (Some 100) volume := sfs_file_vnodes (Some 100) no_new_vnodes.

(** The header, two segment headers, four bytes of code and two of data. *)
Definition seg1 : Elf_Phdr := Phdr PT_LOAD 116 0x400000 0 4 4 5 0.
Definition seg2 : Elf_Phdr := Phdr PT_LOAD 120 0x10000000 0 2 8 6 0.

Definition bytes_of_phdr (p : Elf_Phdr) : list Z :=
  bytes_of_words [p_type p; p_offset p; p_vaddr p; p_paddr p; p_filesz p; p_memsz p; p_flags p; p_align p].

Definition elf_bytes : list Z :=
  [0x7f; 69; 76; 70; 1; 2; 1] ++ replicate 9 0 ++ be16_bytes 2 ++ be16_bytes 8 ++ bytes_of_words [1; 0x400000; 52; 0; 0] ++
  be16_bytes 52 ++ be16_bytes 32 ++ be16_bytes 2 ++ replicate 6 0 ++
  bytes_of_phdr seg1 ++ bytes_of_phdr seg2 ++ [8; 16; 0; 0] ++ [1; 2].

Lemma elf_executable : executable elf_bytes seg1 seg2.
Proof.
  assert (En : e_phnum (ehdr elf_bytes) = 2) by (by vm_compute).
  assert (Ep : phdrs elf_bytes (ehdr elf_bytes) = [seg1; seg2]) by (by vm_compute).
  split.
  - by vm_compute.
  - by vm_compute.
  - rewrite En. intros i Hi. assert (i = 0 \/ i = 1) as [-> | ->] by lia; by vm_compute.
  - rewrite Ep. apply (bool_decide_eq_true_1 _). by vm_compute.
  - rewrite Ep. by vm_compute.
  - split; by vm_compute.
  - split; by vm_compute.
Qed.

Lemma empty_file : vfile (demo_fs []) 100 [].
Proof. exists demo_vnode. split; [split; [by apply demo_file_ok | by vm_compute..] | by vm_compute]. Qed.

(** The volume after the file has been written. *)
Lemma elf_on_disk : exists w : volume, vfile w 100 elf_bytes.
Proof.
  pose proof empty_file as H0. set (u := uio_kinit 0 (kmem elf_bytes) 122 0 UIO_WRITE).
  assert (W : uio_wf (Some 100) u) by (apply uio_kinit_wf; try lia; apply (kmem_mapped elf_bytes)).
  pose proof (vop_write_spec (demo_fs []) 100 [] u H0 W eq_refl) as Hw. unfold wp in Hw.
  assert (E : match VOP_WRITE 100 (u, demo_fs []) with Ret _ _ => true | _ => false end = true) by (by vm_compute).
  destruct (VOP_WRITE 100 (u, demo_fs [])) as [[] [u' w']|e p| |]; try done.
  destruct Hw as (_ & _ & bytes & Hl & Hf); [by vm_compute | by vm_compute|]. exists w'.
  assert (Eb : load_all (uio_mem u) (take (Z.to_nat (uio_resid u)) (uio_addrs u)) = Some elf_bytes) by (by vm_compute).
  rewrite Eb in Hl. injection Hl as <-. exact Hf.
Qed.

(** A new process with an empty address space. *)
Definition new_vm : vm := after (proc_setas (Some 100) ;; as_activate) vm1.

Lemma new_vm_inv : vm_inv ∅ new_vm.
Proof.
  apply (vm_reachable_inv ∅ boot_vm); [|apply boot_vm_inv]. apply rtc_l with (∅, vm1); [|apply rtc_once].
  - apply (step_create _ _ (Some 100)); [by intros a [= <-]|]. apply after_final. by vm_compute.
  - apply (step_exec _ _ 1 100); [by vm_compute | by vm_compute | | eexists; by vm_compute |].
    + intros q. assert (E : procs vm1 = {[1 := None; 2 := None]}) by (by vm_compute). rewrite E. apply boot_procs.
    + unfold new_vm. apply after_final. by vm_compute.
Qed.


