(* ===== verification/Array.v ===== *)
(** * Resizable arrays, [lib/array.c] and [include/array.h]

    An array of pointers that grows by doubling.  [kmalloc] is a parameter:
    it answers [NULL] or a block of words, with the bytes asked for or more
    and any contents. *)

From S2P Require Import Prelude.

Record array := mkArray { num : Z; max : Z; v : list Z }.

(** [sizeof(void * )] *)
Definition PTR_SIZE : Z := 4.

Section array.
Context (kmalloc : Z -> option (list Z)).

Definition array_init : array := mkArray 0 0 [].

Definition array_cleanup : M array unit := a <- get ;; KASSERT (num a =? 0).

Definition array_num : M array Z := gets num.

Definition array_get (index : Z) : M array Z :=
  a <- get ;; KASSERT (index <? num a) ;; oob (zlookup (v a) index).

Definition array_set (index val : Z) : M array unit :=
  a <- get ;; KASSERT (index <? num a) ;;
  in_bounds ((0 <=? index) && (index <? Z.of_nat (length (v a)))) ;;
  put (mkArray (num a) (max a) (zinsert index val (v a))).

(** [while (num > newmax) newmax = newmax ? newmax*2 : 4;] *)
Fixpoint grow {S} (fuel : nat) (n newmax : Z) : M S Z :=
  if newmax <? n then
    match fuel with
    | O => fun _ => OutOfFuel
    | Datatypes.S fuel' => grow fuel' n (if newmax =? 0 then 4 else u32 (newmax * 2))
    end
  else ret newmax.

Definition array_preallocate (n : Z) : M array unit :=
  a <- get ;;
  if max a <? n then
    newmax <- grow 32 n (max a) ;;
    match kmalloc (u32 (newmax * PTR_SIZE)) with
    | None => throw ENOMEM
    | Some newptr =>
        in_bounds ((num a <=? Z.of_nat (length newptr)) && (num a <=? Z.of_nat (length (v a)))) ;;
        put (mkArray (num a) newmax (splice 0 (take (Z.to_nat (num a)) (v a)) newptr))
    end
  else ret tt.

Definition array_setsize (n : Z) : M array unit :=
  array_preallocate n ;;
  a <- get ;; put (mkArray n (max a) (v a)).

(** The index of the new element is the result. *)
Definition array_add (val : Z) : M array Z :=
  index <- gets num ;;
  array_setsize (u32 (index + 1)) ;;
  a <- get ;;
  in_bounds ((0 <=? index) && (index <? Z.of_nat (length (v a)))) ;;
  put (mkArray (num a) (max a) (zinsert index val (v a))) ;;
  ret index.

Definition array_remove (index : Z) : M array unit :=
  a <- get ;;
  KASSERT (num a <=? max a) ;;
  KASSERT (index <? num a) ;;
  let num_to_move := num a - (index + 1) in
  in_bounds (num a <=? Z.of_nat (length (v a))) ;;
  put (mkArray (num a - 1) (max a)
         (splice (Z.to_nat index) (slice (Z.to_nat (index + 1)) (Z.to_nat num_to_move) (v a)) (v a))).

End array.

(** ** An array is a list *)

(** The elements. *)
Definition contents (a : array) : list Z := take (Z.to_nat (num a)) (v a).

(** Room for powers of two of elements, up to what a block can hold. *)
Definition capacity (n : Z) : Prop := n = 0 \/ exists k, 2 <= k <= 29 /\ n = 2 ^ k.

Record array_ok (a : array) : Prop := {
  ao_num : 0 <= num a <= max a;
  ao_room : max a <= Z.of_nat (length (v a));
  ao_max : capacity (max a)
}.

Inductive array_op :=
| ONum | OGet (i : Z) | OSet (i x : Z) | OAdd (x : Z) | ORemove (i : Z) | OSetsize (n : Z) | OPreallocate (n : Z).

(** What the caller has to see to. *)
Definition op_guard (op : array_op) (l : list Z) : Prop :=
  match op with
  | ONum => True
  | OGet i | OSet i _ | ORemove i => 0 <= i < Z.of_nat (length l)
  | OAdd _ => Z.of_nat (length l) < 2 ^ 29
  | OSetsize n | OPreallocate n => 0 <= n <= 2 ^ 29
  end.

(** The operation on a list; [setsize] leaves new elements open. *)
Definition op_spec (op : array_op) (l : list Z) (r : Z) (l' : list Z) : Prop :=
  match op with
  | ONum => r = Z.of_nat (length l) /\ l' = l
  | OGet i => l !! Z.to_nat i = Some r /\ l' = l
  | OSet i x => l' = <[Z.to_nat i := x]> l
  | OAdd x => r = Z.of_nat (length l) /\ l' = l ++ [x]
  | ORemove i => l' = delete (Z.to_nat i) l
  | OSetsize n => length l' = Z.to_nat n /\ forall i, (i < length l)%nat -> (i < length l')%nat -> l' !! i = l !! i
  | OPreallocate n => l' = l
  end.

Definition allocates (op : array_op) : bool := match op with OAdd _ | OSetsize _ | OPreallocate _ => true | _ => false end.

Section refines.
Context (kmalloc : Z -> option (list Z)).
Hypothesis kmalloc_room : forall bytes b, kmalloc bytes = Some b -> bytes <= PTR_SIZE * Z.of_nat (length b).

Definition run_op (op : array_op) : M array Z :=
  match op with
  | ONum => array_num
  | OGet i => array_get i
  | OSet i x => array_set i x ;; ret 0
  | OAdd x => array_add kmalloc x
  | ORemove i => array_remove i ;; ret 0
  | OSetsize n => array_setsize kmalloc n ;; ret 0
  | OPreallocate n => array_preallocate kmalloc n ;; ret 0
  end.

Lemma length_contents a : array_ok a -> length (contents a) = Z.to_nat (num a).
Proof. intros [H1 H2 _]. unfold contents. rewrite length_take. lia. Qed.

Lemma grow_unfold {S} fuel n m :
  grow (S := S) (Datatypes.S fuel) n m = if m <? n then grow fuel n (if m =? 0 then 4 else u32 (m * 2)) else ret m.
Proof. done. Qed.

Lemma grow_power {S} (s : S) n fuel k : n <= 2 ^ 29 -> 2 <= k <= 29 -> 29 - k <= Z.of_nat fuel ->
  exists k', 2 <= k' <= 29 /\ n <= 2 ^ k' /\ 2 ^ k <= 2 ^ k' /\ grow fuel n (2 ^ k) s = Ret (2 ^ k') s.
Proof.
  intros Hn. revert k. induction fuel as [|fuel IH]; intros k Hk Hf; cbn [grow]; destruct (Z.ltb_spec (2 ^ k) n) as [Hlt|Hge];
    try (exists k; split_and!; [lia | lia | done | lia | done]).
  - assert (k = 29) as -> by lia. lia.
  - assert (k < 29) by (destruct (Z.lt_ge_cases k 29); [done|]; assert (k = 29) as -> by lia; lia).
    rewrite (proj2 (Z.eqb_neq (2 ^ k) 0)) by (pose proof (Z.pow_pos_nonneg 2 k); lia).
    assert (Hp : 2 ^ k * 2 = 2 ^ (k + 1)) by (rewrite Z.pow_add_r by lia; lia).
    assert (Hb : 0 < 2 ^ (k + 1) <= 2 ^ 29) by (split; [apply Z.pow_pos_nonneg; lia | apply Z.pow_le_mono_r; lia]).
    rewrite Hp, wrap_small by lia. destruct (IH (k + 1)) as (k' & H1 & H2 & H3 & E); [lia..|]. exists k'. split_and!; try done; lia.
Qed.

Lemma grow_capacity {S} (s : S) n m : n <= 2 ^ 29 -> m < n -> capacity m ->
  exists k, 2 <= k <= 29 /\ n <= 2 ^ k /\ m <= 2 ^ k /\ grow 32 n m s = Ret (2 ^ k) s.
Proof.
  intros Hn Hlt [->|(k & Hk & ->)].
  - rewrite (grow_unfold 31), (proj2 (Z.ltb_lt _ _) Hlt). cbn [Z.eqb]. destruct (grow_power s n 31 2) as (k & H1 & H2 & H3 & E); [lia.. |].
    exists k. split_and!; try done; lia.
  - destruct (grow_power s n 32 k) as (k' & H1 & H2 & H3 & E); [lia..|]. exists k'. split_and!; try done; lia.
Qed.

(** Only the room changes, if that. *)
Lemma array_preallocate_room a n : array_ok a -> 0 <= n <= 2 ^ 29 ->
  wp (array_preallocate kmalloc n) (fun _ a' => array_ok a' /\ n <= max a' /\ num a' = num a /\ contents a' = contents a)
     (fun e a' => e = ENOMEM /\ a' = a) a.
Proof.
  intros Ha Hn. destruct Ha as [H1 H2 H3]. unfold array_preallocate. apply wp_bind, wp_get.
  destruct (Z.ltb_spec (max a) n) as [Hlt|Hge]; [|apply wp_ret; split_and!; [by split | lia | done | done]].
  apply wp_bind. destruct (grow_capacity a n (max a)) as (k & Hk & Hnk & Hmk & E); [lia | lia | done|]. unfold wp at 1. rewrite E.
  assert (Hb : 0 < 2 ^ k <= 2 ^ 29) by (split; [apply Z.pow_pos_nonneg; lia | apply Z.pow_le_mono_r; lia]).
  unfold PTR_SIZE in *. rewrite wrap_small by lia. destruct (kmalloc (2 ^ k * 4)) as [b|] eqn:Eb; [|by apply wp_throw].
  pose proof (kmalloc_room _ _ Eb) as Hr. apply wp_bind, wp_in_bounds; [apply andb_true_iff; split; apply Z.leb_le; lia|].
  apply wp_put. assert (Hlen : length (splice 0 (take (Z.to_nat (num a)) (v a)) b) = length b) by (unfold splice; rewrite take_0; cbn; rewrite length_app, length_drop, !length_take; lia).
  split_and!; [split; cbn [num max v]; [lia | rewrite Hlen; lia | right; by exists k] | cbn; lia | done |].
  unfold contents; cbn [num v]. unfold splice. rewrite take_0. cbn [app]. rewrite take_app_le by (rewrite length_take; lia). rewrite take_take. f_equal. lia.
Qed.

Lemma array_setsize_size a n : array_ok a -> 0 <= n <= 2 ^ 29 ->
  wp (array_setsize kmalloc n) (fun _ a' => array_ok a' /\ num a' = n /\ op_spec (OSetsize n) (contents a) 0 (contents a'))
     (fun e a' => e = ENOMEM /\ a' = a) a.
Proof.
  intros Ha Hn. unfold array_setsize. apply wp_bind. eapply wp_mono; [by apply array_preallocate_room | | done].
  intros [] a1 (Ha1 & Hmax & Hnum & Hc). apply wp_bind, wp_get, wp_put. destruct Ha1 as [H1 H2 H3].
  assert (Ha2 : array_ok (mkArray n (max a1) (v a1))) by (split; cbn; [lia | done | done]).
  split; [done|]. split; [done|]. split; [by rewrite length_contents|].
  rewrite <- Hc. intros i Hi Hi'. rewrite length_contents in Hi, Hi' by done || (by split). cbn [num] in Hi'.
  unfold contents; cbn [num v]. by rewrite !lookup_take_lt by lia.
Qed.

Lemma remove_contents a i : array_ok a -> 0 <= i < num a ->
  take (Z.to_nat (num a - 1)) (splice (Z.to_nat i) (slice (Z.to_nat (i + 1)) (Z.to_nat (num a - (i + 1))) (v a)) (v a)) =
  delete (Z.to_nat i) (contents a).
Proof.
  intros [H1 H2 _] Hi. unfold contents, splice, slice. apply list_eq. intros j. rewrite delete_take_drop.
  destruct (decide (j < Z.to_nat i)%nat) as [Hj|Hj].
  - rewrite lookup_take_lt by lia. rewrite !lookup_app_l by (rewrite !length_take; lia). rewrite !lookup_take_lt by lia. done.
  - destruct (decide (j < Z.to_nat (num a - 1))%nat) as [Hj2|Hj2].
    + rewrite lookup_take_lt by lia. rewrite lookup_app_r by (rewrite length_take; lia). rewrite length_take.
      rewrite lookup_app_l by (rewrite length_take, length_drop; lia). rewrite lookup_take_lt, lookup_drop by lia.
      rewrite lookup_app_r by (rewrite !length_take; lia). rewrite !length_take, lookup_drop, lookup_take_lt by lia. f_equal. lia.
    + rewrite !lookup_ge_None_2; [done | rewrite length_app, length_drop, !length_take; lia | rewrite length_take; lia].
Qed.

(** C25: An array is a list: every operation, started on an array that holds
    the list [l] and within its bounds, returns and leaves an array that holds
    what the operation makes of [l], or it fails with [ENOMEM], and then only
    an operation that allocates, and leaves the array as it was. *)
Theorem array_refines op a : array_ok a -> op_guard op (contents a) ->
  wp (run_op op) (fun r a' => array_ok a' /\ op_spec op (contents a) r (contents a'))
     (fun e a' => e = ENOMEM /\ allocates op = true /\ a' = a) a.
Proof.
  intros Ha Hg. pose proof (length_contents a Ha) as Hlen. pose proof Ha as [H1 H2 H3].
  destruct op as [|i|i x|x|i|n|n]; cbn [run_op op_guard allocates] in *; rewrite ?Hlen in Hg.
  - apply wp_gets. split; [done|]. split; [rewrite Hlen; lia | done].
  - apply wp_bind, wp_get, wp_bind, wp_kassert; [apply Z.ltb_lt; lia|].
    destruct (lookup_lt_is_Some_2 (v a) (Z.to_nat i)) as [r Hr]; [lia|].
    apply (wp_oob _ r); [unfold zlookup; by rewrite (proj2 (Z.leb_le _ _)) by lia|]. split; [done|]. split; [|done]. unfold contents. by rewrite lookup_take_lt by lia.
  - apply wp_bind, wp_bind, wp_get, wp_bind, wp_kassert; [apply Z.ltb_lt; lia|].
    apply wp_bind, wp_in_bounds; [apply andb_true_iff; split; [apply Z.leb_le | apply Z.ltb_lt]; lia|]. apply wp_put, wp_ret.
    unfold zinsert. rewrite (proj2 (Z.leb_le _ _)) by lia. split; [split; cbn; rewrite ?length_insert; done|].
    unfold op_spec, contents; cbn [num v]. by rewrite take_insert_lt by lia.
  - unfold array_add. apply wp_bind, wp_gets, wp_bind. rewrite wrap_small by lia.
    eapply wp_mono; [apply array_setsize_size; [done | lia] | |intros e a' [-> ->]; done].
    intros [] a1 (Ha1 & Hn & Hl & Hc). pose proof Ha1 as [K1 K2 K3]. apply wp_bind, wp_get, wp_bind, wp_in_bounds; [apply andb_true_iff; split; [apply Z.leb_le | apply Z.ltb_lt]; lia|].
    apply wp_bind, wp_put, wp_ret. unfold zinsert. rewrite (proj2 (Z.leb_le _ _)) by lia. split; [split; cbn; rewrite ?length_insert; done|].
    split; [rewrite Hlen; lia|]. unfold contents at 1; cbn [num v]. rewrite take_insert_lt by lia. fold (contents a1).
    apply list_eq. intros j. destruct (decide (j = Z.to_nat (num a))) as [->|Hj].
    + rewrite list_lookup_insert_eq by lia. by rewrite lookup_app_r, Hlen, Nat.sub_diag by lia.
    + rewrite list_lookup_insert_ne by done. destruct (decide (j < Z.to_nat (num a))%nat).
      * rewrite lookup_app_l by lia. apply Hc; lia.
      * rewrite !lookup_ge_None_2; [done | rewrite length_app; cbn; lia | lia].
  - apply wp_bind, wp_bind, wp_get, wp_bind, wp_kassert; [apply Z.leb_le; lia|]. apply wp_bind, wp_kassert; [apply Z.ltb_lt; lia|].
    apply wp_bind, wp_in_bounds; [apply Z.leb_le; lia|]. apply wp_put, wp_ret.
    split.
    + split; cbn [num max v]; [lia | | done]. rewrite splice_length; [done|]. unfold slice. rewrite length_take, length_drop. lia.
    + unfold op_spec. unfold contents at 1; cbn [num v]. apply remove_contents; [done | lia].
  - apply wp_bind. eapply wp_mono; [by apply array_setsize_size | |intros e a' [-> ->]; done]. intros [] a' (Ha' & _ & Hs). by apply wp_ret.
  - apply wp_bind. eapply wp_mono; [by apply array_preallocate_room | |intros e a' [-> ->]; done]. intros [] a' (Ha' & _ & _ & Hs). by apply wp_ret.
Qed.

End refines.

(** Past the bounds of the theorem: for more than [2 ^ 31] elements the
    doubling wraps round to 0 and starts again, and the loop never ends. *)
Lemma grow_diverges {S} (s : S) n fuel : 2 ^ 31 < n -> grow fuel n 0 s = OutOfFuel.
Proof.
  intros Hn. assert (H : forall fuel k, 2 <= k <= 32 -> grow fuel n (u32 (2 ^ k)) s = OutOfFuel).
  { clear fuel. induction fuel as [|fuel IH]; intros k Hk; cbn [grow].
    - destruct (Z.eq_dec k 32) as [->|]; [change (u32 (2 ^ 32)) with 0; by rewrite (proj2 (Z.ltb_lt _ _)) by lia|].
      assert (0 < 2 ^ k <= 2 ^ 31) by (split; [apply Z.pow_pos_nonneg; lia | apply Z.pow_le_mono_r; lia]).
      rewrite wrap_small by lia. by rewrite (proj2 (Z.ltb_lt _ _)) by lia.
    - destruct (Z.eq_dec k 32) as [->|].
      + change (u32 (2 ^ 32)) with 0. rewrite (proj2 (Z.ltb_lt _ _)) by lia. exact (IH 2 ltac:(lia)).
      + assert (Hb : 0 < 2 ^ k <= 2 ^ 31) by (split; [apply Z.pow_pos_nonneg; lia | apply Z.pow_le_mono_r; lia]).
        rewrite (wrap_small 32 (2 ^ k)) by lia. rewrite (proj2 (Z.ltb_lt _ _)), (proj2 (Z.eqb_neq _ _)) by lia.
        replace (2 ^ k * 2) with (2 ^ (k + 1)) by (rewrite Z.pow_add_r by lia; lia). apply IH. lia. }
  destruct fuel as [|fuel]; cbn [grow]; rewrite (proj2 (Z.ltb_lt _ _)) by lia; [done|]. exact (H fuel 2 ltac:(lia)).
Qed.

(** For [2 ^ 30] elements the size in bytes wraps to 0. *)
Lemma grow_bytes_wrap {S} (s : S) : grow 32 (2 ^ 30) 0 s = Ret (2 ^ 30) s /\ u32 (2 ^ 30 * PTR_SIZE) = 0.
Proof. by vm_compute. Qed.

(** An allocator that gives what is asked for. *)
Definition demo_kmalloc (bytes : Z) : option (list Z) := Some (replicate (Z.to_nat ((bytes + 3) / 4)) 7).

Lemma array_refines_witness :
  wp (run_op demo_kmalloc (OAdd 5)) (fun r a' => array_ok a' /\ r = 0 /\ contents a' = [5]) (fun _ _ => True) array_init.
Proof.
  eapply wp_mono; [apply (array_refines demo_kmalloc) | |].
  - intros bytes b H. unfold demo_kmalloc in H. injection H as <-. rewrite length_replicate. unfold PTR_SIZE.
    pose proof (Z.div_mod (bytes + 3) 4). pose proof (Z.mod_pos_bound (bytes + 3) 4). lia.
  - split; cbn; [lia | lia | by left].
  - vm_compute. reflexivity.
  - intros r a' [Ha [Hr Hc]]. split; [exact Ha | split; [exact Hr | exact Hc]].
  - intros e a' _. exact I.
Defined.
