(* ===== verification/Printf.v ===== *)
(** * Formatted output, [common/libc/printf] and [atoi]

    The printf engine of [__printf.c], its client [snprintf.c], and [atoi].
    Characters are their codes; a C string is the list of the characters
    before its terminator.  The engine is over any client: [sendfunc] changes
    the client's data and may fail as the client does. *)

From S2P Require Import Prelude.

(** ** The state *)

(** What the caller passed through the varargs: words of 32 bits ([int],
    [long], [size_t], pointers), of 64 bits, and strings or [NULL]. *)
Inductive vararg :=
| VWord (z : Z)
| VLong (z : Z)
| VStr (s : option (list Z)).

Inductive intsize := INTSZ | LONGSZ | LLONGSZ | SIZETSZ.

Record PF {T : Type} := mkPF {
  clientdata : T;
  ap : list vararg;
  charcount : Z;
  in_pct : bool;
  size : intsize;
  num : Z;
  sign : Z;
  spacing : Z;
  rightspc : bool;
  fillchar : Z;
  base : Z;
  baseprefix : bool;
  altformat : bool
}.
Arguments PF : clear implicits.

(** The characters the code names. *)
Definition ch_space : Z := 32.
Definition ch_hash : Z := 35.
Definition ch_percent : Z := 37.
Definition ch_plus : Z := 43.
Definition ch_minus : Z := 45.
Definition ch_0 : Z := 48.
Definition ch_9 : Z := 57.
Definition ch_c : Z := 99.
Definition ch_d : Z := 100.
Definition ch_l : Z := 108.
Definition ch_o : Z := 111.
Definition ch_p : Z := 112.
Definition ch_s : Z := 115.
Definition ch_u : Z := 117.
Definition ch_x : Z := 120.
Definition ch_z : Z := 122.
Definition ch_tab : Z := 9.

(** ["0123456789abcdef"] *)
Definition digits : list Z := [48; 49; 50; 51; 52; 53; 54; 55; 56; 57; 97; 98; 99; 100; 101; 102].

(** [strchr] of a non-zero character in a literal, as a test. *)
Definition char_in (c : Z) (s : list Z) : bool := bool_decide (c ∈ s).

(** ["#-lz0123456789"], ["doupx"] and ["(null)"] *)
Definition modifiers : list Z := ch_hash :: ch_minus :: ch_l :: ch_z :: take 10 digits.
Definition inttypes : list Z := [ch_d; ch_o; ch_u; ch_p; ch_x].
Definition null_text : list Z := [40; 110; 117; 108; 108; 41].

Definition NUMBER_BUF_SIZE : Z := 8 * 8 / 3 + 2.

Section engine.
Context {T : Type} (sendfunc : list Z -> M T unit).
Abbreviation pfM := (M (PF T)).

Definition set_out (t : T) (n : Z) (pf : PF T) : PF T :=
  mkPF T t (ap pf) n (in_pct pf) (size pf) (num pf) (sign pf) (spacing pf) (rightspc pf) (fillchar pf) (base pf) (baseprefix pf) (altformat pf).
Definition set_ap (l : list vararg) (pf : PF T) : PF T :=
  mkPF T (clientdata pf) l (charcount pf) (in_pct pf) (size pf) (num pf) (sign pf) (spacing pf) (rightspc pf) (fillchar pf) (base pf) (baseprefix pf) (altformat pf).
Definition set_in_pct (b : bool) (pf : PF T) : PF T :=
  mkPF T (clientdata pf) (ap pf) (charcount pf) b (size pf) (num pf) (sign pf) (spacing pf) (rightspc pf) (fillchar pf) (base pf) (baseprefix pf) (altformat pf).
Definition set_size (s : intsize) (pf : PF T) : PF T :=
  mkPF T (clientdata pf) (ap pf) (charcount pf) (in_pct pf) s (num pf) (sign pf) (spacing pf) (rightspc pf) (fillchar pf) (base pf) (baseprefix pf) (altformat pf).
Definition set_num (n sg : Z) (pf : PF T) : PF T :=
  mkPF T (clientdata pf) (ap pf) (charcount pf) (in_pct pf) (size pf) n sg (spacing pf) (rightspc pf) (fillchar pf) (base pf) (baseprefix pf) (altformat pf).
Definition set_spacing (n : Z) (pf : PF T) : PF T :=
  mkPF T (clientdata pf) (ap pf) (charcount pf) (in_pct pf) (size pf) (num pf) (sign pf) n (rightspc pf) (fillchar pf) (base pf) (baseprefix pf) (altformat pf).
Definition set_rightspc (pf : PF T) : PF T :=
  mkPF T (clientdata pf) (ap pf) (charcount pf) (in_pct pf) (size pf) (num pf) (sign pf) (spacing pf) true (fillchar pf) (base pf) (baseprefix pf) (altformat pf).
Definition set_fillchar (c : Z) (pf : PF T) : PF T :=
  mkPF T (clientdata pf) (ap pf) (charcount pf) (in_pct pf) (size pf) (num pf) (sign pf) (spacing pf) (rightspc pf) c (base pf) (baseprefix pf) (altformat pf).
Definition set_base (b : Z) (p : bool) (pf : PF T) : PF T :=
  mkPF T (clientdata pf) (ap pf) (charcount pf) (in_pct pf) (size pf) (num pf) (sign pf) (spacing pf) (rightspc pf) (fillchar pf) b p (altformat pf).
Definition set_altformat (pf : PF T) : PF T :=
  mkPF T (clientdata pf) (ap pf) (charcount pf) (in_pct pf) (size pf) (num pf) (sign pf) (spacing pf) (rightspc pf) (fillchar pf) (base pf) (baseprefix pf) true.

(** ** [__printf.c] *)

Definition __pf_print (txt : list Z) : pfM unit := fun pf =>
  match sendfunc txt (clientdata pf) with
  | Ret _ t => Ret tt (set_out t (i32 (charcount pf + Z.of_nat (length txt))) pf)
  | Err e t => Err e (set_out t (charcount pf) pf)
  | Panic => Panic
  | OutOfFuel => OutOfFuel
  end.

Definition __pf_endfield : pfM unit :=
  modify (fun pf => mkPF T (clientdata pf) (ap pf) (charcount pf) false INTSZ 0 0 0 false ch_space 0 false false).

Definition __pf_modifier (ch : Z) : pfM unit :=
  if ch =? ch_hash then modify set_altformat
  else if ch =? ch_minus then modify set_rightspc
  else if ch =? ch_l then modify (fun pf => set_size (match size pf with LONGSZ => LLONGSZ | _ => LONGSZ end) pf)
  else if ch =? ch_z then modify (set_size SIZETSZ)
  else if ch =? ch_0 then
    modify (fun pf => if 0 <? spacing pf then set_spacing (i32 (spacing pf * 10)) pf else set_fillchar ch_0 pf)
  else
    KASSERT ((ch_0 <? ch) && (ch <=? ch_9)) ;;
    modify (fun pf => set_spacing (i32 (spacing pf * 10 + (ch - ch_0))) pf).

(** [va_arg]; to ask for what was not passed is undefined. *)
Definition va_arg : pfM vararg := fun pf =>
  match ap pf with
  | a :: l => Ret a (set_ap l pf)
  | [] => Panic
  end.
Definition va_word : pfM Z := a <- va_arg ;; match a with VWord z => ret z | _ => panic end.
Definition va_long : pfM Z := a <- va_arg ;; match a with VLong z => ret z | _ => panic end.
Definition va_str : pfM (option (list Z)) := a <- va_arg ;; match a with VStr s => ret s | _ => panic end.

Definition __pf_getnum (ch : Z) : pfM unit :=
  if ch =? ch_p then z <- va_word ;; modify (fun pf => set_num (u32 z) (sign pf) pf)
  else if ch =? ch_d then
    sz <- gets size ;;
    signednum <- match sz with LLONGSZ => z <- va_long ;; ret (i64 z) | _ => z <- va_word ;; ret (i32 z) end ;;
    modify (fun pf => if signednum <? 0 then set_num (u64 (- signednum)) (-1) pf else set_num signednum (sign pf) pf)
  else
    sz <- gets size ;;
    n <- match sz with LLONGSZ => z <- va_long ;; ret (u64 z) | _ => z <- va_word ;; ret (u32 z) end ;;
    modify (fun pf => set_num n (sign pf) pf).

Definition __pf_setbase (ch : Z) : pfM unit :=
  modify (fun pf =>
    set_base (if (ch =? ch_d) || (ch =? ch_u) then 10 else if (ch =? ch_x) || (ch =? ch_p) then 16
              else if ch =? ch_o then 8 else base pf)
             (altformat pf || (ch =? ch_p) || baseprefix pf) pf).

Definition __pf_fill (spc : Z) : pfM unit :=
  f <- gets fillchar ;; for_each 0 (Z.to_nat spc) (fun _ => __pf_print [f]).

Definition __pf_printstuff (prefix prefix2 stuff : list Z) : pfM unit :=
  pf <- get ;;
  let len := Z.of_nat (length prefix + length prefix2 + length stuff) in
  let spc := if len <? spacing pf then spacing pf - len else 0 in
  when ((0 <? spc) && negb (rightspc pf) && negb (fillchar pf =? ch_0)) (__pf_fill spc) ;;
  __pf_print prefix ;;
  __pf_print prefix2 ;;
  when ((0 <? spc) && negb (rightspc pf) && (fillchar pf =? ch_0)) (__pf_fill spc) ;;
  __pf_print stuff ;;
  when ((0 <? spc) && rightspc pf) (__pf_fill spc).

(** The loop that writes the digits from the right; [x] is the index of the
    slot in [buf]. *)
Fixpoint printnum_loop {S} (fuel : nat) (b : Z) (buf : list Z) (x xnum : Z) : M S (list Z * Z) :=
  match fuel with
  | O => fun _ => OutOfFuel
  | Datatypes.S fuel' =>
      d <- oob (zlookup digits (xnum mod b)) ;;
      in_bounds ((0 <=? x) && (x <? Z.of_nat (length buf))) ;;
      let buf := zinsert x d buf in
      let xnum := xnum / b in
      if 0 <? xnum then printnum_loop fuel' b buf (x - 1) xnum else ret (buf, x - 1)
  end.

Definition __pf_printnum : pfM unit :=
  pf <- get ;;
  let buf := replicate (Z.to_nat NUMBER_BUF_SIZE) 0 in
  let x := NUMBER_BUF_SIZE - 1 in
  let buf := zinsert x 0 buf in
  r <- printnum_loop 64 (base pf) buf (x - 1) (num pf) ;;
  let '(buf, x) := r in
  let text := drop (Z.to_nat (x + 1)) (take (Z.to_nat (NUMBER_BUF_SIZE - 1)) buf) in
  let bprefix := if baseprefix pf && (base pf =? 16) then [ch_0; ch_x] else if baseprefix pf && (base pf =? 8) then [ch_0] else [] in
  let sprefix := if sign pf =? 0 then [] else [ch_minus] in
  __pf_printstuff sprefix bprefix text.

Definition __pf_send (ch : Z) : pfM unit :=
  KASSERT (negb (ch =? 0)) ;;
  pct <- gets in_pct ;;
  if negb pct && negb (ch =? ch_percent) then __pf_print [ch]
  else if negb pct then modify (set_in_pct true)
  else if char_in ch modifiers then __pf_modifier ch
  else if char_in ch inttypes then __pf_getnum ch ;; __pf_setbase ch ;; __pf_printnum ;; __pf_endfield
  else if ch =? ch_s then
    str <- va_str ;;
    __pf_printstuff [] [] (default null_text str) ;; __pf_endfield
  else
    c <- (if ch =? ch_c then z <- va_word ;; ret (u8 z) else ret ch) ;;
    __pf_printstuff [] [] (if c =? 0 then [] else [c]) ;; __pf_endfield.

Fixpoint send_all (format : list Z) : pfM unit :=
  match format with [] => ret tt | ch :: f => __pf_send ch ;; send_all f end.

(** [__vprintf], in the client's state. *)
Definition __vprintf (format : list Z) (args : list vararg) : M T Z := fun t =>
  match (__pf_endfield ;; send_all format ;; gets charcount)
          (mkPF T t args 0 false INTSZ 0 0 0 false ch_space 0 false false) with
  | Ret n pf => Ret n (clientdata pf)
  | Err e pf => Err e (clientdata pf)
  | Panic => Panic
  | OutOfFuel => OutOfFuel
  end.

End engine.

(** ** [snprintf.c] *)

Record SNP := mkSNP { buf : list Z; buflen : Z; bufpos : Z }.

Definition snprintf_char (c : Z) : M SNP unit := fun snp =>
  if bufpos snp <? buflen snp then
    if (0 <=? bufpos snp) && (bufpos snp <? Z.of_nat (length (buf snp)))
    then Ret tt (mkSNP (zinsert (bufpos snp) c (buf snp)) (buflen snp) (u32 (bufpos snp + 1)))
    else Panic
  else Ret tt snp.

Fixpoint __snprintf_send (data : list Z) : M SNP unit :=
  match data with [] => ret tt | c :: d => snprintf_char c ;; __snprintf_send d end.

(** [vsnprintf] into [b], of which the caller says it has [len] bytes. *)
Definition vsnprintf (b : list Z) (len : Z) (fmt : list Z) (args : list vararg) : M unit (list Z * Z) := fun s =>
  match __vprintf __snprintf_send fmt args (mkSNP b (if len =? 0 then 0 else u32 (len - 1)) 0) with
  | Ret chars snp =>
      if 0 <? len then
        if (0 <=? bufpos snp) && (bufpos snp <? Z.of_nat (length (buf snp)))
        then Ret (zinsert (bufpos snp) 0 (buf snp), chars) s else Panic
      else Ret (buf snp, chars) s
  | Err e _ => Err e s
  | Panic => Panic
  | OutOfFuel => OutOfFuel
  end.

(** ** [atoi.c] *)

Fixpoint skip_blanks (s : list Z) : list Z :=
  match s with c :: s' => if (c =? ch_space) || (c =? ch_tab) then skip_blanks s' else s | [] => [] end.

(** [where - digits], for the decimal digits. *)
Definition digit_of (c : Z) : option Z := if (ch_0 <=? c) && (c <=? ch_9) then Some (c - ch_0) else None.

Fixpoint atoi_digits (val : Z) (s : list Z) : Z :=
  match s with
  | [] => val
  | c :: s' => match digit_of c with Some d => atoi_digits (u32 (val * 10 + d)) s' | None => val end
  end.

Definition atoi (s : list Z) : Z :=
  match skip_blanks s with
  | c :: s' =>
      if c =? ch_minus then i32 (u32 (- atoi_digits 0 s'))
      else if c =? ch_plus then i32 (atoi_digits 0 s')
      else i32 (atoi_digits 0 (c :: s'))
  | [] => 0
  end.

(** ** A client that collects what it is sent *)

Definition collect (txt : list Z) : M (list Z) unit := modify (fun t => t ++ txt).

(** The text a format makes of its arguments, when they fit. *)
Definition printf_text (fmt : list Z) (args : list vararg) : outcome (list Z) Z := __vprintf collect fmt args [].

(** ["%5d"], ["%-5d"], ["%05d"] of -42, ["%#x"] of 255, ["%s %c%%"] *)
Example printf_examples :
  printf_text [37; 53; 100] [VWord (-42)] = Ret 5 [32; 32; 45; 52; 50] /\
  printf_text [37; 45; 53; 100] [VWord (-42)] = Ret 5 [45; 52; 50; 32; 32] /\
  printf_text [37; 48; 53; 100] [VWord (-42)] = Ret 5 [45; 48; 48; 52; 50] /\
  printf_text [37; 35; 120] [VWord 255] = Ret 4 [48; 120; 102; 102] /\
  printf_text [37; 115; 32; 37; 99; 37; 37] [VStr (Some [104; 105]); VWord 33] = Ret 5 [104; 105; 32; 33; 37].
Proof. vm_compute. done. Qed.

Example atoi_examples :
  atoi [32; 9; 45; 52; 50; 120] = -42 /\ atoi [] = 0 /\ atoi [43; 55] = 7 /\
  atoi [50; 49; 52; 55; 52; 56; 51; 54; 52; 56] = - 2 ^ 31.
Proof. vm_compute. done. Qed.
