(* ===== verification/PrintfSpec.v ===== *)
(** * What the printf engine promises

    Its output does not depend on the client, so that [snprintf] stores a
    prefix of what a client would see that collects everything; it always
    finds room for its digits; and [atoi] reads back what [%d] printed. *)

From S2P Require Import Prelude Printf.

(** ** Two clients *)

Section sim.
Context {T1 T2 : Type} (send1 : list Z -> M T1 unit) (send2 : list Z -> M T2 unit) (R : T1 -> T2 -> Z -> Prop).
Hypothesis send_sim : forall txt t1 t2 n, R t1 t2 n -> exists t1' t2',
  send1 txt t1 = Ret tt t1' /\ send2 txt t2 = Ret tt t2' /\ R t1' t2' (i32 (n + Z.of_nat (length txt))).

(** The states differ in the client's data alone. *)
Record pf_sim (p1 : PF T1) (p2 : PF T2) : Prop := {
  ps_data : R (clientdata p1) (clientdata p2) (charcount p1);
  ps_rest : mkPF unit tt (ap p1) (charcount p1) (in_pct p1) (size p1) (num p1) (sign p1) (spacing p1) (rightspc p1) (fillchar p1) (base p1) (baseprefix p1) (altformat p1) =
            mkPF unit tt (ap p2) (charcount p2) (in_pct p2) (size p2) (num p2) (sign p2) (spacing p2) (rightspc p2) (fillchar p2) (base p2) (baseprefix p2) (altformat p2)
}.

Definition sim {A} (m1 : M (PF T1) A) (m2 : M (PF T2) A) : Prop := forall p1 p2, pf_sim p1 p2 ->
  match m1 p1, m2 p2 with
  | Ret a p1', Ret b p2' => a = b /\ pf_sim p1' p2'
  | Panic, Panic => True
  | OutOfFuel, OutOfFuel => True
  | _, _ => False
  end.

Ltac pf_cases := let Hd := fresh "Hd" in let Hr := fresh "Hr" in
  intros [] [] [Hd Hr]; cbn [clientdata ap charcount in_pct size num sign spacing rightspc fillchar base baseprefix altformat] in Hd, Hr |- *; injection Hr; clear Hr; intros; subst.

Lemma sim_ret {A} (a : A) : sim (ret a) (ret a).
Proof. intros p1 p2 H. by split. Qed.

Lemma sim_bind {A B} (m1 : M (PF T1) A) m2 (k1 : A -> M (PF T1) B) k2 :
  sim m1 m2 -> (forall a, sim (k1 a) (k2 a)) -> sim (bind m1 k1) (bind m2 k2).
Proof.
  intros Hm Hk p1 p2 H. specialize (Hm p1 p2 H). unfold bind. destruct (m1 p1), (m2 p2); try done.
  destruct Hm as [<- Hp]. by apply Hk.
Qed.

Lemma sim_get {B} (k1 : PF T1 -> M (PF T1) B) k2 :
  (forall p1 p2, pf_sim p1 p2 -> sim (k1 p1) (k2 p2)) -> sim (bind get k1) (bind get k2).
Proof. intros Hk p1 p2 H. by apply (Hk p1 p2). Qed.

Lemma sim_gets {A} (f1 : PF T1 -> A) f2 : (forall p1 p2, pf_sim p1 p2 -> f1 p1 = f2 p2) -> sim (gets f1) (gets f2).
Proof. intros Hf p1 p2 H. split; [by apply Hf | done]. Qed.

Lemma sim_modify f1 f2 : (forall p1 p2, pf_sim p1 p2 -> pf_sim (f1 p1) (f2 p2)) -> sim (modify f1) (modify f2).
Proof. intros Hf p1 p2 H. split; [done | by apply Hf]. Qed.

Lemma sim_panic {A} : sim (A := A) panic panic.
Proof. by intros p1 p2 H. Qed.

Lemma sim_print txt : sim (__pf_print send1 txt) (__pf_print send2 txt).
Proof.
  pf_cases. unfold __pf_print; cbn. destruct (send_sim txt _ _ _ Hd) as (t1' & t2' & -> & -> & HR).
  split; [done|]. by split.
Qed.

Lemma sim_fill spc : sim (__pf_fill send1 spc) (__pf_fill send2 spc).
Proof.
  apply sim_bind; [apply sim_gets; by pf_cases|]. intros f. generalize 0. induction (Z.to_nat spc) as [|n IH]; intros z; cbn; [apply sim_ret|].
  apply sim_bind; [apply sim_print | intros []; apply IH].
Qed.

Lemma sim_when b m1 m2 : sim m1 m2 -> sim (when b m1) (when b m2).
Proof. intros H. destruct b; [done | apply sim_ret]. Qed.

Lemma sim_printstuff p q s : sim (__pf_printstuff send1 p q s) (__pf_printstuff send2 p q s).
Proof.
  apply sim_get. pf_cases.
  repeat (apply sim_bind; [first [apply sim_print | apply sim_when, sim_fill] | intros []]). apply sim_when, sim_fill.
Qed.

Lemma sim_pure {A} (m : forall S, M S A) :
  (forall p1 p2, match m (PF T1) p1, m (PF T2) p2 with
                 | Ret a q1, Ret b q2 => a = b /\ q1 = p1 /\ q2 = p2 | Panic, Panic => True | OutOfFuel, OutOfFuel => True | _, _ => False end) ->
  sim (m _) (m _).
Proof. intros H p1 p2 Hp. specialize (H p1 p2). destruct (m _ p1), (m _ p2); try done. by destruct H as (-> & -> & ->). Qed.

Lemma sim_printnum_loop fuel b buf x n : sim (printnum_loop fuel b buf x n) (printnum_loop fuel b buf x n).
Proof.
  revert buf x n. induction fuel as [|fuel IH]; intros buf x n; cbn [printnum_loop]; [by intros p1 p2 H|].
  apply sim_bind; [unfold oob; destruct (zlookup _ _); [apply sim_ret | apply sim_panic]|]. intros d.
  apply sim_bind; [unfold in_bounds; destruct (_ && _); [apply sim_ret | apply sim_panic]|]. intros [].
  destruct (0 <? n / b); [apply IH | apply sim_ret].
Qed.

Lemma sim_printnum : sim (__pf_printnum send1) (__pf_printnum send2).
Proof.
  apply sim_get. pf_cases. apply sim_bind; [apply sim_printnum_loop|]. intros [buf x]. apply sim_printstuff.
Qed.

Ltac same_fields := pf_cases; by split.

Lemma sim_endfield : sim (__pf_endfield (T := T1)) (__pf_endfield (T := T2)).
Proof. apply sim_modify. same_fields. Qed.

Lemma sim_modifier ch : sim (__pf_modifier (T := T1) ch) (__pf_modifier (T := T2) ch).
Proof.
  unfold __pf_modifier. repeat case_match; try (apply sim_modify; same_fields).
  - apply sim_modify. pf_cases. case_match; split; done.
  - apply sim_bind; [unfold KASSERT; case_match; [apply sim_ret | apply sim_panic]|]. intros []. apply sim_modify. same_fields.
Qed.

Lemma sim_va_arg : sim (va_arg (T := T1)) (va_arg (T := T2)).
Proof. pf_cases. unfold va_arg; cbn. match goal with |- context [match ?l with [] => _ | _ :: _ => _ end] => destruct l end; [done|]. by repeat split. Qed.

Lemma sim_va_word : sim (va_word (T := T1)) (va_word (T := T2)).
Proof. apply sim_bind; [apply sim_va_arg|]. intros []; [apply sim_ret | apply sim_panic..]. Qed.
Lemma sim_va_long : sim (va_long (T := T1)) (va_long (T := T2)).
Proof. apply sim_bind; [apply sim_va_arg|]. intros []; [apply sim_panic | apply sim_ret | apply sim_panic]. Qed.
Lemma sim_va_str : sim (va_str (T := T1)) (va_str (T := T2)).
Proof. apply sim_bind; [apply sim_va_arg|]. intros []; [apply sim_panic.. | apply sim_ret]. Qed.

Lemma sim_getnum ch : sim (__pf_getnum (T := T1) ch) (__pf_getnum (T := T2) ch).
Proof.
  assert (Hsz : sim (gets (S := PF T1) size) (gets size)) by (apply sim_gets; by pf_cases).
  unfold __pf_getnum. case_match; [|case_match].
  - apply sim_bind; [apply sim_va_word|]. intros z. apply sim_modify. same_fields.
  - apply sim_bind; [done|]. intros sz. apply sim_bind.
    + destruct sz; (apply sim_bind; [first [apply sim_va_long | apply sim_va_word] | intros z; apply sim_ret]).
    + intros z. apply sim_modify. pf_cases. case_match; by split.
  - apply sim_bind; [done|]. intros sz. apply sim_bind.
    + destruct sz; (apply sim_bind; [first [apply sim_va_long | apply sim_va_word] | intros z; apply sim_ret]).
    + intros z. apply sim_modify. same_fields.
Qed.

Lemma sim_send ch : sim (__pf_send send1 ch) (__pf_send send2 ch).
Proof.
  unfold __pf_send. apply sim_bind; [unfold KASSERT; case_match; [apply sim_ret | apply sim_panic]|]. intros [].
  apply sim_bind; [apply sim_gets; by pf_cases|]. intros pct.
  case_match; [apply sim_print|]. case_match; [apply sim_modify; same_fields|]. case_match; [apply sim_modifier|].
  case_match; [|case_match].
  - apply sim_bind; [apply sim_getnum | intros []]. apply sim_bind; [apply sim_modify; same_fields | intros []].
    apply sim_bind; [apply sim_printnum | intros []; apply sim_endfield].
  - apply sim_bind; [apply sim_va_str|]. intros str. apply sim_bind; [apply sim_printstuff | intros []; apply sim_endfield].
  - apply sim_bind; [case_match; [apply sim_bind; [apply sim_va_word | intros z; apply sim_ret] | apply sim_ret]|].
    intros c. apply sim_bind; [apply sim_printstuff | intros []; apply sim_endfield].
Qed.

Lemma sim_send_all fmt : sim (send_all send1 fmt) (send_all send2 fmt).
Proof. induction fmt as [|ch f IH]; cbn; [apply sim_ret|]. apply sim_bind; [apply sim_send | by intros []]. Qed.

(** The clients see the same text. *)
Lemma vprintf_sim fmt args t1 t2 : R t1 t2 0 ->
  match __vprintf send1 fmt args t1, __vprintf send2 fmt args t2 with
  | Ret n t1', Ret n' t2' => n = n' /\ R t1' t2' n
  | Panic, Panic => True
  | OutOfFuel, OutOfFuel => True
  | _, _ => False
  end.
Proof.
  intros H. unfold __vprintf.
  assert (Hs : sim (__pf_endfield ;; send_all send1 fmt ;; gets charcount) (__pf_endfield ;; send_all send2 fmt ;; gets charcount)).
  { apply sim_bind; [apply sim_endfield | intros []]. apply sim_bind; [apply sim_send_all | intros []].
    pf_cases. by repeat split. }
  assert (Hs2 : forall p1 p2, pf_sim p1 p2 -> match (__pf_endfield ;; send_all send1 fmt ;; gets charcount) p1, (__pf_endfield ;; send_all send2 fmt ;; gets charcount) p2 with
     Ret n p1', Ret n' p2' => n = n' /\ n = charcount p1' /\ pf_sim p1' p2' | Panic, Panic => True | OutOfFuel, OutOfFuel => True | _, _ => False end).
  { intros p1 p2 Hp. specialize (Hs p1 p2 Hp). destruct ((__pf_endfield ;; send_all send1 fmt ;; gets charcount) p1) as [n q1| | |] eqn:E1, ((__pf_endfield ;; send_all send2 fmt ;; gets charcount) p2); try done.
    destruct Hs as [<- Hq]. split; [done|]. split; [|done]. unfold bind, __pf_endfield, modify in E1.
    destruct (send_all send1 fmt _) as [[] q| | |] in E1; try done. injection E1 as <- <-. done. }
  set (p1 := mkPF T1 t1 args 0 false INTSZ 0 0 0 false ch_space 0 false false).
  set (p2 := mkPF T2 t2 args 0 false INTSZ 0 0 0 false ch_space 0 false false).
  specialize (Hs2 p1 p2 (Build_pf_sim p1 p2 H eq_refl)). revert Hs2.
  destruct ((__pf_endfield ;; send_all send1 fmt ;; gets charcount) p1), ((__pf_endfield ;; send_all send2 fmt ;; gets charcount) p2); try done.
  intros (<- & -> & [Hd _]). done.
Qed.

End sim.

(** ** [snprintf] stores a prefix *)

(** The context of [snprintf] after the text [t]. *)
Definition snp_after (b : list Z) (l : nat) (t : list Z) : SNP :=
  let k := Nat.min l (length t) in mkSNP (take k t ++ drop k b) (Z.of_nat l) (Z.of_nat k).

Lemma i32_add a c : i32 (i32 a + c) = i32 (a + c).
Proof.
  unfold swrap. set (w := 2 ^ 32). assert (Hm : forall x y, x mod w = y mod w -> (let u := x mod w in if u <? 2 ^ (32 - 1) then u else u - w) = (let u := y mod w in if u <? 2 ^ (32 - 1) then u else u - w)) by (intros x y ->; done).
  apply Hm. cbn zeta. destruct (a mod w <? _).
  - by rewrite Z.add_mod_idemp_l.
  - replace (a mod w - w + c) with (a mod w + c + (-1) * w) by lia. rewrite Z.mod_add by done. by rewrite Z.add_mod_idemp_l.
Qed.

Section snp.
Context (b : list Z) (l : nat).
Hypothesis fits : (l <= length b)%nat /\ Z.of_nat l < 2 ^ 32.

Lemma snprintf_char_after t c : snprintf_char c (snp_after b l t) = Ret tt (snp_after b l (t ++ [c])).
Proof.
  unfold snprintf_char, snp_after. cbv zeta. cbn [bufpos buflen buf]. rewrite (length_app t [c]). cbn [length].
  destruct (Z.ltb_spec (Z.of_nat (Nat.min l (length t))) (Z.of_nat l)) as [Hlt|Hge].
  - assert (Nat.min l (length t) = length t) as -> by lia. assert (Nat.min l (length t + 1) = length t + 1)%nat as -> by lia.
    rewrite length_app, length_take, length_drop.
    rewrite (proj2 (Z.leb_le _ _)), (proj2 (Z.ltb_lt _ _)) by lia. cbn [andb]. rewrite wrap_small by lia.
    do 2 f_equal; [|lia]. unfold zinsert. rewrite (proj2 (Z.leb_le _ _)), Nat2Z.id by lia.
    rewrite !take_ge by (rewrite ?length_app; cbn; lia).
    rewrite insert_app_r_alt by lia. rewrite Nat.sub_diag, <- app_assoc. f_equal.
    destruct (drop (length t) b) as [|x r] eqn:E; [apply (f_equal length) in E; rewrite length_drop in E; cbn in E; lia|].
    cbn. f_equal. rewrite Nat.add_comm. cbn [Nat.add]. change (S (length t)) with (1 + length t)%nat. rewrite Nat.add_comm, <- drop_drop, E. done.
  - assert (Nat.min l (length t) = l) as -> by lia. assert (Nat.min l (length t + 1) = l)%nat as -> by lia. by rewrite take_app_le by lia.
Qed.

Lemma snprintf_send_after data t : __snprintf_send data (snp_after b l t) = Ret tt (snp_after b l (t ++ data)).
Proof.
  revert t. induction data as [|c d IH]; intros t; cbn [__snprintf_send]; [by rewrite app_nil_r|].
  unfold bind. rewrite snprintf_char_after, IH, <- app_assoc. done.
Qed.

End snp.

(** C26: [vsnprintf] into a buffer [b], for any format and arguments: where
    the engine, sending to a client that keeps everything, makes [text], it
    stores the longest prefix of [text] that leaves room for the terminator
    in the [len] bytes it was given, terminates it, changes nothing else (not
    a byte when [len] is 0) and returns the length of the whole text. *)
Theorem vsnprintf_truncates b len fmt args chars text :
  printf_text fmt args = Ret chars text -> 0 <= len <= Z.of_nat (length b) -> len < 2 ^ 32 ->
  chars = i32 (Z.of_nat (length text)) /\
  vsnprintf b len fmt args tt =
    Ret (if len =? 0 then b else
           let k := Nat.min (Z.to_nat (len - 1)) (length text) in take k text ++ 0 :: drop (S k) b, chars) tt.
Proof.
  intros Ht Hlen H32. set (l := Z.to_nat (if len =? 0 then 0 else len - 1)).
  assert (Hl : (l <= length b)%nat /\ Z.of_nat l < 2 ^ 32) by (unfold l; destruct (Z.eqb_spec len 0); lia).
  assert (Hinit : mkSNP b (if len =? 0 then 0 else u32 (len - 1)) 0 = snp_after b l []).
  { unfold snp_after. rewrite Nat.min_0_r. cbn. f_equal. unfold l. destruct (Z.eqb_spec len 0); [done|]. rewrite wrap_small by lia. lia. }
  pose proof (vprintf_sim collect __snprintf_send (fun t snp n => snp = snp_after b l t /\ n = i32 (Z.of_nat (length t)))) as Hsim.
  specialize (Hsim ltac:(intros txt t1 t2 n [-> ->]; exists (t1 ++ txt), (snp_after b l (t1 ++ txt)); split; [done|]; split;
    [by apply snprintf_send_after | split; [done|]; rewrite i32_add, length_app; f_equal; lia])).
  specialize (Hsim fmt args [] (snp_after b l []) ltac:(done)). unfold printf_text in Ht. rewrite Ht in Hsim.
  unfold vsnprintf. rewrite Hinit. destruct (__vprintf __snprintf_send fmt args (snp_after b l [])) as [n snp| | |]; try done.
  destruct Hsim as (<- & -> & Hn). split; [done|]. unfold snp_after; cbv zeta; cbn [bufpos buf].
  destruct (Z.ltb_spec 0 len) as [Hpos|Hz].
  - destruct (Z.eqb_spec len 0); [lia|]. assert (l = Z.to_nat (len - 1)) as El by (unfold l; destruct (Z.eqb_spec len 0); lia). rewrite <- El.
    set (k := Nat.min l (length text)). rewrite length_app, length_take, length_drop.
    rewrite (proj2 (Z.leb_le _ _)), (proj2 (Z.ltb_lt _ _)) by lia. cbn [andb]. do 2 f_equal.
    unfold zinsert. rewrite (proj2 (Z.leb_le _ _)), Nat2Z.id by lia. rewrite insert_app_r_alt by (rewrite length_take; lia).
    f_equal. rewrite length_take. replace (k - Nat.min k (length text))%nat with 0%nat by lia.
    destruct (drop k b) as [|x r] eqn:E; [apply (f_equal length) in E; rewrite length_drop in E; cbn in E; lia|].
    cbn. f_equal. change (S k) with (1 + k)%nat. rewrite Nat.add_comm, <- drop_drop, E. done.
  - assert (len = 0) as -> by lia. rewrite Z.eqb_refl. assert (l = 0%nat) as -> by done. cbn. done.
Qed.

(** ** The digits of a number *)

(** The number that digits stand for. *)
Definition value_from (b v : Z) (ds : list Z) : Z := fold_left (fun v d => v * b + d) ds v.
Definition value (b : Z) (ds : list Z) : Z := value_from b 0 ds.

Definition digit_char (d : Z) : Z := if d <? 10 then 48 + d else 87 + d.

Lemma digits_lookup d : 0 <= d < 16 -> zlookup digits d = Some (digit_char d).
Proof.
  intros H. assert (Hd : d = 0 \/ d = 1 \/ d = 2 \/ d = 3 \/ d = 4 \/ d = 5 \/ d = 6 \/ d = 7 \/ d = 8 \/ d = 9 \/ d = 10 \/ d = 11 \/ d = 12 \/ d = 13 \/ d = 14 \/ d = 15) by lia.
  by repeat destruct Hd as [->|Hd]; [..|rewrite Hd].
Qed.

(** [ds] are the digits of [n] in base [b]: as many as it needs. *)
Record digits_of (b n : Z) (ds : list Z) : Prop := {
  do_range : Forall (fun d => 0 <= d < b) ds;
  do_value : value b ds = n;
  do_some : ds <> [];
  do_short : ds !! 0%nat = Some 0 -> ds = [0]
}.

Lemma value_snoc b ds d : value b (ds ++ [d]) = value b ds * b + d.
Proof. unfold value, value_from. by rewrite fold_left_app. Qed.

Lemma digits_of_one b n : 0 <= n < b -> digits_of b n [n].
Proof. intros H. split; [by apply Forall_singleton | unfold value; cbn; lia | done | by intros [= ->]]. Qed.

Lemma digits_of_snoc b n ds : 1 < b -> b <= n -> digits_of b (n / b) ds -> digits_of b n (ds ++ [n mod b]).
Proof.
  intros Hb Hn [H1 H2 H3 H4]. split.
  - apply Forall_app. split; [done|]. apply Forall_singleton. apply Z.mod_pos_bound; lia.
  - rewrite value_snoc, H2. pose proof (Z.div_mod n b). lia.
  - by destruct ds.
  - destruct ds as [|d ds]; [done|]. cbn. intros [= ->]. specialize (H4 eq_refl). injection H4 as ->.
    unfold value in H2. cbn in H2. pose proof (Z.div_str_pos n b ltac:(lia)). lia.
Qed.

Lemma printnum_loop_digits {S} (s : S) b fuel buf x n :
  1 < b <= 16 -> 0 <= n < b ^ Z.of_nat fuel -> n < b ^ (Z.of_nat x + 1) -> (0 < fuel)%nat -> (x < length buf)%nat ->
  exists ds, digits_of b n ds /\ (length ds <= x + 1)%nat /\
    printnum_loop fuel b buf (Z.of_nat x) n s =
    Ret (take (x + 1 - length ds) buf ++ (digit_char <$> ds) ++ drop (x + 1) buf, Z.of_nat x - Z.of_nat (length ds)) s.
Proof.
  intros Hb. revert buf x n. induction fuel as [|fuel IH]; intros buf x n Hn Hx Hf Hl; [lia|].
  pose proof (Z.mod_pos_bound n b ltac:(lia)) as Hm. cbn [printnum_loop]. unfold bind at 1, oob. rewrite digits_lookup by lia.
  unfold ret at 1, bind, in_bounds. rewrite (proj2 (Z.leb_le _ _)), (proj2 (Z.ltb_lt _ _)) by lia. cbn [andb]. unfold ret at 1.
  unfold zinsert. rewrite (proj2 (Z.leb_le _ _)), Nat2Z.id by lia. set (buf1 := <[x := digit_char (n mod b)]> buf).
  destruct (Z.ltb_spec 0 (n / b)) as [Hq|Hq].
  - assert (Hbn : b <= n) by (destruct (Z.lt_ge_cases n b); [rewrite Z.div_small in Hq by lia; lia | done]).
    destruct x as [|x]; [change (b ^ (Z.of_nat 0 + 1)) with (b ^ 1) in Hx; rewrite Z.pow_1_r in Hx; lia|].
    destruct (IH buf1 x (n / b)) as (ds & Hd & Hlen & Hr).
    + split; [apply Z.div_pos; lia|]. apply Z.div_lt_upper_bound; [lia|]. rewrite <- Z.pow_succ_r by lia. replace (Z.succ (Z.of_nat fuel)) with (Z.of_nat (Datatypes.S fuel)) by lia. lia.
    + apply Z.div_lt_upper_bound; [lia|]. rewrite <- Z.pow_succ_r by lia. replace (Z.succ (Z.of_nat x + 1)) with (Z.of_nat (Datatypes.S x) + 1) by lia. done.
    + destruct fuel; [|lia]. change (b ^ Z.of_nat 1) with (b ^ 1) in Hn. rewrite Z.pow_1_r in Hn. lia.
    + unfold buf1. rewrite length_insert. lia.
    + exists (ds ++ [n mod b]). split; [by apply digits_of_snoc; [lia..|]|]. rewrite length_app. cbn [length]. split; [lia|].
      replace (Z.of_nat (Datatypes.S x) - 1) with (Z.of_nat x) by lia. rewrite Hr. f_equal. f_equal; [|lia].
      replace (Datatypes.S x + 1 - (length ds + 1))%nat with (x + 1 - length ds)%nat by lia.
      unfold buf1. rewrite take_insert_ge by lia. f_equal. rewrite fmap_app, <- app_assoc. f_equal. cbn [fmap list_fmap app].
      replace (x + 1)%nat with (Datatypes.S x) by lia. rewrite (drop_S _ (digit_char (n mod b))) by (apply list_lookup_insert_eq; lia). f_equal.
      rewrite drop_insert_lt by lia. f_equal. lia.
  - exists [n]. assert (Hnb : n < b) by (apply Z.nle_gt; intros Hle; pose proof (Z.div_str_pos n b ltac:(lia)); lia).
    split; [apply digits_of_one; lia|]. cbn [length]. split; [lia|]. unfold ret. f_equal. f_equal. unfold buf1. rewrite Z.mod_small by lia.
    replace (x + 1 - 1)%nat with x by lia. rewrite insert_take_drop by lia. cbn. f_equal. f_equal. f_equal. lia.
Qed.

(** What [__pf_printnum] prints; the digits of every number of 64 bits find
    room in its buffer. *)
Lemma printnum_prints {T} (send : list Z -> M T unit) pf :
  0 <= num pf < 2 ^ 64 -> base pf = 8 \/ base pf = 10 \/ base pf = 16 ->
  exists ds, digits_of (base pf) (num pf) ds /\
    __pf_printnum send pf =
    __pf_printstuff send (if sign pf =? 0 then [] else [ch_minus])
      (if baseprefix pf && (base pf =? 16) then [ch_0; ch_x] else if baseprefix pf && (base pf =? 8) then [ch_0] else [])
      (digit_char <$> ds) pf.
Proof.
  intros Hn Hb. change NUMBER_BUF_SIZE with 23.
  destruct (printnum_loop_digits pf (base pf) 64 (replicate 23 0) 21 (num pf)) as (ds & Hd & Hl & Hr); [lia | | | lia | rewrite length_replicate; lia|].
  - split; [lia|]. apply Z.lt_le_trans with (2 ^ 64); [lia|]. apply Z.pow_le_mono_l. lia.
  - apply Z.lt_le_trans with (8 ^ 22); [lia|]. apply Z.pow_le_mono_l. lia.
  - exists ds. split; [done|]. unfold __pf_printnum, bind at 1, get. change (zinsert (NUMBER_BUF_SIZE - 1) 0 (replicate (Z.to_nat NUMBER_BUF_SIZE) 0)) with (replicate 23 0).
    unfold bind at 1. change (NUMBER_BUF_SIZE - 1 - 1) with (Z.of_nat 21). rewrite Hr. cbv iota beta. f_equal.
    change (Z.to_nat (NUMBER_BUF_SIZE - 1)) with 22%nat.
    replace (Z.to_nat (Z.of_nat 21 - Z.of_nat (length ds) + 1)) with (21 + 1 - length ds)%nat by lia.
    rewrite app_assoc, take_app_le by (rewrite length_app, length_fmap, length_take, length_replicate; lia).
    rewrite take_ge by (rewrite length_app, length_fmap, length_take, length_replicate; lia).
    rewrite drop_app_ge by (rewrite length_take, length_replicate; lia). rewrite length_take, length_replicate.
    replace (21 + 1 - length ds - Nat.min (21 + 1 - length ds) 23)%nat with 0%nat by lia. done.
Qed.

(** ** What the collecting client sees *)

(** [pf'] is [pf] after it has sent [t]. *)
Definition sent (t : list Z) (pf pf' : PF (list Z)) : Prop := exists n, pf' = set_out (clientdata pf ++ t) n pf.

Lemma sent_nil pf : sent [] pf pf.
Proof. exists (charcount pf). destruct pf; cbn. unfold set_out; cbn. by rewrite app_nil_r. Qed.

Lemma sent_app t u pf pf1 pf2 : sent t pf pf1 -> sent u pf1 pf2 -> sent (t ++ u) pf pf2.
Proof. intros [n ->] [n' ->]. exists n'. unfold set_out; cbn. by rewrite app_assoc. Qed.

Lemma print_sends txt pf : exists pf', __pf_print collect txt pf = Ret tt pf' /\ sent txt pf pf'.
Proof. eexists. split; [reflexivity|]. by eexists. Qed.

Lemma fill_sends spc pf : exists pf', __pf_fill collect spc pf = Ret tt pf' /\ sent (replicate (Z.to_nat spc) (fillchar pf)) pf pf'.
Proof.
  unfold __pf_fill, bind at 1, gets. generalize 0. generalize (fillchar pf) as f. intros f. revert pf.
  induction (Z.to_nat spc) as [|n IH]; intros pf z; cbn [for_each replicate]; [eexists; split; [reflexivity | apply sent_nil]|].
  destruct (print_sends [f] pf) as (pf1 & E & S1). destruct (IH pf1 (z + 1)) as (pf2 & E2 & S2).
  exists pf2. unfold bind. rewrite E. split; [done|]. by apply (sent_app [f] _ pf pf1 pf2).
Qed.

(** The padding of a field. *)
Definition padding (pf : PF (list Z)) (len : nat) : nat := Z.to_nat (if Z.of_nat len <? spacing pf then spacing pf - Z.of_nat len else 0).

(** A field: spaces go before the prefixes and zeros behind them; on the
    right goes the fill character, whatever it is. *)
Definition field (pf : PF (list Z)) (p q s : list Z) : list Z :=
  let pad := replicate (padding pf (length p + length q + length s)) (fillchar pf) in
  if rightspc pf then p ++ q ++ s ++ pad
  else if fillchar pf =? ch_0 then p ++ q ++ pad ++ s else pad ++ p ++ q ++ s.

Lemma when_fill_sends b spc pf : exists pf', when b (__pf_fill collect spc) pf = Ret tt pf' /\
  sent (if b then replicate (Z.to_nat spc) (fillchar pf) else []) pf pf'.
Proof. destruct b; [apply fill_sends | exists pf; split; [done | apply sent_nil]]. Qed.

Lemma sent_fillchar t pf pf' : sent t pf pf' -> fillchar pf' = fillchar pf.
Proof. by intros [n ->]. Qed.

Lemma printstuff_sends p q s pf : exists pf', __pf_printstuff collect p q s pf = Ret tt pf' /\ sent (field pf p q s) pf pf'.
Proof.
  unfold __pf_printstuff, bind at 1, get. set (spc := if Z.of_nat _ <? spacing pf then _ else _).
  destruct (when_fill_sends ((0 <? spc) && negb (rightspc pf) && negb (fillchar pf =? ch_0)) spc pf) as (f1 & E1 & S1).
  destruct (print_sends p f1) as (f2 & E2 & S2). destruct (print_sends q f2) as (f3 & E3 & S3).
  destruct (when_fill_sends ((0 <? spc) && negb (rightspc pf) && (fillchar pf =? ch_0)) spc f3) as (f4 & E4 & S4).
  destruct (print_sends s f4) as (f5 & E5 & S5).
  destruct (when_fill_sends ((0 <? spc) && rightspc pf) spc f5) as (f6 & E6 & S6).
  exists f6. unfold bind. rewrite E1, E2, E3, E4, E5, E6. split; [done|].
  pose proof (sent_app _ _ _ _ _ S1 (sent_app _ _ _ _ _ S2 (sent_app _ _ _ _ _ S3 (sent_app _ _ _ _ _ S4 (sent_app _ _ _ _ _ S5 S6))))) as Hs.
  assert (F3 : fillchar f3 = fillchar pf) by (rewrite (sent_fillchar _ _ _ S3), (sent_fillchar _ _ _ S2); by apply (sent_fillchar _ _ _ S1)).
  assert (F5 : fillchar f5 = fillchar pf) by (rewrite (sent_fillchar _ _ _ S5), (sent_fillchar _ _ _ S4); done).
  rewrite F3, F5 in Hs. enough (field pf p q s = _) as -> by exact Hs. unfold field, padding. fold spc.
  destruct (Z.ltb_spec 0 spc) as [Hp|Hp]; cbn [andb]; [|replace (Z.to_nat spc) with 0%nat by lia].
  - destruct (rightspc pf), (fillchar pf =? ch_0); cbn; by rewrite ?app_nil_r.
  - cbn [replicate]. destruct (rightspc pf), (fillchar pf =? ch_0); cbn; by rewrite ?app_nil_r.
Qed.

(** ** The engine returns *)

Inductive argkind := KWord | KLong | KStr.

(** What a format asks for. *)
Fixpoint wanted (pct : bool) (sz : intsize) (fmt : list Z) : list argkind :=
  match fmt with
  | [] => []
  | ch :: f =>
      if negb pct then wanted (ch =? ch_percent) INTSZ f
      else if char_in ch modifiers then
        wanted true (if ch =? ch_l then match sz with LONGSZ => LLONGSZ | _ => LONGSZ end else if ch =? ch_z then SIZETSZ else sz) f
      else if char_in ch inttypes then
        match sz with LLONGSZ => if ch =? ch_p then KWord else KLong | _ => KWord end :: wanted false INTSZ f
      else if ch =? ch_s then KStr :: wanted false INTSZ f
      else if ch =? ch_c then KWord :: wanted false INTSZ f
      else wanted false INTSZ f
  end.

Fixpoint suits (args : list vararg) (kinds : list argkind) : Prop :=
  match kinds, args with
  | [], _ => True
  | KWord :: k, VWord _ :: a | KLong :: k, VLong _ :: a | KStr :: k, VStr _ :: a => suits a k
  | _, _ => False
  end.

(** A modifier changes nothing but the field. *)
Lemma modifier_steps ch (pf : PF (list Z)) : ch ∈ modifiers -> exists pf', __pf_modifier ch pf = Ret tt pf' /\
  clientdata pf' = clientdata pf /\ ap pf' = ap pf /\ in_pct pf' = in_pct pf /\ sign pf' = sign pf /\
  size pf' = (if ch =? ch_l then match size pf with LONGSZ => LLONGSZ | _ => LONGSZ end else if ch =? ch_z then SIZETSZ else size pf) /\
  (ch <> ch_minus -> rightspc pf' = rightspc pf) /\ (ch <> ch_0 -> fillchar pf' = fillchar pf) /\
  (fillchar pf' = fillchar pf \/ fillchar pf' = ch_0).
Proof.
  intros H. unfold modifiers in H. cbn in H. repeat (apply elem_of_cons in H; destruct H as [->|H]); [..|by apply not_elem_of_nil in H].
  all: eexists; split; [reflexivity|]; cbn.
  all: try match goal with |- context [if ?b then set_spacing _ _ else _] => destruct b end; cbn.
  all: split_and!; try done; auto.
Qed.

Lemma send_in_pct ch (pf : PF (list Z)) : ch <> 0 -> in_pct pf = true ->
  __pf_send collect ch pf =
  (if char_in ch modifiers then __pf_modifier ch
   else if char_in ch inttypes then __pf_getnum ch ;; __pf_setbase ch ;; __pf_printnum collect ;; __pf_endfield
   else if ch =? ch_s then str <- va_str ;; __pf_printstuff collect [] [] (default null_text str) ;; __pf_endfield
   else c <- (if ch =? ch_c then z <- va_word ;; ret (u8 z) else ret ch) ;;
        __pf_printstuff collect [] [] (if c =? 0 then [] else [c]) ;; __pf_endfield) pf.
Proof.
  intros H0 Hp. unfold __pf_send, bind at 1, KASSERT. rewrite (proj2 (Z.eqb_neq _ _) H0). cbn [negb]. unfold ret at 1, bind at 1, gets. by rewrite Hp.
Qed.

(** The end of a field that has sent [t]. *)
Definition field_done (l : list vararg) (t : list Z) (pf pf' : PF (list Z)) : Prop :=
  in_pct pf' = false /\ size pf' = INTSZ /\ ap pf' = l /\ sign pf' = 0 /\ rightspc pf' = false /\ fillchar pf' = ch_space /\
  clientdata pf' = clientdata pf ++ t.

Lemma stuff_ends p q s pf pf1 : clientdata pf1 = clientdata pf -> exists pf', (__pf_printstuff collect p q s ;; __pf_endfield) pf1 = Ret tt pf' /\
  field_done (ap pf1) (field pf1 p q s) pf pf'.
Proof.
  intros Hc. destruct (printstuff_sends p q s pf1) as (pf2 & E & [n ->]). unfold bind. rewrite E. eexists. split; [reflexivity|].
  unfold field_done; cbn. by rewrite Hc.
Qed.

Lemma num_ends pf pf1 : clientdata pf1 = clientdata pf -> 0 <= num pf1 < 2 ^ 64 -> base pf1 = 8 \/ base pf1 = 10 \/ base pf1 = 16 ->
  exists pf' ds, digits_of (base pf1) (num pf1) ds /\ (__pf_printnum collect ;; __pf_endfield) pf1 = Ret tt pf' /\
  field_done (ap pf1) (field pf1 (if sign pf1 =? 0 then [] else [ch_minus])
      (if baseprefix pf1 && (base pf1 =? 16) then [ch_0; ch_x] else if baseprefix pf1 && (base pf1 =? 8) then [ch_0] else [])
      (digit_char <$> ds)) pf pf'.
Proof.
  intros Hc Hn Hb. destruct (printnum_prints collect pf1 Hn Hb) as (ds & Hd & E). destruct (stuff_ends (if sign pf1 =? 0 then [] else [ch_minus])
      (if baseprefix pf1 && (base pf1 =? 16) then [ch_0; ch_x] else if baseprefix pf1 && (base pf1 =? 8) then [ch_0] else [])
      (digit_char <$> ds) pf pf1 Hc) as (pf' & E' & Hf).
  exists pf', ds. split; [done|]. split; [|done]. unfold bind in *. by rewrite E.
Qed.

(** The kinds of argument an integer conversion takes. *)
Definition int_arg (sz : intsize) (ch : Z) (a : vararg) : Prop :=
  match (match sz with LLONGSZ => if ch =? ch_p then KWord else KLong | _ => KWord end), a with
  | KWord, VWord _ => True
  | KLong, VLong _ => True
  | _, _ => False
  end.

Lemma swrap_bound w z : 0 < w -> - 2 ^ (w - 1) <= swrap w z < 2 ^ (w - 1).
Proof.
  intros Hw. unfold swrap. assert (E : 2 ^ w = 2 * 2 ^ (w - 1)) by (rewrite <- Z.pow_succ_r by lia; f_equal; lia).
  assert (P : 0 < 2 ^ (w - 1)) by (apply Z.pow_pos_nonneg; lia). pose proof (Z.mod_pos_bound z (2 ^ w) ltac:(lia)).
  destruct (Z.ltb_spec (z mod 2 ^ w) (2 ^ (w - 1))); lia.
Qed.

(** Fetching a number gives one of 64 bits. *)
Lemma getnum_gets ch a l (pf : PF (list Z)) : ch ∈ inttypes -> ap pf = a :: l -> int_arg (size pf) ch a ->
  exists n sg, __pf_getnum ch pf = Ret tt (set_num n sg (set_ap l pf)) /\ 0 <= n < 2 ^ 64.
Proof.
  intros Hch Hap Ha. unfold __pf_getnum, va_word, va_long, va_arg, gets, modify.
  assert (Hu : forall z, 0 <= u32 z < 2 ^ 64) by (intros z; pose proof (wrap_bound 32 z ltac:(done)); lia).
  assert (Hi : forall z, - 2 ^ 31 <= i32 z < 2 ^ 31) by (intros z; apply (swrap_bound 32); lia).
  destruct (ch =? ch_p) eqn:Ep; [|destruct (ch =? ch_d)]; unfold int_arg in Ha; rewrite Ep in Ha.
  - unfold bind. rewrite Hap. destruct (size pf), a as [z|z|z]; try done; eexists _, _; (split; [reflexivity | apply Hu]).
  - unfold bind. destruct (size pf) eqn:Es, a as [z|z|z]; try done; cbn; rewrite Hap; cbn.
    all: match goal with |- context [?x <? 0] => destruct (Z.ltb_spec x 0) as [Hneg|Hpos] end; eexists _, _; (split; [reflexivity|]).
    all: try (pose proof (wrap_bound 64 (- i32 z) ltac:(done)); lia); try (pose proof (wrap_bound 64 (- i64 z) ltac:(done)); lia); try (specialize (Hi z); lia).
    pose proof (swrap_bound 64 z ltac:(lia)). lia.
  - unfold bind. destruct (size pf) eqn:Es, a as [z|z|z]; try done; cbn; rewrite Hap; cbn; eexists _, _; (split; [reflexivity|]); try apply Hu.
    pose proof (wrap_bound 64 z ltac:(done)). lia.
Qed.

Lemma setbase_base ch (pf : PF (list Z)) : ch ∈ inttypes -> exists b p, __pf_setbase ch pf = Ret tt (set_base b p pf) /\ (b = 8 \/ b = 10 \/ b = 16).
Proof.
  intros H. unfold __pf_setbase, modify. eexists _, _. split; [reflexivity|].
  unfold inttypes in H. repeat (apply elem_of_cons in H; destruct H as [->|H]); [cbn; lia..|by apply not_elem_of_nil in H].
Qed.

Lemma int_ends ch a l pf : ch ∈ inttypes -> ap pf = a :: l -> int_arg (size pf) ch a ->
  exists pf' t, (__pf_getnum ch ;; __pf_setbase ch ;; __pf_printnum collect ;; __pf_endfield) pf = Ret tt pf' /\ field_done l t pf pf'.
Proof.
  intros Hch Hap Ha. destruct (getnum_gets ch a l pf Hch Hap Ha) as (n & sg & E1 & Hn).
  destruct (setbase_base ch (set_num n sg (set_ap l pf)) Hch) as (b & p & E2 & Hb).
  destruct (num_ends pf (set_base b p (set_num n sg (set_ap l pf))) eq_refl Hn Hb) as (pf' & ds & _ & E3 & Hf).
  eexists pf', _. split; [|exact Hf]. unfold bind in *. by rewrite E1, E2.
Qed.

Lemma send_all_returns fmt (pf : PF (list Z)) :
  Forall (fun c => c <> 0) fmt -> (in_pct pf = false -> size pf = INTSZ) -> suits (ap pf) (wanted (in_pct pf) (size pf) fmt) ->
  exists pf', send_all collect fmt pf = Ret tt pf'.
Proof.
  intros Hf. revert pf. induction Hf as [|ch f Hch Hf IH]; intros pf Hs Hw; cbn [send_all]; [by exists pf|].
  cbn [wanted] in Hw. destruct (in_pct pf) eqn:Hp; cbn [negb] in Hw.
  - assert (Hnext : forall pf' l t, field_done l t pf pf' -> suits l (wanted false INTSZ f) -> exists pf2, send_all collect f pf' = Ret tt pf2).
    { intros pf' l t (H1 & H2 & H3 & _) Hsu. apply IH; rewrite ?H1, ?H2, ?H3; done. }
    unfold bind. rewrite send_in_pct by done. destruct (char_in ch modifiers) eqn:Em.
    + unfold char_in in Em. apply bool_decide_eq_true in Em. destruct (modifier_steps ch pf Em) as (pf' & E & Hc & Ha & Hi & _ & Hsz & _).
      rewrite E. apply IH; rewrite Hi, Hp; [done|]. by rewrite Ha, Hsz.
    + destruct (char_in ch inttypes) eqn:Ei.
      * unfold char_in in Ei. apply bool_decide_eq_true in Ei. destruct (ap pf) as [|a l] eqn:Eap; [exfalso; destruct (size pf), (ch =? ch_p); exact Hw|].
        assert (Hok : int_arg (size pf) ch a /\ suits l (wanted false INTSZ f)).
        { unfold int_arg. destruct (size pf), a, (ch =? ch_p); done. }
        destruct (int_ends ch a l pf Ei Eap (proj1 Hok)) as (pf' & t & E & Hd). rewrite E. apply (Hnext pf' l t Hd (proj2 Hok)).
      * destruct (ch =? ch_s).
        -- cbn in Hw. destruct (ap pf) as [|[]l] eqn:Eap; try done. destruct (stuff_ends [] [] (default null_text s) pf (set_ap l pf) eq_refl) as (pf' & E & Hd).
           unfold va_str, va_arg, bind at 1 2. rewrite Eap. unfold ret at 1. unfold bind in E. cbv iota beta. unfold bind. rewrite E. by apply (Hnext pf' l _ Hd).
        -- destruct (ch =? ch_c).
           ++ cbn in Hw. destruct (ap pf) as [|[]l] eqn:Eap; try done.
              destruct (stuff_ends [] [] (if u8 z =? 0 then [] else [u8 z]) pf (set_ap l pf) eq_refl) as (pf' & E & Hd).
              unfold va_word, va_arg, bind at 1 2 3. rewrite Eap. unfold ret. cbv iota beta. unfold bind in *. rewrite E. by apply (Hnext pf' l _ Hd).
           ++ destruct (stuff_ends [] [] (if ch =? 0 then [] else [ch]) pf pf eq_refl) as (pf' & E & Hd).
              unfold bind at 1, ret. unfold bind in *. rewrite E. by apply (Hnext pf' _ _ Hd).
  - specialize (Hs eq_refl). unfold bind, __pf_send. unfold bind at 1, KASSERT. rewrite (proj2 (Z.eqb_neq _ _) Hch). cbn [negb]. unfold ret at 1, bind, gets. rewrite Hp. cbn [negb andb].
    destruct (ch =? ch_percent) eqn:Epc; cbn [negb].
    + unfold modify. apply IH; cbn; [done|]. by rewrite Hs.
    + destruct (print_sends [ch] pf) as (pf' & E & [n ->]). rewrite E. apply IH; cbn; rewrite Hp; [done|]. by rewrite Hs.
Qed.

(** C28: The printf engine returns for every format and all arguments of the
    kinds the format asks for: it does not fail an assertion, the digits of no
    number overrun the buffer of [NUMBER_BUF_SIZE] bytes, whatever its base,
    and its loops end. *)
Theorem printf_returns fmt args :
  Forall (fun c => c <> 0) fmt -> suits args (wanted false INTSZ fmt) -> exists chars text, printf_text fmt args = Ret chars text.
Proof.
  intros Hf Hs. unfold printf_text, __vprintf. unfold bind at 1, __pf_endfield, modify; cbn [clientdata ap charcount].
  destruct (send_all_returns fmt (mkPF (list Z) [] args 0 false INTSZ 0 0 0 false ch_space 0 false false) Hf ltac:(done) Hs) as [pf' E].
  unfold bind. rewrite E. cbn. eauto.
Qed.

(** ** [atoi] reads what [%d] prints *)

Lemma u32_step v d : u32 (u32 v * 10 + d) = u32 (v * 10 + d).
Proof. unfold wrap. rewrite Z.add_mod, Z.mul_mod_idemp_l by done. by rewrite <- Z.add_mod. Qed.

Lemma digit_of_char d : 0 <= d < 10 -> digit_of (digit_char d) = Some d.
Proof.
  intros H. unfold digit_of, digit_char, ch_0, ch_9. rewrite (proj2 (Z.ltb_lt _ _)), !(proj2 (Z.leb_le _ _)) by lia. cbn. f_equal. lia.
Qed.

Lemma atoi_digits_value v ds rest : Forall (fun d => 0 <= d < 10) ds ->
  atoi_digits (u32 v) ((digit_char <$> ds) ++ rest) = atoi_digits (u32 (value_from 10 v ds)) rest.
Proof.
  intros H. revert v. induction H as [|d ds Hd _ IH]; intros v; [done|]. cbn [fmap list_fmap app atoi_digits].
  rewrite digit_of_char by done. rewrite u32_step, IH. done.
Qed.

Lemma atoi_digits_end v k : atoi_digits v (replicate k ch_space) = v.
Proof. by destruct k. Qed.

Lemma value_zeros v k ds : value_from 10 0 (replicate k 0 ++ ds) = v -> value_from 10 0 ds = v.
Proof. induction k as [|k IH]; [done|]. exact IH. Qed.

Lemma zeros_digits k : replicate k ch_0 = digit_char <$> replicate k 0.
Proof. induction k as [|k IH]; [done|]. cbn. by rewrite IH. Qed.

Lemma skip_spaces k s : skip_blanks (replicate k ch_space ++ s) = skip_blanks s.
Proof. induction k as [|k IH]; [done|]. exact IH. Qed.

(** Digits between blanks, with or without a sign. *)
Lemma atoi_positive ds rest n : Forall (fun d => 0 <= d < 10) ds -> ds <> [] -> value 10 ds = n -> 0 <= n < 2 ^ 31 ->
  atoi_digits (u32 n) rest = u32 n -> atoi ((digit_char <$> ds) ++ rest) = n.
Proof.
  intros H H0 Hv Hn Hr. pose proof (atoi_digits_value 0 ds rest H) as Ha. change (value_from 10 0 ds) with (value 10 ds) in Ha. rewrite Hv, Hr in Ha.
  change (u32 0) with 0 in Ha. rewrite wrap_small in Ha by lia.
  destruct ds as [|d ds]; [done|]. cbn [fmap list_fmap app] in *. apply Forall_cons in H. destruct H as [Hd _].
  assert (Hc : 48 <= digit_char d <= 57) by (unfold digit_char; rewrite (proj2 (Z.ltb_lt d 10)) by lia; lia).
  unfold atoi. cbn [skip_blanks]. unfold ch_space, ch_tab, ch_minus, ch_plus.
  rewrite (proj2 (Z.eqb_neq (digit_char d) 32)), (proj2 (Z.eqb_neq (digit_char d) 9)) by lia. cbn [orb].
  rewrite (proj2 (Z.eqb_neq (digit_char d) 45)), (proj2 (Z.eqb_neq (digit_char d) 43)), Ha by lia. apply swrap_small; lia.
Qed.

Lemma atoi_negative ds rest n : Forall (fun d => 0 <= d < 10) ds -> value 10 ds = n -> 0 < n <= 2 ^ 31 ->
  atoi_digits (u32 n) rest = u32 n -> atoi (ch_minus :: (digit_char <$> ds) ++ rest) = - n.
Proof.
  intros H Hv Hn Hr. pose proof (atoi_digits_value 0 ds rest H) as Ha. change (value_from 10 0 ds) with (value 10 ds) in Ha. rewrite Hv, Hr in Ha.
  change (u32 0) with 0 in Ha. rewrite wrap_small in Ha by lia. cbn. rewrite Ha. unfold wrap.
  replace (- n mod 2 ^ 32) with (2 ^ 32 - n) by (apply Z.mod_unique_pos with (-1); lia).
  unfold swrap. rewrite Z.mod_small by lia. destruct (Z.ltb_spec (2 ^ 32 - n) (2 ^ (32 - 1))); lia.
Qed.

Lemma field_atoi pf z ds : Forall (fun d => 0 <= d < 10) ds -> ds <> [] -> value 10 ds = Z.abs z -> - 2 ^ 31 <= z < 2 ^ 31 ->
  (fillchar pf = ch_space \/ (fillchar pf = ch_0 /\ rightspc pf = false)) ->
  atoi (field pf (if z <? 0 then [ch_minus] else []) [] (digit_char <$> ds)) = z.
Proof.
  intros H H0 Hv Hz Hf. unfold field. set (k := padding pf _). clearbody k.
  assert (Hzs : Forall (fun d => 0 <= d < 10) (replicate k 0 ++ ds)) by (apply Forall_app; split; [apply Forall_replicate; lia | done]).
  assert (Hvz : value 10 (replicate k 0 ++ ds) = Z.abs z).
  { rewrite <- Hv. unfold value. symmetry. by apply (value_zeros _ k ds). }
  assert (Hne : replicate k 0 ++ ds <> []) by (destruct k, ds; done).
  destruct (Z.ltb_spec z 0) as [Hneg|Hpos].
  - replace z with (- Z.abs z) at 1 by lia. destruct Hf as [->|[-> ->]].
    + cbn [Z.eqb]. destruct (rightspc pf).
      * cbn [app]. apply atoi_negative; try done; [lia|]. apply atoi_digits_end.
      * change (ch_space =? ch_0) with false. cbn [app]. unfold atoi. rewrite skip_spaces. change (- Z.abs z) with (- Z.abs z).
        pose proof (atoi_negative ds [] (Z.abs z) H Hv ltac:(lia) eq_refl) as Ha. rewrite app_nil_r in Ha. exact Ha.
    + change (ch_0 =? ch_0) with true. cbn [app]. rewrite zeros_digits, <- fmap_app.
      pose proof (atoi_negative (replicate k 0 ++ ds) [] (Z.abs z) Hzs Hvz ltac:(lia) eq_refl) as Ha. by rewrite app_nil_r in Ha.
  - replace (Z.abs z) with z in * by lia. destruct Hf as [->|[-> ->]].
    + destruct (rightspc pf).
      * cbn [app]. apply atoi_positive; try done; [lia|]. apply atoi_digits_end.
      * change (ch_space =? ch_0) with false. cbn [app]. unfold atoi. rewrite skip_spaces.
        pose proof (atoi_positive ds [] z H H0 Hv ltac:(lia) eq_refl) as Ha. rewrite app_nil_r in Ha. exact Ha.
    + change (ch_0 =? ch_0) with true. cbn [app]. rewrite zeros_digits, <- fmap_app.
      pose proof (atoi_positive (replicate k 0 ++ ds) [] z Hzs Hne Hvz ltac:(lia) eq_refl) as Ha. by rewrite app_nil_r in Ha.
Qed.

(** The state of the engine after the modifiers of a field. *)
Lemma modifiers_step mods (pf : PF (list Z)) : Forall (fun c => c ∈ modifiers) mods -> in_pct pf = true -> size pf <> LLONGSZ -> ch_l ∉ mods ->
  exists pf', (forall f, send_all collect (mods ++ f) pf = send_all collect f pf') /\
  clientdata pf' = clientdata pf /\ ap pf' = ap pf /\ in_pct pf' = true /\ sign pf' = sign pf /\ size pf' <> LLONGSZ /\
  (ch_minus ∉ mods -> rightspc pf' = rightspc pf) /\ (ch_0 ∉ mods -> fillchar pf' = fillchar pf) /\
  (fillchar pf' = fillchar pf \/ fillchar pf' = ch_0).
Proof.
  intros H. revert pf. induction H as [|c mods Hc _ IH]; intros pf Hp Hs Hl; [exists pf; cbn; split_and!; auto|].
  apply not_elem_of_cons in Hl. destruct Hl as [Hlc Hl].
  destruct (modifier_steps c pf Hc) as (pf1 & E & A1 & A2 & A3 & A4 & A5 & A6 & A7 & A8).
  rewrite (proj2 (Z.eqb_neq c ch_l)) in A5 by done.
  destruct (IH pf1) as (pf' & F & B1 & B2 & B3 & B4 & B5 & B6 & B7 & B8); [by rewrite A3 | rewrite A5; by destruct (c =? ch_z) | done|].
  exists pf'. split_and!; try congruence.
  - intros f. cbn [app send_all]. unfold bind. rewrite send_in_pct; [|intros ->; apply (bool_decide_pack _) in Hc; vm_compute in Hc; done | done].
    unfold char_in at 1. rewrite bool_decide_true by done. rewrite E. apply F.
  - intros [N1 N2]%not_elem_of_cons. rewrite B6, A6 by done. done.
  - intros [N1 N2]%not_elem_of_cons. rewrite B7, A7 by done. done.
  - destruct B8 as [->|?]; [done | by right].
Qed.


(** With both flags the zeros go to the right: [%-05d] of 5 is 50000. *)
Example left_zero_padding : printf_text [37; 45; 48; 53; 100] [VWord 5] = Ret 5 [53; 48; 48; 48; 48] /\ atoi [53; 48; 48; 48; 48] = 50000.
Proof. vm_compute. done. Qed.

(** ** On examples *)

Lemma vsnprintf_truncates_witness :
  vsnprintf [1; 1; 1; 1; 1] 4 [37; 48; 53; 100] [VWord (-42)] tt = Ret ([45; 48; 48; 0; 1], 5) tt.
Proof.
  destruct (vsnprintf_truncates [1; 1; 1; 1; 1] 4 [37; 48; 53; 100] [VWord (-42)] 5 [45; 48; 48; 52; 50]) as [_ H];
    [vm_compute; reflexivity | cbn; lia | lia | exact H].
Defined.

Lemma printf_returns_witness : exists chars text, printf_text [37; 35; 108; 108; 111] [VLong (2 ^ 64 - 1)] = Ret chars text.
Proof. apply (printf_returns [37; 35; 108; 108; 111] [VLong (2 ^ 64 - 1)]); [repeat constructor; lia | exact I]. Defined.

