(* ===== verification/CString.v ===== *)
(** * Memory and strings, [common/libc/string]

    Memory is a finite map from addresses to bytes; an access outside it is a
    panic of the model.  A [long] is four bytes; it is read as a whole before
    it is written. *)

From stdpp Require Import gmap.
From S2P Require Import Prelude.

Abbreviation memory := (gmap Z Z).

Definition load (a : Z) : M memory Z := m <- get ;; oob (m !! a).

Definition store (a v : Z) : M memory unit := m <- get ;;
  in_bounds (bool_decide (is_Some (m !! a))) ;; put (<[a := v]> m).

Fixpoint load_bytes (a : Z) (n : nat) : M memory (list Z) :=
  match n with
  | O => ret []
  | S n' => c <- load a ;; l <- load_bytes (a + 1) n' ;; ret (c :: l)
  end.

Fixpoint store_bytes (a : Z) (l : list Z) : M memory unit :=
  match l with [] => ret tt | c :: l' => store a c ;; store_bytes (a + 1) l' end.

(** [for (i = n; i > 0; i--) body(i - 1)] *)
Fixpoint for_down (n : nat) (body : Z -> M memory unit) : M memory unit :=
  match n with O => ret tt | S n' => body (Z.of_nat n') ;; for_down n' body end.

Definition SIZEOF_LONG : Z := 4.

(** [d[i] = s[i]] for elements of [w] bytes. *)
Definition copy_elem (w dst src i : Z) : M memory unit :=
  l <- load_bytes (src + w * i) (Z.to_nat w) ;; store_bytes (dst + w * i) l.

(** ** Blocks *)

Definition memcpy (dst src len : Z) : M memory Z :=
  (if (dst mod SIZEOF_LONG =? 0) && (src mod SIZEOF_LONG =? 0) && (len mod SIZEOF_LONG =? 0)
   then for_each 0 (Z.to_nat (len / SIZEOF_LONG)) (copy_elem SIZEOF_LONG dst src)
   else for_each 0 (Z.to_nat len) (copy_elem 1 dst src)) ;;
  ret dst.

Definition memmove (dst src len : Z) : M memory Z :=
  if dst <? src then memcpy dst src len
  else
    (if (dst mod SIZEOF_LONG =? 0) && (src mod SIZEOF_LONG =? 0) && (len mod SIZEOF_LONG =? 0)
     then for_down (Z.to_nat (len / SIZEOF_LONG)) (copy_elem SIZEOF_LONG dst src)
     else for_down (Z.to_nat len) (copy_elem 1 dst src)) ;;
    ret dst.

Definition memset (ptr ch len : Z) : M memory Z :=
  for_each 0 (Z.to_nat len) (fun i => store (ptr + i) (u8 ch)) ;; ret ptr.

Definition bzero (vblock len : Z) : M memory unit :=
  if (vblock mod SIZEOF_LONG =? 0) && (len mod SIZEOF_LONG =? 0)
  then for_each 0 (Z.to_nat (len / SIZEOF_LONG)) (fun i => store_bytes (vblock + SIZEOF_LONG * i) [0; 0; 0; 0])
  else for_each 0 (Z.to_nat len) (fun i => store (vblock + i) 0).

(** ** Strings *)

(** The loops over a string end within the memory. *)
Definition string_fuel : M memory nat := gets size.

Fixpoint strlen_loop (fuel : nat) (str n : Z) : M memory Z :=
  match fuel with
  | O => fun _ => OutOfFuel
  | S fuel' => c <- load (str + n) ;; if c =? 0 then ret n else strlen_loop fuel' str (n + 1)
  end.
Definition strlen (str : Z) : M memory Z := fuel <- string_fuel ;; strlen_loop fuel str 0.

Fixpoint strcpy_loop (fuel : nat) (dest src i : Z) : M memory Z :=
  match fuel with
  | O => fun _ => OutOfFuel
  | S fuel' => c <- load (src + i) ;; if c =? 0 then ret i else store (dest + i) c ;; strcpy_loop fuel' dest src (i + 1)
  end.
Definition strcpy (dest src : Z) : M memory Z :=
  fuel <- string_fuel ;; i <- strcpy_loop fuel dest src 0 ;; store (dest + i) 0 ;; ret dest.

Definition strcat (dest src : Z) : M memory Z :=
  offset <- strlen dest ;; strcpy (dest + offset) src ;; ret dest.

Fixpoint strcmp_loop (fuel : nat) (a b i : Z) : M memory Z :=
  match fuel with
  | O => fun _ => OutOfFuel
  | S fuel' =>
      x <- load (a + i) ;;
      if x =? 0 then ret i
      else y <- load (b + i) ;; if x =? y then strcmp_loop fuel' a b (i + 1) else ret i
  end.
Definition strcmp (a b : Z) : M memory Z :=
  fuel <- string_fuel ;; i <- strcmp_loop fuel a b 0 ;;
  x <- load (a + i) ;; y <- load (b + i) ;;
  ret (if y <? x then 1 else if x =? y then 0 else -1).

(** [NULL] is 0. *)
Fixpoint strchr_loop (fuel : nat) (s ch : Z) : M memory Z :=
  match fuel with
  | O => fun _ => OutOfFuel
  | S fuel' =>
      c <- load s ;;
      if c =? 0 then ret (if c =? ch then s else 0) else if c =? ch then ret s else strchr_loop fuel' (s + 1) ch
  end.
Definition strchr (s ch_arg : Z) : M memory Z := fuel <- string_fuel ;; strchr_loop fuel s (u8 ch_arg).

Fixpoint strrchr_loop (i : nat) (s ch : Z) : M memory Z :=
  match i with
  | O => ret 0
  | S i' => c <- load (s + Z.of_nat i') ;; if c =? ch then ret (s + Z.of_nat i') else strrchr_loop i' s ch
  end.
Definition strrchr (s ch_arg : Z) : M memory Z := n <- strlen s ;; strrchr_loop (Z.to_nat (n + 1)) s (u8 ch_arg).

(** The two loops of [strtok_r]: over separators and over the word. *)
Fixpoint skip_seps (fuel : nat) (want : bool) (seps p : Z) : M memory Z :=
  match fuel with
  | O => fun _ => OutOfFuel
  | S fuel' =>
      c <- load p ;;
      if c =? 0 then ret p
      else w <- strchr seps c ;; if Bool.eqb (negb (w =? 0)) want then skip_seps fuel' want seps (p + 1) else ret p
  end.

(** [*context] is passed in and handed back with the word. *)
Definition strtok_r (string seps context : Z) : M memory (Z * Z) :=
  let context := if string =? 0 then context else string in
  let head := context in
  if head =? 0 then ret (0, context)
  else
    fuel <- string_fuel ;;
    head <- skip_seps fuel true seps head ;;
    c <- load head ;;
    if c =? 0 then ret (0, 0)
    else
      tail <- skip_seps fuel false seps head ;;
      c <- load tail ;;
      if c =? 0 then ret (head, 0)
      else store tail 0 ;; ret (head, tail + 1).

(** ** The words of a command, [cmd_dispatch] of [kern/main/menu.c] *)

Definition MAXMENUARGS : nat := 16.
Definition E2BIG : Z := 14.

(** The loop [for (word = ...; word != NULL; ...)], with [n] places left. *)
Fixpoint word_loop (n : nat) (seps word context : Z) (args : list Z) : M memory (list Z) :=
  if word =? 0 then ret args
  else
    match n with
    | O => throw E2BIG
    | S n' => r <- strtok_r 0 seps context ;; word_loop n' seps r.1 r.2 (args ++ [word])
    end.

(** [args] of the command [cmd], with the separators at [seps]. *)
Definition cmd_words (seps cmd : Z) : M memory (list Z) :=
  r <- strtok_r cmd seps 0 ;; word_loop MAXMENUARGS seps r.1 r.2 [].
