(* ===== verification/CStringSpec.v ===== *)
(** * What the memory and string functions promise *)

From stdpp Require Import gmap.
From S2P Require Import Prelude CString.

(** ** Blocks *)

(** [n] bytes from [a] on are memory. *)
Definition mapped (m : memory) (a n : Z) : Prop := forall b, a <= b < a + n -> is_Some (m !! b).

(** [m'] is [m] with [n] bytes copied from [src] to [dst]. *)
Definition copied (m m' : memory) (dst src n : Z) : Prop :=
  forall b, m' !! b = if decide (dst <= b < dst + n) then m !! (b - dst + src) else m !! b.

Lemma load_bytes_spec m a n : mapped m a (Z.of_nat n) ->
  exists l, load_bytes a n m = Ret l m /\ length l = n /\ forall j, (j < n)%nat -> l !! j = m !! (a + Z.of_nat j).
Proof.
  revert a. induction n as [|n IH]; intros a H; cbn [load_bytes]; [exists []; split_and!; [done.. | intros; lia]|].
  destruct (H a) as [c Hc]; [lia|]. destruct (IH (a + 1)) as (l & E & Hl & Hj); [intros b Hb; apply H; lia|].
  exists (c :: l). unfold bind at 1, load, bind, get, oob. rewrite Hc. unfold ret at 1. unfold bind in E. rewrite E.
  split; [done|]. split; [cbn; by rewrite Hl|]. intros [|j] Hlt; cbn; [by rewrite Z.add_0_r, Hc|]. rewrite Hj by lia. f_equal. lia.
Qed.

Lemma store_bytes_spec m a l : mapped m a (Z.of_nat (length l)) ->
  exists m', store_bytes a l m = Ret tt m' /\
    forall b, m' !! b = if decide (a <= b < a + Z.of_nat (length l)) then l !! Z.to_nat (b - a) else m !! b.
Proof.
  revert a m. induction l as [|c l IH]; intros a m H; cbn [store_bytes length].
  - exists m. split; [done|]. intros b. destruct (decide _); [lia | done].
  - destruct (IH (a + 1) (<[a := c]> m)) as (m' & E & Hm).
    { intros b Hb. rewrite lookup_insert_ne by lia. apply H. cbn [length]. lia. }
    exists m'. unfold bind, store, bind, get, in_bounds. rewrite bool_decide_true by (apply H; cbn [length]; lia). unfold ret, put.
    split; [done|]. intros b. rewrite Hm. destruct (decide (b = a)) as [->|Hne].
    + rewrite decide_False by lia. rewrite lookup_insert_eq, decide_True by lia. by rewrite Z.sub_diag.
    + rewrite lookup_insert_ne by done. destruct (decide (a + 1 <= b < _)); [rewrite decide_True by lia | rewrite decide_False by lia; done].
      replace (Z.to_nat (b - a)) with (S (Z.to_nat (b - (a + 1)))) by lia. done.
Qed.

Lemma copy_elem_spec m w dst src i : 0 <= w -> mapped m (src + w * i) w -> mapped m (dst + w * i) w ->
  exists m', copy_elem w dst src i m = Ret tt m' /\ copied m m' (dst + w * i) (src + w * i) w.
Proof.
  intros Hw Hs Hd. destruct (load_bytes_spec m (src + w * i) (Z.to_nat w)) as (l & E & Hl & Hj); [by rewrite Z2Nat.id|].
  destruct (store_bytes_spec m (dst + w * i) l) as (m' & E' & Hm); [by rewrite Hl, Z2Nat.id|].
  exists m'. unfold copy_elem, bind. rewrite E, E'. split; [done|]. intros b. rewrite Hm, Hl, Z2Nat.id by done.
  destruct (decide _) as [Hb|]; [|done]. rewrite Hj by lia. f_equal. lia.
Qed.

(** One more element at the end, or at the front. *)
Lemma copied_snoc m m1 m2 dst src n k : 0 <= n -> 0 <= k -> (dst <= src \/ src + n + k <= dst) ->
  copied m m1 dst src n -> copied m1 m2 (dst + n) (src + n) k -> copied m m2 dst src (n + k).
Proof.
  intros Hn Hk Hov H1 H2 b. rewrite H2. destruct (decide (dst + n <= b < dst + n + k)) as [Hb|Hb].
  - rewrite H1, decide_False, decide_True by lia. f_equal. lia.
  - rewrite H1. destruct (decide (dst <= b < dst + n)); [by rewrite decide_True by lia | by rewrite decide_False by lia].
Qed.

Lemma copied_cons m m1 m2 dst src n k : 0 <= n -> 0 <= k -> src <= dst ->
  copied m m1 (dst + k) (src + k) n -> copied m1 m2 dst src k -> copied m m2 dst src (k + n).
Proof.
  intros Hn Hk Hov H1 H2 b. rewrite H2. destruct (decide (dst <= b < dst + k)) as [Hb|Hb].
  - rewrite H1, decide_False, decide_True by lia. done.
  - rewrite H1. destruct (decide (dst + k <= b < _)); [rewrite decide_True by lia; f_equal; lia | by rewrite decide_False by lia].
Qed.

Lemma copied_mapped m m' dst src n a k : mapped m src n -> mapped m a k -> copied m m' dst src n -> mapped m' a k.
Proof. intros Hs Ha H b Hb. rewrite H. destruct (decide _); [apply Hs; lia | by apply Ha]. Qed.

Lemma copied_nil m dst src : copied m m dst src 0.
Proof. intros b. by rewrite decide_False by lia. Qed.

(** Front to back. *)
Lemma copy_forward m w dst src n : 0 < w -> 0 <= n -> mapped m src (w * n) -> mapped m dst (w * n) -> (dst <= src \/ src + w * n <= dst) ->
  wp (for_each 0 (Z.to_nat n) (copy_elem w dst src)) (fun _ m' => copied m m' dst src (w * n)) (fun _ _ => False) m.
Proof.
  intros Hw Hn Hs Hd Hov. apply (wp_for_each (fun j m1 => copied m m1 dst src (w * j))).
  - rewrite Z.mul_0_r. apply copied_nil.
  - intros j m1 Hj Hc. rewrite Z2Nat.id in Hj by lia. assert (w * j + w <= w * n) by nia.
    destruct (copy_elem_spec m1 w dst src j) as (m2 & E & H2); [lia | | |].
    + apply (copied_mapped m m1 dst src (w * j)); [intros b Hb; apply Hs; nia | intros b Hb; apply Hs; nia | done].
    + apply (copied_mapped m m1 dst src (w * j)); [intros b Hb; apply Hs; nia | intros b Hb; apply Hd; nia | done].
    + unfold wp. rewrite E. rewrite Z.mul_add_distr_l, Z.mul_1_r. apply (copied_snoc m m1 m2); try nia; done.
  - intros m' H. rewrite Z2Nat.id in H by lia. exact H.
Qed.

(** Back to front. *)
Lemma copy_backward m w dst src n : 0 < w -> mapped m src (w * Z.of_nat n) -> mapped m dst (w * Z.of_nat n) -> src <= dst ->
  wp (for_down n (copy_elem w dst src)) (fun _ m' => copied m m' dst src (w * Z.of_nat n)) (fun _ _ => False) m.
Proof.
  intros Hw Hs Hd Hov.
  assert (Hgen : forall k m1, (k <= n)%nat -> copied m m1 (dst + w * Z.of_nat k) (src + w * Z.of_nat k) (w * (Z.of_nat n - Z.of_nat k)) ->
    wp (for_down k (copy_elem w dst src)) (fun _ m' => copied m m' dst src (w * Z.of_nat n)) (fun _ _ => False) m1).
  { induction k as [|k IH]; intros m1 Hk Hc; cbn [for_down].
    - apply wp_ret. rewrite Z.mul_0_r, !Z.add_0_r, Z.sub_0_r in Hc. exact Hc.
    - apply wp_bind. destruct (copy_elem_spec m1 w dst src (Z.of_nat k)) as (m2 & E & H2); [lia | | |].
      + apply (copied_mapped _ _ _ _ _ _ _) with (3 := Hc); intros b Hb; apply Hs; nia.
      + apply (copied_mapped _ _ _ _ _ _ _) with (3 := Hc); intros b Hb; [apply Hs | apply Hd]; nia.
      + unfold wp at 1. rewrite E. apply IH; [lia|].
        replace (w * (Z.of_nat n - Z.of_nat k)) with (w + w * (Z.of_nat n - Z.of_nat (S k))) by lia.
        apply (copied_cons m m1 m2); try nia; [|done].
        replace (dst + w * Z.of_nat k + w) with (dst + w * Z.of_nat (S k)) by lia. replace (src + w * Z.of_nat k + w) with (src + w * Z.of_nat (S k)) by lia. done. }
  apply Hgen; [lia|]. rewrite Z.sub_diag, Z.mul_0_r. apply copied_nil.
Qed.

Lemma memcpy_copies m dst src len : 0 <= len -> mapped m src len -> mapped m dst len -> (dst <= src \/ src + len <= dst) ->
  wp (memcpy dst src len) (fun r m' => r = dst /\ copied m m' dst src len) (fun _ _ => False) m.
Proof.
  intros Hl Hs Hd Hov. unfold memcpy. apply wp_bind.
  destruct ((dst mod SIZEOF_LONG =? 0) && (src mod SIZEOF_LONG =? 0) && (len mod SIZEOF_LONG =? 0)) eqn:Ea.
  - apply andb_true_iff in Ea. destruct Ea as [_ Ea]. apply Z.eqb_eq in Ea. unfold SIZEOF_LONG in *.
    assert (Hlen : 4 * (len / 4) = len) by (pose proof (Z.div_mod len 4); lia).
    eapply wp_mono; [apply (copy_forward m 4 dst src (len / 4)); rewrite ?Hlen; try done; try lia; by apply Z.div_pos | | done].
    intros [] m' H. rewrite Hlen in H. by apply wp_ret.
  - eapply wp_mono; [apply (copy_forward m 1 dst src len); rewrite ?Z.mul_1_l; try done; lia | | done].
    intros [] m' H. rewrite Z.mul_1_l in H. by apply wp_ret.
Qed.

(** C29: [memmove] copies a block of memory exactly, whether or not the two
    blocks overlap and in whichever way, by words or by bytes: afterwards the
    destination holds what the source held before and every other byte is as
    it was; it returns the destination and touches nothing else. *)
Theorem memmove_copies m dst src len : 0 <= len -> mapped m src len -> mapped m dst len ->
  wp (memmove dst src len) (fun r m' => r = dst /\ copied m m' dst src len) (fun _ _ => False) m.
Proof.
  intros Hl Hs Hd. unfold memmove. destruct (Z.ltb_spec dst src) as [Hlt|Hge]; [apply memcpy_copies; auto with lia|].
  apply wp_bind. destruct ((dst mod SIZEOF_LONG =? 0) && (src mod SIZEOF_LONG =? 0) && (len mod SIZEOF_LONG =? 0)) eqn:Ea.
  - apply andb_true_iff in Ea. destruct Ea as [_ Ea]. apply Z.eqb_eq in Ea. unfold SIZEOF_LONG in *.
    assert (Hlen : 4 * Z.of_nat (Z.to_nat (len / 4)) = len) by (pose proof (Z.div_mod len 4); pose proof (Z.div_pos len 4); lia).
    eapply wp_mono; [apply (copy_backward m 4 dst src (Z.to_nat (len / 4))); rewrite ?Hlen; try done; lia | | done].
    intros [] m' H. rewrite Hlen in H. by apply wp_ret.
  - eapply wp_mono; [apply (copy_backward m 1 dst src (Z.to_nat len)); rewrite ?Z.mul_1_l, ?Z2Nat.id; try done; lia | | done].
    intros [] m' H. rewrite Z.mul_1_l, Z2Nat.id in H by lia. by apply wp_ret.
Qed.

(** [m'] is [m] with [n] bytes [v] from [a] on. *)
Definition filled (m m' : memory) (a n v : Z) : Prop :=
  forall b, m' !! b = if decide (a <= b < a + n) then Some v else m !! b.

Lemma filled_snoc m m1 m2 a n k v : 0 <= n -> 0 <= k -> filled m m1 a n v -> filled m1 m2 (a + n) k v -> filled m m2 a (n + k) v.
Proof.
  intros Hn Hk H1 H2 b. rewrite H2. destruct (decide (a + n <= b < _)); [by rewrite decide_True by lia|].
  rewrite H1. destruct (decide (a <= b < a + n)); [by rewrite decide_True by lia | by rewrite decide_False by lia].
Qed.

Lemma store_filled m a v : is_Some (m !! a) -> store a v m = Ret tt (<[a := v]> m) /\ filled m (<[a := v]> m) a 1 v.
Proof.
  intros H. unfold store, bind, get, in_bounds. rewrite bool_decide_true by done. split; [done|]. intros b.
  destruct (decide (a <= b < a + 1)); [assert (b = a) as -> by lia; apply lookup_insert_eq | apply lookup_insert_ne; lia].
Qed.

Lemma fill_loop m w a n v (body : Z -> M memory unit) : 0 < w -> 0 <= n -> mapped m a (w * n) ->
  (forall j m1, 0 <= j < n -> mapped m1 (a + w * j) w -> exists m2, body j m1 = Ret tt m2 /\ filled m1 m2 (a + w * j) w v) ->
  wp (for_each 0 (Z.to_nat n) body) (fun _ m' => filled m m' a (w * n) v) (fun _ _ => False) m.
Proof.
  intros Hw Hn Hm Hb. apply (wp_for_each (fun j m1 => filled m m1 a (w * j) v)).
  - intros b. rewrite decide_False by lia. done.
  - intros j m1 Hj Hf. rewrite Z2Nat.id in Hj by lia. destruct (Hb j m1) as (m2 & E & H2); [lia | |].
    + intros b Hb'. rewrite Hf, decide_False by lia. apply Hm. nia.
    + unfold wp. rewrite E. rewrite Z.mul_add_distr_l, Z.mul_1_r. apply (filled_snoc m m1 m2); try nia; done.
  - intros m' H. rewrite Z2Nat.id in H by lia. exact H.
Qed.

Lemma memset_fills m ptr ch len : 0 <= len -> mapped m ptr len ->
  wp (memset ptr ch len) (fun r m' => r = ptr /\ filled m m' ptr len (u8 ch)) (fun _ _ => False) m.
Proof.
  intros Hl Hm. unfold memset. apply wp_bind. eapply wp_mono; [apply (fill_loop m 1 ptr len (u8 ch)); rewrite ?Z.mul_1_l; try done; try lia | | done].
  - intros j m1 Hj Hm1. rewrite Z.mul_1_l in *. destruct (store_filled m1 (ptr + j) (u8 ch)) as [E H]; [apply Hm1; lia|]. eauto.
  - intros [] m' H. rewrite Z.mul_1_l in H. by apply wp_ret.
Qed.

Lemma bzero_zeroes m a len : 0 <= len -> mapped m a len ->
  wp (bzero a len) (fun _ m' => filled m m' a len 0) (fun _ _ => False) m.
Proof.
  intros Hl Hm. unfold bzero. destruct ((a mod SIZEOF_LONG =? 0) && (len mod SIZEOF_LONG =? 0)) eqn:Ea.
  - apply andb_true_iff in Ea. destruct Ea as [_ Ea]. apply Z.eqb_eq in Ea. unfold SIZEOF_LONG in *.
    assert (Hlen : 4 * (len / 4) = len) by (pose proof (Z.div_mod len 4); lia).
    eapply wp_mono; [apply (fill_loop m 4 a (len / 4) 0); rewrite ?Hlen; try done; try lia; try (by apply Z.div_pos) | intros [] m' H; by rewrite Hlen in H | done].
    intros j m1 Hj Hm1. destruct (store_bytes_spec m1 (a + 4 * j) [0; 0; 0; 0]) as (m2 & E & H2); [done|].
    exists m2. split; [done|]. intros b. rewrite H2. cbn [length]. destruct (decide (a + 4 * j <= b < _)) as [Hb|Hb]; [|done].
    assert (Hk : b - (a + 4 * j) = 0 \/ b - (a + 4 * j) = 1 \/ b - (a + 4 * j) = 2 \/ b - (a + 4 * j) = 3) by lia.
    by destruct Hk as [->|[->|[->| ->]]].
  - eapply wp_mono; [apply (fill_loop m 1 a len 0); rewrite ?Z.mul_1_l; try done; try lia | | done].
    + intros j m1 Hj Hm1. rewrite Z.mul_1_l in *. destruct (store_filled m1 (a + j) 0) as [E H]; [apply Hm1; lia|]. eauto.
    + intros [] m' H. by rewrite Z.mul_1_l in H.
Qed.

(** ** Strings *)

(** The string [l] is at [a]. *)
Definition str_at (m : memory) (a : Z) (l : list Z) : Prop :=
  Forall (fun c => c <> 0) l /\ forall i c, (l ++ [0]) !! i = Some c -> m !! (a + Z.of_nat i) = Some c.

Lemma str_at_nil m a : str_at m a [] -> m !! a = Some 0.
Proof. intros [_ H]. specialize (H 0%nat 0 eq_refl). by rewrite Z.add_0_r in H. Qed.

Lemma str_at_cons m a c l : str_at m a (c :: l) -> m !! a = Some c /\ c <> 0 /\ str_at m (a + 1) l.
Proof.
  intros [Hf H]. apply Forall_cons in Hf. destruct Hf as [Hc Hf]. split_and!; [specialize (H 0%nat c eq_refl); by rewrite Z.add_0_r in H | done|].
  split; [done|]. intros i d Hi. replace (a + 1 + Z.of_nat i) with (a + Z.of_nat (S i)) by lia. by apply H.
Qed.

Lemma str_at_app m a l k : str_at m a (l ++ k) -> str_at m (a + Z.of_nat (length l)) k.
Proof.
  intros [Hf H]. apply Forall_app in Hf. split; [apply Hf|]. intros i c Hi. rewrite <- Z.add_assoc, <- Nat2Z.inj_add. apply H.
  rewrite <- app_assoc, lookup_app_r by lia. rewrite <- Hi. f_equal. lia.
Qed.

(** A string is shorter than the memory it is in. *)
Lemma str_at_size m a l : str_at m a l -> (length l < size m)%nat.
Proof.
  intros [_ H]. assert (Hsub : list_to_set (seqZ a (Z.of_nat (S (length l)))) ⊆ dom m).
  { intros b Hb. apply elem_of_list_to_set, elem_of_seqZ in Hb. apply elem_of_dom.
    destruct (lookup_lt_is_Some_2 (l ++ [0]) (Z.to_nat (b - a))) as [c Hc]; [rewrite length_app; cbn; lia|].
    exists c. replace b with (a + Z.of_nat (Z.to_nat (b - a))) by lia. by apply H. }
  apply subseteq_size in Hsub. rewrite size_list_to_set in Hsub by apply NoDup_seqZ. rewrite length_seqZ, size_dom in Hsub. lia.
Qed.

Lemma load_is m a c : m !! a = Some c -> load a m = Ret c m.
Proof. intros H. unfold load, bind, get, oob. by rewrite H. Qed.

Lemma strlen_loop_is m a l n fuel : str_at m (a + n) l -> (length l < fuel)%nat -> strlen_loop fuel a n m = Ret (n + Z.of_nat (length l)) m.
Proof.
  revert n fuel. induction l as [|c l IH]; intros n [|fuel] Hs Hf; cbn [length] in Hf; try lia; cbn [strlen_loop]; unfold bind.
  - rewrite (load_is _ _ 0) by (by apply str_at_nil). cbn. unfold ret. f_equal. lia.
  - destruct (str_at_cons _ _ _ _ Hs) as (H0 & Hc & Hs'). rewrite (load_is _ _ c H0), (proj2 (Z.eqb_neq c 0) Hc).
    rewrite IH; [f_equal; cbn [length]; lia | by rewrite Z.add_assoc | lia].
Qed.

Lemma strlen_is m a l : str_at m a l -> strlen a m = Ret (Z.of_nat (length l)) m.
Proof. intros H. unfold strlen, bind, string_fuel, gets. rewrite (strlen_loop_is m a l 0); [done | by rewrite Z.add_0_r | by apply str_at_size in H]. Qed.

(** Where the first [ch] of the string is, the terminator included. *)
Fixpoint first_char (s ch : Z) (l : list Z) : Z :=
  match l with
  | [] => if 0 =? ch then s else 0
  | c :: l' => if c =? ch then s else first_char (s + 1) ch l'
  end.

Lemma strchr_loop_is m s ch l fuel : str_at m s l -> (length l < fuel)%nat -> strchr_loop fuel s ch m = Ret (first_char s ch l) m.
Proof.
  revert s fuel. induction l as [|c l IH]; intros s [|fuel] Hs Hf; cbn [length] in Hf; try lia; cbn [strchr_loop first_char]; unfold bind.
  - by rewrite (load_is _ _ 0) by (by apply str_at_nil).
  - destruct (str_at_cons _ _ _ _ Hs) as (H0 & Hc & Hs'). rewrite (load_is _ _ c H0), (proj2 (Z.eqb_neq c 0) Hc).
    destruct (c =? ch); [done|]. apply IH; [done | lia].
Qed.

Lemma strchr_is m s ch l : str_at m s l -> strchr s ch m = Ret (first_char s (u8 ch) l) m.
Proof. intros H. unfold strchr, bind, string_fuel, gets. apply strchr_loop_is; [done | by apply str_at_size in H]. Qed.

Lemma first_char_in s ch l : 0 < s -> ch <> 0 -> (first_char s ch l =? 0) = bool_decide (ch ∉ l).
Proof.
  revert s. induction l as [|c l IH]; intros s Hs Hc; cbn [first_char].
  - rewrite (proj2 (Z.eqb_neq 0 ch)) by done. by rewrite bool_decide_true by apply not_elem_of_nil.
  - destruct (Z.eqb_spec c ch) as [->|Hne].
    + rewrite (proj2 (Z.eqb_neq s 0)) by lia. symmetry. apply bool_decide_false. intros Hn. apply not_elem_of_cons in Hn. by destruct Hn.
    + rewrite IH by lia. apply bool_decide_ext. rewrite not_elem_of_cons. naive_solver.
Qed.

(** ** [strtok_r] *)

Section strtok.
Context (seps : Z) (sp : list Z).

(** The characters of [sp] are separators. *)
Definition separator (c : Z) : bool := bool_decide (c ∈ sp).

(** The words of a string, read off directly: [cur] is the word so far. *)
Fixpoint words (cur l : list Z) : list (list Z) :=
  match l with
  | [] => match cur with [] => [] | _ => [cur] end
  | c :: l' => if separator c then match cur with [] => words [] l' | _ => cur :: words [] l' end else words (cur ++ [c]) l'
  end.

Lemma words_skip s l : Forall (fun c => separator c = true) s -> words [] (s ++ l) = words [] l.
Proof. induction 1 as [|c s Hc _ IH]; [done|]. cbn. by rewrite Hc. Qed.

Lemma words_word w cur l : Forall (fun c => separator c = false) w -> words cur (w ++ l) = words (cur ++ w) l.
Proof.
  intros H. revert cur. induction H as [|c w Hc _ IH]; intros cur; cbn; [by rewrite app_nil_r|]. rewrite Hc, IH, <- app_assoc. done.
Qed.

(** The longest part at the front that is, or is not, of separators. *)
Lemma split_run want l : exists s r, l = s ++ r /\ Forall (fun c => separator c = want) s /\ match r with [] => True | c :: _ => separator c = negb want end.
Proof.
  induction l as [|c l (s & r & -> & Hs & Hr)]; [by exists [], []|].
  destruct (bool_decide (separator c = want)) eqn:E; [apply bool_decide_eq_true in E | apply bool_decide_eq_false in E].
  - exists (c :: s), r. split_and!; [done | by constructor | done].
  - exists [], (c :: s ++ r). split_and!; [done.. |]. by destruct (separator c), want.
Qed.

Lemma skip_seps_is m want s r p fuel : 0 < seps -> str_at m seps sp -> str_at m p (s ++ r) -> Forall (fun c => 0 <= c < 256) (s ++ r) ->
  Forall (fun c => separator c = want) s -> match r with [] => True | c :: _ => separator c = negb want end -> (length (s ++ r) < fuel)%nat ->
  skip_seps fuel want seps p m = Ret (p + Z.of_nat (length s)) m.
Proof.
  intros Hp Hsp. revert p fuel. induction s as [|c s IH]; intros p [|fuel] Hs Hb Hw Hr Hf; cbn [length app] in *; try lia; cbn [skip_seps]; unfold bind.
  - destruct r as [|c r].
    + rewrite (load_is _ _ 0) by (by apply str_at_nil). cbn. unfold ret. f_equal. lia.
    + destruct (str_at_cons _ _ _ _ Hs) as (H0 & Hc & _). apply Forall_cons in Hb. destruct Hb as [Hb _].
      rewrite (load_is _ _ c H0), (proj2 (Z.eqb_neq c 0) Hc), (strchr_is m seps c sp Hsp), wrap_small, first_char_in by (done || lia).
      unfold separator in Hr. assert (negb (bool_decide (c ∉ sp)) = negb want) as ->.
      { rewrite <- Hr. destruct (bool_decide_reflect (c ∈ sp)); [by rewrite bool_decide_false by auto | by rewrite bool_decide_true]. }
      replace (eqb (negb want) want) with false by (by destruct want). unfold ret. f_equal. lia.
  - destruct (str_at_cons _ _ _ _ Hs) as (H0 & Hc & Hs'). apply Forall_cons in Hb. destruct Hb as [Hb Hb']. apply Forall_cons in Hw. destruct Hw as [Hw Hw'].
    rewrite (load_is _ _ c H0), (proj2 (Z.eqb_neq c 0) Hc), (strchr_is m seps c sp Hsp), wrap_small, first_char_in by (done || lia).
    unfold separator in Hw. assert (negb (bool_decide (c ∉ sp)) = want) as ->.
    { rewrite <- Hw. destruct (bool_decide_reflect (c ∈ sp)); [by rewrite bool_decide_false by auto | by rewrite bool_decide_true]. }
    replace (eqb want want) with true by (by destruct want). rewrite IH; try done; [f_equal; lia | lia].
Qed.

(** One call on the string [l] at [p], which the context names: the word is
    cut off and the context is left at the rest. *)
Lemma strtok_r_step m p l : 0 < seps -> str_at m seps sp -> 0 < p -> str_at m p l -> Forall (fun c => 0 <= c < 256) l ->
  (p + Z.of_nat (length l) < seps \/ seps + Z.of_nat (length sp) < p) ->
  (words [] l = [] /\ strtok_r 0 seps p m = Ret (0, 0) m) \/
  exists head w, p <= head /\ head + Z.of_nat (length w) <= p + Z.of_nat (length l) /\
    ((words [] l = [w] /\ str_at m head w /\ strtok_r 0 seps p m = Ret (head, 0) m) \/
     exists t, words [] l = w :: words [] t /\ head + Z.of_nat (length w) + 1 + Z.of_nat (length t) = p + Z.of_nat (length l) /\ Forall (fun c => 0 <= c < 256) t /\
       let m' := <[head + Z.of_nat (length w) := 0]> m in
       str_at m' head w /\ str_at m' (head + Z.of_nat (length w) + 1) t /\ str_at m' seps sp /\
       strtok_r 0 seps p m = Ret (head, head + Z.of_nat (length w) + 1) m').
Proof.
  intros Hseps Hsp Hp Hl Hb Hdis. destruct (split_run true l) as (s & r & -> & Hs & Hr). pose proof (str_at_size _ _ _ Hl) as Hf.
  pose proof (skip_seps_is m true s r p (size m) Hseps Hsp Hl Hb Hs Hr Hf) as E1. rewrite words_skip by done.
  pose proof (str_at_app _ _ _ _ Hl) as Hrs. apply Forall_app in Hb. destruct Hb as [_ Hb]. rewrite length_app in *.
  set (head := p + Z.of_nat (length s)) in *.
  assert (E0 : strtok_r 0 seps p m =
    (c <- load head ;; if c =? 0 then ret (0, 0) else tail <- skip_seps (size m) false seps head ;; c <- load tail ;;
       if c =? 0 then ret (head, 0) else store tail 0 ;; ret (head, tail + 1)) m).
  { unfold strtok_r. cbn [Z.eqb]. rewrite (proj2 (Z.eqb_neq p 0)) by lia. unfold string_fuel, gets, bind at 1. unfold bind at 1. by rewrite E1. }
  destruct r as [|c r]; [left; split; [done|]; rewrite E0; unfold bind; by rewrite (load_is _ _ 0) by (by apply str_at_nil)|]. right. destruct (split_run false (c :: r)) as (w & t & Ew & Hw & Ht).
  destruct w as [|c' w']; [destruct t; [done|]; injection Ew as <- <-; by rewrite Hr in Ht|].
  destruct (str_at_cons _ _ _ _ Hrs) as (H0 & Hc & _). unfold bind at 1 in E0. rewrite (load_is _ _ c H0), (proj2 (Z.eqb_neq c 0) Hc) in E0.
  rewrite Ew in *. set (w := c' :: w') in *. rewrite length_app in *.
  pose proof (skip_seps_is m false w t head (size m) Hseps Hsp Hrs Hb Hw Ht ltac:(rewrite length_app; lia)) as E2.
  unfold bind at 1 in E0. rewrite E2 in E0. unfold bind at 1 in E0. rewrite words_word by done. cbn [app]. pose proof (str_at_app _ _ _ _ Hrs) as Hts.
  exists head, w. split; [unfold head; lia|]. split; [unfold head; lia|]. destruct t as [|d t].
  - left. rewrite (load_is _ _ 0) in E0 by (by apply str_at_nil). rewrite app_nil_r in Hrs. done.
  - right. exists t. cbn [negb] in Ht. cbn [words]. rewrite Ht. split; [done|]. cbn [length] in *. split; [unfold head; lia|].
    apply Forall_app in Hb. destruct Hb as [_ Hb]. apply Forall_cons in Hb. split; [apply Hb|].
    destruct (str_at_cons _ _ _ _ Hts) as (H1 & Hd & Hts'). cbv zeta. split_and!.
    + split; [destruct Hrs as [Hf' _]; apply Forall_app in Hf'; apply Hf'|]. intros i x Hi. destruct (decide (i = length w)) as [->|Hne].
      * rewrite lookup_insert_eq. rewrite lookup_app_r, Nat.sub_diag in Hi by lia. by injection Hi as <-.
      * rewrite lookup_insert_ne by lia. apply Hrs. pose proof (lookup_lt_Some _ _ _ Hi) as Hlt. rewrite length_app in Hlt. change (length [0]) with 1%nat in Hlt.
        rewrite lookup_app_l in Hi by lia. rewrite <- app_assoc. by rewrite lookup_app_l by lia.
    + split; [apply Hts'|]. intros i x Hi. rewrite lookup_insert_ne by lia. by apply Hts'.
    + split; [apply Hsp|]. intros i x Hi. pose proof (lookup_lt_Some _ _ _ Hi) as Hlt. rewrite length_app in Hlt. change (length [0]) with 1%nat in Hlt.
      rewrite lookup_insert_ne by (unfold head; lia). by apply Hsp.
    + rewrite E0, (load_is _ _ d H1), (proj2 (Z.eqb_neq d 0) Hd). unfold bind. destruct (store_filled m (head + Z.of_nat (length w)) 0) as [-> _]; [by rewrite H1|]. done.
Qed.

Lemma str_at_same m m' a l : (forall b, a <= b <= a + Z.of_nat (length l) -> m' !! b = m !! b) -> str_at m a l -> str_at m' a l.
Proof.
  intros H [Hf Hl]. split; [done|]. intros i c Hi. pose proof (lookup_lt_Some _ _ _ Hi) as Hlt. rewrite length_app in Hlt. cbn in Hlt.
  rewrite H by lia. by apply Hl.
Qed.

(** What a call has left: the word it returned and those behind the
    context. *)
Inductive left_words (m : memory) : Z -> Z -> list (list Z) -> Prop :=
| left_none : left_words m 0 0 []
| left_last a w : 0 < a -> str_at m a w -> left_words m a 0 [w]
| left_more a w p t : 0 < a -> str_at m a w -> a + Z.of_nat (length w) < p -> str_at m p t -> Forall (fun c => 0 <= c < 256) t ->
    (p + Z.of_nat (length t) < seps \/ seps + Z.of_nat (length sp) < p) -> left_words m a p (w :: words [] t).

Lemma strtok_r_leaves m p l : 0 < seps -> str_at m seps sp -> 0 < p -> str_at m p l -> Forall (fun c => 0 <= c < 256) l ->
  (p + Z.of_nat (length l) < seps \/ seps + Z.of_nat (length sp) < p) ->
  exists a q m', strtok_r 0 seps p m = Ret (a, q) m' /\ left_words m' a q (words [] l) /\ str_at m' seps sp /\
    forall b, b < p -> m' !! b = m !! b.
Proof.
  intros Hseps Hsp Hp Hl Hb Hdis. destruct (strtok_r_step m p l Hseps Hsp Hp Hl Hb Hdis) as [[Hw E]|(a & w & Ha & Hlen & [(Hw & Hs & E)|(t & Hw & Hlt & Hbt & Hs1 & Hs2 & Hs3 & E)])].
  - exists 0, 0, m. rewrite Hw. split_and!; [done | constructor | done..].
  - exists a, 0, m. rewrite Hw. split_and!; [done | constructor; [lia | done] | done..].
  - eexists a, _, _. rewrite Hw. split; [exact E|]. split; [constructor; try done; lia|]. split; [done|]. intros b Hbp. apply lookup_insert_ne. lia.
Qed.

Lemma word_loop_spec n m a p ws args : 0 < seps -> str_at m seps sp -> left_words m a p ws ->
  wp (word_loop n seps a p args)
     (fun r m' => (length ws <= n)%nat /\ exists addrs, r = args ++ addrs /\ Forall2 (str_at m') addrs ws /\ forall b, p = 0 \/ b < p -> m' !! b = m !! b)
     (fun e _ => e = E2BIG /\ (n < length ws)%nat) m.
Proof.
  intros Hseps. revert m a p ws args. induction n as [|n IH]; intros m a p ws args Hsp Hl; cbn [word_loop];
    (destruct Hl as [|a w Ha Hw|a w p t Ha Hw Hap Ht Hb Hdis];
     [cbn; apply wp_ret; split; [cbn; lia|]; exists []; rewrite app_nil_r; split_and!; [done | constructor | done] | rewrite (proj2 (Z.eqb_neq a 0)) by lia..]).
  - apply wp_throw. split; [done | cbn; lia].
  - apply wp_throw. split; [done | cbn; lia].
  - apply wp_bind. unfold wp at 1. change (strtok_r 0 seps 0 m) with (Ret (S := memory) (0, 0) m). cbn [fst snd].
    eapply wp_mono; [apply (IH m 0 0 [] (args ++ [a]) Hsp); constructor | |intros e m' [-> Hn]; split; [done | cbn in *; lia]].
    intros r m' (_ & addrs & -> & HF & Hsame). apply Forall2_nil_inv_r in HF. subst addrs. split; [cbn; lia|]. exists [a]. rewrite app_nil_r.
    split_and!; [done | | done]. constructor; [|constructor]. apply (str_at_same m); [intros b _; apply Hsame; by left | done].
  - apply wp_bind. destruct (strtok_r_leaves m p t Hseps Hsp ltac:(lia) Ht Hb Hdis) as (a' & q & m1 & E & Hl1 & Hsp1 & Hsame1). unfold wp at 1. rewrite E. cbn [fst snd].
    assert (Hq : q = 0 \/ p < q).
    { destruct (strtok_r_step m p t Hseps Hsp ltac:(lia) Ht Hb Hdis) as [[_ E']|(h & w' & Hh & _ & [(_ & _ & E')|(t' & _ & _ & _ & _ & _ & _ & E')])]; rewrite E in E'; injection E' as -> ->; [by left | by left | right; lia]. }
    eapply wp_mono; [apply (IH m1 a' q (words [] t) (args ++ [a]) Hsp1 Hl1) | |intros e m' [-> Hn]; split; [done | cbn in *; lia]].
    intros r m' (Hn & addrs & -> & HF & Hsame). split; [cbn; lia|]. exists (a :: addrs). rewrite <- app_assoc. split; [done|].
    assert (Hlow : forall b, b < p -> m' !! b = m !! b) by (intros b Hbp; rewrite Hsame by (destruct Hq; [by left | right; lia]); by apply Hsame1).
    split; [constructor; [|done]; apply (str_at_same m); [intros b Hbb; apply Hlow; lia | done]|].
    intros b [->|Hbp]; [lia | by apply Hlow].
Qed.

End strtok.

(** [cmd_dispatch] splits a command into its words with [strtok_r]: with
    the command [l] at [cmd] and the separators [sp] at [seps], outside the
    command, it hands back the addresses of exactly the words of [l], in
    order, each a string of its own in the memory it leaves, or [E2BIG] when
    there are more than [MAXMENUARGS]. *)
Theorem cmd_words_splits m seps sp cmd l :
  0 < seps -> str_at m seps sp -> 0 < cmd -> str_at m cmd l -> Forall (fun c => 0 <= c < 256) l ->
  (cmd + Z.of_nat (length l) < seps \/ seps + Z.of_nat (length sp) < cmd) ->
  wp (cmd_words seps cmd)
     (fun args m' => (length (words sp [] l) <= MAXMENUARGS)%nat /\ Forall2 (str_at m') args (words sp [] l))
     (fun e _ => e = E2BIG /\ (MAXMENUARGS < length (words sp [] l))%nat) m.
Proof.
  intros Hseps Hsp Hcmd Hl Hb Hdis. unfold cmd_words. apply wp_bind.
  destruct (strtok_r_leaves seps sp m cmd l Hseps Hsp Hcmd Hl Hb Hdis) as (a & q & m1 & E & Hl1 & Hsp1 & _).
  assert (E' : strtok_r cmd seps 0 m = Ret (a, q) m1) by (rewrite <- E; unfold strtok_r; cbn [Z.eqb]; rewrite (proj2 (Z.eqb_neq cmd 0)) by lia; cbv iota zeta; rewrite (proj2 (Z.eqb_neq cmd 0)) by lia; reflexivity).
  unfold wp at 1. rewrite E'. cbn [fst snd]. eapply wp_mono; [apply (word_loop_spec seps sp MAXMENUARGS m1 a q (words sp [] l) []); done | |done].
  intros r m' (Hn & addrs & -> & HF & _). done.
Qed.

(** ** Copying, comparing, searching from the end *)

(** [m'] is [m] with the bytes [l] at [a]. *)
Definition written (m m' : memory) (a : Z) (l : list Z) : Prop :=
  forall b, m' !! b = if decide (a <= b < a + Z.of_nat (length l)) then l !! Z.to_nat (b - a) else m !! b.

Lemma written_cons m m' a c l : written (<[a := c]> m) m' (a + 1) l -> written m m' a (c :: l).
Proof.
  intros H b. rewrite H. cbn [length]. destruct (decide (b = a)) as [->|Hne].
  - rewrite decide_False by lia. rewrite lookup_insert_eq, decide_True, Z.sub_diag by lia. done.
  - rewrite lookup_insert_ne by done. destruct (decide (a + 1 <= b < _)); [rewrite decide_True by lia | by rewrite decide_False by lia].
    replace (Z.to_nat (b - a)) with (S (Z.to_nat (b - (a + 1)))) by lia. done.
Qed.

Lemma strcpy_loop_copies m dest src i l fuel :
  str_at m (src + i) l -> mapped m (dest + i) (Z.of_nat (length l) + 1) -> (length l < fuel)%nat ->
  (dest + i + Z.of_nat (length l) < src + i \/ src + i + Z.of_nat (length l) < dest + i) ->
  exists m', strcpy_loop fuel dest src i m = Ret (i + Z.of_nat (length l)) m' /\ written m m' (dest + i) l.
Proof.
  revert m i fuel. induction l as [|c l IH]; intros m i [|fuel] Hs Hm Hf Hd; cbn [length] in *; try lia; cbn [strcpy_loop]; unfold bind.
  - exists m. rewrite (load_is _ _ 0) by (by apply str_at_nil). cbn. split; [unfold ret; f_equal; lia|]. intros b. rewrite decide_False by (cbn; lia). done.
  - destruct (str_at_cons _ _ _ _ Hs) as (H0 & Hc & Hs'). rewrite (load_is _ _ c H0), (proj2 (Z.eqb_neq c 0) Hc).
    destruct (store_filled m (dest + i) c) as [-> _]; [apply Hm; lia|].
    destruct (IH (<[dest + i := c]> m) (i + 1) fuel) as (m' & E & Hw); [| |lia|lia|].
    + rewrite Z.add_assoc. apply (str_at_same m); [|done]. intros b Hb. apply lookup_insert_ne. lia.
    + intros b Hb. rewrite lookup_insert_ne by lia. apply Hm. lia.
    + exists m'. rewrite E. split; [f_equal; lia|]. apply written_cons. by rewrite Z.add_assoc in Hw.
Qed.

Lemma strcpy_copies m dest src l : str_at m src l -> mapped m dest (Z.of_nat (length l) + 1) ->
  (dest + Z.of_nat (length l) < src \/ src + Z.of_nat (length l) < dest) ->
  exists m', strcpy dest src m = Ret dest m' /\ written m m' dest (l ++ [0]).
Proof.
  intros Hs Hm Hd. destruct (strcpy_loop_copies m dest src 0 l (size m)) as (m1 & E & Hw); rewrite ?Z.add_0_r; try done; [by apply str_at_size in Hs|].
  rewrite Z.add_0_r in Hw. destruct (store_filled m1 (dest + Z.of_nat (length l)) 0) as [E2 H2]; [rewrite Hw, decide_False by lia; apply Hm; lia|].
  eexists. unfold strcpy, bind, string_fuel, gets. rewrite E, Z.add_0_l, E2. split; [done|]. intros b. rewrite H2, Hw, length_app. cbn [length].
  destruct (decide (dest + Z.of_nat (length l) <= b < _)) as [Hb|Hb].
  - rewrite decide_True by lia. replace (Z.to_nat (b - dest)) with (length l + 0)%nat by lia. by rewrite lookup_app_r, Nat.add_0_r, Nat.sub_diag by lia.
  - destruct (decide (dest <= b < _)); [rewrite decide_True by lia; by rewrite lookup_app_l by lia | by rewrite decide_False by lia].
Qed.

Lemma strcat_appends m dest src l k : str_at m dest l -> str_at m src k -> mapped m dest (Z.of_nat (length l + length k) + 1) ->
  (dest + Z.of_nat (length l + length k) < src \/ src + Z.of_nat (length k) < dest) ->
  exists m', strcat dest src m = Ret dest m' /\ str_at m' dest (l ++ k) /\
    forall b, b < dest \/ dest + Z.of_nat (length l + length k) < b -> m' !! b = m !! b.
Proof.
  intros Hl Hk Hm Hd. destruct (strcpy_copies m (dest + Z.of_nat (length l)) src k Hk) as (m' & E & Hw); [intros b Hb; apply Hm; lia | lia|].
  exists m'. unfold strcat, bind. rewrite (strlen_is _ _ _ Hl), E. split; [done|]. split.
  - split; [apply Forall_app; split; [apply Hl | apply Hk]|]. intros i c Hi. rewrite Hw, length_app. cbn [length].
    pose proof (lookup_lt_Some _ _ _ Hi) as Hlt. rewrite !length_app in Hlt. cbn in Hlt. rewrite <- app_assoc in Hi.
    destruct (decide (i < length l)%nat) as [Hil|Hil].
    + rewrite decide_False by lia. rewrite lookup_app_l in Hi by lia. apply Hl. by rewrite lookup_app_l by lia.
    + rewrite decide_True by lia. rewrite lookup_app_r in Hi by lia. rewrite <- Hi. f_equal. lia.
  - intros b Hb. rewrite Hw, length_app. cbn [length]. by rewrite decide_False by lia.
Qed.

(** The lexicographic order. *)
Fixpoint lex (l k : list Z) : Z :=
  match l, k with
  | [], [] => 0
  | [], _ => -1
  | _, [] => 1
  | x :: l', y :: k' => if x =? y then lex l' k' else if y <? x then 1 else -1
  end.

Lemma strcmp_loop_is m a b i l k fuel : str_at m (a + i) l -> str_at m (b + i) k ->
  Forall (fun c => 0 <= c) l -> Forall (fun c => 0 <= c) k -> (length l < fuel)%nat ->
  exists j x y, strcmp_loop fuel a b i m = Ret j m /\ m !! (a + j) = Some x /\ m !! (b + j) = Some y /\
    (if y <? x then 1 else if x =? y then 0 else -1) = lex l k.
Proof.
  revert i k fuel. induction l as [|x l IH]; intros i k [|fuel] Hl Hk Pl Pk Hf; cbn [length] in Hf; try lia; cbn [strcmp_loop]; unfold bind.
  - pose proof (str_at_nil _ _ Hl) as H0. rewrite (load_is _ _ 0 H0). cbn. destruct k as [|y k].
    + exists i, 0, 0. split_and!; [done | done | by apply str_at_nil | done].
    + destruct (str_at_cons _ _ _ _ Hk) as (H1 & Hy & _). apply Forall_cons in Pk. destruct Pk as [Py _]. exists i, 0, y. split_and!; [done.. |].
      cbn. rewrite (proj2 (Z.ltb_ge y 0)) by lia. destruct y; [done | done | lia].
  - destruct (str_at_cons _ _ _ _ Hl) as (H0 & Hx & Hl'). rewrite (load_is _ _ x H0), (proj2 (Z.eqb_neq x 0) Hx).
    apply Forall_cons in Pl. destruct Pl as [Px Pl]. destruct k as [|y k].
    + pose proof (str_at_nil _ _ Hk) as H1. rewrite (load_is _ _ 0 H1), (proj2 (Z.eqb_neq x 0) Hx). exists i, x, 0. split_and!; [done.. |]. cbn [lex]. by rewrite (proj2 (Z.ltb_lt 0 x)) by lia.
    + destruct (str_at_cons _ _ _ _ Hk) as (H1 & Hy & Hk'). apply Forall_cons in Pk. destruct Pk as [Py Pk]. rewrite (load_is _ _ y H1). cbn [lex].
      destruct (Z.eqb_spec x y) as [->|Hne].
      * apply (IH (i + 1) k fuel); rewrite ?Z.add_assoc; try done. lia.
      * exists i, x, y. split_and!; [done.. |]. by rewrite (proj2 (Z.eqb_neq x y)) by done.
Qed.

Lemma strcmp_is m a b l k : str_at m a l -> str_at m b k -> Forall (fun c => 0 <= c) l -> Forall (fun c => 0 <= c) k ->
  strcmp a b m = Ret (lex l k) m.
Proof.
  intros Hl Hk Pl Pk. destruct (strcmp_loop_is m a b 0 l k (size m)) as (j & x & y & E & Hx & Hy & Hlex); rewrite ?Z.add_0_r; try done; [by apply str_at_size in Hl|].
  unfold strcmp, bind, string_fuel, gets. rewrite E, (load_is _ _ x Hx), (load_is _ _ y Hy). unfold ret. by rewrite Hlex.
Qed.

Lemma strrchr_loop_is m s ch l n : str_at m s l -> (n <= S (length l))%nat ->
  exists r, strrchr_loop n s ch m = Ret r m /\
    ((r = 0 /\ ch ∉ take n (l ++ [0])) \/
     exists i, r = s + Z.of_nat i /\ (i < n)%nat /\ (l ++ [0]) !! i = Some ch /\ forall j, (i < j < n)%nat -> (l ++ [0]) !! j <> Some ch).
Proof.
  intros Hl. induction n as [|n IH]; intros Hn; cbn [strrchr_loop].
  - exists 0. split; [done|]. left. split; [done|]. rewrite take_0. apply not_elem_of_nil.
  - destruct (lookup_lt_is_Some_2 (l ++ [0]) n) as [c Hc]; [rewrite length_app; cbn; lia|].
    unfold bind. rewrite (load_is _ _ c) by (by apply Hl). destruct (Z.eqb_spec c ch) as [->|Hne].
    + eexists. split; [done|]. right. exists n. split_and!; [done | lia | done | intros; lia].
    + destruct IH as (r & E & Hr); [lia|]. exists r. split; [done|]. destruct Hr as [[-> Hr]|(i & -> & Hi & Hci & Hmax)].
      * left. split; [done|]. rewrite (take_S_r _ _ _ Hc). intros [Hx|Hx%list_elem_of_singleton]%elem_of_app; [done | by subst].
      * right. exists i. split_and!; [done | lia | done |]. intros j Hj Hcj. destruct (decide (j = n)) as [->|]; [congruence | apply (Hmax j); [lia | done]].
Qed.

(** ** On examples *)

(** A memory of bytes from an address on. *)
Definition mem_of (a : Z) (l : list Z) : memory := list_to_map (zip (seqZ a (Z.of_nat (length l))) l).

Definition demo_memory : memory := mem_of 100 [1; 2; 3; 4; 5; 6; 7; 8; 9; 10; 11; 12].

(** Eight bytes, four up, by words. *)
Lemma memmove_copies_witness :
  wp (memmove 104 100 8) (fun r m' => r = 104 /\ copied demo_memory m' 104 100 8) (fun _ _ => False) demo_memory.
Proof.
  apply (memmove_copies demo_memory 104 100 8); [lia | |].
  - intros b Hb. assert (Hx : b = 100 \/ b = 101 \/ b = 102 \/ b = 103 \/ b = 104 \/ b = 105 \/ b = 106 \/ b = 107) by lia.
    repeat destruct Hx as [->|Hx]; [..|rewrite Hx]; eexists; vm_compute; reflexivity.
  - intros b Hb. assert (Hx : b = 104 \/ b = 105 \/ b = 106 \/ b = 107 \/ b = 108 \/ b = 109 \/ b = 110 \/ b = 111) by lia.
    repeat destruct Hx as [->|Hx]; [..|rewrite Hx]; eexists; vm_compute; reflexivity.
Defined.

Example memmove_runs : match memmove 104 100 8 demo_memory with
  Ret r m => r = 104 /\ (fun a => m !! a) <$> seqZ 100 12 = Some <$> [1; 2; 3; 4; 1; 2; 3; 4; 5; 6; 7; 8] | _ => False end.
Proof. vm_compute. done. Qed.

(** ["  ls  -l"] at 200 and the separators [" \t"] at 100. *)
Definition demo_command : memory := mem_of 100 [32; 9; 0] ∪ mem_of 200 [32; 32; 108; 115; 32; 32; 45; 108; 0].

Lemma str_at_check m a l : Forall (fun c => c <> 0) l -> (fun i => m !! (a + Z.of_nat i)) <$> seq 0 (S (length l)) = Some <$> (l ++ [0]) -> str_at m a l.
Proof.
  intros Hf H. split; [done|]. intros i c Hi. pose proof (lookup_lt_Some _ _ _ Hi) as Hlt. rewrite length_app in Hlt. cbn in Hlt.
  apply (f_equal (lookup i)) in H. rewrite !list_lookup_fmap, Hi, lookup_seq_lt in H by lia. cbn in H. by injection H.
Qed.

Example cmd_words_runs : match cmd_words 100 200 demo_command with Ret args _ => args = [202; 206] | _ => False end.
Proof. vm_compute. done. Qed.

Lemma cmd_words_splits_witness : wp (cmd_words 100 200) (fun args m' => Forall2 (str_at m') args [[108; 115]; [45; 108]]) (fun _ _ => False) demo_command.
Proof.
  eapply wp_mono; [apply (cmd_words_splits demo_command 100 [32; 9] 200 [32; 32; 108; 115; 32; 32; 45; 108]) | |].
  - lia.
  - apply str_at_check; [repeat constructor; lia | vm_compute; reflexivity].
  - lia.
  - apply str_at_check; [repeat constructor; lia | vm_compute; reflexivity].
  - repeat constructor; lia.
  - right. cbn. lia.
  - intros args m' [_ H]. exact H.
  - intros e m' [_ H]. vm_compute in H. lia.
Defined.
