(* ===== verification/Qsort.v ===== *)
(** * The sort of the user C library, [userland/lib/libc/stdlib/qsort.c]

    [qsort] sorts the [num] elements of an array from [base] on, in place.
    The memory it works on is the whole array; its elements are opaque blocks
    of [size] bytes, moved by [EXCHANGE] and examined only by the caller's
    comparison.  The comparison is a parameter and may fail an assertion of
    its own ([None]).  [Comparator] states what the C standard asks of it;
    the theorem shows that the array ends sorted, that what lies outside the
    segment is untouched, that every access and both assertions hold and that
    the recursion ends. *)

From stdpp Require Import sorting.
From S2P Require Import Prelude.

(** What the comparison promises on the values that satisfy [P]. *)
Class Comparator {A} (P : A -> Prop) (cmp : A -> A -> Z) : Prop := {
  cmp_flip : forall x y, P x -> P y -> 0 < cmp x y <-> cmp y x < 0;
  cmp_trans : forall x y z, P x -> P y -> P z -> cmp x y <= 0 -> cmp y z <= 0 -> cmp x z <= 0
}.

Section qsort.
Context {A : Type} (f : A -> A -> option Z).

Definition element (base i : Z) : M (list A) A := data <- get ;; oob (zlookup data (base + i)).

Definition COMPARE (base aa bb : Z) : M (list A) Z :=
  if aa =? bb then ret 0
  else x <- element base aa ;; y <- element base bb ;; oob (f x y).

Definition EXCHANGE (base aa bb : Z) : M (list A) unit :=
  tmp <- element base aa ;;
  y <- element base bb ;;
  modify (zinsert (base + aa) y) ;;
  modify (zinsert (base + bb) tmp).

(** Step 2, the loop on [head] and [tail]; it returns both and the place the
    pivot has moved to. *)
Fixpoint qsort_partition (fuel : nat) (base head tail pivot : Z) : M (list A) (Z * Z * Z) :=
  match fuel with
  | O => fun _ => OutOfFuel
  | S fuel' =>
      if head <? tail then
        c <- COMPARE base head pivot ;;
        if c <=? 0 then qsort_partition fuel' base (u32 (head + 1)) tail pivot
        else
          c' <- COMPARE base tail pivot ;;
          if 0 <? c' then qsort_partition fuel' base head (u32 (tail - 1)) pivot
          else
            EXCHANGE base head tail ;;
            let pivot' := if pivot =? head then tail else if pivot =? tail then head else pivot in
            qsort_partition fuel' base (u32 (head + 1)) (u32 (tail - 1)) pivot'
      else ret (head, tail, pivot)
  end.

(** The loop of step 4 that lops off the values equal to the last one. *)
Fixpoint qsort_lop (fuel : nat) (base tail : Z) : M (list A) Z :=
  match fuel with
  | O => fun _ => OutOfFuel
  | S fuel' =>
      if 0 <? tail then
        c <- COMPARE base (u32 (tail - 1)) tail ;;
        if c =? 0 then qsort_lop fuel' base (u32 (tail - 1)) else ret tail
      else ret tail
  end.

(** Step 3: the first index of the back portion. *)
Definition qsort_boundary (base head tail pivot : Z) : M (list A) Z :=
  if tail <? head then ret (u32 (tail + 1))
  else c <- COMPARE base head pivot ;; ret (if c <=? 0 then u32 (tail + 1) else tail).

(** Step 4: the pivot is a largest value; how much is left to sort. *)
Definition qsort_largest (base num pivot : Z) : M (list A) Z :=
  (if pivot <? u32 (num - 1) then
     c <- COMPARE base pivot (u32 (num - 1)) ;;
     when (0 <? c) (EXCHANGE base pivot (u32 (num - 1)))
   else ret tt) ;;
  qsort_lop (Z.to_nat num) base (u32 (num - 1)).

(** Steps 1 to 5, with [recurse] for the calls of [qsort]. *)
Definition qsort_body (recurse : Z -> Z -> M (list A) unit) (base num : Z) : M (list A) unit :=
  let* (head, tail, pivot) := qsort_partition (S (Z.to_nat num)) base 0 (u32 (num - 1)) (num / 2) in
  tail <- qsort_boundary base head tail pivot ;;
  if tail =? num then
    tail <- qsort_largest base num pivot ;;
    when (0 <? tail) (recurse base tail)
  else
    KASSERT ((0 <? tail) && (tail <? num)) ;;
    recurse base tail ;;
    recurse (base + tail) (u32 (num - tail)).

Fixpoint qsort_rec (fuel : nat) (base num : Z) : M (list A) unit :=
  match fuel with
  | O => fun _ => OutOfFuel
  | S fuel' =>
      if num <=? 1 then ret tt
      else if num =? 2 then
        c <- COMPARE base 0 1 ;;
        if 0 <? c then EXCHANGE base 0 1 else qsort_body (qsort_rec fuel') base num
      else qsort_body (qsort_rec fuel') base num
  end.

(** Every call works on fewer elements than its caller. *)
Definition qsort (base num : Z) : M (list A) unit := qsort_rec (S (Z.to_nat num)) base num.

(** ** The segment being sorted *)

Context (P : A -> Prop) (cmp : A -> A -> Z) `{!Comparator P cmp}.

(** The comparison answers on any two distinct elements of [l]. *)
Definition comparable (l : list A) : Prop :=
  forall x y l', l ≡ₚ x :: y :: l' -> f x y = Some (cmp x y).

Definition sortable (l : list A) : Prop := Forall P l /\ comparable l.

Definition le (x y : A) : Prop := cmp x y <= 0.

Lemma sortable_perm l l' : l ≡ₚ l' -> sortable l -> sortable l'.
Proof.
  intros H [H1 H2]. split; [by rewrite <- H|]. intros x y k Hk. apply (H2 x y k). by rewrite H.
Qed.

Lemma sortable_app_l l k : sortable (l ++ k) -> sortable l.
Proof.
  intros [H1 H2]. split; [by apply Forall_app in H1 as [? _]|].
  intros x y l' Hl. apply (H2 x y (l' ++ k)). by rewrite Hl.
Qed.

Lemma sortable_app_r l k : sortable (l ++ k) -> sortable k.
Proof. intros H. apply (sortable_app_l _ l). revert H. apply sortable_perm, Permutation_app_comm. Qed.

Lemma cmp_refl x : P x -> cmp x x = 0.
Proof. intros Hx. pose proof (cmp_flip x x Hx Hx). lia. Qed.

Lemma seg_lookup (p s q : list A) base i : Z.of_nat (length p) = base -> 0 <= i < Z.of_nat (length s) ->
  zlookup (p ++ s ++ q) (base + i) = zlookup s i.
Proof.
  intros <- Hi. unfold zlookup. bsolve.
  rewrite lookup_app_r by lia. rewrite lookup_app_l by lia. f_equal. lia.
Qed.

Lemma seg_insert (p s q : list A) base i x : Z.of_nat (length p) = base -> 0 <= i < Z.of_nat (length s) ->
  zinsert (base + i) x (p ++ s ++ q) = p ++ zinsert i x s ++ q.
Proof.
  intros <- Hi. unfold zinsert. bsolve.
  rewrite insert_app_r_alt by lia. rewrite insert_app_l by lia. do 3 f_equal. lia.
Qed.

Lemma zlookup_Permutation2 (s : list A) i j x y : zlookup s i = Some x -> zlookup s j = Some y -> i <> j ->
  exists s', s ≡ₚ x :: y :: s'.
Proof.
  intros Hi Hj Hij. pose proof (zlookup_lt _ _ _ Hi). pose proof (zlookup_lt _ _ _ Hj).
  unfold zlookup in *. revert Hi Hj. bsolve. intros Hi Hj.
  pose proof (delete_Permutation _ _ _ Hi) as Hs.
  assert (y ∈ delete (Z.to_nat i) s) as Hy.
  { apply list_elem_of_lookup. destruct (decide (Z.to_nat j < Z.to_nat i)%nat).
    - exists (Z.to_nat j). by rewrite list_lookup_delete_lt.
    - exists (Z.to_nat j - 1)%nat. rewrite list_lookup_delete_ge by lia. rewrite <- Hj. f_equal. lia. }
  apply elem_of_Permutation in Hy as [k Hk]. exists k. by rewrite Hs, Hk.
Qed.

Lemma swap_Permutation (s : list A) i j x y : zlookup s i = Some x -> zlookup s j = Some y ->
  zinsert j x (zinsert i y s) ≡ₚ s.
Proof. unfold zlookup, zinsert. bsolve. apply Permutation_insert_swap. Qed.

Lemma swap_lookup (s : list A) i j k x y : 0 <= i < Z.of_nat (length s) -> 0 <= j < Z.of_nat (length s) ->
  zlookup (zinsert j x (zinsert i y s)) k = if k =? j then Some x else if k =? i then Some y else zlookup s k.
Proof.
  intros Hi Hj. destruct (Z.eqb_spec k j) as [->|]; [apply zlookup_insert_eq; by rewrite zinsert_length|].
  rewrite zlookup_insert_ne by done. destruct (Z.eqb_spec k i) as [->|]; [by apply zlookup_insert_eq|].
  by rewrite zlookup_insert_ne.
Qed.

Lemma zlookup_split (s : list A) b : 0 <= b <= Z.of_nat (length s) ->
  exists front back, s = front ++ back /\ Z.of_nat (length front) = b /\
    (forall x, x ∈ front -> exists i, i < b /\ zlookup s i = Some x) /\
    (forall x, x ∈ back -> exists i, b <= i /\ zlookup s i = Some x).
Proof.
  intros Hb. exists (take (Z.to_nat b) s), (drop (Z.to_nat b) s).
  split; [by rewrite take_drop|]. split; [rewrite length_take; lia|]. split.
  - intros x [i [Hi Hlt]%lookup_take_Some]%list_elem_of_lookup. exists (Z.of_nat i). split; [lia|]. by rewrite zlookup_nat.
  - intros x [i Hi]%list_elem_of_lookup. rewrite lookup_drop in Hi.
    exists (Z.of_nat (Z.to_nat b + i)). split; [lia|]. by rewrite zlookup_nat.
Qed.

Section segment.
Context (p q : list A) (base : Z) (Hbase : Z.of_nat (length p) = base).

(** A computation on the segment that goes from [s] to what [Q] says. *)
Definition on_segment {R} (m : M (list A) R) (s : list A) (Q : R -> list A -> Prop) : Prop :=
  wp m (fun r data => exists s', data = p ++ s' ++ q /\ Q r s') (fun _ _ => False) (p ++ s ++ q).

Lemma on_compare s i j x y (Q : Z -> list A -> Prop) : sortable s ->
  zlookup s i = Some x -> zlookup s j = Some y -> Q (cmp x y) s -> on_segment (COMPARE base i j) s Q.
Proof.
  intros [HP Hc] Hi Hj HQ. pose proof (zlookup_lt _ _ _ Hi). pose proof (zlookup_lt _ _ _ Hj).
  unfold on_segment, COMPARE, element. destruct (Z.eqb_spec i j) as [->|Hij].
  - apply wp_ret. exists s. split; [done|]. rewrite Hi in Hj. injection Hj as ->.
    by rewrite cmp_refl in HQ by by apply (Forall_zlookup _ _ _ _ HP Hi).
  - wp_steps. rewrite seg_lookup, Hi by done. wp_steps. apply (wp_oob _ x); [done|].
    wp_steps. rewrite seg_lookup, Hj by done. apply (wp_oob _ y); [done|].
    destruct (zlookup_Permutation2 s i j x y Hi Hj Hij) as [s' Hs'].
    apply (wp_oob _ (cmp x y)); [by apply (Hc x y s')|]. by exists s.
Qed.

Lemma on_exchange s i j x y (Q : unit -> list A -> Prop) :
  zlookup s i = Some x -> zlookup s j = Some y -> Q tt (zinsert j x (zinsert i y s)) ->
  on_segment (EXCHANGE base i j) s Q.
Proof.
  intros Hi Hj HQ. pose proof (zlookup_lt _ _ _ Hi). pose proof (zlookup_lt _ _ _ Hj).
  unfold on_segment, EXCHANGE, element. wp_steps.
  rewrite seg_lookup, Hi by done. apply (wp_oob _ x); [done|]. wp_steps.
  rewrite seg_lookup, Hj by done. apply (wp_oob _ y); [done|]. wp_steps.
  rewrite !seg_insert by (rewrite ?zinsert_length; done). eauto.
Qed.

Lemma on_bind {R T} (m : M (list A) R) (k : R -> M (list A) T) s Q :
  on_segment m s (fun r s' => on_segment (k r) s' Q) -> on_segment (bind m k) s Q.
Proof.
  intros H. unfold on_segment. apply wp_bind. refine (wp_mono _ _ _ _ _ _ H _ _); [|done].
  intros r d (s' & -> & H'). exact H'.
Qed.

Lemma on_ret {R} (r : R) s (Q : R -> list A -> Prop) : Q r s -> on_segment (ret r) s Q.
Proof. intros H. apply wp_ret. eauto. Qed.

Lemma on_mono {R} (m : M (list A) R) s (Q Q' : R -> list A -> Prop) :
  (forall r s', Q r s' -> Q' r s') -> on_segment m s Q -> on_segment m s Q'.
Proof. intros H Hm. refine (wp_mono _ _ _ _ _ _ Hm _ _); [|done]. intros r d (s' & -> & H'). eauto. Qed.

(** ** The partition *)

(** What lies before [head] is not greater than the pivot value [v], what
    lies behind [tail] is greater. *)
Record parted (s : list A) (head tail pivot : Z) (v : A) : Prop := {
  parted_range : 0 <= head <= tail + 1 /\ tail < Z.of_nat (length s);
  parted_pivot : zlookup s pivot = Some v;
  parted_front : forall i x, i < head -> zlookup s i = Some x -> le x v;
  parted_back : forall i x, tail < i -> zlookup s i = Some x -> 0 < cmp x v
}.

Lemma parted_head s head tail pivot v x : parted s head tail pivot v -> head <= tail ->
  zlookup s head = Some x -> le x v -> parted s (head + 1) tail pivot v.
Proof.
  intros [H1 H2 H3 H4] Hlt Hx Hle. split; [lia|done| |done].
  intros i y Hi Hy. destruct (decide (i = head)) as [->|]; [congruence|]. apply (H3 i); [lia|done].
Qed.

Lemma parted_tail s head tail pivot v x : parted s head tail pivot v -> head <= tail ->
  zlookup s tail = Some x -> 0 < cmp x v -> parted s head (tail - 1) pivot v.
Proof.
  intros [H1 H2 H3 H4] Hlt Hx Hle. split; [lia|done|done|].
  intros i y Hi Hy. destruct (decide (i = tail)) as [->|]; [congruence|]. apply (H4 i); [lia|done].
Qed.

Lemma parted_swap s head tail pivot v x y : parted s head tail pivot v -> head < tail ->
  zlookup s head = Some x -> zlookup s tail = Some y -> 0 < cmp x v -> le y v ->
  parted (zinsert tail x (zinsert head y s)) (head + 1) (tail - 1)
    (if pivot =? head then tail else if pivot =? tail then head else pivot) v.
Proof.
  intros [H1 H2 H3 H4] Hlt Hx Hy Hxv Hyv.
  pose proof (zlookup_lt _ _ _ Hx). pose proof (zlookup_lt _ _ _ Hy).
  split; [by rewrite !zinsert_length; lia| | |]; intros *; rewrite swap_lookup by done.
  - destruct (Z.eqb_spec pivot head) as [->|]; [rewrite Z.eqb_refl; congruence|].
    destruct (Z.eqb_spec pivot tail) as [->|]; [|by bsolve].
    rewrite Z.eqb_refl. destruct (Z.eqb_spec head tail); [lia|congruence].
  - intros Hi. destruct (Z.eqb_spec i tail); [lia|].
    destruct (Z.eqb_spec i head) as [->|]; [congruence|]. apply H3. lia.
  - intros Hi. destruct (Z.eqb_spec i tail) as [->|]; [congruence|].
    destruct (Z.eqb_spec i head) as [->|]; [lia|]. apply H4. lia.
Qed.

Definition small (s : list A) : Prop := Z.of_nat (length s) < 2 ^ 32.

Lemma small_perm (s s' : list A) : s ≡ₚ s' -> small s -> small s'.
Proof. unfold small. by intros ->. Qed.

Lemma on_partition fuel s head tail pivot v : sortable s -> small s -> parted s head tail pivot v ->
  tail - head + 1 < Z.of_nat fuel ->
  on_segment (qsort_partition fuel base head tail pivot) s (fun r s' =>
    let '(h, t, pv) := r in s' ≡ₚ s /\ t <= h /\ parted s' h t pv v).
Proof.
  revert s head tail pivot. induction fuel as [|fuel IH]; intros s head tail pivot Hs Hsm Hp Hf.
  { destruct (parted_range _ _ _ _ _ Hp). lia. }
  cbn [qsort_partition]. destruct (Z.ltb_spec head tail) as [Hlt|Hlt]; [|by apply on_ret].
  pose proof (parted_range _ _ _ _ _ Hp) as Hr. unfold small in Hsm.
  destruct (zlookup_is_Some s head) as [x Hx]; [lia|].
  destruct (zlookup_is_Some s tail) as [y Hy]; [lia|].
  pose proof (parted_pivot _ _ _ _ _ Hp) as Hv.
  rewrite (wrap_small 32 (head + 1)), (wrap_small 32 (tail - 1)) by lia.
  apply on_bind, (on_compare _ _ _ x v); [done..|]. destruct (Z.leb_spec (cmp x v) 0) as [Hxv|Hxv].
  { apply IH; [done..| |lia]. apply (parted_head _ _ _ _ _ x); [done|lia|done..]. }
  apply on_bind, (on_compare _ _ _ y v); [done..|]. destruct (Z.ltb_spec 0 (cmp y v)) as [Hyv|Hyv].
  { apply IH; [done..| |lia]. apply (parted_tail _ _ _ _ _ y); [done|lia|done..]. }
  apply on_bind, (on_exchange _ _ _ x y); [done..|]. cbv zeta.
  pose proof (swap_Permutation s head tail x y Hx Hy) as Hperm.
  eapply on_mono; [|apply IH]; [| | |by apply parted_swap|lia].
  - intros [[h t] pv] s' (H1 & H2). split; [by rewrite H1|done].
  - by apply (sortable_perm s).
  - by apply (small_perm s).
Qed.

(** The two portions of step 3. *)
Definition divided (s : list A) (b : Z) (v : A) : Prop :=
  exists front back, s = front ++ back /\ Z.of_nat (length front) = b /\ 0 < b /\
    Forall (fun x => le x v) front /\ Forall (fun x => 0 < cmp x v) back.

Lemma divide s b pivot v : Forall P s -> 0 <= b <= Z.of_nat (length s) -> zlookup s pivot = Some v ->
  (forall i x, i < b -> zlookup s i = Some x -> le x v) ->
  (forall i x, b <= i -> zlookup s i = Some x -> 0 < cmp x v) -> divided s b v.
Proof.
  intros HP Hb Hv H1 H2. destruct (zlookup_split s b Hb) as (front & back & -> & Hl & Hf & Hk).
  exists front, back. do 2 (split; [done|]). split; [|split].
  - destruct (decide (b <= pivot)) as [H|H]; [|pose proof (zlookup_lt _ _ _ Hv); lia].
    pose proof (H2 _ _ H Hv) as H'. rewrite cmp_refl in H' by by apply (Forall_zlookup _ _ _ _ HP Hv). lia.
  - apply Forall_forall. intros x (i & Hi & Hx)%Hf. by apply (H1 i).
  - apply Forall_forall. intros x (i & Hi & Hx)%Hk. by apply (H2 i).
Qed.

Lemma on_boundary s h t pivot v : sortable s -> small s -> parted s h t pivot v -> t <= h ->
  on_segment (qsort_boundary base h t pivot) s (fun b s' => s' = s /\ divided s b v).
Proof.
  intros Hs Hsm [H1 H2 H3 H4] Hle. unfold qsort_boundary, small in *. rewrite wrap_small by lia.
  pose proof (proj1 Hs) as HP. destruct (Z.ltb_spec t h) as [Hlt|Hge].
  - apply on_ret. split; [done|]. apply (divide _ _ pivot); [done|lia|done| |].
    + intros i x Hi. apply H3. lia.
    + intros i x Hi. apply H4. lia.
  - destruct (zlookup_is_Some s h) as [x Hx]; [lia|].
    apply on_bind, (on_compare _ _ _ x v); [done..|]. apply on_ret. split; [done|].
    destruct (Z.leb_spec (cmp x v) 0) as [Hxv|Hxv]; (apply (divide _ _ pivot); [done|lia|done| |]); intros i y Hi Hy.
    + destruct (decide (i = h)) as [->|]; [unfold le; congruence|]. apply (H3 i); [lia|done].
    + apply (H4 i); [lia|done].
    + apply (H3 i); [lia|done].
    + destruct (decide (i = h)) as [->|]; [congruence|]. apply (H4 i); [lia|done].
Qed.

(** ** The largest value as pivot *)

(** From [b] on there are only largest values. *)
Definition top_from (s : list A) (b : Z) : Prop :=
  forall i y, b <= i -> zlookup s i = Some y -> Forall (fun x => le x y) s.

Lemma top_from_down s b x y : Forall P s -> top_from s b -> 0 < b ->
  zlookup s (b - 1) = Some x -> zlookup s b = Some y -> cmp x y = 0 -> top_from s (b - 1).
Proof.
  intros HP Ht Hb Hx Hy Hxy i z Hi Hz. destruct (decide (i = b - 1)) as [->|]; [|apply (Ht i); [lia|done]].
  rewrite Hx in Hz. injection Hz as <-. pose proof (Ht b y ltac:(lia) Hy) as Hty.
  apply (Forall_zlookup _ _ _ _ HP) in Hx, Hy.
  assert (le y x) by (pose proof (cmp_flip y x Hy Hx); unfold le; lia).
  rewrite Forall_forall in Hty, HP |- *. intros z Hz. apply (cmp_trans z y x); auto. by apply Hty.
Qed.

Lemma on_lop fuel s tail : sortable s -> small s -> 0 <= tail < Z.of_nat (length s) -> top_from s tail ->
  tail < Z.of_nat fuel ->
  on_segment (qsort_lop fuel base tail) s (fun b s' => s' = s /\ 0 <= b <= tail /\ top_from s b).
Proof.
  intros Hs Hsm. revert tail. induction fuel as [|fuel IH]; intros tail Ht Htop Hf; [lia|].
  cbn [qsort_lop]. unfold small in Hsm. destruct (Z.ltb_spec 0 tail) as [Hlt|Hlt]; [|apply on_ret; split; [done|split; [lia|done]]].
  rewrite (wrap_small 32) by lia.
  destruct (zlookup_is_Some s (tail - 1)) as [x Hx]; [lia|].
  destruct (zlookup_is_Some s tail) as [y Hy]; [lia|].
  apply on_bind, (on_compare _ _ _ x y); [done..|].
  destruct (Z.eqb_spec (cmp x y) 0) as [Hxy|Hxy]; [|apply on_ret; split; [done|split; [lia|done]]].
  eapply on_mono; [|apply IH; [lia| |lia]].
  - intros b s' (-> & Hb & Hb'). split; [done|split; [lia|done]].
  - apply (top_from_down s tail x y); [apply Hs|done..].
Qed.

Lemma top_from_last s last v : last = Z.of_nat (length s) - 1 -> zlookup s last = Some v ->
  Forall (fun x => le x v) s -> top_from s last.
Proof.
  intros -> Hv HF i y Hi Hy. pose proof (zlookup_lt _ _ _ Hy).
  replace i with (Z.of_nat (length s) - 1) in Hy by lia.
  rewrite Hv in Hy. by injection Hy as <-.
Qed.

Lemma on_largest s pivot v : sortable s -> small s -> zlookup s pivot = Some v -> Forall (fun x => le x v) s ->
  on_segment (qsort_largest base (Z.of_nat (length s)) pivot) s (fun b s' =>
    s' ≡ₚ s /\ 0 <= b < Z.of_nat (length s) /\ top_from s' b).
Proof.
  intros Hs Hsm Hv Htop. pose proof (zlookup_lt _ _ _ Hv) as Hr. unfold qsort_largest, small in *.
  rewrite (wrap_small 32) by lia.
  destruct (zlookup_is_Some s (Z.of_nat (length s) - 1)) as [y Hy]; [lia|].
  apply on_bind. eapply (on_mono _ _ (fun _ s' => s' ≡ₚ s /\ top_from s' (Z.of_nat (length s) - 1))).
  { intros _ s' [Hp Ht]. pose proof (Permutation_length Hp) as Hl.
    eapply on_mono; [|apply on_lop]; [| | |lia|done|lia].
    - intros b s'' (-> & Hb & Ht'). split; [done|]. split; [lia|done].
    - by apply (sortable_perm s).
    - by apply (small_perm s). }
  destruct (Z.ltb_spec pivot (Z.of_nat (length s) - 1)) as [Hlt|Hlt].
  - apply on_bind, (on_compare _ _ _ v y); [done..|]. unfold when.
    destruct (Z.ltb_spec 0 (cmp v y)) as [Hvy|Hvy].
    + apply (on_exchange _ _ _ v y); [done..|].
      pose proof (swap_Permutation s _ _ v y Hv Hy) as Hp. split; [done|].
      apply (top_from_last _ _ v); [by rewrite Hp| |by rewrite Hp].
      by rewrite swap_lookup, Z.eqb_refl by lia.
    + apply on_ret. split; [done|]. apply (top_from_last _ _ y); [done..|].
      pose proof (proj1 Hs) as HP. pose proof (Forall_zlookup _ _ _ _ HP Hv). pose proof (Forall_zlookup _ _ _ _ HP Hy).
      rewrite Forall_forall in Htop, HP |- *. intros x Hx. apply (cmp_trans x v y); auto. by apply Htop.
  - apply on_ret. split; [done|]. replace pivot with (Z.of_nat (length s) - 1) in Hv by lia.
    by apply (top_from_last _ _ v).
Qed.
End segment.

(** ** The sort *)

Definition sorts (recurse : Z -> Z -> M (list A) unit) (n : Z) : Prop :=
  forall p s q base num, Z.of_nat (length p) = base -> Z.of_nat (length s) = num -> num < n ->
    sortable s -> small s ->
    on_segment p q (recurse base num) s (fun _ s' => s' ≡ₚ s /\ StronglySorted le s').

Lemma sorts_front recurse n p q front back base num (Q : unit -> list A -> Prop) :
  sorts recurse n -> Z.of_nat (length p) = base -> Z.of_nat (length front) = num -> num < n ->
  sortable front -> small front ->
  (forall front', front' ≡ₚ front -> StronglySorted le front' -> Q tt (front' ++ back)) ->
  on_segment p q (recurse base num) (front ++ back) Q.
Proof.
  intros H Hp Hl Hn Hs Hsm HQ. unfold on_segment. rewrite <- app_assoc.
  refine (wp_mono _ _ _ _ _ _ (H p front (back ++ q) base num Hp Hl Hn Hs Hsm) _ _); [|done].
  intros [] d (s' & -> & Hp' & Hsd). exists (s' ++ back). rewrite <- app_assoc. auto.
Qed.

Lemma sorts_back recurse n p q front back base num (Q : unit -> list A -> Prop) :
  sorts recurse n -> Z.of_nat (length p + length front) = base -> Z.of_nat (length back) = num -> num < n ->
  sortable back -> small back ->
  (forall back', back' ≡ₚ back -> StronglySorted le back' -> Q tt (front ++ back')) ->
  on_segment p q (recurse base num) (front ++ back) Q.
Proof.
  intros H Hp Hl Hn Hs Hsm HQ. unfold on_segment.
  replace (p ++ (front ++ back) ++ q) with ((p ++ front) ++ back ++ q) by by rewrite !app_assoc.
  refine (wp_mono _ _ _ _ _ _ (H (p ++ front) back q base num _ Hl Hn Hs Hsm) _ _); [by rewrite length_app| |done].
  intros [] d (s' & -> & Hp' & Hsd). exists (front ++ s'). rewrite !app_assoc. auto.
Qed.

(** Both parts sorted, and the front not above the back. *)
Lemma parts_sorted front back front' back' : front' ≡ₚ front -> back' ≡ₚ back ->
  (forall x y, x ∈ front -> y ∈ back -> le x y) ->
  StronglySorted le front' -> StronglySorted le back' ->
  front' ++ back' ≡ₚ front ++ back /\ StronglySorted le (front' ++ back').
Proof.
  intros Hf Hb Hle Sf Sb. split; [by rewrite Hf, Hb|]. apply StronglySorted_app_2; [|done..].
  intros x y. rewrite Hf, Hb. apply Hle.
Qed.

Lemma top_sorted l : (forall x y, x ∈ l -> y ∈ l -> le x y) -> StronglySorted le l.
Proof.
  induction l as [|x l IH]; intros H; [constructor|]. apply StronglySorted_cons. split.
  - apply Forall_forall. intros y Hy. apply H; set_solver.
  - apply IH. intros y z Hy Hz. apply H; set_solver.
Qed.

(** The case of step 5. *)
Lemma body_divided recurse p q s base v b : sorts recurse (Z.of_nat (length s)) -> Z.of_nat (length p) = base ->
  sortable s -> small s -> P v -> divided s b v -> b <> Z.of_nat (length s) ->
  on_segment p q (KASSERT ((0 <? b) && (b <? Z.of_nat (length s))) ;;
     recurse base b ;; recurse (base + b) (u32 (Z.of_nat (length s) - b))) s
    (fun _ s' => s' ≡ₚ s /\ StronglySorted le s').
Proof.
  intros Hrec Hp Hs Hsm Hv (front & back & -> & Hl & Hb & Hf & Hk) Hne. unfold small in Hsm.
  rewrite length_app in *. apply on_bind.
  apply wp_kassert; [bsolve|]. exists (front ++ back). split; [done|].
  apply on_bind. eapply sorts_front; [done|done|done|lia|by eapply sortable_app_l|unfold small; lia|].
  intros front' Hf' Sf'. pose proof (Permutation_length Hf').
  rewrite wrap_small by lia.
  eapply sorts_back; [done|lia|lia|lia|by eapply sortable_app_r|unfold small; lia|].
  intros back' Hb' Sb'. apply parts_sorted; try done.
  destruct Hs as [HP _]. rewrite Forall_forall in HP, Hf, Hk. intros x y Hx Hy.
  assert (P x /\ P y) as [Px Py] by (split; apply HP, elem_of_app; auto).
  apply (cmp_trans x v y); [done..|by apply Hf|].
  pose proof (Hk y Hy). pose proof (cmp_flip y v Py Hv). lia.
Qed.

(** The case of step 4. *)
Lemma body_largest recurse p q s base b : sorts recurse (Z.of_nat (length s)) -> Z.of_nat (length p) = base ->
  sortable s -> small s -> 0 <= b < Z.of_nat (length s) -> top_from s b ->
  on_segment p q (when (0 <? b) (recurse base b)) s (fun _ s' => s' ≡ₚ s /\ StronglySorted le s').
Proof.
  intros Hrec Hp Hs Hsm Hb Htop. destruct (zlookup_split s b) as (front & back & -> & Hl & Hf & Hk); [lia|].
  assert (forall x y, x ∈ front ++ back -> y ∈ back -> le x y) as Hle.
  { intros x y Hx (i & Hi & Hy)%Hk. pose proof (Htop i y Hi Hy) as H. rewrite Forall_forall in H. by apply H. }
  assert (StronglySorted le back) as Sb by (apply top_sorted; intros x y Hx; apply Hle; set_solver).
  unfold when. destruct (Z.ltb_spec 0 b) as [H0|H0].
  - eapply sorts_front; [done|done|done|lia|by eapply sortable_app_l|unfold small in *; rewrite length_app in Hsm; lia|].
    intros front' Hf' Sf'. apply parts_sorted; try done. intros x y Hx. apply Hle. set_solver.
  - apply on_ret. split; [done|]. destruct front; [done|cbn in Hl; lia].
Qed.

Lemma on_body recurse p q s base : sorts recurse (Z.of_nat (length s)) -> Z.of_nat (length p) = base ->
  sortable s -> small s -> 2 <= Z.of_nat (length s) ->
  on_segment p q (qsort_body recurse base (Z.of_nat (length s))) s (fun _ s' => s' ≡ₚ s /\ StronglySorted le s').
Proof.
  intros Hrec Hp Hs Hsm Hn. unfold qsort_body. set (num := Z.of_nat (length s)) in *.
  assert (num < 2 ^ 32) by done. rewrite (wrap_small 32 (num - 1)) by lia.
  destruct (zlookup_is_Some s (num / 2)) as [v Hv]; [subst num; Z.div_mod_to_equations; lia|].
  assert (P v) as Pv by (apply (Forall_zlookup _ _ _ _ (proj1 Hs) Hv)).
  apply on_bind. eapply on_mono; [|apply (on_partition p q base Hp _ s _ _ _ v); [done..| |lia]].
  2: { split; [lia|done|intros i x Hi Hx|intros i x Hi Hx]; apply zlookup_lt in Hx; lia. }
  intros [[h t] pv] s1 (Hp1 & Hht & Hpart). pose proof (Permutation_length Hp1) as Hl1.
  assert (sortable s1) as Hs1 by by apply (sortable_perm s).
  assert (small s1) as Hsm1 by by apply (small_perm s).
  apply on_bind. eapply on_mono; [|by apply (on_boundary p q base Hp s1 h t pv v)].
  intros b s1' [-> Hdiv]. destruct (Z.eqb_spec b num) as [->|Hne].
  - pose proof (parted_pivot _ _ _ _ _ Hpart) as Hpv.
    assert (Forall (fun x => le x v) s1) as Htop.
    { destruct Hdiv as (front & [|y back] & -> & Hl & _ & Hf & _); [by rewrite app_nil_r|].
      rewrite length_app in Hl1. cbn in Hl1. lia. }
    subst num. rewrite <- Hl1. apply on_bind.
    eapply on_mono; [|by apply (on_largest p q base Hp s1 pv v)].
    intros b s2 (Hp2 & Hb & Ht2). pose proof (Permutation_length Hp2) as Hl2.
    eapply on_mono; [|apply body_largest; [by rewrite Hl2, Hl1|done| | |by rewrite Hl2|done]].
    + intros _ s' [H1 H2]. split; [by rewrite H1, Hp2|done].
    + by apply (sortable_perm s1).
    + by apply (small_perm s1).
  - subst num. rewrite <- Hl1 in *. eapply on_mono; [|by apply (body_divided recurse p q s1 base v b)].
    intros _ s' [H1 H2]. split; [by rewrite H1|done].
Qed.

Lemma sorted_pair x y : P x -> P y -> 0 < cmp x y -> StronglySorted le [y; x].
Proof.
  intros Px Py H. pose proof (cmp_flip x y Px Py). apply StronglySorted_cons. split.
  - apply Forall_singleton. unfold le. lia.
  - repeat constructor.
Qed.

Lemma qsort_rec_sorts fuel : sorts (qsort_rec fuel) (Z.of_nat fuel).
Proof.
  induction fuel as [|fuel IH]; intros p s q base num Hp <- Hn Hs Hsm; [lia|]. cbn [qsort_rec].
  destruct (Z.leb_spec (Z.of_nat (length s)) 1) as [Hle|Hgt].
  { apply on_ret. split; [done|]. destruct s as [|x [|y s]]; [constructor|repeat constructor|cbn in Hle; lia]. }
  assert (sorts (qsort_rec fuel) (Z.of_nat (length s))) as Hrec.
  { intros p' s' q' base' num' H1 H2 H3. apply IH; [done..|lia]. }
  destruct (Z.eqb_spec (Z.of_nat (length s)) 2) as [He|Hne]; [|apply on_body; [done..|lia]].
  destruct s as [|x [|y [|z s]]]; try (cbn in He; lia).
  apply on_bind, (on_compare p q base Hp _ 0 1 x y); [done..|].
  destruct (Z.ltb_spec 0 (cmp x y)) as [Hc|Hc]; [|apply on_body; [done..|cbn; lia]].
  apply (on_exchange p q base Hp _ 0 1 x y); [done..|].
  split; [apply Permutation_swap|]. destruct Hs as [HP _].
  rewrite !Forall_cons in HP. destruct HP as (Px & Py & _). by apply sorted_pair.
Qed.
End qsort.

(** C6: [qsort] sorts: for a comparison that is a total preorder on the
    values of the segment, it returns (no assertion of its own or of the
    comparison fails, no access is out of range, the recursion and the loops
    end), the segment holds a permutation of its elements in order, and the
    rest of the array is as it was.  The indices are 32-bit unsigned. *)
Theorem qsort_sorts {A} (f : A -> A -> option Z) (P : A -> Prop) (cmp : A -> A -> Z) `{!Comparator P cmp} p s q :
  Forall P s -> comparable f cmp s -> Z.of_nat (length s) < 2 ^ 32 ->
  wp (qsort f (Z.of_nat (length p)) (Z.of_nat (length s)))
     (fun _ data => exists s', data = p ++ s' ++ q /\ s' ≡ₚ s /\ StronglySorted (le cmp) s')
     (fun _ _ => False) (p ++ s ++ q).
Proof.
  intros HP Hc Hsm. apply (qsort_rec_sorts f P cmp); [done|done|lia|by split|done].
Qed.

(** The usual comparison of integers, here on their tens alone: many values
    compare equal. *)
Definition tens_cmp (x y : Z) : Z := x / 10 - y / 10.

#[local] Instance tens_comparator : Comparator (fun _ => True) tens_cmp.
Proof. unfold tens_cmp. split; intros; lia. Qed.

Lemma qsort_sorts_witness : exists s',
  final (qsort (fun x y => Some (tens_cmp x y)) 1 7 [9; 31; 5; 47; 32; 18; 44; 3; 0]) = Some ([9] ++ s' ++ [0]) /\
  s' ≡ₚ [31; 5; 47; 32; 18; 44; 3] /\ StronglySorted (le tens_cmp) s'.
Proof.
  pose proof (qsort_sorts (fun x y => Some (tens_cmp x y)) (fun _ => True) tens_cmp [9] [31; 5; 47; 32; 18; 44; 3] [0]
    (Forall_true _ _ (fun _ => I)) (fun _ _ _ _ => eq_refl) eq_refl) as (s' & H1 & H2).
  exists s'. split; [|exact H2]. rewrite <- H1. reflexivity.
Defined.

Example qsort_reverse :
  final (qsort (fun x y => Some (x - y)) 0 8 [8; 7; 6; 5; 4; 3; 2; 1]) = Some [1; 2; 3; 4; 5; 6; 7; 8].
Proof. reflexivity. Qed.
