(* ===== verification/SbinDisk.v ===== *)
(** * The disk of the volume tools, and bit maps as bytes

    First the free map as the tools keep it, then the disk access of
    [userland/sbin/mksfs/disk.c].  The volume tools keep the free-block map as an array of bytes and set and
    clear its bits by hand.  [mapbit] is the bit of a block; the lemmas give
    the effect of the two updates on all bits. *)

From S2P Require Import Prelude Bitmap.

Definition mapbit (l : list Z) (i : Z) : bool := bit (Bitmap 0 l) i.

(** The byte and the mask of a block, as the tools compute them. *)
Definition map_index (block : Z) : Z := block / 8.
Definition map_mask (block : Z) : Z := u8 (Z.shiftl 1 (block mod 8)).

Lemma map_mask_pow i : map_mask i = 2 ^ (i mod 8).
Proof. apply mask_pow, Z.mod_pos_bound. lia. Qed.

Lemma map_byte l i : 0 <= i < 8 * Z.of_nat (length l) -> Forall byte_ok l ->
  exists w, zlookup l (map_index i) = Some w /\ byte_ok w /\ mapbit l i = Z.testbit w (i mod 8).
Proof.
  intros Hi Hl. unfold map_index. destruct (zlookup_is_Some l (i / 8)) as [w Hw]; [Z.div_mod_to_equations; lia|].
  exists w. split; [done|]. split; [by apply (Forall_zlookup _ _ _ _ Hl Hw)|]. by apply bit_word.
Qed.

Lemma map_test l i w : zlookup l (map_index i) = Some w -> (Z.land w (map_mask i) =? 0) = negb (mapbit l i).
Proof.
  intros Hw. pose proof (Z.mod_pos_bound i 8 ltac:(lia)). rewrite map_mask_pow, land_mask_0 by lia.
  unfold mapbit. by rewrite (bit_word _ i w).
Qed.

Lemma map_set l i w : 0 <= i -> zlookup l (map_index i) = Some w -> byte_ok w ->
  u8 (Z.lor w (map_mask i)) = Z.lor w (map_mask i) /\ byte_ok (Z.lor w (map_mask i)) /\
  forall j, 0 <= j -> mapbit (zinsert (map_index i) (Z.lor w (map_mask i)) l) j = (j =? i) || mapbit l j.
Proof.
  intros Hi Hw Hb. rewrite map_mask_pow. pose proof (Z.mod_pos_bound i 8 ltac:(lia)).
  assert (byte_ok (Z.lor w (2 ^ (i mod 8)))) as Hb' by by apply lor_mask_byte.
  split; [by apply byte_u8|]. split; [done|]. intros j Hj.
  destruct (bit_write (Bitmap 0 l) i w (Z.lor w (2 ^ (i mod 8))) true) as [_ H2]; [done|done| |].
  { intros k Hk. apply lor_mask_testbit; lia. }
  unfold mapbit, map_index. rewrite H2 by done. by destruct (j =? i).
Qed.

Lemma map_clear l i w : 0 <= i -> zlookup l (map_index i) = Some w -> byte_ok w ->
  u8 (Z.land w (Z.lnot (map_mask i))) = Z.land w (Z.lnot (map_mask i)) /\
  byte_ok (Z.land w (Z.lnot (map_mask i))) /\
  forall j, 0 <= j -> mapbit (zinsert (map_index i) (Z.land w (Z.lnot (map_mask i))) l) j = negb (j =? i) && mapbit l j.
Proof.
  intros Hi Hw Hb. rewrite map_mask_pow. pose proof (Z.mod_pos_bound i 8 ltac:(lia)).
  assert (byte_ok (Z.land w (Z.lnot (2 ^ (i mod 8))))) as Hb' by by apply ldiff_mask_byte.
  split; [by apply byte_u8|]. split; [done|]. intros j Hj.
  destruct (bit_write (Bitmap 0 l) i w (Z.land w (Z.lnot (2 ^ (i mod 8)))) false) as [_ H2]; [done|done| |].
  { intros k Hk. apply ldiff_mask_testbit; lia. }
  unfold mapbit, map_index. rewrite H2 by done. by destruct (j =? i).
Qed.

Lemma mapbit_zeros n i : 0 <= i < 8 * Z.of_nat n -> mapbit (replicate n 0) i = false.
Proof.
  intros Hi. unfold mapbit, bit. cbn [v]. rewrite zlookup_replicate by (Z.div_mod_to_equations; lia). apply Z.bits_0.
Qed.

(** Two maps with the same bits are the same bytes. *)
Lemma mapbit_ext l l' : length l = length l' -> Forall byte_ok l -> Forall byte_ok l' ->
  (forall i, 0 <= i < 8 * Z.of_nat (length l) -> mapbit l i = mapbit l' i) -> l = l'.
Proof.
  intros Hl H1 H2 H. apply list_eq. intros k.
  destruct (decide (k < length l)%nat) as [Hk|Hk]; [|rewrite !lookup_ge_None_2 by lia; done].
  destruct (lookup_lt_is_Some_2 l k Hk) as [w Hw]. destruct (lookup_lt_is_Some_2 l' k) as [w' Hw']; [lia|].
  rewrite Hw, Hw'. f_equal. pose proof (Forall_lookup_1 _ _ _ _ H1 Hw). pose proof (Forall_lookup_1 _ _ _ _ H2 Hw').
  apply Z.bits_inj'. intros j Hj. destruct (decide (j < 8)) as [Hj8|Hj8].
  2: { by rewrite !byte_testbit_high by (done || lia). }
  specialize (H (8 * Z.of_nat k + j) ltac:(lia)). destruct (idx_split (Z.of_nat k) j) as [Hd Hm]; [lia|].
  unfold mapbit, bit in H. cbn [v] in H.
  replace (8 * Z.of_nat k + j) with (Z.of_nat k * 8 + j) in H by lia.
  by rewrite Hd, Hm, !zlookup_nat, Hw, Hw' in H.
Qed.

(** A bit of one block of the map. *)
Lemma mapbit_slice l off n i : 0 <= i < 8 * Z.of_nat n -> (off + n <= length l)%nat ->
  mapbit (slice off n l) i = mapbit l (8 * Z.of_nat off + i).
Proof.
  intros Hi Hl. unfold mapbit, bit. cbn [v].
  replace ((8 * Z.of_nat off + i) / 8) with (Z.of_nat off + i / 8) by (Z.div_mod_to_equations; lia).
  replace ((8 * Z.of_nat off + i) mod 8) with (i mod 8) by (Z.div_mod_to_equations; lia).
  assert (0 <= i / 8 < Z.of_nat n) by (Z.div_mod_to_equations; lia).
  unfold zlookup. destruct (Z.leb_spec 0 (i / 8)), (Z.leb_spec 0 (Z.of_nat off + i / 8)); try lia.
  rewrite lookup_slice by lia. by replace (Z.to_nat (Z.of_nat off + i / 8)) with (off + Z.to_nat (i / 8))%nat by lia.
Qed.

(** ** The disk access of the volume tools, [userland/sbin/mksfs/disk.c]

    [mksfs] and [sfsck] reach a disk device, or a file that holds its image,
    through the system calls [open], [fstat], [lseek], [read] and [write].
    The state is the open file: its bytes, the current position, and what
    the coming transfers will do ([rd_events]: be interrupted, fail, or move
    only some of the bytes; a transfer with no event moves them all).
    [err] and [errx] end the program: [throw] with the exit code.  The
    programs are those built for the system itself, not for the host. *)

Definition BLOCKSIZE : Z := 512.

Inductive io_event := IO_Interrupted | IO_Failed | IO_Short (n : Z).

Record rawdisk := RawDisk {
  rd_open : bool;
  rd_nblocks : Z;
  rd_pos : Z;
  rd_file : list Z;
  rd_events : list io_event
}.

(** What a transfer returned: -1 with [EINTR] or [EAGAIN], -1 with another
    code, or a length. *)
Inductive io_result := Interrupted | Failed | Length (n : Z).

Definition next_event : M rawdisk (option io_event) :=
  d <- get ;;
  match rd_events d with
  | [] => ret None
  | e :: es => put (RawDisk (rd_open d) (rd_nblocks d) (rd_pos d) (rd_file d) es) ;; ret (Some e)
  end.

(** How many of [n] bytes the system moves. *)
Definition transfer_size (e : option io_event) (n : Z) : io_result :=
  match e with
  | None => Length n
  | Some (IO_Short k) => Length (Z.max 0 (Z.min k n))
  | Some IO_Interrupted => Interrupted
  | Some IO_Failed => Failed
  end.

Definition file_seek (pos : Z) : M rawdisk unit :=
  modify (fun d => RawDisk (rd_open d) (rd_nblocks d) pos (rd_file d) (rd_events d)).

Definition file_advance (n : Z) (file : list Z) : M rawdisk unit :=
  modify (fun d => RawDisk (rd_open d) (rd_nblocks d) (rd_pos d + n) file (rd_events d)).

(** What is stored are bytes. *)
Definition file_write (buf : list Z) : M rawdisk io_result :=
  e <- next_event ;;
  match transfer_size e (Z.of_nat (length buf)) with
  | Length n =>
      d <- get ;;
      if Z.of_nat (length (rd_file d)) <? rd_pos d + n then ret Failed
      else
        file_advance n (splice (Z.to_nat (rd_pos d)) (map (wrap 8) (take (Z.to_nat n) buf)) (rd_file d)) ;;
        ret (Length n)
  | r => ret r
  end.

(** A read of at most [len] bytes: the result and the bytes. *)
Definition file_read (len : Z) : M rawdisk (io_result * list Z) :=
  e <- next_event ;;
  match transfer_size e len with
  | Length n =>
      d <- get ;;
      let data := slice (Z.to_nat (rd_pos d)) (Z.to_nat n) (rd_file d) in
      file_advance (Z.of_nat (length data)) (rd_file d) ;;
      ret (Length (Z.of_nat (length data)), data)
  | r => ret (r, [])
  end.

(** ** The functions of [disk.c] *)

(** [open_ok] and [fstat_ok] are the answers of the two calls. *)
Definition opendisk (open_ok fstat_ok : bool) : M rawdisk unit :=
  d <- get ;;
  KASSERT (negb (rd_open d)) ;;
  if negb open_ok then throw 1
  else
    modify (fun d => RawDisk true (rd_nblocks d) 0 (rd_file d) (rd_events d)) ;;
    if negb fstat_ok then throw 1
    else
      let st_size := Z.of_nat (length (rd_file d)) in
      modify (fun d => RawDisk true (u32 (st_size / BLOCKSIZE)) 0 (rd_file d) (rd_events d)).

Definition diskblocksize : M rawdisk Z :=
  d <- get ;; KASSERT (rd_open d) ;; ret BLOCKSIZE.

Definition diskblocks : M rawdisk Z :=
  d <- get ;; KASSERT (rd_open d) ;; ret (rd_nblocks d).

Fixpoint diskwrite_loop (fuel : nat) (data : list Z) (tot : Z) : M rawdisk unit :=
  match fuel with
  | O => fun _ => OutOfFuel
  | S fuel' =>
      if tot <? BLOCKSIZE then
        len <- file_write (slice (Z.to_nat tot) (Z.to_nat (BLOCKSIZE - tot)) data) ;;
        match len with
        | Interrupted => diskwrite_loop fuel' data tot
        | Failed => throw 1
        | Length n => if n =? 0 then throw 1 else diskwrite_loop fuel' data (u32 (tot + n))
        end
      else ret tt
  end.

(** Every turn of the loop uses up an event or moves a byte. *)
Definition transfer_fuel (d : rawdisk) : nat := S (length (rd_events d) + Z.to_nat BLOCKSIZE).

(** The caller's buffer has to hold a block. *)
Definition diskwrite (data : list Z) (block : Z) : M rawdisk unit :=
  d <- get ;;
  KASSERT (rd_open d) ;;
  file_seek (u32 (block * BLOCKSIZE)) ;;
  in_bounds (BLOCKSIZE <=? Z.of_nat (length data)) ;;
  diskwrite_loop (transfer_fuel d) data 0.

(** The loop of [diskread], with the bytes read so far. *)
Fixpoint diskread_loop (fuel : nat) (cdata : list Z) : M rawdisk (list Z) :=
  match fuel with
  | O => fun _ => OutOfFuel
  | S fuel' =>
      let tot := Z.of_nat (length cdata) in
      if tot <? BLOCKSIZE then
        let* (len, bytes) := file_read (BLOCKSIZE - tot) in
        match len with
        | Interrupted => diskread_loop fuel' cdata
        | Failed => throw 1
        | Length n => if n =? 0 then throw 1 else diskread_loop fuel' (cdata ++ bytes)
        end
      else ret cdata
  end.

Definition diskread (block : Z) : M rawdisk (list Z) :=
  d <- get ;;
  KASSERT (rd_open d) ;;
  file_seek (u32 (block * BLOCKSIZE)) ;;
  diskread_loop (transfer_fuel d) [].

Definition closedisk (close_ok : bool) : M rawdisk unit :=
  d <- get ;;
  KASSERT (rd_open d) ;;
  if negb close_ok then throw 1
  else modify (fun d => RawDisk false (rd_nblocks d) (rd_pos d) (rd_file d) (rd_events d)).

(** ** Blocks *)

Definition dblock (d : rawdisk) (b : Z) : list Z := slice (Z.to_nat (b * BLOCKSIZE)) (Z.to_nat BLOCKSIZE) (rd_file d).

(** A transfer that does not fail moves at least a byte. *)
Definition benign (e : io_event) : Prop :=
  match e with IO_Interrupted => True | IO_Failed => False | IO_Short n => 0 < n end.

(** An open disk all of whose blocks a 32-bit offset reaches. *)
Record disk_ok (d : rawdisk) : Prop := {
  disk_open : rd_open d = true;
  disk_size : Z.of_nat (length (rd_file d)) = rd_nblocks d * BLOCKSIZE;
  disk_reach : rd_nblocks d * BLOCKSIZE <= 2 ^ 32;
  disk_events : Forall benign (rd_events d);
  disk_bytes : Forall byte_ok (rd_file d)
}.

(** The same disk, with other bytes. *)
Definition with_file (d : rawdisk) (file : list Z) (d' : rawdisk) : Prop :=
  disk_ok d' /\ rd_nblocks d' = rd_nblocks d /\ rd_file d' = file.

Lemma map_u8_bytes l : Forall byte_ok (map (wrap 8) l).
Proof. apply Forall_fmap, Forall_true. intros x. by apply wrap_bound. Qed.

Lemma map_u8_id l : Forall byte_ok l -> map (wrap 8) l = l.
Proof. induction 1 as [|x l Hx Hl IH]; [done|]. cbn. by rewrite IH, byte_u8. Qed.

Lemma splice_bytes off new l : Forall byte_ok new -> Forall byte_ok l -> Forall byte_ok (splice off new l).
Proof. intros H1 H2. unfold splice. rewrite !Forall_app. split; [by apply Forall_take|]. split; [done|by apply Forall_drop]. Qed.

Lemma dblock_bytes d b : disk_ok d -> Forall byte_ok (dblock d b).
Proof. intros [_ _ _ _ H]. by apply Forall_take, Forall_drop. Qed.

Lemma dblock_length d b : disk_ok d -> 0 <= b < rd_nblocks d -> length (dblock d b) = Z.to_nat BLOCKSIZE.
Proof.
  intros [_ Hs _ _ _] Hb. unfold dblock, slice, BLOCKSIZE in *. rewrite length_take, length_drop. lia.
Qed.

Lemma dblock_at d b i : 0 <= b -> (i < Z.to_nat BLOCKSIZE)%nat ->
  dblock d b !! i = rd_file d !! (Z.to_nat (b * BLOCKSIZE) + i)%nat.
Proof. intros Hb Hi. unfold dblock, slice. by rewrite lookup_take_lt, lookup_drop. Qed.

(** A block written is the block read, and the others stay. *)
Lemma dblock_written d d' b data : 0 <= b < rd_nblocks d -> disk_ok d -> length data = Z.to_nat BLOCKSIZE ->
  with_file d (splice (Z.to_nat (b * BLOCKSIZE)) data (rd_file d)) d' ->
  dblock d' b = data /\ forall b', 0 <= b' -> b' <> b -> dblock d' b' = dblock d b'.
Proof.
  intros Hb [_ Hs _ _ _] Hl (_ & _ & Hf). unfold BLOCKSIZE in *. split.
  - unfold dblock, BLOCKSIZE. rewrite Hf, <- Hl. apply slice_splice_eq. lia.
  - intros b' Hb' Hne. apply list_eq. intros i.
    destruct (decide (i < Z.to_nat BLOCKSIZE)%nat) as [Hi|Hi]; unfold BLOCKSIZE in Hi.
    + rewrite !dblock_at, Hf by (unfold BLOCKSIZE; lia). unfold BLOCKSIZE.
      apply lookup_splice_out; lia.
    + unfold dblock, slice, BLOCKSIZE. rewrite !lookup_take_ge by lia. done.
Qed.

(** ** What the loops do *)

(** The disk after an event was used up or [n] bytes were moved. *)
Definition moved (n : Z) (file : list Z) (d d' : rawdisk) : Prop :=
  rd_open d' = rd_open d /\ rd_nblocks d' = rd_nblocks d /\ rd_pos d' = rd_pos d + n /\ rd_file d' = file /\
  Forall benign (rd_events d') /\ (length (rd_events d') <= length (rd_events d))%nat.

(** Either the call was interrupted, and there is one event less, or it moved
    [n] of [len] bytes. *)
Definition progress (len : Z) (d : rawdisk) (r : io_result) (d' : rawdisk) (file : Z -> list Z) : Prop :=
  (r = Interrupted /\ moved 0 (rd_file d) d d' /\ (length (rd_events d') < length (rd_events d))%nat) \/
  (exists n, r = Length n /\ 0 < n <= len /\ moved n (file n) d d').

Lemma wp_next_event d (Q : option io_event -> rawdisk -> Prop) E : Forall benign (rd_events d) ->
  (forall e d', moved 0 (rd_file d) d d' -> (e = None \/ (length (rd_events d') < length (rd_events d))%nat) ->
     (forall x, e = Some x -> benign x) -> Q e d') ->
  wp next_event Q E d.
Proof.
  intros Hb HQ. unfold next_event. wp_steps. destruct d as [o nb pos file [|e es]]; cbn in *; wp_steps; apply HQ.
  - unfold moved. cbn. repeat split; (done || lia).
  - by left.
  - done.
  - apply Forall_cons in Hb as [_ Hb]. unfold moved. cbn. repeat split; (done || lia).
  - right. cbn. lia.
  - intros x [= <-]. by apply Forall_cons in Hb as [? _].
Qed.

Lemma transfer_size_cases e len (d' d : rawdisk) : 0 < len -> (forall x, e = Some x -> benign x) ->
  (e = None \/ (length (rd_events d') < length (rd_events d))%nat) ->
  (transfer_size e len = Interrupted /\ (length (rd_events d') < length (rd_events d))%nat) \/
  exists n, transfer_size e len = Length n /\ 0 < n <= len.
Proof.
  intros Hl Hb He. destruct e as [[| |n]|]; cbn; [..|right; exists len; split; [done|lia]].
  - left. destruct He; done.
  - destruct (Hb IO_Failed eq_refl).
  - right. specialize (Hb (IO_Short n) eq_refl). cbn in Hb. eexists. split; [done|]. lia.
Qed.

Lemma wp_file_write buf d E : Forall benign (rd_events d) -> buf <> [] -> 0 <= rd_pos d ->
  rd_pos d + Z.of_nat (length buf) <= Z.of_nat (length (rd_file d)) ->
  wp (file_write buf) (fun r d' => progress (Z.of_nat (length buf)) d r d'
      (fun n => splice (Z.to_nat (rd_pos d)) (map (wrap 8) (take (Z.to_nat n) buf)) (rd_file d))) E d.
Proof.
  intros Hb Hne Hp Hle. unfold file_write. wp_step. apply wp_next_event; [done|].
  intros e d1 (H1 & H2 & H3 & H4 & H5 & H6) Hev He.
  destruct (transfer_size_cases e (Z.of_nat (length buf)) d1 d) as [[-> Hlt]|(n & -> & Hn)]; [destruct buf; [done|cbn; lia]|done|done| |].
  - wp_steps. left. repeat split; (done || lia).
  - wp_steps. destruct (Z.ltb_spec (Z.of_nat (length (rd_file d1))) (rd_pos d1 + n)) as [Hlt|Hge].
    { rewrite H4, H3 in Hlt. lia. }
    wp_steps. right. exists n. unfold moved. cbn. rewrite H3, H4, Z.add_0_r. repeat split; (done || lia).
Qed.

Lemma wp_file_read len d E : Forall benign (rd_events d) -> 0 < len -> 0 <= rd_pos d ->
  rd_pos d + len <= Z.of_nat (length (rd_file d)) ->
  wp (file_read len) (fun r d' => progress len d (fst r) d' (fun _ => rd_file d) /\
      (forall n, fst r = Length n -> snd r = slice (Z.to_nat (rd_pos d)) (Z.to_nat n) (rd_file d))) E d.
Proof.
  intros Hb Hl Hp Hle. unfold file_read. wp_step. apply wp_next_event; [done|].
  intros e d1 (H1 & H2 & H3 & H4 & H5 & H6) Hev He.
  destruct (transfer_size_cases e len d1 d) as [[-> Hlt]|(n & -> & Hn)]; [done..| |]; wp_steps; cbn [fst snd].
  - split; [|done]. left. repeat split; (done || lia).
  - rewrite H4, H3, Z.add_0_r, slice_length, Z2Nat.id by lia. split; [|by intros n' [= <-]].
    right. exists n. unfold moved. cbn. rewrite H3, Z.add_0_r. repeat split; (done || lia).
Qed.

Lemma wp_diskwrite_loop fuel data off file d tot : length data = Z.to_nat BLOCKSIZE ->
  0 <= off -> off + BLOCKSIZE <= Z.of_nat (length file) -> 0 <= tot <= BLOCKSIZE ->
  Forall benign (rd_events d) -> rd_pos d = off + tot ->
  rd_file d = splice (Z.to_nat off) (map (wrap 8) (take (Z.to_nat tot) data)) file ->
  Z.of_nat (length (rd_events d)) + (BLOCKSIZE - tot) < Z.of_nat fuel ->
  wp (diskwrite_loop fuel data tot)
     (fun _ d' => rd_open d' = rd_open d /\ rd_nblocks d' = rd_nblocks d /\ Forall benign (rd_events d') /\
        rd_file d' = splice (Z.to_nat off) (map (wrap 8) data) file)
     (fun _ _ => False) d.
Proof.
  intros Hd Hoff Hfit. revert d tot. induction fuel as [|fuel IH]; intros d tot Ht Hb Hpos Hfile Hf; [unfold BLOCKSIZE in *; lia|].
  cbn [diskwrite_loop]. unfold BLOCKSIZE in *. destruct (Z.ltb_spec tot 512) as [Hlt|Hge].
  2: { wp_steps. rewrite Hfile, take_ge by lia. auto. }
  assert (length (rd_file d) = length file) as Hl by (rewrite Hfile; apply splice_length; rewrite length_map, length_take; lia).
  replace (slice (Z.to_nat tot) (Z.to_nat (512 - tot)) data) with (drop (Z.to_nat tot) data)
    by (unfold slice; rewrite take_ge; [done|rewrite length_drop; lia]).
  wp_step. eapply wp_use; [apply wp_file_write; [done| |lia|rewrite length_drop; lia]|].
  { intros H%(f_equal length). rewrite length_drop in H. cbn in H. lia. }
  cbv beta. rewrite length_drop.
  intros r d' [(-> & (H1 & H2 & H3 & H4 & H5 & _) & Hev)|(n & -> & Hn & (H1 & H2 & H3 & H4 & H5 & H6))].
  - eapply wp_use; [apply (IH d' tot)|]; [lia|done|lia|by rewrite H4|lia|]. cbv beta. by rewrite H1, H2.
  - destruct (Z.eqb_spec n 0) as [->|_]; [lia|]. rewrite wrap_small by lia.
    eapply wp_use; [apply (IH d' (tot + n))|]; [lia|done|lia| |lia|cbv beta; by rewrite H1, H2].
    rewrite H4, Hpos, Hfile, (Z2Nat.inj_add tot n), <- take_take_drop, map_app by lia.
    rewrite <- splice_splice by (rewrite !length_map, !length_take, length_drop; lia).
    f_equal. rewrite length_map, length_take. lia.
Qed.

Lemma wp_diskread_loop fuel off d cdata : 0 <= off -> off + BLOCKSIZE <= Z.of_nat (length (rd_file d)) ->
  (length cdata <= Z.to_nat BLOCKSIZE)%nat -> Forall benign (rd_events d) ->
  rd_pos d = off + Z.of_nat (length cdata) -> cdata = slice (Z.to_nat off) (length cdata) (rd_file d) ->
  Z.of_nat (length (rd_events d)) + (BLOCKSIZE - Z.of_nat (length cdata)) < Z.of_nat fuel ->
  wp (diskread_loop fuel cdata)
     (fun r d' => rd_open d' = rd_open d /\ rd_nblocks d' = rd_nblocks d /\ Forall benign (rd_events d') /\
        rd_file d' = rd_file d /\ r = slice (Z.to_nat off) (Z.to_nat BLOCKSIZE) (rd_file d))
     (fun _ _ => False) d.
Proof.
  intros Hoff. revert d cdata. unfold BLOCKSIZE.
  induction fuel as [|fuel IH]; intros d cdata Hfit Ht Hb Hpos Hfile Hf; [lia|].
  cbn [diskread_loop]. unfold BLOCKSIZE. destruct (Z.ltb_spec (Z.of_nat (length cdata)) 512) as [Hlt|Hge].
  2: { wp_steps. rewrite Hfile at 1. replace (length cdata) with (Z.to_nat 512) by lia. auto. }
  wp_step. eapply wp_use; [apply wp_file_read; [done|lia..]|]. cbv beta.
  intros [r bytes] d' [[(Hr & (H1 & H2 & H3 & H4 & H5 & _) & Hev)|(n & Hr & Hn & (H1 & H2 & H3 & H4 & H5 & H6))] Hbytes];
    cbn [fst snd] in *; subst r.
  - eapply wp_use; [apply (IH d' cdata)|]; rewrite ?H4; [lia|done|done|lia|done|lia|]. cbv beta. by rewrite H1, H2.
  - destruct (Z.eqb_spec n 0) as [->|_]; [lia|]. specialize (Hbytes n eq_refl).
    assert (length bytes = Z.to_nat n) as Hlb by (rewrite Hbytes; apply slice_length; lia).
    eapply wp_use; [apply (IH d' (cdata ++ bytes))|]; rewrite ?H4, ?length_app, ?Hlb;
      [lia|lia|done|lia| |lia|cbv beta; by rewrite H1, H2].
    rewrite slice_app. f_equal; [done|]. rewrite Hbytes, Hpos. f_equal. lia.
Qed.

(** The two transfers, on a disk without failures. *)
Lemma wp_diskwrite d data b (Q : unit -> rawdisk -> Prop) E : disk_ok d -> length data = Z.to_nat BLOCKSIZE ->
  0 <= b < rd_nblocks d ->
  (forall d', with_file d (splice (Z.to_nat (b * BLOCKSIZE)) (map (wrap 8) data) (rd_file d)) d' -> Q tt d') ->
  wp (diskwrite data b) Q E d.
Proof.
  intros [H1 H2 H3 H4 H5] Hd Hb HQ. unfold diskwrite, file_seek. wp_steps. apply wp_kassert; [by rewrite H1|]. wp_steps.
  apply wp_in_bounds; [rewrite Hd; reflexivity|].
  unfold BLOCKSIZE in *. rewrite wrap_small by lia.
  eapply wp_use; [apply (wp_diskwrite_loop _ _ (b * 512) (rd_file d)); unfold BLOCKSIZE; cbn -[Z.mul splice take]; try (done || lia)|].
  - rewrite take_0. cbn [map]. by rewrite splice_nil.
  - unfold transfer_fuel, BLOCKSIZE. lia.
  - cbn. intros [] d' (Ho & Hn & He & Hf). apply HQ. split; [|done].
    split; unfold BLOCKSIZE; [congruence| |by rewrite Hn|done|rewrite Hf; by apply splice_bytes, H5; apply map_u8_bytes].
    rewrite Hf, splice_length, Hn by (rewrite length_map; lia). done.
Qed.

Lemma wp_diskread d b (Q : list Z -> rawdisk -> Prop) E : disk_ok d -> 0 <= b < rd_nblocks d ->
  (forall d', with_file d (rd_file d) d' -> Q (dblock d b) d') -> wp (diskread b) Q E d.
Proof.
  intros [H1 H2 H3 H4 H5] Hb HQ. unfold diskread, file_seek. wp_steps. apply wp_kassert; [by rewrite H1|]. wp_steps.
  unfold BLOCKSIZE in *. rewrite wrap_small by lia.
  eapply wp_use; [apply (wp_diskread_loop _ (b * 512)); unfold BLOCKSIZE; cbn -[Z.mul slice]; try (done || lia)|].
  - unfold transfer_fuel, BLOCKSIZE. lia.
  - cbn -[Z.mul slice]. intros r d' (Ho & Hn & He & Hf & ->). apply HQ. split; [|done].
    split; unfold BLOCKSIZE; [congruence| |by rewrite Hn|done|by rewrite Hf]. by rewrite Hf, Hn.
Qed.

(** The disk with block [b] replaced. *)
Definition wrote (b : Z) (data : list Z) (d d' : rawdisk) : Prop :=
  disk_ok d' /\ rd_nblocks d' = rd_nblocks d /\ length (rd_file d') = length (rd_file d) /\
  dblock d' b = data /\ forall b', 0 <= b' -> b' <> b -> dblock d' b' = dblock d b'.

Lemma wp_diskwrite_block d data b (Q : unit -> rawdisk -> Prop) E : disk_ok d -> length data = Z.to_nat BLOCKSIZE ->
  0 <= b < rd_nblocks d -> (forall d', wrote b (map (wrap 8) data) d d' -> Q tt d') -> wp (diskwrite data b) Q E d.
Proof.
  intros Hd Hl Hb HQ. apply wp_diskwrite; [done..|]. intros d' Hd'. pose proof Hd' as (H1 & H2 & H3).
  destruct (dblock_written d d' b (map (wrap 8) data)) as [H4 H5]; [done|done|by rewrite length_map|done|].
  apply HQ. split_and!; try done. rewrite H3. apply splice_length. rewrite length_map.
  pose proof (disk_size _ Hd). unfold BLOCKSIZE in *. lia.
Qed.
