(* ===== verification/Mksfs.v ===== *)
(** * Making a volume, [userland/sbin/mksfs/mksfs.c]

    The program that writes an empty SFS volume on a disk: superblock, free
    map and root directory.  Its state is the buffer of the free map and the
    disk.  A C string is the list of its characters. *)

From S2P Require Import Prelude Bitmap SfsDisk SbinDisk.

Definition MAXFREEMAPBLOCKS : Z := 32.

Record mksfs_state := Mksfs { freemapbuf : list Z; mk_disk : rawdisk }.

Definition set_mk_disk (d : rawdisk) (s : mksfs_state) : mksfs_state := Mksfs (freemapbuf s) d.
Definition on_disk {A} (m : M rawdisk A) : M mksfs_state A := zoom mk_disk set_mk_disk m.

(** The sizes of the three structures. *)
Definition sizeof_superblock : Z := 4 + 4 + Z.of_nat SFS_VOLNAME_SIZE + 4 * 118.
Definition sizeof_dinode : Z := 4 + 2 + 2 + 4 * SFS_NDIRECT + 4 + 4 * (128 - 3 - SFS_NDIRECT).
Definition sizeof_direntry : Z := 4 + Z.of_nat SFS_NAMELEN.

Definition check {S} : M S unit :=
  KASSERT (sizeof_superblock =? SFS_BLOCKSIZE) ;;
  KASSERT (sizeof_dinode =? SFS_BLOCKSIZE) ;;
  KASSERT (SFS_BLOCKSIZE mod sizeof_direntry =? 0).

Definition allocblock (block : Z) : M mksfs_state unit :=
  let mapbyte := map_index block in
  let mask := map_mask block in
  s <- get ;;
  w <- oob (zlookup (freemapbuf s) mapbyte) ;;
  KASSERT (Z.land w mask =? 0) ;;
  modify (fun s => Mksfs (zinsert mapbyte (u8 (Z.lor w mask)) (freemapbuf s)) (mk_disk s)).

Definition initfreemap (fsblocks : Z) : M mksfs_state unit :=
  let freemapbits := SFS_FREEMAPBITS fsblocks in
  let freemapblocks := SFS_FREEMAPBLOCKS fsblocks in
  if MAXFREEMAPBLOCKS <? freemapblocks then throw 1
  else
    allocblock SFS_SUPER_BLOCK ;;
    allocblock SFS_ROOTDIR_INO ;;
    for_each 0 (Z.to_nat freemapblocks) (fun i => allocblock (SFS_FREEMAP_START + i)) ;;
    for_each fsblocks (Z.to_nat (freemapbits - fsblocks)) allocblock.

(** [strcpy] of a string into a field that was zeroed. *)
Definition zero_padded (size : nat) (name : list Z) : list Z := take size (name ++ replicate size 0).

Definition writesuper (volname : list Z) (nblocks : Z) : M mksfs_state unit :=
  if Z.of_nat SFS_VOLNAME_SIZE <=? Z.of_nat (length volname) then throw 1
  else
    let sb := Superblock SFS_MAGIC nblocks (zero_padded SFS_VOLNAME_SIZE volname) (replicate 118 0) in
    on_disk (diskwrite (bytes_of_sb sb) SFS_SUPER_BLOCK).

Definition writefreemap (fsblocks : Z) : M mksfs_state unit :=
  let freemapblocks := SFS_FREEMAPBLOCKS fsblocks in
  for_each 0 (Z.to_nat freemapblocks) (fun i =>
    s <- get ;;
    let off := Z.to_nat (i * SFS_BLOCKSIZE) in
    in_bounds (i * SFS_BLOCKSIZE + SFS_BLOCKSIZE <=? Z.of_nat (length (freemapbuf s))) ;;
    on_disk (diskwrite (slice off (Z.to_nat SFS_BLOCKSIZE) (freemapbuf s)) (SFS_FREEMAP_START + i))).

Definition root_dinode : sfs_dinode := Dinode 0 SFS_TYPE_DIR 1 (replicate 15 0) 0 (replicate 110 0).

Definition writerootdir : M mksfs_state unit :=
  on_disk (diskwrite (bytes_of_dinode root_dinode) SFS_ROOTDIR_INO).

Definition COLON : Z := 58.
Definition SLASH : Z := 47.

(** [strchr]: what starts at the first [c]. *)
Fixpoint strchr_at (c : Z) (s : list Z) : option nat :=
  match s with
  | [] => None
  | x :: s' => if x =? c then Some O else option_map S (strchr_at c s')
  end.

(** The part of [main] that checks the name: one trailing colon is dropped,
    other colons and slashes are refused. *)
Definition check_volname {S} (volname : list Z) : M S (list Z) :=
  volname <-
    (match strchr_at COLON volname with
     | Some i => if negb (Z.of_nat (length (drop i volname)) =? 1) then throw 1 else ret (take i volname)
     | None => ret volname
     end) ;;
  match strchr_at SLASH volname with
  | Some _ => throw 1
  | None => ret volname
  end.

(** The answers of [open], [fstat] and [close]. *)
Record tool_env := ToolEnv { te_open : bool; te_fstat : bool; te_close : bool }.

(** [main], with [argv] without the name of the program. *)
Definition mksfs_main (te : tool_env) (args : list (list Z)) : M mksfs_state unit :=
  match args with
  | [_; volname] =>
      check ;;
      volname <- check_volname volname ;;
      on_disk (opendisk (te_open te) (te_fstat te)) ;;
      blocksize <- on_disk diskblocksize ;;
      if negb (blocksize =? SFS_BLOCKSIZE) then throw 1
      else
        size <- on_disk diskblocks ;;
        initfreemap size ;;
        writesuper volname size ;;
        writefreemap size ;;
        writerootdir ;;
        on_disk (closedisk (te_close te))
  | _ => throw 1
  end.

(** The program as it starts: the buffer is zero. *)
Definition mksfs_start (d : rawdisk) : mksfs_state :=
  Mksfs (replicate (Z.to_nat (MAXFREEMAPBLOCKS * SFS_BLOCKSIZE)) 0) d.

(** ** The free map *)

(** The bits that are set so far, as a predicate. *)
Definition map_is (set : Z -> bool) (s : mksfs_state) : Prop :=
  Z.of_nat (length (freemapbuf s)) = MAXFREEMAPBLOCKS * SFS_BLOCKSIZE /\ Forall byte_ok (freemapbuf s) /\
  forall i, 0 <= i < 8 * (MAXFREEMAPBLOCKS * SFS_BLOCKSIZE) -> mapbit (freemapbuf s) i = set i.

Lemma map_is_ext set set' s : map_is set s ->
  (forall i, 0 <= i < 8 * (MAXFREEMAPBLOCKS * SFS_BLOCKSIZE) -> set i = set' i) -> map_is set' s.
Proof. intros (H1 & H2 & H3) H. split_and!; [done..|]. intros i Hi. by rewrite H3, H. Qed.

Lemma wp_allocblock set block s (Q : unit -> mksfs_state -> Prop) E :
  map_is set s -> 0 <= block < 8 * (MAXFREEMAPBLOCKS * SFS_BLOCKSIZE) -> set block = false ->
  (forall s', map_is (fun i => (i =? block) || set i) s' -> mk_disk s' = mk_disk s -> Q tt s') ->
  wp (allocblock block) Q E s.
Proof.
  intros (H1 & H2 & H3) Hb Hf HQ. unfold allocblock. wp_steps.
  destruct (map_byte (freemapbuf s) block) as (w & Hw & Hok & _); [lia|done|].
  apply (wp_oob _ w); [done|]. wp_steps.
  apply wp_kassert; [by rewrite (map_test _ _ _ Hw), H3, Hf|]. wp_steps.
  destruct (map_set (freemapbuf s) block w) as (-> & Hok' & Hbits); [lia|done..|].
  apply HQ; [|done]. split_and!; cbn [freemapbuf]; [by rewrite zinsert_length|by apply Forall_zinsert|].
  intros i Hi. by rewrite Hbits, H3 by lia.
Qed.

(** A run of blocks, none of them set before. *)
Lemma wp_alloc_run set lo off n d (Q : unit -> mksfs_state -> Prop) E s :
  map_is set s -> mk_disk s = d -> 0 <= off + lo -> off + lo + Z.of_nat n <= 8 * (MAXFREEMAPBLOCKS * SFS_BLOCKSIZE) ->
  (forall i, off + lo <= i < off + lo + Z.of_nat n -> set i = false) ->
  (forall s', map_is (fun i => ((off + lo <=? i) && (i <? off + lo + Z.of_nat n)) || set i) s' -> mk_disk s' = d -> Q tt s') ->
  wp (for_each lo n (fun i => allocblock (off + i))) Q E s.
Proof.
  intros Hs Hd Hlo Hn Hset HQ. 
  apply (wp_for_each (fun j s' => map_is (fun i => ((off + lo <=? i) && (i <? off + j)) || set i) s' /\ mk_disk s' = d)).
  - split; [|done]. apply (map_is_ext set); [done|]. intros i Hi. bsolve.
  - intros j s' Hj [Hm' Hd']. eapply wp_allocblock; [done|lia| |].
    + cbv beta. rewrite Hset by lia. bsolve.
    + intros s'' Hm'' Hd''. split; [|congruence]. apply (map_is_ext _ _ _ Hm'').
      intros i Hi. cbv beta. rewrite orb_assoc. f_equal. bsolve.
  - intros s' [Hm' Hd']. apply HQ; [|done]. apply (map_is_ext _ _ _ Hm'). intros i Hi. cbv beta.
    by replace (off + (lo + Z.of_nat n)) with (off + lo + Z.of_nat n) by lia.
Qed.

(** The blocks of a new volume of [n] blocks that are not free: superblock,
    root directory, free map, and what lies past the end. *)
Definition initially_used (n i : Z) : bool := (i <? SFS_FREEMAP_START + SFS_FREEMAPBLOCKS n) || (n <=? i).

(** A volume that has room for its own structures, and whose map fits the
    buffer. *)
Definition makeable (n : Z) : Prop :=
  SFS_FREEMAP_START + SFS_FREEMAPBLOCKS n <= n <= MAXFREEMAPBLOCKS * SFS_BITSPERBLOCK.

Lemma freemap_size n : 0 <= n <= MAXFREEMAPBLOCKS * SFS_BITSPERBLOCK ->
  SFS_FREEMAPBLOCKS n = (n + 4095) / 4096 /\ SFS_FREEMAPBITS n = SFS_FREEMAPBLOCKS n * 4096 /\
  n <= SFS_FREEMAPBITS n < n + 4096 /\ 0 <= SFS_FREEMAPBLOCKS n <= MAXFREEMAPBLOCKS.
Proof.
  intros Hn. unfold SFS_FREEMAPBLOCKS, SFS_FREEMAPBITS, SFS_ROUNDUP.
  change SFS_BITSPERBLOCK with 4096 in *. unfold MAXFREEMAPBLOCKS in *.
  rewrite (wrap_small 32 (n + 4096 - 1)) by lia. replace (n + 4096 - 1) with (n + 4095) by lia.
  rewrite wrap_small by (Z.div_mod_to_equations; lia). rewrite Z.div_mul by lia.
  repeat split; Z.div_mod_to_equations; lia.
Qed.

Lemma makeable_size n : makeable n -> 3 <= n <= 131072.
Proof.
  intros [H1 H2]. change (MAXFREEMAPBLOCKS * SFS_BITSPERBLOCK) with 131072 in H2. unfold SFS_FREEMAP_START in H1.
  destruct (decide (0 <= n)).
  - destruct (freemap_size n) as (H3 & _ & _ & H4); [done|]. Z.div_mod_to_equations. lia.
  - assert (0 <= SFS_FREEMAPBITS n) as H3 by (apply wrap_bound; lia).
    pose proof (Z.div_pos _ SFS_BITSPERBLOCK H3 eq_refl). unfold SFS_FREEMAPBLOCKS in H1. lia.
Qed.

Lemma wp_initfreemap n d (Q : unit -> mksfs_state -> Prop) E : makeable n ->
  (forall s', map_is (fun i => (i <? SFS_FREEMAPBITS n) && initially_used n i) s' -> mk_disk s' = d -> Q tt s') ->
  wp (initfreemap n) Q E (mksfs_start d).
Proof.
  intros Hn HQ. pose proof (makeable_size n Hn) as Hr. destruct Hn as [Hn1 Hn2].
  destruct (freemap_size n) as (_ & Hbits & Hn3 & Hfm); [lia|].
  unfold initfreemap, initially_used in *.
  destruct (Z.ltb_spec MAXFREEMAPBLOCKS (SFS_FREEMAPBLOCKS n)) as [Hlt|_]; [lia|].
  set (fm := SFS_FREEMAPBLOCKS n) in *. rewrite Hbits in *. clear Hbits.
  change SFS_FREEMAP_START with 2 in *. unfold MAXFREEMAPBLOCKS in Hfm.
  assert (8 * (MAXFREEMAPBLOCKS * SFS_BLOCKSIZE) = 131072) as Hmax by done.
  wp_step. apply (wp_allocblock (fun _ => false)); [|done|done|].
  { split_and!; [done|by apply Forall_replicate|]. intros i Hi. apply mapbit_zeros. lia. }
  intros s1 H1 D1. wp_step. apply (wp_allocblock _ _ _ _ _ H1); [done|done|].
  intros s2 H2 D2. wp_step. apply (wp_alloc_run _ 0 2 _ d _ _ _ H2); [by rewrite D2, D1|lia|lia| |].
  { intros i Hi. unfold SFS_SUPER_BLOCK, SFS_ROOTDIR_INO. bsolve. }
  intros s3 H3 D3.
  change allocblock with (fun i => allocblock (0 + i)).
  apply (wp_alloc_run _ n 0 _ d _ _ _ H3); [done|lia|lia| |].
  { intros i Hi. unfold SFS_SUPER_BLOCK, SFS_ROOTDIR_INO. bsolve. }
  intros s4 H4 D4. apply HQ; [|done]. apply (map_is_ext _ _ _ H4).
  intros i Hi. unfold SFS_SUPER_BLOCK, SFS_ROOTDIR_INO. bsolve.
Qed.

(** ** The volume written *)

Definition fresh_sb (n : Z) (volname : list Z) : sfs_superblock :=
  Superblock SFS_MAGIC n (zero_padded SFS_VOLNAME_SIZE volname) (replicate 118 0).

(** The sectors of a new volume; only those of its structures matter. *)
Record fresh_image (n : Z) (volname : list Z) (sector : Z -> list Z) : Prop := {
  fresh_super : sector SFS_SUPER_BLOCK = bytes_of_sb (fresh_sb n volname);
  fresh_root : sector SFS_ROOTDIR_INO = bytes_of_dinode root_dinode;
  fresh_map : forall j, 0 <= j < SFS_FREEMAPBLOCKS n ->
    length (sector (SFS_FREEMAP_START + j)) = Z.to_nat SFS_BLOCKSIZE /\
    Forall byte_ok (sector (SFS_FREEMAP_START + j)) /\
    forall i, 0 <= i < SFS_BITSPERBLOCK ->
      mapbit (sector (SFS_FREEMAP_START + j)) i = initially_used n (j * SFS_BITSPERBLOCK + i)
}.

Lemma fresh_sb_shape n volname : 0 <= n < 2 ^ 32 -> (length volname < SFS_VOLNAME_SIZE)%nat ->
  sb_shape (fresh_sb n volname).
Proof.
  intros Hn Hv. split; cbn [sb_magic sb_nblocks sb_volname sb_reserved fresh_sb]; [done|done| |].
  - unfold zero_padded. rewrite length_take, length_app, length_replicate. lia.
  - split; [done|]. by apply Forall_replicate.
Qed.

(** Encoded structures are bytes. *)
Lemma be32_bytes_ok w : Forall byte_ok (be32_bytes w).
Proof. unfold be32_bytes. repeat constructor; by apply wrap_bound. Qed.

Lemma be16_bytes_ok w : Forall byte_ok (be16_bytes w).
Proof. unfold be16_bytes. repeat constructor; by apply wrap_bound. Qed.

Lemma bytes_of_words_ok ws : Forall byte_ok (bytes_of_words ws).
Proof. induction ws as [|w ws IH]; [constructor|]. apply Forall_app. split; [apply be32_bytes_ok|done]. Qed.

Lemma bytes_of_dinode_ok i : Forall byte_ok (bytes_of_dinode i).
Proof.
  unfold bytes_of_dinode. rewrite !Forall_app.
  split_and!; (apply be32_bytes_ok || apply be16_bytes_ok || apply bytes_of_words_ok).
Qed.

Lemma bytes_of_sb_ok sb : Forall byte_ok (sb_volname sb) -> Forall byte_ok (bytes_of_sb sb).
Proof.
  intros H. unfold bytes_of_sb. rewrite !Forall_app.
  split_and!; (apply be32_bytes_ok || apply bytes_of_words_ok || done).
Qed.

Lemma zero_padded_ok n name : Forall byte_ok name -> Forall byte_ok (zero_padded n name).
Proof. intros H. apply Forall_take, Forall_app. split; [done|by apply Forall_replicate]. Qed.

Lemma root_dinode_shape : dinode_shape root_dinode.
Proof. split; cbn -[replicate]; try done; (split; [done|by apply Forall_replicate]). Qed.

(** A write to one block of the disk, with what is known of the others. *)
Lemma wp_write_block s data b n (Q : unit -> mksfs_state -> Prop) E :
  disk_ok (mk_disk s) -> rd_nblocks (mk_disk s) = n -> 0 <= b < n -> length data = Z.to_nat BLOCKSIZE ->
  Forall byte_ok data ->
  (forall d', disk_ok d' -> rd_nblocks d' = n -> length (rd_file d') = length (rd_file (mk_disk s)) ->
     dblock d' b = data -> (forall b', 0 <= b' -> b' <> b -> dblock d' b' = dblock (mk_disk s) b') ->
     Q tt (Mksfs (freemapbuf s) d')) ->
  wp (on_disk (diskwrite data b)) Q E s.
Proof.
  intros Hd Hn Hb Hl Hby HQ. unfold on_disk. wp_steps. apply wp_diskwrite_block; [done|done|lia|].
  intros d' (H1 & H2 & H3 & H4 & H5). rewrite map_u8_id in H4 by done. apply HQ; (done || lia).
Qed.

Lemma wp_writesuper n volname s (Q : unit -> mksfs_state -> Prop) E :
  disk_ok (mk_disk s) -> rd_nblocks (mk_disk s) = n -> 0 < n < 2 ^ 32 -> (length volname < SFS_VOLNAME_SIZE)%nat ->
  Forall byte_ok volname ->
  (forall d', disk_ok d' -> rd_nblocks d' = n -> length (rd_file d') = length (rd_file (mk_disk s)) ->
     dblock d' SFS_SUPER_BLOCK = bytes_of_sb (fresh_sb n volname) -> Q tt (Mksfs (freemapbuf s) d')) ->
  wp (writesuper volname n) Q E s.
Proof.
  intros Hd Hn Hr Hv Hvb HQ. unfold writesuper. destruct (Z.leb_spec (Z.of_nat SFS_VOLNAME_SIZE) (Z.of_nat (length volname))); [lia|].
  apply (wp_write_block _ _ _ n); [done|done|unfold SFS_SUPER_BLOCK; lia| | |].
  - apply (sb_bytes_roundtrip (fresh_sb n volname)), fresh_sb_shape; [lia|done].
  - by apply bytes_of_sb_ok, zero_padded_ok.
  - intros d' H1 H2 H3 H4 _. by apply HQ.
Qed.

Lemma wp_writefreemap n s (Q : unit -> mksfs_state -> Prop) E :
  makeable n -> disk_ok (mk_disk s) -> rd_nblocks (mk_disk s) = n ->
  Z.of_nat (length (freemapbuf s)) = MAXFREEMAPBLOCKS * SFS_BLOCKSIZE -> Forall byte_ok (freemapbuf s) ->
  (forall d', disk_ok d' -> rd_nblocks d' = n -> length (rd_file d') = length (rd_file (mk_disk s)) ->
     (forall j, 0 <= j < SFS_FREEMAPBLOCKS n ->
        dblock d' (SFS_FREEMAP_START + j) = slice (Z.to_nat (j * SFS_BLOCKSIZE)) (Z.to_nat SFS_BLOCKSIZE) (freemapbuf s)) ->
     (forall b, 0 <= b < SFS_FREEMAP_START -> dblock d' b = dblock (mk_disk s) b) ->
     Q tt (Mksfs (freemapbuf s) d')) ->
  wp (writefreemap n) Q E s.
Proof.
  intros Hm Hd Hn Hl Hby HQ. destruct Hm as [Hm1 Hm2]. pose proof (makeable_size n (conj Hm1 Hm2)).
  destruct (freemap_size n) as (_ & _ & _ & Hfm); [lia|].
  unfold writefreemap. change SFS_FREEMAP_START with 2 in *. change SFS_BLOCKSIZE with 512 in *. unfold MAXFREEMAPBLOCKS in *.
  apply (wp_for_each (fun k s' => exists d', s' = Mksfs (freemapbuf s) d' /\
    disk_ok d' /\ rd_nblocks d' = n /\ length (rd_file d') = length (rd_file (mk_disk s)) /\
    (forall j, 0 <= j < k -> dblock d' (2 + j) = slice (Z.to_nat (j * 512)) (Z.to_nat 512) (freemapbuf s)) /\
    (forall b, 0 <= b < 2 -> dblock d' b = dblock (mk_disk s) b))).
  - exists (mk_disk s). split; [by destruct s|]. split_and!; try done. intros j Hj. lia.
  - intros k s' Hk (d' & -> & H1 & H2 & H3 & H4 & H5). wp_steps. cbn [freemapbuf].
    apply wp_in_bounds; [bsolve|].
    apply (wp_write_block _ _ _ n); cbn [mk_disk freemapbuf]; [done|done|lia| |by apply Forall_take, Forall_drop|].
    { unfold BLOCKSIZE. rewrite slice_length; [done|]. lia. }
    intros d2 G1 G2 G3 G4 G5. exists d2. split_and!; [done..|lia| |].
    + intros j Hj. destruct (decide (j = k)) as [->|]; [done|]. rewrite G5 by lia. apply H4. lia.
    + intros b Hb. rewrite G5 by lia. by apply H5.
  - intros s' (d' & -> & H1 & H2 & H3 & H4 & H5). apply HQ; [done..| |done].
    intros j Hj. apply H4. lia.
Qed.

(** ** The program *)

Lemma strchr_at_none c s : c ∉ s -> strchr_at c s = None.
Proof.
  induction s as [|x s IH]; intros H; [done|]. cbn. apply not_elem_of_cons in H as [H1 H2].
  destruct (Z.eqb_spec x c); [congruence|]. by rewrite IH.
Qed.

Lemma strchr_at_last c s : c ∉ s -> strchr_at c (s ++ [c]) = Some (length s).
Proof.
  induction s as [|x s IH]; intros H; cbn; [by rewrite Z.eqb_refl|].
  apply not_elem_of_cons in H as [H1 H2]. destruct (Z.eqb_spec x c); [congruence|]. by rewrite IH.
Qed.

(** A name the program accepts, of bytes: no colon, no slash, room for the
    final zero. *)
Definition legal_volname (name : list Z) : Prop :=
  (COLON ∉ name) /\ (SLASH ∉ name) /\ (length name < SFS_VOLNAME_SIZE)%nat /\ Forall byte_ok name.

Lemma wp_check_volname {S} name arg (Q : list Z -> S -> Prop) E s : legal_volname name ->
  arg = name \/ arg = name ++ [COLON] -> Q name s -> wp (check_volname arg) Q E s.
Proof.
  intros (H1 & H2 & _) Harg HQ. unfold check_volname. wp_step. destruct Harg as [->| ->].
  - rewrite strchr_at_none by done. wp_steps. by rewrite strchr_at_none.
  - rewrite strchr_at_last, drop_app_length, take_app_length by done. change (negb (Z.of_nat (length [COLON]) =? 1)) with false. cbv iota.
    wp_steps. by rewrite strchr_at_none.
Qed.

(** A disk as the program finds it: closed, of [n] whole blocks. *)
Record disk_given (n : Z) (d : rawdisk) : Prop := {
  given_closed : rd_open d = false;
  given_size : Z.of_nat (length (rd_file d)) = n * BLOCKSIZE;
  given_events : Forall benign (rd_events d);
  given_bytes : Forall byte_ok (rd_file d)
}.

Lemma wp_opendisk n d (Q : unit -> rawdisk -> Prop) E : disk_given n d -> 0 <= n <= 2 ^ 23 ->
  (forall d', disk_ok d' -> rd_nblocks d' = n -> rd_file d' = rd_file d -> Q tt d') ->
  wp (opendisk true true) Q E d.
Proof.
  intros [H1 H2 H3 H4] Hn HQ. unfold opendisk. wp_steps. apply wp_kassert; [by rewrite H1|]. cbn [negb]. wp_steps.
  unfold BLOCKSIZE in *. rewrite H2, Z.div_mul, wrap_small by lia. apply HQ; [|done..].
  split; cbn; unfold BLOCKSIZE; (done || lia).
Qed.

Lemma fresh_image_written n name s d :
  makeable n -> map_is (fun i => (i <? SFS_FREEMAPBITS n) && initially_used n i) s ->
  dblock d SFS_SUPER_BLOCK = bytes_of_sb (fresh_sb n name) ->
  dblock d SFS_ROOTDIR_INO = bytes_of_dinode root_dinode ->
  (forall j, 0 <= j < SFS_FREEMAPBLOCKS n ->
     dblock d (SFS_FREEMAP_START + j) = slice (Z.to_nat (j * SFS_BLOCKSIZE)) (Z.to_nat SFS_BLOCKSIZE) (freemapbuf s)) ->
  fresh_image n name (dblock d).
Proof.
  intros Hm (M1 & M2 & M3) H0 H1 H2. pose proof (makeable_size n Hm). destruct Hm as [_ Hm].
  destruct (freemap_size n) as (_ & Hbits & _ & Hfm); [lia|].
  split; [done..|]. intros j Hj. rewrite H2 by done.
  change SFS_BLOCKSIZE with 512 in *. change SFS_BITSPERBLOCK with 4096 in *. unfold MAXFREEMAPBLOCKS in *.
  split_and!.
  - rewrite slice_length; [done|]. lia.
  - by apply Forall_take, Forall_drop.
  - intros i Hi. rewrite mapbit_slice by lia. rewrite M3 by lia.
    replace (8 * Z.of_nat (Z.to_nat (j * 512)) + i) with (j * 4096 + i) by lia.
    destruct (Z.ltb_spec (j * 4096 + i) (SFS_FREEMAPBITS n)); [done|]. nia.
Qed.

(** What [mksfs] leaves on the disk. *)
Definition mksfs_post (n : Z) (name : list Z) (d d' : rawdisk) : Prop :=
  rd_open d' = false /\ length (rd_file d') = length (rd_file d) /\ fresh_image n name (dblock d').

Lemma wp_mksfs_main n name dev arg d :
  makeable n -> legal_volname name -> arg = name \/ arg = name ++ [COLON] -> disk_given n d ->
  wp (mksfs_main (ToolEnv true true true) [dev; arg])
     (fun _ s' => mksfs_post n name d (mk_disk s')) (fun _ _ => False) (mksfs_start d).
Proof.
  intros Hn Hname Harg Hd. pose proof (makeable_size n Hn) as Hr. cbn [mksfs_main te_open te_fstat te_close].
  wp_step. unfold check. wp_step. apply wp_kassert; [done|]. wp_step. apply wp_kassert; [done|].
  apply wp_kassert; [done|]. wp_step. apply (wp_check_volname name); [done..|].
  wp_step. unfold on_disk at 1. wp_step. apply (wp_opendisk n); [done|lia|]. intros d1 D1 N1 F1.
  unfold set_mk_disk. cbn [freemapbuf mksfs_start].
  wp_step. unfold on_disk at 1, diskblocksize. wp_steps. cbn [mk_disk]. apply wp_kassert; [apply D1|]. wp_steps.
  unfold BLOCKSIZE. cbn [Z.eqb Pos.eqb SFS_BLOCKSIZE negb]. unfold set_mk_disk.
  wp_step. unfold on_disk at 1, diskblocks. wp_steps. cbn [mk_disk]. apply wp_kassert; [apply D1|]. wp_steps.
  rewrite N1. change (set_mk_disk d1 _) with (mksfs_start d1).
  apply (wp_initfreemap n d1); [done|]. intros s2 M2 D2.
  wp_step. apply wp_writesuper; rewrite ?D2; [done|done|lia|apply Hname|apply Hname|]. intros d3 D3 N3 L3 S3.
  wp_step. apply wp_writefreemap; cbn [mk_disk freemapbuf]; [done..|apply M2|apply M2|]. intros d4 D4 N4 L4 B4 O4.
  wp_step. apply (wp_write_block _ _ _ n); cbn [mk_disk]; [done|done|unfold SFS_ROOTDIR_INO; lia|apply dinode_roundtrip, root_dinode_shape|apply bytes_of_dinode_ok|].
  intros d5 D5 N5 L5 B5 O5. unfold on_disk, closedisk. wp_steps. cbn [mk_disk]. apply wp_kassert; [apply D5|].
  cbn [negb]. wp_steps. split_and!; cbn [mk_disk set_mk_disk rd_open rd_file]; [done|by rewrite L5, L4, L3, F1|].
  apply (fresh_image_written n name s2); [done|done|..].
  - rewrite <- S3, <- (O4 SFS_SUPER_BLOCK) by done. by apply O5.
  - done.
  - intros j Hj. rewrite <- B4 by done. apply O5; unfold SFS_FREEMAP_START, SFS_ROOTDIR_INO; lia.
Qed.

(** Too large a device is refused before anything is written. *)
Lemma initfreemap_too_large n s : MAXFREEMAPBLOCKS < SFS_FREEMAPBLOCKS n -> initfreemap n s = Err 1 s.
Proof. intros H. unfold initfreemap. destruct (Z.ltb_spec MAXFREEMAPBLOCKS (SFS_FREEMAPBLOCKS n)); [done|lia]. Qed.
