(* ===== verification/MksfsMount.v ===== *)
(** * A new volume and the kernel that mounts it

    [mksfs] and [sfs_fsops.c] meet on the disk: a device that holds a fresh
    image ([fresh_image]) is accepted by [sfs_domount], the mounted volume
    has the invariant [volume_wf] the theorems on SFS start from, with
    exactly the blocks of its own structures in use, and [sfs_getroot] then
    returns an empty directory that has the invariant [dir_ok] of the
    directory operations. *)

From S2P Require Import Prelude Bitmap CopyInOut Uio Vnode Device Synch SfsDisk SfsCore SfsBmap SfsTrunc SfsIo SfsDir.
From S2P Require Import SfsInode SfsVnops SfsFsops SbinDisk Mksfs Lhd.

Section mount.
Context {D : Type} `{!BlockDevice D} (curas : option Z).
Implicit Types s : sfs_fs D.

(** The device holds what [mksfs] wrote. *)
Definition holds_image (n : Z) (name : list Z) (d : D) : Prop :=
  dev_ok d /\ dev_blocks d = n /\ makeable n /\ (length name < SFS_VOLNAME_SIZE)%nat /\
  exists sector, fresh_image n name sector /\ forall b, 0 <= b < n -> dev_sector d b = sector b.

Lemma holds_image_same n name d d' : holds_image n name d -> dev_same d d' -> holds_image n name d'.
Proof.
  intros (H1 & H2 & H3 & H4 & sector & H5 & H6) (G1 & G2 & G3). split_and!; [done|congruence|done..|].
  exists sector. split; [done|]. intros b Hb. rewrite G3 by lia. by apply H6.
Qed.

Lemma terminate_fresh n name : (length name < SFS_VOLNAME_SIZE)%nat ->
  terminate_volname (fresh_sb n name) = fresh_sb n name.
Proof.
  intros H. unfold terminate_volname, fresh_sb. cbn [sb_magic sb_nblocks sb_volname sb_reserved].
  rewrite zinsert_id; [done|]. unfold zero_padded, SFS_VOLNAME_SIZE in *. unfold zlookup. cbn [Z.leb].
  change (0 <=? Z.of_nat 32 - 1) with true. cbv iota.
  rewrite lookup_take_lt by lia. rewrite lookup_app_r by lia. apply lookup_replicate_2. lia.
Qed.

(** The first [k] blocks of the map in memory are those of the disk. *)
Definition map_loaded (n k : Z) (d : D) (fm : bitmap) : Prop :=
  nbits fm = SFS_FREEMAPBITS n /\ Z.of_nat (length (v fm)) = SFS_FREEMAPBLOCKS n * SFS_BLOCKSIZE /\
  forall j, 0 <= j < k ->
    slice (Z.to_nat (j * SFS_BLOCKSIZE)) (Z.to_nat SFS_BLOCKSIZE) (v fm) = dev_sector d (SFS_FREEMAP_START + j).

Lemma slice_splice_apart {A} (l new : list A) o1 n1 o2 : (o2 + length new <= length l)%nat ->
  (o1 + n1 <= o2 \/ o2 + length new <= o1)%nat -> slice o1 n1 (splice o2 new l) = slice o1 n1 l.
Proof.
  intros Hl Ho. apply list_eq. intros i. destruct (decide (i < n1)%nat) as [Hi|Hi].
  - rewrite !lookup_slice by done. apply lookup_splice_out; [done|lia].
  - unfold slice. by rewrite !lookup_take_ge by lia.
Qed.

(** Reading the free map. *)
Lemma wp_freemap_load n name s (Q : unit -> sfs_fs D -> Prop) E :
  holds_image n name (sfs_device s) -> nblocks s = n -> map_loaded n 0 (sfs_device s) (sfs_freemap s) ->
  (forall d fm, dev_same (sfs_device s) d -> map_loaded n (SFS_FREEMAPBLOCKS n) d fm ->
     Q tt (set_freemap fm (set_device d s))) ->
  wp (sfs_freemapio curas UIO_READ) Q E s.
Proof.
  intros Hi Hn Hm HQ. pose proof Hi as (Hok & Hb & Hmk & _). pose proof (makeable_size n Hmk) as Hr.
  destruct (freemap_size n) as (_ & _ & _ & Hfm); [destruct Hmk; lia|]. destruct Hmk as [Hmk _].
  unfold sfs_freemapio. wp_steps. rewrite Hn.
  change SFS_FREEMAP_START with 2 in *. unfold MAXFREEMAPBLOCKS in Hfm.
  apply (wp_for_each (fun k s' => exists d fm, s' = set_freemap fm (set_device d s) /\
    dev_same (sfs_device s) d /\ map_loaded n k d fm)).
  - exists (sfs_device s), (sfs_freemap s). split; [by destruct s|]. split; [|done]. by split_and!.
  - intros k s' Hk (d & fm & -> & Hd & Hm1 & Hm2 & Hm3). pose proof Hd as (Hok' & Hb' & _).
    cbv beta. change (is_read UIO_READ) with true. cbv iota. unfold freemap_read. wp_steps. unfold bitmap_getdata. cbn [sfs_freemap set_freemap].
    change SFS_BLOCKSIZE with 512 in *. change SFS_FREEMAP_START with 2 in *.
    apply wp_in_bounds; [bsolve|]. wp_steps.
    apply wp_readblock; cbn [sfs_device set_freemap set_device]; [done|lia|lia|rewrite slice_length; [done|lia]|].
    intros d2 (G1 & G2 & G3). wp_steps. cbn [sfs_freemap set_freemap set_device].
    assert (length (dev_sector d (2 + k)) = 512%nat) as Hl by (apply (dev_sector_length d); [done|lia]).
    exists d2. eexists. split; [by destruct s|].
    refine (conj (conj G1 (conj _ _)) (conj _ (conj _ _))); [congruence| |done| |].
    + intros b Hb2. rewrite G3 by lia. by apply Hd.
    + cbn [v]. rewrite splice_length; [done|]. rewrite Hl. lia.
    + intros j Hj. cbn [v]. change SFS_FREEMAP_START with 2. change SFS_BLOCKSIZE with 512. rewrite G3 by lia. destruct (decide (j = k)) as [->|Hne].
      * replace (Z.to_nat 512) with (length (dev_sector d (2 + k))) by done. apply slice_splice_eq. rewrite Hl. lia.
      * rewrite slice_splice_apart by (rewrite Hl; lia). apply Hm3. lia.
  - intros s' (d & fm & -> & Hd & Hm'). apply HQ; [done|].
    by replace (0 + Z.of_nat (Z.to_nat (SFS_FREEMAPBLOCKS n))) with (SFS_FREEMAPBLOCKS n) in Hm' by lia.
Qed.

(** The bits of the map once all of it is loaded. *)
Lemma loaded_bits n name d fm : holds_image n name d -> map_loaded n (SFS_FREEMAPBLOCKS n) d fm ->
  forall i, 0 <= i -> bit fm i = initially_used n i.
Proof.
  intros (Hok & Hb & Hmk & Hname & sector & Hs & Hsame) (M1 & M2 & M3) i Hi.
  pose proof (makeable_size n Hmk). destruct (freemap_size n) as (_ & Hbits & Hn & Hfm); [destruct Hmk; lia|].
  destruct Hmk as [Hmk _]. change SFS_FREEMAP_START with 2 in *. change SFS_BLOCKSIZE with 512 in *.
  unfold MAXFREEMAPBLOCKS in *.
  destruct (decide (i < SFS_FREEMAPBITS n)) as [Hlt|Hge].
  - assert (0 <= i / 4096 < SFS_FREEMAPBLOCKS n) as Hj by (rewrite Hbits in Hlt; Z.div_mod_to_equations; lia).
    assert (i = i / 4096 * 4096 + i mod 4096) as Hdm by (Z.div_mod_to_equations; lia).
    assert (0 <= i mod 4096 < 4096) as Hmod by (apply Z.mod_pos_bound; lia).
    destruct (fresh_map n name sector Hs (i / 4096) Hj) as (_ & _ & Hbit).
    change SFS_BITSPERBLOCK with 4096 in Hbit. change SFS_FREEMAP_START with 2 in Hbit.
    specialize (Hbit (i mod 4096) Hmod). rewrite <- Hdm, <- Hsame, <- M3 in Hbit by lia.
    rewrite mapbit_slice in Hbit by lia. rewrite <- Hbit. unfold mapbit, bit. cbn [v].
    by replace (8 * Z.of_nat (Z.to_nat (i / 4096 * 512)) + i mod 4096) with i by lia.
  - unfold bit, initially_used. rewrite zlookup_None by (Z.div_mod_to_equations; lia). bsolve.
Qed.

Lemma loaded_wf n name d fm : holds_image n name d -> map_loaded n (SFS_FREEMAPBLOCKS n) d fm -> bitmap_wf fm.
Proof.
  intros Hi Hm. pose proof (loaded_bits n name d fm Hi Hm) as Hbit.
  destruct Hi as (Hok & Hb & Hmk & Hname & sector & Hs & Hsame), Hm as (M1 & M2 & M3).
  pose proof (makeable_size n Hmk). destruct (freemap_size n) as (_ & Hbits & Hn & Hfm); [destruct Hmk; lia|].
  destruct Hmk as [Hmk _]. change SFS_FREEMAP_START with 2 in *. change SFS_BLOCKSIZE with 512 in *.
  unfold MAXFREEMAPBLOCKS in *. split.
  - lia.
  - rewrite M1, M2, Hbits. Z.div_mod_to_equations. lia.
  - apply Forall_lookup. intros k w Hw. pose proof (lookup_lt_Some _ _ _ Hw).
    set (j := Z.of_nat k / 512). assert (0 <= j < SFS_FREEMAPBLOCKS n) as Hj by (subst j; Z.div_mod_to_equations; lia).
    destruct (fresh_map n name sector Hs j Hj) as (_ & Hby & _). change SFS_FREEMAP_START with 2 in Hby.
    rewrite <- Hsame, <- M3 in Hby by lia. apply (Forall_lookup_1 _ _ (k - Z.to_nat (j * 512)) _ Hby).
    rewrite lookup_slice by (subst j; Z.div_mod_to_equations; lia). rewrite <- Hw. f_equal.
    subst j. Z.div_mod_to_equations. lia.
  - intros i Hlt. rewrite Hbit by lia. unfold initially_used. bsolve.
Qed.

(** The volume after the mount. *)
Definition mounted (n : Z) (name : list Z) (depth : Z) s : Prop :=
  volume_wf s /\ sfs_sb s = fresh_sb n name /\ holds_image n name (sfs_device s) /\
  (forall b, 0 <= b -> bit (sfs_freemap s) b = initially_used n b) /\
  sfs_vnodes s = [] /\ sv_heap s = ∅ /\ sfs_superdirty s = false /\ sfs_freemapdirty s = false /\
  vfs_biglock_depth s = depth.

Lemma mounted_intro n name depth d fm : holds_image n name d -> map_loaded n (SFS_FREEMAPBLOCKS n) d fm ->
  mounted n name depth (SfsFs d (fresh_sb n name) false fm false [] ∅ depth).
Proof.
  intros Hi Hm. pose proof (loaded_bits _ _ _ _ Hi Hm) as Hbit. pose proof (loaded_wf _ _ _ _ Hi Hm) as Hwf.
  pose proof Hi as (Hok & Hb & Hmk & _). pose proof (makeable_size n Hmk).
  destruct (freemap_size n) as (_ & Hbits & Hn & Hfm); [destruct Hmk; lia|].
  split; [split; cbn; [done|done| | |]|by split_and!].
  - split; [rewrite (proj1 Hm); lia|lia].
  - rewrite Hbit by lia. unfold initially_used, SFS_FREEMAP_START. bsolve.
  - intros b Hb'. cbn in Hb'. rewrite Hbit by lia. unfold initially_used. bsolve.
Qed.

Definition all_memory : mount_env := MountEnv true true true true.

Lemma wp_sfs_domount n name s : holds_image n name (sfs_device s) -> 0 <= vfs_biglock_depth s < 2 ^ 32 - 1 ->
  wp (sfs_domount curas all_memory SFS_BLOCKSIZE) (fun _ s' => mounted n name (vfs_biglock_depth s) s')
     (fun _ _ => False) s.
Proof.
  intros Hi Hd. pose proof Hi as (Hok & Hb & Hmk & Hname & sector & Hs & Hsame).
  pose proof (makeable_size n Hmk). destruct (freemap_size n) as (_ & Hbits & Hn & Hfm); [destruct Hmk; lia|].
  unfold sfs_domount. wp_step. apply wp_acquire; [done|]. rewrite Z.eqb_refl. cbn [negb]. wp_steps.
  cbn [sfs_fs_create all_memory me_fs me_vnodes me_map me_mapdata negb sfs_device vfs_biglock_depth set_depth].
  wp_steps. apply wp_readblock; cbn [sfs_device]; [done|unfold SFS_SUPER_BLOCK; lia|done|done|].
  intros d1 Hd1. cbv beta. rewrite (Hsame SFS_SUPER_BLOCK), (fresh_super n name sector Hs) by (unfold SFS_SUPER_BLOCK; lia).
  destruct (sb_bytes_roundtrip (fresh_sb n name)) as [-> _]; [apply fresh_sb_shape; [lia|done]|].
  wp_steps. change (negb (sb_magic (fresh_sb n name) =? SFS_MAGIC)) with false. cbv iota. wp_steps.
  change (sb_nblocks (fresh_sb n name)) with n.
  eapply wp_use; [apply wp_bitmap_create; rewrite Hbits; unfold MAXFREEMAPBLOCKS in *; lia|].
  intros r [] (fm & -> & Hf1 & Hf2 & _). wp_steps.
  rewrite terminate_fresh by done.
  pose proof (holds_image_same _ _ _ _ Hi Hd1) as Hi1.
  apply (wp_freemap_load n name); cbn [sfs_device set_freemap set_sb set_device nblocks sfs_sb sb_nblocks fresh_sb sfs_freemap]; [done|done| |].
  { split_and!; [done| |intros j Hj; lia]. rewrite (wf_length fm Hf2), Hf1, Hbits.
    change SFS_BLOCKSIZE with 512. Z.div_mod_to_equations. lia. }
  intros d2 fm2 Hd2 Hm2. wp_steps. apply wp_release; cbn; [lia|].
  replace (vfs_biglock_depth s + 1 - 1) with (vfs_biglock_depth s) by lia.
  apply mounted_intro; [by apply (holds_image_same _ _ d1)|done].
Qed.

(** The root directory of a fresh volume: an empty directory in use. *)
Definition fresh_root_vnode : sfs_vnode := SfsVnode 1 sfs_dirops root_dinode SFS_ROOTDIR_INO false.

Definition root_loaded (n : Z) (name : list Z) (depth sv : Z) s : Prop :=
  dir_ok sv fresh_root_vnode s /\ entries s root_dinode = [] /\ nblocks s = n /\ sfs_sb s = fresh_sb n name /\
  (forall b, 0 <= b -> bit (sfs_freemap s) b = initially_used n b) /\
  sfs_vnodes s = [sv] /\ vfs_biglock_depth s = depth.

Lemma owned_root s : owned s root_dinode = [].
Proof.
  unfold owned, fblocks, idwords. cbn [sfi_indirect sfi_direct root_dinode Z.eqb].
  replace (0 :: replicate 15 0 ++ replicate (Z.to_nat SFS_DBPERIDB) 0) with (replicate 144 0) by done. done.
Qed.

Lemma wp_sfs_getroot n name depth sv s : mounted n name depth s -> 0 <= depth < 2 ^ 32 - 1 ->
  wp (sfs_getroot curas (AllocEnv (Some sv) true)) (fun r s' => r = sv /\ root_loaded n name depth sv s')
     (fun _ _ => False) s.
Proof.
  intros (Hwf & Hsb & Hi & Hbit & Hv & Hh & _ & _ & Hd) Hdep.
  pose proof Hi as (Hok & Hb & Hmk & Hname & sector & Hs & Hsame). pose proof (makeable_size n Hmk).
  assert (nblocks s = n) as Hn by (unfold nblocks; by rewrite Hsb).
  assert (bit (sfs_freemap s) SFS_ROOTDIR_INO = true) as Hroot.
  { rewrite Hbit by done. unfold initially_used, SFS_FREEMAP_START, SFS_ROOTDIR_INO.
    destruct (freemap_size n) as (_ & _ & _ & Hfm); [destruct Hmk; lia|]. bsolve. }
  assert (volume_wf (set_depth (depth + 1) s)) as Hwf1 by (destruct Hwf; by split).
  unfold sfs_getroot. wp_step. apply wp_acquire; rewrite Hd; [done|]. wp_steps. unfold sfs_loadvnode. wp_steps.
  cbn [sfs_vnodes set_depth ae_sv ae_grow]. rewrite Hv. cbn [loadvnode_search]. wp_steps.
  apply wp_sfs_bused; [done|unfold SFS_ROOTDIR_INO, nblocks in *; cbn; lia|].
  intros r Hr. change (bit (sfs_freemap (set_depth (depth + 1) s))) with (bit (sfs_freemap s)) in Hr.
  rewrite Hroot in Hr. cbn [negb] in Hr. rewrite Hr. wp_steps.
  apply wp_readblock; cbn [sfs_device set_depth]; [done|unfold SFS_ROOTDIR_INO; lia|done|done|].
  intros d1 Hd1. cbv beta. rewrite (Hsame SFS_ROOTDIR_INO), (fresh_root n name sector Hs) by (unfold SFS_ROOTDIR_INO; lia).
  destruct (dinode_roundtrip root_dinode root_dinode_shape) as [-> _].
  change (negb (SFS_TYPE_INVAL =? SFS_TYPE_INVAL)) with false. cbv iota. wp_steps.
  apply (wp_oob _ sfs_dirops); [done|]. unfold put_sv. wp_steps. unfold get_sv. wp_steps.
  apply (wp_oob _ fresh_root_vnode); [apply lookup_insert_eq|].
  change (negb (sfi_type (sv_i fresh_root_vnode) =? SFS_TYPE_DIR)) with false. cbv iota. wp_step.
  apply wp_release; [cbn; lia|]. wp_steps. split; [done|].
  cbn [set_depth vfs_biglock_depth set_vnodes set_heap set_device]. replace (depth + 1 - 1) with depth by lia.
  set (s' := set_depth _ _).
  assert (volume_wf s') as Hwf'.
  { destruct Hwf as [W1 W2 W3 W4 W5]. destruct Hd1 as (G1 & G2 & _). split; cbn; try done.
    rewrite G2. done. }
  split_and!; try done.
  - split; [|done|done]. split_and!; [apply lookup_insert_eq|done|]. change (sv_i fresh_root_vnode) with root_dinode.
    split; [done|rewrite owned_root; constructor..|done].
  - cbn. by rewrite Hv.
Qed.
End mount.

(** C5: A volume made by [mksfs] is one the kernel can use.  On a disk of a
    size it supports, whatever the disk held and however its transfers are
    cut up or interrupted, and with a legal name (a trailing colon is
    dropped), [mksfs] completes; a device with the sectors it wrote is
    mounted by [sfs_domount]; exactly the superblock, the root inode, the
    free map and what lies past the end are in use; the volume has the
    invariant of SFS; and [sfs_getroot] returns an empty directory that has
    the invariant of the directory operations. *)
Theorem mksfs_volume_mounts {D} `{!BlockDevice D} curas n name dev arg disk sv :
  makeable n -> legal_volname name -> arg = name \/ arg = name ++ [COLON] -> disk_given n disk ->
  exists s', mksfs_main (ToolEnv true true true) [dev; arg] (mksfs_start disk) = Ret tt s' /\
    length (rd_file (mk_disk s')) = length (rd_file disk) /\
    forall (fs : sfs_fs D),
      dev_ok (sfs_device fs) -> dev_blocks (sfs_device fs) = n ->
      (forall b, 0 <= b < n -> dev_sector (sfs_device fs) b = dblock (mk_disk s') b) ->
      0 <= vfs_biglock_depth fs < 2 ^ 32 - 1 ->
      wp (sfs_domount curas all_memory SFS_BLOCKSIZE ;; sfs_getroot curas (AllocEnv (Some sv) true))
         (fun r fs' => r = sv /\ root_loaded n name (vfs_biglock_depth fs) sv fs') (fun _ _ => False) fs.
Proof.
  intros Hn Hname Harg Hd.
  destruct (wp_ret_inv _ _ _ (wp_mksfs_main n name dev arg disk Hn Hname Harg Hd)) as ([] & s' & Hrun & _ & Hlen & Him).
  exists s'. do 2 (split; [done|]). intros fs Hok Hb Hsec Hdep. wp_step.
  eapply wp_use; [apply (wp_sfs_domount curas n name)|]; [|done|].
  - split_and!; [done..|apply Hname|]. by exists (dblock (mk_disk s')).
  - intros [] fs' Hm. eapply wp_use; [by apply (wp_sfs_getroot curas n name)|]. done.
Qed.

(** The disk driver over a disk in memory with the contents of a file. *)
Definition image_lhd (n : Z) (d : rawdisk) : lhd_softc ramdisk :=
  Lhd (replicate 512 0) 0 1 0 0 (RamDisk n (list_to_map (map (fun b => (b, dblock d b)) (seqZ 0 n))) []).

Lemma image_sector n d b : 0 <= b < n -> length (dblock d b) = 512%nat -> dev_sector (image_lhd n d) b = dblock d b.
Proof.
  intros Hb Hl. cbn. unfold rd_sector. cbn [rd_data].
  rewrite (elem_of_list_to_map_1 _ b (dblock d b)).
  - cbn. change (Z.to_nat LHD_SECTSIZE) with 512%nat. rewrite <- Hl. apply resize_all.
  - rewrite <- list_fmap_compose. change (fst ∘ _) with (fun b : Z => b). rewrite list_fmap_id. apply NoDup_seqZ.
  - apply list_elem_of_fmap. exists b. split; [done|]. by apply elem_of_seqZ.
Qed.

Definition image_fs (n : Z) (d : rawdisk) : sfs_fs (lhd_softc ramdisk) :=
  SfsFs (image_lhd n d) (Superblock 0 0 [] []) false (Bitmap 0 []) false [] ∅ 0.

Lemma image_ok n d : dev_ok (sfs_device (image_fs n d)).
Proof. split; [done|constructor]. Qed.

Lemma image_blocks n d : 0 <= n < 2 ^ 32 -> dev_blocks (sfs_device (image_fs n d)) = n.
Proof. intros H. by apply wrap_small. Qed.

Definition demo_disk : rawdisk :=
  RawDisk false 0 0 (replicate (16 * 512) 7) [IO_Short 100; IO_Interrupted; IO_Short 1000].

Lemma demo_disk_given : disk_given 16 demo_disk.
Proof. split; [done|done| |by apply Forall_replicate]. unfold demo_disk, benign. cbn. repeat constructor; lia. Qed.

Lemma mksfs_volume_mounts_witness : exists s',
  mksfs_main (ToolEnv true true true) [[]; [86; 111; 108; COLON]] (mksfs_start demo_disk) = Ret tt s' /\
  wp (sfs_domount None all_memory SFS_BLOCKSIZE ;; sfs_getroot None (AllocEnv (Some 100) true))
     (fun r fs' => r = 100 /\ root_loaded 16 [86; 111; 108] 0 100 fs') (fun _ _ => False)
     (image_fs 16 (mk_disk s')).
Proof.
  destruct (mksfs_volume_mounts (D := lhd_softc ramdisk) None 16 [86; 111; 108] [] [86; 111; 108; COLON] demo_disk 100)
    as (s' & Hrun & Hlen & Hmount).
  - unfold makeable. change (SFS_FREEMAPBLOCKS 16) with 1. change (MAXFREEMAPBLOCKS * SFS_BITSPERBLOCK) with 131072.
    unfold SFS_FREEMAP_START. lia.
  - unfold legal_volname, COLON, SLASH, SFS_VOLNAME_SIZE. cbn. split_and!; [set_solver|set_solver|lia|]. repeat constructor; lia.
  - right. reflexivity.
  - apply demo_disk_given.
  - exists s'. split; [exact Hrun|].
    specialize (Hmount (image_fs 16 (mk_disk s')) (image_ok _ _) (image_blocks 16 _ ltac:(lia))).
    apply Hmount; [|cbn [vfs_biglock_depth image_fs]; lia].
    intros b Hb. apply image_sector; [exact Hb|]. unfold dblock, BLOCKSIZE. rewrite slice_length; [reflexivity|].
    rewrite Hlen. unfold demo_disk. cbn [rd_file]. rewrite length_replicate. lia.
Defined.
