(* ===== verification/Sfsck.v ===== *)
(** * Checking a volume, [userland/sbin/sfsck]

    The volume checker: first what its passes are made of, [utils.c], [sb.c],
    [freemap.c], [inode.c], [sfs.c] and [setbadness] of [main.c].  The state
    is the static variables of these files, the disk and the answers of
    [malloc] ([mallocs]: one per call; no answer left means success).  Messages
    are not modelled.  Then the two passes and [main].  [errx] is [throw] with the exit code. *)

From stdpp Require Import sorting.
From S2P Require Import Prelude Bitmap Vnode SfsDisk Printf CString CStringSpec Qsort SbinDisk Mksfs.

Definition EXIT_USAGE : Z := 4.
Definition EXIT_FATAL : Z := 3.
Definition EXIT_UNRECOV : Z := 2.
Definition EXIT_RECOV : Z := 1.
Definition EXIT_CLEAN : Z := 0.

Inductive blockusage_t :=
  B_SUPERBLOCK | B_FREEMAPBLOCK | B_INODE | B_IBLOCK | B_DIRDATA | B_DATA | B_PASTEND.

#[export] Instance blockusage_eq : EqDecision blockusage_t.
Proof. solve_decision. Defined.

Record inodeinfo := InodeInfo { in_ino : Z; in_linkcount : Z; in_visited : bool; in_type : Z }.

Record sfsck := Sfsck {
  ck_disk : rawdisk;
  mallocs : list bool;
  badness : Z;
  ck_sb : sfs_superblock;
  blocksinuse : Z;
  freemapdata : list Z;
  tofreedata : list Z;
  inodes : list inodeinfo;
  maxinodes : Z;
  inodes_sorted : bool;
  uniquecounter : Z;
  count_dirs : Z;
  count_files : Z
}.

Definition set_ck_disk (d : rawdisk) (s : sfsck) : sfsck :=
  Sfsck d (mallocs s) (badness s) (ck_sb s) (blocksinuse s) (freemapdata s) (tofreedata s) (inodes s) (maxinodes s)
    (inodes_sorted s) (uniquecounter s) (count_dirs s) (count_files s).
Definition set_mallocs (l : list bool) (s : sfsck) : sfsck :=
  Sfsck (ck_disk s) l (badness s) (ck_sb s) (blocksinuse s) (freemapdata s) (tofreedata s) (inodes s) (maxinodes s)
    (inodes_sorted s) (uniquecounter s) (count_dirs s) (count_files s).
Definition set_badness (b : Z) (s : sfsck) : sfsck :=
  Sfsck (ck_disk s) (mallocs s) b (ck_sb s) (blocksinuse s) (freemapdata s) (tofreedata s) (inodes s) (maxinodes s)
    (inodes_sorted s) (uniquecounter s) (count_dirs s) (count_files s).
Definition set_ck_sb (sb : sfs_superblock) (s : sfsck) : sfsck :=
  Sfsck (ck_disk s) (mallocs s) (badness s) sb (blocksinuse s) (freemapdata s) (tofreedata s) (inodes s) (maxinodes s)
    (inodes_sorted s) (uniquecounter s) (count_dirs s) (count_files s).
Definition set_maps (n : Z) (inuse tofree : list Z) (s : sfsck) : sfsck :=
  Sfsck (ck_disk s) (mallocs s) (badness s) (ck_sb s) n inuse tofree (inodes s) (maxinodes s)
    (inodes_sorted s) (uniquecounter s) (count_dirs s) (count_files s).
Definition set_inodes (l : list inodeinfo) (max : Z) (sorted : bool) (s : sfsck) : sfsck :=
  Sfsck (ck_disk s) (mallocs s) (badness s) (ck_sb s) (blocksinuse s) (freemapdata s) (tofreedata s) l max
    sorted (uniquecounter s) (count_dirs s) (count_files s).
Definition set_counter (n : Z) (s : sfsck) : sfsck :=
  Sfsck (ck_disk s) (mallocs s) (badness s) (ck_sb s) (blocksinuse s) (freemapdata s) (tofreedata s) (inodes s) (maxinodes s)
    (inodes_sorted s) n (count_dirs s) (count_files s).
Definition set_counts (dirs files : Z) (s : sfsck) : sfsck :=
  Sfsck (ck_disk s) (mallocs s) (badness s) (ck_sb s) (blocksinuse s) (freemapdata s) (tofreedata s) (inodes s) (maxinodes s)
    (inodes_sorted s) (uniquecounter s) dirs files.

Definition on_ckdisk {A} (m : M rawdisk A) : M sfsck A := zoom ck_disk set_ck_disk m.

(** [main.c] *)
Definition setbadness (code : Z) : M sfsck unit :=
  modify (fun s => if badness s <? code then set_badness code s else s).

(** ** [utils.c] *)

Definition domalloc : M sfsck unit :=
  s <- get ;;
  match mallocs s with
  | [] => ret tt
  | ok :: l => put (set_mallocs l s) ;; if ok then ret tt else throw EXIT_FATAL
  end.

Definition uniqueid : M sfsck Z :=
  s <- get ;; put (set_counter (u32 (uniquecounter s + 1)) s) ;; ret (uniquecounter s).

(** The string functions return the field and whether they changed it. *)
Definition checknullstring (buf : list Z) : list Z * bool :=
  if bool_decide (0 ∈ buf) then (buf, false) else (zinsert (Z.of_nat (length buf) - 1) 0 buf, true).

Definition UNDERSCORE : Z := 95.
Definition is_bad_char (c : Z) : bool := (c =? COLON) || (c =? SLASH).

(** The loop up to the final zero; a field without one is left ([None]). *)
Fixpoint checkbadstring (buf : list Z) : option (list Z * bool) :=
  match buf with
  | [] => None
  | c :: rest =>
      if c =? 0 then Some (buf, false)
      else
        match checkbadstring rest with
        | None => None
        | Some (rest', rv) => Some ((if is_bad_char c then UNDERSCORE else c) :: rest', is_bad_char c || rv)
        end
  end.

Definition checkzeroed (words : list Z) : list Z * bool :=
  (map (fun _ => 0) words, negb (forallb (fun w => w =? 0) words)).

(** ** [sfs.c]: reading and writing the structures *)

Definition sfs_setup : M sfsck unit := check.

Definition sfs_readsb (blocknum : Z) : M sfsck sfs_superblock :=
  bytes <- on_ckdisk (diskread blocknum) ;; ret (sb_of_bytes bytes).
Definition sfs_writesb (blocknum : Z) (sb : sfs_superblock) : M sfsck unit :=
  on_ckdisk (diskwrite (bytes_of_sb sb) blocknum).
Definition sfs_readfreemapblock (whichblock : Z) : M sfsck (list Z) :=
  on_ckdisk (diskread (SFS_FREEMAP_START + whichblock)).
Definition sfs_writefreemapblock (whichblock : Z) (bits : list Z) : M sfsck unit :=
  on_ckdisk (diskwrite bits (SFS_FREEMAP_START + whichblock)).
Definition sfs_readinode (ino : Z) : M sfsck sfs_dinode :=
  bytes <- on_ckdisk (diskread ino) ;; ret (dinode_of_bytes bytes).
Definition sfs_writeinode (ino : Z) (sfi : sfs_dinode) : M sfsck unit :=
  on_ckdisk (diskwrite (bytes_of_dinode sfi) ino).
Definition sfs_readindirect (blocknum : Z) : M sfsck (list Z) :=
  bytes <- on_ckdisk (diskread blocknum) ;; ret (words_of_bytes (Z.to_nat SFS_DBPERIDB) bytes).
Definition sfs_writeindirect (blocknum : Z) (entries : list Z) : M sfsck unit :=
  on_ckdisk (diskwrite (bytes_of_words entries) blocknum).

(** ** [ibmacros.h] and [bmap] *)

Definition NUM_D : Z := SFS_NDIRECT.
Definition NUM_I : Z := SFS_NINDIRECT.
Definition NUM_II : Z := 0.
Definition NUM_III : Z := 0.
Definition RANGE_D : Z := 1.
Definition RANGE_I : Z := RANGE_D * SFS_DBPERIDB.
Definition RANGE_II : Z := RANGE_I * SFS_DBPERIDB.
Definition RANGE_III : Z := RANGE_II * SFS_DBPERIDB.
Definition INOMAX_D : Z := NUM_D.
Definition INOMAX_I : Z := INOMAX_D + SFS_DBPERIDB * NUM_I.
Definition INOMAX_II : Z := INOMAX_I + SFS_DBPERIDB * NUM_II.
Definition INOMAX_III : Z := INOMAX_II + SFS_DBPERIDB * NUM_III.

(** [GET_II] and [GET_III]: there are no such fields. *)
Definition GET0 : Z := 0.

Fixpoint ibmap (levels : nat) (iblock offset entrysize : Z) : M sfsck Z :=
  if iblock =? 0 then ret 0
  else
    entries <- sfs_readindirect iblock ;;
    if 1 <? entrysize then
      match levels with
      | O => fun _ => OutOfFuel
      | S levels' =>
          next <- oob (zlookup entries (offset / entrysize)) ;;
          ibmap levels' next (offset mod entrysize) (entrysize / SFS_DBPERIDB)
      end
    else KASSERT (offset <? SFS_DBPERIDB) ;; oob (zlookup entries offset).

Definition bmap (sfi : sfs_dinode) (fileblock : Z) : M sfsck Z :=
  if fileblock <? INOMAX_D then oob (zlookup (sfi_direct sfi) fileblock)
  else if fileblock <? INOMAX_I then ibmap 0 (sfi_indirect sfi) ((fileblock - INOMAX_D) mod RANGE_I) RANGE_D
  else if fileblock <? INOMAX_II then ibmap 1 GET0 ((fileblock - INOMAX_I) mod RANGE_II) RANGE_I
  else if fileblock <? INOMAX_III then ibmap 2 GET0 ((fileblock - INOMAX_II) mod RANGE_III) RANGE_II
  else ret 0.

(** ** [sfs.c]: directories *)

(** [SFS_BLOCKSIZE/sizeof(struct sfs_direntry)] *)
Definition atonce : Z := SFS_BLOCKSIZE / sizeof_direntry.

Fixpoint direntries_of_bytes (n : nat) (bytes : list Z) : list sfs_direntry :=
  match n with
  | O => []
  | S n' => direntry_of_bytes (take 64 bytes) :: direntries_of_bytes n' (drop 64 bytes)
  end.
Definition bytes_of_direntries (d : list sfs_direntry) : list Z := concat (map bytes_of_direntry d).

Definition empty_direntry : sfs_direntry := Direntry SFS_NOINO (replicate SFS_NAMELEN 0).

Definition sfs_readdirblock (diskblock : Z) : M sfsck (list sfs_direntry) :=
  if negb (diskblock =? 0) then
    bytes <- on_ckdisk (diskread diskblock) ;; ret (direntries_of_bytes (Z.to_nat atonce) bytes)
  else ret (replicate (Z.to_nat atonce) empty_direntry).

(** The loop from block [i] on: [n] blocks are left, [left] entries. *)
Fixpoint readdir_loop (sfi : sfs_dinode) (n : nat) (i left : Z) : M sfsck (list sfs_direntry) :=
  match n with
  | O => KASSERT (left =? 0) ;; ret []
  | S n' =>
      diskblock <- bmap sfi i ;;
      block <- sfs_readdirblock diskblock ;;
      let thismany := if left <? atonce then left else atonce in
      rest <- readdir_loop sfi n' (i + 1) (left - thismany) ;;
      ret (take (Z.to_nat thismany) block ++ rest)
  end.

Definition dirblocks (nd : Z) : Z := SFS_ROUNDUP nd atonce / atonce.

Definition sfs_readdir (sfi : sfs_dinode) (nd : Z) : M sfsck (list sfs_direntry) :=
  readdir_loop sfi (Z.to_nat (dirblocks nd)) 0 nd.

Definition in_some_use (d : sfs_direntry) : bool :=
  negb (sfd_ino d =? SFS_NOINO) || negb (hd 0 (sfd_name d) =? 0).

Definition sfs_writedirblock (d : list sfs_direntry) (diskblock : Z) : M sfsck unit :=
  if negb (diskblock =? 0) then on_ckdisk (diskwrite (bytes_of_direntries d) diskblock)
  else if existsb in_some_use d then setbadness EXIT_UNRECOV else ret tt.

Fixpoint writedir_loop (sfi : sfs_dinode) (d : list sfs_direntry) (n : nat) (i left : Z) : M sfsck unit :=
  match n with
  | O => KASSERT (left =? 0)
  | S n' =>
      diskblock <- bmap sfi i ;;
      let off := Z.to_nat (i * atonce) in
      (if left <? atonce then
         in_bounds (i * atonce + left <=? Z.of_nat (length d)) ;;
         sfs_writedirblock (slice off (Z.to_nat left) d ++ replicate (Z.to_nat (atonce - left)) empty_direntry) diskblock
       else
         in_bounds (i * atonce + atonce <=? Z.of_nat (length d)) ;;
         sfs_writedirblock (slice off (Z.to_nat atonce) d) diskblock) ;;
      let thismany := if left <? atonce then left else atonce in
      writedir_loop sfi d n' (i + 1) (left - thismany)
  end.

Definition sfs_writedir (sfi : sfs_dinode) (d : list sfs_direntry) (nd : Z) : M sfsck unit :=
  writedir_loop sfi d (Z.to_nat (dirblocks nd)) 0 nd.

(** [strcmp] of two name fields, if both are terminated. *)
Definition name_cmp (a b : list Z) : option Z :=
  if bool_decide (0 ∈ a) && bool_decide (0 ∈ b) then Some (lex (cstr a) (cstr b)) else None.

Definition dirsortfunc (global_sortdirs : list sfs_direntry) (a b : Z) : option Z :=
  match zlookup global_sortdirs a, zlookup global_sortdirs b with
  | Some ad, Some bd =>
      if (sfd_ino ad =? SFS_NOINO) && (sfd_ino bd =? SFS_NOINO) then Some 0
      else if sfd_ino ad =? SFS_NOINO then Some 1
      else if sfd_ino bd =? SFS_NOINO then Some (-1)
      else name_cmp (sfd_name ad) (sfd_name bd)
  | _, _ => None
  end.

(** The permutation vector. *)
Definition sfsdir_sort (d : list sfs_direntry) (nd : Z) : M sfsck (list Z) :=
  init_with (seqZ 0 nd) (qsort (dirsortfunc d) 0 nd).

(** The directory with the entry in its first free slot, if there is one. *)
Fixpoint sfsdir_tryadd (d : list sfs_direntry) (nd : nat) (name : list Z) (ino : Z) : option (list sfs_direntry) :=
  match nd, d with
  | S nd', e :: d' =>
      if sfd_ino e =? SFS_NOINO then Some (Direntry ino (splice 0 (name ++ [0]) (sfd_name e)) :: d')
      else option_map (cons e) (sfsdir_tryadd d' nd' name ino)
  | _, _ => None
  end.

(** ** [sb.c] *)

Definition sb_load : M sfsck unit :=
  sb <- sfs_readsb SFS_SUPER_BLOCK ;;
  modify (set_ck_sb sb) ;;
  if negb (sb_magic sb =? SFS_MAGIC) then throw EXIT_FATAL
  else
    KASSERT (0 <? sb_nblocks sb) ;;
    KASSERT (0 <? SFS_FREEMAPBLOCKS (sb_nblocks sb)).

Definition sb_check : M sfsck unit :=
  s <- get ;;
  let sb := ck_sb s in
  let '(volname, c1) := checknullstring (sb_volname sb) in
  when c1 (setbadness EXIT_RECOV) ;;
  let* (volname, c2) := oob (checkbadstring volname) in
  when c2 (setbadness EXIT_RECOV) ;;
  let '(reserved, c3) := checkzeroed (sb_reserved sb) in
  when c3 (setbadness EXIT_RECOV) ;;
  let sb := Superblock (sb_magic sb) (sb_nblocks sb) volname reserved in
  modify (set_ck_sb sb) ;;
  when (c1 || c2 || c3) (sfs_writesb SFS_SUPER_BLOCK sb).

Definition sb_totalblocks : M sfsck Z := gets (fun s => sb_nblocks (ck_sb s)).
Definition sb_freemapblocks : M sfsck Z := gets (fun s => SFS_FREEMAPBLOCKS (sb_nblocks (ck_sb s))).

(** ** [freemap.c] *)

Definition freemap_blockinuse (block : Z) (how : blockusage_t) : M sfsck unit :=
  let index := map_index block in
  let mask := map_mask block in
  s <- get ;;
  t <- oob (zlookup (tofreedata s) index) ;;
  let tofree := if negb (Z.land t mask =? 0) then zinsert index (u8 (Z.land t (Z.lnot mask))) (tofreedata s) else tofreedata s in
  w <- oob (zlookup (freemapdata s) index) ;;
  when (negb (Z.land w mask =? 0)) (setbadness EXIT_UNRECOV) ;;
  modify (fun s => set_maps (if bool_decide (how = B_PASTEND) then blocksinuse s else u32 (blocksinuse s + 1))
    (zinsert index (u8 (Z.lor w mask)) (freemapdata s)) tofree s).

Definition freemap_blockfree (block : Z) : M sfsck unit :=
  let index := map_index block in
  let mask := map_mask block in
  s <- get ;;
  t <- oob (zlookup (tofreedata s) index) ;;
  if negb (Z.land t mask =? 0) then ret tt
  else
    w <- oob (zlookup (freemapdata s) index) ;;
    if negb (Z.land w mask =? 0) then ret tt
    else modify (fun s => set_maps (blocksinuse s) (freemapdata s) (zinsert index (u8 (Z.lor t mask)) (tofreedata s)) s).

Definition freemap_setup : M sfsck unit :=
  fsblocks <- sb_totalblocks ;;
  mapblocks <- sb_freemapblocks ;;
  let mapbytes := u32 (mapblocks * SFS_BLOCKSIZE) in
  domalloc ;;
  domalloc ;;
  modify (fun s => set_maps (blocksinuse s) (replicate (Z.to_nat mapbytes) 0) (replicate (Z.to_nat mapbytes) 0) s) ;;
  for_each fsblocks (Z.to_nat (u32 (mapblocks * SFS_BITSPERBLOCK) - fsblocks)) (fun i => freemap_blockinuse i B_PASTEND) ;;
  freemap_blockinuse SFS_SUPER_BLOCK B_SUPERBLOCK ;;
  for_each 0 (Z.to_nat mapblocks) (fun i => freemap_blockinuse (SFS_FREEMAP_START + i) B_FREEMAPBLOCK).

(** [for (x=1; x; x<<=1)] over the bits of a byte. *)
Definition countbits (val : Z) : Z :=
  Z.of_nat (length (filter (fun k => Z.testbit val k = true) (seqZ 0 8))).

(** One byte of the map: what should be there, how many blocks were wrongly
    free and wrongly used, and whether it was changed. *)
Definition check_byte (actual expected tofree : Z) : M sfsck (Z * Z * bool) :=
  KASSERT (Z.land expected tofree =? 0) ;;
  if actual =? expected then ret (0, 0, false)
  else if actual =? Z.lor expected tofree then ret (0, 0, true)
  else
    let actual := Z.land actual (Z.lnot tofree) in
    let alloccount := if negb (Z.land actual expected =? expected) then countbits (Z.land expected (Z.lnot actual)) else 0 in
    let freecount := if negb (Z.land actual expected =? actual) then countbits (Z.land actual (Z.lnot expected)) else 0 in
    ret (alloccount, freecount, true).

Fixpoint check_bytes (actual expected tofree : list Z) : M sfsck (Z * Z * bool) :=
  match actual, expected, tofree with
  | a :: actual', e :: expected', t :: tofree' =>
      let* (a1, f1, c1) := check_byte a e t in
      let* (a2, f2, c2) := check_bytes actual' expected' tofree' in
      ret (u32 (a1 + a2), u32 (f1 + f2), c1 || c2)
  | [], [], [] => ret (0, 0, false)
  | _, _, _ => panic
  end.

(** The loop over the blocks of the map; the bytes of a block that were wrong
    all become the expected ones. *)
Fixpoint freemap_check_loop (n : nat) (i alloccount freecount : Z) : M sfsck (Z * Z) :=
  match n with
  | O => ret (alloccount, freecount)
  | S n' =>
      actual <- sfs_readfreemapblock i ;;
      s <- get ;;
      let off := Z.to_nat (i * SFS_BLOCKSIZE) in
      let expected := slice off (Z.to_nat SFS_BLOCKSIZE) (freemapdata s) in
      let tofree := slice off (Z.to_nat SFS_BLOCKSIZE) (tofreedata s) in
      let* (a, f, bchanged) := check_bytes actual expected tofree in
      when bchanged (sfs_writefreemapblock i expected) ;;
      freemap_check_loop n' (i + 1) (u32 (alloccount + a)) (u32 (freecount + f))
  end.

Definition freemap_check : M sfsck unit :=
  bitblocks <- sb_freemapblocks ;;
  let* (alloccount, freecount) := freemap_check_loop (Z.to_nat bitblocks) 0 0 0 in
  when (0 <? alloccount) (setbadness EXIT_RECOV) ;;
  when (0 <? freecount) (setbadness EXIT_RECOV).

(** ** [inode.c] *)

Definition inode_addtable (ino type : Z) : M sfsck unit :=
  s <- get ;;
  let ninodes := Z.of_nat (length (inodes s)) in
  KASSERT (ninodes <=? maxinodes s) ;;
  let newmax := if maxinodes s =? 0 then 4 else u32 (maxinodes s * 2) in
  (if ninodes =? maxinodes s then domalloc else ret tt) ;;
  modify (fun s => set_inodes (inodes s ++ [InodeInfo ino 0 false type])
    (if ninodes =? maxinodes s then newmax else maxinodes s) false s).

(** The caller never compares an entry with itself, so that two entries that
    compare equal fail the assertion. *)
Definition inode_compare (a b : inodeinfo) : option Z :=
  if in_ino a <? in_ino b then Some (-1)
  else if in_ino b <? in_ino a then Some 1
  else None.

Definition inode_sorttable : M sfsck unit :=
  s <- get ;;
  sorted <- init_with (inodes s) (qsort inode_compare 0 (Z.of_nat (length (inodes s)))) ;;
  modify (fun s => set_inodes sorted (maxinodes s) true s).

(** The binary search: the index of the entry. *)
Fixpoint inode_find_loop (fuel : nat) (table : list inodeinfo) (ino min max : Z) : M sfsck Z :=
  match fuel with
  | O => fun _ => OutOfFuel
  | S fuel' =>
      KASSERT (min <=? max) ;;
      if min =? max then throw EXIT_UNRECOV
      else
        let i := min + (max - min) / 2 in
        e <- oob (zlookup table i) ;;
        if in_ino e <? ino then inode_find_loop fuel' table ino (i + 1) max
        else if ino <? in_ino e then inode_find_loop fuel' table ino min i
        else KASSERT (in_ino e =? ino) ;; ret i
  end.

Definition inode_find (ino : Z) : M sfsck Z :=
  s <- get ;;
  KASSERT (inodes_sorted s) ;;
  KASSERT (0 <? Z.of_nat (length (inodes s))) ;;
  inode_find_loop (S (length (inodes s))) (inodes s) ino 0 (Z.of_nat (length (inodes s))).

(** The linear search; true when the inode is there already. *)
Fixpoint inode_search (l : list inodeinfo) (ino type : Z) : M sfsck bool :=
  match l with
  | [] => ret false
  | e :: l' =>
      if in_ino e =? ino then
        KASSERT (in_linkcount e =? 0) ;; KASSERT (in_type e =? type) ;; ret true
      else inode_search l' ino type
  end.

Definition inode_add (ino type : Z) : M sfsck bool :=
  s <- get ;;
  found <- inode_search (inodes s) ino type ;;
  if found then ret true else inode_addtable ino type ;; ret false.

Definition update_inodeinfo (i : Z) (e : inodeinfo) : M sfsck unit :=
  modify (fun s => set_inodes (zinsert i e (inodes s)) (maxinodes s) (inodes_sorted s) s).

Definition inode_visitdir (ino : Z) : M sfsck bool :=
  i <- inode_find ino ;;
  s <- get ;;
  inf <- oob (zlookup (inodes s) i) ;;
  KASSERT (in_type inf =? SFS_TYPE_DIR) ;;
  KASSERT (in_linkcount inf =? 0) ;;
  if in_visited inf then ret true
  else update_inodeinfo i (InodeInfo (in_ino inf) (in_linkcount inf) true (in_type inf)) ;; ret false.

Definition inode_addlink (ino : Z) : M sfsck unit :=
  i <- inode_find ino ;;
  s <- get ;;
  inf <- oob (zlookup (inodes s) i) ;;
  KASSERT (in_type inf =? SFS_TYPE_FILE) ;;
  KASSERT (negb (in_visited inf)) ;;
  update_inodeinfo i (InodeInfo (in_ino inf) (u32 (in_linkcount inf + 1)) (in_visited inf) (in_type inf)).

Definition set_linkcount (n : Z) (i : sfs_dinode) : sfs_dinode :=
  Dinode (sfi_size i) (sfi_type i) n (sfi_direct i) (sfi_indirect i) (sfi_waste i).

Fixpoint adjust_filelinks_loop (l : list inodeinfo) : M sfsck unit :=
  match l with
  | [] => ret tt
  | inf :: l' =>
      (if in_type inf =? SFS_TYPE_DIR then ret tt
       else
         KASSERT (in_type inf =? SFS_TYPE_FILE) ;;
         KASSERT (0 <? in_linkcount inf) ;;
         sfi <- sfs_readinode (in_ino inf) ;;
         KASSERT (sfi_type sfi =? SFS_TYPE_FILE) ;;
         when (negb (sfi_linkcount sfi =? in_linkcount inf))
           (setbadness EXIT_RECOV ;; sfs_writeinode (in_ino inf) (set_linkcount (u16 (in_linkcount inf)) sfi))) ;;
      adjust_filelinks_loop l'
  end.

Definition inode_adjust_filelinks : M sfsck unit := s <- get ;; adjust_filelinks_loop (inodes s).

(** ** Checking a volume: the passes, [userland/sbin/sfsck]

    [pass1.c] (blocks and sizes), [pass2.c] (the directory tree) and [main.c].
    Both passes walk the tree of directories recursively; the walk takes a
    bound on its depth, and running out of it is an outcome of its own
    ([OutOfFuel]).  Paths are only printed and are left out. *)

(** ** [pass1.c]: the blocks of an inode *)

Record ibstate := IbState {
  ibs_ino : Z;
  ibs_curfileblock : Z;
  ibs_fileblocks : Z;
  ibs_volblocks : Z;
  ibs_pasteofcount : Z;
  ibs_usagetype : blockusage_t
}.

Definition ibs_advance (n : Z) (ibs : ibstate) : ibstate :=
  IbState (ibs_ino ibs) (u32 (ibs_curfileblock ibs + n)) (ibs_fileblocks ibs) (ibs_volblocks ibs)
    (ibs_pasteofcount ibs) (ibs_usagetype ibs).
Definition ibs_pasteof (ibs : ibstate) : ibstate :=
  IbState (ibs_ino ibs) (ibs_curfileblock ibs) (ibs_fileblocks ibs) (ibs_volblocks ibs)
    (u32 (ibs_pasteofcount ibs + 1)) (ibs_usagetype ibs).

(** The bodies of the two loops over pointers to data blocks, of the inode
    and of an indirect block.  A check of an entry returns the state, what
    the entry is to be and whether it changed. *)
Definition check_direct (ibs : ibstate) (datablock : Z) : M sfsck (ibstate * Z * bool) :=
  if ibs_volblocks ibs <=? datablock then
    setbadness EXIT_RECOV ;; ret (ibs_advance 1 ibs, 0, true)
  else if negb (datablock =? 0) then
    if ibs_curfileblock ibs <? ibs_fileblocks ibs then
      freemap_blockinuse datablock (ibs_usagetype ibs) ;; ret (ibs_advance 1 ibs, datablock, false)
    else
      setbadness EXIT_RECOV ;; freemap_blockfree datablock ;; ret (ibs_advance 1 (ibs_pasteof ibs), 0, true)
  else ret (ibs_advance 1 ibs, 0, false).

Fixpoint check_entries (check : ibstate -> Z -> M sfsck (ibstate * Z * bool)) (ibs : ibstate) (entries : list Z) :
    M sfsck (ibstate * list Z * bool) :=
  match entries with
  | [] => ret (ibs, [], false)
  | e :: l =>
      let* (ibs1, e1, c1) := check ibs e in
      let* (ibs2, l2, c2) := check_entries check ibs1 l in
      ret (ibs2, e1 :: l2, c1 || c2)
  end.

(** A missing or wild indirect block: how many blocks it would cover. *)
Definition covered (indirection : nat) : Z := u32 (SFS_DBPERIDB ^ Z.of_nat indirection).

Fixpoint check_indirect_block (indirection : nat) (ibs : ibstate) (ientry : Z) : M sfsck (ibstate * Z * bool) :=
  if (0 <? ientry) && (ientry <? ibs_volblocks ibs) then
    entries <- sfs_readindirect ientry ;;
    freemap_blockinuse ientry B_IBLOCK ;;
    let* (ibs, entries, localchanged) :=
      match indirection with
      | O => panic
      | 1%nat => check_entries check_direct ibs entries
      | S below => check_entries (check_indirect_block below) ibs entries
      end in
    if forallb (fun e => e =? 0) entries then
      setbadness EXIT_RECOV ;; freemap_blockfree ientry ;; ret (ibs, 0, true)
    else
      when localchanged (sfs_writeindirect ientry entries) ;; ret (ibs, ientry, false)
  else if ibs_volblocks ibs <=? ientry then
    setbadness EXIT_RECOV ;; ret (ibs_advance (covered indirection) ibs, 0, true)
  else ret (ibs_advance (covered indirection) ibs, ientry, false).

(** The inode with its pointers checked, and whether it changed. *)
Definition check_inode_blocks (ino : Z) (sfi : sfs_dinode) (isdir : bool) : M sfsck (sfs_dinode * bool) :=
  volblocks <- sb_totalblocks ;;
  let size := SFS_ROUNDUP (sfi_size sfi) SFS_BLOCKSIZE in
  let ibs := IbState ino 0 (size / SFS_BLOCKSIZE) volblocks 0 (if isdir then B_DIRDATA else B_DATA) in
  let* (ibs, direct, c1) := check_entries check_direct ibs (sfi_direct sfi) in
  let* (ibs, indirect, c2) := check_indirect_block 1 ibs (sfi_indirect sfi) in
  when (0 <? ibs_pasteofcount ibs) (setbadness EXIT_RECOV) ;;
  ret (Dinode (sfi_size sfi) (sfi_type sfi) (sfi_linkcount sfi) direct indirect (sfi_waste sfi), c1 || c2).

(** Whether the inode had been seen, and the inode as checked. *)
Definition pass1_inode (ino : Z) (sfi : sfs_dinode) (alreadychanged : bool) : M sfsck (bool * sfs_dinode) :=
  let isdir := sfi_type sfi =? SFS_TYPE_DIR in
  seen <- inode_add ino (sfi_type sfi) ;;
  if seen then KASSERT (negb alreadychanged) ;; ret (true, sfi)
  else
    freemap_blockinuse ino B_INODE ;;
    let '(waste, c1) := checkzeroed (sfi_waste sfi) in
    when c1 (setbadness EXIT_RECOV) ;;
    let sfi := Dinode (sfi_size sfi) (sfi_type sfi) (sfi_linkcount sfi) (sfi_direct sfi) (sfi_indirect sfi) waste in
    let* (sfi, c2) := check_inode_blocks ino sfi isdir in
    when (alreadychanged || c1 || c2) (sfs_writeinode ino sfi) ;;
    ret (false, sfi).

(** ** [pass1.c]: directories *)

(** [sfd_name[0] = 0] *)
Definition clear_name (name : list Z) : list Z := zinsert 0 0 name.

(** "FSCK.%lu.%lu" *)
Definition fsck_format : list Z := [70; 83; 67; 75; 46; 37; 108; 117; 46; 37; 108; 117].

Definition fsck_name (name : list Z) (ino : Z) : M sfsck (list Z) :=
  id <- uniqueid ;;
  let* (name, _) := stateless (vsnprintf name (Z.of_nat SFS_NAMELEN) fsck_format [VWord ino; VWord id]) in
  ret name.

Definition pass1_direntry (sfd : sfs_direntry) : M sfsck (sfs_direntry * bool) :=
  nblocks <- sb_totalblocks ;;
  if sfd_ino sfd =? SFS_NOINO then
    if negb (hd 0 (sfd_name sfd) =? 0) then
      setbadness EXIT_RECOV ;; ret (Direntry (sfd_ino sfd) (clear_name (sfd_name sfd)), true)
    else ret (sfd, false)
  else if nblocks <=? sfd_ino sfd then
    setbadness EXIT_RECOV ;; ret (Direntry SFS_NOINO (clear_name (sfd_name sfd)), true)
  else
    let* (name, c1) :=
      (if hd 0 (sfd_name sfd) =? 0 then
         name <- fsck_name (sfd_name sfd) (sfd_ino sfd) ;; setbadness EXIT_RECOV ;; ret (name, true)
       else ret (sfd_name sfd, false)) in
    let '(name, c2) := checknullstring name in
    when c2 (setbadness EXIT_RECOV) ;;
    let* (name, c3) := oob (checkbadstring name) in
    when c3 (setbadness EXIT_RECOV) ;;
    ret (Direntry (sfd_ino sfd) name, c1 || c2 || c3).

(** A loop over the entries of a directory that may change them. *)
Fixpoint each_direntry (f : sfs_direntry -> M sfsck (sfs_direntry * bool)) (d : list sfs_direntry) :
    M sfsck (list sfs_direntry * bool) :=
  match d with
  | [] => ret ([], false)
  | e :: d' =>
      let* (e1, c1) := f e in
      let* (d2, c2) := each_direntry f d' in
      ret (e1 :: d2, c1 || c2)
  end.

Definition DOT : list Z := [46].
Definition DOTDOT : list Z := [46; 46].
Definition name_is (d : sfs_direntry) (name : list Z) : bool := bool_decide (cstr (sfd_name d) = name).

Definition set_dinode_size (n : Z) (i : sfs_dinode) : sfs_dinode :=
  Dinode n (sfi_type i) (sfi_linkcount i) (sfi_direct i) (sfi_indirect i) (sfi_waste i).

Definition count_dir : M sfsck unit := modify (fun s => set_counts (u32 (count_dirs s + 1)) (count_files s) s).
Definition count_file : M sfsck unit := modify (fun s => set_counts (count_dirs s) (u32 (count_files s + 1)) s).

(** What the entry names, with [walk] for the recursive call. *)
Definition pass1_child (walk : Z -> M sfsck unit) (sfd : sfs_direntry) : M sfsck (sfs_direntry * bool) :=
  if sfd_ino sfd =? SFS_NOINO then ret (sfd, false)
  else if name_is sfd DOT then ret (sfd, false)
  else if name_is sfd DOTDOT then ret (sfd, false)
  else
    let subino := sfd_ino sfd in
    subsfi <- sfs_readinode subino ;;
    if sfi_type subsfi =? SFS_TYPE_FILE then
      let* (seen, _) := pass1_inode subino subsfi false in
      (if seen then ret tt else count_file) ;; ret (sfd, false)
    else if sfi_type subsfi =? SFS_TYPE_DIR then
      walk subino ;; ret (sfd, false)
    else
      setbadness EXIT_RECOV ;; ret (Direntry SFS_NOINO (clear_name (sfd_name sfd)), true).

Fixpoint pass1_dir (fuel : nat) (ino : Z) : M sfsck unit :=
  match fuel with
  | O => fun _ => OutOfFuel
  | S fuel' =>
      sfi <- sfs_readinode ino ;;
      let ichanged := negb (sfi_size sfi mod sizeof_direntry =? 0) in
      when ichanged (setbadness EXIT_RECOV) ;;
      let sfi := if ichanged then set_dinode_size (SFS_ROUNDUP (sfi_size sfi) sizeof_direntry) sfi else sfi in
      count_dir ;;
      let* (seen, sfi) := pass1_inode ino sfi ichanged in
      if seen then ret tt
      else
        let ndirentries := sfi_size sfi / sizeof_direntry in
        domalloc ;;
        d <- sfs_readdir sfi ndirentries ;;
        let* (d, c1) := each_direntry pass1_direntry d in
        let* (d, c2) := each_direntry (pass1_child (pass1_dir fuel')) d in
        when (c1 || c2) (sfs_writedir sfi d ndirentries)
  end.

Definition set_dinode_type (t : Z) (i : sfs_dinode) : sfs_dinode :=
  Dinode (sfi_size i) t (sfi_linkcount i) (sfi_direct i) (sfi_indirect i) (sfi_waste i).

Definition pass1_rootdir (fuel : nat) : M sfsck unit :=
  sfi <- sfs_readinode SFS_ROOTDIR_INO ;;
  (if sfi_type sfi =? SFS_TYPE_DIR then ret tt
   else
     setbadness EXIT_RECOV ;;
     sfs_writeinode SFS_ROOTDIR_INO (set_dinode_type SFS_TYPE_DIR sfi)) ;;
  pass1_dir fuel SFS_ROOTDIR_INO.

Definition pass1 (fuel : nat) : M sfsck unit := pass1_rootdir fuel.

(** ** [pass2.c] *)

(** The check of one pair of neighbours of the sorted directory. *)
Definition check_duplicate (d : list sfs_direntry) (i1 i2 : Z) : M sfsck (list sfs_direntry * bool) :=
  d1 <- oob (zlookup d i1) ;;
  d2 <- oob (zlookup d i2) ;;
  KASSERT (negb (i1 =? i2)) ;;
  if (sfd_ino d1 =? SFS_NOINO) || (sfd_ino d2 =? SFS_NOINO) then ret (d, false)
  else
    c <- oob (name_cmp (sfd_name d1) (sfd_name d2)) ;;
    if c =? 0 then
      if sfd_ino d1 =? sfd_ino d2 then
        setbadness EXIT_RECOV ;; ret (zinsert i1 (Direntry SFS_NOINO (clear_name (sfd_name d1))) d, true)
      else
        name <- fsck_name (sfd_name d1) (sfd_ino d1) ;;
        setbadness EXIT_RECOV ;; ret (zinsert i1 (Direntry (sfd_ino d1) name) d, true)
    else ret (d, false).

Fixpoint check_duplicates (d : list sfs_direntry) (sortvector : list Z) : M sfsck (list sfs_direntry * bool) :=
  match sortvector with
  | i1 :: ((i2 :: _) as rest) =>
      let* (d, c1) := check_duplicate d i1 i2 in
      let* (d, c2) := check_duplicates d rest in
      ret (d, c1 || c2)
  | _ => ret (d, false)
  end.

(** The loop that looks for the two dot entries: the directory, whether it
    changed, and which were seen. *)
Fixpoint check_dots (ino parentino : Z) (d : list sfs_direntry) (dotseen dotdotseen : bool) :
    M sfsck (list sfs_direntry * bool * bool * bool) :=
  match d with
  | [] => ret ([], false, dotseen, dotdotseen)
  | e :: d' =>
      let fix_ino (want : Z) : M sfsck (sfs_direntry * bool) :=
        if negb (sfd_ino e =? want) then setbadness EXIT_RECOV ;; ret (Direntry want (sfd_name e), true)
        else ret (e, false) in
      let* (e1, c1, seen1, seen2) :=
        (if name_is e DOT then
           let* (e1, c1) := fix_ino ino in KASSERT (negb dotseen) ;; ret (e1, c1, true, dotdotseen)
         else if name_is e DOTDOT then
           let* (e1, c1) := fix_ino parentino in KASSERT (negb dotdotseen) ;; ret (e1, c1, dotseen, true)
         else ret (e, false, dotseen, dotdotseen)) in
      let* (d2, c2, seen1, seen2) := check_dots ino parentino d' seen1 seen2 in
      ret (e1 :: d2, c1 || c2, seen1, seen2)
  end.

(** The directory under repair: its entries with the spare slots of the last
    block, how many are in it, its inode, and what has changed. *)
Record dirstate := DirState {
  ds_entries : list sfs_direntry;
  ds_ndirentries : Z;
  ds_sfi : sfs_dinode;
  ds_dchanged : bool;
  ds_ichanged : bool
}.

(** "If no . entry, try to insert one": in a free slot, or in a spare one. *)
Definition add_missing (name : list Z) (ino : Z) (ds : dirstate) : M sfsck dirstate :=
  let d := ds_entries ds in
  match sfsdir_tryadd d (Z.to_nat (ds_ndirentries ds)) name ino with
  | Some d' => setbadness EXIT_RECOV ;; ret (DirState d' (ds_ndirentries ds) (ds_sfi ds) true (ds_ichanged ds))
  | None =>
      match sfsdir_tryadd d (length d) name ino with
      | Some d' =>
          setbadness EXIT_RECOV ;;
          ret (DirState d' (ds_ndirentries ds + 1)
                 (set_dinode_size (u32 (sfi_size (ds_sfi ds) + sizeof_direntry)) (ds_sfi ds)) true true)
      | None => setbadness EXIT_UNRECOV ;; ret ds
      end
  end.

(** One entry of the last loop of [pass2_dir]; the number of subdirectories
    found is counted in [subdirs]. *)
Definition pass2_child (walk : Z -> M sfsck bool) (sfd : sfs_direntry) (subdirs : Z) :
    M sfsck (sfs_direntry * bool * Z) :=
  if sfd_ino sfd =? SFS_NOINO then ret (sfd, false, subdirs)
  else if name_is sfd DOT then ret (sfd, false, subdirs)
  else if name_is sfd DOTDOT then ret (sfd, false, subdirs)
  else
    subsfi <- sfs_readinode (sfd_ino sfd) ;;
    let removed := Direntry SFS_NOINO (clear_name (sfd_name sfd)) in
    if sfi_type subsfi =? SFS_TYPE_FILE then
      inode_addlink (sfd_ino sfd) ;; ret (sfd, false, subdirs)
    else if sfi_type subsfi =? SFS_TYPE_DIR then
      crosslinked <- walk (sfd_ino sfd) ;;
      if crosslinked then setbadness EXIT_RECOV ;; ret (removed, true, subdirs)
      else ret (sfd, false, u32 (subdirs + 1))
    else setbadness EXIT_RECOV ;; ret (removed, true, subdirs).

Fixpoint pass2_children (walk : Z -> M sfsck bool) (d : list sfs_direntry) (subdirs : Z) :
    M sfsck (list sfs_direntry * bool * Z) :=
  match d with
  | [] => ret ([], false, subdirs)
  | e :: d' =>
      let* (e1, c1, n1) := pass2_child walk e subdirs in
      let* (d2, c2, n2) := pass2_children walk d' n1 in
      ret (e1 :: d2, c1 || c2, n2)
  end.

(** The directory as loaded, with the duplicates and the dot entries seen to. *)
Definition pass2_load (ino parentino : Z) (sfi : sfs_dinode) : M sfsck dirstate :=
  let ndirentries := sfi_size sfi / sizeof_direntry in
  let maxdirentries := SFS_ROUNDUP ndirentries atonce in
  domalloc ;;
  domalloc ;;
  d <- sfs_readdir sfi ndirentries ;;
  sortvector <- sfsdir_sort d ndirentries ;;
  let* (d, c1) := check_duplicates d sortvector in
  let* (d, c2, dotseen, dotdotseen) := check_dots ino parentino d false false in
  let spare := replicate (Z.to_nat (maxdirentries - ndirentries)) empty_direntry in
  let ds := DirState (d ++ spare) ndirentries sfi (c1 || c2) false in
  ds <- (if dotseen then ret ds else add_missing DOT ino ds) ;;
  if dotdotseen then ret ds else add_missing DOTDOT parentino ds.

(** True when the directory has been visited before. *)
Fixpoint pass2_dir (fuel : nat) (ino parentino : Z) : M sfsck bool :=
  match fuel with
  | O => fun _ => OutOfFuel
  | S fuel' =>
      visited <- inode_visitdir ino ;;
      if visited then ret true
      else
        sfi <- sfs_readinode ino ;;
        ds <- pass2_load ino parentino sfi ;;
        let n := Z.to_nat (ds_ndirentries ds) in
        let* (d, c, subdircount) :=
          pass2_children (fun sub => pass2_dir fuel' sub ino) (take n (ds_entries ds)) 0 in
        let d := d ++ drop n (ds_entries ds) in
        let sfi := ds_sfi ds in
        let wrong := negb (sfi_linkcount sfi =? u32 (subdircount + 2)) in
        when wrong (setbadness EXIT_RECOV) ;;
        let sfi := if wrong then set_linkcount (u16 (subdircount + 2)) sfi else sfi in
        when (ds_dchanged ds || c) (sfs_writedir sfi d (ds_ndirentries ds)) ;;
        when (ds_ichanged ds || wrong) (sfs_writeinode ino sfi) ;;
        ret false
  end.

Definition pass2 (fuel : nat) : M sfsck unit :=
  pass2_dir fuel SFS_ROOTDIR_INO SFS_ROOTDIR_INO ;; ret tt.

(** ** [main.c] *)

Definition sfsck_main (fuel : nat) (te : tool_env) (args : list (list Z)) : M sfsck Z :=
  match args with
  | [_] =>
      on_ckdisk (opendisk (te_open te) (te_fstat te)) ;;
      sfs_setup ;;
      sb_load ;;
      sb_check ;;
      freemap_setup ;;
      pass1 fuel ;;
      freemap_check ;;
      inode_sorttable ;;
      pass2 fuel ;;
      inode_adjust_filelinks ;;
      on_ckdisk (closedisk (te_close te)) ;;
      s <- get ;;
      KASSERT ((badness s =? EXIT_UNRECOV) || (badness s =? EXIT_RECOV) || (badness s =? EXIT_CLEAN)) ;;
      ret (badness s)
  | _ => throw EXIT_USAGE
  end.

(** The program as it starts, with nothing known of the superblock. *)
Definition sfsck_start (d : rawdisk) (mallocs : list bool) : sfsck :=
  Sfsck d mallocs 0 (Superblock 0 0 [] []) 0 [] [] [] 0 false 0 0 0.
