(* ===== verification/SfsckTables.v ===== *)
(** * Checking a volume: what the tables promise

    The inode table of [inode.c] (sorting it with [qsort] makes the binary
    search find exactly the inodes in it), the superblock check of [sb.c] and
    the bit maps of [freemap.c]; then the logic of runs that find nothing
    unrecoverable. *)

From stdpp Require Import sorting.
From S2P Require Import Prelude Bitmap Vnode SfsDisk Printf CString CStringSpec Qsort SbinDisk Mksfs Sfsck.

(** ** The inode table *)

Definition inode_cmp (a b : inodeinfo) : Z :=
  if in_ino a <? in_ino b then -1 else if in_ino b <? in_ino a then 1 else 0.

#[export] Instance inode_comparator : Comparator (fun _ => True) inode_cmp.
Proof. unfold inode_cmp. split; intros; bsolve. Qed.

Definition distinct (l : list inodeinfo) : Prop := NoDup (in_ino <$> l).

Lemma distinct_comparable l : distinct l -> comparable inode_compare inode_cmp l.
Proof.
  intros Hd x y l' Hl. unfold distinct in Hd. rewrite Hl in Hd. cbn in Hd.
  apply NoDup_cons in Hd as [Hx _]. apply not_elem_of_cons in Hx as [Hne _].
  unfold inode_compare, inode_cmp. bsolve.
Qed.

(** The numbers go up. *)
Definition ascending (l : list inodeinfo) : Prop :=
  forall i j a b, i < j -> zlookup l i = Some a -> zlookup l j = Some b -> in_ino a < in_ino b.

Lemma StronglySorted_lookup {A} (R : A -> A -> Prop) l (i j : nat) a b :
  StronglySorted R l -> (i < j)%nat -> l !! i = Some a -> l !! j = Some b -> R a b.
Proof.
  revert i j. induction l as [|x l IH]; intros i j Hs Hij Hi Hj; [done|].
  apply StronglySorted_cons in Hs as [HF Hs]. destruct j as [|j]; [lia|]. destruct i as [|i]; cbn in Hi, Hj.
  - injection Hi as ->. by apply (Forall_lookup_1 _ _ _ _ HF Hj).
  - apply (IH i j); [done|lia|done..].
Qed.

Lemma sorted_ascending l : distinct l -> StronglySorted (le inode_cmp) l -> ascending l.
Proof.
  intros Hd Hs i j a b Hij Ha Hb. pose proof (zlookup_lt _ _ _ Ha). pose proof (zlookup_lt _ _ _ Hb).
  unfold zlookup in *. revert Ha Hb. bsolve. intros Ha Hb.
  assert (le inode_cmp a b) as Hle by (apply (StronglySorted_lookup _ _ (Z.to_nat i) (Z.to_nat j) _ _ Hs); [lia|done..]).
  assert (in_ino a <> in_ino b) as Hne.
  { intros He. assert (Z.to_nat i = Z.to_nat j) as Hij'; [|lia].
    apply (NoDup_lookup (in_ino <$> l) _ _ (in_ino a) Hd); rewrite list_lookup_fmap; [by rewrite Ha|by rewrite Hb, He]. }
  unfold le, inode_cmp in Hle. revert Hle. bsolve.
Qed.

(** Where the number is in the table, if it is. *)
Definition found_at (table : list inodeinfo) (ino : Z) (s : sfsck) (o : outcome sfsck Z) : Prop :=
  (exists i e, o = Ret i s /\ zlookup table i = Some e /\ in_ino e = ino) \/
  (o = Err EXIT_UNRECOV s /\ ino ∉ (in_ino <$> table)).

Lemma inode_find_loop_finds fuel table ino s min max : ascending table ->
  0 <= min <= max -> max <= Z.of_nat (length table) -> max - min < Z.of_nat fuel ->
  (forall i e, i < min -> zlookup table i = Some e -> in_ino e < ino) ->
  (forall i e, max <= i -> zlookup table i = Some e -> ino < in_ino e) ->
  found_at table ino s (inode_find_loop fuel table ino min max s).
Proof.
  intros Ht. revert min max. induction fuel as [|fuel IH]; intros min max H1 H2 Hf Hlo Hhi; [lia|].
  cbn [inode_find_loop]. unfold bind, KASSERT. destruct (Z.leb_spec min max) as [_|]; [|lia]. cbn [ret].
  destruct (Z.eqb_spec min max) as [->|Hne].
  - right. split; [done|]. intros (e & -> & [k Hk]%list_elem_of_lookup)%list_elem_of_fmap.
    rewrite <- zlookup_nat in Hk. destruct (decide (Z.of_nat k < max)).
    + pose proof (Hlo _ _ l Hk). lia.
    + pose proof (Hhi (Z.of_nat k) _ ltac:(lia) Hk). lia.
  - set (i := min + (max - min) / 2). assert (min <= i < max) as Hi by (subst i; Z.div_mod_to_equations; lia).
    destruct (zlookup_is_Some table i) as [e He]; [lia|]. unfold oob. rewrite He. cbn [ret].
    destruct (Z.ltb_spec (in_ino e) ino) as [Hlt|Hge]; [|destruct (Z.ltb_spec ino (in_ino e)) as [Hlt|Hge']].
    + apply IH; [lia..| |done]. intros j x Hj Hx. destruct (decide (j = i)) as [->|]; [congruence|].
      pose proof (Ht j i x e ltac:(lia) Hx He). lia.
    + apply IH; [lia..|done|]. intros j x Hj Hx. destruct (decide (j = i)) as [->|]; [congruence|].
      pose proof (Ht i j e x ltac:(lia) He Hx). lia.
    + left. exists i, e. destruct (Z.eqb_spec (in_ino e) ino); [|lia]. done.
Qed.

Lemma inode_find_finds s ino : ascending (inodes s) -> inodes_sorted s = true -> 0 < Z.of_nat (length (inodes s)) ->
  found_at (inodes s) ino s (inode_find ino s).
Proof.
  intros Ha Hs Hl. unfold inode_find, bind, get, KASSERT. rewrite Hs. cbn [ret].
  destruct (Z.ltb_spec 0 (Z.of_nat (length (inodes s)))); [|lia]. cbn [ret].
  apply inode_find_loop_finds; [done|lia..| |]; intros i x Hi Hx; apply zlookup_lt in Hx; lia.
Qed.

(** An entry is found by its number alone. *)
Lemma distinct_lookup l i e e' : distinct l -> zlookup l i = Some e' -> e ∈ l -> in_ino e' = in_ino e -> e' = e.
Proof.
  intros Hd Hi [k Hk]%list_elem_of_lookup He. unfold zlookup in Hi. destruct (0 <=? i); [|done].
  assert (Z.to_nat i = k) as <-; [|congruence].
  apply (NoDup_lookup (in_ino <$> l) _ _ (in_ino e) Hd); rewrite list_lookup_fmap; [by rewrite Hi, <- He|by rewrite Hk].
Qed.

Lemma zlookup_in {A} (l : list A) i x : zlookup l i = Some x -> x ∈ l.
Proof. unfold zlookup. destruct (0 <=? i); [|done]. apply list_elem_of_lookup_2. Qed.

Lemma inode_sorttable_sorts s : distinct (inodes s) -> Z.of_nat (length (inodes s)) < 2 ^ 32 ->
  exists table, inode_sorttable s = Ret tt (set_inodes table (maxinodes s) true s) /\
    table ≡ₚ inodes s /\ distinct table /\ ascending table.
Proof.
  intros Hd Hl.
  pose proof (qsort_rec_sorts inode_compare (fun _ => True) inode_cmp (S (length (inodes s))) [] (inodes s) [] 0
    (Z.of_nat (length (inodes s))) eq_refl eq_refl ltac:(lia)
    (conj (Forall_true _ _ (fun _ => I)) (distinct_comparable _ Hd)) Hl) as Hq.
  apply wp_ret_inv in Hq as ([] & data & Hq & table & -> & Hperm & Hsort).
  rewrite !app_nil_l, !app_nil_r in Hq.
  assert (distinct table) as Hd' by (unfold distinct; by rewrite Hperm).
  exists table. split_and!; [|done|done|by apply sorted_ascending].
  unfold inode_sorttable, bind, get, init_with, qsort. rewrite Nat2Z.id, Hq. done.
Qed.

(** The inode table of the checker.  With distinct inode numbers,
    sorting returns (the assertion of the comparison, that no two entries
    compare equal, holds), keeps the entries, and afterwards the binary
    search returns the index of the entry for every inode in the table and
    ends the program with the code for unrecoverable errors for every other
    number. *)
Theorem inode_table_lookup s :
  distinct (inodes s) -> 0 < Z.of_nat (length (inodes s)) < 2 ^ 32 ->
  exists table, let s' := set_inodes table (maxinodes s) true s in
    inode_sorttable s = Ret tt s' /\ table ≡ₚ inodes s /\
    (forall e, e ∈ inodes s -> exists i, inode_find (in_ino e) s' = Ret i s' /\ zlookup table i = Some e) /\
    (forall ino, ino ∉ (in_ino <$> inodes s) -> inode_find ino s' = Err EXIT_UNRECOV s').
Proof.
  intros Hd Hl. destruct (inode_sorttable_sorts s Hd) as (table & Hr & Hp & Hd' & Ha); [lia|].
  exists table. cbv zeta. pose proof (Permutation_length Hp) as Hlen.
  set (s' := set_inodes table (maxinodes s) true s).
  assert (forall ino, found_at table ino s' (inode_find ino s')) as Hf.
  { intros ino. apply (inode_find_finds s'); [done|done|cbn; lia]. }
  split_and!; [done|done| |].
  - intros e He. rewrite <- Hp in He. destruct (Hf (in_ino e)) as [(i & e' & Hr' & Hi & Hino)|[_ Hno]].
    + exists i. split; [done|]. by rewrite (distinct_lookup table i e e') in Hi.
    + exfalso. by apply Hno, list_elem_of_fmap_2.
  - intros ino Hno. destruct (Hf ino) as [(i & e' & Hr' & Hi & Hino)|[Hr' _]]; [|done].
    exfalso. apply Hno. subst ino. apply list_elem_of_fmap_2. rewrite <- Hp. by apply zlookup_in in Hi.
Qed.

(** ** The bit maps *)

Definition map_bits (s : sfsck) : Z := 8 * Z.of_nat (length (freemapdata s)).

Record maps_ok (s : sfsck) : Prop := {
  maps_length : length (tofreedata s) = length (freemapdata s);
  maps_bytes : Forall byte_ok (freemapdata s) /\ Forall byte_ok (tofreedata s);
  maps_apart : forall i, 0 <= i < map_bits s -> mapbit (freemapdata s) i = true -> mapbit (tofreedata s) i = false
}.

(** The rest of the state. *)
Definition but_maps (s s' : sfsck) : Prop :=
  exists n inuse tofree bad, s' = set_maps n inuse tofree (set_badness bad s) /\ badness s <= bad.

(** Block [b] marked: found in use twice is the unrecoverable case. *)
Record marked (b : Z) (s s' : sfsck) : Prop := {
  marked_rest : but_maps s s';
  marked_ok : maps_ok s';
  marked_size : length (freemapdata s') = length (freemapdata s);
  marked_bits : forall i, 0 <= i -> mapbit (freemapdata s') i = (i =? b) || mapbit (freemapdata s) i;
  marked_bad : badness s' = if mapbit (freemapdata s) b then Z.max EXIT_UNRECOV (badness s) else badness s
}.

Lemma setbadness_max code s : setbadness code s = Ret tt (set_badness (Z.max code (badness s)) s).
Proof.
  unfold setbadness, modify. f_equal. destruct (Z.ltb_spec (badness s) code).
  - by rewrite Z.max_l by lia.
  - rewrite Z.max_r by lia. by destruct s.
Qed.

Lemma wp_setbadness code s (Q : unit -> sfsck -> Prop) E :
  Q tt (set_badness (Z.max code (badness s)) s) -> wp (setbadness code) Q E s.
Proof. intros H. unfold wp. by rewrite setbadness_max. Qed.

Lemma wp_when_bad (b : bool) code s (Q : unit -> sfsck -> Prop) E :
  (forall bad, badness s <= bad <= Z.max code (badness s) -> Q tt (set_badness bad s)) ->
  wp (when b (setbadness code)) Q E s.
Proof.
  intros H. destruct b; cbn [when].
  - apply wp_setbadness, H. lia.
  - apply wp_ret. specialize (H (badness s)). destruct s. apply H. cbn. lia.
Qed.

Lemma maps_apart_mark b s inuse tofree n bad : maps_ok s ->
  length inuse = length (freemapdata s) -> length tofree = length (freemapdata s) ->
  Forall byte_ok inuse -> Forall byte_ok tofree ->
  (forall i, 0 <= i -> mapbit inuse i = (i =? b) || mapbit (freemapdata s) i) ->
  (forall i, 0 <= i < map_bits s -> mapbit tofree i = negb (i =? b) && mapbit (tofreedata s) i) ->
  maps_ok (set_maps n inuse tofree (set_badness bad s)).
Proof.
  intros Hs Hl1 Hl2 Hb1 Hb2 Hi Ht. split; cbn [freemapdata tofreedata set_maps]; [lia|done|].
  unfold map_bits. cbn [freemapdata set_maps]. rewrite Hl1. intros i Hr. rewrite Hi, Ht by (unfold map_bits; lia).
  destruct (i =? b); [done|]. cbn. by apply (maps_apart s Hs).
Qed.

Lemma wp_blockinuse b how s (Q : unit -> sfsck -> Prop) E : maps_ok s -> 0 <= b < map_bits s ->
  (forall s', marked b s s' -> Q tt s') -> wp (freemap_blockinuse b how) Q E s.
Proof.
  intros Hs Hb HQ. destruct (maps_bytes s Hs) as [Hf Ht]. unfold map_bits in Hb.
  destruct (map_byte (freemapdata s) b) as (w & Hw & Wok & _); [lia|done|].
  destruct (map_byte (tofreedata s) b) as (t & Htt & Tok & _); [rewrite (maps_length s Hs); lia|done|].
  destruct (map_set (freemapdata s) b w) as (U1 & O1 & B1); [lia|done..|].
  destruct (map_clear (tofreedata s) b t) as (U2 & O2 & B2); [lia|done..|].
  unfold freemap_blockinuse. wp_steps. apply (wp_oob _ t); [done|]. wp_steps. apply (wp_oob _ w); [done|]. wp_step.
  set (tofree := if negb (Z.land t (map_mask b) =? 0) then _ else _).
  assert (length tofree = length (freemapdata s) /\ Forall byte_ok tofree /\
    forall i, 0 <= i < map_bits s -> mapbit tofree i = negb (i =? b) && mapbit (tofreedata s) i) as (T1 & T2 & T3).
  { subst tofree. rewrite (map_test _ _ _ Htt), negb_involutive. destruct (mapbit (tofreedata s) b) eqn:Hbit.
    - rewrite U2, zinsert_length. split_and!; [apply (maps_length s Hs)|by apply Forall_zinsert|]. intros i Hi. apply B2. lia.
    - split_and!; [apply (maps_length s Hs)|done|]. intros i Hi. destruct (Z.eqb_spec i b) as [->|]; [by rewrite Hbit|done]. }
  apply (wp_use _ (fun _ s1 => s1 = set_badness (if mapbit (freemapdata s) b then Z.max EXIT_UNRECOV (badness s) else badness s) s)).
  { rewrite (map_test _ _ _ Hw), negb_involutive. unfold when. destruct (mapbit (freemapdata s) b).
    - by apply wp_setbadness.
    - apply wp_ret. by destruct s. }
  intros [] s1 ->. apply wp_modify, HQ.
  split; cbn [freemapdata set_maps set_badness badness]; rewrite ?U1.
  - do 4 eexists. split; [done|]. destruct (mapbit (freemapdata s) b); lia.
  - apply (maps_apart_mark b s); [done|by rewrite zinsert_length|done|by apply Forall_zinsert|done|by apply B1|done].
  - by rewrite zinsert_length.
  - by apply B1.
  - done.
Qed.

(** A block to be freed, unless it is in use. *)
Lemma wp_blockfree b s (Q : unit -> sfsck -> Prop) E : maps_ok s -> 0 <= b < map_bits s ->
  (forall s', but_maps s s' -> maps_ok s' -> freemapdata s' = freemapdata s -> badness s' = badness s -> Q tt s') ->
  wp (freemap_blockfree b) Q E s.
Proof.
  intros Hs Hb HQ. destruct (maps_bytes s Hs) as [Hf Ht]. pose proof Hb as Hb'. unfold map_bits in Hb.
  destruct (map_byte (freemapdata s) b) as (w & Hw & Wok & _); [lia|done|].
  destruct (map_byte (tofreedata s) b) as (t & Htt & Tok & _); [rewrite (maps_length s Hs); lia|done|].
  destruct (map_set (tofreedata s) b t) as (U1 & O1 & B1); [lia|done..|].
  assert (Q tt s) as HQs.
  { apply HQ; [|done..]. exists (blocksinuse s), (freemapdata s), (tofreedata s), (badness s). split; [by destruct s|lia]. }
  unfold freemap_blockfree. wp_steps. apply (wp_oob _ t); [done|].
  destruct (negb (Z.land t (map_mask b) =? 0)); [by wp_steps|]. wp_steps. apply (wp_oob _ w); [done|].
  rewrite (map_test _ _ _ Hw), negb_involutive. destruct (mapbit (freemapdata s) b) eqn:Hin; [by wp_steps|]. wp_steps.
  rewrite U1. apply HQ; cbn [freemapdata badness set_maps]; [|split|done|done]; cbn [freemapdata tofreedata set_maps].
  - eexists (blocksinuse s), (freemapdata s), _, (badness s). split; [by destruct s|lia].
  - rewrite zinsert_length. apply (maps_length s Hs).
  - split; [done|by apply Forall_zinsert].
  - unfold map_bits. cbn [freemapdata set_maps]. intros i Hi Hset. rewrite B1 by lia.
    destruct (Z.eqb_spec i b) as [->|]; [congruence|]. by apply (maps_apart s Hs).
Qed.

(** ** Checking the free map on the disk *)

Lemma maps_land s j e t : maps_ok s -> freemapdata s !! j = Some e -> tofreedata s !! j = Some t -> Z.land e t = 0.
Proof.
  intros Hs He Ht. destruct (maps_bytes s Hs) as [Hf Hg].
  pose proof (Forall_lookup_1 _ _ _ _ Hf He) as Eok. pose proof (lookup_lt_Some _ _ _ He).
  apply Z.bits_inj'. intros k Hk. rewrite Z.land_spec, Z.bits_0.
  destruct (decide (k < 8)) as [Hk8|Hk8]; [|by rewrite byte_testbit_high by (done || lia)].
  destruct (idx_split (Z.of_nat j) k) as [Hd Hm]; [lia|].
  pose proof (maps_apart s Hs (Z.of_nat j * 8 + k)) as Ha. unfold mapbit, bit in Ha. cbn [v] in Ha.
  rewrite Hd, Hm, !zlookup_nat, He, Ht in Ha. unfold map_bits in Ha.
  destruct (Z.testbit e k); [|done]. cbn. apply Ha; [lia|done].
Qed.

Lemma maps_slices s off n : maps_ok s ->
  Forall2 (fun e t => Z.land e t = 0) (slice off n (freemapdata s)) (slice off n (tofreedata s)).
Proof.
  intros Hs. apply Forall2_take, Forall2_drop, Forall2_same_length_lookup. split; [by rewrite (maps_length s Hs)|].
  intros j e t. by apply maps_land.
Qed.

(** The bytes that are not changed are right. *)
Lemma wp_check_bytes s actual expected tofree (Q : Z * Z * bool -> sfsck -> Prop) E :
  length actual = length expected -> Forall2 (fun e t => Z.land e t = 0) expected tofree ->
  (forall a f c, (c = false -> actual = expected) -> Q (a, f, c) s) -> wp (check_bytes actual expected tofree) Q E s.
Proof.
  intros Hl HF. revert actual Q Hl. induction HF as [|e t expected tofree Het HF IH]; intros [|x actual] Q Hl HQ; try done.
  { apply wp_ret. by apply HQ. }
  cbn [check_bytes]. wp_step. unfold check_byte. wp_step. apply wp_kassert; [by rewrite Het|].
  assert (forall c1, (c1 = false -> x = e) -> forall a1 f1,
    wp (check_bytes actual expected tofree) (fun a s' => wp (let '(a2, f2, c2) := a in
        ret (u32 (a1 + a2), u32 (f1 + f2), c1 || c2)) Q E s') E s) as Hrest.
  { intros c1 Hc1 a1 f1. apply IH; [by injection Hl|]. intros a2 f2 c2 Hc2. apply wp_ret, HQ.
    intros [H1 H2]%orb_false_iff. by rewrite Hc1, Hc2. }
  destruct (Z.eqb_spec x e) as [->|Hne]; [wp_steps; by apply Hrest|].
  destruct (x =? Z.lor e t); wp_steps; by apply Hrest.
Qed.

(** The free map of the disk, up to block [k], is the one in memory; nothing
    but the map has changed on the disk. *)
Definition map_written (k : Z) (s s' : sfsck) : Prop :=
  exists d bad, s' = set_ck_disk d (set_badness bad s) /\ badness s <= bad <= Z.max EXIT_RECOV (badness s) /\ disk_ok d /\
    rd_nblocks d = rd_nblocks (ck_disk s) /\ length (rd_file d) = length (rd_file (ck_disk s)) /\
    (forall j, 0 <= j < k -> dblock d (SFS_FREEMAP_START + j) =
       slice (Z.to_nat (j * SFS_BLOCKSIZE)) (Z.to_nat SFS_BLOCKSIZE) (freemapdata s)) /\
    (forall b, 0 <= b -> ~ (SFS_FREEMAP_START <= b < SFS_FREEMAP_START + k) -> dblock d b = dblock (ck_disk s) b).

(** The disk holds the volume, and the maps cover it. *)
Record volume_fits (s : sfsck) : Prop := {
  fits_disk : disk_ok (ck_disk s);
  fits_size : SFS_FREEMAP_START + SFS_FREEMAPBLOCKS (sb_nblocks (ck_sb s)) <= sb_nblocks (ck_sb s) <= rd_nblocks (ck_disk s);
  fits_map : Z.of_nat (length (freemapdata s)) = SFS_FREEMAPBLOCKS (sb_nblocks (ck_sb s)) * SFS_BLOCKSIZE
}.

Lemma wp_freemap_check_loop n i a f s0 s (Q : Z * Z -> sfsck -> Prop) E :
  maps_ok s0 -> volume_fits s0 -> 0 <= i -> map_written i s0 s ->
  i + Z.of_nat n <= SFS_FREEMAPBLOCKS (sb_nblocks (ck_sb s0)) ->
  (forall r s', map_written (i + Z.of_nat n) s0 s' -> Q r s') ->
  wp (freemap_check_loop n i a f) Q E s.
Proof.
  intros Hm [Vd Vs Vm]. revert i a f s. induction n as [|n IH]; intros i a f s Hi Hw Hn HQ; cbn [freemap_check_loop].
  { apply wp_ret, HQ. by rewrite Z.add_0_r. }
  destruct Hw as (d & bad & -> & Hbad & Hd & Hnb & Hlen & Hmap & Hoth).
  change SFS_FREEMAP_START with 2 in *. change SFS_BLOCKSIZE with 512 in *.
  wp_step. unfold sfs_readfreemapblock, on_ckdisk. change SFS_FREEMAP_START with 2. change SFS_BLOCKSIZE with 512. wp_step. cbn [ck_disk set_ck_disk].
  apply wp_diskread; [done|lia|]. intros d1 (D1 & N1 & F1). wp_steps.
  cbn [freemapdata tofreedata set_ck_disk set_badness].
  apply wp_check_bytes; [|by apply maps_slices|].
  { rewrite dblock_length by (done || lia). rewrite slice_length by lia. done. }
  intros a1 f1 c Hc. wp_step.
  assert (forall b, dblock d1 b = dblock d b) as Hsame by (intros b; unfold dblock; by rewrite F1).
  assert (forall d2, disk_ok d2 -> rd_nblocks d2 = rd_nblocks d -> length (rd_file d2) = length (rd_file d) ->
    dblock d2 (2 + i) = slice (Z.to_nat (i * 512)) (Z.to_nat 512) (freemapdata s0) ->
    (forall b, 0 <= b -> b <> 2 + i -> dblock d2 b = dblock d b) ->
    wp (freemap_check_loop n (i + 1) (u32 (a + a1)) (u32 (f + f1))) Q E (set_ck_disk d2 (set_badness bad s0))) as Hnext.
  { intros d2 G1 G2 G3 G4 G5. apply IH; [lia| |lia|].
    - exists d2, bad. split_and!; try done; try lia.
      + intros j Hj. destruct (decide (j = i)) as [->|]; [done|].
        change SFS_FREEMAP_START with 2. rewrite G5 by lia. apply Hmap. lia.
      + change SFS_FREEMAP_START with 2. intros b Hb Hnot. rewrite G5 by lia. apply Hoth; lia.
    - intros r s'. replace (i + 1 + Z.of_nat n) with (i + Z.of_nat (S n)) by lia. apply HQ. }
  destruct c; cbn [when].
  - unfold sfs_writefreemapblock, on_ckdisk. wp_step. cbn [ck_disk set_ck_disk].
    apply wp_diskwrite_block; [done|rewrite slice_length by lia; done|unfold SFS_FREEMAP_START; lia|].
    change SFS_FREEMAP_START with 2. intros d2 (G1 & G2 & G3 & G4 & G5). apply Hnext; [done|lia|by rewrite G3, F1| |].
    + rewrite G4. apply map_u8_id. apply Forall_take, Forall_drop, (maps_bytes s0 Hm).
    + intros b Hb Hne. rewrite <- Hsame. by apply G5.
  - wp_steps. apply Hnext; [done|lia|by rewrite F1| |].
    + rewrite Hsame. by apply Hc.
    + intros b _ _. apply Hsame.
Qed.

Lemma wp_freemap_check s : maps_ok s -> volume_fits s ->
  wp freemap_check (fun _ s' => map_written (SFS_FREEMAPBLOCKS (sb_nblocks (ck_sb s))) s s') (fun _ _ => False) s.
Proof.
  intros Hm V. pose proof (fits_map s V) as Vm. change SFS_BLOCKSIZE with 512 in Vm.
  unfold freemap_check, sb_freemapblocks. wp_steps.
  apply (wp_freemap_check_loop _ 0 _ _ s); [done|done|lia| |lia|].
  { exists (ck_disk s), (badness s). destruct V. split_and!; try done; try lia; try by destruct s. }
  intros [a f] s' (d & bad & -> & Hbad & Hrest). rewrite Z.add_0_l, Z2Nat.id in Hrest by lia.
  wp_step. apply wp_when_bad. intros bad1 H1. apply wp_when_bad. intros bad2 H2. cbn [badness set_badness set_ck_disk] in *.
  exists d, bad2. split; [by destruct s|]. split; [lia|done].
Qed.

Lemma inode_table_lookup_witness :
  let e5 := InodeInfo 5 1 false SFS_TYPE_FILE in
  let e1 := InodeInfo 1 0 false SFS_TYPE_DIR in
  let s := Sfsck (RawDisk true 0 0 [] []) [] 0 (Superblock 0 0 [] []) 0 [] [] [e5; e1] 4 false 0 0 0 in
  exists table, inode_sorttable s = Ret tt (set_inodes table 4 true s) /\
    inode_find 3 (set_inodes table 4 true s) = Err EXIT_UNRECOV (set_inodes table 4 true s).
Proof.
  cbv zeta. set (e5 := InodeInfo 5 1 false SFS_TYPE_FILE). set (e1 := InodeInfo 1 0 false SFS_TYPE_DIR).
  set (s := Sfsck _ _ _ _ _ _ _ [e5; e1] 4 _ _ _ _).
  destruct (inode_table_lookup s) as (table & H1 & H2 & H3 & H4).
  - unfold distinct. cbn. apply NoDup_cons. split; [|apply NoDup_singleton]. intros H%list_elem_of_singleton. done.
  - cbn. lia.
  - exists table. split; [exact H1|]. apply (H4 3). cbn. intros [H|H%list_elem_of_singleton]%elem_of_cons; done.
Defined.

(** ** Checking a volume: reasoning about runs that find nothing unrecoverable

    The checker records the worst thing it has seen in [badness], which only
    grows.  What it promises of the volume it promises for runs that do not
    reach [EXIT_UNRECOV].  [clp m Q s] states that: if [m] returns, with the
    badness still below that level, then [Q] holds.  The rule for sequences
    needs the second part not to lower the badness: the class [Grows]. *)

#[global] Typeclasses Opaque bind ret throw panic get gets modify when oob KASSERT in_bounds for_each zoom init_with stateless
  setbadness on_ckdisk domalloc uniqueid fsck_name freemap_blockinuse freemap_blockfree sfs_readinode sfs_writeinode
  sfs_readindirect sfs_writeindirect sfs_readdirblock sfs_writedirblock ibmap bmap readdir_loop writedir_loop sfs_readdir sfs_writedir sb_totalblocks
  inode_search inode_addtable inode_add check_direct check_entries check_indirect_block check_inode_blocks pass1_inode
  pass1_direntry each_direntry pass1_child pass1_dir.

Class Grows {A} (m : M sfsck A) : Prop := grows : forall s a s', m s = Ret a s' -> badness s <= badness s'.

#[export] Instance grows_ret {A} (a : A) : Grows (ret a).
Proof. by intros s a' s' [= _ <-]. Qed.
#[export] Instance grows_throw {A} e : Grows (throw e : M sfsck A).
Proof. by intros s a s'. Qed.
#[export] Instance grows_panic {A} : Grows (panic : M sfsck A).
Proof. by intros s a s'. Qed.
#[export] Instance grows_fuel {A} : Grows ((fun _ => OutOfFuel) : M sfsck A).
Proof. by intros s a s'. Qed.
#[export] Instance grows_get : Grows (get : M sfsck sfsck).
Proof. by intros s a s' [= _ <-]. Qed.
#[export] Instance grows_gets {A} (f : sfsck -> A) : Grows (gets f).
Proof. by intros s a s' [= _ <-]. Qed.
#[export] Instance grows_kassert b : Grows (KASSERT b : M sfsck unit).
Proof. destruct b; cbn; apply _. Qed.
#[export] Instance grows_in_bounds b : Grows (in_bounds b : M sfsck unit).
Proof. destruct b; cbn; apply _. Qed.
#[export] Instance grows_oob {A} (o : option A) : Grows (oob o : M sfsck A).
Proof. destruct o; cbn; apply _. Qed.
#[export] Instance grows_bind {A B} (m : M sfsck A) (f : A -> M sfsck B) : Grows m -> (forall a, Grows (f a)) -> Grows (bind m f).
Proof.
  intros Hm Hf s b s' H. unfold bind in H. destruct (m s) as [a s1| | |] eqn:E; try done.
  pose proof (Hm _ _ _ E). pose proof (Hf a _ _ _ H). lia.
Qed.
Lemma grows_when b (m : M sfsck unit) : Grows m -> Grows (when b m).
Proof. destruct b; cbn; [done|intros; apply _]. Qed.
#[export] Instance grows_setbadness code : Grows (setbadness code).
Proof. intros s a s'. rewrite setbadness_max. intros [= _ <-]. cbn. lia. Qed.
#[export] Instance grows_disk {A} (m : M rawdisk A) : Grows (on_ckdisk m).
Proof. intros s a s' H. unfold on_ckdisk, zoom in H. destruct (m (ck_disk s)); try done. by injection H as _ <-. Qed.
#[export] Instance grows_init {T A} (t : T) (m : M T A) : Grows (init_with t m).
Proof. intros s a s' H. unfold init_with in H. destruct (m t); try done. by injection H as _ <-. Qed.
#[export] Instance grows_stateless {A} (m : M unit A) : Grows (stateless m).
Proof. intros s a s' H. unfold stateless in H. destruct (m tt); try done. by injection H as _ <-. Qed.
Lemma grows_modify f : (forall s, badness s <= badness (f s)) -> Grows (modify f).
Proof. intros H s a s' [= _ <-]. apply H. Qed.
Lemma grows_for_each lo n (body : Z -> M sfsck unit) : (forall i, Grows (body i)) -> Grows (for_each lo n body).
Proof. intros H. revert lo. induction n; intros lo; cbn [for_each]; [apply grows_ret|by apply grows_bind]. Qed.

(** ** The operations *)

Ltac grows :=
  repeat (intros; cbv zeta; lazymatch goal with
    | |- Grows (bind _ _) => apply grows_bind
    | |- Grows (ret _) => apply grows_ret
    | |- Grows (setbadness _) => apply grows_setbadness
    | |- Grows (on_ckdisk _) => apply grows_disk
    | |- Grows (modify _) => apply grows_modify; intros; cbn; lia
    | |- Grows (when _ _) => apply grows_when
    | |- Grows (for_each _ _ _) => apply grows_for_each
    | |- Grows (match ?x with _ => _ end) => destruct x
    | |- _ => apply _
    end).

#[export] Instance grows_domalloc : Grows domalloc.
Proof.
  intros s a s' H. unfold domalloc, bind, get in H. destruct (mallocs s) as [|[] l]; try done; by injection H as _ <-.
Qed.
#[export] Instance grows_uniqueid : Grows uniqueid.
Proof. intros s a s' H. unfold uniqueid, bind, get, put, ret in H. by injection H as _ <-. Qed.
#[export] Instance grows_fsck_name name ino : Grows (fsck_name name ino).
Proof. unfold fsck_name. grows. Qed.
#[export] Instance grows_blockinuse b how : Grows (freemap_blockinuse b how).
Proof. unfold freemap_blockinuse. grows. Qed.
#[export] Instance grows_blockfree b : Grows (freemap_blockfree b).
Proof. unfold freemap_blockfree. grows. Qed.
#[export] Instance grows_readinode ino : Grows (sfs_readinode ino).
Proof. unfold sfs_readinode. grows. Qed.
#[export] Instance grows_writeinode ino sfi : Grows (sfs_writeinode ino sfi).
Proof. unfold sfs_writeinode. grows. Qed.
#[export] Instance grows_readindirect b : Grows (sfs_readindirect b).
Proof. unfold sfs_readindirect. grows. Qed.
#[export] Instance grows_writeindirect b e : Grows (sfs_writeindirect b e).
Proof. unfold sfs_writeindirect. grows. Qed.
#[export] Instance grows_readdirblock b : Grows (sfs_readdirblock b).
Proof. unfold sfs_readdirblock. grows. Qed.
#[export] Instance grows_writedirblock d b : Grows (sfs_writedirblock d b).
Proof. unfold sfs_writedirblock. grows. Qed.
#[export] Instance grows_ibmap l b o e : Grows (ibmap l b o e).
Proof. revert b o e. induction l; intros b o e; cbn [ibmap]; grows. Qed.
#[export] Instance grows_bmap sfi i : Grows (bmap sfi i).
Proof. unfold bmap. grows. Qed.
#[export] Instance grows_readdir_loop sfi n i left : Grows (readdir_loop sfi n i left).
Proof. revert i left. induction n; intros i left; cbn [readdir_loop]; grows. Qed.
#[export] Instance grows_readdir sfi nd : Grows (sfs_readdir sfi nd).
Proof. unfold sfs_readdir. apply _. Qed.
#[export] Instance grows_writedir_loop sfi d n i left : Grows (writedir_loop sfi d n i left).
Proof. revert i left. induction n; intros i left; cbn [writedir_loop]; grows. Qed.
#[export] Instance grows_writedir sfi d nd : Grows (sfs_writedir sfi d nd).
Proof. unfold sfs_writedir. apply _. Qed.
#[export] Instance grows_totalblocks : Grows sb_totalblocks.
Proof. unfold sb_totalblocks. grows. Qed.
#[export] Instance grows_search l ino type : Grows (inode_search l ino type).
Proof. induction l; cbn [inode_search]; grows. Qed.
#[export] Instance grows_addtable ino type : Grows (inode_addtable ino type).
Proof. unfold inode_addtable. grows. Qed.
#[export] Instance grows_add ino type : Grows (inode_add ino type).
Proof. unfold inode_add. grows. Qed.
#[export] Instance grows_check_direct ibs b : Grows (check_direct ibs b).
Proof. unfold check_direct. grows. Qed.
#[export] Instance grows_entries check ibs l : (forall ibs e, Grows (check ibs e)) -> Grows (check_entries check ibs l).
Proof. intros H. revert ibs. induction l; intros ibs; cbn [check_entries]; grows. Qed.
#[export] Instance grows_indirect k ibs e : Grows (check_indirect_block k ibs e).
Proof.
  revert ibs e. induction k as [|k IH]; intros ibs e; cbn [check_indirect_block]; [grows|].
  destruct k; grows.
Qed.
#[export] Instance grows_inode_blocks ino sfi isdir : Grows (check_inode_blocks ino sfi isdir).
Proof. unfold check_inode_blocks. grows. Qed.
#[export] Instance grows_pass1_inode ino sfi c : Grows (pass1_inode ino sfi c).
Proof. unfold pass1_inode, checkzeroed. grows. Qed.
#[export] Instance grows_direntry e : Grows (pass1_direntry e).
Proof. unfold pass1_direntry. grows. Qed.
#[export] Instance grows_each f d : (forall e, Grows (f e)) -> Grows (each_direntry f d).
Proof. intros H. induction d; cbn [each_direntry]; grows. Qed.
#[export] Instance grows_pass1_child walk e : (forall i, Grows (walk i)) -> Grows (pass1_child walk e).
Proof. intros H. unfold pass1_child, count_file. grows. Qed.
#[export] Instance grows_pass1_dir fuel ino : Grows (pass1_dir fuel ino).
Proof. revert ino. induction fuel; intros ino; cbn [pass1_dir]; unfold count_dir; grows. Qed.

(** ** The assertion *)

Definition clp {A} (m : M sfsck A) (Q : A -> sfsck -> Prop) (s : sfsck) : Prop :=
  match m s with
  | Ret a s' => badness s' < EXIT_UNRECOV -> Q a s'
  | _ => True
  end.
Arguments clp : simpl never.

Lemma clp_bind {A B} (m : M sfsck A) (f : A -> M sfsck B) Q s : (forall a, Grows (f a)) ->
  clp m (fun a s1 => clp (f a) Q s1) s -> clp (bind m f) Q s.
Proof.
  unfold clp, bind. intros Hg H. destruct (m s) as [a s1| | |]; try done.
  destruct (f a s1) as [b s2| | |] eqn:E; try done. intros Hb. pose proof (Hg a _ _ _ E). apply H; [lia|done].
Qed.

Lemma clp_ret {A} (a : A) (Q : A -> sfsck -> Prop) s : Q a s -> clp (ret a) Q s.
Proof. by intros H _. Qed.

Lemma clp_mono {A} (m : M sfsck A) (Q Q' : A -> sfsck -> Prop) s :
  clp m Q s -> (forall a s', Q a s' -> Q' a s') -> clp m Q' s.
Proof. unfold clp. destruct (m s); auto. Qed.

Lemma clp_wp {A} (m : M sfsck A) (Q : A -> sfsck -> Prop) E s :
  wp m (fun a s' => badness s' < EXIT_UNRECOV -> Q a s') E s -> clp m Q s.
Proof. unfold wp, clp. destruct (m s); auto. Qed.

Lemma clp_throw {A} e (Q : A -> sfsck -> Prop) s : clp (throw e) Q s.
Proof. done. Qed.

Lemma clp_kassert b (Q : unit -> sfsck -> Prop) s : (b = true -> Q tt s) -> clp (KASSERT b) Q s.
Proof. destruct b; intros H; [|done]. intros _. by apply H. Qed.

Lemma clp_in_bounds b (Q : unit -> sfsck -> Prop) s : (b = true -> Q tt s) -> clp (in_bounds b) Q s.
Proof. destruct b; intros H; [|done]. intros _. by apply H. Qed.

Lemma clp_oob {A} (o : option A) (Q : A -> sfsck -> Prop) s : (forall a, o = Some a -> Q a s) -> clp (oob o) Q s.
Proof. destruct o; intros H; [|done]. intros _. by apply H. Qed.

Lemma clp_get (Q : sfsck -> sfsck -> Prop) s : Q s s -> clp get Q s.
Proof. by intros H _. Qed.

Lemma clp_gets {A} (f : sfsck -> A) (Q : A -> sfsck -> Prop) s : Q (f s) s -> clp (gets f) Q s.
Proof. by intros H _. Qed.

Lemma clp_modify f (Q : unit -> sfsck -> Prop) s : Q tt (f s) -> clp (modify f) Q s.
Proof. by intros H _. Qed.

Ltac clp_step :=
  match goal with
  | |- clp (bind _ _) _ _ => apply clp_bind; [grows|]
  | |- clp (ret _) _ _ => apply clp_ret
  | |- clp (throw _) _ _ => apply clp_throw
  | |- clp get _ _ => apply clp_get
  | |- clp (gets _) _ _ => apply clp_gets
  | |- clp (modify _) _ _ => apply clp_modify
  | |- clp (KASSERT _) _ _ => apply clp_kassert; intros ?
  | |- clp (in_bounds _) _ _ => apply clp_in_bounds; intros ?
  end.
Ltac clp_steps := repeat (clp_step; cbv beta).
