(* ===== verification/SfsckSound.v ===== *)
(** * Checking a volume: which blocks belong to whom

    The consistency that pass 1 establishes, in terms of what is on the disk:
    every block belongs to at most one owner (the superblock, the free map,
    or one of the inodes found), the owned blocks lie in the volume and are
    marked in the map of blocks in use, and an inode points to no block past
    its end.  This file states it ([blocks_ok]), follows it through the check of
    one inode and makes it an invariant of the table of inodes found. *)

From S2P Require Import Prelude Bitmap Vnode SfsDisk Printf CString CStringSpec Qsort SbinDisk Mksfs Sfsck SfsckTables.

(** ** Owned blocks *)

Definition idwords_at (d : rawdisk) (b : Z) : list Z :=
  if b =? 0 then replicate (Z.to_nat SFS_DBPERIDB) 0
  else words_of_bytes (Z.to_nat SFS_DBPERIDB) (dblock d b).

(** The blocks of a file in order, 0 for a hole. *)
Definition file_blocks (d : rawdisk) (i : sfs_dinode) : list Z := sfi_direct i ++ idwords_at d (sfi_indirect i).

Definition in_use (b : Z) : Prop := b <> 0.

Definition inode_blocks (d : rawdisk) (i : sfs_dinode) : list Z := filter in_use (sfi_indirect i :: file_blocks d i).

Definition inode_at (d : rawdisk) (ino : Z) : sfs_dinode := dinode_of_bytes (dblock d ino).

Definition claimed (d : rawdisk) (ino : Z) : list Z := ino :: inode_blocks d (inode_at d ino).

(** The blocks of the volume's own structures. *)
Definition fixed_blocks (n : Z) : list Z := SFS_SUPER_BLOCK :: map (Z.add SFS_FREEMAP_START) (seqZ 0 (SFS_FREEMAPBLOCKS n)).

Definition used_blocks (n : Z) (d : rawdisk) (inos : list Z) : list Z := fixed_blocks n ++ concat (map (claimed d) inos).

Definition eof_block (i : sfs_dinode) : Z := SFS_ROUNDUP (sfi_size i) SFS_BLOCKSIZE / SFS_BLOCKSIZE.

Record inode_checked (d : rawdisk) (e : inodeinfo) : Prop := {
  checked_type : sfi_type (inode_at d (in_ino e)) = in_type e /\ (in_type e = SFS_TYPE_FILE \/ in_type e = SFS_TYPE_DIR);
  checked_eof : forall k b, zlookup (file_blocks d (inode_at d (in_ino e))) k = Some b ->
    eof_block (inode_at d (in_ino e)) <= k -> b = 0
}.

(** The blocks in [extra] are owned too: those of an inode being checked. *)
Record blocks_ok (n : Z) (inuse : list Z) (d : rawdisk) (extra : list Z) (l : list inodeinfo) : Prop := {
  blocks_once : NoDup (extra ++ used_blocks n d (in_ino <$> l));
  blocks_marked : Forall (fun b => 0 <= b < n /\ mapbit inuse b = true) (extra ++ used_blocks n d (in_ino <$> l));
  blocks_inodes : Forall (inode_checked d) l
}.

Lemma not_in_one {A} (x y : A) : x <> y -> x ∉ [y].
Proof. rewrite list_elem_of_singleton. done. Qed.

(** ** Disks that agree on blocks *)

Definition keeps (l : list Z) (d d' : rawdisk) : Prop := forall b, b ∈ l -> dblock d' b = dblock d b.

Lemma keeps_app l1 l2 d d' : keeps (l1 ++ l2) d d' <-> keeps l1 d d' /\ keeps l2 d d'.
Proof. unfold keeps. set_solver. Qed.

Lemma inode_keeps d d' ino : keeps (claimed d ino) d d' ->
  inode_at d' ino = inode_at d ino /\
  idwords_at d' (sfi_indirect (inode_at d ino)) = idwords_at d (sfi_indirect (inode_at d ino)).
Proof.
  intros H. assert (inode_at d' ino = inode_at d ino) as Hi.
  { unfold inode_at. rewrite H; [done|]. apply list_elem_of_here. }
  split; [done|]. unfold idwords_at. destruct (Z.eqb_spec (sfi_indirect (inode_at d ino)) 0) as [|Hne]; [done|].
  rewrite H; [done|]. apply list_elem_of_further, list_elem_of_filter. split; [done|]. apply list_elem_of_here.
Qed.

Lemma claimed_keeps d d' ino : keeps (claimed d ino) d d' -> claimed d' ino = claimed d ino.
Proof.
  intros [H1 H2]%inode_keeps. unfold claimed, inode_blocks, file_blocks. by rewrite H1, H2.
Qed.

Lemma checked_keeps d d' e : keeps (claimed d (in_ino e)) d d' -> inode_checked d e -> inode_checked d' e.
Proof.
  intros [H1 H2]%inode_keeps [C1 C2]. split; [rewrite H1; exact C1|].
  unfold file_blocks in *. rewrite H1, H2. exact C2.
Qed.

Lemma claimed_keeps_all d d' inos : keeps (concat (map (claimed d) inos)) d d' -> map (claimed d') inos = map (claimed d) inos.
Proof.
  induction inos as [|i inos IH]; intros H; [done|]. cbn [map concat] in H |- *.
  apply keeps_app in H as [H1 H2]. rewrite (claimed_keeps d d' i), IH by done. reflexivity.
Qed.

Lemma used_keeps n d d' inos : keeps (used_blocks n d inos) d d' -> used_blocks n d' inos = used_blocks n d inos.
Proof. intros [_ H]%keeps_app. unfold used_blocks. by rewrite (claimed_keeps_all d d'). Qed.

Lemma blocks_disk n inuse d d' ex l : blocks_ok n inuse d ex l -> keeps (used_blocks n d (in_ino <$> l)) d d' ->
  blocks_ok n inuse d' ex l.
Proof.
  intros [H1 H2 H3] Hk. rewrite <- (used_keeps n d d') in H1, H2 by done. split; [done|done|].
  apply keeps_app in Hk as [_ Hk]. clear H1 H2. induction H3 as [|e l He Hl IH]; [constructor|].
  cbn [fmap list_fmap map concat] in Hk. apply keeps_app in Hk as [K1 K2]. constructor; [by apply (checked_keeps d)|by apply IH].
Qed.

Lemma blocks_perm n inuse d ex ex' l : ex ≡ₚ ex' -> blocks_ok n inuse d ex l -> blocks_ok n inuse d ex' l.
Proof. intros Hp [H1 H2 H3]. split; [by rewrite <- Hp|by rewrite <- Hp|done]. Qed.

Lemma blocks_drop n inuse d ex ex' l : blocks_ok n inuse d (ex ++ ex') l -> blocks_ok n inuse d ex' l.
Proof.
  intros [H1 H2 H3]. rewrite <- app_assoc in H1, H2. apply NoDup_app in H1 as (_ & _ & H1).
  apply Forall_app in H2 as [_ H2]. by split.
Qed.

(** A block that was not marked is marked. *)
Lemma blocks_claim n inuse inuse' d ex l b : blocks_ok n inuse d ex l -> mapbit inuse b = false -> 0 <= b < n ->
  (forall i, 0 <= i -> mapbit inuse' i = (i =? b) || mapbit inuse i) -> blocks_ok n inuse' d (b :: ex) l.
Proof.
  intros [H1 H2 H3] Hb Hn Hm. split; [| |done]; cbn [app].
  - apply NoDup_cons. split; [|done]. intros Hin. rewrite Forall_forall in H2. destruct (H2 b Hin). congruence.
  - apply Forall_cons. split; [rewrite Hm, Z.eqb_refl by lia; done|].
    apply (Forall_impl _ _ _ H2). intros x [Hx1 Hx2]. split; [done|]. rewrite Hm, Hx2 by lia. by rewrite orb_true_r.
Qed.

(** The inode being checked joins the others. *)
Lemma blocks_add n inuse d ex l e : blocks_ok n inuse d ex l -> ex ≡ₚ claimed d (in_ino e) -> inode_checked d e ->
  blocks_ok n inuse d [] (l ++ [e]).
Proof.
  intros Hb Hp He. apply (blocks_perm _ _ _ _ _ _ Hp) in Hb as [H1 H2 H3].
  assert (claimed d (in_ino e) ++ used_blocks n d (in_ino <$> l) ≡ₚ used_blocks n d (in_ino <$> l ++ [e])) as Hall.
  { unfold used_blocks. rewrite fmap_app, map_app, concat_app. cbn [fmap list_fmap map concat].
    rewrite app_nil_r, (Permutation_app_comm (claimed _ _)), app_assoc. done. }
  split; cbn [app]; [by rewrite <- Hall|by rewrite <- Hall|]. apply Forall_app. split; [done|by constructor].
Qed.

(** What is written to a block that belongs to [extra] leaves the rest. *)
Lemma blocks_write n inuse d d' ex l b data : blocks_ok n inuse d ex l -> b ∈ ex -> wrote b data d d' ->
  blocks_ok n inuse d' ex l.
Proof.
  intros Hb Hin (_ & _ & _ & _ & Hw). apply (blocks_disk _ _ d); [done|]. destruct Hb as [H1 H2 _].
  intros x Hx. apply Hw.
  - rewrite Forall_forall in H2. apply (H2 x). set_solver.
  - intros ->. apply NoDup_app in H1 as (_ & H1 & _). by apply (H1 b).
Qed.

(** ** The state during the check *)

Record checking (n : Z) (extra : list Z) (l : list inodeinfo) (s : sfsck) : Prop := {
  chk_size : sb_nblocks (ck_sb s) = n;
  chk_fits : volume_fits s;
  chk_maps : maps_ok s;
  chk_blocks : blocks_ok n (freemapdata s) (ck_disk s) extra l
}.

Lemma but_maps_refl s : but_maps s s.
Proof. exists (blocksinuse s), (freemapdata s), (tofreedata s), (badness s). split; [by destruct s|lia]. Qed.

Lemma but_maps_trans s1 s2 s3 : but_maps s1 s2 -> but_maps s2 s3 -> but_maps s1 s3.
Proof.
  intros (a & b & c & d & -> & H1) (a' & b' & c' & d' & -> & H2). exists a', b', c', d'.
  cbn in H2. split; [by destruct s1|lia].
Qed.

Lemma but_maps_bad s bad : badness s <= bad -> but_maps s (set_badness bad s).
Proof. intros H. exists (blocksinuse s), (freemapdata s), (tofreedata s), bad. split; [by destruct s|done]. Qed.

Lemma but_maps_same s s' : but_maps s s' -> ck_disk s' = ck_disk s /\ ck_sb s' = ck_sb s /\ inodes s' = inodes s.
Proof. by intros (a & b & c & d & -> & _). Qed.

Lemma fits_small s : volume_fits s -> 3 <= sb_nblocks (ck_sb s) <= 2 ^ 23 /\ sb_nblocks (ck_sb s) <= map_bits s.
Proof.
  intros [[_ _ H1 _ _] H2 H3]. unfold BLOCKSIZE, map_bits in *. rewrite H3. set (n := sb_nblocks (ck_sb s)) in *.
  change SFS_FREEMAP_START with 2 in H2. change SFS_BLOCKSIZE with 512.
  assert (n <= 2 ^ 23) as Hmax by lia.
  destruct (decide (0 <= n)) as [Hn|Hn].
  - unfold SFS_FREEMAPBLOCKS, SFS_FREEMAPBITS, SFS_ROUNDUP in *. change SFS_BITSPERBLOCK with 4096 in *.
    rewrite (wrap_small 32 (n + 4096 - 1)) in * by lia. rewrite wrap_small in * by (Z.div_mod_to_equations; lia).
    rewrite Z.div_mul in * by lia. Z.div_mod_to_equations. lia.
  - assert (0 <= SFS_FREEMAPBITS n) as H4 by (apply wrap_bound; lia).
    pose proof (Z.div_pos _ SFS_BITSPERBLOCK H4 eq_refl). unfold SFS_FREEMAPBLOCKS in H2. lia.
Qed.

Lemma fits_but_maps s s' : but_maps s s' -> length (freemapdata s') = length (freemapdata s) -> volume_fits s -> volume_fits s'.
Proof. intros (a & b & c & d & -> & _) Hl [H1 H2 H3]. split; [done|done|]. by rewrite Hl. Qed.

Lemma checking_but_maps n ex l s s' : checking n ex l s -> but_maps s s' -> maps_ok s' -> freemapdata s' = freemapdata s ->
  checking n ex l s'.
Proof.
  intros [H1 H2 H3 H4] Hb Hm Hf. destruct (but_maps_same _ _ Hb) as (E1 & E2 & E3).
  split; [congruence| |done|by rewrite Hf, E1]. apply (fits_but_maps s); [done|by rewrite Hf|done].
Qed.

(** The three updates of the tables. *)
Lemma clp_claim n ex l b how s (Q : unit -> sfsck -> Prop) : checking n ex l s -> 0 <= b < n ->
  (forall s', but_maps s s' -> checking n (b :: ex) l s' -> Q tt s') -> clp (freemap_blockinuse b how) Q s.
Proof.
  intros [H1 H2 H3 H4] Hb HQ. pose proof (fits_small s H2) as [_ Hc].
  apply (clp_wp _ _ (fun _ _ => False)), wp_blockinuse; [done|lia|]. intros s' [M1 M2 M3 M4 M5] Hbad.
  destruct (but_maps_same _ _ M1) as (E1 & E2 & E3).
  assert (mapbit (freemapdata s) b = false) as Hnew.
  { destruct (mapbit (freemapdata s) b); [|done]. lia. }
  apply HQ; [done|]. split; [congruence|by apply (fits_but_maps s)|done|]. rewrite E1.
  by apply (blocks_claim n (freemapdata s)).
Qed.

Lemma clp_free n ex l b s (Q : unit -> sfsck -> Prop) : checking n ex l s -> 0 <= b < n ->
  (forall s', but_maps s s' -> checking n ex l s' -> Q tt s') -> clp (freemap_blockfree b) Q s.
Proof.
  intros Hc Hb HQ. pose proof Hc as [H1 H2 H3 H4]. pose proof (fits_small s H2) as [_ Hcov].
  apply (clp_wp _ _ (fun _ _ => False)), wp_blockfree; [done|lia|]. intros s' M1 M2 M3 M4 _.
  apply HQ; [done|]. by apply (checking_but_maps n ex l s).
Qed.

Lemma maps_ok_bad s bad : maps_ok s -> maps_ok (set_badness bad s).
Proof. intros [H1 H2 H3]. by split. Qed.

Lemma clp_bad n ex l code s (Q : unit -> sfsck -> Prop) : checking n ex l s ->
  (forall s', but_maps s s' -> checking n ex l s' -> Q tt s') -> clp (setbadness code) Q s.
Proof.
  intros Hc HQ. apply (clp_wp _ _ (fun _ _ => False)), wp_setbadness. intros _.
  apply HQ; [apply but_maps_bad; lia|]. apply (checking_but_maps n ex l s); [done|apply but_maps_bad; lia| |done].
  apply maps_ok_bad, Hc.
Qed.

Lemma clp_when_bad n ex l (b : bool) code s (Q : unit -> sfsck -> Prop) : checking n ex l s ->
  (forall s', but_maps s s' -> checking n ex l s' -> Q tt s') -> clp (when b (setbadness code)) Q s.
Proof.
  intros Hc HQ. destruct b; cbn [when]; [by apply (clp_bad n ex l)|]. apply clp_ret, HQ; [apply but_maps_refl|done].
Qed.

(** ** The pointers of an inode *)

Lemma checking_perm n ex ex' l s : ex ≡ₚ ex' -> checking n ex l s -> checking n ex' l s.
Proof. intros Hp [H1 H2 H3 H4]. split; [done..|]. by apply (blocks_perm _ _ _ ex). Qed.

(** What a check of pointers from file block [cur] on comes to: entries past
    the end are gone, and an entry reported unchanged is. *)
Record pointers_checked (n eof cur : Z) (es es' : list Z) (c : bool) : Prop := {
  ptr_length : length es' = length es;
  ptr_same : c = false -> es' = es;
  ptr_eof : forall k b, zlookup es' k = Some b -> eof <= cur + k -> b = 0;
  ptr_range : Forall (fun b => 0 <= b < n) es'
}.

Definition ibs_for (n eof cur : Z) (ibs : ibstate) : Prop :=
  ibs_volblocks ibs = n /\ ibs_fileblocks ibs = eof /\ ibs_curfileblock ibs = cur.

Lemma clp_check_direct n eof cur ex l ibs e s : checking n ex l s -> ibs_for n eof cur ibs -> 0 <= cur < 2 ^ 32 - 1 -> 0 <= e ->
  clp (check_direct ibs e) (fun r s' => let '(ibs', e', c) := r in
    but_maps s s' /\ checking n (filter in_use [e'] ++ ex) l s' /\ ibs_for n eof (cur + 1) ibs' /\
    (c = false -> e' = e) /\ (eof <= cur -> e' = 0) /\ 0 <= e' < n) s.
Proof.
  intros Hc (V1 & V2 & V3) Hcur He. pose proof (fits_small s (chk_fits _ _ _ _ Hc)) as [Hn _].
  rewrite (chk_size _ _ _ _ Hc) in Hn. unfold check_direct. rewrite V1, V2, V3.
  assert (ibs_for n eof (cur + 1) (ibs_advance 1 ibs)) as Hibs by (split_and!; cbn; [done|done|rewrite V3; apply wrap_small; lia]).
  destruct (Z.leb_spec n e) as [Hout|Hin].
  { clp_step. apply (clp_bad n ex l); [done|]. intros s' B1 C1. clp_steps. split_and!; try done; lia. }
  destruct (Z.eqb_spec e 0) as [->|Hne]; cbn [negb].
  { clp_steps. split_and!; try done; try lia. apply but_maps_refl. }
  destruct (Z.ltb_spec cur eof) as [Hlt|Hge].
  - clp_step. apply (clp_claim n ex l); [done|lia|]. intros s' B1 C1. clp_steps. split_and!; try done; try lia.
    by rewrite filter_cons_True by done.
  - clp_step. apply (clp_bad n ex l); [done|]. intros s1 B1 C1. clp_step. apply (clp_free n ex l); [done|lia|].
    intros s2 B2 C2. clp_steps. split_and!; try done; try lia. by apply (but_maps_trans s s1).
Qed.

Lemma clp_check_pointers n eof cur ex l ibs es s : checking n ex l s -> ibs_for n eof cur ibs ->
  0 <= cur -> cur + Z.of_nat (length es) < 2 ^ 32 -> Forall (fun b => 0 <= b) es ->
  clp (check_entries check_direct ibs es) (fun r s' => let '(ibs', es', c) := r in
    but_maps s s' /\ checking n (filter in_use es' ++ ex) l s' /\ ibs_for n eof (cur + Z.of_nat (length es)) ibs' /\
    pointers_checked n eof cur es es' c) s.
Proof.
  revert cur ex ibs s. induction es as [|e es IH]; intros cur ex ibs s Hc Hibs Hcur Hlen Hpos; cbn [check_entries].
  { clp_steps. split_and!; [apply but_maps_refl|done|by rewrite Z.add_0_r|].
    split; [done|done| |constructor]. intros k b Hk. apply zlookup_lt in Hk. cbn in Hk. lia. }
  apply Forall_cons in Hpos as [He Hpos]. cbn [length] in Hlen.
  clp_step. eapply clp_mono; [apply (clp_check_direct n eof cur ex l); [done|done|lia|done]|].
  intros [[ibs1 e1] c1] s1 (B1 & C1 & I1 & S1 & E1 & R1).
  clp_step. eapply clp_mono; [apply (IH (cur + 1) _ _ _ C1 I1); [lia|lia|done]|].
  intros [[ibs2 es2] c2] s2 (B2 & C2 & I2 & P2). clp_steps. split_and!.
  - by apply (but_maps_trans s s1).
  - revert C2. apply checking_perm. rewrite app_assoc. apply Permutation_app; [|done].
    change (e1 :: es2) with ([e1] ++ es2). rewrite filter_app. apply Permutation_app_comm.
  - cbn [length]. replace (cur + Z.of_nat (S (length es))) with (cur + 1 + Z.of_nat (length es)) by lia. done.
  - destruct P2 as [P1 P2 P3 P4]. split.
    + cbn. by rewrite P1.
    + intros [-> ->]%orb_false_iff. by rewrite S1, P2.
    + intros k b Hk Hle. pose proof (zlookup_lt _ _ _ Hk). destruct (decide (k = 0)) as [->|].
      * injection Hk as <-. apply E1. lia.
      * apply (P3 (k - 1)); [|lia]. unfold zlookup in *. revert Hk. bsolve.
        replace (Z.to_nat k) with (S (Z.to_nat (k - 1))) by lia. done.
    + by constructor.
Qed.

(** ** Transfers *)

(** The state after steps that wrote to blocks of [l] only, and found no new
    inode. *)
Record touched (l : list Z) (s s' : sfsck) : Prop := {
  touched_sb : ck_sb s' = ck_sb s;
  touched_inodes : inodes s' = inodes s;
  touched_else : forall b, 0 <= b -> b ∉ l -> dblock (ck_disk s') b = dblock (ck_disk s) b
}.

Lemma touched_refl l s : touched l s s.
Proof. by split. Qed.

Lemma touched_trans l1 l2 s1 s2 s3 : touched l1 s1 s2 -> touched l2 s2 s3 -> touched (l1 ++ l2) s1 s3.
Proof.
  intros [A1 A2 A3] [B1 B2 B3]. split; [congruence|congruence|]. intros b Hb Hn.
  rewrite B3, A3 by set_solver. done.
Qed.

Lemma touched_sub l1 l2 s s' : l1 ⊆ l2 -> touched l1 s s' -> touched l2 s s'.
Proof. intros Hs [H1 H2 H3]. split; [done|done|]. intros b Hb Hn. apply H3; [done|set_solver]. Qed.

Lemma but_maps_touched s s' : but_maps s s' -> touched [] s s'.
Proof. intros (E1 & E2 & E3)%but_maps_same. split; [done|done|]. intros b _ _. by rewrite E1. Qed.

Lemma checking_disk n ex l s d : checking n ex l s -> disk_ok d -> rd_nblocks d = rd_nblocks (ck_disk s) ->
  keeps (used_blocks n (ck_disk s) (in_ino <$> l)) (ck_disk s) d -> checking n ex l (set_ck_disk d s).
Proof.
  intros [H1 [V1 V2 V3] H3 H4] Hd Hn Hk. split; [done| | |].
  - split; cbn; [done| |done]. by rewrite Hn.
  - by destruct H3; split.
  - by apply (blocks_disk _ _ (ck_disk s)).
Qed.

Lemma clp_diskread n ex l b s (Q : list Z -> sfsck -> Prop) : checking n ex l s -> 0 <= b < n ->
  (forall s', touched [] s s' -> checking n ex l s' -> Q (dblock (ck_disk s) b) s') -> clp (on_ckdisk (diskread b)) Q s.
Proof.
  intros Hc Hb HQ. pose proof Hc as [H1 [V1 V2 V3] H3 H4]. apply (clp_wp _ _ (fun _ _ => False)).
  unfold on_ckdisk. wp_step. apply wp_diskread; [done|lia|]. intros d (D1 & D2 & D3) _.
  assert (forall x, dblock d x = dblock (ck_disk s) x) as Hsame by (intros x; unfold dblock; by rewrite D3).
  apply HQ; [by split|]. apply checking_disk; [done..|]. by intros x _.
Qed.

Lemma clp_diskwrite n ex l b data s (Q : unit -> sfsck -> Prop) : checking n ex l s -> 0 <= b < n ->
  b ∉ used_blocks n (ck_disk s) (in_ino <$> l) -> length data = Z.to_nat BLOCKSIZE ->
  (forall s', touched [b] s s' -> checking n ex l s' -> dblock (ck_disk s') b = map (wrap 8) data -> Q tt s') ->
  clp (on_ckdisk (diskwrite data b)) Q s.
Proof.
  intros Hc Hb Hnew Hl HQ. pose proof Hc as [H1 [V1 V2 V3] H3 H4]. apply (clp_wp _ _ (fun _ _ => False)).
  unfold on_ckdisk. wp_step. apply wp_diskwrite_block; [done|done|lia|]. intros d (D1 & D2 & D3 & D4 & D5) _.
  apply HQ; [|apply checking_disk; [done..|]|done].
  - split; [done|done|]. intros x Hx Hne. cbn. apply D5; [done|set_solver].
  - intros x Hx. apply D5; [|set_solver]. destruct H4 as [_ H4 _]. rewrite Forall_forall in H4. apply (H4 x). set_solver.
Qed.

Lemma used_range n ex l s b : checking n ex l s -> b ∈ ex ++ used_blocks n (ck_disk s) (in_ino <$> l) -> 0 <= b < n.
Proof. intros [_ _ _ [_ H2 _]] Hb. rewrite Forall_forall in H2. by apply (H2 b). Qed.

Lemma touched_used n ex l s s' : checking n ex l s -> touched [] s s' ->
  used_blocks n (ck_disk s') (in_ino <$> l) = used_blocks n (ck_disk s) (in_ino <$> l).
Proof.
  intros Hc T. apply used_keeps. intros b Hb. apply (touched_else _ _ _ T); [|apply not_elem_of_nil].
  apply (used_range n ex l s b Hc), elem_of_app. by right.
Qed.

Lemma extra_not_used n ex l s b : checking n ex l s -> b ∈ ex -> 0 <= b < n /\ b ∉ used_blocks n (ck_disk s) (in_ino <$> l).
Proof.
  intros [_ _ _ [H1 H2 _]] Hb. apply NoDup_app in H1 as (_ & H1 & _). split; [|by apply H1].
  rewrite Forall_forall in H2. apply (H2 b). set_solver.
Qed.

(** ** The indirect block *)

Lemma words_written es : Forall word_ok es -> length es = Z.to_nat SFS_DBPERIDB ->
  length (bytes_of_words es) = Z.to_nat BLOCKSIZE /\
  words_of_bytes (Z.to_nat SFS_DBPERIDB) (map (wrap 8) (bytes_of_words es)) = es.
Proof.
  intros Hw Hl. split; [rewrite bytes_of_words_length, Hl; done|].
  rewrite map_u8_id by apply bytes_of_words_ok. rewrite <- Hl. by apply words_of_bytes_words.
Qed.

Lemma words_read d b : disk_ok d ->
  length (words_of_bytes (Z.to_nat SFS_DBPERIDB) (dblock d b)) = Z.to_nat SFS_DBPERIDB /\
  Forall word_ok (words_of_bytes (Z.to_nat SFS_DBPERIDB) (dblock d b)).
Proof. intros Hd. split; [apply words_of_bytes_length|]. apply words_of_bytes_ok. by apply dblock_bytes. Qed.

Lemma all_zero_replicate es : forallb (fun e => e =? 0) es = true -> es = replicate (length es) 0.
Proof.
  induction es as [|e es IH]; [done|]. cbn. intros [H1%Z.eqb_eq H2]%andb_true_iff. by rewrite H1, <- IH.
Qed.

Lemma filter_zeros m : filter in_use (replicate m 0) = [].
Proof. induction m; [done|]. cbn [replicate]. rewrite filter_cons_False; [done|]. unfold in_use; lia. Qed.

Lemma zlookup_replicate_inv {A} m (x b : A) k : zlookup (replicate m x) k = Some b -> b = x.
Proof. unfold zlookup. destruct (0 <=? k); [|done]. intros [-> _]%lookup_replicate. done. Qed.

(** What the check of the indirect block comes to. *)
Definition indirect_checked (n eof cur : Z) (d : rawdisk) (ie ie' : Z) (d' : rawdisk) (c : bool) : Prop :=
  (c = false -> ie' = ie) /\ 0 <= ie' < n /\
  (forall k b, zlookup (idwords_at d' ie') k = Some b -> eof <= cur + k -> b = 0).

Lemma clp_check_indirect n eof cur ex l ibs ie s : checking n ex l s -> ibs_for n eof cur ibs ->
  0 <= cur < 2 ^ 31 -> 0 <= ie ->
  clp (check_indirect_block 1 ibs ie) (fun r s' => let '(ibs', ie', c) := r in
    touched [ie] s s' /\ checking n (filter in_use (ie' :: idwords_at (ck_disk s') ie') ++ ex) l s' /\
    indirect_checked n eof cur (ck_disk s) ie ie' (ck_disk s') c /\
    keeps (ex ++ used_blocks n (ck_disk s) (in_ino <$> l)) (ck_disk s) (ck_disk s')) s.
Proof.
  intros Hc Hibs Hcur Hie. pose proof (chk_fits _ _ _ _ Hc) as Hfit. pose proof (fits_small s Hfit) as [Hn _].
  rewrite (chk_size _ _ _ _ Hc) in Hn. cbn [check_indirect_block]. pose proof Hibs as (V1 & V2 & V3). rewrite V1.
  assert (forall k b, zlookup (idwords_at (ck_disk s) 0) k = Some b -> eof <= cur + k -> b = 0) as Hz.
  { intros k b Hk _. by apply zlookup_replicate_inv in Hk. }
  assert (filter in_use (0 :: idwords_at (ck_disk s) 0) ++ ex = ex) as Hf0.
  { change (0 :: idwords_at (ck_disk s) 0) with (replicate 129 0). by rewrite filter_zeros. }
  destruct (Z.ltb_spec 0 ie) as [Hpos|Hpos]; cbn [andb].
  2: { replace ie with 0 by lia. destruct (Z.leb_spec n 0); [lia|]. clp_steps.
       unfold indirect_checked. split_and!; [apply touched_refl|by rewrite Hf0|done|lia|lia|done|done]. }
  destruct (Z.ltb_spec ie n) as [Hlt|Hge].
  2: { destruct (Z.leb_spec n ie); [|lia]. clp_step. apply (clp_bad n ex l); [done|]. intros s' B1 C1. clp_steps.
       destruct (but_maps_same _ _ B1) as (E1 & _). rewrite E1.
       unfold indirect_checked. split_and!; [|by rewrite Hf0|done|lia|lia|done|done]. apply (touched_sub []); [apply list_subseteq_nil|]. by apply but_maps_touched. }
  unfold sfs_readindirect. clp_step. clp_step. apply (clp_diskread n ex l); [done|lia|]. intros s1 T1 C1. clp_steps.
  set (es := words_of_bytes (Z.to_nat SFS_DBPERIDB) (dblock (ck_disk s) ie)).
  destruct (words_read (ck_disk s) ie (fits_disk s Hfit)) as [Les Wes]. fold es in Les, Wes.
  apply (clp_claim n ex l); [done|lia|]. intros s2 B2 C2.
  destruct (but_maps_same _ _ B2) as (E2 & _).
  clp_step. eapply clp_mono; [apply (clp_check_pointers n eof cur (ie :: ex) l); [done|done|lia|rewrite Les; change (Z.of_nat (Z.to_nat SFS_DBPERIDB)) with 128; lia|]|].
  { apply (Forall_impl _ _ _ Wes). intros x Hx. apply Hx. }
  intros [[ibs3 es3] c3] s3 (B3 & C3 & I3 & P3).
  destruct (but_maps_same _ _ B3) as (E3 & _).
  assert (touched [] s s3) as T3.
  { change (@nil Z) with (@nil Z ++ []). apply (touched_trans _ _ s s1); [done|].
    apply but_maps_touched. by apply (but_maps_trans s1 s2). }
  assert (ie ∉ ex ++ used_blocks n (ck_disk s) (in_ino <$> l)) as Hie_ex.
  { destruct C2 as [_ _ _ [C2 _ _]]. rewrite E2, (touched_used n ex l s s1 Hc T1) in C2.
    by apply NoDup_cons in C2 as [C2 _]. }
  assert (ie ∈ filter in_use es3 ++ ie :: ex) as Hin by (apply elem_of_app; right; apply list_elem_of_here).
  assert (forall s', touched [ie] s s' ->
    keeps (ex ++ used_blocks n (ck_disk s) (in_ino <$> l)) (ck_disk s) (ck_disk s')) as Hkeep.
  { intros s' T b Hb. apply (touched_else _ _ _ T); [by apply (used_range n ex l s b Hc)|].
    apply not_in_one. congruence. }
  destruct (forallb (fun e => e =? 0) es3) eqn:Hall.
  - clp_step. apply (clp_bad n (filter in_use es3 ++ ie :: ex) l); [done|]. intros s4 B4 C4. clp_step.
    apply (clp_free n (filter in_use es3 ++ ie :: ex) l); [done|lia|]. intros s5 B5 C5. clp_steps.
    destruct (but_maps_same _ _ (but_maps_trans _ _ _ B4 B5)) as (E5 & _).
    assert (touched [ie] s s5) as T5.
    { apply (touched_sub ([] ++ [])); [apply list_subseteq_nil|]. apply (touched_trans _ _ s s3); [done|].
      apply but_maps_touched. by apply (but_maps_trans s3 s4). }
    unfold indirect_checked. split_and!; [done|rewrite E5|done|lia|lia| |by apply Hkeep].
    + change (0 :: idwords_at (ck_disk s3) 0) with (replicate 129 0). rewrite filter_zeros.
      destruct C5 as [K1 K2 K3 K4]. split; [done..|]. cbn [app]. rewrite E5 in K4 |- *.
      apply (blocks_drop _ _ _ (filter in_use es3 ++ [ie])). by rewrite <- app_assoc.
    + intros k b Hk _. rewrite E5 in Hk. by apply zlookup_replicate_inv in Hk.
  - destruct P3 as [P1 P2 P3 P4].
    assert (forall s4, touched [ie] s3 s4 -> checking n (filter in_use es3 ++ ie :: ex) l s4 -> idwords_at (ck_disk s4) ie = es3 ->
      touched [ie] s s4 /\ checking n (filter in_use (ie :: idwords_at (ck_disk s4) ie) ++ ex) l s4 /\
      indirect_checked n eof cur (ck_disk s) ie ie (ck_disk s4) false /\
      keeps (ex ++ used_blocks n (ck_disk s) (in_ino <$> l)) (ck_disk s) (ck_disk s4)) as Hdone.
    { intros s4 T4 C4 H4. rewrite H4. unfold indirect_checked. rewrite H4.
      assert (touched [ie] s s4) as T5 by (change [ie] with ([] ++ [ie]); by apply (touched_trans _ _ s s3)).
      split_and!; [done| |done|lia|lia|done|by apply Hkeep].
      - revert C4. apply checking_perm. rewrite filter_cons_True by (unfold in_use; lia).
        cbn [app]. symmetry. apply Permutation_middle. }
    clp_step. destruct c3; cbn [when].
    + unfold sfs_writeindirect. destruct (extra_not_used n _ l s3 ie C3 Hin) as [_ Hnot].
      destruct (words_written es3) as [W1 W2]; [|by rewrite P1|].
      { apply (Forall_impl _ _ _ P4). unfold word_ok. lia. }
      apply (clp_diskwrite n (filter in_use es3 ++ ie :: ex) l); [done|lia|done|done|].
      intros s4 T4 C4 D4. clp_steps. apply Hdone; [done|done|].
      unfold idwords_at. rewrite D4, W2. by destruct (Z.eqb_spec ie 0); [lia|].
    + clp_steps. apply Hdone; [apply touched_refl|done|]. unfold idwords_at. destruct (Z.eqb_spec ie 0); [lia|].
      rewrite (touched_else _ _ _ T3) by (lia || apply not_elem_of_nil). fold es. by rewrite P2.
Qed.

(** ** The check of one inode *)

Definition same_header (i i' : sfs_dinode) : Prop :=
  sfi_size i' = sfi_size i /\ sfi_type i' = sfi_type i /\ sfi_linkcount i' = sfi_linkcount i /\ sfi_waste i' = sfi_waste i.

(** No pointer past the end. *)
Definition ends_at_eof (d : rawdisk) (i : sfs_dinode) : Prop :=
  forall k b, zlookup (file_blocks d i) k = Some b -> eof_block i <= k -> b = 0.

Lemma blocks_reorder (ind : Z) (direct words ex : list Z) :
  filter in_use (ind :: words) ++ filter in_use direct ++ ex ≡ₚ filter in_use (ind :: direct ++ words) ++ ex.
Proof.
  rewrite app_assoc. apply Permutation_app; [|done].
  change (ind :: words) with ([ind] ++ words). change (ind :: direct ++ words) with ([ind] ++ direct ++ words).
  rewrite !filter_app, <- app_assoc. apply Permutation_app; [done|]. apply Permutation_app_comm.
Qed.

Lemma clp_check_inode_blocks n ex l ino sfi isdir s : checking n ex l s -> dinode_shape sfi ->
  clp (check_inode_blocks ino sfi isdir) (fun r s' => let '(sfi', c) := r in
    touched [sfi_indirect sfi] s s' /\ checking n (inode_blocks (ck_disk s') sfi' ++ ex) l s' /\
    same_header sfi sfi' /\ dinode_shape sfi' /\ (c = false -> sfi' = sfi) /\
    ends_at_eof (ck_disk s') sfi' /\
    keeps (ex ++ used_blocks n (ck_disk s) (in_ino <$> l)) (ck_disk s) (ck_disk s')) s.
Proof.
  intros Hc [S1 S2 S3 [S4 S4'] S5 S6]. pose proof (fits_small s (chk_fits _ _ _ _ Hc)) as [Hn _].
  rewrite (chk_size _ _ _ _ Hc) in Hn. unfold check_inode_blocks, sb_totalblocks. clp_steps.
  rewrite (chk_size _ _ _ _ Hc). set (eof := SFS_ROUNDUP (sfi_size sfi) SFS_BLOCKSIZE / SFS_BLOCKSIZE).
  eapply clp_mono; [apply (clp_check_pointers n eof 0 ex l); [done|done|lia|rewrite S4; cbn; lia|]|].
  { apply (Forall_impl _ _ _ S4'). intros x Hx. apply Hx. }
  intros [[ibs1 direct] c1] s1 (B1 & C1 & I1 & P1). destruct (but_maps_same _ _ B1) as (E1 & _).
  rewrite S4 in I1. change (0 + Z.of_nat 15) with 15 in I1.
  clp_step. eapply clp_mono; [apply (clp_check_indirect n eof 15 (filter in_use direct ++ ex) l _ _ _ C1 I1); [lia|apply S5]|].
  intros [[ibs2 ind] c2] s2 (T2 & C2 & (X1 & X2 & X3) & K2).
  clp_step. eapply clp_when_bad; [done|]. intros s3 B3 C3. clp_steps. destruct (but_maps_same _ _ B3) as (E3 & _).
  destruct P1 as [P1 P2 P3 P4]. rewrite S4 in P1. rewrite E1 in K2. split_and!.
  - apply (touched_sub ([] ++ [sfi_indirect sfi] ++ [])); [by rewrite app_nil_r|].
    apply (touched_trans _ _ s s1); [by apply but_maps_touched|]. apply (touched_trans _ _ s1 s2); [done|by apply but_maps_touched].
  - rewrite E3. unfold inode_blocks, file_blocks. cbn [sfi_indirect sfi_direct]. revert C3. apply checking_perm, blocks_reorder.
  - done.
  - split; cbn [sfi_size sfi_type sfi_linkcount sfi_direct sfi_indirect sfi_waste]; try done.
    + split; [done|]. apply (Forall_impl _ _ _ P4). unfold word_ok. lia.
    + unfold word_ok. lia.
  - intros [H1 H2]%orb_false_iff. rewrite P2, X1 by done. by destruct sfi.
  - rewrite E3. intros k b Hk Hle. unfold file_blocks in Hk. cbn [sfi_direct sfi_indirect] in Hk.
    change (eof_block _) with eof in Hle. pose proof (zlookup_lt _ _ _ Hk) as Hkr. unfold zlookup in Hk. revert Hk.
    destruct (Z.leb_spec 0 k); [|lia]. destruct (decide (k < 15)) as [Hk15|Hk15].
    + rewrite lookup_app_l by lia. intros Hk. apply (P3 k); [|lia]. unfold zlookup. by destruct (Z.leb_spec 0 k); [|lia].
    + rewrite lookup_app_r by lia. intros Hk. apply (X3 (k - 15)); [|lia]. unfold zlookup. destruct (Z.leb_spec 0 (k - 15)); [|lia].
      rewrite <- Hk. f_equal. lia.
  - rewrite E3. rewrite <- app_assoc in K2. by apply keeps_app in K2 as [_ K2].
Qed.

(** [inode_add] changes the table only. *)
Record table_grown (new : list inodeinfo) (s s' : sfsck) : Prop := {
  tg_disk : ck_disk s' = ck_disk s;
  tg_sb : ck_sb s' = ck_sb s;
  tg_maps : freemapdata s' = freemapdata s /\ tofreedata s' = tofreedata s;
  tg_inodes : inodes s' = inodes s ++ new
}.

Lemma checking_table n ex l new s s' : table_grown new s s' -> checking n ex l s -> checking n ex l s'.
Proof.
  intros [T1 T2 [T3 T4] T5] [H1 [V1 V2 V3] [M1 M2 M3] H4]. split.
  - by rewrite T2.
  - split; rewrite ?T1, ?T2, ?T3; done.
  - split; unfold map_bits in *; rewrite ?T3, ?T4; done.
  - by rewrite T1, T3.
Qed.

Lemma inode_search_spec l ino type s (Q : bool -> sfsck -> Prop) :
  (ino ∈ (in_ino <$> l) -> Q true s) -> (ino ∉ (in_ino <$> l) -> Q false s) -> clp (inode_search l ino type) Q s.
Proof.
  induction l as [|e l IH]; intros H1 H2; cbn [inode_search].
  { apply clp_ret, H2. apply not_elem_of_nil. }
  destruct (Z.eqb_spec (in_ino e) ino) as [<-|Hne].
  - clp_steps. apply H1. apply list_elem_of_here.
  - apply IH.
    + intros H. apply H1. by apply list_elem_of_further.
    + intros H. apply H2. apply not_elem_of_cons. split; [congruence|done].
Qed.

Lemma clp_domalloc s (Q : unit -> sfsck -> Prop) : (forall s', table_grown [] s s' -> Q tt s') -> clp domalloc Q s.
Proof.
  intros HQ. unfold clp, domalloc, bind, get. destruct (mallocs s) as [|[] ms]; [| |done]; intros _; apply HQ;
    (split; try done; by rewrite app_nil_r).
Qed.

Lemma table_grown_trans a b s1 s2 s3 : table_grown a s1 s2 -> table_grown b s2 s3 -> table_grown (a ++ b) s1 s3.
Proof.
  intros [A1 A2 [A3 A3'] A4] [B1 B2 [B3 B3'] B4]. split; [congruence|congruence|split; congruence|].
  by rewrite B4, A4, app_assoc.
Qed.

Lemma clp_inode_add ino type s (Q : bool -> sfsck -> Prop) :
  (ino ∈ (in_ino <$> inodes s) -> Q true s) ->
  (forall s', ino ∉ (in_ino <$> inodes s) -> table_grown [InodeInfo ino 0 false type] s s' -> Q false s') ->
  clp (inode_add ino type) Q s.
Proof.
  intros H1 H2. unfold inode_add. clp_steps. apply inode_search_spec; [intros H; by clp_steps; apply H1|].
  intros Hno. clp_step. unfold inode_addtable. clp_steps.
  set (m := if _ =? _ then domalloc else ret tt).
  apply (clp_mono _ (fun _ s1 => table_grown [] s s1)).
  { subst m. destruct (_ =? _); [by apply clp_domalloc|]. apply clp_ret. split; try done. by rewrite app_nil_r. }
  intros [] s1 [T1 T2 T3 T4]. rewrite app_nil_r in T4. clp_steps. apply H2; [done|].
  split; cbn; [done|done|done|by rewrite T4].
Qed.

(** ** Checking a volume: pass 1

    The consistency of [blocks_ok] as an invariant of the walk of pass 1:
    every inode found joins the table with its blocks ([clp_pass1_inode]),
    and what was found before is left alone ([extends]). *)

Definition inos (s : sfsck) : list Z := in_ino <$> inodes s.
Definition used (n : Z) (s : sfsck) : list Z := used_blocks n (ck_disk s) (inos s).

Definition tables_ok (n : Z) (s : sfsck) : Prop := checking n [] (inodes s) s.

(** More inodes were found; the blocks in use before are unchanged. *)
Record extends (n : Z) (s s' : sfsck) : Prop := {
  ext_sb : ck_sb s' = ck_sb s;
  ext_inodes : exists new, inodes s' = inodes s ++ new;
  ext_keeps : keeps (used n s) (ck_disk s) (ck_disk s')
}.

Lemma extends_refl n s : extends n s s.
Proof. split; [done|exists []; by rewrite app_nil_r|done]. Qed.

Lemma keeps_mono l l' d d' : l ⊆ l' -> keeps l' d d' -> keeps l d d'.
Proof. intros H Hk b Hb. by apply Hk, H. Qed.

Lemma used_grows n s s' : extends n s s' -> used n s ⊆ used n s'.
Proof.
  intros [_ [new Hnew] Hk]. unfold used, inos. rewrite Hnew, fmap_app. unfold used_blocks.
  rewrite map_app, concat_app.
  assert (map (claimed (ck_disk s')) (in_ino <$> inodes s) = map (claimed (ck_disk s)) (in_ino <$> inodes s)) as ->.
  { apply claimed_keeps_all. unfold used, used_blocks in Hk. by apply keeps_app in Hk as [_ Hk]. }
  intros b. rewrite !elem_of_app. tauto.
Qed.

Lemma extends_trans n s1 s2 s3 : extends n s1 s2 -> extends n s2 s3 -> extends n s1 s3.
Proof.
  intros H1 H2. pose proof (used_grows _ _ _ H1) as Hsub. destruct H1 as [A1 [x A2] A3], H2 as [B1 [y B2] B3].
  split; [congruence|exists (x ++ y); by rewrite B2, A2, app_assoc|].
  intros b Hb. rewrite B3 by by apply Hsub. by apply A3.
Qed.

(** Steps that write nothing and find nothing. *)
Lemma extends_touched n s s' : tables_ok n s -> touched [] s s' -> extends n s s'.
Proof.
  intros Hc T. split; [apply (touched_sb _ _ _ T)|exists []; rewrite app_nil_r; apply (touched_inodes _ _ _ T)|].
  intros b Hb. apply (touched_else _ _ _ T); [|apply not_elem_of_nil]. by apply (used_range n [] (inodes s) s b Hc).
Qed.

Lemma tables_touched n ex s s' : checking n ex (inodes s) s' -> touched [] s s' -> checking n ex (inodes s') s'.
Proof. intros Hc T. by rewrite (touched_inodes _ _ _ T). Qed.

(** ** One inode *)

Lemma checkzeroed_same ws : negb (forallb (fun w => w =? 0) ws) = false -> map (fun _ => 0) ws = ws.
Proof.
  intros H%negb_false_iff. rewrite (all_zero_replicate ws H) at 2. clear H.
  induction ws as [|w ws IH]; [done|]. cbn. by rewrite IH.
Qed.

Lemma zero_waste_shape sfi : dinode_shape sfi ->
  dinode_shape (Dinode (sfi_size sfi) (sfi_type sfi) (sfi_linkcount sfi) (sfi_direct sfi) (sfi_indirect sfi)
    (map (fun _ => 0) (sfi_waste sfi))).
Proof.
  intros [S1 S2 S3 S4 S5 [S6 S6']]. split; try done. cbn. rewrite length_map. split; [done|].
  apply Forall_forall. by intros x (y & -> & _)%list_elem_of_fmap.
Qed.

Lemma inode_written sfi : dinode_shape sfi ->
  length (bytes_of_dinode sfi) = Z.to_nat BLOCKSIZE /\ dinode_of_bytes (map (wrap 8) (bytes_of_dinode sfi)) = sfi.
Proof.
  intros H. rewrite map_u8_id by apply bytes_of_dinode_ok. destruct (dinode_roundtrip sfi H) as [H1 H2]. done.
Qed.

(** The indirect block of the inode is not the inode itself. *)
Lemma idwords_kept n ex l s s' ino sfi : checking n (inode_blocks (ck_disk s) sfi ++ ino :: ex) l s -> touched [ino] s s' ->
  idwords_at (ck_disk s') (sfi_indirect sfi) = idwords_at (ck_disk s) (sfi_indirect sfi).
Proof.
  intros Hc T. unfold idwords_at. destruct (Z.eqb_spec (sfi_indirect sfi) 0) as [|Hne]; [done|].
  assert (sfi_indirect sfi ∈ inode_blocks (ck_disk s) sfi) as Hin.
  { apply list_elem_of_filter. split; [done|]. apply list_elem_of_here. }
  rewrite (touched_else _ _ _ T); [done| |].
  - apply (used_range n _ l s _ Hc). rewrite <- app_assoc. apply elem_of_app. by left.
  - apply not_in_one. intros Heq. destruct Hc as [_ _ _ [Hc _ _]]. rewrite <- app_assoc in Hc.
    apply NoDup_app in Hc as (_ & Hc & _). apply (Hc _ Hin). rewrite Heq. cbn [app]. apply list_elem_of_here.
Qed.

(** What the caller is told: the inode was seen before, or it is new and is
    on the disk as returned. *)
Definition inode_found (ino : Z) (sfi : sfs_dinode) (s : sfsck) (r : bool * sfs_dinode) (s' : sfsck) : Prop :=
  if fst r then inodes s' = inodes s /\ ino ∈ inos s
  else inodes s' = inodes s ++ [InodeInfo ino 0 false (sfi_type sfi)] /\ (ino ∉ inos s) /\
    inode_at (ck_disk s') ino = snd r /\ sfi_size (snd r) = sfi_size sfi /\ dinode_shape (snd r).

(** The last step: the inode, checked and on the disk, joins the table. *)
Lemma inode_joins n s s' ino sfi sfi' ex :
  tables_ok n s -> checking n (inode_blocks (ck_disk s') sfi' ++ [ino]) (inodes s) s' ->
  ck_sb s' = ck_sb s -> inodes s' = inodes s ++ [InodeInfo ino 0 false (sfi_type sfi)] -> ino ∉ inos s ->
  inode_at (ck_disk s') ino = sfi' -> same_header ex sfi' -> sfi_size ex = sfi_size sfi -> sfi_type ex = sfi_type sfi ->
  sfi_type sfi = SFS_TYPE_FILE \/ sfi_type sfi = SFS_TYPE_DIR -> dinode_shape sfi' ->
  ends_at_eof (ck_disk s') sfi' -> keeps (used n s) (ck_disk s) (ck_disk s') ->
  tables_ok n s' /\ extends n s s' /\ inode_found ino sfi s (false, sfi') s'.
Proof.
  intros Hs [C1 C2 C3 C4] Hsb Hino Hnew Hat (Z1 & Z2 & _) Hsz Hty Htype Hsh Heof Hk. split_and!.
  - split; [done|done|done|]. rewrite Hino. eapply blocks_add; [exact C4| |].
    + unfold claimed. cbn [in_ino]. rewrite Hat. rewrite Permutation_app_comm. done.
    + split; cbn [in_ino in_type]; rewrite Hat; [|exact Heof]. split; [congruence|done].
  - split; [done|by eexists|done].
  - unfold inode_found. cbn [fst snd]. split_and!; try done. congruence.
Qed.

Lemma clp_pass1_inode n ino sfi c s : tables_ok n s -> 0 <= ino < n -> dinode_shape sfi ->
  sfi_type sfi = SFS_TYPE_FILE \/ sfi_type sfi = SFS_TYPE_DIR ->
  (c = false -> sfi = inode_at (ck_disk s) ino) ->
  clp (pass1_inode ino sfi c) (fun r s' => tables_ok n s' /\ extends n s s' /\ inode_found ino sfi s r s') s.
Proof.
  intros Hs Hr Hsh Hty Hat. unfold pass1_inode. clp_step. apply clp_inode_add.
  { intros Hin. clp_steps. split_and!; [done|apply extends_refl|done]. }
  intros s1 Hnew T1. pose proof (checking_table _ _ _ _ _ _ T1 Hs) as C1.
  clp_step. apply (clp_claim n [] (inodes s)); [done|done|]. intros s2 B2 C2.
  destruct (but_maps_same _ _ B2) as (E2 & F2 & G2). unfold checkzeroed. set (c1 := negb _).
  clp_step. apply (clp_when_bad n [ino] (inodes s)); [done|]. intros s3 B3 C3.
  destruct (but_maps_same _ _ B3) as (E3 & F3 & G3).
  set (sfi1 := Dinode _ _ _ _ _ _). clp_step.
  eapply clp_mono; [apply (clp_check_inode_blocks n [ino] (inodes s)); [done|by apply zero_waste_shape]|].
  intros [sfi2 c2] s4 (T4 & C4 & H4 & S4 & X4 & Y4 & K4).
  assert (ck_disk s3 = ck_disk s) as D3 by (rewrite E3, E2; apply T1). rewrite D3 in K4.
  apply keeps_app in K4 as [K4 K4'].
  assert (ck_sb s4 = ck_sb s) as SB4 by (rewrite (touched_sb _ _ _ T4), F3, F2; apply T1).
  assert (inodes s4 = inodes s ++ [InodeInfo ino 0 false (sfi_type sfi)]) as I4
    by (rewrite (touched_inodes _ _ _ T4), G3, G2; apply T1).
  clp_step. destruct (c || c1 || c2) eqn:Hch; cbn [when].
  - destruct (inode_written sfi2 S4) as [W1 W2].
    destruct (extra_not_used n _ (inodes s) s4 ino C4) as [_ Hnot]; [apply elem_of_app; right; apply list_elem_of_here|].
    apply (clp_diskwrite n _ (inodes s) ino (bytes_of_dinode sfi2) s4 _ C4); [done|done|done|].
    intros s5 T5 C5 D5. clp_steps. pose proof (idwords_kept _ _ _ _ _ _ _ C4 T5) as Hid.
    assert (file_blocks (ck_disk s5) sfi2 = file_blocks (ck_disk s4) sfi2) as Hfb by (unfold file_blocks; by rewrite Hid).
    apply (inode_joins n s s5 ino sfi sfi2 sfi1); [done| | | |done| |done|reflexivity|reflexivity|done|done| |].
    + unfold inode_blocks in *. by rewrite Hfb.
    + by rewrite (touched_sb _ _ _ T5).
    + by rewrite (touched_inodes _ _ _ T5).
    + unfold inode_at. by rewrite D5.
    + unfold ends_at_eof in *. by rewrite Hfb.
    + intros b Hb. rewrite <- K4' by done. apply (touched_else _ _ _ T5); [by apply (used_range n [] (inodes s) s b Hs)|].
      apply not_in_one. intros ->. apply Hnot. by rewrite (used_keeps n (ck_disk s)).
  - apply orb_false_iff in Hch as [[Hc Hc1]%orb_false_iff Hc2]. clp_steps.
    apply (inode_joins n s s4 ino sfi sfi2 sfi1); try done.
    rewrite X4 by done. unfold inode_at. rewrite K4 by apply list_elem_of_here. fold (inode_at (ck_disk s) ino).
    rewrite <- Hat by done. subst sfi1. rewrite (checkzeroed_same (sfi_waste sfi)) by done. by destruct sfi.
Qed.
