(* ===== verification/SfsckDirs.v ===== *)
(** * Checking a volume: directories

    The entries of a directory as they are on the disk ([dir_slot]), read and
    written a block at a time by [sfs_readdir] and [sfs_writedir], and what a
    write of a directory leaves alone. *)

From S2P Require Import Prelude Bitmap Vnode SfsDisk Printf PrintfSpec CString CStringSpec Qsort SbinDisk Mksfs Sfsck.
From S2P Require Import SfsckTables SfsckSound.

(** ** Directory contents *)

Definition file_block (d : rawdisk) (i : sfs_dinode) (k : Z) : Z := default 0 (zlookup (file_blocks d i) k).

Definition dirblock_at (d : rawdisk) (b : Z) : list sfs_direntry :=
  if b =? 0 then replicate (Z.to_nat atonce) empty_direntry
  else direntries_of_bytes (Z.to_nat atonce) (dblock d b).

(** Entry [j] of the directory. *)
Definition dir_slot (d : rawdisk) (i : sfs_dinode) (j : Z) : option sfs_direntry :=
  zlookup (dirblock_at d (file_block d i (j / atonce))) (j mod atonce).

Definition dir_slots (i : sfs_dinode) : Z := sfi_size i / sizeof_direntry.

(** The inode is one of the table. *)
Definition is_inode (s : sfsck) (ino : Z) (sfi : sfs_dinode) : Prop :=
  ino ∈ inos s /\ inode_at (ck_disk s) ino = sfi /\ dinode_shape sfi.

Lemma claimed_used n d l ino b : ino ∈ l -> b ∈ claimed d ino -> b ∈ used_blocks n d l.
Proof.
  intros Hi Hb. apply elem_of_app. right. apply list_elem_of_In, in_concat. exists (claimed d ino).
  split; [by apply in_map, list_elem_of_In|by apply list_elem_of_In].
Qed.

Lemma file_block_in d i k : file_block d i k <> 0 -> file_block d i k ∈ filter in_use (file_blocks d i).
Proof.
  unfold file_block. destruct (zlookup (file_blocks d i) k) as [b|] eqn:Hk; cbn; [|done].
  intros Hne. apply list_elem_of_filter. split; [done|]. by apply zlookup_in in Hk.
Qed.

Lemma file_block_claimed d i k : file_block d i k <> 0 -> file_block d i k ∈ inode_blocks d i.
Proof.
  intros H%file_block_in. unfold inode_blocks. apply list_elem_of_filter in H as [H1 H2].
  apply list_elem_of_filter. split; [done|]. by apply list_elem_of_further.
Qed.

Lemma is_inode_block n s ino sfi b : tables_ok n s -> is_inode s ino sfi -> b ∈ inode_blocks (ck_disk s) sfi ->
  b ∈ used n s /\ 0 <= b < n.
Proof.
  intros Hc (Hi & Hat & _) Hb. assert (b ∈ used n s) as Hu.
  { apply (claimed_used n _ _ ino); [done|]. unfold claimed. rewrite Hat. by apply list_elem_of_further. }
  split; [done|]. by apply (used_range n [] (inodes s) s b Hc).
Qed.

Lemma file_block_range n s ino sfi k : tables_ok n s -> is_inode s ino sfi -> 0 <= file_block (ck_disk s) sfi k < n.
Proof.
  intros Hc Hi. destruct (decide (file_block (ck_disk s) sfi k = 0)) as [->|Hne].
  - pose proof (fits_small s (chk_fits _ _ _ _ Hc)) as [Hn _]. rewrite (chk_size _ _ _ _ Hc) in Hn. lia.
  - apply (is_inode_block n s ino sfi _ Hc Hi). by apply file_block_claimed.
Qed.

Lemma indirect_range n s ino sfi : tables_ok n s -> is_inode s ino sfi -> 0 <= sfi_indirect sfi < n.
Proof.
  intros Hc Hi. destruct (decide (sfi_indirect sfi = 0)) as [->|Hne].
  - pose proof (fits_small s (chk_fits _ _ _ _ Hc)) as [Hn _]. rewrite (chk_size _ _ _ _ Hc) in Hn. lia.
  - apply (is_inode_block n s ino sfi _ Hc Hi). apply list_elem_of_filter. split; [done|]. apply list_elem_of_here.
Qed.

(** Reading moves nothing. *)
Lemma touched_nil_at s s' b : touched [] s s' -> 0 <= b -> dblock (ck_disk s') b = dblock (ck_disk s) b.
Proof. intros T Hb. apply (touched_else _ _ _ T); [done|apply not_elem_of_nil]. Qed.

Lemma touched_nil_trans s1 s2 s3 : touched [] s1 s2 -> touched [] s2 s3 -> touched [] s1 s3.
Proof. apply (touched_trans [] []). Qed.

Lemma file_block_kept s s' i k : touched [] s s' -> 0 <= sfi_indirect i -> file_block (ck_disk s') i k = file_block (ck_disk s) i k.
Proof.
  intros T Hi. unfold file_block, file_blocks, idwords_at. destruct (sfi_indirect i =? 0); [done|].
  by rewrite (touched_nil_at _ _ _ T).
Qed.

Lemma tables_read n s s' : checking n [] (inodes s) s' -> touched [] s s' -> tables_ok n s'.
Proof. apply tables_touched. Qed.

Lemma is_inode_kept n s s' ino sfi : tables_ok n s -> touched [] s s' -> is_inode s ino sfi -> is_inode s' ino sfi.
Proof.
  intros Hc T (H1 & H2 & H3). unfold is_inode, inos, inode_at in *. rewrite (touched_inodes _ _ _ T).
  split_and!; [done| |done]. rewrite (touched_nil_at _ _ _ T); [done|].
  apply (used_range n [] (inodes s) s ino Hc). apply (claimed_used n _ _ ino); [done|]. apply list_elem_of_here.
Qed.

Lemma clp_bmap n s ino sfi k (Q : Z -> sfsck -> Prop) : tables_ok n s -> is_inode s ino sfi -> 0 <= k ->
  (forall s', touched [] s s' -> tables_ok n s' -> is_inode s' ino sfi -> Q (file_block (ck_disk s) sfi k) s') ->
  clp (bmap sfi k) Q s.
Proof.
  intros Hc Hi Hk HQ. pose proof (indirect_range n s ino sfi Hc Hi) as Hir. pose proof Hi as (_ & _ & [_ _ _ [L _] _ _]).
  unfold bmap. change INOMAX_D with 15. change INOMAX_I with 143. change INOMAX_II with 143. change INOMAX_III with 143.
  assert (forall b, file_block (ck_disk s) sfi k = b -> clp (ret b) Q s) as Hret.
  { intros b <-. apply clp_ret, HQ; [apply touched_refl|done|done]. }
  assert (length (idwords_at (ck_disk s) (sfi_indirect sfi)) = 128%nat) as Lid.
  { unfold idwords_at. destruct (_ =? 0); [by rewrite length_replicate|]. by rewrite words_of_bytes_length. }
  destruct (Z.ltb_spec k 15) as [H15|H15].
  { apply clp_oob. intros b Hb. assert (file_block (ck_disk s) sfi k = b) as <-.
    { unfold file_block, file_blocks, zlookup in *. destruct (0 <=? k); [|done]. by rewrite lookup_app_l, Hb by lia. }
    apply HQ; [apply touched_refl|done|done]. }
  destruct (Z.ltb_spec k 143) as [H143|H143].
  - assert (zlookup (file_blocks (ck_disk s) sfi) k = zlookup (idwords_at (ck_disk s) (sfi_indirect sfi)) (k - 15)) as Hfb.
    { unfold zlookup, file_blocks. destruct (Z.leb_spec 0 k), (Z.leb_spec 0 (k - 15)); try lia. rewrite lookup_app_r by lia. f_equal. lia. }
    change RANGE_I with 128. rewrite Z.mod_small by lia. cbn [ibmap]. unfold RANGE_D. change (1 <? 1) with false. cbv iota.
    destruct (Z.eqb_spec (sfi_indirect sfi) 0) as [E0|Hne].
    + apply Hret. unfold file_block. rewrite Hfb. unfold idwords_at. rewrite E0. cbn [Z.eqb].
      rewrite zlookup_replicate; [done|]. change (Z.of_nat (Z.to_nat SFS_DBPERIDB)) with 128. lia.
    + unfold sfs_readindirect. clp_step. clp_step. apply (clp_diskread n [] (inodes s)); [done|done|]. intros s1 T1 C1. clp_steps.
      apply clp_oob. intros b Hb. assert (file_block (ck_disk s) sfi k = b) as <-.
      { unfold file_block. rewrite Hfb. unfold idwords_at. destruct (Z.eqb_spec (sfi_indirect sfi) 0); [done|].
        by rewrite Hb. }
      apply HQ; [done|by apply (tables_read n s)|by apply (is_inode_kept n s)].
  - assert (file_block (ck_disk s) sfi k = 0) as H0.
    { unfold file_block. rewrite zlookup_None; [done|]. unfold file_blocks. rewrite length_app, L, Lid. lia. }
    by apply Hret.
Qed.

(** ** Reading a directory *)

Lemma direntries_length m b : length (direntries_of_bytes m b) = m.
Proof. revert b. induction m as [|m IH]; intros b; [done|]. cbn [direntries_of_bytes length]. by rewrite IH. Qed.

Lemma dirblock_length d b : length (dirblock_at d b) = Z.to_nat atonce.
Proof. unfold dirblock_at. destruct (b =? 0); [apply length_replicate|apply direntries_length]. Qed.

Lemma clp_readdirblock n s b (Q : list sfs_direntry -> sfsck -> Prop) : tables_ok n s -> 0 <= b < n ->
  (forall s', touched [] s s' -> tables_ok n s' -> Q (dirblock_at (ck_disk s) b) s') -> clp (sfs_readdirblock b) Q s.
Proof.
  intros Hc Hb HQ. unfold sfs_readdirblock. destruct (Z.eqb_spec b 0) as [E0|Hne]; cbn [negb].
  - apply clp_ret. specialize (HQ s (touched_refl _ _) Hc). unfold dirblock_at in HQ. by rewrite E0 in HQ.
  - clp_step. apply (clp_diskread n [] (inodes s)); [done|done|]. intros s' T C. clp_steps.
    specialize (HQ s' T (tables_read n s s' C T)). unfold dirblock_at in HQ. by destruct (Z.eqb_spec b 0).
Qed.

Lemma dir_slot_kept n s s' ino sfi j : tables_ok n s -> is_inode s ino sfi -> touched [] s s' ->
  dir_slot (ck_disk s') sfi j = dir_slot (ck_disk s) sfi j.
Proof.
  intros Hc Hi T. unfold dir_slot. rewrite (file_block_kept s s') by (done || apply (indirect_range n s ino sfi Hc Hi)).
  unfold dirblock_at. destruct (_ =? 0); [done|]. rewrite (touched_nil_at s s'); [done|done|].
  apply (file_block_range n s ino sfi _ Hc Hi).
Qed.

(** Slot [8 k + j], for [j < 8], is entry [j] of file block [k]. *)
Lemma dir_slot_block d sfi k j : 0 <= k -> 0 <= j < atonce -> dir_slot d sfi (k * atonce + j) = zlookup (dirblock_at d (file_block d sfi k)) j.
Proof.
  intros Hk Hj. change atonce with 8 in *. unfold dir_slot. change atonce with 8.
  replace ((k * 8 + j) / 8) with k by (Z.div_mod_to_equations; lia).
  replace ((k * 8 + j) mod 8) with j by (Z.div_mod_to_equations; lia). done.
Qed.

Lemma zlookup_app_take {A} (a r : list A) m j : 0 <= m <= Z.of_nat (length a) -> 0 <= j ->
  zlookup (take (Z.to_nat m) a ++ r) j = if j <? m then zlookup a j else zlookup r (j - m).
Proof.
  intros Hm Hj. unfold zlookup. rewrite (proj2 (Z.leb_le 0 j)) by lia. destruct (Z.ltb_spec j m).
  - rewrite lookup_app_l by (rewrite length_take; lia). rewrite lookup_take_lt by lia. done.
  - rewrite lookup_app_r by (rewrite length_take; lia). rewrite (proj2 (Z.leb_le 0 (j - m))) by lia.
    f_equal. rewrite length_take. lia.
Qed.

Lemma clp_readdir_loop n ino sfi m k left s (Q : list sfs_direntry -> sfsck -> Prop) :
  tables_ok n s -> is_inode s ino sfi -> 0 <= k -> 0 <= left ->
  (forall r s', touched [] s s' -> tables_ok n s' -> is_inode s' ino sfi -> Z.of_nat (length r) = left ->
     (forall j, 0 <= j < left -> zlookup r j = dir_slot (ck_disk s) sfi (k * atonce + j)) -> Q r s') ->
  clp (readdir_loop sfi m k left) Q s.
Proof.
  revert k left s Q. induction m as [|m IH]; intros k left s Q Hc Hi Hk Hl HQ; cbn [readdir_loop].
  { clp_steps. match goal with H : _ = true |- _ => apply Z.eqb_eq in H end.
    apply HQ; [apply touched_refl|done|done|cbn; lia|intros; lia]. }
  set (this := if left <? atonce then left else atonce).
  assert (0 <= this <= left /\ this <= atonce) as Hthis by (subst this; change atonce with 8; bsolve).
  clp_step. apply (clp_bmap n s ino); [done|done|done|]. intros s1 T1 C1 I1.
  clp_step. apply (clp_readdirblock n); [done|by apply (file_block_range n s ino)|]. intros s2 T2 C2.
  pose proof (is_inode_kept n _ _ _ _ C1 T2 I1) as I2. pose proof (touched_nil_trans _ _ _ T1 T2) as T12.
  clp_step. apply IH; [done|done|lia|lia|]. intros r s3 T3 C3 I3 L3 H3. clp_steps.
  assert (length (dirblock_at (ck_disk s1) (file_block (ck_disk s) sfi k)) = Z.to_nat atonce) as Lb by apply dirblock_length.
  apply HQ; [by apply (touched_nil_trans s s2)|done|done|rewrite length_app, length_take, Lb; lia|].
  intros j Hj. rewrite zlookup_app_take by lia. destruct (Z.ltb_spec j this) as [Hlt|Hge].
  - rewrite dir_slot_block by lia. f_equal. unfold dirblock_at. destruct (_ =? 0); [done|].
    by rewrite (touched_nil_at s s1) by (done || apply (file_block_range n s ino sfi k Hc Hi)).
  - assert (this = atonce) as Heq by (subst this; revert Hge; bsolve). rewrite Heq in *.
    rewrite H3 by lia. rewrite (dir_slot_kept n s s2 ino) by done. f_equal. lia.
Qed.

Lemma clp_readdir n ino sfi s (Q : list sfs_direntry -> sfsck -> Prop) : tables_ok n s -> is_inode s ino sfi ->
  (forall r s', touched [] s s' -> tables_ok n s' -> is_inode s' ino sfi -> Z.of_nat (length r) = dir_slots sfi ->
     (forall j, 0 <= j < dir_slots sfi -> zlookup r j = dir_slot (ck_disk s) sfi j) -> Q r s') ->
  clp (sfs_readdir sfi (dir_slots sfi)) Q s.
Proof.
  intros Hc Hi HQ. pose proof Hi as (_ & _ & [[S1 _] _ _ _ _ _]).
  apply (clp_readdir_loop n ino); [done|done|lia|by apply Z.div_pos|]. intros r s' T C I L H. by apply HQ.
Qed.

(** ** Who owns a block *)

Lemma concat_owner {A B} (f : A -> list B) l x y b : NoDup (concat (map f l)) -> x ∈ l -> y ∈ l -> b ∈ f x -> b ∈ f y -> x = y.
Proof.
  assert (forall z l', z ∈ l' -> b ∈ f z -> b ∈ concat (map f l')) as Hin.
  { intros z l' Hz Hb. apply list_elem_of_In, in_concat. exists (f z). split; [by apply in_map, list_elem_of_In|by apply list_elem_of_In]. }
  induction l as [|a l IH]; intros Hnd Hx Hy Hbx Hby; [by apply not_elem_of_nil in Hx|].
  cbn [map concat] in Hnd. apply NoDup_app in Hnd as (_ & Hno & Hnd).
  apply elem_of_cons in Hx as [->|Hx], Hy as [->|Hy]; [done| | |by apply IH].
  - destruct (Hno b Hbx). by apply (Hin y).
  - destruct (Hno b Hby). by apply (Hin x).
Qed.

Lemma concat_nodup {A B} (f : A -> list B) l x : NoDup (concat (map f l)) -> x ∈ l -> NoDup (f x).
Proof.
  induction l as [|a l IH]; intros Hnd Hx; [by apply not_elem_of_nil in Hx|].
  cbn [map concat] in Hnd. apply NoDup_app in Hnd as (Ha & _ & Hnd). apply elem_of_cons in Hx as [->|Hx]; [done|by apply IH].
Qed.

Lemma tables_nodup n s : tables_ok n s -> NoDup (concat (map (claimed (ck_disk s)) (inos s))).
Proof. intros [_ _ _ [H _ _]]. cbn [app] in H. by apply NoDup_app in H as (_ & _ & H). Qed.

Lemma claimed_owner n s i1 i2 b : tables_ok n s -> i1 ∈ inos s -> i2 ∈ inos s ->
  b ∈ claimed (ck_disk s) i1 -> b ∈ claimed (ck_disk s) i2 -> i1 = i2.
Proof. intros Hc. apply concat_owner, (tables_nodup n s Hc). Qed.

(** A data block holds neither an inode nor the pointers of one. *)
Lemma nodup_data (d : rawdisk) i b : NoDup (inode_blocks d i) -> b ∈ filter in_use (file_blocks d i) -> b <> sfi_indirect i.
Proof.
  intros Hnd Hb Heq. assert (in_use b) as Hu by (by apply list_elem_of_filter in Hb as [? _]).
  unfold inode_blocks in Hnd. rewrite filter_cons_True in Hnd by (rewrite <- Heq; exact Hu).
  apply NoDup_cons in Hnd as [Hnd _]. apply Hnd. by rewrite <- Heq.
Qed.

Definition meta_block (d : rawdisk) (ino b : Z) : Prop := b = ino \/ b = sfi_indirect (inode_at d ino) /\ b <> 0.

Lemma meta_claimed d ino b : meta_block d ino b -> b ∈ claimed d ino.
Proof.
  intros [->|[-> Hne]]; [apply list_elem_of_here|]. apply list_elem_of_further, list_elem_of_filter. split; [done|]. apply list_elem_of_here.
Qed.

Lemma data_not_meta n s ino sfi k i : tables_ok n s -> is_inode s ino sfi -> file_block (ck_disk s) sfi k <> 0 -> i ∈ inos s ->
  ~ meta_block (ck_disk s) i (file_block (ck_disk s) sfi k).
Proof.
  intros Hc (Hi & Hat & _) Hne Hi' Hm. pose proof (file_block_in _ _ _ Hne) as Hf. pose proof (file_block_claimed _ _ _ Hne) as Hf'.
  assert (ino = i) as <-.
  { apply (claimed_owner n s ino i (file_block (ck_disk s) sfi k) Hc Hi Hi'); [|by apply meta_claimed].
    unfold claimed. rewrite Hat. by apply list_elem_of_further. }
  pose proof (concat_nodup _ _ _ (tables_nodup n s Hc) Hi) as Hnd. unfold claimed in Hnd. rewrite Hat in Hnd.
  apply NoDup_cons in Hnd as [Hno Hnd]. destruct Hm as [Hm|[Hm _]].
  - apply Hno. by rewrite <- Hm.
  - rewrite Hat in Hm. by apply (nodup_data _ _ _ Hnd Hf).
Qed.

(** Different blocks of a file are different blocks of the disk. *)
Lemma filter_nodup_inj (l : list Z) i j b : NoDup (filter in_use l) -> in_use b -> l !! i = Some b -> l !! j = Some b -> i = j.
Proof.
  revert i j. induction l as [|x l IH]; intros i j Hnd Hb Hi Hj; [done|].
  destruct (decide (in_use x)) as [Hx|Hx].
  - rewrite filter_cons_True in Hnd by done. apply NoDup_cons in Hnd as [Hno Hnd].
    assert (forall m, l !! m = Some b -> x <> b) as Hxb.
    { intros m Hm ->. apply Hno, list_elem_of_filter. split; [done|]. by apply list_elem_of_lookup_2 in Hm. }
    destruct i as [|i], j as [|j]; cbn in Hi, Hj; [done| | |f_equal; by apply IH]; exfalso.
    + by apply (Hxb j Hj); injection Hi.
    + by apply (Hxb i Hi); injection Hj.
  - rewrite filter_cons_False in Hnd by done.
    destruct i as [|i], j as [|j]; cbn in Hi, Hj; [done| | |f_equal; by apply IH]; exfalso; apply Hx.
    + by injection Hi as ->.
    + by injection Hj as ->.
Qed.

Lemma file_block_lookup d i k : 0 <= k -> file_block d i k <> 0 -> file_blocks d i !! Z.to_nat k = Some (file_block d i k).
Proof.
  intros Hk Hz. unfold file_block, zlookup in *. rewrite (proj2 (Z.leb_le 0 k)) in * by done.
  destruct (file_blocks d i !! Z.to_nat k) as [b|]; [done|]. by destruct Hz.
Qed.

Lemma file_block_inj n s ino sfi k1 k2 : tables_ok n s -> is_inode s ino sfi -> 0 <= k1 -> 0 <= k2 ->
  file_block (ck_disk s) sfi k1 = file_block (ck_disk s) sfi k2 -> file_block (ck_disk s) sfi k1 <> 0 -> k1 = k2.
Proof.
  intros Hc (Hi & Hat & _) H1 H2 Heq Hne. pose proof (concat_nodup _ _ _ (tables_nodup n s Hc) Hi) as Hnd.
  unfold claimed in Hnd. rewrite Hat in Hnd. apply NoDup_cons in Hnd as [_ Hnd].
  assert (NoDup (filter in_use (file_blocks (ck_disk s) sfi))) as Hnd'.
  { unfold inode_blocks in Hnd. destruct (decide (in_use (sfi_indirect sfi))).
    - rewrite filter_cons_True in Hnd by done. by apply NoDup_cons in Hnd as [_ Hnd].
    - by rewrite filter_cons_False in Hnd by done. }
  pose proof (file_block_lookup _ _ k1 H1 Hne) as L1. pose proof (file_block_lookup (ck_disk s) sfi k2 H2) as L2. rewrite <- Heq in L2.
  pose proof (filter_nodup_inj _ _ _ _ Hnd' Hne L1 (L2 Hne)). lia.
Qed.

(** ** Writing a directory *)

(** The inodes, and the pointers of each, stay. *)
Definition same_inodes (l : list Z) (d d' : rawdisk) : Prop := forall i, i ∈ l ->
  inode_at d' i = inode_at d i /\ idwords_at d' (sfi_indirect (inode_at d i)) = idwords_at d (sfi_indirect (inode_at d i)).

Lemma same_claimed l d d' i : same_inodes l d d' -> i ∈ l -> claimed d' i = claimed d i.
Proof. intros H Hi. destruct (H i Hi) as [H1 H2]. unfold claimed, inode_blocks, file_blocks. by rewrite H1, H2. Qed.

Lemma same_used n l d d' : same_inodes l d d' -> used_blocks n d' l = used_blocks n d l.
Proof.
  intros H. unfold used_blocks. do 2 f_equal. apply map_ext_in. intros i Hi%list_elem_of_In. by apply (same_claimed l).
Qed.

Lemma same_inodes_trans l d1 d2 d3 : same_inodes l d1 d2 -> same_inodes l d2 d3 -> same_inodes l d1 d3.
Proof.
  intros H1 H2 i Hi. destruct (H1 i Hi) as [A1 A2], (H2 i Hi) as [B1 B2]. rewrite A1 in B1, B2. by rewrite B1, B2, A2.
Qed.

Lemma blocks_same n inuse d d' ex l : same_inodes (in_ino <$> l) d d' -> blocks_ok n inuse d ex l -> blocks_ok n inuse d' ex l.
Proof.
  intros Hs [H1 H2 H3]. pose proof (same_used n _ _ _ Hs) as Hu. split; [by rewrite Hu|by rewrite Hu|].
  rewrite Forall_forall in H3 |- *. intros e He. specialize (H3 e He). destruct H3 as [C1 C2].
  destruct (Hs (in_ino e)) as [S1 S2]; [by apply list_elem_of_fmap_2|].
  split; [rewrite S1; exact C1|]. unfold file_blocks in *. rewrite S1, S2. exact C2.
Qed.

(** Only blocks of data of one file were written. *)
Record data_only (sfi : sfs_dinode) (s s' : sfsck) : Prop := {
  do_touched : touched (filter in_use (file_blocks (ck_disk s) sfi)) s s';
  do_same : same_inodes (inos s) (ck_disk s) (ck_disk s')
}.

Lemma data_only_blocks sfi ino s s' : is_inode s ino sfi -> data_only sfi s s' ->
  file_blocks (ck_disk s') sfi = file_blocks (ck_disk s) sfi.
Proof. intros (Hi & <- & _) [_ H]. destruct (H ino Hi) as [_ H2]. unfold file_blocks. by rewrite H2. Qed.

Lemma data_only_trans sfi ino s1 s2 s3 : is_inode s1 ino sfi -> data_only sfi s1 s2 -> data_only sfi s2 s3 -> data_only sfi s1 s3.
Proof.
  intros Hi H1 H2. pose proof (data_only_blocks _ _ _ _ Hi H1) as Hf. destruct H1 as [A1 A2], H2 as [B1 B2]. split.
  - rewrite Hf in B1. apply (touched_sub (filter in_use (file_blocks (ck_disk s1) sfi) ++ filter in_use (file_blocks (ck_disk s1) sfi))).
    { intros b [Hb|Hb]%elem_of_app; done. }
    by apply (touched_trans _ _ s1 s2).
  - unfold inos in B2. rewrite (touched_inodes _ _ _ A1) in B2. by apply (same_inodes_trans _ _ (ck_disk s2)).
Qed.

Lemma data_only_inode sfi s s' ino i : data_only sfi s s' -> is_inode s ino i -> is_inode s' ino i.
Proof.
  intros [T S] (H1 & H2 & H3). unfold is_inode, inos. rewrite (touched_inodes _ _ _ T). destruct (S ino H1) as [S1 _].
  split_and!; [done|by rewrite S1|done].
Qed.

Lemma data_only_refl sfi s : data_only sfi s s.
Proof. split; [apply touched_refl|]. by intros i _. Qed.

Lemma data_only_read n sfi s s' : tables_ok n s -> touched [] s s' -> data_only sfi s s'.
Proof.
  intros Hc T. split; [by apply (touched_sub []); [apply list_subseteq_nil|]|]. intros i Hi.
  apply inode_keeps. intros b Hb. apply (touched_nil_at s s' b T), (used_range n [] (inodes s) s b Hc).
  by apply (claimed_used n _ _ i).
Qed.

Lemma clp_datawrite n ino sfi k data s (Q : unit -> sfsck -> Prop) : tables_ok n s -> is_inode s ino sfi ->
  file_block (ck_disk s) sfi k <> 0 -> length data = Z.to_nat BLOCKSIZE ->
  (forall s', data_only sfi s s' -> touched [file_block (ck_disk s) sfi k] s s' -> tables_ok n s' ->
     dblock (ck_disk s') (file_block (ck_disk s) sfi k) = map (wrap 8) data -> Q tt s') ->
  clp (on_ckdisk (diskwrite data (file_block (ck_disk s) sfi k))) Q s.
Proof.
  intros Hc Hi Hne Hl HQ. pose proof Hc as [H1 [V1 V2 V3] H3 H4].
  pose proof (file_block_range n s ino sfi k Hc Hi) as Hr. set (b := file_block (ck_disk s) sfi k) in *.
  apply (clp_wp _ _ (fun _ _ => False)). unfold on_ckdisk. wp_step.
  apply wp_diskwrite_block; [done|done|lia|]. intros d (D1 & D2 & D3 & D4 & D5) _.
  assert (touched [b] s (set_ck_disk d s)) as T.
  { split; [done|done|]. intros x Hx Hn. apply D5; [done|]. intros ->. apply Hn, list_elem_of_here. }
  assert (same_inodes (inos s) (ck_disk s) d) as S.
  { intros i Hin. assert (forall x, meta_block (ck_disk s) i x -> dblock d x = dblock (ck_disk s) x) as Hm.
    { intros x Hx. apply D5.
      - apply (used_range n [] (inodes s) s x Hc). apply (claimed_used n _ _ i); [done|]. by apply meta_claimed.
      - intros ->. by apply (data_not_meta n s ino sfi k i Hc Hi). }
    unfold inode_at at 1. rewrite (Hm i) by by left. split; [done|]. unfold idwords_at.
    destruct (Z.eqb_spec (sfi_indirect (inode_at (ck_disk s) i)) 0); [done|]. rewrite Hm; [done|]. by right. }
  apply HQ; [|done| |done].
  - split; [|done]. apply (touched_sub [b]); [|done]. intros x Hx%list_elem_of_singleton. subst x. by apply file_block_in.
  - split; [done|split; cbn; [done|by rewrite D2|done]|by destruct H3; split|].
    apply (blocks_same n _ (ck_disk s)); [exact S|exact H4].
Qed.

(** An entry as it is stored. *)
Definition stored_entry (e : sfs_direntry) : sfs_direntry := Direntry (sfd_ino e) (map (wrap 8) (sfd_name e)).

Lemma direntry_stored e : direntry_shape e ->
  length (bytes_of_direntry e) = 64%nat /\ direntry_of_bytes (map (wrap 8) (bytes_of_direntry e)) = stored_entry e.
Proof.
  intros [H1 H2]. destruct (direntry_bytes_roundtrip e (conj H1 H2)) as [_ HL]. split; [exact HL|].
  assert (direntry_shape (stored_entry e)) as Hs by (split; [done|cbn; by rewrite length_map]).
  destruct (direntry_bytes_roundtrip (stored_entry e) Hs) as [HR _]. rewrite <- HR. f_equal.
  unfold bytes_of_direntry. rewrite map_app, map_u8_id by apply be32_bytes_ok. done.
Qed.

Lemma direntries_stored l : Forall direntry_shape l ->
  length (bytes_of_direntries l) = (64 * length l)%nat /\
  direntries_of_bytes (length l) (map (wrap 8) (bytes_of_direntries l)) = map stored_entry l.
Proof.
  induction 1 as [|e l He Hl [IH1 IH2]]; [done|]. destruct (direntry_stored e He) as [E1 E2].
  unfold bytes_of_direntries in *. cbn [map concat]. rewrite map_app. split.
  - rewrite length_app, E1, IH1. cbn [length]. lia.
  - cbn [length direntries_of_bytes]. rewrite take_app_length', drop_app_length' by (by rewrite length_map).
    by rewrite E2, IH2.
Qed.

Lemma empty_shape : direntry_shape empty_direntry.
Proof. split; [by vm_compute|apply length_replicate]. Qed.

Lemma not_in_use_ino e : in_some_use e = false -> sfd_ino e = 0.
Proof. unfold in_some_use. intros [H _]%orb_false_iff. by apply negb_false_iff, Z.eqb_eq in H. Qed.

(** What block [k] holds once [l] was written to it: a block that is a hole
    stays one. *)
Definition block_holds (d : rawdisk) (sfi : sfs_dinode) (k : Z) (l : list sfs_direntry) : Prop :=
  file_block d sfi k = 0 \/ dirblock_at d (file_block d sfi k) = map stored_entry l.

Lemma data_only_block sfi ino s s' k : is_inode s ino sfi -> data_only sfi s s' ->
  file_block (ck_disk s') sfi k = file_block (ck_disk s) sfi k.
Proof. intros Hi H. unfold file_block. by rewrite (data_only_blocks sfi ino s s'). Qed.

Lemma clp_writedirblock n ino sfi k l s (Q : unit -> sfsck -> Prop) : tables_ok n s -> is_inode s ino sfi -> 0 <= k ->
  Forall direntry_shape l -> length l = Z.to_nat atonce ->
  (forall s', data_only sfi s s' -> tables_ok n s' -> block_holds (ck_disk s') sfi k l ->
     (forall k', 0 <= k' -> k' <> k -> dirblock_at (ck_disk s') (file_block (ck_disk s) sfi k') =
        dirblock_at (ck_disk s) (file_block (ck_disk s) sfi k')) -> Q tt s') ->
  clp (sfs_writedirblock l (file_block (ck_disk s) sfi k)) Q s.
Proof.
  intros Hc Hi Hk Hl Hn HQ. unfold sfs_writedirblock. destruct (Z.eqb_spec (file_block (ck_disk s) sfi k) 0) as [E0|Hne]; cbn [negb].
  - assert (Q tt s) as Hs by (apply HQ; [apply data_only_refl|done|by left|done]).
    destruct (existsb in_some_use l); [|by apply clp_ret].
    unfold clp. rewrite setbadness_max. intros Hbad. cbn [badness set_badness] in Hbad. unfold EXIT_UNRECOV in Hbad. lia.
  - destruct (direntries_stored l Hl) as [L1 L2]. rewrite Hn in L1, L2.
    apply (clp_datawrite n ino); [done|done|done|rewrite L1; reflexivity|]. intros s' D T C W.
    apply HQ; [done|done| |].
    + right. rewrite (data_only_block sfi ino s s' k Hi D). unfold dirblock_at.
      destruct (Z.eqb_spec (file_block (ck_disk s) sfi k) 0); [done|]. by rewrite W.
    + intros k' Hk' Hne'. unfold dirblock_at. destruct (Z.eqb_spec (file_block (ck_disk s) sfi k') 0) as [|Hnz]; [done|].
      rewrite (touched_else _ _ _ T); [done|apply (file_block_range n s ino sfi k' Hc Hi)|].
      apply not_in_one. intros Heq. apply Hne'. by apply (file_block_inj n s ino sfi k' k Hc Hi).
Qed.

(** The entry now in slot [j]: that of the list, or none. *)
Definition slot_written (l : list sfs_direntry) (d : rawdisk) (sfi : sfs_dinode) (j : Z) : Prop :=
  dir_slot d sfi j = Some empty_direntry \/ exists e, zlookup l j = Some e /\ dir_slot d sfi j = Some (stored_entry e).

Lemma block_slots l d sfi k m ex j : 0 <= k -> 0 <= m <= atonce -> 0 <= j < m -> 0 <= k * atonce + m <= Z.of_nat (length l) ->
  block_holds d sfi k (slice (Z.to_nat (k * atonce)) (Z.to_nat m) l ++ ex) -> slot_written l d sfi (k * atonce + j).
Proof.
  intros Hk Hm Hj Hl Hb. unfold slot_written. rewrite (dir_slot_block d sfi k j) by lia. change atonce with 8 in *.
  destruct Hb as [H0|Hb].
  - left. rewrite H0. unfold dirblock_at. cbn [Z.eqb]. apply zlookup_replicate. change (Z.of_nat (Z.to_nat atonce)) with 8. lia.
  - right. rewrite Hb. destruct (zlookup_is_Some l (k * 8 + j)) as [e He]; [lia|]. exists e. split; [done|].
    unfold zlookup in *. rewrite (proj2 (Z.leb_le 0 (k * 8 + j))) in He by lia. rewrite (proj2 (Z.leb_le 0 j)) by lia.
    change (map stored_entry ?x) with (stored_entry <$> x). rewrite list_lookup_fmap, lookup_app_l by (rewrite slice_length; lia).
    unfold slice. rewrite lookup_take_lt, lookup_drop by lia.
    replace (Z.to_nat (k * 8) + Z.to_nat j)%nat with (Z.to_nat (k * 8 + j)) by lia. by rewrite He.
Qed.

(** What the loop from block [k] on has done. *)
Record dir_written (l : list sfs_direntry) (sfi : sfs_dinode) (k left : Z) (s s' : sfsck) : Prop := {
  dw_data : data_only sfi s s';
  dw_slots : forall j, 0 <= j < left -> slot_written l (ck_disk s') sfi (k * atonce + j);
  dw_before : forall k', 0 <= k' < k -> dirblock_at (ck_disk s') (file_block (ck_disk s) sfi k') =
    dirblock_at (ck_disk s) (file_block (ck_disk s) sfi k')
}.

Lemma slice_shape l a b : Forall direntry_shape l -> Forall direntry_shape (slice a b l).
Proof. intros H. by apply Forall_take, Forall_drop. Qed.

Lemma slot_written_before l sfi s s' k j : 0 <= k -> 0 <= j < atonce ->
  file_block (ck_disk s') sfi k = file_block (ck_disk s) sfi k ->
  dirblock_at (ck_disk s') (file_block (ck_disk s) sfi k) = dirblock_at (ck_disk s) (file_block (ck_disk s) sfi k) ->
  slot_written l (ck_disk s) sfi (k * atonce + j) -> slot_written l (ck_disk s') sfi (k * atonce + j).
Proof. intros Hk Hj Hf Hd H. unfold slot_written in *. rewrite dir_slot_block in * by done. by rewrite Hf, Hd. Qed.

Lemma clp_writedir_loop n ino sfi l m k left s (Q : unit -> sfsck -> Prop) :
  tables_ok n s -> is_inode s ino sfi -> 0 <= k -> 0 <= left -> Forall direntry_shape l ->
  (forall s', tables_ok n s' -> dir_written l sfi k left s s' -> Q tt s') ->
  clp (writedir_loop sfi l m k left) Q s.
Proof.
  revert k left s Q. induction m as [|m IH]; intros k left s Q Hc Hi Hk Hl Hsh HQ; cbn [writedir_loop].
  { clp_steps. match goal with H : _ = true |- _ => apply Z.eqb_eq in H end.
    apply HQ; [done|]. split; [apply data_only_refl|intros; lia|done]. }
  set (this := if left <? atonce then left else atonce).
  assert (0 <= this <= left /\ this <= atonce) as Hthis by (subst this; change atonce with 8; bsolve).
  clp_step. apply (clp_bmap n s ino); [done|done|done|]. intros s1 T1 C1 I1.
  pose proof (data_only_read n sfi s s1 Hc T1) as D1. pose proof (data_only_block _ _ _ _ k Hi D1) as B1.
  clp_step. apply (clp_mono _ (fun _ s2 => data_only sfi s1 s2 /\ tables_ok n s2 /\
    (exists ex, k * atonce + this <= Z.of_nat (length l) /\
       block_holds (ck_disk s2) sfi k (slice (Z.to_nat (k * atonce)) (Z.to_nat this) l ++ ex)) /\
    forall k', 0 <= k' -> k' <> k -> dirblock_at (ck_disk s2) (file_block (ck_disk s1) sfi k') =
      dirblock_at (ck_disk s1) (file_block (ck_disk s1) sfi k'))).
  { rewrite <- B1. change atonce with 8 in *. destruct (Z.ltb_spec left 8) as [Hlt|Hge]; subst this;
      (clp_steps; match goal with H : _ = true |- _ => apply Z.leb_le in H end).
    - apply (clp_writedirblock n ino); [done|done|done| | |].
      + apply Forall_app. split; [by apply slice_shape|]. apply Forall_replicate, empty_shape.
      + rewrite length_app, length_replicate, slice_length by lia. change atonce with 8. lia.
      + intros s2 D2 C2 B2 F2. split_and!; [done|done|by eexists|done].
    - apply (clp_writedirblock n ino); [done|done|done|by apply slice_shape| |].
      + rewrite slice_length by lia. done.
      + intros s2 D2 C2 B2 F2. split_and!; [done|done| |done]. exists []. by rewrite app_nil_r. }
  intros [] s2 (D2 & C2 & (ex & Hlen & B2) & F2).
  pose proof (data_only_trans _ _ _ _ _ Hi D1 D2) as D12. pose proof (data_only_inode _ _ _ _ _ D12 Hi) as I2.
  apply IH; [done|done|lia|lia|done|]. intros s3 C3 [D3 W3 F3]. apply HQ; [done|].
  pose proof (data_only_trans _ _ _ _ _ Hi D12 D3) as D13.
  split; [done| |].
  - intros j Hj. destruct (decide (j < this)) as [Hlt|Hge].
    + apply (slot_written_before l sfi s2 s3); [done|lia|by apply (data_only_block _ ino)|apply F3; lia|].
      apply (block_slots l _ sfi k this ex); [done|lia|lia|change atonce with 8 in *; lia|done].
    + assert (this = atonce) as Heq by (subst this; revert Hge; bsolve).
      replace (k * atonce + j) with ((k + 1) * atonce + (j - this)) by lia. apply W3. lia.
  - intros k' Hk'. rewrite <- (data_only_block sfi ino s s2 k' Hi D12). rewrite F3 by lia.
    rewrite (data_only_block sfi ino s s2 k' Hi D12). rewrite <- (data_only_block sfi ino s s1 k' Hi D1).
    rewrite F2 by lia. rewrite (data_only_block sfi ino s s1 k' Hi D1).
    unfold dirblock_at. destruct (_ =? 0); [done|].
    by rewrite (touched_nil_at s s1) by (done || apply (file_block_range n s ino sfi k' Hc Hi)).
Qed.

Lemma clp_writedir n ino sfi l s (Q : unit -> sfsck -> Prop) : tables_ok n s -> is_inode s ino sfi -> Forall direntry_shape l ->
  (forall s', tables_ok n s' -> data_only sfi s s' ->
     (forall j, 0 <= j < dir_slots sfi -> slot_written l (ck_disk s') sfi j) -> Q tt s') ->
  clp (sfs_writedir sfi l (dir_slots sfi)) Q s.
Proof.
  intros Hc Hi Hl HQ. pose proof Hi as (_ & _ & [[S1 _] _ _ _ _ _]).
  apply (clp_writedir_loop n ino); [done|done|lia|by apply Z.div_pos|done|]. intros s' C [D W _]. by apply HQ.
Qed.
