(* ===== verification/SfsckWalk.v ===== *)
(** * Checking a volume: the walk of pass 1

    The walk from the root: it reaches every directory, each once; what it
    leaves behind is a table of inodes whose blocks have one owner each, and
    directories that name only inodes of the table ([dir_closed]). *)

From S2P Require Import Prelude Bitmap Vnode SfsDisk Printf PrintfSpec CString CStringSpec Qsort SbinDisk Mksfs Sfsck.
From S2P Require Import SfsckTables SfsckSound SfsckDirs.

#[export] Instance grows_count_file : Grows count_file.
Proof. unfold count_file. grows. Qed.
#[export] Instance grows_count_dir : Grows count_dir.
Proof. unfold count_dir. grows. Qed.

(** ** Names *)

(** [vsnprintf] keeps the size of the buffer. *)
Lemma vsnprintf_length b len fmt args b' c : 0 < len <= Z.of_nat (length b) -> len < 2 ^ 32 ->
  vsnprintf b len fmt args tt = Ret (b', c) tt -> length b' = length b.
Proof.
  intros Hlen H32 Hr. set (l := Z.to_nat (len - 1)).
  assert (Hl : (l <= length b)%nat /\ Z.of_nat l < 2 ^ 32) by (unfold l; lia).
  assert (Hinit : mkSNP b (if len =? 0 then 0 else u32 (len - 1)) 0 = snp_after b l []).
  { unfold snp_after. rewrite Nat.min_0_r. cbn. f_equal. unfold l. destruct (Z.eqb_spec len 0); [lia|]. rewrite wrap_small by lia. lia. }
  unfold vsnprintf in Hr. rewrite Hinit in Hr.
  pose proof (vprintf_sim collect __snprintf_send (fun t snp n => snp = snp_after b l t)
    ltac:(intros txt t1 t2 n ->; exists (t1 ++ txt), (snp_after b l (t1 ++ txt)); split; [done|]; split;
      [by apply snprintf_send_after | done])
    fmt args [] (snp_after b l []) eq_refl) as Hsim.
  destruct (__vprintf __snprintf_send fmt args (snp_after b l [])) as [n snp| | |]; try done.
  destruct (__vprintf collect fmt args []) as [m t| | |]; try done. destruct Hsim as [_ ->].
  destruct (Z.ltb_spec 0 len); [|lia]. destruct (_ && _); [|done]. injection Hr as <- _.
  rewrite zinsert_length. unfold snp_after. cbv zeta. cbn [buf]. rewrite length_app, length_take, length_drop. lia.
Qed.

Lemma clp_uniqueid s (Q : Z -> sfsck -> Prop) : (forall id s', table_grown [] s s' -> Q id s') -> clp uniqueid Q s.
Proof. intros HQ _. apply HQ. split; [done..|]. by rewrite app_nil_r. Qed.

Lemma clp_stateless {A} (m : M unit A) s (Q : A -> sfsck -> Prop) : (forall a, m tt = Ret a tt -> Q a s) -> clp (stateless m) Q s.
Proof. intros HQ. unfold clp, stateless. destruct (m tt) as [a []| | |]; try done. intros _. by apply HQ. Qed.

Lemma clp_fsck_name name ino s (Q : list Z -> sfsck -> Prop) : length name = SFS_NAMELEN ->
  (forall name' s', table_grown [] s s' -> length name' = SFS_NAMELEN -> Q name' s') -> clp (fsck_name name ino) Q s.
Proof.
  intros Hl HQ. unfold fsck_name. clp_step. apply clp_uniqueid. intros id s1 T. clp_step. apply clp_stateless.
  intros [name' c] E. clp_steps. apply HQ; [done|]. rewrite <- Hl. apply (vsnprintf_length _ _ _ _ _ _) in E; [done| |done].
  rewrite Hl. done.
Qed.

Lemma checknullstring_spec name : let '(name', c) := checknullstring name in
  length name' = length name /\ (c = false -> name' = name).
Proof. unfold checknullstring. destruct (bool_decide _); [done|]. by rewrite zinsert_length. Qed.

Lemma checkbadstring_spec name name' c : checkbadstring name = Some (name', c) ->
  length name' = length name /\ (c = false -> name' = name).
Proof.
  revert name' c. induction name as [|x name IH]; intros name' c H; [done|]. cbn [checkbadstring] in H.
  destruct (x =? 0); [by injection H as <- <-|]. destruct (checkbadstring name) as [[r rv]|]; [|done].
  destruct (IH r rv eq_refl) as [I1 I2]. injection H as <- <-. cbn [length]. rewrite I1. split; [done|].
  intros [H1 H2]%orb_false_iff. by rewrite H1, I2.
Qed.

(** ** One entry *)

Lemma table_same_touched s s' : table_grown [] s s' -> touched [] s s'.
Proof. intros [T1 T2 _ T4]. rewrite app_nil_r in T4. split; [done|done|]. intros b _ _. by rewrite T1. Qed.

Lemma tables_same n s s' : tables_ok n s -> table_grown [] s s' -> tables_ok n s'.
Proof.
  intros Hc T. pose proof (checking_table _ _ _ _ _ _ T Hc) as H. destruct T as [_ _ _ T]. rewrite app_nil_r in T.
  unfold tables_ok. by rewrite T.
Qed.

Lemma tables_but_maps n s s' : checking n [] (inodes s) s' -> but_maps s s' -> tables_ok n s'.
Proof. intros Hc B. apply (tables_read n s); [done|by apply but_maps_touched]. Qed.

Lemma clp_mark n (b : bool) code s (Q : unit -> sfsck -> Prop) : tables_ok n s ->
  (forall s', touched [] s s' -> tables_ok n s' -> Q tt s') -> clp (when b (setbadness code)) Q s.
Proof.
  intros Hc HQ. apply (clp_when_bad n [] (inodes s)); [done|]. intros s' B C.
  apply HQ; [by apply but_maps_touched|by apply (tables_but_maps n s)].
Qed.

(** The entry as pass 1 leaves it. *)
Definition entry_ok (n : Z) (e : sfs_direntry) : Prop := direntry_shape e /\ (sfd_ino e = 0 \/ sfd_ino e < n).

Definition entry_checked (n : Z) (e : sfs_direntry) (r : sfs_direntry * bool) : Prop :=
  entry_ok n (fst r) /\ (snd r = false -> fst r = e).

Lemma cleared_ok n ino name : length name = SFS_NAMELEN -> word_ok ino -> (ino = 0 \/ ino < n) ->
  entry_ok n (Direntry ino (clear_name name)).
Proof. intros H1 H2 H3. split; [|done]. split; [done|]. cbn [sfd_name]. unfold clear_name. by rewrite zinsert_length. Qed.

Lemma clp_direntry n e s : tables_ok n s -> direntry_shape e ->
  clp (pass1_direntry e) (fun r s' => tables_ok n s' /\ touched [] s s' /\ entry_checked n e r) s.
Proof.
  intros Hc He. pose proof He as [S1 S2]. unfold pass1_direntry, sb_totalblocks. clp_steps. rewrite (chk_size _ _ _ _ Hc).
  assert (word_ok SFS_NOINO) as Hw0 by by vm_compute.
  destruct (Z.eqb_spec (sfd_ino e) SFS_NOINO) as [E0|E0].
  { destruct (negb _).
    - clp_step. apply (clp_mark n true); [done|]. intros s1 T1 C1. clp_steps. split_and!; [done|done|].
      split; [|done]. apply cleared_ok; [done|done|by left].
    - clp_steps. split_and!; [done|apply touched_refl|]. split; [|done]. split; [done|by left]. }
  destruct (Z.leb_spec n (sfd_ino e)) as [Hge|Hlt].
  { clp_step. apply (clp_mark n true); [done|]. intros s1 T1 C1. clp_steps. split_and!; [done|done|].
    split; [|done]. apply cleared_ok; [done|done|by left]. }
  clp_step. apply (clp_mono _ (fun r s1 => tables_ok n s1 /\ touched [] s s1 /\ length (fst r) = SFS_NAMELEN /\
    (snd r = false -> fst r = sfd_name e))).
  { destruct (hd 0 (sfd_name e) =? 0).
    - clp_step. apply clp_fsck_name; [done|]. intros name' s1 G1 L1. clp_step. apply (clp_mark n true).
      { by apply (tables_same n s). }
      intros s2 T2 C2. clp_steps. split_and!; [done| |done|done]. apply (touched_nil_trans s s1); [by apply table_same_touched|done].
    - clp_steps. split_and!; [done|apply touched_refl|done|done]. }
  intros [name1 c1] s1 (C1 & T1 & L1 & N1). cbn [fst snd] in L1, N1.
  pose proof (checknullstring_spec name1) as Hn. destruct (checknullstring name1) as [name2 c2]. destruct Hn as [L2 N2].
  clp_step. apply (clp_mark n); [done|]. intros s2 T2 C2. clp_step. apply clp_oob. intros [name3 c3] Hb.
  destruct (checkbadstring_spec _ _ _ Hb) as [L3 N3].
  clp_step. apply (clp_mark n); [done|]. intros s3 T3 C3. clp_steps. split_and!; [done| |].
  - apply (touched_nil_trans s s2); [by apply (touched_nil_trans s s1)|done].
  - split; cbn [fst snd].
    + split; [|right; cbn; lia]. split; [done|]. cbn. by rewrite L3, L2.
    + intros [[H1 H2]%orb_false_iff H3]%orb_false_iff. rewrite N3, N2, N1 by done. by destruct e.
Qed.

(** A loop over entries: [I] holds throughout, [R] relates the states, and
    what each step gives of its entry lasts. *)
Lemma clp_each (I : sfsck -> Prop) (R : sfsck -> sfsck -> Prop) (P : sfs_direntry -> Prop) (E : sfs_direntry -> sfsck -> Prop) f :
  (forall e, Grows (f e)) -> (forall s, R s s) ->
  (forall s1 s2 s3, I s1 -> I s2 -> R s1 s2 -> R s2 s3 -> R s1 s3) ->
  (forall e s s', I s -> R s s' -> E e s -> E e s') ->
  (forall e s, I s -> P e -> clp (f e) (fun r s' => I s' /\ R s s' /\ E (fst r) s' /\ (snd r = false -> fst r = e)) s) ->
  forall d s, I s -> Forall P d ->
  clp (each_direntry f d) (fun r s' => I s' /\ R s s' /\ Forall (fun e => E e s') (fst r) /\
    length (fst r) = length d /\ (snd r = false -> fst r = d)) s.
Proof.
  intros Hg Hrefl Htrans Hmono Hf d. induction d as [|e d IH]; intros s Hi HP; cbn [each_direntry].
  { clp_steps. split_and!; [done|done|constructor|done|done]. }
  apply Forall_cons in HP as [He HP]. clp_step. eapply clp_mono; [by apply Hf|]. intros [e1 c1] s1 (I1 & R1 & E1 & N1).
  clp_step. eapply clp_mono; [by apply IH|]. intros [d2 c2] s2 (I2 & R2 & E2 & L2 & N2). cbn [fst snd] in *. clp_steps. cbn [fst snd].
  split_and!; [done|by apply (Htrans s s1)| |cbn; by rewrite L2|].
  - constructor; [by apply (Hmono _ s1)|done].
  - intros [H1 H2]%orb_false_iff. by rewrite N1, N2.
Qed.

(** ** Directories that name only inodes of the table *)

(** The two names that are left to pass 2. *)
Definition is_dots (e : sfs_direntry) : bool := name_is e DOT || name_is e DOTDOT.

Definition entry_closed (s : sfsck) (e : sfs_direntry) : Prop :=
  sfd_ino e <> SFS_NOINO -> is_dots e = false -> sfd_ino e ∈ inos s.

(** Its size is a whole number of entries. *)
Definition dir_closed (s : sfsck) (ino : Z) : Prop :=
  sfi_size (inode_at (ck_disk s) ino) mod sizeof_direntry = 0 /\
  forall j e, 0 <= j < dir_slots (inode_at (ck_disk s) ino) ->
    dir_slot (ck_disk s) (inode_at (ck_disk s) ino) j = Some e -> entry_closed s e.

(** The directories found between two states are closed. *)
Definition new_closed (s s' : sfsck) : Prop :=
  forall ino, ino ∈ inos s' -> ino ∉ inos s -> sfi_type (inode_at (ck_disk s') ino) = SFS_TYPE_DIR -> dir_closed s' ino.

Record walked (n : Z) (s s' : sfsck) : Prop := {
  walk_tables : tables_ok n s';
  walk_extends : extends n s s';
  walk_closed : new_closed s s'
}.

Lemma dir_slot_keeps d d' ino j : keeps (claimed d ino) d d' ->
  dir_slot d' (inode_at d' ino) j = dir_slot d (inode_at d ino) j.
Proof.
  intros Hk. destruct (inode_keeps d d' ino Hk) as [H1 H2]. unfold dir_slot.
  assert (file_block d' (inode_at d' ino) (j / atonce) = file_block d (inode_at d ino) (j / atonce)) as ->.
  { unfold file_block, file_blocks. by rewrite H1, H2. }
  unfold dirblock_at. destruct (Z.eqb_spec (file_block d (inode_at d ino) (j / atonce)) 0) as [|Hne]; [done|].
  rewrite Hk; [done|]. apply list_elem_of_further. by apply file_block_claimed.
Qed.

Lemma dir_closed_keeps s s' ino : keeps (claimed (ck_disk s) ino) (ck_disk s) (ck_disk s') -> inos s ⊆ inos s' ->
  dir_closed s ino -> dir_closed s' ino.
Proof.
  intros Hk Hs [Hz Hc]. destruct (inode_keeps _ _ _ Hk) as [H1 _]. split; [by rewrite H1|]. intros j e Hj He.
  rewrite (dir_slot_keeps _ _ _ _ Hk) in He. rewrite H1 in Hj. intros H2 H3. apply Hs. by apply (Hc j e).
Qed.

Lemma extends_inos n s s' : extends n s s' -> inos s ⊆ inos s'.
Proof. intros [_ [new Hn] _]. unfold inos. rewrite Hn, fmap_app. intros x Hx. apply elem_of_app. by left. Qed.

Lemma extends_claimed n s s' ino : extends n s s' -> ino ∈ inos s -> keeps (claimed (ck_disk s) ino) (ck_disk s) (ck_disk s').
Proof. intros [_ _ Hk] Hi b Hb. apply Hk. by apply (claimed_used n _ _ ino). Qed.

Lemma extends_is_inode n s s' ino sfi : extends n s s' -> is_inode s ino sfi -> is_inode s' ino sfi.
Proof.
  intros Hx (H1 & H2 & H3). split_and!; [by apply (extends_inos n s)| |done].
  destruct (inode_keeps _ _ _ (extends_claimed n s s' ino Hx H1)) as [H4 _]. by rewrite H4.
Qed.

Lemma walked_refl n s : tables_ok n s -> walked n s s.
Proof. intros Hc. split; [done|apply extends_refl|]. by intros ino H1 H2. Qed.

Lemma walked_trans n s1 s2 s3 : walked n s1 s2 -> walked n s2 s3 -> walked n s1 s3.
Proof.
  intros [A1 A2 A3] [B1 B2 B3]. split; [done|by apply (extends_trans n s1 s2)|]. intros ino H1 H2 H3.
  destruct (decide (ino ∈ inos s2)) as [Hin|Hnot]; [|by apply B3].
  pose proof (extends_claimed n s2 s3 ino B2 Hin) as Hk.
  apply (dir_closed_keeps s2); [done|by apply (extends_inos n)|]. apply A3; [done|done|].
  destruct (inode_keeps _ _ _ Hk) as [H4 _]. by rewrite <- H4.
Qed.

(** Steps that find nothing. *)
Lemma walked_touched n s s' : tables_ok n s -> tables_ok n s' -> touched [] s s' -> walked n s s'.
Proof.
  intros Hc Hc' T. split; [done|by apply extends_touched|]. intros ino H1 H2. exfalso. apply H2. unfold inos in *.
  by rewrite <- (touched_inodes _ _ _ T).
Qed.

(** ** What is read is well formed *)

Lemma be_small m bytes : Forall byte_ok bytes -> (length bytes <= m)%nat -> 0 <= be bytes < 256 ^ Z.of_nat m.
Proof.
  intros Hb Hl. pose proof (be_bound bytes Hb). assert (256 ^ Z.of_nat (length bytes) <= 256 ^ Z.of_nat m) by (apply Z.pow_le_mono_r; lia). lia.
Qed.

Lemma slice_be m off bytes : Forall byte_ok bytes -> 0 <= be (slice off m bytes) < 256 ^ Z.of_nat m.
Proof. intros Hb. apply be_small; [by apply Forall_take, Forall_drop|]. unfold slice. rewrite length_take. lia. Qed.

Lemma inode_at_shape d b : disk_ok d -> dinode_shape (inode_at d b).
Proof.
  intros Hd. pose proof (dblock_bytes d b Hd) as Hb. unfold inode_at, dinode_of_bytes.
  split; cbn [sfi_size sfi_type sfi_linkcount sfi_direct sfi_indirect sfi_waste].
  - exact (slice_be 4 0 _ Hb).
  - exact (slice_be 2 4 _ Hb).
  - exact (slice_be 2 6 _ Hb).
  - split; [apply words_of_bytes_length|by apply words_of_bytes_ok, Forall_drop].
  - exact (slice_be 4 68 _ Hb).
  - split; [apply words_of_bytes_length|by apply words_of_bytes_ok, Forall_drop].
Qed.

Lemma direntry_read bytes : Forall byte_ok bytes -> length bytes = 64%nat -> direntry_shape (direntry_of_bytes bytes).
Proof.
  intros Hb Hl. split; cbn [direntry_of_bytes sfd_ino sfd_name].
  - apply (be_small 4); [by apply Forall_take|]. rewrite length_take. lia.
  - rewrite slice_length; [done|]. rewrite Hl. unfold SFS_NAMELEN. lia.
Qed.

Lemma direntries_read m bytes : Forall byte_ok bytes -> length bytes = (64 * m)%nat -> Forall direntry_shape (direntries_of_bytes m bytes).
Proof.
  revert bytes. induction m as [|m IH]; intros bytes Hb Hl; cbn [direntries_of_bytes]; constructor.
  - apply direntry_read; [by apply Forall_take|]. rewrite length_take. lia.
  - apply IH; [by apply Forall_drop|]. rewrite length_drop. lia.
Qed.

Lemma dir_slot_shape n s ino sfi j e : tables_ok n s -> is_inode s ino sfi -> dir_slot (ck_disk s) sfi j = Some e -> direntry_shape e.
Proof.
  intros Hc Hi He. unfold dir_slot in He. apply zlookup_in in He. revert e He. apply Forall_forall.
  pose proof (file_block_range n s ino sfi (j / atonce) Hc Hi) as Hr. destruct Hc as [H1 [V1 V2 V3] _ _].
  unfold dirblock_at. destruct (_ =? 0); [apply Forall_replicate, empty_shape|].
  apply direntries_read; [by apply dblock_bytes|]. rewrite dblock_length by (done || lia). reflexivity.
Qed.

Lemma clp_readinode n ino s (Q : sfs_dinode -> sfsck -> Prop) : tables_ok n s -> 0 <= ino < n ->
  (forall s', touched [] s s' -> tables_ok n s' -> Q (inode_at (ck_disk s') ino) s') -> clp (sfs_readinode ino) Q s.
Proof.
  intros Hc Hi HQ. unfold sfs_readinode. clp_step. apply (clp_diskread n [] (inodes s)); [done|done|]. intros s' T C. clp_steps.
  specialize (HQ s' T (tables_read n s s' C T)). unfold inode_at in HQ. by rewrite (touched_nil_at s s') in HQ by (done || lia).
Qed.

(** ** What an entry names *)

(** The walk of a directory, as its caller sees it. *)
Definition walks (n : Z) (walk : Z -> M sfsck unit) : Prop := forall ino s,
  tables_ok n s -> 0 <= ino < n -> sfi_type (inode_at (ck_disk s) ino) = SFS_TYPE_DIR ->
  clp (walk ino) (fun _ s' => walked n s s' /\ ino ∈ inos s') s.

(** The entry after its turn. *)
Definition entry_done (e : sfs_direntry) (s : sfsck) : Prop := direntry_shape e /\ entry_closed s e.

Lemma entry_done_mono e s s' : inos s ⊆ inos s' -> entry_done e s -> entry_done e s'.
Proof. intros Hs [H1 H2]. split; [done|]. intros H3 H4. by apply Hs, H2. Qed.

Lemma found_walked n ino sfi s r s' : tables_ok n s' -> extends n s s' -> inode_found ino sfi s r s' ->
  sfi_type sfi = SFS_TYPE_FILE -> walked n s s' /\ ino ∈ inos s'.
Proof.
  intros Hc Hx Hf Hty. unfold inode_found in Hf. destruct (fst r).
  - destruct Hf as [Hi Hin]. split; [|by apply (extends_inos n s)]. split; [done|done|]. intros i H1 H2. exfalso. apply H2.
    unfold inos in *. by rewrite <- Hi.
  - destruct Hf as (Hi & Hin & _).
    assert (ino ∈ inos s') as Hino. { unfold inos. rewrite Hi, fmap_app. apply elem_of_app. right. apply list_elem_of_here. }
    split; [|done]. split; [done|done|]. intros i H1 H2 H3. exfalso.
    assert (i = ino) as ->.
    { unfold inos in H1. rewrite Hi, fmap_app in H1. apply elem_of_app in H1 as [H1|H1]; [done|].
      by apply list_elem_of_singleton in H1. }
    destruct Hc as [_ _ _ [_ _ Hall]]. rewrite Hi in Hall. apply Forall_app in Hall as [_ Hall].
    apply Forall_cons in Hall as [[[T1 _] _] _]. cbn [in_ino in_type] in T1. rewrite T1, Hty in H3. done.
Qed.

Lemma clp_pass1_child n walk e s : walks n walk -> (forall i, Grows (walk i)) -> tables_ok n s -> entry_ok n e ->
  clp (pass1_child walk e) (fun r s' => tables_ok n s' /\ walked n s s' /\ entry_done (fst r) s' /\ (snd r = false -> fst r = e)) s.
Proof.
  intros Hw Hg Hc [He Hlt]. unfold pass1_child.
  assert (forall s', tables_ok n s' -> walked n s s' -> (sfd_ino e <> SFS_NOINO -> is_dots e = false -> sfd_ino e ∈ inos s') ->
    clp (ret (e, false)) (fun r s' => tables_ok n s' /\ walked n s s' /\ entry_done (fst r) s' /\ (snd r = false -> fst r = e)) s') as Hsame.
  { intros s' C' W' H. clp_steps. split_and!; [done|done| |done]. by split. }
  destruct (Z.eqb_spec (sfd_ino e) SFS_NOINO) as [E0|E0]; [apply Hsame; [done|by apply walked_refl|done]|].
  destruct (name_is e DOT) eqn:E1; [apply Hsame; [done|by apply walked_refl|unfold is_dots; by rewrite E1]|].
  destruct (name_is e DOTDOT) eqn:E2; [apply Hsame; [done|by apply walked_refl|unfold is_dots; by rewrite E1, E2]|].
  destruct Hlt as [?|Hlt]; [done|]. pose proof He as [[Hpos _] _].
  clp_step. apply (clp_readinode n); [done|lia|]. intros s1 T1 C1. pose proof (walked_touched n s s1 Hc C1 T1) as W1.
  pose proof (inode_at_shape (ck_disk s1) (sfd_ino e) (fits_disk _ (chk_fits _ _ _ _ C1))) as Hsh.
  destruct (Z.eqb_spec (sfi_type (inode_at (ck_disk s1) (sfd_ino e))) SFS_TYPE_FILE) as [Hf|Hf].
  { clp_step. eapply clp_mono; [apply (clp_pass1_inode n); [done|lia|done|by left|done]|].
    intros [seen sfi] s2 (C2 & X2 & F2). destruct (found_walked _ _ _ _ _ _ C2 X2 F2 Hf) as [W2 I2].
    clp_step. apply (clp_mono _ (fun _ s3 => table_grown [] s2 s3)).
    { destruct seen; [clp_steps|unfold count_file; clp_steps]; (split; [done..|]; by rewrite app_nil_r). }
    intros [] s3 G3. pose proof (tables_same n s2 s3 C2 G3) as C3.
    pose proof (walked_touched n s2 s3 C2 C3 (table_same_touched _ _ G3)) as W3.
    apply Hsame; [done|by apply (walked_trans n s s2); [apply (walked_trans n s s1)|]|].
    intros _ _. by apply (extends_inos n s2 s3 (walk_extends _ _ _ W3)). }
  destruct (Z.eqb_spec (sfi_type (inode_at (ck_disk s1) (sfd_ino e))) SFS_TYPE_DIR) as [Hd|Hd].
  { clp_step. eapply clp_mono; [apply Hw; [done|lia|done]|]. intros [] s2 [W2 I2].
    apply Hsame; [apply W2|by apply (walked_trans n s s1)|done]. }
  clp_step. apply (clp_mark n true); [done|]. intros s2 T2 C2. clp_steps. cbn [fst snd]. split_and!; [done| | |done].
  - apply (walked_trans n s s1); [done|by apply walked_touched].
  - split; [|by intros []]. apply (cleared_ok n); [apply He|by vm_compute|by left].
Qed.

(** ** One directory *)

(** The names "." and ".." are stored as they are. *)
Lemma cstr_stored l : Forall (fun c => 0 < c < 256) (cstr l) -> cstr (map (wrap 8) l) = cstr l.
Proof.
  induction l as [|c l IH]; [done|]. cbn [map cstr]. destruct (Z.eqb_spec c 0) as [->|Hne]; [done|].
  intros [Hc Hl]%Forall_cons. rewrite byte_u8 by (unfold byte_ok; lia). destruct (Z.eqb_spec c 0); [done|]. by rewrite IH.
Qed.

Lemma dots_stored e : is_dots e = true -> is_dots (stored_entry e) = true.
Proof.
  unfold is_dots, name_is. intros [H|H]%orb_true_iff; apply bool_decide_eq_true in H; apply orb_true_iff; [left|right];
    apply bool_decide_eq_true; cbn [sfd_name stored_entry]; rewrite cstr_stored; rewrite H; try done; repeat constructor; lia.
Qed.

Lemma stored_closed s e : entry_closed s e -> entry_closed s (stored_entry e).
Proof.
  intros H H1 H2. apply H; [done|]. destruct (is_dots e) eqn:E; [|done]. by rewrite dots_stored in H2.
Qed.

(** A write of a directory, after the walk from its entries. *)
Section directory.
Context (n ino : Z) (sfi : sfs_dinode) (s s5 s6 : sfsck).
Context (Hfresh : ino ∉ inos s) (Hc5 : tables_ok n s5) (Hx : extends n s s5) (Hi5 : is_inode s5 ino sfi).
Context (Hc6 : tables_ok n s6) (D : data_only sfi s5 s6).

Lemma data_elsewhere b : b ∈ used n s5 -> b ∉ claimed (ck_disk s5) ino -> dblock (ck_disk s6) b = dblock (ck_disk s5) b.
Proof.
  intros Hb Hno. apply (touched_else _ _ _ (do_touched _ _ _ D)); [by apply (used_range n [] (inodes s5) s5 b Hc5)|].
  intros Hin. apply Hno. destruct Hi5 as (_ & Hat & _). unfold claimed. rewrite Hat. apply list_elem_of_further.
  apply list_elem_of_filter in Hin as [H1 H2]. apply list_elem_of_filter. split; [done|]. by apply list_elem_of_further.
Qed.

Lemma write_inos : inos s6 = inos s5.
Proof. unfold inos. by rewrite (touched_inodes _ _ _ (do_touched _ _ _ D)). Qed.

Lemma write_extends : extends n s s6.
Proof.
  pose proof (used_grows n s s5 Hx) as Hsub. destruct Hi5 as (Hi & _ & _). split.
  - rewrite (touched_sb _ _ _ (do_touched _ _ _ D)). apply Hx.
  - rewrite (touched_inodes _ _ _ (do_touched _ _ _ D)). apply Hx.
  - intros b Hb. rewrite data_elsewhere; [by apply Hx|by apply Hsub|]. intros Hcl.
    unfold used, used_blocks in Hb. apply elem_of_app in Hb as [Hb|Hb].
    + destruct Hc5 as [_ _ _ [Hnd _ _]]. cbn [app] in Hnd. unfold used_blocks in Hnd. apply NoDup_app in Hnd as (_ & Hnd & _).
      apply (Hnd b Hb). pose proof (claimed_used n (ck_disk s5) (inos s5) ino b Hi Hcl) as H.
      unfold used_blocks in H. apply elem_of_app in H as [H|H]; [|done]. apply list_elem_of_In, in_concat.
      exists (claimed (ck_disk s5) ino). split; [by apply in_map, list_elem_of_In|by apply list_elem_of_In].
    + apply list_elem_of_In, in_concat in Hb as (x & (i & <- & Hin%list_elem_of_In)%in_map_iff & Hb%list_elem_of_In).
      apply Hfresh. pose proof (claimed_keeps _ _ _ (extends_claimed n s s5 i Hx Hin)) as Hcli. rewrite <- Hcli in Hb.
      by rewrite (claimed_owner n s5 ino i b Hc5 Hi (extends_inos n s s5 Hx i Hin) Hcl Hb).
Qed.

Lemma write_keeps i : i ∈ inos s5 -> i <> ino -> keeps (claimed (ck_disk s5) i) (ck_disk s5) (ck_disk s6).
Proof.
  intros Hi Hne b Hb. apply data_elsewhere; [by apply (claimed_used n _ _ i)|]. intros Hcl. apply Hne.
  destruct Hi5 as (Hi' & _). by apply (claimed_owner n s5 i ino b Hc5).
Qed.
End directory.

(** The directory is finished: those found below it were when their walk
    ended, and stay. *)
Lemma dir_finished n ino s s1 s5 s6 : inos s1 = inos s ++ [ino] -> walked n s1 s5 ->
  tables_ok n s6 -> extends n s s6 -> inos s6 = inos s5 ->
  (forall i, i ∈ inos s5 -> i <> ino -> keeps (claimed (ck_disk s5) i) (ck_disk s5) (ck_disk s6)) ->
  dir_closed s6 ino -> walked n s s6.
Proof.
  intros Hi [W1 W2 W3] Hc Hx Hsame Hk Hcl. split; [done|done|]. intros i H1 H2 H3.
  destruct (decide (i = ino)) as [->|Hne]; [done|]. rewrite Hsame in H1. pose proof (Hk i H1 Hne) as Hki.
  apply (dir_closed_keeps s5); [done|by rewrite Hsame|]. apply W3; [done| |].
  - rewrite Hi. intros [Hin|Hin%list_elem_of_singleton]%elem_of_app; done.
  - destruct (inode_keeps _ _ _ Hki) as [H4 _]. by rewrite <- H4.
Qed.

Lemma roundup_mod x : SFS_ROUNDUP x sizeof_direntry mod sizeof_direntry = 0.
Proof.
  unfold SFS_ROUNDUP. change sizeof_direntry with 64. pose proof (wrap_bound 32 (x + 64 - 1) ltac:(lia)).
  rewrite (wrap_small 32 (_ / 64 * 64)) by (Z.div_mod_to_equations; lia). by apply Z.mod_mul.
Qed.

Lemma dir_size_shape sfi : dinode_shape sfi -> dinode_shape (set_dinode_size (SFS_ROUNDUP (sfi_size sfi) sizeof_direntry) sfi).
Proof. intros [S1 S2 S3 S4 S5 S6]. split; try done. cbn. by apply wrap_bound. Qed.

Lemma slots_shape n s ino sfi d : tables_ok n s -> is_inode s ino sfi -> Z.of_nat (length d) = dir_slots sfi ->
  (forall j, 0 <= j < dir_slots sfi -> zlookup d j = dir_slot (ck_disk s) sfi j) -> Forall direntry_shape d.
Proof.
  intros Hc Hi Hl Hd. apply Forall_lookup. intros j e Hj. pose proof (lookup_lt_Some _ _ _ Hj).
  rewrite <- zlookup_nat, Hd in Hj by lia. by apply (dir_slot_shape n s ino sfi (Z.of_nat j)).
Qed.

(** The directory is closed when its entries are, as they were read or as
    they were written. *)
Lemma slots_closed s ino sfi d : is_inode s ino sfi -> sfi_size sfi mod sizeof_direntry = 0 -> Z.of_nat (length d) = dir_slots sfi -> Forall (fun e => entry_done e s) d ->
  (forall j, 0 <= j < dir_slots sfi -> dir_slot (ck_disk s) sfi j = zlookup d j \/ slot_written d (ck_disk s) sfi j) -> dir_closed s ino.
Proof.
  intros (_ & Hat & _) Hz Hl Hd Hs. split; [by rewrite Hat|]. intros j e Hj He. rewrite Hat in Hj, He. rewrite Forall_forall in Hd.
  destruct (Hs j Hj) as [H|[H|(e' & H1 & H2)]].
  - rewrite He in H. symmetry in H. apply (Hd e). by apply zlookup_in in H.
  - rewrite He in H. injection H as ->. by intros [].
  - rewrite He in H2. injection H2 as ->. apply stored_closed, (Hd e'). by apply zlookup_in in H1.
Qed.

Lemma dir_slot_extends n s s' ino sfi j : extends n s s' -> is_inode s ino sfi -> dir_slot (ck_disk s') sfi j = dir_slot (ck_disk s) sfi j.
Proof.
  intros Hx Hi. pose proof (extends_is_inode _ _ _ _ _ Hx Hi) as (_ & H2 & _). pose proof Hi as (H1 & H3 & _).
  pose proof (dir_slot_keeps _ _ ino j (extends_claimed n s s' ino Hx H1)) as H. by rewrite H2, H3 in H.
Qed.

(** The entries of a directory that has just joined the table. *)
Lemma clp_dir_entries n walk ino sfi s s1 : walks n walk -> (forall i, Grows (walk i)) ->
  tables_ok n s1 -> extends n s s1 -> inos s1 = inos s ++ [ino] -> ino ∉ inos s -> is_inode s1 ino sfi ->
  sfi_size sfi mod sizeof_direntry = 0 ->
  clp (d <- sfs_readdir sfi (dir_slots sfi) ;;
       let* (d, c1) := each_direntry pass1_direntry d in
       let* (d, c2) := each_direntry (pass1_child walk) d in
       when (c1 || c2) (sfs_writedir sfi d (dir_slots sfi)))
    (fun _ s' => walked n s s' /\ ino ∈ inos s') s1.
Proof.
  intros Hw Hg C1 X1 N1 Hfresh I1 Hz.
  clp_step. apply (clp_readdir n ino); [done|done|]. intros d s2 T2 C2 I2 L2 R2.
  pose proof (walked_touched n s1 s2 C1 C2 T2) as W2.
  assert (forall j, 0 <= j < dir_slots sfi -> zlookup d j = dir_slot (ck_disk s2) sfi j) as R2'.
  { intros j Hj. rewrite R2 by done. symmetry. by apply (dir_slot_kept n s1 s2 ino). }
  clp_step. eapply clp_mono.
  { apply (clp_each (tables_ok n) (touched []) direntry_shape (fun e _ => entry_ok n e)); [apply _|apply touched_refl| |done| |done|].
    - intros a b c _ _. apply touched_nil_trans.
    - intros e t Ht He. eapply clp_mono; [by apply (clp_direntry n)|]. intros r t' (H1 & H2 & H3 & H4). done.
    - by apply (slots_shape n s2 ino sfi). }
  intros [d3 c3] s3 (C3 & T3 & E3 & L3 & N3). cbn [fst snd] in *. pose proof (walked_touched n s2 s3 C2 C3 T3) as W3.
  clp_step. eapply clp_mono.
  { apply (clp_each (tables_ok n) (fun a b => tables_ok n a -> walked n a b) (entry_ok n) entry_done);
      [intros; by apply grows_pass1_child|by apply walked_refl| | | |done|done].
    - intros a b c Ha Hb Hab Hbc _. apply (walked_trans n a b); [by apply Hab|by apply Hbc].
    - intros e a b Ha Hab. apply entry_done_mono, (extends_inos n), (walk_extends _ _ _ (Hab Ha)).
    - intros e t Ht He. eapply clp_mono; [by apply (clp_pass1_child n)|]. intros r t' (H1 & H2 & H3 & H4). done. }
  intros [d4 c4] s4 (C4 & W4 & E4 & L4 & N4). cbn [fst snd] in *. specialize (W4 C3).
  pose proof (walked_trans n _ _ _ (walked_trans n _ _ _ W2 W3) W4) as W14.
  pose proof (extends_trans n _ _ _ X1 (walk_extends _ _ _ W14)) as X4.
  pose proof (extends_is_inode _ _ _ _ _ (walk_extends _ _ _ W14) I1) as I4.
  destruct (c3 || c4) eqn:Hch; cbn [when].
  - apply (clp_writedir n ino); [done|done|by apply (Forall_impl _ _ _ E4); intros e [He _]|]. intros s5 C5 D5 S5.
    pose proof (write_inos sfi s4 s5 D5) as N5. split; [|rewrite N5; apply I4].
    apply (dir_finished n ino s s1 s4 s5); [done|done|done|by apply (write_extends n ino sfi s s4 s5)|done| |].
    + intros i Hi Hne. by apply (write_keeps n ino sfi s4 s5).
    + apply (slots_closed s5 ino sfi d4); [by apply (data_only_inode sfi s4)|done|lia| |].
      * apply (Forall_impl _ _ _ E4). intros e. apply entry_done_mono. by rewrite N5.
      * intros j Hj. right. by apply S5.
  - apply orb_false_iff in Hch as [Hc3 Hc4]. clp_steps. split; [|apply I4].
    apply (dir_finished n ino s s1 s4 s4); [done|done|done|done|done|by intros i _ _ b _|].
    apply (slots_closed s4 ino sfi d4); [done|done|lia|done|]. intros j Hj. left. rewrite N4, N3, R2' by done.
    assert (extends n s2 s4) as X24 by (apply (extends_trans n s2 s3); [apply W3|apply W4]).
    by apply (dir_slot_extends n s2 s4 ino).
Qed.

Lemma clp_pass1_dir n fuel : walks n (pass1_dir fuel).
Proof.
  induction fuel as [|fuel IH]; intros ino s Hc Hr Hty; cbn [pass1_dir]; [done|].
  clp_step. apply (clp_readinode n); [done|done|]. intros s1 T1 C1. pose proof (walked_touched n s s1 Hc C1 T1) as W1.
  assert (inode_at (ck_disk s1) ino = inode_at (ck_disk s) ino) as Hat by (unfold inode_at; by rewrite (touched_nil_at s s1) by (done || lia)).
  pose proof (inode_at_shape (ck_disk s1) ino (fits_disk _ (chk_fits _ _ _ _ C1))) as Hsh.
  rewrite <- Hat in Hty. clear Hat. set (sfi := inode_at (ck_disk s1) ino) in *. set (changed := negb _).
  clp_step. apply (clp_mark n); [done|]. intros s2 T2 C2. set (sfi2 := if changed then _ else _).
  clp_step. unfold count_dir. clp_step. set (s3 := set_counts _ _ s2).
  assert (table_grown [] s2 s3) as G3 by (split; [done..|by rewrite app_nil_r]).
  pose proof (tables_same n s2 s3 C2 G3) as C3.
  assert (touched [] s s3) as T3.
  { apply (touched_nil_trans s s2); [by apply (touched_nil_trans s s1)|by apply table_same_touched]. }
  pose proof (walked_touched n s s3 Hc C3 T3) as W3.
  assert (dinode_shape sfi2 /\ sfi_type sfi2 = SFS_TYPE_DIR /\ sfi_size sfi2 mod sizeof_direntry = 0) as (Hsh2 & Hty2 & Hz2).
  { subst sfi2. destruct changed eqn:Hch.
    - split_and!; [by apply dir_size_shape|done|apply roundup_mod].
    - split_and!; [done|done|]. subst changed. by apply negb_false_iff, Z.eqb_eq in Hch. }
  clp_step. eapply clp_mono.
  { apply (clp_pass1_inode n ino sfi2 changed s3); [done|done|done|by right|].
    intros ->. subst sfi2 sfi. unfold inode_at. rewrite (touched_nil_at s2 s3), (touched_nil_at s1 s2); [done|done|lia|by apply table_same_touched|lia]. }
  intros [seen sfi4] s4 (C4 & X4 & F4). pose proof (extends_trans n _ _ _ (walk_extends _ _ _ W3) X4) as X04.
  unfold inode_found in F4. cbn [fst snd] in F4. destruct seen.
  - destruct F4 as [F4 F5]. clp_steps. assert (inos s4 = inos s3) as N4 by (unfold inos; by rewrite F4).
    split; [|by rewrite N4]. apply (walked_trans n s s3); [done|]. split; [done|done|]. intros i H1 H2. by rewrite N4 in H1.
  - destruct F4 as (F4 & F5 & F6 & F7 & F8). clp_step. apply clp_domalloc. intros s5 G5.
    pose proof (tables_same n s4 s5 C4 G5) as C5. pose proof (walked_touched n s4 s5 C4 C5 (table_same_touched _ _ G5)) as W5.
    assert (inos s3 = inos s) as N3 by (unfold inos; by rewrite (touched_inodes _ _ _ T3)).
    assert (inos s4 = inos s ++ [ino]) as N4 by (rewrite <- N3; unfold inos; by rewrite F4, fmap_app).
    assert (inos s5 = inos s ++ [ino]) as N5.
    { rewrite <- N4. unfold inos. destruct G5 as [_ _ _ G5]. by rewrite G5, app_nil_r. }
    apply (clp_dir_entries n _ ino sfi4); [done|apply _|done|by apply (extends_trans n s s4); [|apply W5]|done|by rewrite <- N3| |by rewrite F7].
    split_and!; [|by rewrite (tg_disk _ _ _ G5)|done]. rewrite N5. apply elem_of_app. right. apply list_elem_of_here.
Qed.

(** ** The root *)

Lemma clp_writeinode n ino sfi s (Q : unit -> sfsck -> Prop) : tables_ok n s -> 0 <= ino < n -> ino ∉ used n s -> dinode_shape sfi ->
  (forall s', tables_ok n s' -> touched [ino] s s' -> inode_at (ck_disk s') ino = sfi -> Q tt s') -> clp (sfs_writeinode ino sfi) Q s.
Proof.
  intros Hc Hr Hno Hsh HQ. destruct (inode_written sfi Hsh) as [W1 W2].
  apply (clp_diskwrite n [] (inodes s)); [done|done|done|done|]. intros s' T C D. apply HQ; [|done|unfold inode_at; by rewrite D].
  unfold tables_ok. by rewrite (touched_inodes _ _ _ T).
Qed.

(** Nothing is known of the volume yet: no inode is in the table. *)
Lemma clp_pass1 n fuel s : tables_ok n s -> inodes s = [] -> SFS_ROOTDIR_INO ∉ fixed_blocks n -> SFS_ROOTDIR_INO < n ->
  clp (pass1 fuel) (fun _ s' => tables_ok n s' /\ SFS_ROOTDIR_INO ∈ inos s' /\ new_closed s s' /\
    ck_sb s' = ck_sb s) s.
Proof.
  intros Hc Hi Hroot Hn. unfold pass1, pass1_rootdir.
  assert (0 <= SFS_ROOTDIR_INO) as H0 by by vm_compute.
  assert (forall s1, tables_ok n s1 -> inodes s1 = [] -> ck_sb s1 = ck_sb s ->
    sfi_type (inode_at (ck_disk s1) SFS_ROOTDIR_INO) = SFS_TYPE_DIR ->
    clp (pass1_dir fuel SFS_ROOTDIR_INO) (fun _ s' => tables_ok n s' /\ SFS_ROOTDIR_INO ∈ inos s' /\ new_closed s s' /\
      ck_sb s' = ck_sb s) s1) as Hwalk.
  { intros s1 C1 I1 B1 Ht. eapply clp_mono; [apply (clp_pass1_dir n); [done|lia|done]|].
    intros [] s' [[W1 W2 W3] Hin]. split_and!; [done|done| |by rewrite (ext_sb _ _ _ W2)].
    intros i H1 H2. apply W3; [done|]. unfold inos in *. rewrite I1. by rewrite Hi in H2. }
  clp_step. apply (clp_readinode n); [done|lia|]. intros s1 T1 C1.
  pose proof (inode_at_shape (ck_disk s1) SFS_ROOTDIR_INO (fits_disk _ (chk_fits _ _ _ _ C1))) as Hsh.
  clp_step. destruct (Z.eqb_spec (sfi_type (inode_at (ck_disk s1) SFS_ROOTDIR_INO)) SFS_TYPE_DIR) as [Ht|Ht].
  - clp_steps. apply Hwalk; [done|by rewrite (touched_inodes _ _ _ T1)|by rewrite (touched_sb _ _ _ T1)|done].
  - clp_step. apply (clp_mark n true); [done|]. intros s2 T2 C2.
    pose proof (touched_nil_trans _ _ _ T1 T2) as T12.
    apply (clp_writeinode n); [done|lia| | |].
    + unfold used, inos. rewrite (touched_inodes _ _ _ T12), Hi. unfold used_blocks. cbn [fmap list_fmap map concat]. by rewrite app_nil_r.
    + destruct Hsh as [S1 S2 S3 S4 S5 S6]. split; try done.
    + intros s3 C3 T3 D3. apply Hwalk; [done|by rewrite (touched_inodes _ _ _ T3), (touched_inodes _ _ _ T12)
        |by rewrite (touched_sb _ _ _ T3), (touched_sb _ _ _ T12)|by rewrite D3].
Qed.
