(* ===== verification/SfsckCheck.v ===== *)
(** * Checking a volume: what the first phase promises

    [freemap_setup], [pass1] and [freemap_check], one after the other as in
    [main.c]: the volume they leave behind, when nothing unrecoverable was
    found ([ready], and [consistent] in terms of the disk alone). *)

From S2P Require Import Prelude Bitmap Vnode SfsDisk Printf PrintfSpec CString CStringSpec Qsort SbinDisk Mksfs Sfsck.
From S2P Require Import SfsckTables SfsckSound SfsckDirs SfsckWalk.

(** ** Setting up the maps *)

(** The disk holds the volume its superblock describes. *)
Record volume_present (s : sfsck) : Prop := {
  vp_disk : disk_ok (ck_disk s);
  vp_size : SFS_FREEMAP_START + SFS_FREEMAPBLOCKS (sb_nblocks (ck_sb s)) <= sb_nblocks (ck_sb s) <= rd_nblocks (ck_disk s);
  vp_empty : inodes s = []
}.

(** Blocks marked, and no bit lost. *)
Record marks (l : list Z) (s s' : sfsck) : Prop := {
  mk_rest : but_maps s s';
  mk_ok : maps_ok s';
  mk_size : length (freemapdata s') = length (freemapdata s);
  mk_new : Forall (fun b => mapbit (freemapdata s') b = true) l;
  mk_old : forall b, 0 <= b -> mapbit (freemapdata s) b = true -> mapbit (freemapdata s') b = true
}.

Lemma marks_trans l1 l2 s1 s2 s3 : Forall (fun b => 0 <= b) l1 -> marks l1 s1 s2 -> marks l2 s2 s3 -> marks (l1 ++ l2) s1 s3.
Proof.
  intros Hl [A1 A2 A3 A4 A5] [B1 B2 B3 B4 B5]. split; [by apply (but_maps_trans s1 s2)|done|lia| |].
  - apply Forall_app. split; [|done]. rewrite Forall_forall in *. intros b Hb. apply B5; [by apply Hl|by apply A4].
  - intros b Hb H. apply B5; [done|by apply A5].
Qed.

Lemma marked_marks b s s' : 0 <= b -> marked b s s' -> marks [b] s s'.
Proof.
  intros Hb [M1 M2 M3 M4 M5]. split; [done|done|done| |].
  - constructor; [|constructor]. by rewrite M4, Z.eqb_refl.
  - intros x Hx H. rewrite M4, H by done. apply orb_true_r.
Qed.

Lemma wp_mark_range f how m lo s (Q : unit -> sfsck -> Prop) E : maps_ok s ->
  (forall i, lo <= i < lo + Z.of_nat m -> 0 <= f i < map_bits s) ->
  (forall s', marks (map f (seqZ lo (Z.of_nat m))) s s' -> Q tt s') ->
  wp (for_each lo m (fun i => freemap_blockinuse (f i) how)) Q E s.
Proof.
  revert lo s Q. induction m as [|m IH]; intros lo s Q Hs Hr HQ; cbn [for_each].
  { apply wp_ret, HQ. split; [apply but_maps_refl|done|done|constructor|done]. }
  wp_step. apply wp_blockinuse; [done|apply Hr; lia|]. intros s1 M1. pose proof (marked_marks _ _ _ (proj1 (Hr lo ltac:(lia))) M1) as K1.
  destruct M1 as [M1 M2 M3 M4 M5]. apply IH; [done|intros i Hi; unfold map_bits in *; rewrite M3; apply Hr; lia|].
  intros s2 K2. apply HQ. rewrite Nat2Z.inj_succ, seqZ_cons, Z.pred_succ by lia. cbn [map].
  apply (marks_trans [f lo] _ s s1 s2); [|done|].
  - constructor; [apply Hr; lia|constructor].
  - by replace (lo + 1) with (Z.succ lo) in K2 by lia.
Qed.

Lemma fixed_range n : 2 + SFS_FREEMAPBLOCKS n <= n -> Forall (fun b => 0 <= b < n) (fixed_blocks n) /\ NoDup (fixed_blocks n).
Proof.
  intros Hn. assert (0 <= SFS_FREEMAPBLOCKS n) as Hpos by (apply Z.div_pos; [by apply wrap_bound|done]). unfold fixed_blocks. split.
  - constructor; [unfold SFS_SUPER_BLOCK; lia|]. apply Forall_forall. intros b (k & -> & Hk)%list_elem_of_fmap.
    apply elem_of_seqZ in Hk. unfold SFS_FREEMAP_START. lia.
  - apply NoDup_cons. split.
    + intros (k & Hk & H)%list_elem_of_fmap. apply elem_of_seqZ in H. unfold SFS_SUPER_BLOCK, SFS_FREEMAP_START in Hk. lia.
    + apply NoDup_fmap; [|apply NoDup_seqZ]. intros x y H. lia.
Qed.

Lemma freemap_sizes n : 0 <= n -> 2 + SFS_FREEMAPBLOCKS n <= n <= 2 ^ 23 ->
  0 < SFS_FREEMAPBLOCKS n <= 2 ^ 11 /\ n <= SFS_FREEMAPBLOCKS n * 4096.
Proof.
  intros H0 Hn. unfold SFS_FREEMAPBLOCKS, SFS_FREEMAPBITS, SFS_ROUNDUP in *. change SFS_BITSPERBLOCK with 4096 in *.
  rewrite (wrap_small 32 (n + 4096 - 1)) in * by lia. rewrite wrap_small in * by (Z.div_mod_to_equations; lia).
  rewrite Z.div_mul in * by lia. Z.div_mod_to_equations. lia.
Qed.

Lemma clp_freemap_setup s (Q : unit -> sfsck -> Prop) : volume_present s ->
  (forall s', tables_ok (sb_nblocks (ck_sb s)) s' -> inodes s' = [] -> ck_sb s' = ck_sb s -> Q tt s') ->
  clp freemap_setup Q s.
Proof.
  intros [V1 V2 V3] HQ. pose proof (disk_reach _ V1) as Hreach. unfold BLOCKSIZE in Hreach.
  unfold freemap_setup, sb_totalblocks, sb_freemapblocks. clp_steps. set (n := sb_nblocks (ck_sb s)) in *.
  change SFS_FREEMAP_START with 2 in V2.
  assert (0 <= SFS_FREEMAPBLOCKS n) as Hpos by (apply Z.div_pos; [by apply wrap_bound|done]).
  destruct (freemap_sizes n) as [Hm1 Hm2]; [lia|lia|]. change SFS_BLOCKSIZE with 512. change SFS_BITSPERBLOCK with 4096.
  rewrite !wrap_small by lia.
  apply clp_domalloc. intros s1 [A1 A2 A3 A4]. clp_step. apply clp_domalloc. intros s2 [B1 B2 B3 B4]. clp_steps.
  rewrite A4, !app_nil_r in B4. rewrite A1 in B1. rewrite A2 in B2.
  set (zeros := replicate _ 0). set (s3 := set_maps _ zeros zeros s2).
  assert (map_bits s3 = SFS_FREEMAPBLOCKS n * 4096) as Hbits.
  { unfold map_bits, s3. cbn [freemapdata set_maps]. unfold zeros. rewrite length_replicate. lia. }
  assert (maps_ok s3) as M3.
  { split; [done|split; (apply Forall_replicate; unfold byte_ok; lia)|]. intros i Hi _.
    apply mapbit_zeros. rewrite Hbits in Hi. lia. }
  apply (clp_wp _ _ (fun _ _ => False)), (wp_mark_range (fun i => i)); [done|intros i; rewrite Hbits; lia|]. intros s4 K4 _.
  assert (map_bits s4 = SFS_FREEMAPBLOCKS n * 4096) as Hb4 by (unfold map_bits in *; rewrite (mk_size _ _ _ K4); done).
  clp_step. apply (clp_wp _ _ (fun _ _ => False)), wp_blockinuse; [apply K4|rewrite Hb4; unfold SFS_SUPER_BLOCK; lia|].
  intros s5 K5%marked_marks _; [|done].
  assert (map_bits s5 = SFS_FREEMAPBLOCKS n * 4096) as Hb5 by (unfold map_bits in *; rewrite (mk_size _ _ _ K5); done).
  apply (clp_wp _ _ (fun _ _ => False)), (wp_mark_range (Z.add SFS_FREEMAP_START)); [apply K5| |].
  { intros i. rewrite Hb5. unfold SFS_FREEMAP_START. lia. }
  intros s6 K6 _. rewrite Z2Nat.id in K6 by lia.
  assert (marks (fixed_blocks n) s4 s6) as K46.
  { apply (marks_trans [SFS_SUPER_BLOCK] _ s4 s5); [|done|done]. constructor; [done|constructor]. }
  destruct (but_maps_same _ _ (mk_rest _ _ _ K46)) as (E1 & E2 & E3).
  destruct (but_maps_same _ _ (mk_rest _ _ _ K4)) as (F1 & F2 & F3).
  rewrite F1 in E1. rewrite F2 in E2. rewrite F3 in E3. unfold s3 in E1, E2, E3. cbn [ck_disk ck_sb inodes set_maps] in E1, E2, E3.
  rewrite B1 in E1. rewrite B2 in E2. rewrite B4, V3 in E3.
  destruct (fixed_range n) as [R1 R2]; [lia|].
  apply HQ; [|done|done]. split; [by rewrite E2| |apply K46|].
  - split; [by rewrite E1|by rewrite E1, E2|]. rewrite E2. fold n.
    rewrite (mk_size _ _ _ K46), (mk_size _ _ _ K4). unfold s3. cbn [freemapdata set_maps]. unfold zeros.
    rewrite length_replicate. change SFS_BLOCKSIZE with 512. lia.
  - rewrite E3. assert ([] ++ used_blocks n (ck_disk s6) (in_ino <$> []) = fixed_blocks n) as Hu by apply app_nil_r.
    split; [by rewrite Hu|rewrite Hu|constructor].
    pose proof (mk_new _ _ _ K46) as R3. rewrite Forall_forall in *. intros b Hb. split; [by apply R1|by apply R3].
Qed.

(** ** The volume left behind *)

(** The bit of block [b] in the free map on the disk. *)
Definition disk_mapbit (d : rawdisk) (b : Z) : bool :=
  mapbit (dblock d (SFS_FREEMAP_START + b / SFS_BITSPERBLOCK)) (b mod SFS_BITSPERBLOCK).

(** A consistent volume of [n] blocks with the inodes [inos]: blocks have one
    owner, lie in the volume and are taken in the free map; inodes have a
    type and point to nothing past their end; the root is there; directories
    are made of whole entries, and name only inodes (the two dot entries
    aside). *)
Record consistent (n : Z) (d : rawdisk) (inodes : list Z) : Prop := {
  cons_once : NoDup (used_blocks n d inodes);
  cons_range : Forall (fun b => 0 <= b < n) (used_blocks n d inodes);
  cons_taken : Forall (fun b => disk_mapbit d b = true) (used_blocks n d inodes);
  cons_type : Forall (fun i => sfi_type (inode_at d i) = SFS_TYPE_FILE \/ sfi_type (inode_at d i) = SFS_TYPE_DIR) inodes;
  cons_eof : Forall (fun i => ends_at_eof d (inode_at d i)) inodes;
  cons_root : SFS_ROOTDIR_INO ∈ inodes;
  cons_size : Forall (fun i => sfi_type (inode_at d i) = SFS_TYPE_DIR -> sfi_size (inode_at d i) mod sizeof_direntry = 0) inodes;
  cons_closed : forall i j e, i ∈ inodes -> sfi_type (inode_at d i) = SFS_TYPE_DIR ->
    0 <= j < dir_slots (inode_at d i) -> dir_slot d (inode_at d i) j = Some e ->
    sfd_ino e <> SFS_NOINO -> is_dots e = false -> sfd_ino e ∈ inodes
}.

(** The first phase, as [main] runs it. *)
Definition phase1 (fuel : nat) : M sfsck unit := freemap_setup ;; pass1 fuel ;; freemap_check.

#[export] Instance grows_check_bytes a e t : Grows (check_bytes a e t).
Proof. revert e t. induction a as [|x a IH]; intros [|y e] [|z t]; cbn [check_bytes]; unfold check_byte; grows. Qed.
#[export] Instance grows_freemap_check_loop n i a f : Grows (freemap_check_loop n i a f).
Proof.
  revert i a f. induction n as [|n IH]; intros i a f; cbn [freemap_check_loop]; unfold sfs_readfreemapblock, sfs_writefreemapblock; grows.
Qed.
#[export] Instance grows_freemap_check : Grows freemap_check.
Proof. unfold freemap_check, sb_freemapblocks. grows. Qed.
#[export] Instance grows_pass1 fuel : Grows (pass1 fuel).
Proof. unfold pass1, pass1_rootdir. grows. Qed.

(** The bits of the map in memory, once on the disk. *)
Lemma map_written_bit s s' b : volume_fits s -> map_written (SFS_FREEMAPBLOCKS (sb_nblocks (ck_sb s))) s s' ->
  0 <= b < sb_nblocks (ck_sb s) -> disk_mapbit (ck_disk s') b = mapbit (freemapdata s) b.
Proof.
  intros V (d & bad & -> & _ & _ & _ & _ & Hmap & _) Hb. pose proof (fits_small s V) as [_ Hbits].
  pose proof (fits_map s V) as Hlen. unfold map_bits in Hbits. unfold disk_mapbit. cbn [ck_disk set_ck_disk].
  change SFS_BITSPERBLOCK with 4096. change SFS_BLOCKSIZE with 512 in *. change SFS_FREEMAP_START with 2 in *.
  set (n := SFS_FREEMAPBLOCKS _) in *. rewrite Hmap by (Z.div_mod_to_equations; lia).
  rewrite mapbit_slice by (Z.div_mod_to_equations; lia). f_equal. Z.div_mod_to_equations. lia.
Qed.

(** Writing the free map leaves the inodes alone. *)
Lemma map_written_keeps n s s' : tables_ok n s -> map_written (SFS_FREEMAPBLOCKS n) s s' ->
  keeps (concat (map (claimed (ck_disk s)) (inos s))) (ck_disk s) (ck_disk s').
Proof.
  intros Hc (d & bad & -> & _ & _ & _ & _ & _ & Hk) b Hb. cbn [ck_disk set_ck_disk]. pose proof Hc as [_ _ _ [Hnd Hr _]].
  cbn [app] in Hnd, Hr. unfold used_blocks in Hnd, Hr. apply Forall_app in Hr as [_ Hr]. rewrite Forall_forall in Hr.
  apply Hk; [by apply Hr|]. intros Hin. apply NoDup_app in Hnd as (_ & Hnd & _). apply (Hnd b); [|done].
  apply list_elem_of_further, list_elem_of_fmap. exists (b - SFS_FREEMAP_START). split; [lia|]. apply elem_of_seqZ. lia.
Qed.

Lemma keeps_claimed d d' l i : keeps (concat (map (claimed d) l)) d d' -> i ∈ l -> keeps (claimed d i) d d'.
Proof.
  intros Hk Hi b Hb. apply Hk. apply list_elem_of_In, in_concat. exists (claimed d i).
  split; [by apply in_map, list_elem_of_In|by apply list_elem_of_In].
Qed.

(** The state after the first phase. *)
Record ready (n : Z) (s : sfsck) : Prop := {
  rdy_tables : tables_ok n s;
  rdy_root : SFS_ROOTDIR_INO ∈ inos s;
  rdy_closed : forall i, i ∈ inos s -> sfi_type (inode_at (ck_disk s) i) = SFS_TYPE_DIR -> dir_closed s i;
  rdy_map : Forall (fun b => disk_mapbit (ck_disk s) b = true) (used n s)
}.

Lemma map_written_ready n s s' : tables_ok n s -> SFS_ROOTDIR_INO ∈ inos s ->
  (forall i, i ∈ inos s -> sfi_type (inode_at (ck_disk s) i) = SFS_TYPE_DIR -> dir_closed s i) ->
  map_written (SFS_FREEMAPBLOCKS n) s s' -> ready n s'.
Proof.
  intros Hc Hroot Hcl Hw. pose proof (map_written_keeps n s s' Hc Hw) as Hk. pose proof Hc as [H1 [V1 V2 V3] [M1 M2 M3] [B1 B2 B3]].
  pose proof Hw as (d & bad & Hs' & _ & D1 & D2 & _). assert (inos s' = inos s) as N by by rewrite Hs'.
  assert (used n s' = used n s) as Hu by (unfold used, used_blocks; by rewrite N, (claimed_keeps_all (ck_disk s))).
  cbn [app] in B1, B2. change (used_blocks n (ck_disk s) (in_ino <$> inodes s)) with (used n s) in *. split.
  - split; [by rewrite Hs'|rewrite Hs'; split; [done|cbn; by rewrite D2|done]|rewrite Hs'; by split|].
    split; cbn [app]; change (used_blocks n (ck_disk s') (in_ino <$> inodes s')) with (used n s'); rewrite ?Hu; [done|by rewrite Hs'|].
    rewrite Forall_forall in B3 |- *. replace (inodes s') with (inodes s) by by rewrite Hs'. intros e He.
    apply (checked_keeps (ck_disk s)); [|by apply B3]. apply (keeps_claimed _ _ (inos s)); [done|by apply list_elem_of_fmap_2].
  - by rewrite N.
  - rewrite N. intros i Hi Ht. pose proof (keeps_claimed _ _ _ _ Hk Hi) as Hki. destruct (inode_keeps _ _ _ Hki) as [E1 _].
    rewrite E1 in Ht. apply (dir_closed_keeps s); [done|by rewrite N|by apply Hcl].
  - rewrite Hu. apply (Forall_impl _ _ _ B2). intros b [Hb Hm]. rewrite <- H1 in Hw, Hb. by rewrite (map_written_bit s s').
Qed.

Lemma clp_phase1 fuel s (Q : unit -> sfsck -> Prop) : volume_present s ->
  (forall s', ready (sb_nblocks (ck_sb s)) s' -> Q tt s') -> clp (phase1 fuel) Q s.
Proof.
  intros V HQ.
  set (n := sb_nblocks (ck_sb s)). pose proof (vp_size s V) as Vs. fold n in Vs. change SFS_FREEMAP_START with 2 in Vs.
  destruct (fixed_range n) as [R1 R2]; [lia|].
  assert (0 <= SFS_FREEMAPBLOCKS n) as Hpos by (apply Z.div_pos; [by apply wrap_bound|done]).
  unfold phase1. clp_step. apply clp_freemap_setup; [done|]. intros s1 C1 I1 B1. fold n in C1.
  clp_step. eapply clp_mono; [apply (clp_pass1 n); [done|done| |unfold SFS_ROOTDIR_INO; lia]|].
  { unfold fixed_blocks. intros [H|H]%elem_of_cons; [done|]. apply list_elem_of_fmap in H as (k & Hk & Hin). apply elem_of_seqZ in Hin.
    unfold SFS_ROOTDIR_INO, SFS_FREEMAP_START in Hk. lia. }
  intros [] s2 (C2 & Hroot & Hcl & B2). pose proof C2 as [N2 V2 M2 _].
  apply (clp_wp _ _ (fun _ _ => False)). eapply wp_use; [by apply wp_freemap_check|]. intros [] s3 Hw _. rewrite N2 in Hw.
  apply HQ, (map_written_ready n s2); [done|done| |done]. intros i Hi Ht. apply Hcl; [done| |done].
  unfold inos. rewrite I1. apply not_elem_of_nil.
Qed.

(** Nothing in it depends on the state of the program. *)
Lemma ready_consistent n s : ready n s -> consistent n (ck_disk s) (inos s).
Proof.
  intros [[_ _ _ [B1 B2 B3]] R2 R3 R4]. cbn [app] in B1, B2. rewrite Forall_forall in B3.
  assert (forall i, i ∈ inos s -> exists e, in_ino e = i /\ inode_checked (ck_disk s) e) as Hch.
  { intros i (e & -> & He)%list_elem_of_fmap. exists e. split; [done|by apply B3]. }
  split; [done| |done|..|done| |].
  - apply (Forall_impl _ _ _ B2). by intros b [Hb _].
  - apply Forall_forall. intros i Hi. destruct (Hch i Hi) as (e & <- & [[T1 T2] _]). by rewrite T1.
  - apply Forall_forall. intros i Hi. destruct (Hch i Hi) as (e & <- & [_ Heof]). exact Heof.
  - apply Forall_forall. intros i Hi Ht. apply (R3 i Hi Ht).
  - intros i j e Hi Ht Hj He. by apply (proj2 (R3 i Hi Ht) j e Hj He).
Qed.

(** A volume of 16 blocks: the root has one entry, the file of inode 5, which
    still points to block 7, past its end; the free map is blank. *)
Module Example.
Definition name_a : list Z := 97 :: replicate 59 0.
Definition root : sfs_dinode := Dinode 64 SFS_TYPE_DIR 2 (4 :: replicate 14 0) 0 (replicate 110 0).
Definition file : sfs_dinode := Dinode 10 SFS_TYPE_FILE 1 (6 :: 7 :: replicate 13 0) 0 (replicate 110 0).
Definition blank : list Z := replicate 512 0.
Definition superblock : sfs_superblock := Superblock SFS_MAGIC 16 (replicate 32 0) (replicate 118 0).
Definition image : list Z :=
  bytes_of_sb superblock ++ bytes_of_dinode root ++ blank ++ blank ++
  bytes_of_direntries (Direntry 5 name_a :: replicate 7 empty_direntry) ++ bytes_of_dinode file ++ concat (replicate 10 blank).
Definition start : sfsck := set_ck_sb superblock (sfsck_start (RawDisk true 16 0 image []) []).
End Example.

Lemma example_present : volume_present Example.start.
Proof.
  split; [|by vm_compute|done]. split; [done|by vm_compute|by vm_compute|constructor|].
  change (Forall (fun b => 0 <= b < 256) Example.image). apply (proj2 (Forall_forall _ _)). intros b Hb%list_elem_of_In.
  assert (forallb (fun b => (0 <=? b) && (b <? 256)) Example.image = true) as H by by vm_compute.
  rewrite forallb_forall in H. specialize (H b Hb). lia.
Qed.
