(* ===== verification/SfsckPass2.v ===== *)
(** * Checking a volume: what the second phase keeps

    Pass 2 and the adjustment of link counts write directories and inodes
    again.  They change sizes, link counts and entries, but no pointer: the
    blocks keep their owners ([tidied]), and what pass 1 established
    ([ready]) stays. *)

From S2P Require Import Prelude Bitmap Vnode SfsDisk Printf PrintfSpec CString CStringSpec Qsort SbinDisk Mksfs Sfsck.
From S2P Require Import SfsckTables SfsckSound SfsckDirs SfsckWalk SfsckCheck.

(** ** What pass 2 may change *)

Definition visited (s : sfsck) (i : Z) : Prop := exists e, e ∈ inodes s /\ in_ino e = i /\ in_visited e = true.

Record same_pointers (i i' : sfs_dinode) : Prop := {
  sp_type : sfi_type i' = sfi_type i;
  sp_direct : sfi_direct i' = sfi_direct i;
  sp_indirect : sfi_indirect i' = sfi_indirect i
}.

(** No pointer has changed, and of the directories visited before only those
    in [l] have. *)
Record tidied (l : list Z) (s s' : sfsck) : Prop := {
  td_inos : inos s' = inos s;
  td_pointers : forall i, i ∈ inos s -> same_pointers (inode_at (ck_disk s) i) (inode_at (ck_disk s') i) /\
    idwords_at (ck_disk s') (sfi_indirect (inode_at (ck_disk s) i)) = idwords_at (ck_disk s) (sfi_indirect (inode_at (ck_disk s) i));
  td_visited : forall i, visited s i -> visited s' i /\ (i ∉ l -> inode_at (ck_disk s') i = inode_at (ck_disk s) i)
}.

Lemma same_pointers_refl i : same_pointers i i.
Proof. by split. Qed.

Lemma same_pointers_trans i1 i2 i3 : same_pointers i1 i2 -> same_pointers i2 i3 -> same_pointers i1 i3.
Proof. intros [A1 A2 A3] [B1 B2 B3]. split; congruence. Qed.

Lemma tidied_trans l1 l2 s1 s2 s3 : tidied l1 s1 s2 -> tidied l2 s2 s3 -> tidied (l1 ++ l2) s1 s3.
Proof.
  intros [A1 A2 A3] [B1 B2 B3]. split; [congruence| |].
  - intros i Hi. destruct (A2 i Hi) as [P1 W1]. destruct (B2 i) as [P2 W2]; [by rewrite A1|].
    split; [by apply (same_pointers_trans _ _ _ P1)|]. rewrite (sp_indirect _ _ P1) in W2. congruence.
  - intros i Hv. destruct (A3 i Hv) as [V1 E1]. destruct (B3 i V1) as [V2 E2]. split; [done|]. intros Hn.
    rewrite E2, E1; [done|..]; intros Hin; apply Hn, elem_of_app; [by left|by right].
Qed.

Lemma tidied_sub l l' s s' : l ⊆ l' -> tidied l s s' -> tidied l' s s'.
Proof.
  intros Hl [A1 A2 A3]. split; [done|done|]. intros i Hv. destruct (A3 i Hv) as [V E]. split; [done|].
  intros Hn. apply E. intros Hin. by apply Hn, Hl.
Qed.

Lemma tidied_claimed l s s' i : tidied l s s' -> i ∈ inos s -> claimed (ck_disk s') i = claimed (ck_disk s) i.
Proof.
  intros H Hi. destruct (td_pointers _ _ _ H i Hi) as [[P1 P2 P3] W]. unfold claimed, inode_blocks, file_blocks.
  by rewrite P2, P3, W.
Qed.

Lemma tidied_used n l s s' : tidied l s s' -> used n s' = used n s.
Proof.
  intros H. unfold used, used_blocks. rewrite (td_inos _ _ _ H). do 2 f_equal. apply map_ext_in.
  intros i Hi%list_elem_of_In. by apply (tidied_claimed l).
Qed.

(** ** The free map on the disk *)

Lemma map_kept n d d' b : 2 + SFS_FREEMAPBLOCKS n <= n <= 2 ^ 23 -> 0 <= b < n -> keeps (fixed_blocks n) d d' ->
  disk_mapbit d' b = disk_mapbit d b.
Proof.
  intros Hn Hb Hk. unfold disk_mapbit. rewrite Hk; [done|]. destruct (freemap_sizes n) as [H1 H2]; [lia|lia|].
  apply list_elem_of_further, list_elem_of_fmap. exists (b / SFS_BITSPERBLOCK). split; [done|].
  apply elem_of_seqZ. change SFS_BITSPERBLOCK with 4096. Z.div_mod_to_equations. lia.
Qed.

Lemma tables_small n s : tables_ok n s -> 2 + SFS_FREEMAPBLOCKS n <= n <= 2 ^ 23.
Proof.
  intros [H1 H2 _ _]. pose proof (fits_small s H2) as [H3 _]. destruct H2 as [_ H2 _]. rewrite H1 in H2, H3.
  change SFS_FREEMAP_START with 2 in H2. lia.
Qed.

Lemma map_stays n s s' : tables_ok n s -> used n s' = used n s -> keeps (fixed_blocks n) (ck_disk s) (ck_disk s') ->
  Forall (fun b => disk_mapbit (ck_disk s) b = true) (used n s) -> Forall (fun b => disk_mapbit (ck_disk s') b = true) (used n s').
Proof.
  intros Hc Hu Hk Hm. rewrite Hu. rewrite Forall_forall in Hm |- *. intros b Hb.
  rewrite (map_kept n (ck_disk s)); [by apply Hm|by apply (tables_small n s)| |done].
  by apply (used_range n [] (inodes s) s b Hc).
Qed.

(** The volume's own blocks belong to no inode. *)
Lemma fixed_not_claimed n s i b : tables_ok n s -> i ∈ inos s -> b ∈ claimed (ck_disk s) i -> b ∉ fixed_blocks n.
Proof.
  intros [_ _ _ [H _ _]] Hi Hb Hf. cbn [app] in H. unfold used_blocks in H. apply NoDup_app in H as (_ & H & _).
  apply (H b Hf). apply list_elem_of_In, in_concat. exists (claimed (ck_disk s) i).
  split; [by apply in_map, list_elem_of_In|by apply list_elem_of_In].
Qed.

(** ** Steps that write nothing *)

Lemma ready_touched n s s' : ready n s -> tables_ok n s' -> touched [] s s' -> ready n s' /\ tidied [] s s'.
Proof.
  intros [R1 R2 R3 R4] C T. assert (inos s' = inos s) as N by (unfold inos; by rewrite (touched_inodes _ _ _ T)).
  assert (forall i, i ∈ inos s -> keeps (claimed (ck_disk s) i) (ck_disk s) (ck_disk s')) as Hk.
  { intros i Hi b Hb. apply (touched_nil_at _ _ _ T). apply (used_range n [] (inodes s) s b R1). by apply (claimed_used n _ _ i). }
  assert (tidied [] s s') as TD.
  { split; [done| |].
    - intros i Hi. destruct (inode_keeps _ _ _ (Hk i Hi)) as [H1 H2]. rewrite H1. split; [apply same_pointers_refl|done].
    - intros i (e & He & <- & Hv). split; [exists e; by rewrite (touched_inodes _ _ _ T)|]. intros _.
      apply (inode_keeps _ _ _ (Hk _ (list_elem_of_fmap_2 in_ino _ _ He))). }
  split; [|done]. split; [done|by rewrite N| |].
  - rewrite N. intros i Hi Ht. destruct (inode_keeps _ _ _ (Hk i Hi)) as [H1 _]. rewrite H1 in Ht.
    apply (dir_closed_keeps s); [by apply Hk|by rewrite N|by apply R3].
  - apply (map_stays n s); [done|by apply (tidied_used n [])| |done]. intros b Hb. apply (touched_nil_at _ _ _ T).
    destruct (fixed_range n) as [Hr _]; [by apply (tables_small n s)|]. rewrite Forall_forall in Hr. by apply Hr.
Qed.

(** Another table with the same numbers. *)
Lemma checked_elem d l l' : (forall e', e' ∈ l' -> exists e, e ∈ l /\ in_ino e = in_ino e' /\ in_type e = in_type e') ->
  Forall (inode_checked d) l -> Forall (inode_checked d) l'.
Proof.
  intros H HF. rewrite Forall_forall in HF |- *. intros e' He'. destruct (H e' He') as (e & He & E1 & E2).
  destruct (HF e He) as [C1 C2]. rewrite E1 in C1, C2. rewrite E2 in C1. by split.
Qed.

Lemma used_perm n d l l' : l ≡ₚ l' -> used_blocks n d l ≡ₚ used_blocks n d l'.
Proof. intros H. unfold used_blocks. by rewrite H. Qed.

Lemma ready_table n s l m b : ready n s -> (in_ino <$> l) ≡ₚ inos s ->
  (forall e', e' ∈ l -> exists e, e ∈ inodes s /\ in_ino e = in_ino e' /\ in_type e = in_type e') ->
  ready n (set_inodes l m b s).
Proof.
  intros [[C1 [V1 V2 V3] [M1 M2 M3] [B1 B2 B3]] R2 R3 R4] Hp Ht. set (s' := set_inodes l m b s).
  assert (used n s' ≡ₚ used n s) as Hu by by apply used_perm.
  change (used_blocks n (ck_disk s) (in_ino <$> inodes s)) with (used n s) in *. cbn [app] in B1, B2. split.
  - split; [done|by split|by split|]. split; cbn [app]; change (used_blocks n (ck_disk s') (in_ino <$> inodes s')) with (used n s').
    + by rewrite Hu.
    + by rewrite Hu.
    + by apply (checked_elem _ (inodes s)).
  - change (SFS_ROOTDIR_INO ∈ in_ino <$> l). by rewrite Hp.
  - intros i Hi Hd. change (i ∈ in_ino <$> l) in Hi. rewrite Hp in Hi. destruct (R3 i Hi Hd) as [Z1 Z2]. split; [done|].
    intros j e Hj He H1 H2. change (sfd_ino e ∈ in_ino <$> l). rewrite Hp. by apply (Z2 j e).
  - by rewrite Hu.
Qed.

(** ** Writes *)

(** The entries of one directory. *)
Lemma ready_data n ino s s' : ready n s -> ino ∈ inos s -> tables_ok n s' -> data_only (inode_at (ck_disk s) ino) s s' ->
  dir_closed s' ino -> ready n s' /\ tidied [] s s'.
Proof.
  intros [R1 R2 R3 R4] Hi C D Hcl. pose proof (write_inos _ _ _ D) as N.
  assert (is_inode s ino (inode_at (ck_disk s) ino)) as II.
  { split_and!; [done|done|]. apply inode_at_shape, (fits_disk _ (chk_fits _ _ _ _ R1)). }
  assert (tidied [] s s') as TD.
  { split; [done| |].
    - intros i Hin. destruct (do_same _ _ _ D i Hin) as [H1 H2]. rewrite H1. split; [apply same_pointers_refl|done].
    - intros i (e & He & <- & Hv). split.
      + exists e. by rewrite (touched_inodes _ _ _ (do_touched _ _ _ D)).
      + intros _. apply (do_same _ _ _ D), (list_elem_of_fmap_2 in_ino _ _ He). }
  split; [|done]. split; [done|by rewrite N| |].
  - rewrite N. intros i Hin Ht. destruct (decide (i = ino)) as [->|Hne]; [done|].
    destruct (do_same _ _ _ D i Hin) as [H1 _]. rewrite H1 in Ht.
    apply (dir_closed_keeps s); [by apply (write_keeps n ino _ s s' R1 II D)|by rewrite N|by apply R3].
  - apply (map_stays n s); [done|by apply (tidied_used n [])| |done]. intros b Hb.
    apply (data_elsewhere n ino _ s s' R1 II D); [apply elem_of_app; by left|]. intros Hc. by apply (fixed_not_claimed n s ino b).
Qed.

Lemma pointers_file_blocks d i i' : same_pointers i i' -> file_blocks d i' = file_blocks d i.
Proof. intros [_ P2 P3]. unfold file_blocks. by rewrite P2, P3. Qed.

Lemma pointers_slot d i i' j : same_pointers i i' -> dir_slot d i' j = dir_slot d i j.
Proof. intros P. unfold dir_slot, file_block. by rewrite (pointers_file_blocks d i i'). Qed.

(** The inode block holds no pointers of any inode, and no entries. *)
Lemma inode_block_alone n s ino i : tables_ok n s -> ino ∈ inos s -> i ∈ inos s ->
  ino ∉ inode_blocks (ck_disk s) (inode_at (ck_disk s) i).
Proof.
  intros Hc Hi Hi' Hin. assert (ino = i) as <-.
  { apply (claimed_owner n s ino i ino Hc Hi Hi'); [apply list_elem_of_here|]. by apply list_elem_of_further. }
  pose proof (concat_nodup _ _ _ (tables_nodup n s Hc) Hi) as Hnd. by apply NoDup_cons in Hnd as [Hnd _].
Qed.

(** What an inode may be replaced with: it points to the same blocks, and
    what it makes of them is right. *)
Record may_replace (s : sfsck) (ino : Z) (sfi : sfs_dinode) : Prop := {
  mr_pointers : same_pointers (inode_at (ck_disk s) ino) sfi;
  mr_shape : dinode_shape sfi;
  mr_eof : ends_at_eof (ck_disk s) sfi;
  mr_closed : sfi_type sfi = SFS_TYPE_DIR -> sfi_size sfi mod sizeof_direntry = 0 /\
    forall j e, 0 <= j < dir_slots sfi -> dir_slot (ck_disk s) sfi j = Some e -> entry_closed s e
}.

Section rewrite_inode.
Context (n ino : Z) (sfi : sfs_dinode) (s s' : sfsck) (d : rawdisk).
Context (R : ready n s) (Hi : ino ∈ inos s) (MR : may_replace s ino sfi).
Context (Hs' : s' = set_ck_disk d s) (Hd : disk_ok d) (Hn : rd_nblocks d = rd_nblocks (ck_disk s)).
Context (Hat : inode_at d ino = sfi) (Hk : forall b, 0 <= b -> b <> ino -> dblock d b = dblock (ck_disk s) b).

Lemma rewrite_elsewhere i b : i ∈ inos s -> b ∈ inode_blocks (ck_disk s) (inode_at (ck_disk s) i) -> dblock d b = dblock (ck_disk s) b.
Proof.
  destruct R as [R1 _ _ _]. intros Hin Hb. apply Hk.
  - apply (used_range n [] (inodes s) s b R1), (claimed_used n _ _ i); [done|]. by apply list_elem_of_further.
  - intros ->. by apply (inode_block_alone n s ino i).
Qed.

Lemma rewrite_inode_at i : i ∈ inos s -> i <> ino -> inode_at d i = inode_at (ck_disk s) i.
Proof.
  destruct R as [R1 _ _ _]. intros Hin Hne. unfold inode_at. rewrite Hk; [done| |done].
  apply (used_range n [] (inodes s) s i R1), (claimed_used n _ _ i); [done|]. apply list_elem_of_here.
Qed.

Lemma rewrite_pointers i : i ∈ inos s -> same_pointers (inode_at (ck_disk s) i) (inode_at d i) /\
  idwords_at d (sfi_indirect (inode_at (ck_disk s) i)) = idwords_at (ck_disk s) (sfi_indirect (inode_at (ck_disk s) i)).
Proof.
  intros Hin. split.
  - destruct (decide (i = ino)) as [->|Hne]; [rewrite Hat; apply MR|]. rewrite rewrite_inode_at by done. apply same_pointers_refl.
  - unfold idwords_at. destruct (Z.eqb_spec (sfi_indirect (inode_at (ck_disk s) i)) 0) as [|Hne]; [done|].
    rewrite (rewrite_elsewhere i); [done|done|]. apply list_elem_of_filter. split; [done|]. apply list_elem_of_here.
Qed.

Lemma rewrite_tidied : tidied [ino] s s'.
Proof.
  split; rewrite Hs'; [done|exact rewrite_pointers|]. intros i (e & He & <- & Hv). split; [by exists e|].
  intros Hno. apply rewrite_inode_at; [by apply list_elem_of_fmap_2|]. intros Heq. apply Hno. rewrite Heq. apply list_elem_of_here.
Qed.

Lemma rewrite_files i i' : i ∈ inos s -> same_pointers (inode_at (ck_disk s) i) i' -> file_blocks d i' = file_blocks (ck_disk s) i'.
Proof. intros Hin [_ _ P3]. unfold file_blocks. rewrite P3. by rewrite (proj2 (rewrite_pointers i Hin)). Qed.

Lemma rewrite_slot i i' j : i ∈ inos s -> same_pointers (inode_at (ck_disk s) i) i' -> dir_slot d i' j = dir_slot (ck_disk s) i' j.
Proof.
  intros Hin P. unfold dir_slot. assert (forall k, file_block d i' k = file_block (ck_disk s) i' k) as Hf.
  { intros k. unfold file_block. by rewrite (rewrite_files i i'). }
  rewrite Hf. unfold dirblock_at. destruct (Z.eqb_spec (file_block (ck_disk s) i' (j / atonce)) 0) as [|Hne]; [done|].
  rewrite (rewrite_elsewhere i); [done|done|]. apply file_block_claimed in Hne. unfold inode_blocks in *.
  rewrite (pointers_file_blocks _ _ _ P), (sp_indirect _ _ P) in Hne. exact Hne.
Qed.

Lemma rewrite_tables : tables_ok n s'.
Proof.
  pose proof (tidied_used n _ _ _ rewrite_tidied) as Hu. destruct R as [[C1 [V1 V2 V3] [M1 M2 M3] [B1 B2 B3]] _ _ _]. cbn [app] in B1, B2.
  change (used_blocks n (ck_disk s) (in_ino <$> inodes s)) with (used n s) in *.
  split; [by rewrite Hs'|rewrite Hs'; split; [done|cbn; by rewrite Hn|done]|rewrite Hs'; by split|].
  split; cbn [app]; change (used_blocks n (ck_disk s') (in_ino <$> inodes s')) with (used n s'); rewrite ?Hu; [done|by rewrite Hs'|].
  rewrite Hs'. cbn [ck_disk inodes set_ck_disk]. rewrite Forall_forall in B3 |- *. intros e He. destruct (B3 e He) as [[T1 T2] E1].
  assert (in_ino e ∈ inos s) as Hin by by apply list_elem_of_fmap_2. destruct (rewrite_pointers (in_ino e) Hin) as [[P1 _ _] _].
  split; [by rewrite P1, T1|]. destruct (decide (in_ino e = ino)) as [->|Hne].
  - rewrite Hat, (rewrite_files ino) by (done || apply MR). apply MR.
  - rewrite rewrite_inode_at by done. rewrite (rewrite_files (in_ino e)) by (done || apply same_pointers_refl). exact E1.
Qed.

Lemma rewrite_ready : ready n s'.
Proof.
  pose proof R as [R1 R2 R3 R4]. split; [apply rewrite_tables|by rewrite Hs'| |].
  - rewrite Hs'. intros i Hin Ht. cbn [ck_disk set_ck_disk] in *. change (inos (set_ck_disk d s)) with (inos s) in Hin.
    unfold dir_closed. cbn [ck_disk set_ck_disk]. destruct (decide (i = ino)) as [->|Hne].
    + rewrite Hat in *. destruct (mr_closed _ _ _ MR Ht) as [Z1 Z2]. split; [done|]. intros j e Hj He.
      rewrite (rewrite_slot ino) in He by (done || apply MR). by apply (Z2 j e).
    + rewrite rewrite_inode_at in * by done. destruct (R3 i Hin Ht) as [Z1 Z2]. split; [done|]. intros j e Hj He.
      rewrite (rewrite_slot i) in He by (done || apply same_pointers_refl). by apply (Z2 j e).
  - apply (map_stays n s); [done|apply (tidied_used n _ _ _ rewrite_tidied)| |done]. intros b Hb. rewrite Hs'. cbn [ck_disk set_ck_disk].
    destruct (fixed_range n) as [Hr _]; [by apply (tables_small n s)|]. rewrite Forall_forall in Hr. apply Hk; [by apply Hr|].
    intros ->. apply (fixed_not_claimed n s ino ino R1 Hi); [apply list_elem_of_here|done].
Qed.
End rewrite_inode.

Lemma clp_rewrite_inode n ino sfi s (Q : unit -> sfsck -> Prop) : ready n s -> ino ∈ inos s -> may_replace s ino sfi ->
  (forall s', ready n s' -> tidied [ino] s s' -> inode_at (ck_disk s') ino = sfi -> inodes s' = inodes s -> Q tt s') ->
  clp (sfs_writeinode ino sfi) Q s.
Proof.
  intros R Hi MR HQ. pose proof R as [R1 _ _ _]. pose proof R1 as [C1 [V1 V2 V3] _ _].
  assert (0 <= ino < n) as Hr by (apply (used_range n [] (inodes s) s ino R1), (claimed_used n _ _ ino); [done|]; apply list_elem_of_here).
  destruct (inode_written sfi (mr_shape _ _ _ MR)) as [W1 W2].
  apply (clp_wp _ _ (fun _ _ => False)). unfold sfs_writeinode, on_ckdisk. wp_step.
  apply wp_diskwrite_block; [done|done|lia|]. intros d (D1 & D2 & D3 & D4 & D5) _.
  assert (inode_at d ino = sfi) as Hat by (unfold inode_at; by rewrite D4).
  apply HQ; [by apply (rewrite_ready n ino sfi s _ d)|by apply (rewrite_tidied n ino sfi s _ d)|done|done].
Qed.

(** ** The table of inodes in pass 2 *)

#[export] Instance grows_find_loop fuel table ino min max : Grows (inode_find_loop fuel table ino min max).
Proof. revert min max. induction fuel; intros min max; cbn [inode_find_loop]; grows. Qed.
#[export] Instance grows_find ino : Grows (inode_find ino).
Proof. unfold inode_find. grows. Qed.
#[export] Instance grows_update i e : Grows (update_inodeinfo i e).
Proof. unfold update_inodeinfo. grows. Qed.
#[export] Instance grows_visitdir ino : Grows (inode_visitdir ino).
Proof. unfold inode_visitdir. grows. Qed.
#[export] Instance grows_addlink ino : Grows (inode_addlink ino).
Proof. unfold inode_addlink. grows. Qed.

Lemma inos_nodup n s : tables_ok n s -> NoDup (inos s).
Proof.
  intros H%tables_nodup. induction (inos s) as [|i l IH]; [constructor|]. cbn [map concat] in H. apply NoDup_app in H as (_ & H1 & H2).
  constructor; [|by apply IH]. intros Hi. apply (H1 i); [apply list_elem_of_here|]. apply list_elem_of_In, in_concat.
  exists (claimed (ck_disk s) i). split; [by apply in_map, list_elem_of_In|]. apply list_elem_of_In, list_elem_of_here.
Qed.

Lemma clp_find ino s (Q : Z -> sfsck -> Prop) :
  (forall i e, zlookup (inodes s) i = Some e -> in_ino e = ino -> Q i s) -> clp (inode_find ino) Q s.
Proof.
  intros HQ. unfold inode_find. clp_steps. generalize 0. generalize (Z.of_nat (length (inodes s))).
  induction (S (length (inodes s))) as [|fuel IH]; intros max min; cbn [inode_find_loop]; [done|].
  clp_step. clp_step. destruct (min =? max); [clp_step|]. clp_step. apply clp_oob. intros e He.
  destruct (in_ino e <? ino); [apply IH|]. destruct (ino <? in_ino e); [apply IH|]. clp_steps.
  match goal with H : (in_ino e =? ino) = true |- _ => apply Z.eqb_eq in H end. by apply (HQ _ e).
Qed.

(** One entry of the table with other counts. *)
Lemma inos_update l i (e e' : inodeinfo) : zlookup l i = Some e -> in_ino e' = in_ino e -> in_ino <$> zinsert i e' l = in_ino <$> l.
Proof.
  intros He Hi. unfold zlookup, zinsert in *. destruct (0 <=? i); [|done]. rewrite list_fmap_insert, Hi.
  apply list_insert_id. by rewrite list_lookup_fmap, He.
Qed.

Lemma update_elem l i (e e' x : inodeinfo) : zlookup l i = Some e -> in_ino e' = in_ino e -> in_type e' = in_type e -> x ∈ zinsert i e' l ->
  exists y, y ∈ l /\ in_ino y = in_ino x /\ in_type y = in_type x.
Proof.
  intros He Hi Ht Hx. pose proof (zlookup_in _ _ _ He) as Hin. unfold zlookup, zinsert in *. destruct (0 <=? i); [|by exists x].
  apply list_elem_of_lookup in Hx as [k Hk]. destruct (decide (k = Z.to_nat i)) as [->|Hne].
  - rewrite list_lookup_insert_eq in Hk by by apply lookup_lt_Some in He. injection Hk as <-. by exists e.
  - rewrite list_lookup_insert_ne in Hk by done. exists x. split; [|done]. by apply list_elem_of_lookup_2 in Hk.
Qed.

Lemma ready_update n s i e e' : ready n s -> zlookup (inodes s) i = Some e -> in_ino e' = in_ino e -> in_type e' = in_type e ->
  (in_visited e = true -> in_visited e' = true) ->
  let s' := set_inodes (zinsert i e' (inodes s)) (maxinodes s) (inodes_sorted s) s in ready n s' /\ tidied [] s s'.
Proof.
  intros R He Hi Ht Hv s'. split.
  - apply ready_table; [done|by rewrite (inos_update _ i e)|]. intros x Hx. by apply (update_elem _ i e e').
  - split; [by apply inos_update with (e := e)|intros j _; split; [apply same_pointers_refl|done]|].
    intros j (x & Hx & Hj & Hvx). split; [|done]. apply list_elem_of_lookup in Hx as [k Hk].
    unfold zlookup in He. destruct (0 <=? i) eqn:Hp; [|done]. unfold visited, s'. cbn [inodes set_inodes]. unfold zinsert. rewrite Hp.
    destruct (decide (k = Z.to_nat i)) as [->|Hne].
    + exists e'. rewrite He in Hk. injection Hk as ->. split_and!; [|congruence|by apply Hv].
      apply (list_elem_of_lookup_2 _ (Z.to_nat i)). apply list_lookup_insert_eq. by apply lookup_lt_Some in He.
    + exists x. split; [|done]. apply (list_elem_of_lookup_2 _ k). by rewrite list_lookup_insert_ne.
Qed.

Lemma entry_type n s e : tables_ok n s -> e ∈ inodes s -> sfi_type (inode_at (ck_disk s) (in_ino e)) = in_type e.
Proof. intros [_ _ _ [_ _ H]] He. rewrite Forall_forall in H. apply (H e He). Qed.

(** A directory is visited for the first time, or has been. *)
Lemma clp_visitdir n ino s (Q : bool -> sfsck -> Prop) : ready n s ->
  (ino ∈ inos s -> Q true s) ->
  (forall s', ready n s' -> tidied [] s s' -> ino ∈ inos s -> sfi_type (inode_at (ck_disk s) ino) = SFS_TYPE_DIR ->
     ~ visited s ino -> visited s' ino -> ck_disk s' = ck_disk s -> Q false s') ->
  clp (inode_visitdir ino) Q s.
Proof.
  intros R HQ1 HQ2. unfold inode_visitdir. clp_step. apply clp_find. intros i e He Hino. clp_step. clp_step. clp_step. apply clp_oob.
  intros e' He'. rewrite He in He'. injection He' as <-. clp_steps.
  match goal with H : (in_type e =? _) = true |- _ => apply Z.eqb_eq in H; rename H into Ht end.
  pose proof (zlookup_in _ _ _ He) as Hin. assert (ino ∈ inos s) as Hi by (rewrite <- Hino; by apply list_elem_of_fmap_2).
  destruct (in_visited e) eqn:Hv; [clp_steps; by apply HQ1|]. unfold update_inodeinfo. clp_steps.
  destruct (ready_update n s i e (InodeInfo (in_ino e) (in_linkcount e) true (in_type e)) R He eq_refl eq_refl) as [R' T']; [done|].
  apply HQ2; [done|done|done| | | |done].
  - rewrite <- Hino, (entry_type n s e) by (done || apply R). done.
  - intros (x & Hx & Hxi & Hxv). assert (e = x) as ->; [|congruence].
    apply (distinct_lookup (inodes s) i x e); [apply (inos_nodup n s), R|done|done|congruence].
  - exists (InodeInfo (in_ino e) (in_linkcount e) true (in_type e)). split; [|done]. cbn [inodes set_inodes].
    unfold zlookup, zinsert in *. destruct (0 <=? i); [|done]. apply (list_elem_of_lookup_2 _ (Z.to_nat i)).
    apply list_lookup_insert_eq. by apply lookup_lt_Some in He.
Qed.

Lemma clp_addlink n ino s (Q : unit -> sfsck -> Prop) : ready n s ->
  (forall s', ready n s' -> tidied [] s s' -> ino ∈ inos s -> Q tt s') -> clp (inode_addlink ino) Q s.
Proof.
  intros R HQ. unfold inode_addlink. clp_step. apply clp_find. intros i e He Hino. clp_step. clp_step. clp_step. apply clp_oob.
  intros e' He'. rewrite He in He'. injection He' as <-. unfold update_inodeinfo. clp_steps.
  destruct (ready_update n s i e (InodeInfo (in_ino e) (u32 (in_linkcount e + 1)) (in_visited e) (in_type e)) R He eq_refl eq_refl) as [R' T']; [done|].
  apply HQ; [done|done|]. rewrite <- Hino. apply list_elem_of_fmap_2. by apply zlookup_in in He.
Qed.

(** ** Reading any block *)

Definition same_disk (d d' : rawdisk) : Prop :=
  rd_open d' = rd_open d /\ rd_nblocks d' = rd_nblocks d /\ rd_file d' = rd_file d /\
  (Forall benign (rd_events d) -> Forall benign (rd_events d')).

Lemma same_disk_trans d1 d2 d3 : same_disk d1 d2 -> same_disk d2 d3 -> same_disk d1 d3.
Proof. intros (A1 & A2 & A3 & A4) (B1 & B2 & B3 & B4). split_and!; [congruence..|]. auto. Qed.

Lemma file_read_same len d r d' : file_read len d = Ret r d' -> same_disk d d'.
Proof.
  unfold file_read, bind, next_event, bind, get, file_advance, modify, put, ret. destruct (rd_events d) as [|e es] eqn:E.
  - intros [= <- <-]. split_and!; done.
  - assert (Forall benign (e :: es) -> Forall benign es) as Hf by by intros [_ ?]%Forall_cons.
    destruct (transfer_size (Some e) len); intros [= <- <-]; unfold same_disk; cbn; rewrite E; done.
Qed.

Lemma diskread_same b d r d' : diskread b d = Ret r d' -> same_disk d d'.
Proof.
  unfold diskread, bind at 1, get, bind at 1, KASSERT. destruct (rd_open d); [|done]. cbn [ret]. unfold bind, file_seek, modify.
  set (d1 := RawDisk _ _ _ _ _). assert (same_disk d d1) as S1 by by split_and!. generalize (transfer_fuel d) as fuel.
  intros fuel. revert S1. generalize (@nil Z) as cdata. generalize d1 as dd. clear d1. intros dd cdata. revert dd cdata. induction fuel as [|fuel IH]; intros d1 cdata S1; cbn [diskread_loop]; [done|].
  destruct (_ <? BLOCKSIZE); [|by intros [= <- <-]]. unfold bind. destruct (file_read _ d1) as [[len bytes] d2| | |] eqn:E; try done.
  apply file_read_same in E. pose proof (same_disk_trans _ _ _ S1 E) as S2.
  destruct len as [| |k]; [by apply IH|done|]. destruct (k =? 0); [done|]. by apply IH.
Qed.

Lemma clp_readinode_any n ino s (Q : sfs_dinode -> sfsck -> Prop) : tables_ok n s ->
  (forall sfi s', touched [] s s' -> tables_ok n s' -> Q sfi s') -> clp (sfs_readinode ino) Q s.
Proof.
  intros Hc HQ. unfold sfs_readinode. clp_step. unfold clp at 1, on_ckdisk, zoom.
  destruct (diskread ino (ck_disk s)) as [r d| | |] eqn:E; try done. intros _. clp_steps.
  apply diskread_same in E as (S1 & S2 & S3 & S4). pose proof Hc as [_ [[D1 D2 D3 D4 D5] _ _] _ _].
  assert (forall b, dblock d b = dblock (ck_disk s) b) as Hb by (intros b; unfold dblock; by rewrite S3).
  assert (touched [] s (set_ck_disk d s)) as T by (split; [done|done|]; intros b _ _; apply Hb).
  apply HQ; [done|]. apply (tables_read n s); [|done]. apply (checking_disk n [] (inodes s)); [done| |done|by intros b _].
  split; [congruence|by rewrite S2, S3|by rewrite S2|by apply S4|by rewrite S3].
Qed.

(** ** Repairing the entries *)

#[export] Instance grows_duplicate d i1 i2 : Grows (check_duplicate d i1 i2).
Proof. unfold check_duplicate. grows. Qed.
Lemma duplicates_cons d i j v : check_duplicates d (i :: j :: v) =
  (let* (d, c1) := check_duplicate d i j in let* (d, c2) := check_duplicates d (j :: v) in ret (d, c1 || c2)).
Proof. reflexivity. Qed.
#[export] Instance grows_duplicates d v : Grows (check_duplicates d v).
Proof. revert d. induction v as [|i [|j v] IH]; intros d; [apply grows_ret..|]. rewrite duplicates_cons. grows. Qed.
#[export] Instance grows_dots ino parent d a b : Grows (check_dots ino parent d a b).
Proof. revert a b. induction d as [|e d IH]; intros a b; cbn [check_dots]; grows. Qed.
#[export] Instance grows_missing name ino ds : Grows (add_missing name ino ds).
Proof. unfold add_missing. grows. Qed.

(** Steps of pass 2 that neither write nor find. *)
Definition clp_quiet {A} (n : Z) (m : M sfsck A) (P : A -> Prop) : Prop := forall s, tables_ok n s ->
  clp m (fun a s' => tables_ok n s' /\ touched [] s s' /\ P a) s.

Lemma quiet_ret {A} n (a : A) (P : A -> Prop) : P a -> clp_quiet n (ret a) P.
Proof. intros H s Hc. clp_steps. split_and!; [done|apply touched_refl|done]. Qed.

Lemma quiet_bind {A B} n (m : M sfsck A) (f : A -> M sfsck B) (P : A -> Prop) (Q : B -> Prop) : (forall a, Grows (f a)) ->
  clp_quiet n m P -> (forall a, P a -> clp_quiet n (f a) Q) -> clp_quiet n (bind m f) Q.
Proof.
  intros Hg Hm Hf s Hc. clp_step. eapply clp_mono; [by apply Hm|]. intros a s1 (C1 & T1 & P1).
  eapply clp_mono; [by apply Hf|]. intros b s2 (C2 & T2 & P2). split_and!; [done|by apply (touched_nil_trans s s1)|done].
Qed.

Lemma quiet_mark n (b : bool) code : clp_quiet n (when b (setbadness code)) (fun _ => True).
Proof. intros s Hc. by apply (clp_mark n). Qed.
Lemma quiet_bad n code : clp_quiet n (setbadness code) (fun _ => True).
Proof. apply (quiet_mark n true). Qed.
Lemma quiet_kassert n b : clp_quiet n (KASSERT b) (fun _ => b = true).
Proof. intros s Hc. clp_step. split_and!; [done|apply touched_refl|done]. Qed.
Lemma quiet_oob {A} n (o : option A) : clp_quiet n (oob o) (fun a => o = Some a).
Proof. intros s Hc. apply clp_oob. intros a Ha. split_and!; [done|apply touched_refl|done]. Qed.
Lemma quiet_fsck_name n name ino : length name = SFS_NAMELEN -> clp_quiet n (fsck_name name ino) (fun name' => length name' = SFS_NAMELEN).
Proof.
  intros Hl s Hc. apply clp_fsck_name; [done|]. intros name' s' G L. split_and!; [by apply (tables_same n s)|by apply table_same_touched|done].
Qed.
Lemma quiet_malloc n : clp_quiet n domalloc (fun _ => True).
Proof. intros s Hc. apply clp_domalloc. intros s' G. split_and!; [by apply (tables_same n s)|by apply table_same_touched|done]. Qed.

Lemma shape_lookup d i e : Forall direntry_shape d -> zlookup d i = Some e -> direntry_shape e.
Proof. intros H He. apply zlookup_in in He. rewrite Forall_forall in H. by apply H. Qed.

Lemma cleared_shape e : direntry_shape e -> direntry_shape (Direntry SFS_NOINO (clear_name (sfd_name e))).
Proof. intros [_ H]. split; [by vm_compute|]. cbn [sfd_name]. unfold clear_name. by rewrite zinsert_length. Qed.

(** The entries keep their shape and their number. *)
Definition entries_like (d d' : list sfs_direntry) : Prop := Forall direntry_shape d' /\ length d' = length d.

Lemma quiet_duplicate n d i1 i2 : Forall direntry_shape d -> clp_quiet n (check_duplicate d i1 i2) (fun r => entries_like d (fst r)).
Proof.
  intros Hd. assert (forall c, entries_like d (fst (d, c : bool))) as Hsame by by split.
  assert (forall i e c, direntry_shape e -> entries_like d (fst (zinsert i e d, c : bool))) as Hins.
  { intros i e c He. split; [by apply Forall_zinsert|apply zinsert_length]. }
  unfold check_duplicate. eapply quiet_bind; [grows|apply quiet_oob|]. intros d1 H1. eapply quiet_bind; [grows|apply quiet_oob|]. intros d2 H2.
  eapply quiet_bind; [grows|apply quiet_kassert|]. intros [] _. pose proof (shape_lookup _ _ _ Hd H1) as S1.
  destruct (_ || _); [by apply quiet_ret|]. eapply quiet_bind; [grows|apply quiet_oob|]. intros c _.
  destruct (c =? 0); [|by apply quiet_ret]. destruct (_ =? _).
  - eapply quiet_bind; [grows|apply quiet_bad|]. intros [] _. apply quiet_ret, Hins. by apply cleared_shape.
  - eapply quiet_bind; [grows|apply quiet_fsck_name, S1|]. intros name Hn. eapply quiet_bind; [grows|apply quiet_bad|]. intros [] _.
    apply quiet_ret, Hins. split; [apply S1|done].
Qed.

Lemma quiet_duplicates n d v : Forall direntry_shape d -> clp_quiet n (check_duplicates d v) (fun r => entries_like d (fst r)).
Proof.
  revert d. induction v as [|i [|j v] IH]; intros d Hd; [by apply quiet_ret..|].
  rewrite duplicates_cons. eapply quiet_bind; [grows|by apply quiet_duplicate|]. intros [d1 c1] [S1 L1]. cbn [fst] in *.
  eapply quiet_bind; [grows|by apply IH|]. intros [d2 c2] [S2 L2]. apply quiet_ret. split; [done|]. cbn [fst] in *. lia.
Qed.

Lemma quiet_dots n ino parent d a b : word_ok ino -> word_ok parent -> Forall direntry_shape d ->
  clp_quiet n (check_dots ino parent d a b) (fun r => entries_like d (fst (fst (fst r)))).
Proof.
  intros Hi Hp. revert a b. induction d as [|e d IH]; intros a b Hd; cbn [check_dots]; [by apply quiet_ret|].
  apply Forall_cons in Hd as [He Hd].
  assert (forall want, word_ok want -> clp_quiet n (if negb (sfd_ino e =? want) then setbadness EXIT_RECOV ;; ret (Direntry want (sfd_name e), true)
    else ret (e, false)) (fun r => direntry_shape (fst r))) as Hfix.
  { intros want Hw. destruct (negb _); [|by apply quiet_ret]. eapply quiet_bind; [grows|apply quiet_bad|]. intros [] _.
    apply quiet_ret. split; [done|apply He]. }
  apply (quiet_bind n _ _ (fun r => direntry_shape (fst (fst (fst r))))); [grows| |].
  - destruct (name_is e DOT); [|destruct (name_is e DOTDOT); [|by apply quiet_ret]];
      (eapply quiet_bind; [grows|by apply Hfix|]; intros [e1 c1] S1; eapply quiet_bind; [grows|apply quiet_kassert|]; intros [] _; by apply quiet_ret).
  - intros [[[e1 c1] a1] b1] S1. eapply quiet_bind; [grows|by apply IH|]. intros [[[d2 c2] a2] b2] [S2 L2]. apply quiet_ret.
    cbn [fst] in *. split; [by constructor|]. cbn [fst length]. by rewrite L2.
Qed.
