(* ===== verification/SfsckMain.v ===== *)
(** * Checking a volume: pass 2 and the whole program

    Pass 2 over the tree of directories, the link counts, and [main]: a
    volume that the checker calls clean or repaired is consistent. *)

From S2P Require Import Prelude Bitmap Vnode SfsDisk Printf PrintfSpec CString CStringSpec Qsort SbinDisk Mksfs Sfsck.
From S2P Require Import SfsckTables SfsckSound SfsckDirs SfsckWalk SfsckCheck SfsckPass2.

(** ** A directory under repair *)

Record repaired (sfi : sfs_dinode) (ds : dirstate) : Prop := {
  rp_shape : Forall direntry_shape (ds_entries ds);
  rp_count : dir_slots sfi <= ds_ndirentries ds <= Z.of_nat (length (ds_entries ds));
  rp_length : Z.of_nat (length (ds_entries ds)) = (dir_slots sfi + 7) / 8 * 8;
  rp_sfi : ds_sfi ds = set_dinode_size (u32 (ds_ndirentries ds * 64)) sfi;
  rp_same : ds_dchanged ds = false -> ds_ndirentries ds = dir_slots sfi /\ ds_ichanged ds = false;
  rp_isame : ds_ichanged ds = false -> ds_ndirentries ds = dir_slots sfi
}.

Lemma tryadd_like d k name ino d' : sfsdir_tryadd d k name ino = Some d' -> Forall direntry_shape d -> word_ok ino ->
  (length name < SFS_NAMELEN)%nat -> entries_like d d'.
Proof.
  intros H Hd Hi Hn. revert d d' Hd H. induction k as [|k IH]; intros [|e d] d' Hd H; cbn [sfsdir_tryadd] in H; [done..|].
  apply Forall_cons in Hd as [He Hd]. destruct (sfd_ino e =? SFS_NOINO).
  - injection H as <-. split; [|done]. constructor; [|done]. split; [done|]. cbn [sfd_name]. destruct He as [_ He].
    rewrite splice_length; [done|]. rewrite length_app, He. cbn [length]. unfold SFS_NAMELEN in *. lia.
  - destruct (sfsdir_tryadd d k name ino) as [d1|] eqn:E; [|done]. injection H as <-. destruct (IH d d1 Hd E) as [S1 L1].
    split; [by constructor|]. cbn. by rewrite L1.
Qed.

Lemma tryadd_more d k name ino : sfsdir_tryadd d k name ino = None -> is_Some (sfsdir_tryadd d (length d) name ino) -> (k < length d)%nat.
Proof.
  revert k. induction d as [|e d IH]; intros [|k] H1 H2; cbn [sfsdir_tryadd length] in *; try (by destruct H2); [lia|].
  destruct (sfd_ino e =? SFS_NOINO); [done|]. destruct (sfsdir_tryadd d k name ino) eqn:E; [done|].
  assert (k < length d)%nat; [|lia]. apply IH; [done|]. destruct (sfsdir_tryadd d (length d) name ino); [done|]. by destruct H2.
Qed.

Lemma u32_add_l a b : u32 (u32 a + b) = u32 (a + b).
Proof. unfold wrap. by rewrite Z.add_mod_idemp_l. Qed.

Lemma quiet_missing n name ino sfi ds : word_ok ino -> (length name < SFS_NAMELEN)%nat -> 0 <= dir_slots sfi -> repaired sfi ds ->
  clp_quiet n (add_missing name ino ds) (repaired sfi).
Proof.
  intros Hi Hn Hz [R1 R2 R3 R4 R5 R6]. unfold add_missing.
  destruct (sfsdir_tryadd (ds_entries ds) (Z.to_nat (ds_ndirentries ds)) name ino) as [d'|] eqn:E1.
  - destruct (tryadd_like _ _ _ _ _ E1) as [S1 L1]; [done..|]. eapply quiet_bind; [grows|apply quiet_bad|]. intros [] _.
    apply quiet_ret. split; cbn [ds_entries ds_ndirentries ds_sfi ds_dchanged ds_ichanged]; rewrite ?L1; done.
  - destruct (sfsdir_tryadd (ds_entries ds) (length (ds_entries ds)) name ino) as [d'|] eqn:E2.
    + destruct (tryadd_like _ _ _ _ _ E2) as [S1 L1]; [done..|]. pose proof (tryadd_more _ _ _ _ E1 (mk_is_Some _ _ E2)) as Hlt.
      eapply quiet_bind; [grows|apply quiet_bad|]. intros [] _.
      apply quiet_ret. split; cbn [ds_entries ds_ndirentries ds_sfi ds_dchanged ds_ichanged]; rewrite ?L1; try done; [lia|].
      rewrite R4. cbn [sfi_size set_dinode_size]. change sizeof_direntry with 64. rewrite u32_add_l. unfold set_dinode_size. cbn. do 2 f_equal. lia.
    + eapply quiet_bind; [grows|apply quiet_bad|]. intros [] _. by apply quiet_ret.
Qed.

Lemma quiet_sort n d nd : clp_quiet n (sfsdir_sort d nd) (fun _ => True).
Proof.
  intros s Hc. unfold clp, sfsdir_sort, init_with. destruct (qsort _ _ _ _); [|done..]. intros _. split_and!; [done|apply touched_refl|done].
Qed.

Lemma roundup_slots nd : 0 <= nd < 2 ^ 26 -> SFS_ROUNDUP nd atonce = (nd + 7) / 8 * 8.
Proof.
  intros H. unfold SFS_ROUNDUP. change atonce with 8. rewrite (wrap_small 32 (nd + 8 - 1)) by lia.
  rewrite wrap_small by (Z.div_mod_to_equations; lia). do 2 f_equal. lia.
Qed.

Lemma slots_bound sfi : dinode_shape sfi -> 0 <= dir_slots sfi < 2 ^ 26.
Proof. intros [[S1 S2] _ _ _ _ _]. unfold dir_slots. change sizeof_direntry with 64. Z.div_mod_to_equations. lia. Qed.

Lemma clp_pass2_load n ino parent sfi s (Q : dirstate -> sfsck -> Prop) : tables_ok n s -> is_inode s ino sfi ->
  sfi_size sfi mod sizeof_direntry = 0 -> word_ok ino -> word_ok parent ->
  (forall ds s', tables_ok n s' -> touched [] s s' -> repaired sfi ds -> Q ds s') -> clp (pass2_load ino parent sfi) Q s.
Proof.
  intros Hc Hi Hz Hw Hp HQ. pose proof (slots_bound sfi (proj2 (proj2 Hi))) as Hs. unfold pass2_load.
  change (sfi_size sfi / sizeof_direntry) with (dir_slots sfi). rewrite roundup_slots by lia.
  clp_step. eapply clp_mono; [by apply (quiet_malloc n)|]. intros [] s1 (C1 & T1 & _).
  clp_step. eapply clp_mono; [by apply (quiet_malloc n)|]. intros [] s2 (C2 & T2 & _).
  pose proof (touched_nil_trans _ _ _ T1 T2) as T02. pose proof (is_inode_kept n _ _ _ _ Hc T02 Hi) as I2.
  clp_step. apply (clp_readdir n ino); [done|done|]. intros d s3 T3 C3 I3 L3 D3. pose proof (touched_nil_trans _ _ _ T02 T3) as T03.
  assert (Forall direntry_shape d) as Sd.
  { apply (slots_shape n s2 ino sfi); [done|done|done|done]. }
  apply (clp_mono _ (fun a s' => tables_ok n s' /\ touched [] s3 s' /\ repaired sfi a));
    [|intros ds s' (H1 & H2 & H3); apply HQ; [done|by apply (touched_nil_trans s s3)|done]].
  clear HQ T3 I3 T03. revert C3. generalize s3.
  match goal with |- forall s0, _ -> clp ?m _ s0 => change (clp_quiet n m (repaired sfi)) end.
  eapply quiet_bind; [grows|apply quiet_sort|]. intros v _.
  eapply quiet_bind; [grows|by apply quiet_duplicates|]. intros [d1 c1] [S1 L1]. cbn [fst] in *.
  eapply quiet_bind; [grows|by apply quiet_dots|]. intros [[[d2 c2] seen1] seen2] [S2 L2]. cbn [fst] in *.
  set (ds := DirState _ _ _ _ _).
  assert (repaired sfi ds) as R0.
  { subst ds. split; cbn [ds_entries ds_ndirentries ds_sfi ds_dchanged ds_ichanged]; rewrite ?length_app, ?length_replicate, ?L2, ?L1.
    - apply Forall_app. split; [done|]. apply Forall_replicate, empty_shape.
    - lia.
    - Z.div_mod_to_equations. lia.
    - unfold set_dinode_size. rewrite wrap_small by lia. unfold dir_slots. change sizeof_direntry with 64 in *.
      assert (sfi_size sfi / 64 * 64 = sfi_size sfi) as -> by (Z.div_mod_to_equations; lia). by destruct sfi.
    - done.
    - done. }
  apply (quiet_bind n _ _ (repaired sfi)); [grows| |].
  - destruct seen1; [by apply quiet_ret|]. apply quiet_missing; [done|cbn; unfold SFS_NAMELEN; lia|lia|done].
  - intros ds1 R1. destruct seen2; [by apply quiet_ret|]. apply quiet_missing; [done|cbn; unfold SFS_NAMELEN; lia|lia|done].
Qed.

(** ** The children *)

#[export] Instance grows_pass2_child walk e k : (forall i, Grows (walk i)) -> Grows (pass2_child walk e k).
Proof. intros H. unfold pass2_child. grows. Qed.
#[export] Instance grows_pass2_children walk d k : (forall i, Grows (walk i)) -> Grows (pass2_children walk d k).
Proof. intros H. revert k. induction d as [|e d IH]; intros k; cbn [pass2_children]; grows. Qed.
#[export] Instance grows_pass2_load ino parent sfi : Grows (pass2_load ino parent sfi).
Proof. unfold pass2_load, sfsdir_sort. grows. Qed.
#[export] Instance grows_pass2_dir fuel ino parent : Grows (pass2_dir fuel ino parent).
Proof. revert ino parent. induction fuel as [|fuel IH]; intros ino parent; cbn [pass2_dir]; grows. Qed.

(** The walk of a subdirectory, as its caller sees it. *)
Definition tidies (n : Z) (walk : Z -> M sfsck bool) : Prop := forall ino s, ready n s ->
  clp (walk ino) (fun _ s' => ready n s' /\ tidied [] s s' /\ ino ∈ inos s) s.

Lemma tidied_refl n s : ready n s -> tidied [] s s.
Proof. intros R. apply (ready_touched n s s R (rdy_tables _ _ R)), touched_refl. Qed.

Lemma tidied_nil_trans s1 s2 s3 : tidied [] s1 s2 -> tidied [] s2 s3 -> tidied [] s1 s3.
Proof. apply (tidied_trans [] []). Qed.

(** Quiet steps, in a state that is ready. *)
Lemma clp_ready_quiet {A} n (m : M sfsck A) (P : A -> Prop) s (Q : A -> sfsck -> Prop) : clp_quiet n m P -> ready n s ->
  (forall a s', ready n s' -> tidied [] s s' -> touched [] s s' -> P a -> Q a s') -> clp m Q s.
Proof.
  intros Hm R HQ. eapply clp_mono; [apply Hm, R|]. intros a s' (C & T & HP). destruct (ready_touched n s s' R C T) as [R' T'].
  by apply HQ.
Qed.

Lemma entry_done_inos e s s' : inos s' = inos s -> entry_done e s -> entry_done e s'.
Proof. intros H. apply entry_done_mono. by rewrite H. Qed.

Lemma clp_pass2_child n walk e k s : tidies n walk -> (forall i, Grows (walk i)) -> ready n s -> direntry_shape e ->
  clp (pass2_child walk e k) (fun r s' => ready n s' /\ tidied [] s s' /\ entry_done (fst (fst r)) s') s.
Proof.
  intros Hw Hg R He. unfold pass2_child.
  assert (forall s' c (k' : Z), ready n s' -> tidied [] s s' -> (sfd_ino e <> SFS_NOINO -> is_dots e = false -> sfd_ino e ∈ inos s') ->
    clp (ret (e, c : bool, k')) (fun r s' => ready n s' /\ tidied [] s s' /\ entry_done (fst (fst r)) s') s') as Hsame.
  { intros s' c k' R' T' H. clp_steps. split_and!; [done|done|]. by split. }
  assert (forall s', ready n s' -> tidied [] s s' -> clp (setbadness EXIT_RECOV ;; ret (Direntry SFS_NOINO (clear_name (sfd_name e)), true, k))
    (fun r s' => ready n s' /\ tidied [] s s' /\ entry_done (fst (fst r)) s') s') as Hgone.
  { intros s1 R1 T1. clp_step. apply (clp_ready_quiet n _ _ s1 _ (quiet_bad n EXIT_RECOV) R1). intros [] s2 R2 T2 _ _. clp_steps.
    split_and!; [done|by apply (tidied_nil_trans s s1)|]. split; [by apply cleared_shape|by intros []]. }
  pose proof (tidied_refl n s R) as T0.
  destruct (Z.eqb_spec (sfd_ino e) SFS_NOINO) as [E0|E0]; [by apply Hsame|].
  destruct (name_is e DOT) eqn:E1; [apply Hsame; [done|done|unfold is_dots; by rewrite E1]|].
  destruct (name_is e DOTDOT) eqn:E2; [apply Hsame; [done|done|unfold is_dots; by rewrite E1, E2]|].
  clp_step. apply (clp_readinode_any n); [apply R|]. intros sub s1 T1 C1. destruct (ready_touched n s s1 R C1 T1) as [R1 TD1].
  destruct (_ =? SFS_TYPE_FILE).
  { clp_step. apply (clp_addlink n); [done|]. intros s2 R2 TD2 Hin. apply Hsame; [done|by apply (tidied_nil_trans s s1)|].
    intros _ _. by rewrite (td_inos _ _ _ TD2). }
  destruct (_ =? SFS_TYPE_DIR); [|by apply Hgone].
  clp_step. eapply clp_mono; [by apply Hw|]. intros c s2 (R2 & TD2 & Hin). pose proof (tidied_nil_trans _ _ _ TD1 TD2) as TD12.
  destruct c; [by apply Hgone|]. apply Hsame; [done|done|]. intros _ _. by rewrite (td_inos _ _ _ TD2).
Qed.

Lemma clp_pass2_children n walk d k s : tidies n walk -> (forall i, Grows (walk i)) -> ready n s -> Forall direntry_shape d ->
  clp (pass2_children walk d k) (fun r s' => ready n s' /\ tidied [] s s' /\ Forall (fun e => entry_done e s') (fst (fst r)) /\
    length (fst (fst r)) = length d) s.
Proof.
  intros Hw Hg. revert k s. induction d as [|e d IH]; intros k s R Hd; cbn [pass2_children].
  { clp_steps. split_and!; [done|by apply (tidied_refl n)|constructor|done]. }
  apply Forall_cons in Hd as [He Hd]. clp_step. eapply clp_mono; [by apply (clp_pass2_child n)|].
  intros [[e1 c1] k1] s1 (R1 & T1 & D1). clp_step. eapply clp_mono; [by apply IH|].
  intros [[d2 c2] k2] s2 (R2 & T2 & D2 & L2). clp_steps. cbn [fst] in *.
  split_and!; [done|by apply (tidied_nil_trans s s1)| |cbn; by rewrite L2].
  constructor; [|done]. apply (entry_done_inos _ s1); [apply (td_inos _ _ _ T2)|done].
Qed.

(** ** Writing the directory back *)

Lemma writedir_pointers sfi sfi' d m k left s : same_pointers sfi sfi' ->
  writedir_loop sfi' d m k left s = writedir_loop sfi d m k left s.
Proof.
  intros [_ P2 P3]. revert k left s. induction m as [|m IH]; intros k left s; cbn [writedir_loop]; [done|].
  assert (bmap sfi' k = bmap sfi k) as -> by (unfold bmap; by rewrite P2, P3).
  unfold bind. destruct (bmap sfi k s) as [b s1| | |]; [|done..].
  match goal with |- match ?m with _ => _ end = _ => destruct m as [[] s2| | |] end; [|done..]. apply IH.
Qed.

(** [eof_block] depends on the number of entries in eights. *)
Lemma eof_slots sfi nd : 0 <= nd <= 2 ^ 26 -> eof_block (set_dinode_size (u32 (nd * 64)) sfi) = ((nd + 7) / 8) mod 2 ^ 23.
Proof.
  intros H. unfold eof_block. cbn [sfi_size set_dinode_size]. unfold SFS_ROUNDUP. change SFS_BLOCKSIZE with 512.
  unfold wrap. Z.div_mod_to_equations. lia.
Qed.

(** The inode that pass 2 writes for a directory. *)
Definition new_inode (sfi : sfs_dinode) (ds : dirstate) (links : option Z) : sfs_dinode :=
  match links with Some c => set_linkcount (u16 c) (ds_sfi ds) | None => ds_sfi ds end.

Lemma new_pointers sfi ds links : repaired sfi ds -> same_pointers sfi (new_inode sfi ds links).
Proof. intros [_ _ _ R4 _ _]. unfold new_inode. destruct links; rewrite R4; by split. Qed.

Lemma new_size sfi ds links : repaired sfi ds -> sfi_size (new_inode sfi ds links) = u32 (ds_ndirentries ds * 64).
Proof. intros [_ _ _ R4 _ _]. unfold new_inode. destruct links; by rewrite R4. Qed.

Lemma new_shape sfi ds links : repaired sfi ds -> dinode_shape sfi -> dinode_shape (new_inode sfi ds links).
Proof.
  intros [_ _ _ R4 _ _] [S1 S2 S3 S4 S5 S6]. unfold new_inode. destruct links; rewrite R4; split; try done; cbn; by apply wrap_bound.
Qed.

Lemma new_slots sfi ds links : repaired sfi ds -> dinode_shape sfi -> 0 <= dir_slots (new_inode sfi ds links) <= ds_ndirentries ds.
Proof.
  intros R S. pose proof (slots_bound sfi S). pose proof R as [_ R2 R3 _ _ _].
  assert (ds_ndirentries ds <= 2 ^ 26) by (Z.div_mod_to_equations; lia). clear R3. set (m := dir_slots sfi) in *.
  unfold dir_slots. rewrite (new_size sfi) by done. change sizeof_direntry with 64. unfold wrap. Z.div_mod_to_equations. lia.
Qed.

Lemma whole_size sfi : sfi_size sfi mod sizeof_direntry = 0 -> dir_slots sfi * 64 = sfi_size sfi.
Proof. unfold dir_slots. change sizeof_direntry with 64. intros. Z.div_mod_to_equations. lia. Qed.

Lemma new_eof sfi ds links : repaired sfi ds -> dinode_shape sfi -> sfi_size sfi mod sizeof_direntry = 0 ->
  eof_block (new_inode sfi ds links) = eof_block sfi.
Proof.
  intros R S Hz. pose proof (slots_bound sfi S) as Hs. unfold eof_block. rewrite (new_size sfi) by done. destruct R as [_ R2 R3 _ _ _].
  assert (ds_ndirentries ds <= 2 ^ 26) by (Z.div_mod_to_equations; lia).
  pose proof (eof_slots sfi (ds_ndirentries ds) ltac:(lia)) as E1. pose proof (eof_slots sfi (dir_slots sfi) ltac:(lia)) as E2.
  unfold eof_block in E1, E2. cbn [sfi_size set_dinode_size] in E1, E2. rewrite whole_size, (wrap_small 32 (sfi_size sfi)) in E2 by (done || apply S).
  rewrite E1, E2. f_equal. Z.div_mod_to_equations. lia.
Qed.

(** What pass 2 writes at the end of a directory. *)
Definition write_back (ino : Z) (sfi : sfs_dinode) (ds : dirstate) (d : list sfs_direntry) (c ichanged : bool) : M sfsck bool :=
  when (ds_dchanged ds || c) (sfs_writedir sfi d (ds_ndirentries ds)) ;;
  when ichanged (sfs_writeinode ino sfi) ;;
  ret false.

Lemma clp_write_back n ino sfi ds d c links s : ready n s -> ino ∈ inos s -> inode_at (ck_disk s) ino = sfi ->
  sfi_type sfi = SFS_TYPE_DIR -> repaired sfi ds -> Forall direntry_shape d ->
  (forall j, 0 <= j < ds_ndirentries ds -> exists e, zlookup d j = Some e /\ entry_done e s) ->
  clp (write_back ino (new_inode sfi ds links) ds d c (ds_ichanged ds || bool_decide (is_Some links)))
    (fun _ s' => ready n s' /\ tidied [ino] s s') s.
Proof.
  intros R Hi Hat Hty RP Sd Hd. pose proof (rdy_tables _ _ R) as C.
  assert (dinode_shape sfi) as Sh by (rewrite <- Hat; apply inode_at_shape, (fits_disk _ (chk_fits _ _ _ _ C))).
  assert (is_inode s ino sfi) as II by done. pose proof (new_pointers sfi ds links RP) as NP.
  destruct (rdy_closed _ _ R ino Hi ltac:(by rewrite Hat)) as [Hz Hcl]. rewrite Hat in Hz, Hcl. pose proof (slots_bound sfi Sh) as Hsb.
  unfold write_back. clp_step.
  apply (clp_mono _ (fun _ s1 => ready n s1 /\ tidied [] s s1 /\ inode_at (ck_disk s1) ino = sfi /\
    forall j e, 0 <= j < dir_slots (new_inode sfi ds links) -> dir_slot (ck_disk s1) sfi j = Some e -> entry_closed s1 e)).
  { destruct (ds_dchanged ds || c) eqn:Hch; cbn [when].
    - assert (clp (writedir_loop sfi d (Z.to_nat (dirblocks (ds_ndirentries ds))) 0 (ds_ndirentries ds)) (fun _ s1 =>
        ready n s1 /\ tidied [] s s1 /\ inode_at (ck_disk s1) ino = sfi /\
        forall j e, 0 <= j < dir_slots (new_inode sfi ds links) -> dir_slot (ck_disk s1) sfi j = Some e -> entry_closed s1 e) s) as H.
      2: { unfold clp, sfs_writedir in *. by rewrite (writedir_pointers sfi). }
      apply (clp_writedir_loop n ino); [done|done|lia| |done|]. { destruct RP as [_ RP _ _ _ _]. lia. }
      intros s1 C1 [D1 W1 _]. pose proof (write_inos _ _ _ D1) as N1.
      assert (forall j e, 0 <= j < ds_ndirentries ds -> dir_slot (ck_disk s1) sfi j = Some e -> entry_closed s1 e) as Hcl1.
      { intros j e Hj He. destruct (W1 j Hj) as [H|(e' & H1 & H2)].
        - rewrite Z.add_0_l, He in H. injection H as ->. by intros [].
        - rewrite Z.add_0_l in H1, H2. rewrite He in H2. injection H2 as ->. destruct (Hd j Hj) as (e2 & H3 & H4).
          rewrite H1 in H3. injection H3 as <-. apply stored_closed. by apply (entry_done_inos _ s). }
      destruct (ready_data n ino s s1 R Hi C1) as [R1 T1]; [by rewrite Hat| |].
      { pose proof (data_only_inode _ _ _ _ _ D1 II) as (_ & Hat1 & _). split; rewrite Hat1; [done|]. intros j e Hj. apply Hcl1.
        destruct RP as [_ RP _ _ _ _]. lia. }
      pose proof (data_only_inode _ _ _ _ _ D1 II) as (_ & Hat1 & _). split_and!; [done|done|done|].
      intros j e Hj. apply Hcl1. pose proof (new_slots sfi ds links RP Sh). lia.
    - apply orb_false_iff in Hch as [Hch _]. clp_steps. split_and!; [done|by apply (tidied_refl n)|done|].
      intros j e Hj. apply Hcl. pose proof (new_slots sfi ds links RP Sh). destruct (rp_same _ _ RP Hch) as [Hnd _]. lia. }
  intros [] s1 (R1 & T1 & Hat1 & Hcl1). clp_step.
  assert (ino ∈ inos s1) as Hi1 by by rewrite (td_inos _ _ _ T1).
  assert (forall s2, ready n s2 -> tidied [ino] s1 s2 -> clp (ret false) (fun _ s' => ready n s' /\ tidied [ino] s s') s2) as Hret.
  { intros s2 R2 T2. clp_steps. split; [done|]. apply (tidied_trans [] [ino] s s1); done. }
  destruct (_ || _); cbn [when].
  - apply (clp_rewrite_inode n); [done|done| |]. 2: { intros s2 R2 T2 _ _. by apply Hret. }
    split; rewrite ?Hat1; [done|by apply new_shape| |].
    + unfold ends_at_eof. rewrite (new_eof sfi) by done. rewrite (pointers_file_blocks _ _ _ NP). pose proof (rdy_tables _ _ R1) as [_ _ _ [_ _ Hch]].
      rewrite Forall_forall in Hch. pose proof Hi1 as (e & He & Hin)%list_elem_of_fmap. destruct (Hch e Hin) as [_ Heof].
      rewrite <- He, Hat1 in Heof. exact Heof.
    + intros _. split.
      * rewrite (new_size sfi) by done. change sizeof_direntry with 64. unfold wrap. Z.div_mod_to_equations. lia.
      * intros j e Hj. rewrite (pointers_slot _ sfi) by done. by apply Hcl1.
  - apply clp_ret, Hret; [done|]. apply (tidied_sub []); [apply list_subseteq_nil|by apply (tidied_refl n)].
Qed.

Lemma word_of_ino n s i : ready n s -> i ∈ inos s -> 0 <= i < n /\ word_ok i.
Proof.
  intros R Hi. pose proof (rdy_tables _ _ R) as C. pose proof (tables_small n s C).
  assert (0 <= i < n) as Hr by (apply (used_range n [] (inodes s) s i C), (claimed_used n _ _ i); [done|]; apply list_elem_of_here).
  split; [done|]. unfold word_ok. lia.
Qed.

(** One directory of pass 2. *)
Lemma clp_pass2_dir n fuel : forall parent ino s, word_ok parent -> ready n s ->
  clp (pass2_dir fuel ino parent) (fun _ s' => ready n s' /\ tidied [] s s' /\ ino ∈ inos s) s.
Proof.
  induction fuel as [|fuel IH]; intros parent ino s Hp R; cbn [pass2_dir]; [done|].
  clp_step. apply (clp_visitdir n); [done|intros Hi; clp_steps; split_and!; [done|by apply (tidied_refl n)|done]|].
  intros s1 R1 T1 Hi Hty Hnv Hv D1. assert (ino ∈ inos s1) as Hi1 by by rewrite (td_inos _ _ _ T1).
  destruct (word_of_ino n s1 ino R1 Hi1) as [Hr Hw]. set (sfi := inode_at (ck_disk s1) ino).
  assert (sfi_type sfi = SFS_TYPE_DIR) as Hty1 by (subst sfi; by rewrite D1).
  clp_step. apply (clp_readinode n); [apply R1|done|]. intros s2 T2 C2. destruct (ready_touched n s1 s2 R1 C2 T2) as [R2 TD2].
  assert (inode_at (ck_disk s2) ino = sfi) as Hat2 by by apply (td_visited _ _ _ TD2 ino Hv), not_elem_of_nil.
  assert (ino ∈ inos s2) as Hi2 by by rewrite (td_inos _ _ _ TD2).
  rewrite Hat2. assert (is_inode s2 ino sfi) as II2.
  { split_and!; [done|done|]. rewrite <- Hat2. apply inode_at_shape, (fits_disk _ (chk_fits _ _ _ _ C2)). }
  destruct (rdy_closed _ _ R2 ino Hi2) as [Hz _]; [by rewrite Hat2|]. rewrite Hat2 in Hz.
  clp_step. apply (clp_pass2_load n); [done|done|done|done|done|]. intros ds s3 C3 T3 RP. destruct (ready_touched n s2 s3 R2 C3 T3) as [R3 TD3].
  clp_step. eapply clp_mono; [apply (clp_pass2_children n); [|intros; apply _|done|]|].
  { intros sub t Rt. by apply IH. }
  { apply Forall_take, RP. }
  intros [[d c] k] s4 (R4 & TD4 & D4 & L4). cbn [fst] in D4, L4.
  pose proof (tidied_nil_trans _ _ _ TD2 (tidied_nil_trans _ _ _ TD3 TD4)) as TD14.
  set (wrong := negb (sfi_linkcount (ds_sfi ds) =? u32 (k + 2))).
  clp_step. apply (clp_ready_quiet n _ _ s4 _ (quiet_mark n wrong EXIT_RECOV) R4). intros [] s5 R5 TD5 _ _.
  pose proof (tidied_nil_trans _ _ _ TD14 TD5) as TD15. destruct (td_visited _ _ _ TD15 ino Hv) as [_ Hat5].
  specialize (Hat5 (not_elem_of_nil _)). fold sfi in Hat5.
  set (links := if wrong then Some (k + 2) else None).
  replace (if wrong then set_linkcount (u16 (k + 2)) (ds_sfi ds) else ds_sfi ds) with (new_inode sfi ds links) by (subst links; by destruct wrong).
  replace wrong with (bool_decide (is_Some links)) by (subst links; by destruct wrong).
  match goal with |- clp ?m _ _ => change m with (write_back ino (new_inode sfi ds links) ds (d ++ drop (Z.to_nat (ds_ndirentries ds)) (ds_entries ds)) c
    (ds_ichanged ds || bool_decide (is_Some links))) end.
  assert (ino ∈ inos s5) as Hi5 by by rewrite (td_inos _ _ _ TD15).
  pose proof (slots_bound sfi (proj2 (proj2 II2))) as Hsb. pose proof RP as [P1 P2 P3 _ _ _].
  eapply clp_mono; [apply (clp_write_back n); [done|done|done|done|done| |]|].
  - apply Forall_app. split; [|by apply Forall_drop]. apply (Forall_impl _ _ _ D4). by intros e [He _].
  - intros j Hj. rewrite length_take in L4. destruct (zlookup_is_Some d j) as [e He]; [lia|]. exists e. split.
    + unfold zlookup in *. destruct (0 <=? j); [|done]. by rewrite lookup_app_l by lia.
    + apply (entry_done_inos _ s4); [apply (td_inos _ _ _ TD5)|]. rewrite Forall_forall in D4. apply D4. by apply zlookup_in in He.
  - intros r s6 [R6 TD6]. split_and!; [done| |done].
    pose proof (tidied_trans _ _ _ _ _ (tidied_nil_trans _ _ _ T1 TD15) TD6) as TD. destruct TD as [A1 A2 A3].
    split; [done|done|]. intros i Hvi. destruct (A3 i Hvi) as [V E]. split; [done|]. intros _. apply E. cbn [app].
    apply not_in_one. intros ->. done.
Qed.

(** ** Checking a volume: the whole program

    [main.c]: the superblock, the two phases and the link counts, composed. *)

#[export] Instance grows_sorttable : Grows inode_sorttable.
Proof. unfold inode_sorttable. grows. Qed.
#[export] Instance grows_pass2 fuel : Grows (pass2 fuel).
Proof. unfold pass2. grows. Qed.
#[export] Instance grows_filelinks_loop l : Grows (adjust_filelinks_loop l).
Proof. induction l as [|e l IH]; cbn [adjust_filelinks_loop]; grows. Qed.
#[export] Instance grows_filelinks : Grows inode_adjust_filelinks.
Proof. unfold inode_adjust_filelinks. grows. Qed.
#[export] Instance grows_setup : Grows sfs_setup.
Proof. unfold sfs_setup, check. grows. Qed.
#[export] Instance grows_sb_load : Grows sb_load.
Proof. unfold sb_load, sfs_readsb. grows. Qed.
#[export] Instance grows_sb_check : Grows sb_check.
Proof. unfold sb_check, sfs_writesb. grows. Qed.
#[export] Instance grows_freemap_setup : Grows freemap_setup.
Proof. unfold freemap_setup, sb_freemapblocks. grows. Qed.

(** ** The table is sorted, and the link counts are adjusted *)

Lemma inos_count n s : ready n s -> Z.of_nat (length (inodes s)) <= n.
Proof.
  intros R. pose proof (tables_small n s (rdy_tables _ _ R)) as Hn. pose proof (inos_nodup n s (rdy_tables _ _ R)) as Hd.
  assert (length (inos s) <= length (seqZ 0 n))%nat as Hl.
  { apply submseteq_length, NoDup_submseteq; [done|]. intros i Hi. apply elem_of_seqZ. destruct (word_of_ino n s i R Hi). lia. }
  destruct (word_of_ino n s _ R (rdy_root _ _ R)). unfold inos in Hl. rewrite length_fmap, length_seqZ in Hl. lia.
Qed.

Lemma clp_sorttable n s (Q : unit -> sfsck -> Prop) : ready n s ->
  (forall s', ready n s' -> Q tt s') -> clp inode_sorttable Q s.
Proof.
  intros R HQ. pose proof (inos_count n s R). pose proof (tables_small n s (rdy_tables _ _ R)).
  destruct (inode_sorttable_sorts s) as (table & E & P & _ & _); [apply (inos_nodup n s), R|lia|].
  unfold clp. rewrite E. intros _. apply HQ. apply ready_table; [done|unfold inos; by rewrite P|].
  intros e He. exists e. by rewrite <- P.
Qed.

Lemma linkcount_replaces n s ino c : ready n s -> ino ∈ inos s -> sfi_type (inode_at (ck_disk s) ino) = SFS_TYPE_FILE ->
  may_replace s ino (set_linkcount (u16 c) (inode_at (ck_disk s) ino)).
Proof.
  intros R Hi Ht. pose proof (rdy_tables _ _ R) as C.
  pose proof (inode_at_shape (ck_disk s) ino (fits_disk _ (chk_fits _ _ _ _ C))) as [S1 S2 S3 S4 S5 S6]. split; [done| | |].
  - split; try done. cbn. by apply wrap_bound.
  - destruct C as [_ _ _ [_ _ Hch]]. rewrite Forall_forall in Hch. pose proof Hi as (e & He & Hin)%list_elem_of_fmap.
    destruct (Hch e Hin) as [_ Heof]. rewrite <- He in Heof. exact Heof.
  - cbn [sfi_type set_linkcount]. rewrite Ht. done.
Qed.

Lemma clp_filelinks n l s (Q : unit -> sfsck -> Prop) : ready n s -> (in_ino <$> l) ⊆ inos s ->
  (forall s', ready n s' -> Q tt s') -> clp (adjust_filelinks_loop l) Q s.
Proof.
  revert s. induction l as [|e l IH]; intros s R Hl HQ; cbn [adjust_filelinks_loop]; [clp_steps; by apply HQ|].
  assert (in_ino e ∈ inos s) as He by (apply Hl; apply list_elem_of_here).
  assert ((in_ino <$> l) ⊆ inos s) as Hl' by (intros x Hx; apply Hl; by apply list_elem_of_further).
  clp_step. destruct (in_type e =? SFS_TYPE_DIR); [clp_steps; by apply IH|]. clp_steps.
  apply (clp_readinode n); [apply R|by apply (word_of_ino n s)|]. intros s1 T1 C1. destruct (ready_touched n s s1 R C1 T1) as [R1 TD1].
  assert (inos s1 = inos s) as N1 by apply (td_inos _ _ _ TD1). clp_step. clp_step.
  match goal with H : (sfi_type (inode_at (ck_disk s1) _) =? _) = true |- _ => apply Z.eqb_eq in H; rename H into Ht end.
  destruct (negb _); cbn [when]; [|clp_steps; apply IH; [done|by rewrite N1|done]].
  clp_step. apply (clp_ready_quiet n _ _ s1 _ (quiet_bad n EXIT_RECOV) R1). intros [] s2 R2 TD2 T2 _.
  assert (inode_at (ck_disk s2) (in_ino e) = inode_at (ck_disk s1) (in_ino e)) as Hat.
  { unfold inode_at. rewrite (touched_nil_at _ _ _ T2); [done|]. apply (word_of_ino n s1); [done|by rewrite N1]. }
  assert (inos s2 = inos s) as N2 by by rewrite (td_inos _ _ _ TD2).
  rewrite <- Hat in Ht |- *. apply (clp_rewrite_inode n); [done|by rewrite N2|apply (linkcount_replaces n); [done|by rewrite N2|done]|].
  intros s3 R3 TD3 _ _. apply IH; [done|rewrite (td_inos _ _ _ TD3), N2; done|done].
Qed.

(** ** The superblock *)

Lemma sb_read_shape bytes : Forall byte_ok bytes -> length bytes = Z.to_nat BLOCKSIZE -> sb_shape (sb_of_bytes bytes).
Proof.
  intros Hb Hl. split; cbn [sb_of_bytes sb_magic sb_nblocks sb_volname sb_reserved].
  - exact (slice_be 4 0 _ Hb).
  - exact (slice_be 4 4 _ Hb).
  - rewrite slice_length; [done|]. rewrite Hl. unfold SFS_VOLNAME_SIZE, BLOCKSIZE. lia.
  - split; [apply words_of_bytes_length|by apply words_of_bytes_ok, Forall_drop].
Qed.

(** What the two steps on the superblock leave. *)
Record loaded (n m : Z) (s : sfsck) : Prop := {
  ld_disk : disk_ok (ck_disk s);
  ld_blocks : rd_nblocks (ck_disk s) = m;
  ld_size : sb_nblocks (ck_sb s) = n;
  ld_inodes : inodes s = []
}.

Lemma loaded_bad n m b s : loaded n m s -> loaded n m (set_badness b s).
Proof. by intros [? ? ? ?]; split. Qed.

Lemma clp_loaded_when n m (b : bool) code s (Q : unit -> sfsck -> Prop) : loaded n m s ->
  (forall s', loaded n m s' -> ck_sb s' = ck_sb s -> Q tt s') -> clp (when b (setbadness code)) Q s.
Proof.
  intros L HQ. destruct b; cbn [when]; [|clp_step; by apply HQ]. unfold clp. rewrite setbadness_max. intros _.
  apply HQ; [by apply loaded_bad|done].
Qed.

Lemma clp_sb_load m s (Q : unit -> sfsck -> Prop) : disk_ok (ck_disk s) -> rd_nblocks (ck_disk s) = m -> 0 < m -> inodes s = [] ->
  (forall s', loaded (sb_nblocks (sb_of_bytes (dblock (ck_disk s) 0))) m s' -> sb_shape (ck_sb s') -> Q tt s') -> clp sb_load Q s.
Proof.
  intros D M Hm I HQ. unfold sb_load, sfs_readsb. clp_step. clp_step. apply (clp_wp _ _ (fun _ _ => False)). unfold on_ckdisk. wp_step.
  apply wp_diskread; [done|unfold SFS_SUPER_BLOCK; lia|]. intros d (D1 & D2 & D3) _. clp_steps. set (sb := sb_of_bytes _).
  destruct (negb _); [clp_step|]. clp_steps. apply HQ; [split; cbn; [done|lia|done|done]|].
  apply sb_read_shape; [by apply dblock_bytes|]. apply dblock_length; [done|unfold SFS_SUPER_BLOCK; lia].
Qed.

Lemma sb_bytes_length sb : length (sb_volname sb) = SFS_VOLNAME_SIZE -> length (sb_reserved sb) = 118%nat ->
  length (bytes_of_sb sb) = Z.to_nat BLOCKSIZE.
Proof.
  intros H1 H2. unfold bytes_of_sb. rewrite !length_app, H1, bytes_of_words_length, H2. done.
Qed.

Lemma clp_sb_check n m s (Q : unit -> sfsck -> Prop) : loaded n m s -> 0 < m -> sb_shape (ck_sb s) ->
  (forall s', loaded n m s' -> Q tt s') -> clp sb_check Q s.
Proof.
  intros L Hm [S1 S2 S3 [S4 S5]] HQ. unfold sb_check, checkzeroed. clp_step. clp_step.
  pose proof (checknullstring_spec (sb_volname (ck_sb s))) as Hn. destruct (checknullstring _) as [name1 c1]. destruct Hn as [L1 _].
  clp_step. apply (clp_loaded_when n m); [done|]. intros s1 LD1 B1. clp_step. apply clp_oob. intros [name2 c2] Hb.
  destruct (checkbadstring_spec _ _ _ Hb) as [L2 _].
  clp_step. apply (clp_loaded_when n m); [done|]. intros s2 LD2 B2.
  clp_step. apply (clp_loaded_when n m); [done|]. intros s3 LD3 B3. clp_step. clp_step.
  set (sb := Superblock _ _ _ _). set (s4 := set_ck_sb sb s3).
  assert (loaded n m s4) as LD4. { destruct LD3 as [X1 X2 X3 X4]. split; [done|done| |done]. cbn. by apply (ld_size _ _ _ L). }
  destruct (_ || _); cbn [when]; [|clp_steps; by apply HQ].
  unfold sfs_writesb. apply (clp_wp _ _ (fun _ _ => False)). unfold on_ckdisk. wp_step.
  apply wp_diskwrite_block; [apply LD4| |rewrite (ld_blocks _ _ _ LD4); unfold SFS_SUPER_BLOCK; lia|].
  - apply sb_bytes_length; cbn [sb_volname sb_reserved sb]; [lia|by rewrite length_map].
  - intros d (D1 & D2 & _) _. apply HQ. destruct LD4 as [X1 X2 X3 X4]. split; [done|cbn; by rewrite D2|done|done].
Qed.

(** ** [main] *)

Lemma clp_phases fuel (rest : M sfsck Z) Q s : clp (phase1 fuel ;; rest) Q s ->
  clp (freemap_setup ;; pass1 fuel ;; freemap_check ;; rest) Q s.
Proof.
  unfold clp, phase1, bind. destruct (freemap_setup s) as [[] s1| | |]; [|done..]. destruct (pass1 fuel s1) as [[] s2| | |]; [|done..].
  by destruct (freemap_check s2) as [[] s3| | |].
Qed.

Lemma close_blocks ok d d' : closedisk ok d = Ret tt d' -> rd_file d' = rd_file d.
Proof.
  unfold closedisk, bind, get, KASSERT. destruct (rd_open d); [|done]. cbn [ret]. destruct (negb ok); [done|]. by intros [= <-].
Qed.

(** Only the contents of the blocks matter. *)
Lemma consistent_file n d d' l : rd_file d' = rd_file d -> consistent n d l -> consistent n d' l.
Proof.
  intros Hf. assert (forall b, dblock d' b = dblock d b) as Hb by (intros b; unfold dblock; by rewrite Hf).
  assert (forall i, claimed d' i = claimed d i) as Hcl by (intros i; apply claimed_keeps; intros b _; apply Hb).
  assert (forall i, inode_at d' i = inode_at d i) as Hi by (intros i; unfold inode_at; by rewrite Hb).
  assert (forall i, file_blocks d' i = file_blocks d i) as Hfb.
  { intros i. unfold file_blocks, idwords_at. by destruct (_ =? 0); rewrite ?Hb. }
  assert (used_blocks n d' l = used_blocks n d l) as Hu.
  { unfold used_blocks. do 2 f_equal. apply map_ext. exact Hcl. }
  assert (forall b, disk_mapbit d' b = disk_mapbit d b) as Hm by (intros b; unfold disk_mapbit; by rewrite Hb).
  assert (forall i j, dir_slot d' i j = dir_slot d i j) as Hs.
  { intros i j. unfold dir_slot, file_block. rewrite Hfb. unfold dirblock_at. by rewrite Hb. }
  intros [C1 C2 C3 C4 C5 C6 C7 C8]. split; rewrite ?Hu; [done|done| | | |done| |].
  - apply (Forall_impl _ _ _ C3). intros b. by rewrite Hm.
  - apply (Forall_impl _ _ _ C4). intros i. by rewrite Hi.
  - apply (Forall_impl _ _ _ C5). intros i. unfold ends_at_eof. by rewrite Hi, Hfb.
  - apply (Forall_impl _ _ _ C7). intros i. by rewrite Hi.
  - intros i j e. rewrite Hi, Hs. apply C8.
Qed.

Lemma bind_returns {S A B} (m : M S A) (f : A -> M S B) s b s' : bind m f s = Ret b s' -> exists a s1, m s = Ret a s1 /\ f a s1 = Ret b s'.
Proof. unfold bind. destruct (m s) as [a s1| | |]; [|done..]. intros H. by exists a, s1. Qed.

(** The exit code is the badness. *)
Lemma main_code fuel te args s code s' : sfsck_main fuel te args s = Ret code s' -> code = badness s'.
Proof.
  unfold sfsck_main. destruct args as [|dev [|? ?]]; [done| |done]. intros H.
  do 12 (apply bind_returns in H as (? & ? & ? & H)). apply bind_returns in H as (xk & sk & Hk & H).
  match goal with G : get _ = Ret _ _ |- _ => injection G as <- <- end. unfold KASSERT in Hk. destruct (_ || _) in Hk; [|done].
  injection Hk as _ <-. by injection H as <- <-.
Qed.


(** The volume of [Example], not yet opened. *)
Definition example_disk : rawdisk := RawDisk false 0 0 Example.image [].


(** A volume as [mksfs] makes it has a root of no blocks, so that the dot
    entries the checker wants cannot be added: it is reported as beyond
    repair. *)
Lemma fresh_volume_unrecoverable :
  let te := ToolEnv true true true in
  match mksfs_main te [[100]; [118]] (mksfs_start (RawDisk false 0 0 (replicate (16 * 512) 0) [])) with
  | Ret _ s =>
      match sfsck_main 20 te [[100]] (sfsck_start (mk_disk s) []) with
      | Ret code _ => code = EXIT_UNRECOV
      | _ => False
      end
  | _ => False
  end.
Proof. by vm_compute. Qed.
