(* ===== verification/SfsckTerm.v ===== *)
(** * Checking a volume: the walk ends

    A directory that is found again is not walked again, and the inodes found
    are different blocks of the volume: so the recursion of pass 1 is never
    deeper than the volume has blocks, whatever is on the disk (loops of
    directories included).  [live m Q s]: [m] does not run out of the depth it
    was allowed, and [Q] holds where it returns; it may end the program. *)

From S2P Require Import Prelude Bitmap Vnode SfsDisk Printf PrintfSpec CString CStringSpec Qsort SbinDisk Mksfs Sfsck.
From S2P Require Import SfsckTables SfsckSound SfsckDirs SfsckWalk SfsckCheck.

Definition live {S A} (m : M S A) (Q : A -> S -> Prop) (s : S) : Prop :=
  match m s with
  | Ret a s' => Q a s'
  | OutOfFuel => False
  | _ => True
  end.
Arguments live : simpl never.

Lemma live_bind {S A B} (m : M S A) (f : A -> M S B) Q s : live m (fun a s1 => live (f a) Q s1) s -> live (bind m f) Q s.
Proof. unfold live, bind. by destruct (m s). Qed.
Lemma live_ret {S A} (a : A) (Q : A -> S -> Prop) s : Q a s -> live (ret a) Q s.
Proof. done. Qed.
Lemma live_mono {S A} (m : M S A) (Q Q' : A -> S -> Prop) s : live m Q s -> (forall a s', Q a s' -> Q' a s') -> live m Q' s.
Proof. unfold live. destruct (m s); auto. Qed.

(** ** The disk *)

(** The file is one of bytes. *)
Definition file_ok (d : rawdisk) : Prop := Forall byte_ok (rd_file d).

Lemma live_next_event d (Q : option io_event -> rawdisk -> Prop) :
  (forall e d', rd_file d' = rd_file d -> (length (rd_events d') <= length (rd_events d))%nat ->
     (e = Some IO_Interrupted -> (length (rd_events d') < length (rd_events d))%nat) -> Q e d') ->
  live next_event Q d.
Proof.
  intros HQ. unfold live, next_event, bind, get. destruct (rd_events d) as [|e es] eqn:E; apply HQ; cbn; try done; rewrite ?E; cbn; lia.
Qed.

(** What a transfer of at most [len] bytes comes to: interrupted, it has used
    up an event; the bytes of the file stay bytes. *)
Definition transferred (len : Z) (d : rawdisk) (r : io_result) (d' : rawdisk) : Prop :=
  file_ok d' /\ (length (rd_events d') <= length (rd_events d))%nat /\
  match r with
  | Interrupted => (length (rd_events d') < length (rd_events d))%nat
  | Length n => 0 <= n <= len
  | Failed => True
  end.

Lemma transfer_interrupted e len : transfer_size e len = Interrupted -> e = Some IO_Interrupted.
Proof. by destruct e as [[| |k]|]. Qed.
Lemma transfer_length e len n : transfer_size e len = Length n -> 0 <= len -> 0 <= n <= len.
Proof. destruct e as [[| |k]|]; cbn; intros [= <-]; lia. Qed.

Lemma live_file_read len d : file_ok d -> 0 <= len ->
  live (file_read len) (fun r d' => transferred len d (fst r) d' /\ Forall byte_ok (snd r) /\
    (forall n, fst r = Length n -> n = Z.of_nat (length (snd r)))) d.
Proof.
  intros Hd Hl. unfold file_read. apply live_bind, live_next_event. intros e d1 Hf He Hi. unfold file_ok in *.
  destruct (transfer_size e len) as [| |n] eqn:E.
  - apply live_ret. cbn. unfold transferred, file_ok. rewrite Hf. apply transfer_interrupted in E. split_and!; [done|done|by apply Hi|done|done].
  - apply live_ret. cbn. unfold transferred, file_ok. by rewrite Hf.
  - pose proof (transfer_length _ _ _ E Hl) as Hn. unfold live, bind, get, file_advance, modify, ret. cbn [fst snd].
    assert (length (slice (Z.to_nat (rd_pos d1)) (Z.to_nat n) (rd_file d1)) <= Z.to_nat n)%nat by (unfold slice; rewrite length_take; lia).
    unfold transferred, file_ok. cbn [rd_file rd_events]. split_and!; [by rewrite Hf|done|lia|lia| |].
    + apply Forall_take, Forall_drop. by rewrite Hf.
    + by intros m [= <-].
Qed.

Lemma live_file_write buf d : file_ok d -> live (file_write buf) (fun r d' => transferred (Z.of_nat (length buf)) d r d') d.
Proof.
  intros Hd. unfold file_write. apply live_bind, live_next_event. intros e d1 Hf He Hi. unfold file_ok in *.
  destruct (transfer_size e (Z.of_nat (length buf))) as [| |n] eqn:E.
  - apply live_ret. unfold transferred, file_ok. rewrite Hf. apply transfer_interrupted in E. split_and!; [done|done|by apply Hi].
  - apply live_ret. unfold transferred, file_ok. by rewrite Hf.
  - pose proof (transfer_length _ _ _ E ltac:(lia)) as Hn. unfold live, bind, get, file_advance, modify, ret.
    destruct (_ <? _); unfold transferred, file_ok; cbn [rd_file rd_events]; [by rewrite Hf|]. split_and!; [|done|lia|lia].
    apply splice_bytes; [apply map_u8_bytes|by rewrite Hf].
Qed.

Lemma live_diskread_loop fuel cdata d : file_ok d -> Forall byte_ok cdata -> (length cdata <= Z.to_nat BLOCKSIZE)%nat ->
  Z.of_nat (length (rd_events d)) + (BLOCKSIZE - Z.of_nat (length cdata)) < Z.of_nat fuel ->
  live (diskread_loop fuel cdata) (fun r d' => file_ok d' /\ length r = Z.to_nat BLOCKSIZE /\ Forall byte_ok r) d.
Proof.
  revert cdata d. unfold BLOCKSIZE. induction fuel as [|fuel IH]; intros cdata d Hd Hc Hl Hf; [lia|].
  cbn [diskread_loop]. unfold BLOCKSIZE. destruct (Z.ltb_spec (Z.of_nat (length cdata)) 512) as [Hlt|Hge].
  2: { apply live_ret. split_and!; [done|lia|done]. }
  apply live_bind. eapply live_mono; [apply live_file_read; [done|lia]|].
  intros [r bytes] d1 ((F1 & E1 & R1) & B1 & N1). cbn [fst snd] in *. destruct r as [| |n]; [apply IH; (done || lia)|done|].
  pose proof (N1 n eq_refl) as Hn. destruct (Z.eqb_spec n 0); [done|]. apply IH; [done|by apply Forall_app|rewrite length_app; lia..].
Qed.

Lemma live_diskread b d : file_ok d ->
  live (diskread b) (fun r d' => file_ok d' /\ length r = Z.to_nat BLOCKSIZE /\ Forall byte_ok r) d.
Proof.
  intros Hd. unfold diskread. unfold live, bind at 1, get. unfold bind at 1, KASSERT. destruct (rd_open d); [|done]. cbn [ret].
  unfold bind, file_seek, modify. apply live_diskread_loop; [done|constructor|cbn; lia|]. unfold transfer_fuel. cbn. lia.
Qed.

Lemma live_diskwrite_loop fuel data tot d : file_ok d -> (Z.to_nat BLOCKSIZE <= length data)%nat -> 0 <= tot <= BLOCKSIZE ->
  Z.of_nat (length (rd_events d)) + (BLOCKSIZE - tot) < Z.of_nat fuel ->
  live (diskwrite_loop fuel data tot) (fun _ d' => file_ok d') d.
Proof.
  revert tot d. unfold BLOCKSIZE. induction fuel as [|fuel IH]; intros tot d Hd Hl Ht Hf; [lia|].
  cbn [diskwrite_loop]. unfold BLOCKSIZE. destruct (Z.ltb_spec tot 512) as [Hlt|Hge]; [|by apply live_ret].
  apply live_bind. eapply live_mono; [by apply live_file_write|]. rewrite slice_length by lia.
  intros [| |n] d1 (F1 & E1 & R1); [apply IH; (done || lia)|done|]. destruct (Z.eqb_spec n 0); [done|].
  rewrite wrap_small by lia. apply IH; (done || lia).
Qed.

Lemma live_diskwrite data b d : file_ok d -> live (diskwrite data b) (fun _ d' => file_ok d') d.
Proof.
  intros Hd. unfold diskwrite. unfold live, bind at 1, get. unfold bind at 1, KASSERT. destruct (rd_open d); [|done]. cbn [ret].
  unfold bind at 1, file_seek, modify. unfold bind, in_bounds. destruct (Z.leb_spec BLOCKSIZE (Z.of_nat (length data))) as [Hl|]; [|done].
  cbn [ret]. apply live_diskwrite_loop; [done|lia|unfold BLOCKSIZE; lia|]. unfold transfer_fuel. cbn. lia.
Qed.

(** ** Steps that find no inode *)

Definition bytes_ok (s : sfsck) : Prop := file_ok (ck_disk s).

Record steady (s s' : sfsck) : Prop := {
  st_inodes : inodes s' = inodes s;
  st_sb : ck_sb s' = ck_sb s;
  st_bytes : bytes_ok s'
}.

Class Steady {A} (m : M sfsck A) : Prop := steadily : forall s, bytes_ok s -> live m (fun _ s' => steady s s') s.

Lemma steady_refl s : bytes_ok s -> steady s s.
Proof. by split. Qed.
Lemma steady_trans s1 s2 s3 : steady s1 s2 -> steady s2 s3 -> steady s1 s3.
Proof. intros [A1 A2 A3] [B1 B2 B3]. split; [congruence|congruence|done]. Qed.

Lemma steady_ret {A} (a : A) : Steady (ret a).
Proof. intros s. apply steady_refl. Qed.
Lemma steady_throw {A} e : Steady (throw e : M sfsck A).
Proof. done. Qed.
Lemma steady_panic {A} : Steady (panic : M sfsck A).
Proof. done. Qed.
Lemma steady_get : Steady (get : M sfsck sfsck).
Proof. intros s. apply steady_refl. Qed.
Lemma steady_gets {A} (f : sfsck -> A) : Steady (gets f).
Proof. intros s. apply steady_refl. Qed.
Lemma steady_kassert b : Steady (KASSERT b : M sfsck unit).
Proof. destruct b; [apply steady_ret|done]. Qed.
Lemma steady_in_bounds b : Steady (in_bounds b : M sfsck unit).
Proof. destruct b; [apply steady_ret|done]. Qed.
Lemma steady_oob {A} (o : option A) : Steady (oob o : M sfsck A).
Proof. destruct o; [apply steady_ret|done]. Qed.
Lemma steady_bind {A B} (m : M sfsck A) (f : A -> M sfsck B) : Steady m -> (forall a, Steady (f a)) -> Steady (bind m f).
Proof.
  intros Hm Hf s Hs. apply live_bind. eapply live_mono; [by apply Hm|]. intros a s1 H1.
  eapply live_mono; [apply Hf, H1|]. intros b s2 H2. by apply (steady_trans s s1).
Qed.
Lemma steady_when b (m : M sfsck unit) : Steady m -> Steady (when b m).
Proof. destruct b; [done|intros _; apply steady_ret]. Qed.
Lemma steady_modify f : (forall s, ck_disk (f s) = ck_disk s /\ inodes (f s) = inodes s /\ ck_sb (f s) = ck_sb s) -> Steady (modify f).
Proof. intros H s Hs. destruct (H s) as (H1 & H2 & H3). split; [done|done|]. unfold bytes_ok. by rewrite H1. Qed.
Lemma steady_setbadness code : Steady (setbadness code).
Proof. apply steady_modify. intros s. by destruct (_ <? _). Qed.
Lemma steady_disk {A} (m : M rawdisk A) : (forall d, file_ok d -> live m (fun _ d' => file_ok d') d) -> Steady (on_ckdisk m).
Proof. intros H s Hs. specialize (H _ Hs). unfold live, on_ckdisk, zoom in *. destruct (m (ck_disk s)); try done. Qed.

Lemma steady_read b : Steady (on_ckdisk (diskread b)).
Proof. apply steady_disk. intros d Hd. eapply live_mono; [by apply live_diskread|]. by intros r d' [? _]. Qed.
Lemma steady_write data b : Steady (on_ckdisk (diskwrite data b)).
Proof. apply steady_disk. intros d. apply live_diskwrite. Qed.
Lemma steady_domalloc : Steady domalloc.
Proof. intros s Hs. unfold live, domalloc, bind, get. destruct (mallocs s) as [|[] l]; done. Qed.

Ltac steady :=
  repeat (intros; cbv zeta; lazymatch goal with
    | |- Steady (bind _ _) => apply steady_bind
    | |- Steady (ret _) => apply steady_ret
    | |- Steady (throw _) => apply steady_throw
    | |- Steady panic => apply steady_panic
    | |- Steady get => apply steady_get
    | |- Steady (gets _) => apply steady_gets
    | |- Steady (KASSERT _) => apply steady_kassert
    | |- Steady (in_bounds _) => apply steady_in_bounds
    | |- Steady (oob _) => apply steady_oob
    | |- Steady (setbadness _) => apply steady_setbadness
    | |- Steady (on_ckdisk (diskread _)) => apply steady_read
    | |- Steady (on_ckdisk (diskwrite _ _)) => apply steady_write
    | |- Steady domalloc => apply steady_domalloc
    | |- Steady (modify _) => apply steady_modify; by intros
    | |- Steady (when _ _) => apply steady_when
    | |- Steady (match ?x with _ => _ end) => destruct x
    | |- _ => eauto with steady
    end).

Create HintDb steady.
Lemma steady_blockinuse b how : Steady (freemap_blockinuse b how).
Proof. unfold freemap_blockinuse. steady. Qed.
Lemma steady_blockfree b : Steady (freemap_blockfree b).
Proof. unfold freemap_blockfree. steady. Qed.
Lemma steady_readindirect b : Steady (sfs_readindirect b).
Proof. unfold sfs_readindirect. steady. Qed.
Lemma steady_writeindirect b l : Steady (sfs_writeindirect b l).
Proof. unfold sfs_writeindirect. steady. Qed.
Lemma steady_writeinode i sfi : Steady (sfs_writeinode i sfi).
Proof. unfold sfs_writeinode. steady. Qed.
Lemma steady_writedirblock d b : Steady (sfs_writedirblock d b).
Proof. unfold sfs_writedirblock. steady. Qed.
#[export] Hint Resolve steady_blockinuse steady_blockfree steady_readindirect steady_writeindirect steady_writeinode
  steady_writedirblock : steady.

Lemma steady_bmap sfi i : Steady (bmap sfi i).
Proof. unfold bmap. steady; cbn [ibmap]; unfold RANGE_D; change (1 <? 1) with false; change (GET0 =? 0) with true; cbv iota; steady. Qed.
#[export] Hint Resolve steady_bmap : steady.

Lemma steady_writedir sfi d nd : Steady (sfs_writedir sfi d nd).
Proof.
  unfold sfs_writedir. generalize 0 at 1. generalize nd at 2.
  induction (Z.to_nat (dirblocks nd)) as [|m IH]; intros left k; cbn [writedir_loop]; steady.
Qed.
Lemma steady_check_direct ibs b : Steady (check_direct ibs b).
Proof. unfold check_direct. steady. Qed.
#[export] Hint Resolve steady_writedir steady_check_direct : steady.
Lemma steady_entries check ibs l : (forall ibs e, Steady (check ibs e)) -> Steady (check_entries check ibs l).
Proof. intros H. revert ibs. induction l as [|x l IH]; intros ibs; cbn [check_entries]; steady; apply H || apply IH. Qed.
Lemma steady_indirect ibs e : Steady (check_indirect_block 1 ibs e).
Proof. cbn [check_indirect_block]. steady. apply steady_entries. intros. apply steady_check_direct. Qed.
Lemma steady_inode_blocks ino sfi isdir : Steady (check_inode_blocks ino sfi isdir).
Proof. unfold check_inode_blocks, sb_totalblocks. steady; [apply steady_entries; intros; apply steady_check_direct|apply steady_indirect]. Qed.
#[export] Hint Resolve steady_inode_blocks : steady.

Lemma live_steady {A} (m : M sfsck A) (Q : A -> sfsck -> Prop) s : Steady m -> bytes_ok s ->
  (forall a s', steady s s' -> Q a s') -> live m Q s.
Proof. intros Hm Hs HQ. eapply live_mono; [by apply Hm|]. intros a s' H. by apply HQ. Qed.

(** Entries read from the disk have names of the right size. *)
Lemma live_read_block b s (Q : list Z -> sfsck -> Prop) : bytes_ok s ->
  (forall r s', steady s s' -> length r = Z.to_nat BLOCKSIZE -> Forall byte_ok r -> Q r s') -> live (on_ckdisk (diskread b)) Q s.
Proof.
  intros Hs HQ. pose proof (live_diskread b _ Hs) as H. unfold live, on_ckdisk, zoom in *. destruct (diskread b (ck_disk s)); try done.
  destruct H as (H1 & H2 & H3). by apply HQ.
Qed.

Lemma live_readdir_loop sfi m k left s : bytes_ok s ->
  live (readdir_loop sfi m k left) (fun r s' => steady s s' /\ Forall direntry_shape r) s.
Proof.
  revert k left s. induction m as [|m IH]; intros k left s Hs; cbn [readdir_loop].
  { apply live_bind. apply live_steady; [apply steady_kassert|done|]. intros [] s1 H1. by apply live_ret. }
  apply live_bind. apply live_steady; [apply steady_bmap|done|]. intros b s1 H1. apply live_bind.
  apply (live_mono _ (fun r s2 => steady s s2 /\ Forall direntry_shape r)).
  { unfold sfs_readdirblock. destruct (negb _).
    - apply live_bind, live_read_block; [apply H1|]. intros r s2 H2 Hl Hr. apply live_ret. split; [by apply (steady_trans s s1)|].
      by apply direntries_read.
    - apply live_ret. split; [done|]. apply Forall_replicate, empty_shape. }
  intros block s2 [H2 B2]. apply live_bind. eapply live_mono; [apply IH, H2|]. intros rest s3 [H3 R3]. apply live_ret.
  split; [by apply (steady_trans s s2)|]. apply Forall_app. split; [by apply Forall_take|done].
Qed.

(** ** Names and entries *)

Lemma fsck_name_returns name ino s : length name = SFS_NAMELEN ->
  exists name' s', fsck_name name ino s = Ret name' s' /\ length name' = SFS_NAMELEN /\ table_grown [] s s'.
Proof.
  intros Hl. unfold fsck_name, bind, uniqueid, bind, get, put, ret. cbv beta iota. unfold stateless.
  set (args := [VWord ino; VWord (uniquecounter s)]).
  destruct (send_all_returns fsck_format (mkPF (list Z) [] args 0 false INTSZ 0 0 0 false ch_space 0 false false)) as [pf Hpf];
    [by repeat constructor|done|done|].
  assert (exists r, vsnprintf name (Z.of_nat SFS_NAMELEN) fsck_format args tt = Ret r tt) as [[name' c] Hr].
  { set (l := Z.to_nat (Z.of_nat SFS_NAMELEN - 1)).
    pose proof (vprintf_sim collect __snprintf_send (fun t snp n => snp = snp_after name l t)
      ltac:(intros txt t1 t2 n ->; exists (t1 ++ txt), (snp_after name l (t1 ++ txt)); split; [done|]; split;
        [apply snprintf_send_after; rewrite Hl; split; [by vm_compute; lia|done] | done])
      fsck_format args [] (snp_after name l []) eq_refl) as Hsim.
    assert (__vprintf collect fsck_format args [] = Ret (charcount pf) (clientdata pf)) as Hv.
    { unfold __vprintf. unfold bind at 1, __pf_endfield, modify; cbn [clientdata ap charcount]. unfold bind. by rewrite Hpf. }
    rewrite Hv in Hsim. unfold vsnprintf.
    assert (mkSNP name (if Z.of_nat SFS_NAMELEN =? 0 then 0 else u32 (Z.of_nat SFS_NAMELEN - 1)) 0 = snp_after name l []) as -> by done.
    destruct (__vprintf __snprintf_send fsck_format args (snp_after name l [])) as [n snp| | |]; try done.
    destruct Hsim as [_ ->]. change (0 <? Z.of_nat SFS_NAMELEN) with true. cbv iota. unfold snp_after. cbv zeta. cbn [bufpos buf].
    set (k := Nat.min l _). assert (k <= 59)%nat as Hk by (subst k l; unfold SFS_NAMELEN; lia).
    rewrite (proj2 (Z.leb_le _ _)), (proj2 (Z.ltb_lt _ _)); [by eexists| |lia].
    rewrite length_app, length_take, length_drop, Hl. unfold SFS_NAMELEN. lia. }
  rewrite Hr. do 2 eexists. split; [done|]. split; [|split; [done..|by rewrite app_nil_r]].
  rewrite <- Hl. apply (vsnprintf_length _ _ _ _ _ _) in Hr; [done| |done]. by rewrite Hl.
Qed.

Lemma grown_steady s s' : table_grown [] s s' -> bytes_ok s -> steady s s'.
Proof. intros [T1 T2 _ T4] Hs. rewrite app_nil_r in T4. split; [done|done|]. unfold bytes_ok. by rewrite T1. Qed.

Lemma live_direntry n e s : bytes_ok s -> sb_nblocks (ck_sb s) = n -> direntry_shape e ->
  live (pass1_direntry e) (fun r s' => steady s s' /\ entry_ok n (fst r)) s.
Proof.
  intros Hs Hn He. pose proof He as [S1 S2]. assert (word_ok SFS_NOINO) as Hw0 by by vm_compute.
  unfold pass1_direntry, sb_totalblocks. apply live_bind. unfold live at 1, gets. rewrite Hn.
  destruct (Z.eqb_spec (sfd_ino e) SFS_NOINO) as [E0|E0].
  { destruct (negb _).
    - apply live_bind, live_steady; [apply steady_setbadness|done|]. intros [] s1 H1. apply live_ret. split; [done|].
      apply cleared_ok; [done|done|by left].
    - apply live_ret. split; [by apply steady_refl|]. split; [done|by left]. }
  destruct (Z.leb_spec n (sfd_ino e)) as [Hge|Hlt].
  { apply live_bind, live_steady; [apply steady_setbadness|done|]. intros [] s1 H1. apply live_ret. split; [done|].
    apply cleared_ok; [done|done|by left]. }
  apply live_bind, (live_mono _ (fun r s1 => steady s s1 /\ length (fst r) = SFS_NAMELEN)).
  { destruct (hd 0 (sfd_name e) =? 0).
    - destruct (fsck_name_returns (sfd_name e) (sfd_ino e) s S2) as (name & s1 & Hr & L1 & G1).
      apply live_bind. unfold live at 1. rewrite Hr. pose proof (grown_steady _ _ G1 Hs) as H1.
      apply live_bind, live_steady; [apply steady_setbadness|apply H1|]. intros [] s2 H2. apply live_ret. cbn [fst].
      split; [by apply (steady_trans s s1)|done].
    - apply live_ret. split; [by apply steady_refl|done]. }
  intros [name1 c1] s1 [H1 L1]. cbn [fst] in L1.
  pose proof (checknullstring_spec name1) as Hc. destruct (checknullstring name1) as [name2 c2]. destruct Hc as [L2 _].
  apply live_bind, live_steady; [apply steady_when, steady_setbadness|apply H1|]. intros [] s2 H2. apply live_bind.
  destruct (checkbadstring name2) as [[name3 c3]|] eqn:Hb; cbn [oob]; [|done]. apply live_ret.
  destruct (checkbadstring_spec _ _ _ Hb) as [L3 _].
  apply live_bind, live_steady; [apply steady_when, steady_setbadness|apply H2|]. intros [] s3 H3. apply live_ret. cbn [fst].
  split; [apply (steady_trans s s2); [by apply (steady_trans s s1)|done]|].
  split; [|right; cbn; lia]. split; [done|]. cbn. by rewrite L3, L2.
Qed.

(** ** The table grows *)

(** Different blocks of the volume are in the table. *)
Record found_ok (n : Z) (s : sfsck) : Prop := {
  fo_size : sb_nblocks (ck_sb s) = n;
  fo_bytes : bytes_ok s;
  fo_once : NoDup (inos s);
  fo_range : Forall (fun i => 0 <= i < n) (inos s)
}.

Lemma found_steady n s s' : found_ok n s -> steady s s' -> found_ok n s'.
Proof. intros [H1 H2 H3 H4] [T1 T2 T3]. split; unfold inos in *; rewrite ?T1, ?T2; done. Qed.

Lemma found_at_most n s : 0 <= n -> found_ok n s -> Z.of_nat (length (inodes s)) <= n.
Proof.
  intros Hn [_ _ H3 H4]. assert (length (inos s) <= length (seqZ 0 n))%nat as Hl.
  { apply submseteq_length, NoDup_submseteq; [done|]. intros i Hi. rewrite Forall_forall in H4. apply elem_of_seqZ.
    specialize (H4 i Hi). lia. }
  unfold inos in Hl. rewrite length_fmap, length_seqZ in Hl. lia.
Qed.

(** How far the table has grown. *)
Definition grown (s s' : sfsck) : Prop := (length (inodes s) <= length (inodes s'))%nat.

Lemma steady_grown s s' : steady s s' -> grown s s'.
Proof. intros [H _ _]. unfold grown. by rewrite H. Qed.

Lemma live_inode_search l ino type s : live (inode_search l ino type) (fun r s' => s' = s /\ (r = false -> ino ∉ (in_ino <$> l))) s.
Proof.
  induction l as [|e l IH]; cbn [inode_search]; [apply live_ret; split; [done|intros _; apply not_elem_of_nil]|].
  destruct (Z.eqb_spec (in_ino e) ino) as [|Hne].
  - unfold live, bind, KASSERT. destruct (_ =? 0); [|done]. cbn [ret]. destruct (_ =? type); done.
  - eapply live_mono; [apply IH|]. intros r s' [-> H]. split; [done|]. intros Hr. apply not_elem_of_cons. split; [congruence|by apply H].
Qed.

Lemma live_inode_add n ino type s : found_ok n s -> 0 <= ino < n ->
  live (inode_add ino type) (fun r s' => found_ok n s' /\ grown s s' /\
    (r = false -> length (inodes s') = S (length (inodes s)))) s.
Proof.
  intros Hf Hi. unfold inode_add. apply live_bind. unfold live at 1, get. apply live_bind. eapply live_mono; [apply live_inode_search|].
  intros r s1 [-> Hr]. destruct r; [apply live_ret; split_and!; [done|unfold grown; lia|done]|]. specialize (Hr eq_refl). apply live_bind. unfold inode_addtable.
  apply live_bind. unfold live at 1, get. apply live_bind, live_steady; [apply steady_kassert|apply Hf|]. intros [] s2 H2.
  apply live_bind, live_steady; [destruct (_ =? _); [apply steady_domalloc|apply steady_ret]|apply H2|]. intros [] s3 H3.
  pose proof (steady_trans _ _ _ H2 H3) as H23. pose proof (st_inodes _ _ H23) as Hin. destruct (found_steady n _ _ Hf H23) as [F1 F2 F3 F4].
  unfold live, modify, ret. cbn [inodes set_inodes]. unfold grown. cbn [inodes set_inodes]. rewrite length_app, Hin. cbn [length].
  split_and!; [|lia|intros; lia]. unfold inos in *. rewrite Hin in F3, F4. split; unfold inos; cbn [ck_sb inodes set_inodes]; rewrite ?Hin; [done|done| |];
    rewrite fmap_app; cbn [fmap list_fmap].
  - apply NoDup_app. split_and!; [done| |apply NoDup_singleton]. intros x Hx ->%list_elem_of_singleton. done.
  - apply Forall_app. split; [done|]. by constructor.
Qed.

Lemma live_pass1_inode n ino sfi c s : found_ok n s -> 0 <= ino < n ->
  live (pass1_inode ino sfi c) (fun r s' => found_ok n s' /\ grown s s' /\
    (fst r = false -> length (inodes s') = S (length (inodes s)))) s.
Proof.
  intros Hf Hi. unfold pass1_inode, checkzeroed. apply live_bind. eapply live_mono; [by apply (live_inode_add n)|].
  intros seen s1 (F1 & G1 & L1). destruct seen.
  - apply live_bind, live_steady; [apply steady_kassert|apply F1|]. intros [] s2 H2. apply live_ret.
    pose proof (steady_grown _ _ H2). split_and!; [by apply (found_steady n s1)|unfold grown in *; lia|done].
  - specialize (L1 eq_refl).
    apply live_steady; [steady|apply F1|]. intros r s2 H2. pose proof (st_inodes _ _ H2) as E2. unfold grown in *. rewrite E2.
    split_and!; [by apply (found_steady n s1)|done|done].
Qed.

(** ** The walk *)

Definition walk_ends (n : Z) (depth : Z) (walk : Z -> M sfsck unit) : Prop := forall ino s,
  found_ok n s -> 0 <= ino < n -> n - Z.of_nat (length (inodes s)) < depth ->
  live (walk ino) (fun _ s' => found_ok n s' /\ grown s s') s.

Lemma live_pass1_child n depth walk e s : walk_ends n depth walk -> found_ok n s -> entry_ok n e ->
  n - Z.of_nat (length (inodes s)) < depth ->
  live (pass1_child walk e) (fun _ s' => found_ok n s' /\ grown s s') s.
Proof.
  intros Hw Hf [[[Hp _] _] Hlt] Hd. unfold pass1_child.
  assert (forall r : sfs_direntry * bool, live (ret r) (fun _ s' => found_ok n s' /\ grown s s') s) as Hret.
  { intros r. apply live_ret. split; [done|]. unfold grown. lia. }
  destruct (Z.eqb_spec (sfd_ino e) SFS_NOINO) as [|Hne]; [apply Hret|]. destruct (name_is e DOT); [apply Hret|]. destruct (name_is e DOTDOT); [apply Hret|].
  destruct Hlt as [?|Hlt]; [done|]. apply live_bind. unfold sfs_readinode.
  apply live_steady; [steady|apply Hf|]. intros sub s1 H1. pose proof (found_steady n _ _ Hf H1) as F1. pose proof (steady_grown _ _ H1) as G1.
  destruct (_ =? SFS_TYPE_FILE).
  { apply live_bind. eapply live_mono; [by apply (live_pass1_inode n)|]. intros [seen i] s2 (F2 & G2 & _).
    apply live_bind, live_steady; [unfold count_file; steady|apply F2|]. intros [] s3 H3. apply live_ret.
    pose proof (steady_grown _ _ H3). split; [by apply (found_steady n s2)|]. unfold grown in *. lia. }
  destruct (_ =? SFS_TYPE_DIR).
  { apply live_bind. eapply live_mono; [apply Hw; [done|lia|unfold grown in *; lia]|]. intros [] s2 [F2 G2]. apply live_ret.
    split; [done|]. unfold grown in *. lia. }
  apply live_bind, live_steady; [apply steady_setbadness|apply F1|]. intros [] s2 H2. apply live_ret.
  pose proof (steady_grown _ _ H2). split; [by apply (found_steady n s1)|]. unfold grown in *. lia.
Qed.

Lemma live_entries n d s : found_ok n s -> Forall direntry_shape d ->
  live (each_direntry pass1_direntry d) (fun r s' => steady s s' /\ Forall (entry_ok n) (fst r)) s.
Proof.
  revert s. induction d as [|e d IH]; intros s Hf Hd; cbn [each_direntry].
  { apply live_ret. split; [apply steady_refl, Hf|constructor]. }
  apply Forall_cons in Hd as [He Hd]. apply live_bind. eapply live_mono; [apply (live_direntry n); [apply Hf|apply Hf|done]|].
  intros [e1 c1] s1 [H1 E1]. apply live_bind. eapply live_mono; [apply IH; [by apply (found_steady n s)|done]|].
  intros [d2 c2] s2 [H2 E2]. apply live_ret. split; [by apply (steady_trans s s1)|by constructor].
Qed.

Lemma live_children n depth walk d s : walk_ends n depth walk -> found_ok n s -> Forall (entry_ok n) d ->
  n - Z.of_nat (length (inodes s)) < depth ->
  live (each_direntry (pass1_child walk) d) (fun _ s' => found_ok n s' /\ grown s s') s.
Proof.
  intros Hw. revert s. induction d as [|e d IH]; intros s Hf Hd Hdep; cbn [each_direntry].
  { apply live_ret. split; [done|]. unfold grown. lia. }
  apply Forall_cons in Hd as [He Hd]. apply live_bind. eapply live_mono; [by apply (live_pass1_child n depth)|].
  intros [e1 c1] s1 [F1 G1]. apply live_bind. eapply live_mono; [apply IH; [done|done|unfold grown in *; lia]|].
  intros [d2 c2] s2 [F2 G2]. apply live_ret. split; [done|]. unfold grown in *. lia.
Qed.

Lemma live_pass1_dir n fuel : 0 <= n -> walk_ends n (Z.of_nat fuel) (pass1_dir fuel).
Proof.
  intros Hn. induction fuel as [|fuel IH]; intros ino s Hf Hi Hd; cbn [pass1_dir].
  { pose proof (found_at_most n s Hn Hf). lia. }
  apply live_bind. unfold sfs_readinode. apply live_steady; [steady|apply Hf|]. intros sfi s1 H1.
  apply live_bind, live_steady; [apply steady_when, steady_setbadness|apply H1|]. intros [] s2 H2.
  apply live_bind, live_steady; [unfold count_dir; steady|apply H2|]. intros [] s3 H3.
  pose proof (steady_trans _ _ _ (steady_trans _ _ _ H1 H2) H3) as H03. pose proof (found_steady n _ _ Hf H03) as F3.
  pose proof (st_inodes _ _ H03) as N3.
  apply live_bind. eapply live_mono; [by apply (live_pass1_inode n)|]. intros [seen sfi4] s4 (F4 & G4 & L4). cbn [fst] in L4.
  unfold grown in *. rewrite N3 in *. destruct seen; [by apply live_ret|]. specialize (L4 eq_refl).
  apply live_bind, live_steady; [apply steady_domalloc|apply F4|]. intros [] s5 H5. pose proof (found_steady n _ _ F4 H5) as F5.
  apply live_bind. eapply live_mono; [apply live_readdir_loop, F5|]. intros d s6 [H6 D6]. pose proof (found_steady n _ _ F5 H6) as F6.
  apply live_bind. eapply live_mono; [by apply (live_entries n)|]. intros [d7 c7] s7 [H7 D7]. pose proof (found_steady n _ _ F6 H7) as F7.
  pose proof (steady_trans _ _ _ (steady_trans _ _ _ H5 H6) H7) as H47. pose proof (st_inodes _ _ H47) as N7.
  apply live_bind. eapply live_mono; [apply (live_children n (Z.of_nat fuel)); [done|done|done|rewrite N7; lia]|].
  intros [d8 c8] s8 [F8 G8]. unfold grown in G8. rewrite N7 in G8.
  apply live_steady; [apply steady_when, steady_writedir|apply F8|]. intros [] s9 H9. pose proof (st_inodes _ _ H9) as N9. rewrite N9.
  split; [by apply (found_steady n s8)|lia].
Qed.

(** C4: Pass 1 ends: on any disk of bytes, whatever its contents, its errors
    and the answers of [malloc], a walk that is allowed one level more than
    the volume has blocks never runs out of it. *)
Theorem sfsck_pass1_terminates s :
  0 < sb_nblocks (ck_sb s) -> SFS_ROOTDIR_INO < sb_nblocks (ck_sb s) -> bytes_ok s -> inodes s = [] ->
  pass1 (S (Z.to_nat (sb_nblocks (ck_sb s)))) s <> OutOfFuel.
Proof.
  intros Hn Hroot Hb Hi. set (n := sb_nblocks (ck_sb s)) in *.
  assert (found_ok n s) as Hf by (split; [done|done|unfold inos; rewrite Hi; constructor..]).
  assert (live (pass1 (S (Z.to_nat n))) (fun _ _ => True) s) as H; [|unfold live in H; by destruct (pass1 _ s)].
  assert (0 <= SFS_ROOTDIR_INO) by by vm_compute.
  unfold pass1, pass1_rootdir. apply live_bind. unfold sfs_readinode. apply live_steady; [steady|done|]. intros sfi s1 H1.
  apply live_bind, live_steady; [steady|apply H1|]. intros [] s2 H2.
  pose proof (steady_trans _ _ _ H1 H2) as H02. eapply live_mono; [|done].
  apply (live_pass1_dir n); [lia|by apply (found_steady n s)|lia|]. rewrite (st_inodes _ _ H02), Hi. cbn [length]. lia.
Qed.

Lemma sfsck_pass1_terminates_witness : pass1 17 Example.start <> OutOfFuel.
Proof.
  apply (sfsck_pass1_terminates Example.start); [done|done| |done].
  apply (disk_bytes _ (vp_disk _ example_present)).
Defined.
