(* ===== verification/Interleave.v ===== *)
(** * Sums over threads and shared slots

    A program of several threads is a list of program counters beside the
    shared variables; its invariants count threads and slots.  [wsum f l] is
    the sum of the weights [f] of a list; the lemmas say how it changes when
    one element does. *)

From S2P Require Import Prelude.

Section wsum.
Context {A : Type}.
Implicit Types (f g : A -> Z) (l : list A) (x y : A).

Fixpoint wsum f l : Z := match l with [] => 0 | x :: l' => f x + wsum f l' end.

Lemma wsum_insert f l i x y : l !! i = Some x -> wsum f (<[i := y]> l) = wsum f l - f x + f y.
Proof.
  revert i. induction l as [|z l IH]; intros [|i] H; simplify_eq/=; [lia|].
  change (f z + wsum f (<[i := y]> l) = f z + wsum f l - f x + f y). rewrite (IH i) by done. lia.
Qed.

Lemma wsum_replicate f n x : wsum f (replicate n x) = Z.of_nat n * f x.
Proof. induction n as [|n IH]; cbn [replicate wsum]; [lia|]. rewrite IH. lia. Qed.

Lemma wsum_nonneg f l : (forall x, 0 <= f x) -> 0 <= wsum f l.
Proof. intros H. induction l as [|x l IH]; cbn; [lia|]. specialize (H x). lia. Qed.

Lemma wsum_le f g l : (forall x, f x <= g x) -> wsum f l <= wsum g l.
Proof. intros H. induction l as [|x l IH]; cbn; [lia|]. specialize (H x). lia. Qed.

Lemma wsum_all_zero f l : (forall i x, l !! i = Some x -> f x = 0) -> wsum f l = 0.
Proof.
  induction l as [|z l IH]; intros H; cbn; [done|]. rewrite (H 0%nat z eq_refl), IH; [done|]. intros i. exact (H (S i)).
Qed.

Lemma wsum_sub f g l : wsum (fun x => f x - g x) l = wsum f l - wsum g l.
Proof. induction l as [|x l IH]; cbn; lia. Qed.

Lemma wsum_elem f l i x : (forall x, 0 <= f x) -> l !! i = Some x -> f x <= wsum f l.
Proof.
  intros H. revert i. induction l as [|z l IH]; intros [|i] Hi; cbn in *; simplify_eq.
  - pose proof (wsum_nonneg f l H). lia.
  - specialize (IH i Hi). specialize (H z). lia.
Qed.

(** Two different elements. *)
Lemma wsum_two f l i j x y : (forall x, 0 <= f x) -> i <> j -> l !! i = Some x -> l !! j = Some y -> f x + f y <= wsum f l.
Proof.
  intros H. revert i j. induction l as [|z l IH]; intros [|i] [|j] Hne Hi Hj; cbn in *; simplify_eq; try done.
  - pose proof (wsum_elem f l j y H Hj). lia.
  - pose proof (wsum_elem f l i x H Hi). lia.
  - specialize (IH i j ltac:(lia) Hi Hj). specialize (H z). lia.
Qed.

Lemma wsum_zero f l i x : (forall x, 0 <= f x) -> wsum f l = 0 -> l !! i = Some x -> f x = 0.
Proof. intros H H0 Hi. pose proof (wsum_elem f l i x H Hi). specialize (H x). lia. Qed.

Lemma wsum_bound f l : (forall x, f x <= 1) -> wsum f l <= Z.of_nat (length l).
Proof. intros H. induction l as [|z l IH]; cbn [wsum length]; [done|]. specialize (H z). lia. Qed.

(** All weights are at their bound when the sum is. *)
Lemma wsum_full f l i x : (forall x, f x <= 1) -> wsum f l = Z.of_nat (length l) -> l !! i = Some x -> f x = 1.
Proof.
  intros H Hs Hi. assert (Hc : forall l, wsum f l + wsum (fun x => 1 - f x) l = Z.of_nat (length l)).
  { intros l'. induction l' as [|z l' IH]; cbn [wsum length]; lia. }
  specialize (Hc l). assert (H0 : wsum (fun x => 1 - f x) l = 0) by lia.
  assert (Hn : forall x, 0 <= 1 - f x) by (intros z; specialize (H z); lia).
  pose proof (wsum_zero _ l i x Hn H0 Hi). cbn in *. lia.
Qed.

Lemma wsum_pos f l : (forall x, 0 <= f x) -> 0 < wsum f l -> exists i x, l !! i = Some x /\ 0 < f x.
Proof.
  intros H. induction l as [|z l IH]; cbn; [lia|]. intros Hp. destruct (Z.lt_ge_cases 0 (f z)) as [Hz|Hz].
  - by exists 0%nat, z.
  - destruct IH as (i & x & Hi & Hx); [lia|]. by exists (S i), x.
Qed.

Lemma wsum_some_zero f l : wsum f l < Z.of_nat (length l) -> exists i x, l !! i = Some x /\ f x <> 1.
Proof.
  induction l as [|z l IH]; cbn [wsum length]; [lia|]. intros H. destruct (Z.eq_dec (f z) 1) as [Hz|Hz].
  - destruct IH as (i & x & Hi & Hx); [lia|]. by exists (S i), x.
  - by exists 0%nat, z.
Qed.

Lemma wsum_app f l k : wsum f (l ++ k) = wsum f l + wsum f k.
Proof. induction l as [|x l IH]; cbn; [done|]. rewrite IH. lia. Qed.

Lemma wsum_take_S f l i x : l !! i = Some x -> wsum f (take (S i) l) = wsum f (take i l) + f x.
Proof. intros H. rewrite (take_S_r _ _ _ H), wsum_app. cbn. lia. Qed.

Lemma wsum_Forall f l : Forall (fun x => 0 <= f x) l -> 0 <= wsum f l.
Proof. induction 1; cbn; lia. Qed.

Lemma wsum_take_le f l i : Forall (fun x => 0 <= f x) l -> 0 <= wsum f (take i l) <= wsum f l.
Proof.
  intros H. rewrite <- (take_drop i l) at 3. rewrite wsum_app.
  pose proof (wsum_Forall f _ (Forall_take _ i _ H)). pose proof (wsum_Forall f _ (Forall_drop _ i _ H)). lia.
Qed.

Lemma wsum_lookup_le f l i x : Forall (fun x => 0 <= f x) l -> l !! i = Some x -> f x <= wsum f l.
Proof.
  intros H Hi. pose proof (wsum_take_le f l i H). pose proof (wsum_take_le f l (S i) H) as H2. rewrite (wsum_take_S _ _ _ _ Hi) in H2. lia.
Qed.

End wsum.

Lemma some_or_none {A} (f : A -> bool) (l : list A) :
  (exists i x, l !! i = Some x /\ f x = true) \/ (forall i x, l !! i = Some x -> f x = false).
Proof.
  induction l as [|z l IH]; [by right|]. destruct (f z) eqn:Ez; [left; by exists 0%nat, z|].
  destruct IH as [(i & x & Hi & Hx)|IH]; [left; by exists (S i), x | right; intros [|i] x Hi; cbn in *; simplify_eq; eauto].
Qed.

(** ** Executions *)

(** Every execution from a state that keeps [Inv] is no longer than its
    measure. *)
Lemma nsteps_bounded {S} (step : relation S) (Inv : S -> Prop) (m : S -> Z) :
  (forall s s', Inv s -> step s s' -> Inv s') -> (forall s, Inv s -> 0 <= m s) ->
  (forall s s', Inv s -> step s s' -> m s' < m s) ->
  forall k s s', Inv s -> nsteps step k s s' -> Z.of_nat k <= m s.
Proof.
  intros Hi Hp Hd k s s' Hs Hk. revert Hs. induction Hk as [s|k s t s' Hst _ IH]; intros Hs; [by apply Hp|].
  pose proof (Hd s t Hs Hst). specialize (IH (Hi s t Hs Hst)). lia.
Qed.

Lemma rtc_inv {S} (step : relation S) (Inv : S -> Prop) s s' :
  (forall s s', Inv s -> step s s' -> Inv s') -> rtc step s s' -> Inv s -> Inv s'.
Proof. intros Hi Hr. induction Hr; eauto. Qed.


(** A schedule names the threads that get a turn; one that cannot move lets
    it pass.  The steps it takes are an execution. *)
Fixpoint sched {T S} (pick : T -> S -> option S) (l : list T) (s : S) : nat * S :=
  match l with
  | [] => (0%nat, s)
  | t :: l' =>
      match pick t s with
      | Some s' => let '(n, s2) := sched pick l' s' in ((1 + n)%nat, s2)
      | None => sched pick l' s
      end
  end.

Lemma sched_nsteps {T S} (step : relation S) (pick : T -> S -> option S) l s :
  (forall t s s', pick t s = Some s' -> step s s') -> nsteps step (sched pick l s).1 s (sched pick l s).2.
Proof.
  intros Hp. revert s. induction l as [|t l IH]; intros s; cbn; [apply nsteps_O|].
  destruct (pick t s) as [s'|] eqn:E; [|apply IH]. specialize (IH s'). destruct (sched pick l s') as [n s2]. cbn in *.
  by apply (nsteps_l _ _ s s'); [apply (Hp t)|].
Qed.

(** A measure that every step lowers by one counts the steps. *)
Lemma nsteps_counts {S} (step : relation S) (Inv : S -> Prop) (m : S -> Z) :
  (forall s s', Inv s -> step s s' -> Inv s') -> (forall s s', Inv s -> step s s' -> m s' = m s - 1) ->
  forall k s s', Inv s -> nsteps step k s s' -> Inv s' /\ m s' = m s - Z.of_nat k.
Proof.
  intros Hi Hd k s s' Hs Hk. revert Hs. induction Hk as [s|k s t s' Hst _ IH]; intros Hs; [split; [done | lia]|].
  pose proof (Hd s t Hs Hst). destruct (IH (Hi s t Hs Hst)) as [H1 H2]. split; [done | lia].
Qed.
