(* ===== verification/Adder.v ===== *)
(** * The adders, [asst1/math.c]

    [maths] starts [nadders] threads that increment a shared counter until it
    is [nadds], and waits for them.  The model has a step for every access to
    a shared variable, so that the threads interleave as they do on a machine;
    [P] and [V] are single steps on the count of a semaphore, [P] waiting
    until it is positive.  A thread is its program counter with its local
    variables. *)

From S2P Require Import Prelude Interleave.

Definition NADDERS : nat := 10.
Definition NADDS : Z := 10000.

(** Where an [adder] thread is, with [a], [b] and what it has read. *)
Inductive adder_pc :=
| AP                      (* P(lock_cnt) *)
| ARead                   (* a = counter *)
| ATest (a : Z)           (* if (a < NADDS) *)
| ALoad (a : Z)           (* the right-hand side of counter = counter + 1 *)
| AStore (a t : Z)        (* its left-hand side *)
| ABack (a : Z)           (* b = counter *)
| AStat (a b : Z)         (* read adder_counters[addernumber] *)
| AStat2 (a b c : Z)      (* adder_counters[addernumber]++ *)
| ASane (a b : Z)         (* if (a + 1 != b) kprintf *)
| AV (flag : bool)        (* V(lock_cnt), and the test of the loop *)
| AFinish                 (* V(finished) *)
| AExit.                  (* thread_exit() *)

(** Where [maths] is. *)
Inductive main_pc :=
| MFork (index : nat)
| MWait (index : nat)
| MReport                           (* kprintf("... %ld adds", counter) *)
| MSum (adds : Z) (index : nat) (sum : Z)
| MDone (adds sum : Z).             (* what it has printed *)

Record maths_state := Maths {
  counter : Z;
  adder_counters : list Z;
  lock_cnt : Z;
  finished : Z;
  adders : list (option adder_pc);   (* None before thread_fork *)
  maths_main : main_pc;
  complaints : Z                     (* lines printed by the check a + 1 != b *)
}.

Section maths.
Context (nadders : nat) (nadds : Z).

(** The state when [maths] has made its semaphores, with the counters as an
    earlier run left them: [maths] does not clear them. *)
Definition maths_start (c : Z) (l : list Z) : maths_state :=
  Maths c l 1 0 (replicate nadders None) (MFork 0) 0.

(** The first run after boot. *)
Definition maths_boot : maths_state := maths_start 0 (replicate nadders 0).

Definition set_pc (i : nat) (pc : adder_pc) (s : maths_state) : maths_state :=
  Maths (counter s) (adder_counters s) (lock_cnt s) (finished s) (<[i := Some pc]> (adders s)) (maths_main s) (complaints s).
Definition set_main (pc : main_pc) (s : maths_state) : maths_state :=
  Maths (counter s) (adder_counters s) (lock_cnt s) (finished s) (adders s) pc (complaints s).
Definition set_counter (c : Z) (s : maths_state) : maths_state :=
  Maths c (adder_counters s) (lock_cnt s) (finished s) (adders s) (maths_main s) (complaints s).
Definition set_counters (l : list Z) (s : maths_state) : maths_state :=
  Maths (counter s) l (lock_cnt s) (finished s) (adders s) (maths_main s) (complaints s).
Definition set_lock (c : Z) (s : maths_state) : maths_state :=
  Maths (counter s) (adder_counters s) c (finished s) (adders s) (maths_main s) (complaints s).
Definition set_finished (c : Z) (s : maths_state) : maths_state :=
  Maths (counter s) (adder_counters s) (lock_cnt s) c (adders s) (maths_main s) (complaints s).
Definition complain (s : maths_state) : maths_state :=
  Maths (counter s) (adder_counters s) (lock_cnt s) (finished s) (adders s) (maths_main s) (complaints s + 1).

(** The next step of adder [i]; [None] when it cannot take one. *)
Definition adder (i : nat) (s : maths_state) : option maths_state :=
  match adders s !! i with
  | Some (Some pc) =>
      match pc with
      | AP => if 0 <? lock_cnt s then Some (set_pc i ARead (set_lock (lock_cnt s - 1) s)) else None
      | ARead => Some (set_pc i (ATest (counter s)) s)
      | ATest a => Some (set_pc i (if a <? nadds then ALoad a else AV false) s)
      | ALoad a => Some (set_pc i (AStore a (counter s)) s)
      | AStore a t => Some (set_pc i (ABack a) (set_counter (u32 (t + 1)) s))
      | ABack a => Some (set_pc i (AStat a (counter s)) s)
      | AStat a b => c ← adder_counters s !! i; Some (set_pc i (AStat2 a b c) s)
      | AStat2 a b c => Some (set_pc i (ASane a b) (set_counters (<[i := u32 (c + 1)]> (adder_counters s)) s))
      | ASane a b => Some (set_pc i (AV true) (if u32 (a + 1) =? b then s else complain s))
      | AV flag => Some (set_pc i (if flag then AP else AFinish) (set_lock (lock_cnt s + 1) s))
      | AFinish => Some (set_pc i AExit (set_finished (finished s + 1) s))
      | AExit => None
      end
  | _ => None
  end.

(** The next step of [maths]: threads are forked in order ([panic] on a
    failure), then waited for. *)
Definition maths (s : maths_state) : option maths_state :=
  match maths_main s with
  | MFork i =>
      if (i <? nadders)%nat then
        Some (Maths (counter s) (adder_counters s) (lock_cnt s) (finished s) (<[i := Some AP]> (adders s)) (MFork (S i)) (complaints s))
      else Some (set_main (MWait 0) s)
  | MWait i =>
      if (i <? nadders)%nat then
        if 0 <? finished s then Some (set_main (MWait (S i)) (set_finished (finished s - 1) s)) else None
      else Some (set_main MReport s)
  | MReport => Some (set_main (MSum (counter s) 0 0) s)
  | MSum adds i sum =>
      if (i <? nadders)%nat then c ← adder_counters s !! i; Some (set_main (MSum adds (S i) (u32 (sum + c))) s)
      else Some (set_main (MDone adds sum) s)
  | MDone _ _ => None
  end.

(** A step of the machine: of [maths] or of an adder. *)
Inductive maths_step (s s' : maths_state) : Prop :=
| step_main : maths s = Some s' -> maths_step s s'
| step_adder i : adder i s = Some s' -> maths_step s s'.

(** ** The invariant *)

(** In the critical region, and between the increment of the counter and
    that of the statistics. *)
Definition critical (o : option adder_pc) : Z :=
  match o with
  | Some (ARead | ATest _ | ALoad _ | AStore _ _ | ABack _ | AStat _ _ | AStat2 _ _ _ | ASane _ _ | AV _) => 1
  | _ => 0
  end.

Definition uncounted (o : option adder_pc) : Z :=
  match o with Some (ABack _ | AStat _ _ | AStat2 _ _ _) => 1 | _ => 0 end.

Definition exited (o : option adder_pc) : Z := match o with Some AExit => 1 | _ => 0 end.

(** What adder [i] knows. *)
Definition adder_knows (s : maths_state) (i : nat) (pc : adder_pc) : Prop :=
  match pc with
  | AP | ARead => True
  | ATest a => a = counter s
  | ALoad a => a = counter s /\ a < nadds
  | AStore a t => a = counter s /\ t = counter s /\ a < nadds
  | ABack a => counter s = a + 1
  | AStat a b => counter s = a + 1 /\ b = counter s
  | AStat2 a b c => counter s = a + 1 /\ b = counter s /\ adder_counters s !! i = Some c
  | ASane a b => counter s = a + 1 /\ b = counter s
  | AV flag => flag = false -> counter s = nadds
  | AFinish | AExit => counter s = nadds
  end.

Definition forked (pc : main_pc) : nat := match pc with MFork i => i | _ => nadders end.
Definition waited (pc : main_pc) : nat := match pc with MFork _ => 0 | MWait i => i | _ => nadders end.

(** What [maths] knows once all adders have finished. *)
Definition main_knows (s : maths_state) : Prop :=
  match maths_main s with
  | MSum adds i sum => adds = nadds /\ sum = wsum id (take i (adder_counters s)) /\ (i <= nadders)%nat
  | MDone adds sum => adds = nadds /\ sum = nadds
  | _ => True
  end.

Record maths_inv (s : maths_state) : Prop := {
  mi_len : length (adders s) = nadders /\ length (adder_counters s) = nadders;
  mi_lock : lock_cnt s = 1 - wsum critical (adders s) /\ 0 <= lock_cnt s;
  mi_counter : 0 <= counter s <= nadds;
  mi_stats : counter s = wsum id (adder_counters s) + wsum uncounted (adders s);
  mi_nonneg : Forall (fun c => 0 <= c) (adder_counters s);
  mi_knows : forall i pc, adders s !! i = Some (Some pc) -> adder_knows s i pc;
  mi_finished : finished s = wsum exited (adders s) - Z.of_nat (waited (maths_main s)) /\ 0 <= finished s;
  mi_forked : (forked (maths_main s) <= nadders)%nat /\ forall i, (i < forked (maths_main s))%nat -> exists pc, adders s !! i = Some (Some pc);
  mi_unforked : forall i, (forked (maths_main s) <= i < nadders)%nat -> adders s !! i = Some None;
  mi_waited : (waited (maths_main s) <= nadders)%nat;
  mi_sane : complaints s = 0;
  mi_done : main_knows s
}.

(** ** It is kept *)

Hypothesis Hnadds : 0 <= nadds < 2 ^ 32.
Hypothesis Hnadders : (0 < nadders)%nat.

Lemma critical_range o : 0 <= critical o <= 1.
Proof. destruct o as [[]|]; cbn; lia. Qed.

Lemma uncounted_critical o : 0 <= uncounted o <= critical o.
Proof. destruct o as [[]|]; cbn; lia. Qed.

Lemma exited_range o : 0 <= exited o <= 1.
Proof. destruct o as [[]|]; cbn; lia. Qed.

Lemma maths_start_inv c l :
  length l = nadders -> Forall (fun x => 0 <= x) l -> wsum id l = c -> c <= nadds -> maths_inv (maths_start c l).
Proof.
  intros Hl Hnn Hc Hle. pose proof (wsum_Forall id l Hnn).
  split; cbn; rewrite ?length_replicate, ?wsum_replicate; cbn; try lia; try done.
  - intros i pc Hi. apply lookup_replicate in Hi. destruct Hi as [Hi _]. discriminate.
  - split; [lia|]. intros i Hi. lia.
  - intros i Hi. apply lookup_replicate. split; [done | lia].
Qed.

(** Mutual exclusion. *)
Lemma one_critical s i j o o' :
  maths_inv s -> i <> j -> adders s !! i = Some o -> adders s !! j = Some o' -> critical o = 1 -> critical o' = 0.
Proof.
  intros I Hne Hi Hj Hc. destruct (mi_lock s I) as [H1 H2].
  pose proof (wsum_two critical (adders s) i j o o' (fun o => proj1 (critical_range o)) Hne Hi Hj). pose proof (critical_range o'). lia.
Qed.

(** The knowledge of a thread outside the critical region survives as long
    as the counter that has reached its end stays. *)
Lemma knows_outside s s' j pc :
  critical (Some pc) = 0 -> (counter s = nadds -> counter s' = nadds) -> adder_knows s j pc -> adder_knows s' j pc.
Proof. destruct pc; cbn; try done; auto. Qed.

Lemma knows_same s s' j pc :
  counter s' = counter s -> adder_counters s' = adder_counters s -> adder_knows s j pc -> adder_knows s' j pc.
Proof. intros H1 H2. destruct pc; cbn; by rewrite ?H1, ?H2. Qed.

(** Every adder has exited when [maths] has been woken by all. *)
Lemma all_exited s i o : maths_inv s -> waited (maths_main s) = nadders -> adders s !! i = Some o -> o = Some AExit.
Proof.
  intros I Hw Hi. destruct (mi_finished s I) as [H1 H2]. destruct (mi_len s I) as [Hl _].
  assert (Hb : forall o, exited o <= 1) by (intros o'; apply exited_range). pose proof (wsum_bound exited (adders s) Hb).
  assert (He : exited o = 1) by (apply (wsum_full exited (adders s) i o Hb); [lia | done]). by destruct o as [[]|].
Qed.

(** A step of adder [i] from [pc] to [pc']. *)
Lemma adder_moves s i pc pc' c l k f n :
  maths_inv s -> adders s !! i = Some (Some pc) ->
  let s' := Maths c l k f (<[i := Some pc']> (adders s)) (maths_main s) n in
  length l = nadders -> k = lock_cnt s - critical (Some pc') + critical (Some pc) -> 0 <= k ->
  0 <= c <= nadds -> c - wsum id l = counter s - wsum id (adder_counters s) + uncounted (Some pc') - uncounted (Some pc) ->
  Forall (fun x => 0 <= x) l -> f = finished s + exited (Some pc') -> exited (Some pc) = 0 -> n = 0 ->
  adder_knows s' i pc' ->
  (forall j q, j <> i -> adders s !! j = Some (Some q) -> adder_knows s j q -> adder_knows s' j q) ->
  maths_inv s'.
Proof.
  intros I Hi s' Hl Hk Hk0 Hc Hst Hnn Hf Hex Hn Hme Hoth.
  pose proof (exited_range (Some pc')).
  assert (Hnot : main_knows s').
  { unfold main_knows. cbn. destruct (maths_main s) eqn:Em; try done; exfalso;
      pose proof (all_exited s i _ I ltac:(by rewrite Em) Hi); by simplify_eq. }
  destruct I as [I1 I2 I3 I4 I5 I6 I7 I8 I9 I10 I11 I12].
  split; cbn [adders adder_counters lock_cnt counter finished maths_main complaints s']; rewrite ?length_insert, ?(wsum_insert _ _ _ _ _ Hi); try done; try lia.
  - intros j q Hj. destruct (decide (i = j)) as [<-|Hne].
    + rewrite list_lookup_insert_eq in Hj by (by apply lookup_lt_Some in Hi). by simplify_eq.
    + rewrite list_lookup_insert_ne in Hj by done. apply (Hoth j q); auto.
  - split; [apply I8|]. intros j Hj. destruct (decide (i = j)) as [<-|Hne].
    + exists pc'. apply list_lookup_insert_eq. by apply lookup_lt_Some in Hi.
    + rewrite list_lookup_insert_ne by done. by apply I8.
  - intros j Hj. destruct (decide (i = j)) as [<-|Hne]; [rewrite (I9 i Hj) in Hi; done|]. rewrite list_lookup_insert_ne by done. by apply I9.
Qed.

Lemma adder_inv s i s' : maths_inv s -> adder i s = Some s' -> maths_inv s'.
Proof.
  intros I Ha. unfold adder in Ha. destruct (adders s !! i) as [[pc|]|] eqn:Hi; [|done..].
  pose proof (mi_knows s I i pc Hi) as Kn. destruct (mi_len s I) as [_ Hlen]. destruct (mi_lock s I) as [Hl1 Hl2].
  pose proof (mi_counter s I) as Hc. pose proof (mi_nonneg s I) as Hnn. pose proof (mi_sane s I) as Hs0.
  assert (Hcrit : critical (Some pc) = 1 -> forall j q, j <> i -> adders s !! j = Some (Some q) -> critical (Some q) = 0).
  { intros H j q Hne Hj. by apply (one_critical s i j (Some pc) (Some q)). }
  assert (Hlt : (i < nadders)%nat) by (rewrite <- Hlen; apply lookup_lt_Some in Hi; rewrite (proj1 (mi_len s I)) in Hi; lia).
  destruct pc; cbn [adder_knows] in Kn.
  - destruct (Z.ltb_spec 0 (lock_cnt s)); simplify_eq. apply (adder_moves s i AP ARead); try done; cbn; try lia; try (intros j q _ _; by apply knows_same).
  - simplify_eq. apply (adder_moves s i ARead (ATest (counter s))); try done; cbn; try lia; try (intros j q _ _; by apply knows_same).
  - destruct (Z.ltb_spec a nadds); simplify_eq.
    + apply (adder_moves s i (ATest (counter s)) (ALoad (counter s))); try done; cbn; try lia; try (intros j q _ _; by apply knows_same).
    + apply (adder_moves s i (ATest (counter s)) (AV false)); try done; cbn; try lia; try (intros j q _ _; by apply knows_same).
  - destruct Kn as [-> Hlt']. simplify_eq. apply (adder_moves s i (ALoad (counter s)) (AStore (counter s) (counter s))); try done; cbn; try lia; try (intros j q _ _; by apply knows_same).
  - destruct Kn as (-> & -> & Hlt'). simplify_eq. rewrite wrap_small by lia.
    apply (adder_moves s i (AStore (counter s) (counter s)) (ABack (counter s))); try done; cbn; try lia.
    intros j q Hne Hj. apply knows_outside; [by apply (Hcrit eq_refl j)|]. lia.
  - simplify_eq. apply (adder_moves s i (ABack a) (AStat a (counter s))); try done; cbn; try lia; try (intros j q _ _; by apply knows_same).
  - destruct (adder_counters s !! i) as [c|] eqn:Ec; [|done]. destruct Kn. simplify_eq/=.
    apply (adder_moves s i (AStat a (counter s)) (AStat2 a (counter s) c)); try done; cbn; try lia; try (intros j q _ _; by apply knows_same).
  - destruct Kn as (Hb & -> & Ec). simplify_eq.
    assert (Hc0 : 0 <= c) by (by apply (Forall_lookup_1 _ _ _ _ Hnn Ec)).
    pose proof (wsum_lookup_le id _ i c Hnn Ec) as Hcs. change (id c) with c in Hcs.
    pose proof (mi_stats s I) as Hst. pose proof (wsum_elem uncounted _ i _ (fun o => proj1 (uncounted_critical o)) Hi) as Hu. cbn in Hu.
    rewrite wrap_small by lia.
    apply (adder_moves s i (AStat2 a (counter s) c) (ASane a (counter s))); try done; cbn; try lia.
    + by rewrite length_insert.
    + rewrite (wsum_insert _ _ _ _ _ Ec). unfold id at 2 3. lia.
    + apply Forall_insert; [done | lia].
    + intros j q Hne Hj. apply knows_outside; [by apply (Hcrit eq_refl j)|]. done.
  - destruct Kn as [Hb ->]. simplify_eq. rewrite wrap_small by lia. rewrite <- Hb, Z.eqb_refl.
    apply (adder_moves s i (ASane a (counter s)) (AV true)); try done; cbn; try lia; try (intros j q _ _; by apply knows_same).
  - simplify_eq. destruct flag.
    + apply (adder_moves s i (AV true) AP); try done; cbn; try lia; try (intros j q _ _; by apply knows_same).
    + apply (adder_moves s i (AV false) AFinish); try done; cbn; try lia; try (intros j q _ _; by apply knows_same); auto.
  - simplify_eq. apply (adder_moves s i AFinish AExit); try done; cbn; try lia; try (intros j q _ _; by apply knows_same).
  - done.
Qed.

Lemma forks_inv s i : maths_inv s -> maths_main s = MFork i -> (i < nadders)%nat ->
  maths_inv (Maths (counter s) (adder_counters s) (lock_cnt s) (finished s) (<[i := Some AP]> (adders s)) (MFork (S i)) (complaints s)).
Proof.
  intros [I1 I2 I3 I4 I5 I6 I7 I8 I9 I10 I11 I12] Em Hi. rewrite Em in *. cbn in *.
  assert (Hn : adders s !! i = Some None) by (apply I9; lia).
  split; cbn; rewrite ?length_insert, ?(wsum_insert _ _ _ _ _ Hn); cbn; try done; try lia.
  - intros j q Hj. apply list_lookup_insert_Some in Hj. destruct Hj as [(<- & Hq & _)|[_ Hj]]; [by simplify_eq | by apply I6 in Hj; revert Hj; apply knows_same].
  - split; [lia|]. intros j Hj. destruct (decide (j = i)) as [->|]; [exists AP; apply list_lookup_insert_eq; by apply lookup_lt_Some in Hn|].
    rewrite list_lookup_insert_ne by done. apply I8. lia.
  - intros j Hj. rewrite list_lookup_insert_ne by lia. apply I9. lia.
Qed.

(** [maths] moves to [pc] and takes from [finished]. *)
Lemma main_moves s pc f : maths_inv s -> forked pc = nadders -> forked (maths_main s) = nadders ->
  f = finished s - Z.of_nat (waited pc) + Z.of_nat (waited (maths_main s)) -> 0 <= f -> (waited pc <= nadders)%nat ->
  main_knows (set_main pc (set_finished f s)) -> maths_inv (set_main pc (set_finished f s)).
Proof.
  intros [I1 I2 I3 I4 I5 I6 I7 I8 I9 I10 I11 I12] Hf Hf' Hw Hw0 Hwn Hk. rewrite Hf' in *.
  split; cbn; rewrite ?Hf; try done; try lia.
Qed.

Lemma set_finished_same s pc : set_main pc s = set_main pc (set_finished (finished s) s).
Proof. done. Qed.

(** When all adders have exited the counter is at its end and the statistics
    add up to it. *)
Lemma exited_counter s : maths_inv s -> waited (maths_main s) = nadders ->
  counter s = nadds /\ wsum id (adder_counters s) = nadds.
Proof.
  intros I Hw. destruct (mi_len s I) as [Hl _].
  assert (Hu : wsum uncounted (adders s) = 0).
  { pose proof (wsum_nonneg uncounted (adders s) (fun o => proj1 (uncounted_critical o))).
    destruct (Z.eq_dec (wsum uncounted (adders s)) 0) as [|Hne]; [done|].
    destruct (wsum_pos uncounted (adders s)) as (i & o & Hi & Ho); [intros o; apply uncounted_critical | lia|].
    rewrite (all_exited s i o I Hw Hi) in Ho. cbn in Ho. lia. }
  destruct (lookup_lt_is_Some_2 (adders s) 0) as [o Ho]; [lia|].
  rewrite (all_exited s 0%nat o I Hw Ho) in Ho. pose proof (mi_knows s I 0%nat AExit Ho) as Hc. cbn in Hc.
  pose proof (mi_stats s I). split; [done | lia].
Qed.

Lemma main_inv s s' : maths_inv s -> maths s = Some s' -> maths_inv s'.
Proof.
  intros I Hm. pose proof (mi_finished s I) as [_ Hf0]. pose proof (mi_waited s I) as Hw. destruct (mi_forked s I) as [Hfk _].
  pose proof (mi_done s I) as Hd. unfold maths in Hm. destruct (maths_main s) as [i|i| |adds i sum|adds sum] eqn:Em; [| | | |done].
  - destruct (Nat.ltb_spec i nadders); simplify_eq; [by apply forks_inv|]. cbn in Hfk. assert (i = nadders) as -> by lia.
    rewrite set_finished_same. apply main_moves; rewrite ?Em; cbn; try done; lia.
  - destruct (Nat.ltb_spec i nadders) as [Hi|Hi].
    + destruct (Z.ltb_spec 0 (finished s)); simplify_eq. apply main_moves; rewrite ?Em; cbn; try done; lia.
    + simplify_eq. cbn in Hw. rewrite set_finished_same. apply main_moves; rewrite ?Em; cbn; try done; lia.
  - simplify_eq. rewrite set_finished_same. apply main_moves; rewrite ?Em; cbn; try done; try lia.
    destruct (exited_counter s I) as [Hc _]; [by rewrite Em|]. unfold main_knows; cbn. split_and!; [done.. | lia].
  - unfold main_knows in Hd. rewrite Em in Hd. destruct Hd as (-> & -> & Hi).
    destruct (exited_counter s I) as [_ Hst]; [by rewrite Em|].
    destruct (Nat.ltb_spec i nadders) as [Hlt|Hge].
    + destruct (adder_counters s !! i) as [c|] eqn:Ec; [|done]. simplify_eq/=. pose proof (mi_nonneg s I) as Hnn.
      pose proof (wsum_take_le id _ (S i) Hnn) as Ht. rewrite (wsum_take_S _ _ _ _ Ec) in Ht. change (id c) with c in Ht.
      rewrite set_finished_same. apply main_moves; rewrite ?Em; cbn; try done; try lia.
      unfold main_knows; cbn. rewrite (wsum_take_S _ _ _ _ Ec). change (id c) with c. rewrite wrap_small by lia. split_and!; [done.. | lia].
    + simplify_eq. rewrite set_finished_same. apply main_moves; rewrite ?Em; cbn; try done; try lia.
      unfold main_knows; cbn. rewrite take_ge by (rewrite (proj2 (mi_len s I)); lia). done.
Qed.

Lemma maths_step_inv s s' : maths_inv s -> maths_step s s' -> maths_inv s'.
Proof. intros I [H|i H]; [by apply (main_inv s) | by apply (adder_inv s i)]. Qed.

(** ** Every step brings the end nearer *)

(** The steps a thread still has to take, ten for each increment apart. *)
Definition adder_left (o : option adder_pc) : Z :=
  match o with
  | None => 0
  | Some AP => 5
  | Some ARead => 4
  | Some (ATest _) => 3
  | Some (ALoad _) => 2
  | Some (AStore _ _) => 1
  | Some (ABack _) => 10
  | Some (AStat _ _) => 9
  | Some (AStat2 _ _ _) => 8
  | Some (ASane _ _) => 7
  | Some (AV flag) => if flag then 6 else 2
  | Some AFinish => 1
  | Some AExit => 0
  end.

Definition main_left (pc : main_pc) : Z :=
  let n := Z.of_nat nadders in
  match pc with
  | MFork i => 6 * (n - Z.of_nat i) + 2 * n + 4
  | MWait i => n - Z.of_nat i + n + 3
  | MReport => n + 2
  | MSum _ i _ => n - Z.of_nat i + 1
  | MDone _ _ => 0
  end.

Definition steps_left (s : maths_state) : Z :=
  10 * (nadds - counter s) + wsum adder_left (adders s) + main_left (maths_main s).

Lemma steps_left_decreases s s' : maths_inv s -> maths_step s s' -> steps_left s' = steps_left s - 1.
Proof.
  intros I [H|i H].
  - unfold maths in H. pose proof (mi_waited s I) as Hw. destruct (mi_forked s I) as [Hfk _]. pose proof (mi_done s I) as Hd. unfold main_knows in Hd.
    destruct (maths_main s) as [i|i| |adds i sum|adds sum] eqn:Em; [| | | |done]; cbn in Hw, Hfk, Hd.
    + destruct (Nat.ltb_spec i nadders); simplify_eq; unfold steps_left; cbn; rewrite ?Em; cbn; [|lia].
      assert (Hn : adders s !! i = Some None) by (apply (mi_unforked s I); rewrite Em; cbn; lia).
      rewrite (wsum_insert _ _ _ _ _ Hn). cbn. lia.
    + destruct (Nat.ltb_spec i nadders); [destruct (Z.ltb_spec 0 (finished s))|]; simplify_eq; unfold steps_left; cbn; rewrite ?Em; cbn; lia.
    + simplify_eq; unfold steps_left; cbn; rewrite ?Em; cbn; lia.
    + destruct (Nat.ltb_spec i nadders); [destruct (adder_counters s !! i)|]; simplify_eq/=; unfold steps_left; cbn; rewrite ?Em; cbn; lia.
  - unfold adder in H. destruct (adders s !! i) as [[pc|]|] eqn:Hi; [|done..]. pose proof (mi_knows s I i pc Hi) as Kn.
    pose proof (mi_counter s I). destruct pc; cbn in Kn.
    all: try (simplify_eq; unfold steps_left; cbn; rewrite (wsum_insert _ _ _ _ _ Hi); cbn; lia).
    + destruct (Z.ltb_spec 0 (lock_cnt s)); simplify_eq; unfold steps_left; cbn; rewrite (wsum_insert _ _ _ _ _ Hi); cbn; lia.
    + destruct (Z.ltb_spec a nadds); simplify_eq; unfold steps_left; cbn; rewrite (wsum_insert _ _ _ _ _ Hi); cbn; lia.
    + destruct Kn as (-> & -> & ?). simplify_eq. rewrite wrap_small by lia. unfold steps_left; cbn; rewrite (wsum_insert _ _ _ _ _ Hi); cbn; lia.
    + destruct (adder_counters s !! i); simplify_eq/=. unfold steps_left; cbn; rewrite (wsum_insert _ _ _ _ _ Hi); cbn; lia.
    + destruct (u32 (a + 1) =? b); simplify_eq; unfold steps_left; cbn; rewrite (wsum_insert _ _ _ _ _ Hi); cbn; lia.
    + destruct flag; simplify_eq; unfold steps_left; cbn; rewrite (wsum_insert _ _ _ _ _ Hi); cbn; lia.
Qed.

Lemma steps_left_nonneg s : maths_inv s -> 0 <= steps_left s.
Proof.
  intros I. pose proof (mi_counter s I). pose proof (mi_waited s I) as Hw. destruct (mi_forked s I) as [Hfk _]. pose proof (mi_done s I) as Hd.
  assert (0 <= wsum adder_left (adders s)) by (apply wsum_nonneg; intros [[]|]; cbn; try lia; by destruct flag).
  unfold steps_left, main_knows in *. destruct (maths_main s); cbn in *; lia.
Qed.

(** ** There is always a step to take *)

Lemma adder_steps s i pc : maths_inv s -> adders s !! i = Some (Some pc) ->
  pc <> AExit -> (pc = AP -> 0 < lock_cnt s) -> exists s', adder i s = Some s'.
Proof.
  intros I Hi Hne Hp. unfold adder. rewrite Hi. destruct pc; try done; try (by eexists).
  - rewrite (proj2 (Z.ltb_lt _ _) (Hp eq_refl)). by eexists.
  - destruct (lookup_lt_is_Some_2 (adder_counters s) i) as [c Hc]; [|rewrite Hc; by eexists].
    destruct (mi_len s I) as [H1 H2]. apply lookup_lt_Some in Hi. lia.
Qed.

Lemma maths_progress s : maths_inv s -> (exists s', maths_step s s') \/ exists adds sum, maths_main s = MDone adds sum.
Proof.
  intros I. destruct (maths_main s) as [i|i| |adds i sum|adds sum] eqn:Em; [| | | |right; eauto]; left.
  - destruct (i <? nadders)%nat eqn:E; (eexists; apply step_main; unfold maths; by rewrite Em, E).
  - destruct (i <? nadders)%nat eqn:E; [|eexists; apply step_main; unfold maths; by rewrite Em, E].
    destruct (0 <? finished s) eqn:Ef; [eexists; apply step_main; unfold maths; by rewrite Em, E, Ef|].
    apply Nat.ltb_lt in E. apply Z.ltb_ge in Ef. destruct (mi_finished s I) as [Hf _]. rewrite Em in Hf. cbn in Hf.
    destruct (mi_len s I) as [Hl _]. destruct (mi_forked s I) as [_ Hfk]. rewrite Em in Hfk. cbn in Hfk.
    destruct (wsum_some_zero exited (adders s)) as (j & o & Hj & Ho); [lia|].
    destruct (Hfk j) as [pc Hpc]; [apply lookup_lt_Some in Hj; lia|]. simplify_eq.
    destruct (Z.lt_ge_cases 0 (lock_cnt s)) as [Hk|Hk].
    { destruct (adder_steps s j pc) as [s' Hs]; try done; [by intros ->|]. exists s'. by apply (step_adder _ _ j). }
    destruct (mi_lock s I) as [Hk1 Hk2].
    destruct (wsum_pos critical (adders s)) as (k & o & Hkk & Ho'); [intros o; apply critical_range | lia|].
    destruct o as [q|]; [|cbn in Ho'; lia].
    destruct (adder_steps s k q) as [s' Hs]; [done | done | by intros -> | by intros -> |]. exists s'. by apply (step_adder _ _ k).
  - eexists. apply step_main. unfold maths. by rewrite Em.
  - destruct (i <? nadders)%nat eqn:E; [|eexists; apply step_main; unfold maths; by rewrite Em, E].
    destruct (lookup_lt_is_Some_2 (adder_counters s) i) as [c Hc]; [destruct (mi_len s I) as [_ ->]; by apply Nat.ltb_lt|].
    eexists. apply step_main. unfold maths. rewrite Em, E, Hc. done.
Qed.

Lemma done_no_steps_left s adds sum : maths_inv s -> maths_main s = MDone adds sum -> steps_left s = 0.
Proof.
  intros I Em. destruct (exited_counter s I) as [Hc _]; [by rewrite Em|]. unfold steps_left. rewrite Em, Hc. cbn.
  assert (Hz : forall l : list (option adder_pc), Forall (fun o => o = Some AExit) l -> wsum adder_left l = 0).
  { induction 1 as [|o l -> _ IH]; cbn; [done|]. by rewrite IH. }
  rewrite Hz; [lia|]. apply Forall_lookup_2. intros i o Hi. apply (all_exited s i); try done. by rewrite Em.
Qed.

(** Who takes the next step: [None] is [maths]. *)
Definition maths_turn (t : option nat) (s : maths_state) : option maths_state :=
  match t with None => maths s | Some i => adder i s end.

Lemma maths_turn_step t s s' : maths_turn t s = Some s' -> maths_step s s'.
Proof. destruct t as [i|]; [apply step_adder | apply step_main]. Qed.

End maths.

(** C24: Whatever way the threads interleave, [maths] finishes, and with the
    right result: started with counters that agree and have not passed
    [nadds], every execution takes exactly [10 * (nadds - c) + 8 * nadders + 4]
    steps, can be continued until then (there is no deadlock), prints [nadds]
    adds and [nadds] increments overall, and never the complaint that
    [a + 1] is not [b]. *)
Theorem maths_finishes nadders nadds c l k s :
  0 <= nadds < 2 ^ 32 -> (0 < nadders)%nat ->
  length l = nadders -> Forall (fun x => 0 <= x) l -> wsum id l = c -> c <= nadds ->
  nsteps (maths_step nadders nadds) k (maths_start nadders c l) s ->
  let steps := 10 * (nadds - c) + 8 * Z.of_nat nadders + 4 in
  Z.of_nat k <= steps /\ complaints s = 0 /\
  (Z.of_nat k < steps -> exists s', maths_step nadders nadds s s') /\
  (Z.of_nat k = steps -> maths_main s = MDone nadds nadds /\ counter s = nadds).
Proof.
  intros Hn Hp Hl Hnn Hc Hle Hk steps.
  pose proof (maths_start_inv nadders nadds Hp c l Hl Hnn Hc Hle) as I0.
  destruct (nsteps_counts _ (maths_inv nadders nadds) (steps_left nadders nadds) (maths_step_inv nadders nadds Hn Hp)
              (steps_left_decreases nadders nadds Hn Hp) k _ s I0 Hk) as [I Hm].
  assert (H0 : steps_left nadders nadds (maths_start nadders c l) = steps).
  { unfold steps_left, steps. cbn. rewrite wsum_replicate. cbn. lia. }
  pose proof (steps_left_nonneg nadders nadds Hp s I). pose proof (mi_sane _ _ s I).
  split_and!; [lia | done | |].
  - intros Hlt. destruct (maths_progress nadders nadds Hp s I) as [?|(adds & sum & Em)]; [done|].
    pose proof (done_no_steps_left nadders nadds Hp s adds sum I Em). lia.
  - intros Heq. destruct (maths_progress nadders nadds Hp s I) as [[s' Hs]|(adds & sum & Em)].
    + pose proof (steps_left_decreases nadders nadds Hn Hp s s' I Hs). pose proof (steps_left_nonneg nadders nadds Hp s' (maths_step_inv nadders nadds Hn Hp s s' I Hs)). lia.
    + pose proof (mi_done _ _ s I) as Hd. unfold main_knows in Hd. rewrite Em in *. destruct Hd as [-> ->].
      destruct (exited_counter nadders nadds Hp s I) as [? _]; [by rewrite Em|]. done.
Qed.

(** Two adders and two increments, a turn each in rotation. *)
Definition demo_turns : list (option nat) := concat (replicate 40 [None; Some 1%nat; Some 0%nat]).
Definition demo_run : nat * maths_state := sched (maths_turn 2 2) demo_turns (maths_boot 2).

Example demo_run_ends : demo_run.1 = 40%nat /\ adder_counters demo_run.2 = [1; 1].
Proof. vm_compute. done. Qed.

Lemma demo_run_steps : nsteps (maths_step 2 2) 40 (maths_boot 2) demo_run.2.
Proof. rewrite <- (proj1 demo_run_ends). unfold demo_run. apply sched_nsteps, maths_turn_step. Qed.

Lemma maths_finishes_witness : maths_main demo_run.2 = MDone 2 2 /\ counter demo_run.2 = 2 /\ complaints demo_run.2 = 0.
Proof.
  destruct (maths_finishes 2 2 0 [0; 0] 40 demo_run.2) as (_ & Hc & _ & Hd);
    [lia | lia | reflexivity | repeat constructor; lia | reflexivity | lia | exact demo_run_steps |].
  destruct (Hd eq_refl) as [H1 H2]. split; [exact H1 | split; [exact H2 | exact Hc]].
Defined.
