(* ===== verification/Paintshop.v ===== *)
(** * The paint shop, [asst1/paintshop.c]

    Customers hand in cans, the staff fill them and hand them back through
    two buffers that are protected by semaphores.  The model has a step for
    every semaphore operation, for every critical region (the search of a
    buffer, which happens under its mutex) and for every access to
    [remaining_customers]; the threads interleave in any way.

    The driver of the shop ([paintshop_driver.h]) is not in the sources, so its
    constants and the colours of a can are parameters, [mix] is the time
    between two steps, and the driver appears only as the order of the calls
    that the interface documents: a staff member passes what [take_order]
    returned to [fill_order] and [serve_order] until it returns [NULL], a
    customer calls [order_paint] any number of times, with a can that nobody
    else is waiting for, and at last [go_home]. *)

From stdpp Require Import gmap.
From S2P Require Import Prelude Interleave.

Definition can := nat.

Inductive semaphore :=
| order_mutex | delivery_mutex | tints_mutex | stuff_exit | remaining_customers_mutex
| access_specific_tints (colour : nat)
| ready_cans | order_buffer_full | delivery_buffer_empty | order_buffer_empty.

Definition sem_eqb (x y : semaphore) : bool :=
  match x, y with
  | order_mutex, order_mutex | delivery_mutex, delivery_mutex | tints_mutex, tints_mutex
  | stuff_exit, stuff_exit | remaining_customers_mutex, remaining_customers_mutex
  | ready_cans, ready_cans | order_buffer_full, order_buffer_full
  | delivery_buffer_empty, delivery_buffer_empty | order_buffer_empty, order_buffer_empty => true
  | access_specific_tints a, access_specific_tints b => (a =? b)%nat
  | _, _ => false
  end.

(** One unit of semaphore [x], counted as units of [y]. *)
Definition unit_of (x y : semaphore) : Z := if sem_eqb x y then 1 else 0.

(** A customer in [order_paint] or [go_home], before the operation named. *)
Inductive customer_pc :=
| CIdle
| CPEmpty (c : can)               (* P(order_buffer_empty) *)
| CPOrder (c : can)               (* P(order_mutex) *)
| CPut (c : can)                  (* the loop over order_buffer *)
| CVOrder (c : can)               (* V(order_mutex) *)
| CVFull (c : can)                (* V(order_buffer_full) *)
| CPReady (c : can)               (* P(ready_cans) *)
| CPDelivery (c : can)            (* P(delivery_mutex) *)
| CSearch (c : can)               (* the loop over delivery_buffer *)
| CVDelivery (c : can) (is_found : bool)
| CVReady (c : can) (is_found : bool)
| CVEmpty (c : can)               (* V(delivery_buffer_empty), and return *)
| CPHome                          (* P(remaining_customers_mutex) *)
| CLoad                           (* read remaining_customers *)
| CStore (n : Z)                  (* and write it less one *)
| CVHome                          (* V(remaining_customers_mutex) *)
| CGone.

(** A staff member in [take_order], [fill_order] or [serve_order]. *)
Inductive staff_pc :=
| STest                           (* if (remaining_customers == 0) *)
| SPExit                          (* P(stuff_exit) *)
| SVExit                          (* V(stuff_exit), and return NULL *)
| SGone
| SPFull                          (* P(order_buffer_full) *)
| SPOrder                         (* P(order_mutex) *)
| STake                           (* the loop over order_buffer *)
| SVOrder (found : option can)    (* V(order_mutex) *)
| SVFull (found : option can)     (* V(order_buffer_full) *)
| SVEmpty (c : can)               (* V(order_buffer_empty), and return *)
| SPTints (c : can)               (* P(tints_mutex) *)
| SAcquire (c : can) (i : nat)    (* P(access_specific_tints[requested_colours[i]]) *)
| SVTints (c : can)               (* V(tints_mutex) *)
| SMix (c : can)                  (* mix(v) *)
| SRelease (c : can) (i : nat)    (* V(access_specific_tints[requested_colours[i]]) *)
| SPSpace (c : can)               (* P(delivery_buffer_empty) *)
| SPDelivery (c : can)            (* P(delivery_mutex) *)
| SServe (c : can)                (* the loop over delivery_buffer *)
| SVDelivery                      (* V(delivery_mutex) *)
| SVReady.                        (* V(ready_cans), and return *)

(** [mixed] is the set of the cans that were mixed since they were ordered. *)
Record shop := Shop {
  sem : semaphore -> Z;
  order_buffer : list (option can);
  delivery_buffer : list (option can);
  remaining_customers : Z;
  customers : list customer_pc;
  staff : list staff_pc;
  mixed : gset can
}.

(** The loops over the buffers: store in the first [NULL] slot, take the
    first can, take a given can. *)
Fixpoint store_can (c : can) (b : list (option can)) : list (option can) :=
  match b with
  | [] => []
  | None :: b' => Some c :: b'
  | Some d :: b' => Some d :: store_can c b'
  end.

Fixpoint take_can (b : list (option can)) : option can * list (option can) :=
  match b with
  | [] => (None, [])
  | Some c :: b' => (Some c, None :: b')
  | None :: b' => let '(o, b2) := take_can b' in (o, None :: b2)
  end.

Fixpoint find_can (c : can) (b : list (option can)) : bool * list (option can) :=
  match b with
  | [] => (false, [])
  | o :: b' => if bool_decide (o = Some c) then (true, None :: b') else let '(f, b2) := find_can c b' in (f, o :: b2)
  end.

(** The can a customer has in the shop. *)
Definition can_of (pc : customer_pc) : option can :=
  match pc with
  | CPEmpty c | CPOrder c | CPut c | CVOrder c | CVFull c | CPReady c | CPDelivery c | CSearch c
  | CVDelivery c _ | CVReady c _ | CVEmpty c => Some c
  | _ => None
  end.

Section paintshop.
Context (NCUSTOMERS NSTAFF NCOLOURS : nat) (requested_colours : can -> list nat).

Definition init_semaphore (x : semaphore) : Z :=
  match x with
  | order_mutex | delivery_mutex | tints_mutex | stuff_exit | remaining_customers_mutex => 1
  | access_specific_tints c => if (c <? NCOLOURS)%nat then 1 else 0
  | ready_cans | order_buffer_full => 0
  | delivery_buffer_empty | order_buffer_empty => Z.of_nat NCUSTOMERS
  end.

Definition init_buffer : list (option can) := replicate NCUSTOMERS None.

Definition paintshop_open : shop :=
  Shop init_semaphore init_buffer init_buffer (Z.of_nat NCUSTOMERS) (replicate NCUSTOMERS CIdle) (replicate NSTAFF STest) ∅.

(** ** Semaphores and moves *)

Definition sem_P (x : semaphore) (s : shop) : option shop :=
  if 0 <? sem s x then
    Some (Shop (fun y => sem s y - unit_of x y) (order_buffer s) (delivery_buffer s) (remaining_customers s) (customers s) (staff s) (mixed s))
  else None.

Definition sem_V (x : semaphore) (s : shop) : shop :=
  Shop (fun y => sem s y + unit_of x y) (order_buffer s) (delivery_buffer s) (remaining_customers s) (customers s) (staff s) (mixed s).

Definition cgo (i : nat) (pc : customer_pc) (s : shop) : shop :=
  Shop (sem s) (order_buffer s) (delivery_buffer s) (remaining_customers s) (<[i := pc]> (customers s)) (staff s) (mixed s).
Definition sgo (i : nat) (pc : staff_pc) (s : shop) : shop :=
  Shop (sem s) (order_buffer s) (delivery_buffer s) (remaining_customers s) (customers s) (<[i := pc]> (staff s)) (mixed s).
Definition set_orders (b : list (option can)) (s : shop) : shop :=
  Shop (sem s) b (delivery_buffer s) (remaining_customers s) (customers s) (staff s) (mixed s).
Definition set_deliveries (b : list (option can)) (s : shop) : shop :=
  Shop (sem s) (order_buffer s) b (remaining_customers s) (customers s) (staff s) (mixed s).
Definition set_remaining (n : Z) (s : shop) : shop :=
  Shop (sem s) (order_buffer s) (delivery_buffer s) n (customers s) (staff s) (mixed s).
Definition set_mixed (m : gset can) (s : shop) : shop :=
  Shop (sem s) (order_buffer s) (delivery_buffer s) (remaining_customers s) (customers s) (staff s) m.

(** ** [order_paint] *)

Definition order_paint (i : nat) (pc : customer_pc) (s : shop) : option shop :=
  match pc with
  | CPEmpty c => s1 ← sem_P order_buffer_empty s; Some (cgo i (CPOrder c) s1)
  | CPOrder c => s1 ← sem_P order_mutex s; Some (cgo i (CPut c) s1)
  | CPut c => Some (cgo i (CVOrder c) (set_orders (store_can c (order_buffer s)) s))
  | CVOrder c => Some (cgo i (CVFull c) (sem_V order_mutex s))
  | CVFull c => Some (cgo i (CPReady c) (sem_V order_buffer_full s))
  | CPReady c => s1 ← sem_P ready_cans s; Some (cgo i (CPDelivery c) s1)
  | CPDelivery c => s1 ← sem_P delivery_mutex s; Some (cgo i (CSearch c) s1)
  | CSearch c => let '(f, b) := find_can c (delivery_buffer s) in Some (cgo i (CVDelivery c f) (set_deliveries b s))
  | CVDelivery c f => Some (cgo i (CVReady c f) (sem_V delivery_mutex s))
  | CVReady c f => Some (cgo i (if f then CVEmpty c else CPReady c) (sem_V ready_cans s))
  | CVEmpty c => Some (cgo i CIdle (sem_V delivery_buffer_empty s))
  | _ => None
  end.

(** ** [go_home] *)

Definition go_home (i : nat) (pc : customer_pc) (s : shop) : option shop :=
  match pc with
  | CPHome => s1 ← sem_P remaining_customers_mutex s; Some (cgo i CLoad s1)
  | CLoad => Some (cgo i (CStore (remaining_customers s)) s)
  | CStore n => Some (cgo i CVHome (set_remaining (n - 1) s))
  | CVHome => Some (cgo i CGone (sem_V remaining_customers_mutex s))
  | _ => None
  end.

(** A step of customer [i]; an idle one orders [call] or goes home. *)
Definition customer (i : nat) (call : option can) (s : shop) : option shop :=
  pc ← customers s !! i;
  match pc with
  | CIdle =>
      match call with
      | Some c =>
          if bool_decide (Forall (fun pc => can_of pc <> Some c) (customers s))
          then Some (cgo i (CPEmpty c) (set_mixed (mixed s ∖ {[c]}) s)) else None
      | None => Some (cgo i CPHome s)
      end
  | CPHome | CLoad | CStore _ | CVHome => go_home i pc s
  | _ => order_paint i pc s
  end.

(** ** [take_order] *)

Definition take_order (i : nat) (pc : staff_pc) (s : shop) : option shop :=
  match pc with
  | STest => Some (sgo i (if remaining_customers s =? 0 then SPExit else SPFull) s)
  | SPExit => s1 ← sem_P stuff_exit s; Some (sgo i SVExit s1)
  | SVExit => Some (sgo i SGone (sem_V stuff_exit s))
  | SPFull => s1 ← sem_P order_buffer_full s; Some (sgo i SPOrder s1)
  | SPOrder => s1 ← sem_P order_mutex s; Some (sgo i STake s1)
  | STake => let '(o, b) := take_can (order_buffer s) in Some (sgo i (SVOrder o) (set_orders b s))
  | SVOrder o => Some (sgo i (SVFull o) (sem_V order_mutex s))
  | SVFull o => Some (sgo i (match o with Some c => SVEmpty c | None => STest end) (sem_V order_buffer_full s))
  | SVEmpty c => Some (sgo i (SPTints c) (sem_V order_buffer_empty s))
  | _ => None
  end.

(** ** [fill_order] *)

(** The end of a loop over the colours, the colour 0 being none. *)
Definition fill_order (i : nat) (pc : staff_pc) (s : shop) : option shop :=
  match pc with
  | SPTints c => s1 ← sem_P tints_mutex s; Some (sgo i (SAcquire c 0) s1)
  | SAcquire c k =>
      match requested_colours c !! k with
      | Some 0%nat => Some (sgo i (SAcquire c (S k)) s)
      | Some col => s1 ← sem_P (access_specific_tints col) s; Some (sgo i (SAcquire c (S k)) s1)
      | None => Some (sgo i (SVTints c) s)
      end
  | SVTints c => Some (sgo i (SMix c) (sem_V tints_mutex s))
  | SMix c => Some (sgo i (SRelease c 0) (set_mixed ({[c]} ∪ mixed s) s))
  | SRelease c k =>
      match requested_colours c !! k with
      | Some 0%nat => Some (sgo i (SRelease c (S k)) s)
      | Some col => Some (sgo i (SRelease c (S k)) (sem_V (access_specific_tints col) s))
      | None => Some (sgo i (SPSpace c) s)
      end
  | _ => None
  end.

(** ** [serve_order] *)

Definition serve_order (i : nat) (pc : staff_pc) (s : shop) : option shop :=
  match pc with
  | SPSpace c => s1 ← sem_P delivery_buffer_empty s; Some (sgo i (SPDelivery c) s1)
  | SPDelivery c => s1 ← sem_P delivery_mutex s; Some (sgo i (SServe c) s1)
  | SServe c => Some (sgo i SVDelivery (set_deliveries (store_can c (delivery_buffer s)) s))
  | SVDelivery => Some (sgo i SVReady (sem_V delivery_mutex s))
  | SVReady => Some (sgo i STest (sem_V ready_cans s))
  | _ => None
  end.

(** A step of staff member [i]. *)
Definition staff_member (i : nat) (s : shop) : option shop :=
  pc ← staff s !! i;
  match pc with
  | STest | SPExit | SVExit | SPFull | SPOrder | STake | SVOrder _ | SVFull _ | SVEmpty _ => take_order i pc s
  | SPTints _ | SAcquire _ _ | SVTints _ | SMix _ | SRelease _ _ => fill_order i pc s
  | SPSpace _ | SPDelivery _ | SServe _ | SVDelivery | SVReady => serve_order i pc s
  | SGone => None
  end.

Inductive shop_step (s s' : shop) : Prop :=
| step_customer i call : customer i call s = Some s' -> shop_step s s'
| step_staff i : staff_member i s = Some s' -> shop_step s s'.

End paintshop.
