(* ===== verification/PaintshopInv.v ===== *)
(** * The invariant of the paint shop

    Every thread owes the units of the semaphores it has taken and not given
    back, and every occupied slot one of its buffer; with these the semaphores
    balance.  Every customer who waits has the can in exactly one place. *)

From stdpp Require Import gmap.
From S2P Require Import Prelude Interleave Paintshop.

(** ** Weights *)

(** The units of [y] in a list of semaphores. *)
Definition units (y : semaphore) (l : list semaphore) : Z := wsum (fun x => unit_of x y) l.

(** A weight of cans, on what may be a can. *)
Definition wcan (q : can -> Z) (o : option can) : Z := match o with Some c => q c | None => 0 end.

Definition one (c : can) : Z := 1.
Definition is_can (c d : can) : Z := if (c =? d)%nat then 1 else 0.

(** The number of cans in a buffer. *)
Definition occupied (b : list (option can)) : Z := wsum (wcan one) b.

(** The can of a customer that has handed it in and not found it. *)
Definition c_waits (pc : customer_pc) : option can :=
  match pc with
  | CVOrder c | CVFull c | CPReady c | CPDelivery c | CSearch c | CVDelivery c false | CVReady c false => Some c
  | _ => None
  end.

(** The can a staff member has. *)
Definition s_has (pc : staff_pc) : option can :=
  match pc with
  | SVOrder o | SVFull o => o
  | SVEmpty c | SPTints c | SAcquire c _ | SVTints c | SMix c | SRelease c _ | SPSpace c | SPDelivery c | SServe c => Some c
  | _ => None
  end.

(** The units a customer owes. *)
Definition c_owes (pc : customer_pc) : list semaphore :=
  match pc with
  | CPOrder _ => [order_buffer_empty]
  | CPut _ => [order_mutex; order_buffer_empty]
  | CVOrder _ => [order_mutex; order_buffer_full]
  | CVFull _ => [order_buffer_full]
  | CPDelivery _ => [ready_cans]
  | CSearch _ | CVDelivery _ false => [delivery_mutex; ready_cans]
  | CVDelivery _ true => [delivery_mutex; ready_cans; delivery_buffer_empty]
  | CVReady _ false => [ready_cans]
  | CVReady _ true => [ready_cans; delivery_buffer_empty]
  | CVEmpty _ => [delivery_buffer_empty]
  | CLoad | CStore _ | CVHome => [remaining_customers_mutex]
  | _ => []
  end.

Definition c_left (pc : customer_pc) : Z := match pc with CVHome | CGone => 1 | _ => 0 end.

(** The tints of some colours. *)
Definition tints (cols : list nat) : list semaphore :=
  access_specific_tints <$> filter (fun c => c <> 0%nat) cols.

Section inv.
Context (NCUSTOMERS NSTAFF NCOLOURS : nat) (requested_colours : can -> list nat).

(** The units a staff member owes. *)
Definition s_owes (pc : staff_pc) : list semaphore :=
  match pc with
  | SVExit => [stuff_exit]
  | SPOrder => [order_buffer_full]
  | STake | SVOrder None => [order_mutex; order_buffer_full]
  | SVOrder (Some _) => [order_mutex; order_buffer_full; order_buffer_empty]
  | SVFull None => [order_buffer_full]
  | SVFull (Some _) => [order_buffer_full; order_buffer_empty]
  | SVEmpty _ => [order_buffer_empty]
  | SAcquire c k => tints_mutex :: tints (take k (requested_colours c))
  | SVTints c => tints_mutex :: tints (requested_colours c)
  | SMix c => tints (requested_colours c)
  | SRelease c k => tints (drop k (requested_colours c))
  | SPDelivery _ => [delivery_buffer_empty]
  | SServe _ => [delivery_mutex; delivery_buffer_empty]
  | SVDelivery => [delivery_mutex; ready_cans]
  | SVReady => [ready_cans]
  | _ => []
  end.

(** What the buffers hold of a semaphore. *)
Definition in_buffers (orders deliveries : list (option can)) (x : semaphore) : Z :=
  match x with
  | order_buffer_empty => occupied orders
  | delivery_buffer_empty => occupied deliveries
  | order_buffer_full => - occupied orders
  | ready_cans => - occupied deliveries
  | _ => 0
  end.

Definition balance (s : shop) (x : semaphore) : Z :=
  sem s x + wsum (fun pc => units x (c_owes pc)) (customers s) + wsum (fun pc => units x (s_owes pc)) (staff s)
  + in_buffers (order_buffer s) (delivery_buffer s) x.

(** The counting semaphores of the cans only ever gain. *)
Definition balanced (x : semaphore) (v : Z) : Prop :=
  match x with
  | order_buffer_full | ready_cans => 0 <= v
  | _ => v = init_semaphore NCUSTOMERS NCOLOURS x
  end.

(** What a customer and a staff member know. *)
Definition c_knows (s : shop) (pc : customer_pc) : Prop :=
  match pc with
  | CStore n => n = remaining_customers s
  | CVDelivery c true | CVReady c true | CVEmpty c => c ∈ mixed s
  | _ => True
  end.

Definition s_knows (s : shop) (pc : staff_pc) : Prop :=
  match pc with
  | SRelease c _ | SPSpace c | SPDelivery c | SServe c => c ∈ mixed s
  | SPExit | SVExit | SGone => remaining_customers s = 0
  | _ => True
  end.

Record shop_inv (s : shop) : Prop := {
  si_len : length (customers s) = NCUSTOMERS /\ length (staff s) = NSTAFF /\
           length (order_buffer s) = NCUSTOMERS /\ length (delivery_buffer s) = NCUSTOMERS;
  si_sem : forall x, 0 <= sem s x;
  si_balance : forall x, balanced x (balance s x);
  si_place : forall q, wsum (fun pc => wcan q (c_waits pc)) (customers s) =
                       wsum (wcan q) (order_buffer s) + wsum (fun pc => wcan q (s_has pc)) (staff s) + wsum (wcan q) (delivery_buffer s);
  si_own : forall c, wsum (fun pc => wcan (is_can c) (can_of pc)) (customers s) <= 1;
  si_left : remaining_customers s = Z.of_nat NCUSTOMERS - wsum c_left (customers s);
  si_customers : forall i pc, customers s !! i = Some pc -> c_knows s pc;
  si_staff : forall i pc, staff s !! i = Some pc -> s_knows s pc;
  si_delivery : forall i c, delivery_buffer s !! i = Some (Some c) -> c ∈ mixed s
}.

(** ** Semaphores and buffers *)

Lemma unit_of_spec x y : (x = y /\ unit_of x y = 1) \/ (x <> y /\ unit_of x y = 0).
Proof.
  destruct x, y; unfold unit_of; cbn; try (by left); try (by right; split).
  destruct (Nat.eqb_spec colour colour0) as [->|]; [by left | right; split; [congruence | done]].
Qed.

Lemma unit_of_range x y : 0 <= unit_of x y <= 1.
Proof. unfold unit_of. destruct (sem_eqb x y); lia. Qed.

Lemma units_nonneg x l : 0 <= units x l.
Proof. apply wsum_nonneg. intros y. apply unit_of_range. Qed.

Lemma wcan_one_nonneg o : 0 <= wcan one o.
Proof. destruct o; cbn; unfold one; lia. Qed.

Lemma is_can_range c d : 0 <= is_can c d <= 1.
Proof. unfold is_can. destruct (c =? d)%nat; lia. Qed.

Lemma is_can_refl c : is_can c c = 1.
Proof. unfold is_can. by rewrite Nat.eqb_refl. Qed.

Lemma wcan_is_nonneg c o : 0 <= wcan (is_can c) o.
Proof. destruct o; cbn; [apply is_can_range | done]. Qed.

(** Storing with a free slot. *)
Lemma store_can_length c b : length (store_can c b) = length b.
Proof. induction b as [|[d|] b IH]; cbn; by rewrite ?IH. Qed.

Lemma store_can_wsum q c b : occupied b < Z.of_nat (length b) -> wsum (wcan q) (store_can c b) = wsum (wcan q) b + q c.
Proof.
  unfold occupied. induction b as [|[d|] b IH]; cbn [length wsum store_can wcan]; unfold one in *; intros H; [lia | rewrite IH; lia | lia].
Qed.

Lemma store_can_lookup c b i d : store_can c b !! i = Some (Some d) -> d = c \/ b !! i = Some (Some d).
Proof.
  revert i. induction b as [|[e|] b IH]; intros [|i]; cbn; intros H; simplify_eq; auto.
Qed.

Lemma take_can_spec b o b2 : take_can b = (o, b2) ->
  length b2 = length b /\ (forall q, wsum (wcan q) b = wsum (wcan q) b2 + wcan q o) /\ (o = None -> occupied b = 0).
Proof.
  revert o b2. induction b as [|[d|] b IH]; intros o b2; cbn; intros H; simplify_eq/=.
  - split_and!; [done | intros q; cbn; lia | done].
  - split_and!; [done | intros q; cbn; lia | done].
  - destruct (take_can b) as [o' b'] eqn:E. simplify_eq. destruct (IH o b' eq_refl) as (H1 & H2 & H3).
    split_and!; [cbn; lia | intros q; cbn; apply H2 | intros Ho; unfold occupied in *; cbn; auto].
Qed.

Lemma find_can_spec c b f b2 : find_can c b = (f, b2) ->
  length b2 = length b /\ (forall q, wsum (wcan q) b = wsum (wcan q) b2 + if f then q c else 0) /\
  (forall i d, b2 !! i = Some (Some d) -> b !! i = Some (Some d)) /\ (f = true -> exists i, b !! i = Some (Some c)) /\
  (f = false -> wsum (wcan (is_can c)) b = 0).
Proof.
  revert f b2. induction b as [|o b IH]; intros f b2; cbn; intros H; simplify_eq/=.
  - split_and!; [done | intros q; cbn; lia | done..].
  - case_bool_decide as Ho.
    + simplify_eq. split_and!; [done | intros q; cbn; lia | | intros _; by exists 0%nat | done].
      intros [|i] d Hi; [done | exact Hi].
    + destruct (find_can c b) as [f' b'] eqn:E. simplify_eq. destruct (IH f b' eq_refl) as (H1 & H2 & H3 & H4 & H5).
      split_and!; [cbn; lia | intros q; cbn; rewrite H2; lia | | |].
      * intros [|i] d Hi; [exact Hi | by apply H3].
      * intros Hf. destruct (H4 Hf) as [i Hi]. by exists (S i).
      * intros Hf. cbn. rewrite (H5 Hf). destruct o as [d|]; cbn; [|done]. unfold is_can. destruct (Nat.eqb_spec c d); [congruence | done].
Qed.

Lemma tints_app l k : tints (l ++ k) = tints l ++ tints k.
Proof. unfold tints. by rewrite filter_app, fmap_app. Qed.

Lemma units_app x l k : units x (l ++ k) = units x l + units x k.
Proof. apply wsum_app. Qed.

(** The tints one more colour needs. *)
Lemma tints_take x l k col : l !! k = Some col ->
  units x (tints (take (S k) l)) = units x (tints (take k l)) + units x (tints [col]).
Proof. intros H. by rewrite (take_S_r _ _ _ H), tints_app, units_app. Qed.

Lemma tints_drop x l k col : l !! k = Some col ->
  units x (tints (drop k l)) = units x (tints (drop (S k) l)) + units x (tints [col]).
Proof. intros H. rewrite (drop_S _ _ _ H). change (col :: drop (S k) l) with ([col] ++ drop (S k) l). rewrite tints_app, units_app. lia. Qed.

Lemma units_cons y x l : units y (x :: l) = unit_of x y + units y l.
Proof. done. Qed.

Lemma units_colour_0 y : units y (tints [0%nat]) = 0.
Proof. done. Qed.

Lemma units_colour_S y col : units y (tints [S col]) = unit_of (access_specific_tints (S col)) y.
Proof. unfold tints. rewrite filter_cons_True by done. cbn. lia. Qed.

Lemma units_tints col l : col <> 0%nat -> col ∈ l -> 1 <= units (access_specific_tints col) (tints l).
Proof.
  intros H0 [k Hk]%list_elem_of_lookup. rewrite <- (take_drop_middle l k col Hk), tints_app, units_app.
  pose proof (units_nonneg (access_specific_tints col) (tints (take k l))).
  change (col :: drop (S k) l) with ([col] ++ drop (S k) l). rewrite tints_app, units_app.
  pose proof (units_nonneg (access_specific_tints col) (tints (drop (S k) l))).
  assert (units (access_specific_tints col) (tints [col]) = 1); [|lia].
  unfold tints. rewrite filter_cons_True by done. cbn. unfold unit_of. cbn. rewrite Nat.eqb_refl. lia.
Qed.

Lemma c_knows_mono s s' pc : remaining_customers s' = remaining_customers s -> mixed s ⊆ mixed s' -> c_knows s pc -> c_knows s' pc.
Proof. intros Hr Hm. destruct pc as [| | | | | | | | |c []|c []| | | | | |]; cbn; try done; try congruence; intros H; by apply Hm. Qed.

Lemma s_knows_mono s s' pc : remaining_customers s' = remaining_customers s -> mixed s ⊆ mixed s' -> s_knows s pc -> s_knows s' pc.
Proof. intros Hr Hm. destruct pc; cbn; try done; try congruence; intros H; by apply Hm. Qed.

(** ** The moves of a thread *)

(** The balance of a semaphore may only grow, and only where it may. *)
Definition gains (x : semaphore) (w v : Z) : Prop := v = w \/ (w <= v /\ (x = ready_cans \/ x = order_buffer_full)).

Lemma balanced_gains x w v : gains x w v -> balanced x w -> balanced x v.
Proof. intros [->|[Hle [->| ->]]]; cbn; [done | lia | lia]. Qed.

Lemma gains_shift x w v a : gains x w v -> gains x (a + w) (a + v).
Proof. intros [->|[? ?]]; [by left | right; split; [lia | done]]. Qed.

Lemma customer_moves s i pc pc' f o d r m :
  shop_inv s -> customers s !! i = Some pc ->
  let s' := Shop f o d r (<[i := pc']> (customers s)) (staff s) m in
  length o = NCUSTOMERS -> length d = NCUSTOMERS -> (forall x, 0 <= f x) ->
  (forall x, gains x (sem s x + units x (c_owes pc) + in_buffers (order_buffer s) (delivery_buffer s) x)
                     (f x + units x (c_owes pc') + in_buffers o d x)) ->
  (forall q, wcan q (c_waits pc') - wsum (wcan q) o - wsum (wcan q) d =
             wcan q (c_waits pc) - wsum (wcan q) (order_buffer s) - wsum (wcan q) (delivery_buffer s)) ->
  (can_of pc' = can_of pc \/ forall c, can_of pc' = Some c -> Forall (fun q => can_of q <> Some c) (customers s)) ->
  r = remaining_customers s - c_left pc' + c_left pc ->
  c_knows s' pc' -> (forall j q, j <> i -> customers s !! j = Some q -> c_knows s q -> c_knows s' q) ->
  (forall j q, staff s !! j = Some q -> s_knows s q -> s_knows s' q) ->
  (forall k c, d !! k = Some (Some c) -> c ∈ m) -> shop_inv s'.
Proof.
  intros [I1 I2 I3 I4 I5 I6 I7 I8 I9] Hi s' Ho Hd Hf Hb Hq Hc Hr Hk Hkc Hks Hdm.
  split; cbn [sem order_buffer delivery_buffer remaining_customers customers staff mixed s']; try done.
  - rewrite length_insert. naive_solver.
  - intros x. apply (balanced_gains x (balance s x)); [|apply I3]. unfold balance; cbn [sem order_buffer delivery_buffer customers staff s'].
    rewrite (wsum_insert _ _ _ _ _ Hi). destruct (Hb x) as [Hx|[Hx ?]]; [left; lia | right; split; [lia | done]].
  - intros q. rewrite (wsum_insert _ _ _ _ _ Hi). specialize (I4 q). specialize (Hq q). lia.
  - intros c. rewrite (wsum_insert _ _ _ _ _ Hi). specialize (I5 c). pose proof (wcan_is_nonneg c (can_of pc)).
    destruct Hc as [->|Hc]; [lia|]. destruct (can_of pc') as [c'|] eqn:Ec; cbn; [|lia]. unfold is_can at 3. destruct (Nat.eqb_spec c c') as [<-|]; [|lia].
    specialize (Hc c eq_refl). assert (Hz : forall l, Forall (fun q => can_of q <> Some c) l -> wsum (fun pc => wcan (is_can c) (can_of pc)) l = 0).
    { clear. induction 1 as [|q l Hq _ IH]; cbn; [done|]. rewrite IH. destruct (can_of q) as [c'|]; cbn; [|done].
      unfold is_can. destruct (Nat.eqb_spec c c'); [congruence | done]. }
    pose proof (Hz _ Hc) as H0. pose proof (Forall_lookup_1 _ _ _ _ Hc Hi) as H1. cbn in H1.
    destruct (can_of pc) as [c2|]; cbn; [|lia]. unfold is_can. destruct (Nat.eqb_spec c c2); [congruence|]. unfold is_can in H0. lia.
  - rewrite (wsum_insert _ _ _ _ _ Hi). lia.
  - intros j q Hj. apply list_lookup_insert_Some in Hj. destruct Hj as [(<- & <- & _)|[Hne Hj]]; [done|]. apply (Hkc j q); eauto.
  - intros j q Hj. apply (Hks j q); eauto.
Qed.

Lemma staff_moves s i pc pc' f o d m :
  shop_inv s -> staff s !! i = Some pc ->
  let s' := Shop f o d (remaining_customers s) (customers s) (<[i := pc']> (staff s)) m in
  length o = NCUSTOMERS -> length d = NCUSTOMERS -> (forall x, 0 <= f x) ->
  (forall x, gains x (sem s x + units x (s_owes pc) + in_buffers (order_buffer s) (delivery_buffer s) x)
                     (f x + units x (s_owes pc') + in_buffers o d x)) ->
  (forall q, wsum (wcan q) o + wcan q (s_has pc') + wsum (wcan q) d =
             wsum (wcan q) (order_buffer s) + wcan q (s_has pc) + wsum (wcan q) (delivery_buffer s)) ->
  mixed s ⊆ m -> s_knows s' pc' -> (forall k c, d !! k = Some (Some c) -> c ∈ m) -> shop_inv s'.
Proof.
  intros [I1 I2 I3 I4 I5 I6 I7 I8 I9] Hi s' Ho Hd Hf Hb Hq Hm Hk Hdm.
  split; cbn [sem order_buffer delivery_buffer remaining_customers customers staff mixed s']; try done.
  - rewrite length_insert. naive_solver.
  - intros x. apply (balanced_gains x (balance s x)); [|apply I3]. unfold balance; cbn [sem order_buffer delivery_buffer customers staff s'].
    rewrite (wsum_insert _ _ _ _ _ Hi). destruct (Hb x) as [Hx|[Hx ?]]; [left; lia | right; split; [lia | done]].
  - intros q. rewrite (wsum_insert _ _ _ _ _ Hi). specialize (I4 q). specialize (Hq q). lia.
  - intros j q Hj. apply (c_knows_mono s); [done..|]. eauto.
  - intros j q Hj. apply list_lookup_insert_Some in Hj. destruct Hj as [(<- & <- & _)|[Hne Hj]]; [done|]. apply (s_knows_mono s); [done..|]. eauto.
Qed.

(** Steps that only take or give a unit. *)
Lemma P_nonneg x s : (forall y, 0 <= sem s y) -> 0 < sem s x -> forall y, 0 <= sem s y - unit_of x y.
Proof. intros H Hx y. specialize (H y). destruct (unit_of_spec x y) as [[<- ->]|[_ ->]]; lia. Qed.

Lemma V_nonneg x s : (forall y, 0 <= sem s y) -> forall y, 0 <= sem s y + unit_of x y.
Proof. intros H y. specialize (H y). pose proof (unit_of_range x y). lia. Qed.

Lemma customer_P s i pc pc' x s' :
  shop_inv s -> customers s !! i = Some pc -> (s1 ← sem_P x s; Some (cgo i pc' s1)) = Some s' ->
  (forall y, units y (c_owes pc') = units y (c_owes pc) + unit_of x y) ->
  c_waits pc' = c_waits pc -> can_of pc' = can_of pc -> c_left pc' = c_left pc -> (c_knows s pc -> c_knows s pc') -> shop_inv s'.
Proof.
  intros I Hi HP Ho Hw Hc Hl Hk. unfold sem_P in HP. destruct (Z.ltb_spec 0 (sem s x)); [|done]. cbn in HP. simplify_eq.
  destruct (si_len s I) as (_ & _ & L1 & L2). apply (customer_moves s i pc pc'); cbn; rewrite ?Hw, ?Hl; auto.
  - apply P_nonneg; [apply (si_sem s I) | done].
  - intros y. left. rewrite Ho. lia.
  - lia.
  - apply Hk. by apply (si_customers s I i).
  - apply (si_delivery s I).
Qed.

Lemma customer_V s i pc pc' x :
  shop_inv s -> customers s !! i = Some pc ->
  (forall y, units y (c_owes pc) = units y (c_owes pc') + unit_of x y) ->
  c_waits pc' = c_waits pc -> (can_of pc' = can_of pc \/ can_of pc' = None) -> c_left pc' = c_left pc -> (c_knows s pc -> c_knows s pc') ->
  shop_inv (cgo i pc' (sem_V x s)).
Proof.
  intros I Hi Ho Hw Hc Hl Hk. destruct (si_len s I) as (_ & _ & L1 & L2). apply (customer_moves s i pc pc'); cbn; rewrite ?Hw, ?Hl; auto.
  - apply V_nonneg, (si_sem s I).
  - intros y. left. rewrite Ho. lia.
  - destruct Hc as [Hc|Hc]; [by left | right; by rewrite Hc].
  - lia.
  - apply Hk. by apply (si_customers s I i).
  - apply (si_delivery s I).
Qed.

Lemma staff_P s i pc pc' x s' :
  shop_inv s -> staff s !! i = Some pc -> (s1 ← sem_P x s; Some (sgo i pc' s1)) = Some s' ->
  (forall y, units y (s_owes pc') = units y (s_owes pc) + unit_of x y) ->
  s_has pc' = s_has pc -> (s_knows s pc -> s_knows s pc') -> shop_inv s'.
Proof.
  intros I Hi HP Ho Hw Hk. unfold sem_P in HP. destruct (Z.ltb_spec 0 (sem s x)); [|done]. cbn in HP. simplify_eq.
  destruct (si_len s I) as (_ & _ & L1 & L2). apply (staff_moves s i pc pc'); cbn; rewrite ?Hw; auto.
  - apply P_nonneg; [apply (si_sem s I) | done].
  - intros y. left. rewrite Ho. lia.
  - apply Hk. by apply (si_staff s I i).
  - apply (si_delivery s I).
Qed.

Lemma staff_V s i pc pc' x :
  shop_inv s -> staff s !! i = Some pc ->
  (forall y, units y (s_owes pc) = units y (s_owes pc') + unit_of x y) ->
  s_has pc' = s_has pc -> (s_knows s pc -> s_knows s pc') -> shop_inv (sgo i pc' (sem_V x s)).
Proof.
  intros I Hi Ho Hw Hk. destruct (si_len s I) as (_ & _ & L1 & L2). apply (staff_moves s i pc pc'); cbn; rewrite ?Hw; auto.
  - apply V_nonneg, (si_sem s I).
  - intros y. left. rewrite Ho. lia.
  - apply Hk. by apply (si_staff s I i).
  - apply (si_delivery s I).
Qed.

(** A move that changes nothing else. *)
Lemma staff_go s i pc pc' :
  shop_inv s -> staff s !! i = Some pc -> (forall y, units y (s_owes pc') = units y (s_owes pc)) ->
  s_has pc' = s_has pc -> (s_knows s pc -> s_knows s pc') -> shop_inv (sgo i pc' s).
Proof.
  intros I Hi Ho Hw Hk. destruct (si_len s I) as (_ & _ & L1 & L2). apply (staff_moves s i pc pc'); cbn; rewrite ?Hw; auto.
  - apply (si_sem s I).
  - intros y. left. by rewrite Ho.
  - apply Hk. by apply (si_staff s I i).
  - apply (si_delivery s I).
Qed.

End inv.
