(* ===== verification/PaintshopSafe.v ===== *)
(** * The paint shop loses no cans and mixes no tints twice

    Every step keeps the invariant of [PaintshopInv]; the safety of the shop
    follows from it. *)

From stdpp Require Import gmap.
From S2P Require Import Prelude Interleave Paintshop PaintshopInv.

(** Sums of units that agree. *)
Ltac count_units := try (intros ?; cbn; lia).

Section safe.
Context (NCUSTOMERS NSTAFF NCOLOURS : nat) (requested_colours : can -> list nat).
Abbreviation inv := (shop_inv NCUSTOMERS NSTAFF NCOLOURS requested_colours).
Abbreviation owes := (s_owes requested_colours).

Lemma open_inv : inv (paintshop_open NCUSTOMERS NSTAFF NCOLOURS).
Proof.
  split; cbn; unfold init_buffer; rewrite ?length_replicate; try done.
  - intros x. unfold init_semaphore. destruct x; try lia. destruct (colour <? NCOLOURS)%nat; lia.
  - intros x. unfold balance; cbn. unfold init_buffer, occupied. rewrite !wsum_replicate. destruct x; cbn; unfold occupied; rewrite ?wsum_replicate; cbn; lia.
  - intros q. rewrite !wsum_replicate. cbn. lia.
  - intros c. rewrite wsum_replicate. cbn. lia.
  - rewrite wsum_replicate. cbn. lia.
  - by intros i pc [-> _]%lookup_replicate.
  - by intros i pc [-> _]%lookup_replicate.
  - intros i c Hi. apply lookup_replicate in Hi. destruct Hi as [? _]. discriminate.
Qed.

(** ** What the balance says *)

Lemma customers_owe_nonneg s x : 0 <= wsum (fun pc => units x (c_owes pc)) (customers s).
Proof. apply wsum_nonneg. intros pc. apply units_nonneg. Qed.

Lemma staff_owe_nonneg s x : 0 <= wsum (fun pc => units x (owes pc)) (staff s).
Proof. apply wsum_nonneg. intros pc. apply units_nonneg. Qed.

Lemma occupied_nonneg b : 0 <= occupied b.
Proof. apply wsum_nonneg, wcan_one_nonneg. Qed.

(** A thread that owes a slot of a buffer has one. *)
Lemma order_slot s i pc : inv s -> customers s !! i = Some pc -> units order_buffer_empty (c_owes pc) = 1 ->
  occupied (order_buffer s) < Z.of_nat (length (order_buffer s)).
Proof.
  intros I Hi Hu. destruct (si_len _ _ _ _ s I) as (_ & _ & -> & _).
  pose proof (si_balance _ _ _ _ s I order_buffer_empty) as Hb. unfold balance in Hb. cbn in Hb.
  pose proof (wsum_elem (fun pc => units order_buffer_empty (c_owes pc)) _ i pc (fun pc => units_nonneg _ _) Hi).
  pose proof (staff_owe_nonneg s order_buffer_empty). pose proof (si_sem _ _ _ _ s I order_buffer_empty). cbn in *. lia.
Qed.

Lemma delivery_slot s i pc : inv s -> staff s !! i = Some pc -> units delivery_buffer_empty (owes pc) = 1 ->
  occupied (delivery_buffer s) < Z.of_nat (length (delivery_buffer s)).
Proof.
  intros I Hi Hu. destruct (si_len _ _ _ _ s I) as (_ & _ & _ & ->).
  pose proof (si_balance _ _ _ _ s I delivery_buffer_empty) as Hb. unfold balance in Hb. cbn in Hb.
  pose proof (wsum_elem (fun pc => units delivery_buffer_empty (owes pc)) _ i pc (fun pc => units_nonneg _ _) Hi).
  pose proof (customers_owe_nonneg s delivery_buffer_empty). pose proof (si_sem _ _ _ _ s I delivery_buffer_empty). cbn in *. lia.
Qed.

(** A can that no customer has is nowhere. *)
Lemma absent_nowhere s c : inv s -> Forall (fun pc => can_of pc <> Some c) (customers s) ->
  (forall i pc, staff s !! i = Some pc -> s_has pc <> Some c) /\ (forall i, delivery_buffer s !! i <> Some (Some c)).
Proof.
  intros I Ha. pose proof (si_place _ _ _ _ s I (is_can c)) as Hp.
  assert (Hz : forall l, Forall (fun pc => can_of pc <> Some c) l -> wsum (fun pc => wcan (is_can c) (c_waits pc)) l = 0).
  { clear. induction 1 as [|q l Hq _ IH]; cbn; [done|]. rewrite IH.
    assert (Hw : wcan (is_can c) (c_waits q) = 0); [|lia].
    destruct q as [| | | | | | | | |d []|d []| | | | | |]; cbn in *; try done; unfold is_can; destruct (Nat.eqb_spec c c0) || destruct (Nat.eqb_spec c d); congruence. }
  rewrite (Hz _ Ha) in Hp.
  pose proof (wsum_nonneg _ (order_buffer s) (wcan_is_nonneg c)). pose proof (wsum_nonneg _ (delivery_buffer s) (wcan_is_nonneg c)).
  pose proof (wsum_nonneg (fun pc => wcan (is_can c) (s_has pc)) (staff s) (fun pc => wcan_is_nonneg c (s_has pc))).
  split.
  - intros i pc Hi Hh. pose proof (wsum_elem (fun pc => wcan (is_can c) (s_has pc)) _ i pc (fun pc => wcan_is_nonneg c (s_has pc)) Hi) as He.
    cbn in He. rewrite Hh in He. cbn in He. rewrite is_can_refl in He. lia.
  - intros i Hi. pose proof (wsum_elem (wcan (is_can c)) _ i _ (wcan_is_nonneg c) Hi) as He. cbn in He. rewrite is_can_refl in He. lia.
Qed.

(** ** The steps of a customer *)

Lemma order_paint_inv s i pc s' : inv s -> customers s !! i = Some pc -> order_paint i pc s = Some s' -> inv s'.
Proof.
  intros I Hi H. destruct (si_len _ _ _ _ s I) as (_ & _ & L1 & L2). pose proof (si_customers _ _ _ _ s I i pc Hi) as Kn.
  destruct pc; cbn [order_paint] in H; try done.
  - apply (customer_P _ _ _ _ s i _ _ _ _ I Hi H); try done; count_units.
  - apply (customer_P _ _ _ _ s i _ _ _ _ I Hi H); try done; count_units.
  - pose proof (order_slot s i _ I Hi eq_refl) as Hs. injection H as <-.
    apply (customer_moves _ _ _ _ s i (CPut c) (CVOrder c)); cbn; auto.
    + by rewrite store_can_length.
    + apply (si_sem _ _ _ _ s I).
    + intros []; left; cbn; unfold occupied; rewrite ?store_can_wsum by done; unfold one, unit_of; cbn; lia.
    + intros q. rewrite store_can_wsum by done. lia.
    + lia.
    + apply (si_delivery _ _ _ _ s I).
  - injection H as <-. apply (customer_V _ _ _ _ s i (CVOrder c)); auto; count_units.
  - injection H as <-. apply (customer_V _ _ _ _ s i (CVFull c)); auto; count_units.
  - apply (customer_P _ _ _ _ s i _ _ _ _ I Hi H); try done; count_units.
  - apply (customer_P _ _ _ _ s i _ _ _ _ I Hi H); try done; count_units.
  - destruct (find_can c (delivery_buffer s)) as [f b] eqn:E. injection H as <-. destruct (find_can_spec _ _ _ _ E) as (F1 & F2 & F3 & F4 & _).
    apply (customer_moves _ _ _ _ s i (CSearch c) (CVDelivery c f)); cbn; auto; try lia.
    + apply (si_sem _ _ _ _ s I).
    + intros x. pose proof (F2 one : _ = _ + if f then 1 else 0) as Ho. unfold gains.
      destruct x, f; cbn; unfold unit_of, occupied; cbn; (left; lia) || (right; split; [lia | by auto]).
    + intros q. rewrite (F2 q). destruct f; cbn; lia.
    + destruct f; cbn; [|done]. destruct (F4 eq_refl) as [k Hk]. by apply (si_delivery _ _ _ _ s I k).
    + intros k d Hk. apply F3 in Hk. by apply (si_delivery _ _ _ _ s I k).
  - injection H as <-. apply (customer_V _ _ _ _ s i (CVDelivery c is_found)); auto; destruct is_found; auto; count_units.
  - injection H as <-. apply (customer_V _ _ _ _ s i (CVReady c is_found)); auto; destruct is_found; auto; count_units.
  - injection H as <-. apply (customer_V _ _ _ _ s i (CVEmpty c)); auto; count_units.
Qed.

(** A customer who has not left is counted. *)
Lemma someone_left s i pc : inv s -> customers s !! i = Some pc -> c_left pc = 0 -> 0 < remaining_customers s.
Proof.
  intros I Hi Hc. rewrite (si_left _ _ _ _ s I). destruct (si_len _ _ _ _ s I) as (HL & _).
  pose proof (wsum_bound c_left (<[i := CGone]> (customers s))) as Hb. rewrite length_insert, (wsum_insert _ _ _ _ _ Hi) in Hb. cbn in Hb.
  assert (forall pc, c_left pc <= 1) by (intros []; cbn; lia). specialize (Hb H). lia.
Qed.

Lemma go_home_inv s i pc s' : inv s -> customers s !! i = Some pc -> go_home i pc s = Some s' -> inv s'.
Proof.
  intros I Hi H. destruct (si_len _ _ _ _ s I) as (_ & _ & L1 & L2). pose proof (si_customers _ _ _ _ s I i pc Hi) as Kn.
  destruct pc; cbn [go_home] in H; try done.
  - apply (customer_P _ _ _ _ s i _ _ _ _ I Hi H); try done; count_units.
  - injection H as <-. apply (customer_moves _ _ _ _ s i CLoad (CStore (remaining_customers s))); cbn; auto; try lia;
      [apply (si_sem _ _ _ _ s I) | intros x; by left | apply (si_delivery _ _ _ _ s I)].
  - injection H as <-. cbn in Kn. subst n. pose proof (someone_left s i _ I Hi eq_refl).
    apply (customer_moves _ _ _ _ s i (CStore (remaining_customers s)) CVHome); cbn; auto; try lia;
      [apply (si_sem _ _ _ _ s I) | intros x; by left | | | apply (si_delivery _ _ _ _ s I)].
    + intros j q Hne Hj. destruct q as [| | | | | | | | |c []|c []| | | |n| |]; cbn; try done. exfalso.
      pose proof (si_balance _ _ _ _ s I remaining_customers_mutex) as Hb. unfold balance in Hb. cbn in Hb.
      pose proof (wsum_two (fun pc => units remaining_customers_mutex (c_owes pc)) _ i j _ _ (fun pc => units_nonneg _ _) (not_eq_sym Hne) Hi Hj) as Ht.
      pose proof (staff_owe_nonneg s remaining_customers_mutex). pose proof (si_sem _ _ _ _ s I remaining_customers_mutex). cbn in *. unfold unit_of in Ht. cbn in Ht. lia.
    + intros j q Hj. destruct q; cbn; try done; lia.
  - injection H as <-. apply (customer_V _ _ _ _ s i CVHome); auto; count_units.
Qed.

Lemma customer_inv s i call s' : inv s -> customer i call s = Some s' -> inv s'.
Proof.
  intros I H. unfold customer in H. destruct (customers s !! i) as [pc|] eqn:Hi; [|done]. cbn in H.
  destruct (si_len _ _ _ _ s I) as (_ & _ & L1 & L2).
  destruct pc; try (by apply (order_paint_inv s i _ s' I Hi H)); try (by apply (go_home_inv s i _ s' I Hi H)).
  destruct call as [c|].
  - case_bool_decide as Ha; [|done]. injection H as <-. destruct (absent_nowhere s c I Ha) as [Hs Hd].
    apply (customer_moves _ _ _ _ s i CIdle (CPEmpty c)); cbn; auto; try lia; [apply (si_sem _ _ _ _ s I) | intros x; by left | | | |].
    + right. by intros ? [= <-].
    + intros j q _ Hj Hk. pose proof (Forall_lookup_1 _ _ _ _ Ha Hj) as Hc. cbn in Hc.
      destruct q as [| | | | | | | | |d []|d []| | | | | |]; cbn in *; try done; set_solver.
    + intros j q Hj Hk. pose proof (Hs j q Hj). destruct q; cbn in *; try done; set_solver.
    + intros k d Hk. pose proof (Hd k). pose proof (si_delivery _ _ _ _ s I k d Hk). set_solver.
  - injection H as <-. apply (customer_moves _ _ _ _ s i CIdle CPHome); cbn; auto; try lia;
      [apply (si_sem _ _ _ _ s I) | intros x; by left | apply (si_delivery _ _ _ _ s I)].
Qed.

(** ** The steps of a staff member *)

Lemma take_order_inv s i pc s' : inv s -> staff s !! i = Some pc -> take_order i pc s = Some s' -> inv s'.
Proof.
  intros I Hi H. destruct (si_len _ _ _ _ s I) as (_ & _ & L1 & L2).
  destruct pc; cbn [take_order] in H; try done.
  - injection H as <-. destruct (Z.eqb_spec (remaining_customers s) 0); apply (staff_go _ _ _ _ s i STest); auto.
  - apply (staff_P _ _ _ _ s i _ _ _ _ I Hi H); auto; count_units.
  - injection H as <-. apply (staff_V _ _ _ _ s i SVExit); auto; count_units.
  - apply (staff_P _ _ _ _ s i _ _ _ _ I Hi H); auto; count_units.
  - apply (staff_P _ _ _ _ s i _ _ _ _ I Hi H); auto; count_units.
  - destruct (take_can (order_buffer s)) as [o b] eqn:E. injection H as <-. destruct (take_can_spec _ _ _ E) as (T1 & T2 & _).
    apply (staff_moves _ _ _ _ s i STake (SVOrder o)); cbn; auto; try lia.
    + apply (si_sem _ _ _ _ s I).
    + intros x. pose proof (T2 one : _ = _ + match o with Some _ => 1 | None => 0 end) as Ho. unfold gains.
      destruct x, o; cbn; unfold unit_of, occupied; cbn; (left; lia) || (right; split; [lia | by auto]).
    + intros q. rewrite (T2 q). lia.
    + apply (si_delivery _ _ _ _ s I).
  - injection H as <-. apply (staff_V _ _ _ _ s i (SVOrder found)); auto; destruct found; count_units.
  - injection H as <-. apply (staff_V _ _ _ _ s i (SVFull found)); auto; destruct found; count_units; auto.
  - injection H as <-. apply (staff_V _ _ _ _ s i (SVEmpty c)); auto; count_units.
Qed.

Lemma fill_order_inv s i pc s' : inv s -> staff s !! i = Some pc -> fill_order requested_colours i pc s = Some s' -> inv s'.
Proof.
  intros I Hi H. destruct (si_len _ _ _ _ s I) as (_ & _ & L1 & L2).
  destruct pc as [| | | | | | | | | |c|c k|c|c|c k| | | | |]; cbn [fill_order] in H; try done.
  - apply (staff_P _ _ _ _ s i _ _ _ _ I Hi H); auto. intros y. change (unit_of tints_mutex y + 0 = 0 + unit_of tints_mutex y). lia.
  - destruct (requested_colours c !! k) as [[|col]|] eqn:Ek.
    + injection H as <-. apply (staff_go _ _ _ _ s i (SAcquire c k)); auto. intros y. cbn [s_owes]. rewrite !units_cons, (tints_take y _ _ _ Ek), units_colour_0. lia.
    + apply (staff_P _ _ _ _ s i _ _ _ _ I Hi H); auto. intros y. cbn [s_owes]. rewrite !units_cons, (tints_take y _ _ _ Ek), units_colour_S. lia.
    + injection H as <-. apply (staff_go _ _ _ _ s i (SAcquire c k)); auto. intros y. cbn [s_owes]. rewrite take_ge; [done|]. by apply lookup_ge_None.
  - injection H as <-. apply (staff_V _ _ _ _ s i (SVTints c)); auto; count_units.
  - injection H as <-. apply (staff_moves _ _ _ _ s i (SMix c) (SRelease c 0)); cbn; auto; try set_solver.
    + apply (si_sem _ _ _ _ s I).
    + intros x. by left.
    + intros k d Hk. pose proof (si_delivery _ _ _ _ s I k d Hk). set_solver.
  - destruct (requested_colours c !! k) as [[|col]|] eqn:Ek.
    + injection H as <-. apply (staff_go _ _ _ _ s i (SRelease c k)); auto. intros y. cbn [s_owes]. rewrite (tints_drop y _ k _ Ek), units_colour_0. lia.
    + injection H as <-. apply (staff_V _ _ _ _ s i (SRelease c k)); auto. intros y. cbn [s_owes]. rewrite (tints_drop y _ k _ Ek), units_colour_S. lia.
    + injection H as <-. apply (staff_go _ _ _ _ s i (SRelease c k)); auto. intros y. cbn [s_owes]. rewrite drop_ge; [done|]. by apply lookup_ge_None.
Qed.

Lemma serve_order_inv s i pc s' : inv s -> staff s !! i = Some pc -> serve_order i pc s = Some s' -> inv s'.
Proof.
  intros I Hi H. destruct (si_len _ _ _ _ s I) as (_ & _ & L1 & L2). pose proof (si_staff _ _ _ _ s I i pc Hi) as Kn.
  destruct pc; cbn [serve_order] in H; try done.
  - apply (staff_P _ _ _ _ s i _ _ _ _ I Hi H); auto; count_units.
  - apply (staff_P _ _ _ _ s i _ _ _ _ I Hi H); auto; count_units.
  - pose proof (delivery_slot s i _ I Hi eq_refl) as Hs. injection H as <-.
    apply (staff_moves _ _ _ _ s i (SServe c) SVDelivery); cbn; auto.
    + by rewrite store_can_length.
    + apply (si_sem _ _ _ _ s I).
    + intros []; left; cbn; unfold occupied; rewrite ?store_can_wsum by done; unfold one, unit_of; cbn; lia.
    + intros q. rewrite store_can_wsum by done. lia.
    + intros k d Hk. apply store_can_lookup in Hk. destruct Hk as [->|Hk]; [done | by apply (si_delivery _ _ _ _ s I k)].
  - injection H as <-. apply (staff_V _ _ _ _ s i SVDelivery); auto; count_units.
  - injection H as <-. apply (staff_V _ _ _ _ s i SVReady); auto; count_units.
Qed.

Lemma staff_inv s i s' : inv s -> staff_member requested_colours i s = Some s' -> inv s'.
Proof.
  intros I H. unfold staff_member in H. destruct (staff s !! i) as [pc|] eqn:Hi; [|done]. cbn in H.
  destruct pc; try (by apply (take_order_inv s i _ s' I Hi H)); try (by apply (fill_order_inv s i _ s' I Hi H));
    by apply (serve_order_inv s i _ s' I Hi H).
Qed.

Lemma shop_step_inv s s' : inv s -> shop_step requested_colours s s' -> inv s'.
Proof. intros I [i call H|i H]; [by apply (customer_inv s i call) | by apply (staff_inv s i)]. Qed.

Lemma reachable_inv s : rtc (shop_step requested_colours) (paintshop_open NCUSTOMERS NSTAFF NCOLOURS) s -> inv s.
Proof. intros H. apply (rtc_inv _ inv _ s shop_step_inv H open_inv). Qed.

End safe.

(** The places of the shop where a can is: slots of the two buffers and the
    hands of the staff. *)
Definition places (c : can) (s : shop) : Z :=
  wsum (wcan (is_can c)) (order_buffer s) + wsum (fun pc => wcan (is_can c) (s_has pc)) (staff s) + wsum (wcan (is_can c)) (delivery_buffer s).

Lemma waits_can_of c pc : wcan (is_can c) (c_waits pc) <= wcan (is_can c) (can_of pc).
Proof. destruct pc as [| | | | | | | | |d []|d []| | | | | |]; cbn; try lia; apply is_can_range. Qed.

(** C21: In every state the paint shop can reach, whatever way the threads
    interleave, the can of a customer who has handed it in and not yet found
    it is in exactly one place, a can is nowhere twice, nor in the shop
    without a customer waiting for it; and a customer who has found the can
    has a can that was mixed since it was ordered, and nobody else has it. *)
Theorem cans_are_safe NCUSTOMERS NSTAFF NCOLOURS requested_colours s :
  rtc (shop_step requested_colours) (paintshop_open NCUSTOMERS NSTAFF NCOLOURS) s ->
  (forall c, 0 <= places c s <= 1) /\
  (forall c, places c s = 1 -> exists i pc, customers s !! i = Some pc /\ c_waits pc = Some c) /\
  (forall i pc c, customers s !! i = Some pc -> c_waits pc = Some c -> places c s = 1) /\
  (forall i c, customers s !! i = Some (CVEmpty c) -> c ∈ mixed s /\ places c s = 0).
Proof.
  intros Hr. pose proof (reachable_inv NCUSTOMERS NSTAFF NCOLOURS requested_colours s Hr) as I.
  pose proof (fun c => si_place _ _ _ _ s I (is_can c)) as Hp. pose proof (si_own _ _ _ _ s I) as Ho.
  assert (Hw : forall c, wsum (fun pc => wcan (is_can c) (c_waits pc)) (customers s) <= wsum (fun pc => wcan (is_can c) (can_of pc)) (customers s)).
  { intros c. apply wsum_le, waits_can_of. }
  assert (Hn : forall c, 0 <= wsum (fun pc => wcan (is_can c) (c_waits pc)) (customers s)).
  { intros c. apply wsum_nonneg. intros pc. apply wcan_is_nonneg. }
  unfold places. split_and!.
  - intros c. rewrite <- Hp. specialize (Hw c). specialize (Ho c). specialize (Hn c). lia.
  - intros c. rewrite <- Hp. intros H1.
    destruct (wsum_pos (fun pc => wcan (is_can c) (c_waits pc)) (customers s)) as (i & pc & Hi & Hc); [intros pc; apply wcan_is_nonneg | lia|].
    exists i, pc. split; [done|]. destruct (c_waits pc) as [d|]; cbn in Hc; [|lia]. unfold is_can in Hc. destruct (Nat.eqb_spec c d); [by subst | lia].
  - intros i pc c Hi Hc. rewrite <- Hp. specialize (Hw c). specialize (Ho c).
    pose proof (wsum_elem (fun pc => wcan (is_can c) (c_waits pc)) _ i pc (fun pc => wcan_is_nonneg c (c_waits pc)) Hi) as He.
    cbn in He. rewrite Hc in He. cbn in He. rewrite is_can_refl in He. lia.
  - intros i c Hi. split; [by apply (si_customers _ _ _ _ s I i _ Hi)|]. rewrite <- Hp.
    assert (Hg : forall pc, 0 <= wcan (is_can c) (can_of pc) - wcan (is_can c) (c_waits pc)) by (intros pc; pose proof (waits_can_of c pc); lia).
    pose proof (wsum_elem (fun pc => wcan (is_can c) (can_of pc) - wcan (is_can c) (c_waits pc)) _ i _ Hg Hi) as He.
    rewrite wsum_sub in He. cbn in He. rewrite is_can_refl in He. specialize (Hn c). specialize (Ho c). lia.
Qed.

(** C22: Two staff members never mix with the same tint at once: the colours
    other than 0 of the cans they are mixing are disjoint. *)
Theorem tints_are_exclusive NCUSTOMERS NSTAFF NCOLOURS requested_colours s i j c d col :
  rtc (shop_step requested_colours) (paintshop_open NCUSTOMERS NSTAFF NCOLOURS) s ->
  i <> j -> staff s !! i = Some (SMix c) -> staff s !! j = Some (SMix d) ->
  col <> 0%nat -> col ∈ requested_colours c -> ~ col ∈ requested_colours d.
Proof.
  intros Hr Hne Hi Hj Hcol Hc Hd. pose proof (reachable_inv NCUSTOMERS NSTAFF NCOLOURS requested_colours s Hr) as I.
  pose proof (si_balance _ _ _ _ s I (access_specific_tints col)) as Hb. unfold balance, balanced, init_semaphore in Hb. cbn [in_buffers] in Hb.
  pose proof (customers_owe_nonneg s (access_specific_tints col)). pose proof (si_sem _ _ _ _ s I (access_specific_tints col)).
  pose proof (wsum_two (fun pc => units (access_specific_tints col) (s_owes requested_colours pc)) _ i j _ _ (fun pc => units_nonneg _ _) Hne Hi Hj) as Ht.
  cbn [s_owes] in Ht. pose proof (units_tints col _ Hcol Hc). pose proof (units_tints col _ Hcol Hd).
  destruct (col <? NCOLOURS)%nat; lia.
Qed.
