(* ===== verification/PaintshopLive.v ===== *)
(** * The paint shop can always serve its customers

    Customers and staff wait by going round loops, so not every step helps.
    Here is a measure of the work that the orders still need; as long as
    somebody waits there is a step that lowers it. *)

From stdpp Require Import gmap.
From S2P Require Import Prelude Interleave Paintshop PaintshopInv PaintshopSafe.

(** Is the can in the delivery buffer, is there one in the order buffer? *)
Definition delivered (b : list (option can)) (c : can) : bool := 0 <? wsum (wcan (is_can c)) b.
Definition pending (b : list (option can)) : bool := 0 <? occupied b.

Section live.
Context (NCUSTOMERS NSTAFF NCOLOURS : nat) (requested_colours : can -> list nat).
Abbreviation inv := (shop_inv NCUSTOMERS NSTAFF NCOLOURS requested_colours).
Abbreviation owes := (s_owes requested_colours).

(** ** The measure *)

Definition complexity (c : can) : Z := Z.of_nat (length (requested_colours c)).

(** The work a can in the order buffer needs. *)
Definition slot_work (c : can) : Z := 35 + 2 * complexity c.

Definition c_work (d : list (option can)) (pc : customer_pc) : Z :=
  match pc with
  | CPEmpty c => 52 + 2 * complexity c + 11 * Z.of_nat NSTAFF
  | CPOrder c => 51 + 2 * complexity c + 11 * Z.of_nat NSTAFF
  | CPut c => 50 + 2 * complexity c + 11 * Z.of_nat NSTAFF
  | CVOrder c => if delivered d c then 14 else 6
  | CVFull c => if delivered d c then 13 else 5
  | CVDelivery c false => if delivered d c then 12 else 2
  | CVReady c false => if delivered d c then 11 else 1
  | CPReady c => if delivered d c then 10 else 0
  | CPDelivery c => if delivered d c then 9 else 4
  | CSearch c => if delivered d c then 8 else 3
  | CVDelivery _ true => 3
  | CVReady _ true => 2
  | CVEmpty _ => 1
  | _ => 0
  end.

Definition s_work (o : list (option can)) (pc : staff_pc) : Z :=
  match pc with
  | SVOrder None => if pending o then 13 else 2
  | SVFull None => if pending o then 12 else 1
  | STest => if pending o then 11 else 0
  | SPFull => if pending o then 10 else 0
  | SPOrder => if pending o then 9 else 4
  | STake => if pending o then 8 else 3
  | SVOrder (Some c) => 34 + 2 * complexity c
  | SVFull (Some c) => 33 + 2 * complexity c
  | SVEmpty c => 32 + 2 * complexity c
  | SPTints c => 31 + 2 * complexity c
  | SAcquire c k => 30 + complexity c + Z.of_nat (length (requested_colours c) - k)
  | SVTints c => 29 + complexity c
  | SMix c => 28 + complexity c
  | SRelease c k => 27 + Z.of_nat (length (requested_colours c) - k)
  | SPSpace _ => 26
  | SPDelivery _ => 25
  | SServe _ => 24
  | SVDelivery => 13
  | SVReady => 12
  | SPExit | SVExit | SGone => 0
  end.

Definition work (s : shop) : Z :=
  wsum (c_work (delivery_buffer s)) (customers s) + wsum (s_work (order_buffer s)) (staff s) + wsum (wcan slot_work) (order_buffer s).

Lemma work_nonneg s : 0 <= work s.
Proof.
  assert (forall c, 0 <= complexity c) as HL by (intros c; unfold complexity; lia).
  assert (Hc : 0 <= wsum (c_work (delivery_buffer s)) (customers s)).
  { apply wsum_nonneg. intros pc. destruct pc as [|c|c|c|c|c|c|c|c|c []|c []|c| | | | |]; cbn; try specialize (HL c); try lia; destruct (delivered _ c); lia. }
  assert (Hs : 0 <= wsum (s_work (order_buffer s)) (staff s)).
  { apply wsum_nonneg. intros pc. destruct pc as [| | | | | | |[c|]|[c|]|c|c|c k|c|c|c k|c|c|c| |]; cbn [s_work]; try specialize (HL c); try lia; destruct (pending _); lia. }
  assert (Ho : 0 <= wsum (wcan slot_work) (order_buffer s)).
  { apply wsum_nonneg. intros [c|]; cbn; [|lia]. specialize (HL c). unfold slot_work. lia. }
  unfold work. lia.
Qed.

(** ** How the steps change it *)

Lemma work_customer s i pc pc' f r m : customers s !! i = Some pc ->
  work (Shop f (order_buffer s) (delivery_buffer s) r (<[i := pc']> (customers s)) (staff s) m) =
  work s - c_work (delivery_buffer s) pc + c_work (delivery_buffer s) pc'.
Proof. intros Hi. unfold work; cbn. rewrite (wsum_insert _ _ _ _ _ Hi). lia. Qed.

Lemma work_staff s i pc pc' f r m : staff s !! i = Some pc ->
  work (Shop f (order_buffer s) (delivery_buffer s) r (customers s) (<[i := pc']> (staff s)) m) =
  work s - s_work (order_buffer s) pc + s_work (order_buffer s) pc'.
Proof. intros Hi. unfold work; cbn. rewrite (wsum_insert _ _ _ _ _ Hi). lia. Qed.

Lemma s_work_pending o o' pc : s_work o' pc <= s_work o pc + 11.
Proof. destruct pc as [| | | | | | |[]|[]| | | | | | | | | | |]; cbn [s_work]; try lia; destruct (pending o), (pending o'); lia. Qed.

Lemma s_work_mono o o' pc : (pending o' = true -> pending o = true) -> s_work o' pc <= s_work o pc.
Proof.
  intros H. destruct pc as [| | | | | | |[]|[]| | | | | | | | | | |]; cbn [s_work]; try lia;
    destruct (pending o), (pending o'); try lia; by specialize (H eq_refl).
Qed.

(** A delivery concerns one customer. *)
Lemma c_work_delivery d d' c pc :
  (forall x, x <> c -> wsum (wcan (is_can x)) d' = wsum (wcan (is_can x)) d) ->
  c_work d' pc <= c_work d pc + 10 * wcan (is_can c) (c_waits pc).
Proof.
  intros H. assert (Hd : forall x, is_can c x = 0 -> delivered d' x = delivered d x).
  { intros x Hx. unfold delivered. rewrite H; [done|]. intros ->. by rewrite is_can_refl in Hx. }
  assert (Hr : forall x, is_can c x = 0 \/ is_can c x = 1) by (intros x; unfold is_can; destruct (c =? x)%nat; auto).
  destruct pc as [|x|x|x|x|x|x|x|x|x []|x []|x| | | | |]; cbn; try lia;
    (destruct (Hr x) as [Hx|Hx]; [rewrite (Hd x Hx)|]; rewrite ?Hx; destruct (delivered d x), (delivered d' x); lia).
Qed.

Lemma c_work_mono d d' pc : (forall x, delivered d' x = true -> delivered d x = true) -> c_work d' pc <= c_work d pc.
Proof.
  intros H. destruct pc as [|x|x|x|x|x|x|x|x|x []|x []|x| | | | |]; cbn; try lia;
    specialize (H x); destruct (delivered d x), (delivered d' x); try lia; by specialize (H eq_refl).
Qed.

Lemma wsum_add_const {A} (f : A -> Z) k l : wsum (fun x => f x + k) l = wsum f l + k * Z.of_nat (length l).
Proof. induction l as [|x l IH]; cbn [wsum length]; lia. Qed.

Lemma wsum_add_scaled {A} (f g : A -> Z) k l : wsum (fun x => f x + k * g x) l = wsum f l + k * wsum g l.
Proof. induction l as [|x l IH]; cbn [wsum]; lia. Qed.

Lemma put_lowers s i c : inv s -> customers s !! i = Some (CPut c) ->
  work (cgo i (CVOrder c) (set_orders (store_can c (order_buffer s)) s)) < work s.
Proof.
  intros I Hi. pose proof (order_slot _ _ _ _ s i _ I Hi eq_refl) as Hs. unfold work; cbn.
  rewrite (wsum_insert _ _ _ _ _ Hi), store_can_wsum by done. destruct (si_len _ _ _ _ s I) as (_ & HL & _).
  pose proof (wsum_le (s_work (store_can c (order_buffer s))) (fun pc => s_work (order_buffer s) pc + 11) (staff s) (s_work_pending _ _)) as Hw.
  rewrite wsum_add_const, HL in Hw. cbn. unfold slot_work. destruct (delivered (delivery_buffer s) c); lia.
Qed.

Lemma search_lowers s i c f b : customers s !! i = Some (CSearch c) -> find_can c (delivery_buffer s) = (f, b) ->
  work (cgo i (CVDelivery c f) (set_deliveries b s)) < work s.
Proof.
  intros Hi E. destruct (find_can_spec _ _ _ _ E) as (_ & F2 & _ & F4 & F5). unfold work; cbn. rewrite (wsum_insert _ _ _ _ _ Hi).
  assert (Hd : forall x, delivered b x = true -> delivered (delivery_buffer s) x = true).
  { intros x Hx. unfold delivered in *. apply Z.ltb_lt in Hx. apply Z.ltb_lt. rewrite (F2 (is_can x)). pose proof (is_can_range x c). destruct f; lia. }
  pose proof (wsum_le (c_work b) (c_work (delivery_buffer s)) (customers s) (fun pc => c_work_mono _ _ pc Hd)) as Hw.
  pose proof (wsum_elem (fun pc => c_work (delivery_buffer s) pc - c_work b pc) _ i _ (fun pc => proj2 (Z.le_0_sub _ _) (c_work_mono _ _ pc Hd)) Hi) as He.
  rewrite wsum_sub in He. cbn in He. destruct f; cbn in *.
  - assert (delivered (delivery_buffer s) c = true) as Hc.
    { destruct (F4 eq_refl) as [k Hk]. unfold delivered. apply Z.ltb_lt. pose proof (wsum_elem _ _ k _ (wcan_is_nonneg c) Hk) as H1. cbn in H1. rewrite is_can_refl in H1. lia. }
    rewrite Hc in *. destruct (delivered b c); lia.
  - assert (delivered (delivery_buffer s) c = false) as Hc by (unfold delivered; by rewrite (F5 eq_refl)).
    assert (delivered b c = false) as Hb by (destruct (delivered b c) eqn:Eb; [by rewrite (Hd c Eb) in Hc | done]).
    rewrite Hb, Hc in *. lia.
Qed.

Lemma take_lowers s i o b : staff s !! i = Some STake -> take_can (order_buffer s) = (o, b) ->
  work (sgo i (SVOrder o) (set_orders b s)) < work s.
Proof.
  intros Hi E. destruct (take_can_spec _ _ _ E) as (_ & T2 & T3). unfold work; cbn. rewrite (wsum_insert _ _ _ _ _ Hi), (T2 slot_work).
  assert (Hp : pending b = true -> pending (order_buffer s) = true).
  { unfold pending, occupied. rewrite !Z.ltb_lt, (T2 one). pose proof (wcan_one_nonneg o). lia. }
  pose proof (wsum_elem (fun pc => s_work (order_buffer s) pc - s_work b pc) _ i _ (fun pc => proj2 (Z.le_0_sub _ _) (s_work_mono _ _ pc Hp)) Hi) as He.
  rewrite wsum_sub in He. cbn in He. destruct o as [c|]; cbn.
  - unfold slot_work. destruct (pending b), (pending (order_buffer s)); lia.
  - assert (pending (order_buffer s) = false) as Hn by (unfold pending; by rewrite (T3 eq_refl)).
    assert (pending b = false) as Hb by (destruct (pending b); [by rewrite (Hp eq_refl) in Hn | done]). rewrite Hn, Hb in *. lia.
Qed.

Lemma serve_lowers s i c : inv s -> staff s !! i = Some (SServe c) ->
  work (sgo i SVDelivery (set_deliveries (store_can c (delivery_buffer s)) s)) < work s.
Proof.
  intros I Hi. pose proof (delivery_slot _ _ _ _ s i _ I Hi eq_refl) as Hs. unfold work; cbn. rewrite (wsum_insert _ _ _ _ _ Hi).
  pose proof (wsum_le (c_work (store_can c (delivery_buffer s))) (fun pc => c_work (delivery_buffer s) pc + 10 * wcan (is_can c) (c_waits pc)) (customers s)) as Hw.
  rewrite wsum_add_scaled in Hw. specialize (Hw ltac:(intros pc; apply c_work_delivery; intros x Hx; rewrite store_can_wsum by done; unfold is_can at 2; destruct (Nat.eqb_spec x c); [done | lia])).
  pose proof (wsum_le _ _ (customers s) (waits_can_of c)). pose proof (si_own _ _ _ _ s I c). cbn. lia.
Qed.

(** ** Threads that can take a step that helps *)

Ltac customer_work s i Hi := unfold cgo; cbn [sem_V set_orders set_deliveries sem order_buffer delivery_buffer remaining_customers customers staff mixed]; rewrite (work_customer s i _ _ _ _ _ Hi); cbn [c_work].
Ltac staff_work s i Hi := unfold sgo; cbn [sem_V set_mixed sem order_buffer delivery_buffer remaining_customers customers staff mixed]; rewrite (work_staff s i _ _ _ _ _ Hi); cbn [s_work]; unfold complexity.

Definition c_ready (s : shop) (pc : customer_pc) : bool :=
  match pc with
  | CPEmpty _ => 0 <? sem s order_buffer_empty
  | CPOrder _ => 0 <? sem s order_mutex
  | CPReady c => (0 <? sem s ready_cans) && delivered (delivery_buffer s) c
  | CPDelivery _ => 0 <? sem s delivery_mutex
  | CPut _ | CVOrder _ | CVFull _ | CSearch _ | CVDelivery _ _ | CVReady _ _ | CVEmpty _ => true
  | _ => false
  end.

Definition s_ready (s : shop) (pc : staff_pc) : bool :=
  match pc with
  | STest => negb (remaining_customers s =? 0) && pending (order_buffer s)
  | SPFull => (0 <? sem s order_buffer_full) && pending (order_buffer s)
  | SPOrder => 0 <? sem s order_mutex
  | SPTints _ => 0 <? sem s tints_mutex
  | SAcquire c k => match requested_colours c !! k with Some (S col) => 0 <? sem s (access_specific_tints (S col)) | _ => true end
  | SPSpace _ => 0 <? sem s delivery_buffer_empty
  | SPDelivery _ => 0 <? sem s delivery_mutex
  | SPExit | SVExit | SGone => false
  | _ => true
  end.

Definition helps (s : shop) : Prop := exists s', shop_step requested_colours s s' /\ work s' < work s.

Lemma P_Some x s : 0 < sem s x -> sem_P x s = Some (Shop (fun y => sem s y - unit_of x y) (order_buffer s) (delivery_buffer s) (remaining_customers s) (customers s) (staff s) (mixed s)).
Proof. intros H. unfold sem_P. by rewrite (proj2 (Z.ltb_lt _ _) H). Qed.

Lemma customer_helps s i pc : inv s -> customers s !! i = Some pc -> c_ready s pc = true -> helps s.
Proof.
  intros I Hi Hr. assert (Hgo : forall s', order_paint i pc s = Some s' -> work s' < work s -> helps s).
  { intros s' Ho Hw. exists s'. split; [|done]. apply (step_customer _ _ _ i None). unfold customer. rewrite Hi. cbn. by destruct pc. }
  destruct pc as [|c|c|c|c|c|c|c|c|c f|c f|c| | | | |]; cbn in Hr; try done.
  all: rewrite ?andb_true_iff, ?Z.ltb_lt in Hr.
  - eapply Hgo; [cbn; rewrite P_Some by done; done|]. customer_work s i Hi. lia.
  - eapply Hgo; [cbn; rewrite P_Some by done; done|]. customer_work s i Hi. lia.
  - eapply Hgo; [done|]. by apply put_lowers.
  - eapply Hgo; [done|]. customer_work s i Hi. destruct (delivered _ c); lia.
  - eapply Hgo; [done|]. customer_work s i Hi. destruct (delivered _ c); lia.
  - destruct Hr as [Hr Hd]. eapply Hgo; [cbn; rewrite P_Some by done; done|]. customer_work s i Hi. rewrite Hd. lia.
  - eapply Hgo; [cbn; rewrite P_Some by done; done|]. customer_work s i Hi. destruct (delivered _ c); lia.
  - destruct (find_can c (delivery_buffer s)) as [f b] eqn:E. eapply Hgo; [cbn; rewrite E; done|]. by apply search_lowers.
  - eapply Hgo; [done|]. customer_work s i Hi. destruct f; [lia|]. destruct (delivered _ c); lia.
  - eapply Hgo; [done|]. customer_work s i Hi. destruct f; cbn; [lia|]. destruct (delivered _ c); lia.
  - eapply Hgo; [done|]. customer_work s i Hi. lia.
Qed.

Lemma staff_helps s i pc : inv s -> staff s !! i = Some pc -> s_ready s pc = true -> helps s.
Proof.
  intros I Hi Hr.
  assert (Hgo : forall s', staff_member requested_colours i s = Some s' -> work s' < work s -> helps s).
  { intros s' Ho Hw. exists s'. split; [|done]. by apply (step_staff _ _ _ i). }
  unfold staff_member in Hgo. rewrite Hi in Hgo. cbn in Hgo.
  destruct pc as [| | | | | | |o|o|c|c|c k|c|c|c k|c|c|c| |]; cbn [s_ready] in Hr; try done; cbn in Hgo.
  all: rewrite ?andb_true_iff, ?Z.ltb_lt in Hr.
  - destruct Hr as [Hr Hp]. apply negb_true_iff in Hr. rewrite Hr in Hgo. eapply Hgo; [done|]. staff_work s i Hi. rewrite Hp. lia.
  - destruct Hr as [Hr Hp]. rewrite P_Some in Hgo by done. eapply Hgo; [done|]. staff_work s i Hi. rewrite Hp. lia.
  - rewrite P_Some in Hgo by done. eapply Hgo; [done|]. staff_work s i Hi. destruct (pending _); lia.
  - destruct (take_can (order_buffer s)) as [o b] eqn:E. eapply Hgo; [done|]. by apply take_lowers.
  - eapply Hgo; [done|]. staff_work s i Hi. destruct o; [lia|]. destruct (pending _); lia.
  - eapply Hgo; [done|]. staff_work s i Hi. destruct o; cbn [s_work]; unfold complexity; [lia|]. destruct (pending _); lia.
  - eapply Hgo; [done|]. staff_work s i Hi. lia.
  - rewrite P_Some in Hgo by done. eapply Hgo; [done|]. staff_work s i Hi. lia.
  - destruct (requested_colours c !! k) as [[|col]|] eqn:Ek.
    + apply lookup_lt_Some in Ek. eapply Hgo; [done|]. staff_work s i Hi. lia.
    + apply lookup_lt_Some in Ek. apply Z.ltb_lt in Hr. rewrite P_Some in Hgo by done. eapply Hgo; [done|].
      staff_work s i Hi. lia.
    + eapply Hgo; [done|]. staff_work s i Hi. lia.
  - eapply Hgo; [done|]. staff_work s i Hi. lia.
  - eapply Hgo; [done|]. staff_work s i Hi. lia.
  - destruct (requested_colours c !! k) as [[|col]|] eqn:Ek.
    + apply lookup_lt_Some in Ek. eapply Hgo; [done|]. staff_work s i Hi. lia.
    + apply lookup_lt_Some in Ek. eapply Hgo; [done|]. staff_work s i Hi. lia.
    + eapply Hgo; [done|]. staff_work s i Hi. lia.
  - rewrite P_Some in Hgo by done. eapply Hgo; [done|]. staff_work s i Hi. lia.
  - rewrite P_Some in Hgo by done. eapply Hgo; [done|]. staff_work s i Hi. lia.
  - eapply Hgo; [done|]. by apply serve_lowers.
  - eapply Hgo; [done|]. staff_work s i Hi. lia.
  - eapply Hgo; [done|]. staff_work s i Hi. destruct (pending _); lia.
Qed.

(** ** Somebody can always help *)

Hypothesis some_staff : (0 < NSTAFF)%nat.
Hypothesis colours_exist : forall c k col, requested_colours c !! k = Some col -> (col < NCOLOURS)%nat.
Hypothesis colours_distinct : forall c k k' col,
  requested_colours c !! k = Some (S col) -> requested_colours c !! k' = Some (S col) -> k = k'.

Lemma tints_mem col l : 0 < units (access_specific_tints col) (tints l) -> exists k, l !! k = Some col.
Proof.
  intros H. destruct (wsum_pos _ _ (fun x => proj1 (unit_of_range x _)) H) as (j & x & Hj & Hx).
  destruct (unit_of_spec x (access_specific_tints col)) as [[-> _]|[_ He]]; [|lia].
  unfold tints in Hj. rewrite list_lookup_fmap in Hj. destruct (filter (fun c => c <> 0%nat) l !! j) as [y|] eqn:Hy; [|done]. injection Hj as ->.
  apply list_elem_of_lookup_2, list_elem_of_filter in Hy. destruct Hy as [_ Hy]. by apply list_elem_of_lookup in Hy.
Qed.

(** A state in which nobody can help. *)
Record stuck (s : shop) : Prop := {
  st_customers : forall i pc, customers s !! i = Some pc -> c_ready s pc = false;
  st_staff : forall i pc, staff s !! i = Some pc -> s_ready s pc = false
}.

Lemma stuck_dec s : inv s -> helps s \/ stuck s.
Proof.
  intros I.
  destruct (some_or_none (c_ready s) (customers s)) as [(i & pc & Hi & Hr)|Hc]; [left; by apply (customer_helps s i pc)|].
  destruct (some_or_none (s_ready s) (staff s)) as [(i & pc & Hi & Hr)|Hs]; [left; by apply (staff_helps s i pc)|].
  by right.
Qed.

Section stuck_states.
Context (s : shop) (I : inv s) (S : stuck s).

(** Nobody owes what only busy threads owe. *)
Lemma customers_owe_nothing x : (forall pc, c_ready s pc = false -> units x (c_owes pc) = 0) ->
  wsum (fun pc => units x (c_owes pc)) (customers s) = 0.
Proof. intros H. apply wsum_all_zero. intros i pc Hi. apply H, (st_customers s S i pc Hi). Qed.

Lemma staff_owe_nothing x : (forall pc, s_ready s pc = false -> units x (owes pc) = 0) ->
  wsum (fun pc => units x (owes pc)) (staff s) = 0.
Proof. intros H. apply wsum_all_zero. intros i pc Hi. apply H, (st_staff s S i pc Hi). Qed.

Lemma no_tint_units x l : match x with access_specific_tints _ => False | _ => True end -> units x (tints l) = 0.
Proof.
  intros Hx. unfold tints. induction (filter (fun c => c <> 0%nat) l) as [|c k IH]; [done|]. rewrite fmap_cons, units_cons, IH. by destruct x.
Qed.

Lemma stuck_order_mutex : sem s order_mutex = 1.
Proof.
  pose proof (si_balance _ _ _ _ s I order_mutex) as Hb. unfold balance in Hb. cbn in Hb.
  rewrite customers_owe_nothing, staff_owe_nothing in Hb; [lia | |].
  - intros pc Hr. destruct pc as [| | | | | | |[]|[]| | | | | | | | | | |]; cbn [s_owes s_ready] in *; rewrite ?units_cons, ?no_tint_units by done; try done.
  - intros pc Hr. destruct pc as [| | | | | | | | |c []|c []| | | | | |]; cbn in *; try done.
Qed.

Lemma stuck_delivery_mutex : sem s delivery_mutex = 1.
Proof.
  pose proof (si_balance _ _ _ _ s I delivery_mutex) as Hb. unfold balance in Hb. cbn in Hb.
  rewrite customers_owe_nothing, staff_owe_nothing in Hb; [lia | |].
  - intros pc Hr. destruct pc as [| | | | | | |[]|[]| | | | | | | | | | |]; cbn [s_owes s_ready] in *; rewrite ?units_cons, ?no_tint_units by done; try done.
  - intros pc Hr. destruct pc as [| | | | | | | | |c []|c []| | | | | |]; cbn in *; try done.
Qed.

(** Nobody waits for a tint: the one who has it would be mixing. *)
Lemma stuck_no_acquire i c k : staff s !! i <> Some (SAcquire c k).
Proof.
  intros Hi. pose proof (st_staff s S i _ Hi) as Hr. cbn in Hr. destruct (requested_colours c !! k) as [[|col]|] eqn:Ek; try done.
  apply Z.ltb_ge in Hr. pose proof (si_balance _ _ _ _ s I (access_specific_tints (Datatypes.S col))) as Hb.
  unfold balance, balanced, init_semaphore in Hb. cbn [in_buffers] in Hb.
  rewrite (proj2 (Nat.ltb_lt _ _) (colours_exist c k _ Ek)), customers_owe_nothing in Hb.
  2: { intros pc _. destruct pc as [| | | | | | | | |d []|d []| | | | | |]; done. }
  pose proof (si_sem _ _ _ _ s I (access_specific_tints (Datatypes.S col))).
  destruct (wsum_pos (fun pc => units (access_specific_tints (Datatypes.S col)) (owes pc)) (staff s)) as (j & pc & Hj & Hu); [intros pc; apply units_nonneg | lia|].
  pose proof (st_staff s S j pc Hj) as Hr'.
  destruct pc as [| | | | | | |[]|[]| | |d k'| | | | | | | |]; cbn [s_owes s_ready] in *; try done; try (cbn in Hu; lia).
  destruct (decide (i = j)) as [<-|Hne].
  - rewrite Hi in Hj. injection Hj as <- <-. rewrite units_cons in Hu. change (unit_of tints_mutex _) with 0 in Hu.
    destruct (tints_mem _ _ Hu) as [k' Hk']. pose proof (lookup_lt_Some _ _ _ Hk') as Hl. rewrite length_take in Hl.
    rewrite lookup_take_lt in Hk' by lia. pose proof (colours_distinct c k k' col Ek Hk'). lia.
  - pose proof (si_balance _ _ _ _ s I tints_mutex) as Ht. unfold balance in Ht. cbn [in_buffers balanced init_semaphore] in Ht.
    pose proof (wsum_two (fun pc => units tints_mutex (owes pc)) _ i j _ _ (fun pc => units_nonneg _ _) Hne Hi Hj) as H2.
    cbn [s_owes] in H2. rewrite !units_cons in H2. change (unit_of tints_mutex tints_mutex) with 1 in H2.
    pose proof (units_nonneg tints_mutex (tints (take k (requested_colours c)))). pose proof (units_nonneg tints_mutex (tints (take k' (requested_colours d)))).
    pose proof (customers_owe_nonneg s tints_mutex). pose proof (si_sem _ _ _ _ s I tints_mutex). lia.
Qed.

Lemma stuck_tints_mutex : sem s tints_mutex = 1.
Proof.
  pose proof (si_balance _ _ _ _ s I tints_mutex) as Hb. unfold balance in Hb. cbn in Hb.
  rewrite customers_owe_nothing in Hb by (intros pc _; destruct pc as [| | | | | | | | |d []|d []| | | | | |]; done).
  rewrite wsum_all_zero in Hb; [lia|]. intros i pc Hi. pose proof (st_staff s S i pc Hi) as Hr.
  destruct pc as [| | | | | | |[]|[]| | |d k'| | | | | | | |]; cbn [s_owes s_ready] in *; rewrite ?units_cons, ?no_tint_units by done; try done.
  by destruct (stuck_no_acquire i d k').
Qed.

(** The staff have nothing in hand, but perhaps a can to put down. *)
Lemma waiting_bound i pc : customers s !! i = Some pc -> c_waits pc = None ->
  wsum (fun pc => wcan one (c_waits pc)) (customers s) < Z.of_nat NCUSTOMERS.
Proof.
  intros Hi Hw. destruct (si_len _ _ _ _ s I) as (HL & _).
  pose proof (wsum_bound (fun pc => wcan one (c_waits pc)) (<[i := CVOrder 0%nat]> (customers s))) as Hb.
  rewrite length_insert, (wsum_insert _ _ _ _ _ Hi), Hw in Hb. cbv beta in Hb. change (wcan one (c_waits (CVOrder 0%nat))) with 1 in Hb. change (wcan one None) with 0 in Hb.
  assert (forall pc, wcan one (c_waits pc) <= 1) as H1 by (intros q; destruct (c_waits q); cbn; unfold one; lia). specialize (Hb H1). lia.
Qed.

Lemma stuck_no_space i c : staff s !! i <> Some (SPSpace c).
Proof.
  intros Hi. pose proof (st_staff s S i _ Hi) as Hr. cbn in Hr. apply Z.ltb_ge in Hr.
  pose proof (si_balance _ _ _ _ s I delivery_buffer_empty) as Hb. unfold balance in Hb. cbn in Hb.
  rewrite customers_owe_nothing, staff_owe_nothing in Hb.
  - pose proof (si_place _ _ _ _ s I one) as Hp. pose proof (wsum_bound (fun pc => wcan one (c_waits pc)) (customers s)) as Hw.
    destruct (si_len _ _ _ _ s I) as (HL & _). rewrite HL in Hw.
    assert (forall pc, wcan one (c_waits pc) <= 1) as H1 by (intros q; destruct (c_waits q); cbn; unfold one; lia). specialize (Hw H1).
    pose proof (wsum_elem (fun pc => wcan one (s_has pc)) _ i _ (fun pc => wcan_one_nonneg (s_has pc)) Hi) as He. cbv beta in He. change (wcan one (s_has (SPSpace c))) with 1 in He.
    pose proof (occupied_nonneg (order_buffer s)). unfold occupied in *. lia.
  - intros pc Hr'. destruct pc as [| | | | | | |[]|[]| | | | | | | | | | |]; cbn [s_owes s_ready] in *; rewrite ?units_cons, ?no_tint_units by done; try done.
    by rewrite stuck_delivery_mutex in Hr'.
  - intros pc Hr'. destruct pc as [| | | | | | | | |d []|d []| | | | | |]; cbn in *; try done.
Qed.

(** So they are at the start of [take_order] or have left. *)
Lemma stuck_staff_has i pc : staff s !! i = Some pc -> s_has pc = None /\ units order_buffer_full (owes pc) = 0 /\ units ready_cans (owes pc) = 0 /\ units order_buffer_empty (owes pc) = 0.
Proof.
  intros Hi. pose proof (st_staff s S i pc Hi) as Hr.
  destruct pc as [| | | | | | |[]|[]| | |d k'| | | |d| | | |]; cbn [s_owes s_ready s_has] in *; try done.
  - by rewrite stuck_order_mutex in Hr.
  - by rewrite stuck_tints_mutex in Hr.
  - by destruct (stuck_no_acquire i d k').
  - by destruct (stuck_no_space i d).
  - by rewrite stuck_delivery_mutex in Hr.
Qed.

Lemma stuck_customer_rests i pc c : customers s !! i = Some pc -> can_of pc = Some c -> pc = CPReady c.
Proof.
  intros Hi Hc. pose proof (st_customers s S i pc Hi) as Hr.
  destruct pc; cbn in *; try done; simplify_eq.
  - exfalso. apply Z.ltb_ge in Hr. pose proof (waiting_bound i _ Hi eq_refl) as Hw.
    pose proof (si_balance _ _ _ _ s I order_buffer_empty) as Hb. unfold balance in Hb. cbn in Hb.
    rewrite customers_owe_nothing in Hb.
    2: { intros pc Hr'. destruct pc as [| | | | | | | | |d []|d []| | | | | |]; cbn in *; try done. by rewrite stuck_order_mutex in Hr'. }
    rewrite (wsum_all_zero _ (staff s)) in Hb by (intros j q Hj; by apply (stuck_staff_has j q Hj)).
    pose proof (si_place _ _ _ _ s I one) as Hp. pose proof (occupied_nonneg (delivery_buffer s)).
    pose proof (wsum_nonneg (fun pc => wcan one (s_has pc)) (staff s) (fun pc => wcan_one_nonneg (s_has pc))). unfold occupied in *. lia.
  - by rewrite stuck_order_mutex in Hr.
  - done.
  - by rewrite stuck_delivery_mutex in Hr.
Qed.

Lemma stuck_nobody i pc : customers s !! i = Some pc -> can_of pc = None.
Proof.
  intros Hi. destruct (can_of pc) as [c|] eqn:Hc; [exfalso|done]. pose proof (stuck_customer_rests i pc c Hi Hc) as ->.
  pose proof (st_customers s S i _ Hi) as Hr. cbn in Hr.
  assert (Hpl : 1 <= wsum (wcan (is_can c)) (order_buffer s) + wsum (wcan (is_can c)) (delivery_buffer s)).
  { pose proof (si_place _ _ _ _ s I (is_can c)) as Hp. rewrite (wsum_all_zero _ (staff s)) in Hp by (intros j q Hj; destruct (stuck_staff_has j q Hj) as [-> _]; done).
    pose proof (wsum_elem (fun pc => wcan (is_can c) (c_waits pc)) _ i _ (fun pc => wcan_is_nonneg c (c_waits pc)) Hi) as He. cbn in He. rewrite is_can_refl in He. lia. }
  assert (Hocc : forall b, wsum (wcan (is_can c)) b <= occupied b).
  { intros b. apply wsum_le. intros [d|]; cbn; [|done]. apply is_can_range. }
  destruct (delivered (delivery_buffer s) c) eqn:Ed.
  - rewrite andb_true_r in Hr. apply Z.ltb_ge in Hr. unfold delivered in Ed. apply Z.ltb_lt in Ed. pose proof (Hocc (delivery_buffer s)).
    pose proof (si_balance _ _ _ _ s I ready_cans) as Hb. unfold balance in Hb. cbn in Hb.
    rewrite customers_owe_nothing in Hb.
    2: { intros pc Hr'. destruct pc as [| | | | | | | | |d []|d []| | | | | |]; cbn in *; try done. by rewrite stuck_delivery_mutex in Hr'. }
    rewrite (wsum_all_zero _ (staff s)) in Hb by (intros j q Hj; by apply (stuck_staff_has j q Hj)). lia.
  - unfold delivered in Ed. apply Z.ltb_ge in Ed. pose proof (Hocc (order_buffer s)).
    assert (Hpe : pending (order_buffer s) = true) by (unfold pending; apply Z.ltb_lt; lia).
    destruct (si_len _ _ _ _ s I) as (_ & HL & _). destruct (lookup_lt_is_Some_2 (staff s) 0) as [pc Hpc]; [lia|].
    pose proof (st_staff s S 0%nat pc Hpc) as Hr0. pose proof (si_staff _ _ _ _ s I 0%nat pc Hpc) as Kn.
    pose proof (someone_left _ _ _ _ s i _ I Hi eq_refl) as Hlft. destruct (stuck_staff_has 0%nat pc Hpc) as (Hh & Hf & _).
    destruct pc as [| | | | | | |[]|[]| | | | | | | | | | |]; cbn [s_ready s_knows s_has] in *; rewrite ?Hpe, ?andb_true_r in Hr0; try done; try lia.
    apply Z.ltb_ge in Hr0. pose proof (si_balance _ _ _ _ s I order_buffer_full) as Hb. unfold balance in Hb. cbn in Hb.
    rewrite customers_owe_nothing in Hb by (intros q Hr'; destruct q as [| | | | | | | | |d []|d []| | | | | |]; cbn in *; try done).
    rewrite (wsum_all_zero _ (staff s)) in Hb by (intros j q Hj; by apply (stuck_staff_has j q Hj)). lia.
Qed.

End stuck_states.

Lemma served s : inv s -> exists s', rtc (shop_step requested_colours) s s' /\ forall i pc, customers s' !! i = Some pc -> can_of pc = None.
Proof.
  intros I. remember (Z.to_nat (work s)) as n eqn:Hn. revert s I Hn. induction n as [n IH] using lt_wf_ind. intros s I Hn.
  destruct (stuck_dec s I) as [(s1 & Hs & Hw)|Hst]; [|exists s; split; [done | intros i pc; by apply stuck_nobody]].
  pose proof (shop_step_inv _ _ _ _ s s1 I Hs) as I1. pose proof (work_nonneg s1).
  destruct (IH (Z.to_nat (work s1)) ltac:(lia) s1 I1 eq_refl) as (s' & Hr & Hd). exists s'. split; [by apply (rtc_l _ s s1)|done].
Qed.

End live.

(** C23: The paint shop never gets stuck: with at least one staff member, and
    cans that ask for colours there are and for none twice, there is, from
    every state it can reach, a way for the threads to go on after which every
    customer who was in [order_paint] has returned from it with the can. *)
Theorem customers_can_be_served NCUSTOMERS NSTAFF NCOLOURS requested_colours s :
  (0 < NSTAFF)%nat ->
  (forall c k col, requested_colours c !! k = Some col -> (col < NCOLOURS)%nat) ->
  (forall c k k' col, requested_colours c !! k = Some (S col) -> requested_colours c !! k' = Some (S col) -> k = k') ->
  rtc (shop_step requested_colours) (paintshop_open NCUSTOMERS NSTAFF NCOLOURS) s ->
  exists s', rtc (shop_step requested_colours) s s' /\ forall i pc, customers s' !! i = Some pc -> can_of pc = None.
Proof.
  intros Hs Hc Hd Hr. apply (served NCUSTOMERS NSTAFF NCOLOURS requested_colours Hs Hc Hd). by apply reachable_inv.
Qed.

(** ** The paint shop at work

    A shop with two customers, two staff members and four colours, in which
    the theorems are applied, and one where a can asks twice for a colour. *)

(** Whose turn it is: a customer, with what it orders, or a staff member. *)
Definition shop_turn (colours : can -> list nat) (t : nat * option can + nat) (s : shop) : option shop :=
  match t with inl (i, call) => customer i call s | inr i => staff_member colours i s end.

Definition shop_sched (colours : can -> list nat) (l : list (nat * option can + nat)) (s : shop) : shop :=
  (sched (shop_turn colours) l s).2.

Lemma shop_sched_steps colours l s : rtc (shop_step colours) s (shop_sched colours l s).
Proof.
  apply rtc_nsteps_2 with (n := (sched (shop_turn colours) l s).1), sched_nsteps.
  intros [[i call]|i] s1 s2 H; [by apply (step_customer _ _ _ i call) | by apply (step_staff _ _ _ i)].
Qed.

(** Can 7 needs the tints 1 and 2, every other can the tint 3. *)
Definition demo_colours (c : can) : list nat := if (c =? 7)%nat then [1; 2]%nat else [3]%nat.

(** Both customers order, and both staff members start to mix. *)
Definition demo_orders : list (nat * option can + nat) :=
  replicate 6 (inl (0%nat, Some 7%nat)) ++ replicate 6 (inl (1%nat, Some 8%nat)).
Definition demo_mixing : shop :=
  shop_sched demo_colours (demo_orders ++ replicate 12 (inr 0%nat) ++ replicate 11 (inr 1%nat)) (paintshop_open 2 2 4).

(** The first customer has found the can. *)
Definition demo_found : shop :=
  shop_sched demo_colours (replicate 9 (inr 0%nat) ++ replicate 5 (inl (0%nat, None))) demo_mixing.

Example demo_mixing_staff : staff demo_mixing = [SMix 7%nat; SMix 8%nat].
Proof. vm_compute. done. Qed.

Example demo_found_customers : customers demo_found = [CVEmpty 7%nat; CPReady 8%nat].
Proof. vm_compute. done. Qed.

Lemma demo_mixing_reached : rtc (shop_step demo_colours) (paintshop_open 2 2 4) demo_mixing.
Proof. unfold demo_mixing. apply shop_sched_steps. Qed.

Lemma demo_found_reached : rtc (shop_step demo_colours) (paintshop_open 2 2 4) demo_found.
Proof. transitivity demo_mixing; [apply demo_mixing_reached | unfold demo_found; apply shop_sched_steps]. Qed.

Lemma cans_are_safe_witness : 7%nat ∈ mixed demo_found /\ places 7%nat demo_found = 0 /\ places 8%nat demo_found = 1.
Proof.
  destruct (cans_are_safe 2 2 4 demo_colours demo_found demo_found_reached) as (_ & _ & Hw & Hf).
  destruct (Hf 0%nat 7%nat) as [H1 H2]; [rewrite demo_found_customers; reflexivity|].
  split; [exact H1 | split; [exact H2|]]. apply (Hw 1%nat (CPReady 8%nat) 8%nat); [rewrite demo_found_customers; reflexivity | reflexivity].
Defined.

Lemma tints_are_exclusive_witness : ~ 2%nat ∈ demo_colours 8%nat.
Proof.
  apply (tints_are_exclusive 2 2 4 demo_colours demo_mixing 0 1 7%nat 8%nat 2%nat); [exact demo_mixing_reached | lia | rewrite demo_mixing_staff; reflexivity.. | lia |].
  apply list_elem_of_lookup_2 with (i := 1%nat). reflexivity.
Defined.

Lemma demo_colours_exist c k col : demo_colours c !! k = Some col -> (col < 4)%nat.
Proof.
  unfold demo_colours. destruct (c =? 7)%nat; intros H; destruct k as [|[|k]]; cbn in H; simplify_eq; lia.
Qed.

Lemma demo_colours_distinct c k k' col : demo_colours c !! k = Some (S col) -> demo_colours c !! k' = Some (S col) -> k = k'.
Proof.
  unfold demo_colours. destruct (c =? 7)%nat; intros H H'; destruct k as [|[|k]], k' as [|[|k']]; cbn in H, H'; simplify_eq; done.
Qed.

Lemma customers_can_be_served_witness :
  exists s', rtc (shop_step demo_colours) demo_found s' /\ forall i pc, customers s' !! i = Some pc -> can_of pc = None.
Proof.
  apply (customers_can_be_served 2 2 4 demo_colours demo_found);
    [lia | exact demo_colours_exist | exact demo_colours_distinct | exact demo_found_reached].
Defined.

(** A can that asks twice for a colour stops its staff member for ever, and
    with the mutex of the tints: with one of each, nothing moves again. *)
Definition twice (c : can) : list nat := [1; 1]%nat.

Definition demo_twice : shop :=
  shop_sched twice (replicate 6 (inl (0%nat, Some 7%nat)) ++ replicate 12 (inr 0%nat)) (paintshop_open 1 1 4).

Theorem duplicate_colour_deadlocks :
  rtc (shop_step twice) (paintshop_open 1 1 4) demo_twice /\ customers demo_twice = [CPReady 7%nat] /\
  staff demo_twice = [SAcquire 7%nat 1] /\ sem demo_twice tints_mutex = 0 /\ forall s', ~ shop_step twice demo_twice s'.
Proof.
  split_and!; [unfold demo_twice; apply shop_sched_steps | vm_compute; done.. |].
  intros s' [i call H|i H]; (destruct i as [|i]; [vm_compute in H; done|]); vm_compute in H; destruct i; done.
Qed.
